(* ===== verification/_CoqProject ===== *)
-Q . S2P
Prelude.v
PyStr.v
PyFloat.v
PyJson.v
PyFloatFacts.v
FloatOrder.v
PyTime.v
HistoryState.v
HistoryPlanner.v
PlannerTime.v
PlannerStep.v
PlannerRun.v
PyIso.v
ProgressCodec.v
HistoryLifecycle.v
LifecycleFacts.v
PlannerExamples.v
Enums.v
AnomalyLifecycle.v
RuleCatalog.v
CustomRules.v
Runs.v
CustomRuleTheorems.v
CustomRuleExamples.v
AlertService.v
AlertFacts.v
AlertTheorems.v
Statistics.v
Detectors.v
DetectorFacts.v
DetectorTheorems.v
Thresholds.v
BusinessHours.v
Seasonal.v
Baseline.v
BaselineTheorems.v
DetectExamples.v
OutagePolicy.v
RuleLoaders.v
RuleEngine.v
RuleEngineTheorems.v
EngineCaches.v
Capabilities.v
AnomalyEngine.v
EngineContext.v
EngineRun.v
EnginePending.v
EnginePendingTheorems.v
EngineTheorems.v
EngineDetectTheorems.v
EngineExamples.v
ArielPermit.v
PermitTheorems.v
Redaction.v
Notifications.v
NotificationTheorems.v
NotificationExamples.v
PwFacts.v
PwSearch.v
PwFold.v
PwAdmission.v
PwAdmitTheorems.v
PwTickTheorems.v
PwSearchTheorems.v
PwExamples.v
PwDetect.v
PwDetectTheorems.v
AqlValidator.v
AqlTheorems.v
Accounts.v
SignIn.v
SignInTheorems.v
UserAdmin.v
AccountTheorems.v
AdminTheorems.v
AccountExamples.v
Fleet.v
FleetAdmin.v
ClassifyTheorems.v
FleetTheorems.v
