(* ===== verification/Prelude.v ===== *)
(** * Behavior Analytics: a verification library

    A model of the decision logic of the dashboard's Python backend ([src/backend/app]),
    with the theorems that make it correct. The backend watches log sources through QRadar:
    it reads history backwards within a budget of searches, judges each five-minute bucket
    with statistical detectors and with the operators' own rules, turns verdicts into
    incidents with hysteresis, and keeps one active alert per condition.

    ** The files

    Python itself. [Prelude]: exceptions and the result monad, lists, sums, and the tactics
    the files share. [PyStr], [PyFloat], [PyTime], [PyIso], [PyJson]: strings and text by code
    point, binary64 floats with CPython's exceptions and rounding, datetimes, ISO-8601 text, JSON
    values. [PyFloatFacts]: the magnitude, the bounds and the order of floats, and the operations
    that are exact; [PyRepr] their text.
    [Runs]: hysteresis over a sequence of verdicts, stated without counters.

    History ([app/history]). [HistoryState] is [state.py]: a scope's states, triggers and
    transition table. [HistoryPlanner] is [planner.py]: the floor scan, the next step and
    its settlement; [PlannerTime], [PlannerStep], [PlannerSettle] and [PlannerRun] prove it,
    [PlannerExamples] evaluates it.
    [ProgressCodec] is [progress_codec.py]. [HistoryLifecycle] is [lifecycle.py], the one
    function that says what a tick does to a scope row, proved in [LifecycleFacts].
    The lifecycle calls the state machine and stores the planner's progress
    through the codec.

    Custom rules ([app/custom_rules], [app/waf/measurement.py]). [RuleCatalog] is
    [catalog.py] with the verdict scopes of a measurement; [CustomRules] is [evaluate.py]:
    a reading, its verdict, the fold over buckets and the walk that chooses them. Proved in
    [CustomRuleTheorems] and [CustomRuleWalk].

    Alerts ([app/alerts]). [AlertService] is [service.py] over a table with the partial
    unique index on active alerts; what other transactions commit between a lookup and a
    flush is an argument. Proved in [AlertFacts] and [AlertTheorems].

    Anomalies ([app/anomaly], [app/fleet/outage_policy.py]). What a bucket is judged with:
    [Seasonal] and [Baseline] are [seasonal.py] and [baseline.py] with the origin of a row,
    [Thresholds] is [thresholds.py], [BusinessHours] is [business_hours.py], [Capabilities] the
    log-source part of [capabilities.py], [OutagePolicy] the policy rows. [Statistics] and
    [Detectors] are [statistics.py] and [detectors.py], with [DetectorFacts],
    [DetectorTheorems] and [BaselineTheorems]. [AnomalyLifecycle] is
    [lifecycle.py] and [faults.py], [Evidence] is [evidence.py], and [engine.py] is in parts:
    [EngineContext] loads the context of a bucket, [EngineCaches] answers through the caches of
    a run, [AnomalyEngine] moves counters, state, incident, audit rows and alert by the
    verdicts, [EngineDetect] judges one bucket, [EnginePending] is the loop over the buckets
    due, with its watermark and the record of its failures. Proved in
    [EngineRun], [EngineTheorems], [EngineDetectTheorems] and [EnginePendingTheorems]. [Enums] holds the enumerations of [models/enums.py] that the code
    above stores.

    Notifications ([app/alerts/routing.py], [dispatcher.py], [app/services/backoff.py],
    [app/security/redaction.py]). [Notifications] is the routing of an alert, the queue under
    its unique constraint and the delivery of its rows; [Redaction] what is masked in them.
    Proved in [NotificationFacts] and [NotificationTheorems]. An alert comes
    from [AlertService]; the engines call [enqueue] with the transition it reports.

    Property watches ([app/property_watch], [app/collectors/pw_collector.py]). [PwFacts] is
    [facts.py]: counts, the checks of a bucket fact, the reading of a value in a bucket.
    [PwSearch] is [keyed_search.py]: one search over a window, halved while its answer is cut,
    under a budget, and the chunks of a scope added up. [PwFold] is [fold.py], from a bucket's
    outcomes to its fact, [PwAdmission] is [admission.py] and the loop of [_fold_and_stage] over
    the completed buckets of a tick. Proved in [PwSearchTheorems], [PwFoldTheorems],
    [PwAdmitTheorems] and [PwTickTheorems].

    Queries ([app/services/aql_validator.py]). [AqlValidator] is the lexer, the checks of the token
    stream and their reasons; proved in [AqlTheorems].

    The search budget ([app/services/ariel_permit.py]). [ArielPermit] is a step relation: the
    statements of all requests interleave over the table of advisory locks, and a request may
    die anywhere. Proved in [PermitTheorems].

    Accounts ([app/services/auth_login.py], [auth_sessions.py], [user_admin.py], [ldap_bind.py],
    [app/security]). [Accounts] is the tables, what a username and a password must be, the life of a
    session and the principal of a request; [SignIn] is the sign-in by password or directory bind,
    its locks, and the change of a password; [UserAdmin] is account administration, the break-glass
    command and all of it as one sequence of operations. A handler works on the object it loaded and
    a flush writes the columns that changed, so what overlapping requests do can be stated. Proved in
    [SignInTheorems], [GuessTheorems], [AccountTheorems] and [AdminTheorems].

    The files named [Examples] evaluate the definitions and apply the theorems at concrete
    inputs.

    ** What the theorems show

    A reading of history covers each bucket once, by data or by a recorded gap, ends within
    a computed bound, and is called complete only when it was; a stored progress survives
    its codec and a restart. A custom rule's verdict holds for every true count its reading
    allows, and its breach is live exactly when a sustaining run opened it and no recovery
    run closed it since, whichever way the buckets are batched. Each condition has at most
    one active alert and [apply_bulk] is the single operations one after the other. Each
    detector has at most one live incident, open exactly by the runs of its verdicts, and
    its active alert follows it. The nine detectors return on every bucket of ordinary size, and
    the volume and silence verdicts are characterised exactly; a baseline learns from the clean
    buckets of its cell, all and only them. A tick judges the due buckets in order, and a source
    with a watermark is never blocked by a bucket that fails. A notification is queued once per
    target, delivered at most once and finishes whatever the notifiers answer. However searches
    interleave and die, the permits held stay within their limits and no lock outlives its
    request. A property-watch search gives each bucket one outcome, and a tick stores buckets in
    which no event is lost and whose every reading is honest: a measured zero only where a whole
    search lists no row of the value.

    A query is accepted exactly within its policy, and nothing inside a string or a comment reaches
    the check. A sign-in succeeds exactly under its conditions and gives one answer otherwise; one
    request after the other, a lock bounds the passwords that can be tried; every request let through
    traces to a sign-in that nothing has ended since; an account is changed only by its owner or an
    administrator, and one administrator is always left.

    Some theorems show what the code does where it should not: a missing by_type override, a
    threshold of zero that raises, a first evaluation that starves, an alert id masked in its own
    notification, a target too long for its column, a query with no window that is accepted,
    guesses that overlap and count as one, two administrators disabled at once, an empty password that
    renews a lock that ran out.

    ** Fuel

    A loop whose recursion is not structural takes fuel computed from its arguments: a loop
    over buckets takes the number of buckets left, of which each turn consumes one or more;
    the totality theorems ([plan_step_total], [settle_step_prefix], [walk_buckets_sound],
    [fit_window_largest], [run_search_sound]) show that it suffices. An exhausted
    loop is an error value, never a result.

    ** Not modelled

    QRadar itself, the database engine beyond the constraints above, most sessions and their
    commits, HTTP, the LDAP and mail clients, the workers' schedule, and the frontend: input and
    output around the decisions modelled here. Fingerprints and the digest of a console are
    hashes, parameters; so are bcrypt, the digest of a cookie and the Unicode database. The routes
    of the directory configuration, the rate limit and the cross-site check are not modelled. Two
    runs of the dispatcher at once are not modelled, nor a commit that fails after a delivery. The
    explanations of an incident, the writers of custom-rule alerts, the families' own estimates, the detectors of property watches, the WAF and IPS engines, fleet
    classification and the other collectors are program logic that is not modelled yet. *)

From stdpp Require Export base option list strings pretty gmap sorting.
From Stdlib Require Export ZArith Lia.

#[export] Set Default Goal Selector "!".

Open Scope string_scope.
Open Scope list_scope.
Open Scope Z_scope.

(** ** Exceptions and fallible code

    Python code that may raise is a value of [result]. Every exception class the
    modelled code raises or lets through is a constructor; the argument is the
    message. [PlannerInputError], [IllegalTransitionError], [LifecycleError] and
    [ProgressCodecError] are the classes declared in [app/history]. *)

Inductive exn : Type :=
| ValueError (msg : string)
| TypeError (msg : string)
| OverflowError (msg : string)
| ZeroDivisionError (msg : string)
| KeyError (msg : string)
| AttributeError (msg : string)
| RuntimeError (msg : string)
| AssertionError (msg : string)
| IntegrityError (msg : string)
| IndexError (msg : string)
| DBAPIError (msg : string)
| HTTPException (status_code : Z) (detail : list (list N))
| AuthenticationRequired
| PwFactError (msg : string)
| PwFoldError (msg : string)
| PlannerInputError (msg : string)
| IllegalTransitionError (msg : string)
| LifecycleError (msg : string)
| ProgressCodecError (msg : string).

Inductive result (A : Type) : Type :=
| Ok (a : A)
| Err (e : exn).
Arguments Ok {A} a.
Arguments Err {A} e.

#[export] Instance Ok_inj {A} : Inj (=) (=) (@Ok A).
Proof. by intros x y [= ->]. Qed.

Definition res_bind {A B} (m : result A) (f : A → result B) : result B :=
  match m with Ok a => f a | Err e => Err e end.

Definition res_map {A B} (f : A → B) (m : result A) : result B :=
  match m with Ok a => Ok (f a) | Err e => Err e end.

Declare Scope result_scope.
Delimit Scope result_scope with result.
Open Scope result_scope.

Notation "x <- m ;; k" := (res_bind m (λ x, k))
  (at level 100, m at next level, right associativity) : result_scope.
#[export] Instance exn_eq_dec : EqDecision exn.
Proof. solve_decision. Defined.

(** [if c: raise e] followed by the rest of the body. *)
Definition raise_if (c : bool) (e : exn) : result unit := if c then Err e else Ok tt.

Definition is_ok {A} (m : result A) : Prop := ∃ a, m = Ok a.

(** The Python loop [for x in l: acc = f(acc, x)] where the body may raise. *)
Fixpoint foldM {A B} (f : B → A → result B) (acc : B) (l : list A) : result B :=
  match l with
  | [] => Ok acc
  | x :: l => acc <- f acc x ;; foldM f acc l
  end.

Fixpoint mapM_result {A B} (f : A → result B) (l : list A) : result (list B) :=
  match l with
  | [] => Ok []
  | x :: l => y <- f x ;; ys <- mapM_result f l ;; Ok (y :: ys)
  end.

(** Python's [a // b] and [a % b] on integers, [b <> 0], are [Z.div] and [Z.modulo]. *)
Definition sum_Z (l : list Z) : Z := foldr Z.add 0 l.

(** [x or d] where [x] is an [int | None]: [None] and [0] are falsy. *)
Definition or_int (x : option Z) (d : Z) : Z :=
  match x with Some v => if v =? 0 then d else v | None => d end.

Definition is_some_b {A} (x : option A) : bool := match x with Some _ => true | None => false end.

(** Python's [sorted] for an order [R] that is total: an insertion before the first element that
    is not below keeps equal elements in their order. *)
Fixpoint insert_by {A} (R : relation A) `{!RelDecision R} (x : A) (l : list A) : list A :=
  match l with
  | [] => [x]
  | y :: rest => if decide (R x y) then x :: l else y :: insert_by R x rest
  end.

Definition stable_sort {A} (R : relation A) `{!RelDecision R} (l : list A) : list A := foldr (insert_by R) [] l.

(** ** Tactics *)

(** Reduces binds over known results and closes absurd [Ok = Err] hypotheses. *)
Ltac res_simp :=
  repeat match goal with
  | H : Ok _ = Ok _ |- _ => injection H as H; subst
  | H : Err _ = Err _ |- _ => injection H as H; subst
  | H : Ok _ = Err _ |- _ => discriminate H
  | H : Err _ = Ok _ |- _ => discriminate H
  | H : Some _ = Some _ |- _ => injection H as H; subst
  | H : Some _ = None |- _ => discriminate H
  | H : None = Some _ |- _ => discriminate H
  | H : (_, _) = (_, _) |- _ => injection H as H; subst
  end.

(** Inverts [x <- m ;; k = Ok r] into the success of [m] and of [k]. *)
Ltac bind_inv H :=
  let m' := fresh "r" in let E := fresh "E" in
  match type of H with
  | res_bind ?m _ = Ok _ => destruct m as [m'|] eqn:E; [cbn [res_bind] in H|discriminate H]
  end.

Ltac bool_simp :=
  repeat match goal with
  | H : (_ <? _) = true |- _ => apply Z.ltb_lt in H
  | H : (_ <? _) = false |- _ => apply Z.ltb_ge in H
  | H : (_ <=? _) = true |- _ => apply Z.leb_le in H
  | H : (_ <=? _) = false |- _ => apply Z.leb_gt in H
  | H : (_ =? _) = true |- _ => apply Z.eqb_eq in H
  | H : (_ =? _) = false |- _ => apply Z.eqb_neq in H
  | H : andb _ _ = true |- _ => apply andb_prop in H as [? ?]
  | H : orb _ _ = false |- _ => apply orb_false_elim in H as [? ?]
  | H : negb _ = true |- _ => apply negb_true_iff in H
  | H : negb _ = false |- _ => apply negb_false_iff in H
  end.

(** Case analysis on the scrutinee of a match or a conditional in the goal. *)
Ltac case_match_goal :=
  match goal with
  | |- context [if ?b then _ else _] => destruct b eqn:?
  | |- context [match ?x with _ => _ end] => destruct x eqn:?
  end.

Create HintDb s2p.
Create Rewrite HintDb s2p.

(** ** Generic lemmas *)

Lemma bind_ok {A B} (m : result A) (f : A → result B) (b : B) :
  res_bind m f = Ok b ↔ ∃ a, m = Ok a ∧ f a = Ok b.
Proof.
  split.
  - destruct m as [a|]; cbn; [eauto|discriminate].
  - intros (a & -> & H). exact H.
Qed.

Lemma bind_assoc {A B C} (m : result A) (f : A → result B) (g : B → result C) :
  res_bind (res_bind m f) g = res_bind m (λ a, res_bind (f a) g).
Proof. by destruct m. Qed.

Lemma raise_if_ok c e : raise_if c e = Ok tt ↔ c = false.
Proof. destruct c; cbn; split; congruence. Qed.

Lemma foldM_app {A B} (f : B → A → result B) acc l1 l2 :
  foldM f acc (l1 ++ l2) = (acc' <- foldM f acc l1 ;; foldM f acc' l2).
Proof.
  revert acc. induction l1 as [|x l1 IH]; intros acc; cbn; [done|].
  destruct (f acc x); cbn; [apply IH|done].
Qed.

(** An invariant of the body is an invariant of the loop. *)
Lemma foldM_inv {A B} (P : B → Prop) (f : B → A → result B) l acc acc' :
  (∀ b x b', x ∈ l → P b → f b x = Ok b' → P b') →
  P acc → foldM f acc l = Ok acc' → P acc'.
Proof.
  revert acc. induction l as [|x l IH]; intros acc Hf HP; cbn; intros H.
  - by injection H as <-.
  - bind_inv H. eapply IH; [|eapply Hf; [left|exact HP|exact E]|exact H].
    intros b y b' Hy. apply Hf. by right.
Qed.

Lemma mapM_result_ok {A B} (f : A → result B) (g : A → B) l :
  (∀ x, x ∈ l → f x = Ok (g x)) → mapM_result f l = Ok (g <$> l).
Proof.
  induction l as [|x l IH]; intros H; cbn; [done|].
  rewrite H by left. cbn. rewrite IH; [done|]. intros y Hy. apply H. by right.
Qed.

Lemma mapM_result_total {A B} (f : A → result B) l : Forall (λ x, is_ok (f x)) l → is_ok (mapM_result f l).
Proof.
  induction 1 as [|x l [y Hy] _ [ys Hys]]; cbn; [by eexists|]. rewrite Hy. cbn. rewrite Hys. by eexists.
Qed.

Lemma mapM_result_Forall2 {A B} (f : A → result B) l r : mapM_result f l = Ok r → Forall2 (λ x y, f x = Ok y) l r.
Proof. revert r. induction l as [|x l IH]; intros r H; cbn in H; [by injection H as <-|]. bind_inv H. bind_inv H. injection H as <-. auto. Qed.

Lemma sum_Z_app l1 l2 : sum_Z (l1 ++ l2) = sum_Z l1 + sum_Z l2.
Proof. unfold sum_Z. induction l1 as [|x l1 IH]; cbn; lia. Qed.

Lemma sum_Z_nonneg l : Forall (λ x, 0 <= x) l → 0 <= sum_Z l.
Proof. unfold sum_Z. induction 1; cbn; lia. Qed.

Lemma ceil_div_spec a b : 0 < b → a <= - (- a / b) * b < a + b.
Proof. intros Hb. pose proof (Z.div_mod (-a) b). pose proof (Z.mod_pos_bound (-a) b). nia. Qed.

#[export] Hint Rewrite @bind_assoc raise_if_ok @sum_Z_app : s2p.
#[export] Hint Resolve sum_Z_nonneg : s2p.

Lemma filter_none {A} (P : A → Prop) `{!∀ x, Decision (P x)} l : Forall (λ x, ¬ P x) l → filter P l = [].
Proof. induction 1 as [|x l Hx _ IH]; [done|]. by rewrite filter_cons_False. Qed.

Lemma filter_all {A} (P : A → Prop) `{!∀ x, Decision (P x)} l : Forall P l → filter P l = l.
Proof. induction 1 as [|x l Hx _ IH]; [done|]. by rewrite filter_cons_True, IH. Qed.

Lemma mapM_result_each {A B} (f : A → result B) l x : is_ok (mapM_result f l) → x ∈ l → is_ok (f x).
Proof.
  intros [ys H] Hx. revert ys H. induction Hx as [x l|x y l _ IH]; intros ys H; cbn [mapM_result] in H; bind_inv H.
  - by eexists.
  - bind_inv H. by apply (IH r0).
Qed.

(** ** Sorting *)

Section StableSort.
Context {A : Type} (R : relation A) `{!RelDecision R}.

Lemma insert_by_Permutation x l : insert_by R x l ≡ₚ x :: l.
Proof.
  induction l as [|y l IH]; cbn; [done|]. destruct (decide (R x y)); [done|]. rewrite IH. apply Permutation_swap.
Qed.

Lemma stable_sort_Permutation l : stable_sort R l ≡ₚ l.
Proof. unfold stable_sort. induction l as [|x l IH]; cbn; [done|]. by rewrite insert_by_Permutation, IH. Qed.

Lemma Sorted_insert_by `{!Total R} x l : Sorted R l → Sorted R (insert_by R x l).
Proof.
  induction 1 as [|y l Hl IH Hy]; cbn; [by repeat constructor|].
  destruct (decide (R x y)) as [H|H]; [by repeat constructor|].
  constructor; [exact IH|]. assert (Hyx : R y x) by (destruct (total R x y); tauto).
  destruct Hy as [|z l Hz]; cbn; [by constructor|]. destruct (decide (R x z)); by constructor.
Qed.

Lemma Sorted_stable_sort `{!Total R} l : Sorted R (stable_sort R l).
Proof. unfold stable_sort. induction l as [|x l IH]; cbn; [constructor|by apply Sorted_insert_by]. Qed.

Lemma StronglySorted_stable_sort `{!Total R, !Transitive R} l : StronglySorted R (stable_sort R l).
Proof. apply Sorted_StronglySorted; [apply _|apply Sorted_stable_sort]. Qed.

(** Elements that are equal for the order keep their order. *)
Lemma stable_sort_stable (P : A → Prop) `{!∀ x, Decision (P x)} l :
  (∀ x y, P x → P y → R x y) → filter P (stable_sort R l) = filter P l.
Proof.
  intros HP. assert (Hi : ∀ x l, filter P (insert_by R x l) = filter P (x :: l)).
  { clear l. intros x l. induction l as [|y l IH]; cbn [insert_by]; [done|]. destruct (decide (R x y)) as [|Hxy]; [done|].
    rewrite filter_cons, IH, !filter_cons. destruct (decide (P x)) as [Hx|Hx], (decide (P y)) as [Hy|Hy]; [|done..].
    contradict Hxy. by apply HP. }
  unfold stable_sort. induction l as [|x l IH]; [done|]. cbn [foldr]. rewrite Hi.
  rewrite !filter_cons. by destruct (decide (P x)); rewrite IH.
Qed.
End StableSort.
