(* ===== verification/PyStr.v ===== *)
(** * Python strings

    A Python [str] is a Rocq [string] holding its UTF-8 encoding. [len] and slicing
    count code points, so [py_len] skips the continuation bytes [10xxxxxx] and
    [py_take] never cuts inside a code point. [str(n)] of an integer is stdpp's
    [pretty]. *)

From S2P Require Import Prelude.
From Stdlib Require Import Ascii.


Definition is_continuation (c : ascii) : bool :=
  let n := N_of_ascii c in ((128 <=? n) && (n <? 192))%N.

(** [len(s)]. *)
Fixpoint py_len (s : string) : Z :=
  match s with
  | EmptyString => 0
  | String c s => (if is_continuation c then 0 else 1) + py_len s
  end.

(** [s[:n]] for [n >= 0]; [skipping] drops the continuation bytes of a cut code point. *)
Fixpoint py_take (n : Z) (s : string) : string :=
  match s with
  | EmptyString => EmptyString
  | String c s =>
      if is_continuation c then String c (py_take n s)
      else if n <=? 0 then EmptyString else String c (py_take (n - 1) s)
  end.

(** [s[:n]] for any [n]: a negative bound counts from the end. *)
Definition py_slice_to (n : Z) (s : string) : string :=
  if n <? 0 then py_take (Z.max 0 (py_len s + n)) s else py_take n s.

(** [s.lower()] on ASCII letters; the modelled strings are ASCII enum values. *)
Definition lower_ascii (c : ascii) : ascii :=
  let n := N_of_ascii c in
  if ((65 <=? n) && (n <=? 90))%N then ascii_of_N (n + 32) else c.

Fixpoint py_lower (s : string) : string :=
  match s with
  | EmptyString => EmptyString
  | String c s => String (lower_ascii c) (py_lower s)
  end.

(** [sep.join(parts)]. *)
Fixpoint py_join (sep : string) (parts : list string) : string :=
  match parts with
  | [] => ""
  | [p] => p
  | p :: rest => p +:+ sep +:+ py_join sep rest
  end.

(** A zero-padded decimal of a non-negative integer, [f"{n:0{w}d}"]. *)
Fixpoint digits_pad (w : nat) (n : Z) : string :=
  match w with
  | O => ""
  | S w => digits_pad w (n / 10) +:+ String (ascii_of_N (48 + Z.to_N (n mod 10))) EmptyString
  end.

(** [repr] of a string without quotes or escapes (column names and enum values). *)
Definition py_repr (s : string) : string := "'" +:+ s +:+ "'".

(** [str(l)] of a list of such strings. *)
Definition py_repr_list (l : list string) : string := "[" +:+ py_join ", " (py_repr <$> l) +:+ "]".

(** [sub in text] of two strings. *)
Fixpoint contains (sub text : string) : bool :=
  String.prefix sub text || match text with EmptyString => false | String _ rest => contains sub rest end.

(** Every byte of a string satisfies a test. *)
Fixpoint all_chars (p : ascii → bool) (s : string) : bool :=
  match s with EmptyString => true | String c s => p c && all_chars p s end.

(** [s.split(sep)] for a separator of one ASCII character. *)
Fixpoint py_split (sep : ascii) (s : string) : list string :=
  match s with
  | EmptyString => [EmptyString]
  | String c s =>
      if Ascii.eqb c sep then EmptyString :: py_split sep s
      else match py_split sep s with
           | part :: rest => String c part :: rest
           | [] => [String c EmptyString]
           end
  end.

(** [s.split(sep, 1)[0]] *)
Fixpoint py_before (sep : ascii) (s : string) : string :=
  match s with
  | EmptyString => EmptyString
  | String c s => if Ascii.eqb c sep then EmptyString else String c (py_before sep s)
  end.

(** ** Facts *)

Lemma py_len_app s t : py_len (s +:+ t) = py_len s + py_len t.
Proof.
  induction s as [|c s IH]; [done|].
  change (String c s +:+ t) with (String c (s +:+ t)). cbn [py_len]. lia.
Qed.

Lemma py_len_nonneg s : 0 <= py_len s.
Proof. induction s as [|c s IH]; cbn; [lia|]. destruct (is_continuation c); lia. Qed.

Lemma py_take_len n s : 0 <= n → py_len (py_take n s) <= n.
Proof.
  revert n. induction s as [|c s IH]; intros n Hn; cbn; [lia|].
  destruct (is_continuation c) eqn:E; cbn; [rewrite E; specialize (IH n Hn); lia|].
  destruct (Z.leb_spec n 0) as [|Hn']; cbn; [lia|].
  rewrite E. specialize (IH (n - 1)). lia.
Qed.

Lemma py_take_all n s : py_len s <= n → py_take n s = s.
Proof.
  revert n. induction s as [|c s IH]; intros n; cbn; [done|].
  pose proof (py_len_nonneg s). intros Hn.
  destruct (is_continuation c) eqn:E; cbn; [by rewrite IH by lia|].
  destruct (Z.leb_spec n 0); cbn; [lia|]. by rewrite IH by lia.
Qed.

Lemma py_slice_to_nonneg n s : 0 <= n → py_slice_to n s = py_take n s.
Proof. intros Hn. unfold py_slice_to. by destruct (Z.ltb_spec n 0); [lia|]. Qed.

#[export] Hint Rewrite py_len_app : s2p.
#[export] Hint Resolve py_len_nonneg : s2p.

(** [str.isspace] characters, as UTF-8. *)
Definition of_bytes (bytes : list N) : string := foldr String EmptyString (ascii_of_N <$> bytes).
Definition WHITESPACE : list string :=
  ((λ n, of_bytes [n]) <$> [9; 10; 11; 12; 13; 28; 29; 30; 31; 32]%N) ++
  [of_bytes [194; 133]; of_bytes [194; 160]; of_bytes [225; 154; 128]]%N ++
  ((λ n, of_bytes [226; 128; n]%N) <$> [128; 129; 130; 131; 132; 133; 134; 135; 136; 137; 138; 168; 169; 175]%N) ++
  [of_bytes [226; 129; 159]; of_bytes [227; 128; 128]]%N.

Fixpoint lstrip (fuel : nat) (s : string) : string :=
  match fuel with
  | O => s
  | S fuel =>
      match list_find (λ w, String.prefix w s = true) WHITESPACE with
      | Some (_, w) => lstrip fuel (String.substring (String.length w) (String.length s) s)
      | None => s
      end
  end.

Fixpoint rstrip (s : string) : string :=
  match s with
  | EmptyString => EmptyString
  | String c rest => if String.eqb (lstrip (String.length s) s) "" then EmptyString else String c (rstrip rest)
  end.

(** [s.strip()]; a step of [lstrip] drops at least a byte. *)
Definition py_strip (s : string) : string := rstrip (lstrip (String.length s) s).

Definition hex_digit (n : N) : string := String (ascii_of_N (if (n <? 10)%N then 48 + n else 87 + n)) EmptyString.

Fixpoint hex_pad (w : nat) (n : N) : string :=
  match w with O => "" | S w => hex_pad w (n / 16) +:+ hex_digit (n mod 16) end.

(** [str(uuid)], the UUID as its 128-bit integer. *)
Definition uuid_text (n : N) : string :=
  let hex := hex_pad 32 n in
  py_join "-" [String.substring 0 8 hex; String.substring 8 4 hex; String.substring 12 4 hex;
               String.substring 16 4 hex; String.substring 20 12 hex].

(** * Text by code points

    A Python [str] of any code points, as the list of them: what the code does with text from
    outside that no ASCII assumption covers. *)


Abbreviation text := (list N).

(** An ASCII literal of the source. *)
Definition ascii_text (s : string) : text := N_of_ascii <$> String.list_ascii_of_string s.

#[global] Arguments ascii_text : simpl never.

(** [str.isspace] of a code point. *)
Definition is_space (c : N) : bool :=
  ((9 <=? c) && (c <=? 13) || (28 <=? c) && (c <=? 32) || (c =? 133) || (c =? 160) || (c =? 5760) ||
   (8192 <=? c) && (c <=? 8202) || (c =? 8232) || (c =? 8233) || (c =? 8239) || (c =? 8287) || (c =? 12288))%N.

Fixpoint drop_spaces (s : text) : text :=
  match s with [] => [] | c :: rest => if is_space c then drop_spaces rest else s end.

Definition trim_right (s : text) : text := reverse (drop_spaces (reverse s)).

(** [s.strip()] *)
Definition strip (s : text) : text := trim_right (drop_spaces s).

(** [sep.join(parts)] *)
Fixpoint join_text (sep : N) (parts : list text) : text :=
  match parts with
  | [] => []
  | [p] => p
  | p :: rest => p ++ [sep] ++ join_text sep rest
  end.

(** [s.split(sep)] *)
Fixpoint split_text (sep : N) (s : text) : list text :=
  match s with
  | [] => [[]]
  | c :: rest =>
      if (c =? sep)%N then [] :: split_text sep rest
      else match split_text sep rest with part :: parts => (c :: part) :: parts | [] => [[c]] end
  end.

(** Python's order of strings: by code points. *)
Fixpoint text_le (a b : text) : bool :=
  match a, b with
  | [], _ => true
  | _ :: _, [] => false
  | x :: a, y :: b => (x <? y)%N || ((x =? y)%N && text_le a b)
  end.

(** [sorted(texts)] *)
Definition text_sorted (l : list text) : list text := @merge_sort _ (λ a b, text_le a b = true) (λ a b, decide (text_le a b = true)) l.

(** [text.encode("utf-8")], of text with no surrogates. *)
Definition encode_utf8 (s : text) : list N :=
  c ← s;
  if (c <? 128)%N then [c]
  else if (c <? 2048)%N then [192 + c / 64; 128 + c mod 64]%N
  else if (c <? 65536)%N then [224 + c / 4096; 128 + c / 64 mod 64; 128 + c mod 64]%N
  else [240 + c / 262144; 128 + c / 4096 mod 64; 128 + c / 64 mod 64; 128 + c mod 64]%N.

(** ** Trimming *)

Lemma drop_spaces_head c s : is_space c = false → drop_spaces (c :: s) = c :: s.
Proof. intros H. cbn. by rewrite H. Qed.

Lemma drop_spaces_sub s : ∃ pre, s = pre ++ drop_spaces s.
Proof.
  induction s as [|c s [pre IH]]; [by exists []|]. cbn. destruct (is_space c); [exists (c :: pre); by rewrite IH at 1|by exists []].
Qed.

Lemma drop_spaces_first s c rest : drop_spaces s = c :: rest → is_space c = false.
Proof. induction s as [|d s IH]; [done|]. cbn. destruct (is_space d) eqn:E; [done|]. by intros [= <- <-]. Qed.

Lemma drop_spaces_nonempty s c : c ∈ s → is_space c = false → drop_spaces s ≠ [].
Proof.
  induction s as [|d s IH]; intros Hin Hc; [by apply elem_of_nil in Hin|]. cbn. destruct (is_space d) eqn:E; [|done].
  apply elem_of_cons in Hin as [->|Hin]; [congruence|by apply IH].
Qed.

(** Trimming on the right keeps a prefix, not empty when its first code point is no space. *)
Lemma trim_right_prefix s : ∃ post, s = trim_right s ++ post.
Proof.
  unfold trim_right. destruct (drop_spaces_sub (reverse s)) as [pre Hp]. exists (reverse pre).
  rewrite <- reverse_app, <- Hp. by rewrite reverse_involutive.
Qed.

Lemma trim_right_first c s : is_space c = false → ∃ s', trim_right (c :: s) = c :: s'.
Proof.
  intros Hc. destruct (trim_right_prefix (c :: s)) as [post Hp].
  destruct (trim_right (c :: s)) as [|d s'] eqn:E.
  - exfalso. unfold trim_right in E. apply (f_equal reverse) in E. rewrite reverse_involutive in E.
    apply (drop_spaces_nonempty (reverse (c :: s)) c); [|done|done]. apply elem_of_reverse. left.
  - injection Hp as -> _. by eexists.
Qed.

Lemma strip_first s : strip s ≠ [] → ∃ c s', strip s = c :: s' ∧ is_space c = false.
Proof.
  unfold strip. destruct (drop_spaces s) as [|c rest] eqn:E; [done|]. intros _.
  pose proof (drop_spaces_first _ _ _ E) as Hc. destruct (trim_right_first c rest Hc) as [s' ->]. by exists c, s'.
Qed.

Lemma strip_nil s : strip s = [] → Forall (λ c, is_space c = true) s.
Proof.
  intros H. induction s as [|c s IH]; [constructor|]. unfold strip in H. cbn [drop_spaces] in H. destruct (is_space c) eqn:E.
  - constructor; [done|]. by apply IH.
  - destruct (trim_right_first c s E) as [q Hq]. by rewrite Hq in H.
Qed.

(** ** The order of text and the text of a UUID *)

Lemma text_le_refl a : text_le a a = true.
Proof. induction a as [|x a IH]; cbn; [done|]. by rewrite N.eqb_refl, IH, orb_true_r. Qed.

Lemma text_le_cons x y a b : text_le (x :: a) (y :: b) = true ↔ (x < y)%N ∨ x = y ∧ text_le a b = true.
Proof. cbn. rewrite orb_true_iff, andb_true_iff, N.ltb_lt, N.eqb_eq. done. Qed.

Lemma text_le_total a b : text_le a b = true ∨ text_le b a = true.
Proof.
  revert b. induction a as [|x a IH]; intros [|y b]; [by left|by left|by right|].
  rewrite !text_le_cons. destruct (IH b), (N.lt_trichotomy x y) as [|[|]]; subst; tauto.
Qed.

Lemma text_le_antisym a b : text_le a b = true → text_le b a = true → a = b.
Proof.
  revert b. induction a as [|x a IH]; intros [|y b] H1 H2; try done.
  rewrite text_le_cons in H1, H2. destruct H1 as [H1|[-> H1]], H2 as [H2|[H2' H2]]; try lia. f_equal. by apply IH.
Qed.

Lemma text_le_trans a b c : text_le a b = true → text_le b c = true → text_le a c = true.
Proof.
  revert b c. induction a as [|x a IH]; intros [|y b] [|z c] H1 H2; try done.
  rewrite text_le_cons in *. destruct H1 as [H1|[-> H1]], H2 as [H2|[-> H2]]; try (left; lia). right. split; [done|]. by apply (IH b).
Qed.

Lemma hex_digit_inj a b : (a < 16)%N → (b < 16)%N → hex_digit a = hex_digit b → a = b.
Proof.
  intros Ha Hb H. unfold hex_digit in H. injection H as H. apply (f_equal N_of_ascii) in H.
  rewrite !N_ascii_embedding in H by (destruct (N.ltb_spec a 10), (N.ltb_spec b 10); lia).
  destruct (N.ltb_spec a 10), (N.ltb_spec b 10); lia.
Qed.

Lemma length_append (a b : string) : String.length (a +:+ b) = (String.length a + String.length b)%nat.
Proof. induction a as [|x a IH]; [done|]. change (S (String.length (a +:+ b)) = S (String.length a + String.length b)). by rewrite IH. Qed.

Lemma hex_pad_length w n : String.length (hex_pad w n) = w.
Proof. revert n. induction w as [|w IH]; intros n; cbn [hex_pad]; [done|]. rewrite length_append, IH. cbn. lia. Qed.

Lemma append_inj (a b c d : string) : String.length a = String.length c → a +:+ b = c +:+ d → a = c ∧ b = d.
Proof.
  revert c. induction a as [|x a IH]; intros [|y c] Hl H; try discriminate; [done|].
  injection H as -> H. injection Hl as Hl. destruct (IH c Hl H) as [-> ->]. done.
Qed.

Lemma hex_pad_inj w a b : hex_pad w a = hex_pad w b → (a mod 16 ^ N.of_nat w = b mod 16 ^ N.of_nat w)%N.
Proof.
  revert a b. induction w as [|w IH]; intros a b H; [by rewrite !N.mod_1_r|]. cbn [hex_pad] in H.
  apply append_inj in H as [H1 H2]; [|by rewrite !hex_pad_length].
  apply hex_digit_inj in H2; [|by apply N.mod_lt..]. apply IH in H1.
  rewrite Nat2N.inj_succ, N.pow_succ_r', !N.Div0.mod_mul_r. by rewrite H2, H1.
Qed.

(** The text without its dashes is the digits again. *)
Definition undashed (u : string) : string :=
  String.substring 0 8 u +:+ String.substring 9 4 u +:+ String.substring 14 4 u +:+ String.substring 19 4 u +:+ String.substring 24 12 u.

Lemma undashed_uuid n : undashed (uuid_text n) = hex_pad 32 n.
Proof.
  unfold uuid_text. pose proof (hex_pad_length 32 n) as H. generalize dependent (hex_pad 32 n). intros s H.
  do 32 (destruct s as [|? s]; [discriminate|]). destruct s; [reflexivity|discriminate].
Qed.

Lemma uuid_text_inj a b : (a < 2 ^ 128)%N → (b < 2 ^ 128)%N → uuid_text a = uuid_text b → a = b.
Proof.
  intros Ha Hb H. apply (f_equal undashed) in H. rewrite !undashed_uuid in H. apply hex_pad_inj in H.
  by rewrite !N.mod_small in H.
Qed.

Lemma ascii_text_inj a b : ascii_text a = ascii_text b → a = b.
Proof.
  unfold ascii_text. intros H. apply (list_fmap_eq_inj N_of_ascii) in H.
  2:{ intros x y E. by rewrite <- (ascii_N_embedding x), E, ascii_N_embedding. }
  by rewrite <- (String.string_of_list_ascii_of_string a), H, String.string_of_list_ascii_of_string.
Qed.
