(* ===== verification/PyFloat.v ===== *)
(** * Python floats

    A Python [float] is an IEEE-754 binary64 value: the Standard Library's
    [spec_float] at precision 53 and exponent bound 1024, rounding to nearest even.
    The operations below are Python's, with the exceptions CPython raises. A float
    literal and a true division of integers are correctly rounded quotients
    ([div_round]). [round_digits] and the fixed-point formats are correctly
    rounded from the exact binary value, as CPython's [dtoa] does. *)

From S2P Require Import Prelude PyStr.
From Stdlib Require Export SpecFloat.


Definition prec : Z := 53.
Definition emax : Z := 1024.

Abbreviation float := spec_float.

#[export] Instance float_eq_dec : EqDecision spec_float.
Proof. solve_decision. Defined.

(** The float nearest to [n / d], [0 < d]: the value of a literal such as [1.25]. *)
Definition div_round (n d : Z) : float :=
  if n =? 0 then S754_zero false
  else let '(m, e, l) := SFdiv_core_binary prec emax (Z.abs n) 0 d 0 in
       binary_round_aux prec emax (n <? 0) m e l.

Definition is_inf (x : float) : bool := match x with S754_infinity _ => true | _ => false end.
Definition is_nan (x : float) : bool := match x with S754_nan => true | _ => false end.
Definition isfinite (x : float) : bool :=
  match x with S754_zero _ | S754_finite _ _ _ => true | _ => false end.
Definition is_zero (x : float) : bool := match x with S754_zero _ => true | _ => false end.

(** [float(n)]. *)
Definition float_of_int (n : Z) : result float :=
  let x := binary_normalize prec emax n 0 false in
  if is_inf x then Err (OverflowError "int too large to convert to float") else Ok x.

(** [n / d] on integers. *)
Definition truediv (n d : Z) : result float :=
  if d =? 0 then Err (ZeroDivisionError "division by zero")
  else if n =? 0 then Ok (S754_zero (d <? 0))
  else let x := div_round (if d <? 0 then - n else n) (Z.abs d) in
       if is_inf x then Err (OverflowError "integer division result too large for a float")
       else Ok x.

Definition fadd (x y : float) : float := SFadd prec emax x y.
Definition fsub (x y : float) : float := SFsub prec emax x y.
Definition fmul (x y : float) : float := SFmul prec emax x y.
Definition fneg (x : float) : float := SFopp x.
Definition fabs (x : float) : float := SFabs x.
Definition fdiv (x y : float) : result float :=
  if is_zero y then Err (ZeroDivisionError "float division by zero")
  else Ok (SFdiv prec emax x y).

Definition flt (x y : float) : bool := SFltb x y.
Definition fle (x y : float) : bool := SFleb x y.
Definition feq (x y : float) : bool := SFeqb x y.

(** [max(x, y)] and [min(x, y)]: the first argument unless the second is strictly better. *)
Definition fmax (x y : float) : float := if flt x y then y else x.
Definition fmin (x y : float) : float := if flt y x then y else x.

Definition signed (s : bool) (m : positive) : Z := if s then Zneg m else Zpos m.

(** [math.floor], [math.ceil] and [int] of a float. *)
Definition to_int (f : bool → positive → Z → Z) (x : float) : result Z :=
  match x with
  | S754_nan => Err (ValueError "cannot convert float NaN to integer")
  | S754_infinity _ => Err (OverflowError "cannot convert float infinity to integer")
  | S754_zero _ => Ok 0
  | S754_finite s m e => Ok (f s m e)
  end.

Definition ffloor : float → result Z := to_int (λ s m e, Z.shiftl (signed s m) e).
Definition fceil : float → result Z := to_int (λ s m e, - Z.shiftl (signed (negb s) m) e).
Definition ftrunc : float → result Z :=
  to_int (λ s m e, let q := Z.shiftl (Zpos m) e in if s then - q else q).

(** Round half to even of the rational [n / d], [0 < d]. *)
Definition div_half_even (n d : Z) : Z :=
  let q := n / d in
  match Z.compare (2 * (n mod d)) d with
  | Lt => q
  | Gt => q + 1
  | Eq => if Z.even q then q else q + 1
  end.

(** [|x| * 10^p] rounded half to even, for a finite [x]. *)
Definition scaled_abs (m : positive) (e : Z) (p : Z) : Z :=
  let n := Zpos m * 10 ^ p in
  if 0 <=? e then Z.shiftl n e else div_half_even n (2 ^ (- e)).

(** [round(x)]. *)
Definition fround : float → result Z :=
  to_int (λ s m e, let q := scaled_abs m e 0 in if s then - q else q).

(** [round(x, p)] for [p >= 0]. *)
Definition round_digits (p : Z) (x : float) : result float :=
  match x with
  | S754_finite s m e =>
      let n := scaled_abs m e p in
      if n =? 0 then Ok (S754_zero s)
      else let y := div_round (if s then - n else n) (10 ^ p) in
           if is_inf y then Err (OverflowError "rounded value too large to represent") else Ok y
  | _ => Ok x
  end.

(** [f"{x:.{p}f}"]. *)
Definition fmt_fixed (p : nat) (x : float) : string :=
  let body (s : bool) (n : Z) :=
    (if s then "-" else "") +:+ pretty (n / 10 ^ Z.of_nat p) +:+
    match p with O => "" | S _ => "." +:+ digits_pad p (n mod 10 ^ Z.of_nat p) end in
  match x with
  | S754_nan => "nan"
  | S754_infinity s => if s then "-inf" else "inf"
  | S754_zero s => body s 0
  | S754_finite s m e => body s (scaled_abs m e (Z.of_nat p))
  end.

(** [f"{x:.{p}%}"]: the value is multiplied by 100 first. *)
Definition fmt_percent (p : nat) (x : float) : string :=
  fmt_fixed p (fmul x (div_round 100 1)) +:+ "%".

(** [n < x] and [x < n] for an integer and a float are exact comparisons in Python. *)
Definition int_float_compare (n : Z) (x : float) : option comparison :=
  match x with
  | S754_nan => None
  | S754_infinity s => Some (if s then Gt else Lt)
  | S754_zero _ => Some (Z.compare n 0)
  | S754_finite s m e =>
      Some (if 0 <=? e then Z.compare n (Z.shiftl (signed s m) e)
            else Z.compare (Z.shiftl n (- e)) (signed s m))
  end.

Definition int_lt_float (n : Z) (x : float) : bool :=
  match int_float_compare n x with Some Lt => true | _ => false end.
Definition int_gt_float (n : Z) (x : float) : bool :=
  match int_float_compare n x with Some Gt => true | _ => false end.

Definition f0 : float := S754_zero false.
Definition f1 : float := div_round 1 1.

#[global] Arguments div_round : simpl never.
#[global] Arguments truediv : simpl never.
#[global] Arguments float_of_int : simpl never.
#[global] Arguments fadd : simpl never.
#[global] Arguments fsub : simpl never.
#[global] Arguments fmul : simpl never.
#[global] Arguments fdiv : simpl never.
#[global] Arguments flt : simpl never.
#[global] Arguments fle : simpl never.
#[global] Arguments feq : simpl never.
#[global] Arguments fmax : simpl never.
#[global] Arguments fmin : simpl never.
#[global] Arguments ffloor : simpl never.
#[global] Arguments fceil : simpl never.
#[global] Arguments ftrunc : simpl never.
#[global] Arguments fround : simpl never.
#[global] Arguments round_digits : simpl never.
#[global] Arguments fmt_fixed : simpl never.
#[global] Arguments fmt_percent : simpl never.

(** ** Order facts: comparisons are those of a total order once NaN is excluded *)

Example fmt_example : fmt_fixed 2 (div_round 5 2) = "2.50" ∧ fmt_percent 0 (div_round 1 20) = "5%".
Proof. split; reflexivity. Qed.
