(* ===== verification/PyJson.v ===== *)
(** * JSON values

    A Python value read from or written to a JSON column. A dict is an association list
    with distinct string keys, in insertion order. *)

From S2P Require Import Prelude PyFloat PyStr.

#[warnings="-register-all"]
Inductive json : Type :=
| JNull
| JBool (b : bool)
| JInt (n : Z)
| JFloat (x : float)
| JStr (s : string)
| JList (l : list json)
| JObj (fields : list (string * json)).

Abbreviation jobj := (list (string * json)) (only parsing).

(** [o[k]] *)
Fixpoint obj_get (o : jobj) (k : string) : result json :=
  match o with
  | [] => Err (KeyError k)
  | (k', v) :: o => if decide (k = k') then Ok v else obj_get o k
  end.

(** [o.get(k)] *)
Fixpoint assoc (o : jobj) (k : string) : option json :=
  match o with
  | [] => None
  | (k', v) :: o => if decide (k = k') then Some v else assoc o k
  end.

(** * The text of a float

    [repr(x)] of a Python float: the shortest decimal that reads back as [x], in fixed
    notation for a decimal point between -4 and 16 places, in exponent notation otherwise. *)


(** The float nearest to [n * 10^p], [0 <= n]. *)
Definition read_decimal (n p : Z) : float :=
  if 0 <=? p then div_round (n * 10 ^ p) 1 else div_round n (10 ^ (- p)).

(** [m * 2^e * 10^p] as a quotient of integers. *)
Definition scaled_ratio (m : positive) (e p : Z) : Z * Z :=
  let n := Zpos m * 10 ^ Z.max 0 p * 2 ^ Z.max 0 e in
  let d := 10 ^ Z.max 0 (- p) * 2 ^ Z.max 0 (- e) in (n, d).

(** The exponent [E] with [10^E <= m * 2^e < 10^(E+1)], from an estimate one off at most. *)
Definition decimal_exponent (m : positive) (e : Z) : Z :=
  let est := (Zpos (digits2_pos m) + e - 1) * 30103 / 100000 in
  let '(n, d) := scaled_ratio m e (- est) in
  if n <? d then est - 1 else if 10 * d <=? n then est + 1 else est.

(** The [k]-digit decimal closest to [m * 2^e] among the two around it that read back as it. *)
Definition decimal_of (m : positive) (e E : Z) (k : nat) : option Z :=
  let p := Z.of_nat k - 1 - E in
  let '(n, d) := scaled_ratio m e p in
  let q := n / d in
  let reads c := bool_decide (read_decimal c (- p) = S754_finite false m e) in
  match reads q, reads (q + 1) with
  | true, true => Some (if 2 * (n - q * d) <=? d then q else q + 1)
  | true, false => Some q
  | false, true => Some (q + 1)
  | false, false => None
  end.

(** The shortest such decimal: its digits as an integer, and how many they are. Seventeen
    digits always suffice for binary64. *)
Fixpoint shortest (m : positive) (e E : Z) (k fuel : nat) : Z * nat :=
  match fuel with
  | O => (0, k)
  | S fuel => match decimal_of m e E k with Some n => (n, k) | None => shortest m e E (S k) fuel end
  end.

Fixpoint trim_zeros (n : Z) (fuel : nat) : Z :=
  match fuel with
  | O => n
  | S fuel => if n mod 10 =? 0 then trim_zeros (n / 10) fuel else n
  end.

Fixpoint zeros (n : nat) : string := match n with O => "" | S n => "0" +:+ zeros n end.

(** The exponent has at least two digits. *)
Definition exponent_text (x : Z) : string :=
  (if x <? 0 then "-" else "+") +:+
  (if Z.abs x <? 100 then digits_pad 2 (Z.abs x) else pretty (Z.abs x)).

(** The digits and the position of the decimal point, as Python lays them out. *)
Definition layout (digits : string) (point : Z) : string :=
  let len := Z.of_nat (String.length digits) in
  if (-4 <? point) && (point <=? 16) then
    if point <=? 0 then "0." +:+ zeros (Z.to_nat (- point)) +:+ digits
    else if len <=? point then digits +:+ zeros (Z.to_nat (point - len)) +:+ ".0"
    else String.substring 0 (Z.to_nat point) digits +:+ "." +:+
         String.substring (Z.to_nat point) (Z.to_nat (len - point)) digits
  else
    String.substring 0 1 digits +:+
    (if len =? 1 then "" else "." +:+ String.substring 1 (Z.to_nat (len - 1)) digits) +:+
    "e" +:+ exponent_text (point - 1).

(** [repr(x)] *)
Definition float_repr (x : float) : string :=
  match x with
  | S754_nan => "nan"
  | S754_infinity s => if s then "-inf" else "inf"
  | S754_zero s => if s then "-0.0" else "0.0"
  | S754_finite s m e =>
      let E := decimal_exponent m e in
      let '(n, k) := shortest m e E 1 17 in
      let carried := 10 ^ Z.of_nat k <=? n in
      (if s then "-" else "") +:+
      layout (pretty (trim_zeros n 20)) (if carried then E + 2 else E + 1)
  end.

(** Literals whose text CPython is known to print. *)
Example repr_examples :
  float_repr <$> [div_round 7 2; div_round 1 10; div_round 1 100000; div_round (10 ^ 16) 1;
                  div_round 123456789012345678 1; div_round (10 ^ 23) 1; div_round 100 1;
                  div_round (-1) 3; div_round 5 (10 ^ 324); div_round 1 10000; div_round (10 ^ 15) 1]
  = ["3.5"; "0.1"; "1e-05"; "1e+16"; "1.2345678901234568e+17"; "1e+23"; "100.0";
     "-0.3333333333333333"; "5e-324"; "0.0001"; "1000000000000000.0"].
Proof. vm_compute. reflexivity. Qed.

(** [f"{x:g}"]: six significant digits, trailing zeros dropped, an exponent below -4 or from 6 on. *)
Definition fmt_g (x : float) : string :=
  match x with
  | S754_nan => "nan"
  | S754_infinity s => if s then "-inf" else "inf"
  | S754_zero s => if s then "-0" else "0"
  | S754_finite s m e =>
      let E := decimal_exponent m e in
      let '(n, d) := scaled_ratio m e (5 - E) in
      let q := div_half_even n d in
      let E := if q =? 10 ^ 6 then E + 1 else E in
      let digits := pretty (trim_zeros q 6) in
      let len := Z.of_nat (String.length digits) in
      (if s then "-" else "") +:+
      (if (-4 <=? E) && (E <? 6) then
         if E <? 0 then "0." +:+ zeros (Z.to_nat (- E - 1)) +:+ digits
         else if len <=? E + 1 then digits +:+ zeros (Z.to_nat (E + 1 - len))
         else String.substring 0 (Z.to_nat (E + 1)) digits +:+ "." +:+
              String.substring (Z.to_nat (E + 1)) (Z.to_nat (len - E - 1)) digits
       else
         String.substring 0 1 digits +:+
         (if len =? 1 then "" else "." +:+ String.substring 1 (Z.to_nat (len - 1)) digits) +:+ "e" +:+ exponent_text E)
  end.

Example fmt_g_examples :
  fmt_g <$> [div_round 100 1; div_round 1 2; div_round 1234567 1; div_round 1 10000; div_round 1 100000; div_round 1999999 2;
             div_round 123456 1; div_round (-1) 3; div_round 5 (10 ^ 324); div_round 1000001 10; f0]
  = ["100"; "0.5"; "1.23457e+06"; "0.0001"; "1e-05"; "1e+06"; "123456"; "-0.333333"; "4.94066e-324"; "100000"; "0"].
Proof. vm_compute. reflexivity. Qed.
