(* ===== verification/PyFloatFacts.v ===== *)
(** * Magnitude of float operations

    The magnitude of a finite non-zero float is the position of its leading bit:
    [2^(mag-1) <= |x| < 2^mag]. Rounding moves it by at most one, so a computation whose
    operands are far from the exponent limits stays finite and non-zero. These lemmas
    are what the totality theorems of the planner and of the detectors rest on. *)

From S2P Require Import Prelude PyStr PyFloat.

(** ** Digits *)

Lemma digits_bounds p :
  2 ^ (Zpos (digits2_pos p) - 1) <= Zpos p < 2 ^ Zpos (digits2_pos p).
Proof.
  induction p as [p IH|p IH|]; cbn [digits2_pos]; [| |done];
    rewrite Pos2Z.inj_succ, Z.pow_succ_r by lia;
    replace (Z.succ (Z.pos (digits2_pos p)) - 1) with (Z.succ (Z.pos (digits2_pos p) - 1)) by lia;
    rewrite Z.pow_succ_r by lia; lia.
Qed.

Lemma Zdigits2_bounds m : 0 < m → 0 < Zdigits2 m ∧ 2 ^ (Zdigits2 m - 1) <= m < 2 ^ Zdigits2 m.
Proof. destruct m as [|p|p]; [lia| |lia]. intros _. split; [done|apply digits_bounds]. Qed.

Lemma Zdigits2_unique m k : 0 < k → 2 ^ (k - 1) <= m < 2 ^ k → Zdigits2 m = k.
Proof.
  intros Hk [Hl Hu]. assert (Hm : 0 < m) by (pose proof (Z.pow_pos_nonneg 2 (k - 1)); lia).
  destruct (Zdigits2_bounds m Hm) as (Hd & Hl' & Hu').
  destruct (Z.lt_trichotomy (Zdigits2 m) k) as [Hlt|[|Hgt]]; [|done|].
  - pose proof (Z.pow_le_mono_r 2 (Zdigits2 m) (k - 1)). lia.
  - pose proof (Z.pow_le_mono_r 2 k (Zdigits2 m - 1)). lia.
Qed.

Lemma Zdigits2_le m k : 0 < m → m < 2 ^ k → Zdigits2 m <= k.
Proof.
  intros Hm Hk. destruct (Zdigits2_bounds m Hm) as (Hd & Hl & _).
  destruct (Z.le_gt_cases (Zdigits2 m) k); [done|].
  destruct (Z.lt_ge_cases k 0); [rewrite Z.pow_neg_r in Hk; lia|].
  pose proof (Z.pow_le_mono_r 2 k (Zdigits2 m - 1)). lia.
Qed.

Lemma Zdigits2_shiftl m n : 0 < m → 0 <= n → Zdigits2 (m * 2 ^ n) = Zdigits2 m + n.
Proof.
  intros Hm Hn. destruct (Zdigits2_bounds m Hm) as (Hd & Hl & Hu).
  apply Zdigits2_unique; [lia|].
  replace (Zdigits2 m + n - 1) with ((Zdigits2 m - 1) + n) by lia.
  rewrite !Z.pow_add_r by lia. pose proof (Z.pow_pos_nonneg 2 n). nia.
Qed.

Lemma Zdigits2_shiftr m n : 0 < m → 0 <= n < Zdigits2 m → Zdigits2 (m / 2 ^ n) = Zdigits2 m - n.
Proof.
  intros Hm Hn. destruct (Zdigits2_bounds m Hm) as (Hd & Hl & Hu).
  apply Zdigits2_unique; [lia|].
  replace (Zdigits2 m - 1) with ((Zdigits2 m - n - 1) + n) in Hl by lia.
  replace (Zdigits2 m) with ((Zdigits2 m - n) + n) in Hu by lia.
  rewrite Z.pow_add_r in Hl, Hu by lia. pose proof (Z.pow_pos_nonneg 2 n ltac:(lia) ltac:(lia)).
  split; [apply Z.div_le_lower_bound; lia|apply Z.div_lt_upper_bound; lia].
Qed.

Lemma Zdigits2_succ m : 0 < m → Zdigits2 m <= Zdigits2 (m + 1) <= Zdigits2 m + 1.
Proof.
  intros Hm. destruct (Zdigits2_bounds m Hm) as (Hd & Hl & Hu).
  destruct (Z.eq_dec (m + 1) (2 ^ Zdigits2 m)) as [E|Hne].
  - assert (Hs : Zdigits2 (m + 1) = Zdigits2 m + 1); [|lia].
    apply Zdigits2_unique; [lia|]. rewrite E, Z.add_simpl_r, Z.pow_add_r by lia. lia.
  - rewrite (Zdigits2_unique (m + 1) (Zdigits2 m)); lia.
Qed.

(** ** Shifting and rounding *)

Lemma iter_pos_nat {A} (f : A → A) n x : iter_pos f n x = Nat.iter (Pos.to_nat n) f x.
Proof.
  revert x. induction n as [n IH|n IH|]; intros x; cbn [iter_pos]; [| |done].
  - rewrite !IH, <-Nat.iter_add, <-Nat.iter_succ_r. f_equal. lia.
  - rewrite !IH, <-Nat.iter_add. f_equal. lia.
Qed.

Lemma shr_1_m mrs : 0 <= shr_m mrs → shr_m (shr_1 mrs) = shr_m mrs / 2.
Proof.
  destruct mrs as [[|[p|p|]|p] r t]; cbn; intros ?; try done.
  - symmetry. rewrite (Pos2Z.inj_xI p), Z.mul_comm, Z.div_add_l; done || lia.
  - symmetry. rewrite (Pos2Z.inj_xO p), Z.mul_comm, Z.div_mul; done || lia.
Qed.

Lemma shr_iter_m n mrs : 0 <= shr_m mrs →
  shr_m (Nat.iter n shr_1 mrs) = shr_m mrs / 2 ^ Z.of_nat n.
Proof.
  intros Hm. induction n as [|n IH]; [by rewrite Z.div_1_r|].
  cbn [Nat.iter nat_rect]. change (nat_rect _ _ _ n) with (Nat.iter n shr_1 mrs).
  rewrite shr_1_m, IH, Nat2Z.inj_succ, Z.pow_succ_r, Z.mul_comm by
    (rewrite ?IH; try apply Z.div_pos; try apply Z.pow_pos_nonneg; lia).
  rewrite Z.div_div; [done|apply Z.pow_nonzero; lia|lia].
Qed.

Lemma shr_record_m m l : shr_m (shr_record_of_loc m l) = m.
Proof. by destruct l as [|[]]. Qed.

(** The mantissa and exponent after [shr_fexp]. *)
Lemma shr_fexp_spec m e l mrs' e' : 0 < m →
  shr_fexp prec emax m e l = (mrs', e') →
  let n := Z.max 0 (fexp prec emax (Zdigits2 m + e) - e) in
  shr_m mrs' = m / 2 ^ n ∧ e' = e + n.
Proof.
  intros Hm. unfold shr_fexp, shr. set (k := fexp prec emax (Zdigits2 m + e) - e).
  cbn zeta. destruct k as [|n|n] eqn:Hk; intros [= <- <-]; rewrite ?shr_record_m.
  - rewrite Z.div_1_r. cbn. lia.
  - rewrite iter_pos_nat, shr_iter_m by (rewrite shr_record_m; lia).
    rewrite shr_record_m, positive_nat_Z. cbn. done.
  - rewrite Z.div_1_r. cbn. lia.
Qed.

Lemma round_nearest_even_cases m l : round_nearest_even m l = m ∨ round_nearest_even m l = m + 1.
Proof. destruct l as [|[]]; cbn; auto. destruct (Z.even m); auto. Qed.

(** Magnitude and sign of a finite float. *)
Definition finite_mag (s : bool) (k : Z) (x : float) : Prop :=
  ∃ m e, x = S754_finite s m e ∧ Zdigits2 (Zpos m) + e = k ∧ Zdigits2 (Zpos m) <= 53.

Definition mag_between (s : bool) (lo hi : Z) (x : float) : Prop :=
  ∃ k, finite_mag s k x ∧ lo <= k <= hi.

(** Rounding a positive mantissa moves its magnitude by at most one. *)
Lemma binary_round_aux_mag s m e l : 0 < m → e <= 971 →
  -1073 <= Zdigits2 m + e <= 1022 →
  mag_between s (Zdigits2 m + e) (Zdigits2 m + e + 1) (binary_round_aux prec emax s m e l).
Proof.
  intros Hm He Hk. unfold binary_round_aux.
  destruct (shr_fexp prec emax m e l) as [mrs1 e1] eqn:H1.
  pose proof (shr_fexp_spec _ _ _ _ _ Hm H1) as [Hm1 He1]. cbn zeta in *.
  destruct (Zdigits2_bounds m Hm) as (Hd & _).
  set (n := Z.max 0 (fexp prec emax (Zdigits2 m + e) - e)) in *.
  assert (Hn : 0 <= n < Zdigits2 m) by (unfold n, fexp, emin, prec, emax in *; lia).
  pose proof (Zdigits2_shiftr m n Hm Hn) as Hdm.
  assert (Hpos : 0 < m / 2 ^ n).
  { destruct (Z.lt_ge_cases 0 (m / 2 ^ n)) as [|Hle]; [done|].
    assert (0 <= m / 2 ^ n) by (apply Z.div_pos; [lia|apply Z.pow_pos_nonneg; lia]).
    replace (m / 2 ^ n) with 0 in Hdm by lia. cbn in Hdm. lia. }
  set (m2 := round_nearest_even _ _).
  assert (Hm2 : 0 < m2 ∧ Zdigits2 m - n <= Zdigits2 m2 <= Zdigits2 m - n + 1).
  { destruct (round_nearest_even_cases (shr_m mrs1) (loc_of_shr_record mrs1)) as [E|E];
      fold m2 in E; rewrite E, Hm1.
    - lia.
    - pose proof (Zdigits2_succ _ Hpos). lia. }
  destruct (shr_fexp prec emax m2 e1 loc_Exact) as [mrs3 e3] eqn:H3.
  pose proof (shr_fexp_spec _ _ _ _ _ (proj1 Hm2) H3) as [Hm3 He3]. cbn zeta in *.
  set (n3 := Z.max 0 (fexp prec emax (Zdigits2 m2 + e1) - e1)) in *.
  assert (Hn3 : 0 <= n3 < Zdigits2 m2).
  { unfold n3, n, fexp, emin, prec, emax in *. lia. }
  pose proof (Zdigits2_shiftr m2 n3 (proj1 Hm2) Hn3) as Hd3. rewrite <-Hm3 in Hd3.
  destruct (shr_m mrs3) as [|p|p] eqn:Hp; [cbn in Hd3; lia| |].
  - destruct (Z.leb_spec e3 (emax - prec)) as [Hle|Hgt].
    + exists (Zdigits2 (Zpos p) + e3). split.
      { exists p, e3. split; [done|]. split; [done|]. unfold n3, fexp, prec in Hd3. lia. }
      unfold n3, n, fexp, emin, prec, emax in *. lia.
    + exfalso. unfold n3, n, fexp, emin, prec, emax in *. lia.
  - exfalso. assert (0 <= m2 / 2 ^ n3) by (apply Z.div_pos; [lia|apply Z.pow_pos_nonneg; lia]). lia.
Qed.

(** ** Operations *)

Lemma Zdigits2_div m d : 0 < m → 0 < d → Zdigits2 d < Zdigits2 m →
  0 < m / d ∧ Zdigits2 m - Zdigits2 d <= Zdigits2 (m / d) <= Zdigits2 m - Zdigits2 d + 1.
Proof.
  intros Hm Hd Hlt. destruct (Zdigits2_bounds d Hd) as (Hdd & Hdl & Hdu).
  destruct (Zdigits2_bounds m Hm) as (Hdm & Hml & Hmu).
  set (k := Zdigits2 m - 1 - Zdigits2 d).
  assert (Hlow : 2 ^ k <= m / d).
  { apply Z.div_le_lower_bound; [done|].
    replace (Zdigits2 m - 1) with (Zdigits2 d + k) in Hml by lia.
    rewrite Z.pow_add_r in Hml by lia. pose proof (Z.pow_pos_nonneg 2 k). nia. }
  pose proof (Z.pow_pos_nonneg 2 k ltac:(lia) ltac:(lia)).
  split; [lia|]. split.
  - destruct (Zdigits2_bounds (m / d) ltac:(lia)) as (_ & _ & Hu).
    destruct (Z.le_gt_cases (Zdigits2 m - Zdigits2 d) (Zdigits2 (m / d))); [done|].
    pose proof (Z.pow_le_mono_r 2 (Zdigits2 (m / d)) k). lia.
  - apply Zdigits2_le; [lia|]. apply Z.div_lt_upper_bound; [done|].
    replace (Zdigits2 m) with ((Zdigits2 d - 1) + (Zdigits2 m - Zdigits2 d + 1)) in Hmu by lia.
    rewrite Z.pow_add_r in Hmu by lia.
    pose proof (Z.pow_pos_nonneg 2 (Zdigits2 m - Zdigits2 d + 1)). nia.
Qed.

(** A quotient of positive mantissas, its exponent range far from the limits. *)
Lemma div_core_mag s m1 e1 m2 e2 : 0 < m1 → 0 < m2 →
  let D := Zdigits2 m1 + e1 - (Zdigits2 m2 + e2) in
  -1000 <= D <= 1000 → e1 - e2 <= 971 →
  mag_between s D (D + 2)
    (let '(m, e, l) := SFdiv_core_binary prec emax m1 e1 m2 e2 in binary_round_aux prec emax s m e l).
Proof.
  intros H1 H2 D HD He. unfold SFdiv_core_binary. fold D.
  set (e' := Z.min (fexp prec emax D) (e1 - e2)).
  set (sh := e1 - e2 - e').
  assert (Hm' : match sh with 0 => m1 | Z.pos _ => Z.shiftl m1 sh | Z.neg _ => 0 end = m1 * 2 ^ sh).
  { assert (0 <= sh) by lia. destruct sh eqn:E; [lia| |lia]. rewrite Z.shiftl_mul_pow2; lia. }
  rewrite Hm'. destruct (Z.div_eucl (m1 * 2 ^ sh) m2) as [q r] eqn:Hq.
  assert (Hqd : q = m1 * 2 ^ sh / m2) by (unfold Z.div; by rewrite Hq).
  pose proof (Zdigits2_shiftl m1 sh H1 ltac:(lia)) as Hdig.
  assert (He' : e' <= D - 53) by (unfold e', fexp, emin, prec, emax; lia).
  destruct (Zdigits2_div (m1 * 2 ^ sh) m2) as (Hqp & Hql & Hqu); [|done|lia|].
  { pose proof (Z.pow_pos_nonneg 2 sh). nia. }
  rewrite <-Hqd in *.
  destruct (binary_round_aux_mag s q e' (new_location m2 r)) as (k & Hk & Hb); [done|lia|lia|].
  exists k. split; [done|lia].
Qed.

Lemma div_round_mag n d : 0 < n → 0 < d →
  let D := Zdigits2 n - Zdigits2 d in -1000 <= D <= 1000 → mag_between false D (D + 2) (div_round n d).
Proof.
  intros Hn Hd D HD. unfold div_round.
  rewrite (proj2 (Z.eqb_neq n 0)), (proj2 (Z.ltb_ge n 0)), Z.abs_eq by lia.
  pose proof (div_core_mag false n 0 d 0 Hn Hd) as H. cbn zeta in H.
  replace (Zdigits2 n + 0 - (Zdigits2 d + 0)) with D in H by lia. apply H; lia.
Qed.

Lemma finite_mag_noinf s k x : finite_mag s k x → is_inf x = false ∧ is_zero x = false ∧ is_nan x = false.
Proof. by intros (m & e & -> & _). Qed.

(** [n / d] of positive integers of moderate size is finite and non-zero. *)
Lemma truediv_mag n d : 0 < n → 0 < d →
  let D := Zdigits2 n - Zdigits2 d in -1000 <= D <= 1000 →
  ∃ x, truediv n d = Ok x ∧ mag_between false D (D + 2) x.
Proof.
  intros Hn Hd D HD. unfold truediv.
  rewrite (proj2 (Z.eqb_neq d 0)), (proj2 (Z.eqb_neq n 0)), (proj2 (Z.ltb_ge d 0)), Z.abs_eq by lia.
  pose proof (div_round_mag n d Hn Hd HD) as (k & Hk & Hb).
  destruct (finite_mag_noinf _ _ _ Hk) as (-> & _). eexists. split; [done|]. by exists k.
Qed.

Lemma truediv_nonneg_ok n d : 0 <= n < 2 ^ 900 → 0 < d < 2 ^ 900 → is_ok (truediv n d).
Proof.
  intros Hn Hd. destruct (Z.eq_dec n 0) as [->|Hne].
  - unfold truediv. rewrite (proj2 (Z.eqb_neq d 0)) by lia. by eexists.
  - destruct (Zdigits2_bounds n) as (? & _); [lia|]. destruct (Zdigits2_bounds d) as (? & _); [lia|].
    pose proof (Zdigits2_le n 900 ltac:(lia) (proj2 Hn)).
    pose proof (Zdigits2_le d 900 ltac:(lia) (proj2 Hd)).
    destruct (truediv_mag n d) as (x & Hx & _); [lia..|]. by exists x.
Qed.

Lemma mul_mag x y s1 s2 k1 k2 : finite_mag s1 k1 x → finite_mag s2 k2 y →
  -900 <= k1 + k2 <= 900 →
  mag_between (xorb s1 s2) (k1 + k2 - 1) (k1 + k2 + 1) (fmul x y).
Proof.
  intros (m1 & e1 & -> & H1 & _) (m2 & e2 & -> & H2 & _) Hk. unfold fmul, SFmul.
  rewrite Pos2Z.inj_mul.
  destruct (Zdigits2_bounds (Zpos m1) ltac:(lia)) as (? & Hl1 & Hu1).
  destruct (Zdigits2_bounds (Zpos m2) ltac:(lia)) as (? & Hl2 & Hu2).
  set (d1 := Zdigits2 (Zpos m1)) in *. set (d2 := Zdigits2 (Zpos m2)) in *.
  assert (Hd : d1 + d2 - 1 <= Zdigits2 (Zpos m1 * Zpos m2) <= d1 + d2).
  { assert (Hup : Zpos m1 * Zpos m2 < 2 ^ (d1 + d2)) by (rewrite Z.pow_add_r by lia; nia).
    assert (Hlo : 2 ^ (d1 + d2 - 2) <= Zpos m1 * Zpos m2).
    { replace (d1 + d2 - 2) with ((d1 - 1) + (d2 - 1)) by lia. rewrite Z.pow_add_r by lia.
      apply Z.mul_le_mono_nonneg; try done; apply Z.pow_nonneg; lia. }
    split; [|apply Zdigits2_le; [lia|done]].
    destruct (Zdigits2_bounds (Zpos m1 * Zpos m2) ltac:(lia)) as (? & _ & Hu).
    destruct (Z.le_gt_cases (d1 + d2 - 1) (Zdigits2 (Zpos m1 * Zpos m2))); [done|].
    pose proof (Z.pow_le_mono_r 2 (Zdigits2 (Zpos m1 * Zpos m2)) (d1 + d2 - 2)). lia. }
  destruct (binary_round_aux_mag (xorb s1 s2) (Zpos m1 * Zpos m2) (e1 + e2) loc_Exact)
    as (k & Hk' & Hb); [lia|lia|lia|].
  exists k. split; [exact Hk'|lia].
Qed.

Lemma fdiv_mag x y s1 s2 k1 k2 : finite_mag s1 k1 x → finite_mag s2 k2 y →
  -900 <= k1 - k2 <= 900 →
  ∃ z, fdiv x y = Ok z ∧ mag_between (xorb s1 s2) (k1 - k2) (k1 - k2 + 2) z.
Proof.
  intros Hx Hy Hk. unfold fdiv. destruct (finite_mag_noinf _ _ _ Hy) as (_ & -> & _).
  destruct Hx as (m1 & e1 & -> & H1 & _), Hy as (m2 & e2 & -> & H2 & Hd2).
  destruct (Zdigits2_bounds (Zpos m1) ltac:(lia)) as (? & _).
  eexists. split; [done|]. unfold SFdiv.
  pose proof (div_core_mag (xorb s1 s2) (Zpos m1) e1 (Zpos m2) e2 ltac:(lia) ltac:(lia)) as Hc.
  cbn zeta in Hc. replace (Zdigits2 (Z.pos m1) + e1 - (Zdigits2 (Z.pos m2) + e2)) with (k1 - k2) in Hc by lia.
  apply Hc; lia.
Qed.

Lemma iter_xO p d : Zpos (Pos.iter xO p d) = Zpos p * 2 ^ Zpos d.
Proof.
  induction d as [|d IH] using Pos.peano_ind; [cbn; lia|].
  rewrite Pos.iter_succ, Pos2Z.inj_xO, IH, Pos2Z.inj_succ, Z.pow_succ_r by lia. lia.
Qed.

(** [binary_normalize] of a positive integer mantissa. *)
Lemma normalize_mag p e : -1073 <= Zdigits2 (Zpos p) + e <= 1022 →
  mag_between false (Zdigits2 (Zpos p) + e) (Zdigits2 (Zpos p) + e + 1)
    (binary_normalize prec emax (Zpos p) e false).
Proof.
  intros Hk. unfold binary_normalize, binary_round, shl_align.
  set (fe := fexp prec emax _).
  assert (Hfe : fe = fexp prec emax (Zdigits2 (Zpos p) + e)) by done.
  destruct (fe - e) as [|d|d] eqn:Hd.
  1,2: apply binary_round_aux_mag; [lia| |lia];
    unfold fexp, emin, prec, emax in *; lia.
  pose proof (iter_xO p d) as Hp.
  rewrite Hp. pose proof (Zdigits2_shiftl (Zpos p) (Zpos d) ltac:(lia) ltac:(lia)) as Hdig.
  replace (Zdigits2 (Z.pos p) + e) with (Zdigits2 (Z.pos p * 2 ^ Z.pos d) + fe) by lia.
  apply binary_round_aux_mag; [pose proof (Z.pow_pos_nonneg 2 (Zpos d)); nia| |lia].
  unfold fexp, emin, prec, emax in *. lia.
Qed.

Lemma float_of_int_mag n : 0 < n → Zdigits2 n <= 1000 →
  ∃ x, float_of_int n = Ok x ∧ mag_between false (Zdigits2 n) (Zdigits2 n + 1) x.
Proof.
  intros Hn Hd. destruct n as [|p|p]; [lia| |lia]. unfold float_of_int.
  destruct (Zdigits2_bounds (Zpos p) Hn) as (? & _).
  destruct (normalize_mag p 0) as (k & Hk & Hb); [lia|].
  destruct (finite_mag_noinf _ _ _ Hk) as (-> & _).
  eexists. split; [done|]. exists k. split; [done|lia].
Qed.

(** The floor of a finite float exists, and below [2^k] it is below [2^k]. *)
Lemma ffloor_mag s k x : finite_mag s k x → ∃ n, ffloor x = Ok n ∧ n < 2 ^ Z.max 0 k.
Proof.
  intros (m & e & -> & Hk & _). unfold ffloor, to_int. eexists. split; [done|].
  destruct (Zdigits2_bounds (Zpos m) ltac:(lia)) as (? & _ & Hu).
  pose proof (Z.pow_pos_nonneg 2 (Z.max 0 k) ltac:(lia) ltac:(lia)).
  destruct s; cbn [signed].
  - assert (Z.shiftl (Z.neg m) e < 0) by (apply Z.shiftl_neg; lia). lia.
  - destruct (Z.le_gt_cases 0 e).
    + rewrite Z.shiftl_mul_pow2 by lia. rewrite Z.max_r by lia. subst k.
      rewrite Z.pow_add_r by lia. pose proof (Z.pow_pos_nonneg 2 e). nia.
    + replace e with (- (- e)) by lia. rewrite Z.shiftl_opp_r, Z.shiftr_div_pow2 by lia.
      apply Z.div_lt_upper_bound; [apply Z.pow_pos_nonneg; lia|].
      rewrite <-Z.pow_add_r by lia.
      eapply Z.lt_le_trans; [exact Hu|]. apply Z.pow_le_mono_r; lia.
Qed.

Lemma shl_align_fst m e ez : ez <= e → Zpos (fst (shl_align m e ez)) = Zpos m * 2 ^ (e - ez).
Proof.
  intros He. unfold shl_align. destruct (ez - e) as [|d|d] eqn:Hd; [|lia|].
  - replace (e - ez) with 0 by lia. cbn. lia.
  - cbn [fst]. rewrite iter_xO. f_equal. f_equal. lia.
Qed.

(** The sum of two positive floats. *)
Lemma fadd_mag x y k1 k2 : finite_mag false k1 x → finite_mag false k2 y →
  -900 <= k1 <= 900 → -900 <= k2 <= 900 →
  mag_between false (Z.max k1 k2) (Z.max k1 k2 + 2) (fadd x y).
Proof.
  intros (m1 & e1 & -> & H1 & _) (m2 & e2 & -> & H2 & _) Hk1 Hk2. unfold fadd, SFadd.
  set (ez := Z.min e1 e2). cbn [cond_Zopp].
  rewrite !shl_align_fst by lia.
  destruct (Zdigits2_bounds (Zpos m1) ltac:(lia)) as (? & _).
  destruct (Zdigits2_bounds (Zpos m2) ltac:(lia)) as (? & _).
  pose proof (Zdigits2_shiftl (Zpos m1) (e1 - ez) ltac:(lia) ltac:(lia)) as Hd1.
  pose proof (Zdigits2_shiftl (Zpos m2) (e2 - ez) ltac:(lia) ltac:(lia)) as Hd2.
  assert (Hp1 : 0 < Zpos m1 * 2 ^ (e1 - ez)) by (pose proof (Z.pow_pos_nonneg 2 (e1 - ez)); nia).
  assert (Hp2 : 0 < Zpos m2 * 2 ^ (e2 - ez)) by (pose proof (Z.pow_pos_nonneg 2 (e2 - ez)); nia).
  set (a := Zpos m1 * 2 ^ (e1 - ez)) in *. set (b := Zpos m2 * 2 ^ (e2 - ez)) in *.
  destruct (Zdigits2_bounds a Hp1) as (? & Hal & Hau). destruct (Zdigits2_bounds b Hp2) as (? & Hbl & Hbu).
  set (D := Z.max (Zdigits2 a) (Zdigits2 b)).
  assert (HD : D <= Zdigits2 (a + b) <= D + 1).
  { split.
    - destruct (Zdigits2_bounds (a + b) ltac:(lia)) as (? & _ & Hu).
      destruct (Z.le_gt_cases D (Zdigits2 (a + b))); [done|].
      pose proof (Z.pow_le_mono_r 2 (Zdigits2 (a + b)) (D - 1)).
      destruct (Z.max_spec (Zdigits2 a) (Zdigits2 b)) as [[_ E]|[_ E]]; fold D in E; rewrite E in *; lia.
    - apply Zdigits2_le; [lia|]. rewrite Z.pow_add_r by lia.
      pose proof (Z.pow_le_mono_r 2 (Zdigits2 a) D). pose proof (Z.pow_le_mono_r 2 (Zdigits2 b) D). lia. }
  destruct (a + b) as [|p|p] eqn:Hab; [lia| |lia].
  destruct (normalize_mag p ez) as (k & Hk & Hb); [lia|].
  exists k. split; [done|lia].
Qed.

Lemma mag_between_weaken s lo hi lo' hi' x :
  mag_between s lo hi x → lo' <= lo → hi <= hi' → mag_between s lo' hi' x.
Proof. intros (k & Hk & ?) ? ?. exists k. split; [done|lia]. Qed.

(** A float compared with zero by its sign. *)
Lemma finite_mag_pos k x : finite_mag false k x → fle x f0 = false ∧ flt f0 x = true.
Proof. by intros (m & e & -> & _). Qed.

(** * Floats bounded above

    [below k x]: [x] is finite and [|x| < 2^k]. Every operation on bounded floats is bounded,
    whatever the signs, also when the result underflows; and [round] of one never raises. *)


Definition below (k : Z) (x : float) : Prop :=
  match x with
  | S754_zero _ => True
  | S754_finite _ m e => Zdigits2 (Zpos m) + e <= k ∧ Zdigits2 (Zpos m) <= 53
  | _ => False
  end.

#[export] Instance below_dec k x : Decision (below k x).
Proof. unfold below. destruct x; apply _. Defined.

(** A bound of a closed float, by evaluation. *)
Ltac closed_below := apply (bool_decide_unpack _); vm_compute; exact I.

Lemma below_mono k k' x : below k x → k <= k' → below k' x.
Proof. destruct x; cbn [below]; try done; intros [? ?] ?; lia. Qed.

Lemma mag_below s lo hi k x : mag_between s lo hi x → hi <= k → below k x.
Proof. intros (j & (m & e & -> & Hj & Hd) & ?) ?. cbn [below]. lia. Qed.

Lemma below_cases k x : below k x → is_zero x = true ∨ ∃ s j, finite_mag s j x ∧ j <= k.
Proof. destruct x as [| | |s m e]; cbn [below]; try done; [by left|]. intros [? ?]. right. exists s, (Zdigits2 (Zpos m) + e). split; [|lia]. by exists m, e. Qed.

Lemma below_finite k x : below k x → isfinite x = true.
Proof. by destruct x. Qed.

(** The mantissa and exponent after [shr_fexp], a zero mantissa included. *)
Lemma shr_fexp_zero e l mrs' e' : shr_fexp prec emax 0 e l = (mrs', e') → shr_m mrs' = 0.
Proof.
  unfold shr_fexp, shr. destruct (fexp prec emax (Zdigits2 0 + e) - e); intros [= <- <-]; rewrite ?shr_record_m; try done.
  rewrite iter_pos_nat, shr_iter_m by (by rewrite shr_record_m). by rewrite shr_record_m.
Qed.

Lemma binary_round_aux_below s m e l k : 0 < m → e <= 971 → Zdigits2 m + e < k →
  -1073 <= k <= 1023 → below k (binary_round_aux prec emax s m e l).
Proof.
  intros Hm He Hk Hr. destruct (Z.le_gt_cases (-1073) (Zdigits2 m + e)) as [Hn|Hlow].
  { eapply mag_below; [apply binary_round_aux_mag; lia|lia]. }
  unfold binary_round_aux.
  destruct (shr_fexp prec emax m e l) as [mrs1 e1] eqn:H1.
  pose proof (shr_fexp_spec _ _ _ _ _ Hm H1) as [Hm1 He1]. cbn zeta in *.
  destruct (Zdigits2_bounds m Hm) as (Hd & _ & Hu).
  set (n := Z.max 0 (fexp prec emax (Zdigits2 m + e) - e)) in *.
  assert (Hnd : Zdigits2 m <= n ∧ e1 = -1074) by (unfold n, fexp, emin, prec, emax in *; lia).
  rewrite Z.div_small in Hm1 by (pose proof (Z.pow_le_mono_r 2 (Zdigits2 m) n); lia).
  destruct (round_nearest_even_cases (shr_m mrs1) (loc_of_shr_record mrs1)) as [E|E]; rewrite E, Hm1.
  - destruct (shr_fexp prec emax 0 e1 loc_Exact) as [mrs3 e3] eqn:H3.
    by rewrite (shr_fexp_zero _ _ _ _ H3).
  - destruct Hnd as [_ ->]. change (below k (S754_finite s 1 (-1074))). cbn [below Zdigits2 digits2_pos]. lia.
Qed.

Lemma binary_round_below s p e k : Zdigits2 (Zpos p) + e < k → -1073 <= k <= 1023 →
  below k (binary_round prec emax s p e).
Proof.
  intros Hk Hr. unfold binary_round, shl_align.
  set (fe := fexp prec emax _).
  assert (Hfe : fe = fexp prec emax (Zdigits2 (Zpos p) + e)) by done.
  destruct (Zdigits2_bounds (Zpos p) ltac:(lia)) as (? & _).
  destruct (fe - e) as [|d|d] eqn:Hd.
  1,2: apply binary_round_aux_below; [lia| |lia|lia]; unfold fexp, emin, prec, emax in *; lia.
  pose proof (iter_xO p d) as Hp.
  rewrite Hp. pose proof (Zdigits2_shiftl (Zpos p) (Zpos d) ltac:(lia) ltac:(lia)) as Hdig.
  apply binary_round_aux_below; [pose proof (Z.pow_pos_nonneg 2 (Zpos d)); nia| |lia|lia].
  unfold fexp, emin, prec, emax in *. lia.
Qed.

Lemma normalize_below z e k sz : Zdigits2 (Z.abs z) + e < k → -1073 <= k <= 1023 →
  below k (binary_normalize prec emax z e sz).
Proof.
  intros Hk Hr. unfold binary_normalize. destruct z as [|p|p]; [done| |]; by apply binary_round_below.
Qed.

(** A zero mantissa rounds to zero or to the least float. *)
Lemma shr_fexp_zero_exp e l mrs' e' : shr_fexp prec emax 0 e l = (mrs', e') → e' = Z.max e (-1074).
Proof.
  unfold shr_fexp, shr, fexp, emin, prec, emax. cbn [Zdigits2]. set (n := _ - e).
  assert (Hn : n = Z.max (-53) (-1074 - e)) by (unfold n; lia).
  destruct n; intros [= _ <-]; lia.
Qed.

Lemma round_zero_below s e l k : Z.max e (-1074) < k → e <= 971 → below k (binary_round_aux prec emax s 0 e l).
Proof.
  intros Hk He. unfold binary_round_aux. destruct (shr_fexp prec emax 0 e l) as [mrs1 e1] eqn:H1.
  pose proof (shr_fexp_zero_exp _ _ _ _ H1) as He1. rewrite (shr_fexp_zero _ _ _ _ H1) .
  destruct (round_nearest_even_cases 0 (loc_of_shr_record mrs1)) as [E|E]; rewrite E.
  - destruct (shr_fexp prec emax 0 e1 loc_Exact) as [mrs3 e3] eqn:H3. by rewrite (shr_fexp_zero _ _ _ _ H3).
  - destruct (shr_fexp prec emax (0 + 1) e1 loc_Exact) as [mrs3 e3] eqn:H3.
    apply shr_fexp_spec in H3 as [Hm ->]; [|lia]. cbn zeta in *.
    change (Zdigits2 (0 + 1)) with 1 in *.
    replace (Z.max 0 _) with 0 in * by (unfold fexp, emin, prec, emax; lia).
    rewrite Hm. change ((0 + 1) / 2 ^ 0) with 1. cbn [below].
    rewrite (proj2 (Z.leb_le _ _)) by (unfold emax, prec; lia). cbn [below Zdigits2 digits2_pos]. lia.
Qed.

(** ** Operations *)

Lemma fneg_below k x : below k x → below k (fneg x).
Proof. by destruct x. Qed.
Lemma fabs_below k x : below k x → below k (fabs x).
Proof. by destruct x. Qed.
Lemma fmax_below k x y : below k x → below k y → below k (fmax x y).
Proof. unfold fmax. by case_match. Qed.
Lemma fmin_below k x y : below k x → below k y → below k (fmin x y).
Proof. unfold fmin. by case_match. Qed.

Lemma fmul_below k1 k2 k x y : below k1 x → below k2 y → k1 + k2 < k → -1073 <= k <= 900 →
  below k (fmul x y).
Proof.
  intros Hx Hy Hk Hr. destruct x as [sx|sx| |sx m1 e1], y as [sy|sy| |sy m2 e2]; try done.
  destruct Hx as [Hx _], Hy as [Hy _]. unfold fmul, SFmul. rewrite Pos2Z.inj_mul.
  destruct (Zdigits2_bounds (Zpos m1) ltac:(lia)) as (? & Hl1 & Hu1).
  destruct (Zdigits2_bounds (Zpos m2) ltac:(lia)) as (? & Hl2 & Hu2).
  assert (Zdigits2 (Zpos m1 * Zpos m2) <= Zdigits2 (Zpos m1) + Zdigits2 (Zpos m2)).
  { apply Zdigits2_le; [lia|]. rewrite Z.pow_add_r by lia. nia. }
  apply binary_round_aux_below; lia.
Qed.

Lemma cond_Zopp_abs s z : Z.abs (cond_Zopp s z) = Z.abs z.
Proof. destruct s; cbn; lia. Qed.

(** An aligned mantissa keeps the bound. *)
Lemma aligned_bound m e ez k : ez <= e → Zdigits2 (Zpos m) + e <= k → 
  0 < Zpos m * 2 ^ (e - ez) < 2 ^ (k - ez).
Proof.
  intros He Hk. destruct (Zdigits2_bounds (Zpos m) ltac:(lia)) as (? & _ & Hu).
  pose proof (Z.pow_pos_nonneg 2 (e - ez) ltac:(lia) ltac:(lia)). split; [nia|].
  eapply Z.lt_le_trans; [apply Z.mul_lt_mono_pos_r; [done|exact Hu]|].
  rewrite <-Z.pow_add_r by lia. apply Z.pow_le_mono_r; lia.
Qed.

Lemma SFadd_sum s1 m1 e1 s2 m2 e2 k : Zdigits2 (Zpos m1) + e1 <= k → Zdigits2 (Zpos m2) + e2 <= k →
  let ez := Z.min e1 e2 in
  Zdigits2 (Z.abs (cond_Zopp s1 (Zpos (fst (shl_align m1 e1 ez))) +
                   cond_Zopp s2 (Zpos (fst (shl_align m2 e2 ez))))) + ez <= k + 1.
Proof.
  intros H1 H2 ez. rewrite !shl_align_fst by lia.
  destruct (Zdigits2_bounds (Zpos m1) ltac:(lia)) as (? & _).
  destruct (Zdigits2_bounds (Zpos m2) ltac:(lia)) as (? & _).
  pose proof (aligned_bound m1 e1 ez k ltac:(lia) H1) as Ha.
  pose proof (aligned_bound m2 e2 ez k ltac:(lia) H2) as Hb.
  set (a := Zpos m1 * 2 ^ (e1 - ez)) in *. set (b := Zpos m2 * 2 ^ (e2 - ez)) in *.
  set (z := cond_Zopp s1 a + cond_Zopp s2 b).
  assert (Hz : Z.abs z < 2 ^ (k - ez + 1)).
  { rewrite Z.pow_add_r by lia. pose proof (cond_Zopp_abs s1 a). pose proof (cond_Zopp_abs s2 b). unfold z. lia. }
  destruct (Z.eq_dec (Z.abs z) 0) as [->|Hne]; [cbn; lia|].
  pose proof (Zdigits2_le (Z.abs z) (k - ez + 1) ltac:(lia) Hz). lia.
Qed.

Lemma fadd_below k x y : below k x → below k y → -1073 <= k <= 1000 → below (k + 2) (fadd x y).
Proof.
  intros Hx Hy Hr. destruct x as [sx|sx| |sx m1 e1], y as [sy|sy| |sy m2 e2]; try done.
  - unfold fadd, SFadd. destruct sx, sy; exact I.
  - apply (below_mono _ (k + 2)) in Hy; [exact Hy|lia].
  - apply (below_mono _ (k + 2)) in Hx; [exact Hx|lia].
  - destruct Hx as [Hx _], Hy as [Hy _]. unfold fadd, SFadd. apply normalize_below; [|lia].
    pose proof (SFadd_sum sx m1 e1 sy m2 e2 k Hx Hy). cbn zeta in *. lia.
Qed.

Lemma fsub_below k x y : below k x → below k y → -1073 <= k <= 1000 → below (k + 2) (fsub x y).
Proof.
  intros Hx Hy Hr. destruct x as [sx|sx| |sx m1 e1], y as [sy|sy| |sy m2 e2]; try done.
  - unfold fsub, SFsub. destruct sx, sy; exact I.
  - apply (below_mono _ (k + 2)) in Hy; [exact Hy|lia].
  - apply (below_mono _ (k + 2)) in Hx; [exact Hx|lia].
  - destruct Hx as [Hx _], Hy as [Hy _]. unfold fsub, SFsub. apply normalize_below; [|lia].
    pose proof (SFadd_sum sx m1 e1 (negb sy) m2 e2 k Hx Hy) as H. cbn zeta in *.
    replace (cond_Zopp (negb sy) (Z.pos (shl_align m2 e2 (Z.min e1 e2)).1))
      with (- cond_Zopp sy (Z.pos (shl_align m2 e2 (Z.min e1 e2)).1)) in H by (by destruct sy).
    rewrite Z.add_opp_r in H. lia.
Qed.

(** A quotient of positive mantissas. *)
Lemma div_core_below s m1 e1 m2 e2 k : 0 < m1 → 0 < m2 →
  let D := Zdigits2 m1 + e1 - (Zdigits2 m2 + e2) in
  D + 2 <= k → -1000 <= k <= 1000 → e1 - e2 <= 971 →
  below k (let '(m, e, l) := SFdiv_core_binary prec emax m1 e1 m2 e2 in binary_round_aux prec emax s m e l).
Proof.
  intros H1 H2 D HD Hr He. unfold SFdiv_core_binary. fold D.
  set (e' := Z.min (fexp prec emax D) (e1 - e2)).
  set (sh := e1 - e2 - e').
  assert (Hm' : match sh with 0 => m1 | Z.pos _ => Z.shiftl m1 sh | Z.neg _ => 0 end = m1 * 2 ^ sh).
  { assert (0 <= sh) by lia. destruct sh eqn:E; [lia| |lia]. rewrite Z.shiftl_mul_pow2; lia. }
  rewrite Hm'. destruct (Z.div_eucl (m1 * 2 ^ sh) m2) as [q r] eqn:Hq.
  assert (Hqd : q = m1 * 2 ^ sh / m2) by (unfold Z.div; by rewrite Hq).
  destruct (Zdigits2_bounds m2 H2) as (Hd2 & Hl2 & _).
  pose proof (Zdigits2_shiftl m1 sh H1 ltac:(lia)) as Hdig.
  pose proof (Z.pow_pos_nonneg 2 sh ltac:(lia) ltac:(lia)) as Hsh.
  destruct (Zdigits2_bounds (m1 * 2 ^ sh) ltac:(nia)) as (_ & _ & Hu).
  destruct (Z.le_gt_cases q 0) as [Hq0|Hq0].
  { replace q with 0 by (assert (0 <= q) by (rewrite Hqd; apply Z.div_pos; nia); lia). apply round_zero_below; [|lia]. unfold e'. unfold fexp, emin, prec, emax. lia. }
  apply binary_round_aux_below; [done|lia| |lia].
  assert (Hql : Zdigits2 q <= Zdigits2 m1 + sh - Zdigits2 m2 + 1); [|lia].
  apply Zdigits2_le; [done|]. rewrite Hqd. apply Z.div_lt_upper_bound; [done|].
  eapply Z.lt_le_trans; [exact Hu|]. rewrite Hdig.
  destruct (Z.le_gt_cases 0 (Zdigits2 m1 + sh - Zdigits2 m2 + 1)) as [Hp|Hn].
  - set (w := Zdigits2 m1 + sh - Zdigits2 m2 + 1) in *.
    replace (2 ^ (Zdigits2 m1 + sh)) with (2 ^ (Zdigits2 m2 - 1) * 2 ^ w)
      by (rewrite <-Z.pow_add_r by lia; f_equal; lia).
    apply Z.mul_le_mono_nonneg_r; [apply Z.pow_nonneg; lia|done].
  - exfalso. assert (m1 * 2 ^ sh < m2).
    { eapply Z.lt_le_trans; [exact Hu|]. etransitivity; [|exact Hl2]. apply Z.pow_le_mono_r; lia. }
    rewrite Z.div_small in Hqd by nia. lia.
Qed.

(** A quotient by a float that is not tiny. *)
Lemma fdiv_below x y k1 s2 k2 k : below k1 x → finite_mag s2 k2 y → k1 - k2 + 2 <= k → -900 <= k <= 900 →
  ∃ z, fdiv x y = Ok z ∧ below k z.
Proof.
  intros Hx Hy Hk Hr. unfold fdiv. destruct (finite_mag_noinf _ _ _ Hy) as (_ & -> & _).
  destruct Hy as (m2 & e2 & -> & H2 & Hd2). eexists. split; [done|].
  destruct x as [sx|sx| |sx m1 e1]; try done. destruct Hx as [Hx _]. unfold SFdiv.
  destruct (Zdigits2_bounds (Zpos m1) ltac:(lia)) as (? & _).
  set (D := Zdigits2 (Zpos m1) + e1 - (Zdigits2 (Zpos m2) + e2)).
  pose proof (div_core_below (xorb sx s2) (Zpos m1) e1 (Zpos m2) e2 k ltac:(lia) ltac:(lia)) as Hc.
  cbn zeta in Hc. apply Hc; lia.
Qed.

(** ** Conversions and rounding *)

Lemma Zdigits2_abs_le n k : 0 <= k → Z.abs n < 2 ^ k → Zdigits2 (Z.abs n) <= k.
Proof.
  intros Hk Hn. destruct (Z.eq_dec (Z.abs n) 0) as [->|Hne]; [done|]. apply Zdigits2_le; [lia|done].
Qed.

Lemma float_of_int_below n j k : Z.abs n < 2 ^ j → 0 <= j < k → k <= 1000 →
  ∃ x, float_of_int n = Ok x ∧ below k x.
Proof.
  intros Hn Hj Hk. unfold float_of_int.
  assert (Hb : below k (binary_normalize prec emax n 0 false)).
  { apply normalize_below; [|lia]. pose proof (Zdigits2_abs_le n j ltac:(lia) Hn). lia. }
  destruct (binary_normalize prec emax n 0 false); try done; cbn [is_inf]; by eexists.
Qed.

Lemma div_round_below n d j k : Z.abs n < 2 ^ j → 0 < d → 0 <= j → j + 1 <= k → k <= 1000 →
  below k (div_round n d).
Proof.
  intros Hn Hd Hj Hk Hr. unfold div_round. destruct (Z.eqb_spec n 0) as [->|Hne]; [done|].
  pose proof (Zdigits2_abs_le n j Hj Hn). destruct (Zdigits2_bounds d Hd) as (? & _).
  apply (div_core_below _ (Z.abs n) 0 d 0 k); lia.
Qed.

Lemma truediv_below n d j k : Z.abs n < 2 ^ j → d ≠ 0 → 0 <= j → j + 1 <= k → k <= 1000 →
  ∃ x, truediv n d = Ok x ∧ below k x.
Proof.
  intros Hn Hd Hj Hk Hr. unfold truediv. rewrite (proj2 (Z.eqb_neq d 0)) by done.
  destruct (Z.eqb_spec n 0) as [->|Hne]; [by eexists|].
  assert (Hb : below k (div_round (if d <? 0 then - n else n) (Z.abs d))).
  { apply (div_round_below _ _ j); [|lia..]. destruct (d <? 0); lia. }
  destruct (div_round _ _); try done; cbn [is_inf]; by eexists.
Qed.

Lemma div_half_even_le n d : 0 <= n → 0 < d → 0 <= div_half_even n d <= n / d + 1.
Proof.
  intros Hn Hd. unfold div_half_even. pose proof (Z.div_pos n d Hn Hd).
  destruct (2 * (n mod d) ?= d); [destruct (Z.even _)|..]; lia.
Qed.

(** [|x| * 10^p], rounded, for [|x| < 2^k]. *)
Lemma scaled_abs_bound m e p k : Zdigits2 (Zpos m) + e <= k → 0 <= k → 0 <= p →
  0 <= scaled_abs m e p <= 2 ^ k * 10 ^ p + 1.
Proof.
  intros Hk Hk0 Hp. unfold scaled_abs. destruct (Zdigits2_bounds (Zpos m) ltac:(lia)) as (? & _ & Hu).
  pose proof (Z.pow_pos_nonneg 10 p ltac:(lia) Hp) as H10.
  destruct (Z.leb_spec 0 e) as [He|He].
  - rewrite Z.shiftl_mul_pow2 by done. pose proof (Z.pow_pos_nonneg 2 e ltac:(lia) He).
    assert (Zpos m * 2 ^ e <= 2 ^ k); [|nia].
    transitivity (2 ^ Zdigits2 (Zpos m) * 2 ^ e); [nia|]. rewrite <-Z.pow_add_r by lia. apply Z.pow_le_mono_r; lia.
  - pose proof (Z.pow_pos_nonneg 2 (- e) ltac:(lia) ltac:(lia)) as Hd.
    destruct (div_half_even_le (Zpos m * 10 ^ p) (2 ^ (- e)) ltac:(nia) Hd) as [Hlo Hhi].
    split; [done|]. etransitivity; [exact Hhi|]. apply Z.add_le_mono_r. apply Z.div_le_upper_bound; [done|].
    assert (Zpos m <= 2 ^ (- e) * 2 ^ k); [|nia]. rewrite <-Z.pow_add_r by lia.
    transitivity (2 ^ Zdigits2 (Zpos m)); [lia|]. apply Z.pow_le_mono_r; lia.
Qed.

Lemma round_digits_below p x k : 0 <= p <= 10 → below k x → 0 <= k <= 900 →
  ∃ y, round_digits p x = Ok y ∧ below (k + 50) y.
Proof.
  intros Hp Hx Hk. destruct x as [s|s| |s m e]; try done; [by eexists|]. destruct Hx as [Hx _].
  unfold round_digits. destruct (Z.eqb_spec (scaled_abs m e p) 0) as [_|Hne]; [by eexists|].
  destruct (scaled_abs_bound m e p k) as [Hlo Hhi]; [lia..|].
  assert (Hb : below (k + 50) (div_round (if s then - scaled_abs m e p else scaled_abs m e p) (10 ^ p))).
  { apply (div_round_below _ _ (k + 49)); [|apply Z.pow_pos_nonneg; lia|lia..].
    assert (2 ^ k * 10 ^ p + 1 < 2 ^ (k + 49)).
    { assert (10 ^ p <= 2 ^ 40) by (transitivity (10 ^ 10); [apply Z.pow_le_mono_r; lia|by vm_compute]).
      pose proof (Z.pow_pos_nonneg 2 k ltac:(lia) ltac:(lia)).
      rewrite Z.pow_add_r by lia. change (2 ^ 49) with (2 ^ 40 * 512). nia. }
    destruct s; lia. }
  destruct (div_round _ _); try done; cbn [is_inf]; by eexists.
Qed.

Lemma round_digits_ok p x k : 0 <= p <= 10 → below k x → k <= 900 → is_ok (round_digits p x).
Proof.
  intros Hp Hx Hk. destruct (round_digits_below p x (Z.max 0 k)) as (y & -> & _); [done| |lia|by eexists].
  eapply below_mono; [done|lia].
Qed.

(** * Exact float operations

    Rounding leaves a representable value alone; so the mean of a float and itself is that
    float. A float is [canonical] when it has its full precision or the least exponent, as
    every float of a running program has. *)


Definition canonical (x : float) : Prop :=
  match x with
  | S754_finite _ m e => fexp prec emax (Zdigits2 (Zpos m) + e) = e
  | _ => True
  end.

#[export] Instance canonical_dec x : Decision (canonical x).
Proof. unfold canonical. destruct x; apply _. Defined.

Lemma shr_1_even m : 0 <= m → shr_1 {| shr_m := m * 2; shr_r := false; shr_s := false |} = {| shr_m := m; shr_r := false; shr_s := false |}.
Proof. intros Hm. destruct m as [|p|p]; [done| |lia]. replace (Zpos p * 2) with (Zpos p~0) by lia. done. Qed.

Lemma shr_iter_exact m k : 0 <= m →
  Nat.iter k shr_1 {| shr_m := m * 2 ^ Z.of_nat k; shr_r := false; shr_s := false |} =
  {| shr_m := m; shr_r := false; shr_s := false |}.
Proof.
  intros Hm. induction k as [|k IH]; [by rewrite Z.mul_1_r|].
  rewrite Nat.iter_succ_r, Nat2Z.inj_succ, Z.pow_succ_r by lia.
  replace (m * (2 * 2 ^ Z.of_nat k)) with (m * 2 ^ Z.of_nat k * 2) by lia.
  rewrite shr_1_even; [done|]. pose proof (Z.pow_pos_nonneg 2 (Z.of_nat k)). nia.
Qed.

(** A shifted mantissa rounds back. *)
Lemma round_exact s m e k : 0 <= k → fexp prec emax (Zdigits2 (Zpos m) + e) = e → e <= 971 →
  binary_round_aux prec emax s (Zpos m * 2 ^ k) (e - k) loc_Exact = S754_finite s m e.
Proof.
  intros Hk Hc He. unfold binary_round_aux, shr_fexp.
  rewrite Zdigits2_shiftl by lia. replace (Zdigits2 (Zpos m) + k + (e - k)) with (Zdigits2 (Zpos m) + e) by lia.
  rewrite Hc. replace (e - (e - k)) with k by lia. cbn [shr_record_of_loc].
  assert (Hs : shr {| shr_m := Zpos m * 2 ^ k; shr_r := false; shr_s := false |} (e - k) k =
               ({| shr_m := Zpos m; shr_r := false; shr_s := false |}, e)).
  { destruct k as [|p|p]; [cbn; f_equal; [f_equal|]; lia| |lia]. unfold shr. rewrite iter_pos_nat.
    replace (Zpos p) with (Z.of_nat (Pos.to_nat p)) by lia.
    rewrite shr_iter_exact by lia. f_equal. lia. }
  rewrite Hs. cbn [shr_m loc_of_shr_record round_nearest_even]. rewrite Hc, Z.sub_diag. cbn [shr shr_m].
  rewrite (proj2 (Z.leb_le _ _)) by (unfold emax, prec; lia). done.
Qed.

(** The shift of a rounding to the right is not one to the left. *)
Lemma binary_round_exact s p e : e <= fexp prec emax (Zdigits2 (Zpos p) + e) →
  binary_round prec emax s p e = binary_round_aux prec emax s (Zpos p) e loc_Exact.
Proof.
  intros He. unfold binary_round, shl_align. change (Z.pos (digits2_pos p)) with (Zdigits2 (Zpos p)).
  destruct (fexp prec emax _ - e) eqn:E; [done|done|lia].
Qed.

(** Twice a float. *)
Lemma double_exact s m e : canonical (S754_finite s m e) → Zdigits2 (Zpos m) + e <= 1000 →
  ∃ mw ew, fadd (S754_finite s m e) (S754_finite s m e) = S754_finite s mw ew ∧
    Zdigits2 (Zpos mw) + ew = Zdigits2 (Zpos m) + e + 1 ∧ e <= ew <= e + 1 ∧ Zpos mw = Zpos m * 2 ^ (e + 1 - ew).
Proof.
  intros Hc Hb. cbn [canonical] in Hc. destruct (Zdigits2_bounds (Zpos m) ltac:(lia)) as (Hd & _).
  assert (Hf : fadd (S754_finite s m e) (S754_finite s m e) = binary_round prec emax s m~0 e).
  { unfold fadd, SFadd. rewrite Z.min_id. unfold shl_align. rewrite Z.sub_diag. cbn [fst].
    replace (cond_Zopp s (Zpos m) + cond_Zopp s (Zpos m)) with (cond_Zopp s (Zpos m~0)) by (destruct s; cbn; lia).
    unfold binary_normalize. by destruct s. }
  assert (Hd2 : Zdigits2 (Zpos m~0) = Zdigits2 (Zpos m) + 1).
  { replace (Zpos m~0) with (Zpos m * 2 ^ 1) by lia. by rewrite Zdigits2_shiftl by lia. }
  rewrite Hf, binary_round_exact by (rewrite Hd2; unfold fexp, emin, prec, emax in *; lia).
  destruct (Z.eq_dec (fexp prec emax (Zdigits2 (Zpos m~0) + e)) e) as [Heq|Hne].
  - exists m~0%positive, e. split; [|rewrite Hd2; split; [lia|]; split; [lia|]; replace (e + 1 - e) with 1 by lia; lia].
    pose proof (round_exact s m~0 e 0 ltac:(lia) Heq) as H. rewrite Z.mul_1_r, Z.sub_0_r in H.
    apply H. unfold fexp, emin, prec, emax in *. lia.
  - exists m, (e + 1). split; [|split; [lia|]; split; [lia|]; replace (e + 1 - (e + 1)) with 0 by lia; lia].
    pose proof (round_exact s m (e + 1) 1 ltac:(lia)) as H. replace (e + 1 - 1) with e in H by lia.
    replace (Zpos m~0) with (Zpos m * 2 ^ 1) by lia. rewrite Hd2 in Hne. apply H; unfold fexp, emin, prec, emax in *; lia.
Qed.

Definition two : float := div_round 2 1.

Lemma two_is : two = S754_finite false 4503599627370496 (-51).
Proof. by vm_compute. Qed.

(** The mean of a float and itself. *)
Lemma mean_exact x : canonical x → below 1000 x → fdiv (fadd x x) two = Ok x.
Proof.
  destruct x as [s|s| |s m e]; intros Hc Hb; try done; [by destruct s|].
  destruct (double_exact s m e Hc (proj1 Hb)) as (mw & ew & -> & Hdw & Hew & Hmw). rewrite two_is.
  unfold fdiv. cbn [is_zero]. f_equal. unfold SFdiv. cbn [canonical] in Hc.
  destruct (Zdigits2_bounds (Zpos m) ltac:(lia)) as (Hd & _). destruct (Zdigits2_bounds (Zpos mw) ltac:(lia)) as (Hdmw & _).
  unfold SFdiv_core_binary. change (Zdigits2 4503599627370496) with 53.
  replace (Zdigits2 (Zpos mw) + ew - (53 + -51)) with (Zdigits2 (Zpos m) + e - 1) by lia.
  set (e' := Z.min _ _).
  assert (He' : e' <= e ∧ e - 1 <= e') by (unfold e', fexp, emin, prec, emax in *; lia).
  set (sh := ew - -51 - e'). assert (Hsh : 51 <= sh) by lia.
  replace (match sh with 0 => Zpos mw | Z.pos _ => Z.shiftl (Zpos mw) sh | Z.neg _ => 0 end) with (Zpos mw * 2 ^ sh)
    by (destruct sh eqn:E; [lia|rewrite Z.shiftl_mul_pow2; lia|lia]).
  assert (Hq : Zpos mw * 2 ^ sh = Zpos m * 2 ^ (e - e') * 4503599627370496).
  { rewrite Hmw. change 4503599627370496 with (2 ^ 52). rewrite <-!Z.mul_assoc, <-!Z.pow_add_r by lia. do 2 f_equal. lia. }
  rewrite Hq. destruct (Z.div_eucl _ _) as [q r] eqn:Hdiv.
  assert (Hqr : q = Zpos m * 2 ^ (e - e') ∧ r = 0).
  { pose proof (Z.div_mul (Zpos m * 2 ^ (e - e')) 4503599627370496 ltac:(lia)) as H1.
    pose proof (Z.mod_mul (Zpos m * 2 ^ (e - e')) 4503599627370496 ltac:(lia)) as H2.
    unfold Z.div in H1. unfold Z.modulo in H2. rewrite Hdiv in H1, H2. done. }
  destruct Hqr as [-> ->]. change (new_location 4503599627370496 0) with loc_Exact.
  replace (xorb s false) with s by (by destruct s).
  pose proof (round_exact s m e (e - e') ltac:(lia) Hc) as H. replace (e - (e - e')) with e' in H by lia.
  apply H. destruct Hb as [Hb _]. unfold fexp, emin, prec, emax in *. lia.
Qed.

(** * The order of floats

    Comparisons of floats that are not NaN are those of a total preorder: each value has a
    key, and [flt] and [fle] compare keys lexicographically. *)


Record fkey := FK { fk_class : Z; fk_exp : Z; fk_man : Z }.

Definition key_of (x : float) : fkey :=
  match x with
  | S754_infinity s => FK (if s then -2 else 2) 0 0
  | S754_finite true m e => FK (-1) (- e) (- Zpos m)
  | S754_finite false m e => FK 1 e (Zpos m)
  | S754_zero _ | S754_nan => FK 0 0 0
  end.

Definition klt (a b : fkey) : Prop :=
  fk_class a < fk_class b ∨
  (fk_class a = fk_class b ∧
   (fk_exp a < fk_exp b ∨ (fk_exp a = fk_exp b ∧ fk_man a < fk_man b))).

Definition kcompare (a b : fkey) : comparison :=
  match Z.compare (fk_class a) (fk_class b) with
  | Eq => match Z.compare (fk_exp a) (fk_exp b) with
          | Eq => Z.compare (fk_man a) (fk_man b) | c => c end
  | c => c
  end.

Lemma kcompare_lt a b : kcompare a b = Lt ↔ klt a b.
Proof.
  unfold kcompare, klt.
  destruct (Z.compare_spec (fk_class a) (fk_class b)), (Z.compare_spec (fk_exp a) (fk_exp b)),
    (Z.compare_spec (fk_man a) (fk_man b)); split; intros; try done; lia.
Qed.

Lemma kcompare_gt a b : kcompare a b = Gt ↔ klt b a.
Proof.
  unfold kcompare, klt.
  destruct (Z.compare_spec (fk_class a) (fk_class b)), (Z.compare_spec (fk_exp a) (fk_exp b)),
    (Z.compare_spec (fk_man a) (fk_man b)); split; intros; try done; lia.
Qed.

Lemma SFcompare_key x y : is_nan x = false → is_nan y = false →
  SFcompare x y = Some (kcompare (key_of x) (key_of y)).
Proof.
  destruct x as [s1|s1| |s1 m1 e1], y as [s2|s2| |s2 m2 e2]; try discriminate; intros _ _;
    try (destruct s1); try (destruct s2); try reflexivity; unfold kcompare; cbn.
  - rewrite !Z.compare_opp, (Z.compare_antisym e1 e2). destruct (e1 ?= e2); try done.
    cbn. f_equal. symmetry. apply Pos.compare_antisym.
Qed.

Lemma flt_true x y : flt x y = true ↔ is_nan x = false ∧ is_nan y = false ∧ klt (key_of x) (key_of y).
Proof.
  unfold flt, SFltb. destruct (is_nan x) eqn:Hx, (is_nan y) eqn:Hy.
  1-3: split; [|naive_solver]; destruct x, y; try discriminate; by cbn.
  rewrite (SFcompare_key x y Hx Hy), <-kcompare_lt.
  destruct (kcompare _ _); split; try done; naive_solver.
Qed.

Lemma fle_true x y : fle x y = true ↔ is_nan x = false ∧ is_nan y = false ∧ ¬ klt (key_of y) (key_of x).
Proof.
  unfold fle, SFleb. destruct (is_nan x) eqn:Hx, (is_nan y) eqn:Hy.
  1-3: split; [|naive_solver]; destruct x, y; try discriminate; by cbn.
  rewrite (SFcompare_key x y Hx Hy), <-kcompare_gt.
  destruct (kcompare _ _); split; try done; naive_solver.
Qed.

Lemma klt_trans_le a b c : klt a b → ¬ klt c b → klt a c.
Proof. unfold klt. lia. Qed.
Lemma nklt_trans a b c : ¬ klt b a → ¬ klt c b → ¬ klt c a.
Proof. unfold klt. lia. Qed.

(** [x < y <= z] and [x <= y <= z]. *)
Lemma flt_fle_trans x y z : flt x y = true → fle y z = true → flt x z = true.
Proof. rewrite !flt_true, fle_true. intros (? & ? & ?) (? & ? & ?). split; [done|]. split; [done|]. by eapply klt_trans_le. Qed.

Lemma fle_trans x y z : fle x y = true → fle y z = true → fle x z = true.
Proof. rewrite !fle_true. intros (? & ? & ?) (? & ? & ?). split; [done|]. split; [done|]. by eapply nklt_trans. Qed.

Lemma finite_not_nan x : isfinite x = true → is_nan x = false.
Proof. by destruct x. Qed.

(** Either order holds between values that are not NaN. *)
Lemma flt_fle x y : is_nan x = false → is_nan y = false → flt x y = negb (fle y x).
Proof.
  intros Hx Hy. destruct (flt x y) eqn:E1, (fle y x) eqn:E2; try done; exfalso.
  - apply flt_true in E1 as (_ & _ & H1). apply fle_true in E2 as (_ & _ & H2). done.
  - apply not_true_iff_false in E1, E2. rewrite flt_true in E1. rewrite fle_true in E2.
    destruct E2. split; [done|]. split; [done|]. intros H. by destruct E1.
Qed.

Lemma fle_refl x : is_nan x = false → fle x x = true.
Proof. intros H. apply fle_true. split; [done|]. split; [done|]. unfold klt. lia. Qed.

Lemma key_of_neg x y : klt (key_of (fneg x)) (key_of (fneg y)) ↔ klt (key_of y) (key_of x).
Proof. destruct x as [[]|[]| |[] ? ?], y as [[]|[]| |[] ? ?]; unfold klt; cbn; lia. Qed.

Lemma is_nan_neg x : is_nan (fneg x) = is_nan x.
Proof. by destruct x. Qed.

(** Negation reverses the order. *)
Lemma fle_neg x y : fle x y = true → fle (fneg y) (fneg x) = true.
Proof.
  rewrite !fle_true, !is_nan_neg, key_of_neg. tauto.
Qed.

(** A value and its opposite are not both at least a positive bound. *)
Lemma opposite_not_both x b : is_nan x = false → flt f0 b = true → flt x b = false → flt (fneg x) b = false → False.
Proof.
  intros Hx Hb H1 H2. pose proof Hb as (_ & Hnb & _)%flt_true.
  rewrite flt_fle in H1, H2 by (rewrite ?is_nan_neg; done). apply negb_false_iff in H1, H2.
  pose proof (flt_fle_trans _ _ _ Hb H1) as (_ & _ & P1)%flt_true.
  pose proof (flt_fle_trans _ _ _ Hb H2) as (_ & _ & P2)%flt_true.
  change f0 with (fneg (S754_zero true)) in P2. apply (key_of_neg (S754_zero true) x) in P2.
  revert P1 P2. unfold klt, f0. cbn. lia.
Qed.
