(* ===== verification/FloatOrder.v ===== *)
(** * Order of float operations

    Rounding is monotone: a float is an integer number of units of [2^-1074], an operation
    rounds an exact quotient of such integers to the nearest even, and rounding keeps the
    order. Hence the conversion of an integer, a difference and a quotient by a positive float
    never decrease when their first argument grows. *)

From S2P Require Import Prelude PyStr PyFloat PyFloatFacts.

(** ** Values *)

(** The value of the infinities, above every float. *)
Definition TOP : Z := 2 ^ 2098.

Lemma TOP_pos : 0 < TOP.
Proof. by apply Z.pow_pos_nonneg. Qed.

(** The value of a float in units of [2^-1074]; the infinities are one above the largest. *)
Definition unit_value (x : float) : Z :=
  match x with
  | S754_zero _ | S754_nan => 0
  | S754_infinity s => cond_Zopp s (TOP)
  | S754_finite s m e => cond_Zopp s (Zpos m * 2 ^ (e + 1074))
  end.

(** A Python float: not NaN, its mantissa in the format. *)
Definition number (x : float) : Prop := valid_binary prec emax x = true ∧ is_nan x = false.

Lemma valid_finite s m e : valid_binary prec emax (S754_finite s m e) = true ↔
  e = Z.max (Zdigits2 (Zpos m) + e - 53) (-1074) ∧ e <= 971.
Proof.
  cbn [valid_binary]. unfold bounded, canonical_mantissa. rewrite andb_true_iff, Z.eqb_eq, Z.leb_le.
  unfold fexp, emin, prec, emax. cbn [Zdigits2]. split; intros [? ?]; split; lia.
Qed.

(** The exponent orders positive floats of the format first. *)
Lemma finite_below m1 e1 m2 e2 : valid_binary prec emax (S754_finite false m1 e1) = true →
  valid_binary prec emax (S754_finite false m2 e2) = true → e1 < e2 →
  Zpos m1 * 2 ^ (e1 + 1074) < Zpos m2 * 2 ^ (e2 + 1074).
Proof.
  rewrite !valid_finite. intros [H1 B1] [H2 B2] Hlt.
  destruct (Zdigits2_bounds (Zpos m1) ltac:(lia)) as (D1 & _ & U1).
  destruct (Zdigits2_bounds (Zpos m2) ltac:(lia)) as (D2 & L2 & _).
  apply Z.lt_le_trans with (2 ^ (Zdigits2 (Zpos m1) + (e1 + 1074))).
  - rewrite (Z.pow_add_r 2 (Zdigits2 _)) by lia. apply Z.mul_lt_mono_pos_r; [apply Z.pow_pos_nonneg; lia|done].
  - apply Z.le_trans with (2 ^ (Zdigits2 (Zpos m2) - 1 + (e2 + 1074))).
    + apply Z.pow_le_mono_r; lia.
    + rewrite (Z.pow_add_r 2 (Zdigits2 _ - 1)) by lia. apply Z.mul_le_mono_nonneg_r; [apply Z.pow_nonneg; lia|done].
Qed.

Lemma finite_range s m e : valid_binary prec emax (S754_finite s m e) = true →
  0 < Zpos m * 2 ^ (e + 1074) < TOP.
Proof.
  rewrite valid_finite. intros [H B]. destruct (Zdigits2_bounds (Zpos m) ltac:(lia)) as (D & _ & U).
  pose proof (Z.pow_pos_nonneg 2 (e + 1074) ltac:(lia) ltac:(lia)). split; [lia|].
  apply Z.lt_le_trans with (2 ^ (Zdigits2 (Zpos m) + (e + 1074))).
  - rewrite (Z.pow_add_r 2 (Zdigits2 _)) by lia. nia.
  - unfold TOP. apply Z.pow_le_mono_r; lia.
Qed.

Lemma compare_finite m1 e1 m2 e2 : valid_binary prec emax (S754_finite false m1 e1) = true →
  valid_binary prec emax (S754_finite false m2 e2) = true →
  match Z.compare e1 e2 with Lt => Lt | Gt => Gt | Eq => Pos.compare_cont Eq m1 m2 end =
  Z.compare (Zpos m1 * 2 ^ (e1 + 1074)) (Zpos m2 * 2 ^ (e2 + 1074)).
Proof.
  intros H1 H2. destruct (Z.compare_spec e1 e2) as [->|Hlt|Hgt].
  - change (Pos.compare_cont Eq m1 m2) with (Z.compare (Zpos m1) (Zpos m2)).
    apply Zmult_compare_compat_r. pose proof (proj1 (valid_finite _ _ _) H2) as [? ?].
    apply Z.lt_gt, Z.pow_pos_nonneg; lia.
  - symmetry. apply Z.compare_lt_iff. by apply finite_below.
  - symmetry. apply Z.compare_gt_iff. by apply finite_below.
Qed.

(** Floats compare as their values do. *)
Lemma SFcompare_value x y : number x → number y →
  SFcompare x y = Some (Z.compare (unit_value x) (unit_value y)).
Proof.
  intros [Vx Nx] [Vy Ny]. pose proof TOP_pos. destruct x as [sx|sx| |sx mx ex], y as [sy|sy| |sy my ey]; try discriminate;
    cbn [SFcompare unit_value]; f_equal;
    try (pose proof (finite_range _ _ _ Vx)); try (pose proof (finite_range _ _ _ Vy));
    try (destruct sx); try (destruct sy); cbn [cond_Zopp];
    try (symmetry; first [apply Z.compare_eq_iff; lia|apply Z.compare_lt_iff; lia|apply Z.compare_gt_iff; lia]).
  - rewrite !Z.compare_opp, <-(compare_finite my ey mx ex), (Z.compare_antisym ex ey) by done.
    destruct (ex ?= ey); try done. symmetry. apply Pos.compare_antisym.
  - by rewrite <-compare_finite.
Qed.

Lemma fle_value x y : number x → number y → fle x y = (unit_value x <=? unit_value y).
Proof.
  intros Hx Hy. unfold fle, SFleb. rewrite (SFcompare_value x y Hx Hy). unfold Z.leb. by destruct (_ ?= _).
Qed.

Lemma flt_value x y : number x → number y → flt x y = (unit_value x <? unit_value y).
Proof.
  intros Hx Hy. unfold flt, SFltb. rewrite (SFcompare_value x y Hx Hy). unfold Z.ltb. by destruct (_ ?= _).
Qed.

(** ** Rounding a quotient of integers *)

(** The float nearest to [N / D] units, ties to the even mantissa; no bound on the exponent. *)
Definition round_units (N D : Z) : Z :=
  let k := Z.max 0 (Zdigits2 (N / D) - 53) in div_half_even N (D * 2 ^ k) * 2 ^ k.

(** What [div_half_even] is: the nearest integer, the even one of two. *)
Lemma div_half_even_spec N d : 0 < d → let h := div_half_even N d in
  - d <= 2 * N - 2 * h * d <= d ∧ (Z.abs (2 * N - 2 * h * d) = d → Z.even h = true).
Proof.
  intros Hd. unfold div_half_even. pose proof (Z.div_mod N d ltac:(lia)) as E. pose proof (Z.mod_pos_bound N d Hd) as B.
  destruct (Z.compare_spec (2 * (N mod d)) d) as [Heq|Hlt|Hgt]; cbn zeta.
  - destruct (Z.even (N / d)) eqn:Ev; (split; [nia|]); [done|].
    intros _. rewrite Z.add_1_r, Z.even_succ, <-Z.negb_even, Ev. done.
  - split; [nia|]. intros. nia.
  - split; [nia|]. intros. nia.
Qed.

Lemma div_half_even_mono N1 d1 N2 d2 : 0 < d1 → 0 < d2 → N1 * d2 <= N2 * d1 →
  div_half_even N1 d1 <= div_half_even N2 d2.
Proof.
  intros H1 H2 Hle. destruct (div_half_even_spec N1 d1 H1) as [B1 T1], (div_half_even_spec N2 d2 H2) as [B2 T2].
  cbn zeta in *. set (h1 := div_half_even N1 d1) in *. set (h2 := div_half_even N2 d2) in *.
  destruct (Z.le_gt_cases h1 h2) as [|Hgt]; [done|]. exfalso.
  assert (E1 : (2 * h1 - 1) * d1 <= 2 * N1) by lia. assert (E2 : 2 * N2 <= (2 * h2 + 1) * d2) by lia.
  assert (F1 : (2 * h1 - 1) * d1 * d2 <= 2 * N1 * d2) by (apply Z.mul_le_mono_nonneg_r; lia).
  assert (F2 : 2 * N2 * d1 <= (2 * h2 + 1) * d2 * d1) by (apply Z.mul_le_mono_nonneg_r; lia).
  assert (G : (2 * h1 - 1) * (d1 * d2) <= (2 * h2 + 1) * (d1 * d2)) by lia.
  apply Z.mul_le_mono_pos_r in G; [|nia]. assert (Eh : h1 = h2 + 1) by lia.
  assert (Q1 : 2 * N1 = (2 * h1 - 1) * d1).
  { apply (Z.mul_reg_r _ _ d2); [lia|]. apply Z.le_antisymm; [|lia]. rewrite Eh in *. lia. }
  assert (Q2 : 2 * N2 = (2 * h2 + 1) * d2).
  { apply (Z.mul_reg_r _ _ d1); [lia|]. apply Z.le_antisymm; [lia|]. rewrite Eh in *. lia. }
  assert (V1 : Z.even h1 = true) by (apply T1; lia). assert (V2 : Z.even h2 = true) by (apply T2; lia).
  rewrite Eh, Z.add_1_r, Z.even_succ, <-Z.negb_even, V2 in V1. done.
Qed.

Lemma div_half_even_exact h d : 0 < d → div_half_even (h * d) d = h.
Proof.
  intros Hd. unfold div_half_even. rewrite Z.div_mul, Z.mod_mul by lia.
  destruct (Z.compare_spec (2 * 0) d); [lia|done|lia].
Qed.

Lemma div_half_even_scale N d c : 0 < d → 0 < c → div_half_even (N * c) (d * c) = div_half_even N d.
Proof. intros Hd Hc. apply Z.le_antisymm; apply div_half_even_mono; nia. Qed.

Lemma Zdigits2_nonneg q : 0 <= q → 0 <= Zdigits2 q.
Proof. destruct q; cbn; lia. Qed.

Lemma Zdigits2_lt q : 0 <= q → q < 2 ^ Zdigits2 q.
Proof. intros Hq. destruct (Z.eq_dec q 0) as [->|]; [done|]. apply Zdigits2_bounds. lia. Qed.

Lemma Zdigits2_mono p q : 0 <= p <= q → Zdigits2 p <= Zdigits2 q.
Proof.
  intros [Hp Hq]. destruct (Z.eq_dec p 0) as [->|]; [apply Zdigits2_nonneg; lia|].
  apply Zdigits2_le; [lia|]. pose proof (Zdigits2_lt q). lia.
Qed.

(** The rounded mantissa has at most 54 bits, and all 53 unless the exponent is the least. *)
Lemma round_mantissa N D : 0 <= N → 0 < D → let k := Z.max 0 (Zdigits2 (N / D) - 53) in
  0 <= div_half_even N (D * 2 ^ k) <= 2 ^ 53 ∧ (0 < k → 2 ^ 52 <= div_half_even N (D * 2 ^ k)).
Proof.
  intros HN HD k. assert (Hk : 0 <= k) by lia. pose proof (Z.pow_pos_nonneg 2 k ltac:(lia) Hk) as Pk.
  assert (Hq : 0 <= N / D) by (apply Z.div_pos; lia). pose proof (Z.div_mod N D ltac:(lia)) as E.
  pose proof (Z.mod_pos_bound N D HD) as B. split; [split|].
  - pose proof (div_half_even_mono 0 1 N (D * 2 ^ k) ltac:(lia) ltac:(nia) ltac:(nia)) as H. exact H.
  - rewrite <-(div_half_even_exact (2 ^ 53) 1) by lia. apply div_half_even_mono; [nia|lia|].
    pose proof (Zdigits2_lt (N / D) Hq) as U.
    assert (N / D < 2 ^ (53 + k)) by (eapply Z.lt_le_trans; [exact U|apply Z.pow_le_mono_r; lia]).
    rewrite Z.pow_add_r in * by lia. nia.
  - intros Hpos. rewrite <-(div_half_even_exact (2 ^ 52) 1) by lia. apply div_half_even_mono; [lia|nia|].
    destruct (Zdigits2_bounds (N / D)) as (_ & L & _); [destruct (N / D) eqn:?; cbn in *; lia|].
    replace (Zdigits2 (N / D) - 1) with (52 + k) in L by lia. rewrite Z.pow_add_r in L by lia. nia.
Qed.

Lemma round_units_mono N1 D1 N2 D2 : 0 <= N1 → 0 < D1 → 0 < D2 → N1 * D2 <= N2 * D1 →
  0 <= round_units N1 D1 <= round_units N2 D2.
Proof.
  intros HN1 H1 H2 Hle. assert (HN2 : 0 <= N2) by nia.
  destruct (round_mantissa N1 D1 HN1 H1) as [[P1 U1] _], (round_mantissa N2 D2 HN2 H2) as [_ L2]. cbn zeta in *.
  unfold round_units. set (k1 := Z.max 0 (Zdigits2 (N1 / D1) - 53)) in *. set (k2 := Z.max 0 (Zdigits2 (N2 / D2) - 53)) in *.
  assert (Hq : 0 <= N1 / D1 <= N2 / D2).
  { split; [apply Z.div_pos; lia|]. apply Z.div_le_lower_bound; [done|]. pose proof (Z.mul_div_le N1 D1 H1).
    apply (Z.mul_le_mono_pos_r _ _ D1); [done|]. nia. }
  pose proof (Zdigits2_mono _ _ Hq) as Hd. assert (Hk : 0 <= k1 <= k2) by lia.
  pose proof (Z.pow_pos_nonneg 2 k1 ltac:(lia) ltac:(lia)) as Pk1. pose proof (Z.pow_pos_nonneg 2 k2 ltac:(lia) ltac:(lia)) as Pk2.
  split; [nia|]. destruct (Z.eq_dec k1 k2) as [->|Hne].
  - apply Z.mul_le_mono_nonneg_r; [lia|]. apply div_half_even_mono; nia.
  - apply Z.le_trans with (2 ^ (53 + k1)); [rewrite Z.pow_add_r by lia; nia|].
    apply Z.le_trans with (2 ^ (52 + k2)); [apply Z.pow_le_mono_r; lia|].
    rewrite Z.pow_add_r by lia. pose proof (L2 ltac:(lia)). nia.
Qed.

(** ** Rounding of the format *)

(** A record holds the quotient [N / D]: its integer part, the half, and the rest below. *)
Definition located (mrs : shr_record) (N D : Z) : Prop :=
  mrs = {| shr_m := N / D; shr_r := D <=? 2 * (N mod D);
           shr_s := negb (N mod D =? 0) && negb (2 * (N mod D) =? D) |}.

Lemma located_shr_1 mrs N D : 0 <= N → 0 < D → located mrs N D → located (shr_1 mrs) N (D * 2).
Proof.
  intros HN HD ->. assert (Hq : 0 <= N / D) by (apply Z.div_pos; lia).
  pose proof (Z.mod_pos_bound N D HD) as B. unfold located.
  assert (Hd : N / (D * 2) = N / D / 2) by (rewrite Z.div_div; lia).
  assert (Hm : N mod (D * 2) = N mod D + D * ((N / D) mod 2)) by (rewrite Z.rem_mul_r; lia).
  rewrite Hd, Hm. set (q := N / D) in *. set (r := N mod D) in *.
  assert (Hs : (D <=? 2 * r) || negb (r =? 0) && negb (2 * r =? D) = negb (r =? 0)).
  { destruct (Z.leb_spec D (2 * r)), (Z.eqb_spec r 0), (Z.eqb_spec (2 * r) D); cbn; lia || done. }
  unfold shr_1. rewrite Hs.
  assert (Hb : (q mod 2 = 0 ∨ q mod 2 = 1)) by (pose proof (Z.mod_pos_bound q 2); lia).
  assert (Hf : ∀ b, q mod 2 = Z.b2z b →
     ({| shr_m := q / 2; shr_r := D * 2 <=? 2 * (r + D * (q mod 2));
         shr_s := negb (r + D * (q mod 2) =? 0) && negb (2 * (r + D * (q mod 2)) =? D * 2) |}
      = {| shr_m := q / 2; shr_r := b; shr_s := negb (r =? 0) |})).
  { intros b ->. f_equal.
    - destruct b; cbn; destruct (Z.leb_spec (D * 2) (2 * (r + D * 1))), (Z.leb_spec (D * 2) (2 * (r + D * 0))); lia || done.
    - destruct b; cbn [Z.b2z]; rewrite ?Z.mul_1_r, ?Z.mul_0_r, ?Z.add_0_r.
      + destruct (Z.eqb_spec r 0), (Z.eqb_spec (r + D) 0), (Z.eqb_spec (2 * (r + D)) (D * 2)); cbn; lia || done.
      + destruct (Z.eqb_spec r 0), (Z.eqb_spec (2 * r) (D * 2)); cbn; lia || done. }
  clearbody q r. destruct q as [|[p|p|]|p]; [| | | |lia].
  - by rewrite (Hf false) by done.
  - rewrite (Hf true) by (rewrite Pos2Z.inj_xI, Z.mul_comm, Z.add_comm, Z_mod_plus_full; done).
    f_equal. rewrite Pos2Z.inj_xI, Z.mul_comm, Z.div_add_l; done || lia.
  - rewrite (Hf false) by (rewrite Pos2Z.inj_xO, Z.mul_comm, Z_mod_mult; done).
    f_equal. rewrite Pos2Z.inj_xO, Z.mul_comm, Z.div_mul; done || lia.
  - by rewrite (Hf true) by done.
Qed.

Lemma located_shr mrs e n N D : 0 <= N → 0 < D → 0 <= n → located mrs N D →
  located (shr mrs e n).1 N (D * 2 ^ n) ∧ (shr mrs e n).2 = e + n.
Proof.
  intros HN HD Hn H. destruct n as [|p|p]; [cbn; rewrite Z.mul_1_r; split; [done|lia]| |lia].
  unfold shr. cbn [fst snd]. split; [|done]. rewrite iter_pos_nat, <-(positive_nat_Z p).
  induction (Pos.to_nat p) as [|k IH]; [by rewrite Z.mul_1_r|].
  cbn [Nat.iter nat_rect]. change (nat_rect _ _ _ k) with (Nat.iter k shr_1 mrs).
  rewrite Nat2Z.inj_succ, Z.pow_succ_r by lia. replace (D * (2 * 2 ^ Z.of_nat k)) with (D * 2 ^ Z.of_nat k * 2) by lia.
  apply located_shr_1; [done| |done]. pose proof (Z.pow_pos_nonneg 2 (Z.of_nat k)). nia.
Qed.

Lemma located_round mrs N D : 0 <= N → 0 < D → located mrs N D →
  round_nearest_even (shr_m mrs) (loc_of_shr_record mrs) = div_half_even N D.
Proof.
  intros HN HD ->. cbn [shr_m]. unfold div_half_even. pose proof (Z.mod_pos_bound N D HD) as B.
  destruct (Z.compare_spec (2 * (N mod D)) D) as [Heq|Hlt|Hgt].
  - rewrite (proj2 (Z.leb_le _ _)), (proj2 (Z.eqb_neq _ _)), (proj2 (Z.eqb_eq _ _)) by lia. done.
  - rewrite (proj2 (Z.leb_gt _ _)), (proj2 (Z.eqb_neq (2 * _) _)) by lia. by destruct (_ =? 0).
  - rewrite (proj2 (Z.leb_le _ _)), (proj2 (Z.eqb_neq _ _)), (proj2 (Z.eqb_neq (2 * _) _)) by lia. done.
Qed.

Lemma located_exact m : located (shr_record_of_loc m loc_Exact) m 1.
Proof. unfold located. cbn [shr_record_of_loc]. by rewrite Z.div_1_r, Z.mod_1_r. Qed.

Lemma new_location_eq D r : new_location D r =
  if r =? 0 then loc_Exact
  else loc_Inexact (if Z.even D then 2 * r ?= D else match 2 * r + 1 ?= D with Gt => Gt | _ => Lt end).
Proof.
  unfold new_location, new_location_even, new_location_odd.
  change IntDef.Z.even with Z.even. change IntDef.Z.eqb with Z.eqb. change IntDef.Z.compare with Z.compare.
  change IntDef.Z.add with Z.add. change IntDef.Z.mul with Z.mul.
  destruct (Z.even D), (r =? 0); done.
Qed.

(** The remainder of a division, as a location. *)
Lemma located_division N D : 0 < D →
  located (shr_record_of_loc (N / D) (new_location D (N mod D))) N D.
Proof.
  intros HD. pose proof (Z.mod_pos_bound N D HD) as B. set (r := N mod D) in *. unfold located.
  fold r. rewrite new_location_eq.
  destruct (Z.eqb_spec r 0) as [->|Hr].
  { rewrite (proj2 (Z.leb_gt _ _)) by lia. by destruct (Z.even D). }
  destruct (Z.even D) eqn:Ev.
  - destruct (Z.compare_spec (2 * r) D) as [Heq|Hlt|Hgt].
    + by rewrite (proj2 (Z.leb_le _ _)), (proj2 (Z.eqb_eq (2 * r) D)) by lia.
    + by rewrite (proj2 (Z.leb_gt _ _)), (proj2 (Z.eqb_neq _ _)) by lia.
    + by rewrite (proj2 (Z.leb_le _ _)), (proj2 (Z.eqb_neq _ _)) by lia.
  - assert (Hodd : 2 * r ≠ D).
    { intros Heq. by rewrite <-Heq, Z.even_mul in Ev. }
    rewrite (proj2 (Z.eqb_neq (2 * r) D)) by done.
    destruct (Z.compare_spec (2 * r + 1) D) as [Heq|Hlt|Hgt].
    + by rewrite (proj2 (Z.leb_gt _ _)) by lia.
    + by rewrite (proj2 (Z.leb_gt _ _)) by lia.
    + by rewrite (proj2 (Z.leb_le _ _)) by lia.
Qed.

(** ** The value of a rounded mantissa *)

(** The second half of [binary_round_aux]. *)
Definition pack (s : bool) (h e : Z) : float :=
  let '(mrs, e') := shr_fexp prec emax h e loc_Exact in
  match shr_m mrs with
  | 0 => S754_zero s
  | Zpos m => if e' <=? emax - prec then S754_finite s m e' else S754_infinity s
  | _ => S754_nan
  end.

(** A whole mantissa of the right exponent is packed, or overflows. *)
Lemma pack_value s h e : 0 <= h <= 2 ^ 53 → -1074 <= e → (-1074 < e → 2 ^ 52 <= h) →
  number (pack s h e) ∧ unit_value (pack s h e) = cond_Zopp s (Z.min (h * 2 ^ (e + 1074)) (TOP)).
Proof.
  intros Hh He Hn. unfold pack. pose proof (Z.pow_pos_nonneg 2 (e + 1074) ltac:(lia) ltac:(lia)) as Pe.
  destruct (Z.eq_dec h 0) as [->|Hpos].
  { destruct (shr_fexp prec emax 0 e loc_Exact) as [mrs e'] eqn:E. rewrite (shr_fexp_zero _ _ _ _ E).
    split; [by split|]. cbn [unit_value]. by destruct s. }
  assert (Hshr : ∃ m e', (let '(mrs, e') := shr_fexp prec emax h e loc_Exact in (shr_m mrs, e')) = (Zpos m, e') ∧
                  e' = Z.max (Zdigits2 (Zpos m) + e' - 53) (-1074) ∧ Zpos m * 2 ^ (e' + 1074) = h * 2 ^ (e + 1074)).
  { destruct (shr_fexp prec emax h e loc_Exact) as [mrs e'] eqn:E.
    pose proof (shr_fexp_spec h e loc_Exact mrs e' ltac:(lia) E) as [Hm He']. cbn zeta in Hm, He'.
    unfold fexp, emin, prec, emax in Hm, He'. destruct (Zdigits2_bounds h ltac:(lia)) as (Hd & Ld & Ud).
    destruct (Z.eq_dec h (2 ^ 53)) as [->|Hlt].
    - change (Zdigits2 (2 ^ 53)) with 54 in *. assert (E1 : e' = e + 1) by lia. assert (E2 : shr_m mrs = 2 ^ 52).
      { rewrite Hm. by replace (Z.max 0 _) with 1 by lia. }
      exists (2 ^ 52)%positive, e'. rewrite E2. split; [done|]. change (Zdigits2 (Z.pos (2 ^ 52))) with 53.
      split; [lia|]. subst e'. change (Z.pos (2 ^ 52)) with (2 ^ 52). rewrite <-!Z.pow_add_r by lia. f_equal. lia.
    - assert (Zdigits2 h <= 53) by (apply Zdigits2_le; lia).
      assert (-1074 < e → Zdigits2 h = 53).
      { intros H1. apply Zdigits2_unique; [lia|]. specialize (Hn H1). cbn. lia. }
      assert (E0 : Z.max 0 (Z.max (Zdigits2 h + e - 53) (3 - 1024 - 53) - e) = 0) by lia.
      rewrite E0 in Hm, He'. rewrite Z.div_1_r in Hm. destruct h as [|p|p]; [lia| |lia].
      exists p, e. rewrite Hm. split; [f_equal; lia|]. split; [lia|done]. }
  destruct (shr_fexp prec emax h e loc_Exact) as [mrs e']. destruct Hshr as (m & e'' & [= Hm ->] & Hc & Hv).
  rewrite Hm, <-Hv. destruct (Zdigits2_bounds (Zpos m) ltac:(lia)) as (Hd & Ld & _).
  destruct (Z.leb_spec e'' (emax - prec)) as [Hle|Hgt]; unfold emax, prec in *.
  - assert (V : valid_binary prec emax (S754_finite s m e'') = true) by (apply valid_finite; lia).
    split; [by split|]. cbn [unit_value]. pose proof (finite_range _ _ _ V). by rewrite Z.min_l by lia.
  - split; [by split|]. cbn [unit_value]. rewrite Z.min_r; [done|].
    apply Z.le_trans with (2 ^ (Zdigits2 (Zpos m) - 1 + (e'' + 1074))).
    + unfold TOP. apply Z.pow_le_mono_r; lia.
    + rewrite (Z.pow_add_r 2 (Zdigits2 _ - 1)) by lia. apply Z.mul_le_mono_nonneg_r; [apply Z.pow_nonneg; lia|done].
Qed.

(** The exponent and mantissa of a value located between two mantissas of exponent [e]. *)
Lemma scaled_exponent N D e : 0 <= N → 0 < D → e <= fexp prec emax (Zdigits2 (N / D) + e) →
  let N' := N * 2 ^ Z.max 0 (e + 1074) in let D' := D * 2 ^ Z.max 0 (- 1074 - e) in
  let k := Z.max 0 (Zdigits2 (N' / D') - 53) in
  fexp prec emax (Zdigits2 (N / D) + e) = k - 1074 ∧
  div_half_even N' (D' * 2 ^ k) = div_half_even N (D * 2 ^ (k - 1074 - e)).
Proof.
  intros HN HD He. cbn zeta. unfold fexp, emin, prec, emax in *.
  assert (Hq : 0 <= N / D) by (apply Z.div_pos; lia).
  destruct (Z.le_gt_cases (-1074) e) as [Hge|Hlt].
  - replace (Z.max 0 (-1074 - e)) with 0 by lia. replace (Z.max 0 (e + 1074)) with (e + 1074) by lia.
    rewrite Z.mul_1_r. set (a := e + 1074) in *. assert (Pa : 0 < 2 ^ a) by (apply Z.pow_pos_nonneg; lia).
    assert (Hd : Z.max 0 (Zdigits2 (N * 2 ^ a / D) - 53) = Z.max 0 (Zdigits2 (N / D) + a - 53)).
    { destruct (Z.eq_dec (N / D) 0) as [E0|Hne].
      - rewrite E0 in *. cbn [Zdigits2] in *. assert (Ha : a = 0) by lia. rewrite Ha, Z.mul_1_r, E0. done.
      - f_equal. f_equal. destruct (Zdigits2_bounds (N / D) ltac:(lia)) as (Dq & Lq & Uq).
        pose proof (Z.div_mod N D ltac:(lia)) as E. pose proof (Z.mod_pos_bound N D HD) as B.
        apply Zdigits2_unique; [lia|]. replace (Zdigits2 (N / D) + a - 1) with (Zdigits2 (N / D) - 1 + a) by lia.
        rewrite !Z.pow_add_r by lia. split.
        + apply Z.div_le_lower_bound; [done|]. rewrite Z.mul_assoc. apply Z.mul_le_mono_nonneg_r; nia.
        + apply Z.div_lt_upper_bound; [done|]. rewrite Z.mul_assoc. apply Z.mul_lt_mono_pos_r; nia. }
    rewrite Hd. split; [lia|]. set (k := Z.max 0 _). replace k with (k - 1074 - e + a) at 1 by lia.
    rewrite Z.pow_add_r, Z.mul_assoc by lia. apply div_half_even_scale; [|done].
    pose proof (Z.pow_pos_nonneg 2 (k - 1074 - e)). nia.
  - replace (Z.max 0 (e + 1074)) with 0 by lia. replace (Z.max 0 (-1074 - e)) with (-1074 - e) by lia.
    rewrite Z.mul_1_r. set (b := -1074 - e) in *. assert (Pb : 0 < 2 ^ b) by (apply Z.pow_pos_nonneg; lia).
    assert (Hdiv : N / (D * 2 ^ b) = N / D / 2 ^ b) by (rewrite Z.div_div; lia).
    assert (Hd : Z.max 0 (Zdigits2 (N / (D * 2 ^ b)) - 53) = Z.max 0 (Zdigits2 (N / D) - b - 53)).
    { rewrite Hdiv. destruct (Z.lt_ge_cases b (Zdigits2 (N / D))) as [Hb|Hb].
      - rewrite Zdigits2_shiftr; [done| |lia]. destruct (N / D) eqn:?; cbn in *; lia.
      - rewrite Z.div_small; [cbn; lia|]. split; [done|]. eapply Z.lt_le_trans; [by apply Zdigits2_lt|].
        apply Z.pow_le_mono_r; lia. }
    rewrite Hd. split; [lia|]. set (k := Z.max 0 _). rewrite <-Z.mul_assoc, <-Z.pow_add_r by lia.
    do 3 f_equal. lia.
Qed.

(** A rounded result is a number, and its value is the rounded quotient, capped by infinity. *)
Lemma round_aux_value s m e l N D : 0 <= N → 0 < D → m = N / D → located (shr_record_of_loc m l) N D →
  e <= fexp prec emax (Zdigits2 m + e) →
  number (binary_round_aux prec emax s m e l) ∧
  unit_value (binary_round_aux prec emax s m e l) =
    cond_Zopp s (Z.min (round_units (N * 2 ^ Z.max 0 (e + 1074)) (D * 2 ^ Z.max 0 (-1074 - e))) (TOP)).
Proof.
  intros HN HD -> Hl He. destruct (scaled_exponent N D e HN HD He) as [Hk Hh]. cbn zeta in Hk, Hh.
  set (N' := N * _) in *. set (D' := D * _) in *.
  set (k := Z.max 0 (Zdigits2 (N' / D') - 53)) in *.
  assert (HN' : 0 <= N') by (pose proof (Z.pow_nonneg 2 (Z.max 0 (e + 1074))); nia).
  assert (HD' : 0 < D') by (pose proof (Z.pow_pos_nonneg 2 (Z.max 0 (-1074 - e))); nia).
  destruct (round_mantissa N' D' HN' HD') as [Hb Hlow]. cbn zeta in Hb, Hlow. fold k in Hb, Hlow.
  pose proof (pack_value s (div_half_even N' (D' * 2 ^ k)) (k - 1074) Hb ltac:(lia) ltac:(lia)) as Hp.
  replace (k - 1074 + 1074) with k in Hp by lia. unfold round_units. fold k.
  assert (binary_round_aux prec emax s (N / D) e l = pack s (div_half_even N' (D' * 2 ^ k)) (k - 1074)) as ->; [|done].
  unfold binary_round_aux, pack. unfold shr_fexp at 1.
  change (Z.sub (fexp prec emax (IntDef.Z.add (Zdigits2 (N / D)) e)) e) with (fexp prec emax (Zdigits2 (N / D) + e) - e).
  pose proof (located_shr _ e (fexp prec emax (Zdigits2 (N / D) + e) - e) N D HN HD ltac:(lia) Hl) as [Hl' He'].
  destruct (shr (shr_record_of_loc (N / D) l) e _) as [mrs1 e1]. cbn [fst snd] in Hl', He'.
  assert (HD1 : 0 < D * 2 ^ (fexp prec emax (Zdigits2 (N / D) + e) - e))
    by (pose proof (Z.pow_pos_nonneg 2 (fexp prec emax (Zdigits2 (N / D) + e) - e)); nia).
  rewrite (located_round _ _ _ HN HD1 Hl'), Hk, <-Hh. by replace e1 with (k - 1074) by lia.
Qed.

(** ** The operations *)

(** The value of the float nearest to the signed quotient [N / D] of units. *)
Definition nearest (N D : Z) : Z := Z.sgn N * Z.min (round_units (Z.abs N) D) TOP.

Lemma round_units_0 D : 0 < D → round_units 0 D = 0.
Proof.
  intros HD. unfold round_units. rewrite Z.div_0_l by lia. cbn [Zdigits2]. replace (Z.max 0 (0 - 53)) with 0 by lia.
  rewrite !Z.mul_1_r. apply (div_half_even_exact 0 D HD).
Qed.

Lemma nearest_signed s N D : 0 < D → 0 <= N → cond_Zopp s (Z.min (round_units N D) TOP) = nearest (cond_Zopp s N) D.
Proof.
  intros HD HN. pose proof TOP_pos. unfold nearest. destruct (Z.eq_dec N 0) as [->|Hne].
  { rewrite round_units_0 by done. destruct s; cbn [cond_Zopp]; cbn [Z.opp Z.sgn]; lia. }
  destruct s; cbn [cond_Zopp].
  - rewrite Z.sgn_neg, Z.abs_neq, Z.opp_involutive by lia. lia.
  - rewrite Z.sgn_pos, Z.abs_eq by lia. lia.
Qed.

Lemma nearest_mono N1 D1 N2 D2 : 0 < D1 → 0 < D2 → N1 * D2 <= N2 * D1 → nearest N1 D1 <= nearest N2 D2.
Proof.
  intros H1 H2 Hle. unfold nearest. pose proof TOP_pos.
  pose proof (round_units_mono (Z.abs N1) D1 (Z.abs N1) D1 ltac:(lia) H1 H1 ltac:(lia)) as P1.
  pose proof (round_units_mono (Z.abs N2) D2 (Z.abs N2) D2 ltac:(lia) H2 H2 ltac:(lia)) as P2.
  destruct (Z.sgn_spec N1) as [[S1 ->]|[[S1 ->]|[S1 ->]]], (Z.sgn_spec N2) as [[S2 ->]|[[S2 ->]|[S2 ->]]];
    try lia; try (exfalso; nia).
  - pose proof (round_units_mono (Z.abs N1) D1 (Z.abs N2) D2 ltac:(lia) H1 H2 ltac:(rewrite !Z.abs_eq; lia)). lia.
  - pose proof (round_units_mono (Z.abs N2) D2 (Z.abs N1) D1 ltac:(lia) H2 H1 ltac:(rewrite !Z.abs_neq; lia)). lia.
Qed.

Lemma nearest_top N D : 0 < D → - TOP <= nearest N D <= TOP.
Proof.
  intros HD. unfold nearest. pose proof TOP_pos.
  pose proof (round_units_mono (Z.abs N) D (Z.abs N) D ltac:(lia) HD HD ltac:(lia)).
  destruct (Z.sgn_spec N) as [[_ ->]|[[_ ->]|[_ ->]]]; lia.
Qed.

(** Equal quotients round alike. *)
Lemma nearest_eq N1 D1 N2 D2 : 0 < D1 → 0 < D2 → N1 * D2 = N2 * D1 → nearest N1 D1 = nearest N2 D2.
Proof. intros H1 H2 He. apply Z.le_antisymm; apply nearest_mono; lia. Qed.

(** An integer number of powers of two. *)
Lemma normalize_value z e s : -1074 <= e → number (binary_normalize prec emax z e s) ∧
  unit_value (binary_normalize prec emax z e s) = nearest (z * 2 ^ (e + 1074)) 1.
Proof.
  intros He. destruct (Z.eq_dec z 0) as [->|Hne]; [split; [by split|]; by rewrite Z.mul_0_l|].
  assert (Hr : ∀ s p, number (binary_round prec emax s p e) ∧
      unit_value (binary_round prec emax s p e) = nearest (cond_Zopp s (Zpos p) * 2 ^ (e + 1074)) 1).
  { clear z Hne s. intros s p. unfold binary_round. change (IntDef.Z.add (Z.pos (digits2_pos p)) e) with (Zdigits2 (Zpos p) + e).
    assert (Hs : ∃ m e', shl_align p e (fexp prec emax (Zdigits2 (Zpos p) + e)) = (m, e') ∧ -1074 <= e' ∧
        e' <= fexp prec emax (Zdigits2 (Zpos m) + e') ∧ Zpos m * 2 ^ (e' + 1074) = Zpos p * 2 ^ (e + 1074)).
    { unfold shl_align. change IntDef.Z.sub with Z.sub. destruct (fexp prec emax _ - e) as [|d|d] eqn:E.
      1,2: exists p, e; split; [done|]; split; [lia|]; split; [lia|done].
      exists (Pos.iter xO p d), (fexp prec emax (Zdigits2 (Zpos p) + e)). rewrite iter_xO.
      rewrite Zdigits2_shiftl by lia. split; [done|]. set (f := fexp prec emax (Zdigits2 (Zpos p) + e)) in *.
      replace (Zdigits2 (Zpos p) + Zpos d + f) with (Zdigits2 (Zpos p) + e) by lia. fold f.
      split; [unfold f, fexp, emin, prec, emax; lia|]. split; [lia|].
      assert (-1074 <= f) by (unfold f, fexp, emin, prec, emax; lia).
      rewrite <-Z.mul_assoc, <-Z.pow_add_r by lia. do 2 f_equal. lia. }
    destruct Hs as (m & e' & -> & He' & Hfe & Hv).
    destruct (round_aux_value s (Zpos m) e' loc_Exact (Zpos m) 1 ltac:(lia) ltac:(lia) ltac:(by rewrite Z.div_1_r)
                (located_exact _) Hfe) as [Hn Hu].
    split; [done|]. rewrite Hu. replace (Z.max 0 (-1074 - e')) with 0 by lia.
    replace (Z.max 0 (e' + 1074)) with (e' + 1074) by lia. rewrite Hv. change (1 * 2 ^ 0) with 1.
    pose proof (Z.pow_pos_nonneg 2 (e + 1074) ltac:(lia) ltac:(lia)).
    rewrite nearest_signed by lia. f_equal. destruct s; cbn [cond_Zopp]; lia. }
  unfold binary_normalize. destruct z as [|p|p]; [done|exact (Hr false p)|exact (Hr true p)].
Qed.

(** A float is its own rounding. *)
Lemma nearest_number x : number x → isfinite x = true → nearest (unit_value x) 1 = unit_value x.
Proof.
  intros [V N] F. destruct x as [s|s| |s m e]; try done.
  pose proof (proj1 (valid_finite s m e) V) as [Hc Hb].
  assert (Hfe : fexp prec emax (Zdigits2 (Zpos m) + e) = e) by (unfold fexp, emin, prec, emax in *; lia).
  pose proof (round_exact s m e 0 ltac:(lia) Hfe ltac:(lia)) as Hx. rewrite Z.mul_1_r, Z.sub_0_r in Hx.
  destruct (round_aux_value s (Zpos m) e loc_Exact (Zpos m) 1 ltac:(lia) ltac:(lia) ltac:(by rewrite Z.div_1_r)
              (located_exact _) ltac:(lia)) as [_ Hu].
  rewrite Hx in Hu. rewrite Hu at 2. replace (Z.max 0 (-1074 - e)) with 0 by lia.
  replace (Z.max 0 (e + 1074)) with (e + 1074) by lia. change (1 * 2 ^ 0) with 1.
  pose proof (Z.pow_pos_nonneg 2 (e + 1074) ltac:(lia) ltac:(lia)).
  rewrite nearest_signed by lia. f_equal.
Qed.

Lemma float_of_int_value n x : float_of_int n = Ok x →
  number x ∧ isfinite x = true ∧ unit_value x = nearest (n * 2 ^ 1074) 1.
Proof.
  unfold float_of_int. destruct (normalize_value n 0 false ltac:(lia)) as [[V N] Hu].
  destruct (is_inf _) eqn:E; intros [= <-]. split; [by split|]. split; [|done].
  by destruct (binary_normalize _ _ _ _ _).
Qed.

(** The conversion of a larger count is no smaller. *)
Lemma float_of_int_mono n m x y : n <= m → float_of_int n = Ok x → float_of_int m = Ok y → fle x y = true.
Proof.
  intros Hle (Nx & _ & Vx)%float_of_int_value (Ny & _ & Vy)%float_of_int_value.
  rewrite fle_value, Vx, Vy by done. apply Z.leb_le, nearest_mono; try done.
  pose proof (Z.pow_pos_nonneg 2 1074 ltac:(lia) ltac:(lia)). nia.
Qed.

Lemma number_neg x : number x → number (fneg x) ∧ unit_value (fneg x) = - unit_value x.
Proof.
  intros [V N]. destruct x as [s|s| |s m e]; try done; (split; [by split|]); cbn [fneg SFopp unit_value];
    destruct s; cbn [negb cond_Zopp]; lia.
Qed.

Lemma aligned_value s m e ez : ez <= e → -1074 <= ez →
  cond_Zopp s (Zpos (fst (shl_align m e ez))) * 2 ^ (ez + 1074) = cond_Zopp s (Zpos m * 2 ^ (e + 1074)).
Proof.
  intros Hle Hez. rewrite shl_align_fst by done.
  assert (Zpos m * 2 ^ (e - ez) * 2 ^ (ez + 1074) = Zpos m * 2 ^ (e + 1074)) as <-.
  { rewrite <-Z.mul_assoc, <-Z.pow_add_r by lia. do 2 f_equal. lia. }
  destruct s; cbn [cond_Zopp]; lia.
Qed.

(** A difference of floats is the float nearest to the difference of their values. *)
Lemma fsub_value x y : number x → number y → isfinite x = true → isfinite y = true →
  number (fsub x y) ∧ unit_value (fsub x y) = nearest (unit_value x - unit_value y) 1.
Proof.
  intros Nx Ny Fx Fy. destruct x as [sx|sx| |sx mx ex], y as [sy|sy| |sy my ey]; try discriminate; unfold fsub, SFsub.
  - by destruct sx, sy; (split; [by split|]).
  - destruct (number_neg _ Ny) as [Nn Vn]. cbn [fneg SFopp] in Nn, Vn. split; [done|].
    rewrite <-(nearest_number _ Nn) by done. f_equal. rewrite Vn. cbn [unit_value]. lia.
  - split; [done|]. rewrite <-(nearest_number _ Nx) at 1 by done. f_equal. cbn [unit_value]. lia.
  - pose proof (proj1 (valid_finite _ _ _) (proj1 Nx)) as [Hx _]. pose proof (proj1 (valid_finite _ _ _) (proj1 Ny)) as [Hy _].
    cbn zeta. set (ez := IntDef.Z.min ex ey). assert (Hez : ez <= ex ∧ ez <= ey ∧ -1074 <= ez).
    { change ez with (Z.min ex ey). lia. }
    destruct (normalize_value (IntDef.Z.sub (cond_Zopp sx (Zpos (fst (shl_align mx ex ez))))
                 (cond_Zopp sy (Zpos (fst (shl_align my ey ez))))) ez false ltac:(lia)) as [Hn Hu].
    split; [exact Hn|]. rewrite Hu. change IntDef.Z.sub with Z.sub. rewrite Z.mul_sub_distr_r, !aligned_value by lia. done.
Qed.

Lemma fsub_mono x y c : number x → number y → number c → isfinite x = true → isfinite y = true → isfinite c = true →
  fle x y = true → fle (fsub x c) (fsub y c) = true.
Proof.
  intros Nx Ny Nc Fx Fy Fc. rewrite fle_value by done. intros H%Z.leb_le.
  destruct (fsub_value x c Nx Nc Fx Fc) as [N1 V1], (fsub_value y c Ny Nc Fy Fc) as [N2 V2].
  rewrite fle_value, V1, V2 by done. apply Z.leb_le, nearest_mono; lia.
Qed.

(** A quotient by a positive float is the float nearest to the quotient of the values. *)
Lemma SFdiv_value s mx ex my ey : valid_binary prec emax (S754_finite s mx ex) = true →
  valid_binary prec emax (S754_finite false my ey) = true →
  let z := SFdiv prec emax (S754_finite s mx ex) (S754_finite false my ey) in
  number z ∧ unit_value z = nearest (unit_value (S754_finite s mx ex) * 2 ^ 1074) (unit_value (S754_finite false my ey)).
Proof.
  intros [Cx Bx]%valid_finite [Cy By]%valid_finite. cbn zeta. unfold SFdiv, SFdiv_core_binary. rewrite xorb_false_r.
  change IntDef.Z.sub with Z.sub. change IntDef.Z.add with Z.add. change IntDef.Z.min with Z.min.
  set (D := Zdigits2 (Zpos mx) + ex - (Zdigits2 (Zpos my) + ey)). set (e' := Z.min (fexp prec emax D) (ex - ey)).
  set (sh := ex - ey - e'). assert (Hsh : 0 <= sh) by lia.
  replace (match sh with 0 => Zpos mx | Z.pos _ => IntDef.Z.shiftl (Zpos mx) sh | Z.neg _ => 0 end) with (Zpos mx * 2 ^ sh)
    by (change IntDef.Z.shiftl with Z.shiftl; destruct sh eqn:E; [lia|rewrite Z.shiftl_mul_pow2; lia|lia]).
  change IntDef.Z.div_eucl with Z.div_eucl. destruct (Z.div_eucl (Zpos mx * 2 ^ sh) (Zpos my)) as [q r] eqn:Hq.
  assert (Hqd : q = Zpos mx * 2 ^ sh / Zpos my) by (unfold Z.div; by rewrite Hq).
  assert (Hrd : r = Zpos mx * 2 ^ sh mod Zpos my) by (unfold Z.modulo; by rewrite Hq).
  pose proof (Z.pow_pos_nonneg 2 sh ltac:(lia) Hsh) as Psh.
  assert (Hdig : D - e' <= Zdigits2 q).
  { destruct (Zdigits2_bounds (Zpos mx) ltac:(lia)) as (Dx & _), (Zdigits2_bounds (Zpos my) ltac:(lia)) as (Dy & _).
    assert (Hq0 : 0 <= q) by (rewrite Hqd; apply Z.div_pos; nia). pose proof (Zdigits2_nonneg q Hq0).
    destruct (Z.le_gt_cases (D - e') 0); [lia|]. pose proof (Zdigits2_shiftl (Zpos mx) sh ltac:(lia) Hsh) as Hds.
    destruct (Zdigits2_div (Zpos mx * 2 ^ sh) (Zpos my)) as (_ & Hl & _); [nia|lia|lia|]. rewrite <-Hqd in Hl. lia. }
  destruct (round_aux_value s q e' (new_location (Zpos my) r) (Zpos mx * 2 ^ sh) (Zpos my)) as [Hn Hu];
    [nia|lia|done|by rewrite Hqd, Hrd; apply located_division|unfold e', fexp, emin, prec, emax in *; lia|].
  split; [done|]. rewrite Hu. cbn [unit_value cond_Zopp].
  pose proof (Z.pow_pos_nonneg 2 (Z.max 0 (e' + 1074)) ltac:(lia) ltac:(lia)).
  pose proof (Z.pow_pos_nonneg 2 (Z.max 0 (-1074 - e')) ltac:(lia) ltac:(lia)).
  pose proof (Z.pow_pos_nonneg 2 (ey + 1074) ltac:(lia) ltac:(lia)).
  rewrite nearest_signed by nia. apply nearest_eq; [nia|nia|].
  assert (HE : Zpos mx * 2 ^ sh * 2 ^ Z.max 0 (e' + 1074) * (Zpos my * 2 ^ (ey + 1074)) =
          Zpos mx * 2 ^ (ex + 1074) * 2 ^ 1074 * (Zpos my * 2 ^ Z.max 0 (-1074 - e'))).
  { transitivity (Zpos mx * Zpos my * 2 ^ (sh + Z.max 0 (e' + 1074) + (ey + 1074))).
    - rewrite (Z.pow_add_r 2 (sh + _)), (Z.pow_add_r 2 sh) by lia. ring.
    - replace (sh + Z.max 0 (e' + 1074) + (ey + 1074)) with (ex + 1074 + 1074 + Z.max 0 (-1074 - e')) by lia.
      rewrite (Z.pow_add_r 2 (ex + 1074 + 1074)), (Z.pow_add_r 2 (ex + 1074)) by lia. ring. }
  destruct s; cbn [cond_Zopp]; lia.
Qed.

(** The value of a quotient by a positive finite float, infinite numerators included. *)
Lemma fdiv_value x c z : number x → number c → isfinite c = true → 0 < unit_value c → fdiv x c = Ok z →
  number z ∧ unit_value z = (if isfinite x then nearest (unit_value x * 2 ^ 1074) (unit_value c) else unit_value x).
Proof.
  intros [Vx Nx] [Vc Nc] Fc Pc. unfold fdiv. destruct (is_zero c) eqn:Z0; [discriminate|]. intros [= <-].
  destruct c as [s|s| |s mc ec]; try discriminate. pose proof (finite_range _ _ _ Vc).
  destruct s; [cbn in Pc; lia|]. destruct x as [sx|sx| |sx mx ex]; try discriminate.
  - by split; [split|].
  - split; [by split|]. cbn. by destruct sx.
  - exact (SFdiv_value sx mx ex mc ec Vx Vc).
Qed.

Lemma unit_value_range x : number x → isfinite x = true → - TOP < unit_value x < TOP.
Proof.
  intros [V _] F. pose proof TOP_pos. destruct x as [s|s| |s m e]; try discriminate; [cbn; lia|].
  pose proof (finite_range _ _ _ V). destruct s; cbn [unit_value cond_Zopp]; lia.
Qed.

Lemma fdiv_mono x y c u v : number x → number y → number c → isfinite c = true → 0 < unit_value c →
  fle x y = true → fdiv x c = Ok u → fdiv y c = Ok v → fle u v = true.
Proof.
  intros Nx Ny Nc Fc Pc. rewrite fle_value by done. intros H%Z.leb_le Hu Hv.
  destruct (fdiv_value x c u Nx Nc Fc Pc Hu) as [Nu Vu], (fdiv_value y c v Ny Nc Fc Pc Hv) as [Nv Vv].
  rewrite fle_value, Vu, Vv by done. apply Z.leb_le. pose proof TOP_pos.
  pose proof (nearest_top (unit_value x * 2 ^ 1074) _ Pc). pose proof (nearest_top (unit_value y * 2 ^ 1074) _ Pc).
  assert (Hi : ∀ w, number w → isfinite w = false → unit_value w = TOP ∨ unit_value w = - TOP).
  { intros w [V N] F. destruct w as [s|s| |s m e]; try discriminate. cbn [unit_value]. destruct s; cbn [cond_Zopp]; lia. }
  destruct (isfinite x) eqn:Fx, (isfinite y) eqn:Fy.
  - apply nearest_mono; [done|done|]. pose proof (Z.pow_pos_nonneg 2 1074 ltac:(lia) ltac:(lia)). nia.
  - pose proof (unit_value_range x Nx Fx). destruct (Hi y Ny Fy); lia.
  - pose proof (unit_value_range y Ny Fy). destruct (Hi x Nx Fx); lia.
  - done.
Qed.

(** A product of floats is a number. *)
Lemma fmul_number x y : number x → number y → isfinite x = true → isfinite y = true → number (fmul x y).
Proof.
  intros [Vx _] [Vy _] Fx Fy. destruct x as [sx|sx| |sx mx ex], y as [sy|sy| |sy my ey]; try discriminate; try done.
  apply valid_finite in Vx as [Cx _]. apply valid_finite in Vy as [Cy _]. unfold fmul, SFmul.
  change (IntDef.Z.add ex ey) with (ex + ey). rewrite Pos2Z.inj_mul.
  destruct (Zdigits2_bounds (Zpos mx) ltac:(lia)) as (Dx & Lx & _), (Zdigits2_bounds (Zpos my) ltac:(lia)) as (Dy & Ly & _).
  assert (Hd : Zdigits2 (Zpos mx) + Zdigits2 (Zpos my) - 1 <= Zdigits2 (Zpos mx * Zpos my)).
  { destruct (Z.le_gt_cases (Zdigits2 (Zpos mx) + Zdigits2 (Zpos my) - 1) (Zdigits2 (Zpos mx * Zpos my))) as [|Hgt]; [done|].
    destruct (Zdigits2_bounds (Zpos mx * Zpos my) ltac:(lia)) as (_ & _ & U).
    pose proof (Z.pow_le_mono_r 2 (Zdigits2 (Zpos mx * Zpos my)) (Zdigits2 (Zpos mx) - 1 + (Zdigits2 (Zpos my) - 1)) ltac:(lia) ltac:(lia)) as Hp.
    rewrite Z.pow_add_r in Hp by lia.
    pose proof (Z.mul_le_mono_nonneg _ _ _ _ (Z.pow_nonneg 2 (Zdigits2 (Zpos mx) - 1) ltac:(lia)) Lx (Z.pow_nonneg 2 (Zdigits2 (Zpos my) - 1) ltac:(lia)) Ly).
    lia. }
  destruct (round_aux_value (xorb sx sy) (Zpos mx * Zpos my) (ex + ey) loc_Exact (Zpos mx * Zpos my) 1) as [H _];
    [lia|lia|by rewrite Z.div_1_r|apply located_exact|unfold fexp, emin, prec, emax; lia|done].
Qed.

Lemma fabs_number x : number x → number (fabs x).
Proof. intros [V N]. by destruct x. Qed.

Lemma fmax_number x y : number x → number y → number (fmax x y).
Proof. unfold fmax. by destruct (flt x y). Qed.

Lemma fle_of x y : number x → number y → unit_value x <= unit_value y → fle x y = true.
Proof. intros Hx Hy H. rewrite fle_value by done. by apply Z.leb_le. Qed.

(** A guard [x < bound] that fails for a value fails for a larger one, whatever the bound. *)
Lemma flt_false_mono x y bound : fle x y = true → flt x bound = false → flt y bound = false.
Proof.
  intros Hle Hf. destruct (flt y bound) eqn:E; [|done]. apply fle_true in Hle as (Nx & Ny & Hle). apply flt_true in E as (_ & Nb & E).
  assert (flt x bound = true); [|congruence]. apply flt_true. split; [done|]. split; [done|].
  unfold klt in *. lia.
Qed.

Lemma fle_false_mono x y bound : fle x y = true → fle x bound = false → fle y bound = false.
Proof.
  intros Hle Hf. destruct (fle y bound) eqn:E; [|done].
  assert (fle x bound = true); [|congruence]. by eapply fle_trans.
Qed.
