(* ===== verification/PyTime.v ===== *)
(** * Python datetimes and timedeltas

    A [timedelta] is a number of microseconds. A [datetime] is a microsecond count and
    an awareness flag: for an aware value the count is the instant, in microseconds
    since 1970-01-01 UTC, and for a naive value it is the wall clock. Every aware value
    of the modelled code is in UTC. Ordering and subtraction of an aware and a naive
    value raise [TypeError]; equality never raises. The year bounds 1..9999 of Python's
    calendar are not modelled: no instant of the application is near them. *)

From S2P Require Import Prelude PyStr.

Record datetime := DT { dt_us : Z; dt_aware : bool }.

#[export] Instance datetime_eq_dec : EqDecision datetime.
Proof. solve_decision. Defined.

Abbreviation timedelta := Z (only parsing).

Definition us_per_second : Z := 1000000.

(** [timedelta(seconds=n)], [timedelta(hours=n)] and [timedelta(days=n)]. *)
Definition td_seconds (n : Z) : timedelta := n * us_per_second.
Definition td_hours (n : Z) : timedelta := n * 3600 * us_per_second.
Definition td_days (n : Z) : timedelta := n * 86400 * us_per_second.

Definition dt_add (d : datetime) (t : timedelta) : datetime := DT (dt_us d + t) (dt_aware d).
Definition dt_minus (d : datetime) (t : timedelta) : datetime := DT (dt_us d - t) (dt_aware d).

Definition dt_same (a b : datetime) : bool := Bool.eqb (dt_aware a) (dt_aware b).

Definition dt_compare_error : exn :=
  TypeError "can't compare offset-naive and offset-aware datetimes".

(** [a - b]. *)
Definition dt_sub (a b : datetime) : result timedelta :=
  if dt_same a b then Ok (dt_us a - dt_us b)
  else Err (TypeError "can't subtract offset-naive and offset-aware datetimes").

(** [a < b], [a <= b], [a > b] and [a >= b]. *)
Definition dt_lt (a b : datetime) : result bool :=
  if dt_same a b then Ok (dt_us a <? dt_us b) else Err dt_compare_error.
Definition dt_le (a b : datetime) : result bool :=
  if dt_same a b then Ok (dt_us a <=? dt_us b) else Err dt_compare_error.
Definition dt_gt (a b : datetime) : result bool := dt_lt b a.
Definition dt_ge (a b : datetime) : result bool := dt_le b a.

(** [a == b]. *)
Definition dt_eq (a b : datetime) : bool := dt_same a b && (dt_us a =? dt_us b).

(** [max(a, b)] and [min(a, b)]: the first argument unless the second is strictly better. *)
Definition dt_max (a b : datetime) : result datetime := c <- dt_lt a b ;; Ok (if c then b else a).
Definition dt_min (a b : datetime) : result datetime := c <- dt_lt b a ;; Ok (if c then b else a).

(** [sorted] on aware datetimes. *)
Definition dt_before (a b : datetime) : Prop := dt_us a <= dt_us b.
#[export] Instance dt_before_dec : RelDecision dt_before.
Proof. intros a b. unfold dt_before. apply _. Defined.
Definition dt_sorted (l : list datetime) : list datetime :=
  merge_sort dt_before l.

(** [datetime.fromtimestamp(n, tz=UTC)] of a whole number of seconds. *)
Definition from_timestamp (n : Z) : datetime := DT (n * us_per_second) true.

(** [d.microsecond]. *)
Definition dt_microsecond (d : datetime) : Z := dt_us d mod us_per_second.

(** [int(d.timestamp())] of an aware whole-second value; the float in between is exact
    for every instant below [2^53] seconds. *)
Definition dt_timestamp (d : datetime) : Z := dt_us d / us_per_second.

(** [int(t.total_seconds())]: truncation towards zero. *)
Definition td_total_seconds (t : timedelta) : Z := Z.quot t us_per_second.

(** [d.isoweekday()] and [d.hour], of the wall clock the value shows. *)
Definition dt_day (d : datetime) : Z := dt_us d / (86400 * us_per_second).
Definition dt_isoweekday (d : datetime) : Z := (dt_day d + 3) mod 7 + 1.
Definition dt_second_of_day (d : datetime) : Z := dt_us d / us_per_second mod 86400.
Definition dt_hour (d : datetime) : Z := dt_second_of_day d / 3600.
Definition dt_minute (d : datetime) : Z := dt_second_of_day d / 60 mod 60.
Definition dt_second (d : datetime) : Z := dt_second_of_day d mod 60.

(** The proleptic Gregorian date of a day number (days since 1970-01-01). *)
Definition civil (day : Z) : Z * Z * Z :=
  let z := day + 719468 in
  let era := z / 146097 in
  let doe := z mod 146097 in
  let yoe := (doe - doe / 1460 + doe / 36524 - doe / 146096) / 365 in
  let doy := doe - (365 * yoe + yoe / 4 - yoe / 100) in
  let mp := (5 * doy + 2) / 153 in
  let d := doy - (153 * mp + 2) / 5 + 1 in
  let m := if mp <? 10 then mp + 3 else mp - 9 in
  let y := yoe + era * 400 + (if m <=? 2 then 1 else 0) in
  (y, m, d).

(** [d.strftime("%Y-%m-%d")] and the clock parts. *)
Definition dt_date_text (d : datetime) : string :=
  let '(y, m, dd) := civil (dt_day d) in
  digits_pad 4 y +:+ "-" +:+ digits_pad 2 m +:+ "-" +:+ digits_pad 2 dd.
Definition dt_hm_text (d : datetime) : string :=
  digits_pad 2 (dt_hour d) +:+ ":" +:+ digits_pad 2 (dt_minute d).

(** [d.isoformat()]. *)
Definition dt_isoformat (d : datetime) : string :=
  dt_date_text d +:+ "T" +:+ dt_hm_text d +:+ ":" +:+ digits_pad 2 (dt_second d) +:+
  (if dt_microsecond d =? 0 then "" else "." +:+ digits_pad 6 (dt_microsecond d)) +:+
  (if dt_aware d then "+00:00" else "").

#[global] Arguments dt_add : simpl never.
#[global] Arguments dt_minus : simpl never.
#[global] Arguments dt_sub : simpl never.
#[global] Arguments dt_lt : simpl never.
#[global] Arguments dt_le : simpl never.
#[global] Arguments dt_gt : simpl never.
#[global] Arguments dt_ge : simpl never.
#[global] Arguments dt_eq : simpl never.
#[global] Arguments dt_max : simpl never.
#[global] Arguments dt_min : simpl never.

(** ** Facts *)

(** An aware instant, and the comparisons between two of them. *)
Definition utc (us : Z) : datetime := DT us true.

Definition aware (d : datetime) : Prop := dt_aware d = true.

Lemma aware_utc d : aware d → d = utc (dt_us d).
Proof. by destruct d as [us []]. Qed.

Lemma dt_lt_utc a b : dt_lt (utc a) (utc b) = Ok (a <? b).
Proof. done. Qed.
Lemma dt_le_utc a b : dt_le (utc a) (utc b) = Ok (a <=? b).
Proof. done. Qed.
Lemma dt_sub_utc a b : dt_sub (utc a) (utc b) = Ok (a - b).
Proof. done. Qed.
Lemma dt_eq_utc a b : dt_eq (utc a) (utc b) = (a =? b).
Proof. done. Qed.
Lemma dt_max_utc a b : dt_max (utc a) (utc b) = Ok (utc (Z.max a b)).
Proof. unfold dt_max. rewrite dt_lt_utc. cbn. destruct (Z.ltb_spec a b); do 2 f_equal; lia. Qed.
Lemma dt_min_utc a b : dt_min (utc a) (utc b) = Ok (utc (Z.min a b)).
Proof. unfold dt_min. rewrite dt_lt_utc. cbn. destruct (Z.ltb_spec b a); do 2 f_equal; lia. Qed.

Lemma dt_eq_true a b : dt_eq a b = true ↔ a = b.
Proof.
  destruct a as [u x], b as [v y]. unfold dt_eq, dt_same. cbn.
  rewrite andb_true_iff, Z.eqb_eq. destruct x, y; cbn; naive_solver.
Qed.

Lemma dt_eq_refl a : dt_eq a a = true.
Proof. by apply dt_eq_true. Qed.

(** Comparisons raise exactly on mixed awareness. *)
Lemma dt_lt_ok a b : dt_aware a = dt_aware b → dt_lt a b = Ok (dt_us a <? dt_us b).
Proof. intros H. unfold dt_lt, dt_same. by rewrite H, eqb_reflx. Qed.
Lemma dt_le_ok a b : dt_aware a = dt_aware b → dt_le a b = Ok (dt_us a <=? dt_us b).
Proof. intros H. unfold dt_le, dt_same. by rewrite H, eqb_reflx. Qed.
Lemma dt_sub_ok a b : dt_aware a = dt_aware b → dt_sub a b = Ok (dt_us a - dt_us b).
Proof. intros H. unfold dt_sub, dt_same. by rewrite H, eqb_reflx. Qed.

#[export] Hint Rewrite dt_lt_utc dt_le_utc dt_sub_utc dt_eq_utc dt_max_utc dt_min_utc : s2p.

Example isoformat_example :
  dt_isoformat (utc (1785672000 * us_per_second)) = "2026-08-02T12:00:00+00:00".
Proof. vm_compute. reflexivity. Qed.

(** The value of a comparison that did not raise. *)
Lemma dt_lt_inv a b c : dt_lt a b = Ok c → c = (dt_us a <? dt_us b).
Proof. unfold dt_lt. destruct (dt_same a b); [|done]. by intros [= <-]. Qed.
Lemma dt_le_inv a b c : dt_le a b = Ok c → c = (dt_us a <=? dt_us b).
Proof. unfold dt_le. destruct (dt_same a b); [|done]. by intros [= <-]. Qed.
