(* ===== verification/HistoryState.v ===== *)
(** * The history-backfill state machine

    Models [app/history/state.py]: the families, the states of a scope, the triggers,
    the transition table and [next_state], which refuses every pair outside the table.
    The theorems are about runs: how a scope can reach each honesty state. *)

From S2P Require Import Prelude.

Inductive HistoryFamily : Type :=
| F_PHASE_A
| F_WAF
| F_IPS
| F_CATCHALL
| F_RULE_MATCH
| F_PROPERTY_WATCH.

Definition HistoryFamily_value (x : HistoryFamily) : string :=
  match x with
  | F_PHASE_A => "PHASE_A"
  | F_WAF => "WAF"
  | F_IPS => "IPS"
  | F_CATCHALL => "CATCHALL"
  | F_RULE_MATCH => "RULE_MATCH"
  | F_PROPERTY_WATCH => "PROPERTY_WATCH"
  end.

#[export] Instance HistoryFamily_eq_dec : EqDecision HistoryFamily.
Proof. solve_decision. Defined.

Inductive HistoryState : Type :=
| S_NOT_REQUESTED
| S_WAITING
| S_READING
| S_COMPLETE
| S_PARTIAL
| S_UNAVAILABLE
| S_NOT_ELIGIBLE.

Definition HistoryState_value (x : HistoryState) : string :=
  match x with
  | S_NOT_REQUESTED => "NOT_REQUESTED"
  | S_WAITING => "WAITING"
  | S_READING => "READING"
  | S_COMPLETE => "COMPLETE"
  | S_PARTIAL => "PARTIAL"
  | S_UNAVAILABLE => "UNAVAILABLE"
  | S_NOT_ELIGIBLE => "NOT_ELIGIBLE"
  end.

#[export] Instance HistoryState_eq_dec : EqDecision HistoryState.
Proof. solve_decision. Defined.

Inductive HistoryTrigger : Type :=
| T_REQUEST_AWAITING_ANCHOR
| T_REQUEST_READY
| T_NOT_ELIGIBLE
| T_ANCHOR_FOUND
| T_NOTHING_TO_READ
| T_WINDOW_TOO_SMALL
| T_FINISHED_COMPLETE
| T_FINISHED_PARTIAL
| T_DENSITY_GATE
| T_TOO_MANY_GAPS
| T_TIME_LIMIT
| T_SWITCHED_OFF
| T_STOPPED_BY_OPERATOR
| T_RESTART.

Definition HistoryTrigger_value (x : HistoryTrigger) : string :=
  match x with
  | T_REQUEST_AWAITING_ANCHOR => "REQUEST_AWAITING_ANCHOR"
  | T_REQUEST_READY => "REQUEST_READY"
  | T_NOT_ELIGIBLE => "NOT_ELIGIBLE"
  | T_ANCHOR_FOUND => "ANCHOR_FOUND"
  | T_NOTHING_TO_READ => "NOTHING_TO_READ"
  | T_WINDOW_TOO_SMALL => "WINDOW_TOO_SMALL"
  | T_FINISHED_COMPLETE => "FINISHED_COMPLETE"
  | T_FINISHED_PARTIAL => "FINISHED_PARTIAL"
  | T_DENSITY_GATE => "DENSITY_GATE"
  | T_TOO_MANY_GAPS => "TOO_MANY_GAPS"
  | T_TIME_LIMIT => "TIME_LIMIT"
  | T_SWITCHED_OFF => "SWITCHED_OFF"
  | T_STOPPED_BY_OPERATOR => "STOPPED_BY_OPERATOR"
  | T_RESTART => "RESTART"
  end.

#[export] Instance HistoryTrigger_eq_dec : EqDecision HistoryTrigger.
Proof. solve_decision. Defined.

Definition all_families : list HistoryFamily :=
  [F_PHASE_A; F_WAF; F_IPS; F_CATCHALL; F_RULE_MATCH; F_PROPERTY_WATCH].

(** The families stored in [history_backfill_scope]: all of them but property watches. *)
Definition SCOPE_TABLE_FAMILIES : list HistoryFamily :=
  filter (λ f, f ≠ F_PROPERTY_WATCH) all_families.

Record StateChange := {
  sc_previous : HistoryState;
  sc_state : HistoryState;
  sc_trigger : HistoryTrigger;
  sc_reason : string
}.

Definition FINISHED_STATES : list HistoryState := [S_COMPLETE; S_PARTIAL; S_UNAVAILABLE].

(** [(state, trigger) -> (next state, the reason in words)]. *)
Definition TRANSITIONS : list ((HistoryState * HistoryTrigger) * (HistoryState * string)) := [
  ((S_NOT_REQUESTED, T_REQUEST_AWAITING_ANCHOR), (S_WAITING, "history was requested, and the scope waits for its first live bucket (the anchor)"));
  ((S_NOT_REQUESTED, T_REQUEST_READY), (S_READING, "history was requested, and the scope can be planned at its next collection"));
  ((S_NOT_REQUESTED, T_NOT_ELIGIBLE), (S_NOT_ELIGIBLE, "the scope already has live buckets, and a prepend would move first_seen_at (§B.5)"));
  ((S_WAITING, T_ANCHOR_FOUND), (S_READING, "the first live bucket exists; reading can start"));
  ((S_WAITING, T_NOT_ELIGIBLE), (S_NOT_ELIGIBLE, "the scope turned out to have live buckets that history cannot precede"));
  ((S_READING, T_NOTHING_TO_READ), (S_UNAVAILABLE, "QRadar holds no event of the scope in the window, or the floor scan could not be done"));
  ((S_WAITING, T_NOTHING_TO_READ), (S_UNAVAILABLE, "QRadar holds no event of the scope in the window"));
  ((S_READING, T_WINDOW_TOO_SMALL), (S_UNAVAILABLE, "the estimate exceeds the time limit even at the smallest window"));
  ((S_READING, T_FINISHED_COMPLETE), (S_COMPLETE, "the reading reached the end; the floor is within one bucket of the asked start and no gap exists"));
  ((S_READING, T_FINISHED_PARTIAL), (S_PARTIAL, "the reading reached the end, but QRadar holds less than asked or a gap exists"));
  ((S_READING, T_DENSITY_GATE), (S_PARTIAL, "too many buckets would be lower bounds; reading further would store only those"));
  ((S_READING, T_TOO_MANY_GAPS), (S_PARTIAL, "the gap list is full; the scope has too many unreadable spans"));
  ((S_READING, T_TIME_LIMIT), (S_PARTIAL, "the reading did not finish inside its time limit"));
  ((S_NOT_REQUESTED, T_SWITCHED_OFF), (S_PARTIAL, "history reading is switched off; the scope starts live"));
  ((S_WAITING, T_SWITCHED_OFF), (S_PARTIAL, "history reading was switched off while waiting"));
  ((S_READING, T_SWITCHED_OFF), (S_PARTIAL, "history reading was switched off"));
  ((S_WAITING, T_STOPPED_BY_OPERATOR), (S_PARTIAL, "stopped by an operator while waiting"));
  ((S_READING, T_STOPPED_BY_OPERATOR), (S_PARTIAL, "stopped by an operator"))] ++
  ((λ s, ((s, T_RESTART), (S_READING,
     "the reading restarts: a new answer, a topped-up source or a new watch version")))
   <$> S_READING :: FINISHED_STATES).

(** [_TRANSITIONS.get((current, trigger))]. *)
Fixpoint table_get (k : HistoryState * HistoryTrigger)
    (t : list ((HistoryState * HistoryTrigger) * (HistoryState * string)))
    : option (HistoryState * string) :=
  match t with
  | [] => None
  | (k', v) :: t => if decide (k = k') then Some v else table_get k t
  end.

(** Apply a trigger, or raise [IllegalTransitionError] naming both. *)
Definition next_state (current : HistoryState) (trigger : HistoryTrigger) : result StateChange :=
  match table_get (current, trigger) TRANSITIONS with
  | None => Err (IllegalTransitionError ("history state " +:+ HistoryState_value current +:+
                  " does not accept " +:+ HistoryTrigger_value trigger))
  | Some (target, reason) =>
      Ok {| sc_previous := current; sc_state := target; sc_trigger := trigger; sc_reason := reason |}
  end.

Definition legal_triggers (current : HistoryState) : list HistoryTrigger :=
  (λ e, e.1.2) <$> filter (λ e, e.1.1 = current) TRANSITIONS.

(** [all_transitions()], in table order. *)
Definition all_transitions : result (list ((HistoryState * HistoryTrigger) * StateChange)) :=
  mapM_result (λ e, c <- next_state e.1.1 e.1.2 ;; Ok (e.1, c)) TRANSITIONS.

Definition is_finished (s : HistoryState) : bool :=
  bool_decide (s ∈ [S_COMPLETE; S_PARTIAL; S_UNAVAILABLE; S_NOT_ELIGIBLE]).

(** ** Runs *)

(** The accepted steps of a scope, as a relation. *)
Inductive scope_step : HistoryState → HistoryTrigger → HistoryState → Prop :=
| scope_step_intro s t c : next_state s t = Ok c → scope_step s t (sc_state c).

(** A scope's life: triggers applied one after the other, each through [next_state]. *)
Definition run_triggers (s : HistoryState) (ts : list HistoryTrigger) : result HistoryState :=
  foldM (λ s t, c <- next_state s t ;; Ok (sc_state c)) s ts.

(** ** Lemmas *)

Lemma next_state_keeps s t c : next_state s t = Ok c → sc_previous c = s ∧ sc_trigger c = t.
Proof.
  unfold next_state. destruct (table_get _ _) as [[]|]; [|discriminate]. by intros [= <-].
Qed.

(** The whole machine is finite, so a universal fact about one step is computed. *)
Ltac by_table :=
  intros;
  repeat match goal with
  | s : HistoryState |- _ => destruct s
  | t : HistoryTrigger |- _ => destruct t
  end; vm_compute in *; first [congruence | naive_solver].

Lemma step_cases s t s' : scope_step s t s' →
  match s' with
  | S_NOT_REQUESTED => False
  | S_WAITING => s = S_NOT_REQUESTED ∧ t = T_REQUEST_AWAITING_ANCHOR
  | S_READING =>
      (s = S_NOT_REQUESTED ∧ t = T_REQUEST_READY) ∨ (s = S_WAITING ∧ t = T_ANCHOR_FOUND) ∨
      (t = T_RESTART ∧ s ∈ S_READING :: FINISHED_STATES)
  | S_COMPLETE => s = S_READING ∧ t = T_FINISHED_COMPLETE
  | S_PARTIAL => s ∈ [S_NOT_REQUESTED; S_WAITING; S_READING]
  | S_UNAVAILABLE => s = S_READING ∨ s = S_WAITING
  | S_NOT_ELIGIBLE => (s = S_NOT_REQUESTED ∨ s = S_WAITING) ∧ t = T_NOT_ELIGIBLE
  end.
Proof.
  intros Hst. inversion Hst as [s0 t0 c H]; subst.
  destruct s, t; vm_compute in H; try discriminate H; injection H as <-; cbn;
    rewrite ?list_elem_of_In; cbn; tauto.
Qed.

Lemma step_from_finished s t s' : s ∈ FINISHED_STATES → scope_step s t s' →
  t = T_RESTART ∧ s' = S_READING.
Proof.
  intros Hs Hst. inversion Hst as [s0 t0 c H]; subst. unfold FINISHED_STATES in Hs.
  rewrite !elem_of_cons, elem_of_nil in Hs.
  destruct Hs as [->|[->|[->|[]]]]; destruct t; vm_compute in H; try discriminate H;
    injection H as <-; done.
Qed.

Lemma run_triggers_snoc s ts t s' :
  run_triggers s (ts ++ [t]) = Ok s' → ∃ s1, run_triggers s ts = Ok s1 ∧ scope_step s1 t s'.
Proof.
  unfold run_triggers. rewrite foldM_app. cbn. intros H.
  apply bind_ok in H as (s1 & H1 & H). exists s1. split; [done|].
  apply bind_ok in H as (s2 & H2 & H). apply bind_ok in H2 as (c & Hc & H2).
  injection H as <-. injection H2 as <-. by constructor.
Qed.

Lemma table_get_elem k t : NoDup t.*1 → ∀ v, table_get k t = Some v ↔ (k, v) ∈ t.
Proof.
  induction t as [|[k' v'] t IH]; cbn; intros Hnd v.
  - by rewrite elem_of_nil.
  - apply NoDup_cons in Hnd as [Hk Hnd]. rewrite elem_of_cons.
    destruct (decide (k = k')) as [->|Hne].
    + split; [naive_solver|]. intros [[= ->]|Hin]; [done|].
      destruct Hk. apply list_elem_of_fmap. by exists (k', v).
    + rewrite IH by done. naive_solver.
Qed.

(** ** Theorems *)

(** [next_state] never invents a transition. It succeeds exactly on a pair of the
    table, with the table's target and reason, and raises [IllegalTransitionError] on
    every other pair; the table has one entry per pair. *)
Theorem next_state_exact :
  NoDup TRANSITIONS.*1 ∧
  ∀ s t,
    (∀ c, next_state s t = Ok c ↔
       ((s, t), (sc_state c, sc_reason c)) ∈ TRANSITIONS ∧ sc_previous c = s ∧ sc_trigger c = t) ∧
    (t ∉ legal_triggers s ↔ ∃ m, next_state s t = Err (IllegalTransitionError m)).
Proof.
  split; [by apply (bool_decide_unpack _); vm_compute|]. intros s t.
  assert (Hget : ∀ v, table_get (s, t) TRANSITIONS = Some v ↔ ((s, t), v) ∈ TRANSITIONS).
  { apply table_get_elem. by apply (bool_decide_unpack _); vm_compute. }
  unfold next_state. split.
  - intros [p s' t' r]; cbn [sc_state sc_reason sc_previous sc_trigger]. rewrite <-Hget.
    destruct (table_get _ _) as [[s1 r1]|]; (split; [intros E|intros (E & -> & ->)]);
      try discriminate; injection E; intros; by subst.
  - unfold legal_triggers. rewrite list_elem_of_fmap.
    setoid_rewrite list_elem_of_filter.
    destruct (table_get (s, t) TRANSITIONS) as [[s1 r1]|] eqn:E; split; [|by intros [m Hm]|eauto|].
    + intros H. destruct H. exists ((s, t), (s1, r1)). by rewrite <-Hget.
    + intros _ ([[s2 t2] v] & Ht & [Hs Hin]). cbn [fst snd] in Ht, Hs. subst s2 t2.
      apply Hget in Hin. congruence.
Qed.

(** How each honesty state is reached in a run from [NOT_REQUESTED]. [COMPLETE] is
    entered only from [READING] and only by [FINISHED_COMPLETE]; [NOT_ELIGIBLE] accepts
    nothing more; a finished scope accepts only [RESTART], which reads again; and no run
    returns to [NOT_REQUESTED]. *)
Theorem run_honesty ts s : run_triggers S_NOT_REQUESTED ts = Ok s →
  match s with
  | S_NOT_REQUESTED => ts = []
  | S_COMPLETE => ∃ ts', ts = ts' ++ [T_FINISHED_COMPLETE] ∧
                         run_triggers S_NOT_REQUESTED ts' = Ok S_READING
  | S_NOT_ELIGIBLE => ∀ t, ∃ m, run_triggers s [t] = Err (IllegalTransitionError m)
  | _ => ts ≠ []
  end ∧
  (s ∈ FINISHED_STATES → ∀ t s', run_triggers s [t] = Ok s' → t = T_RESTART ∧ s' = S_READING).
Proof.
  intros H. split.
  - destruct ts as [|t ts _] using rev_ind.
    + injection H as <-. done.
    + pose proof (run_triggers_snoc _ _ _ _ H) as (s1 & H1 & Hstep).
      pose proof (step_cases _ _ _ Hstep) as Hc.
      destruct s; try (by destruct ts).
      * destruct Hc as [-> ->]. eauto.
      * intros t0. destruct t0; eexists; reflexivity.
  - intros Hf t s' Hr. cbn in Hr.
    apply bind_ok in Hr as (s2 & H2 & [= ->]).
    apply bind_ok in H2 as (c & Hc & [= <-]).
    eapply step_from_finished; [exact Hf|by constructor].
Qed.

Lemma run_honesty_witness :
  run_triggers S_NOT_REQUESTED [T_REQUEST_READY; T_FINISHED_COMPLETE] = Ok S_COMPLETE ∧
  ∃ ts', [T_REQUEST_READY; T_FINISHED_COMPLETE] = ts' ++ [T_FINISHED_COMPLETE] ∧
         run_triggers S_NOT_REQUESTED ts' = Ok S_READING.
Proof.
  split; [reflexivity|].
  exact (proj1 (run_honesty [T_REQUEST_READY; T_FINISHED_COMPLETE] S_COMPLETE eq_refl)).
Defined.
