(* ===== verification/HistoryPlanner.v ===== *)
(** * The history-backfill planner: definitions

    Models [app/history/planner.py], the pure planner every family's history step goes
    through: the floor scan ([plan_scan], [interpret_scan]), the next step
    ([chunk_width], [plan_step]), what a step's results allow ([settle_step] with
    [width_after_step]), and the window fit and cost model ([fit_window],
    [searches_for], [ticks_for]). A [ValueError] subclass [PlannerInputError] is an
    [Err]; a frozen dataclass is a record and [replace] its [with_] updates. A
    [PlannerSettings] value is the object the constructor accepted
    ([check_settings], the [__post_init__]). The theorems are in the files
    [PlannerTime], [PlannerStep] and [PlannerRun]. *)

From S2P Require Import Prelude PyStr PyFloat PyTime HistoryState.

Definition HARD_MAX_SPAN_HOURS : Z := 168.
Definition DEFAULT_MIN_WINDOW_DAYS : Z := 7.
Definition DENSITY_SAFETY : float := div_round 125 100.
Definition CEILING_RELEASE_STEPS : Z := 3.

Record PlannerSettings := {
  ps_bucket_seconds : Z;
  ps_floor_margin_hours : Z;
  ps_max_span_hours : Z;
  ps_row_cap : Z;
  ps_row_target_share : float;
  ps_initial_chunk_buckets : Z;
  ps_min_chunk_buckets : Z;
  ps_max_failures : Z;
  ps_max_lower_bound_share : float;
  ps_max_hours : Z;
  ps_max_gaps : Z;
  ps_searches_per_tick : Z;
  ps_cadence_seconds : Z
}.

(** The field defaults. *)
Definition default_settings : PlannerSettings := {|
  ps_bucket_seconds := 300; ps_floor_margin_hours := 24;
  ps_max_span_hours := HARD_MAX_SPAN_HOURS; ps_row_cap := 5000;
  ps_row_target_share := div_round 8 10; ps_initial_chunk_buckets := 288;
  ps_min_chunk_buckets := 1; ps_max_failures := 3;
  ps_max_lower_bound_share := div_round 5 100; ps_max_hours := 72; ps_max_gaps := 20;
  ps_searches_per_tick := 10; ps_cadence_seconds := 300 |}.

(** [__post_init__]: the settings the constructor refuses. *)
Definition check_settings (s : PlannerSettings) : result unit :=
  _ <- raise_if ((ps_bucket_seconds s <? 1) || negb (86400 mod ps_bucket_seconds s =? 0))
         (PlannerInputError "bucket_seconds must be a positive divisor of one day") ;;
  _ <- raise_if (negb ((1 <=? ps_floor_margin_hours s) && (ps_floor_margin_hours s <=? 168)))
         (PlannerInputError "floor_margin_hours must be 1..168") ;;
  _ <- raise_if (negb ((1 <=? ps_max_span_hours s) && (ps_max_span_hours s <=? HARD_MAX_SPAN_HOURS)))
         (PlannerInputError "max_span_hours must be 1..168") ;;
  _ <- raise_if ((ps_row_cap s <? 1) ||
                 negb (flt f0 (ps_row_target_share s) && fle (ps_row_target_share s) f1))
         (PlannerInputError "row_cap must be positive and row_target_share in (0, 1]") ;;
  _ <- raise_if ((ps_min_chunk_buckets s <? 1) ||
                 (ps_initial_chunk_buckets s <? ps_min_chunk_buckets s))
         (PlannerInputError "chunk widths must satisfy 1 <= minimum <= initial") ;;
  _ <- raise_if ((ps_max_failures s <? 1) || (ps_max_gaps s <? 1) || (ps_searches_per_tick s <? 1))
         (PlannerInputError "max_failures, max_gaps and searches_per_tick must be >= 1") ;;
  _ <- raise_if (negb (fle f0 (ps_max_lower_bound_share s) && fle (ps_max_lower_bound_share s) f1))
         (PlannerInputError "max_lower_bound_share must be in [0, 1]") ;;
  raise_if ((ps_max_hours s <? 1) || (ps_cadence_seconds s <? 1))
    (PlannerInputError "max_hours and cadence_seconds must be >= 1").

Definition ps_bucket (s : PlannerSettings) : timedelta := td_seconds (ps_bucket_seconds s).

(** The margin, rounded up to whole buckets. *)
Definition ps_margin (s : PlannerSettings) : result timedelta :=
  q <- truediv (ps_floor_margin_hours s * 3600) (ps_bucket_seconds s) ;;
  buckets <- fceil q ;;
  Ok (buckets * ps_bucket s).

Definition ps_max_span_buckets (s : PlannerSettings) : Z :=
  ps_max_span_hours s * 3600 / ps_bucket_seconds s.

(** Rows one search may return. *)
Definition ps_row_target_rows (s : PlannerSettings) : result Z :=
  cap <- float_of_int (ps_row_cap s) ;;
  n <- ffloor (fadd (fmul cap (ps_row_target_share s)) (div_round 1 (10 ^ 9))) ;;
  Ok (Z.max 1 n).

(** ** Time helpers *)

Definition check_aware (value : datetime) (name : string) : result unit :=
  raise_if (negb (dt_aware value)) (PlannerInputError (name +:+ " must be timezone-aware")).

Definition epoch (value : datetime) : result Z :=
  _ <- check_aware value "time" ;;
  _ <- raise_if (negb (dt_microsecond value =? 0)) (PlannerInputError "times must be whole seconds") ;;
  Ok (dt_timestamp value).

Definition is_aligned (value : datetime) (s : PlannerSettings) : result bool :=
  e <- epoch value ;; Ok (e mod ps_bucket_seconds s =? 0).

Definition require_aligned (value : datetime) (name : string) (s : PlannerSettings) : result unit :=
  a <- is_aligned value s ;;
  raise_if (negb a) (PlannerInputError (name +:+ " must be aligned to the " +:+
                       pretty (ps_bucket_seconds s) +:+ " s bucket")).

Definition align_up (value : datetime) (s : PlannerSettings) : result datetime :=
  e <- epoch value ;;
  let step := ps_bucket_seconds s in
  Ok (from_timestamp (- (- e / step) * step)).

Definition buckets_between (start stop : datetime) (s : PlannerSettings) : result Z :=
  _ <- require_aligned start "start" s ;;
  _ <- require_aligned stop "end" s ;;
  e <- epoch stop ;; b <- epoch start ;;
  Ok (Z.max 0 ((e - b) / ps_bucket_seconds s)).

(** ** Shared types *)

Record Span := { span_start : datetime; span_end : datetime }.

Definition span_buckets (sp : Span) (s : PlannerSettings) : result Z :=
  buckets_between (span_start sp) (span_end sp) s.

Record Gap := { gap_start : datetime; gap_end : datetime; gap_reason : string }.

(** What the planner carries between ticks. *)
Record ScopeProgress := {
  sp_target_start : datetime;
  sp_started_at : datetime;
  sp_floor : option datetime;
  sp_first_event_bucket : option datetime;
  sp_through : option datetime;
  sp_scan_cursor : option datetime;
  sp_scan_failures : Z;
  sp_chunk_buckets : option Z;
  sp_chunk_ceiling : option Z;
  sp_ceiling_successes : Z;
  sp_failures : Z;
  sp_searches : Z;
  sp_buckets_read : Z;
  sp_lower_bound_buckets : Z;
  sp_rows_seen : Z;
  sp_non_silent_buckets : Z;
  sp_recent_rows_per_bucket : option float;
  sp_density_checked : bool;
  sp_gaps : list Gap
}.

(** [dataclasses.replace] of one field. *)
Definition with_floor (x : option datetime) (p : ScopeProgress) : ScopeProgress :=
  {| sp_target_start := sp_target_start p; sp_started_at := sp_started_at p; sp_floor := x;
    sp_first_event_bucket := sp_first_event_bucket p; sp_through := sp_through p; sp_scan_cursor
    := sp_scan_cursor p; sp_scan_failures := sp_scan_failures p; sp_chunk_buckets :=
    sp_chunk_buckets p; sp_chunk_ceiling := sp_chunk_ceiling p; sp_ceiling_successes :=
    sp_ceiling_successes p; sp_failures := sp_failures p; sp_searches := sp_searches p;
    sp_buckets_read := sp_buckets_read p; sp_lower_bound_buckets := sp_lower_bound_buckets p;
    sp_rows_seen := sp_rows_seen p; sp_non_silent_buckets := sp_non_silent_buckets p;
    sp_recent_rows_per_bucket := sp_recent_rows_per_bucket p; sp_density_checked :=
    sp_density_checked p; sp_gaps := sp_gaps p |}.
Definition with_first_event_bucket (x : option datetime) (p : ScopeProgress) : ScopeProgress :=
  {| sp_target_start := sp_target_start p; sp_started_at := sp_started_at p; sp_floor :=
    sp_floor p; sp_first_event_bucket := x; sp_through := sp_through p; sp_scan_cursor :=
    sp_scan_cursor p; sp_scan_failures := sp_scan_failures p; sp_chunk_buckets :=
    sp_chunk_buckets p; sp_chunk_ceiling := sp_chunk_ceiling p; sp_ceiling_successes :=
    sp_ceiling_successes p; sp_failures := sp_failures p; sp_searches := sp_searches p;
    sp_buckets_read := sp_buckets_read p; sp_lower_bound_buckets := sp_lower_bound_buckets p;
    sp_rows_seen := sp_rows_seen p; sp_non_silent_buckets := sp_non_silent_buckets p;
    sp_recent_rows_per_bucket := sp_recent_rows_per_bucket p; sp_density_checked :=
    sp_density_checked p; sp_gaps := sp_gaps p |}.
Definition with_through (x : option datetime) (p : ScopeProgress) : ScopeProgress :=
  {| sp_target_start := sp_target_start p; sp_started_at := sp_started_at p; sp_floor :=
    sp_floor p; sp_first_event_bucket := sp_first_event_bucket p; sp_through := x;
    sp_scan_cursor := sp_scan_cursor p; sp_scan_failures := sp_scan_failures p; sp_chunk_buckets
    := sp_chunk_buckets p; sp_chunk_ceiling := sp_chunk_ceiling p; sp_ceiling_successes :=
    sp_ceiling_successes p; sp_failures := sp_failures p; sp_searches := sp_searches p;
    sp_buckets_read := sp_buckets_read p; sp_lower_bound_buckets := sp_lower_bound_buckets p;
    sp_rows_seen := sp_rows_seen p; sp_non_silent_buckets := sp_non_silent_buckets p;
    sp_recent_rows_per_bucket := sp_recent_rows_per_bucket p; sp_density_checked :=
    sp_density_checked p; sp_gaps := sp_gaps p |}.
Definition with_scan_cursor (x : option datetime) (p : ScopeProgress) : ScopeProgress :=
  {| sp_target_start := sp_target_start p; sp_started_at := sp_started_at p; sp_floor :=
    sp_floor p; sp_first_event_bucket := sp_first_event_bucket p; sp_through := sp_through p;
    sp_scan_cursor := x; sp_scan_failures := sp_scan_failures p; sp_chunk_buckets :=
    sp_chunk_buckets p; sp_chunk_ceiling := sp_chunk_ceiling p; sp_ceiling_successes :=
    sp_ceiling_successes p; sp_failures := sp_failures p; sp_searches := sp_searches p;
    sp_buckets_read := sp_buckets_read p; sp_lower_bound_buckets := sp_lower_bound_buckets p;
    sp_rows_seen := sp_rows_seen p; sp_non_silent_buckets := sp_non_silent_buckets p;
    sp_recent_rows_per_bucket := sp_recent_rows_per_bucket p; sp_density_checked :=
    sp_density_checked p; sp_gaps := sp_gaps p |}.
Definition with_scan_failures (x : Z) (p : ScopeProgress) : ScopeProgress :=
  {| sp_target_start := sp_target_start p; sp_started_at := sp_started_at p; sp_floor :=
    sp_floor p; sp_first_event_bucket := sp_first_event_bucket p; sp_through := sp_through p;
    sp_scan_cursor := sp_scan_cursor p; sp_scan_failures := x; sp_chunk_buckets :=
    sp_chunk_buckets p; sp_chunk_ceiling := sp_chunk_ceiling p; sp_ceiling_successes :=
    sp_ceiling_successes p; sp_failures := sp_failures p; sp_searches := sp_searches p;
    sp_buckets_read := sp_buckets_read p; sp_lower_bound_buckets := sp_lower_bound_buckets p;
    sp_rows_seen := sp_rows_seen p; sp_non_silent_buckets := sp_non_silent_buckets p;
    sp_recent_rows_per_bucket := sp_recent_rows_per_bucket p; sp_density_checked :=
    sp_density_checked p; sp_gaps := sp_gaps p |}.
Definition with_chunk_buckets (x : option Z) (p : ScopeProgress) : ScopeProgress :=
  {| sp_target_start := sp_target_start p; sp_started_at := sp_started_at p; sp_floor :=
    sp_floor p; sp_first_event_bucket := sp_first_event_bucket p; sp_through := sp_through p;
    sp_scan_cursor := sp_scan_cursor p; sp_scan_failures := sp_scan_failures p; sp_chunk_buckets
    := x; sp_chunk_ceiling := sp_chunk_ceiling p; sp_ceiling_successes := sp_ceiling_successes
    p; sp_failures := sp_failures p; sp_searches := sp_searches p; sp_buckets_read :=
    sp_buckets_read p; sp_lower_bound_buckets := sp_lower_bound_buckets p; sp_rows_seen :=
    sp_rows_seen p; sp_non_silent_buckets := sp_non_silent_buckets p; sp_recent_rows_per_bucket
    := sp_recent_rows_per_bucket p; sp_density_checked := sp_density_checked p; sp_gaps :=
    sp_gaps p |}.
Definition with_chunk_ceiling (x : option Z) (p : ScopeProgress) : ScopeProgress :=
  {| sp_target_start := sp_target_start p; sp_started_at := sp_started_at p; sp_floor :=
    sp_floor p; sp_first_event_bucket := sp_first_event_bucket p; sp_through := sp_through p;
    sp_scan_cursor := sp_scan_cursor p; sp_scan_failures := sp_scan_failures p; sp_chunk_buckets
    := sp_chunk_buckets p; sp_chunk_ceiling := x; sp_ceiling_successes := sp_ceiling_successes
    p; sp_failures := sp_failures p; sp_searches := sp_searches p; sp_buckets_read :=
    sp_buckets_read p; sp_lower_bound_buckets := sp_lower_bound_buckets p; sp_rows_seen :=
    sp_rows_seen p; sp_non_silent_buckets := sp_non_silent_buckets p; sp_recent_rows_per_bucket
    := sp_recent_rows_per_bucket p; sp_density_checked := sp_density_checked p; sp_gaps :=
    sp_gaps p |}.
Definition with_ceiling_successes (x : Z) (p : ScopeProgress) : ScopeProgress :=
  {| sp_target_start := sp_target_start p; sp_started_at := sp_started_at p; sp_floor :=
    sp_floor p; sp_first_event_bucket := sp_first_event_bucket p; sp_through := sp_through p;
    sp_scan_cursor := sp_scan_cursor p; sp_scan_failures := sp_scan_failures p; sp_chunk_buckets
    := sp_chunk_buckets p; sp_chunk_ceiling := sp_chunk_ceiling p; sp_ceiling_successes := x;
    sp_failures := sp_failures p; sp_searches := sp_searches p; sp_buckets_read :=
    sp_buckets_read p; sp_lower_bound_buckets := sp_lower_bound_buckets p; sp_rows_seen :=
    sp_rows_seen p; sp_non_silent_buckets := sp_non_silent_buckets p; sp_recent_rows_per_bucket
    := sp_recent_rows_per_bucket p; sp_density_checked := sp_density_checked p; sp_gaps :=
    sp_gaps p |}.
Definition with_failures (x : Z) (p : ScopeProgress) : ScopeProgress :=
  {| sp_target_start := sp_target_start p; sp_started_at := sp_started_at p; sp_floor :=
    sp_floor p; sp_first_event_bucket := sp_first_event_bucket p; sp_through := sp_through p;
    sp_scan_cursor := sp_scan_cursor p; sp_scan_failures := sp_scan_failures p; sp_chunk_buckets
    := sp_chunk_buckets p; sp_chunk_ceiling := sp_chunk_ceiling p; sp_ceiling_successes :=
    sp_ceiling_successes p; sp_failures := x; sp_searches := sp_searches p; sp_buckets_read :=
    sp_buckets_read p; sp_lower_bound_buckets := sp_lower_bound_buckets p; sp_rows_seen :=
    sp_rows_seen p; sp_non_silent_buckets := sp_non_silent_buckets p; sp_recent_rows_per_bucket
    := sp_recent_rows_per_bucket p; sp_density_checked := sp_density_checked p; sp_gaps :=
    sp_gaps p |}.
Definition with_searches (x : Z) (p : ScopeProgress) : ScopeProgress :=
  {| sp_target_start := sp_target_start p; sp_started_at := sp_started_at p; sp_floor :=
    sp_floor p; sp_first_event_bucket := sp_first_event_bucket p; sp_through := sp_through p;
    sp_scan_cursor := sp_scan_cursor p; sp_scan_failures := sp_scan_failures p; sp_chunk_buckets
    := sp_chunk_buckets p; sp_chunk_ceiling := sp_chunk_ceiling p; sp_ceiling_successes :=
    sp_ceiling_successes p; sp_failures := sp_failures p; sp_searches := x; sp_buckets_read :=
    sp_buckets_read p; sp_lower_bound_buckets := sp_lower_bound_buckets p; sp_rows_seen :=
    sp_rows_seen p; sp_non_silent_buckets := sp_non_silent_buckets p; sp_recent_rows_per_bucket
    := sp_recent_rows_per_bucket p; sp_density_checked := sp_density_checked p; sp_gaps :=
    sp_gaps p |}.
Definition with_buckets_read (x : Z) (p : ScopeProgress) : ScopeProgress :=
  {| sp_target_start := sp_target_start p; sp_started_at := sp_started_at p; sp_floor :=
    sp_floor p; sp_first_event_bucket := sp_first_event_bucket p; sp_through := sp_through p;
    sp_scan_cursor := sp_scan_cursor p; sp_scan_failures := sp_scan_failures p; sp_chunk_buckets
    := sp_chunk_buckets p; sp_chunk_ceiling := sp_chunk_ceiling p; sp_ceiling_successes :=
    sp_ceiling_successes p; sp_failures := sp_failures p; sp_searches := sp_searches p;
    sp_buckets_read := x; sp_lower_bound_buckets := sp_lower_bound_buckets p; sp_rows_seen :=
    sp_rows_seen p; sp_non_silent_buckets := sp_non_silent_buckets p; sp_recent_rows_per_bucket
    := sp_recent_rows_per_bucket p; sp_density_checked := sp_density_checked p; sp_gaps :=
    sp_gaps p |}.
Definition with_lower_bound_buckets (x : Z) (p : ScopeProgress) : ScopeProgress :=
  {| sp_target_start := sp_target_start p; sp_started_at := sp_started_at p; sp_floor :=
    sp_floor p; sp_first_event_bucket := sp_first_event_bucket p; sp_through := sp_through p;
    sp_scan_cursor := sp_scan_cursor p; sp_scan_failures := sp_scan_failures p; sp_chunk_buckets
    := sp_chunk_buckets p; sp_chunk_ceiling := sp_chunk_ceiling p; sp_ceiling_successes :=
    sp_ceiling_successes p; sp_failures := sp_failures p; sp_searches := sp_searches p;
    sp_buckets_read := sp_buckets_read p; sp_lower_bound_buckets := x; sp_rows_seen :=
    sp_rows_seen p; sp_non_silent_buckets := sp_non_silent_buckets p; sp_recent_rows_per_bucket
    := sp_recent_rows_per_bucket p; sp_density_checked := sp_density_checked p; sp_gaps :=
    sp_gaps p |}.
Definition with_rows_seen (x : Z) (p : ScopeProgress) : ScopeProgress :=
  {| sp_target_start := sp_target_start p; sp_started_at := sp_started_at p; sp_floor :=
    sp_floor p; sp_first_event_bucket := sp_first_event_bucket p; sp_through := sp_through p;
    sp_scan_cursor := sp_scan_cursor p; sp_scan_failures := sp_scan_failures p; sp_chunk_buckets
    := sp_chunk_buckets p; sp_chunk_ceiling := sp_chunk_ceiling p; sp_ceiling_successes :=
    sp_ceiling_successes p; sp_failures := sp_failures p; sp_searches := sp_searches p;
    sp_buckets_read := sp_buckets_read p; sp_lower_bound_buckets := sp_lower_bound_buckets p;
    sp_rows_seen := x; sp_non_silent_buckets := sp_non_silent_buckets p;
    sp_recent_rows_per_bucket := sp_recent_rows_per_bucket p; sp_density_checked :=
    sp_density_checked p; sp_gaps := sp_gaps p |}.
Definition with_non_silent_buckets (x : Z) (p : ScopeProgress) : ScopeProgress :=
  {| sp_target_start := sp_target_start p; sp_started_at := sp_started_at p; sp_floor :=
    sp_floor p; sp_first_event_bucket := sp_first_event_bucket p; sp_through := sp_through p;
    sp_scan_cursor := sp_scan_cursor p; sp_scan_failures := sp_scan_failures p; sp_chunk_buckets
    := sp_chunk_buckets p; sp_chunk_ceiling := sp_chunk_ceiling p; sp_ceiling_successes :=
    sp_ceiling_successes p; sp_failures := sp_failures p; sp_searches := sp_searches p;
    sp_buckets_read := sp_buckets_read p; sp_lower_bound_buckets := sp_lower_bound_buckets p;
    sp_rows_seen := sp_rows_seen p; sp_non_silent_buckets := x; sp_recent_rows_per_bucket :=
    sp_recent_rows_per_bucket p; sp_density_checked := sp_density_checked p; sp_gaps := sp_gaps
    p |}.
Definition with_recent_rows_per_bucket (x : option float) (p : ScopeProgress) : ScopeProgress :=
  {| sp_target_start := sp_target_start p; sp_started_at := sp_started_at p; sp_floor :=
    sp_floor p; sp_first_event_bucket := sp_first_event_bucket p; sp_through := sp_through p;
    sp_scan_cursor := sp_scan_cursor p; sp_scan_failures := sp_scan_failures p; sp_chunk_buckets
    := sp_chunk_buckets p; sp_chunk_ceiling := sp_chunk_ceiling p; sp_ceiling_successes :=
    sp_ceiling_successes p; sp_failures := sp_failures p; sp_searches := sp_searches p;
    sp_buckets_read := sp_buckets_read p; sp_lower_bound_buckets := sp_lower_bound_buckets p;
    sp_rows_seen := sp_rows_seen p; sp_non_silent_buckets := sp_non_silent_buckets p;
    sp_recent_rows_per_bucket := x; sp_density_checked := sp_density_checked p; sp_gaps :=
    sp_gaps p |}.
Definition with_density_checked (x : bool) (p : ScopeProgress) : ScopeProgress :=
  {| sp_target_start := sp_target_start p; sp_started_at := sp_started_at p; sp_floor :=
    sp_floor p; sp_first_event_bucket := sp_first_event_bucket p; sp_through := sp_through p;
    sp_scan_cursor := sp_scan_cursor p; sp_scan_failures := sp_scan_failures p; sp_chunk_buckets
    := sp_chunk_buckets p; sp_chunk_ceiling := sp_chunk_ceiling p; sp_ceiling_successes :=
    sp_ceiling_successes p; sp_failures := sp_failures p; sp_searches := sp_searches p;
    sp_buckets_read := sp_buckets_read p; sp_lower_bound_buckets := sp_lower_bound_buckets p;
    sp_rows_seen := sp_rows_seen p; sp_non_silent_buckets := sp_non_silent_buckets p;
    sp_recent_rows_per_bucket := sp_recent_rows_per_bucket p; sp_density_checked := x; sp_gaps
    := sp_gaps p |}.
Definition with_gaps (x : list Gap) (p : ScopeProgress) : ScopeProgress :=
  {| sp_target_start := sp_target_start p; sp_started_at := sp_started_at p; sp_floor :=
    sp_floor p; sp_first_event_bucket := sp_first_event_bucket p; sp_through := sp_through p;
    sp_scan_cursor := sp_scan_cursor p; sp_scan_failures := sp_scan_failures p; sp_chunk_buckets
    := sp_chunk_buckets p; sp_chunk_ceiling := sp_chunk_ceiling p; sp_ceiling_successes :=
    sp_ceiling_successes p; sp_failures := sp_failures p; sp_searches := sp_searches p;
    sp_buckets_read := sp_buckets_read p; sp_lower_bound_buckets := sp_lower_bound_buckets p;
    sp_rows_seen := sp_rows_seen p; sp_non_silent_buckets := sp_non_silent_buckets p;
    sp_recent_rows_per_bucket := sp_recent_rows_per_bucket p; sp_density_checked :=
    sp_density_checked p; sp_gaps := x |}.

Definition sp_rows_per_bucket (p : ScopeProgress) : result (option float) :=
  if sp_non_silent_buckets p <=? 0 then Ok None
  else q <- truediv (sp_rows_seen p) (sp_non_silent_buckets p) ;; Ok (Some q).

Definition new_progress (target_start started_at : datetime) (s : PlannerSettings) : result ScopeProgress :=
  _ <- require_aligned target_start "target_start" s ;;
  _ <- check_aware started_at "started_at" ;;
  m <- ps_margin s ;;
  Ok {| sp_target_start := target_start; sp_started_at := started_at; sp_floor := None;
        sp_first_event_bucket := None; sp_through := None;
        sp_scan_cursor := Some (dt_minus target_start m); sp_scan_failures := 0;
        sp_chunk_buckets := None; sp_chunk_ceiling := None; sp_ceiling_successes := 0;
        sp_failures := 0; sp_searches := 0; sp_buckets_read := 0; sp_lower_bound_buckets := 0;
        sp_rows_seen := 0; sp_non_silent_buckets := 0; sp_recent_rows_per_bucket := None;
        sp_density_checked := false; sp_gaps := [] |}.

(** First bucket still to read, or None while the floor is unknown. *)
Definition next_start (p : ScopeProgress) (s : PlannerSettings) : option datetime :=
  match sp_floor p with
  | None => None
  | Some f => Some (match sp_through p with None => f | Some t => dt_add t (ps_bucket s) end)
  end.

(** ** Floor scan *)

Inductive ScanOutcome := FLOOR_FOUND | CONTINUE | RETRY | UNAVAILABLE.

Inductive SearchStatus := SS_COMPLETE | SS_TRUNCATED | SS_FAILED | SS_NOT_RUN.
#[export] Instance SearchStatus_eq_dec : EqDecision SearchStatus.
Proof. solve_decision. Defined.
Definition SearchStatus_value (x : SearchStatus) : string :=
  match x with
  | SS_COMPLETE => "COMPLETE" | SS_TRUNCATED => "TRUNCATED"
  | SS_FAILED => "FAILED" | SS_NOT_RUN => "NOT_RUN"
  end.

Record ScanSpanResult := {
  ssr_span : Span; ssr_status : SearchStatus; ssr_totals : list (datetime * Z) }.

Record ScanPlan := { scp_span : option Span; scp_reason : string }.

Record ScanDecision := {
  scd_outcome : ScanOutcome; scd_progress : ScopeProgress; scd_reason : string;
  scd_trigger : option HistoryTrigger }.

(** The next floor-scan span: from the cursor, at most the span limit, never past [end]. *)
Definition plan_scan (p : ScopeProgress) (stop : datetime) (s : PlannerSettings) : result ScanPlan :=
  _ <- require_aligned stop "end" s ;;
  match sp_scan_cursor p with
  | None => Err (PlannerInputError "progress has no scan cursor")
  | Some cursor =>
      c <- dt_ge cursor stop ;;
      if c then Ok {| scp_span := None; scp_reason := "the scan reached the end of the window" |}
      else
        e <- dt_min stop (dt_add cursor (ps_max_span_buckets s * ps_bucket s)) ;;
        Ok {| scp_span := Some {| span_start := cursor; span_end := e |};
              scp_reason := "scan for the first event of the scope" |}
  end.

(** The three checks on one [(bucket, total)] of a COMPLETE scan span. *)
Definition check_total (sp : Span) (s : PlannerSettings) (bt : datetime * Z) : result unit :=
  _ <- require_aligned bt.1 "bucket" s ;;
  a <- dt_le (span_start sp) bt.1 ;;
  b <- (if a : bool then dt_lt bt.1 (span_end sp) else Ok false) ;;
  _ <- raise_if (negb b) (PlannerInputError "a scan bucket lies outside its span") ;;
  raise_if (bt.2 <? 0) (PlannerInputError "a bucket total cannot be negative").

Definition event_buckets (totals : list (datetime * Z)) : list datetime :=
  dt_sorted ((λ bt, bt.1) <$> filter (λ bt, 0 < bt.2) totals).

(** The decision on a scan span whose first event bucket is [b0]. *)
Definition scan_found (p : ScopeProgress) (sp : Span) (b0 : datetime) (stop : datetime)
    (s : PlannerSettings) : result ScanDecision :=
  m <- ps_margin s ;;
  up <- align_up (dt_add b0 m) s ;;
  floor <- dt_max (sp_target_start p) up ;;
  late <- dt_ge floor stop ;;
  if late then
    Ok {| scd_outcome := UNAVAILABLE;
          scd_progress := with_scan_failures 0 (with_first_event_bucket (Some b0) p);
          scd_reason := "the first event is too recent to prove anything older: the margin of " +:+
            pretty (ps_floor_margin_hours s) +:+ " h reaches the end of the window";
          scd_trigger := Some T_NOTHING_TO_READ |}
  else
    cut <- dt_gt floor (dt_add (sp_target_start p) (ps_bucket s)) ;;
    Ok {| scd_outcome := FLOOR_FOUND;
          scd_progress := with_scan_failures 0 (with_scan_cursor (Some (span_end sp))
            (with_floor (Some floor) (with_first_event_bucket (Some b0) p)));
          scd_reason := "QRadar holds events of the scope from " +:+ dt_isoformat b0 +:+
            "; history starts at " +:+ dt_isoformat floor +:+
            (if cut : bool then " (later than the asked start)" else "");
          scd_trigger := None |}.

(** The decision on a scan span that is not COMPLETE: it proves nothing. *)
Definition scan_blocked (p : ScopeProgress) (st : SearchStatus) (s : PlannerSettings) : ScanDecision :=
  let failures := sp_scan_failures p + 1 in
  if ps_max_failures s <=? failures then
    {| scd_outcome := UNAVAILABLE; scd_progress := with_scan_failures failures p;
       scd_reason := "the floor scan failed " +:+ pretty failures +:+ " times; history is unavailable";
       scd_trigger := Some T_NOTHING_TO_READ |}
  else
    {| scd_outcome := RETRY; scd_progress := with_scan_failures failures p;
       scd_reason := "a scan search was " +:+ py_lower (SearchStatus_value st) +:+
         "; it proves nothing, so it is retried (" +:+ pretty failures +:+ " of " +:+
         pretty (ps_max_failures s) +:+ ")";
       scd_trigger := None |}.

(** The loop over the results: a decision, or the cursor after the last span. *)
Fixpoint scan_loop (p : ScopeProgress) (stop : datetime) (s : PlannerSettings)
    (cursor : datetime) (results : list ScanSpanResult) : result (ScanDecision + datetime) :=
  match results with
  | [] => Ok (inr cursor)
  | r :: results =>
      _ <- raise_if (negb (dt_eq (span_start (ssr_span r)) cursor))
             (PlannerInputError "scan results must be contiguous from the scan cursor") ;;
      if decide (ssr_status r = SS_COMPLETE) then
        _ <- foldM (λ _ bt, check_total (ssr_span r) s bt) tt (ssr_totals r) ;;
        match event_buckets (ssr_totals r) with
        | b0 :: _ => d <- scan_found p (ssr_span r) b0 stop s ;; Ok (inl d)
        | [] => scan_loop p stop s (span_end (ssr_span r)) results
        end
      else Ok (inl (scan_blocked p (ssr_status r) s))
  end.

Definition scan_searches (results : list ScanSpanResult) : Z :=
  sum_Z ((λ r, if decide (ssr_status r = SS_NOT_RUN) then 0 else 1) <$> results).

(** Find [b0] and the floor [F = max(T0, b0 + margin)], or say why none yet. *)
Definition interpret_scan (p : ScopeProgress) (results : list ScanSpanResult) (stop : datetime)
    (s : PlannerSettings) : result ScanDecision :=
  _ <- require_aligned stop "end" s ;;
  match sp_floor p, sp_scan_cursor p with
  | None, Some cursor =>
      match results with
      | [] => Ok {| scd_outcome := RETRY; scd_progress := p;
                    scd_reason := "no scan result was provided"; scd_trigger := None |}
      | _ =>
          let p := with_searches (sp_searches p + scan_searches results) p in
          d <- scan_loop p stop s cursor results ;;
          match d with
          | inl d => Ok d
          | inr cursor =>
              let p := with_scan_failures 0 (with_scan_cursor (Some cursor) p) in
              c <- dt_ge cursor stop ;;
              if c : bool then
                Ok {| scd_outcome := UNAVAILABLE; scd_progress := p;
                      scd_reason := "no event of the scope in the whole window; nothing is written";
                      scd_trigger := Some T_NOTHING_TO_READ |}
              else
                Ok {| scd_outcome := CONTINUE; scd_progress := p;
                      scd_reason := "no event in the scanned span; scan the next one";
                      scd_trigger := None |}
          end
      end
  | _, _ => Err (PlannerInputError "the floor is already known; there is nothing to scan")
  end.

(** True when Ariel holds less than asked. *)
Definition floor_is_cut (p : ScopeProgress) (s : PlannerSettings) : result bool :=
  match sp_floor p with
  | None => Ok false
  | Some f => dt_gt f (dt_add (sp_target_start p) (ps_bucket s))
  end.

(** ** Step planning *)

(** Widest chunk whose rows stay inside the row target. *)
Definition row_fit_buckets (rows_per_bucket : float) (s : PlannerSettings) : result Z :=
  if fle rows_per_bucket f0 then Ok (ps_max_span_buckets s)
  else
    target <- ps_row_target_rows s ;;
    t <- float_of_int target ;;
    q <- fdiv t (fmul DENSITY_SAFETY rows_per_bucket) ;;
    fit <- ffloor q ;;
    Ok (Z.max (ps_min_chunk_buckets s) (Z.min (ps_max_span_buckets s) fit)).

Record StepBudget := { sb_searches : Z; sb_seconds_left : float }.

Definition check_budget (b : StepBudget) : result unit :=
  raise_if (sb_searches b <? 0) (PlannerInputError "the search budget cannot be negative").

Inductive StepAction := SA_SCAN | SA_READ | SA_WAIT | SA_FINISH.

Record StepPlan := {
  spl_action : StepAction; spl_reason : string; spl_chunks : list Span;
  spl_scan_span : option Span; spl_chunk_buckets : option Z;
  spl_trigger : option HistoryTrigger }.

(** The span all chunks cover together. *)
Definition step_span (pl : StepPlan) : option Span :=
  match spl_chunks pl, last (spl_chunks pl) with
  | c :: _, Some l => Some {| span_start := span_start c; span_end := span_end l |}
  | _, _ => None
  end.

(** W for the next step: the stored width, bounded by the failure ceiling. *)
Definition chunk_width (p : ScopeProgress) (s : PlannerSettings) : Z :=
  let width := or_int (sp_chunk_buckets p) (ps_initial_chunk_buckets s) in
  let width := match sp_chunk_ceiling p with Some c => Z.min width c | None => width end in
  Z.max (ps_min_chunk_buckets s) (Z.min width (ps_max_span_buckets s)).

(** COMPLETE or PARTIAL at the end of a reading that reached its boundary. *)
Definition finish_verdict (p : ScopeProgress) (s : PlannerSettings) : result (HistoryTrigger * string) :=
  cut <- floor_is_cut p s ;;
  let problems :=
    (if cut : bool
     then ["QRadar holds less than asked (the floor is later than the asked start)"] else []) ++
    (match sp_gaps p with
     | [] => [] | g => [pretty (Z.of_nat (length g)) +:+ " span(s) could not be read"] end) in
  match problems with
  | [] => Ok (T_FINISHED_COMPLETE, "reached the end with the whole asked window read")
  | _ => Ok (T_FINISHED_PARTIAL, "reached the end; " +:+ py_join "; " problems)
  end.

Definition finish_plan (reason : string) (t : HistoryTrigger) : StepPlan :=
  {| spl_action := SA_FINISH; spl_reason := reason; spl_chunks := []; spl_scan_span := None;
     spl_chunk_buckets := None; spl_trigger := Some t |}.

(** The [while left > 0] loop; [fuel] is at least [left], and each turn takes a bucket or more. *)
Fixpoint chunk_loop (fuel : nat) (width left : Z) (cursor : datetime) (s : PlannerSettings) : list Span :=
  match fuel with
  | O => []
  | S fuel =>
      if 0 <? left then
        let n := Z.min width left in
        let next := dt_add cursor (n * ps_bucket s) in
        {| span_start := cursor; span_end := next |} :: chunk_loop fuel width (left - n) next s
      else []
  end.

(** The next step. [stop] is the anchor, or the moving closed-bucket boundary. *)
Definition plan_step (p : ScopeProgress) (now stop : datetime) (budget : StepBudget)
    (s : PlannerSettings) (enabled stop_requested : bool) : result StepPlan :=
  _ <- require_aligned stop "end" s ;;
  _ <- check_aware now "now" ;;
  if negb enabled then
    Ok (finish_plan "history reading was switched off" T_SWITCHED_OFF)
  else if stop_requested then
    Ok (finish_plan "history reading was stopped by an operator" T_STOPPED_BY_OPERATOR)
  else
  let start := next_start p s in
  reached <- (match start with Some st => dt_ge st stop | None => Ok false end) ;;
  if reached : bool then
    v <- finish_verdict p s ;; Ok (finish_plan v.2 v.1)
  else
  elapsed <- dt_sub now (sp_started_at p) ;;
  if td_hours (ps_max_hours s) <? elapsed then
    Ok (finish_plan ("the reading did not finish in " +:+ pretty (ps_max_hours s) +:+ " h") T_TIME_LIMIT)
  else if (sb_searches budget <=? 0) || fle (sb_seconds_left budget) f0 then
    Ok {| spl_action := SA_WAIT; spl_reason := "waiting for search budget"; spl_chunks := [];
          spl_scan_span := None; spl_chunk_buckets := None; spl_trigger := None |}
  else
  match start with
  | None =>
      scan <- plan_scan p stop s ;;
      match scp_span scan with
      | None => Ok (finish_plan "no event of the scope in the whole window; nothing is written"
                      T_NOTHING_TO_READ)
      | Some sp => Ok {| spl_action := SA_SCAN; spl_reason := scp_reason scan; spl_chunks := [];
                         spl_scan_span := Some sp; spl_chunk_buckets := None; spl_trigger := None |}
      end
  | Some start =>
      _ <- require_aligned start "start" s ;;
      let width := chunk_width p s in
      remaining <- buckets_between start stop s ;;
      let span_buckets := Z.min (Z.min remaining (ps_max_span_buckets s)) (width * sb_searches budget) in
      let chunks := chunk_loop (Z.to_nat span_buckets) width span_buckets start s in
      Ok {| spl_action := SA_READ;
            spl_reason := "read " +:+ pretty span_buckets +:+ " bucket(s) in " +:+
              pretty (Z.of_nat (length chunks)) +:+ " search(es) of up to " +:+ pretty width;
            spl_chunks := chunks; spl_scan_span := None; spl_chunk_buckets := Some width;
            spl_trigger := None |}
  end.

(** Halve a truncated multi-bucket search in time, left first. *)
Definition split_on_truncation (chunk : Span) (s : PlannerSettings) : result (option (Span * Span)) :=
  n <- span_buckets chunk s ;;
  if n <=? 1 then Ok None
  else
    let mid := dt_add (span_start chunk) (n / 2 * ps_bucket s) in
    Ok (Some ({| span_start := span_start chunk; span_end := mid |},
              {| span_start := mid; span_end := span_end chunk |})).

(** ** Settling a step *)

(** What the family got for one chunk, after any splitting it did itself. *)
Record ChunkResult := {
  cr_span : Span; cr_status : SearchStatus; cr_rows : Z; cr_non_silent_buckets : Z;
  cr_lower_bound_buckets : Z; cr_searches : Z }.

Definition check_chunk_result (r : ChunkResult) : result unit :=
  raise_if (cr_searches r <? 0)
    (PlannerInputError "a chunk cannot have spent a negative number of searches").

Record StepSettlement := {
  ss_progress : ScopeProgress; ss_write_spans : list Span; ss_advanced : bool;
  ss_reason : string; ss_trigger : option HistoryTrigger; ss_new_gap : option Gap }.

(** The row fit and the growth target of a width, from the density of the step that ended. *)
Definition width_target (p : ScopeProgress) (current : Z) (s : PlannerSettings) : result (Z * Z) :=
  match sp_recent_rows_per_bucket p with
  | None => Ok (ps_initial_chunk_buckets s, 2 * current)
  | Some recent =>
      fit <- row_fit_buckets recent s ;;
      Ok (fit, match sp_chunk_buckets p with None => fit | Some _ => Z.min fit (2 * current) end)
  end.

(** The progress and the note after a step that read what it could. *)
Definition width_after_step (p : ScopeProgress) (current : Z) (s : PlannerSettings)
    : result (ScopeProgress * string) :=
  ft <- width_target p current s ;;
  let '(fit, target) := ft in
  let '(width, ceiling, successes, note) :=
    match sp_chunk_ceiling p with
    | None => (target, None, sp_ceiling_successes p, "")
    | Some c =>
        let successes := sp_ceiling_successes p + 1 in
        if CEILING_RELEASE_STEPS <=? successes then
          if fit <=? 2 * c then
            (Z.min fit (2 * current), None, 0,
             pretty CEILING_RELEASE_STEPS +:+ " clean steps brought the failure ceiling to the row fit of " +:+
             pretty fit +:+ "; the ceiling is released")
          else
            (Z.min target (2 * c), Some (2 * c), 0,
             pretty CEILING_RELEASE_STEPS +:+ " clean steps doubled the failure ceiling to " +:+ pretty (2 * c))
        else (Z.min target c, Some c, successes, "")
    end in
  let width := Z.max (ps_min_chunk_buckets s) (Z.min width (ps_max_span_buckets s)) in
  Ok (with_chunk_ceiling ceiling (with_ceiling_successes successes (with_chunk_buckets (Some width) p)), note).

(** The results tile the time line from the next bucket to read. *)
Fixpoint check_tiles (cursor : datetime) (results : list ChunkResult) : result unit :=
  match results with
  | [] => Ok tt
  | r :: results =>
      let sp := cr_span r in
      bad <- (if negb (dt_eq (span_start sp) cursor) then Ok true
              else dt_le (span_end sp) (span_start sp)) ;;
      _ <- raise_if (bad : bool)
             (PlannerInputError "chunk results must tile contiguously from the next bucket") ;;
      check_tiles (span_end sp) results
  end.

(** The counters of the loop over the results. *)
Record Settled := {
  st_write : list Span; st_through : option datetime; st_read : Z; st_rows : Z;
  st_non_silent : Z; st_lb : Z }.

Definition chunk_done (r : ChunkResult) (n : Z) : bool :=
  bool_decide (cr_status r = SS_COMPLETE) ||
  (bool_decide (cr_status r = SS_TRUNCATED) && (n =? 1)).

(** The loop stops at the first chunk that is not done: the blocker. *)
Fixpoint settle_loop (acc : Settled) (results : list ChunkResult) (s : PlannerSettings)
    : result (Settled * option ChunkResult) :=
  match results with
  | [] => Ok (acc, None)
  | r :: results =>
      n <- span_buckets (cr_span r) s ;;
      if chunk_done r n then
        settle_loop
          {| st_write := st_write acc ++ [cr_span r];
             st_through := Some (dt_minus (span_end (cr_span r)) (ps_bucket s));
             st_read := st_read acc + n;
             st_rows := st_rows acc + cr_rows r;
             st_non_silent := st_non_silent acc + cr_non_silent_buckets r;
             st_lb := st_lb acc +
               (if decide (cr_status r = SS_COMPLETE) then cr_lower_bound_buckets r else 1) |}
          results s
      else Ok (acc, Some r)
  end.

(** Every search that ran was spent, also those of chunks after the blocker. *)
Definition settle_searches (results : list ChunkResult) : Z :=
  sum_Z ((λ r, if decide (cr_status r = SS_NOT_RUN) then 0 else cr_searches r) <$> results).

(** What [settle_step] carries from here on: the progress, its reasons, gap and trigger. *)
Record Verdict := {
  v_progress : ScopeProgress; v_reasons : list string; v_gap : option Gap;
  v_trigger : option HistoryTrigger }.

Definition width_reasons (note : string) (p : ScopeProgress) : list string :=
  (if decide (note = "") then [] else [note]) ++
  ["the width is " +:+ match sp_chunk_buckets p with Some w => pretty w | None => "None" end +:+
   " bucket(s)"].

(** Every chunk was done. *)
Definition settle_clean (p : ScopeProgress) (current read : Z) (s : PlannerSettings) : result Verdict :=
  pn <- width_after_step (with_failures 0 p) current s ;;
  let '(p, note) := pn in
  Ok {| v_progress := p;
        v_reasons := ("read " +:+ pretty read +:+ " bucket(s)") :: width_reasons note p;
        v_gap := None; v_trigger := None |}.

(** The blocker failed: the width halves; at the minimum width it is counted, and after
    [max_failures] recorded as a gap, or the reading ends when the gap list is full. *)
Definition settle_failed (p : ScopeProgress) (b : ChunkResult) (n : Z) (s : PlannerSettings) : Verdict :=
  let narrower := Z.max (ps_min_chunk_buckets s) (n / 2) in
  let p := with_chunk_buckets (Some narrower) (with_chunk_ceiling (Some narrower)
             (with_ceiling_successes 0 p)) in
  if n <=? ps_min_chunk_buckets s then
    let failures := sp_failures p + 1 in
    if ps_max_failures s <=? failures then
      if ps_max_gaps s <=? Z.of_nat (length (sp_gaps p)) then
        {| v_progress := with_failures failures p;
           v_reasons := ["more than " +:+ pretty (ps_max_gaps s) +:+ " unreadable spans"];
           v_gap := None; v_trigger := Some T_TOO_MANY_GAPS |}
      else
        let reason := "search failed " +:+ pretty failures +:+ " times at the minimum width" in
        let gap := {| gap_start := span_start (cr_span b); gap_end := span_end (cr_span b);
                      gap_reason := reason |} in
        {| v_progress := with_failures 0 (with_gaps (sp_gaps p ++ [gap])
             (with_through (Some (dt_minus (span_end (cr_span b)) (ps_bucket s))) p));
           v_reasons := ["recorded a gap: " +:+ reason]; v_gap := Some gap; v_trigger := None |}
    else
      {| v_progress := with_failures failures p;
         v_reasons := ["a search failed at the minimum width (" +:+ pretty failures +:+ " of " +:+
                       pretty (ps_max_failures s) +:+ "); the same span is tried again"];
         v_gap := None; v_trigger := None |}
  else
    {| v_progress := p;
       v_reasons := ["a search of " +:+ pretty n +:+ " buckets failed; the width halves to " +:+
                     pretty narrower];
       v_gap := None; v_trigger := None |}.

Definition settle_blocked (p : ScopeProgress) (b : ChunkResult) (current read : Z)
    (s : PlannerSettings) : result Verdict :=
  n <- span_buckets (cr_span b) s ;;
  match cr_status b with
  | SS_FAILED => Ok (settle_failed p b n s)
  | SS_TRUNCATED =>
      let narrower := Z.max (ps_min_chunk_buckets s) (n / 2) in
      Ok {| v_progress := with_chunk_buckets (Some narrower) p;
            v_reasons := ["a search of " +:+ pretty n +:+
              " buckets was truncated and keeps nothing; the width halves to " +:+ pretty narrower];
            v_gap := None; v_trigger := None |}
  | _ =>
      let base := "the budget ended before this span was searched" in
      if read =? 0 then Ok {| v_progress := p; v_reasons := [base]; v_gap := None; v_trigger := None |}
      else
        pn <- width_after_step p current s ;;
        let '(p, note) := pn in
        Ok {| v_progress := p; v_reasons := base :: width_reasons note p; v_gap := None;
              v_trigger := None |}
  end.

(** The density gate, once, at the first step that read something. *)
Definition density_gate (v : Verdict) (s : PlannerSettings) : result Verdict :=
  let p := v_progress v in
  if is_some_b (v_trigger v) || sp_density_checked p || (sp_buckets_read p <=? 0) then Ok v
  else
    let p := with_density_checked true p in
    share <- truediv (sp_lower_bound_buckets p) (sp_buckets_read p) ;;
    if flt (ps_max_lower_bound_share s) share then
      Ok {| v_progress := p; v_gap := v_gap v; v_trigger := Some T_DENSITY_GATE;
            v_reasons := v_reasons v ++
              [fmt_percent 0 share +:+ " of the buckets read are lower bounds (limit " +:+
               fmt_percent 0 (ps_max_lower_bound_share s) +:+
               "): too many distinct values per bucket, so history would be lower bounds"] |}
    else Ok {| v_progress := p; v_gap := v_gap v; v_trigger := None; v_reasons := v_reasons v |}.

(** The end of the reading: [next_start] reached the boundary. *)
Definition end_gate (v : Verdict) (stop : datetime) (s : PlannerSettings) : result Verdict :=
  match v_trigger v, next_start (v_progress v) s with
  | None, Some nxt =>
      c <- dt_ge nxt stop ;;
      if c : bool then
        fv <- finish_verdict (v_progress v) s ;;
        Ok {| v_progress := v_progress v; v_gap := v_gap v; v_trigger := Some fv.1;
              v_reasons := v_reasons v ++ [fv.2] |}
      else Ok v
  | _, _ => Ok v
  end.

(** The counters of the step, added to the progress. *)
Definition settle_counters (p : ScopeProgress) (a : Settled) (searches : Z) : result ScopeProgress :=
  recent <- (if st_non_silent a =? 0 then Ok None
             else q <- truediv (st_rows a) (st_non_silent a) ;; Ok (Some q)) ;;
  Ok (with_recent_rows_per_bucket recent
      (with_non_silent_buckets (sp_non_silent_buckets p + st_non_silent a)
      (with_rows_seen (sp_rows_seen p + st_rows a)
      (with_lower_bound_buckets (sp_lower_bound_buckets p + st_lb a)
      (with_buckets_read (sp_buckets_read p + st_read a)
      (with_searches (sp_searches p + searches)
      (with_through (st_through a) p))))))).

(** Apply a step's results. [through] moves only past whole, completed chunks. *)
Definition settle_step (p : ScopeProgress) (results : list ChunkResult) (stop : datetime)
    (s : PlannerSettings) : result StepSettlement :=
  match next_start p s with
  | None => Err (PlannerInputError "the floor is unknown; settle a scan with interpret_scan")
  | Some start =>
      _ <- require_aligned stop "end" s ;;
      _ <- check_tiles start results ;;
      ab <- settle_loop {| st_write := []; st_through := sp_through p; st_read := 0; st_rows := 0;
                           st_non_silent := 0; st_lb := 0 |} results s ;;
      let '(a, blocker) := ab in
      u <- settle_counters p a (settle_searches results) ;;
      v <- (match blocker with
            | None => settle_clean u (chunk_width p s) (st_read a) s
            | Some b => settle_blocked u b (chunk_width p s) (st_read a) s
            end) ;;
      v <- density_gate v s ;;
      v <- end_gate v stop s ;;
      Ok {| ss_progress := v_progress v; ss_write_spans := st_write a;
            ss_advanced := match st_write a with [] => false | _ => true end;
            ss_reason := py_join "; " (v_reasons v); ss_trigger := v_trigger v;
            ss_new_gap := v_gap v |}
  end.

(** ** Cost and window *)

(** [math.ceil(a / b)] on integers: a true division, then a ceiling. *)
Definition ceil_truediv (a b : Z) : result Z := q <- truediv a b ;; fceil q.

Definition searches_for (buckets : Z) (rows_per_bucket : float) (s : PlannerSettings)
    (target_rows : option Z) : result Z :=
  if buckets <=? 0 then Ok 0
  else
    rows <- (match target_rows with None => ps_row_target_rows s | Some r => Ok r end) ;;
    width <- (if fle rows_per_bucket f0 then Ok (ps_max_span_buckets s)
              else
                r <- float_of_int rows ;;
                q <- fdiv r rows_per_bucket ;;
                f <- ffloor q ;;
                Ok (Z.max 1 (Z.min (ps_max_span_buckets s) f))) ;;
    ceil_truediv buckets width.

Definition ticks_for (searches searches_per_tick : Z) : result Z :=
  _ <- raise_if (searches_per_tick <? 1) (PlannerInputError "searches_per_tick must be >= 1") ;;
  ceil_truediv (Z.max 0 searches) searches_per_tick.

(** Buckets of a window of [days] plus the floor margin. *)
Definition window_buckets (days : Z) (s : PlannerSettings) : result Z :=
  m <- ps_margin s ;;
  Ok (days * 86400 / ps_bucket_seconds s + m / ps_bucket s).

Record WindowFit := {
  wf_days_requested : Z; wf_days_fitted : option Z; wf_target_start : option datetime;
  wf_searches : Z; wf_ticks : Z; wf_hours : float; wf_reduced : bool; wf_refused : bool;
  wf_reason : string }.

(** [hours <= max_hours], a float against an integer. *)
Definition float_le_int (x : float) (n : Z) : bool :=
  match int_float_compare n x with Some (Gt | Eq) => true | _ => false end.

Section FitWindow.
(** [searches_for_days(D)]: the family's estimate, passed in by the caller. *)
Context (searches_for_days : Z → result Z) (stop : datetime) (s : PlannerSettings).
Context (days_requested per_tick min_days : Z).

Definition hours_for (searches : Z) : result (Z * float) :=
  cadence_hours <- truediv (ps_cadence_seconds s) 3600 ;;
  ticks <- ticks_for searches per_tick ;;
  t <- float_of_int ticks ;;
  Ok (ticks, fmul t cadence_hours).

(** The body of the loop at [days]: a fit, or the next smaller window. *)
Definition fit_at (days : Z) : result (option WindowFit) :=
  searches <- searches_for_days days ;;
  th <- hours_for searches ;;
  let '(ticks, hours) := th in
  if float_le_int hours (ps_max_hours s) then
    let reduced := days <? days_requested in
    Ok (Some {| wf_days_requested := days_requested; wf_days_fitted := Some days;
                wf_target_start := Some (dt_minus stop (td_days days));
                wf_searches := searches; wf_ticks := ticks; wf_hours := hours;
                wf_reduced := reduced; wf_refused := false;
                wf_reason :=
                  if reduced then
                    "window reduced from " +:+ pretty days_requested +:+ " to " +:+ pretty days +:+
                    " days: the estimate exceeded " +:+ pretty (ps_max_hours s) +:+ " hours"
                  else "the " +:+ pretty days +:+ "-day window fits in an estimated " +:+
                       fmt_fixed 1 hours +:+ " hours" |})
  else Ok None.

(** [for days in range(days_requested, min_days - 1, -1)]; [n] windows are left to try. *)
Fixpoint fit_loop (n : nat) (days : Z) : result (option WindowFit) :=
  match n with
  | O => Ok None
  | S n => f <- fit_at days ;;
           match f with Some w => Ok (Some w) | None => fit_loop n (days - 1) end
  end.

Definition fit_refused : result WindowFit :=
  searches <- searches_for_days min_days ;;
  th <- hours_for searches ;;
  let '(ticks, hours) := th in
  Ok {| wf_days_requested := days_requested; wf_days_fitted := None; wf_target_start := None;
        wf_searches := searches; wf_ticks := ticks; wf_hours := hours; wf_reduced := false;
        wf_refused := true;
        wf_reason := "even " +:+ pretty min_days +:+ " days need about " +:+ fmt_fixed 1 hours +:+
          " hours (" +:+ pretty searches +:+ " searches, " +:+ pretty ticks +:+
          " ticks), over the " +:+ pretty (ps_max_hours s) +:+
          "-hour limit; history is unavailable" |}.
End FitWindow.

(** The largest window [D' <= days_requested] whose estimate fits [max_hours]. *)
Definition fit_window (days_requested : Z) (searches_for_days : Z → result Z) (stop : datetime)
    (s : PlannerSettings) (searches_per_tick : option Z) (min_days : Z) : result WindowFit :=
  _ <- require_aligned stop "end" s ;;
  let per_tick := or_int searches_per_tick (ps_searches_per_tick s) in
  _ <- raise_if (days_requested <? min_days)
         (PlannerInputError "the requested window is below the family's minimum") ;;
  f <- fit_loop searches_for_days stop s days_requested per_tick
         (Z.to_nat (days_requested - min_days + 1)) days_requested ;;
  match f with
  | Some w => Ok w
  | None => fit_refused searches_for_days s days_requested per_tick min_days
  end.
