(* ===== verification/PlannerTime.v ===== *)
(** * Planner times

    The planner works on aligned instants. [bt s k] is the start of bucket number [k];
    every aligned instant is one, and on such values the planner's time helpers are
    integer arithmetic on bucket numbers. [tiles] says a list of spans covers an
    interval of bucket numbers contiguously, with no empty span. *)

From S2P Require Import Prelude PyStr PyFloat PyTime HistoryState HistoryPlanner.

#[global] Arguments require_aligned : simpl never.
#[global] Arguments buckets_between : simpl never.
#[global] Arguments span_buckets : simpl never.
#[global] Arguments check_aware : simpl never.
#[global] Arguments ps_margin : simpl never.
#[global] Arguments ps_row_target_rows : simpl never.
#[global] Arguments row_fit_buckets : simpl never.

(** ** Vocabulary *)

Definition valid_settings (s : PlannerSettings) : Prop := check_settings s = Ok tt.

(** Bucket number [k] starts here. *)
Definition bt (s : PlannerSettings) (k : Z) : datetime := utc (k * ps_bucket s).

Definition aligned (s : PlannerSettings) (d : datetime) : Prop := ∃ k, d = bt s k.

Definition mk_span (s : PlannerSettings) (a b : Z) : Span :=
  {| span_start := bt s a; span_end := bt s b |}.

(** [l] covers the buckets [a .. b-1], contiguously and with no empty span. *)
Fixpoint tiles (s : PlannerSettings) (a : Z) (l : list Span) (b : Z) : Prop :=
  match l with
  | [] => a = b
  | sp :: l => ∃ m, a < m ∧ sp = mk_span s a m ∧ tiles s m l b
  end.

(** ** Facts of accepted settings *)

Record settings_facts (s : PlannerSettings) : Prop := {
  sf_bucket : 1 <= ps_bucket_seconds s;
  sf_day : 86400 mod ps_bucket_seconds s = 0;
  sf_margin : 1 <= ps_floor_margin_hours s <= 168;
  sf_span : 1 <= ps_max_span_hours s <= 168;
  sf_cap : 1 <= ps_row_cap s;
  sf_min : 1 <= ps_min_chunk_buckets s <= ps_initial_chunk_buckets s;
  sf_failures : 1 <= ps_max_failures s;
  sf_gaps : 1 <= ps_max_gaps s;
  sf_tick : 1 <= ps_searches_per_tick s;
  sf_hours : 1 <= ps_max_hours s;
  sf_cadence : 1 <= ps_cadence_seconds s
}.

Lemma valid_settings_facts s : valid_settings s → settings_facts s.
Proof.
  unfold valid_settings, check_settings. intros H.
  repeat (apply bind_ok in H as ([] & ?%raise_if_ok & H)). apply raise_if_ok in H.
  bool_simp. split; unfold HARD_MAX_SPAN_HOURS in *; lia.
Qed.

Lemma default_settings_valid : valid_settings default_settings.
Proof. reflexivity. Qed.

#[export] Hint Resolve default_settings_valid : s2p.

(** ** Aligned instants *)

Section Aligned.
Context (s : PlannerSettings) (Hs : settings_facts s).
Implicit Types (a b k n : Z) (d : datetime).

Lemma bucket_pos : 0 < ps_bucket s.
Proof. unfold ps_bucket, td_seconds, us_per_second. pose proof (sf_bucket s Hs). lia. Qed.

Lemma bt_inj a b : bt s a = bt s b → a = b.
Proof. pose proof bucket_pos. unfold bt, utc. intros [= E]. nia. Qed.

Lemma epoch_bt k : epoch (bt s k) = Ok (k * ps_bucket_seconds s).
Proof.
  unfold epoch, bt, utc, check_aware, raise_if, dt_microsecond, dt_timestamp, ps_bucket, td_seconds.
  cbn [dt_aware dt_us negb res_bind]. rewrite Z.mul_assoc, Z.mod_mul, Z.div_mul; [done|easy..].
Qed.

Lemma is_aligned_bt k : is_aligned (bt s k) s = Ok true.
Proof.
  pose proof (sf_bucket s Hs). unfold is_aligned. rewrite epoch_bt. cbn [res_bind].
  rewrite Z.mod_mul by lia. done.
Qed.

Lemma require_aligned_bt k name : require_aligned (bt s k) name s = Ok tt.
Proof. unfold require_aligned. by rewrite is_aligned_bt. Qed.

(** [_require_aligned] accepts exactly the starts of buckets. *)
Lemma require_aligned_ok d name : require_aligned d name s = Ok tt → aligned s d.
Proof.
  pose proof (sf_bucket s Hs). unfold require_aligned, is_aligned, epoch, check_aware. intros H'.
  apply bind_ok in H' as (al & H1 & H2). apply bind_ok in H1 as (e & H1 & [= <-]).
  apply bind_ok in H1 as ([] & Ha%raise_if_ok & H1).
  apply bind_ok in H1 as ([] & Hm%raise_if_ok & [= <-]). apply raise_if_ok in H2.
  unfold dt_microsecond, dt_timestamp in *. bool_simp.
  exists (dt_us d / us_per_second / ps_bucket_seconds s).
  destruct d as [us aw]; cbn in *; subst aw. unfold bt, utc, ps_bucket, td_seconds. f_equal.
  pose proof (Z.div_mod us us_per_second ltac:(easy)).
  pose proof (Z.div_mod (us / us_per_second) (ps_bucket_seconds s) ltac:(lia)). nia.
Qed.

Lemma align_up_bt k : align_up (bt s k) s = Ok (bt s k).
Proof.
  pose proof (sf_bucket s Hs). unfold align_up. rewrite epoch_bt. cbn [res_bind].
  unfold from_timestamp, bt, utc, ps_bucket, td_seconds. do 2 f_equal.
  replace (- (k * ps_bucket_seconds s)) with (- k * ps_bucket_seconds s) by lia.
  rewrite Z.div_mul by lia. lia.
Qed.

Lemma dt_lt_bt a b : dt_lt (bt s a) (bt s b) = Ok (a <? b).
Proof.
  pose proof bucket_pos. unfold bt. rewrite dt_lt_utc. f_equal.
  destruct (Z.ltb_spec a b), (Z.ltb_spec (a * ps_bucket s) (b * ps_bucket s)); nia.
Qed.

Lemma dt_le_bt a b : dt_le (bt s a) (bt s b) = Ok (a <=? b).
Proof.
  pose proof bucket_pos. unfold bt. rewrite dt_le_utc. f_equal.
  destruct (Z.leb_spec a b), (Z.leb_spec (a * ps_bucket s) (b * ps_bucket s)); nia.
Qed.

Lemma dt_ge_bt a b : dt_ge (bt s a) (bt s b) = Ok (b <=? a).
Proof. apply dt_le_bt. Qed.

Lemma dt_eq_bt a b : dt_eq (bt s a) (bt s b) = (a =? b).
Proof.
  pose proof bucket_pos. unfold bt. rewrite dt_eq_utc.
  destruct (Z.eqb_spec a b), (Z.eqb_spec (a * ps_bucket s) (b * ps_bucket s)); nia.
Qed.

Lemma dt_max_bt a b : dt_max (bt s a) (bt s b) = Ok (bt s (Z.max a b)).
Proof. pose proof bucket_pos. unfold bt. rewrite dt_max_utc. do 2 f_equal. nia. Qed.

Lemma dt_min_bt a b : dt_min (bt s a) (bt s b) = Ok (bt s (Z.min a b)).
Proof. pose proof bucket_pos. unfold bt. rewrite dt_min_utc. do 2 f_equal. nia. Qed.

Lemma dt_add_bt a n : dt_add (bt s a) (n * ps_bucket s) = bt s (a + n).
Proof. unfold dt_add, bt, utc. cbn. f_equal. lia. Qed.

Lemma dt_add_bt_1 a : dt_add (bt s a) (ps_bucket s) = bt s (a + 1).
Proof. unfold dt_add, bt, utc. cbn. f_equal. lia. Qed.

Lemma dt_minus_bt_1 a : dt_minus (bt s a) (ps_bucket s) = bt s (a - 1).
Proof. unfold dt_minus, bt, utc. cbn. f_equal. lia. Qed.

Lemma buckets_between_bt a b : buckets_between (bt s a) (bt s b) s = Ok (Z.max 0 (b - a)).
Proof.
  pose proof (sf_bucket s Hs). unfold buckets_between.
  rewrite !require_aligned_bt. cbn [res_bind]. rewrite !epoch_bt. cbn [res_bind].
  rewrite <-Z.mul_sub_distr_r, Z.div_mul by lia. done.
Qed.

Lemma span_buckets_mk a b : a <= b → span_buckets (mk_span s a b) s = Ok (b - a).
Proof. intros H. unfold span_buckets. cbn. rewrite buckets_between_bt. f_equal. lia. Qed.

(** [_align_up] is the least bucket start at or after a whole second. *)
Lemma align_up_spec us d : us mod us_per_second = 0 → align_up (utc us) s = Ok d →
  ∃ k, d = bt s k ∧ us <= dt_us d < us + ps_bucket s.
Proof.
  pose proof (sf_bucket s Hs). intros Hm. unfold align_up, epoch, dt_microsecond. cbn.
  rewrite Hm. cbn. intros [= <-].
  change (dt_timestamp (utc us)) with (us / us_per_second).
  set (e := us / us_per_second). exists (- (- e / ps_bucket_seconds s)). unfold from_timestamp, bt, utc, ps_bucket, td_seconds.
  split; [f_equal; ring|]. cbn.
  pose proof (ceil_div_spec e (ps_bucket_seconds s) ltac:(lia)).
  pose proof (Z.div_mod us us_per_second ltac:(easy)). unfold us_per_second in *. lia.
Qed.

(** ** Tilings *)

Lemma tiles_le a l b : tiles s a l b → a <= b.
Proof.
  revert a. induction l as [|sp l IH]; cbn; intros a; [lia|].
  intros (m & Hm & _ & Ht). specialize (IH _ Ht). lia.
Qed.

Lemma tiles_app a l1 l2 b : tiles s a (l1 ++ l2) b ↔ ∃ m, tiles s a l1 m ∧ tiles s m l2 b.
Proof.
  revert a. induction l1 as [|sp l1 IH]; cbn; intros a.
  - naive_solver.
  - setoid_rewrite IH. naive_solver.
Qed.

Lemma tiles_end_unique a l b b' : tiles s a l b → tiles s a l b' → b = b'.
Proof.
  revert a. induction l as [|sp l IH]; cbn; intros a.
  - congruence.
  - intros (m & ? & -> & H1) (m' & ? & E & H2). apply (f_equal span_end) in E.
    apply bt_inj in E as ->. eauto.
Qed.

(** [check_tiles] accepts a list of results exactly when their spans tile. *)
Lemma check_tiles_ok a rs : (∃ b, tiles s a (cr_span <$> rs) b) → check_tiles (bt s a) rs = Ok tt.
Proof.
  revert a. induction rs as [|r rs IH]; cbn; intros a; [done|].
  intros (b & m & Hm & E & Ht). rewrite E. cbn. rewrite dt_eq_bt, Z.eqb_refl. cbn.
  rewrite dt_le_bt. destruct (Z.leb_spec m a); [lia|]. cbn. apply IH. eauto.
Qed.
End Aligned.

#[export] Hint Resolve valid_settings_facts bucket_pos : s2p.

(** ** The margin *)

(** Whether the float computation of [margin] is the exact ceiling, for one pair. *)
Definition margin_exact (h b : Z) : bool :=
  match truediv (h * 3600) b with
  | Ok q => match fceil q with Ok n => n =? - (- (h * 3600) / b) | Err _ => false end
  | Err _ => false
  end.

(** Every divisor of a day: the bucket widths the constructor accepts. *)
Definition day_divisors : list Z :=
  [1; 2; 3; 4; 5; 6; 8; 9; 10; 12; 15; 16; 18; 20; 24; 25; 27; 30; 32; 36; 40; 45; 48; 50;
   54; 60; 64; 72; 75; 80; 90; 96; 100; 108; 120; 128; 135; 144; 150; 160; 180; 192; 200;
   216; 225; 240; 270; 288; 300; 320; 360; 384; 400; 432; 450; 480; 540; 576; 600; 640; 675;
   720; 800; 864; 900; 960; 1080; 1152; 1200; 1350; 1440; 1600; 1728; 1800; 1920; 2160;
   2400; 2700; 2880; 3200; 3456; 3600; 4320; 4800; 5400; 5760; 7200; 8640; 9600; 10800;
   14400; 17280; 21600; 28800; 43200; 86400].

Definition hours_1_168 : list Z := Z.of_nat <$> seq 1 168.

Lemma margin_exact_all : forallb (λ h, forallb (margin_exact h) day_divisors) hours_1_168 = true.
Proof. vm_compute. reflexivity. Qed.

Definition small_1_294 : list Z := Z.of_nat <$> seq 1 294.

Definition divisor_listed (c : Z) : bool :=
  negb (86400 mod c =? 0) || (bool_decide (c ∈ day_divisors) && bool_decide (86400 / c ∈ day_divisors)).

Lemma divisors_listed : forallb divisor_listed small_1_294 = true.
Proof. vm_compute. reflexivity. Qed.

Lemma seq_Z_elem n k : 1 <= k <= Z.of_nat n → k ∈ (Z.of_nat <$> seq 1 n : list Z).
Proof.
  intros Hk. apply list_elem_of_fmap. exists (Z.to_nat k). split; [lia|].
  apply elem_of_seq. lia.
Qed.

Lemma day_divisors_complete b : 1 <= b → 86400 mod b = 0 → b ∈ day_divisors.
Proof.
  intros Hb Hm. pose proof divisors_listed as Hall. rewrite forallb_forall in Hall.
  assert (Hd : 86400 = b * (86400 / b)) by (pose proof (Z.div_mod 86400 b); lia).
  assert (Hcase : ∀ c, 1 <= c <= 294 → 86400 mod c = 0 → c ∈ day_divisors ∧ 86400 / c ∈ day_divisors).
  { intros c Hc Hmc. specialize (Hall c). unfold divisor_listed in Hall. rewrite Hmc in Hall.
    cbn [negb Z.eqb orb] in Hall.
    apply (bool_decide_unpack _), Is_true_true; apply (seq_Z_elem 294) in Hc.
    rewrite list_elem_of_In in Hc. apply Hall in Hc. apply andb_prop in Hc as [H1 H2].
    apply bool_decide_eq_true in H1, H2. by apply bool_decide_eq_true. }
  destruct (Z.le_gt_cases b 294) as [Hle|Hgt]; [by apply Hcase|].
  set (c := 86400 / b) in *.
  assert (Hc : 1 <= c <= 294) by nia.
  assert (Hmc : 86400 mod c = 0) by (rewrite Hd; apply Z.mod_mul; lia).
  destruct (Hcase c Hc Hmc) as [_ Hq].
  replace b with (86400 / c) by (rewrite Hd; apply Z.div_mul; lia). done.
Qed.

Lemma ps_margin_ok s : settings_facts s →
  ∃ n, ps_margin s = Ok (n * ps_bucket s) ∧
       td_hours (ps_floor_margin_hours s) <= n * ps_bucket s <
         td_hours (ps_floor_margin_hours s) + ps_bucket s.
Proof.
  intros Hs. destruct Hs as [Hb Hd Hm _ _ _ _ _ _ _ _].
  pose proof margin_exact_all as H. rewrite forallb_forall in H.
  pose proof (seq_Z_elem 168 (ps_floor_margin_hours s) Hm) as Hh.
  apply list_elem_of_In, H in Hh. rewrite forallb_forall in Hh.
  pose proof (day_divisors_complete _ Hb Hd) as Hbd.
  apply list_elem_of_In, Hh in Hbd. unfold margin_exact in Hbd. unfold ps_margin.
  destruct (truediv _ _) as [q|]; [|discriminate]. cbn.
  destruct (fceil q) as [n|]; [|discriminate]. apply Z.eqb_eq in Hbd. cbn.
  exists n. split; [done|]. subst n.
  pose proof (ceil_div_spec (ps_floor_margin_hours s * 3600) (ps_bucket_seconds s) ltac:(lia)).
  unfold td_hours, ps_bucket, td_seconds, us_per_second. lia.
Qed.
