(* ===== verification/PlannerStep.v ===== *)
(** * Planning a step

    [plan_step] on a progress whose instants are aligned always returns a plan, and the
    plan is one of four: read a run of chunks that tile the interval from the next bucket,
    scan a span from the cursor, wait for budget, or finish with a reason. *)

From S2P Require Import Prelude PyStr PyFloat PyTime HistoryState HistoryPlanner PlannerTime.

(** ** Specification vocabulary *)

(** The instants of a progress are what the planner and the codec store: aligned. *)
Record progress_ok (s : PlannerSettings) (p : ScopeProgress) : Prop := {
  po_target : aligned s (sp_target_start p);
  po_started : aware (sp_started_at p);
  po_floor : ∀ f, sp_floor p = Some f → aligned s f;
  po_through : ∀ t, sp_through p = Some t → aligned s t;
  po_cursor : sp_floor p = None → ∃ c, sp_scan_cursor p = Some (bt s c)
}.

Definition width_le (s : PlannerSettings) (w : Z) (sp : Span) : Prop :=
  ∃ a b, sp = mk_span s a b ∧ b - a <= w.

(** The floor is later than the asked start by more than one bucket. *)
Definition floor_cut (s : PlannerSettings) (p : ScopeProgress) : Prop :=
  ∃ F T, sp_floor p = Some (bt s F) ∧ sp_target_start p = bt s T ∧ T + 1 < F.

(** Why a plan may end the reading with [t], [b] being the boundary's bucket. *)
Definition finish_reason (s : PlannerSettings) (p : ScopeProgress) (now : datetime) (b : Z)
    (enabled stop_requested : bool) (t : HistoryTrigger) : Prop :=
  match t with
  | T_SWITCHED_OFF => enabled = false
  | T_STOPPED_BY_OPERATOR => stop_requested = true
  | T_FINISHED_COMPLETE => ∃ a, next_start p s = Some (bt s a) ∧ b <= a ∧ sp_gaps p = [] ∧ ¬ floor_cut s p
  | T_FINISHED_PARTIAL => ∃ a, next_start p s = Some (bt s a) ∧ b <= a ∧ (sp_gaps p ≠ [] ∨ floor_cut s p)
  | T_TIME_LIMIT => td_hours (ps_max_hours s) < dt_us now - dt_us (sp_started_at p)
  | T_NOTHING_TO_READ => sp_floor p = None ∧ ∃ c, sp_scan_cursor p = Some (bt s c) ∧ b <= c
  | _ => False
  end.

(** ** Lemmas *)

Section Step.
Context (s : PlannerSettings) (Hs : settings_facts s).

Lemma chunk_width_bounds p : 1 <= ps_max_span_buckets s →
  ps_min_chunk_buckets s <= chunk_width p s <=
    Z.max (ps_min_chunk_buckets s) (ps_max_span_buckets s).
Proof. unfold chunk_width. lia. Qed.

Lemma chunk_loop_tiles fuel w left a : 0 < w → 0 <= left → (Z.to_nat left <= fuel)%nat →
  tiles s a (chunk_loop fuel w left (bt s a) s) (a + left) ∧
  Forall (width_le s w) (chunk_loop fuel w left (bt s a) s) ∧
  ∀ k, left <= w * k → Z.of_nat (length (chunk_loop fuel w left (bt s a) s)) <= Z.max 0 k.
Proof.
  intros Hw. revert left a. induction fuel as [|fuel IH]; intros left a Hl Hf; cbn [chunk_loop].
  - replace left with 0 by lia. rewrite Z.add_0_r. split; [done|]. split; [constructor|]. cbn. lia.
  - destruct (Z.ltb_spec 0 left) as [Hpos|Hz].
    2: { replace left with 0 by lia. rewrite Z.add_0_r. split; [done|]. split; [constructor|]. cbn. lia. }
    rewrite dt_add_bt.
    destruct (IH (left - Z.min w left) (a + Z.min w left)) as (Ht & Hall & Hlen); [lia..|].
    split; [|split].
    + cbn [tiles]. exists (a + Z.min w left). split; [lia|]. split; [done|].
      replace (a + left) with (a + Z.min w left + (left - Z.min w left)) by lia. done.
    + constructor; [|done]. exists a, (a + Z.min w left). split; [done|lia].
    + intros k Hk. cbn [length]. assert (1 <= k) by nia.
      specialize (Hlen (k - 1) ltac:(nia)). lia.
Qed.

Lemma next_start_cases p : progress_ok s p →
  (next_start p s = None ∧ sp_floor p = None) ∨
  (∃ a F, next_start p s = Some (bt s a) ∧ sp_floor p = Some (bt s F)).
Proof.
  intros []. unfold next_start. destruct (sp_floor p) as [f|]; [right|by left].
  destruct (po_floor0 f eq_refl) as [F ->].
  destruct (sp_through p) as [t|].
  - destruct (po_through0 t eq_refl) as [k ->]. exists (k + 1), F. by rewrite dt_add_bt_1.
  - by exists F, F.
Qed.

Lemma floor_is_cut_spec p : progress_ok s p →
  ∃ c, floor_is_cut p s = Ok c ∧ (c = true ↔ floor_cut s p).
Proof.
  intros []. unfold floor_is_cut, floor_cut. destruct (sp_floor p) as [f|].
  - destruct (po_floor0 f eq_refl) as [F ->]. destruct po_target0 as [T ->].
    unfold dt_gt. rewrite dt_add_bt_1, dt_lt_bt by done. eexists. split; [done|].
    rewrite Z.ltb_lt. split; [intros ?; exists F, T; split; [done|]; split; [done|lia]|].
    intros (F' & T' & E1 & E2 & H). apply (inj Some) in E1. apply (bt_inj s Hs) in E1, E2. lia.
  - exists false. split; [done|]. split; [done|]. by intros (F & T & ? & _).
Qed.

Lemma finish_verdict_spec p : progress_ok s p →
  ∃ t m, finish_verdict p s = Ok (t, m) ∧
    ((t = T_FINISHED_COMPLETE ∧ sp_gaps p = [] ∧ ¬ floor_cut s p) ∨
     (t = T_FINISHED_PARTIAL ∧ (sp_gaps p ≠ [] ∨ floor_cut s p))).
Proof.
  intros Hp. destruct (floor_is_cut_spec p Hp) as (c & Hc & Hcut). unfold finish_verdict.
  rewrite Hc. cbn [res_bind].
  destruct c, (sp_gaps p) eqn:Hg; cbn; do 2 eexists; (split; [done|]); naive_solver.
Qed.

Lemma plan_scan_spec p c b : sp_scan_cursor p = Some (bt s c) → 1 <= ps_max_span_buckets s →
  ∃ sc, plan_scan p (bt s b) s = Ok sc ∧
    if b <=? c then scp_span sc = None
    else ∃ d, scp_span sc = Some (mk_span s c d) ∧ c < d <= b ∧ d - c <= ps_max_span_buckets s.
Proof.
  intros Hc Hm. unfold plan_scan. rewrite require_aligned_bt, Hc by done. cbn [res_bind].
  rewrite dt_ge_bt by done. cbn [res_bind]. destruct (Z.leb_spec b c); [by eexists|].
  rewrite dt_add_bt, dt_min_bt by done. cbn [res_bind]. eexists. split; [done|].
  exists (Z.min b (c + ps_max_span_buckets s)). split; [done|]. lia.
Qed.
End Step.

(** What a READ plan holds: [n] buckets from [a], tiled by chunks no wider than the width. *)
Definition read_plan (s : PlannerSettings) (p : ScopeProgress) (b : Z) (budget : StepBudget)
    (pl : StepPlan) (a n : Z) : Prop :=
  next_start p s = Some (bt s a) ∧ 0 < n <= b - a ∧
  n <= ps_max_span_buckets s ∧ n <= chunk_width p s * sb_searches budget ∧
  tiles s a (spl_chunks pl) (a + n) ∧
  Forall (width_le s (chunk_width p s)) (spl_chunks pl) ∧
  Z.of_nat (length (spl_chunks pl)) <= sb_searches budget ∧ spl_trigger pl = None.

(** What a plan promises, by its action. *)
Definition plan_ok (s : PlannerSettings) (p : ScopeProgress) (now : datetime) (b : Z)
    (budget : StepBudget) (enabled stop_requested : bool) (pl : StepPlan) : Prop :=
  match spl_action pl with
  | SA_READ => ∃ a n, read_plan s p b budget pl a n
  | SA_SCAN =>
      sp_floor p = None ∧
      ∃ c d, sp_scan_cursor p = Some (bt s c) ∧ spl_scan_span pl = Some (mk_span s c d) ∧
        c < d <= b ∧ d - c <= ps_max_span_buckets s
  | SA_WAIT =>
      (sb_searches budget <= 0 ∨ fle (sb_seconds_left budget) f0 = true) ∧ spl_chunks pl = []
  | SA_FINISH =>
      ∃ t, spl_trigger pl = Some t ∧ spl_chunks pl = [] ∧
           finish_reason s p now b enabled stop_requested t
  end.

Lemma plan_step_plan s p now b budget enabled stop_requested :
  settings_facts s → 1 <= ps_max_span_buckets s → progress_ok s p → aware now →
  ∃ pl, plan_step p now (bt s b) budget s enabled stop_requested = Ok pl ∧
    plan_ok s p now b budget enabled stop_requested pl.
Proof.
  intros Hs Hm Hp Hnow.
  unfold plan_step, plan_ok. rewrite require_aligned_bt by done. unfold check_aware. rewrite Hnow. cbn [res_bind raise_if negb].
  destruct enabled; cbn [negb]; [|by eexists; split; [done|]; eexists].
  destruct stop_requested; [by eexists; split; [done|]; eexists|].
  destruct (next_start_cases s p Hp) as [[Hn Hf]|(a & F & Hn & Hf)]; rewrite Hn.
  - cbn [res_bind]. rewrite dt_sub_ok by (by rewrite Hnow, (po_started s p Hp)). cbn [res_bind].
    destruct (Z.ltb_spec (td_hours (ps_max_hours s)) (dt_us now - dt_us (sp_started_at p)));
      [by eexists; split; [done|]; eexists|].
    destruct (_ || _) eqn:Hb; [eexists; split; [done|]; cbn; split; [|done];
      apply orb_prop in Hb as [?%Z.leb_le|?]; auto|].
    destruct (po_cursor s p Hp Hf) as [c Hc].
    destruct (plan_scan_spec s Hs p c b Hc Hm) as (sc & -> & Hsc). cbn [res_bind].
    destruct (Z.leb_spec b c).
    + rewrite Hsc. eexists. split; [done|]. eexists. split; [done|]. split; [done|]. split; [done|eauto].
    + destruct Hsc as (d & Hd & ? & ?). rewrite Hd. eexists. split; [done|]. cbn. split; [done|]. eauto 10.
  - rewrite dt_ge_bt by done. cbn [res_bind]. destruct (Z.leb_spec b a).
    { destruct (finish_verdict_spec s Hs p Hp) as (t & m & -> & Ht). cbn [res_bind fst snd].
      eexists. split; [done|]. exists t. split; [done|]. split; [done|].
      destruct Ht as [(-> & ? & ?)|(-> & ?)]; cbn; eauto 10. }
    rewrite dt_sub_ok by (by rewrite Hnow, (po_started s p Hp)). cbn [res_bind].
    destruct (Z.ltb_spec (td_hours (ps_max_hours s)) (dt_us now - dt_us (sp_started_at p)));
      [by eexists; split; [done|]; eexists|].
    destruct (_ || _) eqn:Hb; [eexists; split; [done|]; cbn; split; [|done];
      apply orb_prop in Hb as [?%Z.leb_le|?]; auto|].
    apply orb_false_elim in Hb as [Hb%Z.leb_gt _].
    rewrite require_aligned_bt, buckets_between_bt by done. cbn [res_bind].
    eexists. split; [done|]. cbn [spl_action spl_chunks spl_trigger].
    pose proof (chunk_width_bounds s p Hm). pose proof (sf_min s Hs).
    set (w := chunk_width p s) in *.
    set (n := Z.min (Z.min (Z.max 0 (b - a)) (ps_max_span_buckets s)) (w * sb_searches budget)).
    assert (0 < n) by nia.
    destruct (chunk_loop_tiles s (Z.to_nat n) w n a) as (Ht & Hall & Hlen); [lia..|].
    exists a, n. unfold read_plan. cbn [spl_chunks spl_trigger]. fold w. split; [done|].
    do 3 (split; [lia|]). split; [done|]. split; [done|].
    split; [|done]. specialize (Hlen (sb_searches budget)). lia.
Qed.

(** A tiling has a first and a last span, which [step_span] joins. *)
Lemma step_span_tiles s pl a e : tiles s a (spl_chunks pl) e → a < e →
  step_span pl = Some (mk_span s a e).
Proof.
  unfold step_span. destruct (spl_chunks pl) as [|c l]; [cbn; lia|].
  intros (m & Hm & -> & Ht) _. rewrite last_cons. cbn [span_start mk_span].
  assert (Hl : span_end (default (mk_span s a m) (last l)) = bt s e).
  { destruct l as [|x l _] using rev_ind; [cbn in *; by subst|].
    rewrite last_snoc. apply tiles_app in Ht as (k & _ & q & _ & -> & Hq). cbn in *. by subst. }
  destruct (last l); cbn in *; by rewrite Hl.
Qed.

(** ** Theorems *)

(** Planning a step is total and safe. On aligned progress [plan_step] returns a plan.
    A READ plan tiles [n > 0] buckets from the next bucket to read, never past the
    boundary, never more than one search span or the budget allows; each chunk is at most
    the chunk width, there are at most as many chunks as searches left, and the step's span
    is those buckets. A SCAN plan is a non-empty span from the cursor inside the window;
    WAIT means no budget; FINISH always has a trigger, and the trigger's condition holds. *)
Theorem plan_step_total s p now b budget enabled stop_requested :
  valid_settings s → 1 <= ps_max_span_buckets s → progress_ok s p → aware now →
  ∃ pl, plan_step p now (bt s b) budget s enabled stop_requested = Ok pl ∧
    plan_ok s p now b budget enabled stop_requested pl ∧
    (spl_action pl = SA_READ → ∃ a n, read_plan s p b budget pl a n ∧
       step_span pl = Some (mk_span s a (a + n))).
Proof.
  intros Hv%valid_settings_facts Hm Hp Hnow.
  destruct (plan_step_plan s p now b budget enabled stop_requested Hv Hm Hp Hnow) as (pl & ? & Hok).
  exists pl. split; [done|]. split; [done|]. intros Hact. unfold plan_ok in Hok. rewrite Hact in Hok.
  destruct Hok as (a & n & Hr). exists a, n. split; [done|].
  destruct Hr as (_ & ? & _ & _ & Ht & _). apply step_span_tiles; [done|lia].
Qed.

(** Splitting a truncated search loses nothing: the halves tile the chunk, the left
    one first, each holds at least one bucket, and a one-bucket chunk is never split. *)
Theorem split_on_truncation_partition s a b :
  valid_settings s → a < b →
  ∃ r, split_on_truncation (mk_span s a b) s = Ok r ∧
    match r with
    | None => b = a + 1
    | Some (l, r) => 1 < b - a ∧ tiles s a [l; r] b
    end.
Proof.
  intros Hv Hab. pose proof (valid_settings_facts s Hv) as Hs.
  unfold split_on_truncation. rewrite span_buckets_mk by (done || lia). cbn [res_bind].
  destruct (Z.leb_spec (b - a) 1); eexists; (split; [done|]); cbn [span_start span_end mk_span]; [lia|].
  rewrite dt_add_bt. pose proof (Z.div_mod (b - a) 2). pose proof (Z.mod_pos_bound (b - a) 2).
  split; [lia|]. exists (a + (b - a) / 2). split; [lia|]. split; [done|].
  exists b. split; [lia|]. done.
Qed.

(** * The floor scan

    [interpret_scan] decides the floor from evidence only: the first event bucket [b0] of
    an unbroken prefix of COMPLETE spans, plus the margin. A span that failed, was
    truncated or was not run stops the scan there. [plan_scan] proposes the next span.
    The abstract contract is [first_event_of]: the earliest bucket with an event, given
    that everything the scan read before it was silent. *)


(** ** Specification vocabulary *)

(** A COMPLETE span in which every bucket counted zero events. *)
Definition silent (r : ScanSpanResult) : Prop :=
  ssr_status r = SS_COMPLETE ∧ ∀ bt, bt ∈ ssr_totals r → bt.2 = 0.

(** [b0] is the earliest bucket of a COMPLETE span with an event. *)
Definition first_event_of (r : ScanSpanResult) (b0 : datetime) : Prop :=
  ssr_status r = SS_COMPLETE ∧
  (∃ n, (b0, n) ∈ ssr_totals r ∧ 0 < n) ∧
  ∀ b n, (b, n) ∈ ssr_totals r → 0 < n → dt_us b0 <= dt_us b.

(** A total the loop accepts: an aligned bucket of the span, a count of zero or more. *)
Definition good_total (s : PlannerSettings) (sp : Span) (bt : datetime * Z) : Prop :=
  aligned s bt.1 ∧ dt_us (span_start sp) <= dt_us bt.1 < dt_us (span_end sp) ∧ 0 <= bt.2.

(** ** Lemmas *)

#[export] Instance dt_before_trans : Transitive dt_before.
Proof. unfold dt_before. intros x y z. lia. Qed.
#[export] Instance dt_before_total : Total dt_before.
Proof. unfold dt_before. intros x y. lia. Qed.

Lemma dt_sorted_head l b0 l' : dt_sorted l = b0 :: l' → b0 ∈ l ∧ ∀ b, b ∈ l → dt_us b0 <= dt_us b.
Proof.
  intros H. unfold dt_sorted in H.
  pose proof (merge_sort_Permutation dt_before l) as Hp. rewrite H in Hp.
  pose proof (StronglySorted_merge_sort dt_before l) as Hs. rewrite H in Hs.
  apply StronglySorted_inv in Hs as [_ Hall]. split.
  - rewrite <-Hp. left.
  - intros b Hb. rewrite <-Hp in Hb. apply elem_of_cons in Hb as [->|Hb]; [lia|].
    rewrite Forall_forall in Hall. by apply Hall.
Qed.

Lemma dt_sorted_nil l : dt_sorted l = [] → l = [].
Proof.
  intros H. pose proof (merge_sort_Permutation dt_before l) as Hp. unfold dt_sorted in H.
  rewrite H in Hp. by apply Permutation_nil in Hp.
Qed.

Lemma elem_of_positive (ts : list (datetime * Z)) b :
  b ∈ (λ bt, bt.1) <$> filter (λ bt, 0 < bt.2) ts ↔ ∃ n, (b, n) ∈ ts ∧ 0 < n.
Proof.
  rewrite list_elem_of_fmap. split.
  - intros ([b' n] & -> & H). apply list_elem_of_filter in H as [? ?]. eauto.
  - intros (n & Hin & Hn). exists (b, n). split; [done|]. by apply list_elem_of_filter.
Qed.

Section Scan.
Context (s : PlannerSettings) (Hs : settings_facts s).

Lemma check_totals_ok sp ts :
  foldM (λ _ bt, check_total sp s bt) tt ts = Ok tt →
  ∀ bt, bt ∈ ts → aligned s bt.1 ∧ 0 <= bt.2.
Proof.
  induction ts as [|t ts IH]; cbn; intros H bt Hin; [by apply elem_of_nil in Hin|].
  apply bind_ok in H as ([] & Ht & H). apply elem_of_cons in Hin as [->|Hin]; [|by apply IH].
  unfold check_total in Ht. apply bind_ok in Ht as ([] & Ha & Ht).
  apply bind_ok in Ht as (x & _ & Ht). apply bind_ok in Ht as (y & _ & Ht).
  apply bind_ok in Ht as ([] & _ & Ht%raise_if_ok). bool_simp.
  split; [by eapply require_aligned_ok|lia].
Qed.

(** What the loop over the results can return, and on what evidence. *)
Lemma scan_loop_spec p stop cursor rs res :
  scan_loop p stop s cursor rs = Ok res →
  ∃ pre, Forall silent pre ∧
    match res with
    | inr c => rs = pre ∧ c = default cursor ((λ r, span_end (ssr_span r)) <$> last pre)
    | inl d => ∃ r post, rs = pre ++ r :: post ∧
        ((ssr_status r ≠ SS_COMPLETE ∧ d = scan_blocked p (ssr_status r) s) ∨
         ∃ b0, first_event_of r b0 ∧ aligned s b0 ∧ scan_found p (ssr_span r) b0 stop s = Ok d)
    end.
Proof.
  revert cursor. induction rs as [|r rs IH]; intros cursor H; cbn in H.
  - injection H as <-. by exists [].
  - apply bind_ok in H as ([] & _ & H). case_decide as Hst.
    2: { injection H as <-. exists []. split; [done|]. exists r, rs. eauto. }
    apply bind_ok in H as ([] & Hts & H). pose proof (check_totals_ok _ _ Hts) as Hok.
    unfold event_buckets in H. destruct (dt_sorted _) as [|b0 bs] eqn:Hev.
    + apply dt_sorted_nil in Hev. destruct (IH _ H) as (pre & Hpre & Hres).
      exists (r :: pre). split.
      { constructor; [|done]. split; [done|]. intros [b n] Hin.
        destruct (Hok _ Hin) as [_ Hn]. cbn in *.
        destruct (Z.eq_dec n 0); [done|]. exfalso. apply (not_elem_of_nil b).
        rewrite <-Hev. apply elem_of_positive. exists n. split; [done|lia]. }
      destruct res as [d|c].
      * destruct Hres as (r' & post & -> & Hd). exists r', post. eauto.
      * destruct Hres as [-> ->]. split; [done|]. by destruct pre using rev_ind;
          [|rewrite app_comm_cons, !last_snoc].
    + apply bind_ok in H as (d & Hd & [= <-]). apply dt_sorted_head in Hev as [Hin Hmin].
      apply elem_of_positive in Hin as (n & Hin & Hn).
      exists []. split; [done|]. exists r, rs. split; [done|]. right. exists b0.
      split; [|split; [by apply (Hok (b0, n))|done]]. split; [done|]. split; [by exists n|].
      intros b m Hbm Hm. apply Hmin, elem_of_positive. eauto.
Qed.

Lemma good_totals_ok sp ts : aware (span_start sp) → aware (span_end sp) →
  Forall (good_total s sp) ts → foldM (λ _ bt, check_total sp s bt) tt ts = Ok tt.
Proof.
  intros Ha Hb. induction 1 as [|[b n] ts ([k Hk] & [Hl Hu] & Hn) _ IH]; [done|].
  cbn [fst snd] in *. subst b. cbn [foldM].
  unfold check_total. cbn [fst snd]. rewrite require_aligned_bt by done. cbn [res_bind].
  rewrite dt_le_ok by done. rewrite (proj2 (Z.leb_le _ _) Hl). cbn [res_bind].
  rewrite dt_lt_ok by done. rewrite (proj2 (Z.ltb_lt _ _) Hu). cbn [res_bind negb raise_if].
  destruct (Z.ltb_spec n 0); [lia|]. cbn. exact IH.
Qed.

(** The floor decision on a span whose first event is in bucket [k]. *)
Lemma scan_found_spec p sp k e T : sp_target_start p = bt s T →
  ∃ n d, td_hours (ps_floor_margin_hours s) <= n * ps_bucket s <
           td_hours (ps_floor_margin_hours s) + ps_bucket s ∧
    scan_found p sp (bt s k) (bt s e) s = Ok d ∧
    let F := Z.max T (k + n) in
    if e <=? F then
      scd_outcome d = UNAVAILABLE ∧ scd_trigger d = Some T_NOTHING_TO_READ ∧
      scd_progress d = with_scan_failures 0 (with_first_event_bucket (Some (bt s k)) p)
    else
      scd_outcome d = FLOOR_FOUND ∧ scd_trigger d = None ∧
      scd_progress d = with_scan_failures 0 (with_scan_cursor (Some (span_end sp))
        (with_floor (Some (bt s F)) (with_first_event_bucket (Some (bt s k)) p))).
Proof.
  intros HT. destruct (ps_margin_ok s Hs) as (n & Hm & Hn).
  unfold scan_found. rewrite Hm. cbn [res_bind]. rewrite dt_add_bt, align_up_bt by done.
  cbn [res_bind]. rewrite HT, dt_max_bt by done. cbn [res_bind].
  rewrite dt_ge_bt by done. cbn [res_bind]. exists n.
  destruct (e <=? Z.max T (k + n)); [by eexists|].
  unfold dt_gt. rewrite dt_add_bt_1, dt_lt_bt by done. cbn [res_bind]. by eexists.
Qed.

(** On spans that tile and totals the family measured, the loop returns. *)
Lemma scan_loop_total p e T rs c c' : sp_target_start p = bt s T →
  tiles s c (ssr_span <$> rs) c' →
  Forall (λ r, Forall (good_total s (ssr_span r)) (ssr_totals r)) rs →
  ∃ res, scan_loop p (bt s e) s (bt s c) rs = Ok res ∧ ∀ x, res = inr x → x = bt s c'.
Proof.
  intros HT. revert c. induction rs as [|r rs IH]; intros c; cbn [fmap list_fmap tiles scan_loop].
  - intros -> _. eexists. split; [done|]. by intros x [= <-].
  - intros (m & Hm & Hsp & Ht) [Hr Hrs]%Forall_cons. rewrite Hsp. cbn [span_start span_end mk_span].
    rewrite dt_eq_bt, Z.eqb_refl by done. cbn [negb raise_if res_bind].
    case_decide; [|eexists; split; [done|discriminate]].
    rewrite <-Hsp. rewrite good_totals_ok; [|by rewrite Hsp..|done]. cbn [res_bind].
    destruct (event_buckets _) as [|b0 bs] eqn:Hev; [by apply IH|].
    unfold event_buckets in Hev. apply dt_sorted_head in Hev as [Hin _].
    apply elem_of_positive in Hin as (n & Hin & _).
    rewrite Forall_forall in Hr. destruct (Hr _ Hin) as ([k Hk] & _). cbn in Hk. subst b0.
    destruct (scan_found_spec p (ssr_span r) k e T HT) as (n' & d & _ & -> & _).
    eexists. split; [done|discriminate].
Qed.
End Scan.

(** ** Theorems *)

(** The floor scan. On contiguous scan results whose totals are aligned, in range and
    non-negative, [interpret_scan] returns a decision, and every decision rests on
    evidence. A floor is found only when all spans before the deciding one are COMPLETE
    and silent; it is then [max(T0, b0 + margin)] rounded up to a bucket, [b0] being the
    earliest bucket with an event, and it lies before the end of the window. [CONTINUE]
    means every span was COMPLETE and silent; [RETRY] means nothing was given, or a span
    that is not COMPLETE stopped the scan below the failure limit, the cursor staying
    where it was; [UNAVAILABLE] always carries [NOTHING_TO_READ] and never a floor. *)
Theorem interpret_scan_evidence s p rs T c c' e :
  valid_settings s →
  sp_floor p = None → sp_scan_cursor p = Some (bt s c) → sp_target_start p = bt s T →
  tiles s c (ssr_span <$> rs) c' →
  Forall (λ r, Forall (good_total s (ssr_span r)) (ssr_totals r)) rs →
  ∃ d, interpret_scan p rs (bt s e) s = Ok d ∧
    let p' := scd_progress d in
    match scd_outcome d with
    | FLOOR_FOUND =>
        ∃ pre r post k F, rs = pre ++ r :: post ∧ Forall silent pre ∧ first_event_of r (bt s k) ∧
          sp_first_event_bucket p' = Some (bt s k) ∧ sp_floor p' = Some (bt s F) ∧
          T <= F < e ∧
          dt_us (bt s k) + td_hours (ps_floor_margin_hours s) <= dt_us (bt s F) ∧
          (F = T ∨ dt_us (bt s F) <
             dt_us (bt s k) + td_hours (ps_floor_margin_hours s) + ps_bucket s)
    | CONTINUE =>
        Forall silent rs ∧ sp_scan_cursor p' = Some (bt s c') ∧ c' < e ∧ sp_floor p' = None
    | RETRY =>
        (rs = [] ∨ ∃ pre r post, rs = pre ++ r :: post ∧ ssr_status r ≠ SS_COMPLETE) ∧
        sp_scan_cursor p' = sp_scan_cursor p ∧ sp_floor p' = None ∧ scd_trigger d = None ∧
        (sp_scan_failures p' < ps_max_failures s ∨ rs = [])
    | UNAVAILABLE => scd_trigger d = Some T_NOTHING_TO_READ ∧ sp_floor p' = None
    end.
Proof.
  intros Hv Hf Hc HT Ht Hg. pose proof (valid_settings_facts s Hv) as Hs.
  unfold interpret_scan. rewrite require_aligned_bt, Hf, Hc by done. cbn [res_bind].
  destruct rs as [|r0 rs']; [by eexists; split; [done|]; cbn; eauto 10|].
  set (rs := r0 :: rs') in *. set (p1 := with_searches _ p).
  destruct (scan_loop_total s Hs p1 e T rs c c' HT Ht Hg) as (res & Hloop & Hend).
  rewrite Hloop. cbn [res_bind].
  destruct (scan_loop_spec s Hs _ _ _ _ _ Hloop) as (pre & Hpre & Hres).
  destruct res as [d|x].
  - exists d. split; [done|]. cbn zeta.
    destruct Hres as (r & post & Hrs & [[Hst ->]|(b0 & Hb0 & [k ->] & Hd)]).
    + unfold scan_blocked. change (sp_scan_failures p1) with (sp_scan_failures p).
      destruct (Z.leb_spec (ps_max_failures s) (sp_scan_failures p + 1));
        cbn; [done|]. split; [right; eauto|]. split; [done|]. split; [done|]. split; [done|]. left. lia.
    + destruct (scan_found_spec s Hs p1 (ssr_span r) k e T HT) as (n & d' & Hn & Hd' & Hcase).
      rewrite Hd' in Hd. injection Hd as ->. cbn zeta in Hcase.
      destruct (Z.leb_spec e (Z.max T (k + n))) as [Hle|Hgt];
        destruct Hcase as (-> & Htr & ->); cbn; [done|].
      exists pre, r, post, k, (Z.max T (k + n)). do 5 (split; [done|]). split; [lia|].
      pose proof (bucket_pos s Hs).
      destruct (Z.max_spec T (k + n)) as [[? ->]|[? ->]]; (split; [nia|]); [right|left]; nia.
  - destruct Hres as [Hrs Hx]. rewrite (Hend x eq_refl).
    rewrite dt_ge_bt by done. cbn [res_bind].
    destruct (Z.leb_spec e c'); eexists; (split; [done|]); cbn; [done|].
    rewrite Hrs. done.
Qed.
