(* ===== verification/PlannerRun.v ===== *)
(** * Settling a step

    [settle_step] turns the results of a step into the next progress. The lemmas take it
    apart the way the code is written: the loop over the results, the counters, the width,
    the blocker, the density gate and the end gate. *)

From S2P Require Import Prelude PyStr PyFloat PyFloatFacts PyTime HistoryState HistoryPlanner PlannerTime PlannerStep.

(** ** Specification vocabulary *)

(** A chunk that may be written: COMPLETE, or one bucket whose result is a lower bound. *)
Definition chunk_is_done (s : PlannerSettings) (r : ChunkResult) : Prop :=
  ∃ a b, cr_span r = mk_span s a b ∧ chunk_done r (b - a) = true.

(** The sizes for which the float arithmetic of the planner cannot overflow. *)
Definition small (n : Z) : Prop := 0 <= n < 2 ^ 300.

Definition settings_sized (s : PlannerSettings) : Prop :=
  ps_row_cap s < 2 ^ 300 ∧ mag_between false (-300) 1 (ps_row_target_share s).

(** Lower-bound buckets a done chunk counts. *)
Definition chunk_lb (r : ChunkResult) : Z :=
  if decide (cr_status r = SS_COMPLETE) then cr_lower_bound_buckets r else 1.

(** What a family measured for the chunks [a .. c-1]: non-negative counts of moderate size. *)
Record results_ok (s : PlannerSettings) (a : Z) (rs : list ChunkResult) (c : Z) : Prop := {
  ro_tiles : tiles s a (cr_span <$> rs) c;
  ro_rows : Forall (λ r, 0 <= cr_rows r) rs ∧ sum_Z (cr_rows <$> rs) < 2 ^ 300;
  ro_silent : Forall (λ r, 0 <= cr_non_silent_buckets r) rs ∧
              sum_Z (cr_non_silent_buckets <$> rs) < 2 ^ 300;
  ro_lb : Forall (λ r, 0 <= chunk_lb r) rs ∧ sum_Z (chunk_lb <$> rs) < 2 ^ 300;
  ro_size : c - a < 2 ^ 300
}.

(** The counters of the density gate are of moderate size. *)
Definition counters_ok (p : ScopeProgress) : Prop :=
  small (sp_lower_bound_buckets p) ∧ small (sp_buckets_read p).

(** Two progresses that differ only in the width fields, the failure count and the
    density flag: they describe the same reading. *)
Definition same_reading (p q : ScopeProgress) : Prop :=
  sp_target_start q = sp_target_start p ∧ sp_started_at q = sp_started_at p ∧
  sp_floor q = sp_floor p ∧ sp_through q = sp_through p ∧ sp_scan_cursor q = sp_scan_cursor p ∧
  sp_gaps q = sp_gaps p ∧ sp_buckets_read q = sp_buckets_read p ∧
  sp_lower_bound_buckets q = sp_lower_bound_buckets p ∧ sp_searches q = sp_searches p ∧
  sp_rows_seen q = sp_rows_seen p ∧ sp_non_silent_buckets q = sp_non_silent_buckets p.

(** ** The density arithmetic *)

Section Settle.
Context (s : PlannerSettings) (Hs : settings_facts s) (Hsz : settings_sized s).

Lemma epsilon_mag : finite_mag false (-29) (div_round 1 (10 ^ 9)).
Proof. do 2 eexists. split; [vm_compute; reflexivity|]. split; vm_compute; congruence. Qed.

Lemma safety_mag : finite_mag false 1 DENSITY_SAFETY.
Proof. do 2 eexists. split; [vm_compute; reflexivity|]. split; vm_compute; congruence. Qed.

Lemma row_target_ok : ∃ n, ps_row_target_rows s = Ok n ∧ 1 <= n < 2 ^ 310.
Proof.
  destruct Hsz as [Hcap (ks & Hks & Hkb)]. pose proof (sf_cap s Hs).
  destruct (Zdigits2_bounds (ps_row_cap s)) as (? & _); [lia|].
  pose proof (Zdigits2_le (ps_row_cap s) 300 ltac:(lia) Hcap).
  unfold ps_row_target_rows.
  destruct (float_of_int_mag (ps_row_cap s)) as (x & -> & (kx & Hx & Hkx)); [lia..|]. cbn [res_bind].
  destruct (mul_mag _ _ _ _ _ _ Hx Hks) as (km & Hm & Hkm); [lia|].
  destruct (fadd_mag _ _ _ _ Hm epsilon_mag) as (ka & Ha & Hka); [lia..|].
  destruct (ffloor_mag _ _ _ Ha) as (n & -> & Hn). cbn [res_bind]. eexists. split; [done|].
  pose proof (Z.pow_le_mono_r 2 (Z.max 0 ka) 309 ltac:(lia) ltac:(lia)).
  assert (2 ^ 309 < 2 ^ 310) by (vm_compute; done). assert (1 < 2 ^ 310) by (vm_compute; done). lia.
Qed.

Lemma row_fit_ok x : x = S754_zero false ∨ mag_between false (-302) 302 x →
  ∃ fit, row_fit_buckets x s = Ok fit ∧
    (fit = ps_max_span_buckets s ∨
     ps_min_chunk_buckets s <= fit <= Z.max (ps_min_chunk_buckets s) (ps_max_span_buckets s)).
Proof.
  intros [->|(k & Hk & Hb)]; unfold row_fit_buckets.
  - eexists. split; [done|]. by left.
  - destruct (finite_mag_pos _ _ Hk) as [-> _].
    destruct row_target_ok as (n & -> & Hn). cbn [res_bind].
    pose proof (Zdigits2_le n 310 ltac:(lia) (proj2 Hn)).
    destruct (Zdigits2_bounds n ltac:(lia)) as (? & _).
    destruct (float_of_int_mag n) as (t & -> & (kt & Ht & Hkt)); [lia..|]. cbn [res_bind].
    destruct (mul_mag _ _ _ _ _ _ safety_mag Hk) as (km & Hm & Hkm); [lia|].
    destruct (fdiv_mag _ _ _ _ _ _ Ht Hm) as (q & -> & (kq & Hq & Hkq)); [lia|]. cbn [res_bind].
    destruct (ffloor_mag _ _ _ Hq) as (f & -> & _). cbn [res_bind].
    eexists. split; [done|]. right. lia.
Qed.

(** A density the step could have observed. *)
Definition recent_ok (o : option float) : Prop :=
  ∀ x, o = Some x → x = S754_zero false ∨ mag_between false (-302) 302 x.

Lemma recent_density_ok rows ns : small rows → small ns →
  ∃ o, (if ns =? 0 then Ok None else q <- truediv rows ns ;; Ok (Some q)) = Ok o ∧ recent_ok o.
Proof.
  intros Hr Hn. destruct (Z.eqb_spec ns 0) as [->|Hne]; [by eexists|].
  destruct (Z.eq_dec rows 0) as [->|Hr0].
  - unfold truediv. rewrite (proj2 (Z.eqb_neq ns 0)) by done. cbn.
    rewrite (proj2 (Z.ltb_ge ns 0)) by (unfold small in *; lia).
    eexists. split; [done|]. intros x [= <-]. by left.
  - unfold small in *.
    destruct (Zdigits2_bounds rows) as (? & _); [lia|]. destruct (Zdigits2_bounds ns) as (? & _); [lia|].
    pose proof (Zdigits2_le rows 300 ltac:(lia) ltac:(lia)).
    pose proof (Zdigits2_le ns 300 ltac:(lia) ltac:(lia)).
    destruct (truediv_mag rows ns) as (q & -> & Hq); [lia..|]. cbn [res_bind].
    eexists. split; [done|]. intros x [= <-]. right. eapply mag_between_weaken; [exact Hq|lia..].
Qed.

(** ** The width *)

Definition width_in (w : Z) : Prop :=
  ps_min_chunk_buckets s <= w <= Z.max (ps_min_chunk_buckets s) (ps_max_span_buckets s).

(** The width after a step: between the bounds, and at most double the current one once a
    width was sized. *)
Lemma width_after_step_spec p cur : recent_ok (sp_recent_rows_per_bucket p) →
  ∃ w c n note,
    width_after_step p cur s =
      Ok (with_chunk_ceiling c (with_ceiling_successes n (with_chunk_buckets (Some w) p)), note) ∧
    width_in w ∧
    (sp_chunk_buckets p = None ∨ w <= Z.max (ps_min_chunk_buckets s) (2 * cur)).
Proof.
  intros Hr. unfold width_after_step, width_target.
  assert (Hft : ∃ fit target,
    match sp_recent_rows_per_bucket p with
    | Some recent =>
        fit <- row_fit_buckets recent s ;;
        Ok (fit, match sp_chunk_buckets p with Some _ => Z.min fit (2 * cur) | None => fit end)
    | None => Ok (ps_initial_chunk_buckets s, 2 * cur)
    end = Ok (fit, target) ∧
    (sp_chunk_buckets p = None ∧ sp_recent_rows_per_bucket p ≠ None ∨ target <= 2 * cur)).
  { destruct (sp_recent_rows_per_bucket p) as [x|].
    - destruct (row_fit_ok x (Hr x eq_refl)) as (fit & -> & _). cbn.
      do 2 eexists. split; [done|]. destruct (sp_chunk_buckets p); [right; lia|left; done].
    - do 2 eexists. split; [done|]. right. lia. }
  destruct Hft as (fit & target & Heq & Htgt). rewrite Heq. cbn [res_bind].
  destruct (sp_chunk_ceiling p) as [c|].
  - destruct (CEILING_RELEASE_STEPS <=? _); [destruct (Z.leb_spec fit (2 * c))|];
      do 4 eexists; (split; [done|]); unfold width_in; (split; [lia|]);
      (destruct Htgt as [[? _]|?]; [by left|right; lia]).
  - do 4 eexists; (split; [done|]); unfold width_in; (split; [lia|]).
    destruct Htgt as [[? _]|?]; [by left|right; lia].
Qed.

(** ** The loop over the results *)

(** The loop takes the longest prefix of done chunks and stops at the blocker. *)
Lemma settle_loop_spec acc a rs c : tiles s a (cr_span <$> rs) c →
  ∃ pre post m acc',
    rs = pre ++ post ∧ tiles s a (cr_span <$> pre) m ∧ tiles s m (cr_span <$> post) c ∧
    Forall (chunk_is_done s) pre ∧ (∀ r, head post = Some r → ¬ chunk_is_done s r) ∧
    settle_loop acc rs s = Ok (acc', head post) ∧
    st_write acc' = st_write acc ++ (cr_span <$> pre) ∧
    st_through acc' = (if decide (pre = []) then st_through acc else Some (bt s (m - 1))) ∧
    st_read acc' = st_read acc + (m - a) ∧
    st_rows acc' = st_rows acc + sum_Z (cr_rows <$> pre) ∧
    st_non_silent acc' = st_non_silent acc + sum_Z (cr_non_silent_buckets <$> pre) ∧
    st_lb acc' = st_lb acc + sum_Z (chunk_lb <$> pre).
Proof.
  revert acc a. induction rs as [|r rs IH]; intros acc a Ht.
  - cbn in Ht. subst c. exists [], [], a, acc. cbn. rewrite app_nil_r, !Z.add_0_r, Z.sub_diag, Z.add_0_r.
    repeat split; done.
  - destruct Ht as (k & Hk & Hsp & Ht). cbn [settle_loop].
    rewrite Hsp, span_buckets_mk by (done || lia). cbn [res_bind].
    destruct (chunk_done r (k - a)) eqn:Hd.
    + rewrite <-Hsp. edestruct (IH
        {| st_write := st_write acc ++ [cr_span r];
           st_through := Some (dt_minus (span_end (cr_span r)) (ps_bucket s));
           st_read := st_read acc + (k - a); st_rows := st_rows acc + cr_rows r;
           st_non_silent := st_non_silent acc + cr_non_silent_buckets r;
           st_lb := st_lb acc + chunk_lb r |} k Ht)
        as (pre & post & m & acc' & -> & Hpre & Hpost & Hall & Hhd & Heq & Hw & Hth & Hr & Hro & Hns & Hlb).
      cbn [st_write st_through st_read st_rows st_non_silent st_lb] in *.
      exists (r :: pre), post, m, acc'.
      split; [done|]. split; [by exists k|]. split; [done|].
      split; [constructor; [by exists a, k|done]|]. split; [done|]. split; [exact Heq|].
      split; [by rewrite Hw, <-app_assoc|]. split.
      { rewrite Hth. case_decide as Hp; [|by case_decide]. subst pre. cbn in Hpre. subst m.
        rewrite Hsp. cbn. by rewrite dt_minus_bt_1. }
      rewrite !fmap_cons. unfold sum_Z in *. cbn [foldr]. repeat split; lia.
    + exists [], (r :: rs), a, acc. cbn [app fmap list_fmap tiles head hd_error].
      split; [done|]. split; [done|]. split; [by exists k|]. split; [done|].
      split; [intros r' [= <-] (x & y & Hxy & Hdone)|].
      { rewrite Hsp in Hxy. pose proof (f_equal span_start Hxy) as E1.
        pose proof (f_equal span_end Hxy) as E2. cbn in E1, E2.
        apply (bt_inj s Hs) in E1, E2. subst. congruence. }
      split; [done|]. cbn. rewrite app_nil_r, Z.sub_diag, !Z.add_0_r. done.
Qed.

Lemma same_reading_refl p : same_reading p p.
Proof. by repeat split. Qed.

Lemma same_reading_trans p q r : same_reading p q → same_reading q r → same_reading p r.
Proof. unfold same_reading. intros H1 H2. intuition congruence. Qed.

Lemma same_reading_ok p q : same_reading p q → progress_ok s p → progress_ok s q.
Proof.
  intros (E1 & E2 & E3 & E4 & E5 & _) []. split; rewrite ?E1, ?E2, ?E3, ?E4, ?E5; done.
Qed.

Lemma with_gap_ok u gs k : progress_ok s u →
  progress_ok s (with_gaps gs (with_through (Some (bt s k)) u)).
Proof.
  intros [P1 P2 P3 P4 P5]. split; cbn; [exact P1|exact P2|exact P3| |exact P5].
  intros t [= <-]. by eexists.
Qed.

Lemma same_reading_next p q : same_reading p q → next_start q s = next_start p s.
Proof. intros (_ & _ & E3 & E4 & _). unfold next_start. by rewrite E3, E4. Qed.

(** ** The verdicts *)

Lemma width_fields_same c n w p :
  same_reading p (with_chunk_ceiling c (with_ceiling_successes n (with_chunk_buckets w p))).
Proof. by repeat split. Qed.

Lemma settle_clean_spec u cur read : recent_ok (sp_recent_rows_per_bucket u) →
  ∃ v w, settle_clean u cur read s = Ok v ∧ same_reading u (v_progress v) ∧
    v_gap v = None ∧ v_trigger v = None ∧ sp_failures (v_progress v) = 0 ∧
    sp_chunk_buckets (v_progress v) = Some w ∧ width_in w.
Proof.
  intros Hr. unfold settle_clean.
  destruct (width_after_step_spec (with_failures 0 u) cur Hr) as (w & c & n & note & -> & Hw & _).
  cbn [res_bind]. eexists. exists w. split; [done|]. split; [by repeat split|].
  do 4 (split; [done|]). exact Hw.
Qed.

(** The gap of a span that failed at the minimum width for the last allowed time. *)
Definition gap_recorded (u : ScopeProgress) (b : ChunkResult) (m e : Z) (g : Gap) : Prop :=
  cr_status b = SS_FAILED ∧ e - m <= ps_min_chunk_buckets s ∧
  ps_max_failures s <= sp_failures u + 1 ∧ Z.of_nat (length (sp_gaps u)) < ps_max_gaps s ∧
  gap_start g = bt s m ∧ gap_end g = bt s e.

Lemma settle_blocked_spec u b cur read m e :
  recent_ok (sp_recent_rows_per_bucket u) → cr_span b = mk_span s m e → m < e →
  ¬ chunk_is_done s b →
  ∃ v, settle_blocked u b cur read s = Ok v ∧
    ((v_gap v = None ∧ same_reading u (v_progress v) ∧
      (v_trigger v = None ∨
       v_trigger v = Some T_TOO_MANY_GAPS ∧ cr_status b = SS_FAILED ∧
       ps_max_gaps s <= Z.of_nat (length (sp_gaps u)))) ∨
     (∃ g, v_gap v = Some g ∧ gap_recorded u b m e g ∧ v_trigger v = None ∧
      same_reading (with_gaps (sp_gaps u ++ [g]) (with_through (Some (bt s (e - 1))) u)) (v_progress v))).
Proof.
  intros Hr Hsp Hme Hnd. unfold settle_blocked.
  rewrite Hsp, span_buckets_mk by (done || lia). cbn [res_bind].
  destruct (cr_status b) eqn:Hst.
  - exfalso. apply Hnd. exists m, e. split; [done|]. unfold chunk_done. by rewrite Hst.
  - eexists. split; [done|]. left. cbn. split; [done|]. split; [by repeat split|by left].
  - eexists. split; [done|]. unfold settle_failed. rewrite Hsp. cbn zeta. cbn [span_start span_end mk_span].
    change (sp_failures (with_chunk_buckets _ _)) with (sp_failures u).
    change (sp_gaps (with_chunk_buckets _ _)) with (sp_gaps u).
    destruct (Z.leb_spec (e - m) (ps_min_chunk_buckets s)); [|left; cbn; split; [done|]; split; [by repeat split|by left]].
    destruct (Z.leb_spec (ps_max_failures s) (sp_failures u + 1));
      [|left; cbn; split; [done|]; split; [by repeat split|by left]].
    destruct (Z.leb_spec (ps_max_gaps s) (Z.of_nat (length (sp_gaps u)))).
    + left. cbn. split; [done|]. split; [by repeat split|]. right. done.
    + right. eexists. split; [done|]. cbn [gap_start gap_end].
      split; [repeat split; done|]. split; [done|]. rewrite dt_minus_bt_1. by repeat split.
  - destruct (read =? 0).
    { eexists. split; [done|]. left. cbn. split; [done|]. split; [apply same_reading_refl|by left]. }
    destruct (width_after_step_spec u cur Hr) as (w & c & n & note & -> & Hw & _).
    cbn [res_bind]. eexists. split; [done|]. left. cbn. split; [done|]. split; [by repeat split|by left].
Qed.

Lemma density_gate_spec v :
  (0 < sp_buckets_read (v_progress v) → 0 <= sp_lower_bound_buckets (v_progress v) < 2 ^ 900 ∧
     sp_buckets_read (v_progress v) < 2 ^ 900) →
  ∃ v', density_gate v s = Ok v' ∧
    (v_progress v' = v_progress v ∨ v_progress v' = with_density_checked true (v_progress v)) ∧
    v_gap v' = v_gap v ∧
    (v_trigger v' = v_trigger v ∨ v_trigger v = None ∧ v_trigger v' = Some T_DENSITY_GATE).
Proof.
  intros Hsmall. unfold density_gate.
  destruct (is_some_b (v_trigger v)) eqn:Ht; cbn [orb]; [exists v; by auto|].
  destruct (sp_density_checked (v_progress v)); cbn [orb]; [exists v; by auto|].
  destruct (Z.leb_spec (sp_buckets_read (v_progress v)) 0); cbn [orb]; [exists v; by auto|].
  destruct (truediv_nonneg_ok (sp_lower_bound_buckets (v_progress v)) (sp_buckets_read (v_progress v)))
    as [q Hq]; [lia..|].
  change (sp_lower_bound_buckets (with_density_checked true (v_progress v))) with
    (sp_lower_bound_buckets (v_progress v)).
  change (sp_buckets_read (with_density_checked true (v_progress v))) with
    (sp_buckets_read (v_progress v)).
  rewrite Hq. cbn [res_bind].
  assert (v_trigger v = None) by (by destruct (v_trigger v)).
  destruct (flt _ q); eexists; (split; [done|]); cbn; rewrite ?H0; auto.
Qed.

Lemma end_gate_spec v b : progress_ok s (v_progress v) →
  ∃ v', end_gate v (bt s b) s = Ok v' ∧ v_progress v' = v_progress v ∧ v_gap v' = v_gap v ∧
    (v_trigger v' = v_trigger v ∨
     v_trigger v = None ∧ (∃ a, next_start (v_progress v) s = Some (bt s a) ∧ b <= a) ∧
     ((v_trigger v' = Some T_FINISHED_COMPLETE ∧ sp_gaps (v_progress v) = [] ∧
         ¬ floor_cut s (v_progress v)) ∨
      (v_trigger v' = Some T_FINISHED_PARTIAL ∧
         (sp_gaps (v_progress v) ≠ [] ∨ floor_cut s (v_progress v))))).
Proof.
  intros Hp. unfold end_gate. destruct (v_trigger v) eqn:Ht; [exists v; rewrite Ht; by auto|].
  destruct (next_start_cases s (v_progress v) Hp) as [[-> _]|(a & F & Hn & _)]; [exists v; rewrite Ht; by auto|].
  rewrite Hn, dt_ge_bt by done. cbn [res_bind].
  destruct (Z.leb_spec b a); [|exists v; rewrite Ht; by auto].
  destruct (finish_verdict_spec s Hs _ Hp) as (t & msg & -> & Hv). cbn [res_bind fst snd].
  eexists. split; [done|]. cbn. split; [done|]. split; [done|]. right. split; [done|].
  split; [by exists a|]. destruct Hv as [(-> & ? & ?)|(-> & ?)]; auto.
Qed.

(** The counters of a step, once the densities are known to be finite. *)
Lemma settle_counters_spec p a searches : small (st_rows a) → small (st_non_silent a) →
  ∃ o, recent_ok o ∧ settle_counters p a searches =
    Ok (with_recent_rows_per_bucket o
        (with_non_silent_buckets (sp_non_silent_buckets p + st_non_silent a)
        (with_rows_seen (sp_rows_seen p + st_rows a)
        (with_lower_bound_buckets (sp_lower_bound_buckets p + st_lb a)
        (with_buckets_read (sp_buckets_read p + st_read a)
        (with_searches (sp_searches p + searches)
        (with_through (st_through a) p))))))).
Proof.
  intros Hr Hn. destruct (recent_density_ok _ _ Hr Hn) as (o & Ho & Hrec). exists o. split; [done|].
  unfold settle_counters. by rewrite Ho.
Qed.

Lemma sum_prefix {A} (f : A → Z) pre post B : Forall (λ r, 0 <= f r) (pre ++ post) →
  sum_Z (f <$> (pre ++ post)) < B → 0 <= sum_Z (f <$> pre) < B.
Proof.
  rewrite Forall_app, fmap_app, sum_Z_app. intros [H1 H2] HB.
  assert (0 <= sum_Z (f <$> pre)) by (apply sum_Z_nonneg, Forall_fmap; done).
  assert (0 <= sum_Z (f <$> post)) by (apply sum_Z_nonneg, Forall_fmap; done). lia.
Qed.

(** The progress after the counters: aligned, its next bucket the one after the prefix. *)
Lemma counted_ok p a pre m u : progress_ok s p → next_start p s = Some (bt s a) →
  tiles s a (cr_span <$> pre) m →
  sp_target_start u = sp_target_start p → sp_started_at u = sp_started_at p →
  sp_floor u = sp_floor p → sp_scan_cursor u = sp_scan_cursor p →
  sp_through u = (if decide (pre = []) then sp_through p else Some (bt s (m - 1))) →
  progress_ok s u ∧ next_start u s = Some (bt s m).
Proof.
  intros Hp Hn Ht E1 E2 E3 E5 E4. split.
  - destruct Hp as [P1 P2 P3 P4 P5]. split; rewrite ?E1, ?E2, ?E3, ?E5; try done.
    rewrite E4. intros t. case_decide; [apply P4|]. intros [= <-]. by eexists.
  - unfold next_start in *. rewrite E3, E4. destruct (sp_floor p) as [f|]; [|done].
    case_decide as Hpre.
    + subst pre. cbn in Ht. subst m. exact Hn.
    + rewrite dt_add_bt_1. do 2 f_equal. lia.
Qed.

(** The verdict on the blocker, or on a clean step. *)
Lemma verdict_spec u cur read m c post :
  recent_ok (sp_recent_rows_per_bucket u) → tiles s m (cr_span <$> post) c →
  (∀ r, head post = Some r → ¬ chunk_is_done s r) →
  ∃ v, (match head post with
        | None => settle_clean u cur read s
        | Some b => settle_blocked u b cur read s
        end) = Ok v ∧
    ((v_gap v = None ∧ same_reading u (v_progress v)) ∨
     ∃ g r post' e, post = r :: post' ∧ cr_span r = mk_span s m e ∧ v_gap v = Some g ∧
       gap_recorded u r m e g ∧
       same_reading (with_gaps (sp_gaps u ++ [g]) (with_through (Some (bt s (e - 1))) u))
         (v_progress v)).
Proof.
  intros Hr Ht Hnd. destruct post as [|r post']; cbn [head hd_error].
  - destruct (settle_clean_spec u cur read Hr) as (v & w & Hv & Hsame & Hg & _). eauto.
  - destruct Ht as (e & Hme & Hsp & _).
    destruct (settle_blocked_spec u r cur read m e Hr Hsp Hme (Hnd r eq_refl))
      as (v & Hv & [(Hg & Hsame & _)|(g & Hg & Hrec & _ & Hsame)]); exists v; (split; [done|]).
    + by left.
    + right. exists g, r, post', e. done.
Qed.
End Settle.

(** ** The whole step *)

(** The counters after the loop, over the previous progress. *)
Definition counted (p : ScopeProgress) (acc : Settled) (searches : Z) (o : option float) : ScopeProgress :=
  with_recent_rows_per_bucket o
    (with_non_silent_buckets (sp_non_silent_buckets p + st_non_silent acc)
    (with_rows_seen (sp_rows_seen p + st_rows acc)
    (with_lower_bound_buckets (sp_lower_bound_buckets p + st_lb acc)
    (with_buckets_read (sp_buckets_read p + st_read acc)
    (with_searches (sp_searches p + searches)
    (with_through (st_through acc) p)))))).

(** The step taken apart: the loop, the counters, the verdict on the blocker (or on a clean
    step), and the two gates, which change nothing but the density flag and the trigger. *)
Record step_parts (s : PlannerSettings) (p : ScopeProgress) (a : Z) (rs : list ChunkResult)
    (c b : Z) (st : StepSettlement) (pre post : list ChunkResult) (m : Z) (acc : Settled)
    (o : option float) (v v1 : Verdict) : Prop := {
  pa_split : rs = pre ++ post;
  pa_pre : tiles s a (cr_span <$> pre) m;
  pa_post : tiles s m (cr_span <$> post) c;
  pa_done : Forall (chunk_is_done s) pre;
  pa_blocker : ∀ r, head post = Some r → ¬ chunk_is_done s r;
  pa_write : ss_write_spans st = cr_span <$> pre;
  pa_advanced : ss_advanced st = true ↔ pre ≠ [];
  pa_through : st_through acc = if decide (pre = []) then sp_through p else Some (bt s (m - 1));
  pa_read : st_read acc = m - a;
  pa_rows : st_rows acc = sum_Z (cr_rows <$> pre);
  pa_lb : st_lb acc = sum_Z (chunk_lb <$> pre) ∧ small (st_lb acc);
  pa_recent : recent_ok o;
  pa_verdict : (match head post with
                | None => settle_clean (counted p acc (settle_searches rs) o) (chunk_width p s) (st_read acc) s
                | Some r => settle_blocked (counted p acc (settle_searches rs) o) r (chunk_width p s) (st_read acc) s
                end) = Ok v;
  pa_density : density_gate v s = Ok v1;
  pa_flag : v_progress v1 = v_progress v ∨ v_progress v1 = with_density_checked true (v_progress v);
  pa_progress : ss_progress st = v_progress v1;
  pa_gap : ss_new_gap st = v_gap v;
  pa_trigger : ss_trigger st = v_trigger v1 ∨
    v_trigger v1 = None ∧ (∃ n, next_start (ss_progress st) s = Some (bt s n) ∧ b <= n) ∧
    ((ss_trigger st = Some T_FINISHED_COMPLETE ∧ sp_gaps (ss_progress st) = [] ∧
        ¬ floor_cut s (ss_progress st)) ∨
     (ss_trigger st = Some T_FINISHED_PARTIAL ∧
        (sp_gaps (ss_progress st) ≠ [] ∨ floor_cut s (ss_progress st))));
  pa_no_trigger : ss_trigger st = None → v_trigger v1 = None ∧
    ∀ n, next_start (ss_progress st) s = Some (bt s n) → n < b
}.

(** What the verdict leaves of the reading: the blocker's gap, or the same reading. *)
Definition verdict_case (s : PlannerSettings) (u : ScopeProgress) (m : Z) (post : list ChunkResult)
    (v : Verdict) : Prop :=
  (v_gap v = None ∧ same_reading u (v_progress v)) ∨
  ∃ g r post' e, post = r :: post' ∧ cr_span r = mk_span s m e ∧ v_gap v = Some g ∧
    gap_recorded s u r m e g ∧
    same_reading (with_gaps (sp_gaps u ++ [g]) (with_through (Some (bt s (e - 1))) u)) (v_progress v).

Section Parts.
Context (s : PlannerSettings) (Hs : settings_facts s) (Hsz : settings_sized s).
Context (p : ScopeProgress) (a : Z) (rs : list ChunkResult) (c b : Z).
Context (Hp : progress_ok s p) (Hcnt : counters_ok p) (Hn : next_start p s = Some (bt s a)).
Context (Hrs : results_ok s a rs c).

Lemma verdict_case_ok u m post v : progress_ok s u → verdict_case s u m post v →
  progress_ok s (v_progress v).
Proof.
  intros Hu [[_ H]|(g & r & post' & e & _ & _ & _ & _ & H)];
    eapply same_reading_ok; [exact H|done|exact H|]. by apply with_gap_ok.
Qed.

Lemma settle_step_parts : ∃ st pre post m acc o v v1,
  settle_step p rs (bt s b) s = Ok st ∧ step_parts s p a rs c b st pre post m acc o v v1 ∧
  let u := counted p acc (settle_searches rs) o in
  progress_ok s u ∧ next_start u s = Some (bt s m) ∧ progress_ok s (ss_progress st) ∧
  verdict_case s u m post v.
Proof.
  destruct Hrs as [Htl [Hro Hro'] [Hsi Hsi'] [Hlb Hlb'] Hsize], Hcnt as [Hc1 Hc2].
  unfold settle_step. rewrite Hn, require_aligned_bt, check_tiles_ok by eauto. cbn [res_bind].
  edestruct (settle_loop_spec s Hs {| st_write := []; st_through := sp_through p; st_read := 0;
      st_rows := 0; st_non_silent := 0; st_lb := 0 |} a rs c Htl)
    as (pre & post & m & acc & Hsplit & Hpre & Hpost & Hdone & Hnd & -> & Hw & Hth & Hr & Hrow & Hns & Hl).
  cbn [st_write st_through st_read st_rows st_non_silent st_lb app res_bind] in *.
  rewrite Hsplit in Hro, Hro', Hsi, Hsi', Hlb, Hlb'.
  pose proof (sum_prefix cr_rows pre post _ Hro Hro') as Br.
  pose proof (sum_prefix cr_non_silent_buckets pre post _ Hsi Hsi') as Bn.
  pose proof (sum_prefix chunk_lb pre post _ Hlb Hlb') as Bl.
  pose proof (tiles_le s _ _ _ Hpre) as Ham. pose proof (tiles_le s _ _ _ Hpost) as Hmc.
  destruct (settle_counters_spec p acc (settle_searches rs)) as (o & Ho & ->);
    [unfold small; lia..|]. cbn [res_bind].
  change (with_recent_rows_per_bucket o _) with (counted p acc (settle_searches rs) o).
  set (u := counted p acc (settle_searches rs) o).
  destruct (counted_ok s p a pre m u Hp Hn Hpre) as [Hu Hnu]; [done..|exact Hth|].
  destruct (verdict_spec s Hs Hsz u (chunk_width p s) (st_read acc) m c post Ho Hpost Hnd)
    as (v & Hv & Hcase). rewrite Hv. cbn [res_bind].
  pose proof (verdict_case_ok u m post v Hu Hcase) as Hpv.
  assert (Hcounts : sp_buckets_read (v_progress v) = sp_buckets_read p + (m - a) ∧
    sp_lower_bound_buckets (v_progress v) = sp_lower_bound_buckets p + sum_Z (chunk_lb <$> pre)).
  { destruct Hcase as [[_ H]|(g & r & post' & e & _ & _ & _ & _ & H)];
      destruct H as (_ & _ & _ & _ & _ & _ & E1 & E2 & _); rewrite E1, E2;
      unfold u, counted; cbn; rewrite Hr, Hl; lia. }
  destruct (density_gate_spec s v) as (v1 & Hv1 & Hflag & Hg1 & _).
  { unfold small in *. lia. }
  rewrite Hv1. cbn [res_bind].
  assert (Hs1 : same_reading (v_progress v) (v_progress v1)) by (by destruct Hflag as [->| ->]; repeat split).
  pose proof (same_reading_ok s _ _ Hs1 Hpv) as Hp1.
  destruct (end_gate_spec s Hs v1 b Hp1) as (v2 & Hend & Hv2 & Hg2 & Ht2).
  rewrite Hend. cbn [res_bind]. rewrite Hw, Hv2, Hg2, Hg1.
  eexists _, pre, post, m, acc, o, v, v1. split; [done|]. split; [|done].
  split; try done; cbn [ss_progress ss_write_spans ss_advanced ss_trigger]; [by destruct pre|..].
  - unfold small. lia.
  - intros Hnone. rewrite Hnone in Ht2.
    destruct Ht2 as [Ht2|(Ht1 & _ & [[? _]|[? _]])]; [|done..]. split; [done|].
    intros n Hnn. unfold end_gate in Hend. rewrite <-Ht2, Hnn, dt_ge_bt in Hend by done.
    cbn [res_bind] in Hend. destruct (Z.leb_spec b n) as [Hle|]; [|done]. exfalso.
    destruct (finish_verdict (v_progress v1) s) as [[]|]; [|discriminate].
    cbn in Hend. injection Hend as <-. discriminate.
Qed.
End Parts.

(** ** Theorems *)

(** What [settle_step] guarantees about its settlement [st] of the results [rs], which tile
    the buckets [a .. c-1]: [pre] is the longest prefix of done chunks, [m] the bucket
    after it. *)
Definition settled (s : PlannerSettings) (p : ScopeProgress) (a : Z) (rs : list ChunkResult)
    (c : Z) (st : StepSettlement) (pre post : list ChunkResult) (m : Z) : Prop :=
  let p' := ss_progress st in
  rs = pre ++ post ∧ tiles s a (cr_span <$> pre) m ∧ tiles s m (cr_span <$> post) c ∧
  Forall (chunk_is_done s) pre ∧ (∀ r, head post = Some r → ¬ chunk_is_done s r) ∧
  ss_write_spans st = cr_span <$> pre ∧ (ss_advanced st = true ↔ pre ≠ []) ∧
  progress_ok s p' ∧
  sp_target_start p' = sp_target_start p ∧ sp_started_at p' = sp_started_at p ∧
  sp_floor p' = sp_floor p ∧
  sp_buckets_read p' = sp_buckets_read p + (m - a) ∧
  sp_rows_seen p' = sp_rows_seen p + sum_Z (cr_rows <$> pre) ∧
  sp_lower_bound_buckets p' = sp_lower_bound_buckets p + sum_Z (chunk_lb <$> pre) ∧
  sp_searches p' = sp_searches p + settle_searches rs ∧
  match ss_new_gap st with
  | None => next_start p' s = Some (bt s m) ∧ sp_gaps p' = sp_gaps p
  | Some g => ∃ r post' e, post = r :: post' ∧ cr_span r = mk_span s m e ∧
      gap_recorded s p r m e g ∧ next_start p' s = Some (bt s e) ∧ sp_gaps p' = sp_gaps p ++ [g]
  end.

(** Settling a step is total, and it moves [through] only past whole, completed
    chunks. For results that tile from the next bucket, [settle_step] returns; it writes
    exactly the spans of the longest prefix of done chunks and the next bucket to read is
    the one after that prefix, except when the blocking chunk failed for the last allowed
    time at the minimum width: then that chunk, and no other, becomes a gap and is passed.
    The counters grow by exactly what the prefix read, and the searches by all that ran.
    The floor never moves. *)
Theorem settle_step_prefix s p a rs c b :
  valid_settings s → settings_sized s → progress_ok s p → counters_ok p →
  next_start p s = Some (bt s a) → results_ok s a rs c →
  ∃ st pre post m, settle_step p rs (bt s b) s = Ok st ∧ settled s p a rs c st pre post m.
Proof.
  intros Hv Hsz Hp Hc Hn Hrs. pose proof (valid_settings_facts s Hv) as Hs.
  destruct (settle_step_parts s Hs Hsz p a rs c b Hp Hc Hn Hrs)
    as (st & pre & post & m & acc & o & v & v1 & Hst & [] & Hu & Hnu & Hpst & Hcase).
  exists st, pre, post, m. split; [done|]. unfold settled.
  assert (Hs1 : same_reading (v_progress v) (ss_progress st)).
  { rewrite pa_progress0. by destruct pa_flag0 as [->| ->]; repeat split. }
  rewrite pa_gap0. do 8 (split; [done|]).
  destruct Hcase as [[-> Hsame]|(g & r & post' & e & Hpost & Hsp & -> & Hrec & Hsame)].
  - pose proof (same_reading_trans _ _ _ Hsame Hs1) as H.
    rewrite (same_reading_next s _ _ H).
    destruct H as (? & ? & ? & ? & ? & ? & ? & ? & ? & ? & ?). unfold counted in *. cbn in *.
    destruct pa_lb0. do 7 (split; [congruence|]). split; [exact Hnu|done].
  - pose proof (same_reading_trans _ _ _ Hsame Hs1) as H.
    rewrite (same_reading_next s _ _ H).
    destruct H as (? & ? & ? & ? & ? & ? & ? & ? & ? & ? & ?). unfold counted in *. cbn in *.
    destruct pa_lb0. do 7 (split; [congruence|]).
    exists r, post', e. do 3 (split; [done|]). split; [|done].
    unfold next_start in *. cbn in *. destruct (sp_floor p); [|done].
    rewrite dt_add_bt_1. do 2 f_equal. lia.
Qed.

(** * Whole readings

    The planner is driven tick by tick: a plan, the searches it asks for, a settlement.
    [tick] is one such round and [reading] a whole run of them. The invariant of a reading
    is that what was written and what was given up as a gap cover the buckets from the
    floor to the next bucket, in order, each bucket once; and a reading whose ticks run
    their first search cannot go on for ever. *)


(** ** Vocabulary *)

(** The results of a plan: one for each chunk, in order, with counts of moderate size. *)
Record tick_results (s : PlannerSettings) (a : Z) (pl : StepPlan) (rs : list ChunkResult) (c : Z) : Prop := {
  tr_spans : cr_span <$> rs = spl_chunks pl;
  tr_ok : results_ok s a rs c
}.

(** One round of the scheduler on a reading that may go on: a READ plan, its results and
    their settlement, against the boundary [b]. *)
Inductive tick (s : PlannerSettings) (b : Z) (p : ScopeProgress) (rs : list ChunkResult)
    (st : StepSettlement) : Prop :=
| tick_intro now budget pl a c :
    aware now → plan_step p now (bt s b) budget s true false = Ok pl →
    spl_action pl = SA_READ → next_start p s = Some (bt s a) →
    tick_results s a pl rs c → counters_ok p →
    settle_step p rs (bt s b) s = Ok st → tick s b p rs st.

(** A reading: from the floor, tick after tick. [segs] is its history: the spans written
    (marked true) and the spans given up as gaps (marked false). *)
Inductive reading (s : PlannerSettings) (p0 : ScopeProgress) :
    list Span → ScopeProgress → option HistoryTrigger → Prop :=
| reading_start : reading s p0 [] p0 None
| reading_tick b p ws rs st :
    reading s p0 ws p None → tick s b p rs st →
    reading s p0 (ws ++ ss_write_spans st) (ss_progress st) (ss_trigger st).

Definition gap_span (g : Gap) : Span := {| span_start := gap_start g; span_end := gap_end g |}.

Definition written_of (segs : list (bool * Span)) : list Span :=
  snd <$> filter (λ x, x.1 = true) segs.

Definition gaps_of (segs : list (bool * Span)) : list Span :=
  snd <$> filter (λ x, x.1 = false) segs.

(** A progress at which a reading starts: a floor was found, nothing is read yet. *)
Record fresh (s : PlannerSettings) (p : ScopeProgress) (F : Z) : Prop := {
  fr_ok : progress_ok s p;
  fr_floor : sp_floor p = Some (bt s F);
  fr_through : sp_through p = None;
  fr_gaps : sp_gaps p = [];
  fr_read : sp_buckets_read p = 0;
  fr_failures : sp_failures p = 0
}.

Definition span_len (s : PlannerSettings) (sp : Span) : Z :=
  (dt_us (span_end sp) - dt_us (span_start sp)) / ps_bucket s.

(** What every reading keeps: its history covers the buckets from the floor [F] to the
    next bucket [e], in order and each bucket once. *)
Record covered (s : PlannerSettings) (F : Z) (ws : list Span) (p : ScopeProgress)
    (segs : list (bool * Span)) (e : Z) : Prop := {
  cv_ok : progress_ok s p;
  cv_floor : sp_floor p = Some (bt s F);
  cv_next : next_start p s = Some (bt s e);
  cv_tiles : tiles s F (snd <$> segs) e;
  cv_written : written_of segs = ws;
  cv_gaps : gaps_of segs = gap_span <$> sp_gaps p;
  cv_read : sp_buckets_read p = sum_Z (span_len s <$> ws)
}.

(** ** One settlement, seen from the reading *)

Lemma written_of_app l1 l2 : written_of (l1 ++ l2) = written_of l1 ++ written_of l2.
Proof. unfold written_of. by rewrite filter_app, fmap_app. Qed.

Lemma gaps_of_app l1 l2 : gaps_of (l1 ++ l2) = gaps_of l1 ++ gaps_of l2.
Proof. unfold gaps_of. by rewrite filter_app, fmap_app. Qed.

Lemma written_of_true l : written_of (pair true <$> l) = l ∧ gaps_of (pair true <$> l) = [].
Proof.
  unfold written_of, gaps_of. induction l as [|x l [IH1 IH2]]; [done|].
  rewrite fmap_cons, (filter_cons_True (λ x : bool * Span, x.1 = true)) by done.
  rewrite (filter_cons_False (λ x : bool * Span, x.1 = false)) by done.
  cbn. unfold fmap in *. by rewrite IH1.
Qed.

Lemma snd_pair_true (l : list Span) : snd <$> (pair true <$> l) = l.
Proof. induction l; cbn; [done|]. by f_equal. Qed.

Lemma all_written segs : gaps_of segs = [] → snd <$> segs = written_of segs.
Proof.
  unfold gaps_of, written_of. induction segs as [|[[] sp] l IH]; [done| |].
  - rewrite (filter_cons_True (λ x : bool * Span, x.1 = true)) by done.
    rewrite (filter_cons_False (λ x : bool * Span, x.1 = false)) by done.
    cbn. intros H. f_equal. by apply IH.
  - rewrite (filter_cons_True (λ x : bool * Span, x.1 = false)) by done. done.
Qed.

Section Run.
Context (s : PlannerSettings) (Hs : settings_facts s).

Lemma span_len_mk a b : span_len s (mk_span s a b) = b - a.
Proof.
  unfold span_len, mk_span, bt, utc. cbn [dt_us span_start span_end].
  rewrite <-Z.mul_sub_distr_r, Z.div_mul; [done|]. pose proof (bucket_pos s Hs). lia.
Qed.

Lemma sum_tiles a l b : tiles s a l b → sum_Z (span_len s <$> l) = b - a.
Proof.
  revert a. induction l as [|sp l IH]; cbn; intros a; [lia|].
  intros (m & _ & -> & Ht). rewrite span_len_mk. specialize (IH _ Ht).
  unfold sum_Z in IH. lia.
Qed.

(** A settlement extends the history by the prefix and, at most, one gap. *)
Lemma covered_settle (Hsz : settings_sized s) F ws p segs a rs c b st :
  covered s F ws p segs a → counters_ok p → results_ok s a rs c →
  settle_step p rs (bt s b) s = Ok st →
  ∃ segs' e, covered s F (ws ++ ss_write_spans st) (ss_progress st) segs' e.
Proof.
  intros [Hok Hfl Hn Ht Hw Hg Hrd] Hcnt Hrs Hst.
  destruct (settle_step_parts s Hs Hsz p a rs c b Hok Hcnt Hn Hrs)
    as (st' & pre & post & m & acc & o & v & v1 & Hst' & Hparts & Hu & Hnu & Hpst & Hcase).
  rewrite Hst in Hst'. injection Hst' as <-.
  destruct Hparts. set (u := counted _ _ _ _) in *.
  assert (Hs1 : same_reading (v_progress v) (ss_progress st)).
  { rewrite pa_progress0. by destruct pa_flag0 as [->| ->]; repeat split. }
  destruct (written_of_true (cr_span <$> pre)) as [Hwt Hgt].
  assert (Hlen : sum_Z (span_len s <$> (cr_span <$> pre)) = m - a) by (by apply sum_tiles).
  destruct Hcase as [[_ Hsame]|(g & r & post' & e & Hpost & Hsp & _ & Hrec & Hsame)].
  - exists (segs ++ (pair true <$> (cr_span <$> pre))), m.
    pose proof (same_reading_trans _ _ _ Hsame Hs1) as H.
    destruct H as (E1 & E2 & E3 & E4 & E5 & E6 & E7 & _).
    split; [done| | | | | |].
    + by rewrite E3.
    + rewrite <-Hnu. unfold next_start. by rewrite E3, E4.
    + rewrite fmap_app, snd_pair_true. apply tiles_app. eauto.
    + by rewrite written_of_app, Hw, Hwt, pa_write0.
    + rewrite gaps_of_app, Hg, Hgt, app_nil_r, E6. done.
    + rewrite E7, fmap_app, sum_Z_app, pa_write0, Hlen, <-Hrd. unfold u. cbn. rewrite pa_read0. lia.
  - exists (segs ++ (pair true <$> (cr_span <$> pre)) ++ [(false, mk_span s m e)]), e.
    pose proof (same_reading_trans _ _ _ Hsame Hs1) as H.
    destruct H as (E1 & E2 & E3 & E4 & E5 & E6 & E7 & _).
    rewrite Hpost in pa_post0. destruct pa_post0 as (e' & Hme & Hsp' & _).
    assert (m < e).
    { rewrite Hsp in Hsp'. apply (f_equal span_end) in Hsp'. cbn in Hsp'.
      apply (bt_inj s Hs) in Hsp'. by subst. }
    split; [done| | | | | |].
    + by rewrite E3.
    + unfold next_start. rewrite E3, E4. cbn. rewrite Hfl, dt_add_bt_1. do 2 f_equal. lia.
    + rewrite !fmap_app, snd_pair_true. apply tiles_app. exists a. split; [done|].
      apply tiles_app. exists m. split; [done|]. exists e. by split; [|split].
    + rewrite !written_of_app, Hw, Hwt, pa_write0. by rewrite app_assoc, app_nil_r.
    + rewrite !gaps_of_app, Hg, Hgt, E6. cbn. rewrite fmap_app. f_equal. cbn.
      destruct Hrec as (_ & _ & _ & _ & Eg1 & Eg2). unfold gap_span, mk_span. by rewrite Eg1, Eg2.
    + rewrite E7, fmap_app, sum_Z_app, pa_write0, Hlen, <-Hrd. unfold u. cbn. rewrite pa_read0. lia.
Qed.

Lemma fresh_covered p F : fresh s p F → covered s F [] p [] F.
Proof.
  intros []. split; try done.
  - unfold next_start. by rewrite fr_floor0, fr_through0.
  - by rewrite fr_gaps0.
Qed.

Lemma reading_covered (Hsz : settings_sized s) p0 F ws p t :
  fresh s p0 F → reading s p0 ws p t → ∃ segs e, covered s F ws p segs e.
Proof.
  intros Hf. induction 1 as [|b p ws rs st _ IH Ht].
  - do 2 eexists. by apply fresh_covered.
  - destruct IH as (segs & e & Hc). destruct Ht as [now budget pl a c _ _ _ Hn [_ Hrs] Hcnt Hst].
    assert (e = a) as ->.
    { pose proof (cv_next _ _ _ _ _ _ Hc) as Hn'. rewrite Hn in Hn'.
      apply (inj Some), (bt_inj s Hs) in Hn'. done. }
    by eapply covered_settle.
Qed.
End Run.

(** ** Progress of a live tick *)

(** The budget let the first search of the step run. *)
Definition first_ran (rs : list ChunkResult) : Prop :=
  ∀ r, head rs = Some r → cr_status r ≠ SS_NOT_RUN.

Definition failures_in (s : PlannerSettings) (p : ScopeProgress) : Prop :=
  0 <= sp_failures p < ps_max_failures s.

(** [n] ticks in a row against the boundary [b], none of which ended the reading. *)
Inductive ticks (s : PlannerSettings) (b : Z) : nat → ScopeProgress → ScopeProgress → Prop :=
| ticks_O p : ticks s b O p p
| ticks_S n p rs st q :
    tick s b p rs st → first_ran rs → ss_trigger st = None →
    ticks s b n (ss_progress st) q → ticks s b (S n) p q.

(** What is left to do: buckets, then halvings of the width, then failures. *)
Definition effort (s : PlannerSettings) (b a : Z) (p : ScopeProgress) : Z :=
  (Z.max 0 (b - a) * (ps_max_span_buckets s + 1) + chunk_width p s) * (ps_max_failures s + 1) +
  (ps_max_failures s - sp_failures p).

Section Live.
Context (s : PlannerSettings) (Hs : settings_facts s) (Hsz : settings_sized s).
Context (Hmin : ps_min_chunk_buckets s = 1) (Hmax : 1 <= ps_max_span_buckets s).

Lemma width_live p : 1 <= chunk_width p s <= ps_max_span_buckets s.
Proof. pose proof (chunk_width_bounds s p Hmax). lia. Qed.

Lemma chunk_width_stored p w : sp_chunk_buckets p = Some w → 1 <= w → chunk_width p s <= w.
Proof.
  intros Hw H1. unfold chunk_width. rewrite Hw. cbn [or_int].
  rewrite (proj2 (Z.eqb_neq w 0)) by lia. destruct (sp_chunk_ceiling p); lia.
Qed.

(** A blocker that ran and left no gap either narrows the width below its own length or
    is one bucket that failed once more. *)
Lemma settle_blocked_live u r cur read m e v :
  recent_ok (sp_recent_rows_per_bucket u) → cr_span r = mk_span s m e → m < e →
  ¬ chunk_is_done s r → failures_in s u →
  settle_blocked u r cur read s = Ok v → v_trigger v = None →
  failures_in s (v_progress v) ∧
  (v_gap v ≠ None ∨ cr_status r = SS_NOT_RUN ∨ chunk_width (v_progress v) s < e - m ∨
   e - m = 1 ∧ chunk_width (v_progress v) s <= 1 ∧ sp_failures (v_progress v) = sp_failures u + 1).
Proof.
  intros Hr Hsp Hme Hnd Hf Hv Ht. unfold failures_in in *. unfold settle_blocked in Hv.
  rewrite Hsp, span_buckets_mk in Hv by (done || lia). cbn [res_bind] in Hv.
  assert (Hnar : 1 < e - m → 1 <= Z.max 1 ((e - m) / 2) < e - m).
  { intros ?. pose proof (Z.div_lt (e - m) 2). lia. }
  destruct (cr_status r) eqn:Hst.
  - exfalso. apply Hnd. exists m, e. split; [done|]. unfold chunk_done. by rewrite Hst.
  - apply (inj (@Ok _)) in Hv. subst v. rewrite Hmin in *. cbn in *. split; [done|]. right; right; left.
    destruct (Z.eq_dec (e - m) 1) as [E|].
    + exfalso. apply Hnd. exists m, e. split; [done|]. unfold chunk_done. by rewrite Hst, E.
    + eapply Z.le_lt_trans; [eapply chunk_width_stored; [reflexivity|lia]|lia].
  - apply (inj (@Ok _)) in Hv. subst v. unfold settle_failed in *. rewrite Hmin in *. cbn zeta in *.
    cbn [sp_failures with_chunk_buckets with_chunk_ceiling with_ceiling_successes] in *.
    destruct (Z.leb_spec (e - m) 1) as [H1|H1].
    + destruct (Z.leb_spec (ps_max_failures s) (sp_failures u + 1)).
      * cbn [sp_gaps with_chunk_buckets with_chunk_ceiling with_ceiling_successes] in *.
        destruct (Z.leb_spec (ps_max_gaps s) (Z.of_nat (length (sp_gaps u)))); [done|].
        cbn in *. split; [lia|by left].
      * cbn [v_progress v_gap]. split; [cbn; lia|]. do 3 right. split; [lia|]. split; [|done].
        pose proof (Z.div_le_upper_bound (e - m) 2 1).
        eapply Z.le_trans; [eapply chunk_width_stored; [reflexivity|]|]; lia.
    + cbn [v_progress v_gap v_trigger] in *. split; [cbn; lia|]. do 2 right; left.
      eapply Z.le_lt_trans; [eapply chunk_width_stored; [reflexivity|lia]|lia].
  - split; [|by right; left]. destruct (read =? 0); [by apply (inj (@Ok _)) in Hv as <-|].
    destruct (width_after_step_spec s Hs Hsz u cur Hr) as (w & c & n & note & E & _).
    rewrite E in Hv. cbn [res_bind] in Hv. by apply (inj (@Ok _)) in Hv as <-.
Qed.

Lemma same_width_failures v v1 : v_progress v1 = v_progress v ∨
    v_progress v1 = with_density_checked true (v_progress v) →
  chunk_width (v_progress v1) s = chunk_width (v_progress v) s ∧
  sp_failures (v_progress v1) = sp_failures (v_progress v).
Proof. by intros [->| ->]. Qed.

(** The density gate never removes a trigger. *)
Lemma density_gate_none v v1 : density_gate v s = Ok v1 → v_trigger v1 = None → v_trigger v = None.
Proof.
  unfold density_gate. destruct (v_trigger v) as [t|] eqn:E; [|done].
  cbn [is_some_b orb]. intros [= <-]. congruence.
Qed.

(** A live tick leaves less to do. *)
Lemma tick_effort b p a rs st :
  tick s b p rs st → first_ran rs → ss_trigger st = None →
  progress_ok s p → failures_in s p → next_start p s = Some (bt s a) →
  ∃ a', next_start (ss_progress st) s = Some (bt s a') ∧ progress_ok s (ss_progress st) ∧
    failures_in s (ss_progress st) ∧ effort s b a' (ss_progress st) < effort s b a p.
Proof.
  intros [now budget pl a0 c Hnow Hpl Hact Hn [Hspans Hrs] Hcnt Hst] Hran Htrig Hp Hf Hna.
  assert (a0 = a) as -> by (rewrite Hn in Hna; by apply (inj Some), (bt_inj s Hs) in Hna).
  destruct (plan_step_plan s p now b budget true false Hs Hmax Hp Hnow) as (pl' & Hpl' & Hok).
  rewrite Hpl in Hpl'. injection Hpl' as <-. unfold plan_ok in Hok. rewrite Hact in Hok.
  destruct Hok as (a0 & n & Hn' & Hnb & _ & _ & Hpt & Hwid & _).
  assert (a0 = a) as -> by (rewrite Hn in Hn'; by apply (inj Some), (bt_inj s Hs) in Hn').
  assert (c = a + n) as ->.
  { pose proof (ro_tiles _ _ _ _ Hrs) as Ht. rewrite Hspans in Ht. by eapply tiles_end_unique. }
  destruct (settle_step_parts s Hs Hsz p a rs (a + n) b Hp Hcnt Hn Hrs)
    as (st' & pre & post & m & acc & o & v & v1 & Hst' & Hparts & Hu & Hnu & Hpst & Hcase).
  rewrite Hst in Hst'. injection Hst' as <-.
  destruct Hparts. set (u := counted _ _ _ _) in *.
  destruct (pa_no_trigger0 Htrig) as [Ht1 Hend].
  pose proof (density_gate_none _ _ pa_density0 Ht1) as Htv.
  destruct (same_width_failures v v1 pa_flag0) as [Hw Hfl]. rewrite <-pa_progress0 in Hw, Hfl.
  assert (Hs1 : same_reading (v_progress v) (ss_progress st)).
  { rewrite pa_progress0. by destruct pa_flag0 as [->| ->]; repeat split. }
  pose proof (width_live p) as Hw0. pose proof (width_live (ss_progress st)) as Hw1.
  pose proof (tiles_le s _ _ _ pa_pre0) as Ham. pose proof (tiles_le s _ _ _ pa_post0) as Hmc.
  assert (Huf : failures_in s u) by done.
  (* where the next bucket is *)
  assert (Hnext : ∃ a', next_start (ss_progress st) s = Some (bt s a') ∧ a <= a' ∧
    (pre ≠ [] ∨ v_gap v ≠ None → a < a')).
  { destruct Hcase as [[Hg Hsm]|(g & r & post' & e & Hpost & Hsp & Hg & _ & Hsm)];
      rewrite (same_reading_next s _ _ (same_reading_trans _ _ _ Hsm Hs1)).
    - exists m. split; [done|]. split; [done|]. intros [Hpre|?]; [|done].
      destruct pre; [done|]. destruct pa_pre0 as (k & ? & _ & Hk%tiles_le). lia.
    - rewrite Hpost in pa_post0. destruct pa_post0 as (e' & Hme & Hsp' & He).
      assert (e' = e) as ->.
      { rewrite Hsp in Hsp'. apply (f_equal span_end), (bt_inj s Hs) in Hsp'. done. }
      exists e. split; [|split; lia]. unfold next_start in *. cbn in *.
      destruct (sp_floor p); [|done]. rewrite dt_add_bt_1. do 2 f_equal. lia. }
  destruct Hnext as (a' & Hna' & Haa' & Hadv). exists a'. split; [done|]. split; [done|].
  specialize (Hend a' Hna').
  (* the failures and, without an advance, the width *)
  assert (Hlive : failures_in s (ss_progress st) ∧
    (a < a' ∨ chunk_width (ss_progress st) s < chunk_width p s ∨
     chunk_width (ss_progress st) s <= chunk_width p s ∧
     sp_failures (ss_progress st) = sp_failures p + 1)).
  { unfold failures_in in *. rewrite Hw, Hfl. destruct post as [|r post'] eqn:Hpost; cbn [head hd_error] in *.
    - destruct (settle_clean_spec s Hs Hsz u (chunk_width p s) (st_read acc) pa_recent0)
        as (v' & w & Hv' & _ & _ & _ & Hf0 & _).
      rewrite pa_verdict0 in Hv'. injection Hv' as <-. rewrite Hf0.
      split; [pose proof (sf_failures s Hs); lia|]. left. apply Hadv. left. intros ->.
      cbn in pa_pre0, pa_post0. lia.
    - destruct pa_post0 as (e & Hme & Hsp & _).
      destruct (settle_blocked_live u r _ _ m e v pa_recent0 Hsp Hme (pa_blocker0 _ eq_refl) Huf pa_verdict0 Htv)
        as [Hf' Hlv].
      split; [done|]. destruct (decide (pre = [])) as [->|Hne]; [|left; apply Hadv; by left].
      cbn in pa_pre0. subst m. rewrite pa_split0 in Hran.
      assert (Hrw : e - a <= chunk_width p s).
      { assert (Hin : cr_span r ∈ spl_chunks pl).
        { rewrite <-Hspans, pa_split0. cbn. apply list_elem_of_here. }
        rewrite Forall_forall in Hwid. destruct (Hwid _ Hin) as (x & y & E & Hxy).
        rewrite Hsp in E. pose proof (f_equal span_start E) as E1.
        pose proof (f_equal span_end E) as E2. apply (bt_inj s Hs) in E1, E2. lia. }
      destruct Hlv as [Hg|[?|[?|(? & ? & Hfv)]]].
      + left. apply Hadv. by right.
      + exfalso. by apply (Hran r).
      + right; left. lia.
      + right; right. rewrite Hfv. split; [lia|done]. }
  destruct Hlive as [Hfin Hdec]. split; [done|]. unfold effort, failures_in in *.
  rewrite !Z.max_r by lia. clear - Hdec Hfin Hf Hw0 Hw1 Haa' Hend.
  set (W := ps_max_span_buckets s) in *. set (M := ps_max_failures s) in *.
  set (w := chunk_width p s) in *. set (w' := chunk_width (ss_progress st) s) in *.
  assert ((b - a') * (W + 1) + w' + 1 <= (b - a) * (W + 1) + w ∨
          (b - a') * (W + 1) + w' <= (b - a) * (W + 1) + w ∧
          sp_failures (ss_progress st) = sp_failures p + 1) as [?|[? ?]]
    by (destruct Hdec as [Hlt|[Hlt|[Hle Hfe]]]; [left; nia|left; nia|right; split; [nia|done]]).
  - nia.
  - nia.
Qed.

Lemma ticks_effort b n p q a : ticks s b n p q →
  progress_ok s p → failures_in s p → next_start p s = Some (bt s a) →
  Z.of_nat n <= effort s b a p.
Proof.
  intros Ht. revert a. induction Ht as [p|n p rs st q Ht Hran Htr _ IH]; intros a Hp Hf Hn.
  - unfold effort, failures_in in *. pose proof (width_live p). nia.
  - destruct (tick_effort b p a rs st Ht Hran Htr Hp Hf Hn) as (a' & Hn' & Hp' & Hf' & Hlt).
    specialize (IH a' Hp' Hf' Hn'). lia.
Qed.
End Live.

(** ** Why a settlement ends the reading *)

(** The trigger of a settlement and its condition: [p'] is the settled progress. *)
Definition settle_reason (s : PlannerSettings) (b : Z) (rs : list ChunkResult)
    (p' : ScopeProgress) (t : HistoryTrigger) : Prop :=
  match t with
  | T_TOO_MANY_GAPS =>
      ps_max_gaps s <= Z.of_nat (length (sp_gaps p')) ∧ ∃ r, r ∈ rs ∧ cr_status r = SS_FAILED
  | T_DENSITY_GATE =>
      ∃ share, truediv (sp_lower_bound_buckets p') (sp_buckets_read p') = Ok share ∧
        flt (ps_max_lower_bound_share s) share = true
  | T_FINISHED_COMPLETE =>
      sp_gaps p' = [] ∧ ¬ floor_cut s p' ∧ ∃ e, next_start p' s = Some (bt s e) ∧ b <= e
  | T_FINISHED_PARTIAL =>
      (sp_gaps p' ≠ [] ∨ floor_cut s p') ∧ ∃ e, next_start p' s = Some (bt s e) ∧ b <= e
  | _ => False
  end.

Lemma density_gate_trigger v v1 s t : density_gate v s = Ok v1 → v_trigger v1 = Some t →
  (v_trigger v = Some t ∧ v1 = v) ∨
  (t = T_DENSITY_GATE ∧ ∃ share,
     truediv (sp_lower_bound_buckets (v_progress v1)) (sp_buckets_read (v_progress v1)) = Ok share ∧
     flt (ps_max_lower_bound_share s) share = true).
Proof.
  unfold density_gate. destruct (is_some_b _ || _ || _) eqn:Hc.
  - intros [= <-] Ht. by left.
  - intros H. apply bind_ok in H as (share & Hsh & H). revert H.
    destruct (flt _ share) eqn:Hflt; intros [= <-] Ht; cbn in *; [|done].
    injection Ht as <-. right. split; [done|]. by exists share.
Qed.

Section Reasons.
Context (s : PlannerSettings) (Hs : settings_facts s) (Hsz : settings_sized s).
Context (p : ScopeProgress) (a : Z) (rs : list ChunkResult) (c b : Z).
Context (Hp : progress_ok s p) (Hcnt : counters_ok p) (Hn : next_start p s = Some (bt s a)).
Context (Hrs : results_ok s a rs c).

Lemma settle_reason_ok st t : settle_step p rs (bt s b) s = Ok st → ss_trigger st = Some t →
  settle_reason s b rs (ss_progress st) t.
Proof.
  intros Hst Ht.
  destruct (settle_step_parts s Hs Hsz p a rs c b Hp Hcnt Hn Hrs)
    as (st' & pre & post & m & acc & o & v & v1 & Hst' & Hparts & Hu & Hnu & Hpst & Hcase).
  rewrite Hst in Hst'. injection Hst' as <-. destruct Hparts. set (u := counted _ _ _ _) in *.
  destruct pa_trigger0 as [Heq|(_ & Hnx & [(Heq & Hg & Hc)|(Heq & Hg)])];
    rewrite Heq in Ht; [|injection Ht as <-; cbn; by split; [|split]|injection Ht as <-; by split].
  destruct (density_gate_trigger _ _ _ _ pa_density0 Ht) as [[Hv Hv1]|[-> Hsh]];
    [|by rewrite pa_progress0].
  rewrite pa_progress0, Hv1. destruct post as [|r post']; cbn [head hd_error] in *.
  - destruct (settle_clean_spec s Hs Hsz u (chunk_width p s) (st_read acc) pa_recent0)
      as (v' & w & Hv' & _ & _ & Htv & _).
    rewrite pa_verdict0 in Hv'. injection Hv' as <-. by rewrite Hv in Htv.
  - destruct pa_post0 as (e & Hme & Hsp & _).
    destruct (settle_blocked_spec s Hs Hsz u r (chunk_width p s) (st_read acc) m e pa_recent0 Hsp Hme
                (pa_blocker0 _ eq_refl)) as (v' & Hv' & [(_ & Hsame & [Htv|(Htv & Hf & Hg)])|(g & _ & _ & Htv & _)]);
      rewrite pa_verdict0 in Hv'; injection Hv' as <-; rewrite Hv in Htv; [done| |done].
    injection Htv as ->. cbn. destruct Hsame as (_ & _ & _ & _ & _ & -> & _). split; [done|].
    exists r. split; [|done]. rewrite pa_split0. apply elem_of_app. right. by left.
Qed.

(** The width after a settlement of chunks no wider than the current width. *)
Lemma settle_width_ok st : 1 <= ps_max_span_buckets s →
  Forall (width_le s (chunk_width p s)) (cr_span <$> rs) →
  settle_step p rs (bt s b) s = Ok st →
  width_in s (chunk_width (ss_progress st) s) ∧
  (sp_chunk_buckets p ≠ None →
     chunk_width (ss_progress st) s <= Z.max (ps_min_chunk_buckets s) (2 * chunk_width p s)).
Proof.
  intros Hm Hw Hst.
  destruct (settle_step_parts s Hs Hsz p a rs c b Hp Hcnt Hn Hrs)
    as (st' & pre & post & m & acc & o & v & v1 & Hst' & Hparts & Hu & Hnu & Hpst & Hcase).
  rewrite Hst in Hst'. injection Hst' as <-. destruct Hparts. set (u := counted _ _ _ _) in *.
  split; [apply chunk_width_bounds; done|]. intros Hnn.
  destruct (same_width_failures s v v1 pa_flag0) as [Hwv _]. rewrite pa_progress0, Hwv.
  assert (Hst1 : ∀ q w, sp_chunk_buckets q = Some w → 1 <= w →
    chunk_width q s <= Z.max (ps_min_chunk_buckets s) w).
  { intros q w Hq H1. unfold chunk_width. rewrite Hq. cbn [or_int].
    rewrite (proj2 (Z.eqb_neq w 0)) by lia. destruct (sp_chunk_ceiling q); lia. }
  pose proof (sf_min s Hs). pose proof (chunk_width_bounds s p Hm).
  destruct post as [|r post']; cbn [head hd_error] in *.
  - unfold settle_clean in pa_verdict0.
    destruct (width_after_step_spec s Hs Hsz (with_failures 0 u) (chunk_width p s) pa_recent0)
      as (w & ce & n & note & E & Hwin & Hg). rewrite E in pa_verdict0. cbn [res_bind] in pa_verdict0.
    apply (inj (@Ok _)) in pa_verdict0 as <-. destruct Hg as [Hg|Hg]; [done|].
    etrans; [eapply Hst1; [reflexivity|unfold width_in in *; lia]|lia].
  - destruct pa_post0 as (e & Hme & Hsp & _).
    assert (Hrw : e - m <= chunk_width p s).
    { rewrite pa_split0, fmap_app, Forall_app in Hw. destruct Hw as [_ Hw]. cbn in Hw.
      apply Forall_cons in Hw as [(x & y & E & Hxy) _]. rewrite Hsp in E.
      pose proof (f_equal span_start E) as E1. pose proof (f_equal span_end E) as E2.
      apply (bt_inj s Hs) in E1, E2. lia. }
    pose proof (Z.div_le_upper_bound (e - m) 2 (e - m) ltac:(lia) ltac:(lia)).
    unfold settle_blocked in pa_verdict0.
    rewrite Hsp, span_buckets_mk in pa_verdict0 by (done || lia). cbn [res_bind] in pa_verdict0.
    destruct (cr_status r) eqn:Hstat.
    + exfalso. apply (pa_blocker0 r eq_refl). exists m, e. split; [done|]. unfold chunk_done. by rewrite Hstat.
    + apply (inj (@Ok _)) in pa_verdict0 as <-. cbn [v_progress].
      etrans; [eapply Hst1; [reflexivity|lia]|lia].
    + apply (inj (@Ok _)) in pa_verdict0 as <-. unfold settle_failed. cbn zeta.
      repeat case_match; cbn [v_progress];
        (etrans; [eapply Hst1; [reflexivity|lia]|lia]).
    + destruct (st_read acc =? 0).
      * apply (inj (@Ok _)) in pa_verdict0 as <-. cbn [v_progress].
        change (chunk_width u s) with (chunk_width p s). lia.
      * destruct (width_after_step_spec s Hs Hsz u (chunk_width p s) pa_recent0)
          as (w & ce & n & note & E & Hwin & Hg). rewrite E in pa_verdict0. cbn [res_bind] in pa_verdict0.
        apply (inj (@Ok _)) in pa_verdict0 as <-. destruct Hg as [Hg|Hg]; [done|].
        etrans; [eapply Hst1; [reflexivity|unfold width_in in *; lia]|lia].
Qed.
End Reasons.

(** ** Theorems *)



(** Every trigger a settlement fires is justified by the settled progress: TOO_MANY_GAPS
    needs a full gap list and a failed search, DENSITY_GATE a share of lower-bound buckets
    above the limit, FINISHED_COMPLETE the boundary reached with no gap and no cut floor,
    FINISHED_PARTIAL the boundary reached with one of them; no other trigger is fired. *)
Theorem settle_trigger_justified s p a rs c b st t :
  valid_settings s → settings_sized s → progress_ok s p → counters_ok p →
  next_start p s = Some (bt s a) → results_ok s a rs c →
  settle_step p rs (bt s b) s = Ok st → ss_trigger st = Some t →
  settle_reason s b rs (ss_progress st) t.
Proof. intros Hv%valid_settings_facts Hsz Hp Hc Hn Hrs. by eapply settle_reason_ok. Qed.

(** C35: a reading ends. With a minimum chunk of one bucket (the setting shipped), ticks
    whose first search ran and that do not end the reading come at most
    [((b - a) * (max_span + 1) + max_span) * (max_failures + 1) + max_failures] in a row,
    where [b - a] buckets are left: no sequence of truncations, failures and retries keeps
    a reading going for ever. *)
Theorem reading_bounded s b n p q a :
  valid_settings s → settings_sized s → ps_min_chunk_buckets s = 1 →
  1 <= ps_max_span_buckets s → progress_ok s p → next_start p s = Some (bt s a) →
  0 <= sp_failures p < ps_max_failures s → ticks s b n p q →
  Z.of_nat n <= (Z.max 0 (b - a) * (ps_max_span_buckets s + 1) + ps_max_span_buckets s) *
                (ps_max_failures s + 1) + ps_max_failures s.
Proof.
  intros Hv%valid_settings_facts Hsz Hmin Hmax Hp Hn Hf Ht.
  pose proof (ticks_effort s Hv Hsz Hmin Hmax b n p q a Ht Hp Hf Hn) as H.
  pose proof (width_live s Hmin Hmax p). unfold effort in H. nia.
Qed.

(** The width discipline. After every tick the width is between the minimum chunk and
    the search span, and once a width was sized it never more than doubles in one tick. *)
Theorem tick_width s p b rs st :
  valid_settings s → settings_sized s → 1 <= ps_max_span_buckets s →
  progress_ok s p → tick s b p rs st →
  width_in s (chunk_width (ss_progress st) s) ∧
  (sp_chunk_buckets p ≠ None →
     chunk_width (ss_progress st) s <= Z.max (ps_min_chunk_buckets s) (2 * chunk_width p s)).
Proof.
  intros Hv%valid_settings_facts Hsz Hmax Hp [now budget pl a c Hnow Hpl Hact Hn [Hsp Hrs] Hcnt Hst].
  destruct (plan_step_plan s p now b budget true false Hv Hmax Hp Hnow) as (pl' & Hpl' & Hok).
  rewrite Hpl in Hpl'. injection Hpl' as <-. unfold plan_ok in Hok. rewrite Hact in Hok.
  destruct Hok as (a0 & n & _ & _ & _ & _ & _ & Hw & _). rewrite <-Hsp in Hw.
  by eapply settle_width_ok.
Qed.

(** * Cost and window

    [fit_window] returns the largest window of whole days whose estimated hours fit the
    limit, or refuses when even the family's minimum does not. *)


(** ** Specification vocabulary *)

(** A family's estimate: defined for every window it may be asked, of moderate size. *)
Definition estimate_ok (f : Z → result Z) (min_days days_requested : Z) : Prop :=
  ∀ d, min_days <= d <= days_requested → ∃ n, f d = Ok n ∧ 0 <= n < 2 ^ 300.

(** The window of [days] needs [n] searches, [ticks] ticks and [hours] hours. *)
Definition costs (f : Z → result Z) (s : PlannerSettings) (per_tick days n ticks : Z) (hours : float) : Prop :=
  f days = Ok n ∧ hours_for s per_tick n = Ok (ticks, hours).

Definition fits (f : Z → result Z) (s : PlannerSettings) (per_tick days : Z) : Prop :=
  ∃ n ticks hours, costs f s per_tick days n ticks hours ∧ float_le_int hours (ps_max_hours s) = true.

(** ** Lemmas *)

Lemma fceil_ok s k x : finite_mag s k x → is_ok (fceil x).
Proof. intros (m & e & -> & _). by eexists. Qed.

(** A ceiling of a quotient is smaller than its numerator's power of two. *)
Lemma fceil_mag k x : finite_mag false k x → ∃ n, fceil x = Ok n ∧ 0 < n <= 2 ^ Z.max 0 k.
Proof.
  intros (m & e & -> & Hk & _). unfold fceil, to_int. eexists. split; [done|].
  cbn [signed negb]. destruct (Zdigits2_bounds (Zpos m) ltac:(lia)) as (? & Hl & Hu).
  pose proof (Z.pow_pos_nonneg 2 (Z.max 0 k) ltac:(lia) ltac:(lia)).
  destruct (Z.le_gt_cases 0 e).
  - rewrite Z.shiftl_mul_pow2 by lia. change (Zneg m) with (- Zpos m).
    pose proof (Z.pow_pos_nonneg 2 e ltac:(lia) ltac:(lia)).
    replace (Z.max 0 k) with (Zdigits2 (Zpos m) + e) by lia. rewrite Z.pow_add_r by lia. nia.
  - rewrite Z.shiftl_div_pow2 by lia. change (Zneg m) with (- Zpos m).
    pose proof (Z.pow_pos_nonneg 2 (- e) ltac:(lia) ltac:(lia)).
    pose proof (ceil_div_spec (Zpos m) (2 ^ (- e)) ltac:(lia)).
    assert (Zpos m <= 2 ^ Z.max 0 k * 2 ^ (- e)).
    { rewrite <-Z.pow_add_r by lia.
      pose proof (Z.pow_le_mono_r 2 (Zdigits2 (Zpos m)) (Z.max 0 k + - e) ltac:(lia) ltac:(lia)). lia. }
    split; nia.
Qed.

Section Window.
Context (s : PlannerSettings) (Hs : settings_facts s) (Hcad : ps_cadence_seconds s < 2 ^ 300).

Lemma ceil_truediv_ok n d : 0 <= n < 2 ^ 300 → 0 < d < 2 ^ 300 →
  ∃ c, ceil_truediv n d = Ok c ∧ 0 <= c <= 2 ^ 302 ∧ (0 < n → 0 < c).
Proof.
  intros Hn Hd. unfold ceil_truediv. destruct (Z.eq_dec n 0) as [->|Hne].
  - unfold truediv. rewrite (proj2 (Z.eqb_neq d 0)), (proj2 (Z.ltb_ge d 0)) by lia.
    exists 0. split; [done|]. lia.
  - destruct (Zdigits2_bounds n) as (? & _); [lia|]. destruct (Zdigits2_bounds d) as (? & _); [lia|].
    pose proof (Zdigits2_le n 300 ltac:(lia) ltac:(lia)). pose proof (Zdigits2_le d 300 ltac:(lia) ltac:(lia)).
    destruct (truediv_mag n d) as (q & -> & k & Hq & Hk); [lia..|]. cbn [res_bind].
    destruct (fceil_mag _ _ Hq) as (c & -> & Hc). exists c. split; [done|].
    pose proof (Z.pow_le_mono_r 2 (Z.max 0 k) 302 ltac:(lia) ltac:(lia)). lia.
Qed.

Lemma hours_for_ok per_tick n : 1 <= per_tick < 2 ^ 300 → 0 <= n < 2 ^ 300 →
  is_ok (hours_for s per_tick n).
Proof.
  intros Hp Hn. pose proof (sf_cadence s Hs). unfold hours_for, ticks_for.
  destruct (truediv_nonneg_ok (ps_cadence_seconds s) 3600) as [q ->]; [split; [lia|]|lia|].
  { etrans; [exact Hcad|]. apply Z.pow_lt_mono_r; lia. }
  cbn [res_bind]. rewrite (proj2 (Z.ltb_ge per_tick 1)) by lia. cbn [raise_if res_bind].
  rewrite Z.max_r by lia. destruct (ceil_truediv_ok n per_tick) as (c & -> & Hc & _); [lia..|].
  cbn [res_bind]. destruct (Z.eq_dec c 0) as [->|Hne]; [by eexists|].
  destruct (float_of_int_mag c) as (x & -> & _); [lia| |by eexists].
  pose proof (Zdigits2_le c 303 ltac:(lia)) as Hb.
  assert (2 ^ 302 < 2 ^ 303) by (apply Z.pow_lt_mono_r; lia). lia.
Qed.

Context (f : Z → result Z) (stop : datetime) (req per_tick min : Z).
Context (Hest : estimate_ok f min req) (Hper : 1 <= per_tick < 2 ^ 300).

Lemma costs_total d : min <= d <= req → ∃ n ticks hours, costs f s per_tick d n ticks hours.
Proof.
  intros Hd. destruct (Hest d Hd) as (n & Hf & Hn).
  destruct (hours_for_ok per_tick n Hper Hn) as [[t h] Hh]. by exists n, t, h.
Qed.

(** The report of a window that fits. *)
Definition fitted (d : Z) (w : WindowFit) : Prop :=
  wf_days_fitted w = Some d ∧ wf_target_start w = Some (dt_minus stop (td_days d)) ∧
  costs f s per_tick d (wf_searches w) (wf_ticks w) (wf_hours w) ∧
  wf_reduced w = (d <? req) ∧ wf_refused w = false ∧ wf_days_requested w = req.

Lemma fit_at_spec d : min <= d <= req →
  ∃ o, fit_at f stop s req per_tick d = Ok o ∧
    match o with
    | Some w => fitted d w ∧ fits f s per_tick d
    | None => ¬ fits f s per_tick d
    end.
Proof.
  intros Hd. destruct (costs_total d Hd) as (n & t & h & Hf & Hh). unfold fit_at.
  rewrite Hf. cbn [res_bind]. rewrite Hh. cbn [res_bind].
  destruct (float_le_int h _) eqn:Hle; (eexists; split; [done|]).
  - split; [by repeat split|]. by exists n, t, h.
  - intros (n' & t' & h' & [Hf' Hh'] & Hle'). congruence.
Qed.

Lemma fit_loop_spec k d : d <= req → min <= d - Z.of_nat k + 1 →
  ∃ o, fit_loop f stop s req per_tick k d = Ok o ∧
    match o with
    | Some w => ∃ d', d - Z.of_nat k < d' <= d ∧ fitted d' w ∧ fits f s per_tick d' ∧
        ∀ d'', d' < d'' <= d → ¬ fits f s per_tick d''
    | None => ∀ d', d - Z.of_nat k < d' <= d → ¬ fits f s per_tick d'
    end.
Proof.
  revert d. induction k as [|k IH]; intros d Hd Hmin; cbn [fit_loop]; [eexists; split; [done|]; intros ??; lia|].
  destruct (fit_at_spec d ltac:(lia)) as ([w|] & -> & Ho); cbn [res_bind].
  - eexists. split; [done|]. destruct Ho. exists d. split; [lia|]. split; [done|]. split; [done|]. intros ??; lia.
  - destruct (IH (d - 1)) as (o & -> & H); [lia..|]. exists o. split; [done|].
    assert (Hsplit : ∀ x, x <= d → x <= d - 1 ∨ x = d) by lia.
    destruct o as [w|].
    + destruct H as (d' & ? & ? & ? & Hmax). exists d'. split; [lia|]. split; [done|]. split; [done|].
      intros d'' Hd''. destruct (Hsplit d'') as [?| ->]; [lia|apply Hmax; lia|done].
    + intros d' Hd'. destruct (Hsplit d') as [?| ->]; [lia|apply H; lia|done].
Qed.
End Window.

(** ** Theorems *)

(** Fitting the window. For a non-empty range of windows and a family estimate defined
    on it, [fit_window] returns: either the LARGEST window of the range whose hours fit the
    limit, with its cost and the start that many days before the end, marked as reduced
    exactly when it is smaller than asked; or a refusal, and then no window of the range
    fits. *)
Theorem fit_window_largest s f e req tick min :
  valid_settings s → ps_cadence_seconds s < 2 ^ 300 →
  1 <= or_int tick (ps_searches_per_tick s) < 2 ^ 300 →
  min <= req → estimate_ok f min req →
  ∃ w, fit_window req f (bt s e) s tick min = Ok w ∧
    let per_tick := or_int tick (ps_searches_per_tick s) in
    match wf_days_fitted w with
    | Some d =>
        min <= d <= req ∧ fitted s f (bt s e) req per_tick d w ∧ fits f s per_tick d ∧
        ∀ d', d < d' <= req → ¬ fits f s per_tick d'
    | None =>
        wf_refused w = true ∧ wf_target_start w = None ∧
        costs f s per_tick min (wf_searches w) (wf_ticks w) (wf_hours w) ∧
        ∀ d, min <= d <= req → ¬ fits f s per_tick d
    end.
Proof.
  intros Hv Hcad Hper Hmin Hest. pose proof (valid_settings_facts s Hv) as Hs. unfold fit_window.
  rewrite require_aligned_bt by done. cbn [res_bind].
  rewrite (proj2 (Z.ltb_ge req min)) by lia. cbn [raise_if res_bind].
  destruct (fit_loop_spec s Hs Hcad f (bt s e) req _ min Hest Hper (Z.to_nat (req - min + 1)) req)
    as ([w|] & -> & Ho); [lia..| |]; cbn [res_bind].
  - exists w. split; [done|]. destruct Ho as (d & Hd & Hfit & Hf & Hmax).
    pose proof (proj1 Hfit) as ->. split; [lia|]. split; [done|]. split; [done|]. done.
  - destruct (costs_total s Hs Hcad f req _ min Hest Hper min ltac:(lia)) as (n & t & h & Hf & Hh).
    unfold fit_refused. rewrite Hf. cbn [res_bind]. rewrite Hh. cbn [res_bind].
    eexists. split; [done|]. cbn. split; [done|]. split; [done|]. split; [done|].
    intros d Hd. apply Ho. lia.
Qed.
