(* ===== verification/PyIso.v ===== *)
(** * ISO-8601 text of datetimes

    [datetime.fromisoformat] of Python 3.11 and later, as CPython reads the text byte by
    byte: calendar and week dates, basic and extended forms, an optional time with an
    optional fraction and an optional offset. [dt_isoformat] is its inverse on the
    instants of Python's calendar, years 1 to 9999. *)

From S2P Require Import Prelude PyStr PyTime.
From Stdlib Require Import Ascii.

(** ** Dates *)

(** The day number (days since 1970-01-01) of a proleptic Gregorian date. *)
Definition days_of_civil (y m d : Z) : Z :=
  let y' := if m <=? 2 then y - 1 else y in
  let era := y' / 400 in
  let yoe := y' mod 400 in
  let mp := if m <=? 2 then m + 9 else m - 3 in
  let doy := (153 * mp + 2) / 5 + d - 1 in
  era * 146097 + (yoe * 365 + yoe / 4 - yoe / 100 + doy) - 719468.

Definition is_leap (y : Z) : bool := (y mod 4 =? 0) && (negb (y mod 100 =? 0) || (y mod 400 =? 0)).

Definition days_in_month (y m : Z) : Z :=
  if m =? 2 then (if is_leap y then 29 else 28)
  else if (m =? 4) || (m =? 6) || (m =? 9) || (m =? 11) then 30 else 31.

Definition date_ok (y m d : Z) : bool :=
  (1 <=? y) && (y <=? 9999) && (1 <=? m) && (m <=? 12) && (1 <=? d) && (d <=? days_in_month y m).

(** The day number of a week date. *)
Definition day_of_week_date (y w d : Z) : option Z :=
  let first := days_of_civil y 1 1 in
  let weekday := (first + 3) mod 7 in
  let long := (weekday =? 3) || ((weekday =? 2) && is_leap y) in
  if negb ((1 <=? y) && (y <=? 9999)) then None
  else if negb ((1 <=? w) && ((w <=? 52) || ((w =? 53) && long))) then None
  else if negb ((1 <=? d) && (d <=? 7)) then None
  else
    let monday := first - weekday + (if 3 <? weekday then 7 else 0) in
    Some (monday + (w - 1) * 7 + d - 1).

(** ** The scanner *)

Definition is_digit (c : ascii) : bool := let n := N_of_ascii c in ((48 <=? n) && (n <=? 57))%N.

Definition digit_val (c : ascii) : Z := Z.of_N (N_of_ascii c) - 48.

Section Scan.
Context (s : string).

Definition byte_at (p : nat) : ascii := match String.get p s with Some c => c | None => zero end.

Definition size : nat := String.length s.

(** [parse_digits]: exactly [n] digits from [p]. *)
Fixpoint parse_digits (n : nat) (p : nat) (acc : Z) : option Z :=
  match n with
  | O => Some acc
  | S n => if is_digit (byte_at p) then parse_digits n (S p) (acc * 10 + digit_val (byte_at p))
           else None
  end.

Fixpoint skip_digits (fuel : nat) (p : nat) : nat :=
  match fuel with
  | O => p
  | S fuel => if is_digit (byte_at p) then skip_digits fuel (S p) else p
  end.

(** Where the date ends. *)
Definition separator : option nat :=
  if Nat.eqb size 7 then Some 7%nat
  else if Ascii.eqb (byte_at 4) "-" then
    if Ascii.eqb (byte_at 5) "W" then
      if Nat.ltb 8 size && Ascii.eqb (byte_at 8) "-" then
        if Nat.eqb size 9 then None
        else if Nat.ltb 10 size && is_digit (byte_at 10) then Some 8%nat else Some 10%nat
      else Some 8%nat
    else Some 10%nat
  else if Ascii.eqb (byte_at 4) "W" then
    let pos := skip_digits size 7 in
    if Nat.ltb pos 9 then Some pos
    else if Nat.even pos then Some 7%nat else Some 8%nat
  else Some 8%nat.

(** The date up to [len], as a day number. *)
Definition parse_date (len : nat) : option Z :=
  y ← parse_digits 4 0 0;
  let sep := Ascii.eqb (byte_at 4) "-" in
  let p := if sep then 5%nat else 4%nat in
  if Ascii.eqb (byte_at p) "W" then
    w ← parse_digits 2 (S p) 0;
    let p := (p + 3)%nat in
    if Nat.ltb p len then
      if sep && negb (Ascii.eqb (byte_at p) "-") then None
      else d ← parse_digits 1 (if sep then S p else p) 0; day_of_week_date y w d
    else day_of_week_date y w 1
  else
    m ← parse_digits 2 p 0;
    let p := (p + 2)%nat in
    if sep && negb (Ascii.eqb (byte_at p) "-") then None
    else
      d ← parse_digits 2 (if sep then S p else p) 0;
      if date_ok y m d then Some (days_of_civil y m d) else None.

(** The fraction at [p], scaled to microseconds; [true] when text is left after it. *)
Definition parse_fraction (p stop : nat) : option (Z * bool) :=
  let n := Nat.min 6 (stop - p) in
  us ← parse_digits n p 0;
  let q := skip_digits size (p + n) in
  Some (us * 10 ^ (6 - Z.of_nat n), negb (Ascii.eqb (byte_at q) zero)).

(** The clock [HH[:MM[:SS[.ffffff]]]] from [p] to [stop]: the hour, minute and second read so
    far, the microseconds, and whether text is left. [i] is 0, 1 or 2 and [colon] says
    whether the first separator was a colon. *)
Fixpoint parse_clock (i : nat) (colon : bool) (vals : list Z) (p stop : nat)
    : option (list Z * Z * bool) :=
  match i with
  | O => f ← parse_fraction p stop; Some (vals, f.1, f.2)
  | S i' =>
      v ← parse_digits 2 p 0;
      let vals := vals ++ [v] in
      let c := byte_at (p + 2) in
      let colon := if Nat.eqb i 3 then Ascii.eqb c ":" else colon in
      let p := (p + 3)%nat in
      if Nat.leb stop p then Some (vals, 0, negb (Ascii.eqb c zero))
      else if colon && Ascii.eqb c ":" then parse_clock i' colon vals p stop
      else if Ascii.eqb c "." || Ascii.eqb c "," then
        f ← parse_fraction p stop; Some (vals, f.1, f.2)
      else if negb colon then parse_clock i' colon vals (p - 1) stop
      else None
  end.

Definition val (l : list Z) (i : nat) : Z := default 0 (l !! i).

Definition is_zone (c : ascii) : bool :=
  Ascii.eqb c "+" || Ascii.eqb c "-" || Ascii.eqb c "Z".

(** The position of the zone, or the end. *)
Fixpoint find_zone (fuel p : nat) : nat :=
  match fuel with
  | O => p
  | S fuel => if is_zone (byte_at p) then p else find_zone fuel (S p)
  end.

(** The offset of a zone at [z], in microseconds. *)
Definition parse_zone (z : nat) : option Z :=
  if Ascii.eqb (byte_at z) "Z" then (if Nat.eqb (S z) size then Some 0 else None)
  else
    '(vals, us, rest) ← parse_clock 3 true [] (S z) size;
    let sign := if Ascii.eqb (byte_at z) "-" then -1 else 1 in
    let seconds := val vals 0 * 3600 + val vals 1 * 60 + val vals 2 in
    if rest : bool then None
    else if seconds =? 0 then Some 0
    else if seconds * us_per_second + us <? 86400 * us_per_second
         then Some (sign * (seconds * us_per_second + us)) else None.

(** The time from [p]: microseconds of the day and the offset, if any. *)
Definition parse_time (p : nat) : option (Z * option Z) :=
  let z := find_zone (size - p) p in
  '(vals, us, rest) ← parse_clock 3 true [] p z;
  let h := val vals 0 in let mi := val vals 1 in let sec := val vals 2 in
  if negb ((h <=? 23) && (mi <=? 59) && (sec <=? 59)) then None
  else
    let t := (h * 3600 + mi * 60 + sec) * us_per_second + us in
    if Nat.eqb z size then (if rest : bool then None else Some (t, None))
    else o ← parse_zone z; Some (t, Some o).

(** The width of the separator character. *)
Definition char_width (c : ascii) : nat :=
  let n := N_of_ascii c in
  if (n <? 128)%N then 1 else if (n <? 224)%N then 2 else if (n <? 240)%N then 3 else 4.

(** The wall clock in microseconds since 1970-01-01T00:00 and the offset. *)
Definition scan_iso : option (Z * option Z) :=
  if Nat.ltb size 7 then None
  else
    sep ← separator;
    day ← parse_date sep;
    if Nat.ltb 1 (size - sep) then
      '(t, o) ← parse_time (sep + char_width (byte_at sep));
      Some (day * 86400 * us_per_second + t, o)
    else Some (day * 86400 * us_per_second, None).
End Scan.

(** The first microsecond of year 1 and the last of year 9999. *)
Definition DT_MIN : Z := -62135596800 * us_per_second.
Definition DT_MAX : Z := 253402300800 * us_per_second - 1.

Definition in_calendar (us : Z) : bool := (DT_MIN <=? us) && (us <=? DT_MAX).

(** A datetime as [fromisoformat] returns it: the wall clock and the offset of its zone. *)
Record wall := { wall_us : Z; wall_offset : option Z }.

Definition fromisoformat (s : string) : result wall :=
  match scan_iso s with
  | Some (us, o) =>
      if in_calendar us then Ok {| wall_us := us; wall_offset := o |}
      else Err (ValueError "year is out of range")
  | None => Err (ValueError ("Invalid isoformat string: '" +:+ s +:+ "'"))
  end.

(** [w.astimezone(UTC)] of an aware value. *)
Definition wall_utc (w : wall) (offset : Z) : result datetime :=
  let us := wall_us w - offset in
  if in_calendar us then Ok (utc us) else Err (OverflowError "date value out of range").

(** ** The civil calendar is inverted *)

Ltac div_lia := Z.to_euclidean_division_equations; lia.

(** The year of the era and the day of that year, counted from 1 March. *)
Lemma year_of_era doe : 0 <= doe < 146097 →
  let yoe := (doe - doe / 1460 + doe / 36524 - doe / 146096) / 365 in
  let doy := doe - (365 * yoe + yoe / 4 - yoe / 100) in
  0 <= yoe <= 399 ∧ 0 <= doy <= 365 ∧
  (doy = 365 → (yoe + 1) mod 4 = 0 ∧ ((yoe + 1) mod 100 ≠ 0 ∨ (yoe + 1) mod 400 = 0)).
Proof. intros H. cbv zeta. div_lia. Qed.

(** The month and the day of a day of the year. *)
Definition month_day (doy : Z) : Z * Z :=
  let mp := (5 * doy + 2) / 153 in
  (if mp <? 10 then mp + 3 else mp - 9, doy - (153 * mp + 2) / 5 + 1).

Definition month_day_ok (doy : Z) : bool :=
  let '(m, d) := month_day doy in
  let mp := (5 * doy + 2) / 153 in
  (0 <=? mp) && (mp <=? 11) &&
  (1 <=? d) && ((d <=? days_in_month 1 m) || ((m =? 2) && (d =? 29) && (doy =? 365))).

Lemma month_days_ok : forallb month_day_ok (Z.of_nat <$> seq 0 366) = true.
Proof. vm_compute. reflexivity. Qed.

Lemma month_day_spec doy : 0 <= doy <= 365 → month_day_ok doy = true.
Proof.
  intros H. pose proof month_days_ok as Hall. rewrite forallb_forall in Hall. apply Hall.
  apply list_elem_of_In, list_elem_of_fmap. exists (Z.to_nat doy). split; [lia|].
  apply elem_of_seq. lia.
Qed.

Lemma days_in_month_le y m : days_in_month 1 m <= days_in_month y m.
Proof.
  unfold days_in_month. change (is_leap 1) with false. destruct (m =? 2); [|done].
  by destruct (is_leap y).
Qed.

Lemma leap_of_era e y : (y + 1) mod 4 = 0 ∧ ((y + 1) mod 100 ≠ 0 ∨ (y + 1) mod 400 = 0) →
  is_leap (y + e * 400 + 1) = true.
Proof.
  unfold is_leap. intros H.
  replace (y + e * 400 + 1) with (y + 1 + (e * 100) * 4) at 1 by lia. rewrite Z.mod_add by lia.
  replace (y + e * 400 + 1) with (y + 1 + (e * 4) * 100) at 1 by lia. rewrite Z.mod_add by lia.
  replace (y + e * 400 + 1) with (y + 1 + e * 400) by lia. rewrite Z.mod_add by lia.
  destruct H as [-> [H|H]].
  - by rewrite (proj2 (Z.eqb_neq _ _) H).
  - rewrite H. cbn. by destruct (_ =? _).
Qed.

(** A date written from the March-based year and month. *)
Lemma days_of_civil_march era yoe mp d : 0 <= yoe <= 399 → 0 <= mp <= 11 →
  let m := if mp <? 10 then mp + 3 else mp - 9 in
  1 <= m <= 12 ∧
  days_of_civil (yoe + era * 400 + (if m <=? 2 then 1 else 0)) m d =
    era * 146097 + (yoe * 365 + yoe / 4 - yoe / 100 + ((153 * mp + 2) / 5 + d - 1)) - 719468.
Proof.
  intros Hy Hm. cbv zeta. unfold days_of_civil.
  assert (H1 : (yoe + era * 400) / 400 = era) by (rewrite Z.div_add, Z.div_small; lia).
  assert (H2 : (yoe + era * 400) mod 400 = yoe) by (rewrite Z.mod_add, Z.mod_small; lia).
  destruct (Z.ltb_spec mp 10).
  - split; [lia|]. rewrite (proj2 (Z.leb_gt (mp + 3) 2)), Z.add_0_r, H1, H2 by lia.
    by rewrite Z.add_simpl_r.
  - split; [lia|]. rewrite (proj2 (Z.leb_le (mp - 9) 2)), Z.add_simpl_r, H1, H2 by lia.
    by rewrite Z.sub_add.
Qed.

Lemma civil_spec z : ∃ y m d, civil z = (y, m, d) ∧ days_of_civil y m d = z ∧
  1 <= m <= 12 ∧ 1 <= d <= days_in_month y m.
Proof.
  unfold civil. cbv zeta. set (era := (z + 719468) / 146097). set (doe := (z + 719468) mod 146097).
  pose proof (Z.mod_pos_bound (z + 719468) 146097 ltac:(done)) as Hdoe.
  pose proof (Z.div_mod (z + 719468) 146097 ltac:(done)) as Hz. fold era doe in Hdoe, Hz.
  destruct (year_of_era doe Hdoe) as (Hy & Hd & Hleap). cbv zeta in *.
  set (yoe := (doe - doe / 1460 + doe / 36524 - doe / 146096) / 365) in *.
  set (doy := doe - (365 * yoe + yoe / 4 - yoe / 100)) in *.
  pose proof (month_day_spec doy Hd) as Hm. unfold month_day_ok, month_day in Hm.
  set (mp := (5 * doy + 2) / 153) in *. do 3 apply andb_prop in Hm as [Hm ?]. bool_simp.
  set (d := doy - (153 * mp + 2) / 5 + 1) in *.
  destruct (days_of_civil_march era yoe mp d) as [Hm12 Hdays]; [lia..|]. cbv zeta in *.
  set (m := if mp <? 10 then mp + 3 else mp - 9) in *.
  do 3 eexists. split; [reflexivity|]. split; [rewrite Hdays; lia|]. split; [done|]. split; [done|].
  apply orb_prop in H as [Hdm%Z.leb_le|Hdm].
  - etrans; [exact Hdm|apply days_in_month_le].
  - apply andb_prop in Hdm as [Hdm Hd365]. apply andb_prop in Hdm as [Hm2 Hd29]. bool_simp.
    rewrite Hm2. cbn. rewrite leap_of_era by (apply Hleap; lia). lia.
Qed.

(** ** [isoformat] is read back *)

Lemma digit_not c x : is_digit c = true → is_digit x = false → Ascii.eqb c x = false.
Proof. intros H Hx. destruct (Ascii.eqb_spec c x) as [->|]; [congruence|done]. Qed.

Definition num2 (a b : ascii) : Z := (0 * 10 + digit_val a) * 10 + digit_val b.
Definition num4 (a b c d : ascii) : Z := (num2 a b * 10 + digit_val c) * 10 + digit_val d.

Lemma parse_digits_S s n p acc c : byte_at s p = c → is_digit c = true →
  parse_digits s (S n) p acc = parse_digits s n (S p) (acc * 10 + digit_val c).
Proof. intros Hc Hd. cbn [parse_digits]. by rewrite Hc, Hd. Qed.

Lemma parse_digits_2 s p a b : byte_at s p = a → byte_at s (S p) = b →
  is_digit a = true → is_digit b = true → parse_digits s 2 p 0 = Some (num2 a b).
Proof. intros Ha Hb Da Db. by rewrite (parse_digits_S _ _ _ _ a), (parse_digits_S _ _ _ _ b). Qed.

Lemma parse_digits_4 s p a b c d : byte_at s p = a → byte_at s (S p) = b →
  byte_at s (S (S p)) = c → byte_at s (S (S (S p))) = d → is_digit a = true → is_digit b = true →
  is_digit c = true → is_digit d = true → parse_digits s 4 p 0 = Some (num4 a b c d).
Proof.
  intros Ha Hb Hc Hd Da Db Dc Dd.
  by rewrite (parse_digits_S _ _ _ _ a), (parse_digits_S _ _ _ _ b), (parse_digits_S _ _ _ _ c),
    (parse_digits_S _ _ _ _ d).
Qed.

Lemma find_zone_skip s f p c : byte_at s p = c → is_zone c = false →
  find_zone s (S f) p = find_zone s f (S p).
Proof. intros Hc Hz. cbn [find_zone]. by rewrite Hc, Hz. Qed.

Lemma val_0 a b c : val [a; b; c] 0 = a. Proof. done. Qed.
Lemma val_1 a b c : val [a; b; c] 1 = b. Proof. done. Qed.
Lemma val_2 a b c : val [a; b; c] 2 = c. Proof. done. Qed.

Lemma digit_not_zone c : is_digit c = true → is_zone c = false.
Proof. intros H. unfold is_zone. by rewrite !(digit_not c _ H). Qed.

Lemma find_zone_here s f p c : byte_at s p = c → is_zone c = true → find_zone s (S f) p = p.
Proof. intros Hc Hz. cbn [find_zone]. by rewrite Hc, Hz. Qed.

Section Text.
Context (y1 y2 y3 y4 m1 m2 d1 d2 h1 h2 n1 n2 s1 s2 : ascii).
Context (Hy1 : is_digit y1 = true) (Hy2 : is_digit y2 = true) (Hy3 : is_digit y3 = true)
  (Hy4 : is_digit y4 = true) (Hm1 : is_digit m1 = true) (Hm2 : is_digit m2 = true)
  (Hd1 : is_digit d1 = true) (Hd2 : is_digit d2 = true) (Hh1 : is_digit h1 = true)
  (Hh2 : is_digit h2 = true) (Hn1 : is_digit n1 = true) (Hn2 : is_digit n2 = true)
  (Hs1 : is_digit s1 = true) (Hs2 : is_digit s2 = true).

Definition clock_text (rest : string) : string :=
  String y1 (String y2 (String y3 (String y4 (String "-" (String m1 (String m2 (String "-"
  (String d1 (String d2 (String "T" (String h1 (String h2 (String ":" (String n1 (String n2
  (String ":" (String s1 (String s2 rest)))))))))))))))))).

Context (Hdate : date_ok (num4 y1 y2 y3 y4) (num2 m1 m2) (num2 d1 d2) = true).
Context (Hh : num2 h1 h2 <= 23) (Hn : num2 n1 n2 <= 59) (Hs : num2 s1 s2 <= 59).

Lemma text_date rest : parse_date (clock_text rest) 10 =
  Some (days_of_civil (num4 y1 y2 y3 y4) (num2 m1 m2) (num2 d1 d2)).
Proof.
  unfold parse_date.
  rewrite (parse_digits_4 _ 0 y1 y2 y3 y4) by done. cbn [mbind option_bind].
  change (Ascii.eqb (byte_at (clock_text rest) 4) "-") with true. cbv iota zeta.
  change (byte_at (clock_text rest) 5) with m1. rewrite (digit_not m1) by done.
  rewrite (parse_digits_2 _ 5 m1 m2) by done. cbn [mbind option_bind].
  change (byte_at (clock_text rest) (5 + 2)) with "-"%char.
  change (Ascii.eqb "-" "-") with true. cbn [andb negb].
  rewrite (parse_digits_2 _ (S (5 + 2)) d1 d2) by done. cbn [mbind option_bind].
  by rewrite Hdate.
Qed.

(** The clock up to the zone or the fraction at 19. *)
Lemma text_clock rest stop : (19 <= stop)%nat →
  parse_clock (clock_text rest) 3 true [] 11 stop =
  if Nat.leb stop 20 then Some ([num2 h1 h2; num2 n1 n2; num2 s1 s2], 0, negb (Ascii.eqb (byte_at (clock_text rest) 19) zero))
  else
    let c := byte_at (clock_text rest) 19 in
    if Ascii.eqb c ":" then parse_clock (clock_text rest) 0 true [num2 h1 h2; num2 n1 n2; num2 s1 s2] 20 stop
    else if Ascii.eqb c "." || Ascii.eqb c "," then
      f ← parse_fraction (clock_text rest) 20 stop; Some ([num2 h1 h2; num2 n1 n2; num2 s1 s2], f.1, f.2)
    else None.
Proof.
  intros Hstop. cbn [parse_clock app].
  rewrite (parse_digits_2 _ 11 h1 h2) by done. cbn [mbind option_bind].
  change (byte_at (clock_text rest) (11 + 2)) with ":"%char.
  change (Ascii.eqb ":" ":") with true. cbn [Nat.eqb andb].
  rewrite (proj2 (Nat.leb_gt stop (11 + 3))) by lia.
  rewrite (parse_digits_2 _ (11 + 3) n1 n2) by done. cbn [mbind option_bind].
  change (byte_at (clock_text rest) (11 + 3 + 2)) with ":"%char.
  change (Ascii.eqb ":" ":") with true. cbn [andb].
  rewrite (proj2 (Nat.leb_gt stop (11 + 3 + 3))) by lia.
  rewrite (parse_digits_2 _ (11 + 3 + 3) s1 s2) by done. cbn [mbind option_bind app].
  change (11 + 3 + 3 + 2)%nat with 19%nat. change (11 + 3 + 3 + 3)%nat with 20%nat.
  cbn [andb negb]. done.
Qed.

Definition text_day : Z := days_of_civil (num4 y1 y2 y3 y4) (num2 m1 m2) (num2 d1 d2).
Definition text_seconds : Z := num2 h1 h2 * 3600 + num2 n1 n2 * 60 + num2 s1 s2.

Lemma find_zone_clock rest f : find_zone (clock_text rest) (8 + f) 11 = find_zone (clock_text rest) f 19.
Proof.
  cbn [Nat.add].
  rewrite (find_zone_skip _ _ 11 h1), (find_zone_skip _ _ 12 h2), (find_zone_skip _ _ 13 ":"),
    (find_zone_skip _ _ 14 n1), (find_zone_skip _ _ 15 n2), (find_zone_skip _ _ 16 ":"),
    (find_zone_skip _ _ 17 s1), (find_zone_skip _ _ 18 s2) by (done || by apply digit_not_zone).
  done.
Qed.

(** The date and the separator of the text, with a time of more than one byte after it. *)
Lemma scan_iso_text rest n : size (clock_text rest) = (19 + n)%nat →
  scan_iso (clock_text rest) =
  ('(t, o) ← parse_time (clock_text rest) 11; Some (text_day * 86400 * us_per_second + t, o)).
Proof.
  intros Hsize. unfold scan_iso. rewrite Hsize. change (Nat.ltb (19 + n) 7) with false. cbv iota.
  assert (Hsep : separator (clock_text rest) = Some 10%nat).
  { unfold separator. rewrite Hsize. change (Nat.eqb (19 + n) 7) with false. cbv iota.
    change (Ascii.eqb (byte_at (clock_text rest) 4) "-") with true. cbv iota.
    change (byte_at (clock_text rest) 5) with m1. by rewrite (digit_not m1). }
  rewrite Hsep. cbn [mbind option_bind]. rewrite text_date. cbn [mbind option_bind].
  rewrite (proj2 (Nat.ltb_lt 1 (19 + n - 10))) by lia. done.
Qed.

(** The clock checks, once the fields are read. *)
Lemma clock_in_range : (num2 h1 h2 <=? 23) && (num2 n1 n2 <=? 59) && (num2 s1 s2 <=? 59) = true.
Proof. by rewrite !(proj2 (Z.leb_le _ _)) by done. Qed.

Lemma scan_whole_second :
  scan_iso (clock_text "+00:00") =
  Some (text_day * 86400 * us_per_second + (text_seconds * us_per_second + 0), Some 0).
Proof.
  rewrite (scan_iso_text _ 6) by done. unfold parse_time. change (size (clock_text "+00:00")) with (11 + (8 + 6))%nat.
  replace (11 + (8 + 6) - 11)%nat with (8 + 6)%nat by done. rewrite find_zone_clock.
  rewrite (find_zone_here _ _ 19 "+") by done. rewrite text_clock by lia.
  cbn [mbind option_bind Nat.leb]. rewrite !val_0, !val_1, !val_2.
  rewrite clock_in_range. cbn [negb].
  change (Nat.eqb 19 (11 + (8 + 6))) with false. cbv iota.
  change (parse_zone (clock_text "+00:00") 19) with (Some 0). reflexivity.
Qed.

Context (f1 f2 f3 f4 f5 f6 : ascii) (Hf : Forall (λ c, is_digit c = true) [f1; f2; f3; f4; f5; f6]).

Definition num6 : Z := (num4 f1 f2 f3 f4 * 10 + digit_val f5) * 10 + digit_val f6.

Definition fraction_text : string :=
  String "." (String f1 (String f2 (String f3 (String f4 (String f5 (String f6 "+00:00")))))).

Lemma scan_fraction :
  scan_iso (clock_text fraction_text) =
  Some (text_day * 86400 * us_per_second + (text_seconds * us_per_second + num6), Some 0).
Proof.
  rewrite !Forall_cons in Hf. destruct Hf as (D1 & D2 & D3 & D4 & D5 & D6 & _).
  rewrite (scan_iso_text _ 13) by done. unfold parse_time.
  change (size (clock_text fraction_text)) with (11 + (8 + (7 + 6)))%nat.
  replace (11 + (8 + (7 + 6)) - 11)%nat with (8 + (7 + 6))%nat by done. rewrite find_zone_clock.
  cbn [Nat.add].
  rewrite (find_zone_skip _ _ 19 "."), (find_zone_skip _ _ 20 f1), (find_zone_skip _ _ 21 f2),
    (find_zone_skip _ _ 22 f3), (find_zone_skip _ _ 23 f4), (find_zone_skip _ _ 24 f5),
    (find_zone_skip _ _ 25 f6), (find_zone_here _ _ 26 "+") by (done || by apply digit_not_zone).
  rewrite text_clock by lia. change (Nat.leb 26 20) with false. cbv iota zeta.
  change (byte_at (clock_text fraction_text) 19) with "."%char. change (Ascii.eqb "." ":") with false.
  change (Ascii.eqb "." ".") with true. cbn [orb].
  assert (Hfr : parse_fraction (clock_text fraction_text) 20 26 = Some (num6 * 10 ^ (6 - 6), true)).
  { unfold parse_fraction. change (Nat.min 6 (26 - 20)) with 6%nat.
    rewrite (parse_digits_S _ _ _ _ f1), (parse_digits_S _ _ _ _ f2), (parse_digits_S _ _ _ _ f3),
      (parse_digits_S _ _ _ _ f4), (parse_digits_S _ _ _ _ f5), (parse_digits_S _ _ _ _ f6) by done.
    reflexivity. }
  rewrite Hfr. cbn [mbind option_bind fst snd]. rewrite !val_0, !val_1, !val_2.
  rewrite clock_in_range. change (10 ^ (6 - 6)) with 1. rewrite Z.mul_1_r. cbn [negb].
  change (Nat.eqb 26 (11 + (8 + (7 + 6)))) with false. cbv iota.
  change (parse_zone (clock_text fraction_text) 26) with (Some 0). reflexivity.
Qed.
End Text.

(** The digits [digits_pad] writes. *)
Definition dch (n : Z) : ascii := ascii_of_N (48 + Z.to_N (n mod 10)).

Lemma dch_spec n : is_digit (dch n) = true ∧ digit_val (dch n) = n mod 10.
Proof.
  unfold dch. pose proof (Z.mod_pos_bound n 10 ltac:(done)) as H. set (k := n mod 10) in *. clearbody k.
  assert (k = 0 ∨ k = 1 ∨ k = 2 ∨ k = 3 ∨ k = 4 ∨ k = 5 ∨ k = 6 ∨ k = 7 ∨ k = 8 ∨ k = 9) as Hk by lia.
  repeat destruct Hk as [->|Hk]; try (split; reflexivity). subst k. split; reflexivity.
Qed.

Lemma dch_digit n : is_digit (dch n) = true. Proof. apply dch_spec. Qed.
Lemma dch_val n : digit_val (dch n) = n mod 10. Proof. apply dch_spec. Qed.

Lemma num2_dch n : 0 <= n < 100 → num2 (dch (n / 10)) (dch n) = n.
Proof. intros H. unfold num2. rewrite !dch_val. div_lia. Qed.

Lemma num4_dch n : 0 <= n < 10000 →
  num4 (dch (n / 10 / 10 / 10)) (dch (n / 10 / 10)) (dch (n / 10)) (dch n) = n.
Proof. intros H. unfold num4, num2. rewrite !dch_val. div_lia. Qed.

Lemma num6_dch n : 0 <= n < 1000000 →
  num6 (dch (n / 10 / 10 / 10 / 10 / 10)) (dch (n / 10 / 10 / 10 / 10)) (dch (n / 10 / 10 / 10))
    (dch (n / 10 / 10)) (dch (n / 10)) (dch n) = n.
Proof. intros H. unfold num6, num4, num2. rewrite !dch_val. div_lia. Qed.

(** Years of the calendar. *)
Lemma civil_year z y m d : civil z = (y, m, d) → -719162 <= z <= 2932896 → 1 <= y <= 9999.
Proof.
  unfold civil. cbv zeta. intros [= <- _ _] H.
  set (era := (z + 719468) / 146097). set (doe := (z + 719468) mod 146097).
  pose proof (Z.mod_pos_bound (z + 719468) 146097 ltac:(done)) as Hdoe.
  pose proof (Z.div_mod (z + 719468) 146097 ltac:(done)) as Hz. fold era doe in Hdoe, Hz.
  destruct (year_of_era doe Hdoe) as (Hy & Hd & _). cbv zeta in *.
  set (yoe := (doe - doe / 1460 + doe / 36524 - doe / 146096) / 365) in *.
  set (doy := doe - (365 * yoe + yoe / 4 - yoe / 100)) in *.
  assert (Hm : ((if (5 * doy + 2) / 153 <? 10 then (5 * doy + 2) / 153 + 3 else (5 * doy + 2) / 153 - 9) <=? 2)
               = (306 <=? doy)).
  { destruct (Z.ltb_spec ((5 * doy + 2) / 153) 10), (Z.leb_spec 306 doy);
      (apply Z.leb_le || apply Z.leb_gt); div_lia. }
  rewrite Hm. clear Hm.
  assert (doe = 365 * yoe + yoe / 4 - yoe / 100 + doy) by (unfold doy; lia). clearbody doy yoe doe era.
  destruct (Z.leb_spec 306 doy); div_lia.
Qed.

(** [fromisoformat (isoformat d)] is [d], for every aware instant of the calendar. *)
Lemma fromisoformat_isoformat us : in_calendar us = true →
  fromisoformat (dt_isoformat (utc us)) = Ok {| wall_us := us; wall_offset := Some 0 |}.
Proof.
  intros Hc. pose proof Hc as Hrange. apply andb_prop in Hrange as [Hlo%Z.leb_le Hhi%Z.leb_le].
  unfold DT_MIN, DT_MAX, us_per_second in Hlo, Hhi. unfold fromisoformat.
  set (day := us / (86400 * 1000000)). set (sec := us / 1000000 mod 86400). set (micro := us mod 1000000).
  assert (Hus : us = day * 86400 * us_per_second + (sec * us_per_second + micro)).
  { unfold day, sec, micro, us_per_second. div_lia. }
  assert (Hsec : 0 <= sec < 86400) by (apply Z.mod_pos_bound; done).
  assert (Hmicro : 0 <= micro < 1000000) by (apply Z.mod_pos_bound; done).
  assert (Hday : -719162 <= day <= 2932896) by (unfold day; div_lia).
  destruct (civil_spec day) as (y & m & d & Hciv & Hdays & Hm & Hd).
  pose proof (civil_year day y m d Hciv Hday) as Hy.
  assert (Hdim : days_in_month y m <= 31).
  { unfold days_in_month. repeat case_match; lia. }
  assert (Hclock : 0 <= sec / 3600 <= 23 ∧ 0 <= sec / 60 mod 60 <= 59 ∧ 0 <= sec mod 60 <= 59 ∧
    sec / 3600 * 3600 + sec / 60 mod 60 * 60 + sec mod 60 = sec) by (split_and!; div_lia).
  destruct Hclock as (Hh & Hn & Hs & Hclock).
  assert (Hok : date_ok y m d = true).
  { unfold date_ok. rewrite !(proj2 (Z.leb_le _ _)) by lia. done. }
  assert (Hscan : scan_iso (dt_isoformat (utc us)) = Some (us, Some 0)).
  { rewrite Hus at 2. rewrite <-Hdays, <-Hclock at 1.
    unfold dt_isoformat, dt_date_text, dt_hm_text.
    change (dt_day (utc us)) with day. rewrite Hciv.
    change (dt_microsecond (utc us)) with micro.
    change (dt_hour (utc us)) with (sec / 3600). change (dt_minute (utc us)) with (sec / 60 mod 60).
    change (dt_second (utc us)) with (sec mod 60). cbn [dt_aware utc].
    destruct (Z.eqb_spec micro 0) as [->|Hne].
    - change (scan_iso _) with (scan_iso (clock_text
        (dch (y / 10 / 10 / 10)) (dch (y / 10 / 10)) (dch (y / 10)) (dch y) (dch (m / 10)) (dch m)
        (dch (d / 10)) (dch d) (dch (sec / 3600 / 10)) (dch (sec / 3600))
        (dch (sec / 60 mod 60 / 10)) (dch (sec / 60 mod 60)) (dch (sec mod 60 / 10)) (dch (sec mod 60)) "+00:00")).
      rewrite scan_whole_second; rewrite ?num4_dch, ?num2_dch by lia; try apply dch_digit; try lia; [|done].
      unfold text_day, text_seconds. rewrite num4_dch, !num2_dch by lia. done.
    - change (scan_iso _) with (scan_iso (clock_text
        (dch (y / 10 / 10 / 10)) (dch (y / 10 / 10)) (dch (y / 10)) (dch y) (dch (m / 10)) (dch m)
        (dch (d / 10)) (dch d) (dch (sec / 3600 / 10)) (dch (sec / 3600))
        (dch (sec / 60 mod 60 / 10)) (dch (sec / 60 mod 60)) (dch (sec mod 60 / 10)) (dch (sec mod 60))
        (fraction_text (dch (micro / 10 / 10 / 10 / 10 / 10)) (dch (micro / 10 / 10 / 10 / 10))
          (dch (micro / 10 / 10 / 10)) (dch (micro / 10 / 10)) (dch (micro / 10)) (dch micro)))).
      rewrite scan_fraction; rewrite ?num4_dch, ?num2_dch by lia; try apply dch_digit; try lia; [|done|].
      + unfold text_day, text_seconds. rewrite num4_dch, !num2_dch, num6_dch by lia. done.
      + rewrite !Forall_cons. repeat split; try apply dch_digit. constructor. }
  by rewrite Hscan, Hc.
Qed.

(** Reading an instant's text back in UTC. *)
Lemma isoformat_roundtrip us : in_calendar us = true →
  ∃ w, fromisoformat (dt_isoformat (utc us)) = Ok w ∧ wall_offset w = Some 0 ∧ wall_utc w 0 = Ok (utc us).
Proof.
  intros H. rewrite fromisoformat_isoformat by done. eexists. split; [done|]. split; [done|].
  unfold wall_utc. cbn [wall_us]. by rewrite Z.sub_0_r, H.
Qed.
