(* ===== verification/ProgressCodec.v ===== *)
(** * The progress codec

    [history/progress_codec.py]: a [ScopeProgress] and the JSON the scope row stores. The
    decoder fails closed. A Python dict read from JSON is an association list with distinct
    string keys; [adapter] is opaque and comes back as it went in. The messages leave out
    the rendered values and key lists. *)

From S2P Require Import Prelude PyStr PyFloat PyTime PyIso PyJson HistoryState HistoryPlanner.

(** [set(o) == set(names)] *)
Definition keys_are (o : jobj) (names : list string) : bool :=
  bool_decide (list_to_set (o.*1) =@{gset string} list_to_set names).

(** [v == n] for a JSON value that is not a boolean. *)
Definition json_is_int (v : json) (n : Z) : bool :=
  match v with
  | JInt z => z =? n
  | JFloat x => match int_float_compare n x with Some Eq => true | _ => false end
  | _ => false
  end.

(** ** Names *)

Definition PROGRESS_VERSION : Z := 3.

(** [dataclasses.fields(ScopeProgress)], in order. *)
Definition progress_fields : list string :=
  ["target_start"; "started_at"; "floor"; "first_event_bucket"; "through"; "scan_cursor";
   "scan_failures"; "chunk_buckets"; "chunk_ceiling"; "ceiling_successes"; "failures";
   "searches"; "buckets_read"; "lower_bound_buckets"; "rows_seen"; "non_silent_buckets";
   "recent_rows_per_bucket"; "density_checked"; "gaps"].

(** [names - set(absent)] *)
Definition without (absent names : list string) : list string := filter (λ n, n ∉ absent) names.

Definition VERSION_1_ABSENT : list string := ["ceiling_successes"].
Definition VERSION_2_ABSENT : list string := ["recent_rows_per_bucket"].
Definition GAP_KEYS : list string := ["start"; "end"; "reason"].

Definition expected_fields (version : Z) : list string :=
  if version =? 1 then without VERSION_1_ABSENT progress_fields
  else if version =? 2 then without VERSION_2_ABSENT progress_fields
  else progress_fields.

Definition codec_error {A} (m : string) : result A := Err (ProgressCodecError m).

(** ** Scalars *)

Definition encode_datetime (d : datetime) (name : string) : result json :=
  if dt_aware d then Ok (JStr (dt_isoformat d))
  else codec_error (name +:+ " must be timezone-aware").

Definition decode_datetime (v : json) (name : string) : result datetime :=
  match v with
  | JStr s =>
      match fromisoformat s with
      | Err _ => codec_error (name +:+ " is not an ISO-8601 time")
      | Ok w =>
          match wall_offset w with
          | None => codec_error (name +:+ " has no timezone")
          | Some o => wall_utc w o
          end
      end
  | _ => codec_error (name +:+ " must be an ISO-8601 string")
  end.

Definition decode_int (v : json) (name : string) : result Z :=
  match v with JInt n => Ok n | _ => codec_error (name +:+ " must be an integer") end.

Definition decode_count (v : json) (name : string) : result Z :=
  count <- decode_int v name ;;
  _ <- raise_if (count <? 0) (ProgressCodecError (name +:+ " cannot be negative")) ;;
  Ok count.

Definition finite_number (x : float) (name : string) : result float :=
  if isfinite x then Ok x else codec_error (name +:+ " must be a finite number").

Definition encode_float (x : option float) (name : string) : result json :=
  match x with
  | None => Ok JNull
  | Some x => n <- finite_number x name ;; Ok (JFloat n)
  end.

Definition decode_float (v : json) (name : string) : result (option float) :=
  match v with
  | JNull => Ok None
  | JInt n => x <- float_of_int n ;; y <- finite_number x name ;; Ok (Some y)
  | JFloat x => y <- finite_number x name ;; Ok (Some y)
  | _ => codec_error (name +:+ " must be a number or null")
  end.

(** A name of [_DATETIME_FIELDS]: the two required ones refuse [null]. *)
Definition decode_datetime_field (body : jobj) (name : string) : result (option datetime) :=
  raw <- obj_get body name ;;
  match raw with
  | JNull => Ok None
  | v => d <- decode_datetime v name ;; Ok (Some d)
  end.

Definition decode_required_datetime (body : jobj) (name : string) : result datetime :=
  d <- decode_datetime_field body name ;;
  match d with
  | Some d => Ok d
  | None => codec_error (name +:+ " is required")
  end.

(** A name of [_INT_FIELDS], and one of [_OPTIONAL_INTS]. *)
Definition decode_int_field (body : jobj) (name : string) : result Z :=
  raw <- obj_get body name ;; decode_int raw name.

Definition decode_optional_int (body : jobj) (name : string) : result (option Z) :=
  raw <- obj_get body name ;;
  match raw with JNull => Ok None | v => n <- decode_int v name ;; Ok (Some n) end.

(** ** Gaps *)

Definition encode_gap (g : Gap) : result json :=
  a <- encode_datetime (gap_start g) "gap start" ;;
  b <- encode_datetime (gap_end g) "gap end" ;;
  Ok (JObj [("start", a); ("end", b); ("reason", JStr (gap_reason g))]).

Definition decode_gap (index : Z) (raw : json) : result Gap :=
  let at_ := "gap " +:+ pretty index in
  match raw with
  | JObj o =>
      if negb (keys_are o GAP_KEYS) then codec_error (at_ +:+ " must have exactly its keys")
      else
        reason <- obj_get o "reason" ;;
        match reason with
        | JStr r =>
            s <- obj_get o "start" ;; a <- decode_datetime s (at_ +:+ " start") ;;
            e <- obj_get o "end" ;; b <- decode_datetime e (at_ +:+ " end") ;;
            Ok {| gap_start := a; gap_end := b; gap_reason := r |}
        | _ => codec_error (at_ +:+ " reason must be a string")
        end
  | _ => codec_error (at_ +:+ " must have exactly its keys")
  end.

(** [for index, raw in enumerate(raw_gaps)] *)
Fixpoint decode_gaps (index : Z) (l : list json) : result (list Gap) :=
  match l with
  | [] => Ok []
  | raw :: l => g <- decode_gap index raw ;; gs <- decode_gaps (index + 1) l ;; Ok (g :: gs)
  end.

(** ** The progress *)

Definition json_of_int (x : option Z) : json := match x with Some n => JInt n | None => JNull end.

Definition encode_optional_datetime (d : option datetime) (name : string) : result json :=
  match d with Some d => encode_datetime d name | None => Ok JNull end.

Definition encode_body (p : ScopeProgress) : result jobj :=
  target <- encode_datetime (sp_target_start p) "target_start" ;;
  started <- encode_datetime (sp_started_at p) "started_at" ;;
  floor <- encode_optional_datetime (sp_floor p) "floor" ;;
  first <- encode_optional_datetime (sp_first_event_bucket p) "first_event_bucket" ;;
  through <- encode_optional_datetime (sp_through p) "through" ;;
  cursor <- encode_optional_datetime (sp_scan_cursor p) "scan_cursor" ;;
  recent <- encode_float (sp_recent_rows_per_bucket p) "recent_rows_per_bucket" ;;
  gaps <- mapM_result encode_gap (sp_gaps p) ;;
  Ok [("target_start", target); ("started_at", started); ("floor", floor);
      ("first_event_bucket", first); ("through", through); ("scan_cursor", cursor);
      ("scan_failures", JInt (sp_scan_failures p));
      ("chunk_buckets", json_of_int (sp_chunk_buckets p));
      ("chunk_ceiling", json_of_int (sp_chunk_ceiling p));
      ("ceiling_successes", JInt (sp_ceiling_successes p));
      ("failures", JInt (sp_failures p)); ("searches", JInt (sp_searches p));
      ("buckets_read", JInt (sp_buckets_read p));
      ("lower_bound_buckets", JInt (sp_lower_bound_buckets p));
      ("rows_seen", JInt (sp_rows_seen p));
      ("non_silent_buckets", JInt (sp_non_silent_buckets p));
      ("recent_rows_per_bucket", recent);
      ("density_checked", JBool (sp_density_checked p)); ("gaps", JList gaps)].

Definition encode_progress (p : ScopeProgress) (adapter : option jobj) : result json :=
  body <- encode_body p ;;
  Ok (JObj [("version", JInt PROGRESS_VERSION); ("progress", JObj body);
            ("adapter", JObj (default [] adapter))]).

Definition decode_body (version : Z) (body : jobj) : result ScopeProgress :=
  target <- decode_required_datetime body "target_start" ;;
  started <- decode_required_datetime body "started_at" ;;
  floor <- decode_datetime_field body "floor" ;;
  first <- decode_datetime_field body "first_event_bucket" ;;
  through <- decode_datetime_field body "through" ;;
  cursor <- decode_datetime_field body "scan_cursor" ;;
  scan_failures <- decode_int_field body "scan_failures" ;;
  width <- decode_optional_int body "chunk_buckets" ;;
  ceiling <- decode_optional_int body "chunk_ceiling" ;;
  failures <- decode_int_field body "failures" ;;
  searches <- decode_int_field body "searches" ;;
  read <- decode_int_field body "buckets_read" ;;
  lb <- decode_int_field body "lower_bound_buckets" ;;
  rows <- decode_int_field body "rows_seen" ;;
  non_silent <- decode_int_field body "non_silent_buckets" ;;
  successes <- (if version =? 1 then Ok 0
                else raw <- obj_get body "ceiling_successes" ;; decode_count raw "ceiling_successes") ;;
  recent <- (if version <? 3 then Ok None
             else raw <- obj_get body "recent_rows_per_bucket" ;; decode_float raw "recent_rows_per_bucket") ;;
  checked <- obj_get body "density_checked" ;;
  checked <- (match checked with JBool b => Ok b | _ => codec_error "density_checked must be a boolean" end) ;;
  raw_gaps <- obj_get body "gaps" ;;
  gaps <- (match raw_gaps with JList l => decode_gaps 0 l | _ => codec_error "gaps must be a list" end) ;;
  Ok {| sp_target_start := target; sp_started_at := started; sp_floor := floor;
        sp_first_event_bucket := first; sp_through := through; sp_scan_cursor := cursor;
        sp_scan_failures := scan_failures; sp_chunk_buckets := width;
        sp_chunk_ceiling := ceiling; sp_ceiling_successes := successes;
        sp_failures := failures; sp_searches := searches; sp_buckets_read := read;
        sp_lower_bound_buckets := lb; sp_rows_seen := rows; sp_non_silent_buckets := non_silent;
        sp_recent_rows_per_bucket := recent; sp_density_checked := checked; sp_gaps := gaps |}.

(** The version a stored value names: 1, 2 or 3, as an integer or an equal float. *)
Definition version_of (v : json) : option Z :=
  if json_is_int v 1 then Some 1 else if json_is_int v 2 then Some 2
  else if json_is_int v PROGRESS_VERSION then Some PROGRESS_VERSION else None.

Definition decode_progress (data : json) : result (ScopeProgress * jobj) :=
  match data with
  | JObj data =>
      if negb (keys_are data ["version"; "progress"; "adapter"]) then
        codec_error "progress keys differ from ['adapter', 'progress', 'version']"
      else
        v <- obj_get data "version" ;;
        match version_of v with
        | None => codec_error "progress version is not 1, 2 or 3"
        | Some version =>
            adapter <- obj_get data "adapter" ;;
            match adapter with
            | JObj adapter =>
                body <- obj_get data "progress" ;;
                match body with
                | JObj body =>
                    if negb (keys_are body (expected_fields version)) then
                      codec_error "progress fields differ"
                    else p <- decode_body version body ;; Ok (p, adapter)
                | _ => codec_error "progress body must be an object"
                end
            | _ => codec_error "adapter must be an object"
            end
        end
  | _ => codec_error "progress must be an object"
  end.

(** ** Round trips *)

#[global] Arguments fromisoformat : simpl never.
#[global] Arguments dt_isoformat : simpl never.
#[global] Arguments decode_datetime : simpl never.
#[global] Arguments decode_int : simpl never.
#[global] Arguments decode_float : simpl never.

(** A datetime the codec can store: aware, in UTC, in Python's calendar. *)
Definition stored_dt (d : datetime) : Prop := ∃ us, d = utc us ∧ in_calendar us = true.

Definition stored_gap (g : Gap) : Prop := stored_dt (gap_start g) ∧ stored_dt (gap_end g).

(** A progress the codec can store. *)
Record storable (p : ScopeProgress) : Prop := {
  so_target : stored_dt (sp_target_start p);
  so_started : stored_dt (sp_started_at p);
  so_floor : ∀ d, sp_floor p = Some d → stored_dt d;
  so_first : ∀ d, sp_first_event_bucket p = Some d → stored_dt d;
  so_through : ∀ d, sp_through p = Some d → stored_dt d;
  so_cursor : ∀ d, sp_scan_cursor p = Some d → stored_dt d;
  so_successes : 0 <= sp_ceiling_successes p;
  so_recent : ∀ x, sp_recent_rows_per_bucket p = Some x → isfinite x = true;
  so_gaps : Forall stored_gap (sp_gaps p)
}.

Definition dt_json (d : datetime) : json := JStr (dt_isoformat d).

Lemma obj_get_here o k v : obj_get ((k, v) :: o) k = Ok v.
Proof. cbn. by rewrite decide_True. Qed.

Lemma obj_get_next o k k' v : k ≠ k' → obj_get ((k', v) :: o) k = obj_get o k.
Proof. intros H. cbn. by rewrite decide_False. Qed.

Ltac obj_lookup := repeat first [rewrite obj_get_here | rewrite obj_get_next by done].

Lemma stored_encode d name : stored_dt d → encode_datetime d name = Ok (dt_json d).
Proof. by intros (us & -> & _). Qed.

Lemma stored_decode d name : stored_dt d → decode_datetime (dt_json d) name = Ok d.
Proof.
  intros (us & -> & Hc). unfold decode_datetime, dt_json.
  destruct (isoformat_roundtrip us Hc) as (w & -> & Ho & Hw). by rewrite Ho.
Qed.

(** The datetimes the decoder returns are storable. *)
Lemma decoded_stored v name d : decode_datetime v name = Ok d → stored_dt d.
Proof.
  unfold decode_datetime. destruct v; try discriminate. destruct (fromisoformat _) as [w|]; [|discriminate].
  destruct (wall_offset w) as [o|]; [|discriminate]. unfold wall_utc.
  destruct (in_calendar (wall_us w - o)) eqn:E; [|discriminate]. intros [= <-]. by eexists.
Qed.

Definition opt_dt_json (d : option datetime) : json := match d with Some d => dt_json d | None => JNull end.

Lemma stored_encode_opt d name : (∀ x, d = Some x → stored_dt x) →
  encode_optional_datetime d name = Ok (opt_dt_json d).
Proof. intros H. destruct d as [d|]; [|done]. cbn. by apply stored_encode, H. Qed.

Lemma decode_field_opt o name d : (∀ x, d = Some x → stored_dt x) →
  obj_get o name = Ok (opt_dt_json d) → decode_datetime_field o name = Ok d.
Proof.
  intros H Hg. unfold decode_datetime_field. rewrite Hg. cbn [res_bind].
  destruct d as [d|]; [|done]. cbn [opt_dt_json dt_json]. change (JStr (dt_isoformat d)) with (dt_json d).
  by rewrite stored_decode by (by apply H).
Qed.

Lemma decode_field_required o name d : stored_dt d →
  obj_get o name = Ok (dt_json d) → decode_required_datetime o name = Ok d.
Proof.
  intros H Hg. unfold decode_required_datetime. rewrite (decode_field_opt o name (Some d)); [done| |done].
  by intros x [= <-].
Qed.

Definition gap_json (g : Gap) : json :=
  JObj [("start", dt_json (gap_start g)); ("end", dt_json (gap_end g)); ("reason", JStr (gap_reason g))].

Lemma encode_gap_ok g : stored_gap g → encode_gap g = Ok (gap_json g).
Proof. intros [Ha Hb]. unfold encode_gap. by rewrite !stored_encode. Qed.

Lemma decode_gap_ok i g : stored_gap g → decode_gap i (gap_json g) = Ok g.
Proof.
  intros [Ha Hb]. unfold decode_gap, gap_json. 
  change (keys_are _ _) with true. cbn [negb]. obj_lookup. cbn [res_bind].
  obj_lookup. cbn [res_bind]. rewrite stored_decode by done. cbn [res_bind].
  obj_lookup. cbn [res_bind]. rewrite stored_decode by done. by destruct g.
Qed.

Lemma decode_gaps_ok i gs : Forall stored_gap gs → decode_gaps i (gap_json <$> gs) = Ok gs.
Proof.
  intros H. revert i. induction H as [|g gs Hg _ IH]; intros i; [done|].
  rewrite fmap_cons. cbn [decode_gaps]. rewrite decode_gap_ok by done. cbn [res_bind]. by rewrite IH.
Qed.

(** The body of a storable progress. *)
Definition body_json (p : ScopeProgress) : jobj :=
  [("target_start", dt_json (sp_target_start p)); ("started_at", dt_json (sp_started_at p));
   ("floor", opt_dt_json (sp_floor p)); ("first_event_bucket", opt_dt_json (sp_first_event_bucket p));
   ("through", opt_dt_json (sp_through p)); ("scan_cursor", opt_dt_json (sp_scan_cursor p));
   ("scan_failures", JInt (sp_scan_failures p)); ("chunk_buckets", json_of_int (sp_chunk_buckets p));
   ("chunk_ceiling", json_of_int (sp_chunk_ceiling p));
   ("ceiling_successes", JInt (sp_ceiling_successes p)); ("failures", JInt (sp_failures p));
   ("searches", JInt (sp_searches p)); ("buckets_read", JInt (sp_buckets_read p));
   ("lower_bound_buckets", JInt (sp_lower_bound_buckets p)); ("rows_seen", JInt (sp_rows_seen p));
   ("non_silent_buckets", JInt (sp_non_silent_buckets p));
   ("recent_rows_per_bucket", match sp_recent_rows_per_bucket p with Some x => JFloat x | None => JNull end);
   ("density_checked", JBool (sp_density_checked p)); ("gaps", JList (gap_json <$> sp_gaps p))].

Lemma encode_body_ok p : storable p → encode_body p = Ok (body_json p).
Proof.
  intros []. unfold encode_body. rewrite !stored_encode by done. cbn [res_bind].
  rewrite !stored_encode_opt by done. cbn [res_bind].
  rewrite (mapM_result_ok encode_gap gap_json)
    by (intros g Hg; apply encode_gap_ok; by rewrite Forall_forall in so_gaps0; apply so_gaps0).
  unfold body_json. destruct (sp_recent_rows_per_bucket p) as [x|]; [|done].
  cbn [encode_float]. unfold finite_number. by rewrite so_recent0.
Qed.

Lemma decode_int_field_ok o name n : obj_get o name = Ok (JInt n) → decode_int_field o name = Ok n.
Proof. intros H. unfold decode_int_field. by rewrite H. Qed.

Lemma decode_optional_int_ok o name x : obj_get o name = Ok (json_of_int x) →
  decode_optional_int o name = Ok x.
Proof. intros H. unfold decode_optional_int. rewrite H. by destruct x. Qed.

(** A field of [body_json] is found under its name. *)
Ltac body_field := done || (unfold body_json; by obj_lookup).

Lemma decode_body_ok p : storable p → decode_body 3 (body_json p) = Ok p.
Proof.
  intros []. unfold decode_body.
  rewrite (decode_field_required _ "target_start" (sp_target_start p)) by body_field.
  rewrite (decode_field_required _ "started_at" (sp_started_at p)) by body_field.
  rewrite (decode_field_opt _ "floor" (sp_floor p)) by body_field.
  rewrite (decode_field_opt _ "first_event_bucket" (sp_first_event_bucket p)) by body_field.
  rewrite (decode_field_opt _ "through" (sp_through p)) by body_field.
  rewrite (decode_field_opt _ "scan_cursor" (sp_scan_cursor p)) by body_field.
  cbn [res_bind].
  rewrite (decode_int_field_ok _ "scan_failures" (sp_scan_failures p)) by body_field.
  rewrite (decode_optional_int_ok _ "chunk_buckets" (sp_chunk_buckets p)) by body_field.
  rewrite (decode_optional_int_ok _ "chunk_ceiling" (sp_chunk_ceiling p)) by body_field.
  rewrite (decode_int_field_ok _ "failures" (sp_failures p)) by body_field.
  rewrite (decode_int_field_ok _ "searches" (sp_searches p)) by body_field.
  rewrite (decode_int_field_ok _ "buckets_read" (sp_buckets_read p)) by body_field.
  rewrite (decode_int_field_ok _ "lower_bound_buckets" (sp_lower_bound_buckets p)) by body_field.
  rewrite (decode_int_field_ok _ "rows_seen" (sp_rows_seen p)) by body_field.
  rewrite (decode_int_field_ok _ "non_silent_buckets" (sp_non_silent_buckets p)) by body_field.
  unfold body_json. cbn [res_bind]. change (3 =? 1) with false. change (3 <? 3) with false. cbv iota.
  obj_lookup. cbn [res_bind]. unfold decode_count. change (decode_int (JInt ?n) _) with (@Ok Z n).
  cbn [res_bind]. rewrite (proj2 (Z.ltb_ge _ _) so_successes0). cbn [raise_if res_bind]. obj_lookup. cbn [res_bind].
  assert (Hx : decode_float (match sp_recent_rows_per_bucket p with Some x => JFloat x | None => JNull end)
    "recent_rows_per_bucket" = Ok (sp_recent_rows_per_bucket p)).
  { destruct (sp_recent_rows_per_bucket p) as [x|]; [|done]. unfold decode_float, finite_number.
    by rewrite so_recent0. }
  rewrite Hx. cbn [res_bind]. obj_lookup. cbn [res_bind]. obj_lookup. cbn [res_bind].
  rewrite decode_gaps_ok by done. by destruct p.
Qed.

(** What decodes is storable. *)
Lemma decode_field_stored o name d : decode_datetime_field o name = Ok d →
  ∀ x, d = Some x → stored_dt x.
Proof.
  unfold decode_datetime_field. intros H. bind_inv H.
  destruct r; try (bind_inv H); apply (inj (@Ok _)) in H as <-; intros z [= <-];
    by eapply decoded_stored.
Qed.

Lemma decode_required_stored o name d : decode_required_datetime o name = Ok d → stored_dt d.
Proof.
  unfold decode_required_datetime. intros H. bind_inv H. destruct r as [x|]; [|discriminate].
  apply (inj (@Ok _)) in H as <-. by eapply decode_field_stored.
Qed.

Lemma decode_float_finite v name o : decode_float v name = Ok o → ∀ x, o = Some x → isfinite x = true.
Proof.
  unfold decode_float, finite_number.
  destruct v; try discriminate; intros H; [by apply (inj (@Ok _)) in H as <-| |]; try (bind_inv H).
  - destruct (isfinite r) eqn:E'; [|discriminate]. apply (inj (@Ok _)) in H as <-. by intros x [= <-].
  - destruct (isfinite x) eqn:E'; [|discriminate]. res_simp. by intros y [= <-].
Qed.

Lemma decode_gaps_stored i l gs : decode_gaps i l = Ok gs → Forall stored_gap gs.
Proof.
  revert i gs. induction l as [|raw l IH]; intros i gs H; cbn [decode_gaps] in H; [by res_simp|].
  bind_inv H. bind_inv H. apply (inj (@Ok _)) in H as <-. constructor; [|by eapply IH].
  unfold decode_gap in E. destruct raw as [| | | | | |o]; try discriminate.
  destruct (negb _); [discriminate|]. bind_inv E. destruct r1; try discriminate.
  bind_inv E. bind_inv E. bind_inv E. bind_inv E. apply (inj (@Ok _)) in E as <-.
  split; cbn [gap_start gap_end]; by eapply decoded_stored.
Qed.

Lemma decode_body_stored v o p : decode_body v o = Ok p → storable p.
Proof.
  unfold decode_body. intros H. do 15 bind_inv H. bind_inv H.
  assert (Hs : 0 <= r14).
  { destruct (v =? 1); [by res_simp|]. bind_inv E14. unfold decode_count in E14. bind_inv E14.
    bind_inv E14. destruct (Z.ltb_spec r16 0); [discriminate|]. res_simp. lia. }
  bind_inv H.
  assert (Hr : ∀ x, r15 = Some x → isfinite x = true).
  { destruct (v <? 3); [by res_simp|]. bind_inv E15. by eapply decode_float_finite. }
  do 4 bind_inv H. apply (inj (@Ok _)) in H as <-.
  split; cbn; try done; try (by eapply decode_required_stored); try (by eapply decode_field_stored).
  destruct r18; try discriminate. by eapply decode_gaps_stored.
Qed.

(** ** The whole value *)

Definition progress_json (p : ScopeProgress) (adapter : jobj) : json :=
  JObj [("version", JInt 3); ("progress", JObj (body_json p)); ("adapter", JObj adapter)].

Lemma encode_progress_ok p a : storable p → encode_progress p a = Ok (progress_json p (default [] a)).
Proof. intros H. unfold encode_progress. by rewrite encode_body_ok. Qed.

Lemma body_keys p : keys_are (body_json p) progress_fields = true.
Proof. apply bool_decide_eq_true. reflexivity. Qed.

Lemma decode_progress_ok p a : storable p → decode_progress (progress_json p a) = Ok (p, a).
Proof.
  intros H. unfold decode_progress, progress_json.
  change (keys_are [("version", _); _; _] _) with true. cbn [negb]. obj_lookup. cbn [res_bind].
  change (version_of (JInt 3)) with (Some 3). cbv iota.
  obj_lookup. cbn [res_bind]. obj_lookup. cbn [res_bind].
  change (expected_fields 3) with progress_fields. rewrite body_keys. cbn [negb].
  by rewrite decode_body_ok.
Qed.

(** A value the decoder accepts, taken apart. *)
Record accepted (fields : jobj) (p : ScopeProgress) (a : jobj) (version : Z) (body : jobj) : Prop := {
  ac_keys : keys_are fields ["version"; "progress"; "adapter"] = true;
  ac_version : ∃ v, obj_get fields "version" = Ok v ∧ version_of v = Some version;
  ac_adapter : obj_get fields "adapter" = Ok (JObj a);
  ac_body : obj_get fields "progress" = Ok (JObj body);
  ac_fields : keys_are body (expected_fields version) = true;
  ac_decoded : decode_body version body = Ok p
}.

Lemma decode_progress_inv j p a : decode_progress j = Ok (p, a) →
  ∃ fields version body, j = JObj fields ∧ accepted fields p a version body.
Proof.
  unfold decode_progress. destruct j as [| | | | | |fields]; try discriminate.
  destruct (keys_are fields _) eqn:Hk; [|discriminate]. cbn [negb]. intros H.
  bind_inv H. destruct (version_of r) as [version|] eqn:Hv; [|discriminate].
  bind_inv H. destruct r0 as [| | | | | |adapter]; try discriminate.
  bind_inv H. destruct r0 as [| | | | | |body]; try discriminate.
  destruct (keys_are body _) eqn:Hb; [|discriminate]. cbn [negb] in H. bind_inv H.
  injection H as -> ->. exists fields, version, body. split; [done|]. split; eauto.
Qed.

Lemma decode_int_field_inv o name n : decode_int_field o name = Ok n → obj_get o name = Ok (JInt n).
Proof.
  unfold decode_int_field, decode_int. intros H. bind_inv H. destruct r; try discriminate. by res_simp.
Qed.

(** ** Theorems *)

(** C36: a stored progress resumes exactly. A progress whose times are aware and in the
    calendar, whose density is finite and whose counter is not negative encodes, and its
    JSON decodes to that progress and the adapter state it was stored with, field by
    field: through the ISO-8601 text of its times, and with its gaps in order. *)
Theorem progress_roundtrip p adapter : storable p →
  ∃ j, encode_progress p adapter = Ok j ∧ decode_progress j = Ok (p, default [] adapter).
Proof.
  intros H. eexists. split; [by apply encode_progress_ok|]. by apply decode_progress_ok.
Qed.

(** Whatever the decoder accepts, of any version, is a progress the codec can store:
    times in UTC, a finite density, no negative counter. Re-encoding it gives the current
    version, which decodes to the same progress and adapter state. *)
Theorem decoded_reencodes j p a : decode_progress j = Ok (p, a) →
  storable p ∧ ∃ j', encode_progress p (Some a) = Ok j' ∧ decode_progress j' = Ok (p, a).
Proof.
  intros H. destruct (decode_progress_inv _ _ _ H) as (fields & version & body & -> & []).
  pose proof (decode_body_stored _ _ _ ac_decoded0) as Hs. split; [done|].
  eexists. split; [by apply encode_progress_ok|]. by apply decode_progress_ok.
Qed.

(** The decoder fails closed. A value it accepts is an object with exactly the three
    keys, version 1, 2 or 3, and exactly the fields of that version; every counter is the
    integer stored under its name, and the adapter state is the stored one. Only a field
    the version lacks gets a default: the release counter 0 in version 1, no density
    below version 3. *)
Theorem decode_fails_closed j p a : decode_progress j = Ok (p, a) →
  ∃ fields v version body,
    j = JObj fields ∧ keys_are fields ["version"; "progress"; "adapter"] = true ∧
    obj_get fields "version" = Ok v ∧ version_of v = Some version ∧
    obj_get fields "adapter" = Ok (JObj a) ∧ obj_get fields "progress" = Ok (JObj body) ∧
    keys_are body (expected_fields version) = true ∧
    obj_get body "scan_failures" = Ok (JInt (sp_scan_failures p)) ∧
    obj_get body "failures" = Ok (JInt (sp_failures p)) ∧
    obj_get body "searches" = Ok (JInt (sp_searches p)) ∧
    obj_get body "buckets_read" = Ok (JInt (sp_buckets_read p)) ∧
    obj_get body "lower_bound_buckets" = Ok (JInt (sp_lower_bound_buckets p)) ∧
    obj_get body "rows_seen" = Ok (JInt (sp_rows_seen p)) ∧
    obj_get body "non_silent_buckets" = Ok (JInt (sp_non_silent_buckets p)) ∧
    (version = 1 → sp_ceiling_successes p = 0) ∧ (version < 3 → sp_recent_rows_per_bucket p = None).
Proof.
  intros H. destruct (decode_progress_inv _ _ _ H) as (fields & version & body & -> & []).
  destruct ac_version0 as (v & Hv & Hver). exists fields, v, version, body. do 7 (split; [done|]).
  unfold decode_body in ac_decoded0. do 15 bind_inv ac_decoded0. do 2 bind_inv ac_decoded0.
  do 4 bind_inv ac_decoded0. apply (inj (@Ok _)) in ac_decoded0 as <-. cbn.
  do 7 (split; [by apply decode_int_field_inv|]). split.
  - intros ->. change (1 =? 1) with true in E14. cbv iota in E14. by res_simp.
  - intros Hlt. rewrite (proj2 (Z.ltb_lt version 3) Hlt) in E15. cbv iota in E15. by res_simp.
Qed.

(** A version-1 row that was written before the density existed is refused. The
    version-1 field set drops only the release counter, so a body without
    [recent_rows_per_bucket], the field version 3 introduced, never decodes as version 1. *)
Theorem version_1_needs_density body adapter :
  "recent_rows_per_bucket" ∉ body.*1 →
  decode_progress (JObj [("version", JInt 1); ("progress", JObj body); ("adapter", JObj adapter)]) =
  Err (ProgressCodecError "progress fields differ").
Proof.
  intros H. unfold decode_progress.
  change (keys_are [("version", _); _; _] _) with true. cbn [negb]. obj_lookup. cbn [res_bind].
  change (version_of (JInt 1)) with (Some 1). cbv iota.
  obj_lookup. cbn [res_bind]. obj_lookup. cbn [res_bind].
  assert (Hk : keys_are body (expected_fields 1) = false); [|by rewrite Hk].
  apply bool_decide_eq_false. intros E. apply H.
  apply (elem_of_list_to_set (C := gset string)). rewrite E.
  apply elem_of_list_to_set. apply (bool_decide_unpack _). vm_compute. done.
Qed.

(** ** Examples *)

Definition ex_progress : ScopeProgress := {|
  sp_target_start := utc 0; sp_started_at := utc 1500000; sp_floor := Some (utc 0);
  sp_first_event_bucket := None; sp_through := Some (utc 300000000); sp_scan_cursor := None;
  sp_scan_failures := 0; sp_chunk_buckets := Some 144; sp_chunk_ceiling := None;
  sp_ceiling_successes := 2; sp_failures := 1; sp_searches := 9; sp_buckets_read := 2;
  sp_lower_bound_buckets := 0; sp_rows_seen := 31; sp_non_silent_buckets := 2;
  sp_recent_rows_per_bucket := Some (div_round 31 2); sp_density_checked := true;
  sp_gaps := [{| gap_start := utc 0; gap_end := utc 300000000; gap_reason := "search failed" |}] |}.

Lemma ex_storable : storable ex_progress.
Proof.
  assert (H : ∀ us, in_calendar us = true → stored_dt (utc us)) by (intros us Hus; by exists us).
  split; cbn; try (by apply H); try done; try (intros d [= <-]; by apply H).
  - intros x [= <-]. reflexivity.
  - constructor; [split; by apply H|constructor].
Qed.

Lemma progress_roundtrip_witness :
  ∃ j, encode_progress ex_progress None = Ok j ∧ decode_progress j = Ok (ex_progress, []).
Proof. exact (progress_roundtrip ex_progress None ex_storable). Defined.

(** A version-2 body: no density. *)
Definition ex_v2 : json :=
  JObj [("version", JInt 2); ("adapter", JObj [("n", JInt 4)]);
        ("progress", JObj (filter (λ kv, kv.1 ≠ "recent_rows_per_bucket") (body_json ex_progress)))].

Lemma ex_v2_decodes : ∃ p, decode_progress ex_v2 = Ok (p, [("n", JInt 4)]).
Proof. eexists. vm_compute. reflexivity. Qed.

Lemma decoded_reencodes_witness : ∃ p j', encode_progress p (Some [("n", JInt 4)]) = Ok j' ∧
  decode_progress j' = Ok (p, [("n", JInt 4)]).
Proof.
  destruct ex_v2_decodes as [p H]. destruct (decoded_reencodes _ _ _ H) as (_ & j' & He).
  by exists p, j'.
Defined.

Lemma decode_fails_closed_witness : ∃ p, decode_progress ex_v2 = Ok (p, [("n", JInt 4)]) ∧
  sp_recent_rows_per_bucket p = None.
Proof.
  destruct ex_v2_decodes as [p H].
  destruct (decode_fails_closed _ _ _ H) as (fields & v & ver & body & E & _ & Hv & Hver & _ & _ & _ & _ & _ & _ & _ & _ & _ & _ & _ & Hd).
  exists p. split; [exact H|]. apply Hd. unfold ex_v2 in E.
  assert (fields = match ex_v2 with JObj f => f | _ => [] end) as -> by (by injection E as <-).
  assert (v = JInt 2) as -> by (by vm_compute in Hv; injection Hv as <-).
  by injection Hver as <-.
Defined.

Lemma version_1_needs_density_witness :
  decode_progress (JObj [("version", JInt 1); ("progress", JObj (filter (λ kv, kv.1 ∉ ["recent_rows_per_bucket"; "ceiling_successes"])
    (body_json ex_progress))); ("adapter", JObj [])]) = Err (ProgressCodecError "progress fields differ").
Proof.
  apply version_1_needs_density. apply (bool_decide_unpack _). vm_compute. done.
Defined.
