(* ===== verification/HistoryLifecycle.v ===== *)
(** * The scope lifecycle

    [history/lifecycle.py]: the one function that says what a tick does to a scope, and the
    builders of the column mappings a tick writes. The planner's progress rides along as the
    JSON body of [ProgressCodec]. *)

From S2P Require Import Prelude PyStr PyFloat PyTime PyIso HistoryState HistoryPlanner PyJson ProgressCodec.

Definition MAX_REASON_LENGTH : Z := 255.
Definition ANSWER_YES : string := "YES".
Definition ANSWER_NO : string := "NO".

Definition SCOPE_COLUMNS : list string :=
  ["instance_id"; "family"; "scope_key"; "state"; "days_requested"; "days_target";
   "target_start"; "floor"; "through"; "anchor"; "started_at"; "finished_at"; "reason";
   "last_error_class"; "last_error_at"; "progress"].

(** [_PER_SOURCE]: one scope per log source; the other families are console-wide. *)
Definition per_source (f : HistoryFamily) : bool := bool_decide (f ∈ [F_WAF; F_IPS]).
Definition READING_OR_WAITING : list HistoryState := [S_READING; S_WAITING].
Definition FINISHED : list HistoryState := [S_COMPLETE; S_PARTIAL; S_UNAVAILABLE].

Definition NOT_ELIGIBLE_REASON : string :=
  "this source already collected live data; history cannot be read before it (disable the profile and create it again to read its history)".
Definition RESTART_REASON : string := "read history now: topping up".
Definition SWITCHED_OFF_REASON : string := "history reading was switched off".

(** [text] cut to [limit] characters, ending in an ellipsis when it was cut. *)
Definition bounded_reason (text : string) (limit : Z) : string :=
  if py_len text <=? limit then text else py_slice_to (limit - 1) text +:+ "…".

Definition reason_column (text : string) : string := bounded_reason text MAX_REASON_LENGTH.

(** [_aware]. *)
Definition check_aware_opt (d : option datetime) (name : string) : result unit :=
  match d with
  | Some d => raise_if (negb (dt_aware d)) (LifecycleError (name +:+ " must be timezone-aware"))
  | None => Ok tt
  end.

(** ** The decision *)

Inductive ConsoleMode := CM_UNDECIDED | CM_NO | CM_ACTIVE | CM_STOPPED.

#[export] Instance ConsoleMode_eq_dec : EqDecision ConsoleMode.
Proof. solve_decision. Defined.

Record DecisionView := {
  dv_answer : string; dv_days : option Z;
  dv_start_requested_at : option datetime; dv_start_requested_by : option string;
  dv_stop_requested_at : option datetime; dv_stop_requested_by : option string }.

(** One turn of the loop over the two kinds of request. *)
Definition check_request (answer : string) (kind : string) (at_ : option datetime) (by_ : option string)
    : result unit :=
  _ <- raise_if (negb (Bool.eqb (is_some_b at_) (is_some_b by_)))
         (LifecycleError (kind +:+ "_requested_at and _by are set together")) ;;
  _ <- check_aware_opt at_ (kind +:+ "_requested_at") ;;
  raise_if (is_some_b at_ && negb (bool_decide (answer = ANSWER_YES)))
    (LifecycleError "a request exists only on a YES").

(** [DecisionView.__post_init__]. *)
Definition check_decision (d : DecisionView) : result unit :=
  _ <- raise_if (negb (bool_decide (dv_answer d ∈ [ANSWER_YES; ANSWER_NO])))
         (LifecycleError ("unknown decision answer " +:+ py_repr (dv_answer d))) ;;
  _ <- raise_if (negb (Bool.eqb (bool_decide (dv_answer d = ANSWER_YES)) (is_some_b (dv_days d))))
         (LifecycleError "a YES carries days and a NO carries none") ;;
  _ <- check_request (dv_answer d) "start" (dv_start_requested_at d) (dv_start_requested_by d) ;;
  check_request (dv_answer d) "stop" (dv_stop_requested_at d) (dv_stop_requested_by d).

(** [decision_view]: the six columns of the row, from an object or a mapping; [str] of the
    text a mapping holds is that text. *)
Definition decision_view (row : option DecisionView) : result (option DecisionView) :=
  match row with
  | None => Ok None
  | Some d => _ <- check_decision d ;; Ok (Some d)
  end.

Definition console_mode (decision : option DecisionView) : result ConsoleMode :=
  match decision with
  | None => Ok CM_UNDECIDED
  | Some d =>
      if decide (dv_answer d = ANSWER_NO) then Ok CM_NO
      else
        match dv_stop_requested_at d, dv_start_requested_at d with
        | None, _ => Ok CM_ACTIVE
        | Some _, None => Ok CM_STOPPED
        | Some stop, Some start => later <- dt_gt stop start ;; Ok (if later then CM_STOPPED else CM_ACTIVE)
        end
  end.

(** ** The scope row *)

Record ScopeRowView := {
  rv_state : HistoryState; rv_days_requested : option Z; rv_days_target : option Z;
  rv_target_start : option datetime; rv_floor : option datetime; rv_through : option datetime;
  rv_anchor : option datetime; rv_started_at : option datetime; rv_finished_at : option datetime;
  rv_reason : option string; rv_progress : option jobj }.

(** [ScopeRowView.__post_init__]. *)
Definition check_scope_row (r : ScopeRowView) : result unit :=
  _ <- check_aware_opt (rv_target_start r) "target_start" ;;
  _ <- check_aware_opt (rv_floor r) "floor" ;;
  _ <- check_aware_opt (rv_through r) "through" ;;
  _ <- check_aware_opt (rv_anchor r) "anchor" ;;
  _ <- check_aware_opt (rv_started_at r) "started_at" ;;
  check_aware_opt (rv_finished_at r) "finished_at".

Inductive ActionKind := AK_NONE | AK_CREATE | AK_TRANSITION | AK_STEP.

#[export] Instance ActionKind_eq_dec : EqDecision ActionKind.
Proof. solve_decision. Defined.

Record ScopeAction := {
  ac_kind : ActionKind; ac_state : option HistoryState; ac_trigger : option HistoryTrigger;
  ac_reason : string; ac_anchor : option datetime }.

Definition no_action (reason : string) : ScopeAction :=
  {| ac_kind := AK_NONE; ac_state := None; ac_trigger := None; ac_reason := reason; ac_anchor := None |}.

(** [_moving]; [reason or change.reason] takes the change's reason for an empty one too. *)
Definition moving (kind : ActionKind) (current : HistoryState) (trigger : HistoryTrigger)
    (reason : option string) (anchor : option datetime) : result ScopeAction :=
  change <- next_state current trigger ;;
  let text := match reason with
              | Some r => if decide (r = "") then sc_reason change else r
              | None => sc_reason change
              end in
  Ok {| ac_kind := kind; ac_state := Some (sc_state change); ac_trigger := Some trigger;
        ac_reason := reason_column text; ac_anchor := anchor |}.

Definition check_live (has_live_data : bool) (live_anchor : option datetime) (family : HistoryFamily)
    : result unit :=
  _ <- check_aware_opt live_anchor "live_anchor" ;;
  if per_source family then Ok tt
  else raise_if (negb (Bool.eqb has_live_data (is_some_b live_anchor)))
         (LifecycleError "a console-wide scope has live data exactly when it has a live anchor").

(** [decision.stop_requested_by or "an operator"]. *)
Definition stopped_by (d : DecisionView) : string :=
  match dv_stop_requested_by d with
  | Some b => if decide (b = "") then "an operator" else b
  | None => "an operator"
  end.

(** Rule 4: ACTIVE, no row. *)
Definition create_action (family : HistoryFamily) (has_live_data : bool) (live_anchor : option datetime)
    : result ScopeAction :=
  if negb (per_source family) then
    if has_live_data then moving AK_CREATE S_NOT_REQUESTED T_REQUEST_READY None live_anchor
    else moving AK_CREATE S_NOT_REQUESTED T_REQUEST_AWAITING_ANCHOR None None
  else if has_live_data then
    moving AK_CREATE S_NOT_REQUESTED T_NOT_ELIGIBLE (Some NOT_ELIGIBLE_REASON) None
  else moving AK_CREATE S_NOT_REQUESTED T_REQUEST_READY None None.

(** Rule 5 on a finished scope: only a later request restarts it. *)
Definition restart_action (family : HistoryFamily) (decision : DecisionView) (row : ScopeRowView)
    (live_anchor : option datetime) : result ScopeAction :=
  match dv_start_requested_at decision with
  | None => Ok (no_action "the scope finished and nobody asked to read again")
  | Some started =>
      match rv_finished_at row with
      | None => Err (LifecycleError ("a " +:+ HistoryState_value (rv_state row) +:+ " scope has no finished_at"))
      | Some finished =>
          old <- dt_le started finished ;;
          if old : bool then Ok (no_action "the scope finished after the last request to read history")
          else if per_source family then
            Ok (no_action "a finished source has live data; history cannot be read again")
          else moving AK_TRANSITION (rv_state row) T_RESTART (Some RESTART_REASON) live_anchor
      end
  end.

(** Rule 5: ACTIVE, a row. *)
Definition row_action (family : HistoryFamily) (decision : DecisionView) (row : ScopeRowView)
    (has_live_data : bool) (live_anchor : option datetime) : result ScopeAction :=
  let current := rv_state row in
  if decide (current = S_WAITING) then
    if has_live_data then moving AK_TRANSITION current T_ANCHOR_FOUND None live_anchor
    else Ok (no_action "the scope waits for its first live bucket")
  else if decide (current = S_READING) then
    Ok {| ac_kind := AK_STEP; ac_state := Some S_READING; ac_trigger := None;
          ac_reason := "the scope reads its next step"; ac_anchor := None |}
  else if bool_decide (current ∈ FINISHED) then restart_action family decision row live_anchor
  else Ok (no_action "the scope is not eligible for history").

(** What the next tick does to a scope. The rules are applied in this order. *)
Definition scope_action (family : HistoryFamily) (mode : ConsoleMode) (decision : option DecisionView)
    (row : option ScopeRowView) (has_live_data : bool) (live_anchor : option datetime)
    (switch_on : bool) : result ScopeAction :=
  _ <- raise_if (negb (bool_decide (family ∈ SCOPE_TABLE_FAMILIES)))
         (LifecycleError (HistoryFamily_value family +:+ " has no scope row")) ;;
  _ <- check_live has_live_data live_anchor family ;;
  let current := match row with Some r => rv_state r | None => S_NOT_REQUESTED end in
  if bool_decide (mode ∈ [CM_UNDECIDED; CM_NO]) then Ok (no_action "the console has no Yes answer")
  else
  match decision with
  | None => Err (LifecycleError "an ACTIVE or STOPPED console has a decision")
  | Some decision =>
      if negb switch_on then
        if bool_decide (current ∈ READING_OR_WAITING) then
          moving AK_TRANSITION current T_SWITCHED_OFF (Some SWITCHED_OFF_REASON) None
        else Ok (no_action "history reading is switched off")
      else if decide (mode = CM_STOPPED) then
        if bool_decide (current ∈ READING_OR_WAITING) then
          moving AK_TRANSITION current T_STOPPED_BY_OPERATOR (Some ("stopped by " +:+ stopped_by decision)) None
        else Ok (no_action "an operator stopped history reading")
      else
        match row with
        | None => create_action family has_live_data live_anchor
        | Some row => row_action family decision row has_live_data live_anchor
        end
  end.

(** ** Row builders *)

(** A column's value. The key column's [instance_id] is opaque. *)
Inductive cell : Type :=
| CNone
| CInt (n : Z)
| CText (s : string)
| CTime (d : datetime)
| CState (s : HistoryState)
| CJson (o : jobj)
| CId (n : N).

(** A column mapping, and the attributes of a stored row. *)
Abbreviation row_map := (gmap string cell).

Definition cell_int (x : option Z) : cell := match x with Some n => CInt n | None => CNone end.
Definition cell_text (x : option string) : cell := match x with Some s => CText s | None => CNone end.
Definition cell_time (x : option datetime) : cell := match x with Some d => CTime d | None => CNone end.

Definition check_key (family : HistoryFamily) (scope_key : string) : result unit :=
  _ <- raise_if (negb (bool_decide (family ∈ SCOPE_TABLE_FAMILIES)))
         (LifecycleError (HistoryFamily_value family +:+ " has no scope row")) ;;
  raise_if (negb (Bool.eqb (per_source family) (negb (bool_decide (scope_key = "")))))
    (LifecycleError "WAF and IPS scopes have a source key and the others have none").

Definition require_decision (d : DecisionView) : result Z :=
  match dv_days d with
  | Some days => Ok days
  | None => Err (LifecycleError "a scope is created from a Yes decision")
  end.

(** The sixteen columns from their values, in the order of the mappings of the code. *)
Definition columns (instance_id : N) (family : HistoryFamily) (scope_key : string) (state : HistoryState)
    (days_requested days_target : option Z)
    (target_start floor through anchor started_at finished_at : option datetime)
    (reason : option string) (progress : jobj) : row_map :=
  list_to_map [
    ("instance_id", CId instance_id); ("family", CText (HistoryFamily_value family));
    ("scope_key", CText scope_key); ("state", CText (HistoryState_value state));
    ("days_requested", cell_int days_requested); ("days_target", cell_int days_target);
    ("target_start", cell_time target_start); ("floor", cell_time floor);
    ("through", cell_time through); ("anchor", cell_time anchor);
    ("started_at", cell_time started_at); ("finished_at", cell_time finished_at);
    ("reason", cell_text reason); ("last_error_class", CNone); ("last_error_at", CNone);
    ("progress", CJson progress)].

Definition new_scope_row (action : ScopeAction) (instance_id : N) (family : HistoryFamily)
    (scope_key : string) (decision : DecisionView) (at_ : datetime) : result row_map :=
  match ac_kind action, ac_state action with
  | AK_CREATE, Some state =>
      _ <- check_key family scope_key ;;
      _ <- check_aware_opt (Some at_) "at" ;;
      days <- require_decision decision ;;
      Ok (columns instance_id family scope_key state (Some days) None None None None (ac_anchor action)
            (if decide (state = S_READING) then Some at_ else None)
            (if decide (state = S_NOT_ELIGIBLE) then Some at_ else None)
            (Some (reason_column (ac_reason action))) [])
  | _, _ => Err (LifecycleError "new_scope_row needs a CREATE action")
  end.

Definition transition_row (action : ScopeAction) (instance_id : N) (family : HistoryFamily)
    (scope_key : string) (row : ScopeRowView) (decision : DecisionView) (at_ : datetime) : result row_map :=
  match ac_kind action, ac_state action with
  | AK_TRANSITION, Some state =>
      _ <- check_key family scope_key ;;
      _ <- check_aware_opt (Some at_) "at" ;;
      let reading := bool_decide (state = S_READING) in
      Ok (columns instance_id family scope_key state
            (match dv_days decision with Some d => Some d | None => rv_days_requested row end)
            (rv_days_target row) (rv_target_start row) (rv_floor row) (rv_through row)
            (if reading then match ac_anchor action with Some a => Some a | None => rv_anchor row end
             else rv_anchor row)
            (if reading then Some at_ else rv_started_at row)
            (if reading then None else Some at_)
            (Some (reason_column (ac_reason action))) (default [] (rv_progress row)))
  | _, _ => Err (LifecycleError "transition_row needs a TRANSITION action")
  end.

(** [row.name] of a stored row, read with the column's type. *)
Definition attr (row : row_map) (name : string) : result cell :=
  match row !! name with
  | Some c => Ok c
  | None => Err (AttributeError ("no attribute " +:+ py_repr name))
  end.

Definition attr_type_error {A} (name : string) : result A :=
  Err (TypeError ("column " +:+ name +:+ " holds a value of another type")).

Definition attr_int (row : row_map) (name : string) : result (option Z) :=
  c <- attr row name ;;
  match c with CNone => Ok None | CInt n => Ok (Some n) | _ => attr_type_error name end.
Definition attr_time (row : row_map) (name : string) : result (option datetime) :=
  c <- attr row name ;;
  match c with CNone => Ok None | CTime d => Ok (Some d) | _ => attr_type_error name end.
Definition attr_text (row : row_map) (name : string) : result (option string) :=
  c <- attr row name ;;
  match c with CNone => Ok None | CText s => Ok (Some s) | _ => attr_type_error name end.
Definition attr_json (row : row_map) (name : string) : result (option jobj) :=
  c <- attr row name ;;
  match c with CNone => Ok None | CJson o => Ok (Some o) | _ => attr_type_error name end.

Definition all_states : list HistoryState :=
  [S_NOT_REQUESTED; S_WAITING; S_READING; S_COMPLETE; S_PARTIAL; S_UNAVAILABLE; S_NOT_ELIGIBLE].

(** [HistoryState(value)]: a member, or the text of one. *)
Definition HistoryState_of (c : cell) : result HistoryState :=
  match c with
  | CState s => Ok s
  | CText t =>
      match head (filter (λ s, HistoryState_value s = t) all_states) with
      | Some s => Ok s
      | None => Err (ValueError (py_repr t +:+ " is not a valid HistoryState"))
      end
  | _ => Err (ValueError "not a valid HistoryState")
  end.

Definition scope_view (row : option row_map) : result (option ScopeRowView) :=
  match row with
  | None => Ok None
  | Some row =>
      state <- (c <- attr row "state" ;; HistoryState_of c) ;;
      days_requested <- attr_int row "days_requested" ;;
      days_target <- attr_int row "days_target" ;;
      target_start <- attr_time row "target_start" ;;
      floor <- attr_time row "floor" ;;
      through <- attr_time row "through" ;;
      anchor <- attr_time row "anchor" ;;
      started_at <- attr_time row "started_at" ;;
      finished_at <- attr_time row "finished_at" ;;
      reason <- attr_text row "reason" ;;
      progress <- attr_json row "progress" ;;
      let v := {| rv_state := state; rv_days_requested := days_requested; rv_days_target := days_target;
                  rv_target_start := target_start; rv_floor := floor; rv_through := through;
                  rv_anchor := anchor; rv_started_at := started_at; rv_finished_at := finished_at;
                  rv_reason := reason; rv_progress := progress |} in
      _ <- check_scope_row v ;;
      Ok (Some v)
  end.

Definition scope_row (view : ScopeRowView) (instance_id : N) (family : HistoryFamily)
    (scope_key : string) : result row_map :=
  _ <- check_key family scope_key ;;
  Ok (columns instance_id family scope_key (rv_state view) (rv_days_requested view) (rv_days_target view)
        (rv_target_start view) (rv_floor view) (rv_through view) (rv_anchor view) (rv_started_at view)
        (rv_finished_at view) (rv_reason view) (default [] (rv_progress view))).

(** [values["reason"] = bounded_reason(changes["reason"])]; [len(None)] raises. *)
Definition bound_reason_cell (changes : row_map) (values : row_map) : result row_map :=
  match changes !! "reason" with
  | None => Ok values
  | Some (CText s) => Ok (<["reason" := CText (reason_column s)]> values)
  | Some _ => Err (TypeError "object has no len()")
  end.

(** [values["progress"] = dict(changes["progress"]) if changes["progress"] else {}]. *)
Definition copy_progress_cell (changes : row_map) (values : row_map) : result row_map :=
  match changes !! "progress" with
  | None => Ok values
  | Some (CJson o) => Ok (<["progress" := CJson o]> values)
  | Some CNone => Ok (<["progress" := CJson []]> values)
  | Some _ => Err (TypeError "object is not iterable")
  end.

(** [if isinstance(values.get("state"), HistoryState): values["state"] = ….value]. *)
Definition state_text_cell (values : row_map) : row_map :=
  match values !! "state" with
  | Some (CState s) => <["state" := CText (HistoryState_value s)]> values
  | _ => values
  end.

Definition column_set : gset string := list_to_set SCOPE_COLUMNS.

(** A copy of [base] with only the named columns replaced. *)
Definition step_row (base changes : row_map) : result row_map :=
  _ <- raise_if (negb (bool_decide (dom changes ⊆ column_set))) (LifecycleError "unknown scope columns") ;;
  let values := state_text_cell (changes ∪ base) in
  values <- bound_reason_cell changes values ;;
  values <- copy_progress_cell changes values ;;
  let values := <["last_error_at" := CNone]> (<["last_error_class" := CNone]> values) in
  _ <- raise_if (negb (bool_decide (dom values = column_set)))
         (LifecycleError "scope row differs from the columns") ;;
  Ok values.

(** Keep a stored step where it is while naming a capacity deferral: the error marker of
    the stored row stays. *)
Definition deferred_scope_row (stored : option row_map) (instance_id : N) (family : HistoryFamily)
    (scope_key reason : string) : result row_map :=
  view <- scope_view stored ;;
  match view, stored with
  | Some view, Some stored =>
      values <- scope_row view instance_id family scope_key ;;
      error_class <- attr stored "last_error_class" ;;
      error_at <- attr stored "last_error_at" ;;
      Ok (<["last_error_at" := error_at]> (<["last_error_class" := error_class]>
           (<["reason" := CText (reason_column reason)]> values)))
  | _, _ => Err (LifecycleError "a deferred history step needs a stored scope")
  end.

(** ** Progress *)

(** The row's progress and adapter state, or [None] while the scope has not searched. *)
Definition decode_scope (row : ScopeRowView) : result (option (ScopeProgress * jobj)) :=
  match rv_progress row with
  | None => Err (LifecycleError "a scope row has progress ({} while nothing was searched)")
  | Some [] => Ok None
  | Some body =>
      if bool_decide (rv_state row ∈ [S_WAITING; S_NOT_ELIGIBLE]) then
        Err (LifecycleError ("a " +:+ HistoryState_value (rv_state row) +:+
                             " scope has not searched, so progress is {}"))
      else
        match rv_target_start row with
        | None => Err (LifecycleError "progress is set but the row has no target_start")
        | Some target =>
            decoded <- decode_progress (JObj body) ;;
            older <- (match rv_started_at row with
                      | Some started => dt_lt (sp_started_at decoded.1) started
                      | None => Ok false
                      end) ;;
            if older : bool then Ok None
            else if bool_decide (rv_reason row = Some RESTART_REASON) then Ok None
            else if negb (dt_eq (sp_target_start decoded.1) target) then
              Err (LifecycleError "progress and the row disagree on target_start")
            else Ok (Some decoded)
        end
  end.

Definition scope_progress (row : ScopeRowView) : result (option ScopeProgress) :=
  d <- decode_scope row ;; Ok (fst <$> d).
