(* ===== verification/LifecycleFacts.v ===== *)
(** * What the lifecycle guarantees

    The action of a tick, the rows it writes, and the life of a scope row over many ticks. *)

From S2P Require Import Prelude PyStr PyFloat PyTime PyIso HistoryState HistoryPlanner PyJson ProgressCodec HistoryLifecycle.

#[global] Arguments check_aware_opt : simpl never.
#[global] Arguments reason_column : simpl never.
#[global] Arguments next_state : simpl never.
#[global] Arguments decode_progress : simpl never.

(** ** Reasons *)

Lemma bounded_reason_len text limit : 1 <= limit → py_len (bounded_reason text limit) <= limit.
Proof.
  intros Hl. unfold bounded_reason. destruct (Z.leb_spec (py_len text) limit); [done|].
  rewrite py_len_app, py_slice_to_nonneg by lia. pose proof (py_take_len (limit - 1) text ltac:(lia)).
  change (py_len "…") with 1. lia.
Qed.

Lemma reason_column_len text : py_len (reason_column text) <= 255.
Proof. by apply bounded_reason_len. Qed.

Lemma reason_column_idem text : reason_column (reason_column text) = reason_column text.
Proof.
  unfold reason_column at 1, bounded_reason. change MAX_REASON_LENGTH with 255.
  by rewrite (proj2 (Z.leb_le _ _) (reason_column_len text)).
Qed.

(** ** Actions *)

Definition opt_aware (d : option datetime) : Prop := ∀ x, d = Some x → aware x.

Lemma check_aware_opt_ok d name : check_aware_opt d name = Ok tt ↔ opt_aware d.
Proof.
  unfold check_aware_opt, opt_aware. destruct d as [d|]; [|by split].
  rewrite raise_if_ok, negb_false_iff. unfold aware. naive_solver.
Qed.

(** An action that moves a scope from [current]: the trigger is legal there and the state
    is the table's. *)
Definition moves (current : HistoryState) (a : ScopeAction) : Prop :=
  ∃ t c, ac_trigger a = Some t ∧ next_state current t = Ok c ∧ ac_state a = Some (sc_state c).

Lemma moving_ok kind current t reason anchor a : moving kind current t reason anchor = Ok a →
  ac_kind a = kind ∧ moves current a ∧ ac_trigger a = Some t ∧ ac_anchor a = anchor ∧
  py_len (ac_reason a) <= 255.
Proof.
  unfold moving. intros H. bind_inv H. apply (inj (@Ok _)) in H as <-. cbn.
  split; [done|]. split; [by exists t, r|]. do 2 (split; [done|]). apply reason_column_len.
Qed.

(** What an action promises about the row it is for. *)
Definition action_ok (mode : ConsoleMode) (switch_on : bool) (row : option ScopeRowView)
    (a : ScopeAction) : Prop :=
  match ac_kind a with
  | AK_NONE => ac_state a = None ∧ ac_trigger a = None
  | AK_CREATE => row = None ∧ mode = CM_ACTIVE ∧ switch_on = true ∧ moves S_NOT_REQUESTED a
  | AK_TRANSITION => ∃ r, row = Some r ∧ moves (rv_state r) a
  | AK_STEP => mode = CM_ACTIVE ∧ switch_on = true ∧ ac_state a = Some S_READING ∧ ac_trigger a = None ∧
      ∃ r, row = Some r ∧ rv_state r = S_READING
  end ∧ py_len (ac_reason a) <= 255.

Lemma no_action_ok mode on row r : py_len r <= 255 → action_ok mode on row (no_action r).
Proof. by intros H. Qed.

Lemma reading_row row : bool_decide ((match row with Some r => rv_state r | None => S_NOT_REQUESTED end)
    ∈ READING_OR_WAITING) = true →
  ∃ r, row = Some r ∧ (rv_state r = S_READING ∨ rv_state r = S_WAITING).
Proof.
  intros H%bool_decide_eq_true. unfold READING_OR_WAITING in H. rewrite !elem_of_cons, elem_of_nil in H.
  destruct row as [r|]; [|by destruct H as [?|[?|?]]]. exists r. naive_solver.
Qed.

Lemma transition_ok mode on r t reason anchor a :
  moving AK_TRANSITION (rv_state r) t reason anchor = Ok a → action_ok mode on (Some r) a.
Proof.
  intros H. destruct (moving_ok _ _ _ _ _ _ H) as (Hk & Hm & _ & _ & Hl).
  unfold action_ok. rewrite Hk. split; [by exists r|done].
Qed.

Lemma create_ok f live anchor a : create_action f live anchor = Ok a →
  action_ok CM_ACTIVE true None a.
Proof.
  unfold create_action. intros H.
  assert (Hc : ∃ t reason an, moving AK_CREATE S_NOT_REQUESTED t reason an = Ok a)
    by (destruct (negb (per_source f)), live; eauto).
  destruct Hc as (t & reason & an & Hc). destruct (moving_ok _ _ _ _ _ _ Hc) as (Hk & Hm & _ & _ & Hl).
  unfold action_ok. by rewrite Hk.
Qed.

(** Case analysis on the first boolean guard of a hypothesis. *)
Ltac destruct_guard H Hr :=
  match type of H with context [if bool_decide ?P then _ else _] => destruct (bool_decide P) eqn:Hr end.

(** A known answer that does nothing. *)
Ltac no_act H := apply (inj (@Ok _)) in H as <-; apply no_action_ok; by vm_compute.

Lemma restart_action_ok f d r anchor a : restart_action f d r anchor = Ok a →
  action_ok CM_ACTIVE true (Some r) a.
Proof.
  unfold restart_action. intros H.
  destruct (dv_start_requested_at d) as [started|]; [|no_act H].
  destruct (rv_finished_at r) as [finished|]; [|discriminate].
  bind_inv H. destruct r0; [no_act H|]. destruct (per_source f); [no_act H|].
  by eapply transition_ok.
Qed.

Lemma row_action_ok f d r live anchor a : row_action f d r live anchor = Ok a →
  action_ok CM_ACTIVE true (Some r) a.
Proof.
  unfold row_action. intros H. case_decide.
  { destruct live; [by eapply transition_ok|no_act H]. }
  case_decide.
  { apply (inj (@Ok _)) in H as <-. split; cbn; [by eauto 10|by vm_compute]. }
  destruct (bool_decide _); [by eapply restart_action_ok|no_act H].
Qed.

Lemma scope_action_ok f mode d row live anchor on a :
  scope_action f mode d row live anchor on = Ok a → action_ok mode on row a.
Proof.
  unfold scope_action. intros H. bind_inv H. bind_inv H.
  destruct (bool_decide_reflect (mode ∈ [CM_UNDECIDED; CM_NO])) as [Hm|Hm]; [no_act H|].
  destruct d as [d|]; [|discriminate]. destruct on; cbn [negb] in H.
  - case_decide as Hs.
    + destruct_guard H Hr; [|no_act H].
      destruct (reading_row row Hr) as (r' & -> & _). by eapply transition_ok.
    + assert (mode = CM_ACTIVE) as ->.
      { destruct mode; try done; destruct Hm; rewrite !elem_of_cons; auto. }
      destruct row as [r'|]; [by eapply row_action_ok|by eapply create_ok].
  - destruct_guard H Hr; [|no_act H].
    destruct (reading_row row Hr) as (r' & -> & _). by eapply transition_ok.
Qed.

(** The switch and the operator's stop end a reading. *)
Lemma scope_action_off f mode d r live anchor on a :
  scope_action f mode d (Some r) live anchor on = Ok a → mode ∉ [CM_UNDECIDED; CM_NO] →
  on = false ∨ mode = CM_STOPPED → rv_state r ∈ READING_OR_WAITING → ac_state a = Some S_PARTIAL.
Proof.
  unfold scope_action. intros H Hm Hoff Hrd. bind_inv H. bind_inv H.
  rewrite (bool_decide_eq_false_2 _ Hm) in H. destruct d as [d|]; [|discriminate].
  rewrite (bool_decide_eq_true_2 _ Hrd) in H.
  assert (Hmv : ∃ t reason, (t = T_SWITCHED_OFF ∨ t = T_STOPPED_BY_OPERATOR) ∧
    moving AK_TRANSITION (rv_state r) t reason None = Ok a).
  { destruct on; cbn [negb] in H; [|by eauto]. destruct Hoff as [?| ->]; [done|].
    rewrite decide_True in H by done. eauto. }
  destruct Hmv as (t & reason & Ht & Hmv).
  destruct (moving_ok _ _ _ _ _ _ Hmv) as (_ & (t' & c & Et & Hc & ->) & Et' & _).
  rewrite Et in Et'. injection Et' as ->. f_equal. unfold READING_OR_WAITING in Hrd.
  rewrite !elem_of_cons, elem_of_nil in Hrd.
  destruct Hrd as [Hs|[Hs|[]]]; rewrite Hs in Hc; destruct Ht as [->| ->]; vm_compute in Hc;
    injection Hc as <-; done.
Qed.

(** ** The action is defined *)

(** The inputs of one tick agree with each other. *)
Record tick_inputs (f : HistoryFamily) (d : DecisionView) (live : bool) (anchor : option datetime) : Prop := {
  ti_family : f ∈ SCOPE_TABLE_FAMILIES;
  ti_anchor : opt_aware anchor;
  ti_live : per_source f = false → live = is_some_b anchor;
  ti_start : opt_aware (dv_start_requested_at d)
}.

Lemma moving_total kind s t reason anchor : t ∈ legal_triggers s → is_ok (moving kind s t reason anchor).
Proof.
  intros H. unfold moving. assert (Hn : is_ok (next_state s t)).
  { unfold legal_triggers in H. destruct s, t; first [eexists; reflexivity | exfalso; by set_solver]. }
  destruct Hn as [c ->]. by eexists.
Qed.

Lemma scope_action_total f mode d row live anchor on : tick_inputs f d live anchor →
  (∀ r, row = Some r → rv_state r ∈ FINISHED → ∃ x, rv_finished_at r = Some x ∧ aware x) →
  is_ok (scope_action f mode (Some d) row live anchor on).
Proof.
  intros [Hf Ha Hl Hst] Hfin. unfold scope_action, check_live.
  rewrite (bool_decide_eq_true_2 _ Hf). cbn [negb raise_if res_bind].
  rewrite (proj2 (check_aware_opt_ok anchor _) Ha). cbn [res_bind].
  assert (Hlive : (if per_source f then Ok tt else raise_if (negb (Bool.eqb live (is_some_b anchor)))
    (LifecycleError "a console-wide scope has live data exactly when it has a live anchor")) = Ok tt).
  { destruct (per_source f); [done|]. by rewrite (Hl eq_refl), eqb_reflx. }
  rewrite Hlive. cbn [res_bind]. destruct (bool_decide _); [by eexists|].
  assert (Hend : ∀ t reason, (t = T_SWITCHED_OFF ∨ t = T_STOPPED_BY_OPERATOR) → ∀ s,
    s ∈ READING_OR_WAITING → is_ok (moving AK_TRANSITION s t reason None)).
  { intros t reason Ht s Hs. apply moving_total. unfold READING_OR_WAITING in Hs.
    rewrite !elem_of_cons, elem_of_nil in Hs.
    destruct Hs as [->|[->|[]]], Ht as [->| ->]; by apply (bool_decide_unpack _). }
  destruct on; cbn [negb].
  2: { case_bool_decide; [|by eexists]. apply Hend; auto. }
  case_decide; [case_bool_decide; [|by eexists]; apply Hend; auto|].
  destruct row as [r|].
  - unfold row_action. case_decide as H1; [destruct live; [|by eexists]; apply moving_total; rewrite H1;
      by apply (bool_decide_unpack _)|].
    case_decide; [by eexists|]. case_bool_decide as H3; [|by eexists].
    unfold restart_action. destruct (dv_start_requested_at d) as [x|]; [|by eexists].
    destruct (Hfin r eq_refl H3) as (y & -> & Hy).
    rewrite dt_le_ok by (by rewrite Hy; apply Hst). cbn [res_bind].
    destruct (_ <=? _); [by eexists|]. destruct (per_source f); [by eexists|].
    apply moving_total. unfold FINISHED in H3. rewrite !elem_of_cons, elem_of_nil in H3.
    destruct H3 as [->|[->|[->|[]]]]; by apply (bool_decide_unpack _).
  - unfold create_action. destruct (negb (per_source f)), live; apply moving_total; by apply (bool_decide_unpack _).
Qed.

(** ** Rows *)

Section Columns.
Context (instance_id : N) (family : HistoryFamily) (scope_key : string) (v : ScopeRowView).

(** The full column mapping of a view. *)
Definition row_of : row_map :=
  columns instance_id family scope_key (rv_state v) (rv_days_requested v) (rv_days_target v)
    (rv_target_start v) (rv_floor v) (rv_through v) (rv_anchor v) (rv_started_at v)
    (rv_finished_at v) (rv_reason v) (default [] (rv_progress v)).

Lemma row_of_lookup :
  row_of !! "state" = Some (CText (HistoryState_value (rv_state v))) ∧
  row_of !! "days_requested" = Some (cell_int (rv_days_requested v)) ∧
  row_of !! "days_target" = Some (cell_int (rv_days_target v)) ∧
  row_of !! "target_start" = Some (cell_time (rv_target_start v)) ∧
  row_of !! "floor" = Some (cell_time (rv_floor v)) ∧
  row_of !! "through" = Some (cell_time (rv_through v)) ∧
  row_of !! "anchor" = Some (cell_time (rv_anchor v)) ∧
  row_of !! "started_at" = Some (cell_time (rv_started_at v)) ∧
  row_of !! "finished_at" = Some (cell_time (rv_finished_at v)) ∧
  row_of !! "reason" = Some (cell_text (rv_reason v)) ∧
  row_of !! "progress" = Some (CJson (default [] (rv_progress v))).
Proof. repeat split; reflexivity. Qed.

Lemma row_of_dom : dom row_of = column_set.
Proof. unfold row_of, columns. rewrite dom_list_to_map_L. reflexivity. Qed.
End Columns.

Lemma state_text s : HistoryState_of (CText (HistoryState_value s)) = Ok s.
Proof. by destruct s. Qed.

Lemma attr_ok row name c : row !! name = Some c → attr row name = Ok c.
Proof. intros H. unfold attr. by rewrite H. Qed.

Lemma attr_int_ok row name x : row !! name = Some (cell_int x) → attr_int row name = Ok x.
Proof. intros H. unfold attr_int. rewrite (attr_ok _ _ _ H). by destruct x. Qed.
Lemma attr_time_ok row name x : row !! name = Some (cell_time x) → attr_time row name = Ok x.
Proof. intros H. unfold attr_time. rewrite (attr_ok _ _ _ H). by destruct x. Qed.
Lemma attr_text_ok row name x : row !! name = Some (cell_text x) → attr_text row name = Ok x.
Proof. intros H. unfold attr_text. rewrite (attr_ok _ _ _ H). by destruct x. Qed.

(** The times of a view are aware. *)
Record view_aware (v : ScopeRowView) : Prop := {
  va_target : opt_aware (rv_target_start v); va_floor : opt_aware (rv_floor v);
  va_through : opt_aware (rv_through v); va_anchor : opt_aware (rv_anchor v);
  va_started : opt_aware (rv_started_at v); va_finished : opt_aware (rv_finished_at v) }.

Lemma check_scope_row_ok v : check_scope_row v = Ok tt ↔ view_aware v.
Proof.
  unfold check_scope_row. split.
  - intros H. repeat (apply bind_ok in H as ([] & ?%check_aware_opt_ok & H)).
    apply check_aware_opt_ok in H. by split.
  - intros []. by rewrite !(proj2 (check_aware_opt_ok _ _)) by done.
Qed.

(** The view with the progress a row always holds. *)
Definition stored_view (v : ScopeRowView) : ScopeRowView :=
  {| rv_state := rv_state v; rv_days_requested := rv_days_requested v; rv_days_target := rv_days_target v;
     rv_target_start := rv_target_start v; rv_floor := rv_floor v; rv_through := rv_through v;
     rv_anchor := rv_anchor v; rv_started_at := rv_started_at v; rv_finished_at := rv_finished_at v;
     rv_reason := rv_reason v; rv_progress := Some (default [] (rv_progress v)) |}.

Lemma scope_view_row_of id f k v : view_aware v →
  scope_view (Some (row_of id f k v)) = Ok (Some (stored_view v)).
Proof.
  intros Hv. destruct (row_of_lookup id f k v) as (H1 & H2 & H3 & H4 & H5 & H6 & H7 & H8 & H9 & H10 & H11).
  unfold scope_view. rewrite (attr_ok _ _ _ H1). cbn [res_bind]. rewrite state_text. cbn [res_bind].
  rewrite (attr_int_ok _ _ _ H2), (attr_int_ok _ _ _ H3), (attr_time_ok _ _ _ H4), (attr_time_ok _ _ _ H5),
    (attr_time_ok _ _ _ H6), (attr_time_ok _ _ _ H7), (attr_time_ok _ _ _ H8), (attr_time_ok _ _ _ H9),
    (attr_text_ok _ _ _ H10). cbn [res_bind].
  unfold attr_json. rewrite (attr_ok _ _ _ H11). cbn [res_bind].
  fold (stored_view v). by rewrite (proj2 (check_scope_row_ok (stored_view v))) by (by destruct Hv).
Qed.

Lemma check_key_ok f k : check_key f k = Ok tt ↔
  f ∈ SCOPE_TABLE_FAMILIES ∧ (per_source f = true ↔ k ≠ "").
Proof.
  unfold check_key. rewrite bind_ok. split.
  - intros ([] & H1%raise_if_ok & H2%raise_if_ok). rewrite negb_false_iff in H1, H2.
    apply bool_decide_eq_true in H1. apply eqb_prop in H2. split; [done|]. rewrite H2, negb_true_iff.
    apply bool_decide_eq_false.
  - intros [H1 H2]. exists tt. rewrite !raise_if_ok, !negb_false_iff. split; [by apply bool_decide_eq_true|].
    apply eqb_true_iff. destruct (per_source f), (bool_decide_reflect (k = "")); naive_solver.
Qed.

(** The view a CREATE and a TRANSITION write. *)
Definition created_view (a : ScopeAction) (state : HistoryState) (days : Z) (at_ : datetime) : ScopeRowView :=
  {| rv_state := state; rv_days_requested := Some days; rv_days_target := None; rv_target_start := None;
     rv_floor := None; rv_through := None; rv_anchor := ac_anchor a;
     rv_started_at := if decide (state = S_READING) then Some at_ else None;
     rv_finished_at := if decide (state = S_NOT_ELIGIBLE) then Some at_ else None;
     rv_reason := Some (reason_column (ac_reason a)); rv_progress := Some [] |}.

Definition moved_view (a : ScopeAction) (state : HistoryState) (v : ScopeRowView) (d : DecisionView)
    (at_ : datetime) : ScopeRowView :=
  let reading := bool_decide (state = S_READING) in
  {| rv_state := state;
     rv_days_requested := match dv_days d with Some n => Some n | None => rv_days_requested v end;
     rv_days_target := rv_days_target v; rv_target_start := rv_target_start v; rv_floor := rv_floor v;
     rv_through := rv_through v;
     rv_anchor := if reading then match ac_anchor a with Some x => Some x | None => rv_anchor v end
                  else rv_anchor v;
     rv_started_at := if reading then Some at_ else rv_started_at v;
     rv_finished_at := if reading then None else Some at_;
     rv_reason := Some (reason_column (ac_reason a)); rv_progress := rv_progress v |}.

Lemma new_scope_row_inv a id f k d at_ row : new_scope_row a id f k d at_ = Ok row →
  ∃ state days, ac_kind a = AK_CREATE ∧ ac_state a = Some state ∧ dv_days d = Some days ∧ aware at_ ∧
    row = row_of id f k (created_view a state days at_).
Proof.
  unfold new_scope_row. destruct (ac_kind a); try discriminate. destruct (ac_state a) as [state|]; [|discriminate].
  intros H. apply bind_ok in H as ([] & _ & H). apply bind_ok in H as ([] & Ha%check_aware_opt_ok & H).
  unfold require_decision in H. destruct (dv_days d) as [days|]; [|discriminate].
  apply (inj (@Ok _)) in H as <-. exists state, days. do 3 (split; [done|]). split; [by apply Ha|done].
Qed.

Lemma transition_row_inv a id f k v d at_ row : transition_row a id f k v d at_ = Ok row →
  ∃ state, ac_kind a = AK_TRANSITION ∧ ac_state a = Some state ∧ aware at_ ∧
    row = row_of id f k (moved_view a state v d at_).
Proof.
  unfold transition_row. destruct (ac_kind a); try discriminate. destruct (ac_state a) as [state|]; [|discriminate].
  intros H. apply bind_ok in H as ([] & _ & H). apply bind_ok in H as ([] & Ha%check_aware_opt_ok & H).
  apply (inj (@Ok _)) in H as <-. exists state. do 2 (split; [done|]). split; [by apply Ha|done].
Qed.

Lemma new_scope_row_ok a id f k d at_ state days : ac_kind a = AK_CREATE → ac_state a = Some state →
  check_key f k = Ok tt → aware at_ → dv_days d = Some days →
  new_scope_row a id f k d at_ = Ok (row_of id f k (created_view a state days at_)).
Proof.
  intros Hk Hs Hc Ha Hd. unfold new_scope_row, require_decision. rewrite Hk, Hs, Hc, Hd.
  unfold check_aware_opt. by rewrite Ha.
Qed.

Lemma transition_row_ok a id f k v d at_ state : ac_kind a = AK_TRANSITION → ac_state a = Some state →
  check_key f k = Ok tt → aware at_ →
  transition_row a id f k v d at_ = Ok (row_of id f k (moved_view a state v d at_)).
Proof.
  intros Hk Hs Hc Ha. unfold transition_row. rewrite Hk, Hs, Hc. unfold check_aware_opt. by rewrite Ha.
Qed.

(** ** The life of a row *)

(** What the collector's step writes for a reading scope: it still reads, or a trigger of
    the planner ended it and it is finished now. *)
Definition step_result (v v' : ScopeRowView) : Prop :=
  view_aware v' ∧ rv_started_at v' = rv_started_at v ∧
  ((rv_state v' = S_READING ∧ rv_finished_at v' = None) ∨
   (∃ t, scope_step S_READING t (rv_state v') ∧ t ≠ T_RESTART ∧ is_some_b (rv_finished_at v') = true)).

(** The row a tick leaves, from the row's view and its action. *)
Definition tick_row (id : N) (f : HistoryFamily) (k : string) (row : option row_map)
    (view : option ScopeRowView) (d : DecisionView) (a : ScopeAction) (at_ : datetime)
    (row' : option row_map) : Prop :=
  match ac_kind a with
  | AK_NONE => row' = row
  | AK_CREATE => ∃ r, new_scope_row a id f k d at_ = Ok r ∧ row' = Some r
  | AK_TRANSITION => ∃ v r, view = Some v ∧ transition_row a id f k v d at_ = Ok r ∧ row' = Some r
  | AK_STEP => ∃ v v' r, view = Some v ∧ step_result v v' ∧ scope_row v' id f k = Ok r ∧ row' = Some r
  end.

(** Any number of ticks, under any switch, answers, requests and live data. *)
Inductive life (id : N) (f : HistoryFamily) (k : string) : option row_map → Prop :=
| life_none : life id f k None
| life_tick row view mode d live anchor on a at_ row' :
    life id f k row → scope_view row = Ok view →
    scope_action f mode (Some d) view live anchor on = Ok a →
    tick_row id f k row view d a at_ row' → life id f k row'.

Record row_inv (v : ScopeRowView) : Prop := {
  ri_aware : view_aware v;
  ri_requested : rv_state v ≠ S_NOT_REQUESTED;
  ri_finished : is_some_b (rv_finished_at v) = is_finished (rv_state v);
  ri_started : rv_state v = S_READING → is_some_b (rv_started_at v) = true;
  ri_progress : is_some_b (rv_progress v) = true
}.

Lemma aware_some at_ : aware at_ → opt_aware (Some at_).
Proof. by intros H x [= <-]. Qed.

Lemma aware_none : opt_aware None.
Proof. by intros x. Qed.

(** The anchor an action carries is the live anchor it was given. *)
Lemma scope_action_anchor f mode d row live anchor on a :
  scope_action f mode d row live anchor on = Ok a → opt_aware (ac_anchor a).
Proof.
  unfold scope_action. intros H. bind_inv H. apply bind_ok in H as ([] & Hl & H).
  unfold check_live in Hl. apply bind_ok in Hl as ([] & Ha%check_aware_opt_ok & _).
  pose proof aware_none. revert H. unfold create_action, row_action, restart_action.
  repeat case_match; cbn [res_bind]; intros Hx; try discriminate;
    try (apply bind_ok in Hx as ([] & _ & Hx)); repeat case_match; try discriminate;
    try (apply (inj (@Ok _)) in Hx as <-; done);
    by destruct (moving_ok _ _ _ _ _ _ Hx) as (_ & _ & _ & -> & _).
Qed.

Lemma moves_from_requested a : moves S_NOT_REQUESTED a → ∀ s, ac_state a = Some s →
  s ≠ S_NOT_REQUESTED.
Proof.
  intros (t & c & _ & Hc & Hs) s Hs'. rewrite Hs in Hs'. injection Hs' as <-.
  destruct t; vm_compute in Hc; try discriminate; injection Hc as <-; done.
Qed.

Lemma created_inv a state days at_ : opt_aware (ac_anchor a) → aware at_ →
  ac_kind a = AK_CREATE → ac_state a = Some state → moves S_NOT_REQUESTED a →
  ac_trigger a ≠ Some T_SWITCHED_OFF → row_inv (created_view a state days at_).
Proof.
  intros Han Hat _ Hs (t & c & Ht & Hc & Hs') Hno. rewrite Hs in Hs'. injection Hs' as ->.
  pose proof (aware_some _ Hat). pose proof aware_none.
  destruct t; vm_compute in Hc; try discriminate; injection Hc as <-; try (by destruct Hno);
    (split; [split|..]; done).
Qed.

Lemma moved_inv a state v d at_ : row_inv v → opt_aware (ac_anchor a) → aware at_ →
  ac_state a = Some state → moves (rv_state v) a → row_inv (moved_view a state v d at_).
Proof.
  intros [[V1 V2 V3 V4 V5 V6] R2 R3 R4 R5] Han Hat Hs (t & c & Ht & Hc & Hs').
  rewrite Hs in Hs'. injection Hs' as ->. pose proof (aware_some _ Hat). pose proof aware_none.
  assert (Hst : sc_state c = S_READING ∨ is_finished (sc_state c) = true).
  { destruct (rv_state v), t; vm_compute in Hc; try discriminate; try done;
      injection Hc as <-; vm_compute; auto. }
  unfold moved_view. destruct Hst as [Hr|Hf].
  - rewrite Hr. split; [|done|done|done|done]. split; cbn; try done.
    destruct (ac_anchor a); done.
  - assert (Hb : bool_decide (sc_state c = S_READING) = false).
    { apply bool_decide_eq_false. intros E. rewrite E in Hf. done. }
    rewrite Hb. split; cbn; [by split| |by rewrite Hf| |done].
    + intros E. rewrite E in Hf. done.
    + intros E. rewrite E in Hf. done.
Qed.

Lemma step_inv v v' : row_inv v → rv_state v = S_READING → step_result v v' → row_inv (stored_view v').
Proof.
  intros [R1 R2 R3 R4 R5] Hrd ([V1 V2 V3 V4 V5 V6] & Hst & [[Hs Hf]|(t & Hstep & Hnr & Hf)]).
  - split; cbn; [by split| | | |done]; rewrite ?Hs, ?Hf; try done. intros _. rewrite Hst. by apply R4.
  - assert (Hfin : rv_state v' ≠ S_NOT_REQUESTED ∧ rv_state v' ≠ S_READING ∧ is_finished (rv_state v') = true).
    { inversion Hstep as [s0 t0 c Hc0]. destruct t; vm_compute in Hc0; try discriminate; try done;
        injection Hc0 as <-; done. }
    destruct Hfin as (? & ? & Hfin). split; cbn; [by split|done|by rewrite Hf, Hfin|done|done].
Qed.

Lemma create_trigger f mode d view live anchor on a : scope_action f mode d view live anchor on = Ok a →
  ac_kind a = AK_CREATE → ac_trigger a ≠ Some T_SWITCHED_OFF.
Proof.
  unfold scope_action. intros H Hk. bind_inv H. bind_inv H. revert H. unfold create_action, row_action, restart_action.
  repeat case_match; cbn [res_bind]; intros Hx; try discriminate;
    try (apply bind_ok in Hx as (? & _ & Hx)); repeat case_match; try discriminate;
    try (apply (inj (@Ok _)) in Hx as <-; done);
    destruct (moving_ok _ _ _ _ _ _ Hx) as (Hk' & _ & -> & _); congruence.
Qed.

(** The row of a view that keeps a progress is read back as it is. *)
Lemma scope_view_exact id f k v : view_aware v → is_some_b (rv_progress v) = true →
  scope_view (Some (row_of id f k v)) = Ok (Some v).
Proof.
  intros Hv Hp. rewrite scope_view_row_of by done. unfold stored_view.
  destruct v as [? ? ? ? ? ? ? ? ? ? [p|]]; done.
Qed.

Lemma life_view id f k row : life id f k row →
  row = None ∨ ∃ v, row = Some (row_of id f k v) ∧ row_inv v.
Proof.
  induction 1 as [|row view mode d live anchor on a at_ row' Hl IH Hv Ha Ht]; [by left|].
  pose proof (scope_action_anchor _ _ _ _ _ _ _ _ Ha) as Han.
  destruct (scope_action_ok _ _ _ _ _ _ _ _ Ha) as [Hok _]. unfold tick_row in Ht.
  assert (Hview : view = None ∨ ∃ v, view = Some v ∧ row_inv v).
  { destruct IH as [->|(v & -> & Hi)]; [by injection Hv as <-; left|]. right. exists v.
    rewrite (scope_view_exact _ _ _ _ (ri_aware _ Hi) (ri_progress _ Hi)) in Hv. by injection Hv as <-. }
  destruct (ac_kind a) eqn:Hk.
  - by rewrite Ht.
  - right. destruct Ht as (r & Hr & ->). destruct Hok as (_ & _ & _ & Hm).
    destruct (new_scope_row_inv _ _ _ _ _ _ _ Hr) as (state & days & _ & Hs & _ & Hat & ->).
    eexists. split; [done|]. eapply created_inv; try done. by eapply create_trigger.
  - right. destruct Ht as (v & r & -> & Hr & ->). destruct Hok as (v' & [= <-] & Hm).
    destruct (transition_row_inv _ _ _ _ _ _ _ _ Hr) as (state & _ & Hs & Hat & ->).
    destruct Hview as [?|(v' & [= <-] & Hi)]; [done|].
    eexists. split; [done|]. by eapply moved_inv.
  - right. destruct Ht as (v & v' & r & -> & Hst & Hr & ->).
    destruct Hok as (_ & _ & _ & _ & v0 & [= <-] & Hrd).
    destruct Hview as [?|(v1 & [= <-] & Hi)]; [done|].
    unfold scope_row in Hr. apply bind_ok in Hr as ([] & _ & [= <-]).
    exists (stored_view v'). split; [done|]. by eapply step_inv.
Qed.

(** ** Theorems *)

(** What a tick may do. An action that moves a scope names a legal transition of its
    current state and carries the table's next state; a scope is created, or steps, only
    on an ACTIVE console with the switch on, and only a READING scope steps; an undecided
    console and a No do nothing; with the switch off, or stopped by an operator, a reading
    or waiting scope ends PARTIAL; and every reason fits its column. *)
Theorem scope_action_sound f mode d row live anchor on a :
  scope_action f mode d row live anchor on = Ok a →
  action_ok mode on row a ∧
  (mode ∈ [CM_UNDECIDED; CM_NO] → ac_kind a = AK_NONE) ∧
  (mode ∉ [CM_UNDECIDED; CM_NO] → on = false ∨ mode = CM_STOPPED →
     ∀ r, row = Some r → rv_state r ∈ READING_OR_WAITING → ac_state a = Some S_PARTIAL).
Proof.
  intros H. split; [by eapply scope_action_ok|]. split.
  - intros Hm. unfold scope_action in H. bind_inv H. bind_inv H.
    rewrite (bool_decide_eq_true_2 _ Hm) in H. by apply (inj (@Ok _)) in H as <-.
  - intros Hm Hoff r -> Hr. by eapply scope_action_off.
Qed.

Lemma scope_action_sound_witness :
  let d := {| dv_answer := "YES"; dv_days := Some 30; dv_start_requested_at := None;
              dv_start_requested_by := None; dv_stop_requested_at := None; dv_stop_requested_by := None |} in
  ∃ a, scope_action F_IPS CM_ACTIVE (Some d) None false None true = Ok a ∧ action_ok CM_ACTIVE true None a.
Proof.
  intros d. eexists. split; [vm_compute; reflexivity|].
  exact (proj1 (scope_action_sound F_IPS CM_ACTIVE (Some d) None false None true _ eq_refl)).
Defined.


(** * Restarts, steps and deferrals of a scope row *)


(** ** Restarts *)

(** The action of a restart. *)
Lemma restart_action_inv f mode d row live anchor on a :
  scope_action f mode d row live anchor on = Ok a → ac_trigger a = Some T_RESTART →
  ac_kind a = AK_TRANSITION ∧ ac_state a = Some S_READING ∧ ac_reason a = RESTART_REASON.
Proof.
  intros H Ht. assert (Hm : ∃ s an, moving AK_TRANSITION s T_RESTART (Some RESTART_REASON) an = Ok a).
  { unfold scope_action in H. bind_inv H. bind_inv H. revert H.
    unfold create_action, row_action, restart_action.
    repeat case_match; cbn [res_bind]; intros Hx; try discriminate;
      try (apply bind_ok in Hx as (? & _ & Hx)); repeat case_match; try discriminate;
      try (apply (inj (@Ok _)) in Hx as <-; discriminate Ht); try (by eauto);
      exfalso; destruct (moving_ok _ _ _ _ _ _ Hx) as (_ & _ & E & _); congruence. }
  destruct Hm as (s & an & Hm). unfold moving in Hm. bind_inv Hm. apply (inj (@Ok _)) in Hm as <-.
  split; [done|]. split; [|reflexivity]. cbn. f_equal.
  destruct s; vm_compute in E; try discriminate; injection E as <-; done.
Qed.

(** What a restart needs of the row: no progress, or one that decodes beside its window. *)
Definition restartable (v : ScopeRowView) : Prop :=
  rv_progress v = Some [] ∨
  ∃ body, rv_progress v = Some body ∧ is_some_b (rv_target_start v) = true ∧
    is_ok (decode_progress (JObj body)).

Lemma decoded_started_aware body p a : decode_progress (JObj body) = Ok (p, a) → aware (sp_started_at p).
Proof.
  intros H. destruct (decode_progress_inv _ _ _ H) as (fields & version & b & _ & []).
  pose proof (so_started _ (decode_body_stored _ _ _ ac_decoded)) as (us & -> & _). done.
Qed.

Lemma decode_scope_restarted v at_ : rv_state v = S_READING → rv_started_at v = Some at_ → aware at_ →
  rv_reason v = Some RESTART_REASON → restartable v → decode_scope v = Ok None.
Proof.
  intros Hs Hst Hat Hr. unfold decode_scope. rewrite Hs, Hst, Hr.
  intros [->|(body & -> & Ht & [[p a] Hdec])]; [done|].
  destruct body as [|kv body]; [done|]. cbn [bool_decide]. rewrite bool_decide_eq_false_2 by (by set_solver).
  destruct (rv_target_start v) as [target|]; [|done]. rewrite Hdec. cbn [res_bind fst].
  rewrite dt_lt_ok by (by rewrite Hat, (decoded_started_aware _ _ _ Hdec)). cbn [res_bind].
  destruct (_ <? _); [done|]. by rewrite bool_decide_eq_true_2.
Qed.

(** ** Steps *)

Lemma raise_if_bind {A} c e (k : result A) x : (_ <- raise_if c e ;; k) = Ok x → c = false ∧ k = Ok x.
Proof. by destruct c. Qed.

Lemma state_text_cell_lookup values k : k ≠ "state" → state_text_cell values !! k = values !! k.
Proof.
  intros H. unfold state_text_cell. destruct (values !! "state") as [[]|]; try done.
  by rewrite lookup_insert_ne.
Qed.

Lemma bound_reason_lookup changes values values' : bound_reason_cell changes values = Ok values' →
  (∀ k, k ≠ "reason" → values' !! k = values !! k) ∧
  match changes !! "reason" with
  | None => values' = values
  | Some c => ∃ s, c = CText s ∧ values' !! "reason" = Some (CText (reason_column s))
  end.
Proof.
  unfold bound_reason_cell. destruct (changes !! "reason") as [[]|]; try discriminate; intros [= <-].
  - split; [intros k Hk; by rewrite lookup_insert_ne|]. exists s. by rewrite lookup_insert_eq.
  - done.
Qed.

Lemma copy_progress_lookup changes values values' : copy_progress_cell changes values = Ok values' →
  (∀ k, k ≠ "progress" → values' !! k = values !! k) ∧
  match changes !! "progress" with
  | None => values' = values
  | Some c => ∃ o, values' !! "progress" = Some (CJson o) ∧ (c = CJson o ∨ c = CNone ∧ o = [])
  end.
Proof.
  unfold copy_progress_cell. destruct (changes !! "progress") as [[]|]; try discriminate; intros [= <-];
    (split; [intros k Hk; by rewrite ?lookup_insert_ne|]); try done;
    eexists; rewrite lookup_insert_eq; eauto.
Qed.

Definition rewritten : list string := ["state"; "reason"; "progress"; "last_error_class"; "last_error_at"].

Lemma step_row_inv base changes row : step_row base changes = Ok row →
  dom changes ⊆ column_set ∧ dom row = column_set ∧
  ∃ v1 v2, bound_reason_cell changes (state_text_cell (changes ∪ base)) = Ok v1 ∧
    copy_progress_cell changes v1 = Ok v2 ∧
    row = <["last_error_at" := CNone]> (<["last_error_class" := CNone]> v2).
Proof.
  unfold step_row. intros H. apply raise_if_bind in H as [H1%negb_false_iff%bool_decide_eq_true H].
  apply bind_ok in H as (v1 & Hv1 & H). apply bind_ok in H as (v2 & Hv2 & H).
  apply raise_if_bind in H as [H2%negb_false_iff%bool_decide_eq_true H].
  apply (inj (@Ok _)) in H as <-. split; [done|]. split; [done|]. eauto.
Qed.

(** ** Theorems *)

(** A restarted scope is not taken for one that has searched. After "read history now"
    on a finished scope, the row keeps the earlier reading's progress and window for the
    page, and [decode_scope] still answers that nothing was searched, whatever the clock
    did: also when the restart carries the same time as the stored progress. *)
Theorem restart_starts_fresh f k id v mode d live anchor on a at_ row :
  row_inv v → restartable v →
  scope_action f mode (Some d) (Some v) live anchor on = Ok a → ac_trigger a = Some T_RESTART →
  transition_row a id f k v d at_ = Ok row →
  ∃ v', scope_view (Some row) = Ok (Some v') ∧ rv_state v' = S_READING ∧
    rv_progress v' = rv_progress v ∧ rv_floor v' = rv_floor v ∧ rv_target_start v' = rv_target_start v ∧
    decode_scope v' = Ok None.
Proof.
  intros Hi Hr Ha Ht Hrow. destruct (restart_action_inv _ _ _ _ _ _ _ _ Ha Ht) as (_ & Hs & Hreason).
  pose proof (scope_action_ok _ _ _ _ _ _ _ _ Ha) as [Hok _].
  pose proof (scope_action_anchor _ _ _ _ _ _ _ _ Ha) as Han.
  destruct (transition_row_inv _ _ _ _ _ _ _ _ Hrow) as (state & Hk & Hs' & Hat & ->).
  rewrite Hs in Hs'. injection Hs' as <-. rewrite Hk in Hok. destruct Hok as (v0 & [= <-] & Hm).
  pose proof (moved_inv a S_READING v d at_ Hi Han Hat Hs Hm) as Hi'.
  exists (moved_view a S_READING v d at_).
  split; [exact (scope_view_exact id f k _ (ri_aware _ Hi') (ri_progress _ Hi'))|].
  do 4 (split; [done|]). apply (decode_scope_restarted _ at_); try done.
  unfold moved_view. cbn [rv_reason]. by rewrite Hreason.
Qed.

(** A stored progress is used only when it belongs to this reading: what [decode_scope]
    returns was decoded from the row's body, agrees with the row's start, is not older than
    the row's reading, and the row is neither waiting nor freshly restarted. *)
Theorem decode_scope_current v p a : decode_scope v = Ok (Some (p, a)) →
  ∃ body, rv_progress v = Some body ∧ body ≠ [] ∧ decode_progress (JObj body) = Ok (p, a) ∧
    rv_target_start v = Some (sp_target_start p) ∧
    (∀ t, rv_started_at v = Some t → dt_us t <= dt_us (sp_started_at p)) ∧
    rv_reason v ≠ Some RESTART_REASON ∧ rv_state v ∉ [S_WAITING; S_NOT_ELIGIBLE].
Proof.
  unfold decode_scope. destruct (rv_progress v) as [[|kv body]|]; try discriminate.
  case_bool_decide as Hst; [discriminate|]. destruct (rv_target_start v) as [target|]; [|discriminate].
  intros H. bind_inv H. destruct r as [p0 a0]. cbn [fst] in H.
  apply bind_ok in H as (older & Hold & H). destruct older; [discriminate|].
  case_bool_decide as Hr; [discriminate|]. destruct (dt_eq _ _) eqn:Heq; [|discriminate].
  cbn [negb] in H. injection H as -> ->. apply dt_eq_true in Heq as <-.
  exists (kv :: body). do 4 (split; [done|]). split; [|done].
  intros t Ht. rewrite Ht in Hold. unfold dt_lt in Hold. destruct (dt_same _ _); [|discriminate].
  injection Hold as Hlt%Z.ltb_ge. done.
Qed.

(** A step writes exactly what it names. A row [step_row] accepts has exactly the
    table's columns; every other column than the rewritten ones is the named change, or the
    base's value; the reason is bounded, the progress is a copy, a named state is stored as
    its text, and the error marker is cleared. A change of an unknown column is refused. *)
Theorem step_row_exact base changes :
  (¬ dom changes ⊆ column_set → ∃ m, step_row base changes = Err (LifecycleError m)) ∧
  ∀ row, step_row base changes = Ok row →
    dom row = column_set ∧
    (∀ k, k ∉ rewritten → row !! k = (changes ∪ base) !! k) ∧
    row !! "last_error_class" = Some CNone ∧ row !! "last_error_at" = Some CNone ∧
    (∀ s, changes !! "state" = Some (CState s) → row !! "state" = Some (CText (HistoryState_value s))) ∧
    match changes !! "reason" with
    | None => row !! "reason" = base !! "reason"
    | Some c => ∃ s, c = CText s ∧ row !! "reason" = Some (CText (reason_column s)) ∧
                  py_len (reason_column s) <= 255
    end.
Proof.
  split.
  { intros H. unfold step_row. rewrite bool_decide_eq_false_2 by done. by eexists. }
  intros row H. destruct (step_row_inv _ _ _ H) as (_ & Hdom & v1 & v2 & Hv1 & Hv2 & ->).
  destruct (bound_reason_lookup _ _ _ Hv1) as [Hr1 Hr2].
  destruct (copy_progress_lookup _ _ _ Hv2) as [Hp1 _].
  split; [done|]. split_and!.
  - intros k Hk. unfold rewritten in Hk. rewrite !not_elem_of_cons in Hk.
    rewrite !lookup_insert_ne by naive_solver. rewrite Hp1, Hr1, state_text_cell_lookup by naive_solver. done.
  - by rewrite lookup_insert_ne, lookup_insert_eq by done.
  - by rewrite lookup_insert_eq.
  - intros s Hs. rewrite !lookup_insert_ne, Hp1, Hr1 by done. unfold state_text_cell.
    rewrite (lookup_union_Some_l _ _ _ _ Hs). by rewrite lookup_insert_eq.
  - destruct (changes !! "reason") as [c|] eqn:Hc.
    + destruct Hr2 as (s & -> & Hs). exists s. split; [done|].
      rewrite !lookup_insert_ne, Hp1 by done. split; [done|apply reason_column_len].
    + rewrite !lookup_insert_ne, Hp1 by done. subst v1. rewrite state_text_cell_lookup by done.
      by rewrite lookup_union_r.
Qed.

(** A deferral keeps the step. When a stored row reads back as a view, the row written
    on a capacity deferral reads back as the same view with only the (bounded) reason
    replaced, and it keeps the stored fault marker. *)
Theorem deferral_keeps_step stored id f k reason v :
  scope_view (Some stored) = Ok (Some v) → check_key f k = Ok tt →
  is_some_b (stored !! "last_error_class") = true → is_some_b (stored !! "last_error_at") = true →
  ∃ row v', deferred_scope_row (Some stored) id f k reason = Ok row ∧
    row !! "last_error_class" = stored !! "last_error_class" ∧
    row !! "last_error_at" = stored !! "last_error_at" ∧
    scope_view (Some row) = Ok (Some v') ∧
    v' = stored_view {| rv_state := rv_state v; rv_days_requested := rv_days_requested v;
           rv_days_target := rv_days_target v; rv_target_start := rv_target_start v;
           rv_floor := rv_floor v; rv_through := rv_through v; rv_anchor := rv_anchor v;
           rv_started_at := rv_started_at v; rv_finished_at := rv_finished_at v;
           rv_reason := Some (reason_column reason); rv_progress := rv_progress v |}.
Proof.
  intros Hv Hk Hc Ha. destruct (stored !! "last_error_class") as [c|] eqn:Ec; [|done].
  destruct (stored !! "last_error_at") as [e|] eqn:Ee; [|done].
  unfold deferred_scope_row. rewrite Hv. cbn [res_bind]. unfold scope_row. rewrite Hk. cbn [res_bind].
  rewrite (attr_ok _ _ _ Ec), (attr_ok _ _ _ Ee). cbn [res_bind]. fold (row_of id f k v).
  eexists _, _. split; [done|]. split; [by rewrite lookup_insert_ne, lookup_insert_eq|].
  split; [by rewrite lookup_insert_eq|]. split; [|reflexivity].
  assert (Hva : view_aware v).
  { unfold scope_view in Hv. do 11 (apply bind_ok in Hv as (? & _ & Hv)).
    apply bind_ok in Hv as ([] & Hw & Hv). injection Hv as <-. by apply check_scope_row_ok. }
  set (v1 := {| rv_state := _ |}).
  assert (Hrow : ∀ n, n ∉ ["last_error_class"; "last_error_at"] →
    (<["last_error_at" := e]> (<["last_error_class" := c]> (<["reason" := CText (reason_column reason)]> (row_of id f k v)))) !! n
    = row_of id f k v1 !! n).
  { intros n Hn. rewrite !not_elem_of_cons in Hn. rewrite !lookup_insert_ne by naive_solver.
    destruct (decide (n = "reason")) as [->|Hne]; [by rewrite lookup_insert_eq|].
    rewrite lookup_insert_ne by done. unfold row_of, columns. cbn [list_to_map foldr fst snd].
    rewrite !lookup_insert. repeat (case_decide; [done|]). done. }
  rewrite <-(scope_view_row_of id f k v1) by (by destruct Hva).
  unfold scope_view, attr_int, attr_time, attr_text, attr_json, attr. rewrite !Hrow by (by apply (bool_decide_unpack _)). reflexivity.
Qed.
