(* ===== verification/PlannerExamples.v ===== *)
(** * Planner examples

    One backfill at the shipped settings: five-minute buckets, the floor at bucket 0, the
    boundary at bucket 400. The theorems of the planner apply to it. *)

From S2P Require Import Prelude PyStr PyFloat PyFloatFacts PyTime HistoryState HistoryPlanner PlannerTime PlannerStep PlannerRun PyIso PyJson ProgressCodec HistoryLifecycle LifecycleFacts.

Abbreviation ds := default_settings.

Definition ex_now : datetime := utc 0.

Definition ex_start : ScopeProgress := {|
  sp_target_start := bt ds 0; sp_started_at := ex_now; sp_floor := None;
  sp_first_event_bucket := None; sp_through := None; sp_scan_cursor := Some (bt ds 0);
  sp_scan_failures := 0; sp_chunk_buckets := None; sp_chunk_ceiling := None;
  sp_ceiling_successes := 0; sp_failures := 0; sp_searches := 0; sp_buckets_read := 0;
  sp_lower_bound_buckets := 0; sp_rows_seen := 0; sp_non_silent_buckets := 0;
  sp_recent_rows_per_bucket := None; sp_density_checked := false; sp_gaps := [] |}.

Definition ex_p : ScopeProgress := with_floor (Some (bt ds 0)) ex_start.

Definition ex_budget : StepBudget := {| sb_searches := 3; sb_seconds_left := div_round 120 1 |}.

(** The results of the plan of [ex_p]: two chunks, the second one truncated. *)
Definition ex_chunk (a b : Z) (st : SearchStatus) : ChunkResult := {|
  cr_span := mk_span ds a b; cr_status := st; cr_rows := 900; cr_non_silent_buckets := 60;
  cr_lower_bound_buckets := 2; cr_searches := 1 |}.

Definition ex_results : list ChunkResult :=
  [ex_chunk 0 288 SS_COMPLETE; ex_chunk 288 400 SS_TRUNCATED].

Definition ex_done : list ChunkResult :=
  [ex_chunk 0 288 SS_COMPLETE; ex_chunk 288 400 SS_COMPLETE].

(** One scanned span: four buckets, the first event in the second. *)
Definition ex_scan : list ScanSpanResult := [{|
  ssr_span := mk_span ds 0 400; ssr_status := SS_COMPLETE;
  ssr_totals := [(bt ds 1, 4)] |}].

(** ** The hypotheses of the theorems, on these values *)

Lemma ex_sized : settings_sized ds.
Proof.
  split; [reflexivity|]. exists 0. split; [|lia]. do 2 eexists.
  split; [vm_compute; reflexivity|]. split; vm_compute; congruence.
Qed.

Lemma ex_facts : settings_facts ds.
Proof. by apply valid_settings_facts. Qed.

Lemma ex_fresh : fresh ds ex_p 0.
Proof.
  split; try reflexivity. split.
  - by exists 0.
  - reflexivity.
  - intros f [= <-]. by exists 0.
  - discriminate.
  - discriminate.
Qed.

Lemma ex_counters : counters_ok ex_p.
Proof. split; split; [done|reflexivity|done|reflexivity]. Qed.

Lemma ex_results_ok st : results_ok ds 0 [ex_chunk 0 288 SS_COMPLETE; ex_chunk 288 400 st] 400.
Proof.
  split.
  - exists 288. split; [done|]. split; [done|]. by exists 400.
  - split; [repeat constructor; discriminate|reflexivity].
  - split; [repeat constructor; discriminate|reflexivity].
  - destruct st; (split; [repeat constructor; discriminate|reflexivity]).
  - reflexivity.
Qed.

(** The plan of [ex_p] and the settlement of its results. *)
Definition ex_plan : StepPlan :=
  match plan_step ex_p ex_now (bt ds 400) ex_budget ds true false with
  | Ok pl => pl
  | Err _ => finish_plan "" T_STOPPED_BY_OPERATOR
  end.

Definition ex_settle (rs : list ChunkResult) : StepSettlement :=
  match settle_step ex_p rs (bt ds 400) ds with
  | Ok st => st
  | Err _ => {| ss_progress := ex_p; ss_write_spans := []; ss_advanced := false; ss_reason := "";
                ss_trigger := None; ss_new_gap := None |}
  end.

Lemma ex_tick st : st = SS_TRUNCATED ∨ st = SS_COMPLETE →
  let rs := [ex_chunk 0 288 SS_COMPLETE; ex_chunk 288 400 st] in
  tick ds 400 ex_p rs (ex_settle rs).
Proof.
  intros Hst rs. apply (tick_intro ds 400 ex_p rs _ ex_now ex_budget ex_plan 0 400).
  - reflexivity.
  - vm_compute. reflexivity.
  - vm_compute. reflexivity.
  - reflexivity.
  - split; [vm_compute; reflexivity|apply ex_results_ok].
  - apply ex_counters.
  - destruct Hst as [->| ->]; vm_compute; reflexivity.
Qed.

Lemma ex_trigger : ss_trigger (ex_settle ex_results) = None ∧
  ss_trigger (ex_settle ex_done) = Some T_FINISHED_COMPLETE.
Proof. split; vm_compute; reflexivity. Qed.

(** ** Witnesses *)

Lemma interpret_scan_evidence_witness :
  ∃ d, interpret_scan ex_start ex_scan (bt ds 400) ds = Ok d ∧ scd_outcome d = FLOOR_FOUND.
Proof.
  destruct (interpret_scan_evidence ds ex_start ex_scan 0 0 400 400) as (d & H & _).
  - reflexivity.
  - reflexivity.
  - reflexivity.
  - reflexivity.
  - exists 400. done.
  - apply Forall_singleton, Forall_singleton. split; [by exists 1|]. done.
  - exists d. split; [exact H|]. revert H. vm_compute. intros [= <-]. reflexivity.
Defined.

Lemma plan_step_total_witness :
  ∃ pl, plan_step ex_p ex_now (bt ds 400) ex_budget ds true false = Ok pl ∧ spl_action pl = SA_READ.
Proof.
  destruct (plan_step_total ds ex_p ex_now 400 ex_budget true false) as (pl & H & _).
  - reflexivity.
  - done.
  - apply ex_fresh.
  - reflexivity.
  - exists pl. split; [exact H|]. revert H. vm_compute. intros [= <-]. reflexivity.
Defined.

Lemma split_on_truncation_partition_witness :
  ∃ r, split_on_truncation (mk_span ds 0 9) ds = Ok r ∧ r ≠ None.
Proof.
  destruct (split_on_truncation_partition ds 0 9) as (r & H & Hr); [reflexivity|done|].
  exists r. split; [exact H|]. by intros ->.
Defined.

Lemma settle_step_prefix_witness :
  ∃ st, settle_step ex_p ex_results (bt ds 400) ds = Ok st ∧ ss_write_spans st = [mk_span ds 0 288].
Proof.
  destruct (settle_step_prefix ds ex_p 0 ex_results 400 400) as (st & pre & post & m & H & _).
  - reflexivity.
  - apply ex_sized.
  - apply ex_fresh.
  - apply ex_counters.
  - reflexivity.
  - apply ex_results_ok.
  - exists st. split; [exact H|]. revert H. vm_compute. intros [= <-]. reflexivity.
Defined.



Lemma settle_trigger_justified_witness :
  settle_reason ds 400 ex_done (ss_progress (ex_settle ex_done)) T_FINISHED_COMPLETE.
Proof.
  apply (settle_trigger_justified ds ex_p 0 ex_done 400 400).
  - reflexivity.
  - apply ex_sized.
  - apply ex_fresh.
  - apply ex_counters.
  - reflexivity.
  - apply ex_results_ok.
  - vm_compute. reflexivity.
  - apply ex_trigger.
Defined.

Lemma reading_bounded_witness :
  ∃ q, ticks ds 400 1 ex_p q ∧ 1 <= (Z.max 0 (400 - 0) * (2016 + 1) + 2016) * (3 + 1) + 3.
Proof.
  assert (H : ticks ds 400 1 ex_p (ss_progress (ex_settle ex_results))).
  { apply (ticks_S ds 400 0 ex_p ex_results (ex_settle ex_results)).
    - apply (ex_tick SS_TRUNCATED). by left.
    - intros r [= <-]. discriminate.
    - apply ex_trigger.
    - constructor. }
  exists (ss_progress (ex_settle ex_results)). split; [exact H|].
  apply (reading_bounded ds 400 1 ex_p _ 0 eq_refl ex_sized eq_refl ltac:(done) (fr_ok _ _ _ ex_fresh) eq_refl
    ltac:(done) H).
Defined.

Lemma tick_width_witness : width_in ds (chunk_width (ss_progress (ex_settle ex_results)) ds).
Proof.
  apply (tick_width ds ex_p 400 ex_results (ex_settle ex_results)).
  - reflexivity.
  - apply ex_sized.
  - done.
  - apply ex_fresh.
  - apply (ex_tick SS_TRUNCATED). by left.
Defined.

(** A family that needs 40 searches a day: 30 days do not fit in 72 hours at one search a tick. *)
Definition ex_estimate (d : Z) : result Z := Ok (d * 40).

Lemma fit_window_largest_witness :
  ∃ w, fit_window 30 ex_estimate (bt ds 400) ds (Some 1) 1 = Ok w ∧ wf_days_fitted w = Some 21.
Proof.
  destruct (fit_window_largest ds ex_estimate 400 30 (Some 1) 1) as (w & H & _).
  - reflexivity.
  - reflexivity.
  - split; [discriminate|reflexivity].
  - done.
  - intros d Hd. exists (d * 40). split; [reflexivity|]. split; [lia|].
    apply (Z.le_lt_trans _ 1200); [lia|reflexivity].
  - exists w. split; [exact H|]. revert H. vm_compute. intros [= <-]. reflexivity.
Defined.

(** * Lifecycle examples

    A console-wide scope that waits, is stopped and asked to read again, and the witnesses
    of the lifecycle's theorems. *)


Definition at_hour (n : Z) : datetime := utc (td_hours n).

Definition decided : DecisionView := {|
  dv_answer := "YES"; dv_days := Some 30; dv_start_requested_at := None; dv_start_requested_by := None;
  dv_stop_requested_at := None; dv_stop_requested_by := None |}.

Definition stopped : DecisionView := {|
  dv_answer := "YES"; dv_days := Some 30; dv_start_requested_at := None; dv_start_requested_by := None;
  dv_stop_requested_at := Some (at_hour 2); dv_stop_requested_by := Some "ops" |}.

Definition asked_again : DecisionView := {|
  dv_answer := "YES"; dv_days := Some 30; dv_start_requested_at := Some (at_hour 4);
  dv_start_requested_by := Some "ops"; dv_stop_requested_at := Some (at_hour 2);
  dv_stop_requested_by := Some "ops" |}.

Definition action_of (r : result ScopeAction) : ScopeAction :=
  match r with Ok a => a | Err _ => no_action "" end.

Definition created (f : HistoryFamily) : ScopeRowView :=
  created_view (action_of (scope_action f CM_ACTIVE (Some decided) None false None true)) S_WAITING 30 (at_hour 1).

Definition ended (f : HistoryFamily) : ScopeRowView :=
  moved_view (action_of (scope_action f CM_STOPPED (Some stopped) (Some (created f)) false None true))
    S_PARTIAL (created f) stopped (at_hour 3).

Definition restarted (f : HistoryFamily) : ScopeRowView :=
  moved_view (action_of (scope_action f CM_ACTIVE (Some asked_again) (Some (ended f)) false None true))
    S_READING (ended f) asked_again (at_hour 5).

Lemma console_wide f : f ∈ SCOPE_TABLE_FAMILIES → per_source f = false →
  f = F_PHASE_A ∨ f = F_CATCHALL ∨ f = F_RULE_MATCH.
Proof. intros H H2. destruct f; try discriminate H2; auto. exfalso. apply (bool_decide_pack _) in H. by vm_compute in H. Qed.

Lemma view_aware_of v : forallb (λ d, match d with Some d => dt_aware d | None => true end)
  [rv_target_start v; rv_floor v; rv_through v; rv_anchor v; rv_started_at v; rv_finished_at v] = true →
  view_aware v.
Proof.
  cbn. rewrite !andb_true_iff. intros (? & ? & ? & ? & ? & ? & _).
  by split; intros x Hx; rewrite Hx in *.
Qed.

Lemma life_restarted f : f = F_PHASE_A ∨ f = F_CATCHALL ∨ f = F_RULE_MATCH →
  life 1 f "" (Some (row_of 1 f "" (ended f))) ∧ life 1 f "" (Some (row_of 1 f "" (restarted f))).
Proof.
  intros Hf.
  assert (H1 : life 1 f "" (Some (row_of 1 f "" (created f)))).
  { eapply (life_tick _ _ _ None None CM_ACTIVE decided false None true
      (action_of (scope_action f CM_ACTIVE (Some decided) None false None true)) (at_hour 1)); [constructor|done| |].
    - destruct Hf as [->|[->| ->]]; vm_compute; reflexivity.
    - unfold tick_row. replace (ac_kind _) with AK_CREATE by (by destruct Hf as [->|[->| ->]]).
      eexists. split; [apply (new_scope_row_ok _ _ _ _ _ _ S_WAITING 30)|done]; by destruct Hf as [->|[->| ->]]. }
  assert (H2 : life 1 f "" (Some (row_of 1 f "" (ended f)))).
  { eapply (life_tick _ _ _ _ (Some (created f)) CM_STOPPED stopped false None true
      (action_of (scope_action f CM_STOPPED (Some stopped) (Some (created f)) false None true)) (at_hour 3)); [exact H1| | |].
    - apply scope_view_exact; [apply view_aware_of|]; by destruct Hf as [->|[->| ->]].
    - destruct Hf as [->|[->| ->]]; vm_compute; reflexivity.
    - unfold tick_row. replace (ac_kind _) with AK_TRANSITION by (by destruct Hf as [->|[->| ->]]).
      do 2 eexists. split; [done|]. split; [apply (transition_row_ok _ _ _ _ _ _ _ S_PARTIAL)|done];
        by destruct Hf as [->|[->| ->]]. }
  split; [exact H2|].
  eapply (life_tick _ _ _ _ (Some (ended f)) CM_ACTIVE asked_again false None true
    (action_of (scope_action f CM_ACTIVE (Some asked_again) (Some (ended f)) false None true)) (at_hour 5)); [exact H2| | |].
  - apply scope_view_exact; [apply view_aware_of|]; by destruct Hf as [->|[->| ->]].
  - destruct Hf as [->|[->| ->]]; vm_compute; reflexivity.
  - unfold tick_row. replace (ac_kind _) with AK_TRANSITION by (by destruct Hf as [->|[->| ->]]).
    do 2 eexists. split; [done|]. split; [apply (transition_row_ok _ _ _ _ _ _ _ S_READING)|done];
      by destruct Hf as [->|[->| ->]].
Qed.

(** A restart can put a console-wide scope into READING without an anchor. A scope that
    is stopped while it still WAITs for its first live bucket ends PARTIAL with no anchor; a
    later "read history now", still without live data, moves it to READING, a state from
    which no tick looks for an anchor again. *)
Theorem restart_without_anchor f : f ∈ SCOPE_TABLE_FAMILIES → per_source f = false →
  ∃ row v, life 1 f "" (Some row) ∧ scope_view (Some row) = Ok (Some v) ∧
    rv_state v = S_READING ∧ rv_anchor v = None ∧
    ∀ mode d live anchor on a, scope_action f mode (Some d) (Some v) live anchor on = Ok a →
      ac_state a = Some S_READING → ac_kind a = AK_STEP ∧ ac_anchor a = None.
Proof.
  intros Hf Hw. pose proof (console_wide f Hf Hw) as Hc. destruct (life_restarted f Hc) as [_ Hl].
  exists (row_of 1 f "" (restarted f)), (restarted f). split; [exact Hl|].
  assert (Hs : rv_state (restarted f) = S_READING) by (destruct Hc as [->|[->| ->]]; done).
  split; [apply scope_view_exact; [apply view_aware_of|]; by destruct Hc as [->|[->| ->]]|].
  split; [exact Hs|]. split; [destruct Hc as [->|[->| ->]]; vm_compute; reflexivity|].
  intros mode d live anchor on a Ha Hst. unfold scope_action in Ha. bind_inv Ha. bind_inv Ha.
  rewrite Hs in Ha. revert Ha. unfold row_action. rewrite Hs.
  repeat case_match; intros Ha; try done; try (by apply (inj (@Ok _)) in Ha as <-);
    destruct (moving_ok _ _ _ _ _ _ Ha) as (_ & (t & c & Ht & Hn & Hs') & Ht' & _);
    rewrite Hst in Hs'; injection Hs' as Hs'; rewrite Ht in Ht'; injection Ht' as ->;
    vm_compute in Hn; injection Hn as <-; discriminate.
Qed.

(** ** Witnesses *)

Lemma restart_without_anchor_witness : ∃ row v, life 1 F_PHASE_A "" (Some row) ∧
  scope_view (Some row) = Ok (Some v) ∧ rv_state v = S_READING ∧ rv_anchor v = None.
Proof.
  destruct (restart_without_anchor F_PHASE_A) as (row & v & H1 & H2 & H3 & H4 & _);
    [by apply (bool_decide_unpack _)|done|]. by exists row, v.
Defined.


(** A finished reading with a stored progress, asked to read again at the same instant. *)
Definition finished_body : jobj :=
  match progress_json ex_progress [] with JObj o => o | _ => [] end.

Definition finished_view : ScopeRowView := {|
  rv_state := S_COMPLETE; rv_days_requested := Some 30; rv_days_target := Some 30;
  rv_target_start := Some (utc 0); rv_floor := Some (utc 0); rv_through := Some (utc 300000000);
  rv_anchor := Some (at_hour 1); rv_started_at := Some (utc 1500000); rv_finished_at := Some (at_hour 3);
  rv_reason := Some "done"; rv_progress := Some finished_body |}.

Lemma finished_inv : row_inv finished_view.
Proof.
  assert (H : ∀ us, opt_aware (Some (utc us))) by (intros us x [= <-]; done).
  split; [|done|done|done|done]. split; cbn; apply H.
Qed.

Lemma finished_restartable : restartable finished_view.
Proof.
  right. exists finished_body. split; [done|]. split; [done|].
  eexists. apply (decode_progress_ok ex_progress []), ex_storable.
Qed.

Lemma restart_starts_fresh_witness :
  ∃ v', decode_scope v' = Ok None ∧ rv_progress v' = Some finished_body.
Proof.
  destruct (restart_starts_fresh F_PHASE_A "" 1 finished_view CM_ACTIVE asked_again false None true
    (action_of (scope_action F_PHASE_A CM_ACTIVE (Some asked_again) (Some finished_view) false None true))
    (utc 1500000)
    (row_of 1 F_PHASE_A "" (moved_view (action_of (scope_action F_PHASE_A CM_ACTIVE (Some asked_again)
       (Some finished_view) false None true)) S_READING finished_view asked_again (utc 1500000))))
    as (v' & _ & _ & Hp & _ & _ & Hd).
  - exact finished_inv.
  - exact finished_restartable.
  - reflexivity.
  - reflexivity.
  - reflexivity.
  - exists v'. split; [exact Hd|]. rewrite Hp. reflexivity.
Defined.

Definition reading_view : ScopeRowView := {|
  rv_state := S_READING; rv_days_requested := Some 30; rv_days_target := Some 30;
  rv_target_start := Some (utc 0); rv_floor := Some (utc 0); rv_through := Some (utc 300000000);
  rv_anchor := Some (at_hour 1); rv_started_at := Some (utc 1500000); rv_finished_at := None;
  rv_reason := Some "read 2 bucket(s)"; rv_progress := Some finished_body |}.

Lemma decode_scope_current_witness :
  rv_target_start reading_view = Some (sp_target_start ex_progress).
Proof.
  assert (H : decode_scope reading_view = Ok (Some (ex_progress, []))) by (vm_compute; reflexivity).
  destruct (decode_scope_current reading_view ex_progress [] H) as (_ & _ & _ & _ & Ht & _). exact Ht.
Defined.

Lemma deferral_keeps_step_witness : ∃ row v',
  deferred_scope_row (Some (row_of 1 F_PHASE_A "" reading_view)) 1 F_PHASE_A "" "no capacity" = Ok row ∧
  scope_view (Some row) = Ok (Some v').
Proof.
  destruct (deferral_keeps_step (row_of 1 F_PHASE_A "" reading_view) 1 F_PHASE_A "" "no capacity" reading_view)
    as (row & v' & H1 & _ & _ & H2 & _).
  - vm_compute. reflexivity.
  - reflexivity.
  - vm_compute. reflexivity.
  - vm_compute. reflexivity.
  - by exists row, v'.
Defined.
