(* ===== verification/Enums.v ===== *)
(** * Shared enumerations

    The enumerations of [models/enums.py] the modelled code reads, with the text each
    member is stored as. *)

From S2P Require Import Prelude.

Inductive Criticality : Type :=
| CR_CRITICAL
| CR_HIGH
| CR_MEDIUM
| CR_LOW.

Definition Criticality_value (x : Criticality) : string :=
  match x with
  | CR_CRITICAL => "CRITICAL"
  | CR_HIGH => "HIGH"
  | CR_MEDIUM => "MEDIUM"
  | CR_LOW => "LOW"
  end.

#[export] Instance Criticality_eq_dec : EqDecision Criticality.
Proof. solve_decision. Defined.

Inductive Severity : Type :=
| SEV_CRITICAL
| SEV_HIGH
| SEV_MEDIUM
| SEV_LOW
| SEV_INFO.

Definition Severity_value (x : Severity) : string :=
  match x with
  | SEV_CRITICAL => "CRITICAL"
  | SEV_HIGH => "HIGH"
  | SEV_MEDIUM => "MEDIUM"
  | SEV_LOW => "LOW"
  | SEV_INFO => "INFO"
  end.

Definition all_severities : list Severity := [SEV_CRITICAL; SEV_HIGH; SEV_MEDIUM; SEV_LOW; SEV_INFO].

#[export] Instance Severity_eq_dec : EqDecision Severity.
Proof. solve_decision. Defined.

Inductive AnomalyType : Type :=
| AT_NO_EVENTS
| AT_VOLUME_DROP
| AT_VOLUME_SPIKE
| AT_PARSING_DEGRADATION
| AT_UNKNOWN_EVENT_SPIKE
| AT_TIMESTAMP_DELAY
| AT_CARDINALITY_DROP
| AT_COLLECTION_ERROR
| AT_REPEATED_PAYLOAD.

Definition AnomalyType_value (x : AnomalyType) : string :=
  match x with
  | AT_NO_EVENTS => "NO_EVENTS"
  | AT_VOLUME_DROP => "VOLUME_DROP"
  | AT_VOLUME_SPIKE => "VOLUME_SPIKE"
  | AT_PARSING_DEGRADATION => "PARSING_DEGRADATION"
  | AT_UNKNOWN_EVENT_SPIKE => "UNKNOWN_EVENT_SPIKE"
  | AT_TIMESTAMP_DELAY => "TIMESTAMP_DELAY"
  | AT_CARDINALITY_DROP => "CARDINALITY_DROP"
  | AT_COLLECTION_ERROR => "COLLECTION_ERROR"
  | AT_REPEATED_PAYLOAD => "REPEATED_PAYLOAD"
  end.

#[export] Instance AnomalyType_eq_dec : EqDecision AnomalyType.
Proof. solve_decision. Defined.

Inductive CustomRuleSubjectKind : Type :=
| SK_LOG_SOURCE
| SK_FLEET_CLASS
| SK_WAF_ENDPOINT
| SK_IPS_ENTITY
| SK_IPS_SOURCE
| SK_PW_VALUE.

Definition CustomRuleSubjectKind_value (x : CustomRuleSubjectKind) : string :=
  match x with
  | SK_LOG_SOURCE => "LOG_SOURCE"
  | SK_FLEET_CLASS => "FLEET_CLASS"
  | SK_WAF_ENDPOINT => "WAF_ENDPOINT"
  | SK_IPS_ENTITY => "IPS_ENTITY"
  | SK_IPS_SOURCE => "IPS_SOURCE"
  | SK_PW_VALUE => "PW_VALUE"
  end.

#[export] Instance CustomRuleSubjectKind_eq_dec : EqDecision CustomRuleSubjectKind.
Proof. solve_decision. Defined.

Inductive CustomRuleMetric : Type :=
| M_EVENT_COUNT
| M_AVERAGE_EPS
| M_EPS
| M_REQUEST_COUNT
| M_BLOCK_RATIO
| M_SERVER_ERROR_RATIO
| M_CLIENT_ERROR_RATIO
| M_EVENTS
| M_TOTAL_EVENTS
| M_BLOCKED_SHARE
| M_PW_VALUE_EVENTS.

Definition CustomRuleMetric_value (x : CustomRuleMetric) : string :=
  match x with
  | M_EVENT_COUNT => "event_count"
  | M_AVERAGE_EPS => "average_eps"
  | M_EPS => "eps"
  | M_REQUEST_COUNT => "request_count"
  | M_BLOCK_RATIO => "block_ratio"
  | M_SERVER_ERROR_RATIO => "server_error_ratio"
  | M_CLIENT_ERROR_RATIO => "client_error_ratio"
  | M_EVENTS => "events"
  | M_TOTAL_EVENTS => "total_events"
  | M_BLOCKED_SHARE => "blocked_share"
  | M_PW_VALUE_EVENTS => "pw_value_events"
  end.

#[export] Instance CustomRuleMetric_eq_dec : EqDecision CustomRuleMetric.
Proof. solve_decision. Defined.

Inductive AnomalyState : Type :=
| AS_INSUFFICIENT_DATA
| AS_NORMAL
| AS_CANDIDATE
| AS_OPEN
| AS_RECOVERING
| AS_RESOLVED
| AS_SUPPRESSED.

Definition AnomalyState_value (x : AnomalyState) : string :=
  match x with
  | AS_INSUFFICIENT_DATA => "INSUFFICIENT_DATA"
  | AS_NORMAL => "NORMAL"
  | AS_CANDIDATE => "CANDIDATE"
  | AS_OPEN => "OPEN"
  | AS_RECOVERING => "RECOVERING"
  | AS_RESOLVED => "RESOLVED"
  | AS_SUPPRESSED => "SUPPRESSED"
  end.

#[export] Instance AnomalyState_eq_dec : EqDecision AnomalyState.
Proof. solve_decision. Defined.

Inductive BucketCompleteness : Type :=
| BC_COMPLETE
| BC_PARTIAL
| BC_MISSING.

Definition BucketCompleteness_value (x : BucketCompleteness) : string :=
  match x with
  | BC_COMPLETE => "COMPLETE"
  | BC_PARTIAL => "PARTIAL"
  | BC_MISSING => "MISSING"
  end.

#[export] Instance BucketCompleteness_eq_dec : EqDecision BucketCompleteness.
Proof. solve_decision. Defined.

Inductive WafMeasurement : Type :=
| WM_EXACT
| WM_LOWER_BOUND.

Definition WafMeasurement_value (x : WafMeasurement) : string :=
  match x with
  | WM_EXACT => "EXACT"
  | WM_LOWER_BOUND => "LOWER_BOUND"
  end.

#[export] Instance WafMeasurement_eq_dec : EqDecision WafMeasurement.
Proof. solve_decision. Defined.

Inductive RobustScoreStatus : Type :=
| RS_OK
| RS_DEGENERATE
| RS_UNAVAILABLE.

Definition RobustScoreStatus_value (x : RobustScoreStatus) : string :=
  match x with
  | RS_OK => "OK"
  | RS_DEGENERATE => "DEGENERATE"
  | RS_UNAVAILABLE => "UNAVAILABLE"
  end.

#[export] Instance RobustScoreStatus_eq_dec : EqDecision RobustScoreStatus.
Proof. solve_decision. Defined.

Inductive DetectorSignal : Type :=
| DS_HEALTHY
| DS_ANOMALOUS
| DS_UNKNOWN.

Definition DetectorSignal_value (x : DetectorSignal) : string :=
  match x with
  | DS_HEALTHY => "HEALTHY"
  | DS_ANOMALOUS => "ANOMALOUS"
  | DS_UNKNOWN => "UNKNOWN"
  end.

#[export] Instance DetectorSignal_eq_dec : EqDecision DetectorSignal.
Proof. solve_decision. Defined.

Inductive AlertStatus : Type :=
| AL_OPEN
| AL_ACKNOWLEDGED
| AL_RESOLVED.

Definition AlertStatus_value (x : AlertStatus) : string :=
  match x with
  | AL_OPEN => "OPEN"
  | AL_ACKNOWLEDGED => "ACKNOWLEDGED"
  | AL_RESOLVED => "RESOLVED"
  end.

#[export] Instance AlertStatus_eq_dec : EqDecision AlertStatus.
Proof. solve_decision. Defined.

Inductive AlertTransition : Type :=
| TR_OPENED
| TR_ACKNOWLEDGED
| TR_RESOLVED.

Definition AlertTransition_value (x : AlertTransition) : string :=
  match x with
  | TR_OPENED => "OPENED"
  | TR_ACKNOWLEDGED => "ACKNOWLEDGED"
  | TR_RESOLVED => "RESOLVED"
  end.

#[export] Instance AlertTransition_eq_dec : EqDecision AlertTransition.
Proof. solve_decision. Defined.

Inductive EvidenceStatus : Type :=
| ES_NOT_REQUESTED
| ES_PENDING
| ES_COMPLETE
| ES_PARTIAL
| ES_UNAVAILABLE
| ES_FAILED.

Definition EvidenceStatus_value (x : EvidenceStatus) : string :=
  match x with
  | ES_NOT_REQUESTED => "NOT_REQUESTED"
  | ES_PENDING => "PENDING"
  | ES_COMPLETE => "COMPLETE"
  | ES_PARTIAL => "PARTIAL"
  | ES_UNAVAILABLE => "UNAVAILABLE"
  | ES_FAILED => "FAILED"
  end.

#[export] Instance EvidenceStatus_eq_dec : EqDecision EvidenceStatus.
Proof. solve_decision. Defined.

Inductive OutagePolicyMode : Type :=
| OM_ALERT
| OM_RECORD_ONLY.

Definition OutagePolicyMode_value (x : OutagePolicyMode) : string :=
  match x with
  | OM_ALERT => "ALERT"
  | OM_RECORD_ONLY => "RECORD_ONLY"
  end.

#[export] Instance OutagePolicyMode_eq_dec : EqDecision OutagePolicyMode.
Proof. solve_decision. Defined.

Inductive NotificationChannel : Type :=
| CH_TEAMS
| CH_EMAIL
| CH_SLACK
| CH_WEBHOOK
| CH_SYSLOG.

Definition NotificationChannel_value (x : NotificationChannel) : string :=
  match x with
  | CH_TEAMS => "TEAMS"
  | CH_EMAIL => "EMAIL"
  | CH_SLACK => "SLACK"
  | CH_WEBHOOK => "WEBHOOK"
  | CH_SYSLOG => "SYSLOG"
  end.

#[export] Instance NotificationChannel_eq_dec : EqDecision NotificationChannel.
Proof. solve_decision. Defined.

Inductive NotificationStatus : Type :=
| NS_PENDING
| NS_SENT
| NS_FAILED
| NS_DEAD_LETTER
| NS_SUPPRESSED.

Definition NotificationStatus_value (x : NotificationStatus) : string :=
  match x with
  | NS_PENDING => "PENDING"
  | NS_SENT => "SENT"
  | NS_FAILED => "FAILED"
  | NS_DEAD_LETTER => "DEAD_LETTER"
  | NS_SUPPRESSED => "SUPPRESSED"
  end.

#[export] Instance NotificationStatus_eq_dec : EqDecision NotificationStatus.
Proof. solve_decision. Defined.

Inductive PwBucketMeasurement : Type :=
| PB_EXACT
| PB_LOWER_BOUND
| PB_NOT_COLLECTED.

Definition PwBucketMeasurement_value (x : PwBucketMeasurement) : string :=
  match x with
  | PB_EXACT => "EXACT"
  | PB_LOWER_BOUND => "LOWER_BOUND"
  | PB_NOT_COLLECTED => "NOT_COLLECTED"
  end.

#[export] Instance PwBucketMeasurement_eq_dec : EqDecision PwBucketMeasurement.
Proof. solve_decision. Defined.

Inductive PwPinnedMeasurement : Type :=
| PP_EXACT
| PP_LOWER_BOUND
| PP_NOT_COLLECTED
| PP_NOT_REQUESTED.

Definition PwPinnedMeasurement_value (x : PwPinnedMeasurement) : string :=
  match x with
  | PP_EXACT => "EXACT"
  | PP_LOWER_BOUND => "LOWER_BOUND"
  | PP_NOT_COLLECTED => "NOT_COLLECTED"
  | PP_NOT_REQUESTED => "NOT_REQUESTED"
  end.

#[export] Instance PwPinnedMeasurement_eq_dec : EqDecision PwPinnedMeasurement.
Proof. solve_decision. Defined.

Inductive PwBucketOrigin : Type :=
| PO_LIVE
| PO_HISTORY.

Definition PwBucketOrigin_value (x : PwBucketOrigin) : string :=
  match x with
  | PO_LIVE => "LIVE"
  | PO_HISTORY => "HISTORY"
  end.

#[export] Instance PwBucketOrigin_eq_dec : EqDecision PwBucketOrigin.
Proof. solve_decision. Defined.

Inductive PwAnomalyType : Type :=
| PW_VALUE_SPIKE
| PW_VALUE_DROP
| PW_VALUE_DISAPPEARED
| PW_NEW_VALUE
| PW_NEW_COMBINATION.

Definition PwAnomalyType_value (x : PwAnomalyType) : string :=
  match x with
  | PW_VALUE_SPIKE => "PW_VALUE_SPIKE"
  | PW_VALUE_DROP => "PW_VALUE_DROP"
  | PW_VALUE_DISAPPEARED => "PW_VALUE_DISAPPEARED"
  | PW_NEW_VALUE => "PW_NEW_VALUE"
  | PW_NEW_COMBINATION => "PW_NEW_COMBINATION"
  end.

#[export] Instance PwAnomalyType_eq_dec : EqDecision PwAnomalyType.
Proof. solve_decision. Defined.

Inductive PwWatchStatus : Type :=
| PW_NOT_ENABLED
| PW_DISABLED
| PW_SCOPE_EMPTY
| PW_SCOPE_STALE
| PW_SCOPE_TOO_LARGE
| PW_NOT_APPLICABLE
| PW_READING_HISTORY
| PW_STALE
| PW_OPEN
| PW_RECOVERING
| PW_OK.

Definition PwWatchStatus_value (x : PwWatchStatus) : string :=
  match x with
  | PW_NOT_ENABLED => "NOT_ENABLED"
  | PW_DISABLED => "DISABLED"
  | PW_SCOPE_EMPTY => "SCOPE_EMPTY"
  | PW_SCOPE_STALE => "SCOPE_STALE"
  | PW_SCOPE_TOO_LARGE => "SCOPE_TOO_LARGE"
  | PW_NOT_APPLICABLE => "NOT_APPLICABLE"
  | PW_READING_HISTORY => "READING_HISTORY"
  | PW_STALE => "STALE"
  | PW_OPEN => "OPEN"
  | PW_RECOVERING => "RECOVERING"
  | PW_OK => "OK"
  end.

#[export] Instance PwWatchStatus_eq_dec : EqDecision PwWatchStatus.
Proof. solve_decision. Defined.
