(* ===== verification/AnomalyLifecycle.v ===== *)
(** * The anomaly lifecycle

    [anomaly/lifecycle.py]: the hysteresis counters and the next state of one detector of
    one log source; and [anomaly/faults.py]: how often a failing bucket is retried. *)

From S2P Require Import Prelude PyStr Enums PyFloat PyTime PyJson.

Record LifecycleInput := {
  li_state : AnomalyState; li_signal : DetectorSignal; li_consecutive_anomalous : Z;
  li_consecutive_healthy : Z; li_open_after : Z; li_resolve_after : Z;
  li_insufficient_data : bool; li_suppressed : bool }.

Record LifecycleDecision := LD { ld_state : AnomalyState; ld_reason : string }.

Definition advance_counters (signal : DetectorSignal) (consecutive_anomalous consecutive_healthy : Z) : Z * Z :=
  match signal with
  | DS_ANOMALOUS => (consecutive_anomalous + 1, 0)
  | DS_HEALTHY => (0, consecutive_healthy + 1)
  | DS_UNKNOWN => (consecutive_anomalous, consecutive_healthy)
  end.

Definition on_anomalous (inp : LifecycleInput) (current : AnomalyState) : LifecycleDecision :=
  match current with
  | AS_NORMAL | AS_INSUFFICIENT_DATA | AS_RESOLVED =>
      if li_open_after inp <=? li_consecutive_anomalous inp then
        LD AS_OPEN (pretty (li_consecutive_anomalous inp) +:+ " consecutive abnormal bucket(s)")
      else LD AS_CANDIDATE "first abnormal bucket"
  | AS_CANDIDATE =>
      if li_open_after inp <=? li_consecutive_anomalous inp then
        LD AS_OPEN (pretty (li_consecutive_anomalous inp) +:+ " consecutive abnormal bucket(s) " +:+
                    "reached the confirmation threshold of " +:+ pretty (li_open_after inp))
      else LD current "still confirming"
  | AS_RECOVERING => LD AS_OPEN "relapsed before recovery completed"
  | AS_OPEN | AS_SUPPRESSED => LD current "still abnormal"
  end.

Definition on_healthy (inp : LifecycleInput) (current : AnomalyState) : LifecycleDecision :=
  match current with
  | AS_CANDIDATE => LD AS_NORMAL "returned to normal before opening"
  | AS_OPEN =>
      if li_resolve_after inp <=? 1 then LD AS_RESOLVED "1 normal bucket observed"
      else LD AS_RECOVERING "normal bucket observed"
  | AS_RECOVERING =>
      if li_resolve_after inp <=? li_consecutive_healthy inp then
        LD AS_RESOLVED (pretty (li_consecutive_healthy inp) +:+ " consecutive normal bucket(s) reached the " +:+
                        "recovery threshold of " +:+ pretty (li_resolve_after inp))
      else LD current "still recovering"
  | AS_INSUFFICIENT_DATA => LD AS_NORMAL "baseline became adequate"
  | AS_NORMAL | AS_RESOLVED | AS_SUPPRESSED => LD AS_NORMAL "within expected range"
  end.

Definition next_state (inp : LifecycleInput) : LifecycleDecision :=
  let current := li_state inp in
  if li_suppressed inp then
    if decide (current = AS_SUPPRESSED) then LD current "already suppressed"
    else LD AS_SUPPRESSED "suppressed"
  else if decide (current = AS_SUPPRESSED) then LD AS_NORMAL "suppression lifted"
  else if li_insufficient_data inp then
    if decide (current ∈ [AS_NORMAL; AS_INSUFFICIENT_DATA]) then
      LD AS_INSUFFICIENT_DATA "no verdict possible"
    else LD current "holding state; bucket not judgeable"
  else match li_signal inp with
       | DS_UNKNOWN => LD current "holding state; detector returned unknown"
       | DS_ANOMALOUS => on_anomalous inp current
       | DS_HEALTHY => on_healthy inp current
       end.

(** [ACTIVE_ANOMALY_STATES] of [models/enums.py]: an incident is live. *)
Definition ACTIVE_ANOMALY_STATES : list AnomalyState := [AS_CANDIDATE; AS_OPEN; AS_RECOVERING].

Definition active_state (s : AnomalyState) : bool := bool_decide (s ∈ ACTIVE_ANOMALY_STATES).

(** ** Faults *)

Inductive FaultDecision := RETRY | GIVE_UP.

#[export] Instance FaultDecision_eq_dec : EqDecision FaultDecision.
Proof. solve_decision. Defined.

Definition next_attempt (attempts max_attempts : Z) : result FaultDecision :=
  _ <- raise_if (attempts <? 1) (ValueError "attempts must be at least 1") ;;
  _ <- raise_if (max_attempts <? 1) (ValueError "max_attempts must be at least 1") ;;
  Ok (if max_attempts <=? attempts then GIVE_UP else RETRY).

(** ** Facts *)

(** A live incident ends only on a healthy verdict that is judged. *)
Lemma next_state_leaves_active inp : active_state (li_state inp) = true → li_suppressed inp = false →
  active_state (ld_state (next_state inp)) = false →
  li_signal inp = DS_HEALTHY ∧ li_insufficient_data inp = false.
Proof.
  unfold next_state. intros Ha -> H. destruct (li_state inp); try discriminate Ha; cbn [decide] in H;
    (destruct (li_insufficient_data inp); [discriminate H|]);
    (destruct (li_signal inp); [by split|exfalso; revert H; cbn [on_anomalous]|discriminate H]);
    repeat case_match; discriminate.
Qed.

(** * Anomaly evidence

    [anomaly/evidence.py]: what every detector returns, for the detector types [T] of a
    domain; [extra] is a dict of JSON values. *)

Record Evidence {T : Type} := {
  ev_anomaly_type : T; ev_signal : DetectorSignal; ev_severity : Severity;
  ev_observed_value : option float; ev_expected_value : option float; ev_baseline_low : option float;
  ev_baseline_high : option float; ev_deviation_score : option float; ev_threshold : option float;
  ev_sample_count : Z; ev_interval_start : datetime; ev_interval_end : datetime; ev_confidence : float;
  ev_reason : string; ev_extra : jobj; ev_insufficient_data : bool }.

#[global] Arguments Evidence : clear implicits.

(** The log-source domain. *)
Abbreviation AnomalyEvidence := (Evidence AnomalyType).

Definition is_anomalous {T} (e : Evidence T) : bool := bool_decide (ev_signal e = DS_ANOMALOUS).

Definition json_float (x : option float) : json := match x with Some x => JFloat x | None => JNull end.

(** [to_dict], in field order, for the log-source types. *)
Definition to_dict (e : AnomalyEvidence) : jobj :=
  [("anomaly_type", JStr (AnomalyType_value (ev_anomaly_type e)));
   ("signal", JStr (DetectorSignal_value (ev_signal e)));
   ("severity", JStr (Severity_value (ev_severity e)));
   ("observed_value", json_float (ev_observed_value e)); ("expected_value", json_float (ev_expected_value e));
   ("baseline_low", json_float (ev_baseline_low e)); ("baseline_high", json_float (ev_baseline_high e));
   ("deviation_score", json_float (ev_deviation_score e)); ("threshold", json_float (ev_threshold e));
   ("sample_count", JInt (ev_sample_count e)); ("interval_start", JStr (dt_isoformat (ev_interval_start e)));
   ("interval_end", JStr (dt_isoformat (ev_interval_end e))); ("confidence", JFloat (ev_confidence e));
   ("reason", JStr (ev_reason e)); ("extra", JObj (ev_extra e)); ("insufficient_data", JBool (ev_insufficient_data e))].

(** [healthy(...)]. *)
Definition healthy {T} (at_ : T) (interval_start interval_end : datetime)
    (observed expected : option float) (reason : string) : Evidence T :=
  {| ev_anomaly_type := at_; ev_signal := DS_HEALTHY; ev_severity := SEV_INFO; ev_observed_value := observed;
     ev_expected_value := expected; ev_baseline_low := None; ev_baseline_high := None;
     ev_deviation_score := None; ev_threshold := None; ev_sample_count := 0;
     ev_interval_start := interval_start; ev_interval_end := interval_end; ev_confidence := f1;
     ev_reason := reason; ev_extra := []; ev_insufficient_data := false |}.

(** The default of [reason] in [healthy]. *)
Definition healthy_reason : string := "within expected range".

(** [unknown(...)]. *)
Definition unknown {T} (at_ : T) (interval_start interval_end : datetime) (reason : string) : Evidence T :=
  {| ev_anomaly_type := at_; ev_signal := DS_UNKNOWN; ev_severity := SEV_INFO; ev_observed_value := None;
     ev_expected_value := None; ev_baseline_low := None; ev_baseline_high := None;
     ev_deviation_score := None; ev_threshold := None; ev_sample_count := 0;
     ev_interval_start := interval_start; ev_interval_end := interval_end; ev_confidence := f0;
     ev_reason := reason; ev_extra := []; ev_insufficient_data := false |}.

(** [insufficient(...)]. *)
Definition insufficient {T} (at_ : T) (interval_start interval_end : datetime) (reason : string)
    (sample_count : Z) : Evidence T :=
  let ev := unknown at_ interval_start interval_end reason in
  {| ev_anomaly_type := ev_anomaly_type ev; ev_signal := ev_signal ev; ev_severity := ev_severity ev;
     ev_observed_value := ev_observed_value ev; ev_expected_value := ev_expected_value ev;
     ev_baseline_low := ev_baseline_low ev; ev_baseline_high := ev_baseline_high ev;
     ev_deviation_score := ev_deviation_score ev; ev_threshold := ev_threshold ev;
     ev_sample_count := sample_count; ev_interval_start := ev_interval_start ev;
     ev_interval_end := ev_interval_end ev; ev_confidence := ev_confidence ev; ev_reason := ev_reason ev;
     ev_extra := ev_extra ev; ev_insufficient_data := true |}.
