(* ===== verification/RuleCatalog.v ===== *)
(** * Verdict scope and the custom-rule catalog

    [waf/measurement.py]: which verdicts a count can support, given what it is known to be.
    [custom_rules/catalog.py]: what a custom rule may threshold, and what its reading proves. *)

From S2P Require Import Prelude PyStr Enums.

(** ** Verdict scope *)

Module Measurement.

Inductive WafMeasurementRequirement := EXACT | LOWER_BOUND_PROVES_INCREASE.

#[export] Instance WafMeasurementRequirement_eq_dec : EqDecision WafMeasurementRequirement.
Proof. solve_decision. Defined.

Inductive WafVerdictScope := FULL | INCREASE_ONLY | NONE.

#[export] Instance WafVerdictScope_eq_dec : EqDecision WafVerdictScope.
Proof. solve_decision. Defined.

Record ScopeDecision := { sd_scope : WafVerdictScope; sd_reason : option string }.

Definition verdict_scope (requirement : WafMeasurementRequirement) (measurement : option WafMeasurement)
    : ScopeDecision :=
  match measurement with
  | Some WM_EXACT => {| sd_scope := FULL; sd_reason := None |}
  | None =>
      {| sd_scope := NONE;
         sd_reason := Some "the bucket does not state whether its counts are exact or lower bounds" |}
  | Some WM_LOWER_BOUND =>
      match requirement with
      | LOWER_BOUND_PROVES_INCREASE =>
          {| sd_scope := INCREASE_ONLY;
             sd_reason := Some "the count is a lower bound: an increase can be proven, normal behaviour cannot" |}
      | EXACT =>
          {| sd_scope := NONE;
             sd_reason := Some "the detector needs exact counts and this count is a lower bound" |}
      end
  end.

(** [_NARROWNESS]. *)
Definition NARROWNESS (s : WafVerdictScope) : Z :=
  match s with FULL => 0 | INCREASE_ONLY => 1 | NONE => 2 end.

(** [max(decisions, key=...)]: the first of the narrowest. *)
Definition narrower (best d : ScopeDecision) : ScopeDecision :=
  if NARROWNESS (sd_scope best) <? NARROWNESS (sd_scope d) then d else best.

Definition narrowest (decisions : list ScopeDecision) : ScopeDecision :=
  match decisions with
  | [] => {| sd_scope := FULL; sd_reason := None |}
  | d :: rest => foldl narrower d rest
  end.

(** [completeness == BucketCompleteness.COMPLETE], on the stored text. *)
Definition default_measurement (completeness : string) : option WafMeasurement :=
  if decide (completeness = BucketCompleteness_value BC_COMPLETE) then Some WM_EXACT else None.

End Measurement.

(** ** The catalog *)

Inductive MeasurementRule := MR_EXACT_ONLY | MR_LOWER_BOUND_PROVES_INCREASE.

#[export] Instance MeasurementRule_eq_dec : EqDecision MeasurementRule.
Proof. solve_decision. Defined.

Record MetricCatalogEntry := {
  me_metric : CustomRuleMetric; me_subject_kind : CustomRuleSubjectKind; me_unit : string;
  me_reads : list string; me_measurement : MeasurementRule; me_is_ratio : bool;
  me_bulk_loader : string; me_note : string }.

(** [_CUSTOM_RULE_METRICS], in order. *)
Definition CUSTOM_RULE_METRICS : list MetricCatalogEntry := [
  {| me_metric := M_EVENT_COUNT; me_subject_kind := SK_LOG_SOURCE; me_unit := "events/bucket";
     me_reads := ["log_source_metric.event_count"];
     me_measurement := MR_EXACT_ONLY; me_is_ratio := false; me_bulk_loader := "LOG_SOURCE";
     me_note := "exact only when the bucket row exists and is COMPLETE; a PARTIAL bucket proves nothing either way" |};
  {| me_metric := M_AVERAGE_EPS; me_subject_kind := SK_LOG_SOURCE; me_unit := "events/s";
     me_reads := ["log_source_metric.average_eps"];
     me_measurement := MR_EXACT_ONLY; me_is_ratio := false; me_bulk_loader := "LOG_SOURCE";
     me_note := "exact only when the bucket row exists and is COMPLETE; a PARTIAL bucket proves nothing either way" |};
  {| me_metric := M_EPS; me_subject_kind := SK_FLEET_CLASS; me_unit := "events/s";
     me_reads := ["log_source_metric.event_count"; "log_source_metric.bucket_seconds"];
     me_measurement := MR_LOWER_BOUND_PROVES_INCREASE; me_is_ratio := false; me_bulk_loader := "FLEET_CLASS";
     me_note := "a lower bound unless every enabled, monitored source of the class has a COMPLETE bucket: missing sources can only add events" |};
  {| me_metric := M_REQUEST_COUNT; me_subject_kind := SK_WAF_ENDPOINT; me_unit := "requests/bucket";
     me_reads := ["waf_endpoint_metric.request_count"];
     me_measurement := MR_LOWER_BOUND_PROVES_INCREASE; me_is_ratio := false; me_bulk_loader := "WAF_ENDPOINT";
     me_note := "SUM(eventcount), never COUNT(*); a bucket whose grouping truncated or fell below the coverage floor proves 'above' only" |};
  {| me_metric := M_BLOCK_RATIO; me_subject_kind := SK_WAF_ENDPOINT; me_unit := "share";
     me_reads := ["waf_endpoint_metric.blocked_count"; "waf_endpoint_metric.action_events"; "waf_endpoint_metric.unmapped_action_count"];
     me_measurement := MR_LOWER_BOUND_PROVES_INCREASE; me_is_ratio := true; me_bulk_loader := "WAF_ENDPOINT";
     me_note := "blocked requests over requests carrying an action value; an unmapped action value makes the numerator a lower bound" |};
  {| me_metric := M_SERVER_ERROR_RATIO; me_subject_kind := SK_WAF_ENDPOINT; me_unit := "share";
     me_reads := ["waf_endpoint_metric.server_error_count"; "waf_endpoint_metric.response_code_events"; "waf_endpoint_metric.unclassified_response_count"];
     me_measurement := MR_LOWER_BOUND_PROVES_INCREASE; me_is_ratio := true; me_bulk_loader := "WAF_ENDPOINT";
     me_note := "5xx responses over responses carrying a response code; an unclassified response code makes the numerator a lower bound" |};
  {| me_metric := M_CLIENT_ERROR_RATIO; me_subject_kind := SK_WAF_ENDPOINT; me_unit := "share";
     me_reads := ["waf_endpoint_metric.client_error_count"; "waf_endpoint_metric.response_code_events"; "waf_endpoint_metric.unclassified_response_count"];
     me_measurement := MR_LOWER_BOUND_PROVES_INCREASE; me_is_ratio := true; me_bulk_loader := "WAF_ENDPOINT";
     me_note := "4xx responses over responses carrying a response code; an unclassified response code makes the numerator a lower bound" |};
  {| me_metric := M_EVENTS; me_subject_kind := SK_IPS_ENTITY; me_unit := "events/bucket";
     me_reads := ["ips_entity_metric.events"];
     me_measurement := MR_LOWER_BOUND_PROVES_INCREASE; me_is_ratio := false; me_bulk_loader := "IPS_ENTITY";
     me_note := "sparse per admitted entity: no row means not measured; a bucket whose dimension search truncated proves 'above' only" |};
  {| me_metric := M_TOTAL_EVENTS; me_subject_kind := SK_IPS_SOURCE; me_unit := "events/bucket";
     me_reads := ["ips_source_bucket.total_events"];
     me_measurement := MR_EXACT_ONLY; me_is_ratio := false; me_bulk_loader := "IPS_SOURCE";
     me_note := "exact whenever the bucket row exists: totals are complete or the row is absent" |};
  {| me_metric := M_BLOCKED_SHARE; me_subject_kind := SK_IPS_SOURCE; me_unit := "share";
     me_reads := ["ips_source_bucket.blocked_events"; "ips_source_bucket.allowed_events"; "ips_source_bucket.unmapped_events"];
     me_measurement := MR_LOWER_BOUND_PROVES_INCREASE; me_is_ratio := true; me_bulk_loader := "IPS_SOURCE";
     me_note := "blocked events over action events; an unmapped action value makes the numerator a lower bound" |};
  {| me_metric := M_PW_VALUE_EVENTS; me_subject_kind := SK_PW_VALUE; me_unit := "events/bucket";
     me_reads := ["pw_value_metric.events"];
     me_measurement := MR_LOWER_BOUND_PROVES_INCREASE; me_is_ratio := false; me_bulk_loader := "PW_VALUE";
     me_note := "exact for a pinned value when its search was whole; a lower-bound bucket proves 'above' only" |}].

(** [CUSTOM_RULE_METRICS[metric]]: a dict comprehension keeps the last entry of a key. *)
Definition catalog_entry (metric : CustomRuleMetric) : result MetricCatalogEntry :=
  match last (filter (λ e, me_metric e = metric) CUSTOM_RULE_METRICS) with
  | Some e => Ok e
  | None => Err (KeyError (CustomRuleMetric_value metric +:+ " is not a custom-rule metric"))
  end.

Definition metrics_for_kind (kind : CustomRuleSubjectKind) : list CustomRuleMetric :=
  me_metric <$> filter (λ e, me_subject_kind e = kind) CUSTOM_RULE_METRICS.

(** The catalog is total: no metric is unknown. *)
Lemma catalog_entry_total metric : ∃ e, catalog_entry metric = Ok e ∧ me_metric e = metric.
Proof. destruct metric; eexists; (split; [vm_compute; reflexivity|reflexivity]). Qed.
