(* ===== verification/CustomRules.v ===== *)
(** * Custom-rule evaluation

    [custom_rules/evaluate.py]: which buckets to judge, what one bucket proves for a metric,
    and the fold that decides sustain, recovery and honesty. The UUIDs [uuid4] draws are a
    parameter of the fold. *)

From S2P Require Import Prelude PyStr PyFloat PyTime Enums RuleCatalog.

Inductive RuleStatus :=
| RST_NOT_ENABLED | RST_SUBJECT_RETIRED | RST_DISABLED | RST_NOT_COLLECTED | RST_OPEN
| RST_RECOVERING | RST_OK | RST_NO_VERDICT | RST_STALE.

Definition RuleStatus_value (x : RuleStatus) : string :=
  match x with
  | RST_NOT_ENABLED => "NOT_ENABLED" | RST_SUBJECT_RETIRED => "SUBJECT_RETIRED"
  | RST_DISABLED => "DISABLED" | RST_NOT_COLLECTED => "NOT_COLLECTED" | RST_OPEN => "OPEN"
  | RST_RECOVERING => "RECOVERING" | RST_OK => "OK" | RST_NO_VERDICT => "NO_VERDICT"
  | RST_STALE => "STALE"
  end.

Definition COLLECTION_LATE_TOLERANCE_SECONDS : Z := 60.

(** [_REQUIREMENT]. *)
Definition requirement_of (m : MeasurementRule) : Measurement.WafMeasurementRequirement :=
  match m with
  | MR_EXACT_ONLY => Measurement.EXACT
  | MR_LOWER_BOUND_PROVES_INCREASE => Measurement.LOWER_BOUND_PROVES_INCREASE
  end.

(** [operator in _INCREASE_OPERATORS]. *)
Definition increase_operator (op : string) : bool := bool_decide (op ∈ ["GT"; "GE"]).

(** ** Which buckets *)

Definition latest_closed_bucket (now : datetime) (interval_seconds : Z) : result datetime :=
  _ <- raise_if (negb (dt_aware now)) (ValueError "now must be timezone-aware") ;;
  _ <- raise_if (interval_seconds <=? 0) (ValueError "interval_seconds must be positive") ;;
  let epoch := Z.quot (dt_us now) us_per_second in
  Ok (from_timestamp (epoch / interval_seconds * interval_seconds - interval_seconds)).

Definition stale_bound_seconds (cadence_seconds settle_seconds bucket_seconds : Z) : result Z :=
  _ <- raise_if ((cadence_seconds <=? 0) || (bucket_seconds <=? 0) || (settle_seconds <? 0))
         (ValueError "cadence and bucket must be positive and settle must be >= 0") ;;
  Ok (cadence_seconds + bucket_seconds + settle_seconds + COLLECTION_LATE_TOLERANCE_SECONDS).

(** [_bucket_stamp]: seconds only when they are not zero. *)
Definition bucket_stamp (moment : datetime) : string :=
  dt_date_text moment +:+ " " +:+ dt_hm_text moment +:+
  (if (dt_second moment =? 0) && (dt_microsecond moment =? 0) then " UTC"
   else ":" +:+ digits_pad 2 (dt_second moment) +:+ " UTC").

Definition format_age (seconds : Z) : string :=
  let total := Z.max 0 seconds in
  let hours := total / 3600 in
  let minutes := total mod 3600 / 60 in
  let secs := total mod 3600 mod 60 in
  let parts := (if hours =? 0 then [] else [pretty hours +:+ " h"]) ++
               (if minutes =? 0 then [] else [pretty minutes +:+ " min"]) in
  py_join " " (parts ++ (if (secs =? 0) && negb (bool_decide (parts = [])) then []
                         else [pretty secs +:+ " s"])).

Definition stale_reason (last_bucket now : datetime) : result string :=
  age <- dt_sub now last_bucket ;;
  Ok ("no bucket collected for this kind since " +:+ bucket_stamp last_bucket +:+
      " (" +:+ format_age (td_total_seconds age) +:+ ")").

Definition collection_silence (watermark closed now : datetime) (bound_seconds : Z)
    : result (option string) :=
  _ <- raise_if (negb (dt_aware watermark && dt_aware closed && dt_aware now))
         (ValueError "timestamps must be timezone-aware") ;;
  lag <- dt_sub closed watermark ;;
  if td_total_seconds lag <=? bound_seconds then Ok None
  else r <- stale_reason watermark now ;; Ok (Some r).

(** [round(t.total_seconds())] of whole microseconds: half to even. The float in between is
    exact up to [2^53] microseconds. *)
Definition round_seconds (t : timedelta) : Z := div_half_even t us_per_second.

(** The aligned holes before [point]: [cursor + step * interval] for [step] in
    [first .. first + n - 1]. *)
Definition hole_starts (cursor : datetime) (interval_seconds first : Z) (n : nat) : list datetime :=
  (λ k, dt_add cursor (td_seconds ((first + Z.of_nat k) * interval_seconds))) <$> seq 0 n.

(** The holes between [cursor] and [point], when the distance is a whole number of
    intervals. *)
Definition holes (cursor point : datetime) (interval_seconds : Z) : result (list datetime) :=
  gap <- dt_sub point cursor ;;
  let delta := round_seconds gap in
  if (interval_seconds <? delta) && (delta mod interval_seconds =? 0) then
    Ok (hole_starts cursor interval_seconds 1 (Z.to_nat (delta / interval_seconds - 1)))
  else Ok [].

(** The loop over the points; appending stops, and the walk returns, at [limit] entries. *)
Fixpoint walk_loop (grid : list datetime) (cursor : datetime) (points : list datetime)
    (interval_seconds limit : Z) : result (list datetime) :=
  match points with
  | [] => Ok grid
  | point :: points =>
      hs <- holes cursor point interval_seconds ;;
      let grid := grid ++ hs ++ [point] in
      if limit <=? Z.of_nat (length grid) then Ok (take (Z.to_nat limit) grid)
      else walk_loop grid point points interval_seconds limit
  end.

(** [{point for point in observed if watermark < point <= closed}]. *)
Definition points_in (observed : list datetime) (watermark closed : datetime) : result (list datetime) :=
  foldM (λ acc point,
    after <- dt_lt watermark point ;;
    inside <- (if after : bool then dt_le point closed else Ok false) ;;
    Ok (if inside : bool then acc ++ [point] else acc)) [] observed.

Definition walk_buckets (observed : list datetime) (watermark : datetime) (interval_seconds limit : Z)
    (closed : datetime) : result (list datetime) :=
  _ <- raise_if (interval_seconds <=? 0) (ValueError "interval_seconds must be positive") ;;
  if limit <=? 0 then Ok []
  else
    points <- points_in observed watermark closed ;;
    walk_loop [] watermark (dt_sorted (remove_dups points)) interval_seconds limit.

(** ** What one bucket proves *)

Record BucketFacts := {
  bf_bucket_start : datetime; bf_present : bool; bf_in_maintenance : bool;
  bf_event_count : option Z; bf_average_eps : option float; bf_completeness : option string;
  bf_class_events : option Z; bf_class_seconds : option Z; bf_complete_sources : option Z;
  bf_expected_sources : option Z; bf_request_count : option Z;
  bf_request_count_measurement : option string; bf_blocked_count : option Z;
  bf_action_events : option Z; bf_unmapped_action_count : option Z;
  bf_action_measurement : option string; bf_server_error_count : option Z;
  bf_client_error_count : option Z; bf_response_code_events : option Z;
  bf_unclassified_response_count : option Z; bf_response_code_measurement : option string;
  bf_events : option Z; bf_dimension_measurement : option string; bf_total_events : option Z;
  bf_blocked_events : option Z; bf_allowed_events : option Z; bf_unmapped_events : option Z }.

Record InterpretedReading := {
  ir_bucket_start : datetime; ir_value : option float; ir_measurement : option string;
  ir_in_maintenance : bool; ir_reason : option string }.

Definition no_reading (f : BucketFacts) (reason : string) : InterpretedReading :=
  {| ir_bucket_start := bf_bucket_start f; ir_value := None; ir_measurement := None;
     ir_in_maintenance := false; ir_reason := Some reason |}.

Definition absent (f : BucketFacts) : InterpretedReading :=
  no_reading f "no row for this subject in the bucket".

Definition measured (f : BucketFacts) (value : float) (lower : bool) : InterpretedReading :=
  if isfinite value then
    {| ir_bucket_start := bf_bucket_start f; ir_value := Some value;
       ir_measurement := Some (WafMeasurement_value (if lower then WM_LOWER_BOUND else WM_EXACT));
       ir_in_maintenance := false; ir_reason := None |}
  else no_reading f "the reading is not finite".

Definition phase_a (f : BucketFacts) (value : option float) : InterpretedReading :=
  if negb (bf_present f) then absent f
  else if bool_decide (bf_completeness f = Some (BucketCompleteness_value BC_PARTIAL)) then
    no_reading f "the bucket is PARTIAL"
  else if negb (bool_decide (bf_completeness f = Some (BucketCompleteness_value BC_COMPLETE))) then
    no_reading f "the bucket is not COMPLETE"
  else match value with
       | None => no_reading f "the bucket is not COMPLETE"
       | Some v => measured f v false
       end.

(** [float(n)] of an optional count. *)
Definition float_opt (n : option Z) : result (option float) :=
  match n with None => Ok None | Some n => x <- float_of_int n ;; Ok (Some x) end.

Definition event_count (f : BucketFacts) : result InterpretedReading :=
  v <- float_opt (bf_event_count f) ;; Ok (phase_a f v).

Definition average_eps (f : BucketFacts) : result InterpretedReading := Ok (phase_a f (bf_average_eps f)).

Definition fleet (f : BucketFacts) : result InterpretedReading :=
  if negb (bf_present f) then Ok (absent f)
  else
    let expected := or_int (bf_expected_sources f) 0 in
    let complete := or_int (bf_complete_sources f) 0 in
    let seconds := or_int (bf_class_seconds f) 0 in
    let events := or_int (bf_class_events f) 0 in
    if expected <=? 0 then Ok (no_reading f "the class has no enabled, monitored source")
    else if (complete <=? 0) || (seconds <=? 0) then
      Ok (no_reading f "the class has no COMPLETE source bucket")
    else v <- truediv events seconds ;; Ok (measured f v (negb (complete =? expected))).

(** A count that carries its own measurement label. *)
Definition labelled_count (f : BucketFacts) (count : option Z) (label : option string) (missing : string)
    : result InterpretedReading :=
  if negb (bf_present f) then Ok (absent f)
  else match label, count with
       | None, _ | _, None => Ok (no_reading f missing)
       | Some label, Some n =>
           if decide (label = WafMeasurement_value WM_EXACT) then
             x <- float_of_int n ;; Ok (measured f x false)
           else if decide (label = WafMeasurement_value WM_LOWER_BOUND) then
             x <- float_of_int n ;; Ok (measured f x true)
           else Ok (no_reading f missing)
       end.

Definition request_count (f : BucketFacts) : result InterpretedReading :=
  labelled_count f (bf_request_count f) (bf_request_count_measurement f)
    "the bucket does not state whether the request count is exact".

Definition entity_events (f : BucketFacts) : result InterpretedReading :=
  labelled_count f (bf_events f) (bf_dimension_measurement f) "the dimension was not collected".

(** [measurement in (None, "NOT_COLLECTED", "FAILED", "REJECTED")]. *)
Definition not_collected (m : option string) : bool :=
  bool_decide (m ∈ [None; Some "NOT_COLLECTED"; Some "FAILED"; Some "REJECTED"]).

(** A share. The denominator must be exact and positive; a remainder lowers the numerator. *)
Definition ratio (f : BucketFacts) (numerator denominator : option Z) (measurement : option string)
    (remainder : option Z) (collected_reason lower_reason zero_reason : string)
    : result InterpretedReading :=
  if negb (bf_present f) then Ok (absent f)
  else if not_collected measurement then Ok (no_reading f collected_reason)
  else if bool_decide (measurement = Some (WafMeasurement_value WM_LOWER_BOUND)) then
    Ok (no_reading f lower_reason)
  else if negb (bool_decide (measurement = Some (WafMeasurement_value WM_EXACT))) then
    Ok (no_reading f collected_reason)
  else
    match numerator with
    | None => Ok (no_reading f "the numerator was not collected")
    | Some n =>
        match denominator with
        | None => Ok (no_reading f zero_reason)
        | Some d =>
            if d <=? 0 then Ok (no_reading f zero_reason)
            else match remainder with
                 | None => Ok (no_reading f "the unmapped remainder was not collected")
                 | Some r => v <- truediv n d ;; Ok (measured f v (0 <? r))
                 end
        end
    end.

Definition block_ratio (f : BucketFacts) : result InterpretedReading :=
  ratio f (bf_blocked_count f) (bf_action_events f) (bf_action_measurement f) (bf_unmapped_action_count f)
    "the action breakdown was not collected" "the action denominator is a lower bound"
    "the action denominator is zero".

Definition server_error_ratio (f : BucketFacts) : result InterpretedReading :=
  ratio f (bf_server_error_count f) (bf_response_code_events f) (bf_response_code_measurement f)
    (bf_unclassified_response_count f) "the response-code breakdown was not collected"
    "the response-code denominator is a lower bound" "the response-code denominator is zero".

Definition client_error_ratio (f : BucketFacts) : result InterpretedReading :=
  ratio f (bf_client_error_count f) (bf_response_code_events f) (bf_response_code_measurement f)
    (bf_unclassified_response_count f) "the response-code breakdown was not collected"
    "the response-code denominator is a lower bound" "the response-code denominator is zero".

Definition total_events (f : BucketFacts) : result InterpretedReading :=
  if negb (bf_present f) then Ok (absent f)
  else match bf_total_events f with
       | None => Ok (absent f)
       | Some n => x <- float_of_int n ;; Ok (measured f x false)
       end.

Definition blocked_share (f : BucketFacts) : result InterpretedReading :=
  if negb (bf_present f) then Ok (absent f)
  else if not_collected (bf_action_measurement f) then
    Ok (no_reading f "the action breakdown was not collected")
  else if bool_decide (bf_action_measurement f = Some (WafMeasurement_value WM_LOWER_BOUND)) then
    Ok (no_reading f "the action denominator is a lower bound")
  else if negb (bool_decide (bf_action_measurement f = Some (WafMeasurement_value WM_EXACT))) then
    Ok (no_reading f "the action breakdown was not collected")
  else
    match bf_blocked_events f, bf_allowed_events f, bf_unmapped_events f with
    | Some blocked, Some allowed, Some unmapped =>
        let denominator := blocked + allowed + unmapped in
        if denominator <=? 0 then Ok (no_reading f "the action denominator is zero")
        else v <- truediv blocked denominator ;; Ok (measured f v (0 <? unmapped))
    | _, _, _ => Ok (no_reading f "the numerator was not collected")
    end.

(** [_INTERPRETERS]: an entity's reading also serves a pinned property-watch value. *)
Definition interpreter (metric : CustomRuleMetric) : BucketFacts → result InterpretedReading :=
  match metric with
  | M_EVENT_COUNT => event_count
  | M_AVERAGE_EPS => average_eps
  | M_EPS => fleet
  | M_REQUEST_COUNT => request_count
  | M_BLOCK_RATIO => block_ratio
  | M_SERVER_ERROR_RATIO => server_error_ratio
  | M_CLIENT_ERROR_RATIO => client_error_ratio
  | M_EVENTS => entity_events
  | M_TOTAL_EVENTS => total_events
  | M_BLOCKED_SHARE => blocked_share
  | M_PW_VALUE_EVENTS => entity_events
  end.

Definition interpret (metric : CustomRuleMetric) (f : BucketFacts) : result InterpretedReading :=
  reading <- interpreter metric f ;;
  if bf_in_maintenance f then
    Ok {| ir_bucket_start := ir_bucket_start reading; ir_value := ir_value reading;
          ir_measurement := ir_measurement reading; ir_in_maintenance := true;
          ir_reason := Some "the source is in maintenance" |}
  else Ok reading.

(** ** The fold *)

(** A value of a breach's details. *)
Inductive detail := DText (s : string) | DFloat (x : float).

Record BreachState := {
  br_id : N; br_state : string; br_first_bucket_start : datetime; br_last_bucket_start : datetime;
  br_opened_at : datetime; br_recovering_at : option datetime; br_resolved_at : option datetime;
  br_worst_value : option float; br_worst_measurement : option string; br_last_value : option float;
  br_last_measurement : option string; br_unmeasured_buckets : Z; br_subject_label : string;
  br_details : list (string * detail); br_is_new : bool }.

(** [CustomRuleAlertEvent] of [custom_rules/alerts.py]. *)
Record AlertEvent := {
  ae_action : string; ae_rule_id : N; ae_breach_id : N; ae_rule_name : string; ae_severity : string;
  ae_subject_kind : string; ae_subject_label : string; ae_metric : string; ae_unit : string;
  ae_operator : string; ae_threshold_value : float; ae_observed_value : option float;
  ae_measurement : option string; ae_first_bucket_start : datetime; ae_last_bucket_start : datetime;
  ae_unmeasured_buckets : Z; ae_reason : option string }.

Record FoldInput := {
  fi_rule_id : N; fi_rule_name : string; fi_severity : string; fi_metric : CustomRuleMetric;
  fi_operator : string; fi_threshold_value : float; fi_sustain_buckets : Z; fi_recovery_buckets : Z;
  fi_consecutive_breaching : Z; fi_consecutive_under : Z; fi_last_evaluated : option datetime;
  fi_previous_status : option string; fi_previous_reason : option string; fi_subject_kind : string;
  fi_subject_label : string; fi_platform_enabled : bool; fi_enabled : bool; fi_retired : bool;
  fi_retired_reason : option string; fi_family_collected : bool; fi_family_reason : option string;
  fi_breach : option BreachState; fi_readings : list InterpretedReading; fi_now : datetime;
  fi_collection_stale_reason : option string }.

Record FoldOutput := {
  fo_status : option string; fo_status_reason : option string; fo_consecutive_breaching : Z;
  fo_consecutive_under : Z; fo_last_evaluated : option datetime; fo_breach : option BreachState;
  fo_resolved : option BreachState; fo_events : list AlertEvent; fo_judged : Z;
  fo_preserve_status : bool }.

(** The attributes of [_Fold]; [fs_drawn] counts the identifiers drawn. *)
Record FoldState := {
  fs_breach : option BreachState; fs_resolved : option BreachState; fs_events : list AlertEvent;
  fs_breaching : Z; fs_under : Z; fs_last_evaluated : option datetime; fs_judged : Z;
  fs_last_kind : option string; fs_last_reason : option string; fs_drawn : nat }.

(** [_waf_measurement]. *)
Definition waf_measurement (value : string) : option WafMeasurement :=
  if decide (value ∈ [WafMeasurement_value WM_EXACT; BucketCompleteness_value BC_COMPLETE]) then Some WM_EXACT
  else if decide (value = WafMeasurement_value WM_LOWER_BOUND) then Some WM_LOWER_BOUND
  else None.

(** [_breaches]: whether [value] crosses [threshold]; [None] for an unknown operator. *)
Definition breaches (operator : string) (value threshold : float) : option bool :=
  if decide (operator = "GT") then Some (flt threshold value)
  else if decide (operator = "GE") then Some (fle threshold value)
  else if decide (operator = "LT") then Some (flt value threshold)
  else if decide (operator = "LE") then Some (fle value threshold)
  else if decide (operator = "EQ") then Some (feq value threshold)
  else None.

(** What a reading is to the fold. *)
Inductive Judgement :=
| JMaintenance (reason : string)
| JUnmeasured (reason : string)
| JBreach
| JUnder.

#[export] Instance Judgement_eq_dec : EqDecision Judgement.
Proof. solve_decision. Defined.

(** The part of [_consume] that judges a reading. [reason or d] takes [d] for an empty text. *)
Definition or_text (x : option string) (d : string) : string :=
  match x with Some s => if decide (s = "") then d else s | None => d end.

Definition judge (requirement : Measurement.WafMeasurementRequirement) (operator : string)
    (threshold : float) (r : InterpretedReading) : Judgement :=
  if ir_in_maintenance r then JMaintenance (or_text (ir_reason r) "the source is in maintenance")
  else
    let unmeasured := JUnmeasured (or_text (ir_reason r) "the bucket was not measured") in
    match ir_value r, ir_measurement r with
    | None, _ | _, None => unmeasured
    | Some value, Some label =>
        if negb (isfinite value) then unmeasured
        else if negb (isfinite threshold) then JUnmeasured "threshold_value is not finite"
        else
          let decision := Measurement.verdict_scope requirement (waf_measurement label) in
          match breaches operator value threshold with
          | None => JUnmeasured ("operator " +:+ py_repr operator +:+ " is not known")
          | Some direction =>
              match Measurement.sd_scope decision with
              | Measurement.NONE =>
                  JUnmeasured (or_text (Measurement.sd_reason decision) "the bucket supports no verdict")
              | Measurement.INCREASE_ONLY =>
                  if negb (increase_operator operator) || negb direction then
                    JUnmeasured (if increase_operator operator
                                 then "a lower bound below the threshold proves nothing"
                                 else "a lower bound cannot prove the reading is under the threshold")
                  else JBreach
              | Measurement.FULL => if direction then JBreach else JUnder
              end
          end
    end.

(** [_note_last] and [_note_worst]. *)
Definition note_last (b : BreachState) (r : InterpretedReading) : BreachState :=
  {| br_id := br_id b; br_state := br_state b; br_first_bucket_start := br_first_bucket_start b;
     br_last_bucket_start := ir_bucket_start r; br_opened_at := br_opened_at b;
     br_recovering_at := br_recovering_at b; br_resolved_at := br_resolved_at b;
     br_worst_value := br_worst_value b; br_worst_measurement := br_worst_measurement b;
     br_last_value := ir_value r; br_last_measurement := ir_measurement r;
     br_unmeasured_buckets := br_unmeasured_buckets b; br_subject_label := br_subject_label b;
     br_details := br_details b; br_is_new := br_is_new b |}.

Definition with_worst (value : option float) (label : option string) (b : BreachState) : BreachState :=
  {| br_id := br_id b; br_state := br_state b; br_first_bucket_start := br_first_bucket_start b;
     br_last_bucket_start := br_last_bucket_start b; br_opened_at := br_opened_at b;
     br_recovering_at := br_recovering_at b; br_resolved_at := br_resolved_at b;
     br_worst_value := value; br_worst_measurement := label;
     br_last_value := br_last_value b; br_last_measurement := br_last_measurement b;
     br_unmeasured_buckets := br_unmeasured_buckets b; br_subject_label := br_subject_label b;
     br_details := br_details b; br_is_new := br_is_new b |}.

Definition with_state (state : string) (recovering resolved : option datetime) (b : BreachState) : BreachState :=
  {| br_id := br_id b; br_state := state; br_first_bucket_start := br_first_bucket_start b;
     br_last_bucket_start := br_last_bucket_start b; br_opened_at := br_opened_at b;
     br_recovering_at := recovering; br_resolved_at := resolved;
     br_worst_value := br_worst_value b; br_worst_measurement := br_worst_measurement b;
     br_last_value := br_last_value b; br_last_measurement := br_last_measurement b;
     br_unmeasured_buckets := br_unmeasured_buckets b; br_subject_label := br_subject_label b;
     br_details := br_details b; br_is_new := br_is_new b |}.

Definition with_unmeasured (n : Z) (b : BreachState) : BreachState :=
  {| br_id := br_id b; br_state := br_state b; br_first_bucket_start := br_first_bucket_start b;
     br_last_bucket_start := br_last_bucket_start b; br_opened_at := br_opened_at b;
     br_recovering_at := br_recovering_at b; br_resolved_at := br_resolved_at b;
     br_worst_value := br_worst_value b; br_worst_measurement := br_worst_measurement b;
     br_last_value := br_last_value b; br_last_measurement := br_last_measurement b;
     br_unmeasured_buckets := n; br_subject_label := br_subject_label b;
     br_details := br_details b; br_is_new := br_is_new b |}.

Definition note_worst (operator : string) (b : BreachState) (r : InterpretedReading) : BreachState :=
  let b := note_last b r in
  match ir_value r, br_worst_value b with
  | None, _ => b
  | Some c, None => with_worst (Some c) (ir_measurement r) b
  | Some c, Some w =>
      if (increase_operator operator && flt w c) || (bool_decide (operator ∈ ["LT"; "LE"]) && flt c w)
      then with_worst (Some c) (ir_measurement r) b else b
  end.

Section Fold.
Context (uuid4 : nat → N).

(** [_event]. *)
Definition fold_event (spec : FoldInput) (unit_text action : string) (b : BreachState)
    (r : InterpretedReading) (reason : option string) : AlertEvent :=
  {| ae_action := action; ae_rule_id := fi_rule_id spec; ae_breach_id := br_id b;
     ae_rule_name := fi_rule_name spec; ae_severity := fi_severity spec;
     ae_subject_kind := fi_subject_kind spec; ae_subject_label := br_subject_label b;
     ae_metric := CustomRuleMetric_value (fi_metric spec); ae_unit := unit_text;
     ae_operator := fi_operator spec; ae_threshold_value := fi_threshold_value spec;
     ae_observed_value := ir_value r; ae_measurement := ir_measurement r;
     ae_first_bucket_start := br_first_bucket_start b; ae_last_bucket_start := br_last_bucket_start b;
     ae_unmeasured_buckets := br_unmeasured_buckets b; ae_reason := reason |}.

(** [_open]: the opening bucket is the one on which sustain was met. *)
Definition fold_open (spec : FoldInput) (unit_text : string) (id : N) (r : InterpretedReading) : BreachState :=
  let label := py_take 255 (fi_subject_label spec) in
  {| br_id := id; br_state := AnomalyState_value AS_OPEN;
     br_first_bucket_start := ir_bucket_start r; br_last_bucket_start := ir_bucket_start r;
     br_opened_at := fi_now spec; br_recovering_at := None; br_resolved_at := None;
     br_worst_value := ir_value r; br_worst_measurement := ir_measurement r;
     br_last_value := ir_value r; br_last_measurement := ir_measurement r;
     br_unmeasured_buckets := 0; br_subject_label := label;
     br_details := [("metric", DText (CustomRuleMetric_value (fi_metric spec)));
                    ("unit", DText unit_text); ("operator", DText (fi_operator spec));
                    ("threshold", DFloat (fi_threshold_value spec));
                    ("subject_kind", DText (fi_subject_kind spec)); ("subject_label", DText label)];
     br_is_new := true |}.

(** [_unmeasured]. *)
Definition fold_unmeasured (st : FoldState) (reason : string) : FoldState :=
  {| fs_breach := (λ b, with_unmeasured (br_unmeasured_buckets b + 1) b) <$> fs_breach st;
     fs_resolved := fs_resolved st; fs_events := fs_events st; fs_breaching := fs_breaching st;
     fs_under := fs_under st; fs_last_evaluated := fs_last_evaluated st; fs_judged := fs_judged st;
     fs_last_kind := Some "insufficient"; fs_last_reason := Some reason; fs_drawn := fs_drawn st |}.

(** [_on_breach]. *)
Definition on_breach (spec : FoldInput) (unit_text : string) (st : FoldState) (r : InterpretedReading) : FoldState :=
  let breaching := fs_breaching st + 1 in
  match fs_breach st with
  | None =>
      let opens := fi_sustain_buckets spec <=? breaching in
      let opened := fold_open spec unit_text (uuid4 (fs_drawn st)) r in
      {| fs_breach := if opens then Some opened else None;
         fs_resolved := fs_resolved st;
         fs_events := fs_events st ++
           (if opens then [fold_event spec unit_text "open" opened r None] else []);
         fs_breaching := breaching; fs_under := 0; fs_last_evaluated := fs_last_evaluated st;
         fs_judged := fs_judged st; fs_last_kind := Some "breach"; fs_last_reason := None;
         fs_drawn := if opens then S (fs_drawn st) else fs_drawn st |}
  | Some b =>
      let b := note_worst (fi_operator spec)
                 (with_state (AnomalyState_value AS_OPEN) None (br_resolved_at b) b) r in
      {| fs_breach := Some b; fs_resolved := fs_resolved st;
         fs_events := fs_events st ++ [fold_event spec unit_text "refresh" b r None];
         fs_breaching := breaching; fs_under := 0; fs_last_evaluated := fs_last_evaluated st;
         fs_judged := fs_judged st; fs_last_kind := Some "breach"; fs_last_reason := None;
         fs_drawn := fs_drawn st |}
  end.

(** [_on_under]. *)
Definition on_under (spec : FoldInput) (unit_text : string) (st : FoldState) (r : InterpretedReading) : FoldState :=
  let under := fs_under st + 1 in
  match fs_breach st with
  | None =>
      {| fs_breach := None; fs_resolved := fs_resolved st; fs_events := fs_events st;
         fs_breaching := 0; fs_under := under; fs_last_evaluated := fs_last_evaluated st;
         fs_judged := fs_judged st; fs_last_kind := Some "under"; fs_last_reason := None;
         fs_drawn := fs_drawn st |}
  | Some b =>
      let b := note_last b r in
      if fi_recovery_buckets spec <=? under then
        let b := with_state (AnomalyState_value AS_RESOLVED) (br_recovering_at b) (Some (fi_now spec)) b in
        {| fs_breach := None; fs_resolved := Some b;
           fs_events := fs_events st ++
             [fold_event spec unit_text "resolve" b r (Some "condition recovered")];
           fs_breaching := 0; fs_under := 0; fs_last_evaluated := fs_last_evaluated st;
           fs_judged := fs_judged st; fs_last_kind := Some "under"; fs_last_reason := None;
           fs_drawn := fs_drawn st |}
      else
        let b := with_state (AnomalyState_value AS_RECOVERING)
                   (match br_recovering_at b with None => Some (fi_now spec) | t => t end)
                   (br_resolved_at b) b in
        {| fs_breach := Some b; fs_resolved := fs_resolved st; fs_events := fs_events st;
           fs_breaching := 0; fs_under := under; fs_last_evaluated := fs_last_evaluated st;
           fs_judged := fs_judged st; fs_last_kind := Some "under"; fs_last_reason := None;
           fs_drawn := fs_drawn st |}
  end.

(** The bucket is evaluated now. *)
Definition note_judged (st : FoldState) (start : datetime) : FoldState :=
  {| fs_breach := fs_breach st; fs_resolved := fs_resolved st; fs_events := fs_events st;
     fs_breaching := fs_breaching st; fs_under := fs_under st; fs_last_evaluated := Some start;
     fs_judged := fs_judged st + 1; fs_last_kind := fs_last_kind st;
     fs_last_reason := fs_last_reason st; fs_drawn := fs_drawn st |}.

(** A bucket in maintenance pauses both counters. *)
Definition fold_maintenance (st : FoldState) (reason : string) : FoldState :=
  {| fs_breach := fs_breach st; fs_resolved := fs_resolved st; fs_events := fs_events st;
     fs_breaching := fs_breaching st; fs_under := fs_under st;
     fs_last_evaluated := fs_last_evaluated st; fs_judged := fs_judged st;
     fs_last_kind := Some "maintenance"; fs_last_reason := Some reason; fs_drawn := fs_drawn st |}.

(** [_consume]. *)
Definition consume (spec : FoldInput) (entry : MetricCatalogEntry) (st : FoldState)
    (r : InterpretedReading) : result FoldState :=
  seen <- (match fs_last_evaluated st with
           | Some last => dt_le (ir_bucket_start r) last
           | None => Ok false
           end) ;;
  if seen : bool then Ok st
  else
    let st := note_judged st (ir_bucket_start r) in
    Ok (match judge (requirement_of (me_measurement entry)) (fi_operator spec) (fi_threshold_value spec) r with
        | JMaintenance reason => fold_maintenance st reason
        | JUnmeasured reason => fold_unmeasured st reason
        | JBreach => on_breach spec (me_unit entry) st r
        | JUnder => on_under spec (me_unit entry) st r
        end).

Definition fold_init (spec : FoldInput) : FoldState :=
  {| fs_breach := fi_breach spec; fs_resolved := None; fs_events := [];
     fs_breaching := fi_consecutive_breaching spec; fs_under := fi_consecutive_under spec;
     fs_last_evaluated := fi_last_evaluated spec; fs_judged := 0; fs_last_kind := None;
     fs_last_reason := None; fs_drawn := 0 |}.

(** [_output]. *)
Definition fold_output (st : FoldState) (status reason : option string) (preserve : bool) : FoldOutput :=
  {| fo_status := status; fo_status_reason := reason; fo_consecutive_breaching := fs_breaching st;
     fo_consecutive_under := fs_under st; fo_last_evaluated := fs_last_evaluated st;
     fo_breach := fs_breach st; fo_resolved := fs_resolved st; fo_events := fs_events st;
     fo_judged := fs_judged st; fo_preserve_status := preserve |}.

(** [_halt]: why the rule may not judge. *)
Definition halt (spec : FoldInput) : option (RuleStatus * string) :=
  if negb (fi_platform_enabled spec) then Some (RST_NOT_ENABLED, "CUSTOM_RULES_ENABLED is off")
  else if negb (fi_enabled spec) then Some (RST_DISABLED, "the rule is disabled")
  else if fi_retired spec then
    Some (RST_SUBJECT_RETIRED, or_text (fi_retired_reason spec) "the subject is retired")
  else if negb (fi_family_collected spec) then
    Some (RST_NOT_COLLECTED, or_text (fi_family_reason spec) "the subject's family is not collected")
  else match fi_collection_stale_reason spec with
       | Some reason => Some (RST_STALE, reason)
       | None => None
       end.

(** [_finish]. *)
Definition finish (spec : FoldInput) (st : FoldState) : FoldOutput :=
  let paused := bool_decide (fs_last_kind st ∈ [Some "insufficient"; Some "maintenance"]) in
  if fs_judged st =? 0 then fold_output st (fi_previous_status spec) (fi_previous_reason spec) true
  else match fs_breach st with
       | Some b => fold_output st (Some (br_state b)) (if paused then fs_last_reason st else None) false
       | None =>
           if paused then fold_output st (Some (RuleStatus_value RST_NO_VERDICT)) (fs_last_reason st) false
           else fold_output st (Some (RuleStatus_value RST_OK)) None false
       end.

(** [sorted(readings, key=...)]: stable, and it raises on mixed awareness. *)
Definition before (a b : InterpretedReading) : Prop :=
  dt_us (ir_bucket_start a) <= dt_us (ir_bucket_start b).

#[export] Instance before_dec : RelDecision before.
Proof. intros a b. unfold before. apply _. Defined.

Definition sorted_readings (rs : list InterpretedReading) : result (list InterpretedReading) :=
  let a := (λ r, dt_aware (ir_bucket_start r)) <$> rs in
  if forallb id a || forallb negb a then Ok (stable_sort before rs) else Err dt_compare_error.

(** [fold_rule]. *)
Definition fold_rule (spec : FoldInput) : result FoldOutput :=
  match halt spec with
  | Some (status, reason) =>
      Ok (fold_output (fold_init spec) (Some (RuleStatus_value status)) (Some reason) false)
  | None =>
      entry <- catalog_entry (fi_metric spec) ;;
      rs <- sorted_readings (fi_readings spec) ;;
      st <- foldM (consume spec entry) (fold_init spec) rs ;;
      Ok (finish spec st)
  end.
End Fold.
