(* ===== verification/Runs.v ===== *)
(** * Runs of verdicts

    Hysteresis stated without counters: over a sequence of decided verdicts ([true] for
    abnormal), a condition is live when some run of abnormal verdicts opened it and no run
    of normal ones closed it since. Shared by the custom rules and the anomaly engine. *)

From S2P Require Import Prelude.

(** [l] holds [n] times [x] in a row. *)
Definition has_run (x : bool) (n : nat) (l : list bool) : Prop := ∃ a b, l = a ++ replicate n x ++ b.

(** The length of the run of [x] at the end of a list, given in reverse. *)
Fixpoint head_run (x : bool) (l : list bool) : nat :=
  match l with y :: l => if Bool.eqb y x then S (head_run x l) else O | [] => O end.

Definition tail_run (x : bool) (l : list bool) : nat := head_run x (rev l).

Lemma tail_run_snoc x l y : tail_run x (l ++ [y]) = if Bool.eqb y x then S (tail_run x l) else O.
Proof. unfold tail_run. by rewrite rev_app_distr. Qed.

Lemma tail_run_spec x n l : (n <= tail_run x l)%nat ↔ ∃ a, l = a ++ replicate n x.
Proof.
  revert n. induction l as [|y l IH] using rev_ind; intros n.
  - cbn. split; [intros; assert (n = 0%nat) as -> by lia; by exists []|].
    intros [a Ha]. apply (f_equal length) in Ha. rewrite length_app, length_replicate in Ha. cbn in *. lia.
  - rewrite tail_run_snoc. destruct (Bool.eqb_spec y x) as [->|Hne].
    + destruct n as [|n]; [split; [intros _; exists (l ++ [x]); by rewrite app_nil_r|lia]|].
      rewrite replicate_S_end. split.
      * intros Hn. destruct (proj1 (IH n)) as [a ->]; [lia|]. exists a. by rewrite app_assoc.
      * intros [a Ha]. rewrite app_assoc in Ha. apply app_inj_tail in Ha as [Ha _].
        assert (n <= tail_run x l)%nat by (apply IH; by exists a). lia.
    + destruct n as [|n]; [split; [intros _; exists (l ++ [y]); by rewrite app_nil_r|lia]|].
      rewrite replicate_S_end. split; [lia|].
      intros [a Ha]. rewrite app_assoc in Ha. apply app_inj_tail in Ha as [_ ->]. done.
Qed.

(** A run in a longer list is in the shorter one, or ends at the new element. *)
Lemma has_run_snoc x n l y : (0 < n)%nat →
  has_run x n (l ++ [y]) ↔ has_run x n l ∨ (n <= tail_run x (l ++ [y]))%nat.
Proof.
  intros Hn. split.
  - intros (a & b & H). destruct b as [|z b _] using rev_ind.
    + right. apply tail_run_spec. exists a. by rewrite app_nil_r in H.
    + left. exists a, b. rewrite !app_assoc in H. apply app_inj_tail in H as [H _]. by rewrite app_assoc.
  - intros [(a & b & ->)|H].
    + exists a, (b ++ [y]). by rewrite <-!app_assoc.
    + apply tail_run_spec in H as [a Ha]. exists a, []. by rewrite app_nil_r.
Qed.

(** A breach is live: some run of [s] breaching verdicts, and no run of [r] unders since. *)
Definition live_breach (s r : nat) (l : list bool) : Prop :=
  ∃ pre post, l = pre ++ replicate s true ++ post ∧ ¬ has_run false r post.

Lemma live_snoc_true s r l : (0 < s)%nat → (0 < r)%nat →
  live_breach s r (l ++ [true]) ↔ live_breach s r l ∨ (s <= tail_run true (l ++ [true]))%nat.
Proof.
  intros Hs Hr. split.
  - intros (pre & post & H & Hno). destruct post as [|z post _] using rev_ind.
    + right. apply tail_run_spec. exists pre. by rewrite app_nil_r in H.
    + left. rewrite !app_assoc in H. apply app_inj_tail in H as [-> <-].
      exists pre, post. split; [by rewrite app_assoc|]. intros H. apply Hno, has_run_snoc; auto.
  - intros [(pre & post & -> & Hno)|H].
    + exists pre, (post ++ [true]). split; [by rewrite <-!app_assoc|].
      rewrite has_run_snoc, tail_run_snoc by done. cbn. intros [?|?]; [done|lia].
    + apply tail_run_spec in H as [a ->]. exists a, []. split; [by rewrite app_nil_r|].
      intros (x & y & E). apply (f_equal length) in E. rewrite !length_app, length_replicate in E. cbn in E. lia.
Qed.

(** Unders at the end of the list are unders since the last breaching verdict. *)
Lemma tail_run_after pre s post : (0 < s)%nat →
  tail_run false (pre ++ replicate s true ++ post) = tail_run false post.
Proof.
  intros Hs. induction post as [|y post IH] using rev_ind.
  - rewrite app_nil_r. destruct s as [|s]; [lia|]. rewrite replicate_S_end, app_assoc, tail_run_snoc. done.
  - rewrite !app_assoc, !tail_run_snoc, <-app_assoc. destruct y; [done|]. cbn. by rewrite IH.
Qed.

Lemma live_snoc_false s r l : (0 < s)%nat → (0 < r)%nat →
  live_breach s r (l ++ [false]) ↔ live_breach s r l ∧ (tail_run false (l ++ [false]) < r)%nat.
Proof.
  intros Hs Hr. split.
  - intros (pre & post & H & Hno). destruct post as [|z post _] using rev_ind.
    + rewrite app_nil_r in H. destruct s as [|s]; [lia|]. rewrite replicate_S_end, app_assoc in H.
      apply app_inj_tail in H as [_ ?]. done.
    + rewrite has_run_snoc in Hno by done. rewrite H, tail_run_after by done.
      rewrite !app_assoc in H. apply app_inj_tail in H as [-> <-].
      split; [exists pre, post; split; [by rewrite app_assoc|tauto]|lia].
  - intros [(pre & post & -> & Hno) Ht]. exists pre, (post ++ [false]). split; [by rewrite <-!app_assoc|].
    rewrite has_run_snoc by done. intros [?|?]; [done|].
    rewrite <-!app_assoc, tail_run_after in Ht by done. lia.
Qed.
