(* ===== verification/CustomRuleTheorems.v ===== *)
(** * What a custom rule may conclude

    Soundness of one verdict, the honesty of a reading, and the hysteresis of the fold. *)

From S2P Require Import Prelude Runs PyStr PyFloat PyFloatFacts PyTime Enums RuleCatalog CustomRules.

(** ** One verdict *)

(** The true counts a labelled reading leaves possible. *)
Definition possible (label : string) (value truth : float) : Prop :=
  match waf_measurement label with
  | Some WM_EXACT => truth = value
  | Some WM_LOWER_BOUND => fle value truth = true
  | None => is_nan truth = false
  end.

Lemma breaches_GT v t : breaches "GT" v t = Some (flt t v). Proof. reflexivity. Qed.
Lemma breaches_GE v t : breaches "GE" v t = Some (fle t v). Proof. reflexivity. Qed.

Lemma breaches_mono op value truth threshold : increase_operator op = true →
  fle value truth = true → breaches op value threshold = Some true → breaches op truth threshold = Some true.
Proof.
  intros Hop%bool_decide_eq_true Hle. rewrite !elem_of_cons, elem_of_nil in Hop.
  destruct Hop as [->|[->|[]]]; rewrite ?breaches_GT, ?breaches_GE; intros H; injection H as H; f_equal.
  - by eapply flt_fle_trans.
  - by eapply fle_trans.
Qed.

(** A judged reading was finite, labelled and compared. *)
Lemma judge_inv req op thr r : judge req op thr r = JBreach ∨ judge req op thr r = JUnder →
  ir_in_maintenance r = false ∧
  ∃ value label dir, ir_value r = Some value ∧ ir_measurement r = Some label ∧ isfinite value = true ∧
    isfinite thr = true ∧ breaches op value thr = Some dir ∧
    ((Measurement.sd_scope (Measurement.verdict_scope req (waf_measurement label)) = Measurement.FULL ∧
      judge req op thr r = if dir then JBreach else JUnder) ∨
     (Measurement.sd_scope (Measurement.verdict_scope req (waf_measurement label)) = Measurement.INCREASE_ONLY ∧
      judge req op thr r = JBreach ∧ dir = true ∧ increase_operator op = true)).
Proof.
  unfold judge. destruct (ir_in_maintenance r); [intros [?|?]; discriminate|]. intros H. split; [done|].
  destruct (ir_value r) as [value|]; [|destruct H; discriminate].
  destruct (ir_measurement r) as [label|]; [|destruct H; discriminate]. exists value, label.
  destruct (isfinite value) eqn:Hv; cbn [negb] in *; [|destruct H; discriminate].
  destruct (isfinite thr) eqn:Ht; cbn [negb] in *; [|destruct H; discriminate].
  destruct (breaches op value thr) as [dir|] eqn:Hb; [|destruct H; discriminate]. exists dir.
  do 5 (split; [done|]).
  destruct (Measurement.sd_scope _); [left; done| |destruct H; discriminate].
  right. destruct (increase_operator op), dir; cbn [negb orb] in *; try (by destruct H); done.
Qed.

Lemma full_scope req label : Measurement.sd_scope (Measurement.verdict_scope req (waf_measurement label)) = Measurement.FULL →
  waf_measurement label = Some WM_EXACT.
Proof. unfold Measurement.verdict_scope. by destruct (waf_measurement label) as [[]|], req. Qed.

Lemma increase_scope req label : Measurement.sd_scope (Measurement.verdict_scope req (waf_measurement label)) = Measurement.INCREASE_ONLY →
  waf_measurement label = Some WM_LOWER_BOUND ∧ req = Measurement.LOWER_BOUND_PROVES_INCREASE.
Proof. unfold Measurement.verdict_scope. by destruct (waf_measurement label) as [[]|], req. Qed.

(** ** The hysteresis of the fold *)

(** The counters of the fold over decided verdicts. *)
Record hyst := { hy_live : bool; hy_b : nat; hy_u : nat }.

Definition hyst_step (s r : nat) (h : hyst) (j : bool) : hyst :=
  if j then {| hy_live := hy_live h || (s <=? S (hy_b h))%nat; hy_b := S (hy_b h); hy_u := 0 |}
  else if hy_live h && (r <=? S (hy_u h))%nat then {| hy_live := false; hy_b := 0; hy_u := 0 |}
  else {| hy_live := hy_live h; hy_b := 0; hy_u := S (hy_u h) |}.

Definition hyst_run (s r : nat) (l : list bool) : hyst :=
  foldl (hyst_step s r) {| hy_live := false; hy_b := 0; hy_u := 0 |} l.

(** The counters decide exactly the declarative condition. *)
Lemma hyst_run_spec s r l : (0 < s)%nat → (0 < r)%nat →
  (hy_live (hyst_run s r l) = true ↔ live_breach s r l) ∧
  hy_b (hyst_run s r l) = tail_run true l ∧
  (hy_live (hyst_run s r l) = true → hy_u (hyst_run s r l) = tail_run false l).
Proof.
  intros Hs Hr. induction l as [|j l (IH1 & IH2 & IH3)] using rev_ind.
  - cbn. split; [|done]. split; [done|]. intros (pre & post & H & _).
    apply (f_equal length) in H. rewrite !length_app, length_replicate in H. cbn in H. lia.
  - unfold hyst_run in *. rewrite foldl_app. cbn [foldl]. set (h := foldl _ _ l) in *.
    unfold hyst_step. destruct j.
    + rewrite live_snoc_true, !tail_run_snoc by done. cbn [hy_live hy_b hy_u Bool.eqb].
      rewrite orb_true_iff, Nat.leb_le, IH1, IH2. by split_and!.
    + rewrite live_snoc_false, !tail_run_snoc by done. cbn [Bool.eqb].
      destruct (hy_live h) eqn:Hl; cbn [andb].
      * destruct (Nat.leb_spec r (S (hy_u h))); cbn [hy_live hy_b hy_u]; rewrite (IH3 eq_refl) in *.
        -- split; [|done]. split; [done|]. intros [_ ?]. lia.
        -- split; [|by auto]. split; [|done]. intros _. split; [by apply IH1|lia].
      * split; [|by split]. cbn [hy_live]. rewrite <-IH1. split; [done|]. by intros [? _].
Qed.

(** ** The fold follows the counters *)

(** The verdict of a reading, when it has one. *)
Definition verdict_of (spec : FoldInput) (entry : MetricCatalogEntry) (r : InterpretedReading) : option bool :=
  match judge (requirement_of (me_measurement entry)) (fi_operator spec) (fi_threshold_value spec) r with
  | JBreach => Some true
  | JUnder => Some false
  | _ => None
  end.

Definition start_us (r : InterpretedReading) : Z := dt_us (ir_bucket_start r).
Definition reading_aware (r : InterpretedReading) : Prop := aware (ir_bucket_start r).

(** The reading is later than the last evaluated bucket. *)
Definition fresh_after (last : option datetime) (r : InterpretedReading) : Prop :=
  ∀ l, last = Some l → aware l ∧ dt_us l < start_us r.

Definition strictly_sorted (rs : list InterpretedReading) : Prop :=
  StronglySorted (λ a b, start_us a < start_us b) rs.

Section FoldFacts.
Context (uuid4 : nat → N) (spec : FoldInput) (entry : MetricCatalogEntry).
Context (Hsus : 1 <= fi_sustain_buckets spec) (Hrec : 1 <= fi_recovery_buckets spec).

Definition follows (st : FoldState) (h : hyst) : Prop :=
  is_some_b (fs_breach st) = hy_live h ∧ fs_breaching st = Z.of_nat (hy_b h) ∧
  fs_under st = Z.of_nat (hy_u h).

Lemma leb_sustain n : (fi_sustain_buckets spec <=? Z.of_nat n + 1) =
  (Z.to_nat (fi_sustain_buckets spec) <=? S n)%nat.
Proof.
  destruct (Z.leb_spec (fi_sustain_buckets spec) (Z.of_nat n + 1)),
    (Nat.leb_spec (Z.to_nat (fi_sustain_buckets spec)) (S n)); lia.
Qed.

Lemma leb_recovery n : (fi_recovery_buckets spec <=? Z.of_nat n + 1) =
  (Z.to_nat (fi_recovery_buckets spec) <=? S n)%nat.
Proof.
  destruct (Z.leb_spec (fi_recovery_buckets spec) (Z.of_nat n + 1)),
    (Nat.leb_spec (Z.to_nat (fi_recovery_buckets spec)) (S n)); lia.
Qed.

Lemma consume_fresh st r : reading_aware r → fresh_after (fs_last_evaluated st) r →
  consume uuid4 spec entry st r = Ok (
    let st := note_judged st (ir_bucket_start r) in
    match judge (requirement_of (me_measurement entry)) (fi_operator spec) (fi_threshold_value spec) r with
    | JMaintenance reason => fold_maintenance st reason
    | JUnmeasured reason => fold_unmeasured st reason
    | JBreach => on_breach uuid4 spec (me_unit entry) st r
    | JUnder => on_under spec (me_unit entry) st r
    end).
Proof.
  intros Ha Hf. unfold consume. destruct (fs_last_evaluated st) as [l|] eqn:El; [|done].
  destruct (Hf l eq_refl) as [Hl Hlt]. rewrite dt_le_ok by (by rewrite Ha, Hl). cbn [res_bind].
  unfold start_us in Hlt. by rewrite (proj2 (Z.leb_gt _ _) Hlt).
Qed.

Lemma consume_follows st h r : reading_aware r → fresh_after (fs_last_evaluated st) r → follows st h →
  ∃ st', consume uuid4 spec entry st r = Ok st' ∧ fs_last_evaluated st' = Some (ir_bucket_start r) ∧
    follows st' (match verdict_of spec entry r with
                 | Some j => hyst_step (Z.to_nat (fi_sustain_buckets spec)) (Z.to_nat (fi_recovery_buckets spec)) h j
                 | None => h
                 end).
Proof.
  intros Ha Hf (F1 & F2 & F3). rewrite consume_fresh by done. unfold verdict_of.
  destruct (judge _ _ _ r) as [reason|reason| |]; eexists; (split; [done|]).
  - done.
  - split; [done|]. split; [|done]. cbn. by destruct (fs_breach st).
  - unfold on_breach. cbn [note_judged fs_breach fs_breaching fs_under fs_last_evaluated].
    rewrite F2. destruct (fs_breach st) as [b|]; cbn [is_some_b] in F1; (split; [done|]);
      unfold follows, hyst_step; rewrite <-F1; cbn [hy_live hy_b hy_u fs_breach fs_breaching fs_under orb].
    + split; [done|]. lia.
    + rewrite leb_sustain. split; [|lia]. by destruct (Nat.leb _ _).
  - unfold on_under. cbn [note_judged fs_breach fs_breaching fs_under fs_last_evaluated].
    rewrite F3. unfold follows, hyst_step. destruct (fs_breach st) as [b|]; cbn [is_some_b] in F1; rewrite <-F1.
    + rewrite leb_recovery. cbn [andb].
      destruct (Nat.leb _ _); cbn [hy_live hy_b hy_u fs_breach fs_breaching fs_under fs_last_evaluated];
        (split; [done|]); (split; [done|]); split; lia.
    + cbn [andb hy_live hy_b hy_u fs_breach fs_breaching fs_under fs_last_evaluated].
      split; [done|]. split; [done|]. split; lia.
Qed.

Lemma foldM_follows rs st h : strictly_sorted rs → Forall reading_aware rs →
  Forall (fresh_after (fs_last_evaluated st)) rs → follows st h →
  ∃ st', foldM (consume uuid4 spec entry) st rs = Ok st' ∧
    follows st' (foldl (hyst_step (Z.to_nat (fi_sustain_buckets spec)) (Z.to_nat (fi_recovery_buckets spec))) h
                   (omap (verdict_of spec entry) rs)).
Proof.
  intros Hsort Ha. revert st h. induction Hsort as [|r rs Hsort IH Hlt]; intros st h Hf Hfl.
  - by exists st.
  - apply Forall_cons in Ha as [Ha1 Ha]. apply Forall_cons in Hf as [Hf1 Hf].
    destruct (consume_follows st h r Ha1 Hf1 Hfl) as (st1 & Hc & Hl & Hfl1).
    cbn [foldM]. rewrite Hc. cbn [res_bind].
    edestruct (IH Ha st1) as (st' & Hst' & Hfin); [|exact Hfl1|].
    { rewrite Hl. rewrite Forall_forall in Hlt |- *. intros x Hx l [= <-].
      split; [done|]. by apply Hlt. }
    exists st'. split; [done|]. cbn [omap list_omap]. by destruct (verdict_of spec entry r).
Qed.
End FoldFacts.

(** ** Sorting *)

Lemma sorted_strict_id rs : strictly_sorted rs → stable_sort before rs = rs.
Proof.
  intros H. assert (Htot : Total before) by (intros a b; unfold before; lia).
  assert (Htr : Transitive before) by (intros a b c; unfold before; lia).
  assert (Hkey : ∀ l, strictly_sorted l → ∀ x y, x ∈ l → y ∈ l → start_us x = start_us y → x = y).
  { clear. intros l Hl. induction Hl as [|z l Hl IH Hz]; intros x y Hx Hy E; [by apply elem_of_nil in Hx|].
    rewrite Forall_forall in Hz. apply elem_of_cons in Hx as [->|Hx]; apply elem_of_cons in Hy as [->|Hy].
    - done.
    - specialize (Hz y Hy). lia.
    - specialize (Hz x Hx). lia.
    - by apply IH. }
  apply (StronglySorted_unique_strong before).
  - intros x y Hx Hy H1 H2. rewrite stable_sort_Permutation in Hx. apply (Hkey rs H); [done..|].
    unfold before, start_us in *. lia.
  - by apply StronglySorted_stable_sort.
  - clear -H. induction H as [|x l Hl IH Hx]; constructor; [done|].
    eapply Forall_impl; [exact Hx|]. intros y Hy. unfold before, start_us in *. lia.
  - apply stable_sort_Permutation.
Qed.

Lemma sorted_readings_ok rs : Forall reading_aware rs → strictly_sorted rs → sorted_readings rs = Ok rs.
Proof.
  intros Ha Hs. unfold sorted_readings. rewrite sorted_strict_id by done.
  assert (forallb id ((λ r, dt_aware (ir_bucket_start r)) <$> rs) = true) as ->; [|done].
  clear Hs. induction Ha as [|r rs Hr _ IH]; [done|]. cbn. by rewrite Hr, IH.
Qed.

(** ** Batches *)

(** The rule as the engine loads it after a run: the counters, the breach and the status of
    the output, and new readings. *)
Definition resume (spec : FoldInput) (o : FoldOutput) (rs : list InterpretedReading) : FoldInput :=
  {| fi_rule_id := fi_rule_id spec; fi_rule_name := fi_rule_name spec; fi_severity := fi_severity spec;
     fi_metric := fi_metric spec; fi_operator := fi_operator spec;
     fi_threshold_value := fi_threshold_value spec; fi_sustain_buckets := fi_sustain_buckets spec;
     fi_recovery_buckets := fi_recovery_buckets spec;
     fi_consecutive_breaching := fo_consecutive_breaching o;
     fi_consecutive_under := fo_consecutive_under o; fi_last_evaluated := fo_last_evaluated o;
     fi_previous_status := fo_status o; fi_previous_reason := fo_status_reason o;
     fi_subject_kind := fi_subject_kind spec; fi_subject_label := fi_subject_label spec;
     fi_platform_enabled := fi_platform_enabled spec; fi_enabled := fi_enabled spec;
     fi_retired := fi_retired spec; fi_retired_reason := fi_retired_reason spec;
     fi_family_collected := fi_family_collected spec; fi_family_reason := fi_family_reason spec;
     fi_breach := fo_breach o; fi_readings := rs; fi_now := fi_now spec;
     fi_collection_stale_reason := fi_collection_stale_reason spec |}.

Definition with_readings (rs : list InterpretedReading) (spec : FoldInput) : FoldInput :=
  {| fi_rule_id := fi_rule_id spec; fi_rule_name := fi_rule_name spec; fi_severity := fi_severity spec;
     fi_metric := fi_metric spec; fi_operator := fi_operator spec;
     fi_threshold_value := fi_threshold_value spec; fi_sustain_buckets := fi_sustain_buckets spec;
     fi_recovery_buckets := fi_recovery_buckets spec;
     fi_consecutive_breaching := fi_consecutive_breaching spec;
     fi_consecutive_under := fi_consecutive_under spec; fi_last_evaluated := fi_last_evaluated spec;
     fi_previous_status := fi_previous_status spec; fi_previous_reason := fi_previous_reason spec;
     fi_subject_kind := fi_subject_kind spec; fi_subject_label := fi_subject_label spec;
     fi_platform_enabled := fi_platform_enabled spec; fi_enabled := fi_enabled spec;
     fi_retired := fi_retired spec; fi_retired_reason := fi_retired_reason spec;
     fi_family_collected := fi_family_collected spec; fi_family_reason := fi_family_reason spec;
     fi_breach := fi_breach spec; fi_readings := rs; fi_now := fi_now spec;
     fi_collection_stale_reason := fi_collection_stale_reason spec |}.

(** The identifiers a run drew: one for each breach it opened. *)
Definition opened (es : list AlertEvent) : nat := length (filter (λ e, ae_action e = "open") es).

Section Batches.
Context (uuid4 : nat → N) (spec : FoldInput) (entry : MetricCatalogEntry).

Lemma consume_drawn st r st' : consume uuid4 spec entry st r = Ok st' →
  fs_drawn st = opened (fs_events st) → fs_drawn st' = opened (fs_events st').
Proof.
  unfold consume. intros H Hd. apply bind_ok in H as (seen & _ & H). destruct seen.
  { by apply (inj (@Ok _)) in H as <-. }
  apply (inj (@Ok _)) in H as <-. destruct (judge _ _ _ r); try done.
  - unfold on_breach. cbn [note_judged fs_breach fs_events fs_drawn].
    destruct (fs_breach st); cbn [fs_drawn fs_events]; unfold opened in *; rewrite filter_app, length_app.
    + rewrite filter_cons_False by done. cbn. lia.
    + destruct (_ <=? _); [rewrite filter_cons_True by done|]; cbn; lia.
  - unfold on_under. cbn [note_judged fs_breach fs_events fs_drawn].
    destruct (fs_breach st); [destruct (_ <=? _)|]; cbn [fs_drawn fs_events]; try done.
    unfold opened in *. rewrite filter_app, length_app, filter_cons_False by done. cbn. lia.
Qed.

(** The state [st] continues from the state [st1] of the first batch. *)
Definition continued (st1 st : FoldState) : FoldState :=
  {| fs_breach := fs_breach st;
     fs_resolved := match fs_resolved st with Some b => Some b | None => fs_resolved st1 end;
     fs_events := fs_events st1 ++ fs_events st; fs_breaching := fs_breaching st;
     fs_under := fs_under st; fs_last_evaluated := fs_last_evaluated st;
     fs_judged := fs_judged st1 + fs_judged st;
     fs_last_kind := match fs_last_kind st with Some k => Some k | None => fs_last_kind st1 end;
     fs_last_reason := match fs_last_kind st with Some _ => fs_last_reason st | None => fs_last_reason st1 end;
     fs_drawn := fs_drawn st1 + fs_drawn st |}.

Lemma consume_continued st1 o rs st r :
  consume uuid4 spec entry (continued st1 st) r =
  res_map (continued st1) (consume (λ n, uuid4 (fs_drawn st1 + n)%nat) (resume spec o rs) entry st r).
Proof.
  unfold consume. cbn [continued fs_last_evaluated].
  destruct (match fs_last_evaluated st with Some l => dt_le (ir_bucket_start r) l | None => Ok false end)
    as [[]|]; cbn [res_bind res_map]; [done| |done].
  f_equal. cbn [resume fi_operator fi_threshold_value]. destruct (judge _ _ _ r) as [reason|reason| |].
  - unfold fold_maintenance, continued, note_judged. cbn. f_equal. lia.
  - unfold fold_unmeasured, continued, note_judged. cbn. f_equal. lia.
  - unfold on_breach, continued, note_judged. cbn. destruct (fs_breach st); cbn.
    + f_equal; [by rewrite app_assoc|lia].
    + destruct (_ <=? _); cbn; f_equal; rewrite ?app_assoc; try done; lia.
  - unfold on_under, continued, note_judged. cbn. destruct (fs_breach st); cbn.
    + destruct (_ <=? _); cbn; f_equal; rewrite ?app_assoc; try done; lia.
    + f_equal. lia.
Qed.

Lemma foldM_continued st1 o rs0 st rs :
  foldM (consume uuid4 spec entry) (continued st1 st) rs =
  res_map (continued st1)
    (foldM (consume (λ n, uuid4 (fs_drawn st1 + n)%nat) (resume spec o rs0) entry) st rs).
Proof.
  revert st. induction rs as [|r rs IH]; intros st; [done|]. cbn [foldM].
  rewrite (consume_continued st1 o rs0). destruct (consume _ _ _ st r); cbn [res_map res_bind]; [apply IH|done].
Qed.

(** A bucket at or before the last evaluated one is a no-op. *)
Definition replayed (last : option datetime) (r : InterpretedReading) : Prop :=
  ∃ l, last = Some l ∧ aware l ∧ start_us r <= dt_us l.

Lemma consume_replayed st r : reading_aware r → replayed (fs_last_evaluated st) r →
  consume uuid4 spec entry st r = Ok st.
Proof.
  intros Ha (l & Hl & Hal & Hle). unfold consume. rewrite Hl, dt_le_ok by (by rewrite Ha, Hal).
  unfold start_us in Hle. cbn [res_bind]. by rewrite (proj2 (Z.leb_le _ _) Hle).
Qed.

Lemma foldM_replayed st rs : Forall reading_aware rs → Forall (replayed (fs_last_evaluated st)) rs →
  foldM (consume uuid4 spec entry) st rs = Ok st.
Proof.
  intros Ha. induction Ha as [|r rs Hr _ IH]; intros Hf; [done|].
  apply Forall_cons in Hf as [H1 H2]. cbn [foldM]. rewrite consume_replayed by done. by apply IH.
Qed.

Lemma consume_last st r st' : reading_aware r → (∀ l, fs_last_evaluated st = Some l → aware l) →
  consume uuid4 spec entry st r = Ok st' →
  replayed (fs_last_evaluated st') r ∧ (∀ l, fs_last_evaluated st' = Some l → aware l) ∧
  ∀ x, replayed (fs_last_evaluated st) x → replayed (fs_last_evaluated st') x.
Proof.
  intros Ha Hal. unfold consume. intros H. apply bind_ok in H as (seen & Hs & H). destruct seen.
  - apply (inj (@Ok _)) in H as <-. destruct (fs_last_evaluated st) as [l|] eqn:El; [|discriminate].
    split; [|done]. exists l. split; [done|]. split; [by apply Hal|].
    rewrite dt_le_ok in Hs by (by rewrite Ha, (Hal l eq_refl)). injection Hs as Hs%Z.leb_le. done.
  - assert (fs_last_evaluated st' = Some (ir_bucket_start r)) as ->.
    { apply (inj (@Ok _)) in H as <-. destruct (judge _ _ _ r); [done|done|..].
      - unfold on_breach. by destruct (fs_breach _).
      - unfold on_under. destruct (fs_breach _); [by destruct (_ <=? _)|done]. }
    split; [by exists (ir_bucket_start r)|]. split; [by intros l [= <-]|].
    intros x (l & El & Hl & Hle). exists (ir_bucket_start r). split; [done|]. split; [done|].
    rewrite El in Hs. rewrite dt_le_ok in Hs by (by rewrite Ha, Hl). injection Hs as Hs%Z.leb_gt.
    unfold start_us in *. lia.
Qed.

Lemma foldM_last st rs st' : Forall reading_aware rs → (∀ l, fs_last_evaluated st = Some l → aware l) →
  foldM (consume uuid4 spec entry) st rs = Ok st' →
  Forall (replayed (fs_last_evaluated st')) rs ∧
  ∀ x, replayed (fs_last_evaluated st) x → replayed (fs_last_evaluated st') x.
Proof.
  intros Ha. revert st. induction Ha as [|r rs Hr _ IH]; intros st Hal H; cbn [foldM] in H.
  - apply (inj (@Ok _)) in H as <-. done.
  - bind_inv H. destruct (consume_last _ _ _ Hr Hal E) as (H1 & H2 & H3).
    destruct (IH _ H2 H) as [H4 H5]. split; [constructor; auto|auto].
Qed.
End Batches.

(** The output of a run that was allowed to judge. *)
Lemma fold_rule_run uuid4 spec entry rs : halt spec = None → catalog_entry (fi_metric spec) = Ok entry →
  Forall reading_aware rs → strictly_sorted rs →
  fold_rule uuid4 (with_readings rs spec) =
    (st <- foldM (consume uuid4 spec entry) (fold_init spec) rs ;; Ok (finish spec st)).
Proof.
  intros Hh He Ha Hs. unfold fold_rule.
  change (halt (with_readings rs spec)) with (halt spec). rewrite Hh.
  change (fi_metric (with_readings rs spec)) with (fi_metric spec). rewrite He. cbn [res_bind].
  change (fi_readings (with_readings rs spec)) with rs. rewrite sorted_readings_ok by done. done.
Qed.

(** What [finish] hands back besides the status. *)
Lemma finish_fields spec st :
  fo_consecutive_breaching (finish spec st) = fs_breaching st ∧
  fo_consecutive_under (finish spec st) = fs_under st ∧
  fo_last_evaluated (finish spec st) = fs_last_evaluated st ∧ fo_breach (finish spec st) = fs_breach st ∧
  fo_resolved (finish spec st) = fs_resolved st ∧ fo_events (finish spec st) = fs_events st ∧
  fo_judged (finish spec st) = fs_judged st ∧ fo_preserve_status (finish spec st) = (fs_judged st =? 0).
Proof.
  unfold finish. destruct (fs_judged st =? 0); [done|].
  destruct (fs_breach st) eqn:E; [|destruct (bool_decide _)]; cbn; by rewrite ?E.
Qed.

Lemma resume_init spec o rs st : o = finish spec st →
  continued st (fold_init (resume spec o rs)) = st.
Proof.
  intros ->. destruct (finish_fields spec st) as (E1 & E2 & E3 & E4 & _).
  unfold continued, fold_init, resume. cbn [fi_breach fi_consecutive_breaching fi_consecutive_under fi_last_evaluated
    fs_breach fs_resolved fs_events fs_breaching fs_under fs_last_evaluated fs_judged fs_last_kind fs_last_reason fs_drawn].
  rewrite E1, E2, E3, E4, app_nil_r, Z.add_0_r, Nat.add_0_r. by destruct st.
Qed.

(** * Theorems of the custom rules *)


(** A verdict is sound for every count the reading leaves possible. When a reading is
    judged breaching, every true value compatible with its label (the value itself for an
    exact count, any value at or above it for a lower bound) crosses the threshold too;
    when it is judged under, no compatible value does. A lower bound therefore never proves
    "under", and a NaN, an unknown operator or an unknown label proves nothing. *)
Theorem judge_sound req op threshold r :
  let j := judge req op threshold r in
  (j = JBreach ∨ j = JUnder) →
  ∃ value label, ir_value r = Some value ∧ ir_measurement r = Some label ∧
    ∀ truth, possible label value truth →
      breaches op truth threshold = Some (bool_decide (ir_in_maintenance r = false ∧ j = JBreach)).
Proof.
  intros j Hj. destruct (judge_inv _ _ _ _ Hj) as (Hm & value & label & dir & Hv & Hl & _ & _ & Hb & Hcase).
  exists value, label. do 2 (split; [done|]). intros truth Hp.
  destruct Hcase as [(Hs & Hjd)|(Hs & Hjd & -> & Hop)].
  - apply full_scope in Hs. unfold possible in Hp. rewrite Hs in Hp. subst truth. rewrite Hb. f_equal.
    symmetry. unfold j. rewrite Hm, Hjd. destruct dir; [by apply bool_decide_eq_true|].
    apply bool_decide_eq_false. by intros [_ ?].
  - apply increase_scope in Hs as [Hs _]. unfold possible in Hp. rewrite Hs in Hp.
    rewrite (breaches_mono op value truth threshold Hop Hp Hb). f_equal. symmetry.
    apply bool_decide_eq_true. by split.
Qed.

Definition ex_reading (h : Z) (v : Z) (label : string) : InterpretedReading :=
  {| ir_bucket_start := utc (td_hours h); ir_value := Some (div_round v 1); ir_measurement := Some label;
     ir_in_maintenance := false; ir_reason := None |}.

Lemma judge_sound_witness :
  breaches "GT" (div_round 9 1) (div_round 5 1) = Some true.
Proof.
  destruct (judge_sound Measurement.LOWER_BOUND_PROVES_INCREASE "GT" (div_round 5 1) (ex_reading 1 7 "LOWER_BOUND"))
    as (value & label & Hv & Hl & H); [left; vm_compute; reflexivity|].
  injection Hv as <-. injection Hl as <-. rewrite (H (div_round 9 1)); [|vm_compute; reflexivity].
  vm_compute. reflexivity.
Defined.

(** C21: sustain and recovery, stated without counters. Starting from a rule with no breach,
    whatever readings come, a breach is live after the run exactly when the decided
    verdicts (the readings in maintenance or without a verdict left out) hold a run of
    [sustain_buckets] breaching ones with no run of [recovery_buckets] unders after it. *)
Theorem fold_live_iff uuid4 spec entry rs :
  halt spec = None → catalog_entry (fi_metric spec) = Ok entry →
  1 <= fi_sustain_buckets spec → 1 <= fi_recovery_buckets spec →
  fi_breach spec = None → fi_consecutive_breaching spec = 0 → fi_consecutive_under spec = 0 →
  fi_last_evaluated spec = None → Forall reading_aware rs → strictly_sorted rs →
  ∃ o, fold_rule uuid4 (with_readings rs spec) = Ok o ∧
    (fo_breach o ≠ None ↔
     live_breach (Z.to_nat (fi_sustain_buckets spec)) (Z.to_nat (fi_recovery_buckets spec))
       (omap (verdict_of spec entry) rs)).
Proof.
  intros Hh He Hs Hr Hb H1 H2 Hl Ha Hsort. rewrite (fold_rule_run uuid4 spec entry rs) by done.
  destruct (foldM_follows uuid4 spec entry Hs Hr rs (fold_init spec) {| hy_live := false; hy_b := 0; hy_u := 0 |})
    as (st & Hst & Hlive & _); [done|done| | |].
  { apply Forall_forall. intros x _ l E. cbn in E. congruence. }
  { unfold follows, fold_init. cbn. by rewrite Hb, H1, H2. }
  rewrite Hst. cbn [res_bind]. eexists. split; [done|].
  destruct (finish_fields spec st) as (_ & _ & _ & -> & _).
  destruct (hyst_run_spec (Z.to_nat (fi_sustain_buckets spec)) (Z.to_nat (fi_recovery_buckets spec))
    (omap (verdict_of spec entry) rs)) as [<- _]; [lia..|].
  unfold hyst_run. rewrite <-Hlive. destruct (fs_breach st); cbn; naive_solver.
Qed.

(** Batches do not matter. Judging the buckets of two ticks one after the other, with the
    counters, breach and status of the first tick stored in between, gives the same
    counters, breach, last bucket and alert events as judging them all in one tick; the
    number judged adds up, and a breach resolved by either is reported. *)
Theorem fold_in_batches uuid4 spec entry rs1 rs2 o :
  halt spec = None → catalog_entry (fi_metric spec) = Ok entry →
  Forall reading_aware (rs1 ++ rs2) → strictly_sorted (rs1 ++ rs2) →
  fold_rule uuid4 (with_readings (rs1 ++ rs2) spec) = Ok o →
  ∃ o1 o2, fold_rule uuid4 (with_readings rs1 spec) = Ok o1 ∧
    fold_rule (λ n, uuid4 (opened (fo_events o1) + n)%nat) (resume spec o1 rs2) = Ok o2 ∧
    fo_breach o = fo_breach o2 ∧ fo_consecutive_breaching o = fo_consecutive_breaching o2 ∧
    fo_consecutive_under o = fo_consecutive_under o2 ∧ fo_last_evaluated o = fo_last_evaluated o2 ∧
    fo_events o = fo_events o1 ++ fo_events o2 ∧ fo_judged o = fo_judged o1 + fo_judged o2 ∧
    fo_resolved o = match fo_resolved o2 with Some b => Some b | None => fo_resolved o1 end.
Proof.
  intros Hh He Ha Hs. apply Forall_app in Ha as Ha12. destruct Ha12 as [Ha1 Ha2].
  apply StronglySorted_app in Hs as Hs12. destruct Hs12 as (_ & Hs1 & Hs2).
  rewrite (fold_rule_run uuid4 spec entry (rs1 ++ rs2)) by done. rewrite foldM_app. intros H.
  rewrite (fold_rule_run uuid4 spec entry rs1) by done.
  apply bind_ok in H as (st & H & [= <-]). apply bind_ok in H as (st1 & H1 & H2).
  rewrite H1. cbn [res_bind]. eexists (finish spec st1). 
  assert (Hd : fs_drawn st1 = opened (fs_events st1)).
  { refine (foldM_inv (λ st, fs_drawn st = opened (fs_events st)) _ _ _ _ _ _ H1); [|done].
    intros b x b' _ Hb Hc. by eapply consume_drawn. }
  destruct (finish_fields spec st1) as (F1 & F2 & F3 & F4 & F5 & F6 & F7 & _).
  rewrite <-(resume_init spec (finish spec st1) rs2 st1 eq_refl) in H2.
  rewrite (foldM_continued uuid4 spec entry st1 (finish spec st1) rs2) in H2.
  destruct (foldM _ _ rs2) as [st2|] eqn:E2; [|discriminate]. cbn [res_map] in H2.
  apply (inj (@Ok _)) in H2 as <-.
  exists (finish (resume spec (finish spec st1) rs2) st2). split; [done|]. split.
  - rewrite F6, <-Hd. unfold fold_rule.
    change (halt (resume spec (finish spec st1) rs2)) with (halt spec). rewrite Hh.
    change (fi_metric (resume spec (finish spec st1) rs2)) with (fi_metric spec). rewrite He. cbn [res_bind].
    change (fi_readings (resume spec (finish spec st1) rs2)) with rs2. rewrite sorted_readings_ok by done.
    cbn [res_bind]. by rewrite E2.
  - destruct (finish_fields spec (continued st1 st2)) as (G1 & G2 & G3 & G4 & G5 & G6 & G7 & _).
    destruct (finish_fields (resume spec (finish spec st1) rs2) st2) as (K1 & K2 & K3 & K4 & K5 & K6 & K7 & _).
    rewrite G1, G2, G3, G4, G5, G6, G7, K1, K2, K3, K4, K5, K6, K7, F5, F6, F7. done.
Qed.

(** Replaying buckets is a no-op. Running the rule again on the buckets it has already
    judged moves no counter, touches no breach, emits no event, and leaves the status. *)
Theorem fold_replay_noop uuid4 uuid4' spec entry rs o :
  halt spec = None → catalog_entry (fi_metric spec) = Ok entry →
  Forall reading_aware rs → strictly_sorted rs → (∀ l, fi_last_evaluated spec = Some l → aware l) →
  fold_rule uuid4 (with_readings rs spec) = Ok o →
  ∃ o', fold_rule uuid4' (resume spec o rs) = Ok o' ∧
    fo_judged o' = 0 ∧ fo_events o' = [] ∧ fo_resolved o' = None ∧ fo_preserve_status o' = true ∧
    fo_status o' = fo_status o ∧ fo_status_reason o' = fo_status_reason o ∧
    fo_breach o' = fo_breach o ∧ fo_consecutive_breaching o' = fo_consecutive_breaching o ∧
    fo_consecutive_under o' = fo_consecutive_under o ∧ fo_last_evaluated o' = fo_last_evaluated o.
Proof.
  intros Hh He Ha Hs Hl. rewrite (fold_rule_run uuid4 spec entry rs) by done. intros H.
  apply bind_ok in H as (st & H & [= <-]).
  destruct (foldM_last uuid4 spec entry (fold_init spec) rs st Ha Hl H) as [Hrep _].
  unfold fold_rule. change (halt (resume spec (finish spec st) rs)) with (halt spec). rewrite Hh.
  change (fi_metric (resume spec (finish spec st) rs)) with (fi_metric spec). rewrite He. cbn [res_bind].
  change (fi_readings (resume spec (finish spec st) rs)) with rs. rewrite sorted_readings_ok by done.
  cbn [res_bind]. destruct (finish_fields spec st) as (F1 & F2 & F3 & F4 & _).
  rewrite foldM_replayed; [|done|unfold fold_init, resume; cbn [fi_last_evaluated fs_last_evaluated]; by rewrite F3].
  cbn [res_bind]. eexists. split; [done|]. done.
Qed.

(** The count of a reading is known: it is finite and labelled. *)
Definition reading_known (r : InterpretedReading) (labels : list string) : Prop :=
  match ir_value r with
  | Some v => isfinite v = true ∧ ∃ l, ir_measurement r = Some l ∧ l ∈ labels
  | None => ir_measurement r = None
  end.

Lemma measured_known f v lower ls : (lower = true → "LOWER_BOUND" ∈ ls) → (lower = false → "EXACT" ∈ ls) →
  reading_known (measured f v lower) ls.
Proof.
  intros H1 H2. unfold measured, reading_known. destruct (isfinite v) eqn:E; [|done]. cbn.
  split; [done|]. destruct lower; eexists; (split; [done|]); auto.
Qed.

(** The labels the catalog's measurement rule allows a metric. *)
Definition allowed_labels (m : MeasurementRule) : list string :=
  match m with MR_EXACT_ONLY => ["EXACT"] | MR_LOWER_BOUND_PROVES_INCREASE => ["EXACT"; "LOWER_BOUND"] end.

Lemma known_both f v lower : reading_known (measured f v lower) ["EXACT"; "LOWER_BOUND"].
Proof. apply measured_known; intros _; by apply (bool_decide_unpack _). Qed.

Lemma known_exact f v : reading_known (measured f v false) ["EXACT"].
Proof. apply measured_known; [done|]. intros _. by apply (bool_decide_unpack _). Qed.

Lemma ratio_known f n d m rem r1 r2 r3 r : ratio f n d m rem r1 r2 r3 = Ok r →
  reading_known r ["EXACT"; "LOWER_BOUND"] ∧ (bf_present f = false → ir_value r = None).
Proof.
  unfold ratio. destruct (bf_present f) eqn:Hp; cbn [negb]; intros H; [|by injection H as <-].
  split; [|done]. revert H. repeat case_match; intros HQ; try (by injection HQ as <-).
  bind_inv HQ. injection HQ as <-. apply known_both.
Qed.

Lemma labelled_known f c l m r : labelled_count f c l m = Ok r →
  reading_known r ["EXACT"; "LOWER_BOUND"] ∧ (bf_present f = false → ir_value r = None).
Proof.
  unfold labelled_count. destruct (bf_present f) eqn:Hp; cbn [negb]; intros H; [|by injection H as <-].
  split; [|done]. revert H. repeat case_match; intros HQ; try (by injection HQ as <-);
    bind_inv HQ; injection HQ as <-; apply known_both.
Qed.

Lemma phase_a_known f v : reading_known (phase_a f v) ["EXACT"] ∧ (bf_present f = false → ir_value (phase_a f v) = None).
Proof.
  unfold phase_a. destruct (bf_present f); cbn [negb]; [|by split].
  split; [|done]. repeat case_match; try done. apply known_exact.
Qed.

(** A reading is honest. Whatever the metric and the facts, the interpreter never turns
    a missing row into a count; a value it reports is finite and carries a label, a missing
    value carries none; a metric the catalog calls EXACT_ONLY is never read as a lower
    bound; and a bucket in maintenance keeps its value but is marked. *)
Theorem interpret_honest metric entry f r :
  catalog_entry metric = Ok entry → interpret metric f = Ok r →
  (bf_present f = false → ir_value r = None) ∧
  reading_known r (allowed_labels (me_measurement entry)) ∧
  ir_in_maintenance r = bf_in_maintenance f.
Proof.
  intros He Hi. unfold interpret in Hi. bind_inv Hi.
  assert (Hk : (bf_present f = false → ir_value r0 = None) ∧
    reading_known r0 (allowed_labels (me_measurement entry)) ∧ ir_in_maintenance r0 = false).
  { assert (Hm : ir_in_maintenance r0 = false).
    { clear -E. destruct metric; cbn [interpreter] in E;
        unfold event_count, average_eps, fleet, request_count, block_ratio, server_error_ratio, client_error_ratio,
          entity_events, total_events, blocked_share, ratio, labelled_count, phase_a, measured, absent, no_reading in E;
        revert E; repeat case_match; intros E; try discriminate;
        try (by injection E as <-); apply bind_ok in E as (x & _ & E); revert E; repeat case_match;
        intros E; by injection E as <-. }
    split_and!; [| |done].
    - intros Hp. destruct metric; cbn [interpreter] in E; clear He;
        first [by eapply ratio_known | by eapply labelled_known | idtac].
      + unfold event_count in E. bind_inv E. injection E as <-. by apply phase_a_known.
      + injection E as <-. by apply phase_a_known.
      + unfold fleet in E. rewrite Hp in E. by injection E as <-.
      + unfold total_events in E. rewrite Hp in E. by injection E as <-.
      + unfold blocked_share in E. rewrite Hp in E. by injection E as <-.
    - clear Hi. destruct metric; vm_compute in He; injection He as <-; cbn [allowed_labels me_measurement interpreter] in *;
        first [by eapply ratio_known | by eapply labelled_known | idtac].
      + unfold event_count in E. bind_inv E. injection E as <-. apply phase_a_known.
      + injection E as <-. apply phase_a_known.
      + unfold fleet in E. revert E. repeat case_match; intros E; try (by injection E as <-).
        bind_inv E. injection E as <-. apply known_both.
      + unfold total_events in E. revert E. repeat case_match; intros E; try (by injection E as <-).
        bind_inv E. injection E as <-. apply known_exact.
      + unfold blocked_share in E. revert E. repeat case_match; intros E; try (by injection E as <-).
        bind_inv E. injection E as <-. apply known_both. }
  destruct Hk as (H1 & H2 & H3). destruct (bf_in_maintenance f); injection Hi as <-; by split_and!.
Qed.

(** * Which buckets a rule judges

    Facts on [walk_buckets] and [collection_silence]: the walk covers every bucket that is
    due, in order, and a silence is reported only past its bound. *)


Definition earlier (a b : datetime) : Prop := dt_us a < dt_us b.

(** [p] is after the watermark and not after the latest closed bucket. *)
Definition due (watermark closed p : datetime) : Prop := dt_us watermark < dt_us p <= dt_us closed.

#[export] Instance due_dec watermark closed p : Decision (due watermark closed p).
Proof. unfold due. apply _. Defined.

Lemma aware_eq a b : aware a → aware b → dt_us a = dt_us b → a = b.
Proof. intros Ha Hb E. by rewrite (aware_utc a Ha), (aware_utc b Hb), E. Qed.

(** ** The points *)

Lemma points_in_ok w c ps : aware w → aware c → Forall aware ps →
  points_in ps w c = Ok (filter (due w c) ps).
Proof.
  intros Hw Hc Hp. unfold points_in.
  assert (∀ acc, foldM (λ acc point,
    after <- dt_lt w point ;; inside <- (if after : bool then dt_le point c else Ok false) ;;
    Ok (if inside : bool then acc ++ [point] else acc)) acc ps = Ok (acc ++ filter (due w c) ps)) as H; [|by rewrite H].
  induction Hp as [|p ps Hp _ IH]; intros acc; cbn [foldM]; [by rewrite app_nil_r|].
  rewrite (dt_lt_ok w p) by (by rewrite Hw, Hp). cbn [res_bind].
  destruct (Z.ltb_spec (dt_us w) (dt_us p)).
  - rewrite (dt_le_ok p c) by (by rewrite Hc, Hp). cbn [res_bind].
    destruct (Z.leb_spec (dt_us p) (dt_us c)); rewrite IH.
    + by rewrite filter_cons_True, <-app_assoc by (by split).
    + rewrite filter_cons_False; [done|]. intros [? ?]. lia.
  - cbn [res_bind]. rewrite IH, filter_cons_False; [done|]. intros [? ?]. lia.
Qed.

Lemma sorted_points ps : Forall aware ps → StronglySorted earlier (dt_sorted (remove_dups ps)).
Proof.
  intros Ha. assert (Htr : Transitive dt_before) by (intros a b c; unfold dt_before; lia).
  assert (Htot : Total dt_before) by (intros a b; unfold dt_before; lia).
  pose proof (StronglySorted_merge_sort dt_before (remove_dups ps)) as Hs.
  assert (Hn : NoDup (merge_sort dt_before (remove_dups ps))).
  { rewrite merge_sort_Permutation. apply NoDup_remove_dups. }
  assert (Hall : Forall aware (merge_sort dt_before (remove_dups ps))).
  { rewrite Forall_forall in *. intros x Hx. rewrite merge_sort_Permutation, elem_of_remove_dups in Hx. auto. }
  unfold dt_sorted. induction Hs as [|x l Hs IH Hx]; constructor.
  - apply NoDup_cons in Hn as [_ Hn]. apply Forall_cons in Hall as [_ Hall]. by apply IH.
  - apply NoDup_cons in Hn as [Hnx _]. apply Forall_cons in Hall as [Hax Hall].
    rewrite Forall_forall in *. intros y Hy. specialize (Hx y Hy). unfold dt_before in Hx. unfold earlier.
    destruct (decide (dt_us x = dt_us y)) as [E|]; [|lia].
    destruct Hnx. rewrite (aware_eq x y); auto.
Qed.

Lemma elem_of_sorted ps p : p ∈ dt_sorted (remove_dups ps) ↔ p ∈ ps.
Proof. unfold dt_sorted. by rewrite merge_sort_Permutation, elem_of_remove_dups. Qed.

(** ** The holes *)

Lemma hole_starts_app w i a b : hole_starts w i 1 (a + b) =
  hole_starts w i 1 a ++ hole_starts (dt_add w (td_seconds (Z.of_nat a * i))) i 1 b.
Proof.
  unfold hole_starts. rewrite seq_app, fmap_app. f_equal. rewrite (Nat.add_comm 0 a), <-fmap_add_seq, <-list_fmap_compose.
  apply list_fmap_ext. intros _ k _. cbn. unfold dt_add, td_seconds. cbn. f_equal. lia.
Qed.

Lemma hole_starts_length w i f n : length (hole_starts w i f n) = n.
Proof. unfold hole_starts. by rewrite length_fmap, length_seq. Qed.

Lemma hole_starts_take w i n m : take m (hole_starts w i 1 n) = hole_starts w i 1 (m `min` n).
Proof.
  destruct (Nat.le_gt_cases m n) as [H|H].
  - rewrite (Nat.min_l m n H). replace n with (m + (n - m))%nat at 1 by lia.
    rewrite hole_starts_app, take_app_le, take_ge; [done|..]; by rewrite hole_starts_length.
  - rewrite Nat.min_r, take_ge; [done|..]; rewrite ?hole_starts_length; lia.
Qed.

Lemma elem_of_holes w i n p : p ∈ hole_starts w i 1 n ↔
  ∃ k, (1 <= k <= n)%nat ∧ p = dt_add w (td_seconds (Z.of_nat k * i)).
Proof.
  unfold hole_starts. rewrite list_elem_of_fmap. split.
  - intros (k & -> & Hk%elem_of_seq). exists (S k). split; [lia|]. do 2 f_equal. nia.
  - intros (k & Hk & ->). exists (k - 1)%nat. rewrite elem_of_seq. split; [|lia]. do 2 f_equal. rewrite Nat2Z.inj_sub by lia. nia.
Qed.

Lemma hole_starts_sorted w i n : 0 < i → StronglySorted earlier (hole_starts w i 1 n).
Proof.
  intros Hi. induction n as [|n IH]; [constructor|].
  replace (S n) with (n + 1)%nat by lia. rewrite hole_starts_app. apply StronglySorted_app.
  split; [|split; [done|repeat constructor]].
  intros x y (k & Hk & ->)%elem_of_holes (k' & Hk' & ->)%elem_of_holes.
  unfold earlier, dt_add, td_seconds, us_per_second. cbn. nia.
Qed.

Lemma round_seconds_near t : 2 * Z.abs (round_seconds t * us_per_second - t) <= us_per_second.
Proof.
  unfold round_seconds, div_half_even, us_per_second. pose proof (Z.div_mod t 1000000). pose proof (Z.mod_pos_bound t 1000000).
  destruct (Z.compare_spec (2 * (t mod 1000000)) 1000000); [destruct (Z.even _)| |]; lia.
Qed.

Lemma round_seconds_exact n : round_seconds (n * us_per_second) = n.
Proof.
  unfold round_seconds, div_half_even. rewrite Z.mod_mul, Z.div_mul by done. done.
Qed.

(** The holes lie strictly between the cursor and the point. *)
Lemma holes_between cursor point i : 0 < i → aware cursor → aware point → earlier cursor point →
  ∃ n, holes cursor point i = Ok (hole_starts cursor i 1 n) ∧
    ∀ h, h ∈ hole_starts cursor i 1 n → aware h ∧ earlier cursor h ∧ earlier h point.
Proof.
  intros Hi Hc Hp Hlt. unfold holes. rewrite dt_sub_ok by (by rewrite Hc, Hp). cbn [res_bind].
  destruct ((i <? _) && _) eqn:E; [|exists 0%nat; split; [done|]; by intros h Hh%elem_of_nil].
  eexists. split; [done|]. intros h (k & Hk & ->)%elem_of_holes.
  apply andb_true_iff in E as [Hd%Z.ltb_lt Hm%Z.eqb_eq]. unfold earlier in *.
  pose proof (round_seconds_near (dt_us point - dt_us cursor)) as Hr.
  set (d := round_seconds _) in *. apply Z.div_exact in Hm; [|lia].
  assert (Hk2 : Z.of_nat k <= d / i - 1) by lia.
  assert (Hki : i <= Z.of_nat k * i <= d - i) by nia.
  split; [done|]. unfold dt_add, td_seconds, us_per_second in *. cbn. split; lia.
Qed.

(** A point a whole number of intervals after the cursor has every hole before it filled. *)
Lemma holes_aligned cursor point i m : 0 < i → aware cursor → aware point → (0 < m)%nat →
  dt_us point = dt_us cursor + Z.of_nat m * i * us_per_second →
  holes cursor point i = Ok (hole_starts cursor i 1 (m - 1)).
Proof.
  intros Hi Hc Hp Hm E. unfold holes. rewrite dt_sub_ok by (by rewrite Hc, Hp). cbn [res_bind].
  replace (dt_us point - dt_us cursor) with ((Z.of_nat m * i) * us_per_second) by lia.
  rewrite round_seconds_exact, Z.mod_mul, Z.div_mul by lia. rewrite andb_true_r.
  destruct (Z.ltb_spec i (Z.of_nat m * i)); [do 2 f_equal; lia|].
  assert (m = 1%nat) as -> by nia. done.
Qed.

(** ** The walk *)

(** What the loop keeps: an ordered grid of due buckets, which the points still to come
    follow. *)
Definition grid_ok (w c : datetime) (grid : list datetime) : Prop :=
  StronglySorted earlier grid ∧ Forall (λ g, aware g ∧ due w c g) grid.

Lemma sorted_take {A} (R : relation A) n l : StronglySorted R l → StronglySorted R (take n l).
Proof. intros H. rewrite <-(take_drop n l) in H. by apply StronglySorted_app in H as (_ & ? & _). Qed.

Lemma grid_ok_take w c n grid : grid_ok w c grid → grid_ok w c (take n grid).
Proof. intros [H1 H2]. split; [by apply sorted_take|by apply Forall_take]. Qed.

Lemma grid_ok_step w c grid cursor point i : 0 < i → grid_ok w c grid → aware cursor → aware point →
  dt_us w <= dt_us cursor → (∀ g, g ∈ grid → dt_us g <= dt_us cursor) → earlier cursor point → due w c point →
  ∃ n, holes cursor point i = Ok (hole_starts cursor i 1 n) ∧
    let grid' := grid ++ hole_starts cursor i 1 n ++ [point] in
    grid_ok w c grid' ∧ ∀ g, g ∈ grid' → dt_us g <= dt_us point.
Proof.
  intros Hi [Hs Hf] Hc Hp Hwc Hg Hlt Hd. destruct (holes_between cursor point i) as (n & -> & Hb); [done..|].
  exists n. split; [done|]. unfold earlier, due in *.
  assert (Hn : ∀ g, g ∈ hole_starts cursor i 1 n ++ [point] →
    aware g ∧ dt_us cursor < dt_us g ∧ dt_us g <= dt_us point).
  { intros g [H|H%list_elem_of_singleton]%elem_of_app; [|subst g; by split_and!].
    destruct (Hb g H) as (? & ? & ?). split_and!; [done|lia..]. }
  split; [split|].
  - apply StronglySorted_app. split; [intros x y Hx Hy; destruct (Hn y Hy); specialize (Hg x Hx); unfold earlier; lia|].
    split; [done|]. apply StronglySorted_app. split; [|split; [by apply hole_starts_sorted|repeat constructor]].
    intros x y Hx ->%list_elem_of_singleton. by apply Hb.
  - apply Forall_app. split; [done|]. apply Forall_forall. intros g H. destruct (Hn g H) as (? & ? & ?).
    split; [done|]. unfold due. lia.
  - intros g [H|H]%elem_of_app; [specialize (Hg g H); lia|]. by apply Hn.
Qed.

(** [p] is in the walk, or the walk is full and ends before it. *)
Definition reached (limit : Z) (g : list datetime) (p : datetime) : Prop :=
  p ∈ g ∨ (Z.of_nat (length g) = limit ∧ ∀ x, x ∈ g → earlier x p).

Lemma reached_take limit l p : 0 <= limit <= Z.of_nat (length l) → StronglySorted earlier l → p ∈ l →
  reached limit (take (Z.to_nat limit) l) p.
Proof.
  intros Hl Hs Hp. rewrite <-(take_drop (Z.to_nat limit) l) in Hp, Hs. apply StronglySorted_app in Hs as (Hlt & _).
  apply elem_of_app in Hp as [Hp|Hp]; [by left|]. right. rewrite length_take. split; [lia|]. auto.
Qed.

Lemma walk_loop_sound w c i limit points : 0 < i → 0 <= limit → StronglySorted earlier points →
  Forall (λ p, aware p ∧ due w c p) points →
  ∀ grid cursor, grid_ok w c grid → Z.of_nat (length grid) <= limit → aware cursor → dt_us w <= dt_us cursor →
  (∀ g, g ∈ grid → dt_us g <= dt_us cursor) → Forall (earlier cursor) points →
  ∃ g, walk_loop grid cursor points i limit = Ok g ∧ grid_ok w c g ∧ Z.of_nat (length g) <= limit ∧
    (∀ x, x ∈ grid → x ∈ g) ∧ ∀ p, p ∈ points → reached limit g p.
Proof.
  intros Hi Hl Hs. induction Hs as [|point points Hs IH Hlt]; intros Hp grid cursor Hok Hlen Hc Hwc Hg He; cbn [walk_loop].
  { exists grid. split_and!; try done. by intros p Hp'%elem_of_nil. }
  apply Forall_cons in Hp as [[Hap Hdp] Hp]. apply Forall_cons in He as [He _].
  destruct (grid_ok_step w c grid cursor point i) as (n & -> & Hok' & Hg'); [done..|]. cbn [res_bind].
  set (grid' := grid ++ hole_starts cursor i 1 n ++ [point]) in *.
  assert (Hpt : point ∈ grid') by (unfold grid'; set_solver). rewrite Forall_forall in Hlt.
  destruct (Z.leb_spec limit (Z.of_nat (length grid'))) as [Hfull|Hmore].
  - assert (Hin : ∀ p, p ∈ grid' → reached limit (take (Z.to_nat limit) grid') p)
      by (intros p; apply reached_take; [lia|by apply Hok']).
    eexists. split; [done|]. rewrite length_take. split; [by apply grid_ok_take|]. split; [lia|]. split.
    + intros x Hx. unfold grid'. rewrite take_app_ge by lia. set_solver.
    + intros p [->|Hin']%elem_of_cons; [by apply Hin|]. right. rewrite length_take. split; [lia|].
      intros x Hx%(subseteq_take). specialize (Hg' x Hx). specialize (Hlt p Hin'). unfold earlier in *. lia.
  - destruct (IH Hp grid' point) as (g & -> & H1 & H2 & H3 & H4); try done; [lia|unfold due in Hdp; lia|by apply Forall_forall|].
    exists g. split_and!; try done.
    + intros x Hx. apply H3. unfold grid'. set_solver.
    + intros p [->|Hin']%elem_of_cons; [|by apply H4]. left. by apply H3.
Qed.

(** The walk is sound. It always returns; its buckets are after the watermark, not after
    the latest closed bucket, in strictly increasing order and at most [limit]; and an
    observed bucket that is due is in the walk, or the walk is full and ends before it, so
    no observation is skipped: a later walk resumes from the last judged bucket. *)
Theorem walk_buckets_sound observed watermark interval limit closed :
  0 < interval → aware watermark → aware closed → Forall aware observed →
  ∃ grid, walk_buckets observed watermark interval limit closed = Ok grid ∧
    StronglySorted earlier grid ∧ Forall (due watermark closed) grid ∧
    Z.of_nat (length grid) <= Z.max 0 limit ∧
    ∀ p, p ∈ observed → due watermark closed p → 0 < limit →
      p ∈ grid ∨ (Z.of_nat (length grid) = limit ∧ ∀ x, x ∈ grid → earlier x p).
Proof.
  intros Hi Hw Hc Hobs. unfold walk_buckets. rewrite (proj2 (Z.leb_gt _ _) Hi). cbn [raise_if res_bind].
  destruct (Z.leb_spec limit 0); [exists []; split_and!; try constructor; cbn; lia|].
  rewrite points_in_ok by done. cbn [res_bind]. set (ps := filter _ observed).
  assert (Hps : ∀ p, p ∈ ps ↔ due watermark closed p ∧ p ∈ observed) by (intros p; apply list_elem_of_filter).
  rewrite Forall_forall in Hobs.
  destruct (walk_loop_sound watermark closed interval limit (dt_sorted (remove_dups ps)) Hi) with (grid := @nil datetime)
    (cursor := watermark) as (g & -> & [H1 H2] & H3 & _ & H4); try done.
  - lia.
  - apply sorted_points, Forall_forall. intros p [_ Hp]%Hps. by apply Hobs.
  - apply Forall_forall. intros p [? ?]%elem_of_sorted%Hps. auto.
  - split; [constructor|done].
  - cbn. lia.
  - by intros g Hg%elem_of_nil.
  - apply Forall_forall. intros p [[? ?] ?]%elem_of_sorted%Hps. done.
  - exists g. split_and!; try done; [by eapply Forall_impl; [exact H2|intros ? [_ ?]]|lia|].
    intros p Hp Hd _. apply H4, elem_of_sorted, Hps. done.
Qed.

(** ** A walk without gaps *)

(** [p] is a whole number of intervals after the watermark. *)
Definition aligned (w : datetime) (i : Z) (p : datetime) : Prop :=
  ∃ k : Z, dt_us p = dt_us w + k * i * us_per_second.

Lemma walk_loop_aligned w i limit points : 0 < i → aware w → 0 <= limit → StronglySorted earlier points →
  Forall (λ p, aware p ∧ aligned w i p) points →
  ∀ k, Z.of_nat k <= limit → Forall (earlier (dt_add w (td_seconds (Z.of_nat k * i)))) points →
  ∃ n, walk_loop (hole_starts w i 1 k) (dt_add w (td_seconds (Z.of_nat k * i))) points i limit =
      Ok (hole_starts w i 1 (Z.to_nat limit `min` n)) ∧
    match last points with
    | Some p => dt_us p = dt_us w + Z.of_nat n * i * us_per_second
    | None => n = k
    end.
Proof.
  intros Hi Hw Hl Hs. induction Hs as [|point points Hs IH Hlt]; intros Hp k Hk He; cbn [walk_loop].
  { exists k. split; [|done]. do 2 f_equal. lia. }
  apply Forall_cons in Hp as [[Hap [z Hz]] Hp]. apply Forall_cons in He as [He _].
  assert (Hzk : Z.of_nat k < z) by (unfold earlier, dt_add, td_seconds, us_per_second in *; cbn in He; nia).
  set (m := Z.to_nat (z - Z.of_nat k)). set (cursor := dt_add w (td_seconds (Z.of_nat k * i))) in *.
  assert (Hm : dt_us point = dt_us cursor + Z.of_nat m * i * us_per_second).
  { rewrite Hz. unfold cursor, dt_add, td_seconds, m. cbn. rewrite Z2Nat.id by lia. nia. }
  rewrite (holes_aligned cursor point i m) by (done || lia). cbn [res_bind].
  assert (Hpt : point = dt_add w (td_seconds (Z.of_nat (k + m) * i))).
  { apply aware_eq; [done..|]. rewrite Hm. unfold cursor, dt_add, td_seconds. cbn. rewrite Nat2Z.inj_add. nia. }
  assert (hole_starts w i 1 k ++ hole_starts cursor i 1 (m - 1) ++ [point] = hole_starts w i 1 (k + m)) as ->.
  { replace (k + m)%nat with (k + ((m - 1) + 1))%nat by lia. rewrite !hole_starts_app. fold cursor. do 2 f_equal.
    unfold hole_starts. cbn. f_equal. rewrite Hpt. unfold cursor, dt_add, td_seconds. cbn. f_equal.
    replace (Z.of_nat (k + m)) with (Z.of_nat k + Z.of_nat (m - 1) + 1) by lia. nia. }
  rewrite hole_starts_length. destruct (Z.leb_spec limit (Z.of_nat (k + m))) as [Hfull|Hmore].
  - exists (match last points with Some p => Z.to_nat ((dt_us p - dt_us w) / us_per_second / i) | None => (k + m)%nat end).
    assert (Hlast : ∀ p, last points = Some p → dt_us p = dt_us w + Z.of_nat (Z.to_nat ((dt_us p - dt_us w) / us_per_second / i)) * i * us_per_second
      ∧ (k + m <= Z.to_nat ((dt_us p - dt_us w) / us_per_second / i))%nat).
    { intros p Hin%last_Some_elem_of. rewrite Forall_forall in Hp, Hlt. destruct (Hp p Hin) as [_ [zp Hzp]].
      specialize (Hlt p Hin). unfold earlier in Hlt. rewrite Hzp. replace (dt_us w + _ - _) with (zp * i * us_per_second) by lia.
      rewrite !Z.div_mul by (unfold us_per_second; lia). unfold us_per_second in *. assert (Z.of_nat (k + m) < zp); nia. }
    rewrite hole_starts_take. rewrite last_cons. destruct (last points) as [p|].
    + destruct (Hlast p eq_refl) as [H1 H2]. split; [|done]. do 2 f_equal. lia.
    + split; [done|]. rewrite Hpt. unfold dt_add, td_seconds. cbn. lia.
  - destruct (IH Hp (k + m)%nat) as (n & Hn & Hlast); [lia|by rewrite <-Hpt|].
    rewrite <-Hpt in Hn. exists n. split; [done|]. rewrite last_cons. destruct (last points); [done|].
    rewrite Hlast, Hpt. unfold dt_add, td_seconds. cbn. lia.
Qed.

(** The last bucket of a sorted list is its newest. *)
Lemma last_newest l p : StronglySorted earlier l → last l = Some p → ∀ q, q ∈ l → dt_us q <= dt_us p.
Proof.
  intros Hs (l' & ->)%last_Some q Hq. apply StronglySorted_app in Hs as (Hlt & _).
  apply elem_of_app in Hq as [Hq| ->%list_elem_of_singleton]; [|done].
  specialize (Hlt q p Hq ltac:(by left)). unfold earlier in Hlt. lia.
Qed.

(** The walk has no gap. When the observed buckets lie a whole number of intervals after
    the watermark, the walk is exactly the grid: every bucket from the watermark to the
    newest observed bucket that is due, cut to [limit], the unobserved ones included. *)
Theorem walk_buckets_contiguous observed watermark interval limit closed :
  0 < interval → 0 < limit → aware watermark → aware closed →
  Forall (λ p, aware p ∧ aligned watermark interval p) observed →
  ∃ n : nat,
    walk_buckets observed watermark interval limit closed =
      Ok ((λ k, dt_add watermark (td_seconds (Z.of_nat k * interval))) <$> seq 1 (Z.to_nat limit `min` n)) ∧
    ((n = 0%nat ∧ ∀ p, p ∈ observed → ¬ due watermark closed p) ∨
     ∃ p, p ∈ observed ∧ due watermark closed p ∧
       p = dt_add watermark (td_seconds (Z.of_nat n * interval)) ∧
       ∀ q, q ∈ observed → due watermark closed q → dt_us q <= dt_us p).
Proof.
  intros Hi Hl Hw Hc Hobs. unfold walk_buckets. rewrite (proj2 (Z.leb_gt _ _) Hi). cbn [raise_if res_bind].
  rewrite (proj2 (Z.leb_gt _ _) Hl).
  assert (Ha : Forall aware observed) by (by eapply Forall_impl; [exact Hobs|intros ? [? _]]).
  rewrite points_in_ok by done. cbn [res_bind]. set (ps := filter _ observed). rewrite Forall_forall in Hobs.
  assert (Hps : ∀ p, p ∈ dt_sorted (remove_dups ps) ↔ due watermark closed p ∧ p ∈ observed)
    by (intros p; rewrite elem_of_sorted; apply list_elem_of_filter).
  assert (Hsort : StronglySorted earlier (dt_sorted (remove_dups ps))).
  { apply sorted_points, Forall_forall. intros p [_ Hp]%list_elem_of_filter. by apply Hobs. }
  destruct (walk_loop_aligned watermark interval limit (dt_sorted (remove_dups ps)) Hi Hw ltac:(lia) Hsort)
    with (k := 0%nat) as (n & Hn & Hlast); [|cbn; lia| |].
  - apply Forall_forall. intros p [_ Hp]%Hps. by apply Hobs.
  - apply Forall_forall. intros p [[? _] _]%Hps. unfold earlier, dt_add, td_seconds, us_per_second. cbn. lia.
  - exists n. split.
    + assert (dt_add watermark (td_seconds (Z.of_nat 0 * interval)) = watermark) as Hw0
        by (destruct watermark; unfold dt_add, td_seconds; cbn; f_equal; lia).
      rewrite Hw0 in Hn. etrans; [exact Hn|]. unfold hole_starts. rewrite <-fmap_S_seq, <-list_fmap_compose.
      f_equal. apply list_fmap_ext. intros _ k _. cbn. do 2 f_equal. lia.
    + destruct (last _) as [p|] eqn:E.
      * right. exists p. apply last_Some_elem_of in E as Hp. apply Hps in Hp as [Hd Hin]. split_and!; try done.
        -- apply aware_eq; [by apply Hobs|done|]. rewrite Hlast. unfold dt_add, td_seconds. cbn. lia.
        -- intros q Hq Hdq. by apply (last_newest _ _ Hsort E), Hps.
      * left. split; [done|]. intros p Hp Hd. apply last_None in E.
        apply (not_elem_of_nil p). rewrite <-E. by apply Hps.
Qed.

(** A silence is reported exactly when it is past its bound. For a watermark that is not
    after the closed bucket, the evaluator reports a stale collection when more than the
    bound (in whole seconds) separates them, and never before; the reason it gives names
    the watermark. *)
Theorem collection_silence_bound watermark closed now bound :
  aware watermark → aware closed → aware now → dt_us watermark <= dt_us closed →
  ∃ r, collection_silence watermark closed now bound = Ok r ∧
    (r ≠ None ↔ (bound + 1) * us_per_second <= dt_us closed - dt_us watermark) ∧
    ∀ reason, r = Some reason → stale_reason watermark now = Ok reason.
Proof.
  intros Hw Hc Hn Hle. unfold collection_silence. rewrite Hw, Hc, Hn. cbn [andb negb raise_if res_bind].
  rewrite dt_sub_ok by (by rewrite Hw, Hc). cbn [res_bind].
  unfold td_total_seconds, us_per_second. rewrite Z.quot_div_nonneg by lia.
  pose proof (Z.div_mod (dt_us closed - dt_us watermark) 1000000) as Hd.
  pose proof (Z.mod_pos_bound (dt_us closed - dt_us watermark) 1000000) as Hm.
  destruct (Z.leb_spec ((dt_us closed - dt_us watermark) / 1000000) bound).
  - exists None. split; [done|]. split; [|done]. split; [done|]. lia.
  - unfold stale_reason. rewrite dt_sub_ok by (by rewrite Hn, Hw). cbn [res_bind].
    eexists. split; [done|]. split; [split; [lia|done]|]. by intros reason [= <-].
Qed.

(** The latest closed bucket. For an instant after the epoch, the bucket returned is
    aligned to the interval, has ended, and is the last one that has. *)
Theorem latest_closed_bucket_exact now interval :
  aware now → 0 <= dt_us now → 0 < interval →
  ∃ b, latest_closed_bucket now interval = Ok b ∧ aware b ∧ dt_us b mod (interval * us_per_second) = 0 ∧
    dt_us b + interval * us_per_second <= dt_us now < dt_us b + 2 * interval * us_per_second.
Proof.
  intros Ha Hn Hi. unfold latest_closed_bucket. rewrite Ha, (proj2 (Z.leb_gt _ _) Hi). cbn [negb raise_if res_bind].
  eexists. split; [done|]. split; [done|]. unfold from_timestamp. cbn [dt_us].
  rewrite Z.quot_div_nonneg by (unfold us_per_second; lia). set (e := dt_us now / us_per_second).
  assert (He : e * us_per_second <= dt_us now < (e + 1) * us_per_second).
  { unfold e, us_per_second. pose proof (Z.div_mod (dt_us now) 1000000). pose proof (Z.mod_pos_bound (dt_us now) 1000000). lia. }
  split.
  - apply Z.mod_divide; [unfold us_per_second; lia|]. exists (e / interval - 1). lia.
  - pose proof (Z.div_mod e interval). pose proof (Z.mod_pos_bound e interval). unfold us_per_second in *. nia.
Qed.
