(* ===== verification/CustomRuleExamples.v ===== *)
(** * Concrete custom rules

    The theorems of the custom rules at concrete rules, readings and buckets. *)

From S2P Require Import Prelude Runs PyStr PyFloat PyTime Enums RuleCatalog CustomRules CustomRuleTheorems.

Definition ex_hour (h : Z) : datetime := utc (td_hours h).

(** Requests above 5 per bucket: two buckets open a breach, two recover it. *)
Definition ex_spec (readings : list InterpretedReading) : FoldInput :=
  {| fi_rule_id := 1; fi_rule_name := "many requests"; fi_severity := "HIGH"; fi_metric := M_REQUEST_COUNT;
     fi_operator := "GT"; fi_threshold_value := div_round 5 1; fi_sustain_buckets := 2; fi_recovery_buckets := 2;
     fi_consecutive_breaching := 0; fi_consecutive_under := 0; fi_last_evaluated := None;
     fi_previous_status := None; fi_previous_reason := None; fi_subject_kind := "WAF_ENDPOINT";
     fi_subject_label := "/login"; fi_platform_enabled := true; fi_enabled := true; fi_retired := false;
     fi_retired_reason := None; fi_family_collected := true; fi_family_reason := None; fi_breach := None;
     fi_readings := readings; fi_now := ex_hour 20; fi_collection_stale_reason := None |}.

Definition ex_reading (h v : Z) : InterpretedReading :=
  {| ir_bucket_start := ex_hour h; ir_value := Some (div_round v 1); ir_measurement := Some "EXACT";
     ir_in_maintenance := false; ir_reason := None |}.

Definition ex_readings : list InterpretedReading := [ex_reading 1 7; ex_reading 2 9; ex_reading 3 2].

Definition ex_entry : MetricCatalogEntry :=
  {| me_metric := M_REQUEST_COUNT; me_subject_kind := SK_WAF_ENDPOINT; me_unit := "requests/bucket";
     me_reads := ["waf_endpoint_metric.request_count"];
     me_measurement := MR_LOWER_BOUND_PROVES_INCREASE; me_is_ratio := false; me_bulk_loader := "WAF_ENDPOINT";
     me_note := "SUM(eventcount), never COUNT(*); a bucket whose grouping truncated or fell below the coverage floor proves 'above' only" |}.

Lemma ex_catalog : catalog_entry M_REQUEST_COUNT = Ok ex_entry.
Proof. vm_compute. reflexivity. Qed.

Definition ex_ids (n : nat) : N := N.of_nat n.

Lemma ex_aware : Forall reading_aware ex_readings.
Proof. repeat constructor. Qed.

Lemma ex_sorted : strictly_sorted ex_readings.
Proof. repeat constructor. Qed.

Lemma fold_live_iff_witness : ∃ o, fold_rule ex_ids (ex_spec ex_readings) = Ok o ∧ fo_breach o ≠ None.
Proof.
  destruct (fold_live_iff ex_ids (ex_spec []) ex_entry ex_readings) as (o & Ho & Hlive);
    [reflexivity|apply ex_catalog|done..|apply ex_aware|apply ex_sorted|].
  exists o. split; [exact Ho|]. apply Hlive. exists [], [false]. split; [vm_compute; reflexivity|].
  intros (a & b & H). apply (f_equal length) in H. rewrite !length_app, length_replicate in H.
  change (Z.to_nat (fi_recovery_buckets (ex_spec []))) with 2%nat in H. cbn in H. lia.
Defined.

Lemma fold_in_batches_witness : ∃ o o1 o2, fold_rule ex_ids (ex_spec ex_readings) = Ok o ∧
  fold_rule ex_ids (ex_spec (take 1 ex_readings)) = Ok o1 ∧
  fold_rule (λ n, ex_ids (opened (fo_events o1) + n)%nat) (resume (ex_spec []) o1 (drop 1 ex_readings)) = Ok o2 ∧
  fo_breach o = fo_breach o2 ∧ fo_events o = fo_events o1 ++ fo_events o2.
Proof.
  destruct (fold_rule ex_ids (ex_spec ex_readings)) as [o|e] eqn:E; [|vm_compute in E; discriminate].
  exists o. destruct (fold_in_batches ex_ids (ex_spec []) ex_entry (take 1 ex_readings) (drop 1 ex_readings) o)
    as (o1 & o2 & H1 & H2 & H3 & _ & _ & _ & H4 & _);
    [reflexivity|apply ex_catalog|apply ex_aware|apply ex_sorted|exact E|].
  exists o1, o2. by split_and!.
Defined.

Lemma fold_replay_noop_witness : ∃ o o', fold_rule ex_ids (ex_spec ex_readings) = Ok o ∧
  fold_rule ex_ids (resume (ex_spec []) o ex_readings) = Ok o' ∧ fo_judged o' = 0.
Proof.
  destruct (fold_rule ex_ids (ex_spec ex_readings)) as [o|e] eqn:E; [|vm_compute in E; discriminate].
  exists o. destruct (fold_replay_noop ex_ids ex_ids (ex_spec []) ex_entry ex_readings o) as (o' & H1 & H2 & _);
    [reflexivity|apply ex_catalog|apply ex_aware|apply ex_sorted|done|exact E|].
  exists o'. by split_and!.
Defined.

(** A bucket of an endpoint whose request count is known from below. *)
Definition ex_facts : BucketFacts :=
  {| bf_bucket_start := ex_hour 1; bf_present := true; bf_in_maintenance := false; bf_event_count := None;
     bf_average_eps := None; bf_completeness := None; bf_class_events := None; bf_class_seconds := None;
     bf_complete_sources := None; bf_expected_sources := None; bf_request_count := Some 12;
     bf_request_count_measurement := Some "LOWER_BOUND"; bf_blocked_count := None; bf_action_events := None;
     bf_unmapped_action_count := None; bf_action_measurement := None; bf_server_error_count := None;
     bf_client_error_count := None; bf_response_code_events := None; bf_unclassified_response_count := None;
     bf_response_code_measurement := None; bf_events := None; bf_dimension_measurement := None;
     bf_total_events := None; bf_blocked_events := None; bf_allowed_events := None; bf_unmapped_events := None |}.

Lemma interpret_honest_witness : ∃ r, interpret M_REQUEST_COUNT ex_facts = Ok r ∧ ir_in_maintenance r = false.
Proof.
  destruct (interpret M_REQUEST_COUNT ex_facts) as [r|e] eqn:E; [|vm_compute in E; discriminate].
  exists r. split; [done|]. apply (interpret_honest M_REQUEST_COUNT ex_entry ex_facts r); [apply ex_catalog|exact E].
Defined.

Definition ex_observed : list datetime := [ex_hour 4; ex_hour 2; ex_hour 9].

Lemma ex_observed_ok : Forall (λ p, aware p ∧ aligned (ex_hour 1) 3600 p) ex_observed.
Proof. repeat constructor; [exists 3|exists 1|exists 8]; reflexivity. Qed.

Lemma walk_buckets_sound_witness : ∃ grid, walk_buckets ex_observed (ex_hour 1) 3600 10 (ex_hour 5) = Ok grid ∧
  Forall (due (ex_hour 1) (ex_hour 5)) grid.
Proof.
  destruct (walk_buckets_sound ex_observed (ex_hour 1) 3600 10 (ex_hour 5)) as (g & H & _ & Hd & _);
    [done..|repeat constructor|]. by exists g.
Defined.

Lemma walk_buckets_contiguous_witness :
  walk_buckets ex_observed (ex_hour 1) 3600 10 (ex_hour 5) = Ok [ex_hour 2; ex_hour 3; ex_hour 4].
Proof.
  destruct (walk_buckets_contiguous ex_observed (ex_hour 1) 3600 10 (ex_hour 5)) as (n & H & Hn);
    [done..|apply ex_observed_ok|]. rewrite H.
  destruct Hn as [[-> Hno]|(p & Hp & Hd & -> & Hmax)].
  - destruct (Hno (ex_hour 4)); [by left|]. unfold due. vm_compute. split; done.
  - assert (n = 3%nat) as ->; [|vm_compute; reflexivity].
    specialize (Hmax (ex_hour 4) ltac:(by left) ltac:(vm_compute; split; done)).
    unfold ex_observed in Hp. rewrite !elem_of_cons, elem_of_nil in Hp.
    assert (Hu : ∀ h, dt_add (ex_hour 1) (td_seconds (Z.of_nat n * 3600)) = ex_hour h → Z.of_nat n + 1 = h)
      by (intros h Hh%(f_equal dt_us); unfold ex_hour, td_hours, td_seconds, dt_add, us_per_second in Hh; cbn in Hh; lia).
    unfold due, ex_hour, td_hours, td_seconds, dt_add, us_per_second in Hd, Hmax. cbn [dt_us utc] in Hd, Hmax.
    destruct Hp as [Hp%Hu|[Hp%Hu|[Hp%Hu|[]]]]; lia.
Defined.

Lemma collection_silence_bound_witness : ∃ r,
  collection_silence (ex_hour 1) (ex_hour 5) (ex_hour 6) 7200 = Ok r ∧ r ≠ None.
Proof.
  destruct (collection_silence_bound (ex_hour 1) (ex_hour 5) (ex_hour 6) 7200) as (r & H & Hr & _); [done..|].
  exists r. split; [done|]. apply Hr. vm_compute. done.
Defined.

Lemma latest_closed_bucket_exact_witness : ∃ b, latest_closed_bucket (ex_hour 5) 3600 = Ok b ∧ aware b.
Proof.
  destruct (latest_closed_bucket_exact (ex_hour 5) 3600) as (b & H & Hb & _); [done|vm_compute; done|done|]. by exists b.
Defined.
