(* ===== verification/AlertService.v ===== *)
(** * The alert service

    [alerts/service.py]: the alert table and the four operations on it. A row is named by
    its position in the table. [clock n] is the instant of the [n]-th reading of the
    clock. What other transactions do to the table between this session's lookup and its
    flush is an argument, [race]; a flush that would break the partial unique index on
    active alerts raises [IntegrityError], as PostgreSQL does. *)

From S2P Require Import Prelude PyStr PyFloat PyTime PyJson Enums.

Record AlertInput := {
  in_fingerprint : string; in_title : string; in_severity : Severity; in_source_type : string;
  in_source_id : option N; in_description : option string; in_evidence : option jobj;
  in_source_anomaly_ids : option (list string); in_context : option jobj }.

Record Alert := {
  al_dedup_key : string; al_fingerprint : string; al_title : string; al_description : option string;
  al_severity : Severity; al_status : AlertStatus; al_source_type : string; al_source_id : option N;
  al_context : jobj; al_opened_at : datetime; al_first_seen_at : datetime;
  al_acknowledged_at : option datetime; al_acknowledged_by : option string;
  al_resolved_at : option datetime; al_resolved_by : option string; al_resolution_reason : option string;
  al_occurrence_count : Z; al_last_seen_at : option datetime; al_evidence_snapshot : jobj;
  al_source_anomaly_ids : list string }.

Record AlertResult := AR {
  ar_alert : nat; ar_opened : bool; ar_updated : bool; ar_transition : option AlertTransition }.

Record AlertResolution := {
  rs_fingerprint : string; rs_actor : string; rs_reason : option string }.

(** The session: the rows it sees, the rows as committed when its transaction began, and the
    readings of the clock so far. *)
Record AlertSession := {
  as_rows : list Alert; as_committed : list Alert; as_ticks : nat }.

Definition with_rows (rows : list Alert) (s : AlertSession) : AlertSession :=
  {| as_rows := rows; as_committed := as_committed s; as_ticks := as_ticks s |}.

(** [x or []] and [x or {}]. *)
Definition or_nil {A} (x : option (list A)) : list A := default [] x.

(** The alert is of this condition and not resolved. *)
Definition active_for (fingerprint : string) (a : Alert) : Prop :=
  al_dedup_key a = fingerprint ∧ al_status a ≠ AL_RESOLVED.

#[export] Instance active_for_dec fingerprint a : Decision (active_for fingerprint a).
Proof. unfold active_for. apply _. Defined.

(** [_find_active]. *)
Definition find_active (rows : list Alert) (fingerprint : string) : option nat :=
  fst <$> list_find (active_for fingerprint) rows.

(** [sorted(set(a) | set(b))]. *)
Definition merge_ids (a b : list string) : list string :=
  merge_sort String.le (elements (list_to_set a ∪ list_to_set b : gset string)).

(** The fields of an alert that [open_or_update] and [apply_bulk] refresh. *)
Definition refresh_alert (now : datetime) (data : AlertInput) (a : Alert) : Alert :=
  {| al_dedup_key := al_dedup_key a; al_fingerprint := al_fingerprint a; al_title := al_title a;
     al_description := al_description a; al_severity := in_severity data; al_status := al_status a;
     al_source_type := al_source_type a; al_source_id := al_source_id a; al_context := al_context a;
     al_opened_at := al_opened_at a; al_first_seen_at := al_first_seen_at a;
     al_acknowledged_at := al_acknowledged_at a; al_acknowledged_by := al_acknowledged_by a;
     al_resolved_at := al_resolved_at a; al_resolved_by := al_resolved_by a;
     al_resolution_reason := al_resolution_reason a;
     al_occurrence_count := al_occurrence_count a + 1; al_last_seen_at := Some now;
     al_evidence_snapshot := default (al_evidence_snapshot a) (in_evidence data);
     al_source_anomaly_ids :=
       match or_nil (in_source_anomaly_ids data) with
       | [] => al_source_anomaly_ids a
       | ids => merge_ids (al_source_anomaly_ids a) ids
       end |}.

(** The refresh after a lost race: only the count and the time. *)
Definition bump_alert (now : datetime) (a : Alert) : Alert :=
  {| al_dedup_key := al_dedup_key a; al_fingerprint := al_fingerprint a; al_title := al_title a;
     al_description := al_description a; al_severity := al_severity a; al_status := al_status a;
     al_source_type := al_source_type a; al_source_id := al_source_id a; al_context := al_context a;
     al_opened_at := al_opened_at a; al_first_seen_at := al_first_seen_at a;
     al_acknowledged_at := al_acknowledged_at a; al_acknowledged_by := al_acknowledged_by a;
     al_resolved_at := al_resolved_at a; al_resolved_by := al_resolved_by a;
     al_resolution_reason := al_resolution_reason a;
     al_occurrence_count := al_occurrence_count a + 1; al_last_seen_at := Some now;
     al_evidence_snapshot := al_evidence_snapshot a; al_source_anomaly_ids := al_source_anomaly_ids a |}.

Definition new_alert (now : datetime) (data : AlertInput) : Alert :=
  {| al_dedup_key := in_fingerprint data; al_fingerprint := in_fingerprint data; al_title := in_title data;
     al_description := in_description data; al_severity := in_severity data; al_status := AL_OPEN;
     al_source_type := in_source_type data; al_source_id := in_source_id data;
     al_context := or_nil (in_context data); al_opened_at := now; al_first_seen_at := now;
     al_acknowledged_at := None; al_acknowledged_by := None; al_resolved_at := None;
     al_resolved_by := None; al_resolution_reason := None; al_occurrence_count := 1;
     al_last_seen_at := Some now; al_evidence_snapshot := or_nil (in_evidence data);
     al_source_anomaly_ids := or_nil (in_source_anomaly_ids data) |}.

(** The writes of [acknowledge] and [resolve]. *)
Definition acknowledge_alert (now : datetime) (actor : string) (a : Alert) : Alert :=
  {| al_dedup_key := al_dedup_key a; al_fingerprint := al_fingerprint a; al_title := al_title a;
     al_description := al_description a; al_severity := al_severity a; al_status := AL_ACKNOWLEDGED;
     al_source_type := al_source_type a; al_source_id := al_source_id a; al_context := al_context a;
     al_opened_at := al_opened_at a; al_first_seen_at := al_first_seen_at a;
     al_acknowledged_at := Some now; al_acknowledged_by := Some actor;
     al_resolved_at := al_resolved_at a; al_resolved_by := al_resolved_by a;
     al_resolution_reason := al_resolution_reason a; al_occurrence_count := al_occurrence_count a;
     al_last_seen_at := al_last_seen_at a; al_evidence_snapshot := al_evidence_snapshot a;
     al_source_anomaly_ids := al_source_anomaly_ids a |}.

Definition resolve_alert (now : datetime) (actor : string) (reason : option string) (a : Alert) : Alert :=
  {| al_dedup_key := al_dedup_key a; al_fingerprint := al_fingerprint a; al_title := al_title a;
     al_description := al_description a; al_severity := al_severity a; al_status := AL_RESOLVED;
     al_source_type := al_source_type a; al_source_id := al_source_id a; al_context := al_context a;
     al_opened_at := al_opened_at a; al_first_seen_at := al_first_seen_at a;
     al_acknowledged_at := al_acknowledged_at a; al_acknowledged_by := al_acknowledged_by a;
     al_resolved_at := Some now; al_resolved_by := Some actor; al_resolution_reason := reason;
     al_occurrence_count := al_occurrence_count a; al_last_seen_at := al_last_seen_at a;
     al_evidence_snapshot := al_evidence_snapshot a; al_source_anomaly_ids := al_source_anomaly_ids a |}.

Section AlertService.
Context (clock : nat → datetime).

(** A reading of the clock. *)
Definition now_of (s : AlertSession) : datetime := clock (as_ticks s).
Definition ticked (s : AlertSession) : AlertSession :=
  {| as_rows := as_rows s; as_committed := as_committed s; as_ticks := S (as_ticks s) |}.

(** Writes to one row. *)
Definition write (i : nat) (f : Alert → Alert) (s : AlertSession) : AlertSession :=
  with_rows (alter f i (as_rows s)) s.

(** [session.add(alert)] and the flush: the new row's name, unless the index refuses it. *)
Definition flush_new (a : Alert) (s : AlertSession) : option (nat * AlertSession) :=
  match find_active (as_rows s) (al_dedup_key a) with
  | Some _ => None
  | None => Some (length (as_rows s), with_rows (as_rows s ++ [a]) s)
  end.

(** Other transactions commit. *)
Definition raced (race : list Alert → list Alert) (s : AlertSession) : AlertSession :=
  {| as_rows := race (as_rows s); as_committed := race (as_committed s); as_ticks := as_ticks s |}.

(** [session.rollback()]. *)
Definition rolled_back (s : AlertSession) : AlertSession := with_rows (as_committed s) s.

Definition integrity_error : exn :=
  IntegrityError "duplicate key value violates unique constraint uq_alert_active_dedup".

Definition open_or_update (race : list Alert → list Alert) (data : AlertInput) (s : AlertSession)
    : result (AlertResult * AlertSession) :=
  let now := now_of s in
  let s := ticked s in
  match find_active (as_rows s) (in_fingerprint data) with
  | Some existing => Ok (AR existing false true None, write existing (refresh_alert now data) s)
  | None =>
      let s := raced race s in
      match flush_new (new_alert now data) s with
      | Some (alert, s) => Ok (AR alert true false (Some TR_OPENED), s)
      | None =>
          let s := rolled_back s in
          match find_active (as_rows s) (in_fingerprint data) with
          | None => Err integrity_error
          | Some existing =>
              Ok (AR existing false true None, write existing (bump_alert (now_of s)) (ticked s))
          end
      end
  end.

Definition acknowledge (alert_id : nat) (actor : string) (s : AlertSession)
    : result (AlertResult * AlertSession) :=
  match as_rows s !! alert_id with
  | None => Err (ValueError "alert not found")
  | Some alert =>
      if negb (bool_decide (al_status alert = AL_OPEN)) then Ok (AR alert_id false false None, s)
      else Ok (AR alert_id false true (Some TR_ACKNOWLEDGED),
               write alert_id (acknowledge_alert (now_of s) actor) (ticked s))
  end.

Definition resolve (alert_id : nat) (actor : string) (reason : option string) (s : AlertSession)
    : result (AlertResult * AlertSession) :=
  match as_rows s !! alert_id with
  | None => Err (ValueError "alert not found")
  | Some alert =>
      if bool_decide (al_status alert = AL_RESOLVED) then Ok (AR alert_id false false None, s)
      else Ok (AR alert_id false true (Some TR_RESOLVED),
               write alert_id (resolve_alert (now_of s) actor reason) (ticked s))
  end.

Definition resolve_by_fingerprint (fingerprint actor : string) (reason : option string) (s : AlertSession)
    : result (option AlertResult * AlertSession) :=
  match find_active (as_rows s) fingerprint with
  | None => Ok (None, s)
  | Some alert => r <- resolve alert actor reason s ;; Ok (Some r.1, r.2)
  end.

(** ** [apply_bulk] *)

(** [{row.dedup_key: row for row in rows}] of the active rows asked for. *)
Definition active_rows (rows : list Alert) (fingerprints : gset string) : gmap string nat :=
  foldl (λ active '(i, a),
    if decide (al_dedup_key a ∈ fingerprints ∧ al_status a ≠ AL_RESOLVED)
    then <[al_dedup_key a := i]> active else active) ∅ (imap pair rows).

Record Bulk := {
  bk_session : AlertSession; bk_active : gmap string nat; bk_results : gmap nat AlertResult }.

(** One input of pass A: an alert that was open in the snapshot is refreshed. *)
Definition bulk_refresh (b : Bulk) (item : nat * AlertInput) : Bulk :=
  let '(index, data) := item in
  match bk_active b !! in_fingerprint data with
  | None => b
  | Some existing =>
      let s := bk_session b in
      {| bk_session := write existing (refresh_alert (now_of s) data) (ticked s);
         bk_active := bk_active b;
         bk_results := <[index := AR existing false true None]> (bk_results b) |}
  end.

(** One input of pass B. The insert has a savepoint of its own. *)
Definition bulk_open (race : nat → list Alert → list Alert) (b : Bulk) (item : nat * AlertInput)
    : result Bulk :=
  let '(index, data) := item in
  if decide (is_Some (bk_results b !! index)) then Ok b
  else
    let s := bk_session b in
    let now := now_of s in
    let s := ticked s in
    match bk_active b !! in_fingerprint data with
    | Some existing =>
        Ok {| bk_session := write existing (refresh_alert now data) s; bk_active := bk_active b;
              bk_results := <[index := AR existing false true None]> (bk_results b) |}
    | None =>
        let s := raced (race index) s in
        match flush_new (new_alert now data) s with
        | Some (alert, s) =>
            Ok {| bk_session := s; bk_active := <[in_fingerprint data := alert]> (bk_active b);
                  bk_results := <[index := AR alert true false (Some TR_OPENED)]> (bk_results b) |}
        | None =>
            match find_active (as_rows s) (in_fingerprint data) with
            | None => Err integrity_error
            | Some existing =>
                Ok {| bk_session := write existing (bump_alert (now_of s)) (ticked s);
                      bk_active := <[in_fingerprint data := existing]> (bk_active b);
                      bk_results := <[index := AR existing false true None]> (bk_results b) |}
            end
        end
    end.

(** One resolution. *)
Definition bulk_resolve (acc : AlertSession * gmap string nat * list (option AlertResult))
    (item : AlertResolution) : AlertSession * gmap string nat * list (option AlertResult) :=
  let '(s, active, resolved) := acc in
  match active !! rs_fingerprint item with
  | None => (s, active, resolved ++ [None])
  | Some resolving =>
      (write resolving (resolve_alert (now_of s) (rs_actor item) (rs_reason item)) (ticked s),
       delete (rs_fingerprint item) active,
       resolved ++ [Some (AR resolving false true (Some TR_RESOLVED))])
  end.

(** [results[index]]. *)
Definition result_at (results : gmap nat AlertResult) (index : nat) : result AlertResult :=
  match results !! index with
  | Some r => Ok r
  | None => Err (KeyError (pretty index))
  end.

Definition apply_bulk (race : nat → list Alert → list Alert) (open_or_updates : list AlertInput)
    (resolutions : list AlertResolution) (s : AlertSession)
    : result (list AlertResult * list (option AlertResult) * AlertSession) :=
  let fingerprints : gset string :=
    list_to_set (in_fingerprint <$> open_or_updates) ∪ list_to_set (rs_fingerprint <$> resolutions) in
  let items := imap pair open_or_updates in
  let b := foldl bulk_refresh
    {| bk_session := s; bk_active := active_rows (as_rows s) fingerprints; bk_results := ∅ |} items in
  b <- foldM (bulk_open race) b items ;;
  opened <- mapM_result (result_at (bk_results b)) (seq 0 (length open_or_updates)) ;;
  let '(s, _, resolved) := foldl bulk_resolve (bk_session b, bk_active b, []) resolutions in
  Ok (opened, resolved, s).
End AlertService.
