(* ===== verification/AlertFacts.v ===== *)
(** * Facts on the alert service

    The partial unique index is an invariant of every operation, a lookup is exact under it,
    and [apply_bulk] is the operations one after the other. *)

From S2P Require Import Prelude PyStr PyFloat PyTime PyJson Enums AlertService.

Definition live (a : Alert) : Prop := al_status a ≠ AL_RESOLVED.

#[export] Instance live_dec a : Decision (live a).
Proof. unfold live. apply _. Defined.

(** The partial unique index [uq_alert_active_dedup]. *)
Definition index_ok (rows : list Alert) : Prop :=
  ∀ i j a b, rows !! i = Some a → rows !! j = Some b → live a → live b → al_dedup_key a = al_dedup_key b → i = j.

(** ** Lookups *)

Lemma find_active_Some rows fp i : find_active rows fp = Some i → ∃ a, rows !! i = Some a ∧ active_for fp a.
Proof.
  unfold find_active. intros ([j a] & H & E)%fmap_Some. cbn in E. subst j.
  apply list_find_Some in H as (H1 & H2 & _). by exists a.
Qed.

Lemma find_active_None rows fp : find_active rows fp = None ↔ ∀ i a, rows !! i = Some a → ¬ active_for fp a.
Proof.
  unfold find_active. rewrite fmap_None, list_find_None, Forall_lookup. done.
Qed.

(** Under the index the lookup finds the active row whichever it is. *)
Lemma find_active_is rows fp i a : index_ok rows → rows !! i = Some a → active_for fp a → find_active rows fp = Some i.
Proof.
  intros Hix Hi [Hk Hl]. destruct (find_active rows fp) as [j|] eqn:E.
  - apply find_active_Some in E as (b & Hj & Hkb & Hlb). f_equal. apply (Hix j i b a); [done..|]. by rewrite Hk.
  - rewrite find_active_None in E. by destruct (E i a Hi).
Qed.

Lemma find_active_alter f i rows fp : (∀ a, rows !! i = Some a → active_for fp (f a) ↔ active_for fp a) →
  find_active (alter f i rows) fp = find_active rows fp.
Proof.
  unfold find_active. revert i. induction rows as [|a rows IH]; intros i Hf; [done|]. destruct i as [|i].
  - cbn. specialize (Hf a eq_refl). rewrite (decide_ext _ _ _ _ Hf). by destruct (decide _).
  - cbn. specialize (IH i Hf). destruct (decide _); [done|].
    change (list_alter f i rows) with (alter f i rows).
    destruct (list_find _ (alter f i rows)) as [[]|], (list_find _ rows) as [[]|]; cbn in *; congruence.
Qed.

Lemma find_active_snoc rows a fp : find_active (rows ++ [a]) fp =
  match find_active rows fp with
  | Some i => Some i
  | None => if decide (active_for fp a) then Some (length rows) else None
  end.
Proof.
  unfold find_active. induction rows as [|b rows IH]; cbn; [by destruct (decide _)|].
  destruct (decide (active_for fp b)); [done|].
  destruct (list_find _ (rows ++ [a])) as [[]|], (list_find _ rows) as [[]|]; cbn in *; try congruence;
    destruct (decide _); congruence.
Qed.

(** ** The index is kept *)

Lemma index_alter f i rows : (∀ a, al_dedup_key (f a) = al_dedup_key a ∧ (live (f a) → live a)) →
  index_ok rows → index_ok (alter f i rows).
Proof.
  intros Hf Hix j k a b Hj Hk La Lb E. rewrite !list_lookup_alter in Hj, Hk.
  assert (Hget : ∀ l x, (if decide (i = l) then f <$> rows !! i else rows !! l) = Some x → live x →
    ∃ y, rows !! l = Some y ∧ live y ∧ al_dedup_key y = al_dedup_key x).
  { intros l x H Lx. destruct (decide (i = l)) as [->|]; [|by exists x].
    apply fmap_Some in H as (y & Hy & ->). destruct (Hf y) as [H1 H2]. exists y. by rewrite H1; auto. }
  destruct (Hget j a Hj La) as (a' & ? & ? & ?), (Hget k b Hk Lb) as (b' & ? & ? & ?).
  apply (Hix j k a' b'); congruence.
Qed.

Lemma index_snoc rows a : find_active rows (al_dedup_key a) = None → index_ok rows → index_ok (rows ++ [a]).
Proof.
  intros Hn Hix. rewrite find_active_None in Hn.
  assert (Hnew : ∀ i b, rows !! i = Some b → live b → al_dedup_key b ≠ al_dedup_key a).
  { intros i b Hi Lb E. by apply (Hn i b Hi). }
  intros i j x y Hi Hj Lx Ly E.
  apply lookup_app_Some in Hi as [Hi|[Hi1 Hi]]; apply lookup_app_Some in Hj as [Hj|[Hj1 Hj]].
  - by apply (Hix i j x y).
  - apply list_lookup_singleton_Some in Hj as [_ <-]. by destruct (Hnew i x Hi Lx).
  - apply list_lookup_singleton_Some in Hi as [_ <-]. by destruct (Hnew j y Hj Ly).
  - apply list_lookup_singleton_Some in Hi as [? _], Hj as [? _]. lia.
Qed.

Lemma refresh_keeps now data a : al_dedup_key (refresh_alert now data a) = al_dedup_key a ∧
  (live (refresh_alert now data a) → live a).
Proof. done. Qed.

(** The session keeps the index, before and after a rollback. *)
Definition session_ok (s : AlertSession) : Prop := index_ok (as_rows s) ∧ index_ok (as_committed s).

Definition race_ok (race : list Alert → list Alert) : Prop := ∀ rows, index_ok rows → index_ok (race rows).

Section Ops.
Context (clock : nat → datetime).

Lemma write_ok i f s : (∀ a, al_dedup_key (f a) = al_dedup_key a ∧ (live (f a) → live a)) →
  session_ok s → session_ok (write i f s).
Proof. intros Hf [H1 H2]. split; [by apply index_alter|done]. Qed.

Lemma flush_new_ok a s i s' : flush_new a s = Some (i, s') → session_ok s → session_ok s'.
Proof.
  unfold flush_new. destruct (find_active _ _) eqn:E; [done|]. intros [= <- <-] [H1 H2].
  split; [by apply index_snoc|done].
Qed.

Lemma open_or_update_ok race data s r s' : race_ok race → session_ok s →
  open_or_update clock race data s = Ok (r, s') → session_ok s'.
Proof.
  intros Hr Hs. unfold open_or_update. destruct (find_active _ _).
  - intros [= <- <-]. by apply write_ok.
  - assert (Hs' : session_ok (raced race (ticked s))) by (destruct Hs; split; apply Hr; done).
    destruct (flush_new _ _) as [[i s1]|] eqn:E.
    + intros [= <- <-]. by eapply flush_new_ok.
    + destruct (find_active _ _); [|discriminate]. intros [= <- <-]. apply write_ok; [done|].
      by destruct Hs'.
Qed.

Lemma acknowledge_ok i actor s r s' : session_ok s → acknowledge clock i actor s = Ok (r, s') → session_ok s'.
Proof.
  intros Hs. unfold acknowledge. destruct (as_rows s !! i) as [a|] eqn:Ea; [|discriminate].
  destruct (bool_decide _) eqn:Eb; intros [= <- <-]; [|done]. apply bool_decide_eq_true in Eb.
  destruct Hs as [Hs1 Hs2]. split; [|done]. cbn. unfold ticked. cbn.
  replace (alter _ i (as_rows s)) with (alter (λ b, if decide (live b) then acknowledge_alert (now_of clock s) actor b else b) i (as_rows s)).
  - apply index_alter; [|done]. intros b. destruct (decide (live b)); done.
  - apply list_alter_ext; [|done]. intros b Hb. rewrite Ea in Hb. injection Hb as <-.
    rewrite decide_True; [done|]. unfold live. by rewrite Eb.
Qed.

Lemma resolve_ok i actor reason s r s' : session_ok s → resolve clock i actor reason s = Ok (r, s') → session_ok s'.
Proof.
  intros Hs. unfold resolve. destruct (as_rows s !! i) as [a|] eqn:Ea; [|discriminate].
  destruct (bool_decide _) eqn:Eb; intros [= <- <-]; [done|]. apply write_ok; [|done].
  intros b. split; [done|]. by intros H.
Qed.

Lemma resolve_by_fingerprint_ok fp actor reason s r s' : session_ok s →
  resolve_by_fingerprint clock fp actor reason s = Ok (r, s') → session_ok s'.
Proof.
  intros Hs. unfold resolve_by_fingerprint. destruct (find_active _ _); [|by intros [= <- <-]].
  intros H. bind_inv H. destruct r0 as [r0 s0]. injection H as <- <-. by eapply resolve_ok.
Qed.
End Ops.

(** ** The snapshot of a bulk call *)

(** The map agrees with the lookup on these fingerprints. *)
Definition tracks (active : gmap string nat) (rows : list Alert) (fps : gset string) : Prop :=
  ∀ fp, fp ∈ fps → active !! fp = find_active rows fp.

Lemma active_rows_snoc rows a fps : active_rows (rows ++ [a]) fps =
  (if decide (al_dedup_key a ∈ fps ∧ al_status a ≠ AL_RESOLVED)
   then <[al_dedup_key a := length rows]> (active_rows rows fps) else active_rows rows fps).
Proof.
  unfold active_rows. rewrite imap_app, foldl_app. cbn. by rewrite Nat.add_0_r.
Qed.

Lemma active_rows_tracks rows fps : index_ok rows → tracks (active_rows rows fps) rows fps.
Proof.
  induction rows as [|a rows IH] using rev_ind; intros Hix fp Hfp; [done|].
  rewrite active_rows_snoc, find_active_snoc.
  assert (Hpre : index_ok rows).
  { intros i j x y Hi Hj. apply (Hix i j x y); by apply lookup_app_l_Some. }
  rewrite <-(IH Hpre fp Hfp).
  destruct (decide (active_for fp a)) as [[Hk Hl]|Hn].
  - assert (active_rows rows fps !! fp = None) as Hnone.
    { rewrite (IH Hpre fp Hfp), find_active_None. intros i b Hi [Hkb Hlb].
      assert (i = length rows) as ->; [|apply lookup_lt_Some in Hi; lia].
      apply (Hix i (length rows) b a); [by apply lookup_app_l_Some| |done|done|congruence].
      by rewrite lookup_app_r, Nat.sub_diag. }
    rewrite Hnone, decide_True by (by rewrite Hk). rewrite <-Hk. by rewrite lookup_insert_eq.
  - destruct (decide _) as [[Hin Hl]|]; [|by destruct (active_rows rows fps !! fp)].
    rewrite lookup_insert_ne; [by destruct (active_rows rows fps !! fp)|]. intros E. by apply Hn.
Qed.

(** ** [apply_bulk] is the operations in order *)

Section Bulk.
Context (clock : nat → datetime) (now : datetime) (Hclock : ∀ n, clock n = now).

Definition alone : list Alert → list Alert := λ rows, rows.

(** The operations of a bulk call, one after the other. *)
Fixpoint open_all (datas : list AlertInput) (s : AlertSession) : result (list AlertResult * AlertSession) :=
  match datas with
  | [] => Ok ([], s)
  | data :: datas =>
      r <- open_or_update clock alone data s ;;
      rs <- open_all datas r.2 ;;
      Ok (r.1 :: rs.1, rs.2)
  end.

Fixpoint resolve_all (items : list AlertResolution) (s : AlertSession)
    : result (list (option AlertResult) * AlertSession) :=
  match items with
  | [] => Ok ([], s)
  | item :: items =>
      r <- resolve_by_fingerprint clock (rs_fingerprint item) (rs_actor item) (rs_reason item) s ;;
      rs <- resolve_all items r.2 ;;
      Ok (r.1 :: rs.1, rs.2)
  end.

(** What one input does, when nothing else runs. *)
Definition opened_row (data : AlertInput) (s : AlertSession) : AlertSession :=
  {| as_rows := as_rows s ++ [new_alert now data]; as_committed := as_committed s; as_ticks := S (as_ticks s) |}.
Definition refreshed_row (i : nat) (data : AlertInput) (s : AlertSession) : AlertSession :=
  write i (refresh_alert now data) (ticked s).

Lemma open_or_update_alone data s : open_or_update clock alone data s =
  match find_active (as_rows s) (in_fingerprint data) with
  | Some i => Ok (AR i false true None, refreshed_row i data s)
  | None => Ok (AR (length (as_rows s)) true false (Some TR_OPENED), opened_row data s)
  end.
Proof.
  unfold open_or_update, now_of. rewrite Hclock. cbn [ticked as_rows].
  destruct (find_active (as_rows s) (in_fingerprint data)) eqn:E; [done|].
  unfold flush_new. cbn [raced alone as_rows new_alert al_dedup_key ticked]. unfold alone. by rewrite E.
Qed.

(** The session part of pass A, for a fixed snapshot. *)
Definition refresh_old (old : gmap string nat) (s : AlertSession) (data : AlertInput) : AlertSession :=
  match old !! in_fingerprint data with Some i => refreshed_row i data s | None => s end.

Lemma refresh_old_open old data x s : (∀ fp i, old !! fp = Some i → (i < length (as_rows s))%nat) →
  refresh_old old (opened_row x s) data = opened_row x (refresh_old old s data).
Proof.
  intros Hold. unfold refresh_old. destruct (old !! in_fingerprint data) as [i|] eqn:E; [|done].
  apply Hold in E. unfold refreshed_row, opened_row, write, with_rows, ticked. cbn. by rewrite alter_app_l.
Qed.

Lemma alter_commute_ne {A} (f g : A → A) (l : list A) i j : i ≠ j →
  alter f i (alter g j l) = alter g j (alter f i l).
Proof.
  intros Hne. apply list_eq. intros k. rewrite !list_lookup_alter.
  destruct (decide (i = k)), (decide (j = k)); rewrite ?list_lookup_alter; subst; try done.
  - by rewrite decide_False.
  - by rewrite decide_False.
Qed.

Lemma refresh_old_refresh old data x i s : (∀ fp, old !! fp ≠ Some i) →
  refresh_old old (refreshed_row i x s) data = refreshed_row i x (refresh_old old s data).
Proof.
  intros Hold. unfold refresh_old. destruct (old !! in_fingerprint data) as [j|] eqn:E; [|done].
  unfold refreshed_row, write, with_rows, ticked. cbn. f_equal. apply alter_commute_ne. congruence.
Qed.

Lemma fold_refresh_open old datas x s : (∀ fp i, old !! fp = Some i → (i < length (as_rows s))%nat) →
  foldl (refresh_old old) (opened_row x s) datas = opened_row x (foldl (refresh_old old) s datas).
Proof.
  revert s. induction datas as [|data datas IH]; intros s Hold; [done|]. cbn.
  rewrite refresh_old_open by done. apply IH. intros fp i H. unfold refresh_old.
  destruct (old !! in_fingerprint data); [|by eapply Hold]. cbn. rewrite length_alter. by eapply Hold.
Qed.

Lemma fold_refresh_refresh old datas x i s : (∀ fp, old !! fp ≠ Some i) →
  foldl (refresh_old old) (refreshed_row i x s) datas = refreshed_row i x (foldl (refresh_old old) s datas).
Proof.
  intros Hold. revert s. induction datas as [|data datas IH]; intros s; [done|]. cbn.
  rewrite refresh_old_refresh by done. apply IH.
Qed.

Lemma fold_refresh_lookups old datas s fp :
  find_active (as_rows (foldl (refresh_old old) s datas)) fp = find_active (as_rows s) fp ∧
  length (as_rows (foldl (refresh_old old) s datas)) = length (as_rows s).
Proof.
  revert s. induction datas as [|data datas IH]; intros s; [done|]. cbn.
  destruct (IH (refresh_old old s data)) as [-> ->]. unfold refresh_old.
  destruct (old !! in_fingerprint data); [|done]. cbn. rewrite length_alter. split; [|done].
  by apply find_active_alter.
Qed.

(** ** Pass A and pass B *)

Fixpoint items (n : nat) (datas : list AlertInput) : list (nat * AlertInput) :=
  match datas with [] => [] | data :: datas => (n, data) :: items (S n) datas end.

Lemma items_imap n datas : imap (λ i data, ((n + i)%nat, data)) datas = items n datas.
Proof.
  revert n. induction datas as [|data datas IH]; intros n; [done|]. cbn. rewrite Nat.add_0_r. f_equal.
  rewrite <-IH. apply imap_ext. intros i x _. cbn. f_equal. lia.
Qed.

(** The verdict of pass A on one input. *)
Definition old_result (old : gmap string nat) (data : AlertInput) : option AlertResult :=
  (λ i, AR i false true None) <$> old !! in_fingerprint data.

Lemma pass_a old datas n s R : ∃ R',
  foldl (bulk_refresh clock) {| bk_session := s; bk_active := old; bk_results := R |} (items n datas) =
    {| bk_session := foldl (refresh_old old) s datas; bk_active := old; bk_results := R' |} ∧
  (∀ j data, datas !! j = Some data → R !! (n + j)%nat = None → R' !! (n + j)%nat = old_result old data) ∧
  ∀ k, (k < n)%nat → R' !! k = R !! k.
Proof.
  revert n s R. induction datas as [|data datas IH]; intros n s R; [by exists R|].
  cbn [items foldl]. unfold bulk_refresh at 2. unfold refresh_old at 2. cbn [bk_active bk_session bk_results].
  destruct (old !! in_fingerprint data) as [i|] eqn:E.
  - unfold now_of. rewrite Hclock.
    destruct (IH (S n) (refreshed_row i data s) (<[n:=AR i false true None]> R)) as (R' & H1 & H2 & H3).
    exists R'. split; [exact H1|]. split.
    + intros [|j] data' Hj HR; cbn in Hj.
      * injection Hj as <-. rewrite Nat.add_0_r, H3, lookup_insert_eq by lia. unfold old_result. by rewrite E.
      * rewrite Nat.add_succ_r in *. apply (H2 j); [done|]. by rewrite lookup_insert_ne by lia.
    + intros k Hk. rewrite H3, lookup_insert_ne by lia. done.
  - destruct (IH (S n) s R) as (R' & H1 & H2 & H3). exists R'. split; [exact H1|]. split.
    + intros [|j] data' Hj HR; cbn in Hj.
      * injection Hj as <-. rewrite Nat.add_0_r in *. rewrite H3 by lia. unfold old_result. by rewrite E.
      * rewrite Nat.add_succ_r in *. by apply (H2 j).
    + intros k Hk. apply H3. lia.
Qed.

(** What pass B keeps: the current map tracks the table and extends the snapshot, whose
    rows are the ones of the table before the call. *)
Record pass_b_inv (fps : gset string) (old cur : gmap string nat) (s : AlertSession) : Prop := {
  pb_tracks : tracks cur (as_rows s) fps;
  pb_extends : ∀ fp i, old !! fp = Some i → cur !! fp = Some i;
  pb_bound : ∀ fp i, old !! fp = Some i → (i < length (as_rows s))%nat;
  pb_apart : ∀ fp i, fp ∈ fps → old !! fp = None → cur !! fp = Some i → ∀ fp', old !! fp' ≠ Some i }.

Lemma pass_b_refreshed fps old cur s i data : pass_b_inv fps old cur s → pass_b_inv fps old cur (refreshed_row i data s).
Proof.
  intros [H1 H2 H3 H4]. split; [|done| |done]; cbn.
  - intros fp Hfp. rewrite find_active_alter by done. by apply H1.
  - intros fp j Hj. rewrite length_alter. by eapply H3.
Qed.

Lemma pass_b_opened fps old cur s data : pass_b_inv fps old cur s → cur !! in_fingerprint data = None →
  in_fingerprint data ∈ fps →
  pass_b_inv fps old (<[in_fingerprint data := length (as_rows s)]> cur) (opened_row data s).
Proof.
  intros [H1 H2 H3 H4] Hn Hin. split; cbn.
  - intros fp Hfp. rewrite find_active_snoc. destruct (decide (fp = in_fingerprint data)) as [->|Hne].
    + rewrite lookup_insert_eq, <-(H1 _ Hin), Hn. by rewrite decide_True.
    + rewrite lookup_insert_ne, <-(H1 _ Hfp) by done. destruct (cur !! fp); [done|].
      rewrite decide_False; [done|]. intros [Hk _]. by apply Hne.
  - intros fp i Hi. rewrite lookup_insert_ne; [by apply H2|]. intros <-. apply H2 in Hi. congruence.
  - intros fp i Hi. rewrite length_app. apply H3 in Hi. cbn. lia.
  - intros fp i Hfp Hold Hcur fp' Hfp'. destruct (decide (fp = in_fingerprint data)) as [->|Hne].
    + rewrite lookup_insert_eq in Hcur. injection Hcur as <-. apply H3 in Hfp'. lia.
    + rewrite lookup_insert_ne in Hcur by done. by eapply H4.
Qed.

Lemma pass_b fps old datas : (∀ data, data ∈ datas → in_fingerprint data ∈ fps) →
  ∀ n s cur R, pass_b_inv fps old cur s →
  (∀ j data, datas !! j = Some data → R !! (n + j)%nat = old_result old data) →
  ∃ results s' cur' R', open_all datas s = Ok (results, s') ∧
    foldM (bulk_open clock (λ _, alone))
      {| bk_session := foldl (refresh_old old) s datas; bk_active := cur; bk_results := R |} (items n datas) =
      Ok {| bk_session := s'; bk_active := cur'; bk_results := R' |} ∧
    tracks cur' (as_rows s') fps ∧ length results = length datas ∧
    (∀ j r, results !! j = Some r → R' !! (n + j)%nat = Some r) ∧ ∀ k, (k < n)%nat → R' !! k = R !! k.
Proof.
  intros Hin n. revert n. induction datas as [|data datas IH]; intros n s cur R Hinv HR.
  { exists [], s, cur, R. split_and!; try done. by apply Hinv. }
  assert (Hfp : in_fingerprint data ∈ fps) by (apply Hin; left).
  assert (Hin' : ∀ x, x ∈ datas → in_fingerprint x ∈ fps) by (intros x Hx; apply Hin; by right).
  pose proof (HR 0%nat data eq_refl) as HR0. rewrite Nat.add_0_r in HR0.
  assert (HRS : ∀ j x, datas !! j = Some x → R !! (S n + j)%nat = old_result old x)
    by (intros j x Hj; rewrite <-(HR (S j) x Hj); f_equal; lia).
  cbn [open_all items foldM foldl]. rewrite open_or_update_alone, <-(pb_tracks _ _ _ _ Hinv _ Hfp).
  unfold old_result in HR0. unfold refresh_old at 2.
  destruct (old !! in_fingerprint data) as [i|] eqn:Eold; cbn [fmap option_fmap option_map] in HR0.
  - rewrite (pb_extends _ _ _ _ Hinv _ _ Eold). cbn [res_bind fst snd].
    unfold bulk_open at 1. cbn [bk_results]. rewrite decide_True by (by rewrite HR0). cbn [res_bind].
    destruct (IH Hin' (S n) (refreshed_row i data s) cur R) as (rs & s' & cur' & R' & -> & H2 & H3 & H4 & H5 & H6);
      [by apply pass_b_refreshed|done|].
    exists (AR i false true None :: rs), s', cur', R'. split_and!; [done|exact H2|done|by cbn; rewrite H4| |].
    + intros [|j] r Hj; cbn in Hj; [|rewrite Nat.add_succ_r; by apply (H5 j)].
      injection Hj as <-. by rewrite Nat.add_0_r, H6, HR0 by lia.
    + intros k Hk. apply H6. lia.
  - unfold bulk_open at 1. cbn [bk_results bk_session bk_active]. rewrite decide_False by (rewrite HR0; by intros []).
    unfold now_of. rewrite Hclock. destruct (fold_refresh_lookups old datas s (in_fingerprint data)) as [Hfind Hlen].
    assert (HRi : ∀ r j x, datas !! j = Some x → <[n:=r]> R !! (S n + j)%nat = old_result old x)
      by (intros r j x Hj; rewrite lookup_insert_ne by lia; by apply HRS).
    assert (Hout : ∀ r (rs : list AlertResult) (R' : gmap nat AlertResult), (∀ j x, rs !! j = Some x → R' !! (S n + j)%nat = Some x) →
      (∀ k, (k < S n)%nat → R' !! k = <[n:=r]> R !! k) →
      (∀ j x, (r :: rs) !! j = Some x → R' !! (n + j)%nat = Some x) ∧ ∀ k, (k < n)%nat → R' !! k = R !! k).
    { intros r rs R' H5 H6. split.
      - intros [|j] x Hj; cbn in Hj; [|rewrite Nat.add_succ_r; by apply (H5 j)].
        injection Hj as <-. by rewrite Nat.add_0_r, H6, lookup_insert_eq by lia.
      - intros k Hk. rewrite H6, lookup_insert_ne by lia. done. }
    destruct (cur !! in_fingerprint data) as [i|] eqn:Ecur; cbn [res_bind fst snd].
    + pose proof (pb_apart _ _ _ _ Hinv _ _ Hfp Eold Ecur) as Hap.
      change (write i (refresh_alert now data) (ticked (foldl (refresh_old old) s datas)))
        with (refreshed_row i data (foldl (refresh_old old) s datas)).
      rewrite <-fold_refresh_refresh by done.
      destruct (IH Hin' (S n) (refreshed_row i data s) cur (<[n:=AR i false true None]> R))
        as (rs & s' & cur' & R' & -> & H2 & H3 & H4 & H5 & H6); [by apply pass_b_refreshed|by apply HRi|].
      destruct (Hout _ _ _ H5 H6). exists (AR i false true None :: rs), s', cur', R'.
      split_and!; [done|exact H2|done|by cbn; rewrite H4|done|done].
    + unfold flush_new. cbn [raced alone as_rows new_alert al_dedup_key ticked]. unfold alone.
      rewrite Hfind, Hlen, <-(pb_tracks _ _ _ _ Hinv _ Hfp), Ecur. cbn [res_bind].
      set (sA := foldl (refresh_old old) s datas) in *.
      change (with_rows _ _) with (opened_row data sA). subst sA.
      rewrite <-(fold_refresh_open old datas data s) by (apply Hinv).
      destruct (IH Hin' (S n) (opened_row data s) (<[in_fingerprint data:=length (as_rows s)]> cur)
        (<[n:=AR (length (as_rows s)) true false (Some TR_OPENED)]> R))
        as (rs & s' & cur' & R' & -> & H2 & H3 & H4 & H5 & H6); [by apply pass_b_opened|by apply HRi|].
      destruct (Hout _ _ _ H5 H6). exists (AR (length (as_rows s)) true false (Some TR_OPENED) :: rs), s', cur', R'.
      split_and!; [done|exact H2|done|by cbn; rewrite H4|done|done].
Qed.
End Bulk.
