(* ===== verification/AlertTheorems.v ===== *)
(** * Theorems of the alert service *)

From S2P Require Import Prelude PyStr PyFloat PyTime PyJson Enums AlertService AlertFacts.

(** ** The bulk call *)

Section Sequential.
Context (clock : nat → datetime) (now : datetime) (Hclock : ∀ n, clock n = now).

(** Resolving the active row of a condition frees it, and no other. *)
Lemma find_active_resolve rows fp i actor reason : index_ok rows → find_active rows fp = Some i →
  ∀ fp', find_active (alter (resolve_alert now actor reason) i rows) fp' =
    if decide (fp' = fp) then None else find_active rows fp'.
Proof.
  intros Hix Hf fp'. destruct (find_active_Some _ _ _ Hf) as (a & Ha & Hk & Hl).
  destruct (decide (fp' = fp)) as [->|Hne].
  - apply find_active_None. intros j b Hj [Hkb Hlb]. rewrite list_lookup_alter in Hj.
    destruct (decide (i = j)) as [<-|Hij].
    + rewrite Ha in Hj. cbn in Hj. injection Hj as <-. by apply Hlb.
    + apply Hij. apply (Hix i j a b); [done..|congruence].
  - apply find_active_alter. intros b Hb. rewrite Ha in Hb. injection Hb as <-. split; intros [H1 H2]; cbn in H1; congruence.
Qed.

Lemma resolve_by_fingerprint_alone fp actor reason s :
  resolve_by_fingerprint clock fp actor reason s =
  match find_active (as_rows s) fp with
  | None => Ok (None, s)
  | Some i => Ok (Some (AR i false true (Some TR_RESOLVED)), write i (resolve_alert now actor reason) (ticked s))
  end.
Proof.
  unfold resolve_by_fingerprint. destruct (find_active (as_rows s) fp) as [i|] eqn:E; [|done].
  destruct (find_active_Some _ _ _ E) as (a & Ha & _ & Hl). unfold resolve, now_of. rewrite Ha, Hclock.
  by rewrite bool_decide_eq_false_2.
Qed.

Lemma pass_r fps items : (∀ item, item ∈ items → rs_fingerprint item ∈ fps) →
  ∀ s active acc, tracks active (as_rows s) fps → index_ok (as_rows s) →
  ∃ results s' active', resolve_all clock items s = Ok (results, s') ∧
    foldl (bulk_resolve clock) (s, active, acc) items = (s', active', acc ++ results).
Proof.
  induction items as [|item items IH]; intros Hin s active acc Ht Hix.
  { exists [], s, active. cbn. by rewrite app_nil_r. }
  cbn [resolve_all foldl]. rewrite resolve_by_fingerprint_alone. unfold bulk_resolve at 2.
  assert (Hfp : rs_fingerprint item ∈ fps) by (apply Hin; left). rewrite (Ht _ Hfp).
  assert (Hin' : ∀ x, x ∈ items → rs_fingerprint x ∈ fps) by (intros x Hx; apply Hin; by right).
  destruct (find_active (as_rows s) (rs_fingerprint item)) as [i|] eqn:E; cbn [res_bind fst snd].
  - unfold now_of. rewrite Hclock.
    destruct (IH Hin' (write i (resolve_alert now (rs_actor item) (rs_reason item)) (ticked s))
      (delete (rs_fingerprint item) active) (acc ++ [Some (AR i false true (Some TR_RESOLVED))]))
      as (rs & s' & a' & -> & ->).
    + intros fp Hfp'. cbn [as_rows write with_rows ticked]. rewrite (find_active_resolve _ (rs_fingerprint item)) by done.
      destruct (decide (fp = rs_fingerprint item)) as [->|Hne]; [by rewrite lookup_delete_eq|].
      rewrite lookup_delete_ne by done. by apply Ht.
    + cbn. apply index_alter; [|done]. intros a. split; [done|]. by intros H.
    + eexists _, _, _. split; [done|]. by rewrite <-app_assoc.
  - destruct (IH Hin' s active (acc ++ [None]) Ht Hix) as (rs & s' & a' & -> & ->).
    eexists _, _, _. split; [done|]. by rewrite <-app_assoc.
Qed.

Lemma open_all_ok datas s results s' : index_ok (as_rows s) →
  open_all clock datas s = Ok (results, s') → index_ok (as_rows s').
Proof.
  revert s results. induction datas as [|data datas IH]; intros s results Hix; cbn; [by intros [= <- <-]|].
  rewrite (open_or_update_alone clock now Hclock).
  destruct (find_active _ _) as [i|] eqn:E; cbn [res_bind fst snd]; intros H; bind_inv H; destruct r as [rs s1];
    injection H as <- <-; eapply IH; try exact E0; cbn; [by apply index_alter|by apply index_snoc].
Qed.

Lemma results_of_map (R : gmap nat AlertResult) results n : (∀ j r, results !! j = Some r → R !! (n + j)%nat = Some r) →
  mapM_result (result_at R) (seq n (length results)) = Ok results.
Proof.
  revert n. induction results as [|r results IH]; intros n H; [done|]. cbn.
  unfold result_at at 1. pose proof (H 0%nat r eq_refl) as H0. rewrite Nat.add_0_r in H0. rewrite H0. cbn.
  rewrite IH; [done|]. intros j x Hj. rewrite <-(H (S j) x Hj). f_equal. lia.
Qed.

Lemma bulk_is_sequential datas resolutions s : index_ok (as_rows s) →
  ∃ opened s1 resolved s2, open_all clock datas s = Ok (opened, s1) ∧
    resolve_all clock resolutions s1 = Ok (resolved, s2) ∧
    apply_bulk clock (λ _, alone) datas resolutions s = Ok (opened, resolved, s2).
Proof.
  intros Hix. unfold apply_bulk.
  set (fps := list_to_set (in_fingerprint <$> datas) ∪ list_to_set (rs_fingerprint <$> resolutions) : gset string).
  assert (Hi1 : ∀ data, data ∈ datas → in_fingerprint data ∈ fps).
  { intros data Hd. apply elem_of_union_l, elem_of_list_to_set. by apply list_elem_of_fmap_2. }
  assert (Hi2 : ∀ item, item ∈ resolutions → rs_fingerprint item ∈ fps).
  { intros item Hd. apply elem_of_union_r, elem_of_list_to_set. by apply list_elem_of_fmap_2. }
  pose proof (active_rows_tracks (as_rows s) fps Hix) as Ht. set (old := active_rows (as_rows s) fps) in *.
  change (imap pair datas) with (imap (λ i data, ((0 + i)%nat, data)) datas). rewrite items_imap.
  destruct (pass_a clock now Hclock old datas 0 s ∅) as (R & -> & HR & _).
  assert (Hdom : ∀ fp i, old !! fp = Some i → fp ∈ fps).
  { intros fp i. unfold old. clear. generalize (as_rows s) as rows. induction rows as [|a rows IH] using rev_ind; [done|].
    rewrite active_rows_snoc. destruct (decide _) as [[Hin _]|]; [|done].
    destruct (decide (fp = al_dedup_key a)) as [->|]; [done|]. by rewrite lookup_insert_ne. }
  destruct (pass_b clock now Hclock fps old datas Hi1 0 s old R) as (opened & s1 & cur & R' & H1 & -> & Ht' & Hlen & HR' & _).
  - split; [done|done| |intros; congruence].
    intros fp i Hi. pose proof (Hdom _ _ Hi) as Hin. rewrite (Ht _ Hin) in Hi.
    apply find_active_Some in Hi as (a & Ha & _). by eapply lookup_lt_Some.
  - intros j data Hj. by apply HR.
  - cbn [res_bind bk_results bk_session bk_active]. rewrite <-Hlen, results_of_map by done. cbn [res_bind].
    destruct (pass_r fps resolutions Hi2 s1 cur [] Ht') as (resolved & s2 & a' & H2 & ->); [by eapply open_all_ok|].
    by exists opened, s1, resolved, s2.
Qed.
End Sequential.


(** ** Histories of operations *)

(** An operation on the table; a bulk call has a race for each input it inserts. *)
Inductive alert_op :=
| OpenOrUpdate (race : list Alert → list Alert) (data : AlertInput)
| Acknowledge (alert_id : nat) (actor : string)
| Resolve (alert_id : nat) (actor : string) (reason : option string)
| ResolveByFingerprint (fingerprint actor : string) (reason : option string)
| ApplyBulk (race : nat → list Alert → list Alert) (datas : list AlertInput) (resolutions : list AlertResolution)
| Commit.

(** Its results, and the session after it. *)
Definition run_op (clock : nat → datetime) (op : alert_op) (s : AlertSession)
    : result (list AlertResult * AlertSession) :=
  match op with
  | OpenOrUpdate race data => r <- open_or_update clock race data s ;; Ok ([r.1], r.2)
  | Acknowledge i actor => r <- acknowledge clock i actor s ;; Ok ([r.1], r.2)
  | Resolve i actor reason => r <- resolve clock i actor reason s ;; Ok ([r.1], r.2)
  | ResolveByFingerprint fp actor reason =>
      r <- resolve_by_fingerprint clock fp actor reason s ;; Ok (option_list r.1, r.2)
  | ApplyBulk race datas resolutions =>
      r <- apply_bulk clock race datas resolutions s ;; Ok (r.1.1 ++ omap id r.1.2, r.2)
  | Commit => Ok ([], {| as_rows := as_rows s; as_committed := as_rows s; as_ticks := as_ticks s |})
  end.

Fixpoint run_ops (clock : nat → datetime) (ops : list alert_op) (s : AlertSession)
    : result (list AlertResult * AlertSession) :=
  match ops with
  | [] => Ok ([], s)
  | op :: ops => r <- run_op clock op s ;; rs <- run_ops clock ops r.2 ;; Ok (r.1 ++ rs.1, rs.2)
  end.

Definition op_races_ok (op : alert_op) : Prop :=
  match op with
  | OpenOrUpdate race _ => race_ok race
  | ApplyBulk race _ _ => ∀ n, race_ok (race n)
  | _ => True
  end.

Section Histories.
Context (clock : nat → datetime).

Lemma bulk_refresh_ok b item : session_ok (bk_session b) → session_ok (bk_session (bulk_refresh clock b item)).
Proof.
  destruct item as [n data]. unfold bulk_refresh. destruct (bk_active b !! _); [|done]. intros Hs. cbn [bk_session].
  apply write_ok; [done|exact Hs].
Qed.

Lemma bulk_open_ok race b item b' : (∀ n, race_ok (race n)) → session_ok (bk_session b) →
  bulk_open clock race b item = Ok b' → session_ok (bk_session b').
Proof.
  intros Hr Hs. destruct item as [n data]. unfold bulk_open. destruct (decide _); [by intros [= <-]|].
  destruct (bk_active b !! _); [intros [= <-]; apply write_ok; [done|exact Hs]|].
  assert (Hs' : session_ok (raced (race n) (ticked (bk_session b)))) by (destruct Hs; split; apply Hr; done).
  destruct (flush_new _ _) as [[i s1]|] eqn:E; [intros [= <-]; by eapply flush_new_ok|].
  destruct (find_active _ _); [|discriminate]. intros [= <-]. apply write_ok; [done|exact Hs'].
Qed.

Lemma bulk_resolve_ok items s active acc : session_ok s →
  session_ok (foldl (bulk_resolve clock) (s, active, acc) items).1.1.
Proof.
  revert s active acc. induction items as [|item items IH]; intros s active acc Hs; [done|]. cbn [foldl].
  unfold bulk_resolve at 2. destruct (active !! _); apply IH; [|done]. apply write_ok; [|done].
  intros a. split; [done|]. by intros H.
Qed.

Lemma apply_bulk_ok race datas resolutions s r s' : (∀ n, race_ok (race n)) → session_ok s →
  apply_bulk clock race datas resolutions s = Ok (r, s') → session_ok s'.
Proof.
  intros Hr Hs. unfold apply_bulk. set (b0 := {| bk_session := s; bk_active := _; bk_results := _ |}).
  assert (Hb0 : session_ok (bk_session b0)) by done. generalize dependent b0. generalize (imap pair datas) as its.
  intros its b0 Hb0 H.
  assert (Hb1 : session_ok (bk_session (foldl (bulk_refresh clock) b0 its))).
  { clear H. revert b0 Hb0. induction its as [|it its IH]; intros b0 Hb0; [done|]. cbn. by apply IH, bulk_refresh_ok. }
  bind_inv H. assert (Hb2 : session_ok (bk_session r0)).
  { refine (foldM_inv (λ b, session_ok (bk_session b)) _ _ _ _ _ Hb1 E).
    intros b x b' _ Hb. by apply bulk_open_ok. }
  bind_inv H. pose proof (bulk_resolve_ok resolutions (bk_session r0) (bk_active r0) [] Hb2) as Hb3.
  destruct (foldl (bulk_resolve clock) _ _) as [[s1 a1] resolved]. by injection H as _ <-.
Qed.

Lemma run_op_ok op s r s' : op_races_ok op → session_ok s → run_op clock op s = Ok (r, s') → session_ok s'.
Proof.
  intros Hr Hs. destruct op; cbn [run_op]; intros H; try (bind_inv H; injection H as <- <-; destruct r0 as [r0 s0]; cbn [snd]).
  - by eapply open_or_update_ok.
  - by eapply acknowledge_ok.
  - by eapply resolve_ok.
  - by eapply resolve_by_fingerprint_ok.
  - by eapply apply_bulk_ok.
  - injection H as _ <-. by destruct Hs.
Qed.
End Histories.

(** C28: at most one active alert per condition, whatever happens. Starting from a table that
    respects the partial unique index, any sequence of the service's operations that
    succeeds, with any interference of other transactions that respect the index, leaves a
    table in which two active rows of the same condition are the same row. *)
Theorem one_active_alert clock ops s results s' :
  index_ok (as_rows s) → index_ok (as_committed s) → Forall op_races_ok ops →
  run_ops clock ops s = Ok (results, s') →
  ∀ i j a b, as_rows s' !! i = Some a → as_rows s' !! j = Some b →
    al_status a ≠ AL_RESOLVED → al_status b ≠ AL_RESOLVED → al_dedup_key a = al_dedup_key b → i = j.
Proof.
  intros H1 H2 Hops. assert (Hs : session_ok s) by done. clear H1 H2. revert s results Hs.
  induction Hops as [|op ops Hop _ IH]; intros s results Hs H; cbn in H.
  - injection H as _ <-. apply Hs.
  - bind_inv H. bind_inv H. destruct r as [r s1], r0 as [r0 s2]. injection H as _ <-.
    eapply IH; [|exact E0]. by eapply run_op_ok.
Qed.

(** ** Transitions balance *)

Definition keys (rows : list Alert) : list string := al_dedup_key <$> rows.

(** The transitions [t] of this condition among the results. *)
Definition transitions (t : AlertTransition) (fp : string) (rows : list Alert) (results : list AlertResult) : Z :=
  Z.of_nat (length (filter (λ r, ar_transition r = Some t ∧ keys rows !! ar_alert r = Some fp) results)).

(** 1 when the condition has an active alert, else 0. *)
Definition active_count (rows : list Alert) (fp : string) : Z :=
  match find_active rows fp with Some _ => 1 | None => 0 end.

Record balanced (results : list AlertResult) (rows rows' : list Alert) : Prop := {
  ba_keys : keys rows `prefix_of` keys rows';
  ba_names : Forall (λ r, (ar_alert r < length rows')%nat) results;
  ba_index : index_ok rows → index_ok rows';
  ba_count : index_ok rows → ∀ fp, transitions TR_OPENED fp rows' results - transitions TR_RESOLVED fp rows' results =
    active_count rows' fp - active_count rows fp }.

Lemma transitions_app t fp rows l1 l2 : transitions t fp rows (l1 ++ l2) = transitions t fp rows l1 + transitions t fp rows l2.
Proof. unfold transitions. rewrite filter_app, length_app. lia. Qed.

Lemma transitions_grow t fp rows rows' l : keys rows `prefix_of` keys rows' →
  Forall (λ r, (ar_alert r < length rows)%nat) l → transitions t fp rows' l = transitions t fp rows l.
Proof.
  intros [k Hk] Hl. unfold transitions. do 2 f_equal. induction Hl as [|r l Hr _ IH]; [done|].
  rewrite !filter_cons, IH. rewrite Hk, lookup_app_l by (unfold keys; by rewrite length_fmap). done.
Qed.

Lemma transitions_one t fp rows i opened updated t' : transitions t fp rows [AR i opened updated t'] =
  if decide (t' = Some t ∧ keys rows !! i = Some fp) then 1 else 0.
Proof. unfold transitions. rewrite filter_cons, filter_nil. cbn. by destruct (decide _). Qed.

Lemma balanced_nil rows : balanced [] rows rows.
Proof. split; [done|constructor|done|]. intros _ fp. unfold transitions. cbn. lia. Qed.

Lemma balanced_app l1 l2 r0 r1 r2 : balanced l1 r0 r1 → balanced l2 r1 r2 → balanced (l1 ++ l2) r0 r2.
Proof.
  intros [K1 N1 I1 C1] [K2 N2 I2 C2]. split; [by etrans| |auto|].
  - apply Forall_app. split; [|done]. eapply Forall_impl; [exact N1|]. cbn. intros r Hr.
    apply prefix_length in K2. unfold keys in K2. rewrite !length_fmap in K2. lia.
  - intros Hix fp. rewrite !transitions_app, (transitions_grow TR_OPENED fp r1 r2 l1), (transitions_grow TR_RESOLVED fp r1 r2 l1) by done.
    specialize (C1 Hix fp). specialize (C2 (I1 Hix) fp). lia.
Qed.

Lemma keys_alter f i rows : (∀ a, al_dedup_key (f a) = al_dedup_key a) → keys (alter f i rows) = keys rows.
Proof.
  intros Hf. unfold keys. apply list_eq. intros j. rewrite !list_lookup_fmap, list_lookup_alter.
  destruct (decide (i = j)) as [->|]; [|done]. destruct (rows !! j); cbn; [by rewrite Hf|done].
Qed.

(** A write that keeps the condition and the activity of its row changes no count. *)
Lemma balanced_write f i rows opened updated t : (i < length rows)%nat → t ≠ Some TR_OPENED → t ≠ Some TR_RESOLVED →
  (∀ a, rows !! i = Some a → al_dedup_key (f a) = al_dedup_key a ∧ (live (f a) ↔ live a)) →
  balanced [AR i opened updated t] rows (alter f i rows).
Proof.
  intros Hi H1 H2 Hf.
  set (g a := if decide (al_dedup_key (f a) = al_dedup_key a ∧ (live (f a) ↔ live a)) then f a else a).
  assert (Hg : alter f i rows = alter g i rows).
  { apply list_alter_ext; [|done]. intros a Ha. unfold g. by rewrite decide_True by (by apply Hf). }
  assert (Hkeep : ∀ a, al_dedup_key (g a) = al_dedup_key a ∧ (live (g a) ↔ live a)).
  { intros a. unfold g. by destruct (decide _) as [[? ?]|]. }
  assert (Hkey : ∀ a, al_dedup_key (g a) = al_dedup_key a) by (intros a; by apply Hkeep).
  split.
  - by rewrite Hg, keys_alter.
  - repeat constructor. cbn. by rewrite length_alter.
  - intros Hix. rewrite Hg. apply index_alter; [|done]. intros a. split; [done|]. by apply Hkeep.
  - intros _ fp. rewrite !transitions_one, !decide_False by naive_solver. unfold active_count.
    rewrite find_active_alter; [by destruct (find_active rows fp)|].
    intros a Ha. unfold active_for. destruct (Hf a Ha) as [-> Hl]. unfold live in Hl. tauto.
Qed.

Lemma balanced_open a opened updated rows : find_active rows (al_dedup_key a) = None → al_status a ≠ AL_RESOLVED →
  balanced [AR (length rows) opened updated (Some TR_OPENED)] rows (rows ++ [a]).
Proof.
  intros Hn Hl. split.
  - unfold keys. rewrite fmap_app. by apply prefix_app_r.
  - repeat constructor. cbn. rewrite length_app. cbn. lia.
  - by apply index_snoc.
  - intros _ fp. rewrite !transitions_one, (decide_False (P := Some TR_OPENED = Some TR_RESOLVED ∧ _)) by naive_solver.
    assert (Hk : keys (rows ++ [a]) !! length rows = Some (al_dedup_key a)).
    { unfold keys. rewrite list_lookup_fmap, lookup_app_r, Nat.sub_diag by done. done. }
    unfold active_count. rewrite find_active_snoc, Hk. destruct (decide (fp = al_dedup_key a)) as [->|Hne].
    + by rewrite decide_True, Hn, decide_True.
    + rewrite decide_False by naive_solver. rewrite decide_False by (intros [? _]; congruence).
      by destruct (find_active rows fp).
Qed.

Lemma balanced_resolve now actor reason i a rows : rows !! i = Some a → al_status a ≠ AL_RESOLVED →
  balanced [AR i false true (Some TR_RESOLVED)] rows (alter (resolve_alert now actor reason) i rows).
Proof.
  intros Ha Hl. assert (Hi : (i < length rows)%nat) by (by eapply lookup_lt_Some). split.
  - by rewrite keys_alter.
  - repeat constructor. cbn. by rewrite length_alter.
  - apply index_alter. intros b. split; [done|]. by intros H.
  - intros Hix fp. rewrite !transitions_one, (decide_False (P := Some TR_RESOLVED = Some TR_OPENED ∧ _)) by naive_solver.
    rewrite keys_alter by done. unfold active_count.
    assert (Hf : find_active rows (al_dedup_key a) = Some i) by (by eapply find_active_is).
    rewrite (find_active_resolve now rows (al_dedup_key a)) by done.
    assert (keys rows !! i = Some (al_dedup_key a)) as -> by (unfold keys; by rewrite list_lookup_fmap, Ha).
    destruct (decide (fp = al_dedup_key a)) as [->|Hne].
    + by rewrite decide_True, Hf.
    + rewrite decide_False by naive_solver. by destruct (find_active rows fp).
Qed.

(** No other transaction interferes with the operation. *)
Definition calm (op : alert_op) : Prop :=
  match op with
  | OpenOrUpdate race _ => race = alone
  | ApplyBulk race _ _ => race = λ _, alone
  | _ => True
  end.

Section Balance.
Context (clock : nat → datetime) (now : datetime) (Hclock : ∀ n, clock n = now).

Lemma open_balanced data s r s' : open_or_update clock alone data s = Ok (r, s') →
  balanced [r] (as_rows s) (as_rows s').
Proof.
  rewrite (open_or_update_alone clock now Hclock). destruct (find_active _ _) as [i|] eqn:E; intros H; injection H as <- <-.
  - apply balanced_write; [|done..]. apply find_active_Some in E as (a & Ha & _). by eapply lookup_lt_Some.
  - by apply balanced_open.
Qed.

Lemma resolve_by_balanced fp actor reason s r s' : resolve_by_fingerprint clock fp actor reason s = Ok (r, s') →
  balanced (option_list r) (as_rows s) (as_rows s').
Proof.
  rewrite (resolve_by_fingerprint_alone clock now Hclock). destruct (find_active _ _) as [i|] eqn:E; intros H; injection H as <- <-.
  - apply find_active_Some in E as (a & Ha & _ & Hl). by eapply balanced_resolve.
  - apply balanced_nil.
Qed.

Lemma open_all_balanced datas s rs s' : open_all clock datas s = Ok (rs, s') → balanced rs (as_rows s) (as_rows s').
Proof.
  revert s rs. induction datas as [|data datas IH]; intros s rs H; cbn in H.
  - injection H as <- <-. apply balanced_nil.
  - bind_inv H. bind_inv H. destruct r as [r s1], r0 as [rs1 s2]. injection H as <- <-.
    apply (balanced_app [r] rs1 _ (as_rows s1)); [by eapply open_balanced|by apply IH].
Qed.

Lemma resolve_all_balanced items s rs s' : resolve_all clock items s = Ok (rs, s') →
  balanced (omap id rs) (as_rows s) (as_rows s').
Proof.
  revert s rs. induction items as [|item items IH]; intros s rs H; cbn in H.
  - injection H as <- <-. apply balanced_nil.
  - bind_inv H. bind_inv H. destruct r as [r s1], r0 as [rs1 s2]. injection H as <- <-.
    assert (omap id (r :: rs1) = option_list r ++ omap id rs1) as ->.
    { cbn [omap list_omap]. unfold id at 1. by destruct r. }
    apply (balanced_app _ _ _ (as_rows s1)); [by eapply resolve_by_balanced|by apply IH].
Qed.

Lemma op_balanced op s rs s' : calm op → index_ok (as_rows s) → run_op clock op s = Ok (rs, s') →
  balanced rs (as_rows s) (as_rows s').
Proof.
  intros Hcalm Hix. destruct op; cbn [run_op calm] in *; intros H;
    try (bind_inv H; injection H as <- <-; destruct r as [r0 s0]; cbn [fst snd] in * ).
  - subst race. by eapply open_balanced.
  - unfold acknowledge in E. destruct (as_rows s !! alert_id) as [a|] eqn:Ea; [|discriminate].
    assert (Hlen : (alert_id < length (as_rows s))%nat) by (by eapply lookup_lt_Some).
    destruct (bool_decide _) eqn:Eb; injection E as <- <-.
    + apply bool_decide_eq_true in Eb. apply balanced_write; [done..|]. intros b Hb. split; [done|].
      cbn [as_rows ticked] in Hb. rewrite Ea in Hb. injection Hb as <-. unfold live. rewrite Eb. done.
    + rewrite <-(list_alter_id id (as_rows s) alert_id) at 2 by done. by apply balanced_write.
  - unfold resolve in E. destruct (as_rows s !! alert_id) as [a|] eqn:Ea; [|discriminate].
    assert (Hlen : (alert_id < length (as_rows s))%nat) by (by eapply lookup_lt_Some).
    destruct (bool_decide _) eqn:Eb; injection E as <- <-.
    + rewrite <-(list_alter_id id (as_rows s) alert_id) at 2 by done. by apply balanced_write.
    + apply bool_decide_eq_false in Eb. by eapply balanced_resolve.
  - by eapply resolve_by_balanced.
  - subst race. destruct (bulk_is_sequential clock now Hclock datas resolutions s Hix)
      as (opened & s1 & resolved & s2 & H1 & H2 & H3).
    rewrite H3 in E. injection E as <- <-. cbn [fst snd].
    apply (balanced_app _ _ _ (as_rows s1)); [by eapply open_all_balanced|by eapply resolve_all_balanced].
  - injection H as <- <-. apply balanced_nil.
Qed.

Lemma ops_balanced ops s rs s' : Forall calm ops → index_ok (as_rows s) → run_ops clock ops s = Ok (rs, s') →
  balanced rs (as_rows s) (as_rows s').
Proof.
  intros Hops. revert s rs. induction Hops as [|op ops Hop _ IH]; intros s rs Hix H; cbn in H.
  - injection H as <- <-. apply balanced_nil.
  - bind_inv H. bind_inv H. destruct r as [r s1], r0 as [rs1 s2]. injection H as <- <-. cbn [fst snd] in *.
    pose proof (op_balanced _ _ _ _ Hop Hix E) as Hb.
    apply (balanced_app _ _ _ (as_rows s1)); [done|]. apply IH; [by apply Hb|done].
Qed.
End Balance.

(** One notification per opening and one per resolution. Over any history of operations
    without interference, a condition's OPENED transitions exceed its RESOLVED transitions
    by exactly the change in whether it has an active alert. So from a condition that is
    not active, openings and resolutions alternate, whatever refreshes, acknowledgements
    and bulk calls come in between, and no refresh is ever notified as an opening. *)
Theorem transitions_balance clock now ops s results s' fp :
  (∀ n, clock n = now) → index_ok (as_rows s) → Forall calm ops → run_ops clock ops s = Ok (results, s') →
  transitions TR_OPENED fp (as_rows s') results - transitions TR_RESOLVED fp (as_rows s') results =
  active_count (as_rows s') fp - active_count (as_rows s) fp.
Proof. intros Hc Hix Hops H. by apply (ops_balanced clock now Hc ops s results s' Hops Hix H). Qed.

(** * A concrete alert table

    The theorems of the alert service at concrete operations. *)


Definition ex_now : datetime := utc (td_hours 5).
Definition ex_clock (n : nat) : datetime := ex_now.

Definition ex_input (fp : string) (sev : Severity) : AlertInput :=
  {| in_fingerprint := fp; in_title := "VOLUME_DROP on web-1"; in_severity := sev; in_source_type := "log_source";
     in_source_id := Some 7%N; in_description := None; in_evidence := None;
     in_source_anomaly_ids := Some ["b"; "a"]; in_context := None |}.

Definition ex_resolution (fp : string) : AlertResolution :=
  {| rs_fingerprint := fp; rs_actor := "anomaly-engine"; rs_reason := None |}.

Definition ex_session : AlertSession := {| as_rows := []; as_committed := []; as_ticks := 0 |}.

Lemma ex_index : index_ok [].
Proof. intros i j a b H. by rewrite lookup_nil in H. Qed.

(** A condition opens, is refreshed, is resolved, and opens again. *)
Definition ex_inputs : list AlertInput := [ex_input "x" SEV_HIGH; ex_input "y" SEV_LOW; ex_input "x" SEV_LOW].
Definition ex_resolutions : list AlertResolution := [ex_resolution "x"; ex_resolution "z"].


Definition ex_ops : list alert_op :=
  [OpenOrUpdate alone (ex_input "x" SEV_HIGH); Acknowledge 0 "ana"; OpenOrUpdate alone (ex_input "x" SEV_LOW);
   Commit; ApplyBulk (λ _, alone) ex_inputs ex_resolutions; OpenOrUpdate alone (ex_input "x" SEV_HIGH)].

Lemma one_active_alert_witness : ∃ results s', run_ops ex_clock ex_ops ex_session = Ok (results, s') ∧
  ∀ i j a b, as_rows s' !! i = Some a → as_rows s' !! j = Some b →
    al_status a ≠ AL_RESOLVED → al_status b ≠ AL_RESOLVED → al_dedup_key a = al_dedup_key b → i = j.
Proof.
  destruct (run_ops ex_clock ex_ops ex_session) as [[results s']|e] eqn:E; [|vm_compute in E; discriminate].
  exists results, s'. split; [done|].
  apply (one_active_alert ex_clock ex_ops ex_session results s'); [exact ex_index|exact ex_index| |exact E].
  repeat constructor; try (by intros rows); by intros n rows.
Defined.

Lemma transitions_balance_witness : ∃ results s', run_ops ex_clock ex_ops ex_session = Ok (results, s') ∧
  transitions TR_OPENED "x" (as_rows s') results - transitions TR_RESOLVED "x" (as_rows s') results = 1.
Proof.
  destruct (run_ops ex_clock ex_ops ex_session) as [[results s']|e] eqn:E; [|vm_compute in E; discriminate].
  exists results, s'. split; [done|].
  rewrite (transitions_balance ex_clock ex_now ex_ops ex_session results s' "x");
    [|done|exact ex_index|repeat constructor|exact E].
  vm_compute in E. injection E as _ <-. reflexivity.
Defined.
