(* ===== verification/Statistics.v ===== *)
(** * Robust statistics

    [anomaly/statistics.py], with [statistics.median] of the standard library and [sorted].
    [sorted] is a stable sort by [<]; on a list with a NaN Python's result depends on the
    sorting algorithm, and no theorem is about such a list. *)

From S2P Require Import Prelude PyStr PyFloat Enums.

(** [sorted(values)] *)
Definition not_above (x y : float) : Prop := flt y x = false.

#[export] Instance not_above_dec : RelDecision not_above.
Proof. unfold not_above. intros x y. apply _. Defined.

Definition sorted (values : list float) : list float := stable_sort not_above values.

Definition index_error : exn := IndexError "list index out of range".

(** [l[i]] for [0 <= i]. *)
Definition item (l : list float) (i : Z) : result float :=
  match l !! Z.to_nat i with Some x => Ok x | None => Err index_error end.

Definition f2 : float := div_round 2 1.

(** [statistics.median(data)] of a list that is not empty. *)
Definition std_median (data : list float) : result float :=
  let data := sorted data in
  let n := Z.of_nat (length data) in
  if n mod 2 =? 1 then item data (n / 2)
  else
    a <- item data (n / 2 - 1) ;;
    b <- item data (n / 2) ;;
    fdiv (fadd a b) f2.

(** [MAD_TO_STD = 1.4826] *)
Definition MAD_TO_STD : float := div_round 14826 10000.

Definition is_empty (values : list float) : bool := match values with [] => true | _ => false end.

Definition median (values : list float) : result float :=
  _ <- raise_if (is_empty values) (ValueError "median of empty sequence") ;;
  std_median values.

Definition mad (values : list float) (center : option float) : result float :=
  _ <- raise_if (is_empty values) (ValueError "mad of empty sequence") ;;
  c <- (match center with Some c => Ok c | None => median values end) ;;
  std_median ((λ v, fabs (fsub v c)) <$> values).

(** Called with an integer [q]. *)
Definition percentile (values : list float) (q : Z) : result float :=
  _ <- raise_if (is_empty values) (ValueError "percentile of empty sequence") ;;
  _ <- raise_if (negb ((0 <=? q) && (q <=? 100))) (ValueError "q must be in [0, 100]") ;;
  let ordered := sorted values in
  let last := Z.of_nat (length ordered) - 1 in
  if last =? 0 then item ordered 0
  else
    share <- truediv q 100 ;;
    top <- float_of_int last ;;
    let rank := fmul share top in
    lo <- ftrunc rank ;;
    let hi := Z.min (lo + 1) last in
    flo <- float_of_int lo ;;
    let frac := fsub rank flo in
    a <- item ordered lo ;;
    b <- item ordered hi ;;
    Ok (fadd a (fmul (fsub b a) frac)).

(** [1e-9] *)
Definition tiny : float := div_round 1 1000000000.

Definition effective_scale (med mad_value mad_floor_ratio : float) : float :=
  let scaled := fmul mad_value MAD_TO_STD in
  let floor := fmax (fmul (fabs med) mad_floor_ratio) tiny in
  fmax scaled floor.

Definition robust_z (value med mad_value mad_floor_ratio : float) : result float :=
  fdiv (fsub value med) (effective_scale med mad_value mad_floor_ratio).

Definition robust_z_with_status (value med mad_value mad_floor_ratio : float)
    : result (float * RobustScoreStatus) :=
  z <- robust_z value med mad_value mad_floor_ratio ;;
  Ok (z, if fle mad_value f0 then RS_DEGENERATE else RS_OK).

Definition ratio (observed expected : float) : result (option float) :=
  if feq expected f0 then Ok None
  else r <- fdiv observed expected ;; Ok (Some r).
