(* ===== verification/Detectors.v ===== *)
(** * The nine anomaly detectors

    [anomaly/detectors.py]: pure functions of a [DetectionContext]. Python's keyword
    arguments are positional here; [mad_floor_ratio] is
    [get_settings().baseline_mad_floor_ratio], a parameter of the section. *)

From S2P Require Import Prelude PyStr PyFloat PyJson PyTime Enums AnomalyLifecycle Statistics.

(** ** Data *)

(** [thresholds.Thresholds]. *)
Record Thresholds := {
  th_deviation_z : float; th_spike_ratio : float; th_drop_ratio : float;
  th_min_absolute_delta_events : float; th_min_bucket_events : float; th_silence_grace_buckets : Z;
  th_min_parsed_ratio : float; th_max_unknown_ratio : float; th_delay_interval_multiple : float;
  th_cardinality_drop_fraction : float; th_collection_error_threshold : Z;
  th_repeated_payload_intervals : Z; th_open_after : Z; th_resolve_after : Z }.

Record MetricPoint := {
  mp_interval_start : datetime; mp_interval_end : datetime; mp_completeness : BucketCompleteness;
  mp_event_count : Z; mp_average_eps : float; mp_peak_eps : float; mp_last_event_at : option datetime;
  mp_event_delay_seconds : option float; mp_unknown_event_count : Z; mp_stored_event_count : Z;
  mp_parsed_username_ratio : option float; mp_parsed_source_ip_ratio : option float;
  mp_distinct_qid_count : Z; mp_distinct_username_count : Z; mp_distinct_source_ip_count : Z;
  mp_collection_error_count : Z; mp_payload_signature : option string }.

Record BaselineCell := {
  bc_median : float; bc_mad : float; bc_p05 : option float; bc_p95 : option float;
  bc_sample_count : Z; bc_is_reliable : bool; bc_completeness : float; bc_baseline_version : Z }.

Record DetectionContext := {
  cx_point : MetricPoint; cx_baselines : gmap string BaselineCell; cx_thresholds : Thresholds;
  cx_expected_interval_seconds : float; cx_recent_signatures : list string;
  cx_is_expected_active : bool; cx_preceding_empty_buckets : Z }.

(** Which way a volume detector looks. *)
Inductive direction := Up | Down.

#[export] Instance direction_eq_dec : EqDecision direction.
Proof. solve_decision. Defined.

(** ** Literals *)

Definition lit (n d : Z) : float := div_round n d.

(** [ctx.bucket_seconds] *)
Definition bucket_seconds (ctx : DetectionContext) : result float :=
  d <- dt_sub (mp_interval_end (cx_point ctx)) (mp_interval_start (cx_point ctx)) ;;
  width <- truediv d us_per_second ;;
  Ok (if flt f0 width then width else cx_expected_interval_seconds ctx).

(** [n / x] for an integer and a float. *)
Definition int_div (n : Z) (x : float) : result float := n <- float_of_int n ;; fdiv n x.

(** [_confidence] *)
Definition confidence (cell : option BaselineCell) (magnitude : float) : result float :=
  match cell with
  | None => Ok (lit 1 2)
  | Some cell =>
      share <- int_div (bc_sample_count cell) (lit 30 1) ;;
      let reliability := fmin f1 share in
      part <- fdiv magnitude (lit 6 1) ;;
      let strength := fmin f1 part in
      round_digits 3 (fadd (fmul (lit 4 10) reliability) (fmul (lit 6 10) strength))
  end.

(** [healthy(at, interval_start=..., interval_end=..., ...)] and the two others, on a point. *)
Definition healthy_at (at_ : AnomalyType) (p : MetricPoint) := healthy at_ (mp_interval_start p) (mp_interval_end p).
Definition unknown_at (at_ : AnomalyType) (p : MetricPoint) := unknown at_ (mp_interval_start p) (mp_interval_end p).
Definition insufficient_at (at_ : AnomalyType) (p : MetricPoint) :=
  insufficient at_ (mp_interval_start p) (mp_interval_end p).

(** [AnomalyEvidence(signal=ANOMALOUS, ...)]. *)
Definition finding (at_ : AnomalyType) (p : MetricPoint) (severity : Severity)
    (observed expected low high deviation threshold : option float) (samples : Z) (confidence : float)
    (reason : string) (extra : jobj) : AnomalyEvidence :=
  {| ev_anomaly_type := at_; ev_signal := DS_ANOMALOUS; ev_severity := severity; ev_observed_value := observed;
     ev_expected_value := expected; ev_baseline_low := low; ev_baseline_high := high;
     ev_deviation_score := deviation; ev_threshold := threshold; ev_sample_count := samples;
     ev_interval_start := mp_interval_start p; ev_interval_end := mp_interval_end p;
     ev_confidence := confidence; ev_reason := reason; ev_extra := extra; ev_insufficient_data := false |}.

Definition reliable (cell : option BaselineCell) : option BaselineCell :=
  match cell with Some c => if bc_is_reliable c then Some c else None | None => None end.

(** ** 1: no events *)

Definition detect_no_events (ctx : DetectionContext) : result AnomalyEvidence :=
  let p := cx_point ctx in
  let at_ := AT_NO_EVENTS in
  let cell := cx_baselines ctx !! "event_count" in
  let expected := bc_median <$> cell in
  if 0 <? mp_event_count p then
    n <- float_of_int (mp_event_count p) ;;
    Ok (healthy_at at_ p (Some n) expected healthy_reason)
  else if negb (bool_decide (mp_completeness p = BC_COMPLETE)) then
    Ok (insufficient_at at_ p
          ("bucket is " +:+ py_lower (BucketCompleteness_value (mp_completeness p)) +:+
           "; absence of events is not evidence of silence") 0)
  else if negb (cx_is_expected_active ctx) then
    Ok (healthy_at at_ p (Some f0) expected "source is not expected to be active this interval")
  else if match reliable cell with Some c => fle (bc_median c) f0 | None => false end then
    Ok (healthy_at at_ p (Some f0) (Some f0) "this source is normally inactive at this hour")
  else
    match reliable cell with
    | None =>
        Ok (insufficient_at at_ p "no reliable activity baseline for this weekday/hour cell yet"
              (match cell with Some c => bc_sample_count c | None => 0 end))
    | Some c =>
        let grace := th_silence_grace_buckets (cx_thresholds ctx) in
        if cx_preceding_empty_buckets ctx <? grace then
          Ok (healthy_at at_ p (Some f0) expected
                ("empty bucket within the " +:+ pretty grace +:+ "-bucket silence grace period"))
        else
          let empty_streak := cx_preceding_empty_buckets ctx + 1 in
          streak <- float_of_int empty_streak ;;
          conf <- round_digits 3 (fmin f1 (fadd (lit 6 10) (fmul (lit 1 10) streak))) ;;
          Ok (finding at_ p SEV_HIGH (Some f0) expected (bc_p05 c) (bc_p95 c) None (Some f0)
                (bc_sample_count c) conf
                ("no events for " +:+ pretty empty_streak +:+ " consecutive bucket(s) where the baseline " +:+
                 "expects about " +:+ fmt_fixed 0 (bc_median c) +:+ " events")
                [("empty_buckets", JInt empty_streak); ("grace_buckets", JInt grace);
                 ("last_event_at", match mp_last_event_at p with
                                   | Some t => JStr (dt_isoformat t) | None => JNull end);
                 ("baseline_version", JInt (bc_baseline_version c))])
    end.

(** ** 2 and 3: volume *)

Section Volume.
(** [get_settings().baseline_mad_floor_ratio]. *)
Context (mad_floor_ratio : float).

(** [_ExpectedBand] *)
Record ExpectedBand := { eb_lower : float; eb_upper : float }.

Definition expected_band (cell : BaselineCell) : ExpectedBand :=
  let spread := fmax (fmul (fabs (bc_median cell)) mad_floor_ratio) tiny in
  {| eb_lower := match bc_p05 cell with Some x => x | None => fsub (bc_median cell) spread end;
     eb_upper := match bc_p95 cell with Some x => x | None => fadd (bc_median cell) spread end |}.

Definition volume_severity (observed_ratio : option float) (magnitude : float) (thr : Thresholds) (d : direction)
    : result Severity :=
  far <- (match observed_ratio with
          | Some r =>
              excess <- (match d with
                         | Up => fdiv r (th_spike_ratio thr)
                         | Down => if flt f0 r then fdiv (th_drop_ratio thr) r else Ok (S754_infinity false)
                         end) ;;
              Ok (fle f2 excess)
          | None => Ok false
          end) ;;
  Ok (if far : bool then SEV_HIGH
      else if fle (fmul (th_deviation_z thr) (lit 3 2)) magnitude then SEV_HIGH else SEV_MEDIUM).

Definition volume_confidence (cell : BaselineCell) (magnitude : float) (score_status : RobustScoreStatus)
    : result float :=
  base <- confidence (Some cell) magnitude ;;
  let quality := fmin f1 (fadd (bc_completeness cell) (lit 1 2)) in
  let value := fmul base quality in
  round_digits 3 (if decide (score_status = RS_OK) then value else fmin value (lit 7 10)).

(** The verdict "not abnormal" of a volume guard. *)
Definition volume_healthy (at_ : AnomalyType) (p : MetricPoint) (observed expected : float) (reason : string)
    : result AnomalyEvidence :=
  o <- round_digits 3 observed ;;
  e <- round_digits 3 expected ;;
  Ok (healthy_at at_ p (Some o) (Some e) reason).

(** The values the guards compare. *)
Record Volume := {
  vo_observed_eps : float; vo_expected_eps : float; vo_observed_events : float; vo_expected_events : float;
  vo_delta_events : float }.

Definition volume_of (p : MetricPoint) (cell : BaselineCell) (seconds : float) : Volume :=
  let observed := fmul (mp_average_eps p) seconds in
  let expected := fmul (bc_median cell) seconds in
  {| vo_observed_eps := mp_average_eps p; vo_expected_eps := bc_median cell; vo_observed_events := observed;
     vo_expected_events := expected; vo_delta_events := fsub observed expected |}.

Definition volume_facts (v : Volume) (cell : BaselineCell) (seconds : float) : result jobj :=
  oe <- round_digits 4 (vo_observed_eps v) ;;
  ee <- round_digits 4 (vo_expected_eps v) ;;
  ov <- round_digits 1 (vo_observed_events v) ;;
  ev <- round_digits 1 (vo_expected_events v) ;;
  de <- round_digits 1 (vo_delta_events v) ;;
  co <- round_digits 3 (bc_completeness cell) ;;
  Ok [("observed_eps", JFloat oe); ("expected_eps", JFloat ee); ("observed_events", JFloat ov);
      ("expected_events", JFloat ev); ("absolute_delta_events", JFloat de); ("bucket_seconds", JFloat seconds);
      ("baseline_completeness", JFloat co); ("baseline_version", JInt (bc_baseline_version cell))].

(** [delta_events if direction > 0 else -delta_events] *)
Definition directional (d : direction) (v : Volume) : float :=
  match d with Up => vo_delta_events v | Down => fneg (vo_delta_events v) end.

Definition subject_events (d : direction) (v : Volume) : float :=
  match d with Up => vo_observed_events v | Down => vo_expected_events v end.

Definition ratio_ok (thr : Thresholds) (d : direction) (r : float) : bool :=
  match d with Up => fle (th_spike_ratio thr) r | Down => fle r (th_drop_ratio thr) end.

Definition score_ok (thr : Thresholds) (d : direction) (z : float) : bool :=
  match d with Up => fle (th_deviation_z thr) z | Down => fle z (fneg (th_deviation_z thr)) end.

Definition outside_band (b : ExpectedBand) (d : direction) (observed : float) : bool :=
  match d with Up => flt (eb_upper b) observed | Down => flt observed (eb_lower b) end.

Definition band_text (b : ExpectedBand) : string :=
  "[" +:+ fmt_fixed 2 (eb_lower b) +:+ ", " +:+ fmt_fixed 2 (eb_upper b) +:+ "]".

(** Guard 6 and the finding, once the other guards passed. *)
Definition volume_score (ctx : DetectionContext) (at_ : AnomalyType) (d : direction) (cell : BaselineCell)
    (v : Volume) (observed_ratio : option float) (facts : jobj) : result AnomalyEvidence :=
  let p := cx_point ctx in
  let thr := cx_thresholds ctx in
  let observed := vo_observed_eps v in
  let expected := vo_expected_eps v in
  zs <- robust_z_with_status observed (bc_median cell) (bc_mad cell) mad_floor_ratio ;;
  let '(z, score_status) := zs in
  rz <- round_digits 3 z ;;
  let facts := facts ++ [("robust_score_status", JStr (RobustScoreStatus_value score_status));
                         ("robust_z", JFloat rz)] in
  let band := expected_band cell in
  let bound := match d with Up => eb_upper band | Down => eb_lower band end in
  let measured := bool_decide (score_status = RS_OK) in
  facts <- (if measured then Ok facts
            else b <- round_digits 4 bound ;; Ok (facts ++ [("fallback_bound", JFloat b)])) ;;
  if negb (if measured then score_ok thr d z else outside_band band d observed) then
    volume_healthy at_ p observed expected
      (if measured
       then "robust z=" +:+ fmt_fixed 2 z +:+ " has not reached the ±" +:+ float_repr (th_deviation_z thr) +:+ " threshold"
       else "robust score unavailable (MAD=0) and observed value is inside the expected band " +:+ band_text band)
  else
    let basis :=
      if measured
      then "robust z=" +:+ fmt_fixed 2 z +:+ " (threshold ±" +:+ float_repr (th_deviation_z thr) +:+ ")"
      else "robust score unavailable (MAD=0); observed value is outside the expected band " +:+ band_text band in
    let magnitude := if measured then fabs z else th_deviation_z thr in
    severity <- volume_severity observed_ratio magnitude thr d ;;
    o <- round_digits 3 observed ;;
    e <- round_digits 3 expected ;;
    dz <- round_digits 3 z ;;
    conf <- volume_confidence cell magnitude score_status ;;
    Ok (finding at_ p severity (Some o) (Some e) (bc_p05 cell) (bc_p95 cell) (Some dz)
          (Some (th_deviation_z thr)) (bc_sample_count cell) conf
          ("average EPS " +:+ fmt_fixed 2 observed +:+ " is " +:+
           (match d with Up => "above" | Down => "below" end) +:+ " the baseline median " +:+
           fmt_fixed 2 expected +:+ " (" +:+
           (match observed_ratio with Some r => fmt_fixed 2 r +:+ "x expected" | None => "expected no traffic" end) +:+
           ", " +:+ fmt_fixed 0 (directional d v) +:+ " events/bucket); " +:+ basis) facts).

(** Guard 5. *)
Definition volume_delta (ctx : DetectionContext) (at_ : AnomalyType) (d : direction) (cell : BaselineCell)
    (v : Volume) (observed_ratio : option float) (facts : jobj) : result AnomalyEvidence :=
  let thr := cx_thresholds ctx in
  if flt (directional d v) (th_min_absolute_delta_events thr) then
    volume_healthy at_ (cx_point ctx) (vo_observed_eps v) (vo_expected_eps v)
      ("change of " +:+ fmt_fixed 0 (directional d v) +:+ " events/bucket is below the " +:+
       fmt_fixed 0 (th_min_absolute_delta_events thr) +:+ " minimum absolute delta")
  else volume_score ctx at_ d cell v observed_ratio facts.

(** Guard 4. *)
Definition volume_ratio (ctx : DetectionContext) (at_ : AnomalyType) (d : direction) (cell : BaselineCell)
    (v : Volume) (facts : jobj) : result AnomalyEvidence :=
  let p := cx_point ctx in
  let thr := cx_thresholds ctx in
  observed_ratio <- ratio (vo_observed_eps v) (vo_expected_eps v) ;;
  match observed_ratio with
  | None =>
      match d with
      | Down =>
          o <- round_digits 3 (vo_observed_eps v) ;;
          Ok (healthy_at at_ p (Some o) (Some f0) "baseline expects no traffic; a drop is not defined")
      | Up =>
          volume_delta ctx at_ d cell v None (facts ++ [("ratio", JNull); ("ratio_basis", JStr "expected_zero")])
      end
  | Some r =>
      rr <- round_digits 4 r ;;
      if negb (ratio_ok thr d r) then
        volume_healthy at_ p (vo_observed_eps v) (vo_expected_eps v)
          ("observed/expected ratio " +:+ fmt_fixed 2 r +:+ " has not " +:+
           (match d with Up => "reached" | Down => "fallen to" end) +:+ " " +:+
           fmt_fixed 2 (match d with Up => th_spike_ratio thr | Down => th_drop_ratio thr end))
      else volume_delta ctx at_ d cell v (Some r) (facts ++ [("ratio", JFloat rr)])
  end.

(** [_volume]: guards 1 to 3, then the others. *)
Definition volume (ctx : DetectionContext) (at_ : AnomalyType) (d : direction) : result AnomalyEvidence :=
  let p := cx_point ctx in
  let thr := cx_thresholds ctx in
  if negb (bool_decide (mp_completeness p = BC_COMPLETE)) then
    Ok (insufficient_at at_ p
          ("metric bucket is " +:+ py_lower (BucketCompleteness_value (mp_completeness p)) +:+
           ", not a whole observation") 0)
  else
    match cx_baselines ctx !! "average_eps" with
    | None => Ok (insufficient_at at_ p "no volume baseline for this weekday/hour cell yet" 0)
    | Some cell =>
        if negb (bc_is_reliable cell) then
          Ok (insufficient_at at_ p
                ("baseline has " +:+ pretty (bc_sample_count cell) +:+
                 " sample(s), below the minimum required for a defensible verdict") (bc_sample_count cell))
        else
          seconds <- bucket_seconds ctx ;;
          let v := volume_of p cell seconds in
          facts <- volume_facts v cell seconds ;;
          if flt (subject_events d v) (th_min_bucket_events thr) then
            volume_healthy at_ p (vo_observed_eps v) (vo_expected_eps v)
              (fmt_fixed 0 (subject_events d v) +:+ " events/bucket is below the " +:+
               fmt_fixed 0 (th_min_bucket_events thr) +:+ " minimum for a defensible volume verdict")
          else volume_ratio ctx at_ d cell v facts
    end.

Definition detect_volume_drop (ctx : DetectionContext) := volume ctx AT_VOLUME_DROP Down.
Definition detect_volume_spike (ctx : DetectionContext) := volume ctx AT_VOLUME_SPIKE Up.
End Volume.

(** ** 4 to 9 *)

Definition present {A} (l : list (option A)) : list A := omap id l.

(** [min(ratios)] *)
Fixpoint min_of (x : float) (l : list float) : float :=
  match l with [] => x | y :: l => min_of (fmin x y) l end.

Definition detect_parsing_degradation (ctx : DetectionContext) : result AnomalyEvidence :=
  let p := cx_point ctx in
  let at_ := AT_PARSING_DEGRADATION in
  match present [mp_parsed_username_ratio p; mp_parsed_source_ip_ratio p] with
  | [] => Ok (unknown_at at_ p "no parse-ratio data")
  | r :: ratios =>
      let worst := min_of r ratios in
      let floor := th_min_parsed_ratio (cx_thresholds ctx) in
      rw <- round_digits 3 worst ;;
      if flt worst floor then
        gap <- round_digits 3 (fsub floor worst) ;;
        share <- fdiv (fsub floor worst) (fmax floor (lit 1 100)) ;;
        conf <- round_digits 3 (fmin f1 share) ;;
        Ok (finding at_ p SEV_MEDIUM (Some rw) (Some floor) (Some floor) (Some f1) (Some gap) (Some floor)
              (mp_event_count p) conf
              ("field-extraction ratio " +:+ fmt_fixed 2 worst +:+ " fell below floor " +:+ fmt_fixed 2 floor) [])
      else Ok (healthy_at at_ p (Some rw) (Some floor) healthy_reason)
  end.

Definition detect_unknown_event_spike (ctx : DetectionContext) : result AnomalyEvidence :=
  let p := cx_point ctx in
  let at_ := AT_UNKNOWN_EVENT_SPIKE in
  if mp_event_count p <=? 0 then Ok (unknown_at at_ p "no events to classify")
  else
    ratio <- truediv (mp_unknown_event_count p) (mp_event_count p) ;;
    let ceiling := th_max_unknown_ratio (cx_thresholds ctx) in
    rr <- round_digits 3 ratio ;;
    if flt ceiling ratio then
      gap <- round_digits 3 (fsub ratio ceiling) ;;
      share <- fdiv (fsub ratio ceiling) (fmax ceiling (lit 1 100)) ;;
      conf <- round_digits 3 (fmin f1 share) ;;
      Ok (finding at_ p SEV_MEDIUM (Some rr) (Some ceiling) (Some f0) (Some ceiling) (Some gap) (Some ceiling)
            (mp_event_count p) conf
            ("unknown-event ratio " +:+ fmt_fixed 2 ratio +:+ " exceeds ceiling " +:+ fmt_fixed 2 ceiling) [])
    else Ok (healthy_at at_ p (Some rr) (Some ceiling) healthy_reason).

Definition detect_timestamp_delay (ctx : DetectionContext) : result AnomalyEvidence :=
  let p := cx_point ctx in
  let at_ := AT_TIMESTAMP_DELAY in
  match mp_event_delay_seconds p with
  | None => Ok (unknown_at at_ p "no delay measurement")
  | Some delay =>
      let limit := fmul (th_delay_interval_multiple (cx_thresholds ctx)) (cx_expected_interval_seconds ctx) in
      rd <- round_digits 1 delay ;;
      rl <- round_digits 1 limit ;;
      if flt limit delay then
        times <- fdiv delay (fmax limit f1) ;;
        rt <- round_digits 2 times ;;
        Ok (finding at_ p SEV_MEDIUM (Some rd) (Some rl) (Some f0) (Some limit) (Some rt) (Some rl) 1 (lit 8 10)
              ("event delay " +:+ fmt_fixed 0 delay +:+ "s exceeds " +:+ fmt_fixed 0 limit +:+ "s") [])
      else Ok (healthy_at at_ p (Some rd) (Some rl) healthy_reason)
  end.

(** [n / max(x, 1)]: an integer division when [x < 1]. *)
Definition int_div_max_1 (n : Z) (x : float) : result float :=
  if flt x f1 then truediv n 1 else int_div n x.

Definition detect_cardinality_drop (ctx : DetectionContext) : result AnomalyEvidence :=
  let p := cx_point ctx in
  let at_ := AT_CARDINALITY_DROP in
  match reliable (cx_baselines ctx !! "distinct_source_ip_count") with
  | None => Ok (unknown_at at_ p "no reliable cardinality baseline")
  | Some cell =>
      if fle (bc_median cell) f0 then Ok (unknown_at at_ p "no reliable cardinality baseline")
      else
        let frac := th_cardinality_drop_fraction (cx_thresholds ctx) in
        let expected_floor := fmul (bc_median cell) frac in
        let ips := mp_distinct_source_ip_count p in
        n <- float_of_int ips ;;
        rm <- round_digits 1 (bc_median cell) ;;
        if int_lt_float ips expected_floor then
          rf <- round_digits 1 expected_floor ;;
          share <- int_div_max_1 ips (bc_median cell) ;;
          dev <- round_digits 3 (fsub f1 share) ;;
          conf <- confidence (Some cell) (lit 4 1) ;;
          Ok (finding at_ p SEV_MEDIUM (Some n) (Some rm) (Some rf) (bc_p95 cell) (Some dev) (Some rf)
                (bc_sample_count cell) conf
                ("distinct source IPs " +:+ pretty ips +:+ " dropped below " +:+ fmt_percent 0 frac +:+
                 " of baseline median " +:+ fmt_fixed 0 (bc_median cell)) [])
        else Ok (healthy_at at_ p (Some n) (Some rm) healthy_reason)
  end.

Definition detect_collection_error (ctx : DetectionContext) : result AnomalyEvidence :=
  let p := cx_point ctx in
  let at_ := AT_COLLECTION_ERROR in
  let limit := th_collection_error_threshold (cx_thresholds ctx) in
  n <- float_of_int (mp_collection_error_count p) ;;
  if limit <? mp_collection_error_count p then
    l <- float_of_int limit ;;
    Ok (finding at_ p SEV_HIGH (Some n) (Some l) (Some f0) (Some l) (Some n) (Some l) 1 (lit 95 100)
          (pretty (mp_collection_error_count p) +:+ " collection error(s) in the interval") [])
  else Ok (healthy_at at_ p (Some n) (Some f0) healthy_reason).

(** The signatures before this one that equal it, newest first. *)
Fixpoint same_run (signature : string) (newest_first : list string) : Z :=
  match newest_first with
  | sig :: rest => if decide (sig = signature) then 1 + same_run signature rest else 0
  | [] => 0
  end.

Definition detect_repeated_payload (ctx : DetectionContext) : result AnomalyEvidence :=
  let p := cx_point ctx in
  let at_ := AT_REPEATED_PAYLOAD in
  match mp_payload_signature p with
  | None => Ok (unknown_at at_ p "no payload signature")
  | Some signature =>
      let need := th_repeated_payload_intervals (cx_thresholds ctx) in
      let streak := 1 + same_run signature (rev (cx_recent_signatures ctx)) in
      s <- float_of_int streak ;;
      if need <=? streak then
        below <- float_of_int (need - 1) ;;
        n <- float_of_int need ;;
        share <- truediv streak (need * 2) ;;
        conf <- round_digits 3 (fmin f1 share) ;;
        Ok (finding at_ p SEV_MEDIUM (Some s) (Some below) (Some f0) (Some below) (Some s) (Some n) streak conf
              ("identical payload signature repeated for " +:+ pretty streak +:+ " consecutive intervals") [])
      else n <- float_of_int need ;; Ok (healthy_at at_ p (Some s) (Some n) healthy_reason)
  end.

(** [DETECTORS], in canonical order. *)
Definition DETECTORS (mad_floor_ratio : float) : list (DetectionContext → result AnomalyEvidence) :=
  [detect_no_events; detect_collection_error; detect_volume_drop mad_floor_ratio;
   detect_volume_spike mad_floor_ratio; detect_parsing_degradation; detect_unknown_event_spike;
   detect_timestamp_delay; detect_cardinality_drop; detect_repeated_payload].

(** [(d(ctx) for d in DETECTORS)] *)
Definition detect_all (mad_floor_ratio : float) (ctx : DetectionContext) : result (list AnomalyEvidence) :=
  mapM_result (λ d : DetectionContext → result AnomalyEvidence, d ctx) (DETECTORS mad_floor_ratio).
