(* ===== verification/DetectorFacts.v ===== *)
(** * Facts on the robust statistics

    The deviation scale is never small, so a robust score always exists. *)

From S2P Require Import Prelude PyFloat PyFloatFacts Enums Statistics PyStr PyJson PyTime AnomalyLifecycle Detectors.

(** The greater of two floats is at least the second. *)
Lemma fmax_ge a b : is_nan a = false → is_nan b = false → fle b (fmax a b) = true.
Proof.
  intros Ha Hb. unfold fmax. destruct (flt a b) eqn:E; [by apply fle_refl|].
  rewrite flt_fle in E by done. by apply negb_false_iff in E.
Qed.

Lemma below_not_nan k x : below k x → is_nan x = false.
Proof. by destruct x. Qed.

(** A float that is at least [1e-9] is not small. *)
Lemma above_tiny k x : below k x → fle tiny x = true → ∃ j, finite_mag false j x ∧ -81 <= j.
Proof.
  intros Hb Hle. apply fle_true in Hle as (_ & _ & Hle). destruct x as [s|s| |s m e]; try done.
  - destruct Hle. vm_compute. by left.
  - destruct s.
    + destruct Hle. left. vm_compute. done.
    + destruct Hb as [_ Hd]. exists (Zdigits2 (Zpos m) + e). split; [by exists m, e|].
      destruct (Zdigits2_bounds (Zpos m) ltac:(lia)) as (? & _).
      assert (~ e < -82); [|lia]. intros He. apply Hle. right. split; [done|]. left. exact He.
Qed.

Lemma effective_scale_ok med madv mfr : below 100 med → below 100 madv → below 100 mfr →
  ∃ j, finite_mag false j (effective_scale med madv mfr) ∧ -81 <= j.
Proof.
  intros H1 H2 H3. unfold effective_scale.
  assert (Hm : below 202 (fmul madv MAD_TO_STD)).
  { apply (fmul_below 100 100); [done| |lia..]. closed_below. }
  assert (Ht : below 202 tiny) by closed_below.
  assert (Hf : below 202 (fmul (fabs med) mfr)).
  { apply (fmul_below 100 100); [by apply fabs_below|done|lia..]. }
  apply (above_tiny 202); [by repeat apply fmax_below|].
  eapply fle_trans; [|apply fmax_ge; eapply below_not_nan; [exact Hm|by apply fmax_below]].
  apply fmax_ge; by eapply below_not_nan.
Qed.

(** A robust score exists. *)
Lemma robust_z_ok value med madv mfr : below 100 value → below 100 med → below 100 madv → below 100 mfr →
  ∃ z, robust_z value med madv mfr = Ok z ∧ below 185 z.
Proof.
  intros Hv Hm Ha Hf. unfold robust_z. destruct (effective_scale_ok med madv mfr) as (j & Hj & ?); [done..|].
  eapply (fdiv_below _ _ 102); [|exact Hj|lia..]. by apply (fsub_below 100); [..|lia].
Qed.

(** * Facts on the detectors

    No detector raises on values of ordinary size. *)


(** ** Values of ordinary size *)

(** Zero, or a magnitude between [2^-100] and [2^100]. *)
Definition tame (x : float) : Prop :=
  is_zero x = true ∨ ∃ s k, finite_mag s k x ∧ -100 <= k <= 100.

Definition tame_opt (x : option float) : Prop := match x with Some x => tame x | None => True end.

Definition small (n : Z) : Prop := Z.abs n < 2 ^ 60.

Lemma tame_below x : tame x → below 100 x.
Proof.
  intros [H|(s & k & (m & e & -> & Hk & Hd) & ?)]; [by destruct x|]. cbn [below]. lia.
Qed.

Lemma ok_bind {A B} (m : result A) (f : A → result B) :
  is_ok m → (∀ a, m = Ok a → is_ok (f a)) → is_ok (a <- m ;; f a).
Proof. intros [a Ha] Hf. rewrite Ha. cbn [res_bind]. by apply Hf. Qed.

Lemma ok_ret {A} (a : A) : is_ok (Ok a).
Proof. by eexists. Qed.

#[export] Hint Resolve ok_ret : core.

Lemma small_float n : small n → ∃ x, float_of_int n = Ok x ∧ below 61 x.
Proof. intros H. by apply (float_of_int_below n 60). Qed.

(** ** The detectors return *)

Definition tame_thresholds (t : Thresholds) : Prop :=
  tame (th_deviation_z t) ∧ tame (th_spike_ratio t) ∧ is_zero (th_spike_ratio t) = false ∧ tame (th_drop_ratio t) ∧
  tame (th_min_parsed_ratio t) ∧ tame (th_max_unknown_ratio t) ∧ tame (th_delay_interval_multiple t) ∧
  tame (th_cardinality_drop_fraction t) ∧ small (th_collection_error_threshold t) ∧
  small (th_repeated_payload_intervals t) ∧ th_repeated_payload_intervals t ≠ 0.

Definition tame_point (p : MetricPoint) : Prop :=
  dt_same (mp_interval_end p) (mp_interval_start p) = true ∧
  Z.abs (dt_us (mp_interval_end p) - dt_us (mp_interval_start p)) < 2 ^ 60 ∧
  small (mp_event_count p) ∧ tame (mp_average_eps p) ∧ tame_opt (mp_event_delay_seconds p) ∧
  small (mp_unknown_event_count p) ∧ tame_opt (mp_parsed_username_ratio p) ∧
  tame_opt (mp_parsed_source_ip_ratio p) ∧ small (mp_distinct_source_ip_count p) ∧ small (mp_collection_error_count p).

Definition tame_cell (c : BaselineCell) : Prop :=
  tame (bc_median c) ∧ tame (bc_mad c) ∧ tame_opt (bc_p05 c) ∧ tame_opt (bc_p95 c) ∧ small (bc_sample_count c) ∧
  tame (bc_completeness c).

Record tame_context (ctx : DetectionContext) : Prop := {
  tc_point : tame_point (cx_point ctx);
  tc_thresholds : tame_thresholds (cx_thresholds ctx);
  tc_cells : map_Forall (λ _, tame_cell) (cx_baselines ctx);
  tc_interval : below 100 (cx_expected_interval_seconds ctx);
  tc_signatures : small (Z.of_nat (length (cx_recent_signatures ctx)) + 1);
  tc_silence : small (cx_preceding_empty_buckets ctx + 1) }.

Lemma confidence_below c x : (∀ c', c = Some c' → small (bc_sample_count c')) → below 190 x →
  ∃ y, confidence c x = Ok y ∧ below 250 y.
Proof.
  intros Hc Hx. destruct c as [c|]; [|eexists; split; [done|closed_below]]. unfold confidence, int_div.
  destruct (small_float _ (Hc c eq_refl)) as (n & -> & Hn). cbn [res_bind].
  destruct (fdiv_below n (lit 30 1) 61 false 5 70) as (q & -> & Hq); [done| |lia..|].
  { by eexists _, _; vm_compute. }
  destruct (fdiv_below x (lit 6 1) 190 false 3 190) as (q2 & -> & Hq2); [done| |lia..|].
  { by eexists _, _; vm_compute. }
  cbn [res_bind]. apply (round_digits_below _ _ 200); [lia| |lia].
  assert (below 190 f1) by closed_below.
  apply (fadd_below 198); [| |lia].
  - apply (fmul_below 0 190); [closed_below| |lia..]. apply fmin_below; [done|]. eapply below_mono; [done|lia].
  - apply (fmul_below 0 190); [closed_below| |lia..]. apply fmin_below; done.
Qed.

Lemma confidence_ok c x : (∀ c', c = Some c' → small (bc_sample_count c')) → below 190 x → is_ok (confidence c x).
Proof. intros Hc Hx. destruct (confidence_below c x Hc Hx) as (y & -> & _). by eexists. Qed.

(** A ratio exists, or the expected value is zero. *)
Lemma ratio_total o e : tame o → tame e →
  ∃ r, ratio o e = Ok r ∧ ∀ x, r = Some x → below 900 x.
Proof.
  intros Ho He. unfold ratio. destruct (feq e f0) eqn:E; [by eexists|].
  destruct He as [Hz|(s & k & Hk & ?)].
  - destruct e as [[]| | |]; done.
  - destruct (fdiv_below o e 100 s k 900) as (z & -> & Hz); [by apply tame_below|done|lia..|].
    eexists. split; [done|]. by intros x [= <-].
Qed.

(** [round] and [float] of values of ordinary size. *)
Ltac round_ok := apply ok_bind; [eapply (round_digits_ok _ _ 900); [lia| |lia]|intros ? _].

Lemma below_opt k o x : tame_opt o → o = Some x → 100 <= k → below k x.
Proof. intros H -> ?. eapply below_mono; [by apply tame_below|done]. Qed.

Lemma tame_below' k x : tame x → 100 <= k → below k x.
Proof. intros H ?. eapply below_mono; [by apply tame_below|done]. Qed.

Lemma reliable_some cell c : reliable cell = Some c → cell = Some c ∧ bc_is_reliable c = true.
Proof. unfold reliable. destruct cell as [c'|]; [|done]. destruct (bc_is_reliable c') eqn:E; [|done]. by intros [= ->]. Qed.

Section Total.
Context (mfr : float) (ctx : DetectionContext) (Hmfr : tame mfr) (Hctx : tame_context ctx).

Lemma no_events_ok : is_ok (detect_no_events ctx).
Proof using Hctx.
  destruct Hctx as [Hp Ht Hc Hi Hs Hg]. unfold detect_no_events.
  destruct Hp as (_ & _ & Hcount & _).
  case_match. { destruct (small_float _ Hcount) as (n & -> & _). by eexists. }
  case_match; [by eexists|]. case_match; [by eexists|]. case_match; [by eexists|].
  destruct (reliable _) as [c|] eqn:E; [|by eexists]. case_match; [by eexists|].
  destruct (small_float _ Hg) as (n & -> & Hn). cbn [res_bind].
  round_ok; [|done]. apply fmin_below; [closed_below|]. apply (fadd_below 898); [closed_below| |lia].
  apply (fmul_below 0 61); [closed_below|done|lia..].
Qed.

Lemma collection_error_ok : is_ok (detect_collection_error ctx).
Proof using Hctx.
  destruct Hctx as [Hp Ht _ _ _ _]. unfold detect_collection_error.
  destruct Hp as (_ & _ & _ & _ & _ & _ & _ & _ & _ & Herr), Ht as (_ & _ & _ & _ & _ & _ & _ & _ & Hth & _).
  destruct (small_float _ Herr) as (n & -> & _). cbn [res_bind].
  case_match; [|by eexists]. destruct (small_float _ Hth) as (l & -> & _). by eexists.
Qed.

Lemma min_of_below k x l : below k x → Forall (below k) l → below k (min_of x l).
Proof. intros Hx Hl. revert x Hx. induction Hl as [|y l Hy _ IH]; intros x Hx; [done|]. apply IH. by apply fmin_below. Qed.

(** A share [a / max(b, 1/100)]. *)
Lemma floor_share_ok a b : below 103 a → below 100 b → ∃ z, fdiv a (fmax b (lit 1 100)) = Ok z ∧ below 300 z.
Proof.
  intros Ha Hb. assert (Hc : below 100 (lit 1 100)) by closed_below.
  assert (Hm : below 100 (fmax b (lit 1 100))) by by apply fmax_below.
  destruct (above_tiny 100 (fmax b (lit 1 100))) as (j & Hj & ?); [done| |].
  { eapply fle_trans; [|apply fmax_ge; by eapply below_not_nan]. by vm_compute. }
  eapply (fdiv_below _ _ 103); [done|exact Hj|lia..].
Qed.

Lemma parsing_ok : is_ok (detect_parsing_degradation ctx).
Proof using Hctx.
  destruct Hctx as [Hp Ht _ _ _ _]. unfold detect_parsing_degradation.
  destruct Hp as (_ & _ & _ & _ & _ & _ & Hu & Hs & _), Ht as (_ & _ & _ & _ & Hfloor & _).
  assert (Hall : Forall (below 100) (present [mp_parsed_username_ratio (cx_point ctx); mp_parsed_source_ip_ratio (cx_point ctx)])).
  { unfold present. destruct (mp_parsed_username_ratio _), (mp_parsed_source_ip_ratio _); cbn;
      repeat constructor; by apply tame_below. }
  destruct (present _) as [|r l]; [by eexists|]. inversion Hall as [|? ? Hr Hl]; subst.
  pose proof (min_of_below _ _ _ Hr Hl) as Hw. pose proof (tame_below _ Hfloor) as Hf.
  round_ok; [by eapply below_mono|]. case_match; [|by eexists].
  assert (Hg : below 103 (fsub (th_min_parsed_ratio (cx_thresholds ctx)) (min_of r l))).
  { eapply below_mono; [apply (fsub_below 100); [done|done|lia]|lia]. }
  round_ok; [by eapply below_mono|].
  destruct (floor_share_ok _ _ Hg Hf) as (z & -> & Hz). cbn [res_bind].
  round_ok; [|by eexists]. apply fmin_below; [closed_below|by eapply below_mono].
Qed.

Lemma unknown_spike_ok : is_ok (detect_unknown_event_spike ctx).
Proof using Hctx.
  destruct Hctx as [Hp Ht _ _ _ _]. unfold detect_unknown_event_spike.
  destruct Hp as (_ & _ & Hn & _ & _ & Hu & _), Ht as (_ & _ & _ & _ & _ & Hceil & _).
  case_match eqn:Hpos; [by eexists|]. apply Z.leb_gt in Hpos. pose proof (tame_below _ Hceil) as Hc.
  destruct (truediv_below (mp_unknown_event_count (cx_point ctx)) (mp_event_count (cx_point ctx)) 60 100)
    as (q & -> & Hq); [done|lia..|]. cbn [res_bind].
  round_ok; [by eapply below_mono|]. case_match; [|by eexists].
  assert (Hg : below 103 (fsub q (th_max_unknown_ratio (cx_thresholds ctx)))).
  { eapply below_mono; [apply (fsub_below 100); [done|done|lia]|lia]. }
  round_ok; [by eapply below_mono|].
  destruct (floor_share_ok _ _ Hg Hc) as (z & -> & Hz). cbn [res_bind].
  round_ok; [|by eexists]. apply fmin_below; [closed_below|by eapply below_mono].
Qed.

Lemma one_mag : finite_mag false 1 f1.
Proof. by eexists _, _; vm_compute. Qed.

(** The denominator [max(x, 1)]. *)
Lemma max_1_share_ok k a b : below k a → below k b → 0 <= k <= 800 →
  ∃ z, fdiv a (fmax b f1) = Ok z ∧ below (k + 90) z.
Proof.
  intros Ha Hb Hk. assert (Hm : below (Z.max 1 k) (fmax b f1)).
  { apply fmax_below; [by eapply below_mono; [done|lia]|]. eapply below_mono; [|apply Z.le_max_l]. closed_below. }
  destruct (above_tiny _ _ Hm) as (j & Hj & ?).
  { eapply fle_trans; [|apply fmax_ge; [by eapply below_not_nan|done]]. by vm_compute. }
  eapply (fdiv_below _ _ k); [done|exact Hj|lia..].
Qed.

Lemma delay_ok : is_ok (detect_timestamp_delay ctx).
Proof using Hctx.
  destruct Hctx as [Hp Ht _ Hi _ _]. unfold detect_timestamp_delay.
  destruct Hp as (_ & _ & _ & _ & Hd & _), Ht as (_ & _ & _ & _ & _ & _ & Hm & _).
  destruct (mp_event_delay_seconds _) as [d|]; [|by eexists]. cbn [tame_opt] in Hd.
  pose proof (tame_below' 300 _ Hd ltac:(lia)) as Hbd.
  assert (Hl : below 300 (fmul (th_delay_interval_multiple (cx_thresholds ctx)) (cx_expected_interval_seconds ctx))).
  { apply (fmul_below 100 100); [by apply tame_below|done|lia|lia]. }
  round_ok; [by eapply below_mono|]. round_ok; [by eapply below_mono|]. case_match; [|by eexists].
  destruct (max_1_share_ok 300 d _ Hbd Hl ltac:(lia)) as (z & -> & Hz). cbn [res_bind].
  round_ok; [by eapply below_mono|]. by eexists.
Qed.

Lemma int_div_max_1_ok n x : small n → below 100 x → ∃ z, int_div_max_1 n x = Ok z ∧ below 190 z.
Proof.
  intros Hn Hx. unfold int_div_max_1, int_div. destruct (flt x f1) eqn:E.
  - destruct (truediv_below n 1 60 190) as (q & -> & Hq); [done|lia..|]. by eexists.
  - destruct (small_float _ Hn) as (m & -> & Hm). cbn [res_bind].
    destruct (max_1_share_ok 100 m x) as (z & Hz & Hb); [by eapply below_mono|done|lia|].
    replace (fmax x f1) with x in Hz by (unfold fmax; by rewrite E). by exists z.
Qed.

Lemma cardinality_ok : is_ok (detect_cardinality_drop ctx).
Proof using Hctx.
  destruct Hctx as [Hp Ht Hcells _ _ _]. unfold detect_cardinality_drop.
  destruct Hp as (_ & _ & _ & _ & _ & _ & _ & _ & Hip & _), Ht as (_ & _ & _ & _ & _ & _ & _ & Hfr & _).
  destruct (reliable _) as [c|] eqn:E; [|by eexists]. apply reliable_some in E as [E _].
  pose proof (Hcells _ _ E) as (Hmed & _ & _ & _ & Hsc & _). case_match; [by eexists|].
  destruct (small_float _ Hip) as (n & -> & Hn). cbn [res_bind]. pose proof (tame_below _ Hmed) as Hm.
  round_ok; [by eapply below_mono|]. case_match; [|by eexists].
  round_ok. { apply (fmul_below 100 100); [done|by apply tame_below|lia|lia]. }
  destruct (int_div_max_1_ok _ _ Hip Hm) as (z & -> & Hz). cbn [res_bind].
  round_ok. { eapply below_mono; [apply (fsub_below 190); [closed_below|done|lia]|lia]. }
  apply ok_bind; [|by eexists]. apply confidence_ok; [by intros c' [= <-]|closed_below].
Qed.

Lemma same_run_bounds x l : 0 <= same_run x l <= Z.of_nat (length l).
Proof. induction l as [|y l IH]; cbn [same_run length]; [lia|]. case_match; lia. Qed.

Lemma repeated_ok : is_ok (detect_repeated_payload ctx).
Proof using Hctx.
  destruct Hctx as [Hp Ht _ _ Hsig _]. unfold detect_repeated_payload.
  destruct Ht as (_ & _ & _ & _ & _ & _ & _ & _ & _ & Hneed & Hne).
  destruct (mp_payload_signature _) as [x|]; [|by eexists].
  pose proof (same_run_bounds x (rev (cx_recent_signatures ctx))) as Hb. rewrite length_rev in Hb.
  set (streak := 1 + _). assert (Hs : small streak) by (unfold small, streak in *; lia).
  destruct (small_float _ Hs) as (s & -> & _). cbn [res_bind].
  assert (Hn1 : Z.abs (th_repeated_payload_intervals (cx_thresholds ctx) - 1) < 2 ^ 61) by (unfold small in *; lia).
  destruct (small_float _ Hneed) as (n & Hn & _).
  case_match; [|rewrite Hn; by eexists].
  destruct (float_of_int_below _ 61 62 Hn1) as (b & -> & _); [lia..|]. rewrite Hn. cbn [res_bind].
  destruct (truediv_below streak (th_repeated_payload_intervals (cx_thresholds ctx) * 2) 60 100)
    as (q & -> & Hq); [done|lia..|]. cbn [res_bind].
  round_ok; [|by eexists]. apply fmin_below; [closed_below|by eapply below_mono].
Qed.

(** *** Volume *)

Lemma bucket_seconds_ok : ∃ s, bucket_seconds ctx = Ok s ∧ below 100 s.
Proof using Hctx.
  destruct Hctx as [(Hsame & Hw & _) _ _ Hi _ _]. unfold bucket_seconds, dt_sub. rewrite Hsame. cbn [res_bind].
  destruct (truediv_below (dt_us (mp_interval_end (cx_point ctx)) - dt_us (mp_interval_start (cx_point ctx)))
              us_per_second 60 100) as (q & -> & Hq); [done|done|lia..|]. cbn [res_bind].
  eexists. split; [done|]. by case_match.
Qed.

Record volume_bounds (v : Volume) : Prop := {
  vb_observed : tame (vo_observed_eps v); vb_expected : tame (vo_expected_eps v);
  vb_observed_events : below 201 (vo_observed_events v); vb_expected_events : below 201 (vo_expected_events v);
  vb_delta : below 203 (vo_delta_events v) }.

Lemma volume_of_bounds cell s : tame_cell cell → below 100 s → volume_bounds (volume_of (cx_point ctx) cell s).
Proof using Hctx.
  intros (Hm & _) Hs. destruct Hctx as [(_ & _ & _ & Ho & _) _ _ _ _ _].
  assert (below 201 (fmul (mp_average_eps (cx_point ctx)) s)) by (apply (fmul_below 100 100); [by apply tame_below|done|lia..]).
  assert (below 201 (fmul (bc_median cell) s)) by (apply (fmul_below 100 100); [by apply tame_below|done|lia..]).
  split; cbn [volume_of vo_observed_eps vo_expected_eps vo_observed_events vo_expected_events vo_delta_events];
    [done..|]. by apply (fsub_below 201); [..|lia].
Qed.

Lemma volume_facts_ok v cell s : volume_bounds v → tame_cell cell → is_ok (volume_facts v cell s).
Proof.
  intros [Ho He Hoe Hee Hd] (_ & _ & _ & _ & _ & Hc). unfold volume_facts.
  round_ok; [by apply tame_below'|]. round_ok; [by apply tame_below'|]. round_ok; [by eapply below_mono|].
  round_ok; [by eapply below_mono|]. round_ok; [by eapply below_mono|]. round_ok; [by apply tame_below'|]. by eexists.
Qed.

Lemma volume_healthy_ok at_ p o e reason : tame o → tame e → is_ok (volume_healthy at_ p o e reason).
Proof. intros Ho He. unfold volume_healthy. round_ok; [by apply tame_below'|]. round_ok; [by apply tame_below'|]. by eexists. Qed.

Lemma volume_severity_ok r m d : is_ok (volume_severity r m (cx_thresholds ctx) d).
Proof using Hctx.
  destruct Hctx as [_ (_ & _ & Hz & _) _ _ _ _]. unfold volume_severity. apply ok_bind; [|by eexists].
  destruct r as [r|]; [|by eexists]. apply ok_bind; [|by eexists]. destruct d; unfold fdiv.
  - rewrite Hz. by eexists.
  - destruct (flt f0 r) eqn:E; [|by eexists]. destruct (is_zero r) eqn:Ez; [|by eexists]. by destruct r.
Qed.

Lemma band_below cell : tame_cell cell → below 220 (eb_lower (expected_band mfr cell)) ∧ below 220 (eb_upper (expected_band mfr cell)).
Proof using Hmfr.
  intros (Hm & _ & H05 & H95 & _). cbn [expected_band eb_lower eb_upper].
  assert (Hs : below 210 (fmax (fmul (fabs (bc_median cell)) mfr) tiny)).
  { apply fmax_below; [|closed_below]. apply (fmul_below 100 100); [apply fabs_below|..|lia|lia]; by apply tame_below. }
  pose proof (tame_below' 210 _ Hm ltac:(lia)) as Hb. split.
  - destruct (bc_p05 cell) eqn:E; [by eapply below_opt; [exact H05|done|]|].
    eapply below_mono; [by apply (fsub_below 210); [..|lia]|lia].
  - destruct (bc_p95 cell) eqn:E; [by eapply below_opt; [exact H95|done|]|].
    eapply below_mono; [by apply (fadd_below 210); [..|lia]|lia].
Qed.

Lemma volume_confidence_ok cell m st : tame_cell cell → below 190 m → is_ok (volume_confidence cell m st).
Proof.
  intros (_ & _ & _ & _ & Hsc & Hco) Hm. unfold volume_confidence.
  destruct (confidence_below (Some cell) m) as (b & -> & Hb); [by intros c' [= <-]|done|]. cbn [res_bind].
  assert (Hv : below 500 (fmul b (fmin f1 (fadd (bc_completeness cell) (lit 1 2))))).
  { apply (fmul_below 250 200); [done| |lia..]. apply fmin_below; [closed_below|].
    eapply below_mono; [apply (fadd_below 100); [by apply tame_below|closed_below|lia]|lia]. }
  eapply (round_digits_ok _ _ 500); [lia| |lia]. case_match; [done|]. apply fmin_below; [done|closed_below].
Qed.

Lemma volume_score_ok at_ d cell v r facts : tame_cell cell → volume_bounds v →
  is_ok (volume_score mfr ctx at_ d cell v r facts).
Proof using Hmfr Hctx.
  intros Hcell [Ho He _ _ _]. unfold volume_score, robust_z_with_status.
  pose proof Hcell as (Hmed & Hmad & _).
  destruct (robust_z_ok (vo_observed_eps v) (bc_median cell) (bc_mad cell) mfr) as (z & -> & Hz); [by apply tame_below..|].
  cbn [res_bind]. round_ok; [by eapply below_mono|].
  destruct (band_below cell Hcell) as [Hlo Hup].
  apply ok_bind.
  { case_match; [by eexists|]. round_ok; [|by eexists]. destruct d; by eapply below_mono. }
  intros facts' _. case_match; [by apply volume_healthy_ok|].
  apply ok_bind; [by apply volume_severity_ok|intros sev _].
  round_ok; [by apply tame_below'|]. round_ok; [by apply tame_below'|]. round_ok; [by eapply below_mono|].
  apply ok_bind; [|by eexists]. apply volume_confidence_ok; [done|].
  destruct Hctx as [_ (Hdz & _) _ _ _ _]. case_match.
  - apply fabs_below. by eapply below_mono.
  - by apply tame_below'.
Qed.

Lemma volume_ok at_ d : is_ok (volume mfr ctx at_ d).
Proof using Hmfr Hctx.
  unfold volume. case_match; [by eexists|].
  destruct (cx_baselines ctx !! "average_eps") as [cell|] eqn:E; [|by eexists].
  pose proof (tc_cells _ Hctx _ _ E) as Hcell. case_match; [by eexists|].
  destruct (bucket_seconds_ok) as (s & -> & Hs). cbn [res_bind].
  pose proof (volume_of_bounds cell s Hcell Hs) as Hv.
  apply ok_bind; [by apply volume_facts_ok|intros facts _]. pose proof Hv as [Ho He _ _ _].
  case_match; [by apply volume_healthy_ok|]. unfold volume_ratio, volume_delta.
  destruct (ratio_total _ _ Ho He) as (r & -> & Hr). cbn [res_bind].
  destruct r as [r|].
  - round_ok; [by apply Hr|]. case_match; [by apply volume_healthy_ok|].
    case_match; [by apply volume_healthy_ok|by apply volume_score_ok].
  - destruct d.
    + case_match; [by apply volume_healthy_ok|by apply volume_score_ok].
    + round_ok; [by apply tame_below'|]. by eexists.
Qed.

Lemma detect_all_ok : is_ok (detect_all mfr ctx).
Proof using Hmfr Hctx.
  unfold detect_all. apply mapM_result_total. unfold DETECTORS. repeat constructor;
    eauto using no_events_ok, collection_error_ok, parsing_ok, unknown_spike_ok, delay_ok, cardinality_ok,
      repeated_ok, volume_ok.
Qed.
End Total.
