(* ===== verification/DetectorTheorems.v ===== *)
(** * Theorems of the detectors

    When the volume detectors and the silence detector fire, and that every detector returns. *)

From S2P Require Import Prelude PyStr PyFloat PyFloatFacts PyJson PyTime Enums AnomalyLifecycle Statistics Detectors DetectorFacts.

(** ** Vocabulary *)

(** The bucket can be judged for volume: it was wholly observed, and its cell is reliable. *)
Definition volume_judgeable (ctx : DetectionContext) (cell : BaselineCell) : Prop :=
  mp_completeness (cx_point ctx) = BC_COMPLETE ∧ cx_baselines ctx !! "average_eps" = Some cell ∧
  bc_is_reliable cell = true.

(** The share of the expected rate is past its limit; a spike from nothing has no share. *)
Definition ratio_guard (thr : Thresholds) (d : direction) (v : Volume) : Prop :=
  ∃ r, ratio (vo_observed_eps v) (vo_expected_eps v) = Ok r ∧
    match r with Some r => ratio_ok thr d r = true | None => d = Up end.

(** The deviation is large for this cell: by its score, or by the expected band when the cell
    has no spread. *)
Definition deviation_guard (mfr : float) (thr : Thresholds) (d : direction) (cell : BaselineCell) (v : Volume) : Prop :=
  if fle (bc_mad cell) f0 then outside_band (expected_band mfr cell) d (vo_observed_eps v) = true
  else ∃ z, robust_z (vo_observed_eps v) (bc_median cell) (bc_mad cell) mfr = Ok z ∧ score_ok thr d z = true.

(** All the guards of the volume detector hold. *)
Definition volume_fires (mfr : float) (ctx : DetectionContext) (d : direction) : Prop :=
  ∃ cell s, volume_judgeable ctx cell ∧ bucket_seconds ctx = Ok s ∧
    let v := volume_of (cx_point ctx) cell s in
    let thr := cx_thresholds ctx in
    flt (subject_events d v) (th_min_bucket_events thr) = false ∧
    ratio_guard thr d v ∧
    flt (directional d v) (th_min_absolute_delta_events thr) = false ∧
    deviation_guard mfr thr d cell v.

(** ** One guard at a time *)

Lemma volume_healthy_signal at_ p o e reason ev : volume_healthy at_ p o e reason = Ok ev →
  ev_signal ev = DS_HEALTHY ∧ ev_insufficient_data ev = false.
Proof. unfold volume_healthy. intros H. bind_inv H. bind_inv H. by injection H as <-. Qed.

Lemma volume_score_signal mfr ctx at_ d cell v r facts ev :
  volume_score mfr ctx at_ d cell v r facts = Ok ev → vo_expected_eps v = bc_median cell →
  ev_insufficient_data ev = false ∧ 
  (ev_signal ev = DS_ANOMALOUS ∧ deviation_guard mfr (cx_thresholds ctx) d cell v ∨
   ev_signal ev = DS_HEALTHY ∧ ¬ deviation_guard mfr (cx_thresholds ctx) d cell v).
Proof.
  unfold volume_score, robust_z_with_status, deviation_guard. intros H _.
  destruct (robust_z (vo_observed_eps v) (bc_median cell) (bc_mad cell) mfr) as [z|] eqn:Hz; [|done].
  cbn [res_bind] in H. cbv zeta in H. bind_inv H. bind_inv H. clear E E0.
  assert (Hd : (if fle (bc_mad cell) f0 then outside_band (expected_band mfr cell) d (vo_observed_eps v) = true
                else ∃ z', Ok z = Ok z' ∧ score_ok (cx_thresholds ctx) d z' = true) ↔
               (if bool_decide ((if fle (bc_mad cell) f0 then RS_DEGENERATE else RS_OK) = RS_OK)
                then score_ok (cx_thresholds ctx) d z
                else outside_band (expected_band mfr cell) d (vo_observed_eps v)) = true).
  { destruct (fle (bc_mad cell) f0); [by rewrite bool_decide_eq_false_2|]. rewrite bool_decide_eq_true_2 by done.
    split; [by intros (? & [= <-] & ?)|eauto]. }
  rewrite Hd. destruct (if bool_decide _ then _ else _) eqn:G; cbn [negb] in H.
  - repeat bind_inv H. injection H as <-. split; [done|]. by left.
  - apply volume_healthy_signal in H as [-> ->]. split; [done|]. by right.
Qed.

(** A verdict that was judged: abnormal exactly when [P]. *)
Definition judged_as (P : Prop) (ev : AnomalyEvidence) : Prop :=
  ev_insufficient_data ev = false ∧ (ev_signal ev = DS_ANOMALOUS ∧ P ∨ ev_signal ev = DS_HEALTHY ∧ ¬ P).

Lemma judged_as_iff (P Q : Prop) ev : judged_as P ev → (P ↔ Q) → judged_as Q ev.
Proof. unfold judged_as. tauto. Qed.

Lemma healthy_judged at_ p o e reason ev (P : Prop) : volume_healthy at_ p o e reason = Ok ev → ¬ P → judged_as P ev.
Proof. intros [H1 H2]%volume_healthy_signal HP. split; [done|]. by right. Qed.

Lemma volume_delta_judged mfr ctx at_ d cell v r facts ev :
  volume_delta mfr ctx at_ d cell v r facts = Ok ev → vo_expected_eps v = bc_median cell →
  judged_as (flt (directional d v) (th_min_absolute_delta_events (cx_thresholds ctx)) = false ∧
             deviation_guard mfr (cx_thresholds ctx) d cell v) ev.
Proof.
  unfold volume_delta. intros H Hv. destruct (flt (directional d v) _) eqn:E.
  - eapply healthy_judged; [exact H|]. by intros [? _].
  - apply volume_score_signal in H; [|done]. eapply judged_as_iff; [exact H|]. tauto.
Qed.

Lemma volume_ratio_judged mfr ctx at_ d cell v facts ev :
  volume_ratio mfr ctx at_ d cell v facts = Ok ev → vo_expected_eps v = bc_median cell →
  judged_as (ratio_guard (cx_thresholds ctx) d v ∧
             flt (directional d v) (th_min_absolute_delta_events (cx_thresholds ctx)) = false ∧
             deviation_guard mfr (cx_thresholds ctx) d cell v) ev.
Proof.
  unfold volume_ratio, ratio_guard. intros H Hv. cbv zeta in H. bind_inv H. rename r into observed.
  destruct observed as [x|].
  - bind_inv H. destruct (ratio_ok (cx_thresholds ctx) d x) eqn:Hr; cbn [negb] in H.
    + apply volume_delta_judged in H; [|done]. eapply judged_as_iff; [exact H|]. naive_solver.
    + eapply healthy_judged; [exact H|]. intros [(y & Hy & Hy2) _]. injection Hy as <-. congruence.
  - destruct d.
    + apply volume_delta_judged in H; [|done]. eapply judged_as_iff; [exact H|]. naive_solver.
    + bind_inv H. injection H as <-. split; [done|]. right. split; [done|].
      intros [(y & Hy & Hy2) _]. by injection Hy as <-.
Qed.

(** The verdict of a volume detector, case by case. *)
Lemma volume_cases mfr ctx at_ d ev : volume mfr ctx at_ d = Ok ev →
  (¬ (∃ cell, volume_judgeable ctx cell) ∧ ev_signal ev = DS_UNKNOWN ∧ ev_insufficient_data ev = true) ∨
  ((∃ cell, volume_judgeable ctx cell) ∧ judged_as (volume_fires mfr ctx d) ev).
Proof.
  unfold volume, volume_fires, volume_judgeable. intros H. cbv zeta in H.
  case_bool_decide as Hc; cbn [negb] in H; [|left; injection H as <-; split; [naive_solver|done]].
  destruct (cx_baselines ctx !! "average_eps") as [cell|] eqn:Hcell;
    [|left; injection H as <-; split; [naive_solver|done]].
  destruct (bc_is_reliable cell) eqn:Hrel; cbn [negb] in H; [|left; injection H as <-; split; [intros (c & _ & [= <-] & ?); congruence|done]].
  right. split; [eauto|]. bind_inv H. rename r into s. bind_inv H. clear E0.
  destruct (flt (subject_events d _) _) eqn:Hs.
  - eapply healthy_judged; [exact H|]. intros (c & t & (_ & [= <-] & _) & [= <-] & ? & _). congruence.
  - apply volume_ratio_judged in H; [|done]. eapply judged_as_iff; [exact H|]. split.
    + intros (? & ? & ?). exists cell, s. done.
    + by intros (c & t & (_ & [= <-] & _) & [= <-] & _ & ?).
Qed.

(** C24: when a volume detector fires. The verdict is abnormal exactly when every guard holds
    together: a whole bucket, a reliable cell, enough events, the ratio limit, the absolute
    change, and either the robust score or, for a cell with no spread, the expected band. A
    bucket or a cell that cannot be judged is UNKNOWN for want of data, never healthy; and
    nothing else is UNKNOWN. *)
Theorem volume_verdict mfr ctx at_ d ev : volume mfr ctx at_ d = Ok ev →
  (ev_signal ev = DS_ANOMALOUS ↔ volume_fires mfr ctx d) ∧
  (ev_signal ev = DS_UNKNOWN ↔ ¬ ∃ cell, volume_judgeable ctx cell) ∧
  (ev_insufficient_data ev = true ↔ ev_signal ev = DS_UNKNOWN).
Proof.
  intros H. destruct (volume_cases _ _ _ _ _ H) as [(Hn & -> & ->)|(Hj & -> & [[-> Hf]|[-> Hf]])].
  - split; [|done]. split; [done|]. intros (cell & s & Hjd & _). destruct Hn. by exists cell.
  - split; [done|]. split; [by split|done].
  - split; [by split|]. split; [by split|done].
Qed.

(** Thresholds that ask for more. *)
Record stricter (a b : Thresholds) : Prop := {
  sr_deviation : fle (th_deviation_z a) (th_deviation_z b) = true;
  sr_spike : fle (th_spike_ratio a) (th_spike_ratio b) = true;
  sr_drop : fle (th_drop_ratio b) (th_drop_ratio a) = true;
  sr_delta : fle (th_min_absolute_delta_events a) (th_min_absolute_delta_events b) = true;
  sr_volume : fle (th_min_bucket_events a) (th_min_bucket_events b) = true }.

Definition with_thresholds (t : Thresholds) (ctx : DetectionContext) : DetectionContext :=
  {| cx_point := cx_point ctx; cx_baselines := cx_baselines ctx; cx_thresholds := t;
     cx_expected_interval_seconds := cx_expected_interval_seconds ctx;
     cx_recent_signatures := cx_recent_signatures ctx; cx_is_expected_active := cx_is_expected_active ctx;
     cx_preceding_empty_buckets := cx_preceding_empty_buckets ctx |}.

Lemma not_below_weaker x a b : fle a b = true → flt x b = false → flt x a = false.
Proof.
  intros Hab Hx. destruct (flt x a) eqn:E; [|done]. by rewrite (flt_fle_trans _ _ _ E Hab) in Hx.
Qed.

(** Asking for more only removes findings. With every volume threshold at least as strict,
    a bucket that is still abnormal was abnormal before, in both directions. *)
Theorem stricter_only_removes mfr ctx t at_ d ev ev' :
  stricter (cx_thresholds ctx) t →
  volume mfr ctx at_ d = Ok ev → volume mfr (with_thresholds t ctx) at_ d = Ok ev' →
  ev_signal ev' = DS_ANOMALOUS → ev_signal ev = DS_ANOMALOUS.
Proof.
  intros [Hz Hsp Hdr Hde Hvo] H H' Ha. apply volume_cases in H' as [(_ & E & _)|(_ & _ & [[_ Hf]|[E _]])]; [congruence| |congruence].
  assert (Hf' : volume_fires mfr ctx d).
  { destruct Hf as (cell & s & Hj & Hs & Hv & (r & Hr & Hg) & Hd & Hdev). cbn [with_thresholds cx_point cx_thresholds] in *.
    exists cell, s. split; [exact Hj|]. split; [exact Hs|]. split; [by eapply not_below_weaker|].
    split. { exists r. split; [exact Hr|]. destruct r as [r|]; [|done]. unfold ratio_ok in *. destruct d; by eapply fle_trans. }
    split; [by eapply not_below_weaker|]. unfold deviation_guard in *. destruct (fle (bc_mad cell) f0); [done|].
    destruct Hdev as (z & Hzz & Hok). exists z. split; [exact Hzz|]. unfold score_ok in *.
    destruct d; [by eapply fle_trans|]. eapply fle_trans; [exact Hok|]. by apply fle_neg. }
  destruct (volume_cases _ _ _ _ _ H) as [(Hn & _)|(_ & _ & [[-> _]|[_ Hn]])]; [|done|done].
  destruct Hf' as (cell & s & Hj & _). destruct Hn. by exists cell.
Qed.

(** One bucket is never both a spike and a drop, when the least absolute change asked for
    is positive. *)
Theorem spike_drop_exclusive mfr ctx up down :
  flt f0 (th_min_absolute_delta_events (cx_thresholds ctx)) = true →
  (∀ cell s, volume_judgeable ctx cell → bucket_seconds ctx = Ok s →
     is_nan (vo_delta_events (volume_of (cx_point ctx) cell s)) = false) →
  detect_volume_spike mfr ctx = Ok up → detect_volume_drop mfr ctx = Ok down →
  ¬ (ev_signal up = DS_ANOMALOUS ∧ ev_signal down = DS_ANOMALOUS).
Proof.
  intros Hmin Hnan Hu Hd [Eu Ed].
  apply volume_cases in Hu as [(_ & E & _)|(_ & _ & [[_ Hf]|[E _]])]; [congruence| |congruence].
  apply volume_cases in Hd as [(_ & E & _)|(_ & _ & [[_ Hg]|[E _]])]; [congruence| |congruence].
  destruct Hf as (c & s & Hj & Hs & _ & _ & H1 & _), Hg as (c' & s' & Hj' & Hs' & _ & _ & H2 & _).
  rewrite Hs in Hs'. injection Hs' as <-. destruct Hj' as (_ & Hc & _). pose proof Hj as (_ & Hc' & _).
  rewrite Hc' in Hc. injection Hc as <-. cbn [directional] in *.
  eapply opposite_not_both; [by apply (Hnan c s)|exact Hmin|exact H1|exact H2].
Qed.

(** ** Silence *)

(** Silence is a finding: a whole and empty bucket of a source expected to be active, in a
    reliable cell that is not normally empty, past the grace period. *)
Definition silence_fires (ctx : DetectionContext) : Prop :=
  mp_event_count (cx_point ctx) <= 0 ∧ mp_completeness (cx_point ctx) = BC_COMPLETE ∧
  cx_is_expected_active ctx = true ∧
  ∃ cell, reliable (cx_baselines ctx !! "event_count") = Some cell ∧ fle (bc_median cell) f0 = false ∧
    th_silence_grace_buckets (cx_thresholds ctx) <= cx_preceding_empty_buckets ctx.

(** Silence cannot be judged. *)
Definition silence_unknown (ctx : DetectionContext) : Prop :=
  mp_event_count (cx_point ctx) <= 0 ∧
  (mp_completeness (cx_point ctx) ≠ BC_COMPLETE ∨
   cx_is_expected_active ctx = true ∧ reliable (cx_baselines ctx !! "event_count") = None).

(** One branch of the detector against the two descriptions. *)
Ltac break_hyps :=
  repeat match goal with
  | |- _ → _ => intro
  | H : _ ∧ _ |- _ => destruct H
  | H : _ ∨ _ |- _ => destruct H
  | H : ∃ _, _ |- _ => destruct H
  | H : Some _ = Some _ |- _ => injection H as H; subst
  end.

Ltac silence_cases :=
  split; [|split]; split; try done; try (break_hyps; first [congruence|lia]); try tauto;
  intros _; repeat split; try done.

(** When silence is a finding. The verdict is abnormal exactly for a whole, empty bucket of
    a source expected to be active, whose reliable cell is not normally empty, past the grace
    period; it is UNKNOWN exactly when the bucket was not wholly observed, or the source
    should be active and has no reliable cell; so an outage of the collector is never an
    outage of the source. *)
Theorem no_events_verdict ctx ev : detect_no_events ctx = Ok ev →
  (ev_signal ev = DS_ANOMALOUS ↔ silence_fires ctx) ∧
  (ev_signal ev = DS_UNKNOWN ↔ silence_unknown ctx) ∧
  (ev_insufficient_data ev = true ↔ ev_signal ev = DS_UNKNOWN).
Proof.
  unfold detect_no_events, silence_fires, silence_unknown. intros H. cbv zeta in H.
  destruct (Z.ltb_spec 0 (mp_event_count (cx_point ctx))) as [Hn|Hn].
  { bind_inv H. injection H as <-. cbn. silence_cases. }
  case_bool_decide as Hc; cbn [negb] in H; [|injection H as <-; cbn; silence_cases].
  destruct (cx_is_expected_active ctx) eqn:Ha; cbn [negb] in H; [|injection H as <-; cbn; silence_cases].
  destruct (reliable _) as [c|] eqn:Hr; [|injection H as <-; cbn; silence_cases].
  destruct (fle (bc_median c) f0) eqn:Hm; [injection H as <-; cbn; silence_cases|].
  destruct (Z.ltb_spec (cx_preceding_empty_buckets ctx) (th_silence_grace_buckets (cx_thresholds ctx)));
    [injection H as <-; cbn; silence_cases|].
  bind_inv H. bind_inv H. injection H as <-. cbn. silence_cases. by exists c.
Qed.

(** ** All nine *)

Definition canonical_order : list AnomalyType :=
  [AT_NO_EVENTS; AT_COLLECTION_ERROR; AT_VOLUME_DROP; AT_VOLUME_SPIKE; AT_PARSING_DEGRADATION;
   AT_UNKNOWN_EVENT_SPIKE; AT_TIMESTAMP_DELAY; AT_CARDINALITY_DROP; AT_REPEATED_PAYLOAD].

(** The evidence names its detector and its bucket. *)
Definition labelled (ctx : DetectionContext) (at_ : AnomalyType) (ev : AnomalyEvidence) : Prop :=
  ev_anomaly_type ev = at_ ∧ ev_interval_start ev = mp_interval_start (cx_point ctx) ∧
  ev_interval_end ev = mp_interval_end (cx_point ctx).

(** The numbers of the facts that are copied into columns: none is an integer a float cannot
    hold, none a float an integer cannot. *)
Definition plain_fact (kv : string * json) : bool :=
  match kv.2 with
  | JInt _ => bool_decide (kv.1 ∉ ["ratio"; "robust_z"; "absolute_delta_events"])
  | JFloat _ => bool_decide (kv.1 ≠ "baseline_version")
  | _ => true
  end.

Definition plain_facts (o : jobj) : bool := forallb plain_fact o.

Definition reports (ctx : DetectionContext) (at_ : AnomalyType) (r : result AnomalyEvidence) : Prop :=
  ∀ ev, r = Ok ev → labelled ctx at_ ev ∧ plain_facts (ev_extra ev) = true.

Lemma reports_bind {A} ctx at_ (m : result A) f :
  (∀ a, m = Ok a → reports ctx at_ (f a)) → reports ctx at_ (res_bind m f).
Proof. intros H ev. destruct m as [a|]; cbn [res_bind]; [by apply H|done]. Qed.

Lemma reports_ok ctx at_ ev : labelled ctx at_ ev → plain_facts (ev_extra ev) = true → reports ctx at_ (Ok ev).
Proof. by intros Hl Hp ev' [= <-]. Qed.

Ltac reports_cases :=
  repeat first [apply reports_ok; [done|reflexivity] | apply reports_bind; intros | case_match_goal].

Section Reports.
Context (mfr : float) (ctx : DetectionContext).

Lemma plain_facts_app a b : plain_facts (a ++ b) = plain_facts a && plain_facts b.
Proof. apply forallb_app. Qed.

Lemma volume_facts_plain v cell s facts : volume_facts v cell s = Ok facts → plain_facts facts = true.
Proof. unfold volume_facts. intros H. do 6 bind_inv H. injection H as <-. reflexivity. Qed.

Lemma volume_healthy_reports at_ o e reason : reports ctx at_ (volume_healthy at_ (cx_point ctx) o e reason).
Proof. unfold volume_healthy. reports_cases. Qed.

Lemma volume_score_reports at_ d cell v r facts : plain_facts facts = true →
  reports ctx at_ (volume_score mfr ctx at_ d cell v r facts).
Proof.
  intros Hf. unfold volume_score. apply reports_bind. intros [z st] _. apply reports_bind. intros rz _. cbv zeta.
  apply reports_bind. intros facts' Hf'.
  assert (plain_facts facts' = true) as Hp.
  { destruct (bool_decide (st = RS_OK)); [injection Hf' as <-|bind_inv Hf'; injection Hf' as <-];
      rewrite !plain_facts_app, Hf; reflexivity. }
  destruct (negb _); [apply volume_healthy_reports|].
  do 5 (apply reports_bind; intros ? _). by apply reports_ok.
Qed.

Lemma volume_reports at_ d : reports ctx at_ (volume mfr ctx at_ d).
Proof.
  unfold volume. case_match_goal; [by apply reports_ok|]. case_match_goal; [|by apply reports_ok].
  case_match_goal; [by apply reports_ok|]. apply reports_bind. intros s _. cbv zeta. apply reports_bind.
  intros facts Hf%volume_facts_plain. case_match_goal; [apply volume_healthy_reports|].
  assert (Hd : ∀ d r facts, plain_facts facts = true → reports ctx at_ (volume_delta mfr ctx at_ d b (volume_of (cx_point ctx) b s) r facts)).
  { intros. unfold volume_delta. case_match_goal; [apply volume_healthy_reports|by apply volume_score_reports]. }
  unfold volume_ratio. apply reports_bind. intros [r|] _.
  - apply reports_bind. intros rr _. case_match_goal; [apply volume_healthy_reports|].
    apply Hd. rewrite plain_facts_app, Hf. reflexivity.
  - case_match_goal; [apply Hd; rewrite plain_facts_app, Hf; reflexivity|]. apply reports_bind. intros. by apply reports_ok.
Qed.

Lemma detectors_report : Forall2 (λ at_ d, reports ctx at_ (d ctx)) canonical_order (DETECTORS mfr).
Proof.
  unfold canonical_order, DETECTORS.
  repeat (apply Forall2_cons_2; [try apply volume_reports|]); [..|apply Forall2_nil_2].
  - unfold detect_no_events. reports_cases.
  - unfold detect_collection_error. reports_cases.
  - unfold detect_parsing_degradation. reports_cases.
  - unfold detect_unknown_event_spike. reports_cases.
  - unfold detect_timestamp_delay. reports_cases.
  - unfold detect_cardinality_drop. reports_cases.
  - unfold detect_repeated_payload. reports_cases.
Qed.

Lemma detect_all_reports evs : detect_all mfr ctx = Ok evs →
  Forall2 (λ at_ ev, labelled ctx at_ ev ∧ plain_facts (ev_extra ev) = true) canonical_order evs.
Proof.
  unfold detect_all. generalize detectors_report. generalize canonical_order (DETECTORS mfr). intros ats ds H.
  revert evs. induction H as [|at_ d ats ds Hr _ IH]; intros evs; cbn [mapM_result]; [intros [= <-]; constructor|].
  intros H. bind_inv H. bind_inv H. injection H as <-. constructor; [by apply Hr|by apply IH].
Qed.
End Reports.

(** C32: On a bucket whose numbers are of ordinary size, under thresholds of ordinary size,
    the detectors all return: one verdict each, in canonical order, naming the detector and
    the bucket, and with facts the engine can copy into its columns. *)
Theorem detectors_total mfr ctx : tame mfr → tame_context ctx →
  ∃ evs, detect_all mfr ctx = Ok evs ∧
    Forall2 (λ at_ ev, labelled ctx at_ ev ∧ plain_facts (ev_extra ev) = true) canonical_order evs.
Proof.
  intros Hm Hc. destruct (detect_all_ok mfr ctx Hm Hc) as [evs H]. exists evs. split; [done|]. by apply detect_all_reports in H.
Qed.

(** A source whose [custom_thresholds] set [repeated_payload_intervals] to 0 cannot be
    judged on any bucket that carries a payload signature: the confidence of the repeated
    payload divides by the threshold, so the detector raises and no verdict is returned. *)
Theorem zero_repeat_raises mfr ctx signature : mp_payload_signature (cx_point ctx) = Some signature →
  th_repeated_payload_intervals (cx_thresholds ctx) = 0 → small (Z.of_nat (length (cx_recent_signatures ctx)) + 1) →
  (∃ msg, detect_repeated_payload ctx = Err (ZeroDivisionError msg)) ∧ ¬ is_ok (detect_all mfr ctx).
Proof.
  intros Hp Hz Hs. assert (∃ msg, detect_repeated_payload ctx = Err (ZeroDivisionError msg)) as [msg Hd].
  { unfold detect_repeated_payload. rewrite Hp, Hz. cbv zeta.
    pose proof (same_run_bounds signature (rev (cx_recent_signatures ctx))) as Hb. rewrite length_rev in Hb.
    destruct (small_float (1 + same_run signature (rev (cx_recent_signatures ctx)))) as (x & -> & _); [unfold small in *; lia|].
    cbn [res_bind]. rewrite (proj2 (Z.leb_le _ _)) by lia. by eexists. }
  split; [by exists msg|]. intros H.
  destruct (mapM_result_each _ _ detect_repeated_payload H) as [ev Hev]; [unfold DETECTORS; set_solver|congruence].
Qed.
