(* ===== verification/Thresholds.v ===== *)
(** * Threshold resolution

    [anomaly/thresholds.py]: global defaults, the criticality matrix, then the source's own
    [custom_thresholds], which nobody validated: its values are whatever JSON the operator
    stored. The resolved thresholds are the fields of [Thresholds] as a dict of JSON values;
    [typed] reads them as the types the detectors are written for. *)

From S2P Require Import Prelude PyStr PyFloat PyJson Enums Statistics Detectors.

(** The settings the resolver reads. *)
Record ThresholdSettings := {
  ts_lab_mode : bool; ts_open_after : Z; ts_resolve_after : Z; ts_deviation : float; ts_spike_ratio : float;
  ts_drop_ratio : float; ts_min_absolute_delta_events : float; ts_min_bucket_events : float;
  ts_silence_grace_buckets : Z }.

(** [_CRITICALITY_OPEN_AFTER] and [_CRITICALITY_RESOLVE_AFTER]: every criticality is a key. *)
Definition CRITICALITY_OPEN_AFTER (c : Criticality) : Z :=
  match c with CR_CRITICAL => 1 | CR_HIGH => 2 | CR_MEDIUM => 2 | CR_LOW => 3 end.
Definition CRITICALITY_RESOLVE_AFTER (c : Criticality) : Z :=
  match c with CR_CRITICAL => 2 | CR_HIGH => 3 | CR_MEDIUM => 3 | CR_LOW => 4 end.

(** The base, by field: [Thresholds(...)] before any override. *)
Definition base_thresholds (s : ThresholdSettings) (c : Criticality) : Thresholds :=
  {| th_deviation_z := ts_deviation s; th_spike_ratio := ts_spike_ratio s; th_drop_ratio := ts_drop_ratio s;
     th_min_absolute_delta_events := ts_min_absolute_delta_events s; th_min_bucket_events := ts_min_bucket_events s;
     th_silence_grace_buckets := ts_silence_grace_buckets s;
     th_min_parsed_ratio := lit 1 2; th_max_unknown_ratio := lit 2 10; th_delay_interval_multiple := lit 3 1;
     th_cardinality_drop_fraction := lit 4 10; th_collection_error_threshold := 0;
     th_repeated_payload_intervals := 3;
     th_open_after := if ts_lab_mode s then ts_open_after s else CRITICALITY_OPEN_AFTER c;
     th_resolve_after := if ts_lab_mode s then ts_resolve_after s else CRITICALITY_RESOLVE_AFTER c |}.

(** [{k: getattr(base, k) for k in base.__dataclass_fields__}] *)
Definition threshold_fields (t : Thresholds) : jobj :=
  [("deviation_z", JFloat (th_deviation_z t)); ("spike_ratio", JFloat (th_spike_ratio t));
   ("drop_ratio", JFloat (th_drop_ratio t));
   ("min_absolute_delta_events", JFloat (th_min_absolute_delta_events t));
   ("min_bucket_events", JFloat (th_min_bucket_events t));
   ("silence_grace_buckets", JInt (th_silence_grace_buckets t));
   ("min_parsed_ratio", JFloat (th_min_parsed_ratio t)); ("max_unknown_ratio", JFloat (th_max_unknown_ratio t));
   ("delay_interval_multiple", JFloat (th_delay_interval_multiple t));
   ("cardinality_drop_fraction", JFloat (th_cardinality_drop_fraction t));
   ("collection_error_threshold", JInt (th_collection_error_threshold t));
   ("repeated_payload_intervals", JInt (th_repeated_payload_intervals t));
   ("open_after", JInt (th_open_after t)); ("resolve_after", JInt (th_resolve_after t))].

Definition is_dict (v : json) : bool := match v with JObj _ => true | _ => false end.

(** [values[k] = v] for a key that is there. *)
Definition set_value (k : string) (v : json) (values : jobj) : jobj :=
  (λ kv : string * json, if decide (kv.1 = k) then (k, v) else kv) <$> values.

Definition not_iterable : exn := TypeError "argument is not iterable".

(** [key in by_type] *)
Definition key_in (key : string) (by_type : json) : result bool :=
  match by_type with
  | JObj o => Ok (match assoc o key with Some _ => true | None => false end)
  | JList l => Ok (existsb (λ v, match v with JStr s => String.eqb s key | _ => false end) l)
  | JStr s => Ok (contains key s)
  | _ => Err not_iterable
  end.

(** [by_type[key].items()] *)
Definition items_of (key : string) (by_type : json) : result jobj :=
  match by_type with
  | JObj o =>
      match assoc o key with
      | Some (JObj overrides) => Ok overrides
      | Some _ => Err (AttributeError "no attribute 'items'")
      | None => Err (KeyError key)
      end
  | _ => Err (TypeError "indices must be integers or slices, not str")
  end.

(** The loop over the fields. *)
Definition apply_custom (custom values : jobj) : jobj :=
  (λ kv : string * json,
    match assoc custom kv.1 with
    | Some v => if is_dict v then kv else (kv.1, v)
    | None => kv
    end) <$> values.

(** The loop over the overrides of the type; a key that is not a field is dropped. *)
Definition apply_overrides_of (overrides values : jobj) : jobj :=
  foldl (λ values kv, set_value kv.1 kv.2 values) values overrides.

(** [_apply_overrides] *)
Definition apply_overrides (base custom : jobj) (anomaly_type : option AnomalyType) : result jobj :=
  let values := apply_custom custom base in
  let by_type := default (JObj []) (assoc custom "by_type") in
  match anomaly_type with
  | None => Ok values
  | Some t =>
      present <- key_in (AnomalyType_value t) by_type ;;
      if present : bool then
        overrides <- items_of (AnomalyType_value t) by_type ;;
        Ok (apply_overrides_of overrides values)
      else Ok values
  end.

(** [resolve] *)
Definition resolve_thresholds (s : ThresholdSettings) (c : Criticality) (custom : jobj)
    (anomaly_type : option AnomalyType) : result jobj :=
  let base := threshold_fields (base_thresholds s c) in
  match custom with
  | [] => Ok base
  | _ => apply_overrides base custom anomaly_type
  end.

(** ** Reading the fields at their types *)

Definition float_field (o : jobj) (k : string) : option float :=
  match assoc o k with Some (JFloat x) => Some x | _ => None end.
Definition int_field (o : jobj) (k : string) : option Z :=
  match assoc o k with Some (JInt n) => Some n | _ => None end.

Definition typed (o : jobj) : option Thresholds :=
  dz ← float_field o "deviation_z"; sr ← float_field o "spike_ratio"; dr ← float_field o "drop_ratio";
  de ← float_field o "min_absolute_delta_events"; be ← float_field o "min_bucket_events";
  sg ← int_field o "silence_grace_buckets"; pr ← float_field o "min_parsed_ratio";
  ur ← float_field o "max_unknown_ratio"; dm ← float_field o "delay_interval_multiple";
  cf ← float_field o "cardinality_drop_fraction"; ce ← int_field o "collection_error_threshold";
  rp ← int_field o "repeated_payload_intervals"; oa ← int_field o "open_after"; ra ← int_field o "resolve_after";
  Some {| th_deviation_z := dz; th_spike_ratio := sr; th_drop_ratio := dr; th_min_absolute_delta_events := de;
          th_min_bucket_events := be; th_silence_grace_buckets := sg; th_min_parsed_ratio := pr;
          th_max_unknown_ratio := ur; th_delay_interval_multiple := dm; th_cardinality_drop_fraction := cf;
          th_collection_error_threshold := ce; th_repeated_payload_intervals := rp; th_open_after := oa;
          th_resolve_after := ra |}.

(** ** What is resolved *)

Lemma typed_fields t : typed (threshold_fields t) = Some t.
Proof. by destruct t. Qed.

(** The last binding of a key in the overrides wins. *)
Definition last_of (o : jobj) (k : string) : option json := assoc (rev o) k.

Lemma assoc_map (f : string * json → string * json) (o : jobj) k : (∀ kv, (f kv).1 = kv.1) →
  assoc (f <$> o) k = (λ v, (f (k, v)).2) <$> assoc o k.
Proof.
  intros Hf. induction o as [|[k' v] o IH]; [done|]. cbn [fmap list_fmap assoc].
  pose proof (Hf (k', v)) as Hk. destruct (f (k', v)) as [k2 v2] eqn:E. cbn [fst] in Hk. subst k2.
  destruct (decide (k = k')) as [->|]; [|done]. cbn [fmap option_fmap option_map]. by rewrite E.
Qed.

Lemma assoc_set_value k v o k' : assoc (set_value k v o) k' =
  if decide (k' = k) then (λ _, v) <$> assoc o k' else assoc o k'.
Proof.
  unfold set_value. rewrite assoc_map.
  - destruct (assoc o k') as [w|]; cbn; [|by case_decide]. repeat case_decide; subst; done.
  - intros [k2 w]. cbn. by case_decide; subst.
Qed.

Lemma assoc_app o1 o2 k : assoc (o1 ++ o2) k = match assoc o1 k with Some v => Some v | None => assoc o2 k end.
Proof. induction o1 as [|[k' v] o1 IH]; [done|]. cbn. by case_decide. Qed.

Lemma assoc_overrides overrides values k :
  assoc (apply_overrides_of overrides values) k =
  match assoc values k with
  | Some v => Some (default v (last_of overrides k))
  | None => None
  end.
Proof.
  unfold apply_overrides_of, last_of. revert values. induction overrides as [|[k' v'] l IH]; intros values.
  { cbn. by destruct (assoc values k). }
  cbn [foldl rev fst snd]. rewrite IH, assoc_set_value, assoc_app. cbn [assoc].
  destruct (decide (k = k')) as [->|].
  - destruct (assoc values k') as [w|]; cbn; [|done]. by destruct (assoc (rev l) k').
  - destruct (assoc values k) as [w|]; [|done]. by destruct (assoc (rev l) k).
Qed.

Lemma assoc_custom custom values k : assoc (apply_custom custom values) k =
  (λ v, match assoc custom k with Some w => if is_dict w then v else w | None => v end) <$> assoc values k.
Proof.
  unfold apply_custom. rewrite assoc_map.
  - destruct (assoc values k); cbn; [|done]. destruct (assoc custom k) as [w|]; [|done]. by destruct (is_dict w).
  - intros [k2 w]. cbn. destruct (assoc custom k2) as [u|]; [|done]. by destruct (is_dict u).
Qed.

(** The overrides of a type in a well-formed [custom_thresholds]. *)
Definition type_overrides (custom : jobj) (anomaly_type : option AnomalyType) : jobj :=
  match anomaly_type, assoc custom "by_type" with
  | Some t, Some (JObj o) => match assoc o (AnomalyType_value t) with Some (JObj l) => l | _ => [] end
  | _, _ => []
  end.

(** The order of resolution. A field's value is the type's override when there is one, else
    the source's own value unless it is a dict, else the base from the settings and the
    criticality; keys that are not fields never enter. *)
Theorem resolution_order s c custom anomaly_type o : resolve_thresholds s c custom anomaly_type = Ok o →
  ∀ k, assoc o k =
    (λ base, default
       (match assoc custom k with Some v => if is_dict v then base else v | None => base end)
       (last_of (type_overrides custom anomaly_type) k))
    <$> assoc (threshold_fields (base_thresholds s c)) k.
Proof.
  unfold resolve_thresholds. intros H k. set (base := threshold_fields _) in *. clearbody base.
  assert (Hplain : ∀ custom, type_overrides custom anomaly_type = [] →
    assoc (apply_custom custom base) k =
    (λ base, default
       (match assoc custom k with Some v => if is_dict v then base else v | None => base end)
       (last_of (type_overrides custom anomaly_type) k)) <$> assoc base k).
  { intros cu ->. rewrite assoc_custom. by destruct (assoc base k). }
  destruct custom as [|kv custom].
  { injection H as <-. destruct anomaly_type; cbn; by destruct (assoc base k). }
  set (cu := kv :: custom) in *. clearbody cu. unfold apply_overrides in H. cbv zeta in H.
  destruct anomaly_type as [t|]; [|injection H as <-; by apply Hplain].
  bind_inv H. destruct r.
  - bind_inv H. injection H as <-. rewrite assoc_overrides, assoc_custom.
    assert (Ht : type_overrides cu (Some t) = r).
    { unfold items_of in E0. unfold type_overrides. destruct (assoc cu "by_type") as [v|]; cbn in E0; [|done].
      destruct v as [| | | | | |ov]; try done. destruct (assoc ov _) as [w|]; [|done]. by destruct w; try done; injection E0 as <-. }
    rewrite Ht. destruct (assoc base k); [|done]. cbn. done.
  - injection H as <-. apply Hplain. unfold type_overrides, key_in in *.
    destruct (assoc cu "by_type") as [v|]; [|done]. cbn in E. destruct v; try done. 
    by destruct (assoc fields (AnomalyType_value t)).
Qed.

(** The overrides by type have no part in detection. Every detector of a source compares
    with the thresholds resolved without a type, and those are the same whatever [by_type]
    holds; only the hysteresis, resolved with the type, reads it. *)
Theorem by_type_never_detects s c custom by_type :
  resolve_thresholds s c (("by_type", by_type) :: custom) None = resolve_thresholds s c custom None.
Proof.
  assert (Hplain : ∀ base, (∀ kv, kv ∈ base → kv.1 ≠ "by_type") →
    apply_custom (("by_type", by_type) :: custom) base = apply_custom custom base).
  { intros base Hb. apply list_fmap_ext. intros i kv Hi. apply list_elem_of_lookup_2, Hb in Hi.
    cbn [assoc]. by rewrite decide_False. }
  assert (Hbase : ∀ kv, kv ∈ threshold_fields (base_thresholds s c) → kv.1 ≠ "by_type").
  { apply Forall_forall. unfold threshold_fields. repeat constructor; discriminate. }
  unfold resolve_thresholds, apply_overrides. cbv zeta. rewrite (Hplain _ Hbase).
  by destruct custom.
Qed.
