(* ===== verification/BusinessHours.v ===== *)
(** * Business hours

    [anomaly/business_hours.py]: whether silence at an instant would be an outage. The
    configuration is four columns nobody validated, JSON values here. [zoneinfo name] is the
    time-zone database: the UTC offset of a zone at an instant, in microseconds, when
    [ZoneInfo(name)] finds the zone, and the class of the error otherwise. *)

From S2P Require Import Prelude PyStr PyFloat PyTime PyJson.

Record BusinessHours := {
  bh_source_id : N; bh_business_hours_only : bool; bh_timezone_name : json; bh_business_days : json;
  bh_business_hours_start : json; bh_business_hours_end : json }.

(** [_trusted_days]: a bool is not an [int] here. *)
Fixpoint trusted_list (l : list json) : option (list Z) :=
  match l with
  | [] => Some []
  | JInt day :: l => if (1 <=? day) && (day <=? 7) then cons day <$> trusted_list l else None
  | _ :: _ => None
  end.

Definition trusted_days (value : json) : option (list Z) :=
  match value with
  | JList [] => None
  | JList l => trusted_list l
  | _ => None
  end.

(** [_hour] *)
Definition hour_of (value : json) : option Z :=
  match value with
  | JInt n => if (0 <=? n) && (n <=? 23) then Some n else None
  | _ => None
  end.

(** [_as_utc] and [_window_covers]: a naive instant is taken as UTC; a local datetime is the
    microseconds of its wall clock. *)
Definition local_isoweekday (local : Z) : Z := dt_isoweekday (DT local false).
Definition local_hour (local : Z) : Z := dt_hour (DT local false).
Definition one_day : Z := td_days 1.

Definition window_covers (local start end_ : Z) (days : list Z) : bool :=
  let hour := local_hour local in
  let today := bool_decide (local_isoweekday local ∈ days) in
  if start =? end_ then today
  else if start <? end_ then today && ((start <=? hour) && (hour <? end_))
  else if start <=? hour then today
  else if hour <? end_ then bool_decide (local_isoweekday (local - one_day) ∈ days)
  else false.

Section Zone.
Context (zoneinfo : string → (Z → Z) + string).

Definition ZoneInfoNotFoundError : string := "ZoneInfoNotFoundError".

(** [_load_zone] *)
Definition load_zone (name : json) : (Z → Z) + string :=
  match name with
  | JStr name => zoneinfo name
  | _ => inr ZoneInfoNotFoundError
  end.

(** What the configuration says when it can be trusted; the failure class when not. *)
Definition trusted_window (b : BusinessHours) : (Z → Z) * list Z * Z * Z + string :=
  match load_zone (bh_timezone_name b) with
  | inr error_class => inr error_class
  | inl zone =>
      match trusted_days (bh_business_days b) with
      | None => inr "InvalidBusinessDays"
      | Some days =>
          match hour_of (bh_business_hours_start b), hour_of (bh_business_hours_end b) with
          | Some start, Some end_ => inl (zone, days, start, end_)
          | _, _ => inr "InvalidBusinessHours"
          end
      end
  end.

(** [is_expected_active], with the sources already warned in the process; the third component
    is the warning logged. *)
Definition is_expected_active (b : BusinessHours) (when : datetime) (warned : gset N)
    : bool * gset N * option string :=
  if negb (bh_business_hours_only b) then (true, warned, None)
  else
    match trusted_window b with
    | inr error_class =>
        if decide (bh_source_id b ∈ warned) then (true, warned, None)
        else (true, {[bh_source_id b]} ∪ warned, Some error_class)
    | inl (zone, days, start, end_) =>
        (window_covers (dt_us when + zone (dt_us when)) start end_ days, warned, None)
    end.
End Zone.

(** ** The window as an interval *)

(** The window that opens on local day [d] (days since the epoch): from its opening hour for
    at most a day, past midnight when it wraps. *)
Definition opens (start d : Z) : Z := td_days d + td_hours start.
Definition closes (start end_ d : Z) : Z :=
  if start <? end_ then td_days d + td_hours end_
  else td_days (d + 1) + td_hours end_.
Definition day_weekday (d : Z) : Z := (d + 3) mod 7 + 1.

Definition in_window (local start end_ : Z) (days : list Z) : Prop :=
  ∃ d, day_weekday d ∈ days ∧ (if start =? end_ then td_days d <= local < td_days (d + 1)
                               else opens start d <= local < closes start end_ d).

Lemma local_parts local : ∃ d r, local = td_days d + r ∧ 0 <= r < one_day ∧
  local_isoweekday local = day_weekday d ∧ local_isoweekday (local - one_day) = day_weekday (d - 1) ∧
  local_hour local = r / td_hours 1.
Proof.
  assert (Hday : 0 < one_day) by by vm_compute. exists (local / one_day), (local mod one_day).
  assert (Hone : one_day = 86400 * us_per_second) by done.
  split; [unfold td_days; pose proof (Z.div_mod local one_day); lia|].
  split; [by apply Z.mod_pos_bound|].
  unfold local_isoweekday, local_hour, dt_isoweekday, dt_day, dt_hour, dt_second_of_day, day_weekday. cbn [dt_us].
  rewrite <-Hone. split; [done|]. split.
  - replace (local - one_day) with (local + (-1) * one_day) by lia. rewrite Z.div_add by lia. reflexivity.
  - change us_per_second with 1000000. change (td_hours 1) with (3600 * 1000000). change one_day with (86400000000).
    Z.div_mod_to_equations. lia.
Qed.

Lemma hour_in r h k : 0 <= r < one_day → 0 <= h <= 23 → h = k → (h <=? r / td_hours 1) = (td_hours k <=? r).
Proof.
  intros Hr Hh <-. unfold td_hours. change us_per_second with 1000000 in *. change one_day with 86400000000 in *.
  Z.div_mod_to_equations. destruct (Z.leb_spec h q), (Z.leb_spec (h * 3600 * 1000000) r); try done; lia.
Qed.

Lemma td_days_add d k : td_days (d + k) = td_days d + k * one_day.
Proof. unfold td_days, one_day. change (td_days 1) with (1 * 86400 * us_per_second). lia. Qed.

Lemma same_day d d' r : 0 <= r < one_day → td_days d' <= td_days d + r < td_days (d' + 1) → d' = d.
Proof. rewrite td_days_add. unfold td_days, one_day, td_days. change us_per_second with 1000000. lia. Qed.

(** Linear arithmetic on days and hours. *)
Ltac day_lia :=
  unfold td_days, td_hours, one_day, td_days in *; change us_per_second with 1000000 in *; lia.

(** The business window. For hours a source may be trusted with, the code's test on the hour
    and the weekday admits exactly the instants of the windows that open on a business day:
    the whole day when the two hours are equal, else from the opening hour to the closing
    one, past midnight into the next day when the window wraps. *)
Theorem window_covers_exact local start end_ days : 0 <= start <= 23 → 0 <= end_ <= 23 →
  window_covers local start end_ days = true ↔ in_window local start end_ days.
Proof.
  intros Hs He. destruct (local_parts local) as (d & r & -> & Hr & Hw & Hp & Hh).
  unfold window_covers, in_window. rewrite Hw, Hp, Hh. unfold opens, closes.
  pose proof (hour_in r start _ Hr Hs eq_refl) as H1. pose proof (hour_in r end_ _ Hr He eq_refl) as H2.
  assert (Hb : ∀ h, 0 <= h <= 23 → 0 <= td_hours h < one_day).
  { intros h Hh'. unfold td_hours. change us_per_second with 1000000. change one_day with 86400000000. lia. }
  pose proof (Hb start Hs). pose proof (Hb end_ He).
  destruct (Z.eqb_spec start end_) as [->|Hne].
  - rewrite bool_decide_eq_true. split; [intros; exists d; split; [done|]; rewrite td_days_add; lia|].
    intros (d' & Hin & Hd). by rewrite (same_day d d' r Hr Hd) in Hin.
  - rewrite H1. replace (r / td_hours 1 <? end_) with (r <? td_hours end_) by (rewrite !Z.ltb_antisym; by rewrite H2).
    destruct (Z.ltb_spec start end_) as [Hlt|Hge].
    + rewrite !andb_true_iff, bool_decide_eq_true, Z.leb_le, Z.ltb_lt. split.
      * intros (Hin & ? & ?). exists d. split; [done|lia].
      * intros (d' & Hin & Hd). replace d' with d in * by day_lia.
        split; [done|lia].
    + assert (td_hours end_ < td_hours start) by (unfold td_hours; change us_per_second with 1000000; lia).
      destruct (Z.leb_spec (td_hours start) r) as [Ho|Ho]; [|destruct (Z.ltb_spec r (td_hours end_)) as [Hc|Hc]].
      * rewrite bool_decide_eq_true. split; [intros; exists d; split; [done|]; rewrite td_days_add; lia|].
        intros (d' & Hin & Hd). by replace d' with d in * by day_lia.
      * rewrite bool_decide_eq_true. split.
        -- intros. exists (d - 1). split; [done|]. replace (d - 1 + 1) with d by lia.
           day_lia.
        -- intros (d' & Hin & Hd). by replace d' with (d - 1) in * by day_lia.
      * split; [done|]. intros (d' & Hin & Hd). exfalso. day_lia.
Qed.
