(* ===== verification/Seasonal.v ===== *)
(** * Seasonal cells

    [anomaly/seasonal.py], the columns of a log-source metric row, and the origin marker of
    [history/origin.py] that tells a live row from one read back from history. *)

From S2P Require Import Prelude PyStr PyFloat PyTime PyJson Enums HistoryState Statistics.

(** ** Metric rows *)

(** The columns of [LogSourceMetric] the anomaly code reads. *)
Record MetricRow := {
  mr_bucket_start : datetime; mr_bucket_seconds : Z; mr_event_count : Z; mr_average_eps : float; mr_peak_eps : float;
  mr_last_event_at : option datetime; mr_event_delay_seconds : option float; mr_unknown_event_count : Z;
  mr_stored_event_count : Z; mr_parsed_username_ratio : option float; mr_parsed_source_ip_ratio : option float;
  mr_distinct_qid_count : Z; mr_distinct_username_count : Z; mr_distinct_source_ip_count : Z;
  mr_collection_error_count : Z; mr_payload_signature : option string; mr_completeness : BucketCompleteness;
  mr_collection_source : option string; mr_query_provenance : option jobj }.

(** [bucket_end] and [is_complete]. *)
Definition bucket_end (m : MetricRow) : datetime := dt_add (mr_bucket_start m) (td_seconds (mr_bucket_seconds m)).
Definition is_complete (m : MetricRow) : bool := bool_decide (mr_completeness m = BC_COMPLETE).

Inductive HistoryOrigin := LIVE | HISTORY.

#[export] Instance HistoryOrigin_eq_dec : EqDecision HistoryOrigin.
Proof. solve_decision. Defined.

Definition HistoryOrigin_value (o : HistoryOrigin) : string := match o with LIVE => "LIVE" | HISTORY => "HISTORY" end.

Definition PHASE_A_HISTORY_SOURCE : string := "ariel_history".
Definition PHASE_A_MOCK_HISTORY_SOURCE : string := "mock_history".
Definition PHASE_A_HISTORY_SOURCES : list string := [PHASE_A_HISTORY_SOURCE; PHASE_A_MOCK_HISTORY_SOURCE].

Definition marker_column (family : HistoryFamily) : string :=
  if decide (family = F_PHASE_A) then "collection_source" else "origin".

(** [marker_values]: the columns written, in order. *)
Definition marker_values (family : HistoryFamily) (origin : HistoryOrigin) (mock : bool) : list (string * string) :=
  if decide (family = F_PHASE_A) then
    match origin with
    | HISTORY => [("collection_source", if mock then PHASE_A_MOCK_HISTORY_SOURCE else PHASE_A_HISTORY_SOURCE)]
    | LIVE => []
    end
  else [("origin", HistoryOrigin_value origin)].

Definition origin_of (family : HistoryFamily) (row_value : option string) : result HistoryOrigin :=
  if decide (family = F_PHASE_A) then
    Ok (match row_value with
        | Some v => if decide (v ∈ PHASE_A_HISTORY_SOURCES) then HISTORY else LIVE
        | None => LIVE
        end)
  else
    match row_value with
    | None => Err (ValueError "an origin column is NOT NULL; a missing value is not LIVE")
    | Some v =>
        if decide (v = "LIVE") then Ok LIVE
        else if decide (v = "HISTORY") then Ok HISTORY
        else Err (ValueError ("unknown origin " +:+ py_repr v))
    end.

(** [is_live_clause(LogSourceMetric)]: [NULL] is live. *)
Definition is_live (m : MetricRow) : bool :=
  match mr_collection_source m with
  | None => true
  | Some v => bool_decide (v ∉ PHASE_A_HISTORY_SOURCES)
  end.

(** ** Cells *)

Definition MAX_STORED_OBSERVATIONS : Z := 200.

Record CellSummary := {
  cs_median : float; cs_mad : float; cs_p05 : float; cs_p95 : float; cs_sample_count : Z; cs_is_reliable : bool;
  cs_observations : list float }.

Definition seasonal_key (bucket_start : datetime) : Z * Z := (dt_isoweekday bucket_start, dt_hour bucket_start).

(** [samples[-n:]] *)
Definition last_n {A} (n : Z) (l : list A) : list A := drop (length l - Z.to_nat n) l.

Definition summarize_cell (samples : list float) (min_samples : Z) : result CellSummary :=
  med <- median samples ;;
  spread <- mad samples (Some med) ;;
  p05 <- percentile samples 5 ;;
  p95 <- percentile samples 95 ;;
  observations <- mapM_result (round_digits 4) (last_n MAX_STORED_OBSERVATIONS samples) ;;
  Ok {| cs_median := med; cs_mad := spread; cs_p05 := p05; cs_p95 := p95;
        cs_sample_count := Z.of_nat (length samples);
        cs_is_reliable := min_samples <=? Z.of_nat (length samples); cs_observations := observations |}.

Definition retained_fraction (retained candidates : Z) : result float :=
  if candidates =? 0 then Ok f0 else truediv retained candidates.

Definition anomaly_exclusion_span (detected_at : datetime) (anomaly_end resolved_at : option datetime)
    (window_end : datetime) : datetime * datetime :=
  (detected_at, match resolved_at with
                | Some t => t
                | None => match anomaly_end with Some t => t | None => window_end end
                end).

(** [any(lo <= when <= hi for lo, hi in spans)]: stops at the first span that holds it. *)
Fixpoint in_any_span (when : datetime) (spans : list (datetime * datetime)) : result bool :=
  match spans with
  | [] => Ok false
  | (lo, hi) :: spans =>
      after <- dt_le lo when ;;
      inside <- (if after : bool then dt_le when hi else Ok false) ;;
      if inside : bool then Ok true else in_any_span when spans
  end.

Definition in_maintenance (bucket_start : datetime) (maintenance_mode : bool) (maintenance_until : option datetime)
    : result bool :=
  if negb maintenance_mode then Ok false
  else match maintenance_until with None => Ok true | Some until => dt_le bucket_start until end.
