(* ===== verification/Baseline.v ===== *)
(** * The baseline of a log source

    [anomaly/baseline.py]: which buckets a baseline may learn from, the seasonal cells they
    fall in, and the one upsert that writes them. The rows of the metric and incident tables
    are arguments; [zoneinfo] is the time-zone database of [BusinessHours]. *)

From S2P Require Import Prelude PyStr PyFloat PyTime PyJson Enums BusinessHours Statistics Seasonal.

Record Observation := { ob_bucket_start : datetime; ob_average_eps : float; ob_event_count : float }.

(** [obs.values.items()] *)
Definition ob_values (o : Observation) : list (string * float) :=
  [("average_eps", ob_average_eps o); ("event_count", ob_event_count o)].

Inductive Exclusion := EX_MAINTENANCE | EX_OFF_HOURS | EX_KNOWN_ANOMALY | EX_INCOMPLETE | EX_UNFINISHED.

#[export] Instance Exclusion_eq_dec : EqDecision Exclusion.
Proof. solve_decision. Defined.

Record ExclusionTally := {
  et_maintenance : Z; et_off_hours : Z; et_known_anomaly : Z; et_incomplete : Z; et_unfinished : Z }.

Definition empty_tally : ExclusionTally :=
  {| et_maintenance := 0; et_off_hours := 0; et_known_anomaly := 0; et_incomplete := 0; et_unfinished := 0 |}.

Definition total (t : ExclusionTally) : Z :=
  et_maintenance t + et_off_hours t + et_known_anomaly t + et_incomplete t + et_unfinished t.

Definition as_dict (t : ExclusionTally) : jobj :=
  [("maintenance", JInt (et_maintenance t)); ("off_hours", JInt (et_off_hours t));
   ("known_anomaly", JInt (et_known_anomaly t)); ("incomplete", JInt (et_incomplete t));
   ("unfinished", JInt (et_unfinished t))].

(** [tally.x += 1] *)
Definition count_excluded (x : Exclusion) (t : ExclusionTally) : ExclusionTally :=
  let one y := if decide (x = y) then 1 else 0 in
  {| et_maintenance := et_maintenance t + one EX_MAINTENANCE; et_off_hours := et_off_hours t + one EX_OFF_HOURS;
     et_known_anomaly := et_known_anomaly t + one EX_KNOWN_ANOMALY;
     et_incomplete := et_incomplete t + one EX_INCOMPLETE; et_unfinished := et_unfinished t + one EX_UNFINISHED |}.

(** What the builder reads of the source and of an incident. *)
Record BaselineSource := { bs_hours : BusinessHours; bs_maintenance_mode : bool; bs_maintenance_until : option datetime }.
Record KnownAnomaly := { ka_detected_at : datetime; ka_anomaly_end : option datetime; ka_resolved_at : option datetime }.

(** One row of [LogSourceBaseline], by its key: metric, weekday, hour. *)
Record BaselineRow := {
  br_cell : CellSummary; br_window_start : datetime; br_window_end : datetime; br_computed_at : datetime;
  br_baseline_version : Z; br_completeness : float; br_excluded_sample_count : Z; br_exclusion_counts : jobj;
  br_created_at : datetime; br_updated_at : datetime }.

Abbreviation cell_key := (string * Z * Z)%type.
Abbreviation baseline_table := (gmap cell_key BaselineRow).

Section Builder.
Context (zoneinfo : string → (Z → Z) + string) (baseline_lookback_days baseline_min_samples : Z).

(** [_exclusion_reason]; [warned] is threaded through [is_expected_active]. *)
Definition exclusion_reason (when : datetime) (so : BaselineSource) (excluded : list (datetime * datetime))
    (warned : gset N) : result (option Exclusion * gset N) :=
  m <- in_maintenance when (bs_maintenance_mode so) (bs_maintenance_until so) ;;
  if m : bool then Ok (Some EX_MAINTENANCE, warned)
  else
    let '(off, warned) :=
      if bh_business_hours_only (bs_hours so)
      then let '(active, warned, _) := is_expected_active zoneinfo (bs_hours so) when warned in (negb active, warned)
      else (false, warned) in
    if off : bool then Ok (Some EX_OFF_HOURS, warned)
    else
      known <- in_any_span when excluded ;;
      Ok (if known : bool then Some EX_KNOWN_ANOMALY else None, warned).

Record Loaded := { ld_observations : list Observation; ld_tally : ExclusionTally; ld_warned : gset N }.

(** One row of the loop of [_load_clean_observations]. *)
Definition load_row (so : BaselineSource) (excluded : list (datetime * datetime)) (end_ : datetime)
    (acc : Loaded) (m : MetricRow) : result Loaded :=
  let drop x warned := {| ld_observations := ld_observations acc; ld_tally := count_excluded x (ld_tally acc);
                          ld_warned := warned |} in
  late <- dt_gt (bucket_end m) end_ ;;
  if late : bool then Ok (drop EX_UNFINISHED (ld_warned acc))
  else if negb (is_complete m) then Ok (drop EX_INCOMPLETE (ld_warned acc))
  else
    rw <- exclusion_reason (mr_bucket_start m) so excluded (ld_warned acc) ;;
    match rw.1 with
    | Some x => Ok (drop x rw.2)
    | None =>
        count <- float_of_int (mr_event_count m) ;;
        Ok {| ld_observations := ld_observations acc ++
                [{| ob_bucket_start := mr_bucket_start m; ob_average_eps := mr_average_eps m; ob_event_count := count |}];
              ld_tally := ld_tally acc; ld_warned := rw.2 |}
    end.

(** The rows of the window, [start <= bucket_start < end]. *)
Definition window_rows (metrics : list MetricRow) (start end_ : datetime) : list MetricRow :=
  filter (λ m, dt_us start <= dt_us (mr_bucket_start m) < dt_us end_) metrics.

(** [_excluded_intervals] *)
Definition excluded_intervals (anomalies : list KnownAnomaly) (end_ : datetime) : list (datetime * datetime) :=
  (λ a, anomaly_exclusion_span (ka_detected_at a) (ka_anomaly_end a) (ka_resolved_at a) end_) <$>
  filter (λ a, dt_us (ka_detected_at a) < dt_us end_) anomalies.

Definition load_clean_observations (metrics : list MetricRow) (anomalies : list KnownAnomaly) (so : BaselineSource)
    (warned : gset N) (start end_ : datetime) : result (Loaded * Z) :=
  let rows := window_rows metrics start end_ in
  let excluded := excluded_intervals anomalies end_ in
  l <- foldM (load_row so excluded end_)
         {| ld_observations := []; ld_tally := empty_tally; ld_warned := warned |} rows ;;
  Ok (l, Z.of_nat (length rows)).

(** [cells.setdefault(key, []).append(value)]: a dict in insertion order. *)
Fixpoint append_to {K} `{EqDecision K} (key : K) (value : float) (cells : list (K * list float))
    : list (K * list float) :=
  match cells with
  | [] => [(key, [value])]
  | (k, l) :: cells => if decide (k = key) then (k, l ++ [value]) :: cells else (k, l) :: append_to key value cells
  end.

(** The two loops that group the observations. *)
Definition group_observation (cells : list (cell_key * list float)) (o : Observation)
    : list (cell_key * list float) :=
  let '(weekday, hour) := seasonal_key (ob_bucket_start o) in
  foldl (λ cells '(metric, value), append_to (metric, weekday, hour) value cells) cells (ob_values o).

Definition group_cells (observations : list Observation) : list (cell_key * list float) :=
  foldl group_observation [] observations.

Definition BASELINE_METRICS : list string := ["average_eps"; "event_count"].

(** [_cell_row] *)
Definition cell_row (values : list float) (window_start window_end : datetime) (completeness : float)
    (tally : ExclusionTally) : result BaselineRow :=
  cell <- summarize_cell values baseline_min_samples ;;
  Ok {| br_cell := cell; br_window_start := window_start; br_window_end := window_end; br_computed_at := window_end;
        br_baseline_version := 1; br_completeness := completeness; br_excluded_sample_count := total tally;
        br_exclusion_counts := as_dict tally; br_created_at := window_end; br_updated_at := window_end |}.

(** One row of the upsert: a new cell is inserted, a known one is replaced except for its
    creation time, and its version moves on. *)
Definition upsert_cell (table : baseline_table) (kr : cell_key * BaselineRow) : baseline_table :=
  let '(key, row) := kr in
  match table !! key with
  | None => <[key := row]> table
  | Some old =>
      <[key := {| br_cell := br_cell row; br_window_start := br_window_start row; br_window_end := br_window_end row;
                  br_computed_at := br_computed_at row; br_baseline_version := br_baseline_version old + 1;
                  br_completeness := br_completeness row; br_excluded_sample_count := br_excluded_sample_count row;
                  br_exclusion_counts := br_exclusion_counts row; br_created_at := br_created_at old;
                  br_updated_at := br_updated_at row |}]> table
  end.

(** [rebuild_for_source]: the table after, and the number of cells written. *)
Definition rebuild_for_source (metrics : list MetricRow) (anomalies : list KnownAnomaly) (so : BaselineSource)
    (warned : gset N) (now : datetime) (table : baseline_table) : result (baseline_table * Z * gset N) :=
  let lookback_start := dt_minus now (td_days baseline_lookback_days) in
  lc <- load_clean_observations metrics anomalies so warned lookback_start now ;;
  let '(l, candidates) := lc in
  completeness <- retained_fraction (Z.of_nat (length (ld_observations l))) candidates ;;
  rows <- mapM_result (λ '(key, values),
            row <- cell_row values lookback_start now completeness (ld_tally l) ;; Ok (key, row))
            (group_cells (ld_observations l)) ;;
  Ok (foldl upsert_cell table rows, Z.of_nat (length rows), ld_warned l).
End Builder.
