(* ===== verification/BaselineTheorems.v ===== *)
(** * Theorems of the baseline

    A rebuild learns each cell from the clean buckets of its hour and weekday, all of them and
    nothing else, and touches no other cell. *)

From S2P Require Import Prelude PyStr PyFloat PyTime PyJson Enums BusinessHours Statistics Seasonal Baseline PyFloatFacts DetectorFacts.
From Stdlib Require Import Permutation Sorted.

(** ** Which rows are learned from *)

Lemma bool_decide_of (P : Prop) `{!Decision P} (b : bool) : (b = true ↔ P) → b = bool_decide P.
Proof. intros H. destruct b; symmetry; [apply bool_decide_eq_true_2, H; done|apply bool_decide_eq_false_2; by intros ?%H]. Qed.

Section Load.
Context (zoneinfo : string → (Z → Z) + string) (so : BaselineSource) (spans : list (datetime * datetime)) (end_ : datetime).

Definition in_span (when : datetime) (s : datetime * datetime) : Prop := dt_us s.1 <= dt_us when <= dt_us s.2.

#[export] Instance in_span_dec when s : Decision (in_span when s).
Proof. unfold in_span. apply _. Defined.

Definition under_maintenance (when : datetime) : Prop :=
  bs_maintenance_mode so = true ∧
  match bs_maintenance_until so with Some until => dt_us when <= dt_us until | None => True end.

#[export] Instance under_maintenance_dec when : Decision (under_maintenance when).
Proof. unfold under_maintenance. destruct (bs_maintenance_until so); apply _. Defined.

(** The source should be active; what was warned before does not matter. *)
Definition off_hours (when : datetime) : Prop :=
  bh_business_hours_only (bs_hours so) = true ∧ (is_expected_active zoneinfo (bs_hours so) when ∅).1.1 = false.

#[export] Instance off_hours_dec when : Decision (off_hours when).
Proof. unfold off_hours. apply _. Defined.

(** A clean bucket: over by the end of the window, whole, outside maintenance, inside the
    business hours, and in no known incident. *)
Definition clean (m : MetricRow) : Prop :=
  dt_us (bucket_end m) <= dt_us end_ ∧ mr_completeness m = BC_COMPLETE ∧
  ¬ under_maintenance (mr_bucket_start m) ∧ ¬ off_hours (mr_bucket_start m) ∧
  ¬ Exists (in_span (mr_bucket_start m)) spans.

#[export] Instance clean_dec m : Decision (clean m).
Proof. unfold clean. apply _. Defined.

(** The observation taken from a row. *)
Definition observes (m : MetricRow) (o : Observation) : Prop :=
  ob_bucket_start o = mr_bucket_start m ∧ ob_average_eps o = mr_average_eps m ∧
  float_of_int (mr_event_count m) = Ok (ob_event_count o).

Lemma in_any_span_spec when l b : in_any_span when l = Ok b → b = bool_decide (Exists (in_span when) l).
Proof.
  induction l as [|[lo hi] l IH]; cbn [in_any_span]; [intros [= <-]; by rewrite bool_decide_eq_false_2 by (by intros ?%Exists_nil)|].
  intros H. bind_inv H. bind_inv H. apply dt_le_inv in E as ->.
  assert (Hi : r0 = bool_decide (in_span when (lo, hi))).
  { destruct (Z.leb_spec (dt_us lo) (dt_us when)).
    - apply dt_le_inv in E0 as ->. unfold in_span. cbn [fst snd]. symmetry.
      destruct (Z.leb_spec (dt_us when) (dt_us hi)); [rewrite bool_decide_eq_true_2; [done|lia]|rewrite bool_decide_eq_false_2; [done|lia]].
    - injection E0 as <-. symmetry. apply bool_decide_eq_false_2. unfold in_span. cbn [fst snd]. lia. }
  subst r0. symmetry. case_bool_decide as Hs.
  - injection H as <-. apply bool_decide_eq_true_2. by left.
  - apply IH in H as ->. apply bool_decide_ext. rewrite Exists_cons. tauto.
Qed.

Lemma in_maintenance_spec when b :
  in_maintenance when (bs_maintenance_mode so) (bs_maintenance_until so) = Ok b → b = bool_decide (under_maintenance when).
Proof.
  intros H. apply bool_decide_of. revert H. unfold in_maintenance, under_maintenance.
  destruct (bs_maintenance_mode so); cbn [negb]; [|intros [= <-]; naive_solver].
  destruct (bs_maintenance_until so) as [u|]; [|intros [= <-]; naive_solver].
  intros ->%dt_le_inv. rewrite Z.leb_le. tauto.
Qed.

(** The answer of [is_expected_active] does not depend on who was warned. *)
Lemma expected_active_warned b when w w' :
  (is_expected_active zoneinfo b when w).1.1 = (is_expected_active zoneinfo b when w').1.1.
Proof.
  unfold is_expected_active. destruct (bh_business_hours_only b); [|done]. cbn [negb].
  destruct (trusted_window zoneinfo b) as [[[[zone days] st] en]|e]; [done|]. by repeat case_decide.
Qed.

Lemma exclusion_reason_spec when w x w' : exclusion_reason zoneinfo when so spans w = Ok (x, w') →
  x = None ↔ ¬ under_maintenance when ∧ ¬ off_hours when ∧ ¬ Exists (in_span when) spans.
Proof.
  unfold exclusion_reason. intros H. bind_inv H. apply in_maintenance_spec in E as ->.
  case_bool_decide as Hm; [injection H as <- <-; split; [done|tauto]|].
  assert (Hoff : ∃ off w2, (if bh_business_hours_only (bs_hours so)
      then let '(active, warned, _) := is_expected_active zoneinfo (bs_hours so) when w in (negb active, warned)
      else (false, w)) = (off, w2) ∧ (off = true ↔ off_hours when)).
  { unfold off_hours. pose proof (expected_active_warned (bs_hours so) when w ∅) as He.
    destruct (bh_business_hours_only (bs_hours so)).
    - destruct (is_expected_active zoneinfo (bs_hours so) when w) as [[a ?] ?]. cbn [fst] in He. subst a.
      do 2 eexists. split; [done|]. rewrite negb_true_iff. tauto.
    - do 2 eexists. split; [done|]. by split; [|intros [? _]]. }
  destruct Hoff as (off & w2 & Hoff & Ho). rewrite Hoff in H.
  destruct off; [injection H as <- <-; split; [done|tauto]|].
  bind_inv H. apply in_any_span_spec in E as ->. assert (¬ off_hours when) by (by intros ?%Ho). case_bool_decide; injection H as <- <-; split; (done || tauto).
Qed.

(** One row: learned from exactly when clean, and counted when not. *)
Lemma load_row_spec acc m acc' : load_row zoneinfo so spans end_ acc m = Ok acc' →
  if decide (clean m)
  then (∃ o, observes m o ∧ ld_observations acc' = ld_observations acc ++ [o]) ∧ ld_tally acc' = ld_tally acc
  else ld_observations acc' = ld_observations acc ∧ total (ld_tally acc') = total (ld_tally acc) + 1.
Proof.
  unfold load_row. intros H. cbv zeta in H. bind_inv H. apply dt_lt_inv in E as ->.
  assert (Hcount : ∀ x, total (count_excluded x (ld_tally acc)) = total (ld_tally acc) + 1).
  { intros x. unfold total, count_excluded. cbn [et_maintenance et_off_hours et_known_anomaly et_incomplete et_unfinished].
    destruct x; repeat case_decide; try done; lia. }
  destruct (Z.ltb_spec (dt_us end_) (dt_us (bucket_end m))).
  { rewrite decide_False by (intros [? _]; lia). injection H as <-. split; [done|apply Hcount]. }
  unfold is_complete in H. case_bool_decide as Hc; cbn [negb] in H.
  2: { rewrite decide_False by (by intros (_ & ? & _)). injection H as <-. split; [done|apply Hcount]. }
  bind_inv H. destruct r as [x w]. cbn [fst snd] in H. pose proof (exclusion_reason_spec _ _ _ _ E) as Hx.
  destruct x as [x|].
  - rewrite decide_False; [injection H as <-; split; [done|apply Hcount]|]. intros (_ & _ & Hclean). by apply Hx in Hclean.
  - rewrite decide_True by (split; [lia|]; split; [done|by apply Hx]). bind_inv H. injection H as <-.
    cbn [ld_observations ld_tally]. split; [|done]. eexists. split; [|done]. by split.
Qed.

Lemma load_rows_spec rows acc acc' : foldM (load_row zoneinfo so spans end_) acc rows = Ok acc' →
  ∃ obs, Forall2 observes (filter clean rows) obs ∧ ld_observations acc' = ld_observations acc ++ obs ∧
    total (ld_tally acc') = total (ld_tally acc) + Z.of_nat (length rows) - Z.of_nat (length obs).
Proof.
  revert acc. induction rows as [|m rows IH]; intros acc H; cbn [foldM] in H.
  { injection H as <-. exists []. rewrite app_nil_r. split; [by constructor|]. split; [done|cbn; lia]. }
  bind_inv H. pose proof (load_row_spec _ _ _ E) as Hr. apply IH in H as (obs & Hobs & Ho & Ht).
  rewrite filter_cons. destruct (decide (clean m)).
  - destruct Hr as [(o & Hom & Hoo) Hrt]. exists (o :: obs). split; [by constructor|].
    rewrite Ho, Hoo, <-app_assoc. split; [done|]. rewrite Ht, Hrt. cbn [length]. lia.
  - destruct Hr as [Hro Hrt]. exists obs. split; [done|]. rewrite Ho, Hro. split; [done|]. rewrite Ht, Hrt. cbn [length]. lia.
Qed.
End Load.

(** ** Which cell a value falls in *)

(** The values of a cell, in the order of the observations. *)
Definition values_at (key : cell_key) (o : Observation) : list float :=
  let '(metric, weekday, hour) := key in
  if decide (seasonal_key (ob_bucket_start o) = (weekday, hour))
  then snd <$> filter (λ mv : string * float, mv.1 = metric) (ob_values o) else [].

Definition samples (key : cell_key) (obs : list Observation) : list float := concat (values_at key <$> obs).

(** [cells.get(key, [])] *)
Fixpoint values_of {K} `{EqDecision K} (cells : list (K * list float)) (key : K) : list float :=
  match cells with
  | [] => []
  | (k, l) :: cells => if decide (k = key) then l else values_of cells key
  end.

Definition well_formed {K} (cells : list (K * list float)) : Prop :=
  NoDup cells.*1 ∧ Forall (λ kl, kl.2 ≠ []) cells.

Lemma values_of_append {K} `{EqDecision K} (cells : list (K * list float)) k v key :
  values_of (append_to k v cells) key = values_of cells key ++ (if decide (key = k) then [v] else []).
Proof.
  induction cells as [|[k' l] cells IH]; cbn [append_to values_of].
  - repeat case_decide; subst; done.
  - destruct (decide (k' = k)) as [->|Hne]; cbn [values_of].
    + repeat case_decide; subst; rewrite ?app_nil_r; done.
    + rewrite IH. repeat case_decide; subst; rewrite ?app_nil_r; done.
Qed.

Lemma append_keys {K} `{EqDecision K} (cells : list (K * list float)) k v x : x ∈ (append_to k v cells).*1 ↔ x = k ∨ x ∈ cells.*1.
Proof.
  induction cells as [|[k' l] cells IH]; cbn; [set_solver|]. case_decide; cbn; set_solver.
Qed.

Lemma append_well_formed {K} `{EqDecision K} (cells : list (K * list float)) k v : well_formed cells → well_formed (append_to k v cells).
Proof.
  intros [Hd He]. induction cells as [|[k' l] cells IH]; cbn [append_to].
  - split; [apply NoDup_singleton|by repeat constructor].
  - cbn in Hd. apply NoDup_cons in Hd as [Hk Hd]. apply Forall_cons in He as [Hl He]. case_decide as Hkk.
    + split; [by constructor|]. constructor; [by destruct l|done].
    + destruct (IH Hd He) as [Hd' He']. split; [|by constructor]. cbn. constructor; [|done].
      rewrite append_keys. set_solver.
Qed.

Lemma group_observation_spec cells o : well_formed cells →
  well_formed (group_observation cells o) ∧
  ∀ key, values_of (group_observation cells o) key = values_of cells key ++ values_at key o.
Proof.
  intros Hw. unfold group_observation. destruct (seasonal_key (ob_bucket_start o)) as [wd h] eqn:Hk.
  cbn [foldl ob_values]. split; [by repeat apply append_well_formed|].
  intros [[metric w] hr]. rewrite !values_of_append. unfold values_at. rewrite Hk, <-app_assoc. f_equal.
  cbn [ob_values filter list_filter fst].
  destruct (decide ((wd, h) = (w, hr))) as [[= -> ->]|Hne].
  - repeat case_decide; simplify_eq; done.
  - rewrite !decide_False by (intros [= -> -> ->]; done). done.
Qed.

Lemma group_cells_spec obs : well_formed (group_cells obs) ∧ ∀ key, values_of (group_cells obs) key = samples key obs.
Proof.
  unfold group_cells. assert (H : ∀ cells, well_formed cells → well_formed (foldl group_observation cells obs) ∧
    ∀ key, values_of (foldl group_observation cells obs) key = values_of cells key ++ samples key obs).
  { induction obs as [|o obs IH]; intros cells Hw; cbn [foldl].
    - split; [done|]. intros key. unfold samples. cbn. by rewrite app_nil_r.
    - destruct (group_observation_spec cells o Hw) as [Hw' Hv]. destruct (IH _ Hw') as [Hw2 Hv2]. split; [done|].
      intros key. rewrite Hv2, Hv, <-app_assoc. done. }
  destruct (H []) as [Hw Hv]; [by split; constructor|]. done.
Qed.

(** ** Which cells are written *)

Lemma values_of_in {K} `{EqDecision K} (cells : list (K * list float)) key l : well_formed cells → (key, l) ∈ cells → values_of cells key = l ∧ l ≠ [].
Proof.
  intros [Hd He] Hin. rewrite Forall_forall in He. split; [|exact (He _ Hin)]. clear He.
  induction cells as [|[k l'] cells IH]; [by apply elem_of_nil in Hin|]. cbn in Hd. apply NoDup_cons in Hd as [Hk Hd].
  cbn [values_of]. apply elem_of_cons in Hin as [[= -> ->]|Hin]; [by rewrite decide_True|].
  rewrite decide_False; [by apply IH|]. intros ->. apply Hk. apply list_elem_of_fmap. by exists (key, l).
Qed.

Lemma values_of_nonempty {K} `{EqDecision K} (cells : list (K * list float)) key : values_of cells key ≠ [] → (key, values_of cells key) ∈ cells.
Proof.
  induction cells as [|[k l] cells IH]; cbn [values_of]; [done|]. case_decide as Hk.
  - subst. by left.
  - intros H. right. by apply IH.
Qed.

(** What the upsert stores for a cell. *)
Definition stored (old : option BaselineRow) (row : BaselineRow) : BaselineRow :=
  match old with
  | None => row
  | Some old =>
      {| br_cell := br_cell row; br_window_start := br_window_start row; br_window_end := br_window_end row;
         br_computed_at := br_computed_at row; br_baseline_version := br_baseline_version old + 1;
         br_completeness := br_completeness row; br_excluded_sample_count := br_excluded_sample_count row;
         br_exclusion_counts := br_exclusion_counts row; br_created_at := br_created_at old;
         br_updated_at := br_updated_at row |}
  end.

Lemma upsert_cell_lookup table key row key' :
  upsert_cell table (key, row) !! key' = if decide (key' = key) then Some (stored (table !! key) row) else table !! key'.
Proof.
  unfold upsert_cell. destruct (table !! key) eqn:E; cbn [stored]; case_decide as Hk; subst;
    by rewrite ?lookup_insert_eq, ?lookup_insert_ne by done.
Qed.

Lemma upsert_other rows table key : key ∉ rows.*1 → foldl upsert_cell table rows !! key = table !! key.
Proof.
  revert table. induction rows as [|[k row] rows IH]; intros table Hk; [done|]. cbn [foldl]. cbn in Hk.
  apply not_elem_of_cons in Hk as [Hne Hk]. rewrite IH, upsert_cell_lookup by done. by rewrite decide_False.
Qed.

Lemma upsert_rows rows table key row : NoDup rows.*1 → (key, row) ∈ rows →
  foldl upsert_cell table rows !! key = Some (stored (table !! key) row).
Proof.
  revert table. induction rows as [|[k r] rows IH]; intros table Hd Hin; [by apply elem_of_nil in Hin|].
  cbn [foldl]. cbn in Hd. apply NoDup_cons in Hd as [Hk Hd]. apply elem_of_cons in Hin as [[= -> ->]|Hin].
  - rewrite upsert_other, upsert_cell_lookup by done. by rewrite decide_True.
  - rewrite IH, upsert_cell_lookup by done. rewrite decide_False; [done|]. intros ->. apply Hk.
    apply list_elem_of_fmap. by exists (k, row).
Qed.

(** The rows built from the cells: one for each, under its key. *)
Lemma mapM_result_in {A B} (f : A → result B) l l' : mapM_result f l = Ok l' →
  Forall2 (λ x y, f x = Ok y) l l'.
Proof.
  revert l'. induction l as [|x l IH]; intros l' H; cbn in H; [injection H as <-; constructor|].
  bind_inv H. bind_inv H. injection H as <-. constructor; [done|by apply IH].
Qed.

(** C30: what a rebuild learns. The clean buckets of the window, and only they, give the
    observations; a cell that has any is the robust summary of all its values in order, under
    the next version and its first creation time, with the count of the buckets left out; and
    a cell that has none is left as it was. *)
Theorem rebuild_exact zoneinfo lookback min_samples metrics anomalies so warned now table table' n warned' :
  rebuild_for_source zoneinfo lookback min_samples metrics anomalies so warned now table = Ok (table', n, warned') →
  let rows := window_rows metrics (dt_minus now (td_days lookback)) now in
  ∃ obs, Forall2 observes (filter (clean zoneinfo so (excluded_intervals anomalies now) now) rows) obs ∧
    ∀ key,
      (samples key obs = [] → table' !! key = table !! key) ∧
      (samples key obs ≠ [] → ∃ row, table' !! key = Some (stored (table !! key) row) ∧
         summarize_cell (samples key obs) min_samples = Ok (br_cell row) ∧ br_baseline_version row = 1 ∧
         br_created_at row = now ∧
         br_excluded_sample_count row = Z.of_nat (length rows) - Z.of_nat (length obs)).
Proof.
  intros H rows. unfold rebuild_for_source, load_clean_observations in H. cbv zeta in H. bind_inv H. destruct r as [l cand].
  bind_inv E. injection E as -> <-. apply load_rows_spec in E0 as (obs & Hobs & Ho & Ht). cbn in Ho, Ht.
  bind_inv H. bind_inv H. injection H as <- _ _. exists obs. split; [exact Hobs|].
  destruct (group_cells_spec obs) as [Hw Hv]. rewrite Ho in E0. apply mapM_result_in in E0 as E1.
  assert (Hkeys : r0.*1 = (group_cells obs).*1).
  { clear -E1. induction E1 as [|[k vs] [k' row] cs rs Hr _ IH]; [done|]. bind_inv Hr. injection Hr as <- <-. cbn. by f_equal. }
  intros key. split.
  - intros Hnone. apply upsert_other. rewrite Hkeys, list_elem_of_fmap. intros ([k vs] & -> & Hin). cbn in Hnone.
    destruct (values_of_in _ _ _ Hw Hin) as [Hvk Hne]. by rewrite Hv, Hnone in Hvk.
  - intros Hsome. rewrite <-Hv in Hsome |- *. pose proof (values_of_nonempty _ _ Hsome) as Hin.
    apply list_elem_of_lookup in Hin as [i Hi]. destruct (Forall2_lookup_l _ _ _ _ _ E1 Hi) as ([k' row] & Hi' & Hrow).
    apply list_elem_of_lookup_2 in Hi'. bind_inv Hrow. injection Hrow as <- <-.
    exists r1. split; [apply upsert_rows; [by rewrite Hkeys; apply Hw|done]|].
    rename r1 into row. unfold cell_row in E2. bind_inv E2. injection E2 as <-. cbn [br_cell br_baseline_version br_created_at br_excluded_sample_count].
    rewrite Ht. by repeat split.
Qed.

(** * Theorems of the seasonal cells

    What the robust statistics of [Statistics] and [Seasonal] promise a detector. *)


(** A sample as the database stores it: finite, of moderate size, in canonical form. *)
Definition sample (x : float) : Prop := below 900 x ∧ canonical x.

#[export] Instance sample_dec x : Decision (sample x).
Proof. unfold sample. apply _. Defined.

Lemma sample_not_nan x : sample x → is_nan x = false.
Proof. intros [H _]. by destruct x. Qed.

(** ** Sorting *)

Definition key_le (x y : float) : Prop := ¬ klt (key_of y) (key_of x).

Lemma not_above_key x y : is_nan x = false → is_nan y = false → not_above x y ↔ key_le x y.
Proof.
  intros Hx Hy. unfold not_above, key_le. rewrite <-not_true_iff_false, flt_true. tauto.
Qed.

Lemma sorted_perm l : sorted l ≡ₚ l.
Proof. apply stable_sort_Permutation. Qed.

Lemma sorted_length l : length (sorted l) = length l.
Proof. by rewrite sorted_perm. Qed.

#[export] Instance not_above_total : Total not_above.
Proof.
  intros x y. unfold not_above. destruct (flt y x) eqn:E; [right|by left]. apply not_true_iff_false.
  intros E'. apply flt_true in E as (_ & _ & H). apply flt_true in E' as (_ & _ & H'). revert H H'. unfold klt. lia.
Qed.

(** Adjacent elements in order, and no NaN, put every pair in order. *)
Lemma sorted_pairs l i j x y : Forall (λ x, is_nan x = false) l →
  sorted l !! i = Some x → sorted l !! j = Some y → (i <= j)%nat → key_le x y.
Proof.
  intros Hn. assert (Hs : Sorted not_above (sorted l)) by (apply Sorted_stable_sort; apply _).
  assert (Hk : StronglySorted key_le (sorted l)).
  { apply Sorted_StronglySorted; [intros a b c; unfold key_le, klt; lia|].
    assert (Hn' : Forall (λ x, is_nan x = false) (sorted l)) by (rewrite sorted_perm; exact Hn).
    induction Hs as [|a s Hs IH Hh]; constructor.
    - apply IH. by inversion Hn'.
    - inversion Hn' as [|? ? Ha Hrest]; subst. destruct Hh as [|b s Hab]; constructor.
      inversion Hrest; subst. by apply not_above_key. }
  clear Hs. revert i j. induction Hk as [|a s Hs IH Hall]; intros [|i] [|j] Hi Hj Hij; try done; try lia.
  - injection Hi as <-. injection Hj as <-. unfold key_le, klt. lia.
  - injection Hi as <-. cbn in Hj. apply list_elem_of_lookup_2 in Hj. rewrite Forall_forall in Hall. by apply Hall.
  - apply (IH i j); [done|done|lia].
Qed.

(** ** A cell most of whose samples agree *)

Definition same_key (v x : float) : Prop := key_of x = key_of v.

#[export] Instance fkey_eq_dec : EqDecision fkey.
Proof. solve_decision. Defined.

#[export] Instance same_key_dec v x : Decision (same_key v x).
Proof. unfold same_key. apply _. Defined.

Definition majority (v : float) (l : list float) : Prop := (length l < 2 * length (filter (same_key v) l))%nat.

Lemma filter_le {A} (P : A → Prop) `{!∀ x, Decision (P x)} l : (length (filter P l) <= length l)%nat.
Proof. apply length_filter. Qed.

(** Every middle element has the value of the majority. *)
Lemma middle_majority l v i x : Forall (λ x, is_nan x = false) l → majority v l →
  (length l <= 2 * i + 2)%nat → (2 * i <= length l)%nat → sorted l !! i = Some x → same_key v x.
Proof.
  intros Hn Hm Hlo Hhi Hi. destruct (decide (same_key v x)) as [|Hne]; [done|exfalso].
  assert (Hcount : length (filter (same_key v) (sorted l)) = length (filter (same_key v) l)).
  { by rewrite (Permutation_length (filter_Permutation (same_key v) _ _ (sorted_perm l))). }
  assert (Hsplit : sorted l = take i (sorted l) ++ x :: drop (S i) (sorted l)) by (by rewrite take_drop_middle).
  pose proof (sorted_length l) as Hlen. pose proof (lookup_lt_Some _ _ _ Hi) as Hlt.
  assert (Hor : klt (key_of x) (key_of v) ∨ klt (key_of v) (key_of x)).
  { unfold same_key in Hne. unfold klt. destruct (key_of x), (key_of v). cbn in *.
    destruct (decide (fk_class = fk_class0)); [|lia]. destruct (decide (fk_exp = fk_exp0)); [|lia].
    destruct (decide (fk_man = fk_man0)); [|lia]. by subst. }
  unfold majority in Hm. rewrite <-Hcount in Hm. destruct Hor as [Hor|Hor].
  - (* everything up to [x] is below [v] *)
    assert (Hnone : Forall (λ y, ¬ same_key v y) (take (S i) (sorted l))).
    { apply Forall_forall. intros y Hy Hk. apply list_elem_of_lookup in Hy as [j Hj].
      apply lookup_take_Some in Hj as [Hj Hji]. pose proof (sorted_pairs l j i y x Hn Hj Hi ltac:(lia)) as Hle.
      unfold key_le in Hle. rewrite Hk in Hle. done. }
    rewrite <-(take_drop (S i) (sorted l)), filter_app, (filter_none _ _ Hnone) in Hm. cbn [app] in Hm.
    pose proof (filter_le (same_key v) (drop (S i) (sorted l))) as Hf. rewrite length_drop in Hf. lia.
  - assert (Hnone : Forall (λ y, ¬ same_key v y) (drop i (sorted l))).
    { apply Forall_forall. intros y Hy Hk. apply list_elem_of_lookup in Hy as [j Hj]. rewrite lookup_drop in Hj.
      pose proof (sorted_pairs l i (i + j) x y Hn Hi Hj ltac:(lia)) as Hle.
      unfold key_le in Hle. rewrite Hk in Hle. done. }
    rewrite <-(take_drop i (sorted l)), filter_app, (filter_none _ _ Hnone), app_nil_r in Hm.
    pose proof (filter_le (same_key v) (take i (sorted l))) as Hf. rewrite length_take in Hf. lia.
Qed.

Lemma same_key_cases v x : isfinite v = true → isfinite x = true → same_key v x →
  x = v ∨ is_zero v = true ∧ is_zero x = true.
Proof.
  unfold same_key. destruct v as [[]|[]| |[] m e], x as [[]|[]| |[] m' e']; try done; cbn; intros _ _ H; try (by right);
    injection H; intros; left; f_equal; lia.
Qed.

Lemma zero_key x : isfinite x = true → same_key f0 x → is_zero x = true.
Proof. intros Hx Hk. by destruct (same_key_cases f0 x eq_refl Hx Hk) as [->|[_ ?]]. Qed.

(** The mean of two middle elements of the same value. *)
Lemma mean_same v a b : sample v → sample a → sample b → same_key v a → same_key v b →
  ∃ c, fdiv (fadd a b) f2 = Ok c ∧ sample c ∧ same_key v c.
Proof.
  intros Hv Ha Hb Hka Hkb.
  destruct (same_key_cases v a) as [->|[Hz Hza]]; [by eapply below_finite, Hv|by eapply below_finite, Ha|done| |].
  - destruct (same_key_cases v b) as [->|[Hz Hzb]]; [by eapply below_finite, Hv|by eapply below_finite, Hb|done| |].
    + exists v. split; [|done]. change f2 with two. apply mean_exact; [by destruct Hv|]. eapply below_mono; [apply Hv|lia].
    + destruct v as [[]| | |], b as [[]| | |]; try done; eexists; (split; [by vm_compute|]); done.
  - assert (Hzb : is_zero b = true).
    { destruct (same_key_cases v b) as [->|[_ ?]]; [by eapply below_finite, Hv|by eapply below_finite, Hb|done|done|done]. }
    destruct v as [[]| | |], a as [[]| | |], b as [[]| | |]; try done; eexists; (split; [by vm_compute|]); done.
Qed.

Lemma item_lookup l i : 0 <= i < Z.of_nat (length l) → ∃ x, item l i = Ok x ∧ l !! Z.to_nat i = Some x.
Proof.
  intros Hi. destruct (lookup_lt_is_Some_2 l (Z.to_nat i)) as [x Hx]; [lia|]. exists x. unfold item. by rewrite Hx.
Qed.

(** The middle indices of a list. *)
Lemma mid_lo {A} (l : list A) : (length l <= 2 * Z.to_nat (Z.of_nat (length l) / 2) + 2)%nat.
Proof. Z.div_mod_to_equations. lia. Qed.
Lemma mid_hi {A} (l : list A) : (2 * Z.to_nat (Z.of_nat (length l) / 2) <= length l)%nat.
Proof. Z.div_mod_to_equations. lia. Qed.
Lemma mid_lo' {A} (l : list A) : Z.of_nat (length l) mod 2 ≠ 1 → (0 < length l)%nat →
  (length l <= 2 * Z.to_nat (Z.of_nat (length l) / 2 - 1) + 2)%nat.
Proof. intros. Z.div_mod_to_equations. lia. Qed.
Lemma mid_hi' {A} (l : list A) : (2 * Z.to_nat (Z.of_nat (length l) / 2 - 1) <= length l)%nat.
Proof. Z.div_mod_to_equations. lia. Qed.

(** The median of a list most of whose elements agree. *)
Lemma std_median_majority l v : Forall (λ x, is_nan x = false) l → (∀ x, x ∈ l → same_key v x → sample x) →
  sample v → majority v l → ∃ c, std_median l = Ok c ∧ sample c ∧ same_key v c.
Proof.
  intros Hn Hs Hv Hm. unfold std_median. rewrite sorted_length. pose proof (filter_le (same_key v) l) as Hf.
  assert (Hlen : (0 < length l)%nat) by (unfold majority in Hm; lia).
  assert (Hmid : ∀ i x, (length l <= 2 * i + 2)%nat → (2 * i <= length l)%nat → sorted l !! i = Some x →
    same_key v x ∧ sample x).
  { intros i x H1 H2 H3. assert (Hk : same_key v x) by (by eapply middle_majority). split; [done|].
    apply Hs; [|done]. rewrite <-(sorted_perm l). by eapply list_elem_of_lookup_2. }
  destruct (Z.eqb_spec (Z.of_nat (length l) mod 2) 1) as [Hodd|Heven].
  - destruct (item_lookup (sorted l) (Z.of_nat (length l) / 2)) as (x & -> & Hx).
    { rewrite sorted_length. Z.div_mod_to_equations. lia. }
    exists x. split; [done|]. destruct (Hmid _ _ (mid_lo l) (mid_hi l) Hx). done.
  - destruct (item_lookup (sorted l) (Z.of_nat (length l) / 2 - 1)) as (a & -> & Ha).
    { rewrite sorted_length. Z.div_mod_to_equations. lia. }
    destruct (item_lookup (sorted l) (Z.of_nat (length l) / 2)) as (b & -> & Hb).
    { rewrite sorted_length. Z.div_mod_to_equations. lia. }
    cbn [res_bind].
    destruct (Hmid _ _ (mid_lo' l Heven Hlen) (mid_hi' l) Ha).
    destruct (Hmid _ _ (mid_lo l) (mid_hi l) Hb).
    by apply mean_same.
Qed.

(** The distance of a value from itself. *)
Lemma dist_self c x : sample c → sample x → same_key c x → fabs (fsub x c) = f0.
Proof.
  intros [Hc _] [Hx _] Hk. destruct (same_key_cases c x) as [->|[Hz Hzx]]; [by eapply below_finite|by eapply below_finite|done| |].
  - destruct c as [[]|[]| |s m e]; try done. unfold fsub, SFsub. by rewrite Z.sub_diag.
  - destruct c as [[]| | |], x as [[]| | |]; done.
Qed.

Lemma dist_not_nan c x : sample c → sample x → is_nan (fabs (fsub x c)) = false.
Proof.
  intros [Hc _] [Hx _]. assert (H : below 902 (fabs (fsub x c))) by (apply fabs_below, (fsub_below 900); [done|done|lia]).
  revert H. by destruct (fabs _).
Qed.

Lemma majority_empty v l : majority v l → is_empty l = false.
Proof. unfold majority. destruct l; [cbn; lia|done]. Qed.

(** The samples of the value are at no distance. *)
Lemma devs_majority l c v : sample c → same_key v c → Forall sample l →
  (length (filter (same_key v) l) <= length (filter (same_key f0) ((λ x, fabs (fsub x c)) <$> l)))%nat.
Proof.
  intros Hc Hk. induction 1 as [|x l Hx _ IH]; [done|]. cbn [fmap list_fmap]. rewrite !filter_cons.
  destruct (decide (same_key v x)) as [Hv|Hv].
  - rewrite decide_True; [cbn [length]; lia|]. rewrite (dist_self c x); [done|done|done|].
    unfold same_key in *. congruence.
  - case_decide; cbn [length]; lia.
Qed.

(** The degenerate cell. When more than half of a cell's samples have one value, the median
    is that value and the spread is exactly zero, whatever the other samples are; so every
    score of the cell is marked as not trustworthy, and no score exists but a finite one. *)
Theorem steady_cell_degenerate l v : Forall sample l → sample v → majority v l →
  ∃ c z, median l = Ok c ∧ same_key v c ∧ mad l (Some c) = Ok z ∧ is_zero z = true ∧
    ∀ value mfr, below 100 value → below 100 c → below 100 mfr →
      ∃ s, robust_z_with_status value c z mfr = Ok (s, RS_DEGENERATE) ∧ isfinite s = true.
Proof.
  intros Hl Hv Hm. rewrite Forall_forall in Hl.
  assert (Hn : Forall (λ x, is_nan x = false) l) by (apply Forall_forall; intros x Hx; by apply sample_not_nan, Hl).
  destruct (std_median_majority l v Hn (λ x Hx _, Hl x Hx) Hv Hm) as (c & Hmed & Hc & Hk).
  pose proof (majority_empty _ _ Hm) as He.
  set (devs := (λ x, fabs (fsub x c)) <$> l).
  assert (Hdn : Forall (λ x, is_nan x = false) devs).
  { apply Forall_forall. intros d (x & -> & Hx)%list_elem_of_fmap. by apply dist_not_nan, Hl. }
  assert (Hdm : majority f0 devs).
  { unfold majority, devs in *. rewrite length_fmap. eapply Nat.lt_le_trans; [exact Hm|]. apply Nat.mul_le_mono_l.
    apply devs_majority; [done|done|by apply Forall_forall]. }
  destruct (std_median_majority devs f0 Hdn) as (z & Hz & Hzs & Hzk).
  { intros d (x & -> & Hx)%list_elem_of_fmap Hd. apply zero_key in Hd.
    - destruct (fabs (fsub x c)); try done.
    - eapply below_finite, fabs_below, (fsub_below 900); [apply Hl, Hx|apply Hc|lia]. }
  { by apply (bool_decide_unpack _). }
  { done. }
  assert (Hzz : is_zero z = true) by (apply zero_key; [by eapply below_finite, Hzs|done]).
  exists c, z. unfold median, mad. rewrite He. cbn [raise_if res_bind]. fold devs.
  split; [done|]. split; [done|]. split; [done|]. split; [done|]. intros value mfr Hval Hcb Hmfr.
  unfold robust_z_with_status.
  destruct (robust_z_ok value c z mfr Hval Hcb ltac:(by destruct z) Hmfr) as (s & -> & Hs).
  exists s. cbn [res_bind]. split; [by destruct z as [[]| | |]|by eapply below_finite].
Qed.

(** ** The order of the samples *)

(** A finite value that is not the negative zero. *)
Definition plain (x : float) : Prop := isfinite x = true ∧ x ≠ S754_zero true.

Lemma plain_key_inj x y : plain x → plain y → key_of x = key_of y → x = y.
Proof.
  intros [Hx Hxz] [Hy Hyz] H. destruct (same_key_cases y x Hy Hx H) as [->|[H1 H2]]; [done|].
  destruct x as [[]| | |], y as [[]| | |]; done.
Qed.

Lemma sorted_unique l l' : l ≡ₚ l' → Forall plain l → sorted l = sorted l'.
Proof.
  intros Hp Hl. pose proof Hl as Hl'. rewrite Hp in Hl'.
  assert (Hs : ∀ l, Forall plain l → StronglySorted key_le (sorted l)).
  { clear. intros l Hl. assert (Hn : Forall plain (sorted l)) by by rewrite sorted_perm.
    apply Sorted_StronglySorted; [intros a b c; unfold key_le, klt; lia|].
    assert (Hs : Sorted not_above (sorted l)) by (apply Sorted_stable_sort; apply _).
    induction Hs as [|a s Hs IH Hh]; constructor; inversion Hn as [|? ? Ha Hrest]; subst; [by apply IH|].
    destruct Hh as [|b s Hab]; constructor. inversion Hrest as [|? ? Hb _]; subst.
    apply not_above_key; [by apply finite_not_nan, Ha|by apply finite_not_nan, Hb|done]. }
  apply (StronglySorted_unique_strong key_le); [|by apply Hs..|by rewrite !sorted_perm].
  intros x y Hx Hy Hxy Hyx. rewrite sorted_perm in Hx, Hy. rewrite Forall_forall in Hl, Hl'.
  apply plain_key_inj; [by apply Hl|by apply Hl'|]. revert Hxy Hyx. unfold key_le, klt.
  destruct (key_of x), (key_of y). cbn. intros. f_equal; lia.
Qed.

Lemma is_empty_perm l l' : l ≡ₚ l' → is_empty l = is_empty l'.
Proof. intros H. apply Permutation_length in H. by destruct l, l'. Qed.

Lemma fabs_plain k x : below k x → plain (fabs x).
Proof. intros Hb. split; [by destruct x|]. by destruct x. Qed.

(** A cell's statistics do not depend on the order of its samples: the median, every
    percentile, and the spread about any center. *)
Theorem summary_order_free l l' : l ≡ₚ l' → Forall sample l → S754_zero true ∉ l →
  median l = median l' ∧ (∀ q, percentile l q = percentile l' q) ∧
  (∀ c, sample c → mad l (Some c) = mad l' (Some c)).
Proof.
  intros Hp Hl Hz. pose proof (is_empty_perm _ _ Hp) as He. rewrite Forall_forall in Hl.
  assert (Hpl : Forall plain l).
  { apply Forall_forall. intros x Hx. split; [by eapply below_finite, Hl|by intros ->]. }
  unfold median, mad, percentile, std_median. rewrite <-He, <-(sorted_unique l l' Hp Hpl). split; [done|]. split; [done|].
  intros c [Hc _]. destruct (is_empty l); [done|]. cbn [raise_if res_bind].
  rewrite <-(sorted_unique ((λ v, fabs (fsub v c)) <$> l) ((λ v, fabs (fsub v c)) <$> l')); [done|by rewrite Hp|].
  apply Forall_forall. intros d (x & -> & Hx)%list_elem_of_fmap.
  eapply fabs_plain, (fsub_below 900); [by apply Hl|done|lia].
Qed.

(** ** A summary exists *)

(** The rank of a percentile, for every length of sample a cell may reach. *)
Definition rank_within (q last : Z) : bool :=
  match (share <- truediv q 100 ;; top <- float_of_int last ;; ftrunc (fmul share top)) with
  | Ok lo => (0 <=? lo) && (lo <=? last)
  | Err _ => false
  end.

Lemma ranks_checked : forallb (λ n, rank_within 5 (Z.of_nat n) && rank_within 95 (Z.of_nat n)) (seq 1 2000) = true.
Proof. vm_compute. reflexivity. Qed.

Lemma rank_ok q last : q = 5 ∨ q = 95 → 1 <= last <= 2000 → rank_within q last = true.
Proof.
  intros Hq Hl. pose proof ranks_checked as H. rewrite forallb_forall in H.
  specialize (H (Z.to_nat last)). rewrite Z2Nat.id in H by lia.
  destruct (andb_prop _ _ (H ltac:(apply in_seq; lia))). by destruct Hq as [->| ->].
Qed.

Lemma percentile_total l q : q = 5 ∨ q = 95 → 1 <= Z.of_nat (length l) <= 2000 → is_ok (percentile l q).
Proof.
  intros Hq Hl. unfold percentile. rewrite sorted_length.
  replace (is_empty l) with false by (destruct l; [cbn in Hl; lia|done]). cbn [raise_if res_bind].
  replace (negb ((0 <=? q) && (q <=? 100))) with false by (by destruct Hq as [->| ->]). cbn [raise_if res_bind].
  assert (Hitem : ∀ i, 0 <= i < Z.of_nat (length l) → ∃ x, item (sorted l) i = Ok x).
  { intros i Hi. destruct (item_lookup (sorted l) i) as (x & Hx & _); [by rewrite sorted_length|eauto]. }
  destruct (Z.eqb_spec (Z.of_nat (length l) - 1) 0) as [_|Hne]; [apply Hitem; lia|].
  pose proof (rank_ok q (Z.of_nat (length l) - 1) Hq ltac:(lia)) as Hr. unfold rank_within in Hr.
  destruct (truediv q 100) as [share|]; [cbn [res_bind] in *|done].
  destruct (float_of_int (Z.of_nat (length l) - 1)) as [top|]; [cbn [res_bind] in *|done].
  destruct (ftrunc _) as [lo|]; [cbn [res_bind]|done]. apply andb_prop in Hr as [H1%Z.leb_le H2%Z.leb_le].
  destruct (float_of_int_below lo 11 12) as (f & -> & _); [lia..|]. cbn [res_bind].
  destruct (Hitem lo) as (a & ->); [lia|]. cbn [res_bind].
  destruct (Hitem (Z.min (lo + 1) (Z.of_nat (length l) - 1))) as (b & ->); [lia|]. by eexists.
Qed.

Lemma std_median_total l : l ≠ [] → is_ok (std_median l).
Proof.
  intros Hl. unfold std_median. rewrite sorted_length. assert (0 < length l)%nat by (destruct l; [done|cbn; lia]).
  assert (Hitem : ∀ i, 0 <= i < Z.of_nat (length l) → ∃ x, item (sorted l) i = Ok x).
  { intros i Hi. destruct (item_lookup (sorted l) i) as (x & Hx & _); [by rewrite sorted_length|eauto]. }
  destruct (Z.eqb_spec (Z.of_nat (length l) mod 2) 1).
  - apply Hitem. Z.div_mod_to_equations. lia.
  - destruct (Hitem (Z.of_nat (length l) / 2 - 1)) as (a & ->); [Z.div_mod_to_equations; lia|].
    destruct (Hitem (Z.of_nat (length l) / 2)) as (b & ->); [Z.div_mod_to_equations; lia|]. by eexists.
Qed.

(** Every cell of ordinary samples has a summary. *)
Lemma summarize_cell_total l n : Forall sample l → 1 <= Z.of_nat (length l) <= 2000 → is_ok (summarize_cell l n).
Proof.
  intros Hl Hlen. assert (Hne : l ≠ []) by (destruct l; [cbn in Hlen; lia|done]). unfold summarize_cell, median, mad.
  replace (is_empty l) with false by (by destruct l). cbn [raise_if res_bind].
  destruct (std_median_total l Hne) as [m ->]. cbn [res_bind].
  destruct (std_median_total ((λ v, fabs (fsub v m)) <$> l)) as [s ->]; [by destruct l|]. cbn [res_bind].
  destruct (percentile_total l 5) as [p5 ->]; [by left|done|]. cbn [res_bind].
  destruct (percentile_total l 95) as [p95 ->]; [by right|done|]. cbn [res_bind].
  destruct (mapM_result_total (round_digits 4) (last_n MAX_STORED_OBSERVATIONS l)) as [o ->]; [|by eexists].
  apply Forall_drop. eapply Forall_impl; [exact Hl|]. intros x [Hx _]. by eapply (round_digits_ok _ _ 900).
Qed.
