(* ===== verification/DetectExamples.v ===== *)
(** * Concrete buckets

    The theorems of the detectors, the thresholds, the business hours and the baselines on
    an hour of a source that spikes, falls silent, or repeats itself. *)

From S2P Require Import Prelude PyStr PyFloat PyFloatFacts PyTime PyJson Enums AnomalyLifecycle Statistics Detectors DetectorFacts DetectorTheorems Thresholds BusinessHours Seasonal BaselineTheorems Baseline.

(** ** The detectors *)

Definition ex_thresholds : Thresholds :=
  {| th_deviation_z := lit 3 1; th_spike_ratio := lit 2 1; th_drop_ratio := lit 1 2;
     th_min_absolute_delta_events := lit 100 1; th_min_bucket_events := lit 50 1; th_silence_grace_buckets := 1;
     th_min_parsed_ratio := lit 1 2; th_max_unknown_ratio := lit 2 10; th_delay_interval_multiple := lit 3 1;
     th_cardinality_drop_fraction := lit 4 10; th_collection_error_threshold := 0; th_repeated_payload_intervals := 3;
     th_open_after := 2; th_resolve_after := 3 |}.

(** Stricter: the spike must be fourfold. *)
Definition ex_strict : Thresholds :=
  {| th_deviation_z := lit 3 1; th_spike_ratio := lit 4 1; th_drop_ratio := lit 1 4;
     th_min_absolute_delta_events := lit 100 1; th_min_bucket_events := lit 50 1; th_silence_grace_buckets := 1;
     th_min_parsed_ratio := lit 1 2; th_max_unknown_ratio := lit 2 10; th_delay_interval_multiple := lit 3 1;
     th_cardinality_drop_fraction := lit 4 10; th_collection_error_threshold := 0; th_repeated_payload_intervals := 3;
     th_open_after := 2; th_resolve_after := 3 |}.

Definition ex_point (eps : float) (count : Z) : MetricPoint :=
  {| mp_interval_start := utc (td_hours 480000); mp_interval_end := utc (td_hours 480001); mp_completeness := BC_COMPLETE;
     mp_event_count := count; mp_average_eps := eps; mp_peak_eps := eps; mp_last_event_at := None;
     mp_event_delay_seconds := Some (lit 10 1); mp_unknown_event_count := 0; mp_stored_event_count := count;
     mp_parsed_username_ratio := Some (lit 9 10); mp_parsed_source_ip_ratio := None; mp_distinct_qid_count := 3;
     mp_distinct_username_count := 4; mp_distinct_source_ip_count := 5; mp_collection_error_count := 0;
     mp_payload_signature := Some "sig" |}.

Definition ex_cell (median mad : float) : BaselineCell :=
  {| bc_median := median; bc_mad := mad; bc_p05 := None; bc_p95 := None; bc_sample_count := 40; bc_is_reliable := true;
     bc_completeness := f1; bc_baseline_version := 2 |}.

Definition ex_context (thr : Thresholds) (eps : float) (count : Z) : DetectionContext :=
  {| cx_point := ex_point eps count;
     cx_baselines := {["average_eps" := ex_cell (lit 10 1) (lit 1 1); "event_count" := ex_cell (lit 36000 1) (lit 100 1)]};
     cx_thresholds := thr; cx_expected_interval_seconds := lit 3600 1; cx_recent_signatures := ["other"; "sig"];
     cx_is_expected_active := true; cx_preceding_empty_buckets := 2 |}.

Definition ex_floor : float := lit 1 100.

(** The verdict of a detector that returns. *)
Definition returned (r : result AnomalyEvidence) : AnomalyEvidence :=
  match r with Ok ev => ev | Err _ => unknown AT_NO_EVENTS (utc 0) (utc 0) "" end.

Definition ex_spiking : DetectionContext := ex_context ex_thresholds (lit 30 1) 108000.
Definition ex_silent : DetectionContext := ex_context ex_thresholds f0 0.

(** The spike detector and its opposite on the spike, and the silence detector. *)
Definition ex_up : AnomalyEvidence := returned (detect_volume_spike ex_floor ex_spiking).
Definition ex_down : AnomalyEvidence := returned (detect_volume_drop ex_floor ex_spiking).
Definition ex_none : AnomalyEvidence := returned (detect_no_events ex_silent).

Lemma ex_up_returned : volume ex_floor ex_spiking AT_VOLUME_SPIKE Up = Ok ex_up.
Proof. vm_compute. reflexivity. Qed.
Lemma ex_down_returned : volume ex_floor ex_spiking AT_VOLUME_DROP Down = Ok ex_down.
Proof. vm_compute. reflexivity. Qed.
Lemma ex_none_returned : detect_no_events ex_silent = Ok ex_none.
Proof. vm_compute. reflexivity. Qed.
Lemma ex_signals : ev_signal ex_up = DS_ANOMALOUS ∧ ev_signal ex_down = DS_HEALTHY ∧ ev_signal ex_none = DS_ANOMALOUS.
Proof. vm_compute. by split_and!. Qed.

(** Thirty events per second where the baseline expects ten: the spike fires, the drop not. *)
Lemma volume_verdict_witness : volume_fires ex_floor ex_spiking Up ∧ ¬ volume_fires ex_floor ex_spiking Down.
Proof.
  destruct ex_signals as (Hu & Hd & _). split.
  - exact (proj1 (proj1 (volume_verdict _ _ _ _ _ ex_up_returned)) Hu).
  - intros H. pose proof (proj2 (proj1 (volume_verdict _ _ _ _ _ ex_down_returned)) H) as Ha.
    rewrite Hd in Ha. discriminate Ha.
Defined.

Lemma ex_stricter : stricter ex_thresholds ex_strict.
Proof. split; vm_compute; reflexivity. Qed.

Definition ex_up_strict : AnomalyEvidence :=
  returned (volume ex_floor (with_thresholds ex_strict ex_spiking) AT_VOLUME_SPIKE Up).

Lemma ex_up_strict_returned : volume ex_floor (with_thresholds ex_strict ex_spiking) AT_VOLUME_SPIKE Up = Ok ex_up_strict.
Proof. vm_compute. reflexivity. Qed.

Lemma stricter_only_removes_witness : ev_signal ex_up_strict = DS_ANOMALOUS → ev_signal ex_up = DS_ANOMALOUS.
Proof.
  exact (stricter_only_removes ex_floor ex_spiking ex_strict _ _ _ _ ex_stricter ex_up_returned ex_up_strict_returned).
Defined.

Lemma spike_drop_exclusive_witness : ¬ (ev_signal ex_up = DS_ANOMALOUS ∧ ev_signal ex_down = DS_ANOMALOUS).
Proof.
  refine (spike_drop_exclusive ex_floor ex_spiking ex_up ex_down _ _ ex_up_returned ex_down_returned).
  - vm_compute. reflexivity.
  - intros cell s (_ & Hc & _) Hs. vm_compute in Hc, Hs. injection Hc as <-. injection Hs as <-. vm_compute. reflexivity.
Defined.

(** Two empty buckets past a grace of one. *)
Lemma no_events_verdict_witness : silence_fires ex_silent.
Proof.
  destruct ex_signals as (_ & _ & Hn). exact (proj1 (proj1 (no_events_verdict _ _ ex_none_returned)) Hn).
Defined.

(** ** Totality, and a threshold that breaks it *)

(** [tame], computed. *)
Definition tame_b (x : float) : bool :=
  match x with
  | S754_zero _ => true
  | S754_finite _ m e =>
      let k := Zdigits2 (Zpos m) + e in (Zdigits2 (Zpos m) <=? 53) && (-100 <=? k) && (k <=? 100)
  | _ => false
  end.

Lemma tame_b_tame x : tame_b x = true → tame x.
Proof.
  destruct x as [s| | |s m e]; try done; [by left|]. cbn [tame_b]. intros H. bool_simp. right.
  eexists s, _. split; [|split]; [by exists m, e|done|done].
Qed.

Ltac closed_tame :=
  repeat match goal with |- _ ∧ _ => split end;
  first [apply tame_b_tame; vm_compute; reflexivity | unfold small; cbn; lia | vm_compute; reflexivity | done].

Lemma ex_cell_tame m d : tame_b m = true → tame_b d = true → tame_cell (ex_cell m d).
Proof. intros Hm Hd. unfold tame_cell, ex_cell. cbn. split_and!; try closed_tame; by apply tame_b_tame. Qed.

Lemma ex_context_tame eps count : tame_b eps = true → small count → tame_context (ex_context ex_thresholds eps count).
Proof.
  intros He Hc. split; cbn [ex_context cx_point cx_thresholds cx_baselines cx_expected_interval_seconds cx_recent_signatures
    cx_preceding_empty_buckets].
  - unfold tame_point, ex_point. cbn. split_and!; try done; try closed_tame. by apply tame_b_tame.
  - unfold tame_thresholds, ex_thresholds. cbn [th_deviation_z th_spike_ratio th_drop_ratio th_min_parsed_ratio
      th_max_unknown_ratio th_delay_interval_multiple th_cardinality_drop_fraction th_collection_error_threshold
      th_repeated_payload_intervals]. closed_tame.
  - apply map_Forall_insert_2; [by apply ex_cell_tame; vm_compute|].
    apply map_Forall_insert_2; [by apply ex_cell_tame; vm_compute|apply map_Forall_empty].
  - closed_below.
  - unfold small. cbn. lia.
  - unfold small. cbn. lia.
Qed.

Lemma detectors_total_witness : ∃ evs, detect_all ex_floor ex_spiking = Ok evs ∧
  Forall2 (λ at_ ev, labelled ex_spiking at_ ev ∧ plain_facts (ev_extra ev) = true) canonical_order evs.
Proof.
  apply (detectors_total ex_floor ex_spiking); [by apply tame_b_tame; vm_compute|].
  apply ex_context_tame; [vm_compute; reflexivity|unfold small; lia].
Defined.

(** The source whose operator stored a repeat of 0. *)
Definition ex_never : Thresholds :=
  {| th_deviation_z := lit 3 1; th_spike_ratio := lit 2 1; th_drop_ratio := lit 1 2;
     th_min_absolute_delta_events := lit 100 1; th_min_bucket_events := lit 50 1; th_silence_grace_buckets := 1;
     th_min_parsed_ratio := lit 1 2; th_max_unknown_ratio := lit 2 10; th_delay_interval_multiple := lit 3 1;
     th_cardinality_drop_fraction := lit 4 10; th_collection_error_threshold := 0; th_repeated_payload_intervals := 0;
     th_open_after := 2; th_resolve_after := 3 |}.

Lemma zero_repeat_raises_witness : ¬ is_ok (detect_all ex_floor (ex_context ex_never (lit 30 1) 108000)).
Proof.
  refine (proj2 (zero_repeat_raises ex_floor (ex_context ex_never (lit 30 1) 108000) "sig" _ _ _)); [reflexivity..|].
  unfold small. cbn. lia.
Defined.

(** ** Thresholds and business hours *)

Definition ex_threshold_settings : ThresholdSettings :=
  {| ts_lab_mode := false; ts_open_after := 1; ts_resolve_after := 1; ts_deviation := lit 3 1; ts_spike_ratio := lit 2 1;
     ts_drop_ratio := lit 1 2; ts_min_absolute_delta_events := lit 100 1; ts_min_bucket_events := lit 50 1;
     ts_silence_grace_buckets := 1 |}.

(** The example of the resolver's comment. *)
Definition ex_custom : jobj :=
  [("deviation_z", JFloat (lit 4 1)); ("open_after", JInt 1);
   ("by_type", JObj [("VOLUME_SPIKE", JObj [("deviation_z", JFloat (lit 5 1))])])].

Definition ex_resolved : jobj :=
  match resolve_thresholds ex_threshold_settings CR_LOW ex_custom (Some AT_VOLUME_SPIKE) with Ok o => o | Err _ => [] end.

Lemma resolution_order_witness :
  assoc ex_resolved "deviation_z" = Some (JFloat (lit 5 1)) ∧ assoc ex_resolved "open_after" = Some (JInt 1) ∧
  assoc ex_resolved "resolve_after" = Some (JInt 4).
Proof.
  assert (resolve_thresholds ex_threshold_settings CR_LOW ex_custom (Some AT_VOLUME_SPIKE) = Ok ex_resolved) as H
    by (vm_compute; reflexivity).
  rewrite !(resolution_order _ _ _ _ _ H). vm_compute. by split_and!.
Defined.

(** A night shift from 22 to 6 that opens on Mondays covers Tuesday at 3. *)
Lemma window_covers_exact_witness : in_window (td_days 5 + td_hours 3) 22 6 [1].
Proof. apply (window_covers_exact (td_days 5 + td_hours 3) 22 6 [1]); [lia|lia|vm_compute; reflexivity]. Defined.

(** ** Cells and baselines *)

(** A steady source with one burst. *)
Definition ex_samples : list float := [lit 10 1; lit 900 1; lit 10 1; lit 10 1].

Lemma ex_samples_ok : Forall sample ex_samples.
Proof. apply (bool_decide_unpack _). vm_compute. exact I. Qed.

Lemma steady_cell_degenerate_witness : ∃ c z, median ex_samples = Ok c ∧ mad ex_samples (Some c) = Ok z ∧ is_zero z = true.
Proof.
  destruct (steady_cell_degenerate ex_samples (lit 10 1)) as (c & z & H1 & _ & H2 & H3 & _).
  - exact ex_samples_ok.
  - apply (bool_decide_unpack _). vm_compute. exact I.
  - unfold majority. vm_compute. lia.
  - exists c, z. exact (conj H1 (conj H2 H3)).
Defined.

Lemma summary_order_free_witness : median ex_samples = median (rev ex_samples).
Proof.
  refine (proj1 (summary_order_free ex_samples (rev ex_samples) _ ex_samples_ok _)).
  - apply Permutation_rev.
  - apply (bool_decide_unpack _). vm_compute. exact I.
Defined.

(** One clean hour, and one hour still collecting. *)
Definition ex_row (h : Z) (completeness : BucketCompleteness) : MetricRow :=
  {| mr_bucket_start := utc (td_hours h); mr_bucket_seconds := 3600; mr_event_count := 36000; mr_average_eps := lit 10 1;
     mr_peak_eps := lit 12 1; mr_last_event_at := None; mr_event_delay_seconds := None; mr_unknown_event_count := 0;
     mr_stored_event_count := 36000; mr_parsed_username_ratio := None; mr_parsed_source_ip_ratio := None;
     mr_distinct_qid_count := 0; mr_distinct_username_count := 0; mr_distinct_source_ip_count := 0;
     mr_collection_error_count := 0; mr_payload_signature := None; mr_completeness := completeness;
     mr_collection_source := Some "ariel_aggregate"; mr_query_provenance := None |}.

Definition ex_baseline_source : BaselineSource :=
  {| bs_hours := {| bh_source_id := 7; bh_business_hours_only := false; bh_timezone_name := JStr "UTC";
                    bh_business_days := JNull; bh_business_hours_start := JNull; bh_business_hours_end := JNull |};
     bs_maintenance_mode := false; bs_maintenance_until := None |}.

Definition ex_zoneinfo (name : string) : (Z → Z) + string := inl (λ _, 0).

Definition ex_rebuilt : result (baseline_table * Z * gset N) :=
  rebuild_for_source ex_zoneinfo 30 1 [ex_row 480000 BC_COMPLETE; ex_row 480001 BC_PARTIAL] [] ex_baseline_source ∅
    (utc (td_hours 480010)) ∅.

Definition ex_table : baseline_table := match ex_rebuilt with Ok (t, _, _) => t | Err _ => ∅ end.

Lemma ex_rebuilt_ok : ∃ n warned, ex_rebuilt = Ok (ex_table, n, warned).
Proof.
  assert (match ex_rebuilt with Ok _ => true | Err _ => false end = true) as H by (vm_compute; reflexivity).
  unfold ex_table. destruct ex_rebuilt as [[[table n] warned]|e]; [by exists n, warned|discriminate H].
Qed.

Lemma ex_clean : filter (clean ex_zoneinfo ex_baseline_source (excluded_intervals [] (utc (td_hours 480010))) (utc (td_hours 480010)))
    (window_rows [ex_row 480000 BC_COMPLETE; ex_row 480001 BC_PARTIAL]
       (dt_minus (utc (td_hours 480010)) (td_days 30)) (utc (td_hours 480010))) = [ex_row 480000 BC_COMPLETE].
Proof. vm_compute. reflexivity. Qed.

(** The clean hour is a Friday's first; its cell is written, with one of the two rows left out. *)
Lemma rebuild_exact_witness : ∃ row, ex_table !! ("average_eps", 5, 0) = Some row ∧ br_baseline_version row = 1 ∧
  br_excluded_sample_count row = 1.
Proof.
  destruct ex_rebuilt_ok as (n & warned & Hok).
  destruct (rebuild_exact _ _ _ _ _ _ _ _ _ _ _ _ Hok) as (obs & Hobs & H).
  rewrite ex_clean in Hobs. apply Forall2_cons_inv_l in Hobs as (o & obs' & (Hs & _) & Hnil & ->).
  apply Forall2_nil_inv_l in Hnil as ->.
  destruct (proj2 (H ("average_eps", 5, 0))) as (row & Hr & _ & Hv & _ & Hx).
  - unfold samples, values_at. cbn. rewrite Hs. vm_compute. discriminate.
  - exists row. rewrite lookup_empty in Hr. split_and!; [exact Hr|exact Hv|]. rewrite Hx. vm_compute. reflexivity.
Defined.
