(* ===== verification/OutagePolicy.v ===== *)
(** * Outage policy

    [fleet/outage_policy.py]: what silence of a source means, from the policy rows. *)

From S2P Require Import Prelude PyStr Enums.

Inductive OutagePolicyScope := OP_SOURCE | OP_CLASS.

#[export] Instance OutagePolicyScope_eq_dec : EqDecision OutagePolicyScope.
Proof. solve_decision. Defined.

Record OutagePolicyRow := {
  op_instance_id : option N; op_scope_kind : OutagePolicyScope; op_scope_value : string;
  op_mode : OutagePolicyMode; op_silence_grace_buckets : option Z }.

Record ResolvedOutage := { ro_mode : OutagePolicyMode; ro_silence_grace_buckets : option Z; ro_basis : string }.

(** [next((row for row in rows if p(row)), None)] *)
Definition first_row (P : OutagePolicyRow → Prop) `{!∀ r, Decision (P r)} (rows : list OutagePolicyRow)
    : option OutagePolicyRow := snd <$> list_find P rows.

(** [_pick] *)
Definition pick (rows : list OutagePolicyRow) (scope : OutagePolicyScope) (value : string) (instance_id : option N)
    : option OutagePolicyRow :=
  let candidates := filter (λ r, op_scope_kind r = scope ∧ op_scope_value r = value) rows in
  match (match instance_id with
         | Some i => first_row (λ r, op_instance_id r = Some i) candidates
         | None => None
         end) with
  | Some row => Some row
  | None => first_row (λ r, op_instance_id r = None) candidates
  end.

(** [resolve]; the source is named by its text. *)
Definition resolve_outage (rows : list OutagePolicyRow) (log_source_id source_class : option string)
    (instance_id : option N) (default_mode : OutagePolicyMode) : ResolvedOutage :=
  let found (scope : OutagePolicyScope) (value : option string) :=
    match value with Some v => pick rows scope v instance_id | None => None end in
  match found OP_SOURCE log_source_id with
  | Some row => {| ro_mode := op_mode row; ro_silence_grace_buckets := op_silence_grace_buckets row; ro_basis := "SOURCE" |}
  | None =>
      match found OP_CLASS source_class with
      | Some row => {| ro_mode := op_mode row; ro_silence_grace_buckets := op_silence_grace_buckets row; ro_basis := "CLASS" |}
      | None => {| ro_mode := default_mode; ro_silence_grace_buckets := None; ro_basis := "DEFAULT" |}
      end
  end.

(** ** Precedence *)

(** A row applies to a scope from a console: it is global, or it is this console's. *)
Definition applies (scope : OutagePolicyScope) (value : string) (instance_id : option N) (r : OutagePolicyRow) : Prop :=
  op_scope_kind r = scope ∧ op_scope_value r = value ∧
  (op_instance_id r = None ∨ ∃ i, instance_id = Some i ∧ op_instance_id r = Some i).

Lemma first_row_some P `{!∀ r, Decision (P r)} rows r : first_row P rows = Some r → r ∈ rows ∧ P r.
Proof.
  unfold first_row. destruct (list_find P rows) as [[i x]|] eqn:E; [|done]. cbn. intros [= ->].
  apply list_find_Some in E as (Hi & HP & _). split; [by eapply list_elem_of_lookup_2|done].
Qed.

Lemma first_row_none P `{!∀ r, Decision (P r)} rows r : first_row P rows = None → r ∈ rows → ¬ P r.
Proof.
  unfold first_row. destruct (list_find P rows) as [[i x]|] eqn:E; [done|]. intros _ Hr HP.
  apply list_find_None in E. rewrite Forall_forall in E. by apply (E r).
Qed.

Lemma pick_some rows scope value i r : pick rows scope value i = Some r →
  r ∈ rows ∧ applies scope value i r ∧
  (op_instance_id r = None → ∀ r', r' ∈ rows → op_scope_kind r' = scope → op_scope_value r' = value →
     ∀ j, i = Some j → op_instance_id r' ≠ Some j).
Proof.
  unfold pick, applies. intros H. destruct i as [j|].
  - destruct (first_row (λ r, op_instance_id r = Some j) _) as [x|] eqn:E.
    + injection H as <-. apply first_row_some in E as [[[Hk Hv] Hin]%list_elem_of_filter Hi].
      split; [done|]. split; [split; [done|]; split; [done|]; right; by exists j|]. congruence.
    + apply first_row_some in H as [[[Hk Hv] Hin]%list_elem_of_filter Hi]. split; [done|]. split; [by auto|].
      intros _ r' Hr' Hk' Hv' j' [= <-]. apply (first_row_none _ _ _ E). by apply list_elem_of_filter.
  - apply first_row_some in H as [[[Hk Hv] Hin]%list_elem_of_filter Hi]. split; [done|]. split; [by auto|done].
Qed.

Lemma pick_none rows scope value i r : pick rows scope value i = None → r ∈ rows → ¬ applies scope value i r.
Proof.
  unfold pick, applies. intros H Hr (Hk & Hv & Hi).
  assert (Hin : r ∈ filter (λ r, op_scope_kind r = scope ∧ op_scope_value r = value) rows) by by apply list_elem_of_filter.
  destruct i as [j|].
  - destruct (first_row (λ r, op_instance_id r = Some j) _) as [x|] eqn:E; [done|].
    destruct Hi as [Hi|(j' & [= <-] & Hi)]; [by apply (first_row_none _ _ _ H Hin)|by apply (first_row_none _ _ _ E Hin)].
  - destruct Hi as [Hi|(j' & ? & _)]; [by apply (first_row_none _ _ _ H Hin)|done].
Qed.

(** Precedence of the outage policy. The verdict comes from a row of the source when one
    applies, else from a row of its class when one applies, else it is the default with no
    grace of its own; and within a scope a global row answers only when this console has no
    row. *)
Theorem outage_precedence rows source class_ i d :
  let o := resolve_outage rows (Some source) class_ i d in
  (∃ r, r ∈ rows ∧ applies OP_SOURCE source i r ∧ ro_basis o = "SOURCE" ∧ ro_mode o = op_mode r ∧
        ro_silence_grace_buckets o = op_silence_grace_buckets r) ∨
  (∀ r, r ∈ rows → ¬ applies OP_SOURCE source i r) ∧
  ((∃ c r, class_ = Some c ∧ r ∈ rows ∧ applies OP_CLASS c i r ∧ ro_basis o = "CLASS" ∧ ro_mode o = op_mode r ∧
           ro_silence_grace_buckets o = op_silence_grace_buckets r) ∨
   (∀ c r, class_ = Some c → r ∈ rows → ¬ applies OP_CLASS c i r) ∧
   o = {| ro_mode := d; ro_silence_grace_buckets := None; ro_basis := "DEFAULT" |}).
Proof.
  cbv zeta. unfold resolve_outage. destruct (pick rows OP_SOURCE source i) as [r|] eqn:E.
  - left. exists r. apply pick_some in E as (Hin & Ha & _). done.
  - right. split; [by intros r Hr; eapply pick_none|]. destruct class_ as [c|]; [|by right].
    destruct (pick rows OP_CLASS c i) as [r|] eqn:E2.
    + left. exists c, r. apply pick_some in E2 as (Hin & Ha & _). done.
    + right. split; [|done]. intros c' r [= <-] Hr. by eapply pick_none.
Qed.
