(* ===== verification/RuleLoaders.v ===== *)
(** * What the custom rules read

    [custom_rules/loaders.py]: the stored buckets of a kind of subject, as the facts the rules
    judge. A table whose primary key is a subject and a bucket is a finite map on them; a bucket is
    named by its instant, as the database returns it. The text of an identifier in a key is read
    back as the identifier. *)

From S2P Require Import Prelude PyStr PyFloat PyTime Enums HistoryState Seasonal CustomRules.

(** ** Tables *)

(** The columns of [log_source] read here and by the engine. *)
Record SourceRow := {
  so_name : string; so_enabled : bool; so_monitoring_enabled : bool; so_maintenance_mode : bool; so_maintenance_until : option datetime }.

Record VolumeRow := {
  vr_event_count : Z; vr_average_eps : float; vr_bucket_seconds : Z; vr_completeness : BucketCompleteness;
  vr_collection_source : option string }.

Record EndpointRow := {
  en_log_source_id : N; en_http_method : string; en_normalized_endpoint : string; en_virtual_host : option string;
  en_is_active : bool; en_retired_at : option datetime }.

(** [WafEndpoint.display_name] *)
Definition endpoint_display_name (e : EndpointRow) : string :=
  en_http_method e +:+ " " +:+ en_normalized_endpoint e +:+ " on " +:+ or_text (en_virtual_host e) "(no virtual host)".

Record EndpointMetric := {
  em_request_count : Z; em_blocked_count : option Z; em_action_events : option Z; em_unmapped_action_count : option Z;
  em_server_error_count : option Z; em_client_error_count : option Z; em_response_code_events : option Z;
  em_unclassified_response_count : option Z }.

Record WafBucket := {
  wb_request_count_measurement : string; wb_action_measurement : string; wb_response_code_measurement : string;
  wb_in_maintenance : bool; wb_origin : string }.

Record EntityRow := {
  et_log_source_id : N; et_dimension : string; et_value_key : string; et_display_name : option string; et_active : bool;
  et_retired_at : option datetime }.

Record IpsBucket := {
  ib_total_events : Z; ib_blocked_events : option Z; ib_allowed_events : option Z; ib_unmapped_events : option Z;
  ib_destination_port_measurement : string; ib_destination_ip_measurement : string; ib_signature_measurement : string;
  ib_action_measurement : string; ib_in_maintenance : bool; ib_origin : string }.

Record ValueRow := {
  va_watch_id : N; va_watch_version : Z; va_value_key : string; va_pinned : bool; va_tracked_since : option datetime;
  va_tracked_until : option datetime; va_active : bool }.

Record WatchBucket := {
  pb_watch_version : Z; pb_in_maintenance : bool; pb_values_measurement : string; pb_pinned_measurement : string;
  pb_totals_complete : bool; pb_total_events : option Z; pb_parsed_events : option Z; pb_origin : string }.

Abbreviation by_bucket A := (gmap (N * Z) A) (only parsing).

Record Stored := {
  sd_sources : gmap N SourceRow; sd_classes : gmap N string; sd_volumes : by_bucket VolumeRow;
  sd_endpoints : gmap N EndpointRow; sd_endpoint_metrics : by_bucket EndpointMetric; sd_waf_buckets : by_bucket WafBucket;
  sd_entities : gmap N EntityRow; sd_entity_metrics : by_bucket Z; sd_ips_buckets : by_bucket IpsBucket;
  sd_watches : gmap N string; sd_values : gmap N ValueRow; sd_watch_buckets : by_bucket WatchBucket; sd_value_metrics : by_bucket Z }.

(** ** Facts by subject and bucket *)

Inductive SubjectKey := ById (id : N) | ByClass (source_class : string).

#[export] Instance SubjectKey_eq_dec : EqDecision SubjectKey.
Proof. solve_decision. Defined.

#[export] Instance SubjectKey_countable : Countable SubjectKey.
Proof.
  refine (inj_countable' (λ k, match k with ById id => inl id | ByClass c => inr c end)
            (λ x, match x with inl id => ById id | inr c => ByClass c end) _).
  by intros [].
Defined.

Abbreviation subject_facts := (gmap SubjectKey (gmap Z BucketFacts)) (only parsing).

(** [_index] *)
Definition index_facts (rows : list (SubjectKey * Z * BucketFacts)) : subject_facts :=
  foldl (λ facts '(key, bucket_start, fact),
    <[key := <[bucket_start := fact]> (default ∅ (facts !! key))]> facts) ∅ rows.

(** [bucket_start > after, bucket_start <= through] *)
Definition in_window (after through : datetime) (bucket_start : Z) : bool :=
  (dt_us after <? bucket_start) && (bucket_start <=? dt_us through).

(** [is_live_clause] for a table that marks the collector, where NULL is live, and for one that
    has an origin. *)
Definition live_source (collection_source : option string) : bool :=
  match collection_source with None => true | Some v => bool_decide (v ∉ PHASE_A_HISTORY_SOURCES) end.
Definition live_origin (origin : string) : bool := bool_decide (origin = HistoryOrigin_value LIVE).

(** [bool_decide (id ∈ ids)] of the rows asked for. *)
Definition asked {A} `{!EqDecision A} (ids : list A) (id : A) : bool := bool_decide (id ∈ ids).

(** Facts of which only the named fields are set. *)
Definition volume_facts (bucket_start : Z) (r : VolumeRow) : BucketFacts :=
  {| bf_bucket_start := utc bucket_start; bf_present := true; bf_in_maintenance := false;
     bf_event_count := Some (vr_event_count r); bf_average_eps := Some (vr_average_eps r);
     bf_completeness := Some (BucketCompleteness_value (vr_completeness r));
     bf_class_events := None; bf_class_seconds := None; bf_complete_sources := None; bf_expected_sources := None;
     bf_request_count := None; bf_request_count_measurement := None; bf_blocked_count := None; bf_action_events := None;
     bf_unmapped_action_count := None; bf_action_measurement := None; bf_server_error_count := None;
     bf_client_error_count := None; bf_response_code_events := None; bf_unclassified_response_count := None;
     bf_response_code_measurement := None; bf_events := None; bf_dimension_measurement := None; bf_total_events := None;
     bf_blocked_events := None; bf_allowed_events := None; bf_unmapped_events := None |}.

Definition class_facts (bucket_start events seconds complete_sources expected_sources : Z) : BucketFacts :=
  {| bf_bucket_start := utc bucket_start; bf_present := true; bf_in_maintenance := false;
     bf_event_count := None; bf_average_eps := None; bf_completeness := None;
     bf_class_events := Some events; bf_class_seconds := Some seconds; bf_complete_sources := Some complete_sources;
     bf_expected_sources := Some expected_sources;
     bf_request_count := None; bf_request_count_measurement := None; bf_blocked_count := None; bf_action_events := None;
     bf_unmapped_action_count := None; bf_action_measurement := None; bf_server_error_count := None;
     bf_client_error_count := None; bf_response_code_events := None; bf_unclassified_response_count := None;
     bf_response_code_measurement := None; bf_events := None; bf_dimension_measurement := None; bf_total_events := None;
     bf_blocked_events := None; bf_allowed_events := None; bf_unmapped_events := None |}.

Definition endpoint_facts (bucket_start : Z) (m : EndpointMetric) (b : WafBucket) : BucketFacts :=
  {| bf_bucket_start := utc bucket_start; bf_present := true; bf_in_maintenance := wb_in_maintenance b;
     bf_event_count := None; bf_average_eps := None; bf_completeness := None;
     bf_class_events := None; bf_class_seconds := None; bf_complete_sources := None; bf_expected_sources := None;
     bf_request_count := Some (em_request_count m); bf_request_count_measurement := Some (wb_request_count_measurement b);
     bf_blocked_count := em_blocked_count m; bf_action_events := em_action_events m;
     bf_unmapped_action_count := em_unmapped_action_count m; bf_action_measurement := Some (wb_action_measurement b);
     bf_server_error_count := em_server_error_count m; bf_client_error_count := em_client_error_count m;
     bf_response_code_events := em_response_code_events m;
     bf_unclassified_response_count := em_unclassified_response_count m;
     bf_response_code_measurement := Some (wb_response_code_measurement b); bf_events := None; bf_dimension_measurement := None;
     bf_total_events := None; bf_blocked_events := None; bf_allowed_events := None; bf_unmapped_events := None |}.

(** A count under its own measurement: an entity's or a value's. *)
Definition count_facts (bucket_start : Z) (in_maintenance : bool) (events : Z) (measurement : option string) : BucketFacts :=
  {| bf_bucket_start := utc bucket_start; bf_present := true; bf_in_maintenance := in_maintenance;
     bf_event_count := None; bf_average_eps := None; bf_completeness := None;
     bf_class_events := None; bf_class_seconds := None; bf_complete_sources := None; bf_expected_sources := None;
     bf_request_count := None; bf_request_count_measurement := None; bf_blocked_count := None; bf_action_events := None;
     bf_unmapped_action_count := None; bf_action_measurement := None; bf_server_error_count := None;
     bf_client_error_count := None; bf_response_code_events := None; bf_unclassified_response_count := None;
     bf_response_code_measurement := None; bf_events := Some events; bf_dimension_measurement := measurement;
     bf_total_events := None; bf_blocked_events := None; bf_allowed_events := None; bf_unmapped_events := None |}.

Definition source_facts (bucket_start : Z) (b : IpsBucket) : BucketFacts :=
  {| bf_bucket_start := utc bucket_start; bf_present := true; bf_in_maintenance := ib_in_maintenance b;
     bf_event_count := None; bf_average_eps := None; bf_completeness := None;
     bf_class_events := None; bf_class_seconds := None; bf_complete_sources := None; bf_expected_sources := None;
     bf_request_count := None; bf_request_count_measurement := None; bf_blocked_count := None; bf_action_events := None;
     bf_unmapped_action_count := None; bf_action_measurement := Some (ib_action_measurement b); bf_server_error_count := None;
     bf_client_error_count := None; bf_response_code_events := None; bf_unclassified_response_count := None;
     bf_response_code_measurement := None; bf_events := None; bf_dimension_measurement := None;
     bf_total_events := Some (ib_total_events b); bf_blocked_events := ib_blocked_events b;
     bf_allowed_events := ib_allowed_events b; bf_unmapped_events := ib_unmapped_events b |}.

(** [BucketFacts(bucket_start=bucket_start, present=False)] *)
Definition no_facts (bucket_start : datetime) : BucketFacts :=
  {| bf_bucket_start := bucket_start; bf_present := false; bf_in_maintenance := false;
     bf_event_count := None; bf_average_eps := None; bf_completeness := None;
     bf_class_events := None; bf_class_seconds := None; bf_complete_sources := None; bf_expected_sources := None;
     bf_request_count := None; bf_request_count_measurement := None; bf_blocked_count := None; bf_action_events := None;
     bf_unmapped_action_count := None; bf_action_measurement := None; bf_server_error_count := None;
     bf_client_error_count := None; bf_response_code_events := None; bf_unclassified_response_count := None;
     bf_response_code_measurement := None; bf_events := None; bf_dimension_measurement := None; bf_total_events := None;
     bf_blocked_events := None; bf_allowed_events := None; bf_unmapped_events := None |}.

(** ** The loaders *)

Section Loaders.
Context (t : Stored) (after through : datetime) (include_history : bool).

(** The rows of a table in the window, for the subjects asked for. *)
Definition rows_in {A} (table : by_bucket A) (ids : list N) (f : N → Z → A → option (SubjectKey * Z * BucketFacts))
    : list (SubjectKey * Z * BucketFacts) :=
  omap (λ x : (N * Z) * A, if asked ids x.1.1 && in_window after through x.1.2 then f x.1.1 x.1.2 x.2 else None) (map_to_list table).

Definition load_log_sources (log_source_ids : list N) : subject_facts :=
  index_facts (rows_in (sd_volumes t) log_source_ids (λ id b r,
    if include_history || live_source (vr_collection_source r) then Some (ById id, b, volume_facts b r) else None)).

(** [_class_of] *)
Definition class_of (id : N) : string := default "UNCLASSIFIED" (sd_classes t !! id).

Definition monitored (s : SourceRow) : bool := so_enabled s && so_monitoring_enabled s.

(** The enabled, monitored sources of a class. *)
Definition members (source_class : string) : list (N * SourceRow) :=
  filter (λ x : N * SourceRow, monitored x.2 = true ∧ class_of x.1 = source_class) (map_to_list (sd_sources t)).

(** The rows of a class in a bucket, before they are grouped. *)
Definition class_rows (source_class : string) (bucket_start : Z) : list VolumeRow :=
  omap (λ x : N * SourceRow,
    match sd_volumes t !! (x.1, bucket_start) with
    | Some r => if include_history || live_source (vr_collection_source r) then Some r else None
    | None => None
    end) (members source_class).

Definition complete_rows (source_class : string) (bucket_start : Z) : list VolumeRow :=
  filter (λ r, vr_completeness r = BC_COMPLETE) (class_rows source_class bucket_start).

(** One group of the statement; a bucket with no row has none. *)
Definition class_group (source_class : string) (bucket_start : Z) : option BucketFacts :=
  match class_rows source_class bucket_start with
  | [] => None
  | _ =>
      let complete := complete_rows source_class bucket_start in
      Some (class_facts bucket_start (sum_Z (vr_event_count <$> complete)) (sum_Z (vr_bucket_seconds <$> complete))
              (Z.of_nat (length complete)) (Z.of_nat (length (members source_class))))
  end.

Definition load_fleet_classes (source_classes : list string) : subject_facts :=
  let buckets := filter (λ b, in_window after through b = true) (remove_dups ((map_to_list (sd_volumes t)).*1.*2)) in
  index_facts (c ← remove_dups source_classes; omap (λ b, (λ f, (ByClass c, b, f)) <$> class_group c b) buckets).

Definition load_waf_endpoints (endpoint_ids : list N) : subject_facts :=
  index_facts (rows_in (sd_endpoint_metrics t) endpoint_ids (λ id b m,
    endpoint ← sd_endpoints t !! id;
    bucket ← sd_waf_buckets t !! (en_log_source_id endpoint, b);
    if include_history || live_origin (wb_origin bucket) then Some (ById id, b, endpoint_facts b m bucket) else None)).

(** [by_dimension.get(str(dimension))] *)
Definition by_dimension (b : IpsBucket) (dimension : string) : option string :=
  if decide (dimension = "DESTINATION_PORT") then Some (ib_destination_port_measurement b)
  else if decide (dimension = "DESTINATION_IP") then Some (ib_destination_ip_measurement b)
  else if decide (dimension = "SIGNATURE") then Some (ib_signature_measurement b)
  else None.

Definition load_ips_entities (entity_ids : list N) : subject_facts :=
  index_facts (rows_in (sd_entity_metrics t) entity_ids (λ id b events,
    entity ← sd_entities t !! id;
    bucket ← sd_ips_buckets t !! (et_log_source_id entity, b);
    if include_history || live_origin (ib_origin bucket)
    then Some (ById id, b, count_facts b (ib_in_maintenance bucket) events (by_dimension bucket (et_dimension entity))) else None)).

Definition load_ips_sources (log_source_ids : list N) : subject_facts :=
  index_facts (rows_in (sd_ips_buckets t) log_source_ids (λ id b r,
    if include_history || live_origin (ib_origin r) then Some (ById id, b, source_facts b r) else None)).
End Loaders.

(** ** Pinned values *)

Record PwValueBucket := {
  pv_bucket_start : Z; pv_in_maintenance : bool; pv_values_measurement : string; pv_pinned_measurement : string;
  pv_totals_complete : bool; pv_total_events : option Z; pv_parsed_events : option Z; pv_events : option Z;
  pv_value_pinned : bool; pv_tracked_since : option datetime; pv_tracked_until : option datetime }.

(** [_pw_coverage_ok] *)
Definition pw_coverage_ok (row : PwValueBucket) (floor : float) : result bool :=
  match pv_totals_complete row, pv_total_events row, pv_parsed_events row with
  | true, Some total, Some parsed =>
      if total =? 0 then Ok true else share <- truediv parsed total ;; Ok (fle floor share)
  | _, _, _ => Ok false
  end.

(** [_pw_tracked_at] *)
Definition pw_tracked_at (row : PwValueBucket) : bool :=
  match pv_tracked_since row with
  | None => false
  | Some since =>
      (dt_us since <=? pv_bucket_start row) &&
      match pv_tracked_until row with None => true | Some until => pv_bucket_start row <=? dt_us until end
  end.

Definition pw_value_facts (row : PwValueBucket) (coverage_floor : float) : result (option BucketFacts) :=
  let pinned_exact := pv_value_pinned row && bool_decide (pv_pinned_measurement row = PwPinnedMeasurement_value PP_EXACT) in
  let counted events measurement := Some (count_facts (pv_bucket_start row) (pv_in_maintenance row) events (Some measurement)) in
  match pv_events row with
  | Some events =>
      if pinned_exact then Ok (counted events (PwBucketMeasurement_value PB_EXACT))
      else if bool_decide (pv_values_measurement row ∈ [PwBucketMeasurement_value PB_EXACT; PwBucketMeasurement_value PB_LOWER_BOUND])
      then Ok (counted events (pv_values_measurement row))
      else Ok None
  | None =>
      covered <- (if pinned_exact && pw_tracked_at row then pw_coverage_ok row coverage_floor else Ok false) ;;
      Ok (if covered : bool then counted 0 (PwBucketMeasurement_value PB_EXACT) else None)
  end.

(** One row of the statement: a value, a bucket of its watch under its version, and its count. *)
Definition pw_row (t : Stored) (value_id : N) (v : ValueRow) (bucket_start : Z) (b : WatchBucket) : PwValueBucket :=
  {| pv_bucket_start := bucket_start; pv_in_maintenance := pb_in_maintenance b; pv_values_measurement := pb_values_measurement b;
     pv_pinned_measurement := pb_pinned_measurement b; pv_totals_complete := pb_totals_complete b;
     pv_total_events := pb_total_events b; pv_parsed_events := pb_parsed_events b;
     pv_events := sd_value_metrics t !! (value_id, bucket_start); pv_value_pinned := va_pinned v;
     pv_tracked_since := va_tracked_since v; pv_tracked_until := va_tracked_until v |}.

Definition load_pw_values (t : Stored) (after through : datetime) (include_history : bool) (pw_value_ids : list N)
    (coverage_floor : float) : result subject_facts :=
  let joined : list (N * PwValueBucket) :=
    x ← filter (λ x : N * ValueRow, x.1 ∈ pw_value_ids) (map_to_list (sd_values t));
    omap (λ y : (N * Z) * WatchBucket,
      if bool_decide (y.1.1 = va_watch_id x.2) && (pb_watch_version y.2 =? va_watch_version x.2) && in_window after through y.1.2 &&
         (include_history || live_origin (pb_origin y.2))
      then Some (x.1, pw_row t x.1 x.2 y.1.2 y.2) else None) (map_to_list (sd_watch_buckets t)) in
  built <- foldM (λ acc '(value_id, row),
    facts <- pw_value_facts row coverage_floor ;;
    Ok (acc ++ match facts with Some f => [(ById value_id, pv_bucket_start row, f)] | None => [] end)) [] joined ;;
  Ok (index_facts built).
