(* ===== verification/RuleEngine.v ===== *)
(** * The custom-rule engine

    [custom_rules/engine.py] and [custom_rules/alerts.py]: one tick over every rule. It loads the
    rules with their live breaches, plans which buckets each kind judges, folds each rule, writes
    rules, breaches and watermarks, and turns the events of the folds into one bulk write of alerts.
    [fingerprint] is [custom_rule_breach_fingerprint] (alerts/fingerprint.py), a digest; [draw id]
    are the identifiers [uuid4] draws for the breaches of rule [id]. A failed tick writes nothing:
    its transaction is not committed. *)

From S2P Require Import Prelude PyStr PyFloat PyTime PyJson Enums HistoryState RuleCatalog CustomRules Seasonal AlertService RuleLoaders.
From Stdlib Require Import Ascii.

(** ** Tables and settings *)

Record CustomRule := {
  cu_name : string; cu_subject_kind : CustomRuleSubjectKind; cu_log_source_id : option N; cu_source_class : option string;
  cu_waf_endpoint_id : option N; cu_ips_entity_id : option N; cu_pw_value_id : option N; cu_metric : CustomRuleMetric;
  cu_operator : string; cu_threshold_value : float; cu_sustain_buckets : Z; cu_recovery_buckets : Z; cu_severity : Severity;
  cu_enabled : bool; cu_consecutive_breaching : Z; cu_consecutive_under : Z; cu_last_evaluated_bucket_start : option datetime;
  cu_active_breach_id : option N; cu_last_evaluated_at : option datetime; cu_last_status : option string;
  cu_last_status_reason : option string }.

(** A row of [custom_rule_breach]; its key is [br_id]. *)
Record BreachRow := { bh_rule_id : N; bh_columns : BreachState }.

Record KindWatermark := { kw_evaluated_through : datetime; kw_updated_at : datetime }.

Record RuleDb := {
  rd_rules : gmap N CustomRule; rd_breaches : gmap N BreachRow; rd_watermarks : gmap string KindWatermark;
  rd_cadences : gmap string Z; rd_stored : Stored }.

Record RuleSettings := {
  rx_enabled : bool; rx_alerting_enabled : bool; rx_interval_seconds : Z; rx_max_buckets_per_run : Z; rx_settle_seconds : Z;
  rx_waf_collection_enabled : bool; rx_ips_collection_enabled : bool; rx_pw_collection_enabled : bool; rx_pw_min_coverage : float }.

(** The values of [SearchFamily] the kinds wait on. *)
Definition kind_family (kind : CustomRuleSubjectKind) : string :=
  match kind with
  | SK_LOG_SOURCE | SK_FLEET_CLASS => "PHASE_A_VOLUME"
  | SK_WAF_ENDPOINT => "WAF_COLLECTION"
  | SK_IPS_ENTITY | SK_IPS_SOURCE => "IPS_COLLECTION"
  | SK_PW_VALUE => "PROPERTY_WATCH"
  end.

(** [default_search_cadence] *)
Definition default_search_cadence (family : string) : Z :=
  if bool_decide (family ∈ ["WAF_COLLECTION"; "IPS_COLLECTION"]) then 900 else 300.

(** ** Loading *)

Record Loaded := {
  lo_id : N; lo_rule : CustomRule; lo_breach : option BreachRow; lo_endpoint : option EndpointRow; lo_entity : option EntityRow;
  lo_source : option SourceRow; lo_pw_value : option ValueRow; lo_pw_watch : option string }.

Definition coalesce {A} (a b : option A) : option A := match a with Some x => Some x | None => b end.

(** One row of the statement of [_load_rules]; a null key joins nothing. *)
Definition load_rule (db : RuleDb) (id : N) (rule : CustomRule) : Loaded :=
  let t := rd_stored db in
  let endpoint := cu_waf_endpoint_id rule ≫= λ i, sd_endpoints t !! i in
  let entity := cu_ips_entity_id rule ≫= λ i, sd_entities t !! i in
  let source_id := coalesce (cu_log_source_id rule) (coalesce (en_log_source_id <$> endpoint) (et_log_source_id <$> entity)) in
  let value := cu_pw_value_id rule ≫= λ i, sd_values t !! i in
  {| lo_id := id; lo_rule := rule; lo_breach := cu_active_breach_id rule ≫= λ i, rd_breaches db !! i; lo_endpoint := endpoint;
     lo_entity := entity; lo_source := source_id ≫= λ i, sd_sources t !! i; lo_pw_value := value;
     lo_pw_watch := value ≫= λ v, sd_watches t !! va_watch_id v |}.

Definition id_le (x y : N * CustomRule) : Prop := (x.1 <= y.1)%N.

#[export] Instance id_le_dec : RelDecision id_le.
Proof. intros x y. unfold id_le. apply _. Defined.

(** [_load_rules] *)
Definition load_rules (db : RuleDb) : list Loaded :=
  (λ x : N * CustomRule, load_rule db x.1 x.2) <$> stable_sort id_le (map_to_list (rd_rules db)).

(** ** What may judge *)

Definition retired_since (what : string) (at_ : option datetime) : string :=
  match at_ with
  | Some t => "the " +:+ what +:+ " was retired at " +:+ dt_isoformat t
  | None => "the " +:+ what +:+ " is retired"
  end.

(** [_retired]: the reason, when the subject is. *)
Definition retired (item : Loaded) : option string :=
  let gone := Some "the subject no longer exists" in
  match cu_subject_kind (lo_rule item) with
  | SK_FLEET_CLASS => None
  | SK_WAF_ENDPOINT =>
      match lo_endpoint item with
      | None => gone
      | Some e => if en_is_active e then None else Some (retired_since "endpoint" (en_retired_at e))
      end
  | SK_IPS_ENTITY =>
      match lo_entity item with
      | None => gone
      | Some e => if et_active e then None else Some (retired_since "entity" (et_retired_at e))
      end
  | SK_PW_VALUE =>
      match lo_pw_value item with
      | None => gone
      | Some v =>
          if negb (va_pinned v) then Some "the value is no longer pinned"
          else if negb (va_active v) then Some "the value is retired" else None
      end
  | SK_LOG_SOURCE | SK_IPS_SOURCE => match lo_source item with None => gone | Some _ => None end
  end.

(** [_family_collected]: the reason, when the kind is not collected. *)
Definition family_off (s : RuleSettings) (kind : CustomRuleSubjectKind) : option string :=
  match kind with
  | SK_WAF_ENDPOINT => if rx_waf_collection_enabled s then None else Some "waf_collection_enabled is off"
  | SK_IPS_ENTITY | SK_IPS_SOURCE => if rx_ips_collection_enabled s then None else Some "ips_collection_enabled is off"
  | SK_PW_VALUE => if rx_pw_collection_enabled s then None else Some "pw_collection_enabled is off"
  | SK_LOG_SOURCE | SK_FLEET_CLASS => None
  end.

(** [_evaluable] *)
Definition evaluable (s : RuleSettings) (item : Loaded) : bool :=
  cu_enabled (lo_rule item) && negb (is_some_b (retired item)) && negb (is_some_b (family_off s (cu_subject_kind (lo_rule item)))).

(** [value_key.replace("\x1f", " / ")] *)
Fixpoint spaced_key (s : string) : string :=
  match s with
  | EmptyString => EmptyString
  | String c s => if ascii_dec c "031" then " / " +:+ spaced_key s else String c (spaced_key s)
  end.

(** [_label] *)
Definition label (item : Loaded) : string :=
  match cu_subject_kind (lo_rule item) with
  | SK_FLEET_CLASS => py_take 255 (default "" (cu_source_class (lo_rule item)))
  | SK_WAF_ENDPOINT => match lo_endpoint item with None => "retired endpoint" | Some e => py_take 255 (endpoint_display_name e) end
  | SK_IPS_ENTITY =>
      match lo_entity item with
      | None => "retired entity"
      | Some e => py_take 255 (et_dimension e +:+ " " +:+ or_text (et_display_name e) (et_value_key e))
      end
  | SK_PW_VALUE =>
      match lo_pw_value item, lo_pw_watch item with
      | Some v, Some name => py_take 255 (name +:+ ": " +:+ spaced_key (va_value_key v))
      | _, _ => "unknown property-watch value"
      end
  | SK_LOG_SOURCE | SK_IPS_SOURCE => match lo_source item with None => "unknown source" | Some s => py_take 255 (so_name s) end
  end.

(** [_subject_key] *)
Definition subject_key (rule : CustomRule) : option SubjectKey :=
  match cu_subject_kind rule with
  | SK_LOG_SOURCE | SK_IPS_SOURCE => ById <$> cu_log_source_id rule
  | SK_FLEET_CLASS => ByClass <$> cu_source_class rule
  | SK_WAF_ENDPOINT => ById <$> cu_waf_endpoint_id rule
  | SK_IPS_ENTITY => ById <$> cu_ips_entity_id rule
  | SK_PW_VALUE => ById <$> cu_pw_value_id rule
  end.

(** ** Plans *)

Record KindPlan := {
  kp_seeded : bool; kp_grid : list datetime; kp_facts : subject_facts; kp_write_through : option datetime;
  kp_stale_reason : option string }.

Definition ids_of (keys : list SubjectKey) : list N := omap (λ k, match k with ById id => Some id | ByClass _ => None end) keys.
Definition classes_of (keys : list SubjectKey) : list string := omap (λ k, match k with ByClass c => Some c | ById _ => None end) keys.

(** [_load_metrics] *)
Definition load_metrics (s : RuleSettings) (t : Stored) (kind : CustomRuleSubjectKind) (keys : list SubjectKey)
    (after through : datetime) : result subject_facts :=
  match kind with
  | SK_LOG_SOURCE => Ok (load_log_sources t after through false (ids_of keys))
  | SK_FLEET_CLASS => Ok (load_fleet_classes t after through false (classes_of keys))
  | SK_WAF_ENDPOINT => Ok (load_waf_endpoints t after through false (ids_of keys))
  | SK_IPS_ENTITY => Ok (load_ips_entities t after through false (ids_of keys))
  | SK_IPS_SOURCE => Ok (load_ips_sources t after through false (ids_of keys))
  | SK_PW_VALUE => load_pw_values t after through false (ids_of keys) (rx_pw_min_coverage s)
  end.

(** The plan of a kind with rules that may judge, before its silence is looked at. *)
Definition plan_kind (s : RuleSettings) (db : RuleDb) (closed : datetime) (items : list Loaded) (kind : CustomRuleSubjectKind)
    : result KindPlan :=
  match rd_watermarks db !! CustomRuleSubjectKind_value kind with
  | None => Ok {| kp_seeded := true; kp_grid := []; kp_facts := ∅; kp_write_through := Some closed; kp_stale_reason := None |}
  | Some current =>
      let keys := remove_dups (omap (λ item, subject_key (lo_rule item)) items) in
      facts <- load_metrics s (rd_stored db) kind keys (kw_evaluated_through current) closed ;;
      let observed := (x ← map_to_list facts; utc <$> (map_to_list x.2).*1) : list datetime in
      grid <- walk_buckets observed (kw_evaluated_through current) (rx_interval_seconds s) (rx_max_buckets_per_run s) closed ;;
      Ok {| kp_seeded := false; kp_grid := grid; kp_facts := facts; kp_write_through := last grid; kp_stale_reason := None |}
  end.

Definition with_stale (reason : option string) (p : KindPlan) : KindPlan :=
  {| kp_seeded := kp_seeded p; kp_grid := kp_grid p; kp_facts := kp_facts p; kp_write_through := kp_write_through p;
     kp_stale_reason := reason |}.

(** [_cadence_seconds] of one kind. *)
Definition cadence_seconds (db : RuleDb) (kind : CustomRuleSubjectKind) : Z :=
  default (default_search_cadence (kind_family kind)) (rd_cadences db !! kind_family kind).

(** The silence of a kind whose walk found nothing. *)
Definition note_silence (s : RuleSettings) (db : RuleDb) (closed now : datetime) (kind : CustomRuleSubjectKind) (p : KindPlan)
    : result KindPlan :=
  match rd_watermarks db !! CustomRuleSubjectKind_value kind, kp_grid p with
  | Some current, [] =>
      bound <- stale_bound_seconds (cadence_seconds db kind) (rx_settle_seconds s) (rx_interval_seconds s) ;;
      reason <- collection_silence (kw_evaluated_through current) closed now bound ;;
      Ok (with_stale reason p)
  | _, _ => Ok p
  end.

Abbreviation kind_plans := (list (CustomRuleSubjectKind * KindPlan)) (only parsing).

(** [_plans]: the kinds with a rule that may judge. *)
Definition plans_of (s : RuleSettings) (db : RuleDb) (closed now : datetime) (loaded : list Loaded) : result kind_plans :=
  let kinds := remove_dups ((λ item, cu_subject_kind (lo_rule item)) <$> filter (λ item, evaluable s item = true) loaded) in
  plans <- mapM_result (λ kind,
    p <- plan_kind s db closed (filter (λ item, evaluable s item = true ∧ cu_subject_kind (lo_rule item) = kind) loaded) kind ;;
    Ok (kind, p)) kinds ;;
  mapM_result (λ x : CustomRuleSubjectKind * KindPlan, p <- note_silence s db closed now x.1 x.2 ;; Ok (x.1, p)) plans.

Definition plan_for (plans : kind_plans) (kind : CustomRuleSubjectKind) : option KindPlan :=
  snd <$> find (λ x : CustomRuleSubjectKind * KindPlan, bool_decide (x.1 = kind)) plans.

(** ** Folding *)

(** [_in_live_maintenance] *)
Definition in_live_maintenance (item : Loaded) (bucket_start : datetime) : result bool :=
  match cu_subject_kind (lo_rule item), lo_source item with
  | SK_FLEET_CLASS, _ | _, None => Ok false
  | _, Some source => in_maintenance bucket_start (so_maintenance_mode source) (so_maintenance_until source)
  end.

Definition reading_of (item : Loaded) (facts : gmap Z BucketFacts) (bucket_start : datetime) : result InterpretedReading :=
  reading <- interpret (cu_metric (lo_rule item)) (default (no_facts bucket_start) (facts !! dt_us bucket_start)) ;;
  paused <- in_live_maintenance item bucket_start ;;
  Ok (if paused : bool
      then {| ir_bucket_start := ir_bucket_start reading; ir_value := ir_value reading; ir_measurement := ir_measurement reading;
              ir_in_maintenance := true; ir_reason := Some "the source is in maintenance" |}
      else reading).

(** [_readings] *)
Definition readings (item : Loaded) (plan : KindPlan) : result (list InterpretedReading) :=
  let per_subject := match subject_key (lo_rule item) with Some key => default ∅ (kp_facts plan !! key) | None => ∅ end in
  mapM_result (reading_of item per_subject) (kp_grid plan).

(** The readings a rule judges, and why its kind is stale. *)
Definition judged_readings (s : RuleSettings) (plans : kind_plans) (item : Loaded)
    : result (list InterpretedReading * option string) :=
  match plan_for plans (cu_subject_kind (lo_rule item)) with
  | Some plan =>
      if evaluable s item && negb (kp_seeded plan) then
        match kp_stale_reason plan with
        | Some reason => Ok ([], Some reason)
        | None => rs <- readings item plan ;; Ok (rs, None)
        end
      else Ok ([], None)
  | None => Ok ([], None)
  end.

Definition fold_input (s : RuleSettings) (item : Loaded) (now : datetime) (rs : list InterpretedReading) (stale : option string)
    : FoldInput :=
  let rule := lo_rule item in
  let family := family_off s (cu_subject_kind rule) in
  {| fi_rule_id := lo_id item; fi_rule_name := cu_name rule; fi_severity := Severity_value (cu_severity rule);
     fi_metric := cu_metric rule; fi_operator := cu_operator rule; fi_threshold_value := cu_threshold_value rule;
     fi_sustain_buckets := cu_sustain_buckets rule; fi_recovery_buckets := cu_recovery_buckets rule;
     fi_consecutive_breaching := cu_consecutive_breaching rule; fi_consecutive_under := cu_consecutive_under rule;
     fi_last_evaluated := cu_last_evaluated_bucket_start rule; fi_previous_status := cu_last_status rule;
     fi_previous_reason := cu_last_status_reason rule; fi_subject_kind := CustomRuleSubjectKind_value (cu_subject_kind rule);
     fi_subject_label := label item; fi_platform_enabled := true; fi_enabled := cu_enabled rule;
     fi_retired := is_some_b (retired item); fi_retired_reason := retired item;
     fi_family_collected := negb (is_some_b family); fi_family_reason := family;
     fi_breach := bh_columns <$> lo_breach item; fi_readings := rs; fi_now := now; fi_collection_stale_reason := stale |}.

(** [_fold] *)
Definition fold_item (draw : N → nat → N) (s : RuleSettings) (plans : kind_plans) (now : datetime) (item : Loaded)
    : result FoldOutput :=
  r <- judged_readings s plans item ;;
  fold_rule (draw (lo_id item)) (fold_input s item now r.1 r.2).

(** ** Writing *)

Definition written_rule (now : datetime) (o : FoldOutput) (rule : CustomRule) : CustomRule :=
  {| cu_name := cu_name rule; cu_subject_kind := cu_subject_kind rule; cu_log_source_id := cu_log_source_id rule;
     cu_source_class := cu_source_class rule; cu_waf_endpoint_id := cu_waf_endpoint_id rule;
     cu_ips_entity_id := cu_ips_entity_id rule; cu_pw_value_id := cu_pw_value_id rule; cu_metric := cu_metric rule;
     cu_operator := cu_operator rule; cu_threshold_value := cu_threshold_value rule; cu_sustain_buckets := cu_sustain_buckets rule;
     cu_recovery_buckets := cu_recovery_buckets rule; cu_severity := cu_severity rule; cu_enabled := cu_enabled rule;
     cu_consecutive_breaching := fo_consecutive_breaching o; cu_consecutive_under := fo_consecutive_under o;
     cu_last_evaluated_bucket_start := fo_last_evaluated o; cu_active_breach_id := br_id <$> fo_breach o;
     cu_last_evaluated_at := (if 0 <? fo_judged o then Some now else cu_last_evaluated_at rule);
     cu_last_status := (if fo_preserve_status o then cu_last_status rule else fo_status o);
     cu_last_status_reason := (if fo_preserve_status o then cu_last_status_reason rule else fo_status_reason o) |}.

(** The breach of the rule is not resolved. *)
Definition live_of (rule_id : N) (row : BreachRow) : bool :=
  (bh_rule_id row =? rule_id)%N && negb (bool_decide (br_state (bh_columns row) = AnomalyState_value AS_RESOLVED)).

Definition uq_custom_rule_breach_active : exn := IntegrityError "uq_custom_rule_breach_active".

(** A row written under the partial unique index. *)
Definition put_breach (row : BreachRow) (breaches : gmap N BreachRow) : result (gmap N BreachRow) :=
  let id := br_id (bh_columns row) in
  if live_of (bh_rule_id row) row &&
     existsb (λ x : N * BreachRow, negb (x.1 =? id)%N && live_of (bh_rule_id row) x.2) (map_to_list breaches)
  then Err uq_custom_rule_breach_active else Ok (<[id := row]> breaches).

(** [is_new] is not a column. *)
Definition stored_breach (b : BreachState) : BreachState :=
  {| br_id := br_id b; br_state := br_state b; br_first_bucket_start := br_first_bucket_start b;
     br_last_bucket_start := br_last_bucket_start b; br_opened_at := br_opened_at b; br_recovering_at := br_recovering_at b;
     br_resolved_at := br_resolved_at b; br_worst_value := br_worst_value b; br_worst_measurement := br_worst_measurement b;
     br_last_value := br_last_value b; br_last_measurement := br_last_measurement b;
     br_unmeasured_buckets := br_unmeasured_buckets b; br_subject_label := br_subject_label b; br_details := br_details b;
     br_is_new := false |}.

(** [_measurement] *)
Definition check_measurement (value : option string) : result unit :=
  match value with
  | None => Ok tt
  | Some v => raise_if (negb (bool_decide (v ∈ [WafMeasurement_value WM_EXACT; WafMeasurement_value WM_LOWER_BOUND])))
                (ValueError (v +:+ " is not a valid WafMeasurement"))
  end.

(** [_save_breach]: the loaded row when it is this breach, else a new one. *)
Definition save_breach (rule_id : N) (record : BreachState) (existing : option BreachRow) (breaches : gmap N BreachRow)
    : result (gmap N BreachRow) :=
  _ <- check_measurement (br_worst_measurement record) ;;
  _ <- check_measurement (br_last_measurement record) ;;
  let owner := match existing with
               | Some row => if (br_id (bh_columns row) =? br_id record)%N then bh_rule_id row else rule_id
               | None => rule_id
               end in
  put_breach {| bh_rule_id := owner; bh_columns := stored_breach record |} breaches.

(** [output.resolved if output.resolved is not None else output.breach] *)
Definition record_of (o : FoldOutput) : option BreachState := coalesce (fo_resolved o) (fo_breach o).

(** The breach rows of one rule after the tick. *)
Definition persist_breach (breaches : gmap N BreachRow) (x : Loaded * FoldOutput) : result (gmap N BreachRow) :=
  match record_of x.2 with Some record => save_breach (lo_id x.1) record (lo_breach x.1) breaches | None => Ok breaches end.

Definition write_watermark (now : datetime) (watermarks : gmap string KindWatermark) (x : CustomRuleSubjectKind * KindPlan)
    : gmap string KindWatermark :=
  match kp_write_through x.2 with
  | None => watermarks
  | Some through => <[CustomRuleSubjectKind_value x.1 := {| kw_evaluated_through := through; kw_updated_at := now |}]> watermarks
  end.

(** [_persist], and the flush of what it wrote. *)
Definition persist (folds : list (Loaded * FoldOutput)) (plans : kind_plans) (now : datetime) (db : RuleDb) : result RuleDb :=
  breaches <- foldM persist_breach (rd_breaches db) folds ;;
  Ok {| rd_rules := foldl (λ rules (x : Loaded * FoldOutput), alter (written_rule now x.2) (lo_id x.1) rules) (rd_rules db) folds;
        rd_breaches := breaches; rd_watermarks := foldl (write_watermark now) (rd_watermarks db) plans;
        rd_cadences := rd_cadences db; rd_stored := rd_stored db |}.

(** ** Alerts *)

Definition RULE_SOURCE_TYPE : string := "custom_rule".
Definition EVALUATOR_ACTOR : string := "custom-rule-evaluator".

(** [extra_resolve_reason] *)
Definition extra_resolve_reason (status status_reason : option string) (breach_open alerting_enabled : bool) : option string :=
  if negb alerting_enabled then None
  else if bool_decide (status = Some (RuleStatus_value RST_DISABLED)) then Some "the rule is disabled"
  else if bool_decide (status = Some (RuleStatus_value RST_SUBJECT_RETIRED)) then
    Some (or_text status_reason "the subject is retired")
  else if breach_open then None else Some "condition recovered".

Definition resolves (e : AlertEvent) : bool := bool_decide (ae_action e = "resolve").

(** [Severity(event.severity)] *)
Definition severity_of (value : string) : result Severity :=
  match find (λ s, bool_decide (Severity_value s = value)) all_severities with
  | Some s => Ok s
  | None => Err (ValueError (py_repr value +:+ " is not a valid Severity"))
  end.

(** [_description] *)
Definition description (e : AlertEvent) : string :=
  let unit_text := if bool_decide (ae_unit e = "") then "" else " " +:+ ae_unit e in
  let observed := match ae_observed_value e with
                  | None => "unmeasured"
                  | Some v => (if bool_decide (ae_measurement e = Some "LOWER_BOUND") then "at least " else "") +:+ fmt_g v +:+ unit_text
                  end in
  ae_rule_name e +:+ " observed " +:+ observed +:+ " (" +:+ ae_operator e +:+ " " +:+ fmt_g (ae_threshold_value e) +:+ unit_text +:+ ")".

Section Alerts.
Context (fingerprint : N → string).

(** [_alert_input] *)
Definition alert_input (e : AlertEvent) : result AlertInput :=
  severity <- severity_of (ae_severity e) ;;
  let opt x := match x with Some s => JStr s | None => JNull end in
  Ok {| in_fingerprint := fingerprint (ae_rule_id e); in_title := ae_rule_name e +:+ " crossed its threshold";
        in_severity := severity; in_source_type := RULE_SOURCE_TYPE; in_source_id := Some (ae_rule_id e);
        in_description := Some (description e);
        in_evidence := Some
          [("observed_value", match ae_observed_value e with Some v => JFloat v | None => JNull end);
           ("measurement", opt (ae_measurement e)); ("threshold", JFloat (ae_threshold_value e)); ("operator", JStr (ae_operator e));
           ("first_bucket_start", JStr (dt_isoformat (ae_first_bucket_start e)));
           ("last_bucket_start", JStr (dt_isoformat (ae_last_bucket_start e)));
           ("unmeasured_buckets", JInt (ae_unmeasured_buckets e))];
        in_source_anomaly_ids := None;
        in_context := Some
          [("rule", JStr (ae_rule_name e)); ("subject_kind", JStr (ae_subject_kind e)); ("subject_label", JStr (ae_subject_label e));
           ("metric", JStr (if bool_decide (ae_unit e = "") then ae_metric e else ae_metric e +:+ " (" +:+ ae_unit e +:+ ")"))] |}.

Definition resolution (e : AlertEvent) : AlertResolution :=
  {| rs_fingerprint := fingerprint (ae_rule_id e); rs_actor := EVALUATOR_ACTOR;
     rs_reason := Some (or_text (ae_reason e) "condition recovered") |}.

(** The loop of [compile_batch] with alerting on: the opens in order, the first resolve of each rule. *)
Fixpoint compile_batch (seen : gset N) (events : list AlertEvent) : result (list AlertInput * list AlertResolution) :=
  match events with
  | [] => Ok ([], [])
  | e :: events =>
      if resolves e then
        if decide (ae_rule_id e ∈ seen) then compile_batch seen events
        else batch <- compile_batch ({[ae_rule_id e]} ∪ seen) events ;; Ok (batch.1, resolution e :: batch.2)
      else if bool_decide (ae_action e ∈ ["open"; "refresh"]) then
        input <- alert_input e ;;
        batch <- compile_batch seen events ;;
        Ok (input :: batch.1, batch.2)
      else compile_batch seen events
  end.

(** [_resolve_only_event] *)
Definition resolve_only_event (rule_id : N) (reason : string) (now : datetime) : AlertEvent :=
  {| ae_action := "resolve"; ae_rule_id := rule_id; ae_breach_id := rule_id; ae_rule_name := "";
     ae_severity := Severity_value SEV_INFO; ae_subject_kind := ""; ae_subject_label := ""; ae_metric := ""; ae_unit := "";
     ae_operator := ""; ae_threshold_value := f0; ae_observed_value := None; ae_measurement := None; ae_first_bucket_start := now;
     ae_last_bucket_start := now; ae_unmeasured_buckets := 0; ae_reason := Some reason |}.

(** The statement of [_queue_deleted]: the active custom-rule alerts of rules not known. *)
Definition orphans (known : gset N) (rows : list Alert) : list N :=
  omap (λ a, if bool_decide (al_source_type a = RULE_SOURCE_TYPE) && negb (bool_decide (al_status a = AL_RESOLVED))
             then match al_source_id a with Some id => if decide (id ∈ known) then None else Some id | None => None end
             else None) rows.

Definition queue_one (now : datetime) (acc : list AlertEvent * gset N) (rule_id : N) : list AlertEvent * gset N :=
  if decide (rule_id ∈ acc.2) then acc
  else (acc.1 ++ [resolve_only_event rule_id "the rule was deleted" now], {[rule_id]} ∪ acc.2).

(** [_queue_deleted] *)
Definition queue_deleted (clock : nat → datetime) (known : gset N) (events : list AlertEvent) (s : AlertSession)
    : list AlertEvent * AlertSession :=
  let already : gset N := list_to_set (ae_rule_id <$> filter (λ e, resolves e = true) events) in
  ((foldl (queue_one (now_of clock s)) (events, already) (orphans known (as_rows s))).1, ticked s).

(** The transitions among the results, which are enqueued; a refresh has none. *)
Definition transitions_of (opened : list AlertResult) (resolved : list (option AlertResult)) : list (nat * AlertTransition) :=
  omap (λ r, (λ t, (ar_alert r, t)) <$> ar_transition r) opened ++
  omap (λ r, r ≫= λ r, (λ t, (ar_alert r, t)) <$> ar_transition r) resolved.

(** [AlertingCustomRuleSink.flush] *)
Definition flush (clock : nat → datetime) (race : nat → list Alert → list Alert) (known : gset N) (events : list AlertEvent)
    (s : AlertSession) : result (AlertSession * list (nat * AlertTransition)) :=
  let q := queue_deleted clock known events s in
  batch <- compile_batch ∅ q.1 ;;
  match batch with
  | ([], []) => Ok (q.2, [])
  | (opens, resolutions) =>
      r <- apply_bulk clock race opens resolutions q.2 ;;
      Ok (r.2, transitions_of r.1.1 r.1.2)
  end.

(** [resolve_deleted_rule_alert]: before the row of the rule is deleted. *)
Definition resolve_deleted_rule_alert (clock : nat → datetime) (rule_id : N) (actor : string) (s : AlertSession)
    : result (AlertSession * list (nat * AlertTransition)) :=
  _ <- raise_if (bool_decide (py_strip actor = "")) (ValueError "actor is required") ;;
  r <- resolve_by_fingerprint clock (fingerprint rule_id) actor (Some "the rule was deleted") s ;;
  Ok (r.2, transitions_of [] [r.1]).

(** [_halt_event] *)
Definition halt_event (item : Loaded) (reason : string) (now : datetime) : result AlertEvent :=
  let rule := lo_rule item in
  entry <- catalog_entry (cu_metric rule) ;;
  let b := bh_columns <$> lo_breach item in
  let was {A} (f : BreachState → A) (d : A) : A := match b with Some b => f b | None => d end in
  Ok {| ae_action := "resolve"; ae_rule_id := lo_id item; ae_breach_id := was br_id (lo_id item); ae_rule_name := cu_name rule;
        ae_severity := Severity_value (cu_severity rule); ae_subject_kind := CustomRuleSubjectKind_value (cu_subject_kind rule);
        ae_subject_label := was br_subject_label (label item); ae_metric := CustomRuleMetric_value (cu_metric rule);
        ae_unit := me_unit entry; ae_operator := cu_operator rule; ae_threshold_value := cu_threshold_value rule;
        ae_observed_value := was br_last_value None; ae_measurement := was br_last_measurement None;
        ae_first_bucket_start := was br_first_bucket_start now; ae_last_bucket_start := was br_last_bucket_start now;
        ae_unmeasured_buckets := was br_unmeasured_buckets 0; ae_reason := Some reason |}.

(** The events of one rule for the sink, with alerting on. *)
Definition sink_events (clock : nat → datetime) (acc : list AlertEvent * AlertSession) (x : Loaded * FoldOutput)
    : result (list AlertEvent * AlertSession) :=
  let o := x.2 in
  let events := acc.1 ++ fo_events o in
  match extra_resolve_reason (fo_status o) (fo_status_reason o) (is_some_b (fo_breach o)) true with
  | Some reason =>
      if existsb resolves (fo_events o) then Ok (events, acc.2)
      else e <- halt_event x.1 reason (now_of clock acc.2) ;; Ok (events ++ [e], ticked acc.2)
  | None => Ok (events, acc.2)
  end.

(** [_dispatch]; in shadow mode the sink takes nothing. *)
Definition dispatch (clock : nat → datetime) (race : nat → list Alert → list Alert) (alerting : bool)
    (folds : list (Loaded * FoldOutput)) (s : AlertSession) : result (AlertSession * list (nat * AlertTransition)) :=
  if negb alerting then Ok (s, [])
  else
    r <- foldM (sink_events clock) ([], s) folds ;;
    flush clock race (list_to_set ((λ x : Loaded * FoldOutput, lo_id x.1) <$> folds)) r.1 r.2.
End Alerts.

(** ** The tick *)

Record RuleReport := {
  rr_status : string; rr_opened : nat; rr_resolved : nat; rr_refreshed : nat; rr_seeded : list CustomRuleSubjectKind;
  rr_judged_buckets : nat; rr_alerting_mode : string }.

(** [alerting_mode] *)
Definition alerting_mode (alerting_enabled : bool) : string := if alerting_enabled then "alerting" else "shadow".

Definition count_events (action : string) (outputs : list FoldOutput) : nat :=
  length (filter (λ e, ae_action e = action) (outputs ≫= fo_events)).

Definition kind_le (x y : CustomRuleSubjectKind) : Prop :=
  String.leb (CustomRuleSubjectKind_value x) (CustomRuleSubjectKind_value y) = true.

#[export] Instance kind_le_dec : RelDecision kind_le.
Proof. intros x y. unfold kind_le. apply _. Defined.

(** [_report] *)
Definition report_of (outputs : list FoldOutput) (plans : kind_plans) (mode : string) : RuleReport :=
  let seeded := stable_sort kind_le (filter (λ x : CustomRuleSubjectKind * KindPlan, kp_seeded x.2 = true) plans).*1 in
  let judged := sum_list ((λ x : CustomRuleSubjectKind * KindPlan, length (kp_grid x.2)) <$> plans) in
  {| rr_status := (if negb (bool_decide (seeded = [])) && bool_decide (judged = 0%nat) then "seeded" else "ok");
     rr_opened := count_events "open" outputs; rr_resolved := count_events "resolve" outputs;
     rr_refreshed := count_events "refresh" outputs; rr_seeded := seeded; rr_judged_buckets := judged; rr_alerting_mode := mode |}.

Record TickResult := {
  tr_db : RuleDb; tr_alerts : AlertSession; tr_enqueued : list (nat * AlertTransition); tr_report : RuleReport }.

Section Tick.
Context (fingerprint : N → string) (clock : nat → datetime) (race : nat → list Alert → list Alert) (draw : N → nat → N)
        (s : RuleSettings).

(** The folds of a tick, each with its rule, and the plans they used. *)
Definition folds_of (now : datetime) (db : RuleDb) : result (list (Loaded * FoldOutput) * kind_plans) :=
  closed <- latest_closed_bucket now (rx_interval_seconds s) ;;
  let loaded := load_rules db in
  plans <- plans_of s db closed now loaded ;;
  folds <- mapM_result (λ item, o <- fold_item draw s plans now item ;; Ok (item, o)) loaded ;;
  Ok (folds, plans).

(** [CustomRuleEngine.run] with the sink of the setting. *)
Definition run (db : RuleDb) (alerts : AlertSession) : result TickResult :=
  let mode := alerting_mode (rx_alerting_enabled s) in
  if negb (rx_enabled s) then
    Ok {| tr_db := db; tr_alerts := alerts; tr_enqueued := [];
          tr_report := {| rr_status := "disabled"; rr_opened := 0; rr_resolved := 0; rr_refreshed := 0; rr_seeded := [];
                          rr_judged_buckets := 0; rr_alerting_mode := mode |} |}
  else
    let now := now_of clock alerts in
    f <- folds_of now db ;;
    db <- persist f.1 f.2 now db ;;
    d <- dispatch fingerprint clock race (rx_alerting_enabled s) f.1 (ticked alerts) ;;
    Ok {| tr_db := db; tr_alerts := d.1; tr_enqueued := d.2; tr_report := report_of (f.1.*2) f.2 mode |}.
End Tick.
