(* ===== verification/RuleEngineTheorems.v ===== *)
(** * The custom-rule engine: theorems

    What a bulk call of the alert service leaves active, the shape of what a fold gives back, and on
    them what a whole tick does: the alerts, the rules and their breaches, the watermarks; and what
    the rate of a class is made of. The examples run three ticks of one rule. *)

From S2P Require Import Prelude PyStr PyFloat PyTime PyJson Enums HistoryState RuleCatalog CustomRules CustomRuleTheorems Seasonal AlertService AlertFacts AlertTheorems RuleLoaders RuleEngine.

(** ** Which conditions are active after a bulk call *)

Section Active.
Context (clock : nat → datetime).

Definition no_race : nat → list Alert → list Alert := λ _ rows, rows.

(** The condition has an active alert. *)
Definition is_active (rows : list Alert) (fp : string) : Prop := is_Some (find_active rows fp).

#[export] Instance is_active_dec rows fp : Decision (is_active rows fp).
Proof. unfold is_active. apply _. Defined.

(** What the passes of a bulk call keep: the map is the lookup, under the index, and an input with
    a result has an active alert. *)
Record bulk_inv (fps : gset string) (items : list (nat * AlertInput)) (b : Bulk) : Prop := {
  bi_index : index_ok (as_rows (bk_session b));
  bi_tracks : tracks (bk_active b) (as_rows (bk_session b)) fps;
  bi_done : ∀ n data, (n, data) ∈ items → is_Some (bk_results b !! n) → is_active (as_rows (bk_session b)) (in_fingerprint data) }.

Lemma find_active_refresh now data i rows fp : find_active (alter (refresh_alert now data) i rows) fp = find_active rows fp.
Proof. by apply find_active_alter. Qed.

Lemma items_functional (items : list (nat * AlertInput)) n data data' : NoDup items.*1 → (n, data) ∈ items → (n, data') ∈ items → data = data'.
Proof.
  intros Hnd [i Hi]%list_elem_of_lookup [j Hj]%list_elem_of_lookup.
  assert (i = j) as ->; [|congruence].
  apply (NoDup_lookup items.*1 i j n Hnd); rewrite list_lookup_fmap; [by rewrite Hi|by rewrite Hj].
Qed.

Lemma bulk_refresh_inv fps items b n data : NoDup items.*1 → (n, data) ∈ items → in_fingerprint data ∈ fps → bulk_inv fps items b →
  bulk_inv fps items (bulk_refresh clock b (n, data)) ∧
  ∀ fp, is_active (as_rows (bk_session (bulk_refresh clock b (n, data)))) fp ↔ is_active (as_rows (bk_session b)) fp.
Proof.
  intros Hnd Hin Hfp [H1 H2 H3]. unfold bulk_refresh. destruct (bk_active b !! in_fingerprint data) as [i|] eqn:E; [|done].
  assert (Hact : ∀ fp, is_active (alter (refresh_alert (now_of clock (bk_session b)) data) i (as_rows (bk_session b))) fp ↔
                       is_active (as_rows (bk_session b)) fp).
  { intros fp. unfold is_active. by rewrite find_active_refresh. }
  split; [|exact Hact]. split; cbn [bk_session bk_active bk_results as_rows write with_rows ticked].
  - by apply index_alter.
  - intros fp Hf. rewrite find_active_refresh. by apply H2.
  - intros m d Hm Hr. rewrite Hact. destruct (decide (m = n)) as [->|Hne].
    + rewrite (items_functional _ _ _ _ Hnd Hm Hin). unfold is_active. rewrite <- (H2 _ Hfp), E. by eexists.
    + rewrite lookup_insert_ne in Hr by done. by apply (H3 m).
Qed.

Lemma bulk_open_inv fps items b n data b' : NoDup items.*1 → (n, data) ∈ items → in_fingerprint data ∈ fps → bulk_inv fps items b →
  bulk_open clock no_race b (n, data) = Ok b' →
  bulk_inv fps items b' ∧
  ∀ fp, is_active (as_rows (bk_session b')) fp ↔ fp = in_fingerprint data ∨ is_active (as_rows (bk_session b)) fp.
Proof.
  intros Hnd Hin Hfp [H1 H2 H3]. unfold bulk_open. destruct (decide _) as [Hr|_].
  { intros [= <-]. split; [done|]. intros fp. split; [by right|]. intros [->|H]; [by apply (H3 n)|done]. }
  destruct (bk_active b !! in_fingerprint data) as [i|] eqn:E.
  { intros [= <-]. cbn [bk_session]. 
    assert (Hact : ∀ fp, is_active (alter (refresh_alert (now_of clock (bk_session b)) data) i (as_rows (bk_session b))) fp ↔
                       is_active (as_rows (bk_session b)) fp).
    { intros fp. unfold is_active. by rewrite find_active_refresh. }
    assert (Hd : is_active (as_rows (bk_session b)) (in_fingerprint data)) by (unfold is_active; rewrite <- (H2 _ Hfp), E; by eexists).
    split.
    - split; cbn [bk_session bk_active bk_results as_rows write with_rows ticked].
      + by apply index_alter.
      + intros fp Hf. rewrite find_active_refresh. by apply H2.
      + intros m d Hm Hr. rewrite Hact. destruct (decide (m = n)) as [->|Hne]; [by rewrite (items_functional _ _ _ _ Hnd Hm Hin)|].
        rewrite lookup_insert_ne in Hr by done. by apply (H3 m).
    - intros fp. cbn [as_rows write with_rows ticked]. rewrite Hact. split; [by right|]. by intros [->|]. }
  unfold flush_new. cbn [raced as_rows ticked no_race al_dedup_key new_alert].
  rewrite H2 in E by done. rewrite E. cbn [length with_rows]. intros [= <-]. cbn [bk_session as_rows with_rows].
  set (a := new_alert _ data).
  assert (Hnew : ∀ fp, find_active (as_rows (bk_session b) ++ [a]) fp =
    if decide (fp = in_fingerprint data) then Some (length (as_rows (bk_session b))) else find_active (as_rows (bk_session b)) fp).
  { intros fp. rewrite find_active_snoc. destruct (decide (fp = in_fingerprint data)) as [->|Hne].
    - rewrite E. by rewrite decide_True.
    - destruct (find_active _ fp); [done|]. rewrite decide_False; [done|]. intros [Hk _]. by apply Hne. }
  assert (Hact : ∀ fp, is_active (as_rows (bk_session b) ++ [a]) fp ↔ fp = in_fingerprint data ∨ is_active (as_rows (bk_session b)) fp).
  { intros fp. unfold is_active. rewrite Hnew. destruct (decide _) as [->|Hne].
    - split; [by left|]. intros _. by eexists.
    - split; [by right|]. by intros [|]. }
  split; [|exact Hact]. split; cbn [bk_session bk_active bk_results as_rows with_rows].
  - by apply index_snoc.
  - intros fp Hf. rewrite Hnew. destruct (decide _) as [->|Hne]; [by rewrite lookup_insert_eq|].
    rewrite lookup_insert_ne by done. by apply H2.
  - intros m d Hm Hr. apply Hact. destruct (decide (m = n)) as [->|Hne].
    + left. by rewrite (items_functional _ _ _ _ Hnd Hm Hin).
    + right. rewrite lookup_insert_ne in Hr by done. by apply (H3 m).
Qed.

Lemma bulk_resolve_active fps resolutions : ∀ s active acc,
  (∀ x, x ∈ resolutions → rs_fingerprint x ∈ fps) → index_ok (as_rows s) → tracks active (as_rows s) fps →
  let s' := (foldl (bulk_resolve clock) (s, active, acc) resolutions).1.1 in
  index_ok (as_rows s') ∧
  ∀ fp, is_active (as_rows s') fp ↔ fp ∉ rs_fingerprint <$> resolutions ∧ is_active (as_rows s) fp.
Proof.
  induction resolutions as [|x xs IH]; intros s active acc Hin Hix Ht; cbn zeta.
  { cbn. split; [done|]. intros fp. split; [|by intros []]. intros H. split; [apply not_elem_of_nil|done]. }
  assert (Hx : rs_fingerprint x ∈ fps) by (apply Hin; left). cbn [foldl]. unfold bulk_resolve at 2 4. rewrite (Ht _ Hx).
  destruct (find_active (as_rows s) (rs_fingerprint x)) as [i|] eqn:E.
  - set (s1 := write i _ (ticked s)).
    assert (Hf : ∀ fp, find_active (as_rows s1) fp = if decide (fp = rs_fingerprint x) then None else find_active (as_rows s) fp).
    { intros fp. by apply find_active_resolve. }
    destruct (IH s1 (delete (rs_fingerprint x) active) (acc ++ [Some (AR i false true (Some TR_RESOLVED))])) as [H1 H2].
    + intros y Hy. apply Hin. by right.
    + cbn. apply index_alter; [|done]. intros a. split; [done|]. by intros H.
    + intros fp Hfp. rewrite Hf. destruct (decide _) as [->|Hne]; [by rewrite lookup_delete_eq|]. rewrite lookup_delete_ne by done. by apply Ht.
    + split; [exact H1|]. intros fp. rewrite H2, fmap_cons, not_elem_of_cons. unfold is_active. rewrite Hf.
      destruct (decide _) as [->|Hne]; [|tauto]. split; [by intros [_ [? ?]]|]. by intros [[? _] _].
  - destruct (IH s active (acc ++ [None])) as [H1 H2]; [|done..|].
    { intros y Hy. apply Hin. by right. }
    split; [exact H1|]. intros fp. rewrite H2, fmap_cons, not_elem_of_cons. split; [|tauto].
    intros [Hn Ha]. split; [|done]. split; [|done]. intros ->. unfold is_active in Ha. rewrite E in Ha. by destruct Ha.
Qed.

(** After the call a condition is active exactly when it is not among the resolutions, and was
    reported or active before. *)
Lemma apply_bulk_active opens resolutions s r : index_ok (as_rows s) →
  apply_bulk clock no_race opens resolutions s = Ok r →
  index_ok (as_rows r.2) ∧
  ∀ fp, is_active (as_rows r.2) fp ↔
    fp ∉ rs_fingerprint <$> resolutions ∧ (fp ∈ in_fingerprint <$> opens ∨ is_active (as_rows s) fp).
Proof.
  intros Hix. unfold apply_bulk. set (fps := _ ∪ _ : gset string). set (items := imap pair opens).
  assert (Hnd : NoDup items.*1).
  { unfold items. rewrite fmap_imap. rewrite (imap_ext _ (λ n _, n)) by done. 
    assert (imap (λ n (_ : AlertInput), n) opens = seq 0 (length opens)) as ->; [|apply NoDup_seq].
    apply list_eq. intros i. rewrite list_lookup_imap. destruct (opens !! i) eqn:Ei; cbn.
    - apply lookup_lt_Some in Ei. by rewrite lookup_seq_lt.
    - apply lookup_ge_None in Ei. by rewrite lookup_seq_ge. }
  assert (Hsnd : items.*2 = opens).
  { unfold items. rewrite fmap_imap. rewrite (imap_ext _ (λ _ x, x)) by done.
    apply list_eq. intros i. rewrite list_lookup_imap. by destruct (opens !! i). }
  assert (Hfp : ∀ n data, (n, data) ∈ items → in_fingerprint data ∈ fps).
  { intros n data H. apply elem_of_union_l, elem_of_list_to_set, list_elem_of_fmap_2. rewrite <- Hsnd.
    by apply (list_elem_of_fmap_2 snd _ (n, data)). }
  set (b0 := {| bk_session := s; bk_active := _; bk_results := _ |}).
  assert (Hb0 : bulk_inv fps items b0).
  { split; [done|by apply active_rows_tracks|]. intros n data _ Hx. cbn in Hx. rewrite lookup_empty in Hx. by destruct Hx. }
  assert (HA : bulk_inv fps items (foldl (bulk_refresh clock) b0 items) ∧
    ∀ fp, is_active (as_rows (bk_session (foldl (bulk_refresh clock) b0 items))) fp ↔ is_active (as_rows s) fp).
  { assert (Hsub : items ⊆ items) by done. revert Hsub.
    assert (Hg : ∀ l b, l ⊆ items → bulk_inv fps items b → (∀ fp, is_active (as_rows (bk_session b)) fp ↔ is_active (as_rows s) fp) →
      bulk_inv fps items (foldl (bulk_refresh clock) b l) ∧
      ∀ fp, is_active (as_rows (bk_session (foldl (bulk_refresh clock) b l))) fp ↔ is_active (as_rows s) fp); [|by intros; apply Hg].
    clear Hb0. induction l as [|[n d] l IH]; intros b Hl Hb Ha; [done|]. cbn [foldl].
    assert (Hnd0 : (n, d) ∈ items) by (apply Hl; left).
    destruct (bulk_refresh_inv fps items b n d Hnd Hnd0 (Hfp _ _ Hnd0) Hb) as [Hb1 Ha1]. apply IH; [|done|].
    - intros x Hx. apply Hl. by right.
    - intros fp. by rewrite Ha1. }
  destruct HA as [Hb1 Ha1]. clearbody b0. intros H. bind_inv H.
  assert (HB : bulk_inv fps items r0 ∧
    ∀ fp, is_active (as_rows (bk_session r0)) fp ↔ fp ∈ in_fingerprint <$> opens ∨ is_active (as_rows s) fp).
  { clear H Hb0. revert Hb1 Ha1 E. generalize (foldl (bulk_refresh clock) b0 items) as b1.
    assert (Hg : ∀ l b b', l ⊆ items → bulk_inv fps items b → foldM (bulk_open clock no_race) b l = Ok b' →
      bulk_inv fps items b' ∧
      ∀ fp, is_active (as_rows (bk_session b')) fp ↔ fp ∈ in_fingerprint <$> l.*2 ∨ is_active (as_rows (bk_session b)) fp).
    { induction l as [|[n d] l IH]; intros b b' Hl Hb H; cbn [foldM] in H.
      - injection H as <-. split; [done|]. intros fp. split; [by right|]. intros [H|H]; [by apply elem_of_nil in H|done].
      - bind_inv H. assert (Hnd0 : (n, d) ∈ items) by (apply Hl; left).
        destruct (bulk_open_inv fps items b n d _ Hnd Hnd0 (Hfp _ _ Hnd0) Hb E) as [Hb2 Ha2].
        destruct (IH r1 b') as [Hb3 Ha3]; [|done..|].
        { intros x Hx. apply Hl. by right. }
        split; [done|]. intros fp. rewrite Ha3, Ha2, !fmap_cons, elem_of_cons. cbn. tauto. }
    intros b1 Hb1 Ha1 E. destruct (Hg items b1 r0) as [Hb2 Ha2]; [done..|]. split; [done|]. intros fp.
    rewrite Hsnd in Ha2. by rewrite Ha2, Ha1. }
  destruct HB as [[B1 B2 _] Ha2]. bind_inv H.
  pose proof (bulk_resolve_active fps resolutions (bk_session r0) (bk_active r0) []) as HR.
  destruct (foldl (bulk_resolve clock) _ _) as [[s1 a1] resolved]. injection H as <-. cbn in HR |- *.
  destruct HR as [R1 R2]; [|done..|].
  { intros x Hx. apply elem_of_union_r, elem_of_list_to_set. by apply list_elem_of_fmap_2. }
  split; [exact R1|]. intros fp. by rewrite R2, Ha2.
Qed.
End Active.

(** ** From the events of the folds to the batch *)

Definition pages (e : AlertEvent) : bool := negb (resolves e) && bool_decide (ae_action e ∈ ["open"; "refresh"]).

(** The tick resolves the alert of the rule: a breach of it ended, or it may not page any more. *)
Definition closes (o : FoldOutput) : bool :=
  existsb resolves (fo_events o) ||
  is_some_b (extra_resolve_reason (fo_status o) (fo_status_reason o) (is_some_b (fo_breach o)) true).

(** The tick reports the breach of the rule. *)
Definition reports (o : FoldOutput) : bool := existsb pages (fo_events o).

Section Batch.
Context (fingerprint : N → string).

Lemma compile_batch_spec events : ∀ seen r, compile_batch fingerprint seen events = Ok r →
  (∀ fp, fp ∈ rs_fingerprint <$> r.2 ↔ ∃ e, e ∈ events ∧ resolves e = true ∧ ae_rule_id e ∉ seen ∧ fp = fingerprint (ae_rule_id e)) ∧
  (∀ fp, fp ∈ in_fingerprint <$> r.1 ↔ ∃ e, e ∈ events ∧ pages e = true ∧ fp = fingerprint (ae_rule_id e)).
Proof.
  induction events as [|e events IH]; intros seen r H; cbn [compile_batch] in H.
  { injection H as <-. split; intros fp; (split; [by intros ?%elem_of_nil|by intros (e & ?%elem_of_nil & _)]). }
  destruct (resolves e) eqn:Er.
  - assert (Hp : pages e = false) by (unfold pages; by rewrite Er).
    assert (Hpg : ∀ fp, (∃ e', e' ∈ events ∧ pages e' = true ∧ fp = fingerprint (ae_rule_id e')) ↔
                        ∃ e', e' ∈ e :: events ∧ pages e' = true ∧ fp = fingerprint (ae_rule_id e')).
    { intros fp. split; [intros (e' & ? & ?); exists e'; split; [by right|done]|].
      intros (e' & [->|?]%elem_of_cons & ? & ?); [congruence|by exists e']. }
    destruct (decide (ae_rule_id e ∈ seen)) as [Hs|Hs].
    + destruct (IH _ _ H) as [H1 H2]. split; intros fp; [|by rewrite H2, Hpg]. rewrite H1. split.
      * intros (e' & ? & ?). exists e'. split; [by right|done].
      * intros (e' & [->|?]%elem_of_cons & ? & ? & ?); [done|by exists e'].
    + bind_inv H. injection H as <-. destruct (IH _ _ E) as [H1 H2]. cbn [fst snd].
      split; intros fp; [|by rewrite H2, Hpg]. rewrite fmap_cons, elem_of_cons, H1. cbn [resolution rs_fingerprint]. split.
      * intros [->|(e' & ? & ? & ? & ?)]; [exists e; split_and!; [left|done..]|exists e'; split_and!; [by right|done|set_solver|done]].
      * intros (e' & [->|?]%elem_of_cons & ? & ? & ->); [by left|]. destruct (decide (ae_rule_id e' = ae_rule_id e)) as [->|]; [by left|].
        right. exists e'. split_and!; [done|done|set_solver|done].
  - assert (Hrs : ∀ fp, (∃ e', e' ∈ events ∧ resolves e' = true ∧ ae_rule_id e' ∉ seen ∧ fp = fingerprint (ae_rule_id e')) ↔
                        ∃ e', e' ∈ e :: events ∧ resolves e' = true ∧ ae_rule_id e' ∉ seen ∧ fp = fingerprint (ae_rule_id e')).
    { intros fp. split; [intros (e' & ? & ?); exists e'; split; [by right|done]|].
      intros (e' & [->|?]%elem_of_cons & ? & ?); [congruence|by exists e']. }
    destruct (bool_decide (ae_action e ∈ _)) eqn:Ea.
    + bind_inv H. bind_inv H. injection H as <-. destruct (IH _ _ E0) as [H1 H2]. cbn [fst snd].
      split; intros fp; [by rewrite H1, Hrs|]. rewrite fmap_cons, elem_of_cons, H2.
      assert (in_fingerprint r0 = fingerprint (ae_rule_id e)) as ->.
      { unfold alert_input in E. bind_inv E. by injection E as <-. }
      split.
      * intros [->|(e' & ? & ?)]; [exists e|exists e'; split; [by right|done]]. split_and!; [left|by unfold pages; rewrite Er|done].
      * intros (e' & [->|?]%elem_of_cons & ? & ->); [by left|]. right. by exists e'.
    + destruct (IH _ _ H) as [H1 H2]. split; intros fp; [by rewrite H1, Hrs|]. rewrite H2. split.
      * intros (e' & ? & ?). exists e'. split; [by right|done].
      * intros (e' & [->|?]%elem_of_cons & Hp & ?); [|by exists e']. unfold pages in Hp. by rewrite Er, Ea in Hp.
Qed.

Lemma elem_of_orphans known rows id : id ∈ orphans known rows ↔
  ∃ a, a ∈ rows ∧ al_source_type a = RULE_SOURCE_TYPE ∧ al_status a ≠ AL_RESOLVED ∧ al_source_id a = Some id ∧ id ∉ known.
Proof.
  unfold orphans. rewrite list_elem_of_omap. split.
  - intros (a & Ha & H). exists a. destruct (bool_decide (al_source_type a = _)) eqn:E1; [|done].
    destruct (bool_decide (al_status a = _)) eqn:E2; [done|]. cbn in H. apply bool_decide_eq_true in E1. apply bool_decide_eq_false in E2.
    destruct (al_source_id a) as [i|] eqn:Es; [|done]. destruct (decide _); [done|]. by injection H as <-.
  - intros (a & Ha & H1 & H2 & H3 & H4). exists a. split; [done|].
    by rewrite bool_decide_eq_true_2, bool_decide_eq_false_2, H3, decide_False.
Qed.

(** The events queued for the rules that are gone resolve their alerts, and nothing else is added. *)
Lemma queue_deleted_spec clock known events s e : e ∈ (queue_deleted clock known events s).1 ↔
  e ∈ events ∨ ∃ id now, e = resolve_only_event id "the rule was deleted" now ∧ now = now_of clock s ∧ id ∈ orphans known (as_rows s) ∧
    ¬ ∃ e', e' ∈ events ∧ resolves e' = true ∧ ae_rule_id e' = id.
Proof.
  unfold queue_deleted. cbn [fst].
  assert (Hg : ∀ ids acc, (∀ id, id ∈ acc.2 ↔ ∃ e', e' ∈ acc.1 ∧ resolves e' = true ∧ ae_rule_id e' = id) →
    e ∈ (foldl (queue_one (now_of clock s)) acc ids).1 ↔
    e ∈ acc.1 ∨ ∃ id, e = resolve_only_event id "the rule was deleted" (now_of clock s) ∧ id ∈ ids ∧ id ∉ acc.2).
  { induction ids as [|id ids IH]; intros acc Hacc; cbn [foldl].
    - split; [by left|]. intros [? | (id & _ & ?%elem_of_nil & _)]; done.
    - rewrite IH.
      + unfold queue_one. destruct (decide (id ∈ acc.2)) as [Hin|Hin]; cbn [fst snd].
        * split; (intros [? | (i & ? & Hi & ?)]; [by left|right; exists i]); split_and!; [done|by right|done|done| |done].
          by apply elem_of_cons in Hi as [->|].
        * rewrite elem_of_app, list_elem_of_singleton. split.
          -- intros [[? | ->] | (i & ? & ? & ?)]; [by left|right; exists id; split_and!; [done|left|done]|right; exists i; split_and!; [done|by right|set_solver]].
          -- intros [? | (i & -> & [->|?]%elem_of_cons & ?)]; [by left; left|by left; right|].
             destruct (decide (i = id)) as [->|]; [by left; right|]. right. exists i. split_and!; [done|done|set_solver].
      + unfold queue_one. destruct (decide (id ∈ acc.2)) as [Hin|Hin]; [done|]. intros j. cbn [fst snd]. rewrite elem_of_union, elem_of_singleton, Hacc. split.
        * intros [->|(e' & ? & ?)]; [eexists; split; [apply elem_of_app; right; by left|done]|exists e'; split; [by apply elem_of_app; left|done]].
        * intros (e' & [? | ->%list_elem_of_singleton]%elem_of_app & ? & <-); [right; by exists e'|by left]. }
  rewrite Hg.
  - cbn [fst snd]. assert (Hset : ∀ id, id ∈ (list_to_set (ae_rule_id <$> filter (λ e0, resolves e0 = true) events) : gset N) ↔
      ∃ e', e' ∈ events ∧ resolves e' = true ∧ ae_rule_id e' = id).
    { intros id. rewrite elem_of_list_to_set, list_elem_of_fmap. setoid_rewrite list_elem_of_filter. naive_solver. }
    split.
    + intros [? | (id & -> & ? & Hn)]; [by left|]. right. exists id, (now_of clock s). split_and!; [done..|]. by rewrite <- Hset.
    + intros [? | (id & now & -> & -> & ? & Hn)]; [by left|]. right. exists id. split_and!; [done..|]. by rewrite Hset.
  - intros id. cbn [fst snd]. rewrite elem_of_list_to_set, list_elem_of_fmap. setoid_rewrite list_elem_of_filter. naive_solver.
Qed.

(** What the sink buffers of the folds. *)
Lemma sink_events_spec clock folds : ∀ acc r, foldM (sink_events clock) acc folds = Ok r →
  as_rows r.2 = as_rows acc.2 ∧
  (∀ e, e ∈ r.1 → e ∈ acc.1 ∨ ∃ x, x ∈ folds ∧ (e ∈ fo_events x.2 ∨ (resolves e = true ∧ ae_rule_id e = lo_id x.1 ∧ closes x.2 = true))) ∧
  (∀ e, e ∈ acc.1 → e ∈ r.1) ∧
  (∀ x e, x ∈ folds → e ∈ fo_events x.2 → e ∈ r.1) ∧
  (∀ x, x ∈ folds → closes x.2 = true → (∃ e, e ∈ fo_events x.2 ∧ resolves e = true) ∨ ∃ e, e ∈ r.1 ∧ resolves e = true ∧ ae_rule_id e = lo_id x.1).
Proof.
  induction folds as [|x folds IH]; intros acc r H; cbn [foldM] in H.
  { injection H as <-. split_and!; [done|by left|done|by intros ?? ?%elem_of_nil|by intros ? ?%elem_of_nil]. }
  bind_inv H. destruct (IH _ _ H) as (H1 & H2 & H3 & H4 & H5).
  assert (Hone : ∃ l s1, r0 = (acc.1 ++ fo_events x.2 ++ l, s1) ∧ as_rows s1 = as_rows acc.2 ∧
    (∀ e, e ∈ l → resolves e = true ∧ ae_rule_id e = lo_id x.1 ∧ closes x.2 = true) ∧
    (closes x.2 = true → existsb resolves (fo_events x.2) = true ∨ l ≠ [])).
  { unfold sink_events in E. unfold closes. destruct (extra_resolve_reason _ _ _ _) as [reason|].
    - destruct (existsb resolves (fo_events x.2)) eqn:Ex.
      + injection E as <-. exists [], acc.2. rewrite app_nil_r. split_and!; [done|done|by intros ? ?%elem_of_nil|by left].
      + bind_inv E. injection E as <-. exists [r1], (ticked acc.2). rewrite <- app_assoc. split_and!; [done|done| |by right].
        intros e ->%list_elem_of_singleton. unfold halt_event in E0. bind_inv E0. by injection E0 as <-.
    - injection E as <-. exists [], acc.2. rewrite app_nil_r, orb_false_r. split_and!; [done|done|by intros ? ?%elem_of_nil|by left]. }
  destruct Hone as (l & s1 & -> & Hs & Hl & Hc). cbn [fst snd] in *. split_and!.
  - by rewrite H1.
  - intros e He. destruct (H2 e He) as [[?|[?|?]%elem_of_app]%elem_of_app|(y & Hy & ?)]; [by left|right; exists x; split; [left|by left]| |].
    + right. exists x. split; [left|]. right. by apply Hl.
    + right. exists y. split; [by right|done].
  - intros e He. apply H3, elem_of_app. by left.
  - intros y e [->|Hy]%elem_of_cons He; [|by apply (H4 y)]. apply H3, elem_of_app. right. apply elem_of_app. by left.
  - intros y [->|Hy]%elem_of_cons Hcl; [|by apply H5]. destruct (Hc Hcl) as [Hex|Hne].
    + left. apply existsb_exists in Hex as (e & He & ?). exists e. by rewrite list_elem_of_In.
    + right. destruct l as [|e l]; [done|]. exists e. destruct (Hl e ltac:(left)) as (? & ? & _). split_and!; [|done..].
      apply H3, elem_of_app. right. apply elem_of_app. right. left.
Qed.

(** After the alerts of a tick are written, a condition is active exactly when no rule of it was
    closed or is gone, and one was reported or it was active before. *)
Lemma dispatch_active clock folds s r : index_ok (as_rows s) →
  (∀ x e, x ∈ folds → e ∈ fo_events x.2 → ae_rule_id e = lo_id x.1) →
  dispatch fingerprint clock no_race true folds s = Ok r →
  index_ok (as_rows r.1) ∧
  ∀ fp, is_active (as_rows r.1) fp ↔
    (¬ ∃ id, fp = fingerprint id ∧
         ((∃ x, x ∈ folds ∧ lo_id x.1 = id ∧ closes x.2 = true) ∨
          id ∈ orphans (list_to_set ((λ x : Loaded * FoldOutput, lo_id x.1) <$> folds)) (as_rows s))) ∧
    ((∃ x, x ∈ folds ∧ fp = fingerprint (lo_id x.1) ∧ reports x.2 = true) ∨ is_active (as_rows s) fp).
Proof.
  intros Hix Hids. unfold dispatch. cbn [negb]. intros H. bind_inv H. destruct (sink_events_spec _ _ _ _ E) as (S1 & S2 & _ & S4 & S5).
  cbn [fst snd] in S1, S2. unfold flush in H. set (known := list_to_set _ : gset N) in *. bind_inv H.
  set (q := queue_deleted clock known r0.1 r0.2) in *.
  destruct (compile_batch_spec _ _ _ E0) as [C1 C2].
  assert (Hq2 : as_rows q.2 = as_rows s) by (cbn; congruence).
  assert (Hres : ∀ fp, fp ∈ rs_fingerprint <$> r1.2 ↔
    ∃ id, fp = fingerprint id ∧ ((∃ x, x ∈ folds ∧ lo_id x.1 = id ∧ closes x.2 = true) ∨ id ∈ orphans known (as_rows s))).
  { intros fp. rewrite C1. split.
    - intros (e & He & Hr & _ & ->). exists (ae_rule_id e). split; [done|]. apply queue_deleted_spec in He as [He|(id & now & -> & _ & Ho & _)].
      + left. destruct (S2 e He) as [?%elem_of_nil|(x & Hx & [Hf|(_ & -> & ?)])]; [done| |by exists x]. exists x. split; [done|].
        split; [by rewrite (Hids x e)|]. unfold closes. apply orb_true_intro. left. apply existsb_exists. exists e. by rewrite <- list_elem_of_In.
      + right. cbn [ae_rule_id resolve_only_event]. by rewrite <- S1.
    - intros (id & -> & [(x & Hx & <- & Hc)|Ho]).
      + assert (∃ e, e ∈ r0.1 ∧ resolves e = true ∧ ae_rule_id e = lo_id x.1) as (e & He & Hr & <-).
        { destruct (S5 x Hx Hc) as [(e & He & ?)|?]; [|done]. exists e. split_and!; [by apply (S4 x)|done|by apply Hids]. }
        exists e. split_and!; [|done|set_solver|done]. apply queue_deleted_spec. by left.
      + destruct (decide (Exists (λ e, resolves e = true ∧ ae_rule_id e = id) r0.1)) as [Hex|Hex].
        * apply Exists_exists in Hex as (e & He & Hr & <-). exists e. split_and!; [|done|set_solver|done]. apply queue_deleted_spec. by left.
        * exists (resolve_only_event id "the rule was deleted" (now_of clock r0.2)). split_and!; [|done|set_solver|done].
          apply queue_deleted_spec. right. exists id, (now_of clock r0.2). split_and!; [done..| |].
          { by rewrite S1. } intros (e & ? & ? & ?). apply Hex, Exists_exists. by exists e. }
  assert (Hrep : ∀ fp, fp ∈ in_fingerprint <$> r1.1 ↔ ∃ x, x ∈ folds ∧ fp = fingerprint (lo_id x.1) ∧ reports x.2 = true).
  { intros fp. rewrite C2. split.
    - intros (e & He & Hp & ->). apply queue_deleted_spec in He as [He|(id & now & -> & _)]; [|done].
      destruct (S2 e He) as [?%elem_of_nil|(x & Hx & [Hf|(Hr & _)])]; [done| |unfold pages in Hp; by rewrite Hr in Hp].
      exists x. split; [done|]. rewrite (Hids x e) by done. split; [done|]. apply existsb_exists. exists e. by rewrite <- list_elem_of_In.
    - intros (x & Hx & -> & (e & He & Hp)%existsb_exists). rewrite <- list_elem_of_In in He. exists e. split_and!; [|done|by rewrite (Hids x e)].
      apply queue_deleted_spec. left. by apply (S4 x). }
  destruct r1 as [opens resolutions]. cbn [fst snd] in Hres, Hrep.
  assert (Hend : (opens = [] ∧ resolutions = [] ∧ r = (q.2, [])) ∨
                 ∃ b, apply_bulk clock no_race opens resolutions q.2 = Ok b ∧ r.1 = b.2).
  { destruct opens, resolutions; [left; by injection H as <-|right..]; bind_inv H; exists r1; by injection H as <-. }
  destruct Hend as [(-> & -> & ->)|(b & Hb & ->)].
  - cbn [fst]. rewrite Hq2. split; [done|]. intros fp. rewrite <- Hres, <- Hrep. split.
    + intros Ha. split; [apply not_elem_of_nil|by right].
    + by intros [_ [?%elem_of_nil|?]].
  - rewrite <- Hq2 in Hix. destruct (apply_bulk_active _ _ _ _ _ Hix Hb) as [R1 R2]. split; [exact R1|].
    intros fp. by rewrite R2, Hres, Hrep, Hq2.
Qed.
End Batch.

(** ** The breaches of one fold *)

(** How many breaches the rule has had in the tick, one live at its start included. *)
Definition episodes (breach : option BreachState) (events : list AlertEvent) : nat :=
  ((if is_some_b breach then 1 else 0) + opened events)%nat.

Definition is_resolved (b : BreachState) : Prop := br_state b = AnomalyState_value AS_RESOLVED.

Section Shape.
Context (uuid4 : nat → N) (spec : FoldInput).

(** The identifier of the [k]-th breach of the tick. *)
Definition episode (k : nat) : N :=
  match fi_breach spec, k with Some b, O => br_id b | Some _, S k => uuid4 k | None, k => uuid4 k end.

(** The last of [n] breaches that ended. *)
Definition closed_upto (n : nat) (r : option BreachState) : Prop :=
  match n with O => r = None | S k => ∃ b, r = Some b ∧ br_id b = episode k ∧ is_resolved b end.

Definition starts_live : Prop := ∀ b, fi_breach spec = Some b → ¬ is_resolved b.

Record shape (b r : option BreachState) (events : list AlertEvent) : Prop := {
  sh_breach : match b with
              | Some b => (starts_live → ¬ is_resolved b) ∧ ∃ k, episodes (fi_breach spec) events = S k ∧ br_id b = episode k ∧ closed_upto k r
              | None => closed_upto (episodes (fi_breach spec) events) r
              end;
  sh_rule : Forall (λ e, ae_rule_id e = fi_rule_id spec) events;
  sh_resolves : existsb resolves events = is_some_b r }.

Lemma opened_app es es' : opened (es ++ es') = (opened es + opened es')%nat.
Proof. unfold opened. by rewrite filter_app, length_app. Qed.

Lemma opened_event unit_text action b r reason :
  opened [fold_event spec unit_text action b r reason] = if decide (action = "open") then 1%nat else 0%nat.
Proof. unfold opened. cbn. by destruct (decide _). Qed.

Lemma note_worst_keeps op b r : br_id (note_worst op b r) = br_id b ∧ br_state (note_worst op b r) = br_state b.
Proof. unfold note_worst. cbn. destruct (ir_value r), (br_worst_value b); try done. by destruct (_ || _). Qed.

Lemma consume_shape entry st r st' : consume uuid4 spec entry st r = Ok st' → fs_drawn st = opened (fs_events st) →
  shape (fs_breach st) (fs_resolved st) (fs_events st) → shape (fs_breach st') (fs_resolved st') (fs_events st').
Proof.
  unfold consume. intros H Hd Hs. apply bind_ok in H as (seen & _ & H). destruct seen; injection H as <-; [done|].
  destruct Hs as [H1 H2 H3]. destruct (judge _ _ _ r).
  - by split.
  - split; [|done..]. cbn. destruct (fs_breach st); [|done]. exact H1.
  - unfold on_breach. cbn [note_judged fs_breach fs_resolved fs_events fs_drawn]. destruct (fs_breach st) as [b|] eqn:Eb.
    + cbn [fs_breach fs_resolved fs_events]. split.
      * destruct H1 as (_ & k & Hk & Hid & Hc). destruct (note_worst_keeps (fi_operator spec)
          (with_state (AnomalyState_value AS_OPEN) None (br_resolved_at b) b) r) as [-> E2].
        split; [unfold is_resolved; by rewrite E2|]. exists k. split_and!; [|done..].
        unfold episodes in *. rewrite opened_app, opened_event, decide_False by done. lia.
      * apply Forall_app. split; [done|]. by constructor.
      * rewrite existsb_app, H3. by rewrite orb_false_r.
    + destruct (fi_sustain_buckets spec <=? _); cbn [fs_breach fs_resolved fs_events].
      * split.
        -- split; [done|]. exists (episodes (fi_breach spec) (fs_events st)). split_and!; [|cbn|done].
           ++ unfold episodes. rewrite opened_app, opened_event, decide_True by done. lia.
           ++ unfold episode, episodes. rewrite Hd. by destruct (fi_breach spec).
        -- apply Forall_app. split; [done|]. by constructor.
        -- rewrite existsb_app, H3. by rewrite orb_false_r.
      * rewrite app_nil_r. by split.
  - unfold on_under. cbn [note_judged fs_breach fs_resolved fs_events]. destruct (fs_breach st) as [b|] eqn:Eb; [|by split].
    destruct H1 as (_ & k & Hk & Hid & Hc). destruct (fi_recovery_buckets spec <=? _); cbn [fs_breach fs_resolved fs_events].
    + split.
      * unfold episodes in *. rewrite opened_app, opened_event, decide_False, Nat.add_0_r, Hk by done. by eexists.
      * apply Forall_app. split; [done|]. by constructor.
      * by rewrite existsb_app, orb_true_r.
    + split; [|done..]. split; [done|]. by exists k.
Qed.

(** The shape of what a fold gives back. *)
Lemma fold_rule_shape o : fold_rule uuid4 spec = Ok o → shape (fo_breach o) (fo_resolved o) (fo_events o).
Proof.
  intros H. assert (Hinit : shape (fi_breach spec) None []).
  { split; [|done|done]. unfold episodes. cbn. destruct (fi_breach spec) as [b|] eqn:Eb; [|done].
    split; [by intros Hl; apply Hl|]. exists 0%nat. split_and!; [done| |done]. unfold episode. by rewrite Eb. }
  unfold fold_rule in H. destruct (halt spec) as [[status reason]|]; [by injection H as <-|].
  bind_inv H. bind_inv H. bind_inv H. injection H as <-.
  assert (Hst : shape (fs_breach r1) (fs_resolved r1) (fs_events r1) ∧ fs_drawn r1 = opened (fs_events r1)).
  { refine (foldM_inv (λ st, shape (fs_breach st) (fs_resolved st) (fs_events st) ∧ fs_drawn st = opened (fs_events st)) _ _ _ _ _ _ E1); [|done].
    intros st x st' _ [Hs Hd] Hc. split; [by eapply consume_shape|by eapply consume_drawn]. }
  destruct Hst as [Hst _]. destruct (finish_fields spec r1) as (_ & _ & _ & -> & -> & -> & _). exact Hst.
Qed.
End Shape.

(** A rule whose alert the tick leaves alone may judge, and its breach is live. *)
Lemma open_page_live uuid4 spec o : fold_rule uuid4 spec = Ok o → fi_platform_enabled spec = true → closes o = false →
  fi_enabled spec = true ∧ fi_retired spec = false ∧ is_Some (fo_breach o) ∧ existsb resolves (fo_events o) = false.
Proof.
  intros H Hp [Hr Hx]%orb_false_elim. unfold extra_resolve_reason in Hx. cbn [negb] in Hx.
  destruct (bool_decide (fo_status o = Some (RuleStatus_value RST_DISABLED))) eqn:E1; [done|].
  destruct (bool_decide (fo_status o = Some (RuleStatus_value RST_SUBJECT_RETIRED))) eqn:E2; [done|].
  apply bool_decide_eq_false in E1, E2. destruct (fo_breach o) as [b|] eqn:Eb; [|done]. unfold fold_rule, halt in H. rewrite Hp in H. cbn in H.
  destruct (fi_enabled spec); [|by injection H as <-]. destruct (fi_retired spec); [by injection H as <-|]. by split_and!; [..|eexists|].
Qed.

(** ** The folds of a tick *)

(** Every rule is folded once, and a fold is of a rule of the table. *)
Definition folded (draw : N → nat → N) (s : RuleSettings) (plans : kind_plans) (now : datetime) (db : RuleDb)
    (folds : list (Loaded * FoldOutput)) : Prop :=
  NoDup ((λ x : Loaded * FoldOutput, lo_id x.1) <$> folds) ∧
  (∀ id, (∃ x, x ∈ folds ∧ lo_id x.1 = id) ↔ is_Some (rd_rules db !! id)) ∧
  ∀ x, x ∈ folds → ∃ rule, rd_rules db !! lo_id x.1 = Some rule ∧ x.1 = load_rule db (lo_id x.1) rule ∧
                           fold_item draw s plans now x.1 = Ok x.2.

Lemma load_rules_ids db : NoDup (lo_id <$> load_rules db) ∧
  ∀ item, item ∈ load_rules db ↔ ∃ rule, rd_rules db !! lo_id item = Some rule ∧ item = load_rule db (lo_id item) rule.
Proof.
  unfold load_rules. split.
  - rewrite <- list_fmap_compose. apply (NoDup_Permutation_proper _ (map_to_list (rd_rules db)).*1); [|apply NoDup_fst_map_to_list].
    rewrite (stable_sort_Permutation id_le (map_to_list (rd_rules db))). done.
  - intros item. rewrite list_elem_of_fmap. split.
    + intros ([id rule] & -> & H). cbn. exists rule. rewrite (stable_sort_Permutation id_le) in H. by apply elem_of_map_to_list in H.
    + intros (rule & H & ->). exists (lo_id item, rule). split; [done|].
      rewrite (stable_sort_Permutation id_le). by apply elem_of_map_to_list.
Qed.

Lemma folds_of_folded draw s now db folds plans : folds_of draw s now db = Ok (folds, plans) → folded draw s plans now db folds.
Proof.
  unfold folds_of. intros H. bind_inv H. bind_inv H. bind_inv H. injection H as -> ->.
  destruct (load_rules_ids db) as [Hnd Hin].
  apply mapM_result_Forall2 in E1.
  assert (H1 : folds.*1 = load_rules db) by (clear -E1; induction E1 as [|item x l fs Hx _ IH]; [done|]; bind_inv Hx; injection Hx as <-; cbn; by rewrite IH).
  assert (H2 : ∀ x, x ∈ folds → fold_item draw s plans now x.1 = Ok x.2).
  { intros x [i Hi]%list_elem_of_lookup. destruct (Forall2_lookup_r _ _ _ _ _ E1 Hi) as (y & _ & Hy). bind_inv Hy. by injection Hy as <-. }
  clear E1. split_and!.
  - change (λ x : Loaded * FoldOutput, lo_id x.1) with (lo_id ∘ (fst : Loaded * FoldOutput → Loaded)). by rewrite list_fmap_compose, H1.
  - intros id. split.
    + intros (x & Hx & <-). assert (Hi : x.1 ∈ load_rules db) by (rewrite <- H1; by apply list_elem_of_fmap_2).
      apply Hin in Hi as (rule & ? & _). by eexists.
    + intros [rule Hr]. assert (Hi : load_rule db id rule ∈ folds.*1) by (rewrite H1; apply Hin; by exists rule).
      apply list_elem_of_fmap in Hi as (x & Hx & Hi). exists x. by rewrite <- Hx.
  - intros x Hx. assert (Hi : x.1 ∈ load_rules db) by (rewrite <- H1; by apply list_elem_of_fmap_2).
    apply Hin in Hi as (rule & ? & ?). exists rule. split_and!; [done..|]. by apply H2.
Qed.

(** The fold a rule got is of the input the engine builds. *)
Lemma fold_item_rule draw s plans now item o : fold_item draw s plans now item = Ok o →
  ∃ r, fold_rule (draw (lo_id item)) (fold_input s item now r.1 r.2) = Ok o.
Proof. unfold fold_item. intros H. bind_inv H. by exists r. Qed.

Lemma folded_unique draw s plans now db folds x y : folded draw s plans now db folds → x ∈ folds → y ∈ folds →
  lo_id x.1 = lo_id y.1 → x = y.
Proof.
  intros (Hnd & _) [i Hi]%list_elem_of_lookup [j Hj]%list_elem_of_lookup Hid.
  assert (i = j) as ->; [|congruence]. apply (NoDup_lookup _ i j (lo_id x.1) Hnd); rewrite list_lookup_fmap; [by rewrite Hi|by rewrite Hj, Hid].
Qed.

Lemma folded_ids draw s plans now db folds x e : folded draw s plans now db folds → x ∈ folds → e ∈ fo_events x.2 →
  ae_rule_id e = lo_id x.1.
Proof.
  intros (_ & _ & H) Hx He. destruct (H x Hx) as (rule & _ & _ & Hf). apply fold_item_rule in Hf as [r Hf].
  destruct (fold_rule_shape _ _ _ Hf) as [_ Hr _]. rewrite Forall_forall in Hr. by apply Hr.
Qed.

(** What a tick that was not off did. *)
Lemma run_inv fingerprint clock race draw s db alerts r : rx_enabled s = true →
  run fingerprint clock race draw s db alerts = Ok r →
  ∃ folds plans d, folds_of draw s (now_of clock alerts) db = Ok (folds, plans) ∧
    persist folds plans (now_of clock alerts) db = Ok (tr_db r) ∧
    dispatch fingerprint clock race (rx_alerting_enabled s) folds (ticked alerts) = Ok d ∧ tr_alerts r = d.1 ∧
    folded draw s plans (now_of clock alerts) db folds.
Proof.
  unfold run. intros -> H. cbn [negb] in H. bind_inv H. bind_inv H. bind_inv H. injection H as <-. destruct r0 as [folds plans].
  exists folds, plans, r2. split_and!; [done..|]. by apply folds_of_folded.
Qed.

(** ** The alerts of the rules *)

(** The custom-rule alerts are those named by a rule. *)
Definition named (fingerprint : N → string) (rows : list Alert) : Prop :=
  ∀ a id, a ∈ rows → al_dedup_key a = fingerprint id ↔ al_source_type a = RULE_SOURCE_TYPE ∧ al_source_id a = Some id.

Lemma orphans_active fingerprint known rows id : named fingerprint rows →
  id ∈ orphans known rows ↔ id ∉ known ∧ is_active rows (fingerprint id).
Proof.
  intros Hn. rewrite elem_of_orphans. unfold is_active. split.
  - intros (a & Ha & Ht & Hl & Hs & Hk). split; [done|]. destruct (find_active rows (fingerprint id)) eqn:E; [by eexists|].
    apply list_elem_of_lookup in Ha as [i Hi]. rewrite find_active_None in E. destruct (E i a Hi). split; [|done].
    apply Hn; [by eapply list_elem_of_lookup_2|done].
  - intros [Hk [i Hi]]. apply find_active_Some in Hi as (a & Hi & Hd & Hl). apply list_elem_of_lookup_2 in Hi.
    apply Hn in Hd as [? ?]; [|done]. by exists a.
Qed.

Lemma active_fold fingerprint clock draw s db plans now folds s0 d : (∀ i j, fingerprint i = fingerprint j → i = j) →
  index_ok (as_rows s0) → named fingerprint (as_rows s0) → folded draw s plans now db folds →
  dispatch fingerprint clock no_race true folds s0 = Ok d →
  index_ok (as_rows d.1) ∧
  ∀ id, is_active (as_rows d.1) (fingerprint id) ↔
    ∃ x, x ∈ folds ∧ lo_id x.1 = id ∧ closes x.2 = false ∧
         (reports x.2 = true ∨ is_active (as_rows s0) (fingerprint id)).
Proof.
  intros Hinj Hix Hn Hf Hd. destruct (dispatch_active fingerprint clock folds s0 d Hix) as [H1 H2]; [|done|].
  { intros x e. by eapply folded_ids. }
  split; [exact H1|]. intros id. rewrite H2. split.
  - intros [Hno Hor]. assert (Hk : ∃ x, x ∈ folds ∧ lo_id x.1 = id).
    { destruct Hor as [(x & Hx & Heq & _)|Ha]; [exists x; split; [done|by apply Hinj]|].
      destruct (decide (id ∈ (list_to_set ((λ x : Loaded * FoldOutput, lo_id x.1) <$> folds) : gset N))) as [Hin|Hin].
      - rewrite elem_of_list_to_set, list_elem_of_fmap in Hin. destruct Hin as (x & -> & Hx). by exists x.
      - destruct Hno. exists id. split; [done|]. right. by apply (orphans_active fingerprint). }
    destruct Hk as (x & Hx & <-). exists x. split_and!; [done|done| |].
    + destruct (closes x.2) eqn:Ec; [|done]. destruct Hno. exists (lo_id x.1). split; [done|]. left. by exists x.
    + destruct Hor as [(y & Hy & Heq & Hr)|Ha]; [|by right]. left.
      by rewrite (folded_unique _ _ _ _ _ _ x y Hf Hx Hy (Hinj _ _ Heq)).
  - intros (x & Hx & <- & Hc & Hor). split.
    + intros (id & Heq & Hcl). apply Hinj in Heq as <-. destruct Hcl as [(y & Hy & Hid & Hcl)|Ho].
      * rewrite (folded_unique _ _ _ _ _ _ y x Hf Hy Hx Hid) in Hcl. congruence.
      * apply elem_of_orphans in Ho as (_ & _ & _ & _ & _ & Hk). destruct Hk. rewrite elem_of_list_to_set, list_elem_of_fmap. by exists x.
    + destruct Hor as [Hr|Ha]; [left; by exists x|by right].
Qed.

(** What the rules table says of a rule after the tick. *)
Lemma written_rules now folds : ∀ (rules : gmap N CustomRule) id, NoDup ((λ x : Loaded * FoldOutput, lo_id x.1) <$> folds) →
  (∀ x, x ∈ folds → lo_id x.1 ≠ id) ∧
    foldl (λ rules (x : Loaded * FoldOutput), alter (written_rule now x.2) (lo_id x.1) rules) rules folds !! id = rules !! id ∨
  ∃ x, x ∈ folds ∧ lo_id x.1 = id ∧
    foldl (λ rules (x : Loaded * FoldOutput), alter (written_rule now x.2) (lo_id x.1) rules) rules folds !! id =
      written_rule now x.2 <$> rules !! id.
Proof.
  induction folds as [|x folds IH]; intros rules id Hnd; cbn [foldl]; [left; split; [by intros ? ?%elem_of_nil|done]|].
  rewrite fmap_cons in Hnd. apply NoDup_cons in Hnd as [Hx Hnd].
  destruct (IH (alter (written_rule now x.2) (lo_id x.1) rules) id Hnd) as [[Hne ->]|(y & Hy & Hid & ->)].
  - destruct (decide (lo_id x.1 = id)) as [<-|Hd]; [right; exists x; split_and!; [left|done|by rewrite lookup_alter_eq]|].
    left. split; [|by rewrite lookup_alter_ne]. intros y [->|?]%elem_of_cons; [done|by apply Hne].
  - right. exists y. split_and!; [by right|done|]. rewrite lookup_alter_ne; [done|]. intros Heq. apply Hx.
    rewrite list_elem_of_fmap. exists y. split; [by rewrite Heq|done].
Qed.

Lemma persisted_rule draw s plans now db db' folds x : folded draw s plans now db folds → persist folds plans now db = Ok db' → x ∈ folds →
  rd_rules db' !! lo_id x.1 = written_rule now x.2 <$> rd_rules db !! lo_id x.1.
Proof.
  intros Hf H Hx. unfold persist in H. bind_inv H. injection H as <-. cbn [rd_rules].
  destruct (written_rules now folds (rd_rules db) (lo_id x.1)) as [[Hne _]|(y & Hy & Hid & ->)]; [apply Hf|by destruct (Hne x Hx)|].
  by rewrite (folded_unique _ _ _ _ _ _ y x Hf Hy Hx Hid).
Qed.

(** C7: the rules a tick leaves with an active alert, exactly. With the fingerprint injective, the
    alert rows under their unique index, the custom-rule alerts named by their rules, and no other
    writer, after a tick with paging on the alert of a rule is active if and only if the rule was
    folded, its fold neither ended a breach nor found the rule disabled, its subject retired or no
    breach live, and the fold reported the breach or the alert was active before. A rule with an
    active alert is then enabled, its subject is not retired, and the table names its live breach;
    so no alert outlives its rule, and there is at most one of each rule. *)
Theorem rule_alerts_exact fingerprint clock draw s db alerts r :
  (∀ i j, fingerprint i = fingerprint j → i = j) → index_ok (as_rows alerts) → named fingerprint (as_rows alerts) →
  rx_enabled s = true → rx_alerting_enabled s = true →
  run fingerprint clock no_race draw s db alerts = Ok r →
  ∃ folds plans, folds_of draw s (now_of clock alerts) db = Ok (folds, plans) ∧ index_ok (as_rows (tr_alerts r)) ∧
    (∀ id, is_active (as_rows (tr_alerts r)) (fingerprint id) ↔
       ∃ x, x ∈ folds ∧ lo_id x.1 = id ∧ closes x.2 = false ∧ (reports x.2 = true ∨ is_active (as_rows alerts) (fingerprint id))) ∧
    (∀ id, is_active (as_rows (tr_alerts r)) (fingerprint id) →
       ∃ rule, rd_rules (tr_db r) !! id = Some rule ∧ cu_enabled rule = true ∧ is_Some (cu_active_breach_id rule) ∧
               retired (load_rule db id rule) = None).
Proof.
  intros Hinj Hix Hn He Ha Hr. destruct (run_inv _ _ _ _ _ _ _ _ He Hr) as (folds & plans & d & Hfo & Hp & Hd & Ht & Hf). rewrite Ha in Hd.
  destruct (active_fold _ _ _ _ _ _ _ _ (ticked alerts) d Hinj Hix Hn Hf Hd) as [H1 H2]. rewrite Ht. exists folds, plans. split_and!; [done..|].
  intros id Hid. apply H2 in Hid as (x & Hx & <- & Hc & _). destruct Hf as (Hnd & Hex & Hrow).
  destruct (Hrow x Hx) as (rule & Hrule & Hld & Hit). apply fold_item_rule in Hit as [rs Hit].
  destruct (open_page_live _ _ _ Hit eq_refl Hc) as (Hen & Hret & Hb & _).
  exists (written_rule (now_of clock alerts) x.2 rule). split_and!.
  - erewrite persisted_rule; [|by split|done..]. by rewrite Hrule.
  - cbn in Hen |- *. by rewrite Hld in Hen.
  - cbn. by rewrite fmap_is_Some.
  - cbn [fi_retired fold_input] in Hret. rewrite Hld in Hret. unfold retired in *. cbn in Hret |- *. by destruct (cu_subject_kind rule); repeat case_match.
Qed.

(** ** Rules and breaches agree *)

(** The rows of [custom_rule_breach] and the [active_breach_id] of the rules say the same. *)
Record kept (db : RuleDb) : Prop := {
  kt_key : ∀ b row, rd_breaches db !! b = Some row → br_id (bh_columns row) = b;
  kt_named : ∀ id rule b, rd_rules db !! id = Some rule → cu_active_breach_id rule = Some b →
    ∃ row, rd_breaches db !! b = Some row ∧ live_of id row = true;
  kt_live : ∀ b row, rd_breaches db !! b = Some row → live_of (bh_rule_id row) row = true →
    ∃ rule, rd_rules db !! bh_rule_id row = Some rule ∧ cu_active_breach_id rule = Some b }.

(** Every identifier drawn is new. *)
Definition draws_fresh (draw : N → nat → N) (db : RuleDb) : Prop :=
  (∀ id n id' n', draw id n = draw id' n' → id = id' ∧ n = n') ∧ ∀ id n, rd_breaches db !! draw id n = None.

(** How many breaches the rule has had in the tick, one live at its start included. *)
Definition had (x : Loaded * FoldOutput) : nat := episodes (bh_columns <$> lo_breach x.1) (fo_events x.2).

(** What the tick writes of the fold: one row at most. *)
Definition wrote (x : Loaded * FoldOutput) : option (N * BreachRow) :=
  (λ rec, (br_id rec, {| bh_rule_id := lo_id x.1; bh_columns := stored_breach rec |})) <$> record_of x.2.

Section Kept.
Context (draw : N → nat → N) (s : RuleSettings) (plans : kind_plans) (now : datetime) (db : RuleDb) (folds : list (Loaded * FoldOutput)).
Context (Hf : folded draw s plans now db folds) (Hk : kept db) (Hd : draws_fresh draw db).

(** The identifier of the [k]-th breach the rule has in the tick. *)
Definition ep (x : Loaded * FoldOutput) (k : nat) : N :=
  match lo_breach x.1, k with Some row, O => br_id (bh_columns row) | Some _, S k => draw (lo_id x.1) k | None, k => draw (lo_id x.1) k end.

Definition ended (x : Loaded * FoldOutput) (n : nat) : Prop :=
  match n with O => fo_resolved x.2 = None | S k => ∃ b, fo_resolved x.2 = Some b ∧ br_id b = ep x k ∧ is_resolved b end.

Lemma loaded_breach x row : x ∈ folds → lo_breach x.1 = Some row →
  rd_breaches db !! br_id (bh_columns row) = Some row ∧ live_of (lo_id x.1) row = true.
Proof.
  intros Hx Hb. destruct Hf as (_ & _ & Hr). destruct (Hr x Hx) as (rule & Hrule & Hld & _). rewrite Hld in Hb. cbn in Hb.
  apply bind_Some in Hb as (b & Ha & Hb). rewrite (kt_key _ Hk _ _ Hb). split; [done|].
  destruct (kt_named _ Hk _ _ _ Hrule Ha) as (row' & Hb' & Hl). congruence.
Qed.

Lemma live_of_inv id row : live_of id row = true ↔ bh_rule_id row = id ∧ ¬ is_resolved (bh_columns row).
Proof. unfold live_of. rewrite andb_true_iff, N.eqb_eq, negb_true_iff, bool_decide_eq_false. done. Qed.

Lemma ep_row x k row : x ∈ folds → rd_breaches db !! ep x k = Some row → lo_breach x.1 = Some row ∧ k = O.
Proof.
  intros Hx Hr. destruct Hd as [_ Hfresh]. unfold ep in Hr. destruct (lo_breach x.1) as [row'|] eqn:E; [|by rewrite Hfresh in Hr].
  destruct k; [|by rewrite Hfresh in Hr]. destruct (loaded_breach x row' Hx E) as [Hr' _]. by simplify_eq.
Qed.

Lemma ep_inj x y k j : x ∈ folds → y ∈ folds → ep x k = ep y j → x = y ∧ k = j.
Proof.
  intros Hx Hy Heq. destruct Hd as [Hinj Hfresh].
  assert (lo_id x.1 = lo_id y.1 → x = y) as Huniq by (by eapply folded_unique).
  destruct (rd_breaches db !! ep x k) as [row|] eqn:E.
  - pose proof E as E'. rewrite Heq in E'. destruct (ep_row x k row Hx E) as [Ex ->], (ep_row y j row Hy E') as [Ey ->].
    split; [|done]. apply Huniq. destruct (loaded_breach x row Hx Ex) as [_ L1], (loaded_breach y row Hy Ey) as [_ L2].
    apply live_of_inv in L1 as [<- _], L2 as [<- _]. done.
  - pose proof E as E'. rewrite Heq in E'. unfold ep in *.
    destruct (lo_breach x.1) as [rx|] eqn:Ex, (lo_breach y.1) as [ry|] eqn:Ey; try (destruct (loaded_breach x rx Hx Ex) as [L1 _]);
      try (destruct (loaded_breach y ry Hy Ey) as [L2 _]); destruct k, j; try congruence;
      apply Hinj in Heq as [Hid ?]; apply Huniq in Hid as ->; split; congruence.
Qed.

(** What the fold of a rule gives, in the terms of the tables. *)
Lemma fold_gives x : x ∈ folds →
  match fo_breach x.2 with
  | Some b => ¬ is_resolved b ∧ ∃ k, had x = S k ∧ br_id b = ep x k ∧ ended x k
  | None => ended x (had x)
  end.
Proof.
  intros Hx. destruct Hf as (_ & _ & Hr). destruct (Hr x Hx) as (rule & Hrule & _ & Hit). apply fold_item_rule in Hit as [r Hit].
  pose proof (fold_rule_shape _ _ _ Hit) as [Hs _ _]. set (spec := fold_input _ _ _ _ _) in Hs.
  assert (Hep : ∀ k, episode (draw (lo_id x.1)) spec k = ep x k).
  { intros k. unfold episode, ep. cbn. by destruct (lo_breach x.1), k. }
  assert (Hend : ∀ n, closed_upto (draw (lo_id x.1)) spec n (fo_resolved x.2) → ended x n).
  { intros [|n]; [done|]. intros (b & ? & Hid & ?). exists b. by rewrite <- Hep. }
  destruct (fo_breach x.2) as [b|]; [|by apply Hend]. destruct Hs as (Hl & k & Hn & Hid & Hc). split.
  - apply Hl. intros b0 Hb0. cbn in Hb0. apply fmap_Some in Hb0 as (row & Hrow & ->). apply (loaded_breach x row Hx) in Hrow as [_ Hrow]. by apply live_of_inv in Hrow as [_ ?].
  - exists k. rewrite <- Hep. split_and!; [done..|]. by apply Hend.
Qed.

(** The row written is of the last breach that ended, or else of the live one. *)
Lemma wrote_spec x b row : x ∈ folds → wrote x = Some (b, row) →
  bh_rule_id row = lo_id x.1 ∧ br_id (bh_columns row) = b ∧
  ((fo_resolved x.2 = None ∧ (∃ rec, fo_breach x.2 = Some rec ∧ br_id rec = b) ∧ had x = 1%nat ∧ b = ep x 0 ∧ ¬ is_resolved (bh_columns row)) ∨
   (is_resolved (bh_columns row) ∧ ∃ k, had x = (S k + if is_some_b (fo_breach x.2) then 1 else 0)%nat ∧ b = ep x k)).
Proof.
  intros Hx Hw. pose proof (fold_gives x Hx) as Hg. unfold wrote in Hw. apply fmap_Some in Hw as (rec & Hrec & [= -> ->]). cbn.
  split_and!; [done..|]. unfold record_of, coalesce in Hrec. destruct (fo_resolved x.2) as [r|] eqn:Er.
  - injection Hrec as ->. right. destruct (fo_breach x.2) as [b|].
    + destruct Hg as (_ & [|k] & Hn & _ & He); unfold ended in He; rewrite Er in He; [done|]. destruct He as (? & [= <-] & Hid & Hres).
      split; [done|]. exists k. rewrite Hn. cbn. split; [lia|done].
    + destruct (had x) as [|k]; unfold ended in Hg; rewrite Er in Hg; [done|]. destruct Hg as (? & [= <-] & Hid & Hres).
      split; [done|]. exists k. cbn. split; [lia|done].
  - left. rewrite Hrec in Hg. destruct Hg as (Hl & [|k] & Hn & Hid & He); unfold ended in He; rewrite Er in He; [|by destruct He as (? & ? & _)].
    split_and!; [done|by exists rec|done|done|done].
Qed.

Lemma wrote_key x b row : x ∈ folds → wrote x = Some (b, row) → ∃ k, b = ep x k.
Proof. intros Hx Hw. destruct (wrote_spec x b row Hx Hw) as (_ & _ & [(_ & _ & _ & ? & _)|(_ & k & _ & ?)]); by eexists. Qed.

Lemma writes_nodup : NoDup (omap wrote folds).*1.
Proof.
  assert (Hsub : folds ⊆ folds) by done. destruct Hf as (Hnd & _). revert Hsub Hnd.
  generalize folds at 1 3 4 as l. induction l as [|x l IH]; intros Hl Hnd; [constructor|]. rewrite fmap_cons in Hnd. apply NoDup_cons in Hnd as [Hx Hnd].
  assert (Hl' : l ⊆ folds) by (intros y Hy; apply Hl; by right). cbn [omap list_omap]. destruct (wrote x) as [[b row]|] eqn:E; [|by apply IH].
  cbn. constructor; [|by apply IH]. rewrite list_elem_of_fmap. intros ([b' row'] & Hb & Hin). cbn in Hb. subst b'.
  apply list_elem_of_omap in Hin as (y & Hy & Ey). assert (Hxf : x ∈ folds) by (apply Hl; left).
  destruct (wrote_key x b row Hxf E) as [k ->], (wrote_key y _ row' (Hl' y Hy) Ey) as [j Hj].
  destruct (ep_inj x y k j Hxf (Hl' y Hy) Hj) as [-> _]. apply Hx. by apply (list_elem_of_fmap_2 (λ z : Loaded * FoldOutput, lo_id z.1)).
Qed.

Lemma breaches_after t : foldM persist_breach (rd_breaches db) folds = Ok t → t = list_to_map (omap wrote folds) ∪ rd_breaches db.
Proof.
  pose proof writes_nodup as Hnd. assert (Hsub : folds ⊆ folds) by done. revert Hsub Hnd. generalize (rd_breaches db) as t0.
  generalize folds at 1 3 4 5 as l. induction l as [|x l IH]; intros t0 Hl Hnd H; cbn [foldM] in H.
  { injection H as <-. cbn. by rewrite (left_id_L ∅ (∪)). }
  bind_inv H. assert (Hl' : l ⊆ folds) by (intros y Hy; apply Hl; by right). assert (Hx : x ∈ folds) by (apply Hl; left).
  assert (Hr : r = match wrote x with Some (b, row) => <[b := row]> t0 | None => t0 end).
  { unfold persist_breach in E. unfold wrote. destruct (record_of x.2) as [rec|]; [|by injection E as <-]. cbn. unfold save_breach in E.
    bind_inv E. bind_inv E. clear E0 E1.
    assert (Ho : match lo_breach x.1 with Some row => if (br_id (bh_columns row) =? br_id rec)%N then bh_rule_id row else lo_id x.1 | None => lo_id x.1 end = lo_id x.1).
    { destruct (lo_breach x.1) as [row|] eqn:Eb; [|done]. destruct (loaded_breach x row Hx Eb) as [_ [<- _]%live_of_inv]. by destruct (_ =? _)%N. }
    rewrite Ho in E. unfold put_breach in E. cbn [bh_rule_id bh_columns stored_breach br_id] in E. destruct (_ && _); [done|]. by injection E as <-. }
  cbn [omap list_omap] in Hnd |- *. destruct (wrote x) as [[b row]|]; subst r; [|by apply IH].
  cbn in Hnd. apply NoDup_cons in Hnd as [Hb Hnd]. rewrite (IH _ Hl' Hnd H). cbn. rewrite <- insert_union_l.
  rewrite insert_union_r; [done|]. by apply not_elem_of_list_to_map_1.
Qed.
End Kept.

(** The tick saves every breach of the rule that its tables need: the rule had at most one in the
    tick, or none is live at its start or end. *)
Definition fits (x : Loaded * FoldOutput) : Prop := (had x ≤ 1)%nat ∨ (lo_breach x.1 = None ∧ fo_breach x.2 = None).

Section KeptAfter.
Context (draw : N → nat → N) (s : RuleSettings) (plans : kind_plans) (now : datetime) (db db' : RuleDb) (folds : list (Loaded * FoldOutput)).
Context (Hf : folded draw s plans now db folds) (Hk : kept db) (Hd : draws_fresh draw db) (Hp : persist folds plans now db = Ok db').

Lemma row_after b row : rd_breaches db' !! b = Some row ↔
  (∃ x, x ∈ folds ∧ wrote x = Some (b, row)) ∨ ((∀ x row', x ∈ folds → wrote x ≠ Some (b, row')) ∧ rd_breaches db !! b = Some row).
Proof.
  unfold persist in Hp. bind_inv Hp. injection Hp as <-. cbn [rd_breaches]. rewrite (breaches_after draw s plans now db folds Hf Hk Hd _ E).
  rewrite lookup_union_Some_raw, <- elem_of_list_to_map by (by eapply writes_nodup). rewrite <- not_elem_of_list_to_map. setoid_rewrite list_elem_of_omap. split.
  - intros [?|[Hn ?]]; [by left|]. right. split; [|done]. intros x row' Hx Hw. apply Hn, list_elem_of_fmap. exists (b, row'). split; [done|].
    apply list_elem_of_omap. by exists x.
  - intros [?|[Hn ?]]; [by left|]. right. split; [|done]. intros ([b' row'] & -> & (x & Hx & Hw)%list_elem_of_omap)%list_elem_of_fmap. by apply (Hn x row').
Qed.

Lemma rule_after id rule : rd_rules db' !! id = Some rule ↔
  ∃ x old, x ∈ folds ∧ lo_id x.1 = id ∧ rd_rules db !! id = Some old ∧ rule = written_rule now x.2 old.
Proof.
  split.
  - intros H. assert (Hex : is_Some (rd_rules db !! id)).
    { unfold persist in Hp. bind_inv Hp. injection Hp as <-. cbn [rd_rules] in H.
      destruct (written_rules now folds (rd_rules db) id (proj1 Hf)) as [[_ Hw]|(x & _ & _ & Hw)]; rewrite Hw in H; [by eexists|].
      apply fmap_Some in H as (? & ? & _). by eexists. }
    destruct (proj1 (proj2 Hf) id) as [_ Hex2]. destruct (Hex2 Hex) as (x & Hx & <-). rewrite (persisted_rule _ _ _ _ _ _ _ x Hf Hp Hx) in H.
    apply fmap_Some in H as (old & ? & ->). by exists x, old.
  - intros (x & old & Hx & <- & Ho & ->). by rewrite (persisted_rule _ _ _ _ _ _ _ x Hf Hp Hx), Ho.
Qed.

(** A live row after the tick is one written live, or an old one that none has replaced. *)
Lemma kept_after : Forall fits folds → kept db'.
Proof.
  rewrite Forall_forall. intros Hfit. split.
  - intros b row [(x & Hx & Hw)|[_ H]]%row_after; [|by apply (kt_key _ Hk)]. by destruct (wrote_spec _ _ _ _ _ _ Hf Hk x b row Hx Hw) as (_ & ? & _).
  - intros id rule b (x & old & Hx & <- & Ho & ->)%rule_after Hb. cbn in Hb. apply fmap_Some in Hb as (rec & Hrec & ->).
    pose proof (fold_gives _ _ _ _ _ _ Hf Hk x Hx) as Hg. rewrite Hrec in Hg. destruct Hg as (Hl & k & Hn & Hid & He).
    assert (k = O) as ->. { destruct (Hfit x Hx) as [?|[_ ?]]; [lia|congruence]. }
    exists {| bh_rule_id := lo_id x.1; bh_columns := stored_breach rec |}. split; [|by apply live_of_inv].
    apply row_after. left. exists x. split; [done|]. unfold wrote, record_of. unfold ended in He. by rewrite He, Hrec.
  - intros b row [(x & Hx & Hw)|[Hno Hrow]]%row_after [_ Hl]%live_of_inv.
    + destruct (wrote_spec _ _ _ _ _ _ Hf Hk x b row Hx Hw) as (-> & _ & [(_ & (rec & Hrec & Hid) & _)|[? _]]); [|done].
      destruct (proj2 (proj2 Hf) x Hx) as (old & Ho & _). exists (written_rule now x.2 old). split; [apply rule_after; by exists x, old|].
      cbn. rewrite Hrec. cbn. by rewrite Hid.
    + destruct (kt_live _ Hk b row Hrow) as (old & Ho & Ha); [by apply live_of_inv|]. destruct (proj1 (proj2 Hf) (bh_rule_id row)) as [_ Hex].
      destruct Hex as (x & Hx & Hid); [by eexists|]. exfalso. destruct (proj2 (proj2 Hf) x Hx) as (old' & Ho' & Hld & _).
      assert (Hb : lo_breach x.1 = Some row). { rewrite Hld, Hid. rewrite Hid in Ho'. simplify_eq. cbn. by rewrite Ha. }
      assert (Hep : ep draw x 0 = b). { unfold ep. rewrite Hb. by apply (kt_key _ Hk). }
      assert (Hw : ∀ rec, record_of x.2 = Some rec → br_id rec ≠ b). { intros rec Hr Hi. apply (Hno x {| bh_rule_id := lo_id x.1; bh_columns := stored_breach rec |} Hx). unfold wrote. rewrite Hr. cbn. by rewrite Hi. }
      pose proof (fold_gives _ _ _ _ _ _ Hf Hk x Hx) as Hg. destruct (Hfit x Hx) as [Hle|[? _]]; [|congruence].
      assert (Hpos : (1 <= had x)%nat) by (unfold had, episodes; rewrite Hb; cbn; lia). replace (had x) with 1%nat in Hg by lia.
      destruct (fo_breach x.2) as [rec|] eqn:Er.
      * destruct Hg as (_ & k & [= <-] & Hi & He). unfold ended in He. apply (Hw rec); [unfold record_of; by rewrite He, Er|congruence].
      * destruct Hg as (rec & Hres & Hi & _). apply (Hw rec); [unfold record_of; by rewrite Hres|congruence].
Qed.

Lemma fits_after : kept db' → Forall fits folds.
Proof.
  intros Hk'. apply Forall_forall. intros x Hx. destruct (decide (had x ≤ 1)%nat) as [?|Hgt]; [by left|]. right.
  pose proof (fold_gives _ _ _ _ _ _ Hf Hk x Hx) as Hg. destruct (proj2 (proj2 Hf) x Hx) as (old & Ho & _).
  assert (Hrule : rd_rules db' !! lo_id x.1 = Some (written_rule now x.2 old)) by (apply rule_after; by exists x, old).
  destruct (fo_breach x.2) as [rec|] eqn:Er.
  - exfalso. destruct Hg as (_ & k & Hn & Hid & He). destruct k as [|k]; [lia|].
    destruct (kt_named _ Hk' _ _ (br_id rec) Hrule) as (row & Hrow & _); [cbn; by rewrite Er|]. rewrite Hid in Hrow.
    apply row_after in Hrow as [(y & Hy & Hw)|[_ Hrow]].
    + destruct (wrote_spec _ _ _ _ _ _ Hf Hk y _ row Hy Hw) as (_ & _ & Hs).
      destruct (wrote_key _ _ _ _ _ _ Hf Hk y _ row Hy Hw) as [j Hj]. destruct (ep_inj _ _ _ _ _ _ Hf Hk Hd x y _ j Hx Hy Hj) as [<- <-].
      rewrite Er in Hs. destruct Hs as [(_ & _ & ? & _)|(_ & j & Hh & Hj')]; [lia|]. cbn in Hh.
      destruct (ep_inj _ _ _ _ _ _ Hf Hk Hd x x _ j Hx Hx Hj') as [_ ?]. lia.
    + by destruct (ep_row _ _ _ _ _ _ Hf Hk Hd x (S k) row Hx Hrow).
  - split; [|done]. destruct (lo_breach x.1) as [row|] eqn:Eb; [|done]. exfalso.
    destruct (loaded_breach _ _ _ _ _ _ Hf Hk x row Hx Eb) as [Hrow Hl].
    assert (Hrow' : rd_breaches db' !! br_id (bh_columns row) = Some row).
    { apply row_after. right. split; [|done]. intros y row' Hy Hw. assert (Hep : br_id (bh_columns row) = ep draw x 0) by (unfold ep; by rewrite Eb).
      destruct (wrote_spec _ _ _ _ _ _ Hf Hk y _ row' Hy Hw) as (_ & _ & Hs). rewrite Hep in Hw, Hs.
      destruct (wrote_key _ _ _ _ _ _ Hf Hk y _ row' Hy Hw) as [j Hj]. destruct (ep_inj _ _ _ _ _ _ Hf Hk Hd x y 0 j Hx Hy Hj) as [<- _].
      rewrite Er in Hs. destruct Hs as [(_ & _ & ? & _)|(_ & k & Hh & Hj')]; [lia|]. cbn in Hh.
      destruct (ep_inj _ _ _ _ _ _ Hf Hk Hd x x _ k Hx Hx Hj') as [_ ?]. lia. }
    pose proof Hl as Hl'. apply live_of_inv in Hl' as [Hown _]. destruct (kt_live _ Hk' _ row Hrow') as (rule' & Hr' & Ha); [by rewrite Hown|].
    rewrite Hown, Hrule in Hr'. injection Hr' as <-. cbn in Ha. by rewrite Er in Ha.
Qed.
End KeptAfter.

(** C8: a tick keeps the rules and their breaches in agreement if and only if no rule it folds has
    two breaches in the tick with one of them live at its start or end. Agreement is: the rule's
    [active_breach_id] names a row of the table that is the rule's own and not resolved, and every
    row that is not resolved is named by its rule. The engine writes one row per rule and tick, so
    with a second breach the rule is left naming a row never written, or the first row is left
    unresolved. *)
Theorem tables_kept_iff fingerprint clock race draw s db alerts r : kept db → draws_fresh draw db → rx_enabled s = true →
  run fingerprint clock race draw s db alerts = Ok r →
  ∃ folds plans, folds_of draw s (now_of clock alerts) db = Ok (folds, plans) ∧ (kept (tr_db r) ↔ Forall fits folds).
Proof.
  intros Hk Hd He Hr. destruct (run_inv _ _ _ _ _ _ _ _ He Hr) as (folds & plans & d & Hfo & Hp & _ & _ & Hf).
  exists folds, plans. split; [done|]. split; [by eapply fits_after|by eapply kept_after].
Qed.

(** ** A stray breach *)

(** A row that is not resolved and that no rule names. *)
Definition stray (db : RuleDb) (b : N) (row : BreachRow) : Prop :=
  rd_breaches db !! b = Some row ∧ live_of (bh_rule_id row) row = true ∧
  ∀ id rule, rd_rules db !! id = Some rule → cu_active_breach_id rule ≠ Some b.

(** The rows are under their keys. *)
Definition keyed (db : RuleDb) : Prop := ∀ b row, rd_breaches db !! b = Some row → br_id (bh_columns row) = b.

Lemma closed_upto_id uuid4 spec n b : closed_upto uuid4 spec n (Some b) → ∃ k, br_id b = episode uuid4 spec k.
Proof. destruct n as [|k]; cbn; [done|]. intros (? & [= <-] & ? & _). by exists k. Qed.

(** Every breach a fold gives is the one loaded, or has an identifier drawn. *)
Lemma fold_episodes uuid4 spec o b : fold_rule uuid4 spec = Ok o → fo_breach o = Some b ∨ fo_resolved o = Some b →
  ∃ k, br_id b = episode uuid4 spec k.
Proof.
  intros H Hb. destruct (fold_rule_shape _ _ _ H) as [Hs _ _]. destruct (fo_breach o) as [b'|], Hb as [Hb|Hb]; simplify_eq.
  - destruct Hs as (_ & k & _ & ? & _). by exists k.
  - destruct Hs as (_ & k & _ & _ & Hc). rewrite Hb in Hc. by eapply closed_upto_id.
  - rewrite Hb in Hs. by eapply closed_upto_id.
Qed.

Section Stray.
Context (draw : N → nat → N) (s : RuleSettings) (plans : kind_plans) (now : datetime) (db : RuleDb) (folds : list (Loaded * FoldOutput)).
Context (Hf : folded draw s plans now db folds) (Hkey : keyed db) (Hd : draws_fresh draw db).
Context (b : N) (row : BreachRow) (Hs : stray db b row).

Lemma never_touched x rec : x ∈ folds → fo_breach x.2 = Some rec ∨ fo_resolved x.2 = Some rec → br_id rec ≠ b.
Proof.
  intros Hx Hr. destruct (proj2 (proj2 Hf) x Hx) as (rule & Hrule & Hld & Hit). apply fold_item_rule in Hit as [rs Hit].
  destruct (fold_episodes _ _ _ _ Hit Hr) as [k ->]. destruct Hs as (Hrow & _ & Hno). destruct Hd as [_ Hfresh]. unfold episode. cbn [fi_breach fold_input].
  destruct (lo_breach x.1) as [row'|] eqn:E; cbn; [destruct k|]; [|intros Heq; rewrite <- Heq, Hfresh in Hrow; discriminate..].
  rewrite Hld in E. cbn in E. apply bind_Some in E as (b' & Ha & Hb'). rewrite (Hkey _ _ Hb'). intros Heq. apply (Hno _ _ Hrule). by rewrite <- Heq.
Qed.

Lemma record_among o rec : record_of o = Some rec → fo_breach o = Some rec ∨ fo_resolved o = Some rec.
Proof. unfold record_of, coalesce. destruct (fo_resolved o); [by right|by left]. Qed.

Lemma persist_breach_ok t x t' : persist_breach t x = Ok t' → x ∈ folds → t !! b = Some row →
  t' !! b = Some row ∧ (bh_rule_id row = lo_id x.1 → lo_breach x.1 = None → ∀ rec, record_of x.2 = Some rec → is_resolved rec).
Proof.
  unfold persist_breach. intros H Hx Ht. destruct (record_of x.2) as [rec|] eqn:Er; [|injection H as <-; done].
  pose proof (never_touched x rec Hx (record_among _ _ Er)) as Hne. unfold save_breach in H. bind_inv H. bind_inv H. unfold put_breach in H. cbn in H.
  destruct (_ && _) eqn:Ec; [done|]. injection H as <-. split; [by rewrite lookup_insert_ne|]. intros Hid Hnone ? [= <-]. rewrite Hnone in Ec.
  destruct (decide (is_resolved rec)) as [|Hl]; [done|]. exfalso. apply andb_false_iff in Ec as [Ec|Ec].
  - unfold live_of in Ec. cbn in Ec. rewrite N.eqb_refl in Ec. by rewrite bool_decide_eq_false_2 in Ec.
  - apply not_true_iff_false in Ec. apply Ec. apply existsb_exists. exists (b, row). rewrite <- list_elem_of_In, elem_of_map_to_list. split; [done|]. cbn.
    rewrite <- Hid. destruct Hs as (_ & -> & _). rewrite andb_true_r. apply negb_true_iff, N.eqb_neq. by intros ->.
Qed.

Lemma stray_stays db' : persist folds plans now db = Ok db' →
  stray db' b row ∧
  ∀ x, x ∈ folds → lo_id x.1 = bh_rule_id row → lo_breach x.1 = None → ∀ rec, record_of x.2 = Some rec → is_resolved rec.
Proof.
  intros Hp. pose proof Hp as Hp'. unfold persist in Hp. bind_inv Hp. injection Hp as <-.
  assert (Hg : ∀ l t t', l ⊆ folds → t !! b = Some row → foldM persist_breach t l = Ok t' →
    t' !! b = Some row ∧ ∀ x, x ∈ l → lo_id x.1 = bh_rule_id row → lo_breach x.1 = None → ∀ rec, record_of x.2 = Some rec → is_resolved rec).
  { induction l as [|x l IH]; intros t t' Hl Ht H; cbn [foldM] in H; [injection H as <-; split; [done|]; by intros x ?%elem_of_nil|].
    bind_inv H. destruct (persist_breach_ok _ _ _ E0 (Hl x ltac:(left)) Ht) as [H1 H2].
    destruct (IH _ _ (λ y Hy, Hl y (list_elem_of_further _ _ _ Hy)) H1 H) as [H3 H4]. split; [done|].
    intros y [->|Hy]%elem_of_cons Hid; [by apply H2|by apply H4]. }
  destruct (Hg folds _ _ ltac:(done) (proj1 Hs) E) as [H1 H2]. split; [|exact H2]. split_and!; [done|apply Hs|].
  intros id rule Hr Ha. apply (rule_after _ _ _ _ _ _ _ Hf Hp') in Hr as (x & old & Hx & _ & _ & ->). cbn in Ha.
  apply fmap_Some in Ha as (rec & Hrec & Hb). by destruct (never_touched x rec Hx (or_introl Hrec)).
Qed.
End Stray.


(** ** The watermarks *)

Lemma kind_value_inj k k' : CustomRuleSubjectKind_value k = CustomRuleSubjectKind_value k' → k = k'.
Proof. by destruct k, k'. Qed.

Lemma note_silence_keeps s db closed now kind p p' : note_silence s db closed now kind p = Ok p' → ∃ reason, p' = with_stale reason p.
Proof.
  unfold note_silence. intros H. assert (Hp : p = with_stale (kp_stale_reason p) p) by by destruct p.
  destruct (rd_watermarks db !! _) as [w|], (kp_grid p); try (injection H as <-; by eexists). bind_inv H. bind_inv H. injection H as <-. by eexists.
Qed.

(** There is one plan for each kind with a rule that may judge. *)
Lemma plans_of_inv s db closed now loaded plans : plans_of s db closed now loaded = Ok plans →
  NoDup plans.*1 ∧
  (∀ kind, kind ∈ plans.*1 ↔ ∃ item, item ∈ loaded ∧ evaluable s item = true ∧ cu_subject_kind (lo_rule item) = kind) ∧
  ∀ x, x ∈ plans → ∃ items p reason, plan_kind s db closed items x.1 = Ok p ∧ x.2 = with_stale reason p.
Proof.
  unfold plans_of. set (kinds := remove_dups _). intros H. bind_inv H. rename r into ps.
  apply mapM_result_Forall2 in E, H.
  assert (H1 : ps.*1 = kinds) by (clear H; induction E as [|k p ks ps Hk _ IH]; [done|]; bind_inv Hk; injection Hk as <-; cbn; by rewrite IH).
  assert (H2 : plans.*1 = ps.*1) by (clear E H1; induction H as [|x y xs ys Hx _ IH]; [done|]; bind_inv Hx; injection Hx as <-; cbn; by rewrite IH).
  rewrite H2, H1. split_and!.
  - apply NoDup_remove_dups.
  - intros kind. unfold kinds. rewrite elem_of_remove_dups, list_elem_of_fmap. setoid_rewrite list_elem_of_filter. naive_solver.
  - intros x [i Hi]%list_elem_of_lookup. destruct (Forall2_lookup_r _ _ _ _ _ H Hi) as (y & Hy & Hxy). bind_inv Hxy. injection Hxy as <-.
    destruct (note_silence_keeps _ _ _ _ _ _ _ E0) as [reason ->]. destruct (Forall2_lookup_r _ _ _ _ _ E Hy) as (k & _ & Hk). bind_inv Hk. injection Hk as <-.
    eexists _, _, _. split; [|reflexivity]. exact E1.
Qed.

Lemma plan_for_is (plans : kind_plans) kind :
  match plan_for plans kind with Some p => (kind, p) ∈ plans | None => kind ∉ plans.*1 end.
Proof.
  unfold plan_for. destruct (find _ plans) as [[k p]|] eqn:E; cbn.
  - apply find_some in E as [Hin Hk%bool_decide_eq_true]. cbn in Hk. subst k. by apply list_elem_of_In.
  - intros ([k p] & Hk & Hin)%list_elem_of_fmap. apply list_elem_of_In, (find_none _ _ E) in Hin. by rewrite bool_decide_eq_true_2 in Hin.
Qed.

Definition marks_after (now : datetime) (p : option KindPlan) (w : option KindWatermark) : option KindWatermark :=
  match p ≫= kp_write_through with Some t => Some {| kw_evaluated_through := t; kw_updated_at := now |} | None => w end.

Lemma watermarks_written now plans : ∀ (marks : gmap string KindWatermark) kind, NoDup plans.*1 →
  foldl (write_watermark now) marks plans !! CustomRuleSubjectKind_value kind =
  marks_after now (plan_for plans kind) (marks !! CustomRuleSubjectKind_value kind).
Proof.
  induction plans as [|[k p] plans IH]; intros marks kind Hnd; [done|]. cbn in Hnd. apply NoDup_cons in Hnd as [Hk Hnd].
  cbn [foldl]. rewrite IH by done. unfold plan_for. cbn [find fst]. destruct (decide (k = kind)) as [->|Hne].
  - rewrite bool_decide_eq_true_2 by done. cbn [fmap option_fmap option_map snd]. pose proof (plan_for_is plans kind) as Hp. unfold plan_for in Hp.
    destruct (find _ plans) as [[k' p']|]; cbn in Hp |- *; [by destruct Hk; apply (list_elem_of_fmap_2 fst _ (kind, p'))|].
    unfold marks_after, write_watermark. cbn. destruct (kp_write_through p); [by rewrite lookup_insert_eq|done].
  - rewrite bool_decide_eq_false_2 by done. f_equal. unfold write_watermark. cbn. destruct (kp_write_through p); [|done].
    rewrite lookup_insert_ne; [done|]. by intros ?%kind_value_inj.
Qed.

(** A full walk of a kind: after its watermark, in order, skipping no bucket it has facts of. *)
Record walked (limit : Z) (w closed : datetime) (p : KindPlan) : Prop := {
  wk_sorted : StronglySorted earlier (kp_grid p);
  wk_due : Forall (due w closed) (kp_grid p);
  wk_length : Z.of_nat (length (kp_grid p)) <= Z.max 0 limit;
  wk_none_skipped : ∀ key per start facts, kp_facts p !! key = Some per → per !! start = Some facts → due w closed (utc start) → 0 < limit →
    utc start ∈ kp_grid p ∨ (Z.of_nat (length (kp_grid p)) = limit ∧ ∀ g, g ∈ kp_grid p → earlier g (utc start)) }.

Lemma plan_kind_walked s db closed items kind p : 0 < rx_interval_seconds s → aware closed →
  (∀ w, rd_watermarks db !! CustomRuleSubjectKind_value kind = Some w → aware (kw_evaluated_through w)) →
  plan_kind s db closed items kind = Ok p →
  match rd_watermarks db !! CustomRuleSubjectKind_value kind with
  | None => kp_seeded p = true ∧ kp_grid p = [] ∧ kp_write_through p = Some closed
  | Some w => kp_seeded p = false ∧ kp_write_through p = last (kp_grid p) ∧ walked (rx_max_buckets_per_run s) (kw_evaluated_through w) closed p
  end.
Proof.
  intros Hi Hc Hw. unfold plan_kind. destruct (rd_watermarks db !! _) as [w|]; [|by intros [= <-]]. intros H. bind_inv H. bind_inv H. injection H as <-.
  cbn [kp_seeded kp_grid kp_write_through kp_facts]. split_and!; [done..|].
  set (observed := _ : list datetime) in E0. 
  destruct (walk_buckets_sound observed (kw_evaluated_through w) (rx_interval_seconds s) (rx_max_buckets_per_run s) closed) as (g & Hg & H1 & H2 & H3 & H4);
    [done|by apply Hw|done| |].
  { apply Forall_forall. intros t Ht. unfold observed in Ht. apply list_elem_of_bind in Ht as (x & Ht & _). by apply list_elem_of_fmap in Ht as (b & -> & _). }
  assert (g = r0) as -> by congruence. split; cbn [kp_grid kp_facts]; [done..|]. intros key per start facts Hp Hs Hdue Hl. apply H4; [|done|done].
  unfold observed. apply list_elem_of_bind. exists (key, per). split; [|by apply elem_of_map_to_list]. apply list_elem_of_fmap_2.
  apply list_elem_of_fmap. exists (start, facts). split; [done|by apply elem_of_map_to_list].
Qed.

(** C22: the watermarks a tick leaves. A kind with no rule that may judge keeps its watermark. A kind
    without one is closed up to the latest closed bucket and nothing of it is judged. Otherwise the
    watermark moves to the last bucket the tick judged, or stays when there is none; the buckets
    judged lie after the old watermark and not after the latest closed bucket, in order and no more
    than the limit, and no bucket the loader gave facts of is passed over: it is judged, or the walk
    is full and ends before it. *)
Theorem watermarks_exact fingerprint clock race draw s db alerts r :
  (∀ kind w, rd_watermarks db !! CustomRuleSubjectKind_value kind = Some w → aware (kw_evaluated_through w)) →
  rx_enabled s = true → run fingerprint clock race draw s db alerts = Ok r →
  ∃ closed folds plans, latest_closed_bucket (now_of clock alerts) (rx_interval_seconds s) = Ok closed ∧
    folds_of draw s (now_of clock alerts) db = Ok (folds, plans) ∧
    ∀ kind, let value := CustomRuleSubjectKind_value kind in
      match plan_for plans kind, rd_watermarks db !! value with
      | None, w => (∀ item, item ∈ load_rules db → cu_subject_kind (lo_rule item) = kind → evaluable s item = false) ∧
                   rd_watermarks (tr_db r) !! value = w
      | Some p, None => kp_seeded p = true ∧ kp_grid p = [] ∧
                        rd_watermarks (tr_db r) !! value = Some {| kw_evaluated_through := closed; kw_updated_at := now_of clock alerts |}
      | Some p, Some w => walked (rx_max_buckets_per_run s) (kw_evaluated_through w) closed p ∧
                          rd_watermarks (tr_db r) !! value =
                            Some (match last (kp_grid p) with
                                  | Some t => {| kw_evaluated_through := t; kw_updated_at := now_of clock alerts |}
                                  | None => w
                                  end)
      end.
Proof.
  intros Hw He Hr. destruct (run_inv _ _ _ _ _ _ _ _ He Hr) as (folds & plans & d & Hfo & Hp & _). pose proof Hfo as Hfo'. unfold folds_of in Hfo. bind_inv Hfo.
  bind_inv Hfo. bind_inv Hfo. injection Hfo as -> ->. exists r0, folds, plans. split_and!; [done..|]. intros kind. cbv zeta.
  destruct (plans_of_inv _ _ _ _ _ _ E0) as (Hnd & Hkinds & Hplan). unfold latest_closed_bucket in E. bind_inv E. bind_inv E. injection E as E.
  assert (Hca : aware r0) by (by rewrite <- E).
  destruct r2. apply raise_if_ok in E3. apply Z.leb_gt in E3. unfold persist in Hp. bind_inv Hp. injection Hp as <-. cbn [rd_watermarks]. rewrite watermarks_written by done.
  pose proof (plan_for_is plans kind) as Hin. destruct (plan_for plans kind) as [p|].
  - destruct (Hplan _ Hin) as (items & p0 & reason & Hpk & Hst). cbn in Hpk, Hst. subst p.
    pose proof (plan_kind_walked _ _ _ _ _ _ E3 Hca (Hw kind) Hpk) as Hwalk. cbn. destruct (rd_watermarks db !! _) as [w|].
    + destruct Hwalk as (_ & Hwt & Hwk). split; [by destruct Hwk; split|]. unfold marks_after. cbn. rewrite Hwt. by destruct (last _).
    + destruct Hwalk as (? & ? & Hwt). split_and!; [done..|]. unfold marks_after. cbn. by rewrite Hwt.
  - split; [|done]. intros item Hi Hk. destruct (evaluable s item) eqn:Ev; [|done]. destruct Hin. apply Hkinds. by exists item.
Qed.

(** ** The rate of a class *)

Lemma index_facts_sound rows key per b f : index_facts rows !! key = Some per → per !! b = Some f → (key, b, f) ∈ rows.
Proof.
  revert per. unfold index_facts. induction rows as [|[[k' b'] f'] rows IH] using rev_ind; intros per; [done|].
  rewrite foldl_app. cbn [foldl]. set (m := foldl _ _ rows) in *. rewrite elem_of_app. destruct (decide (k' = key)) as [->|Hne].
  - rewrite lookup_insert_eq. intros [= <-]. destruct (decide (b' = b)) as [->|Hb].
    + rewrite lookup_insert_eq. intros [= ->]. right. left.
    + rewrite lookup_insert_ne by done. destruct (m !! key) as [per|] eqn:E; cbn; [|by rewrite lookup_empty]. intros Hf. left. by apply (IH per).
  - rewrite lookup_insert_ne by done. intros Hk Hf. left. by apply (IH per).
Qed.

(** The source counts in the rate of its class in a bucket. *)
Definition counted_in (t : Stored) (hist : bool) (bucket_start : Z) (id : N) : Prop :=
  ∃ row, sd_volumes t !! (id, bucket_start) = Some row ∧ vr_completeness row = BC_COMPLETE ∧
         (hist = true ∨ live_source (vr_collection_source row) = true).

Lemma elem_of_members t c x : x ∈ members t c ↔ sd_sources t !! x.1 = Some x.2 ∧ monitored x.2 = true ∧ class_of t x.1 = c.
Proof. unfold members. rewrite list_elem_of_filter. destruct x as [id src]. rewrite elem_of_map_to_list. naive_solver. Qed.

(** The complete row of a source, when it has one. *)
Definition complete_row (t : Stored) (hist : bool) (bucket_start : Z) (x : N * SourceRow) : option VolumeRow :=
  row ← sd_volumes t !! (x.1, bucket_start);
  if (hist || live_source (vr_collection_source row)) && bool_decide (vr_completeness row = BC_COMPLETE) then Some row else None.

Lemma complete_row_is t hist b x : is_Some (complete_row t hist b x) ↔ counted_in t hist b x.1.
Proof.
  split.
  - intros [r H]. apply bind_Some in H as (row & Hr & H). destruct (_ && _) eqn:E; [|done].
    apply andb_true_iff in E as [E1 E2%bool_decide_eq_true]. exists row. split_and!; [done..|]. by destruct hist; [left|right].
  - intros (row & Hr & Hc & Hl). unfold complete_row. rewrite Hr. cbn. rewrite (bool_decide_eq_true_2 _ Hc).
    destruct Hl as [-> | ->]; [|rewrite orb_true_r]; by eexists.
Qed.

Lemma complete_rows_omap t hist c b : complete_rows t hist c b = omap (complete_row t hist b) (members t c).
Proof.
  unfold complete_rows, class_rows, complete_row. induction (members t c) as [|x l IH]; [done|]. cbn. destruct (sd_volumes t !! (x.1, b)) as [row|]; cbn; [|exact IH].
  destruct (hist || _); cbn; [|exact IH]. destruct (decide (vr_completeness row = BC_COMPLETE)) as [H|H].
  - rewrite (bool_decide_eq_true_2 _ H). cbn. f_equal. exact IH.
  - rewrite (bool_decide_eq_false_2 _ H). exact IH.
Qed.

Lemma length_omap_all {A B} (g : A → option B) l : (length (omap g l) <= length l)%nat ∧
  (length (omap g l) = length l ↔ ∀ x, x ∈ l → is_Some (g x)).
Proof.
  induction l as [|x l [IH1 IH2]]; [split; [done|]; split; [by intros _ y ?%elem_of_nil|done]|]. cbn. destruct (g x) as [y|] eqn:E; cbn.
  - split; [lia|]. split.
    + intros [= H] z [->|Hz]%elem_of_cons; [by eexists|]. by apply IH2.
    + intros H. f_equal. apply IH2. intros z Hz. apply H. by right.
  - split; [lia|]. split; [lia|]. intros H. destruct (H x) as [? ?]; [left|]. congruence.
Qed.

(** C23: the rate of a class, exactly. A reading of [eps] the loader's facts give for a class and a
    bucket is the events of the COMPLETE live rows of its enabled, monitored sources divided by the
    seconds of those same rows; the bucket is in the window, and at least one source counts. It is
    labelled EXACT if and only if every enabled, monitored source of the class counts, and
    LOWER_BOUND otherwise. *)
Theorem fleet_reading_exact t after through hist classes c per b f reading v :
  load_fleet_classes t after through hist classes !! ByClass c = Some per → per !! b = Some f →
  interpret M_EPS f = Ok reading → ir_value reading = Some v →
  let rows := omap (complete_row t hist b) (members t c) in
  in_window after through b = true ∧ rows ≠ [] ∧
  truediv (sum_Z (vr_event_count <$> rows)) (sum_Z (vr_bucket_seconds <$> rows)) = Ok v ∧
  (ir_measurement reading = Some "EXACT" ↔
     ∀ id src, sd_sources t !! id = Some src → monitored src = true → class_of t id = c → counted_in t hist b id) ∧
  ir_measurement reading ∈ [Some "EXACT"; Some "LOWER_BOUND"].
Proof.
  intros Hk Hb Hi Hv rows. pose proof (index_facts_sound _ _ _ _ _ Hk Hb) as Hin. apply list_elem_of_bind in Hin as (c' & Hin & _).
  apply list_elem_of_omap in Hin as (b' & Hb' & Hg). apply list_elem_of_filter in Hb' as [Hwin _].
  unfold class_group in Hg. destruct (class_rows t hist c' b') as [|r0 rs]; [done|]. cbn in Hg. injection Hg as -> -> <-.
  rewrite complete_rows_omap in Hi. fold rows in Hi. destruct (length_omap_all (complete_row t hist b) (members t c)) as [_ Hall]. fold rows in Hall.
  unfold interpret in Hi. cbn in Hi. unfold fleet in Hi. cbn in Hi.
  assert (Hor : ∀ n, (if n =? 0 then 0 else n) = n) by (intros n; by destruct (Z.eqb_spec n 0)).
  rewrite !Hor in Hi. destruct (Z.leb_spec (Z.of_nat (length (members t c))) 0); [injection Hi as <-; done|].
  destruct (Z.leb_spec (Z.of_nat (length rows)) 0); [injection Hi as <-; done|]. cbn [orb] in Hi.
  destruct (_ <=? 0); [injection Hi as <-; done|]. destruct (truediv _ _) as [v'|] eqn:Et; [|done]. cbn in Hi. injection Hi as <-.
  unfold measured in *. destruct (isfinite v'); [|done]. injection Hv as ->. cbn [ir_measurement]. split_and!; [done|by intros Hn; rewrite Hn in *|done| |].
  - destruct (Z.eqb_spec (Z.of_nat (length rows)) (Z.of_nat (length (members t c)))) as [Heq|Hne]; cbn; (split; [intros Hm|intros Hm]); try done.
    + intros id src Hs Hmo Hc. apply Nat2Z.inj in Heq. apply complete_row_is with (x := (id, src)). apply (proj1 Hall Heq), elem_of_members. done.
    + exfalso. apply Hne. f_equal. apply Hall. intros [id src] (Hs & Hmo & Hc)%elem_of_members. apply complete_row_is. by apply (Hm id src).
  - destruct (_ =? _); set_solver.
Qed.

(** * Examples *)

Module RuleEngineExample.
Definition at_s (seconds : Z) : datetime := utc (seconds * us_per_second).
Definition fingerprint0 (id : N) : string := pretty id.
(** The identifiers drawn in the [tick]-th tick. *)
Definition draw0 (tick : nat) (id : N) (n : nat) : N := N.pos (encode (tick, id, n)).
Definition clock0 (seconds : Z) (n : nat) : datetime := utc (seconds * us_per_second + Z.of_nat n).

Definition settings0 (limit : Z) : RuleSettings :=
  {| rx_enabled := true; rx_alerting_enabled := true; rx_interval_seconds := 300; rx_max_buckets_per_run := limit; rx_settle_seconds := 60;
     rx_waf_collection_enabled := false; rx_ips_collection_enabled := false; rx_pw_collection_enabled := false; rx_pw_min_coverage := f0 |}.

Definition row0 (events : Z) : VolumeRow :=
  {| vr_event_count := events; vr_average_eps := f0; vr_bucket_seconds := 300; vr_completeness := BC_COMPLETE; vr_collection_source := None |}.
Definition source0 (name : string) : SourceRow :=
  {| so_name := name; so_enabled := true; so_monitoring_enabled := true; so_maintenance_mode := false; so_maintenance_until := None |}.
(** Two sources of one class; the second has no row at 3300. *)
Definition stored0 : Stored :=
  {| sd_sources := <[1%N := source0 "edge"]> {[2%N := source0 "core"]}; sd_classes := <[1%N := "WAF"]> {[2%N := "WAF"]};
     sd_volumes := list_to_map ((λ '(id, seconds, events), ((id, seconds * us_per_second), row0 events)) <$>
       [(1%N, 3300, 600); (1%N, 3600, 10); (1%N, 3900, 600); (1%N, 4200, 10); (1%N, 4500, 600)]);
     sd_endpoints := ∅; sd_endpoint_metrics := ∅; sd_waf_buckets := ∅; sd_entities := ∅; sd_entity_metrics := ∅; sd_ips_buckets := ∅;
     sd_watches := ∅; sd_values := ∅; sd_watch_buckets := ∅; sd_value_metrics := ∅ |}.

(** More than 100 events; one bucket opens a breach and one ends it. *)
Definition rule0 : CustomRule :=
  {| cu_name := "flood"; cu_subject_kind := SK_LOG_SOURCE; cu_log_source_id := Some 1%N; cu_source_class := None; cu_waf_endpoint_id := None;
     cu_ips_entity_id := None; cu_pw_value_id := None; cu_metric := M_EVENT_COUNT; cu_operator := "GT"; cu_threshold_value := div_round 100 1;
     cu_sustain_buckets := 1; cu_recovery_buckets := 1; cu_severity := SEV_HIGH; cu_enabled := true; cu_consecutive_breaching := 0;
     cu_consecutive_under := 0; cu_last_evaluated_bucket_start := None; cu_active_breach_id := None; cu_last_evaluated_at := None;
     cu_last_status := None; cu_last_status_reason := None |}.
Definition db0 : RuleDb :=
  {| rd_rules := {[7%N := rule0]}; rd_breaches := ∅;
     rd_watermarks := {["LOG_SOURCE" := {| kw_evaluated_through := at_s 3000; kw_updated_at := at_s 3000 |}]}; rd_cadences := ∅; rd_stored := stored0 |}.
Definition s0 : AlertSession := {| as_rows := []; as_committed := []; as_ticks := 0 |}.

(** The [tick]-th tick, at a time and with a limit on its buckets. *)
Definition tick (n : nat) (seconds limit : Z) (w : RuleDb * AlertSession) : result TickResult :=
  run fingerprint0 (clock0 seconds) no_race (draw0 n) (settings0 limit) w.1 w.2.
Definition after (r : result TickResult) (w : RuleDb * AlertSession) : RuleDb * AlertSession :=
  match r with Ok r => (tr_db r, tr_alerts r) | Err _ => w end.
Definition got (r : result TickResult) : TickResult :=
  match r with
  | Ok r => r
  | Err _ => {| tr_db := db0; tr_alerts := s0; tr_enqueued := []; tr_report := report_of [] [] "" |}
  end.

(** The breach opens at 3300. *)
Definition w1 : RuleDb * AlertSession := after (tick 1 3605 288 (db0, s0)) (db0, s0).
(** At 3600 it ends and at 3900 another opens, in one tick. *)
Definition w2 : RuleDb * AlertSession := after (tick 2 4205 288 w1) w1.
(** From 3600 to 4200: it ends, another opens and ends. *)
Definition w3 : RuleDb * AlertSession := after (tick 3 4505 288 w1) w1.

Definition active_row (w : RuleDb * AlertSession) : option (option BreachRow) :=
  rule ← rd_rules w.1 !! 7%N; b ← cu_active_breach_id rule; Some (rd_breaches w.1 !! b).

(** A breach that ends and opens again in one tick: the new one is not saved, the rule names a row
    that is not there, and its alert is resolved while the rule says OPEN. *)
Example reopened_lost :
  active_row w2 = Some None ∧ (cu_last_status <$> rd_rules w2.1 !! 7%N) = Some (Some "OPEN") ∧
  find_active (as_rows w1.2) (fingerprint0 7) = Some 0%nat ∧ find_active (as_rows w2.2) (fingerprint0 7) = None.
Proof. vm_compute. done. Qed.

(** With a third turn the first row stays OPEN, and the next opening fails the tick. *)
Example stray_fails : map_to_list ((λ row, br_state (bh_columns row)) <$> rd_breaches w3.1) ≡ₚ [(draw0 1 7 0, "OPEN"); (draw0 3 7 0, "RESOLVED")] ∧
  tick 4 4805 288 w3 = Err uq_custom_rule_breach_active.
Proof. split; [by apply (bool_decide_unpack _); vm_compute|]. vm_compute. done. Qed.

(** The rate of the class over a bucket the second source has no row of, and with its row of no
    events: the bound the first gives is above the rate the second shows. *)
Definition stored1 : Stored :=
  {| sd_sources := sd_sources stored0; sd_classes := sd_classes stored0;
     sd_volumes := <[(2%N, 3300 * us_per_second) := row0 0]> (sd_volumes stored0);
     sd_endpoints := ∅; sd_endpoint_metrics := ∅; sd_waf_buckets := ∅; sd_entities := ∅; sd_entity_metrics := ∅; sd_ips_buckets := ∅;
     sd_watches := ∅; sd_values := ∅; sd_watch_buckets := ∅; sd_value_metrics := ∅ |}.
Definition class_at (t : Stored) (seconds : Z) : option BucketFacts :=
  per ← load_fleet_classes t (at_s 3000) (at_s 3300) false ["WAF"] !! ByClass "WAF"; per !! (seconds * us_per_second).
Definition read_class (t : Stored) : option InterpretedReading :=
  f ← class_at t 3300; match interpret M_EPS f with Ok r => Some r | Err _ => None end.
Definition judged (t : Stored) : option Judgement :=
  judge Measurement.LOWER_BOUND_PROVES_INCREASE "GT" (div_round 3 2) <$> read_class t.

Example lower_bound_overstated :
  (read_class stored0 ≫= ir_value) = Some (div_round 2 1) ∧ (read_class stored0 ≫= ir_measurement) = Some "LOWER_BOUND" ∧
  judged stored0 = Some JBreach ∧
  (read_class stored1 ≫= ir_value) = Some (div_round 1 1) ∧ (read_class stored1 ≫= ir_measurement) = Some "EXACT" ∧
  judged stored1 = Some JUnder.
Proof. vm_compute. done. Qed.

Definition t1 : TickResult := got (tick 1 3605 288 (db0, s0)).

Lemma tick1 : run fingerprint0 (clock0 3605) no_race (draw0 1) (settings0 288) db0 s0 = Ok t1.
Proof. vm_compute. reflexivity. Qed.

Lemma fingerprint0_inj i j : fingerprint0 i = fingerprint0 j → i = j.
Proof. unfold fingerprint0. apply pretty_N_inj. Qed.

Lemma draw0_inj k id n k' id' n' : draw0 k id n = draw0 k' id' n' → (k, id, n) = (k', id', n').
Proof. unfold draw0. intros [= H]. by apply encode_inj in H. Qed.

Lemma fresh0 : draws_fresh (draw0 1) db0.
Proof. split; [|done]. intros id n id' n' H%draw0_inj. by simplify_eq. Qed.

Lemma rules_kept0 : kept db0.
Proof.
  split; cbn.
  - intros b row H. by rewrite lookup_empty in H.
  - by intros id rule b [<- <-]%lookup_singleton_Some.
  - intros b row H. by rewrite lookup_empty in H.
Qed.

Lemma rule_alerts_exact_witness :
  is_active (as_rows (tr_alerts t1)) (fingerprint0 7) ∧
  ∃ rule, rd_rules (tr_db t1) !! 7%N = Some rule ∧ cu_enabled rule = true ∧ is_Some (cu_active_breach_id rule).
Proof.
  assert (H7 : is_active (as_rows (tr_alerts t1)) (fingerprint0 7)) by (vm_compute; by eexists). split; [exact H7|].
  destruct (rule_alerts_exact fingerprint0 (clock0 3605) (draw0 1) (settings0 288) db0 s0 t1) as (folds & plans & _ & _ & _ & H).
  - exact fingerprint0_inj.
  - by intros i j a b Hi.
  - intros a id Ha. by apply elem_of_nil in Ha.
  - reflexivity.
  - reflexivity.
  - exact tick1.
  - destruct (H 7%N H7) as (rule & H1 & H2 & H3 & _). exact (ex_intro _ rule (conj H1 (conj H2 H3))).
Defined.

Lemma tables_kept_iff_witness : ∃ folds plans,
  folds_of (draw0 1) (settings0 288) (now_of (clock0 3605) s0) db0 = Ok (folds, plans) ∧ (kept (tr_db t1) ↔ Forall fits folds).
Proof. exact (tables_kept_iff fingerprint0 (clock0 3605) no_race (draw0 1) (settings0 288) db0 s0 t1 rules_kept0 fresh0 eq_refl tick1). Defined.

Definition t4 : TickResult := got (tick 4 4505 288 w3).
Lemma tick4 : run fingerprint0 (clock0 4505) no_race (draw0 4) (settings0 288) w3.1 w3.2 = Ok t4.
Proof. vm_compute. reflexivity. Qed.

Lemma keyed3 : keyed w3.1.
Proof.
  assert (H : map_Forall (λ b row, br_id (bh_columns row) = b) (rd_breaches w3.1)) by (apply (bool_decide_unpack _); vm_compute; exact I).
  exact H.
Qed.

Lemma draws_fresh_in draw db (keys : list N) : (∀ id n id' n', draw id n = draw id' n' → id = id' ∧ n = n') → (∀ id n, draw id n ∉ keys) →
  map_Forall (λ b _, b ∈ keys) (rd_breaches db) → draws_fresh draw db.
Proof.
  intros Hinj Hno Hin. split; [done|]. intros id n. destruct (rd_breaches db !! draw id n) as [row|] eqn:E; [|done].
  by destruct (Hno id n (Hin _ _ E)).
Qed.

Lemma stray_in db b : match rd_breaches db !! b with Some row => live_of (bh_rule_id row) row | None => false end = true →
  map_Forall (λ _ rule, cu_active_breach_id rule ≠ Some b) (rd_rules db) → ∃ row, stray db b row.
Proof. intros Hb Hr. destruct (rd_breaches db !! b) as [row|] eqn:E; [|done]. by exists row. Qed.

Lemma fresh3 : draws_fresh (draw0 4) w3.1.
Proof.
  apply (draws_fresh_in _ _ [draw0 1 7 0; draw0 3 7 0]).
  - intros id n id' n' H%draw0_inj. by simplify_eq.
  - intros id n [H|H%list_elem_of_singleton]%elem_of_cons; by apply draw0_inj in H.
  - apply (bool_decide_unpack _). vm_compute. exact I.
Qed.

Lemma stray3 : ∃ row, stray w3.1 (draw0 1 7 0) row.
Proof. apply stray_in; [vm_compute; reflexivity|]. apply (bool_decide_unpack _). vm_compute. exact I. Qed.


Lemma watermarks_exact_witness : ∃ p, walked 288 (at_s 3000) (at_s 3300) p ∧
  rd_watermarks (tr_db t1) !! "LOG_SOURCE" =
    Some (match last (kp_grid p) with
          | Some t => {| kw_evaluated_through := t; kw_updated_at := at_s 3605 |}
          | None => {| kw_evaluated_through := at_s 3000; kw_updated_at := at_s 3000 |}
          end).
Proof.
  destruct (watermarks_exact fingerprint0 (clock0 3605) no_race (draw0 1) (settings0 288) db0 s0 t1) as (closed & folds & plans & Hc & _ & H).
  - intros kind w H. unfold db0 in H. cbn [rd_watermarks] in H. by apply lookup_singleton_Some in H as [_ <-].
  - reflexivity.
  - exact tick1.
  - vm_compute in Hc. injection Hc as <-. specialize (H SK_LOG_SOURCE). cbv zeta in H. destruct (plan_for plans SK_LOG_SOURCE) as [p|].
    + exact (ex_intro _ p H).
    + destruct H as [H _]. specialize (H (load_rule db0 7 rule0)). exfalso. 
      assert (Hf : evaluable (settings0 288) (load_rule db0 7 rule0) = false) by (apply H; [apply load_rules_ids; by exists rule0|done]). by vm_compute in Hf.
Defined.

Lemma fleet_reading_exact_witness : ∃ reading v, read_class stored0 = Some reading ∧ ir_value reading = Some v ∧
  ir_measurement reading = Some "LOWER_BOUND".
Proof.
  assert (Hex : ∃ f reading v, class_at stored0 3300 = Some f ∧ interpret M_EPS f = Ok reading ∧ ir_value reading = Some v).
  { eexists _, _, _. split; [vm_compute; reflexivity|]. split; vm_compute; reflexivity. }
  destruct Hex as (f & reading & v & Ef & Ei & Ev).
  assert (Hr : read_class stored0 = Some reading) by (unfold read_class; rewrite Ef; cbn; by rewrite Ei).
  exists reading, v. split_and!; [done..|]. pose proof Ef as Ef'. unfold class_at in Ef'. apply bind_Some in Ef' as (per & Hper & Hf).
  destruct (fleet_reading_exact stored0 (at_s 3000) (at_s 3300) false ["WAF"] "WAF" per _ f reading v Hper Hf Ei Ev) as (_ & _ & _ & He & Hm).
  apply elem_of_cons in Hm as [Hm|Hm%list_elem_of_singleton]; [|exact Hm]. exfalso.
  destruct (proj1 He Hm 2%N (source0 "core")) as (row & Hrow & _); [by vm_compute..|]. by vm_compute in Hrow.
Defined.
End RuleEngineExample.
