(* ===== verification/EngineCaches.v ===== *)
(** * The caches of an engine run

    What one instance of the anomaly engine reads once and remembers ([_source_class],
    [_policies], [_classes] and [_outage] of [anomaly/engine.py]): the outage policies, the
    class map, and the verdict and class of each source. [str_id] is [str] of a source's id.
    The tables do not change while the instance lives: it is one transaction's. *)

From S2P Require Import Prelude PyStr Enums OutagePolicy.

(** What the caches read of a source. *)
Record CachedSource := { ks_id : N; ks_instance_id : option N }.

(** The columns of [LogSourceClassification], by source. *)
Abbreviation class_table := (gmap N string) (only parsing).

Record Caches := {
  ca_source_class : gmap N (option string); ca_policies : option (list OutagePolicyRow);
  ca_classes : option (gmap N string); ca_outage : gmap N ResolvedOutage;
  (** Statements issued so far. *)
  ca_statements : Z }.

Definition no_caches : Caches :=
  {| ca_source_class := ∅; ca_policies := None; ca_classes := None; ca_outage := ∅; ca_statements := 0 |}.

Section Caches.
Context (str_id : N → string) (policies_table : list OutagePolicyRow) (classes_table : gmap N string).
Context (default_mode : OutagePolicyMode).

Definition source_class (id : N) (c : Caches) : option string * Caches :=
  match ca_source_class c !! id with
  | Some cls => (cls, c)
  | None =>
      let cls := classes_table !! id in
      (cls, {| ca_source_class := <[id := cls]> (ca_source_class c); ca_policies := ca_policies c;
               ca_classes := ca_classes c; ca_outage := ca_outage c; ca_statements := ca_statements c + 1 |})
  end.

Definition policies (c : Caches) : list OutagePolicyRow * Caches :=
  match ca_policies c with
  | Some rows => (rows, c)
  | None => (policies_table, {| ca_source_class := ca_source_class c; ca_policies := Some policies_table;
                                ca_classes := ca_classes c; ca_outage := ca_outage c;
                                ca_statements := ca_statements c + 1 |})
  end.

Definition classes (c : Caches) : gmap N string * Caches :=
  match ca_classes c with
  | Some m => (m, c)
  | None => (classes_table, {| ca_source_class := ca_source_class c; ca_policies := ca_policies c;
                               ca_classes := Some classes_table; ca_outage := ca_outage c;
                               ca_statements := ca_statements c + 1 |})
  end.

Definition outage (so : CachedSource) (c : Caches) : ResolvedOutage * Caches :=
  match ca_outage c !! ks_id so with
  | Some cached => (cached, c)
  | None =>
      let '(rows, c) := policies c in
      let '(cls, c) :=
        if existsb (λ r, bool_decide (op_scope_kind r = OP_CLASS)) rows
        then let '(m, c) := classes c in (m !! ks_id so, c)
        else (None, c) in
      let cached := resolve_outage rows (Some (str_id (ks_id so))) cls (ks_instance_id so) default_mode in
      (cached, {| ca_source_class := ca_source_class c; ca_policies := ca_policies c; ca_classes := ca_classes c;
                  ca_outage := <[ks_id so := cached]> (ca_outage c); ca_statements := ca_statements c |})
  end.

(** ** Coherence *)

(** The console of a source is one of its columns. *)
Context (instance_of : N → option N).

Definition fresh_outage (id : N) : ResolvedOutage :=
  resolve_outage policies_table (Some (str_id id)) (classes_table !! id) (instance_of id) default_mode.

(** Whatever is remembered is what the tables say, and each table was read once. *)
Record coherent (c : Caches) : Prop := {
  co_class : map_Forall (λ id cls, cls = classes_table !! id) (ca_source_class c);
  co_policies : ∀ rows, ca_policies c = Some rows → rows = policies_table;
  co_classes : ∀ m, ca_classes c = Some m → m = classes_table;
  co_outage : map_Forall (λ id o, o = fresh_outage id) (ca_outage c);
  co_statements : ca_statements c = Z.of_nat (size (ca_source_class c)) + (if ca_policies c is Some _ then 1 else 0)
                                    + (if ca_classes c is Some _ then 1 else 0) }.

Lemma no_caches_coherent : coherent no_caches.
Proof. split; try done; apply map_Forall_empty. Qed.

Lemma source_class_coherent id c : coherent c →
  (source_class id c).1 = classes_table !! id ∧ coherent (source_class id c).2.
Proof.
  intros [H1 H2 H3 H4 H5]. unfold source_class. destruct (ca_source_class c !! id) as [cls|] eqn:E; cbn [fst snd].
  { split; [by apply (H1 _ _ E)|done]. }
  split; [done|]. split; cbn; try done.
  - by apply map_Forall_insert_2.
  - rewrite map_size_insert_None by done. lia.
Qed.

Lemma policies_coherent c : coherent c → (policies c).1 = policies_table ∧ coherent (policies c).2.
Proof.
  intros [H1 H2 H3 H4 H5]. unfold policies. destruct (ca_policies c) as [rows|] eqn:E; cbn [fst snd].
  { split; [by apply H2|]. by split; rewrite ?E. }
  split; [done|]. split; cbn; try done; [by intros rows [= <-]|lia].
Qed.

Lemma classes_coherent c : coherent c → (classes c).1 = classes_table ∧ coherent (classes c).2.
Proof.
  intros [H1 H2 H3 H4 H5]. unfold classes. destruct (ca_classes c) as [m|] eqn:E; cbn [fst snd].
  { split; [by apply H3|]. by split; rewrite ?E. }
  split; [done|]. split; cbn; try done; [by intros m [= <-]|lia].
Qed.

(** Without a class row the class of a source is not looked at. *)
Lemma pick_no_class rows cls inst : existsb (λ r, bool_decide (op_scope_kind r = OP_CLASS)) rows = false →
  pick rows OP_CLASS cls inst = None.
Proof.
  intros H. assert (filter (λ r, op_scope_kind r = OP_CLASS ∧ op_scope_value r = cls) rows = []) as Hn.
  { apply filter_none, Forall_forall. intros r Hr [Hk _]. apply Bool.not_true_iff_false in H. apply H.
    apply existsb_exists. exists r. split; [by apply list_elem_of_In|by rewrite bool_decide_eq_true_2]. }
  unfold pick. rewrite Hn. by destruct inst.
Qed.

Lemma resolve_no_class rows id cls inst d : existsb (λ r, bool_decide (op_scope_kind r = OP_CLASS)) rows = false →
  resolve_outage rows id cls inst d = resolve_outage rows id None inst d.
Proof.
  intros H. unfold resolve_outage. destruct cls as [cls|]; [|done]. cbv zeta.
  by rewrite (pick_no_class rows cls inst H).
Qed.

Lemma outage_coherent so c : coherent c → instance_of (ks_id so) = ks_instance_id so →
  (outage so c).1 = fresh_outage (ks_id so) ∧ coherent (outage so c).2.
Proof.
  intros Hc Hi. unfold outage. destruct (ca_outage c !! ks_id so) as [o|] eqn:E; cbn [fst snd].
  { split; [by apply (co_outage _ Hc _ _ E)|done]. }
  destruct (policies_coherent c Hc) as [Hp Hc1]. destruct (policies c) as [rows c1]. cbn [fst snd] in *. subst rows.
  assert (Hgo : ∀ cls c2, coherent c2 →
    resolve_outage policies_table (Some (str_id (ks_id so))) cls (ks_instance_id so) default_mode = fresh_outage (ks_id so) →
    coherent {| ca_source_class := ca_source_class c2; ca_policies := ca_policies c2; ca_classes := ca_classes c2;
      ca_outage := <[ks_id so := resolve_outage policies_table (Some (str_id (ks_id so))) cls (ks_instance_id so) default_mode]> (ca_outage c2);
      ca_statements := ca_statements c2 |}).
  { intros cls c2 [H1 H2 H3 H4 H5] Hr. split; cbn; try done. by apply map_Forall_insert_2. }
  destruct (existsb _ policies_table) eqn:Ex.
  - destruct (classes_coherent c1 Hc1) as [Hm Hc2]. destruct (classes c1) as [m c2]. cbn [fst snd] in *. subst m.
    assert (resolve_outage policies_table (Some (str_id (ks_id so))) (classes_table !! ks_id so) (ks_instance_id so) default_mode =
      fresh_outage (ks_id so)) as Hr by (unfold fresh_outage; by rewrite Hi).
    split; [done|by apply Hgo].
  - assert (resolve_outage policies_table (Some (str_id (ks_id so))) None (ks_instance_id so) default_mode =
      fresh_outage (ks_id so)) as Hr.
    { unfold fresh_outage. rewrite Hi. symmetry. by apply resolve_no_class. }
    split; [done|by apply Hgo].
Qed.

(** One question to the caches. *)
Inductive Ask := ASK_CLASS (id : N) | ASK_OUTAGE (so : CachedSource).

Definition answer (a : Ask) (c : Caches) : (option string + ResolvedOutage) * Caches :=
  match a with
  | ASK_CLASS id => let '(cls, c) := source_class id c in (inl cls, c)
  | ASK_OUTAGE so => let '(o, c) := outage so c in (inr o, c)
  end.

Fixpoint answers (asks : list Ask) (c : Caches) : list (option string + ResolvedOutage) * Caches :=
  match asks with
  | [] => ([], c)
  | a :: asks => let '(x, c) := answer a c in let '(xs, c) := answers asks c in (x :: xs, c)
  end.

Definition fresh_answer (a : Ask) : option string + ResolvedOutage :=
  match a with ASK_CLASS id => inl (classes_table !! id) | ASK_OUTAGE so => inr (fresh_outage (ks_id so)) end.

(** The caches are transparent. Over any sequence of questions an engine run asks, each
    answer is the one the tables give afresh, the class of a source included even where the
    run never reads it; and the policies and the class map are each read at most once,
    however many sources are asked about. *)
Theorem caches_transparent asks :
  (∀ so, ASK_OUTAGE so ∈ asks → instance_of (ks_id so) = ks_instance_id so) →
  (answers asks no_caches).1 = fresh_answer <$> asks ∧
  let c := (answers asks no_caches).2 in
  ca_statements c <= Z.of_nat (size (ca_source_class c)) + 2.
Proof.
  assert (Hgen : ∀ asks c, coherent c → (∀ so, ASK_OUTAGE so ∈ asks → instance_of (ks_id so) = ks_instance_id so) →
    (answers asks c).1 = fresh_answer <$> asks ∧ coherent (answers asks c).2).
  { clear asks. induction asks as [|a asks IH]; intros c Hc Hi; [done|]. cbn [answers].
    assert ((answer a c).1 = fresh_answer a ∧ coherent (answer a c).2) as [Ha Hc1].
    { destruct a as [id|so]; cbn [answer fresh_answer].
      - destruct (source_class_coherent id c Hc) as [H1 H2]. destruct (source_class id c). cbn in *. by subst.
      - destruct (outage_coherent so c Hc) as [H1 H2]; [apply Hi; left|]. destruct (outage so c). cbn in *. by subst. }
    destruct (answer a c) as [x c1]. cbn [fst snd] in Ha, Hc1. subst x.
    destruct (IH c1 Hc1) as [H1 H2]; [intros so Hs; apply Hi; by right|].
    destruct (answers asks c1) as [xs c2]. cbn in *. by subst. }
  intros Hi. destruct (Hgen asks no_caches no_caches_coherent Hi) as [H Hc]. split; [done|]. cbn zeta.
  rewrite (co_statements _ Hc). destruct (ca_policies _), (ca_classes _); lia.
Qed.
End Caches.

(** Two sources of one console under a class policy. *)
Definition ex_policies : list OutagePolicyRow :=
  [{| op_instance_id := None; op_scope_kind := OP_CLASS; op_scope_value := "FIREWALL"; op_mode := OM_RECORD_ONLY;
      op_silence_grace_buckets := Some 4 |}].

Definition ex_asks : list Ask :=
  [ASK_OUTAGE {| ks_id := 1; ks_instance_id := Some 9%N |}; ASK_CLASS 1; ASK_OUTAGE {| ks_id := 2; ks_instance_id := Some 9%N |};
   ASK_OUTAGE {| ks_id := 1; ks_instance_id := Some 9%N |}].

Lemma caches_transparent_witness :
  (answers pretty ex_policies {[1%N := "FIREWALL"]} OM_ALERT ex_asks no_caches).1 =
  fresh_answer pretty ex_policies {[1%N := "FIREWALL"]} OM_ALERT (λ _, Some 9%N) <$> ex_asks.
Proof.
  refine (proj1 (caches_transparent pretty ex_policies {[1%N := "FIREWALL"]} OM_ALERT (λ _, Some 9%N) ex_asks _)).
  intros so Hso. unfold ex_asks in Hso.
  repeat (apply elem_of_cons in Hso as [Hso|Hso]; [first [discriminate Hso|injection Hso as ->; reflexivity]|]).
  by apply elem_of_nil in Hso.
Defined.
