(* ===== verification/Capabilities.v ===== *)
(** * What a bucket measured

    The log-source half of [anomaly/capabilities.py]: the inputs each detector declares, the
    inputs a stored bucket carries, and which detectors may judge it. [LogSourceTelemetry]
    is of [providers/base.py]. *)

From S2P Require Import Prelude PyStr PyJson Enums Detectors Thresholds Baseline.

Inductive LogSourceTelemetry :=
| EVENT_VOLUME | LAST_EVENT_TIME | PEAK_RATE | UNKNOWN_EVENT_COUNT | PARSE_RATIOS | DISTINCT_SOURCE_IPS
| INGESTION_DELAY | COLLECTION_ERRORS | PAYLOAD_SIGNATURE.

#[export] Instance LogSourceTelemetry_eq_dec : EqDecision LogSourceTelemetry.
Proof. solve_decision. Defined.

Definition LogSourceTelemetry_value (t : LogSourceTelemetry) : string :=
  match t with
  | EVENT_VOLUME => "EVENT_VOLUME" | LAST_EVENT_TIME => "LAST_EVENT_TIME" | PEAK_RATE => "PEAK_RATE"
  | UNKNOWN_EVENT_COUNT => "UNKNOWN_EVENT_COUNT" | PARSE_RATIOS => "PARSE_RATIOS"
  | DISTINCT_SOURCE_IPS => "DISTINCT_SOURCE_IPS" | INGESTION_DELAY => "INGESTION_DELAY"
  | COLLECTION_ERRORS => "COLLECTION_ERRORS" | PAYLOAD_SIGNATURE => "PAYLOAD_SIGNATURE"
  end.

Definition all_telemetry : list LogSourceTelemetry :=
  [EVENT_VOLUME; LAST_EVENT_TIME; PEAK_RATE; UNKNOWN_EVENT_COUNT; PARSE_RATIOS; DISTINCT_SOURCE_IPS;
   INGESTION_DELAY; COLLECTION_ERRORS; PAYLOAD_SIGNATURE].

#[export] Instance LogSourceTelemetry_inj : Inj (=) (=) LogSourceTelemetry_value.
Proof. by intros [] []. Qed.

#[export] Instance LogSourceTelemetry_finite : finite.Finite LogSourceTelemetry.
Proof. refine {| finite.enum := all_telemetry |}; [apply (bool_decide_unpack _); vm_compute; exact I|by intros []; apply (bool_decide_unpack _)]. Defined.

(** ** What a stored row measured *)

Definition ARIEL_AGGREGATE_TELEMETRY : gset LogSourceTelemetry := {[EVENT_VOLUME; LAST_EVENT_TIME]}.
Definition SYNTHETIC_TELEMETRY : gset LogSourceTelemetry := list_to_set all_telemetry ∖ {[COLLECTION_ERRORS]}.
Definition ALWAYS_MEASURED : gset LogSourceTelemetry := {[EVENT_VOLUME]}.

Definition TELEMETRY_BY_COLLECTION_SOURCE : gmap string (gset LogSourceTelemetry) :=
  {["ariel_aggregate" := ARIEL_AGGREGATE_TELEMETRY; "mock" := SYNTHETIC_TELEMETRY]}.

(** [LogSourceTelemetry(v)] for a member's value. *)
Definition telemetry_of (v : json) : option LogSourceTelemetry :=
  match v with
  | JStr s => snd <$> list_find (λ t, LogSourceTelemetry_value t = s) all_telemetry
  | _ => None
  end.

(** A JSON array or object is unhashable, so testing it for membership raises. *)
Definition hashable (v : json) : bool := match v with JList _ | JObj _ => false | _ => true end.

Definition or_empty (o : option jobj) : jobj := default [] o.

Definition bucket_telemetry (collection_source : option string) (query_provenance : option jobj)
    : result (gset LogSourceTelemetry) :=
  match assoc (or_empty query_provenance) "telemetry" with
  | Some (JList declared) =>
      _ <- raise_if (negb (forallb hashable declared)) (TypeError "unhashable type") ;;
      Ok (list_to_set (omap telemetry_of declared) ∪ ALWAYS_MEASURED)
  | _ => Ok (default ALWAYS_MEASURED (TELEMETRY_BY_COLLECTION_SOURCE !! default "" collection_source))
  end.

(** ** What a detector needs *)

Record DetectorSpec := { ds_telemetry : gset LogSourceTelemetry; ds_baseline_metrics : gset string }.

Definition LOG_SOURCE_DETECTORS (t : AnomalyType) : DetectorSpec :=
  match t with
  | AT_NO_EVENTS => {| ds_telemetry := {[EVENT_VOLUME]}; ds_baseline_metrics := {["event_count"]} |}
  | AT_VOLUME_DROP => {| ds_telemetry := {[EVENT_VOLUME]}; ds_baseline_metrics := {["average_eps"]} |}
  | AT_VOLUME_SPIKE => {| ds_telemetry := {[EVENT_VOLUME]}; ds_baseline_metrics := {["average_eps"]} |}
  | AT_PARSING_DEGRADATION => {| ds_telemetry := {[PARSE_RATIOS]}; ds_baseline_metrics := ∅ |}
  | AT_UNKNOWN_EVENT_SPIKE => {| ds_telemetry := {[EVENT_VOLUME; UNKNOWN_EVENT_COUNT]}; ds_baseline_metrics := ∅ |}
  | AT_TIMESTAMP_DELAY => {| ds_telemetry := {[INGESTION_DELAY]}; ds_baseline_metrics := ∅ |}
  | AT_CARDINALITY_DROP =>
      {| ds_telemetry := {[DISTINCT_SOURCE_IPS]}; ds_baseline_metrics := {["distinct_source_ip_count"]} |}
  | AT_COLLECTION_ERROR => {| ds_telemetry := {[COLLECTION_ERRORS]}; ds_baseline_metrics := ∅ |}
  | AT_REPEATED_PAYLOAD => {| ds_telemetry := {[PAYLOAD_SIGNATURE]}; ds_baseline_metrics := ∅ |}
  end.

(** [', '.join(sorted(names))] *)
Definition join_sorted (names : list string) : string := String.concat ", " (merge_sort String.le names).

Definition unmet_requirement (t : AnomalyType) (telemetry : gset LogSourceTelemetry) : option string :=
  let spec := LOG_SOURCE_DETECTORS t in
  let missing_baselines := ds_baseline_metrics spec ∖ list_to_set BASELINE_METRICS in
  if decide (missing_baselines = ∅) then
    let missing := ds_telemetry spec ∖ telemetry in
    if decide (missing = ∅) then None
    else Some ("bucket did not measure " +:+ join_sorted (LogSourceTelemetry_value <$> elements missing))
  else Some ("no " +:+ join_sorted (elements missing_baselines) +:+ " baseline is built").

(** ** Facts *)

Lemma unmet_none_iff t tel :
  unmet_requirement t tel = None ↔
  ds_baseline_metrics (LOG_SOURCE_DETECTORS t) ⊆ list_to_set BASELINE_METRICS ∧
  ds_telemetry (LOG_SOURCE_DETECTORS t) ⊆ tel.
Proof.
  unfold unmet_requirement. cbn zeta.
  destruct (decide (_ ∖ list_to_set BASELINE_METRICS = _)) as [Hb|Hb].
  - destruct (decide (_ ∖ tel = _)) as [Ht|Ht].
    + split; [intros _; split; by apply empty_difference_subseteq_L|done].
    + split; [discriminate|]. intros [_ H]. destruct Ht. by apply subseteq_empty_difference_L.
  - split; [discriminate|]. intros [H _]. destruct Hb. by apply subseteq_empty_difference_L.
Qed.

Lemma baselined_iff t :
  ds_baseline_metrics (LOG_SOURCE_DETECTORS t) ⊆ list_to_set BASELINE_METRICS ↔ t ≠ AT_CARDINALITY_DROP.
Proof.
  rewrite <- (bool_decide_spec (_ ⊆ _)), <- (bool_decide_spec (t ≠ _)).
  assert (bool_decide (ds_baseline_metrics (LOG_SOURCE_DETECTORS t) ⊆ list_to_set BASELINE_METRICS) =
          bool_decide (t ≠ AT_CARDINALITY_DROP)) as ->; [by destruct t; vm_compute|done].
Qed.

Lemma always_measured cs prov tel : bucket_telemetry cs prov = Ok tel → EVENT_VOLUME ∈ tel.
Proof.
  unfold bucket_telemetry.
  assert (EVENT_VOLUME ∈ default ALWAYS_MEASURED (TELEMETRY_BY_COLLECTION_SOURCE !! default "" cs)) as Hd.
  { unfold TELEMETRY_BY_COLLECTION_SOURCE. destruct (decide (default "" cs = "ariel_aggregate")) as [->|H1].
    { apply (bool_decide_unpack _); vm_compute; exact I. }
    rewrite lookup_insert_ne by done.
    destruct (decide (default "" cs = "mock")) as [->|H2].
    { apply (bool_decide_unpack _); vm_compute; exact I. }
    rewrite lookup_singleton_ne by done. unfold ALWAYS_MEASURED. cbn [default]. set_solver. }
  destruct (assoc (or_empty prov) "telemetry") as [[]|]; try by intros [= <-].
  destruct (raise_if _ _); cbn [res_bind]; [|discriminate]. intros [= <-]. unfold ALWAYS_MEASURED. set_solver.
Qed.

(** A detector judges a stored bucket exactly when the bucket measured every input the
    detector declares. The three volume detectors therefore judge every bucket, and the
    cardinality detector none, since no baseline is built of what it compares with. *)
Theorem judgeable_exact cs prov tel : bucket_telemetry cs prov = Ok tel →
  ∀ t, (unmet_requirement t tel = None ↔
          t ≠ AT_CARDINALITY_DROP ∧ ds_telemetry (LOG_SOURCE_DETECTORS t) ⊆ tel) ∧
       (t ∈ [AT_NO_EVENTS; AT_VOLUME_DROP; AT_VOLUME_SPIKE] → unmet_requirement t tel = None).
Proof.
  intros H%always_measured t. rewrite !unmet_none_iff, baselined_iff. split; [done|].
  rewrite !elem_of_cons, elem_of_nil.
  intros [->|[->|[->|[]]]]; (split; [done|]); cbn [LOG_SOURCE_DETECTORS ds_telemetry]; set_solver.
Qed.

(** A row of the Ariel aggregate that declares nothing can be judged on volume, not on its
    parsing. *)
Lemma judgeable_exact_witness :
  unmet_requirement AT_VOLUME_SPIKE ARIEL_AGGREGATE_TELEMETRY = None ∧
  unmet_requirement AT_PARSING_DEGRADATION ARIEL_AGGREGATE_TELEMETRY ≠ None.
Proof.
  pose proof (judgeable_exact (Some "ariel_aggregate") None ARIEL_AGGREGATE_TELEMETRY eq_refl) as H. split.
  - apply (proj2 (H AT_VOLUME_SPIKE)). right. right. left.
  - intros Hn. apply (proj1 (H AT_PARSING_DEGRADATION)) in Hn as [_ Hs].
    revert Hs. apply (bool_decide_unpack (¬ _)). vm_compute. exact I.
Defined.
