(* ===== verification/AnomalyEngine.v ===== *)
(** * The anomaly engine

    [anomaly/engine.py] for one log source: the hysteresis of each detector, the incident it
    drives from CANDIDATE to RESOLVED, the audit rows, the alerts and the notifications.
    Rows are named by their position in their table. [fingerprint] is
    [anomaly_fingerprint(log_source.id, type.value)], a hash. No other transaction
    interferes. The bucket's context is loaded in [EngineContext]; the database's own failures are
    left out. *)

From S2P Require Import Prelude PyStr PyFloat PyTime PyJson Enums AnomalyLifecycle AlertService.

(** ** Data *)

(** The columns of [LogSourceAnomaly]. *)
Record Incident := {
  ic_anomaly_type : AnomalyType; ic_severity : Severity; ic_state : AnomalyState;
  ic_detected_at : datetime; ic_resolved_at : option datetime; ic_opened_at : option datetime;
  ic_anomaly_start : option datetime; ic_anomaly_end : option datetime;
  ic_observed_value : option float; ic_expected_value : option float; ic_deviation_score : option float;
  ic_confidence : option float; ic_deviation_ratio : option float; ic_robust_z : option float;
  ic_absolute_delta : option float; ic_consecutive_buckets : Z; ic_baseline_version : option Z;
  ic_policy_version : Z; ic_evidence_status : EvidenceStatus; ic_explanation : option string;
  ic_details : jobj; ic_suppressed : bool; ic_suppression_reason : option string }.

(** [LogSourceDetectorState]. *)
Record DetectorState := {
  ds_state : AnomalyState; ds_consecutive_anomalous : Z; ds_consecutive_healthy : Z; ds_is_open : bool;
  ds_last_interval_start : option datetime; ds_open_anomaly_id : option nat; ds_active_anomaly_id : option nat }.

(** The row [_get_state] creates: the column defaults. *)
Definition new_detector_state : DetectorState :=
  {| ds_state := AS_NORMAL; ds_consecutive_anomalous := 0; ds_consecutive_healthy := 0; ds_is_open := false;
     ds_last_interval_start := None; ds_open_anomaly_id := None; ds_active_anomaly_id := None |}.

(** [AnomalyStateTransition]. *)
Record Move := {
  mv_anomaly_id : nat; mv_from_state : AnomalyState; mv_to_state : AnomalyState; mv_occurred_at : datetime;
  mv_bucket_start : datetime; mv_reason : string; mv_actor : string;
  mv_observed_value : option float; mv_expected_value : option float }.

(** The columns of the log source and of the metric row the engine reads here. *)
Record Source := {
  so_id : N; so_name : string; so_owner : option string; so_criticality : string;
  so_monitoring_enabled : bool; so_maintenance_mode : bool; so_maintenance_until : option datetime;
  so_source_class : option string; so_outage_mode : OutagePolicyMode }.

Record Metric := { mt_bucket_start : datetime; mt_bucket_seconds : Z }.

Record EngineSettings := { es_explanation_enabled : bool; es_anomaly_policy_version : Z; es_has_enqueuer : bool }.

Record EvaluationReport := {
  er_opened : list string; er_resolved : list string; er_anomalous : list string;
  er_candidates : list string; er_recovering : list string; er_states : gmap string AnomalyState;
  er_unsupported : gmap string string; er_skipped_reason : option string }.

Definition empty_report : EvaluationReport :=
  {| er_opened := []; er_resolved := []; er_anomalous := []; er_candidates := []; er_recovering := [];
     er_states := ∅; er_unsupported := ∅; er_skipped_reason := None |}.

(** Everything the engine writes: the incidents, the audit rows, the alert session, the
    notifications handed to the enqueuer, and the report. *)
Record World := {
  w_incidents : list Incident; w_moves : list Move; w_alerts : AlertSession;
  w_queue : list (nat * AlertTransition); w_report : EvaluationReport }.

(** ** Writes *)

Definition with_incidents (l : list Incident) (w : World) : World :=
  {| w_incidents := l; w_moves := w_moves w; w_alerts := w_alerts w; w_queue := w_queue w; w_report := w_report w |}.
Definition with_alerts (s : AlertSession) (w : World) : World :=
  {| w_incidents := w_incidents w; w_moves := w_moves w; w_alerts := s; w_queue := w_queue w; w_report := w_report w |}.
Definition with_report (r : EvaluationReport) (w : World) : World :=
  {| w_incidents := w_incidents w; w_moves := w_moves w; w_alerts := w_alerts w; w_queue := w_queue w; w_report := r |}.
Definition enqueue (alert : nat) (t : AlertTransition) (w : World) : World :=
  {| w_incidents := w_incidents w; w_moves := w_moves w; w_alerts := w_alerts w;
     w_queue := w_queue w ++ [(alert, t)]; w_report := w_report w |}.
Definition with_incident (id : nat) (f : Incident → Incident) (w : World) : World :=
  with_incidents (alter f id (w_incidents w)) w.

(** The lists of the report. *)
Definition report_opened (t : AnomalyType) (r : EvaluationReport) : EvaluationReport :=
  {| er_opened := er_opened r ++ [AnomalyType_value t]; er_resolved := er_resolved r; er_anomalous := er_anomalous r;
     er_candidates := er_candidates r; er_recovering := er_recovering r; er_states := er_states r;
     er_unsupported := er_unsupported r; er_skipped_reason := er_skipped_reason r |}.
Definition report_resolved (t : AnomalyType) (r : EvaluationReport) : EvaluationReport :=
  {| er_opened := er_opened r; er_resolved := er_resolved r ++ [AnomalyType_value t]; er_anomalous := er_anomalous r;
     er_candidates := er_candidates r; er_recovering := er_recovering r; er_states := er_states r;
     er_unsupported := er_unsupported r; er_skipped_reason := er_skipped_reason r |}.
Definition report_anomalous (t : AnomalyType) (r : EvaluationReport) : EvaluationReport :=
  {| er_opened := er_opened r; er_resolved := er_resolved r; er_anomalous := er_anomalous r ++ [AnomalyType_value t];
     er_candidates := er_candidates r; er_recovering := er_recovering r; er_states := er_states r;
     er_unsupported := er_unsupported r; er_skipped_reason := er_skipped_reason r |}.
Definition report_candidate (t : AnomalyType) (r : EvaluationReport) : EvaluationReport :=
  {| er_opened := er_opened r; er_resolved := er_resolved r; er_anomalous := er_anomalous r;
     er_candidates := er_candidates r ++ [AnomalyType_value t]; er_recovering := er_recovering r;
     er_states := er_states r; er_unsupported := er_unsupported r; er_skipped_reason := er_skipped_reason r |}.
Definition report_recovering (t : AnomalyType) (r : EvaluationReport) : EvaluationReport :=
  {| er_opened := er_opened r; er_resolved := er_resolved r; er_anomalous := er_anomalous r;
     er_candidates := er_candidates r; er_recovering := er_recovering r ++ [AnomalyType_value t];
     er_states := er_states r; er_unsupported := er_unsupported r; er_skipped_reason := er_skipped_reason r |}.
Definition report_state (t : AnomalyType) (s : AnomalyState) (r : EvaluationReport) : EvaluationReport :=
  {| er_opened := er_opened r; er_resolved := er_resolved r; er_anomalous := er_anomalous r;
     er_candidates := er_candidates r; er_recovering := er_recovering r;
     er_states := <[AnomalyType_value t := s]> (er_states r);
     er_unsupported := er_unsupported r; er_skipped_reason := er_skipped_reason r |}.
Definition report_unsupported (t : AnomalyType) (reason : string) (r : EvaluationReport) : EvaluationReport :=
  {| er_opened := er_opened r; er_resolved := er_resolved r; er_anomalous := er_anomalous r;
     er_candidates := er_candidates r; er_recovering := er_recovering r; er_states := er_states r;
     er_unsupported := <[AnomalyType_value t := reason]> (er_unsupported r);
     er_skipped_reason := er_skipped_reason r |}.

Definition noted (f : EvaluationReport → EvaluationReport) (w : World) : World := with_report (f (w_report w)) w.

(** The lifecycle columns of an incident. *)
Definition with_life (state : AnomalyState) (severity : Severity) (opened_at anomaly_end resolved_at : option datetime)
    (i : Incident) : Incident :=
  {| ic_anomaly_type := ic_anomaly_type i; ic_severity := severity; ic_state := state;
     ic_detected_at := ic_detected_at i; ic_resolved_at := resolved_at; ic_opened_at := opened_at;
     ic_anomaly_start := ic_anomaly_start i; ic_anomaly_end := anomaly_end;
     ic_observed_value := ic_observed_value i; ic_expected_value := ic_expected_value i;
     ic_deviation_score := ic_deviation_score i; ic_confidence := ic_confidence i;
     ic_deviation_ratio := ic_deviation_ratio i; ic_robust_z := ic_robust_z i;
     ic_absolute_delta := ic_absolute_delta i; ic_consecutive_buckets := ic_consecutive_buckets i;
     ic_baseline_version := ic_baseline_version i; ic_policy_version := ic_policy_version i;
     ic_evidence_status := ic_evidence_status i; ic_explanation := ic_explanation i; ic_details := ic_details i;
     ic_suppressed := ic_suppressed i; ic_suppression_reason := ic_suppression_reason i |}.

(** The measurement columns. *)
Definition with_measures (anomaly_end : option datetime) (consecutive : Z) (observed deviation ratio z delta : option float)
    (explanation : option string) (details : jobj) (i : Incident) : Incident :=
  {| ic_anomaly_type := ic_anomaly_type i; ic_severity := ic_severity i; ic_state := ic_state i;
     ic_detected_at := ic_detected_at i; ic_resolved_at := ic_resolved_at i; ic_opened_at := ic_opened_at i;
     ic_anomaly_start := ic_anomaly_start i; ic_anomaly_end := anomaly_end;
     ic_observed_value := observed; ic_expected_value := ic_expected_value i;
     ic_deviation_score := deviation; ic_confidence := ic_confidence i;
     ic_deviation_ratio := ratio; ic_robust_z := z; ic_absolute_delta := delta; ic_consecutive_buckets := consecutive;
     ic_baseline_version := ic_baseline_version i; ic_policy_version := ic_policy_version i;
     ic_evidence_status := ic_evidence_status i; ic_explanation := explanation; ic_details := details;
     ic_suppressed := ic_suppressed i; ic_suppression_reason := ic_suppression_reason i |}.

(** The explanation and suppression columns. *)
Definition with_flags (status : EvidenceStatus) (suppressed : bool) (reason : option string) (i : Incident) : Incident :=
  {| ic_anomaly_type := ic_anomaly_type i; ic_severity := ic_severity i; ic_state := ic_state i;
     ic_detected_at := ic_detected_at i; ic_resolved_at := ic_resolved_at i; ic_opened_at := ic_opened_at i;
     ic_anomaly_start := ic_anomaly_start i; ic_anomaly_end := ic_anomaly_end i;
     ic_observed_value := ic_observed_value i; ic_expected_value := ic_expected_value i;
     ic_deviation_score := ic_deviation_score i; ic_confidence := ic_confidence i;
     ic_deviation_ratio := ic_deviation_ratio i; ic_robust_z := ic_robust_z i;
     ic_absolute_delta := ic_absolute_delta i; ic_consecutive_buckets := ic_consecutive_buckets i;
     ic_baseline_version := ic_baseline_version i; ic_policy_version := ic_policy_version i;
     ic_evidence_status := status; ic_explanation := ic_explanation i; ic_details := ic_details i;
     ic_suppressed := suppressed; ic_suppression_reason := reason |}.

(** The columns of the detector state. *)
Definition set_counters (anomalous healthy : Z) (d : DetectorState) : DetectorState :=
  {| ds_state := ds_state d; ds_consecutive_anomalous := anomalous; ds_consecutive_healthy := healthy;
     ds_is_open := ds_is_open d; ds_last_interval_start := ds_last_interval_start d;
     ds_open_anomaly_id := ds_open_anomaly_id d; ds_active_anomaly_id := ds_active_anomaly_id d |}.
Definition set_last (t : datetime) (d : DetectorState) : DetectorState :=
  {| ds_state := ds_state d; ds_consecutive_anomalous := ds_consecutive_anomalous d;
     ds_consecutive_healthy := ds_consecutive_healthy d; ds_is_open := ds_is_open d; ds_last_interval_start := Some t;
     ds_open_anomaly_id := ds_open_anomaly_id d; ds_active_anomaly_id := ds_active_anomaly_id d |}.
Definition set_state (s : AnomalyState) (d : DetectorState) : DetectorState :=
  {| ds_state := s; ds_consecutive_anomalous := ds_consecutive_anomalous d;
     ds_consecutive_healthy := ds_consecutive_healthy d; ds_is_open := ds_is_open d;
     ds_last_interval_start := ds_last_interval_start d;
     ds_open_anomaly_id := ds_open_anomaly_id d; ds_active_anomaly_id := ds_active_anomaly_id d |}.
Definition set_ids (is_open : bool) (open_id active_id : option nat) (d : DetectorState) : DetectorState :=
  {| ds_state := ds_state d; ds_consecutive_anomalous := ds_consecutive_anomalous d;
     ds_consecutive_healthy := ds_consecutive_healthy d; ds_is_open := is_open;
     ds_last_interval_start := ds_last_interval_start d;
     ds_open_anomaly_id := open_id; ds_active_anomaly_id := active_id |}.

(** ** Values read from the evidence *)

(** [facts.get(key)]. *)
Fixpoint dict_get (o : jobj) (k : string) : option json :=
  match o with
  | [] => None
  | (k', v) :: o => if decide (k = k') then Some v else dict_get o k
  end.

(** [_as_float]: a bool is an [int] in Python. *)
Definition as_float (x : option json) : result (option float) :=
  match x with
  | Some (JFloat f) => Ok (Some f)
  | Some (JInt n) => f <- float_of_int n ;; Ok (Some f)
  | Some (JBool b) => Ok (Some (if b then f1 else f0))
  | _ => Ok None
  end.

(** [_as_int]. *)
Definition as_int (x : option json) : result (option Z) :=
  match x with
  | Some (JFloat f) => n <- ftrunc f ;; Ok (Some n)
  | Some (JInt n) => Ok (Some n)
  | Some (JBool b) => Ok (Some (if b then 1 else 0))
  | _ => Ok None
  end.

Definition is_worse (i : Incident) (observed : float) : bool :=
  match ic_observed_value i with
  | None => true
  | Some current =>
      if decide (ic_anomaly_type i = AT_VOLUME_SPIKE) then flt current observed else flt observed current
  end.

Definition EXPLAINABLE_TYPES : list AnomalyType := [AT_VOLUME_SPIKE; AT_VOLUME_DROP].

(** [seasonal.in_maintenance], at a bucket's start. *)
Definition source_in_maintenance (so : Source) (when : datetime) : result bool :=
  if negb (so_maintenance_mode so) then Ok false
  else match so_maintenance_until so with
       | None => Ok true
       | Some until => dt_le when until
       end.

Section Engine.
Context (clock : nat → datetime) (fingerprint : AnomalyType → string).
Context (settings : EngineSettings) (so : Source).

(** [self._clock()]; the alert service reads the same clock. *)
Definition engine_now (w : World) : datetime := now_of clock (w_alerts w).
Definition engine_ticked (w : World) : World := with_alerts (ticked (w_alerts w)) w.

Definition active_anomaly (w : World) (d : DetectorState) : option nat :=
  match ds_active_anomaly_id d with
  | None => None
  | Some id => if decide (is_Some (w_incidents w !! id)) then Some id else None
  end.

Definition create_incident (m : Metric) (e : AnomalyEvidence) (in_maintenance : bool) (w : World)
    : result (nat * World) :=
  let facts := ev_extra e in
  ratio <- as_float (dict_get facts "ratio") ;;
  z <- as_float (dict_get facts "robust_z") ;;
  delta <- as_float (dict_get facts "absolute_delta_events") ;;
  version <- as_int (dict_get facts "baseline_version") ;;
  let i :=
    {| ic_anomaly_type := ev_anomaly_type e; ic_severity := ev_severity e; ic_state := AS_CANDIDATE;
       ic_detected_at := mt_bucket_start m; ic_resolved_at := None; ic_opened_at := None;
       ic_anomaly_start := Some (mt_bucket_start m); ic_anomaly_end := None;
       ic_observed_value := ev_observed_value e; ic_expected_value := ev_expected_value e;
       ic_deviation_score := ev_deviation_score e; ic_confidence := Some (ev_confidence e);
       ic_deviation_ratio := ratio; ic_robust_z := z; ic_absolute_delta := delta; ic_consecutive_buckets := 1;
       ic_baseline_version := version; ic_policy_version := es_anomaly_policy_version settings;
       ic_evidence_status := ES_NOT_REQUESTED; ic_explanation := Some (ev_reason e); ic_details := to_dict e;
       ic_suppressed := in_maintenance;
       ic_suppression_reason := if in_maintenance then Some "maintenance window" else None |} in
  Ok (length (w_incidents w), with_incidents (w_incidents w ++ [i]) w).

Definition record_transition (id : nat) (from_state to_state : AnomalyState) (m : Metric) (reason : string)
    (e : AnomalyEvidence) (w : World) : World :=
  let mv := {| mv_anomaly_id := id; mv_from_state := from_state; mv_to_state := to_state;
               mv_occurred_at := engine_now w; mv_bucket_start := mt_bucket_start m; mv_reason := reason;
               mv_actor := "anomaly-engine"; mv_observed_value := ev_observed_value e;
               mv_expected_value := ev_expected_value e |} in
  let w := engine_ticked w in
  {| w_incidents := w_incidents w; w_moves := w_moves w ++ [mv]; w_alerts := w_alerts w;
     w_queue := w_queue w; w_report := w_report w |}.

(** [_alert_input]. *)
Definition alert_input (e : AnomalyEvidence) (anomaly_id : option nat) : AlertInput :=
  {| in_fingerprint := fingerprint (ev_anomaly_type e);
     in_title := AnomalyType_value (ev_anomaly_type e) +:+ " on " +:+ so_name so;
     in_severity := ev_severity e; in_source_type := "log_source"; in_source_id := Some (so_id so);
     in_description := Some (ev_reason e); in_evidence := Some (to_dict e);
     in_source_anomaly_ids := Some (match anomaly_id with Some id => [pretty id] | None => [] end);
     in_context := Some ([("log_source", JStr (so_name so));
                          ("owner", match so_owner so with Some o => JStr o | None => JNull end);
                          ("criticality", JStr (so_criticality so))] ++
                         match so_source_class so with Some c => [("source_class", JStr c)] | None => [] end) |}.

(** [evidence.anomaly_type == NO_EVENTS] under a record-only outage policy. *)
Definition record_only (e : AnomalyEvidence) : bool :=
  bool_decide (ev_anomaly_type e = AT_NO_EVENTS) && bool_decide (so_outage_mode so = OM_RECORD_ONLY).

(** The enqueuer's call after a transition. *)
Definition notify (r : AlertResult) (w : World) : World :=
  match ar_transition r with
  | Some t => if es_has_enqueuer settings then enqueue (ar_alert r) t w else w
  | None => w
  end.

Definition touch_anomaly (d : DetectorState) (m : Metric) (e : AnomalyEvidence) (w : World) : result World :=
  match active_anomaly w d with
  | None => Ok w
  | Some id =>
      let facts := ev_extra e in
      let w := with_incident id (λ i, with_measures (ic_anomaly_end i)
                 (Z.max (ic_consecutive_buckets i) (ds_consecutive_anomalous d)) (ic_observed_value i)
                 (ic_deviation_score i) (ic_deviation_ratio i) (ic_robust_z i) (ic_absolute_delta i)
                 (ic_explanation i) (ic_details i) i) w in
      if is_anomalous e then
        let stop := Some (dt_add (mt_bucket_start m) (td_seconds (mt_bucket_seconds m))) in
        let w := with_incident id (λ i, with_measures stop (ic_consecutive_buckets i) (ic_observed_value i)
                   (ic_deviation_score i) (ic_deviation_ratio i) (ic_robust_z i) (ic_absolute_delta i)
                   (ic_explanation i) (ic_details i) i) w in
        match ev_observed_value e, w_incidents w !! id with
        | Some observed, Some i =>
            if is_worse i observed then
              ratio <- as_float (dict_get facts "ratio") ;;
              z <- as_float (dict_get facts "robust_z") ;;
              delta <- as_float (dict_get facts "absolute_delta_events") ;;
              Ok (with_incident id (with_measures stop (ic_consecutive_buckets i) (Some observed)
                    (ev_deviation_score e) ratio z delta (Some (ev_reason e)) (to_dict e)) w)
            else Ok w
        | _, _ => Ok w
        end
      else Ok w
  end.

Definition promote_to_open (m : Metric) (e : AnomalyEvidence) (d : DetectorState) (id : nat)
    (in_maintenance : bool) (w : World) : result (DetectorState * World) :=
  let opened := engine_now w in
  let w := with_incident id (λ i, with_life AS_OPEN (ev_severity e) (Some opened) None (ic_resolved_at i) i)
             (engine_ticked w) in
  w <- touch_anomaly d m e w ;;
  let d := set_ids true (Some id) (Some id) d in
  let w := noted (report_opened (ev_anomaly_type e)) w in
  let explain := es_explanation_enabled settings && bool_decide (ev_anomaly_type e ∈ EXPLAINABLE_TYPES)
                 && negb in_maintenance in
  let w := if explain
           then with_incident id (λ i, with_flags ES_PENDING (ic_suppressed i) (ic_suppression_reason i) i) w
           else w in
  if in_maintenance then Ok (d, w)
  else if record_only e then Ok (d, w)
  else
    r <- open_or_update clock (λ rows, rows) (alert_input e (Some id)) (w_alerts w) ;;
    Ok (d, notify r.1 (with_alerts r.2 w)).

(** [_refresh]. *)
Definition refresh (e : AnomalyEvidence) (d : DetectorState) (in_maintenance : bool) (w : World) : result World :=
  if in_maintenance then Ok w
  else if record_only e then Ok w
  else
    r <- open_or_update clock (λ rows, rows) (alert_input e (ds_open_anomaly_id d)) (w_alerts w) ;;
    Ok (with_alerts r.2 w).

(** [_resolve]. *)
Definition resolve_incident (e : AnomalyEvidence) (d : DetectorState) (anomaly : option nat) (w : World)
    : result (DetectorState * World) :=
  let w := match anomaly with
           | Some id =>
               match w_incidents w !! id with
               | Some i =>
                   match ic_resolved_at i with
                   | None =>
                       with_incident id (λ i, with_life AS_RESOLVED (ic_severity i) (ic_opened_at i)
                         (ic_anomaly_end i) (Some (engine_now w)) i) (engine_ticked w)
                   | Some _ => w
                   end
               | None => w
               end
           | None => w
           end in
  let d := set_ids false None None d in
  let w := noted (report_resolved (ev_anomaly_type e)) w in
  r <- resolve_by_fingerprint clock (fingerprint (ev_anomaly_type e)) "anomaly-engine"
         (Some "condition recovered") (w_alerts w) ;;
  let w := with_alerts r.2 w in
  Ok (d, match r.1 with Some res => notify res w | None => w end).

(** [_apply_transition]: one lifecycle move, its audit row, and its side effects. *)
Definition apply_transition (m : Metric) (e : AnomalyEvidence) (d : DetectorState) (decision : LifecycleDecision)
    (in_maintenance : bool) (w : World) : result (DetectorState * World) :=
  let previous := ds_state d in
  let target := ld_state decision in
  let at_ := ev_anomaly_type e in
  let w := noted (report_state at_ target) w in
  if decide (target = previous) then
    if decide (previous = AS_OPEN) then
      w <- refresh e d in_maintenance w ;;
      w <- touch_anomaly d m e w ;;
      Ok (d, w)
    else Ok (d, w)
  else
    let d := set_state target d in
    let moved id w := record_transition id previous target m (ld_reason decision) e w in
    if decide (target = AS_CANDIDATE) then
      c <- create_incident m e in_maintenance w ;;
      let d := set_ids (ds_is_open d) (ds_open_anomaly_id d) (Some c.1) d in
      Ok (d, noted (report_candidate at_) (moved c.1 c.2))
    else
      let anomaly := active_anomaly w d in
      if decide (target = AS_OPEN) then
        c <- (match anomaly with
              | Some id => Ok (id, w)
              | None => create_incident m e in_maintenance w
              end) ;;
        let d := set_ids (ds_is_open d) (ds_open_anomaly_id d) (Some c.1) d in
        p <- promote_to_open m e d c.1 in_maintenance c.2 ;;
        Ok (p.1, moved c.1 p.2)
      else
        let w := match anomaly with Some id => moved id w | None => w end in
        match target with
        | AS_RECOVERING =>
            let w := match anomaly with
                     | Some id => with_incident id (λ i, with_life AS_RECOVERING (ic_severity i) (ic_opened_at i)
                                    (Some (mt_bucket_start m)) (ic_resolved_at i) i) w
                     | None => w
                     end in
            Ok (d, noted (report_recovering at_) w)
        | AS_RESOLVED => resolve_incident e d anomaly w
        | AS_SUPPRESSED =>
            let w := match anomaly with
                     | Some id =>
                         with_incident id (λ i, with_flags (ic_evidence_status i) true
                             (match ic_suppression_reason i with
                              | Some r => Some (if decide (r = "") then "maintenance window" else r)
                              | None => Some "maintenance window"
                              end)
                           (with_life AS_SUPPRESSED (ic_severity i) (ic_opened_at i) (ic_anomaly_end i)
                              (ic_resolved_at i) i)) w
                     | None => w
                     end in
            Ok (set_ids false (ds_open_anomaly_id d) (ds_active_anomaly_id d) d, w)
        | _ =>
            let w := match anomaly with
                     | Some id =>
                         if decide (previous = AS_CANDIDATE) then
                           with_incident id (λ i, with_life target (ic_severity i) (ic_opened_at i)
                             (Some (mt_bucket_start m)) (ic_resolved_at i) i) w
                         else w
                     | None => w
                     end in
            Ok (set_ids false (ds_open_anomaly_id d) None d, w)
        end.

(** The bucket is already folded into the counters. *)
Definition already_folded (d : DetectorState) (m : Metric) : result bool :=
  match ds_last_interval_start d with
  | None => Ok false
  | Some last => dt_ge last (mt_bucket_start m)
  end.

(** [_apply_hysteresis], with the thresholds resolved for this detector. *)
Definition apply_hysteresis (open_after resolve_after : Z) (m : Metric) (e : AnomalyEvidence)
    (in_maintenance : bool) (d : DetectorState) (w : World) : result (DetectorState * World) :=
  folded <- already_folded d m ;;
  if folded : bool then Ok (d, w)
  else
    let signal := if in_maintenance && bool_decide (ev_signal e = DS_ANOMALOUS) then DS_UNKNOWN else ev_signal e in
    let counters := advance_counters signal (ds_consecutive_anomalous d) (ds_consecutive_healthy d) in
    let d := set_last (mt_bucket_start m) (set_counters counters.1 counters.2 d) in
    let decision := next_state
      {| li_state := ds_state d; li_signal := signal; li_consecutive_anomalous := ds_consecutive_anomalous d;
         li_consecutive_healthy := ds_consecutive_healthy d; li_open_after := open_after;
         li_resolve_after := resolve_after; li_insufficient_data := ev_insufficient_data e;
         li_suppressed := in_maintenance && negb (active_state (ds_state d)) |} in
    apply_transition m e d decision in_maintenance w.

(** [_run_detectors], on the verdicts of all the detectors. [unmet] is
    [unmet_requirement] for what the bucket measured; a verdict whose input was not
    measured is dropped, and an empty bucket demotes the verdicts it makes redundant. *)
Definition demote (e : AnomalyEvidence) : AnomalyEvidence :=
  {| ev_anomaly_type := ev_anomaly_type e; ev_signal := DS_UNKNOWN; ev_severity := ev_severity e;
     ev_observed_value := ev_observed_value e; ev_expected_value := ev_expected_value e;
     ev_baseline_low := ev_baseline_low e; ev_baseline_high := ev_baseline_high e;
     ev_deviation_score := ev_deviation_score e; ev_threshold := ev_threshold e;
     ev_sample_count := ev_sample_count e; ev_interval_start := ev_interval_start e;
     ev_interval_end := ev_interval_end e; ev_confidence := ev_confidence e;
     ev_reason := "suppressed: no events this interval"; ev_extra := ev_extra e;
     ev_insufficient_data := ev_insufficient_data e |}.

Definition SUPPRESSED_BY_NO_EVENTS : list AnomalyType :=
  [AT_VOLUME_DROP; AT_PARSING_DEGRADATION; AT_UNKNOWN_EVENT_SPIKE; AT_CARDINALITY_DROP; AT_REPEATED_PAYLOAD].

Definition run_detectors (unmet : AnomalyType → option string) (verdicts : list AnomalyEvidence)
    (r : EvaluationReport) : list AnomalyEvidence * EvaluationReport :=
  let '(results, r) := foldl (λ '(results, r) e,
    match unmet (ev_anomaly_type e) with
    | None => (results ++ [e], r)
    | Some reason => (results, report_unsupported (ev_anomaly_type e) reason r)
    end) ([], r) verdicts in
  let silent := match list_find (λ e, ev_anomaly_type e = AT_NO_EVENTS) results with
                | Some (_, e) => is_anomalous e
                | None => false
                end in
  ((if silent
    then (λ e, if decide (ev_anomaly_type e ∈ SUPPRESSED_BY_NO_EVENTS) then demote e else e) <$> results
    else results), r).

(** [_get_state]. *)
Definition state_of (states : gmap string DetectorState) (t : AnomalyType) : DetectorState :=
  default new_detector_state (states !! AnomalyType_value t).

(** [evaluate_interval], given the verdicts of the detectors on this bucket. *)
Definition evaluate_interval (thresholds : AnomalyType → Z * Z) (unmet : AnomalyType → option string)
    (verdicts : list AnomalyEvidence) (m : Metric) (states : gmap string DetectorState) (w : World)
    : result (gmap string DetectorState * World) :=
  let w := with_report empty_report w in
  if negb (so_monitoring_enabled so) then
    Ok (states, noted (λ r, {| er_opened := er_opened r; er_resolved := er_resolved r;
      er_anomalous := er_anomalous r; er_candidates := er_candidates r; er_recovering := er_recovering r;
      er_states := er_states r; er_unsupported := er_unsupported r;
      er_skipped_reason := Some "monitoring disabled" |}) w)
  else
    in_maintenance <- source_in_maintenance so (mt_bucket_start m) ;;
    let '(evidences, r) := run_detectors unmet verdicts (w_report w) in
    foldM (λ acc e,
      let at_ := ev_anomaly_type e in
      let w := if is_anomalous e then noted (report_anomalous at_) acc.2 else acc.2 in
      let '(open_after, resolve_after) := thresholds at_ in
      dw <- apply_hysteresis open_after resolve_after m e in_maintenance (state_of acc.1 at_) w ;;
      Ok (<[AnomalyType_value at_ := dw.1]> acc.1, dw.2)) (states, with_report r w) evidences.
End Engine.
