(* ===== verification/EngineContext.v ===== *)
(** * The context of a bucket

    [_build_context] and the reads under it ([anomaly/engine.py]): what a detector is shown of
    one bucket. [metrics] are the source's rows in bucket order, [baselines] its cells;
    [thresholds] are the source's, resolved without a type and read at their types. *)

From S2P Require Import Prelude PyStr PyFloat PyTime PyJson Enums Statistics Seasonal BusinessHours Detectors Baseline OutagePolicy AnomalyLifecycle AlertService AnomalyEngine Capabilities.

(** What the engine reads of the source here. *)
Record ContextSource := { cs_hours : BusinessHours; cs_expected_interval_seconds : option Z }.

Definition SIGNATURE_LIMIT : Z := 6.
Definition EMPTY_LIMIT : Z := 12.

(** [_recent_signatures]: the last rows before the bucket that have one, oldest first. *)
Definition recent_signatures (metrics : list MetricRow) (before : datetime) : list string :=
  omap mr_payload_signature
    (last_n SIGNATURE_LIMIT
       (filter (λ m, dt_us (mr_bucket_start m) < dt_us before ∧ is_Some (mr_payload_signature m)) metrics)).

(** The streak of [_preceding_empty_buckets], newest row first. *)
Fixpoint empty_streak (newest_first : list MetricRow) : Z :=
  match newest_first with
  | m :: rest => if negb (is_complete m) || (0 <? mr_event_count m) then 0 else 1 + empty_streak rest
  | [] => 0
  end.

Definition preceding_empty_buckets (metrics : list MetricRow) (before : datetime) : Z :=
  empty_streak (rev (last_n EMPTY_LIMIT
    (filter (λ m, dt_us (mr_bucket_start m) < dt_us before ∧ is_live m = true) metrics))).

(** [_baseline_cells] *)
Definition cell_of (row : BaselineRow) : BaselineCell :=
  {| bc_median := cs_median (br_cell row); bc_mad := cs_mad (br_cell row); bc_p05 := Some (cs_p05 (br_cell row));
     bc_p95 := Some (cs_p95 (br_cell row)); bc_sample_count := cs_sample_count (br_cell row);
     bc_is_reliable := cs_is_reliable (br_cell row); bc_completeness := br_completeness row;
     bc_baseline_version := br_baseline_version row |}.

Definition baseline_cells (baselines : baseline_table) (weekday hour : Z) : gmap string BaselineCell :=
  list_to_map (omap (λ '((metric, w, h), row),
    if decide (w = weekday ∧ h = hour) then Some (metric, cell_of row) else None) (map_to_list baselines)).

Definition with_grace (grace : option Z) (t : Thresholds) : Thresholds :=
  match grace with
  | None => t
  | Some g =>
      {| th_deviation_z := th_deviation_z t; th_spike_ratio := th_spike_ratio t; th_drop_ratio := th_drop_ratio t;
         th_min_absolute_delta_events := th_min_absolute_delta_events t;
         th_min_bucket_events := th_min_bucket_events t; th_silence_grace_buckets := g;
         th_min_parsed_ratio := th_min_parsed_ratio t; th_max_unknown_ratio := th_max_unknown_ratio t;
         th_delay_interval_multiple := th_delay_interval_multiple t;
         th_cardinality_drop_fraction := th_cardinality_drop_fraction t;
         th_collection_error_threshold := th_collection_error_threshold t;
         th_repeated_payload_intervals := th_repeated_payload_intervals t; th_open_after := th_open_after t;
         th_resolve_after := th_resolve_after t |}
  end.

Definition point_of (m : MetricRow) : MetricPoint :=
  {| mp_interval_start := mr_bucket_start m; mp_interval_end := bucket_end m; mp_completeness := mr_completeness m;
     mp_event_count := mr_event_count m; mp_average_eps := mr_average_eps m; mp_peak_eps := mr_peak_eps m;
     mp_last_event_at := mr_last_event_at m; mp_event_delay_seconds := mr_event_delay_seconds m;
     mp_unknown_event_count := mr_unknown_event_count m; mp_stored_event_count := mr_stored_event_count m;
     mp_parsed_username_ratio := mr_parsed_username_ratio m; mp_parsed_source_ip_ratio := mr_parsed_source_ip_ratio m;
     mp_distinct_qid_count := mr_distinct_qid_count m; mp_distinct_username_count := mr_distinct_username_count m;
     mp_distinct_source_ip_count := mr_distinct_source_ip_count m;
     mp_collection_error_count := mr_collection_error_count m; mp_payload_signature := mr_payload_signature m |}.

(** [_build_context], with the sources warned so far about their business hours. *)
Definition build_context (zoneinfo : string → (Z → Z) + string) (so : ContextSource) (thresholds : Thresholds)
    (outage : ResolvedOutage) (baselines : baseline_table) (metrics : list MetricRow) (warned : gset N) (m : MetricRow)
    : result (DetectionContext * gset N) :=
  let cells := baseline_cells baselines (dt_isoweekday (mr_bucket_start m)) (dt_hour (mr_bucket_start m)) in
  let recent := recent_signatures metrics (mr_bucket_start m) in
  let thresholds := with_grace (ro_silence_grace_buckets outage) thresholds in
  expected <- float_of_int (or_int (cs_expected_interval_seconds so) (or_int (Some (mr_bucket_seconds m)) 300)) ;;
  let '(active, warned, _) := is_expected_active zoneinfo (cs_hours so) (mr_bucket_start m) warned in
  Ok ({| cx_point := point_of m; cx_baselines := cells; cx_thresholds := thresholds;
         cx_expected_interval_seconds := expected; cx_recent_signatures := recent; cx_is_expected_active := active;
         cx_preceding_empty_buckets := preceding_empty_buckets metrics (mr_bucket_start m) |}, warned).

(** * Judging one stored bucket

    [evaluate_interval] of [anomaly/engine.py] from the rows it loads to the rows it writes:
    the context, the detectors, what the bucket measured, the hysteresis. [resolved] is
    [ThresholdResolver.resolve] for this source, read at its types: [resolved None] is what
    the detectors compare with, [resolved (Some t)] gives the hysteresis of detector [t]. *)


(** What the engine writes over the buckets of the source: the detector states, the world of
    incidents and alerts, and the sources warned about their business hours. *)
Record SourceWorld := { sw_states : gmap string DetectorState; sw_world : World; sw_warned : gset N }.

Section Detect.
Context (clock : nat → datetime) (fingerprint : AnomalyType → string) (zoneinfo : string → (Z → Z) + string).
Context (settings : EngineSettings) (mad_floor_ratio : float).
Context (so : Source) (cso : ContextSource) (resolved : option AnomalyType → Thresholds) (outage : ResolvedOutage).
Context (baselines : baseline_table) (metrics : list MetricRow).

Definition metric_of (m : MetricRow) : Metric :=
  {| mt_bucket_start := mr_bucket_start m; mt_bucket_seconds := mr_bucket_seconds m |}.

Definition hysteresis_thresholds (t : AnomalyType) : Z * Z :=
  (th_open_after (resolved (Some t)), th_resolve_after (resolved (Some t))).

Definition evaluate_bucket (m : MetricRow) (s : SourceWorld) : result (EvaluationReport * SourceWorld) :=
  let interval unmet verdicts warned :=
    r <- evaluate_interval clock fingerprint settings so hysteresis_thresholds unmet verdicts (metric_of m)
           (sw_states s) (sw_world s) ;;
    Ok (w_report r.2, {| sw_states := r.1; sw_world := r.2; sw_warned := warned |}) in
  if negb (so_monitoring_enabled so) then interval (λ _, None) [] (sw_warned s)
  else
    _ <- source_in_maintenance so (mr_bucket_start m) ;;
    cx <- build_context zoneinfo cso (resolved None) outage baselines metrics (sw_warned s) m ;;
    telemetry <- bucket_telemetry (mr_collection_source m) (mr_query_provenance m) ;;
    verdicts <- detect_all mad_floor_ratio cx.1 ;;
    interval (λ t, unmet_requirement t telemetry) verdicts cx.2.
End Detect.
