(* ===== verification/EngineRun.v ===== *)
(** * Facts on the anomaly engine

    The incident table and the detector state stay coherent: the state names the one live
    incident of its detector, and the incident says what the state says. *)

From S2P Require Import Prelude PyStr PyFloat PyTime PyJson Enums AnomalyLifecycle AlertService AnomalyEngine Runs AlertFacts.

(** The columns of an incident that say where it is in its life. *)
Definition life_of (i : Incident) : AnomalyType * AnomalyState * option datetime :=
  (ic_anomaly_type i, ic_state i, ic_resolved_at i).

Definition opened_state (s : AnomalyState) : bool := bool_decide (s ∈ [AS_OPEN; AS_RECOVERING]).

(** The detector's state names the one live incident of its type, and they agree. *)
Record coherent (t : AnomalyType) (d : DetectorState) (l : list Incident) : Prop := {
  co_unique : ∀ j i, l !! j = Some i → ic_anomaly_type i = t → active_state (ic_state i) = true →
    ds_active_anomaly_id d = Some j;
  co_active : ∀ id, ds_active_anomaly_id d = Some id → active_state (ds_state d) = true ∧
    ∃ i, l !! id = Some i ∧ life_of i = (t, ds_state d, None);
  co_none : ds_active_anomaly_id d = None → active_state (ds_state d) = false;
  co_open : ds_is_open d = opened_state (ds_state d);
  co_open_id : ds_is_open d = true → ds_open_anomaly_id d = ds_active_anomaly_id d }.

(** The two tables agree on every incident of another type. *)
Definition same_elsewhere (t : AnomalyType) (l l' : list Incident) : Prop :=
  ∀ j i, ic_anomaly_type i ≠ t → l !! j = Some i ↔ l' !! j = Some i.

Lemma same_elsewhere_refl t l : same_elsewhere t l l.
Proof. done. Qed.

Lemma same_elsewhere_trans t l1 l2 l3 : same_elsewhere t l1 l2 → same_elsewhere t l2 l3 → same_elsewhere t l1 l3.
Proof. intros H1 H2 j i Hi. rewrite (H1 j i Hi). by apply H2. Qed.

Lemma same_elsewhere_alter t l id f : (∀ i, l !! id = Some i → ic_anomaly_type i = t ∧ ic_anomaly_type (f i) = t) →
  same_elsewhere t l (alter f id l).
Proof.
  intros Hf j i Hi. rewrite list_lookup_alter. destruct (decide (id = j)) as [<-|]; [|done].
  destruct (l !! id) as [x|] eqn:E; [|done]. destruct (Hf x eq_refl) as [H1 H2]. cbn.
  split; intros [= <-]; congruence.
Qed.

Lemma same_elsewhere_snoc t l x : ic_anomaly_type x = t → same_elsewhere t l (l ++ [x]).
Proof.
  intros Hx j i Hi. split; intros H; [by apply lookup_app_l_Some|].
  apply lookup_app_Some in H as [H|[_ H]]; [done|]. apply list_lookup_singleton_Some in H as [_ <-]. done.
Qed.

Lemma coherent_elsewhere t t' d l l' : t' ≠ t → same_elsewhere t l l' → coherent t' d l → coherent t' d l'.
Proof.
  intros Hne Hs [H1 H2 H3 H4 H5]. split; try done.
  - intros j i Hj Ht. apply H1; [|done]. apply Hs; [|done]. by rewrite Ht.
  - intros id Hid. destruct (H2 id Hid) as (Ha & i & Hi & Hl). split; [done|]. exists i. split; [|done].
    apply Hs; [|done]. unfold life_of in Hl. injection Hl as -> _ _. done.
Qed.

(** Incidents whose life does not change. *)
Definition kept (t : AnomalyType) (l l' : list Incident) : Prop :=
  (life_of <$> l') = (life_of <$> l) ∧ same_elsewhere t l l'.

Lemma kept_refl t l : kept t l l.
Proof. done. Qed.

Lemma kept_trans t l1 l2 l3 : kept t l1 l2 → kept t l2 l3 → kept t l1 l3.
Proof. intros [H1 H2] [H3 H4]. split; [congruence|by eapply same_elsewhere_trans]. Qed.

Lemma kept_alter t l id f : (∀ i, life_of (f i) = life_of i) → (∀ i, l !! id = Some i → ic_anomaly_type i = t) →
  kept t l (alter f id l).
Proof.
  intros Hf Ht. split.
  - apply list_eq. intros j. rewrite !list_lookup_fmap, list_lookup_alter.
    destruct (decide (id = j)) as [->|]; [|done]. destruct (l !! j); cbn; [by rewrite Hf|done].
  - apply same_elsewhere_alter. intros i Hi. split; [by apply Ht|].
    specialize (Hf i). unfold life_of in Hf. injection Hf as -> _ _. by apply Ht.
Qed.

Lemma kept_coherent t d l l' : kept t l l' → coherent t d l → coherent t d l'.
Proof.
  intros [Hl _] [H1 H2 H3 H4 H5].
  assert (Hget : ∀ j i', l' !! j = Some i' → ∃ i, l !! j = Some i ∧ life_of i = life_of i').
  { intros j i' Hj. apply (f_equal (λ x, x !! j)) in Hl. rewrite !list_lookup_fmap, Hj in Hl.
    destruct (l !! j) as [i|]; [|done]. cbn in Hl. apply (inj Some) in Hl. by exists i. }
  assert (Hget' : ∀ j i, l !! j = Some i → ∃ i', l' !! j = Some i' ∧ life_of i' = life_of i).
  { intros j i' Hj. apply (f_equal (λ x, x !! j)) in Hl. rewrite !list_lookup_fmap, Hj in Hl.
    destruct (l' !! j) as [i|]; [|done]. cbn in Hl. apply (inj Some) in Hl. by exists i. }
  split; try done.
  - intros j i' Hj Ht Ha. destruct (Hget j i' Hj) as (i & Hi & E). unfold life_of in E. injection E as E1 E2 _.
    apply (H1 j i); congruence.
  - intros id Hid. destruct (H2 id Hid) as (Ha & i & Hi & E). split; [done|].
    destruct (Hget' id i Hi) as (i' & Hi' & E'). exists i'. split; [done|]. congruence.
Qed.

(** ** Lifecycle moves *)

(** The moves the lifecycle makes, by target. *)
Definition may_move (previous target : AnomalyState) (suppressed : bool) : bool :=
  match target with
  | AS_CANDIDATE => bool_decide (previous ∈ [AS_NORMAL; AS_INSUFFICIENT_DATA; AS_RESOLVED])
  | AS_OPEN => bool_decide (previous ∈ [AS_NORMAL; AS_INSUFFICIENT_DATA; AS_RESOLVED; AS_CANDIDATE; AS_RECOVERING])
  | AS_RECOVERING => bool_decide (previous = AS_OPEN)
  | AS_RESOLVED => bool_decide (previous ∈ [AS_OPEN; AS_RECOVERING])
  | AS_SUPPRESSED => suppressed
  | AS_NORMAL => bool_decide (previous ∈ [AS_SUPPRESSED; AS_CANDIDATE; AS_INSUFFICIENT_DATA; AS_RESOLVED])
  | AS_INSUFFICIENT_DATA => bool_decide (previous = AS_NORMAL)
  end.

Lemma next_state_may inp : ld_state (next_state inp) ≠ li_state inp →
  may_move (li_state inp) (ld_state (next_state inp)) (li_suppressed inp) = true.
Proof.
  unfold next_state. destruct (li_suppressed inp).
  - destruct (decide _); [done|]. intros _. done.
  - destruct (li_state inp), (li_insufficient_data inp), (li_signal inp);
      unfold on_anomalous, on_healthy; cbn; repeat case_match; cbn; try done.
Qed.

(** A state moves to OPEN only on an abnormal verdict. *)
Lemma next_state_opens inp : ld_state (next_state inp) = AS_OPEN → ld_state (next_state inp) ≠ li_state inp →
  li_signal inp = DS_ANOMALOUS.
Proof.
  unfold next_state. destruct (li_suppressed inp); [by destruct (decide _)|].
  destruct (li_state inp), (li_insufficient_data inp), (li_signal inp);
    unfold on_anomalous, on_healthy; cbn; repeat case_match; cbn; done.
Qed.

(** ** The operations on incidents *)

Section Ops.
Context (clock : nat → datetime) (fingerprint : AnomalyType → string).
Context (settings : EngineSettings) (so : Source) (t : AnomalyType).

Lemma active_anomaly_spec w d id : active_anomaly w d = Some id →
  ds_active_anomaly_id d = Some id ∧ is_Some (w_incidents w !! id).
Proof.
  unfold active_anomaly. destruct (ds_active_anomaly_id d) as [id'|]; [|done].
  destruct (decide _); [|done]. by intros [= <-].
Qed.

Lemma active_anomaly_coherent w d : coherent t d (w_incidents w) → active_anomaly w d = ds_active_anomaly_id d.
Proof.
  intros Hc. unfold active_anomaly. destruct (ds_active_anomaly_id d) as [id|] eqn:E; [|done].
  destruct (co_active _ _ _ Hc id E) as (_ & i & Hi & _). rewrite decide_True; [done|]. by exists i.
Qed.

(** The active incident, when the state names one of this type. *)
Definition names (d : DetectorState) (l : list Incident) : Prop :=
  ∀ id i, ds_active_anomaly_id d = Some id → l !! id = Some i → ic_anomaly_type i = t.

Lemma coherent_names d l : coherent t d l → names d l.
Proof.
  intros Hc id i Hid Hi. destruct (co_active _ _ _ Hc id Hid) as (_ & x & Hx & Hl).
  rewrite Hi in Hx. injection Hx as <-. unfold life_of in Hl. by injection Hl.
Qed.

Lemma touch_kept d m e w w' : names d (w_incidents w) → touch_anomaly d m e w = Ok w' →
  kept t (w_incidents w) (w_incidents w') ∧ w_alerts w' = w_alerts w ∧ w_queue w' = w_queue w ∧ w_moves w' = w_moves w.
Proof.
  intros Hn. unfold touch_anomaly. destruct (active_anomaly w d) as [id|] eqn:Ea; [|intros [= <-]; by split_and!].
  apply active_anomaly_spec in Ea as [Ea _].
  set (f1 := λ i, with_measures (ic_anomaly_end i) _ _ _ _ _ _ _ _ i).
  assert (K1 : kept t (w_incidents w) (alter f1 id (w_incidents w))).
  { apply kept_alter; [done|]. intros i Hi. by eapply Hn. }
  destruct (is_anomalous e); [|intros [= <-]; by split_and!].
  set (f2 := λ i, with_measures _ _ _ _ _ _ _ _ _ i).
  assert (K2 : kept t (w_incidents w) (alter f2 id (alter f1 id (w_incidents w)))).
  { eapply kept_trans; [exact K1|]. apply kept_alter; [done|]. intros i Hi. rewrite list_lookup_alter_eq in Hi.
    apply fmap_Some in Hi as (x & Hx & ->). cbn. by eapply Hn. }
  cbn [with_incident with_incidents w_incidents].
  destruct (ev_observed_value e) as [observed|]; [|intros [= <-]; by split_and!].
  destruct (alter f2 id _ !! id) as [i|] eqn:Ei; [|intros [= <-]; by split_and!].
  destruct (is_worse i observed); [|intros [= <-]; by split_and!].
  intros H. bind_inv H. bind_inv H. bind_inv H. injection H as <-. cbn [with_incident with_incidents w_incidents w_alerts w_queue w_moves].
  split_and!; try done. eapply kept_trans; [exact K2|].
  match goal with |- kept t ?l (alter ?f id ?l) =>
    replace (alter f id l) with (alter (λ x, with_measures
      (Some (dt_add (mt_bucket_start m) (td_seconds (mt_bucket_seconds m)))) (ic_consecutive_buckets i) (Some observed)
      (ev_deviation_score e) r r0 r1 (Some (ev_reason e)) (to_dict e) x) id l) by done end.
  apply kept_alter; [done|]. intros x Hx. rewrite !list_lookup_alter_eq in Hx.
  apply fmap_Some in Hx as (y & Hy & ->). apply fmap_Some in Hy as (z & Hz & ->). cbn. by eapply Hn.
Qed.

Lemma refresh_incidents e d b w w' : refresh clock fingerprint so e d b w = Ok w' →
  w_incidents w' = w_incidents w ∧ w_queue w' = w_queue w ∧ w_moves w' = w_moves w.
Proof.
  unfold refresh. destruct b; [by intros [= <-]|]. destruct (record_only so e); [by intros [= <-]|].
  intros H. bind_inv H. by injection H as <-.
Qed.

Lemma create_incident_inv m e b w id w' : ev_anomaly_type e = t → create_incident settings m e b w = Ok (id, w') →
  id = length (w_incidents w) ∧ w_alerts w' = w_alerts w ∧ w_queue w' = w_queue w ∧
  ∃ i, w_incidents w' = w_incidents w ++ [i] ∧ life_of i = (t, AS_CANDIDATE, None).
Proof.
  intros <-. unfold create_incident. intros H. do 4 bind_inv H. injection H as <- <-. split_and!; try done.
  by eexists.
Qed.

Lemma notify_incidents r w : w_incidents (notify settings r w) = w_incidents w ∧
  w_alerts (notify settings r w) = w_alerts w ∧ w_moves (notify settings r w) = w_moves w.
Proof. unfold notify. destruct (ar_transition r); [|done]. by destruct (es_has_enqueuer settings). Qed.

(** What [promote_to_open] does to the incidents: the named one opens. *)
Lemma promote_incidents m e d id b w d' w' : ev_anomaly_type e = t → ds_active_anomaly_id d = Some id →
  names d (w_incidents w) → promote_to_open clock fingerprint settings so m e d id b w = Ok (d', w') →
  d' = set_ids true (Some id) (Some id) d ∧
  ∃ f, (∀ i, ic_anomaly_type (f i) = ic_anomaly_type i ∧ ic_state (f i) = AS_OPEN ∧ ic_resolved_at (f i) = ic_resolved_at i) ∧
    kept t (alter f id (w_incidents w)) (w_incidents w').
Proof.
  intros Ht Hid Hn. unfold promote_to_open. set (f := λ i, with_life _ _ _ _ _ i).
  intros H. bind_inv H.
  assert (Hn' : names d (alter f id (w_incidents w))).
  { intros j i Hj Hi. rewrite list_lookup_alter in Hi. destruct (decide (id = j)) as [->|]; [|by eapply Hn].
    apply fmap_Some in Hi as (x & Hx & ->). cbn. by eapply Hn. }
  apply touch_kept in E as (Hk & _); [|exact Hn'].
  assert (Hex : ∀ w1, w_incidents w1 = w_incidents r → ∀ c : bool,
    kept t (alter f id (w_incidents w)) (w_incidents (if c then with_incident id (λ i, with_flags ES_PENDING
      (ic_suppressed i) (ic_suppression_reason i) i) w1 else w1))).
  { intros w1 Hw c. destruct c; [|by rewrite Hw]. cbn [with_incident with_incidents w_incidents]. rewrite Hw.
    eapply kept_trans; [exact Hk|]. apply kept_alter; [done|]. intros i Hi.
    destruct Hk as [Hl _]. apply (f_equal (λ x, x !! id)) in Hl. rewrite !list_lookup_fmap, Hi in Hl.
    symmetry in Hl. apply fmap_Some in Hl as (x & Hx & Hl). unfold life_of in Hl. injection Hl as E1 _ _.
    rewrite E1. exact (Hn' id x Hid Hx). }
  set (c := es_explanation_enabled settings && _ && _) in *. specialize (Hex (noted (report_opened (ev_anomaly_type e)) r) eq_refl c).
  assert (Hf : ∀ i, ic_anomaly_type (f i) = ic_anomaly_type i ∧ ic_state (f i) = AS_OPEN ∧ ic_resolved_at (f i) = ic_resolved_at i) by done.
  destruct b; [injection H as <- <-; split; [done|]; by exists f|].
  destruct (record_only so e); [injection H as <- <-; split; [done|]; by exists f|].
  bind_inv H. injection H as <- <-. split; [done|]. exists f. split; [done|].
  by rewrite (proj1 (notify_incidents _ _)).
Qed.

Lemma resolve_incidents e d anomaly w d' w' : resolve_incident clock fingerprint settings e d anomaly w = Ok (d', w') →
  d' = set_ids false None None d ∧
  w_incidents w' = match anomaly with
    | Some id => alter (λ i, match ic_resolved_at i with
                             | None => with_life AS_RESOLVED (ic_severity i) (ic_opened_at i) (ic_anomaly_end i)
                                         (Some (engine_now clock w)) i
                             | Some _ => i
                             end) id (w_incidents w)
    | None => w_incidents w
    end.
Proof.
  unfold resolve_incident. intros H. bind_inv H. injection H as <- <-. split; [done|].
  assert (Hw : ∀ (x : option AlertResult) w1, w_incidents (match x with Some res => notify settings res w1 | None => w1 end) = w_incidents w1).
  { intros [x|] w1; [|done]. by rewrite (proj1 (notify_incidents _ _)). }
  rewrite Hw. cbn [with_alerts w_incidents noted with_report]. destruct anomaly as [id|]; [|done].
  destruct (w_incidents w !! id) as [i|] eqn:Ei.
  - destruct (ic_resolved_at i) eqn:Er; cbn [with_incident with_incidents w_incidents engine_ticked with_alerts].
    + rewrite <-(list_alter_id (λ x, x) (w_incidents w) id) at 1 by done. apply list_alter_ext; [|done].
      intros x Hx. rewrite Ei in Hx. injection Hx as <-. by rewrite Er.
    + apply list_alter_ext; [|done]. intros x Hx. rewrite Ei in Hx. injection Hx as <-. by rewrite Er.
  - symmetry. apply list_eq. intros j. rewrite list_lookup_alter. destruct (decide (id = j)) as [<-|]; [|done]. by rewrite Ei.
Qed.
End Ops.

(** ** Coherence *)

(** The flags of a state agree with it. *)
Definition flags_ok (d : DetectorState) : Prop :=
  ds_is_open d = opened_state (ds_state d) ∧ (ds_is_open d = true → ds_open_anomaly_id d = ds_active_anomaly_id d).

(** The live incident moves with the state. *)
Lemma coherent_move t d d' l id f : coherent t d l → ds_active_anomaly_id d = Some id →
  (∀ i, life_of i = (t, ds_state d, None) → life_of (f i) = (t, ds_state d', None)) →
  ds_active_anomaly_id d' = Some id → active_state (ds_state d') = true → flags_ok d' → coherent t d' (alter f id l).
Proof.
  intros Hc Hid Hf Hid' Ha [Hf1 Hf2]. destruct (co_active _ _ _ Hc id Hid) as (_ & i & Hi & Hl). split; try done.
  - intros j x Hj Ht Hx. rewrite list_lookup_alter in Hj. destruct (decide (id = j)) as [<-|Hne]; [done|].
    pose proof (co_unique _ _ _ Hc j x Hj Ht Hx). congruence.
  - intros id' E. rewrite Hid' in E. injection E as <-. split; [done|]. exists (f i).
    rewrite list_lookup_alter_eq, Hi. split; [done|]. by apply Hf.
  - congruence.
Qed.

(** The live incident ends. *)
Lemma coherent_end t d d' l id f : coherent t d l → ds_active_anomaly_id d = Some id →
  (∀ i, life_of i = (t, ds_state d, None) → ic_anomaly_type (f i) = t ∧ active_state (ic_state (f i)) = false) →
  ds_active_anomaly_id d' = None → active_state (ds_state d') = false → flags_ok d' → coherent t d' (alter f id l).
Proof.
  intros Hc Hid Hf Hid' Ha [Hf1 Hf2]. destruct (co_active _ _ _ Hc id Hid) as (_ & i & Hi & Hl). split; try done.
  - intros j x Hj Ht Hx. rewrite list_lookup_alter in Hj. destruct (decide (id = j)) as [<-|Hne].
    + rewrite Hi in Hj. injection Hj as <-. destruct (Hf i Hl). congruence.
    + pose proof (co_unique _ _ _ Hc j x Hj Ht Hx). congruence.
  - congruence.
Qed.

(** No incident is live and none becomes so. *)
Lemma coherent_quiet t d d' l : coherent t d l → ds_active_anomaly_id d = None →
  ds_active_anomaly_id d' = None → active_state (ds_state d') = false → flags_ok d' → coherent t d' l.
Proof.
  intros Hc Hid Hid' Ha [Hf1 Hf2]. split; try done; [|congruence].
  intros j x Hj Ht Hx. pose proof (co_unique _ _ _ Hc j x Hj Ht Hx). congruence.
Qed.

(** A new incident. *)
Lemma coherent_new t d d' l x : coherent t d l → ds_active_anomaly_id d = None →
  life_of x = (t, ds_state d', None) → ds_active_anomaly_id d' = Some (length l) →
  active_state (ds_state d') = true → flags_ok d' → coherent t d' (l ++ [x]).
Proof.
  intros Hc Hid Hx Hid' Ha [Hf1 Hf2]. split; try done.
  - intros j y Hj Ht Hy. apply lookup_app_Some in Hj as [Hj|[Hge Hj]].
    + pose proof (co_unique _ _ _ Hc j y Hj Ht Hy). congruence.
    + apply list_lookup_singleton_Some in Hj as [Hj _]. rewrite Hid'. f_equal. lia.
  - intros id E. rewrite Hid' in E. injection E as <-. split; [done|]. exists x.
    by rewrite lookup_app_r, Nat.sub_diag.
  - congruence.
Qed.

(** A state that is not active names no incident, and an active one names a live incident. *)
Lemma coherent_inactive t d l : coherent t d l → active_state (ds_state d) = false → ds_active_anomaly_id d = None.
Proof.
  intros Hc Ha. destruct (ds_active_anomaly_id d) as [id|] eqn:E; [|done].
  destruct (co_active _ _ _ Hc id E) as [? _]. congruence.
Qed.

Lemma coherent_live t d l : coherent t d l → active_state (ds_state d) = true →
  ∃ id, ds_active_anomaly_id d = Some id ∧ ∀ i, l !! id = Some i → life_of i = (t, ds_state d, None).
Proof.
  intros Hc Ha. destruct (ds_active_anomaly_id d) as [id|] eqn:E; [|rewrite (co_none _ _ _ Hc E) in Ha; done].
  exists id. split; [done|]. destruct (co_active _ _ _ Hc id E) as (_ & i & Hi & Hl). intros x Hx. congruence.
Qed.

Lemma quiet_flags t d l : coherent t d l → active_state (ds_state d) = false → ds_is_open d = false.
Proof. intros Hc Ha. rewrite (co_open _ _ _ Hc). by destruct (ds_state d). Qed.

Section Step.
Context (clock : nat → datetime) (fingerprint : AnomalyType → string).
Context (settings : EngineSettings) (so : Source) (t : AnomalyType).

(** The incident a first abnormal bucket records. *)
Lemma candidate_coherent d l i : coherent t d l → active_state (ds_state d) = false →
  life_of i = (t, AS_CANDIDATE, None) →
  coherent t (set_ids (ds_is_open d) (ds_open_anomaly_id d) (Some (length l)) (set_state AS_CANDIDATE d)) (l ++ [i]).
Proof.
  intros Hc Ha Hl. pose proof (coherent_inactive _ _ _ Hc Ha) as Hn. pose proof (quiet_flags _ _ _ Hc Ha) as Hq.
  eapply coherent_new; [exact Hc|done|done|done|done|]. split; cbn; rewrite Hq; done.
Qed.

(** The incident opens, or opens again. *)
Lemma open_coherent m e d id b w w1 d' w' : ev_anomaly_type e = t → coherent t d (w_incidents w) →
  (match ds_active_anomaly_id d with
   | Some id => Ok (id, w)
   | None => create_incident settings m e b w
   end) = Ok (id, w1) →
  promote_to_open clock fingerprint settings so m e
    (set_ids (ds_is_open d) (ds_open_anomaly_id d) (Some id) (set_state AS_OPEN d)) id b w1 = Ok (d', w') →
  ds_state d' = AS_OPEN ∧ coherent t d' (w_incidents w') ∧ same_elsewhere t (w_incidents w) (w_incidents w').
Proof.
  intros Ht Hc E E0. destruct (ds_active_anomaly_id d) as [id0|] eqn:Ea.
  - injection E as <- <-. pose proof (coherent_names t d _ Hc) as Hn.
    apply (promote_incidents clock fingerprint settings so t) in E0 as (-> & f & Hf & Hk); [|done|done|].
    2: { intros j i Hj Hi. cbn in Hj. injection Hj as <-. by eapply Hn. }
    split; [done|]. split.
    + eapply kept_coherent; [exact Hk|]. eapply coherent_move; [exact Hc|exact Ea| |done|done|by split].
      intros i Hi. destruct (Hf i) as (F1 & F2 & F3). unfold life_of in *. injection Hi as E1 E2 E3. cbn. congruence.
    + eapply same_elsewhere_trans; [|apply Hk]. apply same_elsewhere_alter. intros i Hi. pose proof (Hn _ _ Ea Hi).
      split; [done|]. by rewrite (proj1 (Hf i)).
  - apply (create_incident_inv settings t) in E as (-> & _ & _ & i & Hi & Hl); [|done].
    assert (Hit : ic_anomaly_type i = t) by (unfold life_of in Hl; by injection Hl).
    apply (promote_incidents clock fingerprint settings so t) in E0 as (-> & f & Hf & Hk); [|done|done|].
    2: { intros j x Hj Hx. cbn in Hj. injection Hj as <-. rewrite Hi, lookup_app_r, Nat.sub_diag in Hx by done.
         by injection Hx as <-. }
    rewrite Hi in Hk. assert (Hal : alter f (length (w_incidents w)) (w_incidents w ++ [i]) = w_incidents w ++ [f i]).
    { rewrite <-(Nat.add_0_r (length _)), alter_app_r. done. }
    rewrite Hal in Hk. destruct (Hf i) as (F1 & F2 & F3). split; [done|]. split.
    + eapply kept_coherent; [exact Hk|]. eapply coherent_new; [exact Hc|done| |done|done|by split].
      unfold life_of in *. injection Hl as E1 E2 E3. cbn. congruence.
    + eapply same_elsewhere_trans; [|apply Hk]. apply same_elsewhere_snoc. congruence.
Qed.

(** The incident recovers: only from OPEN. *)
Lemma recovering_coherent d id l f : coherent t d l → ds_state d = AS_OPEN → ds_active_anomaly_id d = Some id →
  (∀ i, ic_anomaly_type (f i) = ic_anomaly_type i ∧ ic_state (f i) = AS_RECOVERING ∧ ic_resolved_at (f i) = ic_resolved_at i) →
  coherent t (set_state AS_RECOVERING d) (alter f id l).
Proof.
  intros Hc Hs Hid Hf. eapply coherent_move; [exact Hc|exact Hid| |exact Hid|done|].
  - intros i Hi. destruct (Hf i) as (F1 & F2 & F3). unfold life_of in *. injection Hi as E1 E2 E3. cbn. congruence.
  - pose proof (co_open _ _ _ Hc) as Ho. rewrite Hs in Ho. split; [done|]. intros _. by apply (co_open_id _ _ _ Hc).
Qed.

(** The incident ends: resolved, or a candidate that never opened. *)
Lemma ended_coherent d d' id l f : coherent t d l → ds_active_anomaly_id d = Some id →
  (∀ i, ic_resolved_at i = None → ic_anomaly_type (f i) = ic_anomaly_type i ∧ ic_state (f i) = ds_state d') →
  ds_active_anomaly_id d' = None → active_state (ds_state d') = false → ds_is_open d' = false →
  coherent t d' (alter f id l) ∧ same_elsewhere t l (alter f id l).
Proof.
  intros Hc Hid Hf Hn Ha Ho. split.
  - eapply coherent_end; [exact Hc|exact Hid| |done|done|].
    + intros i Hi. unfold life_of in Hi. injection Hi as E1 E2 E3. destruct (Hf i E3) as [-> ->]. done.
    + split; [|by rewrite Ho]. rewrite Ho. by destruct (ds_state d').
  - apply same_elsewhere_alter. intros i Hi. destruct (co_active _ _ _ Hc id Hid) as (_ & x & Hx & Hl).
    rewrite Hi in Hx. injection Hx as <-. unfold life_of in Hl. injection Hl as E1 E2 E3. destruct (Hf i E3) as [-> _]. done.
Qed.

Lemma transition_coherent m e d decision sup b w d' w' : ev_anomaly_type e = t →
  coherent t d (w_incidents w) →
  (ld_state decision ≠ ds_state d → may_move (ds_state d) (ld_state decision) sup = true) →
  (sup = true → active_state (ds_state d) = false) →
  apply_transition clock fingerprint settings so m e d decision b w = Ok (d', w') →
  ds_state d' = ld_state decision ∧ coherent t d' (w_incidents w') ∧ same_elsewhere t (w_incidents w) (w_incidents w').
Proof.
  intros Ht Hc Hmay Hsup. unfold apply_transition. set (w0 := noted _ w).
  change (w_incidents w) with (w_incidents w0) in Hc |- *. clearbody w0.
  destruct (decide (ld_state decision = ds_state d)) as [Heq|Hne].
  { destruct (decide (ds_state d = AS_OPEN)) as [Ho|]; [|by intros H; injection H as <- <-].
    intros H. bind_inv H. bind_inv H. injection H as <- <-. apply refresh_incidents in E as (Er & _).
    apply (touch_kept t) in E0 as (Hk & _); rewrite ?Er in *; [|by apply coherent_names].
    split; [done|]. split; [by eapply kept_coherent|apply Hk]. }
  specialize (Hmay Hne). set (target := ld_state decision) in *.
  destruct (decide (target = AS_CANDIDATE)) as [Hcand|Hnc].
  { intros H. bind_inv H. destruct r as [id w1]. cbn [fst snd] in H. injection H as <- <-.
    apply (create_incident_inv settings t) in E as (-> & _ & _ & i & Hi & Hl); [|done].
    rewrite Hcand in *. cbn [noted with_report w_incidents record_transition engine_ticked with_alerts]. rewrite Hi.
    split; [done|]. split; [|apply same_elsewhere_snoc; unfold life_of in Hl; by injection Hl].
    apply candidate_coherent; [done| |done]. by destruct (ds_state d). }
  change (active_anomaly w0 (set_state target d)) with (active_anomaly w0 d).
  rewrite (active_anomaly_coherent t) by done.
  destruct (decide (target = AS_OPEN)) as [Hopen|Hno].
  { intros H. bind_inv H. destruct r as [id w1]. cbn [fst snd] in H. bind_inv H. destruct r as [d2 w2].
    cbn [fst snd] in H. injection H as <- <-. rewrite Hopen in *. cbn [record_transition w_incidents engine_ticked with_alerts].
    by eapply open_coherent. }
  set (w1 := match ds_active_anomaly_id d with Some id => _ | None => w0 end).
  assert (Hw1 : w_incidents w1 = w_incidents w0) by (unfold w1; by destruct (ds_active_anomaly_id d)).
  clearbody w1. rewrite <-Hw1 in Hc |- *. clear Hw1 w0 Hne.
  destruct target eqn:Etar; try done; cbn [may_move] in Hmay.
  - (* no verdict possible *)
    apply bool_decide_eq_true in Hmay.
    assert (Hq : active_state (ds_state d) = false) by (by rewrite Hmay).
    rewrite (coherent_inactive _ _ _ Hc Hq). intros H. injection H as <- <-. split; [done|]. split; [|done].
    by eapply coherent_quiet; [exact Hc|by eapply coherent_inactive|..].
  - (* back to normal *)
    destruct (decide (ds_state d = AS_CANDIDATE)) as [Hcand|Hc2].
    + destruct (coherent_live _ _ _ Hc) as (id & Hid & _); [by rewrite Hcand|]. rewrite Hid.
      intros H. injection H as <- <-. split; [done|]. by apply (ended_coherent d).
    + assert (Hq : active_state (ds_state d) = false).
      { revert Hmay Hc2. by destruct (ds_state d). }
      rewrite (coherent_inactive _ _ _ Hc Hq). intros H. injection H as <- <-. split; [done|]. split; [|done].
      by eapply coherent_quiet; [exact Hc|by eapply coherent_inactive|..].
  - (* recovering *)
    apply bool_decide_eq_true in Hmay. destruct (coherent_live _ _ _ Hc) as (id & Hid & Hl); [by rewrite Hmay|].
    rewrite Hid. intros H. injection H as <- <-. split; [done|]. split; [by apply recovering_coherent|].
    apply same_elsewhere_alter. intros i Hi. cbn. specialize (Hl i Hi). unfold life_of in Hl. by injection Hl.
  - (* resolved *)
    intros H. apply resolve_incidents in H as [-> Hi]. rewrite Hi. split; [done|].
    destruct (coherent_live _ _ _ Hc) as (id & Hid & _).
    { revert Hmay. by destruct (ds_state d). }
    rewrite Hid. apply (ended_coherent d); try done. intros i Hr. by rewrite Hr.
  - (* suppressed *)
    specialize (Hsup Hmay). pose proof (coherent_inactive _ _ _ Hc Hsup) as Hn. rewrite Hn.
    intros H. injection H as <- <-. split; [done|]. split; [|done].
    by eapply coherent_quiet; [exact Hc|exact Hn|..].
Qed.

(** One bucket keeps a detector coherent and leaves the incidents of the others alone. *)
Lemma hysteresis_coherent o r m e b d w d' w' : ev_anomaly_type e = t → coherent t d (w_incidents w) →
  apply_hysteresis clock fingerprint settings so o r m e b d w = Ok (d', w') →
  coherent t d' (w_incidents w') ∧ same_elsewhere t (w_incidents w) (w_incidents w').
Proof.
  intros Ht Hc. unfold apply_hysteresis. intros H. bind_inv H. destruct r0; [by injection H as <- <-|].
  set (inp := {| li_state := _ |}) in H.
  apply (transition_coherent _ _ _ _ (li_suppressed inp)) in H as (_ & H); try done.
  - destruct Hc as [H1 H2 H3 H4 H5]. by split.
  - apply (next_state_may inp).
  - unfold inp. cbn. intros [_ Hs]%andb_true_iff. by apply negb_true_iff.
Qed.
End Step.

(** * A detector over a run of buckets

    What one bucket does to the counters, the state and the alert of one detector, and that
    it always returns. *)


(** The numbers the engine copies out of the evidence convert without overflow. *)
Definition facts_ok (e : AnomalyEvidence) : Prop :=
  (∀ k, k ∈ ["ratio"; "robust_z"; "absolute_delta_events"] → is_ok (as_float (dict_get (ev_extra e) k))) ∧
  is_ok (as_int (dict_get (ev_extra e) "baseline_version")).

Section Run.
Context (clock : nat → datetime) (fingerprint : AnomalyType → string).
Context (settings : EngineSettings) (so : Source) (t : AnomalyType).

(** ** It returns *)

Lemma open_returns data s : ∃ r s', open_or_update clock (λ rows, rows) data s = Ok (r, s').
Proof.
  unfold open_or_update. cbn [ticked as_rows]. destruct (find_active (as_rows s) (in_fingerprint data)) eqn:E; [by eauto|].
  unfold flush_new. cbn [raced as_rows new_alert al_dedup_key ticked]. rewrite E. by eauto.
Qed.

Lemma resolve_returns fp actor reason s : ∃ r s', resolve_by_fingerprint clock fp actor reason s = Ok (r, s').
Proof.
  unfold resolve_by_fingerprint. destruct (find_active (as_rows s) fp) eqn:E; [|by eauto].
  apply find_active_Some in E as (a & Ha & _ & Hl). unfold resolve. rewrite Ha, bool_decide_eq_false_2 by done. by eauto.
Qed.

Lemma facts_float e k : facts_ok e → k ∈ ["ratio"; "robust_z"; "absolute_delta_events"] →
  ∃ x, as_float (dict_get (ev_extra e) k) = Ok x.
Proof. intros [H _] Hk. by apply H. Qed.

Lemma touch_returns d m e w : facts_ok e → ∃ w', touch_anomaly d m e w = Ok w'.
Proof.
  intros Hf. unfold touch_anomaly. destruct (active_anomaly w d); [|by eauto].
  destruct (is_anomalous e); [|by eauto]. cbn zeta.
  destruct (facts_float e "ratio" Hf) as [a ->]; [by apply (bool_decide_unpack _)|].
  destruct (facts_float e "robust_z" Hf) as [b ->]; [by apply (bool_decide_unpack _)|].
  destruct (facts_float e "absolute_delta_events" Hf) as [c ->]; [by apply (bool_decide_unpack _)|].
  cbn [res_bind]. repeat case_match; by eauto.
Qed.

Lemma create_returns m e b w : facts_ok e → ∃ id w', create_incident settings m e b w = Ok (id, w').
Proof.
  intros Hf. unfold create_incident. cbn zeta. destruct Hf as [Hf [v Hv]].
  destruct (Hf "ratio") as [x ->]; [by apply (bool_decide_unpack _)|].
  destruct (Hf "robust_z") as [y ->]; [by apply (bool_decide_unpack _)|].
  destruct (Hf "absolute_delta_events") as [z ->]; [by apply (bool_decide_unpack _)|].
  rewrite Hv. cbn [res_bind]. by eauto.
Qed.

Lemma promote_returns m e d id b w : facts_ok e → ∃ d' w',
  promote_to_open clock fingerprint settings so m e d id b w = Ok (d', w').
Proof.
  intros Hf. unfold promote_to_open. cbn zeta. edestruct (touch_returns d m e) as [w1 ->]; [done|]. cbn [res_bind].
  destruct b; [by eauto|]. destruct (record_only so e); [by eauto|].
  edestruct open_returns as (r & s' & ->). by eauto.
Qed.

Lemma transition_returns m e d decision b w : facts_ok e → ∃ d' w',
  apply_transition clock fingerprint settings so m e d decision b w = Ok (d', w').
Proof.
  intros Hf. unfold apply_transition. cbn zeta. destruct (decide (ld_state decision = ds_state d)).
  { destruct (decide _); [|by eauto].
    assert (∀ w1, ∃ w', refresh clock fingerprint so e d b w1 = Ok w') as Hr.
    { intros w1. unfold refresh. destruct b; [by eauto|]. destruct (record_only so e); [by eauto|].
      edestruct open_returns as (r & s' & ->). by eauto. }
    edestruct Hr as [w1 ->]. cbn [res_bind]. edestruct (touch_returns d m e w1) as [w2 ->]; [done|]. by eauto. }
  destruct (decide _); [edestruct (create_returns m e b) as (id & w1 & ->); [done|]; by eauto|].
  destruct (decide _).
  { assert (Hc : ∀ (an : option nat) w1, ∃ c, (match an with Some id => Ok (id, w1) | None => create_incident settings m e b w1 end) = Ok c).
    { intros [id|] w1; [by eauto|]. destruct (create_returns m e b w1 Hf) as (id & w2 & ->). by eauto. }
    edestruct Hc as [c ->]. cbn [res_bind]. edestruct promote_returns as (d1 & w1 & ->); [done|]. by eauto. }
  destruct (ld_state decision); try (by eauto).
  unfold resolve_incident. edestruct resolve_returns as (r & s' & ->). by eauto.
Qed.

(** ** What it leaves of the state *)

Lemma transition_frame m e d decision b w d' w' :
  apply_transition clock fingerprint settings so m e d decision b w = Ok (d', w') →
  ds_state d' = ld_state decision ∧
  ds_consecutive_anomalous d' = ds_consecutive_anomalous d ∧
  ds_consecutive_healthy d' = ds_consecutive_healthy d ∧ ds_last_interval_start d' = ds_last_interval_start d.
Proof.
  unfold apply_transition. cbn zeta. destruct (decide (ld_state decision = ds_state d)) as [E|].
  { destruct (decide _); [|by intros H; injection H as <- _].
    intros H. bind_inv H. bind_inv H. by injection H as <- _. }
  destruct (decide (ld_state decision = AS_CANDIDATE)) as [->|]; [intros H; bind_inv H; by injection H as <- _|].
  destruct (decide (ld_state decision = AS_OPEN)) as [->|].
  { intros H. bind_inv H. bind_inv H. injection H as <- _. unfold promote_to_open in E0. cbn zeta in E0. bind_inv E0.
    destruct b; [by injection E0 as <-|]. destruct (record_only so e); [by injection E0 as <-|].
    bind_inv E0. by injection E0 as <-. }
  destruct (ld_state decision); try (by intros H; injection H as <- _).
  unfold resolve_incident. intros H. bind_inv H. by injection H as <- _.
Qed.

(** ** What it leaves of the alerts *)

Definition alert_live (w : World) : Prop := is_Some (find_active (as_rows (w_alerts w)) (fingerprint t)).

Lemma open_makes_live data s r s' : session_ok s → open_or_update clock (λ rows, rows) data s = Ok (r, s') →
  session_ok s' ∧ is_Some (find_active (as_rows s') (in_fingerprint data)).
Proof.
  intros Hs H. split; [eapply open_or_update_ok; [|exact Hs|exact H]; by intros rows|]. revert H.
  unfold open_or_update. cbn [ticked as_rows]. destruct (find_active (as_rows s) (in_fingerprint data)) as [i|] eqn:E.
  - intros H. injection H as _ <-. cbn [write with_rows as_rows ticked]. rewrite find_active_alter, E by done. by eexists.
  - unfold flush_new. cbn [raced as_rows new_alert al_dedup_key ticked]. rewrite E. intros H. injection H as _ <-.
    cbn [as_rows with_rows]. rewrite find_active_snoc. rewrite E, decide_True by done. by eexists.
Qed.

Lemma resolve_makes_quiet fp actor reason s r s' : session_ok s →
  resolve_by_fingerprint clock fp actor reason s = Ok (r, s') → session_ok s' ∧ find_active (as_rows s') fp = None.
Proof.
  intros Hs H. split; [by eapply resolve_by_fingerprint_ok|]. revert H.
  unfold resolve_by_fingerprint. destruct (find_active (as_rows s) fp) as [i|] eqn:E; [|intros H; by injection H as _ <-].
  destruct (find_active_Some _ _ _ E) as (a & Ha & Hk & Hl). unfold resolve.
  rewrite Ha, bool_decide_eq_false_2 by done. cbn [res_bind fst snd]. intros H. injection H as _ <-.
  apply find_active_None. intros j b Hj [Hkb Hlb]. cbn [write with_rows as_rows ticked] in Hj.
  rewrite list_lookup_alter in Hj. destruct (decide (i = j)) as [<-|Hne].
  - rewrite Ha in Hj. injection Hj as <-. by apply Hlb.
  - apply Hne. apply (proj1 Hs i j a b); [done..|congruence].
Qed.

(** The alert of the condition is active exactly when the incident is open or recovering. *)
Definition alert_follows (d : DetectorState) (w : World) : Prop :=
  session_ok (w_alerts w) ∧ (alert_live w ↔ opened_state (ds_state d) = true).

Lemma same_alerts d w s : as_rows s = as_rows (w_alerts w) → as_committed s = as_committed (w_alerts w) →
  alert_follows d w → alert_follows d (with_alerts s w).
Proof. intros H1 H2 [[Hs1 Hs2] Hl]. unfold alert_follows, alert_live, session_ok in *. cbn. by rewrite H1, H2. Qed.

Lemma follows_iff d d' w w' : w_alerts w' = w_alerts w → opened_state (ds_state d') = opened_state (ds_state d) →
  alert_follows d w → alert_follows d' w'.
Proof. intros Hw Ho. unfold alert_follows, alert_live. by rewrite Hw, Ho. Qed.

Lemma touch_alerts d m e w w' : touch_anomaly d m e w = Ok w' → w_alerts w' = w_alerts w.
Proof.
  unfold touch_anomaly. cbn zeta. destruct (active_anomaly w d); [|intros H; by injection H as <-].
  destruct (is_anomalous e); [|intros H; by injection H as <-].
  destruct (ev_observed_value e); [|intros H; by injection H as <-].
  destruct (w_incidents _ !! _); [|intros H; by injection H as <-].
  destruct (is_worse _ _); [|intros H; by injection H as <-].
  intros H. bind_inv H. bind_inv H. bind_inv H. by injection H as <-.
Qed.

(** An alert opened or refreshed leaves the condition live. *)
Lemma opened_follows d e id s r s' : ev_anomaly_type e = t → session_ok s → opened_state (ds_state d) = true →
  open_or_update clock (λ rows, rows) (alert_input fingerprint so e id) s = Ok (r, s') →
  ∀ w, w_alerts w = s' → alert_follows d w.
Proof.
  intros Ht Hs Ho H w <-. apply open_makes_live in H as [H1 H2]; [|done]. cbn in H2. rewrite Ht in H2.
  split; [done|]. by split.
Qed.

Lemma promote_follows m e d id w d' w' : ev_anomaly_type e = t → record_only so e = false →
  session_ok (w_alerts w) → opened_state (ds_state d) = true →
  promote_to_open clock fingerprint settings so m e d id false w = Ok (d', w') →
  opened_state (ds_state d') = true ∧ alert_follows d' w'.
Proof.
  intros Ht Hr Hs Ho. unfold promote_to_open. cbn zeta. intros H. bind_inv H. rewrite Hr in H. bind_inv H.
  injection H as <- <-. apply touch_alerts in E. destruct r0 as [r0 s0]. split; [done|].
  eapply opened_follows; [exact Ht| |done|exact E0|].
  - destruct (_ && _ && _); cbn [w_alerts with_incident with_incidents noted with_report]; rewrite E; exact Hs.
  - by rewrite (proj1 (proj2 (notify_incidents _ _ _))).
Qed.

(** A resolution leaves the condition quiet. *)
Lemma resolve_follows e d an w d' w' : ev_anomaly_type e = t → opened_state (ds_state d') = false →
  session_ok (w_alerts w) → resolve_incident clock fingerprint settings e d an w = Ok (d', w') → alert_follows d' w'.
Proof.
  intros Ht Ho Hs. unfold resolve_incident. set (w1 := match an with Some id => _ | None => w end).
  assert (Hw1 : session_ok (w_alerts w1)).
  { unfold w1. destruct an; [|done]. destruct (w_incidents w !! _); [|done]. by destruct (ic_resolved_at _). }
  intros H. bind_inv H. destruct r as [r s1]. injection H as _ <-.
  apply resolve_makes_quiet in E as [H1 H2]; [|exact Hw1]. rewrite Ht in H2.
  assert (Hw : ∀ (x : option AlertResult) w2, w_alerts (match x with Some res => notify settings res w2 | None => w2 end) = w_alerts w2).
  { intros [x|] w2; [|done]. by rewrite (proj1 (proj2 (notify_incidents _ _ _))). }
  unfold alert_follows, alert_live. rewrite Hw. cbn [w_alerts with_alerts fst snd]. rewrite H2, Ho.
  split; [done|]. split; [by intros []|done].
Qed.

Lemma transition_follows m e d decision sup b w d' w' : ev_anomaly_type e = t → record_only so e = false →
  (ld_state decision ≠ ds_state d → may_move (ds_state d) (ld_state decision) sup = true) →
  (sup = true → active_state (ds_state d) = false) →
  (ld_state decision ≠ ds_state d → ld_state decision = AS_OPEN → b = false) →
  apply_transition clock fingerprint settings so m e d decision b w = Ok (d', w') →
  alert_follows d w → alert_follows d' w'.
Proof.
  intros Ht Hr Hmay Hsup Hb H Hal. pose proof (transition_frame _ _ _ _ _ _ _ _ H) as (Hst & _).
  revert H. unfold apply_transition. cbn zeta.
  destruct (decide (ld_state decision = ds_state d)) as [E|Hne].
  { destruct (decide (ds_state d = AS_OPEN)) as [Hop|]; [|intros H; injection H as <- <-; by refine (follows_iff _ _ _ _ _ _ Hal)].
    intros H. bind_inv H. bind_inv H. injection H as <- <-. apply touch_alerts in E1.
    eapply follows_iff; [exact E1|done|]. unfold refresh in E0. rewrite Hr in E0.
    destruct b; [injection E0 as <-; by refine (follows_iff _ _ _ _ _ _ Hal)|]. bind_inv E0. injection E0 as <-. destruct r1 as [r1 s1].
    eapply opened_follows; [exact Ht| |by rewrite Hop|exact E2|done]. apply Hal. }
  specialize (Hmay Hne). specialize (Hb Hne).
  assert (Hmove : opened_state (ld_state decision) = opened_state (ds_state d) →
    ∀ w1, as_rows (w_alerts w1) = as_rows (w_alerts w) → as_committed (w_alerts w1) = as_committed (w_alerts w) →
    alert_follows d' w1).
  { intros Ho w1 H1 H2. eapply follows_iff with (w := with_alerts (w_alerts w1) w); [done|by rewrite Hst|].
    by apply same_alerts. }
  destruct (decide (ld_state decision = AS_CANDIDATE)) as [Hc|Hc].
  { intros H. bind_inv H. injection H as <- <-. destruct r as [id w1].
    apply (create_incident_inv settings t) in E as (_ & Ha & _); [|done]. cbn [fst snd].
    apply Hmove; [rewrite Hc in *; by destruct (ds_state d)| |]; cbn; by rewrite Ha. }
  destruct (decide (ld_state decision = AS_OPEN)) as [Hop|Hno].
  { rewrite (Hb Hop). intros H. bind_inv H. bind_inv H. injection H as <- <-. destruct r as [id w1], r0 as [d1 w2].
    assert (Hw1 : w_alerts w1 = w_alerts w).
    { destruct (active_anomaly _ _); [by injection E as _ <-|].
      by apply (create_incident_inv settings t) in E as (_ & -> & _). }
    cbn [fst snd] in *. apply promote_follows in E0 as [_ E0]; [by eapply same_alerts|done|done|rewrite Hw1; apply Hal|].
    by rewrite Hop. }
  assert (Hw0 : ∀ (an : option nat) w1, as_rows (w_alerts (match an with
    | Some id => record_transition clock id (ds_state d) (ld_state decision) m (ld_reason decision) e w1
    | None => w1 end)) = as_rows (w_alerts w1) ∧ as_committed (w_alerts (match an with
    | Some id => record_transition clock id (ds_state d) (ld_state decision) m (ld_reason decision) e w1
    | None => w1 end)) = as_committed (w_alerts w1)) by (by intros [id|] w1).
  set (w1 := match active_anomaly _ _ with Some id => record_transition _ _ _ _ _ _ _ _ | None => _ end).
  destruct (Hw0 (active_anomaly (noted (report_state (ev_anomaly_type e) (ld_state decision)) w)
    (set_state (ld_state decision) d)) (noted (report_state (ev_anomaly_type e) (ld_state decision)) w)) as [R1 R2].
  fold w1 in R1, R2. clearbody w1. cbn [noted with_report w_alerts] in R1, R2. clear Hw0.
  destruct (ld_state decision) eqn:Ed; try done; cbn [may_move] in Hmay.
  5: intros H; injection H as _ <-; specialize (Hsup Hmay); destruct (active_anomaly _ _);
    (apply Hmove; [by destruct (ds_state d)|exact R1|exact R2]).
  4: { intros H. eapply resolve_follows; [exact Ht|by rewrite Hst| |exact H]. split; rewrite ?R1, ?R2; apply Hal. }
  all: assert (Ho : opened_state (ld_state decision) = opened_state (ds_state d))
    by (rewrite Ed; revert Hmay Hne Hc; by destruct (ds_state d)); rewrite Ed in Ho.
  all: repeat case_match; intros H'; injection H' as _ <-; (apply Hmove; [exact Ho|exact R1|exact R2]).
Qed.

(** ** One bucket *)

(** The signal the lifecycle sees. *)
Definition seen_signal (e : AnomalyEvidence) (b : bool) : DetectorSignal :=
  if b && bool_decide (ev_signal e = DS_ANOMALOUS) then DS_UNKNOWN else ev_signal e.

Definition lifecycle_input (o r : Z) (m : Metric) (e : AnomalyEvidence) (b : bool) (d : DetectorState) : LifecycleInput :=
  let c := advance_counters (seen_signal e b) (ds_consecutive_anomalous d) (ds_consecutive_healthy d) in
  {| li_state := ds_state d; li_signal := seen_signal e b; li_consecutive_anomalous := c.1;
     li_consecutive_healthy := c.2; li_open_after := o; li_resolve_after := r;
     li_insufficient_data := ev_insufficient_data e;
     li_suppressed := b && negb (active_state (ds_state d)) |}.

(** The bucket is later than the ones already folded. *)
Definition fresh (d : DetectorState) (m : Metric) : Prop :=
  aware (mt_bucket_start m) ∧ ∀ l, ds_last_interval_start d = Some l → aware l ∧ dt_us l < dt_us (mt_bucket_start m).

Lemma fresh_not_folded d m : fresh d m → already_folded d m = Ok false.
Proof.
  intros [Ha Hl]. unfold already_folded. destruct (ds_last_interval_start d) as [l|]; [|done].
  destruct (Hl l eq_refl) as [Hal Hlt]. unfold dt_ge. rewrite dt_le_ok by (by rewrite Ha, Hal).
  by rewrite (proj2 (Z.leb_gt _ _) Hlt).
Qed.

(** A bucket judged now returns; the state and the counters are the lifecycle's. *)
Lemma hysteresis_step o r m e b d w : facts_ok e → fresh d m → ∃ d' w',
  apply_hysteresis clock fingerprint settings so o r m e b d w = Ok (d', w') ∧
  ds_state d' = ld_state (next_state (lifecycle_input o r m e b d)) ∧
  (ds_consecutive_anomalous d', ds_consecutive_healthy d') =
    advance_counters (seen_signal e b) (ds_consecutive_anomalous d) (ds_consecutive_healthy d) ∧
  ds_last_interval_start d' = Some (mt_bucket_start m).
Proof.
  intros Hf Hfr. unfold apply_hysteresis. rewrite fresh_not_folded by done. cbn [res_bind].
  edestruct transition_returns as (d' & w' & H); [exact Hf|]. exists d', w'. split; [exact H|].
  apply transition_frame in H as (H1 & H2 & H3 & H4). rewrite H1, H2, H3, H4. split; [done|]. split; [|done].
  cbn [set_last set_counters ds_consecutive_anomalous ds_consecutive_healthy].
  by destruct (advance_counters _ _ _).
Qed.

(** The alert follows the incident over one bucket. *)
Lemma hysteresis_follows o r m e b d w d' w' : ev_anomaly_type e = t → record_only so e = false →
  apply_hysteresis clock fingerprint settings so o r m e b d w = Ok (d', w') →
  alert_follows d w → alert_follows d' w'.
Proof.
  intros Ht Hr. unfold apply_hysteresis. intros H. bind_inv H. destruct r0; [by injection H as <- <-|].
  fold (seen_signal e b) in H. fold (lifecycle_input o r m e b d) in H.
  set (d1 := set_last _ _) in H. intros Hal.
  change {| li_state := ds_state d1; li_signal := _; li_consecutive_anomalous := _; li_consecutive_healthy := _;
            li_open_after := o; li_resolve_after := r; li_insufficient_data := _; li_suppressed := _ |}
    with (lifecycle_input o r m e b d) in H.
  eapply (transition_follows _ _ d1 _ (li_suppressed (lifecycle_input o r m e b d))); [exact Ht|exact Hr| | | |exact H|].
  - apply (next_state_may (lifecycle_input o r m e b d)).
  - cbn. intros [_ Hs]%andb_true_iff. by apply negb_true_iff.
  - intros Hne Ho. destruct b; [|done]. exfalso. apply (next_state_opens (lifecycle_input o r m e true d)) in Ho; [|exact Hne].
    revert Ho. unfold lifecycle_input, seen_signal. cbn. by destruct (ev_signal e).
  - by refine (follows_iff _ _ _ _ _ _ Hal).
Qed.
End Run.
