(* ===== verification/EnginePending.v ===== *)
(** * The evaluation loop of one source

    [evaluate_pending] of [anomaly/engine.py] and the fault bookkeeping around it, with the
    statements of [repositories/anomaly_faults.py] it uses. [judge] is [evaluate_interval]
    inside its savepoint: the state [W] it writes is kept only when it returns, a failure of
    the savepoint's own flush being one of its exceptions. A row of the fault table is one
    bucket's, named by the instant it starts; the rows are the source's own. [bookkeeping]
    says how the savepoint of the n-th failure record ends. The other statements succeed. *)

From S2P Require Import Prelude PyStr PyTime Enums AnomalyLifecycle AlertService AnomalyEngine Seasonal.

(** [type(exc).__name__] *)
Definition exn_class (e : exn) : string :=
  match e with
  | ValueError _ => "ValueError" | TypeError _ => "TypeError" | OverflowError _ => "OverflowError"
  | ZeroDivisionError _ => "ZeroDivisionError" | KeyError _ => "KeyError" | AttributeError _ => "AttributeError"
  | RuntimeError _ => "RuntimeError" | AssertionError _ => "AssertionError" | IntegrityError _ => "IntegrityError"
  | IndexError _ => "IndexError" | DBAPIError _ => "DBAPIError" | PwFactError _ => "PwFactError" | PwFoldError _ => "PwFoldError"
  | HTTPException _ _ => "HTTPException" | AuthenticationRequired => "AuthenticationRequired" | PlannerInputError _ => "PlannerInputError"
  | IllegalTransitionError _ => "IllegalTransitionError" | LifecycleError _ => "LifecycleError"
  | ProgressCodecError _ => "ProgressCodecError"
  end.

(** ** Rows *)

Record Watermark := { wm_evaluated_through : datetime; wm_updated_at : datetime }.

Record Fault := {
  ft_attempts : Z; ft_first_failed_at : datetime; ft_last_failed_at : datetime; ft_error_class : string;
  ft_given_up_at : option datetime; ft_resolved_at : option datetime }.

Abbreviation fault_table := (gmap Z Fault) (only parsing).

Definition bucket_key (m : MetricRow) : Z := dt_us (mr_bucket_start m).

Definition is_open (f : Fault) : bool :=
  match ft_resolved_at f, ft_given_up_at f with None, None => true | _, _ => false end.

(** [open_source_ids], for this source. *)
Definition open_source_ids (faults : fault_table) : bool := bool_decide (map_Exists (λ _ f, is_open f = true) faults).

(** The upsert of [AnomalyFaultRepository.record_failure]. *)
Definition record_attempt (m : MetricRow) (error_class : string) (at_ : datetime) (faults : fault_table)
    : Z * fault_table :=
  let row := match faults !! bucket_key m with
             | None => {| ft_attempts := 1; ft_first_failed_at := at_; ft_last_failed_at := at_;
                          ft_error_class := error_class; ft_given_up_at := None; ft_resolved_at := None |}
             | Some f => {| ft_attempts := ft_attempts f + 1; ft_first_failed_at := ft_first_failed_at f;
                            ft_last_failed_at := at_; ft_error_class := error_class;
                            ft_given_up_at := ft_given_up_at f; ft_resolved_at := ft_resolved_at f |}
             end in
  (ft_attempts row, <[bucket_key m := row]> faults).

Definition close_given_up (at_ : datetime) (f : Fault) : Fault :=
  {| ft_attempts := ft_attempts f; ft_first_failed_at := ft_first_failed_at f; ft_last_failed_at := ft_last_failed_at f;
     ft_error_class := ft_error_class f; ft_given_up_at := Some at_; ft_resolved_at := ft_resolved_at f |}.

Definition give_up_bucket (m : MetricRow) (at_ : datetime) (faults : fault_table) : fault_table :=
  alter (close_given_up at_) (bucket_key m) faults.

Definition close_resolved (at_ : datetime) (f : Fault) : Fault :=
  if is_open f then
    {| ft_attempts := ft_attempts f; ft_first_failed_at := ft_first_failed_at f; ft_last_failed_at := ft_last_failed_at f;
       ft_error_class := ft_error_class f; ft_given_up_at := ft_given_up_at f; ft_resolved_at := Some at_ |}
  else f.

Definition resolve (at_ : datetime) (faults : fault_table) : fault_table := close_resolved at_ <$> faults.

(** ** The report of a tick *)

Record PendingReport := {
  pr_interval_start : option datetime; pr_report : EvaluationReport; pr_failed : Z; pr_given_up : Z }.

Definition skipped (reason : string) (r : EvaluationReport) : EvaluationReport :=
  {| er_opened := er_opened r; er_resolved := er_resolved r; er_anomalous := er_anomalous r;
     er_candidates := er_candidates r; er_recovering := er_recovering r; er_states := er_states r;
     er_unsupported := er_unsupported r; er_skipped_reason := Some reason |}.

Definition skipped_report (at_ : option datetime) (reason : string) (failed given_up : Z) : PendingReport :=
  {| pr_interval_start := at_; pr_report := skipped reason empty_report; pr_failed := failed; pr_given_up := given_up |}.

(** The lists of a judged bucket joined to the tick's. *)
Definition combine (c : PendingReport) (m : MetricRow) (r : EvaluationReport) : PendingReport :=
  {| pr_interval_start := Some (mr_bucket_start m);
     pr_report := {| er_opened := er_opened (pr_report c) ++ er_opened r;
                     er_resolved := er_resolved (pr_report c) ++ er_resolved r;
                     er_anomalous := er_anomalous (pr_report c) ++ er_anomalous r;
                     er_candidates := er_candidates (pr_report c) ++ er_candidates r;
                     er_recovering := er_recovering (pr_report c) ++ er_recovering r;
                     er_states := er_states r; er_unsupported := er_unsupported r;
                     er_skipped_reason := er_skipped_reason (pr_report c) |};
     pr_failed := pr_failed c; pr_given_up := pr_given_up c |}.

Definition count_failed (c : PendingReport) : PendingReport :=
  {| pr_interval_start := pr_interval_start c; pr_report := pr_report c; pr_failed := pr_failed c + 1;
     pr_given_up := pr_given_up c |}.
Definition count_given_up (c : PendingReport) : PendingReport :=
  {| pr_interval_start := pr_interval_start c; pr_report := pr_report c; pr_failed := pr_failed c;
     pr_given_up := pr_given_up c + 1 |}.
Definition stopped (reason : string) (c : PendingReport) : PendingReport :=
  {| pr_interval_start := pr_interval_start c; pr_report := skipped reason (pr_report c); pr_failed := pr_failed c;
     pr_given_up := pr_given_up c |}.

(** ** The loop *)

(** How the savepoint of one failure record ends: it commits; a statement fails before the
    engine's set of open faults is loaded; the statement that gives the bucket up fails; or
    the release fails, after the set was changed. *)
Inductive Bookkeeping := BK_COMMITS | BK_STATEMENT_FAILS | BK_GIVE_UP_FAILS | BK_RELEASE_FAILS.

Section Pending.
Context {W : Type} (judge : MetricRow → W → result (EvaluationReport * W)).
Context (clock : nat → datetime) (bookkeeping : nat → Bookkeeping).
Context (max_buckets : nat) (max_attempts : Z).

(** What the tick reads and writes: the engine's world, the watermark row, the fault rows,
    the engine instance's answer of [_open_fault_sources] once loaded, and the readings of
    the clock so far. *)
Record Pending := {
  pd_world : W; pd_watermark : option Watermark; pd_faults : gmap Z Fault; pd_open : option bool; pd_readings : nat }.

(** The watermark row moved to the bucket; the clock is read. *)
Definition advance (m : MetricRow) (w : W) (s : Pending) : Pending :=
  {| pd_world := w;
     pd_watermark := Some {| wm_evaluated_through := mr_bucket_start m; wm_updated_at := clock (pd_readings s) |};
     pd_faults := pd_faults s; pd_open := pd_open s; pd_readings := S (pd_readings s) |}.

(** [_record_failure] *)
Definition record_failure (m : MetricRow) (e : exn) (s : Pending) : bool * Pending :=
  let now := clock (pd_readings s) in
  let kept faults open := {| pd_world := pd_world s; pd_watermark := pd_watermark s; pd_faults := faults;
                             pd_open := open; pd_readings := S (pd_readings s) |} in
  let '(attempts, faults) := record_attempt m (exn_class e) now (pd_faults s) in
  match bookkeeping (pd_readings s), next_attempt attempts max_attempts with
  | BK_STATEMENT_FAILS, _ | _, Err _ => (false, kept (pd_faults s) (pd_open s))
  | ends, Ok decision =>
      let given_up := bool_decide (decision = GIVE_UP) in
      let loaded := match pd_open s with Some open => open | None => open_source_ids faults end in
      let faults := if given_up then give_up_bucket m now faults else faults in
      match ends, given_up with
      | BK_GIVE_UP_FAILS, true => (false, kept (pd_faults s) (Some loaded))
      | BK_RELEASE_FAILS, _ => (false, kept (pd_faults s) (Some (negb given_up)))
      | _, _ => (given_up, kept faults (Some (negb given_up)))
      end
  end.

(** [_clear_failure] *)
Definition clear_failure (s : Pending) : Pending :=
  let open := match pd_open s with Some open => open | None => open_source_ids (pd_faults s) end in
  if open then
    {| pd_world := pd_world s; pd_watermark := pd_watermark s;
       pd_faults := resolve (clock (pd_readings s)) (pd_faults s); pd_open := Some false;
       pd_readings := S (pd_readings s) |}
  else
    {| pd_world := pd_world s; pd_watermark := pd_watermark s; pd_faults := pd_faults s; pd_open := Some false;
       pd_readings := pd_readings s |}.

Definition latest_live (metrics : list MetricRow) : option MetricRow := last (filter (λ m, is_live m = true) metrics).

Definition pending_rows (metrics : list MetricRow) (wm : Watermark) : list MetricRow :=
  filter (λ m, dt_us (wm_evaluated_through wm) < bucket_key m ∧ is_live m = true) metrics.

(** The first evaluation of a source. *)
Definition evaluate_first (m : MetricRow) (s : Pending) : PendingReport * Pending :=
  match judge m (pd_world s) with
  | Ok (report, w) =>
      ({| pr_interval_start := Some (mr_bucket_start m); pr_report := report; pr_failed := 0; pr_given_up := 0 |},
       clear_failure (advance m w s))
  | Err e =>
      let '(given_up, s) := record_failure m e s in
      let s := if given_up then advance m (pd_world s) s else s in
      (skipped_report (Some (mr_bucket_start m)) "evaluation failed" 1 (if given_up then 1 else 0), s)
  end.

Fixpoint pending_loop (metrics : list MetricRow) (combined : PendingReport) (s : Pending) : PendingReport * Pending :=
  match metrics with
  | [] => (combined, s)
  | m :: rest =>
      match judge m (pd_world s) with
      | Ok (report, w) => pending_loop rest (combine combined m report) (clear_failure (advance m w s))
      | Err e =>
          let combined := count_failed combined in
          let '(given_up, s) := record_failure m e s in
          if given_up : bool then pending_loop rest (count_given_up combined) (advance m (pd_world s) s)
          else (stopped "evaluation failed" combined, s)
      end
  end.

(** [evaluate_latest]: no collector calls it. *)
Definition evaluate_latest (metrics : list MetricRow) (w : W) : result (EvaluationReport * W) :=
  match latest_live metrics with
  | None => Ok (skipped "no metrics" empty_report, w)
  | Some m => judge m w
  end.

(** [evaluate_pending], on the source's rows in bucket order. *)
Definition evaluate_pending (monitoring_enabled : bool) (metrics : list MetricRow) (s : Pending)
    : PendingReport * Pending :=
  if negb monitoring_enabled then (skipped_report None "monitoring disabled" 0 0, s)
  else match pd_watermark s with
       | None =>
           match latest_live metrics with
           | None => (skipped_report None "no metrics" 0 0, s)
           | Some m => evaluate_first m s
           end
       | Some wm =>
           let combined := {| pr_interval_start := None; pr_report := empty_report; pr_failed := 0; pr_given_up := 0 |} in
           match take max_buckets (pending_rows metrics wm) with
           | [] => (stopped "no pending metrics" combined, s)
           | rows => pending_loop rows combined s
           end
       end.

(** A new engine instance: what it knew of the open faults is forgotten. *)
Definition new_engine (s : Pending) : Pending :=
  {| pd_world := pd_world s; pd_watermark := pd_watermark s; pd_faults := pd_faults s; pd_open := None;
     pd_readings := pd_readings s |}.
End Pending.
