(* ===== verification/EnginePendingTheorems.v ===== *)
(** * What the evaluation loop does

    A tick passes the pending buckets in order, each judged or given up, and stops at the
    first it must retry; ticks that can record a failure pass every bucket in the end; and
    a source that was never judged has no such bound. *)

From S2P Require Import Prelude PyStr PyTime Enums AnomalyLifecycle AlertService AnomalyEngine Seasonal EnginePending.

(** ** Rows and faults *)

(** The source's rows are in the order of their buckets. *)
Definition earlier_row (a b : MetricRow) : Prop := bucket_key a < bucket_key b.

Definition in_order (rows : list MetricRow) : Prop := StronglySorted earlier_row rows.

Definition given_up (faults : fault_table) (m : MetricRow) : Prop :=
  ∃ f at_, faults !! bucket_key m = Some f ∧ ft_given_up_at f = Some at_.

Definition attempts_of (faults : fault_table) (k : Z) : Z :=
  match faults !! k with Some f => ft_attempts f | None => 0 end.

(** [attempts_positive], the table's check. *)
Definition rows_ok (faults : fault_table) : Prop := map_Forall (λ _ f, 1 <= ft_attempts f) faults.

Lemma attempts_nonneg faults k : rows_ok faults → 0 <= attempts_of faults k.
Proof. intros H. unfold attempts_of. destruct (faults !! k) eqn:E; [apply H in E; lia|lia]. Qed.

(** The bucket the watermark stands at. *)
Definition reached {W} (s : @Pending W) : option Z := (λ wm, dt_us (wm_evaluated_through wm)) <$> pd_watermark s.

Lemma filter_in_order P `{!∀ m, Decision (P m)} rows : in_order rows → in_order (filter P rows).
Proof.
  induction 1 as [|m rows Hs IH Hm]; [constructor|]. rewrite filter_cons. destruct (decide (P m)); [|done].
  constructor; [done|]. rewrite Forall_forall in *. intros x [_ Hx]%list_elem_of_filter. by apply Hm.
Qed.

Lemma filter_after a m b : in_order (a ++ m :: b) → filter (λ x, bucket_key m < bucket_key x) (a ++ m :: b) = b.
Proof.
  intros (Hab & _ & Hb)%StronglySorted_app. apply StronglySorted_inv in Hb as [_ Hb]. rewrite filter_app.
  rewrite (filter_none _ a), filter_cons_False, filter_all; [done|..].
  - done.
  - lia.
  - apply Forall_forall. intros x Hx H. specialize (Hab x m Hx ltac:(left)). unfold earlier_row in Hab. lia.
Qed.

Section Facts.
Context {W : Type} (judge : MetricRow → W → result (EvaluationReport * W)).
Context (clock : nat → datetime) (bookkeeping : nat → Bookkeeping) (max_buckets : nat) (max_attempts : Z).

Abbreviation record_failure := (record_failure clock bookkeeping max_attempts).
Abbreviation clear_failure := (clear_failure clock).
Abbreviation pending_loop := (pending_loop judge clock bookkeeping max_attempts).
Abbreviation evaluate_pending := (evaluate_pending judge clock bookkeeping max_buckets max_attempts true).

(** ** The bookkeeping of one bucket *)

Lemma record_attempt_row m cls at_ faults n faults' : record_attempt m cls at_ faults = (n, faults') →
  n = attempts_of faults (bucket_key m) + 1 ∧ attempts_of faults' (bucket_key m) = n ∧
  (∀ k, k ≠ bucket_key m → faults' !! k = faults !! k) ∧ (∀ x, given_up faults x → given_up faults' x).
Proof.
  unfold record_attempt. intros [= <- <-]. unfold attempts_of. rewrite lookup_insert_eq. split_and!.
  - by destruct (faults !! bucket_key m).
  - done.
  - intros k Hk. by rewrite lookup_insert_ne by done.
  - intros x (f & a & Hf & Ha). unfold given_up. destruct (decide (bucket_key m = bucket_key x)) as [E|E].
    + rewrite E, lookup_insert_eq, Hf. by eauto.
    + rewrite lookup_insert_ne by done. by eauto.
Qed.

Lemma give_up_row m at_ faults x : given_up faults x ∨ bucket_key x = bucket_key m ∧ is_Some (faults !! bucket_key m) →
  given_up (give_up_bucket m at_ faults) x.
Proof.
  unfold given_up, give_up_bucket. intros [(f & a & Hf & Ha)|[Hx [f Hf]]].
  - destruct (decide (bucket_key m = bucket_key x)) as [E|E].
    + rewrite E, lookup_alter_eq, Hf. cbn. by eauto.
    + rewrite lookup_alter_ne by done. by eauto.
  - rewrite Hx, lookup_alter_eq, Hf. cbn. by eauto.
Qed.

Lemma attempts_give_up m at_ faults k : attempts_of (give_up_bucket m at_ faults) k = attempts_of faults k.
Proof.
  unfold attempts_of, give_up_bucket. destruct (decide (bucket_key m = k)) as [<-|E].
  - rewrite lookup_alter_eq. by destruct (faults !! bucket_key m).
  - by rewrite lookup_alter_ne.
Qed.

Lemma attempts_resolve at_ faults k : attempts_of (resolve at_ faults) k = attempts_of faults k.
Proof.
  unfold attempts_of, resolve. rewrite lookup_fmap. destruct (faults !! k) as [f|]; [|done]. cbn.
  unfold close_resolved. by destruct (is_open f).
Qed.

Lemma record_failure_keeps m e (s : @Pending W) b s' : record_failure m e s = (b, s') →
  pd_world s' = pd_world s ∧ pd_watermark s' = pd_watermark s ∧
  (∀ x, given_up (pd_faults s) x → given_up (pd_faults s') x) ∧ (b = true → given_up (pd_faults s') m).
Proof.
  unfold EnginePending.record_failure.
  destruct (record_attempt _ _ _ _) as [n faults] eqn:E.
  assert (is_Some (faults !! bucket_key m)) as Hm.
  { unfold record_attempt in E. injection E as _ <-. rewrite lookup_insert_eq. by eauto. }
  apply record_attempt_row in E as (_ & _ & _ & Hg).
  destruct (bookkeeping _); destruct (next_attempt n max_attempts) as [[]|]; cbn; intros [= <- <-]; cbn [pd_world pd_watermark pd_faults];
    split_and!; try done; intros; apply give_up_row; auto.
Qed.

Lemma clear_failure_keeps (s : @Pending W) : pd_world (clear_failure s) = pd_world s ∧ pd_watermark (clear_failure s) = pd_watermark s ∧
  (∀ x, given_up (pd_faults s) x → given_up (pd_faults (clear_failure s)) x) ∧
  (∀ k, attempts_of (pd_faults (clear_failure s)) k = attempts_of (pd_faults s) k).
Proof.
  unfold EnginePending.clear_failure. destruct (match pd_open s with Some _ => _ | None => _ end); cbn; [|done].
  split_and!; [done..| |intros k; apply attempts_resolve].
  intros x (f & a & Hf & Ha). unfold given_up, resolve. rewrite lookup_fmap, Hf. cbn. exists (close_resolved (clock (pd_readings s)) f), a.
  split; [done|]. unfold close_resolved. by destruct (is_open f).
Qed.

(** ** The walk over the pending buckets *)

(** What a tick did with the buckets it passed, on the way from one world to another: each
    was judged, or its judging raised and the fault rows say it was given up. *)
Inductive passed (faults : fault_table) : W → list MetricRow → W → Prop :=
| passed_none w : passed faults w [] w
| passed_judged m r w w' ms w'' : judge m w = Ok (r, w') → passed faults w' ms w'' → passed faults w (m :: ms) w''
| passed_given_up m e w ms w'' : judge m w = Err e → given_up faults m → passed faults w ms w'' →
    passed faults w (m :: ms) w''.

Definition reaches (ms : list MetricRow) (from : option Z) : option Z :=
  match last ms with Some m => Some (bucket_key m) | None => from end.

Lemma reaches_cons m ms from : reaches (m :: ms) from = reaches ms (Some (bucket_key m)).
Proof. unfold reaches. rewrite last_cons. by destruct (last ms). Qed.

Lemma pending_loop_passes rows c (s : @Pending W) c' s' : pending_loop rows c s = (c', s') →
  ∃ done rest, rows = done ++ rest ∧ passed (pd_faults s') (pd_world s) done (pd_world s') ∧
    reached s' = reaches done (reached s) ∧
    (rest = [] ∨ ∃ m rest' e, rest = m :: rest' ∧ judge m (pd_world s') = Err e ∧
       er_skipped_reason (pr_report c') = Some "evaluation failed") ∧
    (∀ x, given_up (pd_faults s) x → given_up (pd_faults s') x).
Proof.
  revert c s. induction rows as [|m rows IH]; intros c s; cbn [EnginePending.pending_loop].
  { intros [= <- <-]. exists [], []. split_and!; [done|constructor|done|by left|done]. }
  destruct (judge m (pd_world s)) as [[r w]|e] eqn:J.
  - intros H. apply IH in H as (d & rest & -> & Hp & Hr & Hstop & Hg).
    destruct (clear_failure_keeps (advance clock m w s)) as (Hw & Hwm & Hg' & _).
    exists (m :: d), rest. split_and!; [done| | |done|].
    + rewrite Hw in Hp. by eapply passed_judged.
    + rewrite reaches_cons, Hr. f_equal. unfold reached. by rewrite Hwm.
    + intros x Hx. apply Hg, Hg'. exact Hx.
  - destruct (record_failure m e s) as [b s1] eqn:F. apply record_failure_keeps in F as (Hw & Hwm & Hg1 & Hm).
    destruct b.
    + intros H. apply IH in H as (d & rest & -> & Hp & Hr & Hstop & Hg).
      exists (m :: d), rest. split_and!; [done| | |done|].
      * eapply passed_given_up; [done|by apply Hg, Hm|]. cbn in Hp. by rewrite <- Hw.
      * by rewrite reaches_cons, Hr.
      * intros x Hx. apply Hg, Hg1. exact Hx.
    + intros [= <- <-]. exists [], (m :: rows).
      split_and!; [done|rewrite Hw; constructor|unfold reached; by rewrite Hwm| |done].
      right. exists m, rows, e. rewrite Hw. done.
Qed.

Lemma pending_rows_in_order metrics wm : in_order metrics → in_order (pending_rows metrics wm).
Proof. apply filter_in_order. Qed.

(** Once the watermark moved along the pending buckets, the pending ones are the rest. *)
Lemma pending_rows_after metrics wm wm' passed_rows rest : in_order metrics →
  pending_rows metrics wm = passed_rows ++ rest →
  Some (dt_us (wm_evaluated_through wm')) = reaches passed_rows (Some (dt_us (wm_evaluated_through wm))) →
  pending_rows metrics wm' = rest.
Proof.
  intros Hs Hp Hr. destruct passed_rows as [|m0 l0 _] using rev_ind.
  { injection Hr as Hr. cbn in Hp. rewrite <- Hp. unfold pending_rows. by rewrite Hr. }
  unfold reaches in Hr. rewrite last_snoc in Hr. injection Hr as Hr.
  rewrite <- app_assoc in Hp. cbn in Hp. pose proof (pending_rows_in_order _ wm Hs) as Ho. rewrite Hp in Ho.
  rewrite <- (filter_after l0 m0 rest Ho), <- Hp. unfold pending_rows. rewrite Hr, list_filter_filter.
  apply list_filter_iff. intros x. split; [|naive_solver]. intros [Hx Hl]. split; [done|]. split; [|done].
  assert (m0 ∈ pending_rows metrics wm) as [[Hm _] _]%list_elem_of_filter by (rewrite Hp; set_solver). lia.
Qed.

(** ** One tick *)

Lemma evaluate_pending_from metrics wm (s : @Pending W) : pd_watermark s = Some wm →
  ∃ c, evaluate_pending metrics s = (c, s) ∧ take max_buckets (pending_rows metrics wm) = [] ∨
       evaluate_pending metrics s = pending_loop (take max_buckets (pending_rows metrics wm)) c s.
Proof.
  intros Hw. unfold EnginePending.evaluate_pending. rewrite Hw. cbn [negb].
  destruct (take max_buckets (pending_rows metrics wm)) eqn:E; eauto.
Qed.

Lemma pending_tick_passes metrics wm (s : @Pending W) r s' : in_order metrics → pd_watermark s = Some wm →
  evaluate_pending metrics s = (r, s') →
  ∃ done rest wm', pending_rows metrics wm = done ++ rest ∧ (length done <= max_buckets)%nat ∧
    passed (pd_faults s') (pd_world s) done (pd_world s') ∧
    pd_watermark s' = Some wm' ∧ reached s' = reaches done (reached s) ∧ pending_rows metrics wm' = rest ∧
    (rest = [] ∨ length done = max_buckets ∨ ∃ m rest' e, rest = m :: rest' ∧ judge m (pd_world s') = Err e ∧
       er_skipped_reason (pr_report r) = Some "evaluation failed").
Proof.
  intros Hs Hw H. set (rows := pending_rows metrics wm).
  assert (∃ done rest, take max_buckets rows = done ++ rest ∧ passed (pd_faults s') (pd_world s) done (pd_world s') ∧
    reached s' = reaches done (reached s) ∧
    (rest = [] ∨ ∃ m rest' e, rest = m :: rest' ∧ judge m (pd_world s') = Err e ∧
       er_skipped_reason (pr_report r) = Some "evaluation failed")) as (d & rest & Hd & Hp & Hr & Hstop).
  { destruct (evaluate_pending_from metrics wm s Hw) as (c & [[E Et]|E]); rewrite E in H.
    - injection H as <- <-. exists [], []. split_and!; [done|constructor|done|by left].
    - apply pending_loop_passes in H as (d & rest & Hd & Hp & Hr & Hstop & _). by exists d, rest. }
  assert (rows = d ++ (rest ++ drop max_buckets rows)) as Hrows by (rewrite app_assoc, <- Hd; symmetry; apply take_drop).
  assert (∃ wm', pd_watermark s' = Some wm') as [wm' Hw'].
  { unfold reached, reaches in Hr. rewrite Hw in Hr. destruct (last d), (pd_watermark s'); try discriminate Hr; eauto. }
  exists d, (rest ++ drop max_buckets rows), wm'. split_and!; [done| |done..| |].
  - apply (f_equal length) in Hd. rewrite length_take, length_app in Hd. lia.
  - eapply pending_rows_after; [done..|]. unfold reached in Hr. by rewrite Hw, Hw' in Hr.
  - destruct Hstop as [->|(m & rest' & e & -> & J & Hc)].
    + destruct (decide (length rows <= max_buckets)%nat) as [Hl|Hl]; [left; by rewrite drop_ge|].
      right; left. apply (f_equal length) in Hd. rewrite length_take, app_nil_r in Hd. lia.
    + right; right. by eexists m, _, e.
Qed.

Lemma reached_grows metrics wm (s : @Pending W) done rest : pd_watermark s = Some wm →
  pending_rows metrics wm = done ++ rest → ∀ k k', reached s = Some k → reaches done (reached s) = Some k' → k <= k'.
Proof.
  unfold reached, reaches. intros -> Hp k k' [= <-]. destruct (last done) as [m|] eqn:E; [|intros [= <-]; lia].
  intros [= <-]. assert (m ∈ pending_rows metrics wm) as [[Hm _] _]%list_elem_of_filter; [|lia].
  rewrite Hp. apply elem_of_app. left. by apply last_Some_elem_of.
Qed.

(** ** Ticks that can record a failure *)

Lemma rows_ok_resolve at_ faults : rows_ok faults → rows_ok (resolve at_ faults).
Proof.
  intros H k f. unfold resolve. rewrite lookup_fmap. intros (g & Hg%H & ->)%fmap_Some.
  unfold close_resolved. by destruct (is_open g).
Qed.

Lemma rows_ok_clear (s : @Pending W) : rows_ok (pd_faults s) → rows_ok (pd_faults (clear_failure s)).
Proof.
  intros H. unfold EnginePending.clear_failure. destruct (match pd_open s with Some _ => _ | None => _ end); cbn; [|done].
  by apply rows_ok_resolve.
Qed.

Lemma rows_ok_record m cls at_ faults : rows_ok faults → rows_ok (record_attempt m cls at_ faults).2.
Proof.
  intros H k f. cbn. destruct (decide (bucket_key m = k)) as [<-|E].
  - rewrite lookup_insert_eq. intros [= <-]. destruct (faults !! bucket_key m) eqn:E; cbn; [apply H in E; lia|lia].
  - rewrite lookup_insert_ne by done. apply H.
Qed.

Lemma rows_ok_give_up m at_ faults : rows_ok faults → rows_ok (give_up_bucket m at_ faults).
Proof.
  intros H k f. unfold give_up_bucket. destruct (decide (bucket_key m = k)) as [<-|E].
  - rewrite lookup_alter_eq. intros (g & Hg%H & ->)%fmap_Some. done.
  - rewrite lookup_alter_ne by done. apply H.
Qed.

Context (Hcommits : ∀ n, bookkeeping n = BK_COMMITS) (Hmax : 1 <= max_attempts).

Lemma record_failure_commits m e (s : @Pending W) b s' : rows_ok (pd_faults s) → record_failure m e s = (b, s') →
  rows_ok (pd_faults s') ∧ attempts_of (pd_faults s') (bucket_key m) = attempts_of (pd_faults s) (bucket_key m) + 1 ∧
  b = bool_decide (max_attempts <= attempts_of (pd_faults s) (bucket_key m) + 1) ∧
  pd_watermark s' = pd_watermark s ∧ pd_open s' = Some (negb b) ∧
  (∀ k, k ≠ bucket_key m → pd_faults s' !! k = pd_faults s !! k).
Proof.
  intros Hok. unfold EnginePending.record_failure. rewrite Hcommits.
  pose proof (rows_ok_record m (exn_class e) (clock (pd_readings s)) _ Hok) as Hok'.
  pose proof (attempts_nonneg _ (bucket_key m) Hok) as Hn.
  destruct (record_attempt _ _ _ _) as [n faults] eqn:E. apply record_attempt_row in E as (-> & Hatt & Hother & _).
  unfold next_attempt, raise_if. destruct (Z.ltb_spec (attempts_of (pd_faults s) (bucket_key m) + 1) 1); [lia|].
  destruct (Z.ltb_spec max_attempts 1); [lia|]. cbn [res_bind].
  destruct (Z.leb_spec max_attempts (attempts_of (pd_faults s) (bucket_key m) + 1)) as [Hc|Hc]; cbn;
    intros [= <- <-]; cbn [pd_faults pd_watermark pd_open negb].
  - rewrite bool_decide_eq_true_2 by done. split_and!; [by apply rows_ok_give_up|by rewrite attempts_give_up|done..|].
    intros k Hk. unfold give_up_bucket. rewrite lookup_alter_ne by done. by apply Hother.
  - rewrite bool_decide_eq_false_2 by lia. by split_and!.
Qed.

Lemma rows_ok_loop rows c (s : @Pending W) c' s' : rows_ok (pd_faults s) → pending_loop rows c s = (c', s') →
  rows_ok (pd_faults s').
Proof.
  revert c s. induction rows as [|m rows IH]; intros c s Hok; cbn [EnginePending.pending_loop]; [by intros [= _ <-]|].
  destruct (judge m (pd_world s)) as [[r w]|e]; [by apply IH, rows_ok_clear|].
  destruct (record_failure m e s) as [b s1] eqn:F. apply record_failure_commits in F as (Hok' & _); [|done].
  destruct b; [by apply IH|by intros [= _ <-]].
Qed.

Lemma rows_ok_tick metrics (s : @Pending W) r s' wm : pd_watermark s = Some wm → rows_ok (pd_faults s) →
  evaluate_pending metrics s = (r, s') → rows_ok (pd_faults s').
Proof.
  intros Hw Hok H. destruct (evaluate_pending_from metrics wm s Hw) as (c & [[E _]|E]); rewrite E in H.
  - by injection H as _ <-.
  - by apply rows_ok_loop in H.
Qed.

(** The first pending bucket is passed, or one more attempt at it is on record. *)
Lemma pending_tick_progress metrics wm m rest (s : @Pending W) r s' : in_order metrics → pd_watermark s = Some wm →
  (0 < max_buckets)%nat → rows_ok (pd_faults s) → pending_rows metrics wm = m :: rest →
  evaluate_pending metrics s = (r, s') →
  (∃ k, reached s' = Some k ∧ bucket_key m <= k) ∨
  pd_watermark s' = pd_watermark s ∧ attempts_of (pd_faults s) (bucket_key m) + 1 < max_attempts ∧
  attempts_of (pd_faults s') (bucket_key m) = attempts_of (pd_faults s) (bucket_key m) + 1.
Proof.
  intros Hs Hw Hb Hok Hp H.
  destruct max_buckets as [|n]; [lia|].
  pose proof (pending_rows_in_order metrics wm Hs) as Ho. rewrite Hp in Ho.
  apply StronglySorted_inv in Ho as [_ Ho]. rewrite Forall_forall in Ho.
  assert (Hgo : ∀ c s1 r' s2, reached s1 = Some (bucket_key m) → pending_loop (take n rest) c s1 = (r', s2) →
    ∃ k, reached s2 = Some k ∧ bucket_key m <= k).
  { intros c s1 r' s2 Hr (d & rest' & Hd & _ & -> & _)%pending_loop_passes. rewrite Hr. unfold reaches.
    destruct (last d) as [y|] eqn:Ey; [|by eauto with lia]. exists (bucket_key y). split; [done|].
    apply Z.lt_le_incl, Ho, (subseteq_take n). rewrite Hd. apply elem_of_app. left. by apply last_Some_elem_of. }
  unfold EnginePending.evaluate_pending in H. rewrite Hw, Hp in H. cbn [negb take] in H.
  cbn [EnginePending.pending_loop] in H.
  destruct (judge m (pd_world s)) as [[r' w]|e].
  - left. apply Hgo in H; [done|]. unfold reached. by destruct (clear_failure_keeps (advance clock m w s)) as (_ & -> & _).
  - destruct (record_failure m e s) as [b s1] eqn:F. apply record_failure_commits in F as (_ & Ha & -> & Hwm & _); [|done].
    destruct (bool_decide_reflect (max_attempts <= attempts_of (pd_faults s) (bucket_key m) + 1)).
    + left. by apply Hgo in H.
    + right. injection H as _ <-. split_and!; [done|lia|done].
Qed.
End Facts.

(** * The guarantees of the evaluation loop

    One tick passes a prefix of the pending buckets; successive ticks pass all of them,
    within a number bounded by the attempts; and the loop has no such bound for a source
    that was never judged. *)


(** One tick passes the pending buckets of a source in order, at most the configured
    number of them: each is judged on the world the one before left, or its judging raised
    and it is on record as given up; nothing else is written to the world. The tick stops
    early only at a bucket that raised, and says so. The watermark stands at the last
    bucket passed, so what is pending after the tick is what was not passed. *)
Theorem pending_tick_exact {W} (judge : MetricRow → W → result (EvaluationReport * W)) clock bookkeeping
    max_buckets max_attempts metrics wm s r s' :
  in_order metrics → pd_watermark s = Some wm →
  evaluate_pending judge clock bookkeeping max_buckets max_attempts true metrics s = (r, s') →
  ∃ done rest wm', pending_rows metrics wm = done ++ rest ∧ (length done <= max_buckets)%nat ∧
    passed judge (pd_faults s') (pd_world s) done (pd_world s') ∧
    pd_watermark s' = Some wm' ∧ reached s' = reaches done (reached s) ∧ pending_rows metrics wm' = rest ∧
    (rest = [] ∨ length done = max_buckets ∨ ∃ m rest' e, rest = m :: rest' ∧ judge m (pd_world s') = Err e ∧
       er_skipped_reason (pr_report r) = Some "evaluation failed").
Proof. intros Hs Hw H. by eapply pending_tick_passes in H. Qed.

(** ** Many ticks *)

Section Ticks.
Context {W : Type} (judge : nat → MetricRow → W → result (EvaluationReport * W)) (metrics : nat → list MetricRow).
Context (clock : nat → datetime) (bookkeeping : nat → Bookkeeping) (max_buckets : nat) (max_attempts : Z).

(** [n] ticks from the [i]-th on: each is a run of a new engine on the rows there are then. *)
Fixpoint ticks (n i : nat) (s : @Pending W) : @Pending W :=
  match n with
  | O => s
  | S n => ticks n (S i)
      (evaluate_pending (judge i) clock bookkeeping max_buckets max_attempts true (metrics i) (new_engine s)).2
  end.

Section Drains.
Context (base : list MetricRow).
Context (Hbase : ∀ i, ∃ newer, metrics i = base ++ newer) (Hord : ∀ i, in_order (metrics i)).
Context (Hcommits : ∀ n, bookkeeping n = BK_COMMITS) (Hmax : 1 <= max_attempts) (Hbuckets : (0 < max_buckets)%nat).

Definition wm_rows (s : @Pending W) : list MetricRow :=
  match pd_watermark s with Some wm => pending_rows base wm | None => [] end.

(** The ticks the remaining rows may still take. *)
Definition ticks_left (s : @Pending W) : Z :=
  match wm_rows s with
  | [] => 0
  | m :: rest => Z.of_nat (S (length rest)) * max_attempts - Z.min (attempts_of (pd_faults s) (bucket_key m)) (max_attempts - 1)
  end.

Definition ready (s : @Pending W) : Prop := rows_ok (pd_faults s) ∧ is_Some (pd_watermark s).

Lemma wm_rows_shrink (s s' : @Pending W) wm wm' : pd_watermark s = Some wm → pd_watermark s' = Some wm' →
  dt_us (wm_evaluated_through wm) <= dt_us (wm_evaluated_through wm') →
  wm_rows s' = filter (λ m, dt_us (wm_evaluated_through wm') < bucket_key m) (wm_rows s).
Proof.
  unfold wm_rows, pending_rows. intros -> -> Hle. rewrite list_filter_filter. apply list_filter_iff.
  intros m. split; [naive_solver lia|naive_solver].
Qed.

Lemma ticks_left_suffix (s : @Pending W) n : rows_ok (pd_faults s) → (length (wm_rows s) <= n)%nat →
  ticks_left s <= Z.of_nat n * max_attempts.
Proof.
  intros Hok Hl. unfold ticks_left. destruct (wm_rows s) as [|m rows]; [nia|].
  pose proof (attempts_nonneg _ (bucket_key m) Hok).
  cbn [length] in Hl.
  assert (Z.of_nat (S (length rows)) * max_attempts <= Z.of_nat n * max_attempts) by (apply Z.mul_le_mono_nonneg_r; lia).
  pose proof (Z.min_glb 0 (attempts_of (pd_faults s) (bucket_key m)) (max_attempts - 1)). lia.
Qed.

Lemma ticks_left_at (s : @Pending W) wm m rows : pd_watermark s = Some wm → pending_rows base wm = m :: rows →
  ticks_left s = Z.of_nat (S (length rows)) * max_attempts
                 - Z.min (attempts_of (pd_faults s) (bucket_key m)) (max_attempts - 1).
Proof. intros Hw Hp. unfold ticks_left, wm_rows. by rewrite Hw, Hp. Qed.

Lemma tick_step i s : ready s →
  let s' := (evaluate_pending (judge i) clock bookkeeping max_buckets max_attempts true (metrics i) (new_engine s)).2 in
  ready s' ∧ (ticks_left s' < ticks_left s ∨ wm_rows s' = []).
Proof.
  intros [Hok [wm Hw]]. destruct (evaluate_pending _ _ _ _ _ _ _ _) as [r s'] eqn:E. cbn [snd].
  destruct (Hbase i) as [newer Hm].
  pose proof E as (d & rest & wm' & Hd & _ & _ & Hw' & Hr & _)%(pending_tick_passes _ _ _ _ _ _ wm); [|done..].
  assert (Hgrow : dt_us (wm_evaluated_through wm) <= dt_us (wm_evaluated_through wm')).
  { eapply (reached_grows _ _ (new_engine s)); [exact Hw|exact Hd|unfold reached; cbn; by rewrite Hw|].
    rewrite <- Hr. unfold reached. by rewrite Hw'. }
  pose proof (wm_rows_shrink s s' wm wm' Hw Hw' Hgrow) as Hrows.
  assert (Hready : ready s').
  { split; [|by eauto]. by eapply (rows_ok_tick _ _ _ _ _ Hcommits Hmax _ (new_engine s)). }
  split; [done|]. destruct (wm_rows s) as [|m rows] eqn:Ew; [by right|].
  assert (Hlive : m ∈ wm_rows s) by (rewrite Ew; left).
  unfold wm_rows in Ew. rewrite Hw in Ew. left.
  pose proof (attempts_nonneg _ (bucket_key m) Hok) as Hn.
  apply (pending_tick_progress _ _ _ _ _ Hcommits Hmax _ wm m (rows ++ pending_rows newer wm)) in E;
    [|done..|unfold pending_rows in *; by rewrite Hm, filter_app, Ew].
  rewrite (ticks_left_at s wm m rows Hw Ew).
  destruct E as [(k & Hk & Hle)|(Hsame & Hlt & Hatt)].
  - assert (length (wm_rows s') <= length rows)%nat.
    { rewrite Hrows, filter_cons_False; [apply length_filter|].
      unfold reached in Hk. rewrite Hw' in Hk. injection Hk as <-. lia. }
    pose proof (ticks_left_suffix s' (length rows) (proj1 Hready)). nia.
  - cbn [new_engine pd_watermark pd_faults] in *.
    rewrite (ticks_left_at s' wm m rows); [lia|congruence|done].
Qed.

Lemma ticks_drain n : ∀ i s, ready s → ticks_left s <= Z.of_nat n → ready (ticks n i s) ∧ wm_rows (ticks n i s) = [].
Proof.
  induction n as [|n IH]; intros i s Hr Hl; cbn [ticks].
  - unfold ticks_left in Hl. destruct (wm_rows s) as [|m rows]; [done|].
    pose proof (attempts_nonneg _ (bucket_key m) (proj1 Hr)). cbn [length] in Hl. nia.
  - destruct (tick_step i s Hr) as [Hr' Hdec]. apply IH; [done|].
    destruct Hdec as [?|He]; [lia|]. unfold ticks_left. rewrite He. lia.
Qed.
End Drains.

Lemma ticks_snoc n : ∀ i s, ticks (S n) i s = ticks 1 (i + n) (ticks n i s).
Proof.
  induction n as [|n IH]; intros i s; [by rewrite Nat.add_0_r|]. cbn [ticks] in *. rewrite IH.
  by rewrite Nat.add_succ_r.
Qed.

(** A first attempt at a bucket leaves it open. *)
Lemma record_first m e (s : @Pending W) : bookkeeping (pd_readings s) = BK_COMMITS → 2 <= max_attempts →
  pd_faults s !! bucket_key m = None →
  ∃ f s', record_failure clock bookkeeping max_attempts m e s = (false, s') ∧ pd_world s' = pd_world s ∧
    pd_watermark s' = pd_watermark s ∧ pd_faults s' = <[bucket_key m := f]> (pd_faults s) ∧
    is_open f = true ∧ ft_attempts f = 1.
Proof.
  intros Hb Hmax Hf. unfold record_failure, record_attempt. rewrite Hb, Hf. cbn [ft_attempts].
  unfold next_attempt, raise_if. rewrite (proj2 (Z.ltb_ge max_attempts 1)), (proj2 (Z.leb_gt max_attempts 1)) by lia.
  cbn. by eexists _, _.
Qed.
End Ticks.


(** A source that was never judged has no such bound. As long as each tick finds a
    newer bucket than the one before and judging it raises, no bucket is ever given up and
    no watermark is set, however many ticks run; each failed bucket keeps an open fault of
    one attempt, so there is one open fault per tick. *)
Theorem first_evaluation_starves {W} (judge : nat → MetricRow → W → result (EvaluationReport * W)) metrics clock
    bookkeeping max_buckets max_attempts newest (s : @Pending W) n :
  (∀ i, latest_live (metrics i) = Some (newest i)) → (∀ i j, (i < j)%nat → bucket_key (newest i) < bucket_key (newest j)) →
  (∀ i w, ¬ is_ok (judge i (newest i) w)) →
  (∀ k, bookkeeping k = BK_COMMITS) → 2 <= max_attempts → pd_watermark s = None → pd_faults s = ∅ →
  let s' := ticks judge metrics clock bookkeeping max_buckets max_attempts n 0 s in
  pd_watermark s' = None ∧ pd_world s' = pd_world s ∧
  ∀ i, (i < n)%nat → ∃ f, pd_faults s' !! bucket_key (newest i) = Some f ∧ is_open f = true ∧ ft_attempts f = 1.
Proof.
  intros Hl Hnew Herr Hc Hmax Hw Hf. cbn zeta.
  cut (pd_watermark (ticks judge metrics clock bookkeeping max_buckets max_attempts n 0 s) = None ∧
       pd_world (ticks judge metrics clock bookkeeping max_buckets max_attempts n 0 s) = pd_world s ∧
       ∀ i, if decide (i < n)%nat
         then ∃ f, pd_faults (ticks judge metrics clock bookkeeping max_buckets max_attempts n 0 s) !! bucket_key (newest i) = Some f ∧
                   is_open f = true ∧ ft_attempts f = 1
         else pd_faults (ticks judge metrics clock bookkeeping max_buckets max_attempts n 0 s) !! bucket_key (newest i) = None).
  { intros (Hw' & Hd & H). split_and!; [done..|]. intros i Hi. specialize (H i). by rewrite decide_True in H. }
  induction n as [|n IH]; [split_and!; [done..|]; intros i; cbn; by rewrite Hf, lookup_empty|].
  rewrite ticks_snoc. set (t := ticks _ _ _ _ _ _ n 0 s) in *. destruct IH as (Hw' & Hd & Hrows). clearbody t. cbn [ticks Nat.add].
  unfold evaluate_pending. cbn [negb new_engine pd_watermark]. rewrite Hw', Hl. unfold evaluate_first.
  destruct (judge n (newest n) _) as [[r w]|e] eqn:J; [by destruct (Herr n (pd_world (new_engine t))); eexists|].
  destruct (record_first clock bookkeeping max_attempts (newest n) e (new_engine t)) as (f & s' & -> & Hsw & Hswm & Hsf & Ho & Ha);
    [done..| |].
  { specialize (Hrows n). by rewrite decide_False in Hrows by lia. }
  cbn [snd]. rewrite Hsw, Hswm, Hsf. split_and!; [done..|]. intros i. specialize (Hrows i).
  destruct (decide (i = n)) as [->|Hi].
  { rewrite decide_True by lia. rewrite lookup_insert_eq. by eauto. }
  rewrite lookup_insert_ne by (destruct (Nat.lt_total i n) as [H|[->|H]]; [apply Hnew in H; lia|done|apply Hnew in H; lia]).
  destruct (decide (i < n)%nat); [by rewrite decide_True by lia|by rewrite decide_False by lia].
Qed.
