(* ===== verification/EngineTheorems.v ===== *)
(** * Theorems of the anomaly engine *)

From S2P Require Import Prelude Runs PyStr PyFloat PyTime PyJson Enums AnomalyLifecycle AlertService AlertFacts AnomalyEngine EngineRun.

(** ** One live incident per detector *)

Lemma AnomalyType_value_inj a b : AnomalyType_value a = AnomalyType_value b → a = b.
Proof. by destruct a, b. Qed.

(** Every detector of the source is coherent with the incident table. *)
Definition engine_ok (states : gmap string DetectorState) (l : list Incident) : Prop :=
  ∀ t, coherent t (state_of states t) l.

Lemma state_of_insert states t d t' : state_of (<[AnomalyType_value t := d]> states) t' =
  if decide (t' = t) then d else state_of states t'.
Proof.
  unfold state_of. destruct (decide (t' = t)) as [->|Hne]; [by rewrite lookup_insert_eq|].
  rewrite lookup_insert_ne; [done|]. intros E. by apply Hne, AnomalyType_value_inj.
Qed.

Lemma engine_ok_step states l l' t d : engine_ok states l → coherent t d l' → same_elsewhere t l l' →
  engine_ok (<[AnomalyType_value t := d]> states) l'.
Proof.
  intros Hok Hc Hs t'. rewrite state_of_insert. destruct (decide (t' = t)) as [->|Hne]; [done|].
  by eapply coherent_elsewhere.
Qed.

Lemma coherent_fresh t l : (∀ j i, l !! j = Some i → active_state (ic_state i) = false) → coherent t new_detector_state l.
Proof. intros Hl. split; try done. intros j i Hj _ Ha. by rewrite (Hl j i Hj) in Ha. Qed.

(** The inputs of one evaluated bucket. *)
Record BucketRun := {
  bu_settings : EngineSettings; bu_source : Source; bu_thresholds : AnomalyType → Z * Z;
  bu_unmet : AnomalyType → option string; bu_verdicts : list AnomalyEvidence; bu_metric : Metric }.

Definition run_bucket (clock : nat → datetime) (fingerprint : AnomalyType → string) (b : BucketRun)
    (sw : gmap string DetectorState * World) : result (gmap string DetectorState * World) :=
  evaluate_interval clock fingerprint (bu_settings b) (bu_source b) (bu_thresholds b) (bu_unmet b)
    (bu_verdicts b) (bu_metric b) sw.1 sw.2.

Definition run_buckets (clock : nat → datetime) (fingerprint : AnomalyType → string)
    (sw : gmap string DetectorState * World) (bs : list BucketRun) : result (gmap string DetectorState * World) :=
  foldM (λ sw b, run_bucket clock fingerprint b sw) sw bs.

Lemma evaluate_ok clock fingerprint b sw sw' : engine_ok sw.1 (w_incidents sw.2) →
  run_bucket clock fingerprint b sw = Ok sw' → engine_ok sw'.1 (w_incidents sw'.2).
Proof.
  intros Hok. unfold run_bucket, evaluate_interval.
  destruct (negb _); [intros H; injection H as <-; exact Hok|].
  intros H. bind_inv H. destruct (run_detectors _ _ _) as [es rep].
  refine (foldM_inv (λ acc, engine_ok acc.1 (w_incidents acc.2)) _ _ (_, _) _ _ _ H); [|exact Hok].
  intros [states w] e acc' _ Hacc Hstep. cbn [fst snd] in *.
  destruct (bu_thresholds b (ev_anomaly_type e)) as [o r']. bind_inv Hstep. injection Hstep as <-. cbn [fst snd].
  destruct r0 as [d1 w1]. cbn [fst snd].
  set (w0 := if is_anomalous e then _ else w) in *.
  assert (Hw0 : w_incidents w0 = w_incidents w) by (unfold w0; by destruct (is_anomalous e)).
  destruct (hysteresis_coherent clock fingerprint (bu_settings b) (bu_source b) (ev_anomaly_type e) o r' (bu_metric b) e r
    (state_of states (ev_anomaly_type e)) w0 d1 w1) as [Hc Hs]; [done|by rewrite Hw0|exact E0|].
  eapply engine_ok_step; [exact Hacc|exact Hc|]. by rewrite <-Hw0.
Qed.

(** C10: one live incident per log source and detector. Over any sequence of buckets, whatever
    the verdicts, the thresholds and the maintenance windows, a detector has at most one
    incident in CANDIDATE, OPEN or RECOVERING; the detector state is in the same state and
    names it; and a detector whose state is none of these has no live incident. *)
Theorem one_live_incident clock fingerprint bs w0 states w :
  (∀ j i, w_incidents w0 !! j = Some i → active_state (ic_state i) = false) →
  run_buckets clock fingerprint (∅, w0) bs = Ok (states, w) →
  ∀ t, (∀ j i, w_incidents w !! j = Some i → ic_anomaly_type i = t → active_state (ic_state i) = true →
          ds_active_anomaly_id (state_of states t) = Some j ∧ ic_state i = ds_state (state_of states t)) ∧
       (active_state (ds_state (state_of states t)) = true →
          ∃ j i, w_incidents w !! j = Some i ∧ ic_anomaly_type i = t ∧ ic_state i = ds_state (state_of states t)).
Proof.
  intros H0 H t. assert (Hok : engine_ok states (w_incidents w)).
  { refine (foldM_inv (λ acc, engine_ok acc.1 (w_incidents acc.2)) _ _ (∅, w0) (states, w) _ _ H).
    - intros acc b acc' _ Hacc. by apply evaluate_ok.
    - intros t'. by apply coherent_fresh. }
  specialize (Hok t). split.
  - intros j i Hj Ht Ha. pose proof (co_unique _ _ _ Hok j i Hj Ht Ha) as Hid. split; [done|].
    destruct (co_active _ _ _ Hok j Hid) as (_ & x & Hx & Hl). rewrite Hj in Hx. injection Hx as <-.
    unfold life_of in Hl. by injection Hl.
  - intros Ha. destruct (coherent_live _ _ _ Hok Ha) as (id & Hid & _).
    destruct (co_active _ _ _ Hok id Hid) as (_ & i & Hi & Hl). exists id, i. split; [done|].
    unfold life_of in Hl. by injection Hl.
Qed.

(** ** Confirmation and recovery *)

(** A bucket as one detector sees it. *)
Record Seen := { sn_metric : Metric; sn_evidence : AnomalyEvidence; sn_maintenance : bool }.

Definition run_detector (clock : nat → datetime) (fingerprint : AnomalyType → string) (settings : EngineSettings)
    (so : Source) (open_after resolve_after : Z) (xs : list Seen) (dw : DetectorState * World)
    : result (DetectorState * World) :=
  foldM (λ dw x, apply_hysteresis clock fingerprint settings so open_after resolve_after (sn_metric x)
    (sn_evidence x) (sn_maintenance x) dw.1 dw.2) dw xs.

(** The verdict of a bucket, when it has one. *)
Definition verdict (x : Seen) : option bool :=
  match ev_signal (sn_evidence x) with
  | DS_ANOMALOUS => Some true
  | DS_HEALTHY => Some false
  | DS_UNKNOWN => None
  end.

(** A bucket the detector judged for real: of its type, dated, outside maintenance, and with
    no verdict when its data was insufficient. *)
Definition seen_ok (t : AnomalyType) (x : Seen) : Prop :=
  ev_anomaly_type (sn_evidence x) = t ∧ facts_ok (sn_evidence x) ∧ aware (mt_bucket_start (sn_metric x)) ∧
  sn_maintenance x = false ∧ (ev_insufficient_data (sn_evidence x) = true → ev_signal (sn_evidence x) = DS_UNKNOWN).

Definition in_order (xs : list Seen) : Prop :=
  StronglySorted (λ x y, dt_us (mt_bucket_start (sn_metric x)) < dt_us (mt_bucket_start (sn_metric y))) xs.

(** What the state says of the verdicts so far. *)
Record tracks_verdicts (o r : nat) (l : list bool) (d : DetectorState) : Prop := {
  tv_open : opened_state (ds_state d) = true ↔ live_breach o r l;
  tv_anomalous : ds_consecutive_anomalous d = Z.of_nat (tail_run true l);
  tv_healthy : ds_consecutive_healthy d = Z.of_nat (tail_run false l);
  tv_last : ds_state d = AS_OPEN → tail_run false l = 0%nat;
  tv_shown : ds_state d ≠ AS_SUPPRESSED }.

Lemma tracks_step o r m e d l s a h : 
  tracks_verdicts (Z.to_nat (Z.max 1 o)) (Z.to_nat (Z.max 1 r)) l d →
  (ev_insufficient_data e = true → ev_signal e = DS_UNKNOWN) →
  s = ld_state (next_state (lifecycle_input o r m e false d)) →
  (a, h) = advance_counters (seen_signal e false) (ds_consecutive_anomalous d) (ds_consecutive_healthy d) →
  ∀ d', ds_state d' = s → ds_consecutive_anomalous d' = a → ds_consecutive_healthy d' = h →
  tracks_verdicts (Z.to_nat (Z.max 1 o)) (Z.to_nat (Z.max 1 r))
    (match ev_signal e with DS_ANOMALOUS => l ++ [true] | DS_HEALTHY => l ++ [false] | DS_UNKNOWN => l end) d'.
Proof.
  intros [H1 H2 H3 H4 H5] Hins Hs Hc d' E1 E2 E3.
  set (o' := Z.to_nat (Z.max 1 o)) in *. set (r' := Z.to_nat (Z.max 1 r)) in *.
  unfold next_state, lifecycle_input, seen_signal in Hs. cbn in Hs. unfold seen_signal in Hc. cbn in Hc.
  destruct (ev_signal e) eqn:Esig; cbn in Hs, Hc; injection Hc as -> ->.
  - (* healthy *)
    destruct (ev_insufficient_data e); [by specialize (Hins eq_refl)|].
    pose proof (live_snoc_false o' r' l ltac:(lia) ltac:(lia)) as Hlive. rewrite tail_run_snoc in Hlive. cbn in Hlive.
    split; rewrite ?E1, ?E2, ?E3, ?tail_run_snoc; cbn; rewrite ?Hlive, <-?H1; [|lia..| |].
    + rewrite Hs, H3. clear -H4 H5. subst r'.
      destruct (ds_state d) eqn:Ed; cbn; try (by split; [done|intros [? _]]); try done;
        match goal with |- context [r <=? ?n] => destruct (Z.leb_spec r n) end; cbn.
      * split; [done|]. rewrite (H4 eq_refl). intros [_ ?]. lia.
      * split; [|done]. rewrite (H4 eq_refl). intros _. split; [done|]. lia.
      * split; [done|]. intros [_ ?]. lia.
      * split; [|done]. intros _. split; [done|]. lia.
    + rewrite Hs. destruct (ds_state d); cbn; repeat case_match; done.
    + rewrite Hs. destruct (ds_state d); cbn; repeat case_match; done.
  - (* anomalous *)
    destruct (ev_insufficient_data e); [by specialize (Hins eq_refl)|].
    pose proof (live_snoc_true o' r' l ltac:(lia) ltac:(lia)) as Hlive. rewrite tail_run_snoc in Hlive. cbn in Hlive.
    split; rewrite ?E1, ?E2, ?E3, ?tail_run_snoc; cbn; rewrite ?Hlive, <-?H1; [|lia..| |].
    + rewrite Hs, H2. clear -H5. subst o'.
      destruct (ds_state d); cbn; try done; try (by split; [left|]);
        match goal with |- context [o <=? ?n] => destruct (Z.leb_spec o n) end; cbn; split; try done;
        try (intros [?|?]; [done|lia]); intros _; right; lia.
    + done.
    + rewrite Hs. destruct (ds_state d); cbn; repeat case_match; done.
  - (* unknown *)
    split; rewrite ?E1, ?E2, ?E3; try done.
    + rewrite <-H1, Hs. destruct (ds_state d), (ev_insufficient_data e); done.
    + rewrite Hs. intros Ho. apply H4. revert Ho. destruct (ds_state d), (ev_insufficient_data e); done.
    + rewrite Hs. destruct (ds_state d), (ev_insufficient_data e); done.
Qed.

(** One judged bucket of a run. *)
Lemma seen_step clock fingerprint settings so t o r x d w l :
  seen_ok t x → fresh d (sn_metric x) →
  tracks_verdicts (Z.to_nat (Z.max 1 o)) (Z.to_nat (Z.max 1 r)) l d →
  ∃ d' w', apply_hysteresis clock fingerprint settings so o r (sn_metric x) (sn_evidence x) (sn_maintenance x) d w = Ok (d', w') ∧
    tracks_verdicts (Z.to_nat (Z.max 1 o)) (Z.to_nat (Z.max 1 r)) (l ++ option_list (verdict x)) d' ∧
    ds_last_interval_start d' = Some (mt_bucket_start (sn_metric x)).
Proof.
  intros (Ht & Hf & Ha & Hm & Hins) Hfr Htr. rewrite Hm.
  destruct (hysteresis_step clock fingerprint settings so o r (sn_metric x) (sn_evidence x) false d w Hf Hfr)
    as (d' & w' & H & Hs & Hc & Hl).
  exists d', w'. split; [exact H|]. split; [|exact Hl].
  pose proof (tracks_step o r (sn_metric x) (sn_evidence x) d l _ _ _ Htr Hins eq_refl Hc d' Hs eq_refl eq_refl) as Hstep.
  unfold verdict. destruct (ev_signal (sn_evidence x)); cbn [option_list]; rewrite ?app_nil_r; exact Hstep.
Qed.

Lemma run_tracks clock fingerprint settings so t o r xs : Forall (seen_ok t) xs → in_order xs →
  ∀ d w l, Forall (λ x, fresh d (sn_metric x)) xs →
  tracks_verdicts (Z.to_nat (Z.max 1 o)) (Z.to_nat (Z.max 1 r)) l d →
  ∃ d' w', run_detector clock fingerprint settings so o r xs (d, w) = Ok (d', w') ∧
    tracks_verdicts (Z.to_nat (Z.max 1 o)) (Z.to_nat (Z.max 1 r)) (l ++ omap verdict xs) d'.
Proof.
  intros Hok Hord. induction Hord as [|x xs Hord IH Hlt]; intros d w l Hf Htr.
  { exists d, w. cbn. by rewrite app_nil_r. }
  apply Forall_cons in Hok as [Hx Hok]. apply Forall_cons in Hf as [Hf1 Hf].
  destruct (seen_step clock fingerprint settings so t o r x d w l Hx Hf1 Htr) as (d1 & w1 & H & Htr1 & Hl1).
  destruct (IH Hok d1 w1 (l ++ option_list (verdict x))) as (d' & w' & Hrun & Hfin); [|exact Htr1|].
  - rewrite Forall_forall in Hlt, Hok |- *. intros y Hy. destruct (Hok y Hy) as (_ & _ & Hay & _).
    split; [done|]. intros s Hs. rewrite Hl1 in Hs. injection Hs as <-. split; [apply Hx|]. by apply Hlt.
  - exists d', w'. unfold run_detector in *. cbn [foldM fst snd]. rewrite H. cbn [res_bind]. split; [exact Hrun|].
    rewrite <-app_assoc in Hfin. cbn [omap list_omap]. destruct (verdict x); exact Hfin.
Qed.

(** C26: confirmation and recovery, stated without counters. A detector that sees buckets in
    order, outside maintenance, always returns, and its incident is open (OPEN or
    RECOVERING) exactly when the verdicts it reached, the unjudgeable buckets left out,
    hold a run of [open_after] abnormal ones with no run of [resolve_after] normal ones
    after it. So one abnormal bucket does not open an incident, a bucket without a verdict
    neither opens nor resolves one, and a relapse keeps the same incident open. *)
Theorem incident_open_iff clock fingerprint settings so t open_after resolve_after xs w :
  Forall (seen_ok t) xs → in_order xs →
  ∃ d' w', run_detector clock fingerprint settings so open_after resolve_after xs (new_detector_state, w) = Ok (d', w') ∧
    (ds_state d' ∈ [AS_OPEN; AS_RECOVERING] ↔
     live_breach (Z.to_nat (Z.max 1 open_after)) (Z.to_nat (Z.max 1 resolve_after)) (omap verdict xs)).
Proof.
  intros Hok Hord.
  destruct (run_tracks clock fingerprint settings so t open_after resolve_after xs Hok Hord new_detector_state w [])
    as (d' & w' & H & Htr).
  - eapply Forall_impl; [exact Hok|]. intros x (_ & _ & Ha & _). split; [exact Ha|]. intros l Hl. discriminate Hl.
  - split; try done. cbn. split; [done|]. intros (pre & post & E & _).
    apply (f_equal length) in E. rewrite !length_app, length_replicate in E. cbn in E. lia.
  - exists d', w'. split; [exact H|]. rewrite <-(tv_open _ _ _ _ Htr). unfold opened_state. by rewrite bool_decide_eq_true.
Qed.

(** The alert follows the incident. For a detector whose silence is not record-only,
    whatever buckets it sees (replayed, unjudgeable and in maintenance included), the
    condition has an active alert after the run exactly when the incident is OPEN or
    RECOVERING, and the alert table keeps at most one active alert per condition: an
    incident is never open without an alert, and no alert outlives its incident. *)
Theorem alert_follows_incident clock fingerprint settings so t open_after resolve_after xs w d' w' :
  Forall (λ x, ev_anomaly_type (sn_evidence x) = t) xs →
  (t = AT_NO_EVENTS → so_outage_mode so = OM_ALERT) →
  index_ok (as_rows (w_alerts w)) → index_ok (as_committed (w_alerts w)) →
  find_active (as_rows (w_alerts w)) (fingerprint t) = None →
  run_detector clock fingerprint settings so open_after resolve_after xs (new_detector_state, w) = Ok (d', w') →
  index_ok (as_rows (w_alerts w')) ∧
  (is_Some (find_active (as_rows (w_alerts w')) (fingerprint t)) ↔ ds_state d' ∈ [AS_OPEN; AS_RECOVERING]).
Proof.
  intros Hty Hmode H1 H2 Hn H.
  assert (Hal : alert_follows fingerprint t d' w').
  { refine (foldM_inv (λ dw, alert_follows fingerprint t dw.1 dw.2) _ _ (new_detector_state, w) (d', w') _ _ H).
    - intros [d1 w1] x [d2 w2] Hx Hal Hstep. cbn [fst snd] in *. rewrite Forall_forall in Hty.
      eapply hysteresis_follows; [by apply Hty| |exact Hstep|exact Hal].
      unfold record_only. rewrite (Hty x Hx). destruct (bool_decide (t = AT_NO_EVENTS)) eqn:E; [|done].
      apply bool_decide_eq_true in E. by rewrite (Hmode E).
    - split; [done|]. unfold alert_live. cbn [snd fst]. rewrite Hn. split; [by intros []|done]. }
  destruct Hal as [[Hs _] Hl]. split; [exact Hs|]. unfold alert_live in Hl. rewrite Hl.
  unfold opened_state. by rewrite bool_decide_eq_true.
Qed.

(** An unjudgeable bucket is reported as one more occurrence. On an OPEN incident, a
    bucket without a verdict holds the state, as it must, but it also refreshes the active
    alert as if the interval had been abnormal: the occurrence count goes up by one and the
    alert's severity becomes INFO, the severity of an evidence that says nothing. *)
Theorem unjudged_bucket_downgrades_alert clock fingerprint settings so t o r m d w i a interval_start interval_end reason n :
  ds_state d = AS_OPEN → fresh d m → (t = AT_NO_EVENTS → so_outage_mode so = OM_ALERT) →
  find_active (as_rows (w_alerts w)) (fingerprint t) = Some i → as_rows (w_alerts w) !! i = Some a →
  ∃ d' w' a', apply_hysteresis clock fingerprint settings so o r m
      (insufficient t interval_start interval_end reason n) false d w = Ok (d', w') ∧
    ds_state d' = AS_OPEN ∧ as_rows (w_alerts w') !! i = Some a' ∧ al_status a' = al_status a ∧
    al_occurrence_count a' = al_occurrence_count a + 1 ∧ al_severity a' = SEV_INFO.
Proof.
  intros Hs Hfr Hmode Hf Ha. set (e := insufficient t interval_start interval_end reason n).
  assert (Hrec : record_only so e = false).
  { unfold record_only. cbn. destruct (bool_decide (t = AT_NO_EVENTS)) eqn:E; [|done].
    apply bool_decide_eq_true in E. by rewrite (Hmode E). }
  unfold apply_hysteresis. rewrite fresh_not_folded by done. cbn [res_bind]. cbn zeta.
  set (d1 := set_last _ _). unfold next_state. cbn [li_suppressed li_state li_insufficient_data andb].
  change (ds_state d1) with (ds_state d). rewrite Hs. cbn [decide].
  unfold apply_transition. cbn zeta. change (ds_state d1) with (ds_state d). rewrite Hs.
  rewrite !decide_True by done. unfold refresh. rewrite Hrec.
  set (w1 := noted _ w). unfold open_or_update. cbn zeta. cbn [ticked as_rows].
  change (in_fingerprint (alert_input fingerprint so e (ds_open_anomaly_id d1))) with (fingerprint t).
  change (as_rows (w_alerts w1)) with (as_rows (w_alerts w)). rewrite Hf. cbn [res_bind fst snd].
  edestruct (touch_returns d1 m e) as [w2 Hw2]; [|rewrite Hw2].
  { split; [|by eexists]. intros k _. by eexists. }
  apply touch_alerts in Hw2. cbn [res_bind]. eexists d1, w2, _. split; [done|]. split; [done|].
  rewrite Hw2. cbn [with_alerts w_alerts write with_rows as_rows ticked]. rewrite list_lookup_alter_eq.
  change (as_rows (w_alerts w1)) with (as_rows (w_alerts w)). rewrite Ha. split; [reflexivity|]. done.
Qed.
