(* ===== verification/EngineDetectTheorems.v ===== *)
(** * From stored rows to verdicts: it returns

    On rows, baselines and thresholds of ordinary size, judging a bucket never raises, so the
    evaluation loop passes every pending bucket by judging it. *)

From S2P Require Import Prelude PyStr PyFloat PyFloatFacts PyTime PyJson Enums AnomalyLifecycle AlertService AnomalyEngine Seasonal BusinessHours Detectors DetectorFacts DetectorTheorems Thresholds Baseline OutagePolicy Capabilities EngineContext EngineRun EnginePending EnginePendingTheorems.

(** ** Facts a detector reports convert *)

Lemma plain_fact_get o k v : plain_facts o = true → dict_get o k = Some v → plain_fact (k, v) = true.
Proof.
  induction o as [|[k' v'] o IH]; [done|]. cbn [plain_facts forallb dict_get]. intros [H Ho]%andb_prop.
  destruct (decide (k = k')) as [->|]; [by intros [= <-]|by apply IH].
Qed.

Lemma plain_facts_ok e : plain_facts (ev_extra e) = true → facts_ok e.
Proof.
  intros H. split.
  - intros k Hk. destruct (dict_get (ev_extra e) k) as [v|] eqn:E; [|apply ok_ret].
    apply (plain_fact_get _ _ _ H) in E. destruct v; try apply ok_ret.
    unfold plain_fact in E. cbn [fst snd] in E. apply bool_decide_eq_true_1 in E. done.
  - destruct (dict_get (ev_extra e) "baseline_version") as [v|] eqn:E; [|apply ok_ret].
    apply (plain_fact_get _ _ _ H) in E. destruct v; try apply ok_ret. discriminate E.
Qed.

(** ** The engine returns *)

Definition states_aware (states : gmap string DetectorState) : Prop :=
  map_Forall (λ _ d, ∀ l, ds_last_interval_start d = Some l → aware l) states.

Section Interval.
Context (clock : nat → datetime) (fingerprint : AnomalyType → string) (settings : EngineSettings) (so : Source).

Lemma state_of_aware states t l : states_aware states → ds_last_interval_start (state_of states t) = Some l → aware l.
Proof.
  intros H. unfold state_of. destruct (states !! AnomalyType_value t) as [d|] eqn:E; cbn [default]; [|done].
  by apply (H _ _ E).
Qed.

Lemma hysteresis_returns o r m e b d w : facts_ok e → aware (mt_bucket_start m) →
  (∀ l, ds_last_interval_start d = Some l → aware l) → ∃ d' w',
  apply_hysteresis clock fingerprint settings so o r m e b d w = Ok (d', w') ∧
  (∀ l, ds_last_interval_start d' = Some l → aware l).
Proof.
  intros Hf Ha Hl. unfold apply_hysteresis.
  assert (∃ x, already_folded d m = Ok x) as [x ->].
  { unfold already_folded. destruct (ds_last_interval_start d) as [l|]; [|by eexists].
    unfold dt_ge. rewrite dt_le_ok by (by rewrite Ha, (Hl l eq_refl)). by eexists. }
  cbn [res_bind]. destruct x; [by eauto|].
  edestruct transition_returns as (d' & w' & H); [exact Hf|]. exists d', w'. split; [exact H|].
  apply transition_frame in H as (_ & _ & _ & ->). cbn. by intros l [= <-].
Qed.

Lemma run_detectors_facts unmet evs r : Forall facts_ok evs → Forall facts_ok (run_detectors unmet evs r).1.
Proof.
  intros H. unfold run_detectors.
  assert (Hk : ∀ acc r, Forall facts_ok acc → Forall facts_ok (foldl (λ '(results, r) e,
    match unmet (ev_anomaly_type e) with
    | None => (results ++ [e], r)
    | Some reason => (results, report_unsupported (ev_anomaly_type e) reason r)
    end) (acc, r) evs).1).
  { induction H as [|e evs He _ IH]; intros acc r0 Hacc; cbn [foldl]; [done|].
    destruct (unmet (ev_anomaly_type e)); apply IH; [done|]. apply Forall_app. split; [done|]. by constructor. }
  specialize (Hk [] r (Forall_nil_2 _)). destruct (foldl _ _ _) as [results r1]. cbn [fst] in *.
  destruct (match list_find _ results with Some _ => _ | None => _ end); [|done].
  apply Forall_fmap. eapply Forall_impl; [exact Hk|]. intros e He. cbn. by destruct (decide _).
Qed.

Lemma interval_returns thresholds unmet evs m states w : Forall facts_ok evs → aware (mt_bucket_start m) →
  states_aware states → is_ok (source_in_maintenance so (mt_bucket_start m)) →
  ∃ states' w', evaluate_interval clock fingerprint settings so thresholds unmet evs m states w = Ok (states', w') ∧
    states_aware states'.
Proof.
  intros Hf Ha Hs [b Hb]. unfold evaluate_interval. destruct (negb _); [by eauto|]. rewrite Hb. cbn [res_bind].
  pose proof (run_detectors_facts unmet evs (w_report (with_report empty_report w)) Hf) as He.
  destruct (run_detectors _ _ _) as [es rep]. cbn [fst] in He. generalize (with_report rep (with_report empty_report w)). clear w.
  revert states Hs. induction He as [|e es Hfe _ IH]; intros states Hs w; cbn [foldM]; [by eauto|].
  destruct (thresholds (ev_anomaly_type e)) as [o r]. cbn [fst snd].
  destruct (hysteresis_returns o r m e b (state_of states (ev_anomaly_type e))
    (if is_anomalous e then noted (report_anomalous (ev_anomaly_type e)) w else w)) as (d' & w' & H & Hd'); [done..| |].
  { intros l. by apply state_of_aware. }
  rewrite H. cbn [res_bind fst snd]. apply IH.
  intros k d. destruct (decide (AnomalyType_value (ev_anomaly_type e) = k)) as [<-|Hk].
  - rewrite lookup_insert_eq. by intros [= <-].
  - rewrite lookup_insert_ne by done. apply Hs.
Qed.
End Interval.

(** ** The context is of ordinary size *)

Definition provenance_ok (prov : option jobj) : Prop :=
  match assoc (or_empty prov) "telemetry" with Some (JList l) => forallb hashable l = true | _ => True end.

(** A stored row of ordinary size; the bucket's width is a 32-bit column. *)
Definition tame_row (m : MetricRow) : Prop :=
  aware (mr_bucket_start m) ∧ 0 <= mr_bucket_seconds m < 2 ^ 32 ∧ small (mr_event_count m) ∧ tame (mr_average_eps m) ∧
  tame_opt (mr_event_delay_seconds m) ∧ small (mr_unknown_event_count m) ∧ tame_opt (mr_parsed_username_ratio m) ∧
  tame_opt (mr_parsed_source_ip_ratio m) ∧ small (mr_distinct_source_ip_count m) ∧
  small (mr_collection_error_count m) ∧ provenance_ok (mr_query_provenance m).

Definition tame_baselines (baselines : baseline_table) : Prop := map_Forall (λ _ row, tame_cell (cell_of row)) baselines.

Definition small_interval (cso : ContextSource) : Prop :=
  match cs_expected_interval_seconds cso with Some n => small n | None => True end.

Lemma length_last_n {A} n (l : list A) : 0 <= n → Z.of_nat (length (last_n n l)) <= n.
Proof. intros Hn. unfold last_n. rewrite length_drop. lia. Qed.

Lemma length_omap_le {A B} (f : A → option B) l : (length (omap f l) <= length l)%nat.
Proof. induction l as [|x l IH]; cbn; [lia|]. destruct (f x); cbn; lia. Qed.

Lemma empty_streak_bounds l : 0 <= empty_streak l <= Z.of_nat (length l).
Proof. induction l as [|m l IH]; cbn [empty_streak length]; [lia|]. case_match; lia. Qed.

Lemma preceding_bounds metrics before : 0 <= preceding_empty_buckets metrics before <= EMPTY_LIMIT.
Proof.
  unfold preceding_empty_buckets. pose proof (empty_streak_bounds (rev (last_n EMPTY_LIMIT
    (filter (λ m, dt_us (mr_bucket_start m) < dt_us before ∧ is_live m = true) metrics)))) as H.
  rewrite length_rev in H. pose proof (length_last_n EMPTY_LIMIT
    (filter (λ m, dt_us (mr_bucket_start m) < dt_us before ∧ is_live m = true) metrics) ltac:(done)). lia.
Qed.

Lemma recent_bounds metrics before : Z.of_nat (length (recent_signatures metrics before)) <= SIGNATURE_LIMIT.
Proof.
  unfold recent_signatures. set (l := filter _ _).
  pose proof (length_omap_le mr_payload_signature (last_n SIGNATURE_LIMIT l)). pose proof (length_last_n SIGNATURE_LIMIT l ltac:(done)). lia.
Qed.

Lemma cells_tame baselines w h : tame_baselines baselines → map_Forall (λ _, tame_cell) (baseline_cells baselines w h).
Proof.
  intros H k c Hc. unfold baseline_cells in Hc. apply elem_of_list_to_map_2 in Hc.
  apply list_elem_of_omap in Hc as ([[[mt w'] h'] row] & Hin & Hrow). cbn in Hrow.
  case_decide; [|done]. injection Hrow as _ <-. apply elem_of_map_to_list in Hin. by apply (H _ _ Hin).
Qed.

Lemma telemetry_returns cs prov : provenance_ok prov → is_ok (bucket_telemetry cs prov).
Proof.
  unfold provenance_ok, bucket_telemetry. destruct (assoc _ _) as [[]|]; intros H; try apply ok_ret.
  rewrite H. apply ok_ret.
Qed.

Section Context.
Context (zoneinfo : string → (Z → Z) + string) (cso : ContextSource) (thr : Thresholds) (outage : ResolvedOutage).
Context (baselines : baseline_table) (metrics : list MetricRow).
Context (Hthr : tame_thresholds thr) (Hb : tame_baselines baselines) (Hi : small_interval cso).

Lemma context_returns warned m : tame_row m → ∃ ctx warned',
  build_context zoneinfo cso thr outage baselines metrics warned m = Ok (ctx, warned') ∧ tame_context ctx.
Proof using Hthr Hb Hi.
  intros (Ha & Hs & He & Hv & Hd & Hu & Hpu & Hps & Hip & Hce & _). unfold build_context. cbv zeta.
  assert (small (or_int (cs_expected_interval_seconds cso) (or_int (Some (mr_bucket_seconds m)) 300))) as Hsm.
  { unfold small_interval in Hi. unfold or_int, small in *.
    destruct (cs_expected_interval_seconds cso); repeat case_match; lia. }
  destruct (small_float _ Hsm) as (x & -> & Hx). cbn [res_bind].
  destruct (is_expected_active _ _ _ _) as [[act warned'] msg]. eexists _, _. split; [done|].
  split; cbn [cx_point cx_thresholds cx_baselines cx_expected_interval_seconds cx_recent_signatures cx_preceding_empty_buckets].
  - unfold tame_point, point_of, bucket_end.
    cbn [mp_interval_start mp_interval_end mp_event_count mp_average_eps mp_event_delay_seconds mp_unknown_event_count
         mp_parsed_username_ratio mp_parsed_source_ip_ratio mp_distinct_source_ip_count mp_collection_error_count].
    split_and!; try done.
    + unfold dt_same, dt_add. cbn. apply eqb_reflx.
    + unfold dt_add, td_seconds, us_per_second. cbn [dt_us]. lia.
  - unfold with_grace. by destruct (ro_silence_grace_buckets outage).
  - by apply cells_tame.
  - by eapply below_mono.
  - unfold small. pose proof (recent_bounds metrics (mr_bucket_start m)). unfold SIGNATURE_LIMIT in *. lia.
  - unfold small. pose proof (preceding_bounds metrics (mr_bucket_start m)). unfold EMPTY_LIMIT in *. lia.
Qed.
End Context.

(** ** Every pending bucket is judged *)

Section Judged.
Context (clock : nat → datetime) (fingerprint : AnomalyType → string) (zoneinfo : string → (Z → Z) + string).
Context (settings : EngineSettings) (mfr : float) (so : Source) (cso : ContextSource).
Context (resolved : option AnomalyType → Thresholds) (outage : ResolvedOutage).
Context (baselines : baseline_table) (metrics : list MetricRow).

Abbreviation judge :=
  (evaluate_bucket clock fingerprint zoneinfo settings mfr so cso resolved outage baselines metrics) (only parsing).

(** What the source is configured with is of ordinary size. *)
Record tame_source : Prop := {
  ts_floor : tame mfr; ts_thresholds : tame_thresholds (resolved None); ts_baselines : tame_baselines baselines;
  ts_interval : small_interval cso; ts_maintenance : ∀ t, so_maintenance_until so = Some t → aware t }.

Context (Hso : tame_source).

Lemma bucket_returns m s : tame_row m → states_aware (sw_states s) →
  ∃ r s', judge m s = Ok (r, s') ∧ states_aware (sw_states s').
Proof using Hso.
  intros Hm Hs. pose proof Hm as (Ha & _ & _ & _ & _ & _ & _ & _ & _ & _ & Hp). destruct Hso as [H1 H2 H3 H4 H5].
  assert (Hmt : is_ok (source_in_maintenance so (mr_bucket_start m))).
  { unfold source_in_maintenance. case_match; [apply ok_ret|]. destruct (so_maintenance_until so) as [u|]; [|apply ok_ret].
    rewrite dt_le_ok; [apply ok_ret|]. by rewrite Ha, (H5 u). }
  assert (Hgo : ∀ unmet evs warned, Forall facts_ok evs → ∃ r s',
    (r <- evaluate_interval clock fingerprint settings so (hysteresis_thresholds resolved) unmet evs (metric_of m)
           (sw_states s) (sw_world s) ;;
     Ok (w_report r.2, {| sw_states := r.1; sw_world := r.2; sw_warned := warned |})) = Ok (r, s') ∧
    states_aware (sw_states s')).
  { intros unmet evs warned He.
    destruct (interval_returns clock fingerprint settings so (hysteresis_thresholds resolved) unmet evs (metric_of m)
      (sw_states s) (sw_world s)) as (states' & w' & -> & Hs'); [done..|]. by eexists _, _. }
  unfold evaluate_bucket. cbv zeta. destruct (negb _); [by apply Hgo|].
  destruct Hmt as [b ->]. cbn [res_bind].
  destruct (context_returns zoneinfo cso (resolved None) outage baselines metrics H2 H3 H4 (sw_warned s) m Hm)
    as (ctx & warned' & -> & Hctx). cbn [res_bind fst snd].
  destruct (telemetry_returns (mr_collection_source m) _ Hp) as [tel ->]. cbn [res_bind].
  destruct (detect_all_ok mfr ctx H1 Hctx) as [evs E]. rewrite E. cbn [res_bind]. apply Hgo.
  apply detect_all_reports in E. eapply Forall2_Forall_r; [exact E|].
  apply Forall_true. by intros at_ ev [_ ?%plain_facts_ok].
Qed.

Lemma passed_all_judged faults s ms s' : passed judge faults s ms s' → Forall tame_row ms → states_aware (sw_states s) →
  foldM (λ w m, res_map snd (judge m w)) s ms = Ok s' ∧ states_aware (sw_states s').
Proof using Hso.
  induction 1 as [s|m r s s1 ms s2 J _ IH|m e s ms s2 J _ _ IH]; intros Hm Hs; [done|..];
    apply Forall_cons in Hm as [Hm Hms]; destruct (bucket_returns m s Hm Hs) as (r' & s1' & J' & Hs1).
  - cbn [foldM]. rewrite J. cbn [res_map res_bind snd]. apply IH; [done|]. rewrite J in J'. by injection J' as <- <-.
  - congruence.
Qed.
End Judged.

(** C4: Detection, hysteresis and the evaluation loop composed. When the stored rows and
    baselines, the thresholds and the settings are of ordinary size, a tick judges every
    due bucket, whatever the traffic: the world after the tick is the one the buckets'
    evaluations leave, one after the other, none raising, and the watermark stands at the
    last of them. *)
Theorem every_bucket_judged clock fingerprint zoneinfo settings mfr so cso resolved outage baselines metrics
    bookkeeping max_buckets max_attempts wm s r s' :
  let judge := evaluate_bucket clock fingerprint zoneinfo settings mfr so cso resolved outage baselines metrics in
  tame_source mfr so cso resolved baselines → Forall tame_row metrics → in_order metrics →
  pd_watermark s = Some wm → states_aware (sw_states (pd_world s)) →
  evaluate_pending judge clock bookkeeping max_buckets max_attempts true metrics s = (r, s') →
  let due := take max_buckets (pending_rows metrics wm) in
  foldM (λ w m, res_map snd (judge m w)) (pd_world s) due = Ok (pd_world s') ∧ reached s' = reaches due (reached s) ∧
  states_aware (sw_states (pd_world s')).
Proof.
  intros judge Hso Hrows Ho Hw Hs H due.
  assert (Hpend : Forall tame_row (pending_rows metrics wm)) by (rewrite Forall_forall in *; intros x [_ Hx]%list_elem_of_filter; by apply Hrows).
  destruct (pending_tick_passes judge clock bookkeeping max_buckets max_attempts metrics wm s r s' Ho Hw H)
    as (d & rest & wm' & Hd & Hl & Hp & _ & Hr & _ & Hstop).
  rewrite Hd in Hpend. apply Forall_app in Hpend as [Hpd Hpr].
  destruct (passed_all_judged _ _ _ _ _ _ _ _ _ _ _ Hso _ _ _ _ Hp Hpd Hs) as [Hfold Hs'].
  enough (due = d) as -> by (split_and!; [exact Hfold|exact Hr|exact Hs']). unfold due. rewrite Hd. destruct Hstop as [->|[<-|(m & rest' & e & -> & J & _)]].
  - rewrite app_nil_r. by apply take_ge.
  - by apply take_app_length.
  - exfalso. apply Forall_cons in Hpr as [Hm _].
    destruct (bucket_returns clock fingerprint zoneinfo settings mfr so cso resolved outage baselines metrics Hso m _ Hm Hs')
      as (r' & s1 & J' & _). subst judge. congruence.
Qed.
