(* ===== verification/EngineExamples.v ===== *)
(** * A concrete source

    The theorems of the anomaly engine on a source whose volume drops for two buckets and
    comes back. *)

From S2P Require Import Prelude Runs PyStr PyFloat PyTime PyJson Enums AnomalyLifecycle AlertService AlertFacts AnomalyEngine EngineRun EngineTheorems PyFloatFacts Seasonal BusinessHours Detectors DetectorFacts Baseline OutagePolicy Capabilities EngineContext EnginePending EnginePendingTheorems EngineDetectTheorems DetectExamples.

Definition ex_clock (n : nat) : datetime := utc (td_hours 100).
Definition ex_fingerprint (t : AnomalyType) : string := "anomaly:" +:+ AnomalyType_value t.

Definition ex_source : Source :=
  {| so_id := 7; so_name := "web-1"; so_owner := None; so_criticality := "HIGH"; so_monitoring_enabled := true;
     so_maintenance_mode := false; so_maintenance_until := None; so_source_class := None; so_outage_mode := OM_ALERT |}.

Definition ex_settings : EngineSettings :=
  {| es_explanation_enabled := true; es_anomaly_policy_version := 1; es_has_enqueuer := true |}.

Definition ex_world : World :=
  {| w_incidents := []; w_moves := []; w_alerts := {| as_rows := []; as_committed := []; as_ticks := 0 |};
     w_queue := []; w_report := empty_report |}.

Definition ex_metric (h : Z) : Metric := {| mt_bucket_start := utc (td_hours h); mt_bucket_seconds := 3600 |}.

Definition ex_evidence (h : Z) (abnormal : bool) : AnomalyEvidence :=
  {| ev_anomaly_type := AT_VOLUME_DROP; ev_signal := if abnormal then DS_ANOMALOUS else DS_HEALTHY;
     ev_severity := SEV_HIGH; ev_observed_value := Some f1; ev_expected_value := Some f1; ev_baseline_low := None;
     ev_baseline_high := None; ev_deviation_score := None; ev_threshold := None; ev_sample_count := 20;
     ev_interval_start := utc (td_hours h); ev_interval_end := utc (td_hours (h + 1)); ev_confidence := f1;
     ev_reason := "dropped"; ev_extra := [("ratio", JFloat f1); ("baseline_version", JInt 3)];
     ev_insufficient_data := false |}.

Definition ex_seen (h : Z) (abnormal : bool) : Seen :=
  {| sn_metric := ex_metric h; sn_evidence := ex_evidence h abnormal; sn_maintenance := false |}.

Definition ex_buckets : list Seen := [ex_seen 1 true; ex_seen 2 true; ex_seen 3 false].

Lemma ex_seen_ok : Forall (seen_ok AT_VOLUME_DROP) ex_buckets.
Proof.
  repeat constructor; try done; cbn; intros; try (by eexists);
    repeat match goal with H : _ ∈ _ :: _ |- _ => apply elem_of_cons in H as [->|H] end;
    try (by eexists); by apply elem_of_nil in H.
Qed.

Lemma ex_in_order : EngineTheorems.in_order ex_buckets.
Proof. repeat constructor. Qed.

Lemma incident_open_iff_witness : ∃ d' w',
  run_detector ex_clock ex_fingerprint ex_settings ex_source 2 3 ex_buckets (new_detector_state, ex_world) = Ok (d', w') ∧
  ds_state d' ∈ [AS_OPEN; AS_RECOVERING].
Proof.
  destruct (incident_open_iff ex_clock ex_fingerprint ex_settings ex_source AT_VOLUME_DROP 2 3 ex_buckets ex_world ex_seen_ok ex_in_order)
    as (d' & w' & H & Hiff).
  exists d', w'. split; [exact H|]. apply Hiff. exists [], [false]. split; [reflexivity|].
  intros (a & b & E). apply (f_equal length) in E. rewrite !length_app, length_replicate in E. cbn in E. lia.
Defined.

Lemma ex_engine_index : index_ok [].
Proof. intros i j a b H. by rewrite lookup_nil in H. Qed.

Lemma alert_follows_incident_witness : ∃ d' w',
  run_detector ex_clock ex_fingerprint ex_settings ex_source 2 3 ex_buckets (new_detector_state, ex_world) = Ok (d', w') ∧
  is_Some (find_active (as_rows (w_alerts w')) (ex_fingerprint AT_VOLUME_DROP)).
Proof.
  destruct (run_detector ex_clock ex_fingerprint ex_settings ex_source 2 3 ex_buckets (new_detector_state, ex_world))
    as [[d' w']|e] eqn:E; [|vm_compute in E; discriminate].
  exists d', w'. split; [done|].
  apply (alert_follows_incident ex_clock ex_fingerprint ex_settings ex_source AT_VOLUME_DROP 2 3 ex_buckets ex_world d' w');
    [repeat constructor|done|exact ex_engine_index|exact ex_engine_index|reflexivity|exact E|].
  vm_compute in E. injection E as <- _. apply (bool_decide_unpack _). vm_compute. exact I.
Defined.

Definition ex_run : BucketRun :=
  {| bu_settings := ex_settings; bu_source := ex_source; bu_thresholds := λ _, (1, 1); bu_unmet := λ _, None;
     bu_verdicts := [ex_evidence 1 true]; bu_metric := ex_metric 1 |}.

Lemma one_live_incident_witness : ∃ states w, run_buckets ex_clock ex_fingerprint (∅, ex_world) [ex_run] = Ok (states, w) ∧
  ∃ j i, w_incidents w !! j = Some i ∧ ic_state i = AS_OPEN.
Proof.
  destruct (run_buckets ex_clock ex_fingerprint (∅, ex_world) [ex_run]) as [[states w]|e] eqn:E; [|vm_compute in E; discriminate].
  exists states, w. split; [done|].
  assert (Hs : ds_state (state_of states AT_VOLUME_DROP) = AS_OPEN) by (vm_compute in E; injection E as <- _; reflexivity).
  destruct (one_live_incident ex_clock ex_fingerprint [ex_run] ex_world states w) with (t := AT_VOLUME_DROP) as [_ H2];
    [intros j i Hj; change ((@nil Incident) !! j = Some i) in Hj; by rewrite lookup_nil in Hj|exact E|].
  destruct H2 as (j & i & Hj & _ & Hi); [by rewrite Hs|]. exists j, i. split; [exact Hj|]. by rewrite Hi.
Defined.

(** The open incident of [ex_buckets] after two buckets, with its HIGH alert. *)
Lemma unjudged_bucket_downgrades_alert_witness : ∃ d w d' w' a',
  run_detector ex_clock ex_fingerprint ex_settings ex_source 2 3 (take 2 ex_buckets) (new_detector_state, ex_world) = Ok (d, w) ∧
  apply_hysteresis ex_clock ex_fingerprint ex_settings ex_source 2 3 (ex_metric 3)
    (insufficient AT_VOLUME_DROP (utc (td_hours 3)) (utc (td_hours 4)) "metric bucket is partial" 0) false d w = Ok (d', w') ∧
  as_rows (w_alerts w') !! 0%nat = Some a' ∧ al_severity a' = SEV_INFO.
Proof.
  destruct (run_detector ex_clock ex_fingerprint ex_settings ex_source 2 3 (take 2 ex_buckets) (new_detector_state, ex_world))
    as [[d w]|e] eqn:E; [|vm_compute in E; discriminate].
  vm_compute in E. injection E as E1 E2.
  destruct (as_rows (w_alerts w) !! 0%nat) as [a|] eqn:Ea; [|rewrite <-E2 in Ea; discriminate Ea].
  destruct (unjudged_bucket_downgrades_alert ex_clock ex_fingerprint ex_settings ex_source AT_VOLUME_DROP 2 3 (ex_metric 3)
    d w 0%nat a (utc (td_hours 3)) (utc (td_hours 4)) "metric bucket is partial" 0) as (d' & w' & a' & H & _ & Ha' & _ & _ & Hsev).
  - by rewrite <-E1.
  - split; [done|]. intros l Hl. rewrite <-E1 in Hl. injection Hl as <-. done.
  - done.
  - rewrite <-E2. vm_compute. reflexivity.
  - exact Ea.
  - exists d, w, d', w', a'. split_and!; done.
Defined.

(** * Concrete ticks

    The evaluation loop on a source whose buckets cannot be judged, and the whole chain on
    one whose buckets can. *)


Definition ex_rows : list MetricRow := [ex_row 1 BC_COMPLETE; ex_row 2 BC_COMPLETE; ex_row 3 BC_COMPLETE].

Lemma ex_rows_in_order : EnginePendingTheorems.in_order ex_rows.
Proof. repeat constructor. Qed.

(** ** Buckets that cannot be judged *)

Definition ex_refuse (m : MetricRow) (w : unit) : result (EvaluationReport * unit) := Err (ZeroDivisionError "division by zero").

Definition ex_pending : @Pending unit :=
  {| pd_world := tt; pd_watermark := Some {| wm_evaluated_through := utc (td_hours 1); wm_updated_at := utc (td_hours 2) |};
     pd_faults := ∅; pd_open := None; pd_readings := 0 |}.

Definition ex_commits (n : nat) : Bookkeeping := BK_COMMITS.

Definition ex_tick : PendingReport * @Pending unit :=
  evaluate_pending ex_refuse ex_clock ex_commits 10 3 true ex_rows ex_pending.

Lemma pending_tick_exact_witness : ∃ wm', pd_watermark ex_tick.2 = Some wm' ∧ reached ex_tick.2 = Some (td_hours 1).
Proof.
  destruct (pending_tick_exact ex_refuse ex_clock ex_commits 10 3 ex_rows _ ex_pending ex_tick.1 ex_tick.2
    ex_rows_in_order eq_refl (surjective_pairing _)) as (done & rest & wm' & _ & _ & _ & Hw & _).
  exists wm'. split; [exact Hw|]. vm_compute. reflexivity.
Defined.


(** A new bucket each tick, and none ever given up. *)
Definition ex_never_judged : @Pending unit :=
  {| pd_world := tt; pd_watermark := None; pd_faults := ∅; pd_open := None; pd_readings := 0 |}.

Definition ex_newest (i : nat) : MetricRow := ex_row (Z.of_nat i) BC_COMPLETE.

Lemma first_evaluation_starves_witness :
  pd_watermark (ticks (λ _, ex_refuse) (λ i, [ex_newest i]) ex_clock ex_commits 10 3 100 0 ex_never_judged) = None.
Proof.
  refine (proj1 (first_evaluation_starves (λ _, ex_refuse) (λ i, [ex_newest i]) ex_clock ex_commits 10 3 ex_newest
    ex_never_judged 100 _ _ _ _ _ _ _)).
  - reflexivity.
  - intros i j Hij. unfold ex_newest, bucket_key, ex_row, utc, td_hours, us_per_second.
    cbn [mr_bucket_start dt_us]. lia.
  - intros i w [x H]. discriminate H.
  - reflexivity.
  - lia.
  - reflexivity.
  - reflexivity.
Defined.

(** ** Buckets that can *)

Definition ex_context_source : ContextSource :=
  {| cs_hours := bs_hours ex_baseline_source; cs_expected_interval_seconds := None |}.

Definition ex_outage : ResolvedOutage := resolve_outage [] None None None OM_ALERT.

Definition ex_stored_cell : BaselineRow :=
  {| br_cell := {| cs_median := lit 10 1; cs_mad := lit 1 1; cs_p05 := lit 8 1; cs_p95 := lit 12 1; cs_sample_count := 40;
                   cs_is_reliable := true; cs_observations := [] |};
     br_window_start := utc 0; br_window_end := utc 0; br_computed_at := utc 0; br_baseline_version := 1;
     br_completeness := f1; br_excluded_sample_count := 0; br_exclusion_counts := []; br_created_at := utc 0;
     br_updated_at := utc 0 |}.

Definition ex_source_world : SourceWorld := {| sw_states := ∅; sw_world := ex_world; sw_warned := ∅ |}.

Lemma ex_tame_source : tame_source ex_floor ex_source ex_context_source (λ _, ex_thresholds)
  {[("average_eps", 4, 2) := ex_stored_cell]}.
Proof.
  split.
  - by apply tame_b_tame; vm_compute.
  - unfold tame_thresholds, ex_thresholds. cbn [th_deviation_z th_spike_ratio th_drop_ratio th_min_parsed_ratio
      th_max_unknown_ratio th_delay_interval_multiple th_cardinality_drop_fraction th_collection_error_threshold
      th_repeated_payload_intervals]. closed_tame.
  - apply map_Forall_singleton. unfold tame_cell, cell_of, ex_stored_cell.
    cbn [br_cell br_completeness br_baseline_version cs_median cs_mad cs_p05 cs_p95 cs_sample_count cs_is_reliable bc_median
      bc_mad bc_p05 bc_p95 bc_sample_count bc_completeness tame_opt]. closed_tame.
  - done.
  - done.
Qed.

Lemma ex_rows_tame : Forall tame_row ex_rows.
Proof.
  repeat (apply Forall_cons_2; [unfold tame_row, ex_row;
    cbn [mr_bucket_start mr_bucket_seconds mr_event_count mr_average_eps mr_event_delay_seconds mr_unknown_event_count
      mr_parsed_username_ratio mr_parsed_source_ip_ratio mr_distinct_source_ip_count mr_collection_error_count
      mr_query_provenance tame_opt]; split_and!; try lia; closed_tame|]). apply Forall_nil_2.
Qed.

Definition ex_start : @Pending SourceWorld :=
  {| pd_world := ex_source_world;
     pd_watermark := Some {| wm_evaluated_through := utc (td_hours 1); wm_updated_at := utc (td_hours 2) |};
     pd_faults := ∅; pd_open := None; pd_readings := 0 |}.

Definition ex_judged : PendingReport * @Pending SourceWorld :=
  evaluate_pending
    (evaluate_bucket ex_clock ex_fingerprint ex_zoneinfo ex_settings ex_floor ex_source ex_context_source
       (λ _, ex_thresholds) ex_outage {[("average_eps", 4, 2) := ex_stored_cell]} ex_rows)
    ex_clock ex_commits 10 3 true ex_rows ex_start.

Lemma every_bucket_judged_witness : reached ex_judged.2 = Some (bucket_key (ex_row 3 BC_COMPLETE)).
Proof.
  exact (proj1 (proj2 (every_bucket_judged ex_clock ex_fingerprint ex_zoneinfo ex_settings ex_floor ex_source ex_context_source
    (λ _, ex_thresholds) ex_outage {[("average_eps", 4, 2) := ex_stored_cell]} ex_rows ex_commits 10 3 _ ex_start
    ex_judged.1 ex_judged.2 ex_tame_source ex_rows_tame ex_rows_in_order eq_refl (map_Forall_empty _)
    (surjective_pairing _)))).
Defined.
