(* ===== verification/ArielPermit.v ===== *)
(** * Ariel permits

    [services/ariel_permit.py]: the cross-process budget on Ariel searches, a step at a time.
    Every request runs on a connection of its own; a step is one statement of that
    connection or one reading of its clock, and the steps of all requests interleave in any
    order. A session advisory lock belongs to its connection: [pg_try_advisory_lock] succeeds
    on a free lock and on one the connection holds. A request leaves by its [finally], at any
    point where an exception, a cancellation or the death of its process takes it there, and
    its connection then holds nothing: the locks were released, or the connection closed.
    [value] is the number the console's digest gives. *)

From S2P Require Import Prelude PyStr PyFloat.

(** ** Settings *)

Record PermitSettings := {
  pm_instance_limit : Z; pm_global_limit : Z; pm_global_namespace : Z; pm_instance_namespace : Z;
  pm_wait_seconds : float; pm_poll_seconds : float; pm_reserved_live_slots : Z }.

(** What [Settings] validates of them: the bounds of the fields, the namespaces that differ, the
    reservation that fits. *)
Definition check_permit_settings (s : PermitSettings) : result unit :=
  _ <- raise_if (negb ((1 <=? pm_instance_limit s) && (pm_instance_limit s <=? 20))) (ValueError "ariel_max_concurrent_searches") ;;
  _ <- raise_if (negb ((1 <=? pm_global_limit s) && (pm_global_limit s <=? 50)))
         (ValueError "ariel_global_max_concurrent_searches") ;;
  _ <- raise_if (negb (0 <=? pm_reserved_live_slots s)) (ValueError "ariel_permit_reserved_live_slots") ;;
  _ <- raise_if (pm_global_namespace s =? pm_instance_namespace s)
         (ValueError "Advisory-lock namespaces must be pairwise distinct") ;;
  raise_if (pm_global_limit s <=? pm_reserved_live_slots s)
    (ValueError "ARIEL_PERMIT_RESERVED_LIVE_SLOTS must be below ARIEL_GLOBAL_MAX_CONCURRENT_SEARCHES").

Definition MAX_ADVISORY_SLOT : Z := 2 ^ 31 - 1.

(** [_instance_slot_base] *)
Definition instance_slot_base (value limit : Z) : Z := value mod ((MAX_ADVISORY_SLOT + 1) / limit) * limit.

(** ** One request *)

(** A request: its console's digest, its priority, and the clock when it began. *)
Record Request := { rq_instance : option Z; rq_background : bool; rq_started : float }.

Inductive Pool := INSTANCE | GLOBAL.

(** Where a request stands in [_acquire]: at the top of its loop, at the [i]-th slot of a
    pool, before the test of the wait, holding its permit, or past a refusal or an error. *)
Inductive Pc :=
| TRYING (inst : option Z)
| AT_POOL (which : Pool) (inst : option Z) (offset i : Z)
| WAITING (inst : option Z)
| HELD (inst : option Z) (glob : Z)
| LEAVING.

(** What a step draws: [random.randrange] of the pool and the clock. *)
Record Draw := { dr_offset : Z; dr_now : float }.

Abbreviation lock_table := (gmap (Z * Z) N).

(** [pg_try_advisory_lock] *)
Definition try_advisory_lock (pid : N) (ns slot : Z) (locks : lock_table) : bool * lock_table :=
  match locks !! (ns, slot) with
  | Some owner => (bool_decide (owner = pid), locks)
  | None => (true, <[(ns, slot) := pid]> locks)
  end.

(** [pg_advisory_unlock_all], or the end of the connection. *)
Definition unlock_all (pid : N) (locks : lock_table) : lock_table := filter (λ kv, kv.2 ≠ pid) locks.

Section Permit.
Context (s : PermitSettings).

(** [_instance_base] *)
Definition instance_base (r : Request) : option Z :=
  (λ value, instance_slot_base value (pm_instance_limit s)) <$> rq_instance r.

Definition first_global (r : Request) : Z := if rq_background r then pm_reserved_live_slots s else 0.

(** The arguments of [_try_pool]. *)
Definition pool_args (r : Request) (which : Pool) : Z * Z * Z :=
  match which with
  | INSTANCE => (pm_instance_namespace s, default 0 (instance_base r), pm_instance_limit s)
  | GLOBAL => (pm_global_namespace s, first_global r, pm_global_limit s - first_global r)
  end.

(** Entering [_try_pool]; [randrange] of an empty range raises. *)
Definition enter_pool (r : Request) (which : Pool) (inst : option Z) (d : Draw) : Pc :=
  let '(_, _, count) := pool_args r which in
  if count <=? 0 then LEAVING else AT_POOL which inst (dr_offset d mod count) 0.

(** One step of [_acquire]; [None] when there is none to take. *)
Definition advance (pid : N) (r : Request) (d : Draw) (locks : lock_table) (pc : Pc) : option (lock_table * Pc) :=
  match pc with
  | TRYING inst =>
      Some (locks, match instance_base r, inst with
                   | Some _, None => enter_pool r INSTANCE inst d
                   | _, _ => enter_pool r GLOBAL inst d
                   end)
  | AT_POOL which inst offset i =>
      let '(ns, first, count) := pool_args r which in
      if i <? count then
        let slot := first + (offset + i) mod count in
        let '(got, locks) := try_advisory_lock pid ns slot locks in
        Some (locks, if got then
                       match which with
                       | INSTANCE => enter_pool r GLOBAL (Some slot) d
                       | GLOBAL => HELD inst slot
                       end
                     else AT_POOL which inst offset (i + 1))
      else Some (locks, WAITING inst)
  | WAITING inst =>
      Some (locks, if flt (pm_wait_seconds s) (fadd (fsub (dr_now d) (rq_started r)) (pm_poll_seconds s))
                   then LEAVING else TRYING inst)
  | HELD _ _ | LEAVING => None
  end.

(** ** All requests *)

Record System := { sy_locks : gmap (Z * Z) N; sy_requests : gmap N (Request * Pc) }.

Definition empty_system : System := {| sy_locks := ∅; sy_requests := ∅ |}.

Inductive sys_step : System → System → Prop :=
| sys_begin y pid r : sy_requests y !! pid = None →
    sys_step y {| sy_locks := sy_locks y; sy_requests := <[pid := (r, TRYING None)]> (sy_requests y) |}
| sys_advance y pid r pc d locks pc' : sy_requests y !! pid = Some (r, pc) →
    advance pid r d (sy_locks y) pc = Some (locks, pc') →
    sys_step y {| sy_locks := locks; sy_requests := <[pid := (r, pc')]> (sy_requests y) |}
| sys_end y pid rpc : sy_requests y !! pid = Some rpc →
    sys_step y {| sy_locks := unlock_all pid (sy_locks y); sy_requests := delete pid (sy_requests y) |}.

Definition reachable (y : System) : Prop := rtc sys_step empty_system y.

(** [active_permits]: the held slots of the pools, for a budget with or without a console. *)
Definition active_permits (instance : option Z) (locks : lock_table) : Z * Z :=
  (Z.of_nat (size (filter (λ kv, kv.1.1 = pm_global_namespace s ∧ kv.1.2 < pm_global_limit s) locks)),
   Z.of_nat (size (filter (λ kv, kv.1.1 = pm_instance_namespace s ∧
     match instance with
     | None => true
     | Some value => let base := instance_slot_base value (pm_instance_limit s) in
                     (base <=? kv.1.2) && (kv.1.2 <? base + pm_instance_limit s)
     end = true) locks))).
End Permit.
