(* ===== verification/PermitTheorems.v ===== *)
(** * The permits hold their bounds

    Whatever the interleaving: the locks a request counts on are its own, so the pools bound
    how many permits are held at once, the reserved slots are never taken by background work,
    and a lock is only ever held by a request still running. *)

From S2P Require Import Prelude PyStr PyFloat ArielPermit.

(** ** Slots *)

Record valid_permit_settings (s : PermitSettings) : Prop := {
  vp_instance : 1 <= pm_instance_limit s <= 20; vp_global : 1 <= pm_global_limit s <= 50;
  vp_reserved : 0 <= pm_reserved_live_slots s < pm_global_limit s;
  vp_namespaces : pm_global_namespace s ≠ pm_instance_namespace s }.

Lemma check_permit_settings_valid s : check_permit_settings s = Ok tt → valid_permit_settings s.
Proof.
  unfold check_permit_settings, raise_if. intros H.
  repeat match type of H with context [if ?b then _ else _] => destruct b eqn:?; [discriminate H|cbn [res_bind] in H] end.
  bool_simp. split; lia.
Qed.

(** A console's slots are a whole aligned range of lock keys: it fits the 32-bit key of an
    advisory lock, and two consoles have either the same range or two that do not meet. *)
Theorem slot_ranges value value' limit : 1 <= limit <= 20 →
  (0 <= instance_slot_base value limit ∧ instance_slot_base value limit + limit - 1 <= MAX_ADVISORY_SLOT) ∧
  (instance_slot_base value limit = instance_slot_base value' limit ∨
   instance_slot_base value limit + limit <= instance_slot_base value' limit ∨
   instance_slot_base value' limit + limit <= instance_slot_base value limit).
Proof.
  intros Hl. unfold instance_slot_base, MAX_ADVISORY_SLOT. change (2 ^ 31 - 1 + 1) with 2147483648.
  set (ranges := 2147483648 / limit).
  assert (Hr : 0 < ranges) by (apply Z.div_str_pos; lia).
  assert (Hm : ranges * limit <= 2147483648) by (rewrite Z.mul_comm; apply Z.mul_div_le; lia).
  pose proof (Z.mod_pos_bound value ranges Hr). pose proof (Z.mod_pos_bound value' ranges Hr).
  split; [nia|]. destruct (Z.lt_total (value mod ranges) (value' mod ranges)) as [?|[->|?]]; [right; left|by left|right; right]; nia.
Qed.

Lemma slot_ranges_witness : instance_slot_base 123456789012345 3 + 3 - 1 <= MAX_ADVISORY_SLOT.
Proof. apply (slot_ranges 123456789012345 0 3). lia. Defined.

(** ** What a request counts on *)

Section Claims.
Context (s : PermitSettings) (Hs : valid_permit_settings s).

(** The locks a request has taken, with the ranges it took them from. *)
Definition inst_claim (r : Request) (inst : option Z) : list (Z * Z) :=
  match inst with Some slot => [(pm_instance_namespace s, slot)] | None => [] end.

Definition claims (r : Request) (pc : Pc) : list (Z * Z) :=
  match pc with
  | TRYING inst | AT_POOL _ inst _ _ | WAITING inst => inst_claim r inst
  | HELD inst glob => (pm_global_namespace s, glob) :: inst_claim r inst
  | LEAVING => []
  end.

Definition inst_ok (r : Request) (inst : option Z) : Prop :=
  ∀ slot, inst = Some slot → ∃ base, instance_base s r = Some base ∧ base <= slot < base + pm_instance_limit s.

(** A permit of a request with a console has a slot of the console. *)
Definition ranges_ok (r : Request) (pc : Pc) : Prop :=
  match pc with
  | TRYING inst | WAITING inst => inst_ok r inst
  | AT_POOL which inst offset i =>
      inst_ok r inst ∧ 0 <= i ∧ 0 <= offset ∧
      match which with INSTANCE => is_Some (instance_base s r) | GLOBAL => is_Some (instance_base s r) → is_Some inst end
  | HELD inst glob =>
      inst_ok r inst ∧ first_global s r <= glob < pm_global_limit s ∧ (is_Some (instance_base s r) → is_Some inst)
  | LEAVING => True
  end.

Record request_ok (locks : lock_table) (pid : N) (r : Request) (pc : Pc) : Prop := {
  ro_owned : ∀ k, k ∈ claims r pc → locks !! k = Some pid;
  ro_ranges : ranges_ok r pc }.

(** What holds of every reachable state. *)
Record sys_ok (y : System) : Prop := {
  so_requests : ∀ pid r pc, sy_requests y !! pid = Some (r, pc) → request_ok (sy_locks y) pid r pc;
  so_owners : ∀ k pid, sy_locks y !! k = Some pid → is_Some (sy_requests y !! pid);
  so_global : ∀ slot pid r pc, sy_locks y !! (pm_global_namespace s, slot) = Some pid →
    sy_requests y !! pid = Some (r, pc) → first_global s r <= slot }.

Lemma try_lock_keeps pid ns slot locks got locks' : try_advisory_lock pid ns slot locks = (got, locks') →
  (got = true → locks' !! (ns, slot) = Some pid) ∧
  (∀ k owner, locks !! k = Some owner → locks' !! k = Some owner) ∧
  (∀ k owner, locks' !! k = Some owner → locks !! k = Some owner ∨ owner = pid ∧ k = (ns, slot)).
Proof.
  unfold try_advisory_lock. destruct (locks !! (ns, slot)) as [owner|] eqn:E; intros [= <- <-].
  - split_and!; [|done|by left]. intros ->%bool_decide_eq_true_1. done.
  - split_and!.
    + intros _. by rewrite lookup_insert_eq.
    + intros k o Hk. rewrite lookup_insert_ne by congruence. done.
    + intros k o. destruct (decide ((ns, slot) = k)) as [<-|Hk].
      * rewrite lookup_insert_eq. intros [= <-]. by right.
      * rewrite lookup_insert_ne by done. by left.
Qed.

Lemma enter_pool_ok r which inst d locks pid : request_ok locks pid r (TRYING inst) →
  match which with INSTANCE => is_Some (instance_base s r) | GLOBAL => is_Some (instance_base s r) → is_Some inst end →
  request_ok locks pid r (enter_pool s r which inst d).
Proof.
  intros [Hc Hr] Hw. unfold enter_pool. destruct (pool_args s r which) as [[ns first] count].
  destruct (Z.leb_spec count 0); [by split; [intros k Hk; by apply elem_of_nil in Hk|]|].
  split; [exact Hc|]. cbn [ranges_ok]. split_and!; [exact Hr|lia|apply Z.mod_pos_bound; lia|exact Hw].
Qed.

Lemma advance_ok pid r d locks pc locks' pc' : request_ok locks pid r pc →
  advance s pid r d locks pc = Some (locks', pc') →
  request_ok locks' pid r pc' ∧ (∀ k owner, locks !! k = Some owner → locks' !! k = Some owner) ∧
  (∀ k owner, locks' !! k = Some owner → locks !! k = Some owner ∨
     owner = pid ∧ ∀ slot, k = (pm_global_namespace s, slot) → first_global s r <= slot).
Proof using Hs.
  intros Hok. pose proof Hok as [Hc Hr]. destruct pc as [inst|which inst offset i|inst|inst glob|]; cbn [advance]; [..|done|done].
  - intros [= <- <-]. split_and!; [|done|by left].
    destruct (instance_base s r) as [base|] eqn:Eb; [destruct inst|]; (apply enter_pool_ok; [done|rewrite Eb]); [by eauto..|].
    by intros [? ?].
  - destruct (pool_args s r which) as [[ns first] count] eqn:Ep. destruct (Z.ltb_spec i count) as [Hi|Hi].
    2:{ intros [= <- <-]. split_and!; [|done|by left]. split; [exact Hc|]. by apply Hr. }
    destruct (try_advisory_lock _ _ _ _) as [got locks1] eqn:El. apply try_lock_keeps in El as (Hg & Hk & Hn).
    assert (Hn' : ∀ k owner, locks1 !! k = Some owner → locks !! k = Some owner ∨
      owner = pid ∧ ∀ sl, k = (pm_global_namespace s, sl) → first_global s r <= sl).
    { intros k owner H. apply Hn in H as [H|[-> ->]]; [by left|right]. split; [done|]. intros sl [= -> <-].
      assert (E1 : (pool_args s r which).1.1 = pm_global_namespace s) by by rewrite Ep.
      assert (E2 : (pool_args s r which).1.2 = first) by by rewrite Ep.
      destruct which; cbn in E1, E2; [by destruct (vp_namespaces s Hs)|].
      pose proof (Z.mod_pos_bound (offset + i) count). destruct Hr as (_ & H0 & _). lia. }
    intros [= <- <-]. split; [|by split]. destruct Hr as (Hinst & H0 & Ho & Hw).
    assert (Hc' : ∀ k, k ∈ inst_claim r inst → locks1 !! k = Some pid) by (intros k Hin; by apply Hk, Hc).
    assert (Hslot : 0 <= (offset + i) mod count < count) by (apply Z.mod_pos_bound; lia).
    destruct got; [destruct which|].
    + injection Ep as <- <- <-. apply enter_pool_ok; [|by eauto]. destruct Hw as [base Hb].
      split; [|intros slot [= <-]; exists base; split; [done|rewrite Hb; cbn; lia]].
      cbn. intros k ->%list_elem_of_singleton. by apply Hg.
    + injection Ep as <- <- <-. split; [|split_and!; [exact Hinst|lia|lia|exact Hw]].
      cbn. intros k [->|Hin]%elem_of_cons; [by apply Hg|by apply Hc'].
    + split; [exact Hc'|]. cbn. split_and!; [exact Hinst|lia|done|done].
  - destruct (flt _ _); intros [= <- <-]; (split_and!; [|done|by left]).
    + split; [intros k Hk; by apply elem_of_nil in Hk|done].
    + by split.
Qed.

Lemma unlock_lookup pid locks k owner : unlock_all pid locks !! k = Some owner ↔ locks !! k = Some owner ∧ owner ≠ pid.
Proof. unfold unlock_all. rewrite map_lookup_filter_Some. cbn. done. Qed.

Lemma request_ok_mono pid r pc locks locks' : request_ok locks pid r pc →
  (∀ k, locks !! k = Some pid → locks' !! k = Some pid) → request_ok locks' pid r pc.
Proof. intros [Hc Hr] H. split; [|done]. intros k Hk. by apply H, Hc. Qed.

Lemma sys_step_ok y y' : sys_step s y y' → sys_ok y → sys_ok y'.
Proof using Hs.
  intros [y0 pid r Hn|y0 pid r pc d locks pc' Hp Ha|y0 pid rpc Hp] [Hreq Hown Hglob].
  - split; cbn [sy_requests sy_locks].
    + intros p r' pc. destruct (decide (pid = p)) as [<-|Hne]; [|rewrite lookup_insert_ne by done; by apply Hreq].
      rewrite lookup_insert_eq. intros [= <- <-]. split; [intros k Hk; by apply elem_of_nil in Hk|by intros slot].
    + intros k p Hk%Hown. destruct (decide (pid = p)) as [<-|Hne]; [by rewrite lookup_insert_eq|by rewrite lookup_insert_ne].
    + intros slot p r' pc Hk. destruct (decide (pid = p)) as [<-|Hne].
      * apply Hown in Hk as [? Hk]. congruence.
      * rewrite lookup_insert_ne by done. by apply Hglob.
  - destruct (advance_ok pid r d _ pc locks pc' (Hreq _ _ _ Hp) Ha) as (Hok & Hold & Hnew).
    split; cbn [sy_requests sy_locks].
    + intros p r' pc1. destruct (decide (pid = p)) as [<-|Hne].
      * rewrite lookup_insert_eq. by intros [= <- <-].
      * rewrite lookup_insert_ne by done. intros H%Hreq. apply (request_ok_mono _ _ _ _ _ H). intros k. by apply Hold.
    + intros k p Hk. destruct (decide (pid = p)) as [<-|Hne]; [by rewrite lookup_insert_eq|].
      rewrite lookup_insert_ne by done. apply Hnew in Hk as [Hk%Hown|[-> _]]; done.
    + intros slot p r' pc1 Hk. destruct (decide (pid = p)) as [<-|Hne].
      * rewrite lookup_insert_eq. intros [= <- <-]. apply Hnew in Hk as [Hk|[_ Hk]]; [by eapply Hglob|by apply Hk].
      * rewrite lookup_insert_ne by done. apply Hnew in Hk as [Hk|[-> _]]; [by apply (Hglob slot)|done].
  - split; cbn [sy_requests sy_locks].
    + intros p r' pc1 [Hne H%Hreq]%lookup_delete_Some. apply (request_ok_mono _ _ _ _ _ H).
      intros k Hk. apply unlock_lookup. by split.
    + intros k p [Hk Hne]%unlock_lookup. rewrite lookup_delete_ne by done. by eapply Hown.
    + intros slot p r' pc1 [Hk _]%unlock_lookup [_ H]%lookup_delete_Some. by eapply Hglob.
Qed.

Lemma reachable_ok y : reachable s y → sys_ok y.
Proof using Hs.
  unfold reachable. intros H. assert (Hgen : ∀ x, rtc (sys_step s) x y → sys_ok x → sys_ok y).
  { clear -Hs. induction 1 as [x|x z y Hxz _ IH]; [done|]. intros Hx. by eapply IH, sys_step_ok. }
  apply (Hgen empty_system H). split; [intros pid r pc|intros k pid|intros slot pid r pc]; cbn; by rewrite lookup_empty.
Qed.

(** ** Counting permits *)

(** The requests that hold a permit and satisfy a property. *)
Definition holds_permit (pc : Pc) : bool := match pc with HELD _ _ => true | _ => false end.

Definition holders (P : Request → bool) (y : System) : gmap N (Request * Pc) :=
  filter (λ kv, holds_permit kv.2.2 && P kv.2.1 = true) (sy_requests y).

(** Requests that each own a lock of a range of keys are no more than the range. *)
Lemma range_bounds (m : gmap N (Request * Pc)) (slot_of : Request * Pc → Z) (locks : lock_table) ns lo hi :
  lo <= hi → (∀ pid x, m !! pid = Some x → locks !! (ns, slot_of x) = Some pid ∧ lo <= slot_of x < hi) →
  Z.of_nat (size m) <= hi - lo.
Proof.
  intros Hle Hm. rewrite <- length_map_to_list, <- (length_fmap (λ kv, slot_of kv.2)).
  replace (hi - lo) with (Z.of_nat (length (seqZ lo (hi - lo)))) by (rewrite length_seqZ; lia).
  apply inj_le, submseteq_length, NoDup_submseteq.
  - apply NoDup_fmap_2_strong; [|apply NoDup_map_to_list]. intros [p x] [q x'] Hp%elem_of_map_to_list Hq%elem_of_map_to_list E.
    cbn [snd] in E. pose proof (Hm _ _ Hp) as [H1 _]. pose proof (Hm _ _ Hq) as [H2 _]. rewrite E in H1. congruence.
  - intros z (kv & -> & Hin)%list_elem_of_fmap. destruct kv as [p x]. apply elem_of_map_to_list, Hm in Hin as [_ Hr].
    cbn [snd]. apply elem_of_seqZ. lia.
Qed.

Definition global_slot (x : Request * Pc) : Z := match x.2 with HELD _ glob => glob | _ => 0 end.
Definition instance_slot (x : Request * Pc) : Z := match x.2 with HELD (Some inst) _ => inst | _ => 0 end.

Lemma holder_lookup P y pid x : holders P y !! pid = Some x →
  ∃ r inst glob, x = (r, HELD inst glob) ∧ sy_requests y !! pid = Some (r, HELD inst glob) ∧ P r = true.
Proof.
  unfold holders. intros [H Hp]%map_lookup_filter_Some. destruct x as [r []]; cbn in Hp; try discriminate Hp. by eauto 6.
Qed.

Lemma holder_global P y pid x lo : sys_ok y → holders P y !! pid = Some x →
  (∀ r, P r = true → lo <= first_global s r) →
  sy_locks y !! (pm_global_namespace s, global_slot x) = Some pid ∧ lo <= global_slot x < pm_global_limit s.
Proof.
  intros Hy (r & inst & glob & -> & H & HP)%holder_lookup Hlo. apply (so_requests _ Hy) in H as [Hc (_ & Hr & _)].
  cbn [global_slot snd]. split; [apply Hc; left|]. specialize (Hlo r HP). lia.
Qed.

Lemma holder_instance y pid x base : sys_ok y →
  holders (λ r, bool_decide (instance_base s r = Some base)) y !! pid = Some x →
  sy_locks y !! (pm_instance_namespace s, instance_slot x) = Some pid ∧
  base <= instance_slot x < base + pm_instance_limit s.
Proof.
  intros Hy (r & inst & glob & -> & H & HP%bool_decide_eq_true_1)%holder_lookup.
  apply (so_requests _ Hy) in H as [Hc (Hi & _ & Hsome)]. destruct Hsome as [slot ->]; [by rewrite HP|].
  cbn [instance_slot snd]. split; [apply Hc; right; left|]. destruct (Hi slot eq_refl) as (b & Hb & Hr). congruence || (rewrite HP in Hb; injection Hb as ->; exact Hr).
Qed.
End Claims.

(** C13: The budget. In every state any interleaving of requests can reach, deaths included, no
    more permits are held than the global limit, no more by background work than the limit
    less the reserved slots, and no more for one console than the console's limit. *)
Theorem permits_bounded s y : valid_permit_settings s → reachable s y →
  Z.of_nat (size (holders (λ _, true) y)) <= pm_global_limit s ∧
  Z.of_nat (size (holders rq_background y)) <= pm_global_limit s - pm_reserved_live_slots s ∧
  ∀ base, Z.of_nat (size (holders (λ r, bool_decide (instance_base s r = Some base)) y)) <= pm_instance_limit s.
Proof.
  intros Hs Hy%(reachable_ok s Hs). destruct Hs as [Hi Hg Hr _]. split_and!.
  - rewrite <- (Z.sub_0_r (pm_global_limit s)). apply (range_bounds _ global_slot (sy_locks y) (pm_global_namespace s)); [lia|].
    intros pid x H. apply (holder_global s _ y pid x 0 Hy H). intros r _. unfold first_global. destruct (rq_background r); lia.
  - apply (range_bounds _ global_slot (sy_locks y) (pm_global_namespace s)); [lia|].
    intros pid x H. apply (holder_global s _ y pid x _ Hy H). intros r Hb. unfold first_global. by rewrite Hb.
  - intros base. replace (pm_instance_limit s) with (base + pm_instance_limit s - base) by lia.
    apply (range_bounds _ instance_slot (sy_locks y) (pm_instance_namespace s)); [lia|].
    intros pid x H. by apply (holder_instance s y pid x base Hy H).
Qed.

(** No lock leaks, and background work leaves the reserved slots alone. A lock in the table
    is owned by a request still running, so when all have ended the table is empty; and the
    owner of a reserved global slot is live work. *)
Theorem no_leaked_permits s y : valid_permit_settings s → reachable s y →
  (∀ k pid, sy_locks y !! k = Some pid → is_Some (sy_requests y !! pid)) ∧
  (sy_requests y = ∅ → sy_locks y = ∅) ∧
  (∀ slot pid r pc, slot < pm_reserved_live_slots s → sy_locks y !! (pm_global_namespace s, slot) = Some pid →
     sy_requests y !! pid = Some (r, pc) → rq_background r = false).
Proof.
  intros Hs Hy%(reachable_ok s Hs). pose proof (so_owners _ _ Hy) as Ho. split_and!; [exact Ho| |].
  2:{ intros slot pid r pc Hslot Hl Hr. pose proof (so_global _ _ Hy _ _ _ _ Hl Hr) as Hf.
      unfold first_global in Hf. destruct (rq_background r); [lia|done]. }
  intros Hn. apply map_empty. intros k. destruct (sy_locks y !! k) as [pid|] eqn:E; [|done].
  destruct (Ho _ _ E) as [x Hx]. by rewrite Hn, lookup_empty in Hx.
Qed.

(** ** A run *)

Definition example_settings : PermitSettings :=
  {| pm_instance_limit := 2; pm_global_limit := 4; pm_global_namespace := 11; pm_instance_namespace := 12;
     pm_wait_seconds := div_round 30 1; pm_poll_seconds := div_round 1 1; pm_reserved_live_slots := 1 |}.

Definition example_request : Request :=
  {| rq_instance := Some 5; rq_background := true; rq_started := div_round 0 1 |}.

Definition example_draw : Draw := {| dr_offset := 3; dr_now := div_round 0 1 |}.

Definition example_held : System :=
  {| sy_locks := <[(11, 1) := 7%N]> {[ (12, 11) := 7%N ]}; sy_requests := {[ 7%N := (example_request, HELD (Some 11) 1) ]} |}.

Lemma example_settings_valid : valid_permit_settings example_settings.
Proof. by apply check_permit_settings_valid. Qed.

(** One more statement of the only request. *)
Lemma example_step y locks pc locks' pc' z : sy_requests y = {[ 7%N := (example_request, pc) ]} → sy_locks y = locks →
  advance example_settings 7%N example_request example_draw locks pc = Some (locks', pc') →
  rtc (sys_step example_settings) {| sy_locks := locks'; sy_requests := {[ 7%N := (example_request, pc') ]} |} z →
  rtc (sys_step example_settings) y z.
Proof.
  intros Hr <- Ha. apply rtc_l. rewrite <- (insert_singleton_eq (M := gmap N) 7%N (example_request, pc') (example_request, pc)), <- Hr.
  apply (sys_advance _ _ _ _ pc example_draw); [|exact Ha]. rewrite Hr. apply lookup_singleton_eq.
Qed.

Lemma example_reachable : reachable example_settings example_held.
Proof.
  apply (rtc_l _ _ {| sy_locks := ∅; sy_requests := {[ 7%N := (example_request, TRYING None) ]} |}).
  { by apply (sys_begin _ empty_system 7%N example_request). }
  eapply example_step; [reflexivity..|]. eapply example_step; [reflexivity..|]. eapply example_step; [reflexivity..|].
  apply rtc_refl.
Qed.

Lemma permits_bounded_witness :
  Z.of_nat (size (holders rq_background example_held)) <=
    pm_global_limit example_settings - pm_reserved_live_slots example_settings ∧
  size (holders rq_background example_held) = 1%nat.
Proof.
  split; [|vm_compute; reflexivity].
  exact (proj1 (proj2 (permits_bounded example_settings example_held example_settings_valid example_reachable))).
Defined.

Lemma no_leaked_permits_witness : is_Some (sy_requests example_held !! 7%N).
Proof.
  apply (proj1 (no_leaked_permits example_settings example_held example_settings_valid example_reachable) (11, 1)).
  vm_compute. reflexivity.
Defined.
