(* ===== verification/Redaction.v ===== *)
(** * Redaction

    [security/redaction.py]: what is masked before a payload is stored. The two regular
    expressions are case folding and searches: the keys' alternatives are literal words, and a
    token is a run of at least 24 characters of an ASCII class. *)

From S2P Require Import Prelude PyStr PyFloat PyJson.
From Stdlib Require Import Ascii.

Definition MASK : string := "***redacted***".

(** [re.IGNORECASE]: ASCII case, and the letters outside ASCII that match an [i], a [k] or an [s]
    (dotted and dotless i, the Kelvin sign, the long s). *)
Fixpoint fold_case (s : string) : string :=
  match s with
  | EmptyString => EmptyString
  | String c s =>
      let plain := String (lower_ascii c) (fold_case s) in
      match N_of_ascii c, s with
      | 196%N, String d rest =>
          if (N_of_ascii d =? 176)%N || (N_of_ascii d =? 177)%N then String "i" (fold_case rest) else plain
      | 197%N, String d rest => if (N_of_ascii d =? 191)%N then String "s" (fold_case rest) else plain
      | 226%N, String d (String e rest) =>
          if (N_of_ascii d =? 132)%N && (N_of_ascii e =? 170)%N then String "k" (fold_case rest) else plain
      | _, _ => plain
      end
  end.

(** The words of [_SECRET_KEY_RE], its [api[_-]?key] written out. *)
Definition SECRET_WORDS : list string :=
  ["token"; "secret"; "password"; "passwd"; "apikey"; "api_key"; "api-key"; "authorization"; "sec"; "webhook";
   "smtp_password"].

(** [_SECRET_KEY_RE.search(k)] *)
Definition secret_key (k : string) : bool := existsb (λ word, contains word (fold_case k)) SECRET_WORDS.

(** The class of [_TOKEN_VALUE_RE]. *)
Definition token_char (c : ascii) : bool :=
  let n := N_of_ascii c in
  ((65 <=? n) && (n <=? 90) || (97 <=? n) && (n <=? 122) || (48 <=? n) && (n <=? 57) || (n =? 95) || (n =? 45))%N.

(** [len(value) >= 24 and _TOKEN_VALUE_RE.fullmatch(value)] *)
Definition token_shaped (s : string) : bool := (24 <=? py_len s) && (all_chars token_char s && (24 <=? py_len s)).

Definition IDENTIFIER_KEYS : list string := ["correlation_id"; "instance_id"].

(** [k in _IDENTIFIER_KEYS] *)
Definition identifier_key (k : string) : bool := existsb (String.eqb k) IDENTIFIER_KEYS.

Definition is_str (v : json) : bool := match v with JStr _ => true | _ => false end.

(** One item of the dict. *)
Definition redact_item (redact : json → json) (kv : string * json) : string * json :=
  let '(k, v) := kv in
  (k, if secret_key k then JStr MASK else if identifier_key k && is_str v then v else redact v).

Fixpoint redact (value : json) : json :=
  match value with
  | JObj o => JObj (map (redact_item redact) o)
  | JList l => JList (map redact l)
  | JStr s => if token_shaped s then JStr MASK else value
  | _ => value
  end.

(** ** What it leaves *)

(** No value under a secret key but the mask, and no token-shaped string but under the name of an
    identifier. *)
Definition clean_item (clean : json → bool) (kv : string * json) : bool :=
  let '(k, v) := kv in
  if secret_key k then match v with JStr s => String.eqb s MASK | _ => false end
  else (identifier_key k && is_str v) || clean v.

Fixpoint clean (value : json) : bool :=
  match value with
  | JObj o => forallb (clean_item clean) o
  | JList l => forallb clean l
  | JStr s => negb (token_shaped s)
  | _ => true
  end.

(** Induction over a value, its items and elements. *)
Lemma json_nested_ind (P : json → Prop) :
  P JNull → (∀ b, P (JBool b)) → (∀ n, P (JInt n)) → (∀ x, P (JFloat x)) → (∀ s, P (JStr s)) →
  (∀ l, Forall P l → P (JList l)) → (∀ o, Forall (λ kv, P kv.2) o → P (JObj o)) → ∀ v, P v.
Proof.
  intros Hn Hb Hi Hf Hs Hl Ho. fix IH 1. intros [|b|n|x|s|l|o]; [done|apply Hb|apply Hi|apply Hf|apply Hs|apply Hl|apply Ho].
  - induction l as [|v l IHl]; constructor; [apply IH|done].
  - induction o as [|[k v] o IHo]; constructor; [apply IH|done].
Qed.

Lemma redact_item_key kv : (redact_item redact kv).1 = kv.1.
Proof. by destruct kv. Qed.

(** Redaction is complete and stable. What it returns holds no value under a secret key but
    the mask and no token-shaped string but an identifier's, at any depth; a value with neither
    is returned unchanged, so redacting twice is redacting once; and a dict keeps its keys in
    order. *)
Theorem redact_clean v :
  clean (redact v) = true ∧ (clean v = true → redact v = v) ∧
  ∀ o, v = JObj o → ∃ o', redact v = JObj o' ∧ o'.*1 = o.*1.
Proof.
  split_and!.
  - induction v as [| | | |s|l IH|o IH] using json_nested_ind; cbn [redact clean]; try done.
    + destruct (token_shaped s) eqn:E; cbn [clean]; [done|by rewrite E].
    + induction IH as [|v l Hv _ IHl]; [done|]. cbn. by rewrite Hv, IHl.
    + induction IH as [|[k v] o Hv _ IHo]; [done|]. cbn [map forallb]. rewrite IHo, andb_true_r. cbn [redact_item clean_item].
      destruct (secret_key k); [done|]. destruct (identifier_key k && is_str v) eqn:E; [by rewrite E|]. cbn in Hv. by rewrite Hv, orb_true_r.
  - induction v as [| | | |s|l IH|o IH] using json_nested_ind; cbn [redact clean]; try done.
    + by intros ->%negb_true_iff.
    + intros H. f_equal. induction IH as [|v l Hv _ IHl]; [done|]. cbn in *. apply andb_true_iff in H as [H1 H2].
      by rewrite Hv, IHl.
    + intros H. f_equal. induction IH as [|[k v] o Hv _ IHo]; [done|]. cbn [map forallb] in *. apply andb_true_iff in H as [H1 H2].
      rewrite IHo by done. f_equal. cbn [redact_item clean_item snd] in *. destruct (secret_key k).
      * destruct v; try discriminate H1. by apply String.eqb_eq in H1 as ->.
      * destruct (identifier_key k && is_str v); [done|]. by rewrite Hv.
  - intros o ->. eexists. split; [reflexivity|]. rewrite <- list_fmap_compose. apply list_fmap_ext. intros ? [k x] _. done.
Qed.

Lemma redact_clean_witness : redact (JObj [("token", JStr "abc"); ("n", JInt 3)]) = JObj [("token", JStr MASK); ("n", JInt 3)] ∧
  redact (JObj [("token", JStr MASK); ("n", JInt 3)]) = JObj [("token", JStr MASK); ("n", JInt 3)].
Proof. split; [reflexivity|]. apply (redact_clean (JObj [("token", JStr MASK); ("n", JInt 3)])). reflexivity. Defined.
