(* ===== verification/Notifications.v ===== *)
(** * Notifications

    [alerts/routing.py], [alerts/dispatcher.py], [services/backoff.py] and the classification of
    an HTTP answer in [alerts/notifiers/channels.py]: which channels an alert goes to, the rows
    queued for them, and the delivery of the rows that are due. A row is named by its position.
    [clock n] is the [n]-th reading of the clock and [random n] the [n]-th number of the generator; the
    outcome of the [n]-th call of a notifier is its argument's to decide. A target longer than its
    column is refused by PostgreSQL. *)

From S2P Require Import Prelude PyStr PyFloat PyTime PyJson Enums AlertService Redaction.
From Stdlib Require Import Ascii.

(** ** Routing *)

Definition SEVERITY_RANK (s : Severity) : Z :=
  match s with SEV_INFO => 0 | SEV_LOW => 1 | SEV_MEDIUM => 2 | SEV_HIGH => 3 | SEV_CRITICAL => 4 end.

Record Route := { ro_channel : NotificationChannel; ro_target : string }.

Record RoutingRule := {
  rr_channel : NotificationChannel; rr_target : string; rr_min_severity : Severity;
  rr_alert_types : option (gset string); rr_owners : option (gset string); rr_instances : option (gset string);
  rr_source_classes : option (gset string) }.

(** [value in names], for a JSON value and a frozenset of strings. *)
Definition in_frozenset (value : json) (names : gset string) : result bool :=
  match value with
  | JStr s => Ok (bool_decide (s ∈ names))
  | JList _ => Err (TypeError "unhashable type: 'list'")
  | JObj _ => Err (TypeError "unhashable type: 'dict'")
  | _ => Ok false
  end.

(** One condition on the alert's context. *)
Definition context_matches (names : option (gset string)) (key : string) (a : Alert) : result bool :=
  match names with
  | None => Ok true
  | Some names => in_frozenset (default JNull (assoc (al_context a) key)) names
  end.

(** [RoutingRule.matches] *)
Definition matches (a : Alert) (r : RoutingRule) : result bool :=
  if SEVERITY_RANK (al_severity a) <? SEVERITY_RANK (rr_min_severity r) then Ok false
  else if (match rr_alert_types r with
           | Some types => negb (bool_decide (py_before ":" (al_fingerprint a) ∈ types))
           | None => false
           end) then Ok false
  else
    owner <- context_matches (rr_owners r) "owner" a ;;
    if negb owner then Ok false else
    instance <- context_matches (rr_instances r) "instance" a ;;
    if negb instance then Ok false else
    context_matches (rr_source_classes r) "source_class" a.

(** [RoutingPolicy.resolve] *)
Definition resolve_rule (a : Alert) (acc : gset (string * string) * list Route) (r : RoutingRule)
    : result (gset (string * string) * list Route) :=
  let '(seen, routes) := acc in
  matched <- matches a r ;;
  let key := (NotificationChannel_value (rr_channel r), rr_target r) in
  Ok (if matched && negb (bool_decide (key ∈ seen))
      then ({[key]} ∪ seen, routes ++ [{| ro_channel := rr_channel r; ro_target := rr_target r |}])
      else (seen, routes)).

Definition resolve_routes (rules : list RoutingRule) (a : Alert) : result (list Route) :=
  acc <- foldM (resolve_rule a) (∅, []) rules ;; Ok acc.2.

(** The environment [default_policy] reads. *)
Record NotifyEnv := {
  ne_teams : option string; ne_slack : option string; ne_webhook : option string;
  ne_email_recipients : option string; ne_syslog_host : option string; ne_syslog_port : option string }.

(** [_add]: a target that is not set adds no rule. *)
Definition add_rule (channel : NotificationChannel) (target : option string) : list RoutingRule :=
  match target with
  | None | Some "" => []
  | Some t => [{| rr_channel := channel; rr_target := t; rr_min_severity := SEV_LOW; rr_alert_types := None;
                  rr_owners := None; rr_instances := None; rr_source_classes := None |}]
  end.

Definition default_policy (e : NotifyEnv) : list RoutingRule :=
  add_rule CH_TEAMS (ne_teams e) ++ add_rule CH_SLACK (ne_slack e) ++ add_rule CH_WEBHOOK (ne_webhook e) ++
  flat_map (λ recipient, add_rule CH_EMAIL (Some (py_strip recipient))) (py_split "," (default "" (ne_email_recipients e))) ++
  match ne_syslog_host e with
  | None | Some "" => []
  | Some host => add_rule CH_SYSLOG (Some (host +:+ ":" +:+ default "514" (ne_syslog_port e)))
  end.

(** ** Backoff *)

(** [backoff_delay], [u] the number [random()] gives: [uniform(0, exp)] is [0 + (exp - 0) * u]. *)
Definition backoff_delay (attempt : Z) (base_seconds max_seconds : float) (u : float) : result float :=
  _ <- raise_if (attempt <? 1) (ValueError "attempt must be >= 1") ;;
  factor <- float_of_int (2 ^ (attempt - 1)) ;;
  let exp := fmin max_seconds (fmul base_seconds factor) in
  Ok (fadd f0 (fmul (fsub exp f0) u)).

(** [timedelta(seconds=x)]: whole seconds, then the fraction rounded to a microsecond. *)
Definition fraction (x : float) : float :=
  match x with
  | S754_finite s m e =>
      if 0 <=? e then S754_zero s
      else binary_normalize prec emax (signed s m - (let q := Z.shiftl (Zpos m) e in if s then - q else q) * 2 ^ (- e)) e s
  | _ => x
  end.

Definition td_float_seconds (x : float) : result timedelta :=
  whole <- ftrunc x ;;
  part <- fround (fmul (fraction x) (div_round us_per_second 1)) ;;
  Ok (td_seconds whole + part).

(** ** Rows and messages *)

Record Notification := {
  nt_alert_id : N; nt_channel : NotificationChannel; nt_target : string; nt_transition : AlertTransition;
  nt_status : NotificationStatus; nt_attempts : Z; nt_max_attempts : Z; nt_next_attempt_at : option datetime;
  nt_sent_at : option datetime; nt_payload : jobj; nt_error_message : option string }.

(** What the unique constraint compares. *)
Definition nt_key (n : Notification) : N * AlertTransition * NotificationChannel * string :=
  (nt_alert_id n, nt_transition n, nt_channel n, nt_target n).

(** [a or b] of strings *)
Definition or_str (a : option string) (b : string) : string := match a with None | Some "" => b | Some a => a end.

Definition EVIDENCE_KEYS : list string := ["observed_value"; "expected_value"; "deviation_score"; "reason"].

(** [_render] *)
Definition render (id : N) (a : Alert) (transition : AlertTransition) : jobj :=
  [("title", JStr (al_title a)); ("body", JStr (or_str (al_description a) (al_title a)));
   ("severity", JStr (Severity_value (al_severity a))); ("transition", JStr (AlertTransition_value transition));
   ("alert_id", JStr (uuid_text id)); ("fingerprint", JStr (al_fingerprint a));
   ("fields", JObj
     (("occurrences", JInt (al_occurrence_count a)) :: ("first_seen", JStr (dt_isoformat (al_first_seen_at a))) ::
      filter (λ kv : string * json, kv.1 ∈ EVIDENCE_KEYS) (al_evidence_snapshot a)))].

Record NotificationMessage := {
  ms_title : json; ms_body : json; ms_severity : Severity; ms_transition : AlertTransition; ms_alert_id : json;
  ms_fingerprint : json; ms_fields : json }.

(** [p.get(key, default)] *)
Definition get_or (p : jobj) (key : string) (d : json) : json := default d (assoc p key).

(** [Severity(v)] and [AlertTransition(v)] *)
Definition parse_enum {A} (members : list A) (value : A → string) (v : json) : result A :=
  match v with
  | JStr s =>
      match list_find (λ x, value x = s) members with
      | Some (_, x) => Ok x
      | None => Err (ValueError "not a valid member")
      end
  | _ => Err (ValueError "not a valid member")
  end.

Definition all_transitions : list AlertTransition := [TR_OPENED; TR_ACKNOWLEDGED; TR_RESOLVED].

Definition falsy (v : json) : bool :=
  match v with
  | JNull | JBool false | JStr "" | JList [] | JObj [] => true
  | JInt n => n =? 0
  | JFloat x => is_zero x
  | _ => false
  end.

(** [_message_from_payload] *)
Definition message_from_payload (n : Notification) : result NotificationMessage :=
  let p := nt_payload n in
  severity <- parse_enum all_severities Severity_value (get_or p "severity" (JStr "MEDIUM")) ;;
  transition <- (let t := get_or p "transition" JNull in
                 if falsy t then Ok (nt_transition n) else parse_enum all_transitions AlertTransition_value t) ;;
  Ok {| ms_title := get_or p "title" (JStr "alert"); ms_body := get_or p "body" (JStr ""); ms_severity := severity;
        ms_transition := transition; ms_alert_id := get_or p "alert_id" (JStr (uuid_text (nt_alert_id n)));
        ms_fingerprint := get_or p "fingerprint" (JStr ""); ms_fields := get_or p "fields" (JObj []) |}.

(** ** Notifiers *)

(** A call of [send]: it returns, or raises a [NotifierError] or another exception. *)
Inductive Outcome :=
| DELIVERED
| NOTIFIER_ERROR (msg : string) (permanent : bool)
| OTHER_ERROR (msg : string).

(** What posting gives: a status, an [httpx.HTTPError], or another exception. *)
Inductive HttpReply :=
| HTTP_STATUS (code : Z)
| HTTP_ERROR (msg : string)
| HTTP_OTHER (msg : string).

(** [_HttpNotifier._post] *)
Definition post_outcome (r : HttpReply) : Outcome :=
  match r with
  | HTTP_ERROR msg => NOTIFIER_ERROR ("transport error: " +:+ msg) false
  | HTTP_OTHER msg => OTHER_ERROR msg
  | HTTP_STATUS code =>
      if (500 <=? code) || (code =? 429) then NOTIFIER_ERROR ("retryable status " +:+ pretty code) false
      else if 400 <=? code then NOTIFIER_ERROR ("permanent status " +:+ pretty code) true
      else DELIVERED
  end.

(** [GenericWebhookNotifier.send]: the body it posts. *)
Definition webhook_body (m : NotificationMessage) : jobj :=
  [("title", ms_title m); ("body", ms_body m); ("severity", JStr (Severity_value (ms_severity m)));
   ("transition", JStr (AlertTransition_value (ms_transition m))); ("alert_id", ms_alert_id m);
   ("fingerprint", ms_fingerprint m); ("fields", ms_fields m)].

Definition webhook_send (reply : nat → string → jobj → HttpReply) (n : nat) (target : string) (m : NotificationMessage)
    : Outcome :=
  post_outcome (reply n target (webhook_body m)).

(** ** The dispatcher *)

Record NotifySettings := {
  st_notify_max_retries : Z; st_notify_retry_base_seconds : float; st_notify_retry_max_seconds : float;
  st_notify_send_recovery : bool }.

(** The session's rows; the readings of the clock, the numbers drawn and the calls of notifiers so
    far; and what those calls delivered, the row of each. *)
Record Mail := {
  ml_rows : list Notification; ml_ticks : nat; ml_draws : nat; ml_calls : nat; ml_delivered : list nat }.

Record Stats := { sx_sent : Z; sx_failed : Z; sx_dead_letter : Z }.

Definition TARGET_LENGTH : Z := 255.

Definition with_mail_rows (rows : list Notification) (s : Mail) : Mail :=
  {| ml_rows := rows; ml_ticks := ml_ticks s; ml_draws := ml_draws s; ml_calls := ml_calls s; ml_delivered := ml_delivered s |}.

Definition mail_ticked (s : Mail) : Mail :=
  {| ml_rows := ml_rows s; ml_ticks := S (ml_ticks s); ml_draws := ml_draws s; ml_calls := ml_calls s;
     ml_delivered := ml_delivered s |}.

Section Dispatcher.
Context (clock : nat → datetime) (random : nat → float)
  (notifiers : NotificationChannel → option (nat → string → NotificationMessage → Outcome)) (st : NotifySettings).

(** One route of [enqueue]: the flush in its savepoint. *)
Definition enqueue_route (id : N) (a : Alert) (transition : AlertTransition) (acc : list nat * Mail) (r : Route)
    : result (list nat * Mail) :=
  let '(created, s) := acc in
  let notif := {| nt_alert_id := id; nt_channel := ro_channel r; nt_target := ro_target r; nt_transition := transition;
                  nt_status := NS_PENDING; nt_attempts := 0; nt_max_attempts := st_notify_max_retries st + 1;
                  nt_next_attempt_at := Some (clock (ml_ticks s)); nt_sent_at := None;
                  nt_payload := map (redact_item redact) (render id a transition); nt_error_message := None |} in
  let s := mail_ticked s in
  _ <- raise_if (TARGET_LENGTH <? py_len (ro_target r)) (DBAPIError "value too long for type character varying(255)") ;;
  Ok (if bool_decide (nt_key notif ∈ nt_key <$> ml_rows s) then (created, s)
      else (created ++ [length (ml_rows s)], with_mail_rows (ml_rows s ++ [notif]) s)).

Definition enqueue (rules : list RoutingRule) (id : N) (a : Alert) (transition : AlertTransition) (s : Mail)
    : result (list nat * Mail) :=
  if bool_decide (transition = TR_RESOLVED) && negb (st_notify_send_recovery st) then Ok ([], s)
  else routes <- resolve_routes rules a ;; foldM (enqueue_route id a transition) ([], s) routes.

(** The rows [dispatch_due] selects, the earliest first; equal times stay in table order. *)
Definition is_due (now : datetime) (n : Notification) : bool :=
  bool_decide (nt_status n = NS_PENDING ∨ nt_status n = NS_FAILED) &&
  match nt_next_attempt_at n with None => true | Some t => dt_us t <=? dt_us now end.

(** Ascending, NULLs last. *)
Definition before (x y : nat * Notification) : Prop :=
  match nt_next_attempt_at x.2, nt_next_attempt_at y.2 with
  | Some a, Some b => dt_us a <= dt_us b
  | _, None => True
  | None, Some _ => False
  end.

#[export] Instance before_dec : RelDecision before.
Proof. intros x y. unfold before. destruct (nt_next_attempt_at x.2), (nt_next_attempt_at y.2); apply _. Defined.

Definition due_rows (now : datetime) (limit : nat) (rows : list Notification) : list nat :=
  take limit (merge_sort before (filter (λ x, is_due now x.2 = true) (imap pair rows))).*1.

(** Writes to one row. *)
Definition finish (status : NotificationStatus) (error : option string) (next sent : option datetime) (n : Notification)
    : Notification :=
  {| nt_alert_id := nt_alert_id n; nt_channel := nt_channel n; nt_target := nt_target n;
     nt_transition := nt_transition n; nt_status := status; nt_attempts := nt_attempts n;
     nt_max_attempts := nt_max_attempts n; nt_next_attempt_at := next; nt_sent_at := sent;
     nt_payload := nt_payload n; nt_error_message := error |}.

Definition attempted (n : Notification) : Notification :=
  {| nt_alert_id := nt_alert_id n; nt_channel := nt_channel n; nt_target := nt_target n;
     nt_transition := nt_transition n; nt_status := nt_status n; nt_attempts := nt_attempts n + 1;
     nt_max_attempts := nt_max_attempts n; nt_next_attempt_at := nt_next_attempt_at n; nt_sent_at := nt_sent_at n;
     nt_payload := nt_payload n; nt_error_message := nt_error_message n |}.

Definition count_sent (x : Stats) : Stats :=
  {| sx_sent := sx_sent x + 1; sx_failed := sx_failed x; sx_dead_letter := sx_dead_letter x |}.
Definition count_failed (x : Stats) : Stats :=
  {| sx_sent := sx_sent x; sx_failed := sx_failed x + 1; sx_dead_letter := sx_dead_letter x |}.
Definition count_dead (x : Stats) : Stats :=
  {| sx_sent := sx_sent x; sx_failed := sx_failed x; sx_dead_letter := sx_dead_letter x + 1 |}.

Definition write_row (i : nat) (n : Notification) (s : Mail) : Mail := with_mail_rows (<[i := n]> (ml_rows s)) s.

(** [_handle_failure]; [n] is the row with its attempt counted. *)
Definition handle_failure (i : nat) (n : Notification) (msg : string) (permanent : bool) (s : Mail) (x : Stats)
    : result (Mail * Stats) :=
  let error := Some (py_take 2000 msg) in
  if permanent || (nt_max_attempts n <=? nt_attempts n) then
    Ok (write_row i (finish NS_DEAD_LETTER error None (nt_sent_at n) n) s, count_dead x)
  else
    delay <- backoff_delay (nt_attempts n) (st_notify_retry_base_seconds st) (st_notify_retry_max_seconds st)
               (random (ml_draws s)) ;;
    wait <- td_float_seconds delay ;;
    let next := dt_add (clock (ml_ticks s)) wait in
    let s := {| ml_rows := ml_rows s; ml_ticks := S (ml_ticks s); ml_draws := S (ml_draws s); ml_calls := ml_calls s;
                ml_delivered := ml_delivered s |} in
    Ok (write_row i (finish NS_FAILED error (Some next) (nt_sent_at n) n) s, count_failed x).

(** A call of [send] for the row, and what it delivered. *)
Definition called (i : nat) (outcome : Outcome) (s : Mail) : Mail :=
  {| ml_rows := ml_rows s; ml_ticks := ml_ticks s; ml_draws := ml_draws s; ml_calls := S (ml_calls s);
     ml_delivered := match outcome with DELIVERED => ml_delivered s ++ [i] | _ => ml_delivered s end |}.

(** [_attempt] *)
Definition attempt (i : nat) (s : Mail) (x : Stats) : result (Mail * Stats) :=
  match ml_rows s !! i with
  | None => Ok (s, x)
  | Some n =>
      let n := attempted n in
      match notifiers (nt_channel n) with
      | None =>
          let error := Some ("no notifier registered for " +:+ NotificationChannel_value (nt_channel n)) in
          Ok (write_row i (finish NS_DEAD_LETTER error (nt_next_attempt_at n) (nt_sent_at n) n) s, count_dead x)
      | Some send =>
          message <- message_from_payload n ;;
          let outcome := send (ml_calls s) (nt_target n) message in
          let s := called i outcome s in
          match outcome with
          | DELIVERED =>
              let now := clock (ml_ticks s) in
              Ok (write_row i (finish NS_SENT None (nt_next_attempt_at n) (Some now) n) (mail_ticked s), count_sent x)
          | NOTIFIER_ERROR msg permanent => handle_failure i n msg permanent s x
          | OTHER_ERROR msg => handle_failure i n msg false s x
          end
      end
  end.

Definition attempt_all (due : list nat) (s : Mail) : result (Mail * Stats) :=
  foldM (λ '(s, x) i, attempt i s x) (s, {| sx_sent := 0; sx_failed := 0; sx_dead_letter := 0 |}) due.

Definition dispatch_due (limit : nat) (s : Mail) : result (Mail * Stats) :=
  let now := clock (ml_ticks s) in
  let s := mail_ticked s in
  attempt_all (due_rows now limit (ml_rows s)) s.
End Dispatcher.

(** Calls of [dispatch_due] by [dispatch_notifications], each with its own readings of the clock. *)
Definition dispatch_ticks (clocks : nat → nat → datetime) (random : nat → float)
    (notifiers : NotificationChannel → option (nat → string → NotificationMessage → Outcome)) (st : NotifySettings)
    (limit k : nat) (s : Mail) : result Mail :=
  foldM (λ s j, r <- dispatch_due (clocks j) random notifiers st limit s ;; Ok r.1) s (seq 0 k).
