(* ===== verification/NotificationTheorems.v ===== *)
(** * The wait before a retry

    For settings the application accepts, [backoff_delay] never raises and its wait in
    microseconds is bounded by the cap. *)

From S2P Require Import Prelude PyStr PyFloat PyFloatFacts PyTime Notifications PyJson Enums AlertService Redaction.

(** A positive float whose magnitude is between two powers of two. *)
Definition positive_between (lo hi : Z) (x : float) : Prop :=
  match x with
  | S754_finite false m e => lo <= Zdigits2 (Zpos m) + e <= hi ∧ Zdigits2 (Zpos m) <= 53
  | _ => False
  end.

#[export] Instance positive_between_dec lo hi x : Decision (positive_between lo hi x).
Proof. unfold positive_between. destruct x as [| | |[]]; apply _. Defined.

(** What the fields of [Settings] allow, with a cap below [2^k] seconds. *)
Record sane_retries (k : Z) (st : NotifySettings) : Prop := {
  sr_max_retries : 0 <= st_notify_max_retries st <= 20;
  sr_base : positive_between (-4) 60 (st_notify_retry_base_seconds st);
  sr_max : positive_between 0 k (st_notify_retry_max_seconds st);
  sr_canonical : canonical (st_notify_retry_max_seconds st);
  sr_k : k <= 60 }.

(** No wait is longer, in microseconds. *)
Definition retry_gap (k : Z) : Z := (2 ^ (k + 1) + 5) * us_per_second.

Lemma positive_between_mag lo hi x : positive_between lo hi x → mag_between false lo hi x.
Proof.
  destruct x as [| | |[] m e]; cbn [positive_between]; try done. intros [H Hd].
  exists (Zdigits2 (Zpos m) + e). split; [|lia]. by exists m, e.
Qed.

(** A float below a canonical one has at most its magnitude. *)
Lemma below_of_flt k s1 k1 x y : finite_mag false k1 x → positive_between s1 k y → canonical y → flt x y = true → -1000 <= k →
  below k x.
Proof.
  intros (m & e & -> & _ & Hd) Hy Hc Hlt Hk. destruct y as [| | |[] m' e']; cbn [positive_between] in Hy; try done.
  destruct Hy as [Hy Hd']. apply flt_true in Hlt as (_ & _ & Hlt). unfold klt in Hlt. cbn in Hlt.
  cbn [below canonical] in *. split; [|done]. unfold fexp, emin, prec, emax in Hc.
  destruct (Z.le_gt_cases (Zdigits2 (Zpos m)) (Zdigits2 (Zpos m'))) as [Hle|Hgt]; [lia|].
  assert (e < e' ∨ e = e' ∧ Zpos m < Zpos m') as [He|[-> Hm]] by lia; [lia|].
  exfalso. destruct (Zdigits2_bounds (Zpos m) ltac:(lia)) as (_ & Hl & _), (Zdigits2_bounds (Zpos m') ltac:(lia)) as (? & _ & Hu).
  assert (2 ^ Zdigits2 (Zpos m') <= 2 ^ (Zdigits2 (Zpos m) - 1)) by (apply Z.pow_le_mono_r; lia). lia.
Qed.

(** The capped exponential. *)
Lemma capped_below k st attempt factor : sane_retries k st → 1 <= attempt <= 21 →
  float_of_int (2 ^ (attempt - 1)) = Ok factor →
  below k (fmin (st_notify_retry_max_seconds st) (fmul (st_notify_retry_base_seconds st) factor)).
Proof.
  intros [_ Hb Hm Hc Hk] Ha Hf. assert (Hn : 0 < 2 ^ (attempt - 1)) by (apply Z.pow_pos_nonneg; lia).
  assert (Hdig : Zdigits2 (2 ^ (attempt - 1)) = attempt).
  { apply Zdigits2_unique; [lia|]. split; [done|]. apply Z.pow_lt_mono_r; lia. }
  destruct (float_of_int_mag _ Hn ltac:(lia)) as (x & Hx & kf & Hmf & Hkf). rewrite Hf in Hx. injection Hx as <-.
  apply positive_between_mag in Hb as (kb & Hmb & Hkb).
  destruct (mul_mag _ _ _ _ _ _ Hmb Hmf ltac:(lia)) as (kp & Hp & Hkp). unfold fmin.
  destruct (flt _ _) eqn:E.
  - eapply below_of_flt; [exact Hp|exact Hm|exact Hc|exact E|]. destruct (st_notify_retry_max_seconds st) as [| | |[]]; cbn in Hm; try done; lia.
  - destruct (st_notify_retry_max_seconds st) as [| | |[]]; cbn in Hm |- *; try done; lia.
Qed.

(** [uniform(0, x)] is a product. *)
Lemma uniform_below k x u : below k x → below 0 u → -1000 <= k <= 100 → below (k + 1) (fadd f0 (fmul (fsub x f0) u)).
Proof.
  intros Hx Hu Hk. assert (Hs : below k (fsub x f0)) by (destruct x as [[]|[]| |[] m e]; done).
  pose proof (fmul_below k 0 (k + 1) _ _ Hs Hu ltac:(lia) ltac:(lia)) as Hp.
  destruct (fmul (fsub x f0) u) as [[]| | |[] m e]; done.
Qed.

Lemma backoff_delay_ok k st attempt u : sane_retries k st → 1 <= attempt <= 21 → below 0 u → 0 <= k →
  ∃ d, backoff_delay attempt (st_notify_retry_base_seconds st) (st_notify_retry_max_seconds st) u = Ok d ∧ below (k + 1) d.
Proof.
  intros Hst Ha Hu Hk. unfold backoff_delay, raise_if. rewrite (proj2 (Z.ltb_ge attempt 1)) by lia. cbn [res_bind].
  destruct (float_of_int_below (2 ^ (attempt - 1)) attempt (attempt + 1)) as (factor & Hf & _); [|lia..|].
  { rewrite Z.abs_eq by (apply Z.pow_nonneg; lia). apply Z.pow_lt_mono_r; lia. }
  rewrite Hf. eexists. split; [reflexivity|]. apply uniform_below; [by eapply capped_below|done|].
  destruct Hst; lia.
Qed.

(** A bounded float converts, and its integer part is bounded. *)
Lemma ftrunc_below k x : below k x → 0 <= k → ∃ n, ftrunc x = Ok n ∧ n <= 2 ^ k.
Proof.
  intros Hx Hk. assert (H2 : 0 < 2 ^ k) by (apply Z.pow_pos_nonneg; lia).
  destruct x as [s|s| |s m e]; cbn [below] in Hx; try done; cbn [ftrunc to_int].
  - exists 0. split; [done|lia].
  - eexists. split; [reflexivity|]. set (q := Z.shiftl (Zpos m) e).
    assert (Hq : 0 <= q <= 2 ^ k); [|cbv zeta; destruct s; lia]. subst q. destruct Hx as [Hx _].
    destruct (Zdigits2_bounds (Zpos m) ltac:(lia)) as (? & _ & Hu). split; [apply Z.shiftl_nonneg; lia|].
    destruct (Z.le_gt_cases 0 e) as [He|He].
    + rewrite Z.shiftl_mul_pow2 by done. transitivity (2 ^ Zdigits2 (Zpos m) * 2 ^ e); [pose proof (Z.pow_pos_nonneg 2 e ltac:(lia) He); nia|].
      rewrite <- Z.pow_add_r by lia. apply Z.pow_le_mono_r; lia.
    + rewrite Z.shiftl_div_pow2 by lia. apply Z.div_le_upper_bound; [apply Z.pow_pos_nonneg; lia|].
      rewrite <- Z.pow_add_r by lia. transitivity (2 ^ Zdigits2 (Zpos m)); [lia|]. apply Z.pow_le_mono_r; lia.
Qed.

Lemma fraction_below k x : below k x → below 1 (fraction x).
Proof.
  destruct x as [s|s| |s m e]; cbn [below fraction]; try done. intros [_ Hd].
  destruct (Z.leb_spec 0 e) as [He|He]; [done|]. apply normalize_below; [|lia].
  rewrite Z.shiftl_div_pow2 by lia. pose proof (Z.pow_pos_nonneg 2 (- e) ltac:(lia) ltac:(lia)) as Hp.
  set (r := signed s m - _). assert (Hr : Z.abs r = Zpos m mod 2 ^ (- e)).
  { subst r. pose proof (Z.div_mod (Zpos m) (2 ^ (- e)) ltac:(lia)). pose proof (Z.mod_pos_bound (Zpos m) (2 ^ (- e)) Hp).
    unfold signed. destruct s; nia. }
  pose proof (Z.mod_pos_bound (Zpos m) (2 ^ (- e)) Hp). rewrite <- (Z.abs_eq (Z.abs r)) by lia.
  pose proof (Zdigits2_abs_le (Z.abs r) (- e) ltac:(lia) ltac:(lia)). lia.
Qed.

Lemma fround_below k x : below k x → 0 <= k → ∃ n, fround x = Ok n ∧ n <= 2 ^ k + 1.
Proof.
  intros Hx Hk. pose proof (Z.pow_pos_nonneg 2 k ltac:(lia) Hk). destruct x as [s|s| |s m e]; cbn [below] in Hx; try done; cbn [fround to_int].
  - exists 0. split; [done|lia].
  - eexists. split; [reflexivity|]. destruct (scaled_abs_bound m e 0 k) as [Hlo Hhi]; [lia..|]. change (10 ^ 0) with 1 in Hhi.
    cbv zeta; destruct s; lia.
Qed.

Lemma td_float_seconds_ok k x : below k x → 0 <= k → ∃ t, td_float_seconds x = Ok t ∧ t <= (2 ^ k + 5) * us_per_second.
Proof.
  intros Hx Hk. unfold td_float_seconds. destruct (ftrunc_below k x Hx Hk) as (n & -> & Hn). cbn [res_bind].
  assert (Hm : below 22 (fmul (fraction x) (div_round us_per_second 1))).
  { apply (fmul_below 1 20); [by eapply fraction_below|closed_below|lia..]. }
  destruct (fround_below 22 _ Hm ltac:(lia)) as (p & -> & Hp). cbn [res_bind]. eexists. split; [reflexivity|].
  unfold td_seconds, us_per_second in *. change (2 ^ 22) with 4194304 in Hp. lia.
Qed.

Lemma retry_wait_ok k st attempt u : sane_retries k st → 1 <= attempt <= 21 → below 0 u → 0 <= k →
  ∃ d t, backoff_delay attempt (st_notify_retry_base_seconds st) (st_notify_retry_max_seconds st) u = Ok d ∧
         td_float_seconds d = Ok t ∧ t <= retry_gap k.
Proof.
  intros Hst Ha Hu Hk. destruct (backoff_delay_ok k st attempt u Hst Ha Hu Hk) as (d & Hd & Hb).
  destruct (td_float_seconds_ok (k + 1) d Hb ltac:(lia)) as (t & Ht & Hle). eauto.
Qed.

(** * Facts about the notification queue *)


Lemma filter_ext_in {A} (P Q : A → Prop) `{!∀ x, Decision (P x), !∀ x, Decision (Q x)} (l : list A) :
  (∀ x, x ∈ l → P x ↔ Q x) → filter P l = filter Q l.
Proof.
  induction l as [|x l IH]; intros Hl; [done|]. rewrite !filter_cons.
  rewrite (IH (λ y Hy, Hl y (list_elem_of_further _ _ _ Hy))). pose proof (Hl x (list_elem_of_here _ _)). repeat case_decide; tauto.
Qed.

(** ** Routing *)

Definition route_of (r : RoutingRule) : Route := {| ro_channel := rr_channel r; ro_target := rr_target r |}.

#[export] Instance Route_eq_dec : EqDecision Route.
Proof. solve_decision. Defined.

#[export] Instance NotificationChannel_value_inj : Inj (=) (=) NotificationChannel_value.
Proof. by intros [] [] [=]. Qed.

Lemma resolve_rules_spec a rules seen routes acc : foldM (resolve_rule a) (seen, routes) rules = Ok acc →
  NoDup routes → (∀ r, (NotificationChannel_value (ro_channel r), ro_target r) ∈ seen ↔ r ∈ routes) →
  NoDup acc.2 ∧ ∀ r, r ∈ acc.2 ↔ r ∈ routes ∨ ∃ rule, rule ∈ rules ∧ matches a rule = Ok true ∧ route_of rule = r.
Proof.
  revert seen routes. induction rules as [|rule rules IH]; intros seen routes.
  { intros [= <-] Hnd _. split; [done|]. intros r. cbn. split; [by left|]. intros [?|(? & ?%elem_of_nil & _)]; done. }
  cbn [foldM resolve_rule]. intros H Hnd Hseen. destruct (matches a rule) as [matched|] eqn:Em; [|discriminate H]. cbn [res_bind] in H.
  pose proof (Hseen (route_of rule)) as Hr. cbn [route_of ro_channel ro_target] in Hr.
  destruct (matched && negb (bool_decide ((NotificationChannel_value (rr_channel rule), rr_target rule) ∈ seen))) eqn:Eb.
  - apply andb_prop in Eb as [-> Hns%negb_true_iff%bool_decide_eq_false_1].
    apply IH in H as [Hnd' Hin].
    + split; [done|]. intros r. rewrite Hin, elem_of_app, list_elem_of_singleton.
      setoid_rewrite elem_of_cons. split; [naive_solver|].
      intros [?|(rl & [->|?] & Hm & <-)]; [by left; left|by left; right|right; eauto].
    + apply NoDup_app. split; [done|]. split; [|apply NoDup_singleton]. intros r Hin' ->%list_elem_of_singleton. apply Hns, Hr, Hin'.
    + intros r. rewrite elem_of_union, elem_of_singleton, Hseen, elem_of_app, list_elem_of_singleton.
      split; [|intros [?| ->]; [by right|by left]]. intros [E|?]; [right|by left]. injection E as Hc Ht.
      apply (inj NotificationChannel_value) in Hc. destruct r. cbn in *. by subst.
  - apply IH in H as [Hnd' Hin]; [|done..]. split; [done|]. intros r. rewrite Hin. setoid_rewrite elem_of_cons.
    split; [naive_solver|]. intros [?|(rl & [->|?] & Hm & <-)]; [by left| |right; eauto].
    left. rewrite Em in Hm. injection Hm as ->. cbn in Eb. apply negb_false_iff, bool_decide_eq_true_1 in Eb. by apply Hr.
Qed.

(** The routes of a policy: the channels and targets of the rules that match, each once. *)
Lemma resolve_routes_spec a rules routes : resolve_routes rules a = Ok routes →
  NoDup routes ∧ ∀ r, r ∈ routes ↔ ∃ rule, rule ∈ rules ∧ matches a rule = Ok true ∧ route_of rule = r.
Proof.
  unfold resolve_routes. intros H. bind_inv H. injection H as <-.
  apply resolve_rules_spec in E as [Hnd Hin]; [|apply NoDup_nil_2|].
  - split; [done|]. intros q. rewrite Hin. split; [intros [?%elem_of_nil|?]; done|by right].
  - intros q. rewrite elem_of_nil. set_solver.
Qed.

(** ** Enqueueing *)

Definition route_key (id : N) (transition : AlertTransition) (r : Route) :=
  (id, transition, ro_channel r, ro_target r).

#[export] Instance route_key_inj id transition : Inj (=) (=) (route_key id transition).
Proof. intros [] [] [= -> ->]. done. Qed.

Definition payload_of (id : N) (a : Alert) (transition : AlertTransition) : jobj :=
  map (redact_item redact) (render id a transition).

(** A row as [enqueue] makes it. *)
Record fresh_row (clock : nat → datetime) (st : NotifySettings) (id : N) (a : Alert) (transition : AlertTransition)
    (n : Notification) : Prop := {
  fr_status : nt_status n = NS_PENDING;
  fr_attempts : nt_attempts n = 0;
  fr_max : nt_max_attempts n = st_notify_max_retries st + 1;
  fr_next : ∃ i, nt_next_attempt_at n = Some (clock i);
  fr_sent : nt_sent_at n = None;
  fr_payload : nt_payload n = payload_of id a transition;
  fr_key : (nt_key n).1.1 = (id, transition) }.

Section Enqueue.
Context (clock : nat → datetime) (st : NotifySettings) (id : N) (a : Alert) (transition : AlertTransition).

Abbreviation add_routes := (foldM (enqueue_route clock st id a transition)) (only parsing).

Lemma enqueue_routes_spec routes created s created' s' : add_routes (created, s) routes = Ok (created', s') → NoDup routes →
  ∃ new, ml_rows s' = ml_rows s ++ new ∧ created' = created ++ seq (length (ml_rows s)) (length new) ∧
    nt_key <$> new = route_key id transition <$> filter (λ r, route_key id transition r ∉ nt_key <$> ml_rows s) routes ∧
    Forall (fresh_row clock st id a transition) new ∧ ml_delivered s' = ml_delivered s.
Proof.
  revert created s. induction routes as [|r routes IH]; intros created s H Hnd.
  { injection H as <- <-. exists []. rewrite !app_nil_r. by split_and!. }
  apply NoDup_cons in Hnd as [Hni Hnd]. cbn [foldM enqueue_route] in H.
  destruct (TARGET_LENGTH <? py_len (ro_target r)); [discriminate H|]. cbn [raise_if res_bind] in H.
  set (n := Build_Notification _ _ _ _ _ _ _ _ _ _ _) in H.
  change (nt_key n) with (route_key id transition r) in H. cbn [ml_rows mail_ticked] in H.
  case_bool_decide as Hin; apply IH in H as (new & Hrows & Hcr & Hkeys & Hfresh & Hdel); try done; cbn [with_mail_rows mail_ticked ml_rows ml_delivered] in *.
  - exists new. split_and!; try done. rewrite filter_cons_False by tauto. done.
  - exists (n :: new). rewrite filter_cons_True by done. split_and!.
    + by rewrite Hrows, <- app_assoc.
    + rewrite Hcr, length_app, <- app_assoc. cbn. by rewrite Nat.add_1_r.
    + cbn [fmap list_fmap]. f_equal. unfold fmap in Hkeys |- *. rewrite Hkeys. f_equal. apply filter_ext_in.
      intros q Hq. rewrite fmap_app, elem_of_app. change (nt_key <$> [n]) with [route_key id transition r]. rewrite list_elem_of_singleton.
      split; [tauto|]. intros Hq' [?|E%(inj _)]; [done|]. by subst.
    + constructor; [|done]. split; try done. by eexists.
    + done.
Qed.

Lemma enqueue_routes_long routes acc : (∃ r, r ∈ routes ∧ TARGET_LENGTH < py_len (ro_target r)) →
  add_routes acc routes = Err (DBAPIError "value too long for type character varying(255)").
Proof.
  revert acc. induction routes as [|r routes IH]; intros [created s] (q & Hq & Hlen); [by apply elem_of_nil in Hq|].
  cbn [foldM enqueue_route]. destruct (Z.ltb_spec TARGET_LENGTH (py_len (ro_target r))); [done|]. cbn [raise_if res_bind].
  apply elem_of_cons in Hq as [->|Hq]; [lia|]. apply IH. eauto.
Qed.

Lemma enqueue_routes_short routes acc : (∀ r, r ∈ routes → py_len (ro_target r) <= TARGET_LENGTH) → is_ok (add_routes acc routes).
Proof.
  revert acc. induction routes as [|r routes IH]; intros [created s] Hs; [by eexists|]. cbn [foldM enqueue_route].
  destruct (Z.ltb_spec TARGET_LENGTH (py_len (ro_target r))) as [Hlt|_].
  { pose proof (Hs r (list_elem_of_here _ _)). lia. }
  cbn [raise_if res_bind]. apply IH. intros q Hq. apply Hs. by right.
Qed.
End Enqueue.

(** Whether the routes can be written does not depend on the session. *)
Lemma enqueue_routes_total clock clock' st id a transition routes acc acc' r :
  foldM (enqueue_route clock st id a transition) acc routes = Ok r →
  is_ok (foldM (enqueue_route clock' st id a transition) acc' routes).
Proof.
  intros H. apply enqueue_routes_short. intros q Hq. destruct (Z.le_gt_cases (py_len (ro_target q)) TARGET_LENGTH) as [?|Hgt]; [done|].
  rewrite enqueue_routes_long in H by (exists q; split; [done|lia]). discriminate H.
Qed.

(** ** Delivery *)

(** A row dispatching still has to see to. *)
Definition unfinished (n : Notification) : Prop := nt_status n = NS_PENDING ∨ nt_status n = NS_FAILED.

#[export] Instance unfinished_dec n : Decision (unfinished n).
Proof. unfold unfinished. apply _. Defined.

Record row_ok (n : Notification) : Prop := {
  rk_attempts : 0 <= nt_attempts n <= nt_max_attempts n ∧ nt_max_attempts n <= 21;
  rk_status : match nt_status n with
              | NS_PENDING => nt_attempts n = 0 ∧ 1 <= nt_max_attempts n
              | NS_FAILED => 0 < nt_attempts n < nt_max_attempts n
              | NS_SENT => 0 < nt_attempts n ∧ is_Some (nt_sent_at n)
              | NS_DEAD_LETTER => 0 < nt_attempts n
              | NS_SUPPRESSED => False
              end;
  rk_message : is_ok (message_from_payload n) }.

(** The attempts a row has left. *)
Definition remaining (n : Notification) : nat :=
  if decide (unfinished n) then Z.to_nat (nt_max_attempts n - nt_attempts n) else 0.

Definition potential (rows : list Notification) : nat := sum_list_with remaining rows.

(** What holds of the rows and of what was delivered. *)
Record mail_ok (s : Mail) : Prop := {
  mk_keys : NoDup (nt_key <$> ml_rows s);
  mk_rows : ∀ i n, ml_rows s !! i = Some n → row_ok n;
  mk_sent : ∀ i n, ml_rows s !! i = Some n → i ∈ ml_delivered s ↔ nt_status n = NS_SENT;
  mk_once : NoDup (ml_delivered s);
  mk_delivered : ∀ i, i ∈ ml_delivered s → is_Some (ml_rows s !! i) }.

Lemma unfinished_ok n : row_ok n → unfinished n → 0 <= nt_attempts n < nt_max_attempts n.
Proof. intros [Ha Hs _] [E|E]; rewrite E in Hs; cbn in Hs; lia. Qed.

Lemma sum_list_insert {A} (f : A → nat) i x y l : l !! i = Some x →
  (sum_list_with f (<[i := y]> l) + f x = sum_list_with f l + f y)%nat.
Proof.
  revert i. induction l as [|z l IH]; intros [|i] H; [done..| |].
  - injection H as ->. cbn. lia.
  - change (<[S i:=y]> (z :: l)) with (z :: <[i:=y]> l). cbn [sum_list_with]. specialize (IH i H). lia.
Qed.

Lemma potential_zero rows i n : potential rows = 0%nat → rows !! i = Some n → row_ok n → ¬ unfinished n.
Proof.
  intros Hp Hi Hn Hu. pose proof (sum_list_insert remaining i n n rows Hi) as Hs.
  rewrite list_insert_id in Hs by done. pose proof (unfinished_ok n Hn Hu).
  assert (Hr : (remaining n <= potential rows)%nat).
  { unfold potential. clear -Hi. revert i Hi. induction rows as [|m rows IH]; intros [|i] H; [done..| |].
    - injection H as ->. cbn. lia.
    - cbn. specialize (IH i H). lia. }
  rewrite Hp in Hr. unfold remaining in Hr. rewrite decide_True in Hr by done. lia.
Qed.

Lemma potential_positive rows : (0 < potential rows)%nat → ∃ i n, rows !! i = Some n ∧ unfinished n.
Proof.
  induction rows as [|m rows IH]; cbn; [lia|]. destruct (decide (unfinished m)) as [Hu|Hu]; [by exists 0%nat, m|].
  replace (remaining m) with 0%nat by (unfold remaining; by rewrite decide_False). intros (i & n & ? & ?)%IH. by exists (S i), n.
Qed.

(** A row written by the dispatcher keeps its message. *)
Lemma message_finish status error next sent n : message_from_payload (finish status error next sent n) = message_from_payload n.
Proof. done. Qed.
Lemma message_attempted n : message_from_payload (attempted n) = message_from_payload n.
Proof. done. Qed.

Section Dispatch.
Context (clock : nat → datetime) (random : nat → float)
  (notifiers : NotificationChannel → option (nat → string → NotificationMessage → Outcome)) (st : NotifySettings) (k : Z)
  (Hst : sane_retries k st) (Hk : 0 <= k) (Hrandom : ∀ i, below 0 (random i)).

(** What an attempt makes of an unfinished row. *)
Record tried (n n' : Notification) : Prop := {
  tr_key : nt_key n' = nt_key n;
  tr_ok : row_ok n';
  tr_left : (remaining n' < remaining n)%nat;
  tr_next : unfinished n' → ∃ j t, nt_next_attempt_at n' = Some t ∧ dt_us t <= dt_us (clock j) + retry_gap k }.

Lemma tried_finish status error next sent n : row_ok n → unfinished n →
  (status = NS_SENT ∧ is_Some sent ∨ status = NS_DEAD_LETTER ∨
   status = NS_FAILED ∧ nt_attempts n + 1 < nt_max_attempts n ∧
     ∃ j t, next = Some t ∧ dt_us t <= dt_us (clock j) + retry_gap k) →
  tried n (finish status error next sent (attempted n)).
Proof.
  intros Hn Hu Hcase. pose proof (unfinished_ok n Hn Hu) as Ha. pose proof Hn as [Hb _ Hm].
  assert (Hr : remaining n = Z.to_nat (nt_max_attempts n - nt_attempts n)) by (unfold remaining; by rewrite decide_True).
  split; [done| | |].
  - split; [cbn; lia| |done]. destruct Hcase as [[-> ?]|[->|(-> & ? & _)]]; cbn; split_and?; try done; lia.
  - rewrite Hr. unfold remaining. case_decide as Hu'; [|lia]. cbn. lia.
  - intros Hu'. destruct Hcase as [[-> ?]|[->|(-> & ? & j & t & -> & ?)]]; [by destruct Hu'..|]. cbn. eauto.
Qed.

Lemma handle_failure_spec i n msg permanent s x : row_ok n → unfinished n →
  ∃ s' x' n', handle_failure clock random st i (attempted n) msg permanent s x = Ok (s', x') ∧
    ml_rows s' = <[i := n']> (ml_rows s) ∧ ml_delivered s' = ml_delivered s ∧ tried n n' ∧ nt_status n' ≠ NS_SENT.
Proof using Hst Hk Hrandom.
  intros Hn Hu. pose proof (unfinished_ok n Hn Hu) as Ha. unfold handle_failure.
  destruct (permanent || _) eqn:Eb.
  - do 3 eexists. split; [reflexivity|]. split_and!; [done|done| |done]. apply tried_finish; [done..|]. by right; left.
  - apply orb_false_elim in Eb as [_ Hlt%Z.leb_gt]. change (nt_attempts (attempted n)) with (nt_attempts n + 1) in *.
    change (nt_max_attempts (attempted n)) with (nt_max_attempts n) in Hlt.
    destruct (retry_wait_ok k st (nt_attempts n + 1) (random (ml_draws s))) as (d & t & -> & Ht & Hle); [done| |done..|].
    { destruct (rk_attempts n Hn). lia. }
    cbn [res_bind]. rewrite Ht. cbn [res_bind]. do 3 eexists. split; [reflexivity|]. split_and!; [done|done| |done].
    apply tried_finish; [done..|]. right; right. split; [done|]. split; [lia|]. exists (ml_ticks s), (dt_add (clock (ml_ticks s)) t).
    split; [done|]. unfold dt_add; cbn [dt_us]. lia.
Qed.

Lemma attempt_spec i n s x : ml_rows s !! i = Some n → row_ok n → unfinished n →
  ∃ s' x' n', attempt clock random notifiers st i s x = Ok (s', x') ∧ ml_rows s' = <[i := n']> (ml_rows s) ∧ tried n n' ∧
    (nt_status n' = NS_SENT ∧ ml_delivered s' = ml_delivered s ++ [i] ∨ nt_status n' ≠ NS_SENT ∧ ml_delivered s' = ml_delivered s).
Proof using Hst Hk Hrandom.
  intros Hi Hn Hu. unfold attempt. rewrite Hi. cbv zeta. destruct (notifiers _) as [send|].
  2:{ do 3 eexists. split; [reflexivity|]. split_and!; [done| |by right]. apply tried_finish; [done..|by right; left]. }
  rewrite message_attempted. destruct (rk_message n Hn) as [m ->]. cbn [res_bind].
  destruct (send _ _ m) as [|msg permanent|msg].
  - do 3 eexists. split; [reflexivity|]. split_and!; [done| |by left]. apply tried_finish; [done..|]. left. split; [done|]. by eexists.
  - destruct (handle_failure_spec i n msg permanent (called i (NOTIFIER_ERROR msg permanent) s) x Hn Hu) as (s' & x' & n' & -> & Hr & Hd & Ht & Hs).
    exists s', x', n'. split_and!; [done..|]. by right.
  - destruct (handle_failure_spec i n msg false (called i (OTHER_ERROR msg) s) x Hn Hu) as (s' & x' & n' & -> & Hr & Hd & Ht & Hs).
    exists s', x', n'. split_and!; [done..|]. by right.
Qed.

Lemma mail_ok_insert s s' i n n' : mail_ok s → ml_rows s !! i = Some n → unfinished n → tried n n' →
  ml_rows s' = <[i := n']> (ml_rows s) →
  (nt_status n' = NS_SENT ∧ ml_delivered s' = ml_delivered s ++ [i] ∨ nt_status n' ≠ NS_SENT ∧ ml_delivered s' = ml_delivered s) →
  mail_ok s'.
Proof.
  intros [Hk1 Hk2 Hk3 Hk4 Hk5] Hi Hu [Hkey Hok _ _] Hr Hd. pose proof (lookup_lt_Some _ _ _ Hi) as Hlt.
  assert (Hni : i ∉ ml_delivered s). { rewrite (Hk3 _ _ Hi). destruct Hu as [->| ->]; done. }
  split.
  - rewrite Hr, list_fmap_insert, Hkey, list_insert_id; [done|]. by rewrite list_lookup_fmap, Hi.
  - intros j m. rewrite Hr, list_lookup_insert_Some. intros [(<- & <- & _)|[_ ?]]; [done|by eapply Hk2].
  - intros j m. rewrite Hr, list_lookup_insert_Some. intros [(<- & <- & _)|[Hne Hj]].
    + destruct Hd as [[-> ->]|[? ->]]; [|split; done]. split; [done|]. intros _. apply elem_of_app. right. by apply list_elem_of_singleton.
    + rewrite <- (Hk3 _ _ Hj). destruct Hd as [[_ ->]|[_ ->]]; [|done]. rewrite elem_of_app, list_elem_of_singleton.
      split; [|by left]. intros [?| ->]; done.
  - destruct Hd as [[_ ->]|[_ ->]]; [|done]. apply NoDup_app. split; [done|]. split; [|apply NoDup_singleton].
    intros j Hj ->%list_elem_of_singleton. done.
  - intros j Hj. rewrite Hr. apply lookup_lt_is_Some. rewrite length_insert. destruct Hd as [[_ E]|[_ E]]; rewrite E in Hj.
    + apply elem_of_app in Hj as [Hj%Hk5| ->%list_elem_of_singleton]; [by apply lookup_lt_is_Some|done].
    + by apply lookup_lt_is_Some, Hk5.
Qed.

Lemma attempt_all_spec due s x : mail_ok s → NoDup due →
  (∀ i, i ∈ due → ∃ n, ml_rows s !! i = Some n ∧ unfinished n) →
  ∃ s' x', foldM (λ '(s, x) i, attempt clock random notifiers st i s x) (s, x) due = Ok (s', x') ∧ mail_ok s' ∧
    (potential (ml_rows s') + length due <= potential (ml_rows s))%nat ∧
    nt_key <$> ml_rows s' = nt_key <$> ml_rows s ∧
    ∀ i n', ml_rows s' !! i = Some n' → ∃ n, ml_rows s !! i = Some n ∧ (n' = n ∨ i ∈ due ∧ tried n n').
Proof using Hst Hk Hrandom.
  revert s x. induction due as [|i due IH]; intros s x Hok Hnd Hdue.
  { exists s, x. split_and!; [done|done|cbn; lia|done|]. intros i n' H. eauto. }
  apply NoDup_cons in Hnd as [Hni Hnd]. destruct (Hdue i) as (n & Hi & Hu); [left|].
  destruct (attempt_spec i n s x Hi (mk_rows _ Hok _ _ Hi) Hu) as (s1 & x1 & n1 & H1 & Hr & Ht & Hd).
  pose proof (mail_ok_insert _ _ _ _ _ Hok Hi Hu Ht Hr Hd) as Hok1.
  destruct (IH s1 x1 Hok1 Hnd) as (s' & x' & H' & Hok' & Hp & Hkeys & Hrows).
  { intros j Hj. destruct (Hdue j) as (m & Hm & Hum); [by right|]. exists m. split; [|done].
    rewrite Hr, list_lookup_insert_ne; [done|]. intros ->. done. }
  exists s', x'. cbn [foldM]. rewrite H1. cbn [res_bind]. split_and!; [done|done| | |].
  - pose proof (sum_list_insert remaining i n n1 (ml_rows s) Hi). pose proof (tr_left _ _ Ht).
    rewrite Hr in Hp. unfold potential in *. cbn [length]. lia.
  - rewrite Hkeys, Hr, list_fmap_insert, (tr_key _ _ Ht), list_insert_id; [done|]. by rewrite list_lookup_fmap, Hi.
  - intros j n' (m & Hm & Hcase)%Hrows. rewrite Hr, list_lookup_insert_Some in Hm. destruct Hm as [(<- & <- & _)|[_ Hm]].
    + exists n. split; [done|]. right. split; [left|]. destruct Hcase as [->|[? _]]; [done|by destruct Hni].
    + exists m. split; [done|]. destruct Hcase as [->|[? ?]]; [by left|right]. split; [by right|done].
Qed.
End Dispatch.

Lemma fst_imap_pair {A} (l : list A) : (imap pair l).*1 = seq 0 (length l).
Proof.
  assert (H : ∀ k, (imap (λ i x, (k + i, x)%nat) l).*1 = seq k (length l)); [|apply (H 0%nat)].
  induction l as [|x l IH]; intros k; [done|]. cbn. f_equal; [lia|]. rewrite <- (IH (S k)). f_equal.
  apply imap_ext. intros. cbn. f_equal. lia.
Qed.

(** The rows selected are distinct, unfinished and due; with a positive limit, none only when none is due. *)
Lemma due_rows_spec now limit rows :
  NoDup (due_rows now limit rows) ∧
  (∀ i, i ∈ due_rows now limit rows → ∃ n, rows !! i = Some n ∧ is_due now n = true) ∧
  (∀ i n, rows !! i = Some n → is_due now n = true → (1 <= limit)%nat → (1 <= length (due_rows now limit rows))%nat).
Proof.
  unfold due_rows. set (sel := filter _ _). pose proof (merge_sort_Permutation before sel) as Hp.
  assert (Hsel : ∀ i n, (i, n) ∈ sel ↔ rows !! i = Some n ∧ is_due now n = true).
  { intros i n. subst sel. rewrite list_elem_of_filter, elem_of_lookup_imap. cbn [snd]. split.
    - intros [Hd (j & m & [= -> ->] & Hj)]. done.
    - intros [Hi Hd]. split; [done|]. by exists i, n. }
  split_and!.
  - eapply sublist_NoDup; [|apply sublist_take].
    rewrite Hp. apply NoDup_fmap_2_strong.
    + intros [i n] [j m] [Hi _]%Hsel [Hj _]%Hsel E. cbn in E. subst. congruence.
    + subst sel. apply NoDup_filter, (NoDup_fmap_1 fst). rewrite fst_imap_pair. apply NoDup_seq.
  - intros i (j & Hj & _)%elem_of_take. apply list_elem_of_lookup_2, list_elem_of_fmap in Hj as ([q n] & -> & Hin).
    exists n. apply Hsel. by rewrite <- Hp.
  - intros i n Hi Hd Hl. rewrite length_take, length_fmap, (Permutation_length Hp).
    assert (Hin : (i, n) ∈ sel) by by apply Hsel. destruct sel; [by apply elem_of_nil in Hin|]. cbn. lia.
Qed.

Lemma is_due_unfinished now n : is_due now n = true → unfinished n.
Proof. unfold is_due. intros [H%bool_decide_eq_true_1 _]%andb_prop. done. Qed.

(** * Notifications are queued once, delivered at most once, and all finished *)


(** ** The stored payload *)

Lemma payload_message n id a transition : nt_payload n = payload_of id a transition → is_ok (message_from_payload n).
Proof.
  intros E. unfold message_from_payload, payload_of, render in *. rewrite E. destruct (al_severity a), transition; eexists; reflexivity.
Qed.

Lemma substring_length i m s : (i + m <= String.length s)%nat → String.length (String.substring i m s) = m.
Proof.
  revert i m. induction s as [|c s IH]; intros i m H.
  - cbn in H. by destruct i, m; try lia.
  - cbn in H. destruct i, m; cbn; [done|f_equal; apply (IH 0%nat); lia|apply (IH i 0%nat); lia|apply (IH i (S m)); lia].
Qed.

(** The text of a UUID is all hexadecimal digits and hyphens. *)
Lemma all_chars_app p s t : all_chars p (s +:+ t) = all_chars p s && all_chars p t.
Proof. induction s as [|c s IH]; [done|]. change (String c s +:+ t) with (String c (s +:+ t)). cbn. by rewrite IH, andb_assoc. Qed.

Lemma all_chars_substring p i m s : all_chars p s = true → all_chars p (String.substring i m s) = true.
Proof.
  revert i m. induction s as [|c s IH]; intros i m H; [by destruct i, m|]. cbn in H. apply andb_prop in H as [Hc H].
  destruct i, m; cbn; [done| |by apply IH..]. rewrite Hc. by apply IH.
Qed.

Lemma hex_digit_token n : (n < 16)%N → all_chars token_char (hex_digit n) = true.
Proof.
  intros H. assert (Hn : n ∈ (N.of_nat <$> seq 0 16)).
  { apply list_elem_of_fmap. exists (N.to_nat n). split; [lia|]. apply elem_of_seq. lia. }
  assert (Hall : Forall (λ n, all_chars token_char (hex_digit n) = true) (N.of_nat <$> seq 0 16)) by (repeat constructor).
  rewrite Forall_forall in Hall. by apply Hall.
Qed.

Lemma hex_pad_token w n : all_chars token_char (hex_pad w n) = true.
Proof.
  revert n. induction w as [|w IH]; intros n; [done|]. cbn [hex_pad]. rewrite all_chars_app, IH. apply hex_digit_token.
  apply N.mod_lt. done.
Qed.

Lemma token_char_plain c : token_char c = true → is_continuation c = false.
Proof. unfold token_char, is_continuation. intros H. apply andb_false_iff. rewrite N.leb_gt, N.ltb_ge.
  repeat match type of H with context [(?a || ?b)] => apply orb_prop in H as [H|H] end;
  repeat match type of H with (_ && _) = true => apply andb_prop in H as [_ H] end;
  rewrite ?N.leb_le, ?N.eqb_eq in H; lia.
Qed.

Lemma py_len_tokens s : all_chars token_char s = true → py_len s = Z.of_nat (String.length s).
Proof.
  induction s as [|c s IH]; [done|]. cbn [all_chars py_len String.length]. intros [Hc H]%andb_prop.
  rewrite (token_char_plain _ Hc), (IH H). lia.
Qed.

Lemma uuid_token n : token_shaped (uuid_text n) = true.
Proof.
  set (s := uuid_text n). assert (Ha : all_chars token_char s = true).
  { subst s. unfold uuid_text. cbn [py_join]. rewrite !all_chars_app, !all_chars_substring by apply hex_pad_token. done. }
  assert (Hl : String.length s = 36%nat).
  { subst s. unfold uuid_text. cbn [py_join]. rewrite !length_append, !substring_length by (rewrite hex_pad_length; lia). done. }
  unfold token_shaped. rewrite Ha, (py_len_tokens s Ha), Hl. done.
Qed.

(** The payload of a notification never carries the id of its alert. [_render] writes the UUID
    as text under [alert_id], which is no identifier key, so redaction masks it as a token; and
    the message every notifier is given, the generic webhook's body included, holds the mask. *)
Theorem alert_id_masked id a transition n m : nt_payload n = payload_of id a transition →
  message_from_payload n = Ok m → ms_alert_id m = JStr MASK ∧ assoc (webhook_body m) "alert_id" = Some (JStr MASK).
Proof.
  intros E Hm. assert (Hid : ms_alert_id m = JStr MASK); [|split; [done|cbn; by rewrite Hid]].
  unfold message_from_payload in Hm. bind_inv Hm. bind_inv Hm. injection Hm as <-. cbn [ms_alert_id]. rewrite E. unfold get_or, payload_of, render.
  assert (Hr : assoc (map (redact_item redact) (render id a transition)) "alert_id" = Some (redact (JStr (uuid_text id)))) by reflexivity.
  unfold render in Hr. rewrite Hr. cbn [redact]. by rewrite uuid_token.
Qed.

(** ** Enqueueing *)

Lemma fresh_row_ok clock k st id a transition n : sane_retries k st → fresh_row clock st id a transition n → row_ok n.
Proof.
  intros [Hr _ _ _ _] [Hs Ha Hm _ _ Hp _]. split; [rewrite Ha, Hm; lia| |by eapply payload_message].
  rewrite Hs, Ha, Hm. lia.
Qed.

Lemma mail_ok_append clock k st id a transition s s' new : sane_retries k st → mail_ok s →
  ml_rows s' = ml_rows s ++ new → ml_delivered s' = ml_delivered s → Forall (fresh_row clock st id a transition) new →
  NoDup (nt_key <$> new) → (∀ key, key ∈ nt_key <$> new → key ∉ nt_key <$> ml_rows s) → mail_ok s'.
Proof.
  intros Hst [Hk1 Hk2 Hk3 Hk4 Hk5] Hr Hd Hf Hnd Hni. rewrite Forall_forall in Hf.
  assert (Hnew : ∀ i n, ml_rows s' !! i = Some n → ml_rows s !! i = Some n ∨
    (length (ml_rows s) <= i)%nat ∧ fresh_row clock st id a transition n).
  { intros i n. rewrite Hr. intros [?|[Hi Hn]]%lookup_app_Some; [by left|right]. split; [done|]. by apply Hf, (list_elem_of_lookup_2 _ _ _ Hn). }
  split; rewrite ?Hd; [| | |done|].
  - rewrite Hr, fmap_app. apply NoDup_app. split; [done|]. split; [|done]. intros key H1 H2. by eapply Hni.
  - intros i n [H|[_ H]]%Hnew; [by eapply Hk2|by eapply fresh_row_ok].
  - intros i n [H|[Hi H]]%Hnew; [by apply Hk3|]. rewrite (fr_status _ _ _ _ _ _ H). split; [|done].
    intros [m Hm%lookup_lt_Some]%Hk5. lia.
  - intros i [m Hm]%Hk5. rewrite Hr. exists m. by apply lookup_app_l_Some.
Qed.

Lemma new_keys_fresh id transition (s : Mail) (new : list Notification) (routes : list Route) : NoDup routes →
  nt_key <$> new = route_key id transition <$> filter (λ r, route_key id transition r ∉ nt_key <$> ml_rows s) routes →
  NoDup (nt_key <$> new) ∧ ∀ key, key ∈ nt_key <$> new ↔
    key ∉ nt_key <$> ml_rows s ∧ ∃ r, r ∈ routes ∧ key = route_key id transition r.
Proof.
  intros Hnd ->. split; [apply (NoDup_fmap_2 _), NoDup_filter, Hnd|]. intros key. rewrite list_elem_of_fmap.
  setoid_rewrite list_elem_of_filter. split; [|naive_solver]. intros (r & -> & ? & ?). eauto.
Qed.

(** The mail is left alone, or the routes that match get a row each. *)
Definition suppressed (st : NotifySettings) (transition : AlertTransition) : bool :=
  bool_decide (transition = TR_RESOLVED) && negb (st_notify_send_recovery st).

Lemma enqueue_spec clock st rules id a transition s created s' :
  enqueue clock st rules id a transition s = Ok (created, s') →
  ∃ new, ml_rows s' = ml_rows s ++ new ∧ created = seq (length (ml_rows s)) (length new) ∧
    ml_delivered s' = ml_delivered s ∧ Forall (fresh_row clock st id a transition) new ∧ NoDup (nt_key <$> new) ∧
    ∀ key, key ∈ nt_key <$> new ↔ suppressed st transition = false ∧ key ∉ nt_key <$> ml_rows s ∧
      ∃ rule, rule ∈ rules ∧ matches a rule = Ok true ∧ key = route_key id transition (route_of rule).
Proof.
  unfold enqueue. fold (suppressed st transition). destruct (suppressed st transition).
  { intros [= <- <-]. exists []. rewrite app_nil_r. split_and!; [done..|apply NoDup_nil_2|].
    intros key. split; [intros H; by apply elem_of_nil in H|by intros [? _]]. }
  intros H. bind_inv H. apply resolve_routes_spec in E as [Hnd Hin].
  apply enqueue_routes_spec in H as (new & Hr & Hc & Hkeys & Hf & Hd); [|done]. exists new.
  destruct (new_keys_fresh id transition s new _ Hnd Hkeys) as [Hnd' Hk]. split_and!; try done.
  intros key. rewrite Hk. split; [intros (? & r' & Hr'%Hin & ->); naive_solver|].
  intros (_ & ? & rule & ? & ? & ->). split; [done|]. exists (route_of rule). split; [|done]. apply Hin. eauto.
Qed.

(** What enqueueing does. It adds one pending row for each channel and target of a matching rule
    that has none for this alert and transition, nothing for a recovery when recoveries are off,
    and changes no other row; and once it has succeeded, the same call again adds nothing. *)
Theorem enqueue_exact clock st rules id a transition s created s' :
  enqueue clock st rules id a transition s = Ok (created, s') →
  (∃ new, ml_rows s' = ml_rows s ++ new ∧ created = seq (length (ml_rows s)) (length new) ∧
    Forall (fresh_row clock st id a transition) new ∧ NoDup (nt_key <$> new) ∧
    ∀ key, key ∈ nt_key <$> new ↔ suppressed st transition = false ∧ key ∉ nt_key <$> ml_rows s ∧
      ∃ rule, rule ∈ rules ∧ matches a rule = Ok true ∧ key = (id, transition, rr_channel rule, rr_target rule)) ∧
  (∀ clock', ∃ s'', enqueue clock' st rules id a transition s' = Ok ([], s'') ∧ ml_rows s'' = ml_rows s').
Proof.
  intros H. pose proof (enqueue_spec _ _ _ _ _ _ _ _ _ H) as (new & Hr & Hc & _ & Hf & Hnd & Hk). split; [by exists new|].
  intros clock'. assert (Hok : is_ok (enqueue clock' st rules id a transition s')).
  { unfold enqueue in *. destruct (_ && _); [by eexists|]. bind_inv H. cbn [res_bind]. eapply (enqueue_routes_total clock); exact H. }
  destruct Hok as [[created' s''] H']. exists s''.
  pose proof (enqueue_spec _ _ _ _ _ _ _ _ _ H') as (new' & Hr' & Hc' & _ & _ & _ & Hk').
  assert (new' = []) as ->.
  { destruct new' as [|n new']; [done|]. exfalso. destruct (proj1 (Hk' (nt_key n))) as (Hs & Hni & rule & Hin & Hm & E); [left|].
    apply Hni. rewrite Hr, fmap_app, elem_of_app. destruct (decide (nt_key n ∈ nt_key <$> ml_rows s)); [by left|right].
    apply Hk. eauto 6. }
  rewrite Hr', app_nil_r. split; [|done]. by rewrite H', Hc'.
Qed.

(** A target longer than its column, such as a long webhook URL, makes [enqueue] raise instead
    of queueing: the error of the insert is not the one [enqueue] expects. *)
Theorem long_target_raises clock st rules id a transition s rule routes :
  resolve_routes rules a = Ok routes → suppressed st transition = false →
  rule ∈ rules → matches a rule = Ok true → 255 < py_len (rr_target rule) →
  ∃ msg, enqueue clock st rules id a transition s = Err (DBAPIError msg).
Proof.
  intros Hr Hs Hin Hm Hlen. unfold enqueue. fold (suppressed st transition). rewrite Hs, Hr. cbn [res_bind].
  eexists. apply enqueue_routes_long. exists (route_of rule). split; [|exact Hlen].
  apply (resolve_routes_spec _ _ _ Hr). eauto.
Qed.

(** ** Dispatching *)

Definition empty_mail : Mail := {| ml_rows := []; ml_ticks := 0; ml_draws := 0; ml_calls := 0; ml_delivered := [] |}.

(** What the application does to the queue: [enqueue] under any policy, [dispatch_due] with any notifiers. *)
Inductive mail_step (st : NotifySettings) : Mail → Mail → Prop :=
| ms_enqueue clock rules id a transition s created s' :
    enqueue clock st rules id a transition s = Ok (created, s') → mail_step st s s'
| ms_dispatch clock random notifiers limit s s' stats : (∀ i, below 0 (random i)) →
    dispatch_due clock random notifiers st limit s = Ok (s', stats) → mail_step st s s'.

Lemma dispatch_spec clock random notifiers st k limit s : sane_retries k st → 0 <= k → (∀ i, below 0 (random i)) → mail_ok s →
  ∃ s' stats, dispatch_due clock random notifiers st limit s = Ok (s', stats) ∧ mail_ok s' ∧
    (potential (ml_rows s') + length (due_rows (clock (ml_ticks s)) limit (ml_rows s)) <= potential (ml_rows s))%nat ∧
    nt_key <$> ml_rows s' = nt_key <$> ml_rows s ∧
    ∀ i n', ml_rows s' !! i = Some n' → ∃ n, ml_rows s !! i = Some n ∧ (n' = n ∨ tried clock k n n').
Proof.
  intros Hst Hk Hr [Hk1 Hk2 Hk3 Hk4 Hk5]. unfold dispatch_due, attempt_all.
  destruct (due_rows_spec (clock (ml_ticks s)) limit (ml_rows s)) as (Hnd & Hin & _).
  destruct (attempt_all_spec clock random notifiers st k Hst Hk Hr (due_rows (clock (ml_ticks s)) limit (ml_rows s)) (mail_ticked s)
    {| sx_sent := 0; sx_failed := 0; sx_dead_letter := 0 |}) as (s' & x' & H & Hok & Hp & Hkeys & Hrows); [done|done| |].
  - intros i (n & Hi & Hd)%Hin. exists n. split; [done|]. by eapply is_due_unfinished.
  - exists s', x'. split_and!; [done..|]. intros i n' (n & Hi & Hcase)%Hrows. exists n. split; [done|]. destruct Hcase as [?|[_ ?]]; auto.
Qed.

Lemma mail_step_ok st k s s' : sane_retries k st → 0 <= k → mail_step st s s' → mail_ok s → mail_ok s'.
Proof.
  intros Hst Hk [clock rules id a transition s0 created s1 H|clock random notifiers limit s0 s1 stats Hr H] Hok.
  - apply enqueue_spec in H as (new & Hrows & _ & Hd & Hf & Hnd & Hin). eapply mail_ok_append; try done. intros key Hkey%Hin. tauto.
  - destruct (dispatch_spec clock random notifiers st k limit s0 Hst Hk Hr Hok) as (s2 & x2 & H2 & Hok2 & _). congruence.
Qed.

Lemma mail_reachable_ok st k s : sane_retries k st → 0 <= k → rtc (mail_step st) empty_mail s → mail_ok s.
Proof.
  intros Hst Hk. apply (rtc_ind_r (R := mail_step st) mail_ok); [|intros x y _ Hxy Hx; by eapply mail_step_ok].
  split; [apply NoDup_nil_2|intros i n H; by destruct i..|apply NoDup_nil_2|]. intros i Hi. by apply elem_of_nil in Hi.
Qed.


(** Every row left is due by the readings of tick [j]. *)
Definition all_due_by (clock : nat → datetime) (s : Mail) : Prop :=
  ∀ i n t, ml_rows s !! i = Some n → unfinished n → nt_next_attempt_at n = Some t → ∀ r, dt_us t <= dt_us (clock r).

Lemma mail_ticks_drain clocks random notifiers st k limit m j s : sane_retries k st → 0 <= k → (∀ i, below 0 (random i)) →
  (1 <= limit)%nat → (∀ j r r', dt_us (clocks j r) + retry_gap k <= dt_us (clocks (S j) r')) → mail_ok s → all_due_by (clocks j) s →
  ∃ s', foldM (λ s j, r <- dispatch_due (clocks j) random notifiers st limit s ;; Ok r.1) s (seq j m) = Ok s' ∧ mail_ok s' ∧
    (potential (ml_rows s') <= potential (ml_rows s) - m)%nat ∧ nt_key <$> ml_rows s' = nt_key <$> ml_rows s.
Proof.
  intros Hst Hk Hr Hl Hgap. revert j s. induction m as [|m IH]; intros j s Hok Hdue.
  { exists s. split_and!; [done..|lia|done]. }
  destruct (dispatch_spec (clocks j) random notifiers st k limit s Hst Hk Hr Hok) as (s1 & x1 & H1 & Hok1 & Hp & Hkeys & Hrows).
  assert (Hdue1 : all_due_by (clocks (S j)) s1).
  { intros i n' t (n & Hi & Hcase)%Hrows Hu Hn r. pose proof (Hgap j 0%nat r). assert (0 <= retry_gap k) by (unfold retry_gap, us_per_second; pose proof (Z.pow_nonneg 2 (k + 1)); lia).
    destruct Hcase as [->|Ht]; [pose proof (Hdue i n t Hi Hu Hn 0%nat); lia|].
    destruct (tr_next _ _ _ _ Ht Hu) as (q & t' & Ht' & Hle). pose proof (Hgap j q r). rewrite Ht' in Hn. injection Hn as <-. lia. }
  destruct (IH (S j) s1 Hok1 Hdue1) as (s' & H' & Hok' & Hp' & Hkeys'). exists s'. cbn [seq foldM]. rewrite H1. cbn [res_bind fst].
  split_and!; [done|done| |congruence].
  destruct (decide (potential (ml_rows s) = 0%nat)) as [Hz|Hnz]; [lia|].
  assert ((1 <= length (due_rows (clocks j (ml_ticks s)) limit (ml_rows s)))%nat); [|lia].
  destruct (potential_positive (ml_rows s)) as (i & n & Hi & Hu); [lia|].
  apply (due_rows_spec _ _ _) with (i := i) (n := n); [done| |done]. unfold is_due. rewrite bool_decide_true by done.
  destruct (nt_next_attempt_at n) as [t|] eqn:Et; [|done]. apply Z.leb_le. by eapply Hdue.
Qed.

(** Every notification finishes. From any reachable queue whose rows are due, if successive
    dispatches are further apart than the longest wait, then after as many of them as there are
    attempts left, whatever the notifiers answer and the jitter draws, every row is sent or
    parked; no row is lost. *)
Theorem queue_drains st k s clocks random notifiers limit m : sane_retries k st → 0 <= k →
  rtc (mail_step st) empty_mail s → (1 <= limit)%nat → (∀ i, below 0 (random i)) →
  (∀ j r r', dt_us (clocks j r) + retry_gap k <= dt_us (clocks (S j) r')) → all_due_by (clocks 0%nat) s →
  (potential (ml_rows s) <= m)%nat →
  ∃ s', dispatch_ticks clocks random notifiers st limit m s = Ok s' ∧ nt_key <$> ml_rows s' = nt_key <$> ml_rows s ∧
    ∀ i n, ml_rows s' !! i = Some n → nt_status n = NS_SENT ∨ nt_status n = NS_DEAD_LETTER.
Proof.
  intros Hst Hk Hreach Hl Hr Hgap Hdue Hm. pose proof (mail_reachable_ok _ _ _ Hst Hk Hreach) as Hok.
  destruct (mail_ticks_drain clocks random notifiers st k limit m 0 s) as (s' & H & Hok' & Hp & Hkeys); try done.
  exists s'. split_and!; [done..|]. intros i n Hi. pose proof (mk_rows _ Hok' _ _ Hi) as Hn.
  assert (Hz : potential (ml_rows s') = 0%nat) by lia. pose proof (potential_zero _ _ _ Hz Hi Hn) as Hnu.
  pose proof (rk_status _ Hn) as Hs. unfold unfinished in Hnu. destruct (nt_status n); tauto.
Qed.
