(* ===== verification/NotificationExamples.v ===== *)
(** * The notification theorems at concrete inputs *)

From S2P Require Import Prelude PyStr PyFloat PyFloatFacts PyTime PyJson Enums AlertService Redaction Notifications NotificationTheorems.

Definition notify_settings : NotifySettings :=
  {| st_notify_max_retries := 1; st_notify_retry_base_seconds := div_round 2 1;
     st_notify_retry_max_seconds := div_round 300 1; st_notify_send_recovery := true |}.

Lemma notify_settings_sane : sane_retries 9 notify_settings.
Proof. split; [cbn; lia|closed_below..|lia]. Qed.

Definition notify_alert : Alert :=
  new_alert (utc 1000000)
    {| in_fingerprint := "anomaly:0123456789abcdef"; in_title := "Volume drop"; in_severity := SEV_HIGH;
       in_source_type := "log_source"; in_source_id := None; in_description := None;
       in_evidence := Some [("observed_value", JInt 3); ("trend", JNull)]; in_source_anomaly_ids := None;
       in_context := Some [("owner", JStr "soc")] |}.

Definition notify_rules : list RoutingRule :=
  default_policy {| ne_teams := Some "https://teams.example/hook"; ne_slack := Some ""; ne_webhook := None;
                    ne_email_recipients := Some " soc@example.org,, noc@example.org"; ne_syslog_host := Some "log";
                    ne_syslog_port := None |}.

Example default_policy_targets : rr_target <$> notify_rules =
  ["https://teams.example/hook"; "soc@example.org"; "noc@example.org"; "log:514"].
Proof. vm_compute. reflexivity. Qed.

Example post_outcomes : post_outcome <$> [HTTP_STATUS 200; HTTP_STATUS 429; HTTP_STATUS 404] =
  [DELIVERED; NOTIFIER_ERROR "retryable status 429" false; NOTIFIER_ERROR "permanent status 404" true].
Proof. vm_compute. reflexivity. Qed.

Definition notify_clock (n : nat) : datetime := utc 5000000.

Definition notify_enqueued : list nat * Mail :=
  match enqueue notify_clock notify_settings notify_rules 7%N notify_alert TR_OPENED empty_mail with
  | Ok r => r | Err _ => ([], empty_mail)
  end.

Lemma notify_enqueue : enqueue notify_clock notify_settings notify_rules 7%N notify_alert TR_OPENED empty_mail = Ok notify_enqueued.
Proof. vm_compute. reflexivity. Qed.

Lemma notify_reachable : rtc (mail_step notify_settings) empty_mail notify_enqueued.2.
Proof.
  apply rtc_once, (ms_enqueue _ notify_clock notify_rules 7%N notify_alert TR_OPENED empty_mail notify_enqueued.1).
  rewrite notify_enqueue. by destruct notify_enqueued.
Qed.

Lemma enqueue_exact_witness :
  length (ml_rows notify_enqueued.2) = 4%nat ∧
  ∃ s'', enqueue notify_clock notify_settings notify_rules 7%N notify_alert TR_OPENED notify_enqueued.2 = Ok ([], s'') ∧
    ml_rows s'' = ml_rows notify_enqueued.2.
Proof.
  split; [vm_compute; reflexivity|].
  apply (enqueue_exact notify_clock notify_settings notify_rules 7%N notify_alert TR_OPENED empty_mail notify_enqueued.1 notify_enqueued.2).
  rewrite notify_enqueue. by destruct notify_enqueued.
Defined.


(** Two attempts a row; the e-mail server refuses everything, the webhook fails once. *)
Definition notify_world (c : NotificationChannel) : option (nat → string → NotificationMessage → Outcome) :=
  match c with
  | CH_EMAIL => Some (λ _ _ _, NOTIFIER_ERROR "refused" false)
  | CH_TEAMS => Some (webhook_send (λ n _ _, if Nat.eqb n 0 then HTTP_STATUS 503 else HTTP_STATUS 200))
  | _ => None
  end.

Definition notify_clocks (j r : nat) : datetime := utc (5000000 + Z.of_nat j * retry_gap 9).

Lemma notify_all_due : all_due_by (notify_clocks 0) notify_enqueued.2.
Proof.
  intros i n t Hi _ Hn r.
  pose proof (enqueue_spec _ _ _ _ _ _ _ _ notify_enqueued.2 (eq_trans notify_enqueue (f_equal Ok (surjective_pairing _))))
    as (new & Hrows & _ & _ & Hf & _).
  rewrite Hrows in Hi. cbn [empty_mail ml_rows app] in Hi. rewrite Forall_forall in Hf.
  destruct (fr_next _ _ _ _ _ _ (Hf n (list_elem_of_lookup_2 _ _ _ Hi))) as [q Hq]. rewrite Hq in Hn. injection Hn as <-. done.
Qed.

Lemma queue_drains_witness :
  ∃ s', dispatch_ticks notify_clocks (λ _, div_round 1 2) notify_world notify_settings 100 8 notify_enqueued.2 = Ok s' ∧
    nt_key <$> ml_rows s' = nt_key <$> ml_rows notify_enqueued.2 ∧
    ∀ i n, ml_rows s' !! i = Some n → nt_status n = NS_SENT ∨ nt_status n = NS_DEAD_LETTER.
Proof.
  apply (queue_drains notify_settings 9); [exact notify_settings_sane|lia|exact notify_reachable|lia| | |exact notify_all_due|].
  - intros _. closed_below.
  - intros j r r'. unfold notify_clocks. cbn [utc dt_us]. lia.
  - vm_compute. repeat constructor.
Defined.

Example notify_statuses :
  match dispatch_ticks notify_clocks (λ _, div_round 1 2) notify_world notify_settings 100 2 notify_enqueued.2 with
  | Ok s => nt_status <$> ml_rows s = [NS_SENT; NS_DEAD_LETTER; NS_DEAD_LETTER; NS_DEAD_LETTER] ∧ ml_delivered s = [0%nat]
  | Err _ => False
  end.
Proof. vm_compute. done. Qed.

Definition notify_row : Notification :=
  match ml_rows notify_enqueued.2 with
  | n :: _ => n
  | [] => {| nt_alert_id := 7; nt_channel := CH_TEAMS; nt_target := ""; nt_transition := TR_OPENED; nt_status := NS_PENDING;
             nt_attempts := 0; nt_max_attempts := 1; nt_next_attempt_at := None; nt_sent_at := None;
             nt_payload := payload_of 7 notify_alert TR_OPENED; nt_error_message := None |}
  end.

Definition notify_message : NotificationMessage :=
  match message_from_payload notify_row with
  | Ok m => m
  | Err _ => {| ms_title := JNull; ms_body := JNull; ms_severity := SEV_LOW; ms_transition := TR_OPENED; ms_alert_id := JNull;
                ms_fingerprint := JNull; ms_fields := JNull |}
  end.

Lemma alert_id_masked_witness : uuid_text 7 = "00000000-0000-0000-0000-000000000007" ∧ ms_alert_id notify_message = JStr MASK.
Proof.
  split; [vm_compute; reflexivity|].
  apply (alert_id_masked 7%N notify_alert TR_OPENED notify_row notify_message); vm_compute; reflexivity.
Defined.

Definition long_url : string := py_join "" (repeat "0123456789" 26).
Definition long_rule : RoutingRule :=
  {| rr_channel := CH_WEBHOOK; rr_target := long_url; rr_min_severity := SEV_LOW; rr_alert_types := None;
     rr_owners := None; rr_instances := None; rr_source_classes := None |}.

Lemma long_target_raises_witness :
  ∃ msg, enqueue notify_clock notify_settings [long_rule] 7%N notify_alert TR_OPENED empty_mail = Err (DBAPIError msg).
Proof.
  apply (long_target_raises notify_clock notify_settings [long_rule] 7%N notify_alert TR_OPENED empty_mail long_rule
           [{| ro_channel := CH_WEBHOOK; ro_target := long_url |}]); [vm_compute; reflexivity|reflexivity|left|reflexivity|vm_compute; reflexivity].
Defined.
