(* ===== verification/PwFacts.v ===== *)
(** * Property-watch facts

    [property_watch/facts.py]: what a search established about one key, what collection
    established about one bucket, and the reading of one value in one bucket. A property value
    is text from QRadar, a [text]: the list of its code points, as a Python [str] is. *)

From S2P Require Import Prelude PyStr PyFloat PyTime PyJson Enums.

(** [TUPLE_SEPARATOR] *)
Definition TUPLE_SEPARATOR : N := 31.

(** ** Search outcomes *)

Inductive PwSearchStatus := SS_COMPLETED | SS_FAILED | SS_CANCELLED | SS_TIMED_OUT | SS_RUNNING.

#[export] Instance PwSearchStatus_eq_dec : EqDecision PwSearchStatus.
Proof. solve_decision. Defined.

(** [coerce_count] *)
Definition coerce_count (raw : json) : result Z :=
  match raw with
  | JBool _ => Err (PwFactError "a count cannot be a boolean")
  | JInt n => _ <- raise_if (n <? 0) (PwFactError "a count cannot be negative") ;; Ok n
  | JFloat x =>
      match ftrunc x with
      | Ok n =>
          _ <- raise_if (negb (bool_decide (int_float_compare n x = Some Eq))) (PwFactError "a count must be a whole number") ;;
          _ <- raise_if (n <? 0) (PwFactError "a count cannot be negative") ;; Ok n
      | Err _ => Err (PwFactError "a count must be a whole number")
      end
  | _ => Err (PwFactError "a count must be a number")
  end.

(** [is_truncated] *)
Definition is_truncated (row_count cap : Z) : result bool :=
  _ <- raise_if (cap <? 1) (PwFactError "a row cap is at least 1") ;;
  _ <- raise_if (row_count <? 0) (PwFactError "a row count cannot be negative") ;;
  Ok (cap <? row_count).

(** [is_unparsed], of a value that is text or NULL. *)
Definition is_unparsed (raw : option text) : bool :=
  match raw with None => true | Some s => bool_decide (strip s = []) end.

(** [join_tuple_key] *)
Definition join_tuple_key (components : list text) : result text :=
  _ <- raise_if (bool_decide (components = [])) (PwFactError "a tuple key needs at least one component") ;;
  _ <- raise_if (existsb (λ c, bool_decide (TUPLE_SEPARATOR ∈ c)) components)
         (PwFactError "a component cannot contain the tuple separator") ;;
  Ok (join_text TUPLE_SEPARATOR components).

Definition split_tuple_key (value_key : text) : list text := split_text TUPLE_SEPARATOR value_key.

(** ** Counts *)

Inductive PwCountState := CS_EXACT | CS_LOWER_BOUND | CS_UNMEASURED.

#[export] Instance PwCountState_eq_dec : EqDecision PwCountState.
Proof. solve_decision. Defined.

Record PwCount := { ct_events : option Z; ct_state : PwCountState }.

(** [PwCount.__post_init__] *)
Definition make_count (events : option Z) (state : PwCountState) : result PwCount :=
  match state, events with
  | CS_UNMEASURED, Some _ => Err (PwFactError "an unmeasured count carries no number")
  | CS_UNMEASURED, None => Ok {| ct_events := None; ct_state := state |}
  | _, None => Err (PwFactError "a measured count is a non-negative number")
  | _, Some n => _ <- raise_if (n <? 0) (PwFactError "a measured count is a non-negative number") ;;
                 Ok {| ct_events := events; ct_state := state |}
  end.

Definition UNMEASURED : PwCount := {| ct_events := None; ct_state := CS_UNMEASURED |}.

(** [count_from_search] *)
Definition count_from_search (counts : jobj) (key : string) (status : PwSearchStatus) (row_count cap : Z) : result PwCount :=
  truncated <- is_truncated row_count cap ;;
  if negb (bool_decide (status = SS_COMPLETED)) then Ok UNMEASURED
  else match assoc counts key with
       | Some raw => events <- coerce_count raw ;; make_count (Some events) (if truncated then CS_LOWER_BOUND else CS_EXACT)
       | None => if truncated then Ok UNMEASURED else make_count (Some 0) CS_EXACT
       end.

(** ** Bucket facts *)

Record PwValueFact := {
  vf_value_key : text; vf_events : Z; vf_components : list text; vf_truncated : bool }.

(** [PwValueFact.__post_init__] *)
Definition make_value_fact (key : text) (events : Z) (components : list text) (truncated : bool) : result PwValueFact :=
  _ <- raise_if (bool_decide (key = []) || (255 <? Z.of_nat (length key))) (PwFactError "a value key is 1 to 255 characters") ;;
  _ <- raise_if (events <? 0) (PwFactError "a value cannot have negative events") ;;
  Ok {| vf_value_key := key; vf_events := events; vf_components := components; vf_truncated := truncated |}.

Inductive PwRemainderBound := RB_EXACT | RB_UPPER_BOUND.

Record PwCoverage := { cv_ratio : option float; cv_lower_bound : bool }.

(** [PwCoverage.reaches] *)
Definition reaches (c : PwCoverage) (floor : float) : bool :=
  match cv_ratio c with Some r => fle floor r | None => false end.

Record PwBucketFact := {
  bf_bucket_start : datetime; bf_bucket_seconds : Z; bf_watch_version : Z; bf_totals_complete : bool;
  bf_values_measurement : PwBucketMeasurement; bf_pinned_measurement : PwPinnedMeasurement;
  bf_origin : PwBucketOrigin; bf_total_events : option Z; bf_parsed_events : option Z; bf_untracked_events : option Z;
  bf_values : list PwValueFact; bf_observed_values : Z; bf_tracked_values_observed : Z; bf_admitted_values : Z;
  bf_below_admission_threshold : Z; bf_rejected_over_quota : Z; bf_admission_truncated : bool;
  bf_scope_member_count : option Z; bf_scope_fingerprint : option string; bf_scope_changed : bool;
  bf_in_maintenance : bool }.

Definition value_events (values : list PwValueFact) : Z := sum_Z (vf_events <$> values).

Definition negative (x : option Z) : bool := match x with Some n => n <? 0 | None => false end.

(** [PwBucketFact.__post_init__] *)
Definition check_bucket_fact (f : PwBucketFact) : result PwBucketFact :=
  _ <- raise_if (bf_bucket_seconds f <=? 0) (PwFactError "a bucket has a positive width") ;;
  _ <- raise_if (bf_watch_version f <? 1) (PwFactError "a watch version starts at 1") ;;
  _ <- raise_if (negb (bf_totals_complete f) && bool_decide (is_Some (bf_total_events f)))
         (PwFactError "an incomplete totals search leaves the total unknown") ;;
  _ <- raise_if (negative (bf_total_events f)) (PwFactError "total_events cannot be negative") ;;
  _ <- raise_if (negative (bf_parsed_events f)) (PwFactError "parsed_events cannot be negative") ;;
  _ <- raise_if (negative (bf_untracked_events f)) (PwFactError "untracked_events cannot be negative") ;;
  _ <- raise_if (match bf_total_events f, bf_parsed_events f with Some t, Some p => t <? p | _, _ => false end)
         (PwFactError "parsed events cannot exceed total events") ;;
  _ <- (if bool_decide (bf_values_measurement f = PB_NOT_COLLECTED) then
          raise_if (bool_decide (is_Some (bf_parsed_events f)) || bool_decide (is_Some (bf_untracked_events f)))
            (PwFactError "an uncollected bucket measured nothing")
        else raise_if (bool_decide (bf_parsed_events f = None)) (PwFactError "a collected bucket states its parsed events")) ;;
  _ <- raise_if (bool_decide (is_Some (bf_untracked_events f)) && negb (bool_decide (bf_values_measurement f = PB_EXACT)))
         (PwFactError "untracked events are known only from a whole grouped search") ;;
  _ <- raise_if (match bf_parsed_events f with
                 | Some p => p <? value_events (bf_values f) + or_int (bf_untracked_events f) 0
                 | None => false
                 end) (PwFactError "the kept values cannot exceed the parsed events") ;;
  Ok f.

(** [unparsed_events], [unparsed_bound], [coverage] and [property_not_parsed]. *)
Definition unparsed_events (f : PwBucketFact) : option Z :=
  match bf_total_events f, bf_parsed_events f with Some t, Some p => Some (t - p) | _, _ => None end.

Definition unparsed_bound (f : PwBucketFact) : option PwRemainderBound :=
  match unparsed_events f with
  | None => None
  | Some _ => Some (if bool_decide (bf_values_measurement f = PB_EXACT) then RB_EXACT else RB_UPPER_BOUND)
  end.

Definition coverage (f : PwBucketFact) : result PwCoverage :=
  let lower_bound := bool_decide (bf_values_measurement f = PB_LOWER_BOUND) in
  match bf_total_events f, bf_parsed_events f with
  | Some total, Some parsed =>
      if total =? 0 then Ok {| cv_ratio := None; cv_lower_bound := lower_bound |}
      else r <- truediv parsed total ;; Ok {| cv_ratio := Some r; cv_lower_bound := lower_bound |}
  | _, _ => Ok {| cv_ratio := None; cv_lower_bound := lower_bound |}
  end.

Definition property_not_parsed (f : PwBucketFact) : bool :=
  bool_decide (bf_values_measurement f = PB_EXACT) && negb (or_int (bf_total_events f) 0 =? 0) &&
  bool_decide (bf_parsed_events f = Some 0).

(** ** Readings *)

Inductive PwReadingKind := RK_COUNT | RK_MEASURED_ZERO | RK_UNKNOWN | RK_NOT_AN_OBSERVATION | RK_NO_BUCKET.

#[export] Instance PwReadingKind_eq_dec : EqDecision PwReadingKind.
Proof. solve_decision. Defined.

Record PwReading := RD { rd_kind : PwReadingKind; rd_events : option Z; rd_measurement : option WafMeasurement }.

(** [_waf] *)
Definition waf_of_values (m : PwBucketMeasurement) : option WafMeasurement :=
  match m with PB_EXACT => Some WM_EXACT | PB_LOWER_BOUND => Some WM_LOWER_BOUND | PB_NOT_COLLECTED => None end.

(** [value_measurement] *)
Definition value_measurement (b : PwBucketFact) (pinned : bool) : option WafMeasurement :=
  if pinned && bool_decide (bf_pinned_measurement b = PP_EXACT) then Some WM_EXACT
  else waf_of_values (bf_values_measurement b).

(** [reading_for] *)
Definition reading_for (bucket : option PwBucketFact) (pinned tracked_at_bucket : bool) (metric_events : option Z)
    : result PwReading :=
  _ <- raise_if (negative metric_events) (PwFactError "a metric row cannot hold negative events") ;;
  match bucket with
  | None => Ok (RD RK_NO_BUCKET None None)
  | Some b =>
      let measurement := value_measurement b pinned in
      match metric_events, measurement with
      | Some _, None => Ok (RD RK_UNKNOWN None None)
      | Some n, Some _ => Ok (RD RK_COUNT (Some n) measurement)
      | None, _ =>
          if bool_decide (bf_values_measurement b = PB_NOT_COLLECTED) &&
             negb (pinned && bool_decide (bf_pinned_measurement b = PP_EXACT)) then Ok (RD RK_NO_BUCKET None None)
          else if negb tracked_at_bucket then Ok (RD RK_NOT_AN_OBSERVATION None None)
          else if bool_decide (measurement = Some WM_EXACT) then Ok (RD RK_MEASURED_ZERO (Some 0) (Some WM_EXACT))
          else Ok (RD RK_UNKNOWN None measurement)
      end
  end.
