(* ===== verification/PwSearch.v ===== *)
(** * Property-watch searches

    [property_watch/keyed_search.py]: one search kind over a window of whole buckets, split in
    time while its answer is cut, and the chunks of a scope added back together. [provider n] is
    the answer to the [n]-th search of the run. *)

From S2P Require Import Prelude PyStr PyFloat PyTime PyJson Enums PwFacts.

(** ** Data *)

Inductive PwSearchKind := GROUPED | TOTALS | PINNED.

#[export] Instance PwSearchKind_eq_dec : EqDecision PwSearchKind.
Proof. solve_decision. Defined.

(** [PwKeyedRow] *)
Record PwKeyedRow := { kr_bucket_start : datetime; kr_events : Z; kr_values : list (option text) }.

(** What of a search's answer the driver reads: the rows and whether they were cut. *)
Inductive PwAnswer :=
| ANSWER (rows : list PwKeyedRow) (truncated : bool) (query : string)
| PROVIDER_ERROR
| RAISES (e : exn).

(** What of a validated [PwQuerySpec] the driver reads. *)
Record PwQuerySpec := { qs_search : PwSearchKind; qs_properties : nat; qs_pinned : list (list text) }.

Inductive PwCellState := CELL_COMPLETE | CELL_LOWER_BOUND | CELL_FAILED | CELL_NOT_COLLECTED.

#[export] Instance PwCellState_eq_dec : EqDecision PwCellState.
Proof. solve_decision. Defined.

Record PwSearchProvenance := {
  pv_window_start : datetime; pv_window_end : datetime; pv_bucket_count : nat; pv_split_depth : nat; pv_query : string }.

Record PwBucketOutcome := {
  oc_search : PwSearchKind; oc_bucket_start : datetime; oc_state : PwCellState; oc_rows : list PwKeyedRow;
  oc_provenance : option PwSearchProvenance }.

Definition measured_state (s : PwCellState) : bool := bool_decide (s = CELL_COMPLETE ∨ s = CELL_LOWER_BOUND).

(** [PwBucketOutcome.measured] *)
Definition measured (o : PwBucketOutcome) : bool := measured_state (oc_state o).

(** [PwBucketOutcome.__post_init__] *)
Definition make_outcome (search : PwSearchKind) (at_ : datetime) (state : PwCellState) (rows : list PwKeyedRow)
    (provenance : option PwSearchProvenance) : result PwBucketOutcome :=
  _ <- raise_if (negb (bool_decide (rows = [])) && negb (measured_state state))
         (ValueError "a bucket without a measurement cannot hold rows") ;;
  Ok {| oc_search := search; oc_bucket_start := at_; oc_state := state; oc_rows := rows; oc_provenance := provenance |}.

(** ** The budget *)

(** [PwSearchBudget] *)
Record PwSearchBudget := {
  bu_max_searches : Z; bu_max_per_watch : option Z; bu_used : Z; bu_by_watch : gmap Z Z }.

Definition used_by (b : PwSearchBudget) (watch : Z) : Z := default 0 (bu_by_watch b !! watch).

Definition try_take (watch : option Z) (b : PwSearchBudget) : bool * PwSearchBudget :=
  if bu_max_searches b <=? bu_used b then (false, b)
  else if (match watch, bu_max_per_watch b with Some w, Some m => m <=? used_by b w | _, _ => false end) then (false, b)
  else (true, {| bu_max_searches := bu_max_searches b; bu_max_per_watch := bu_max_per_watch b; bu_used := bu_used b + 1;
                 bu_by_watch := match watch with
                                | Some w => <[w := used_by b w + 1]> (bu_by_watch b)
                                | None => bu_by_watch b
                                end |}).

(** ** The driver *)

(** [pinned_components] and [pinned_rows_per_bucket] *)
Definition pinned_components (spec : PwQuerySpec) : list (gset text) :=
  (λ i, list_to_set (omap (λ entry : list text, entry !! i) (qs_pinned spec))) <$> seq 0 (qs_properties spec).

Definition pinned_rows_per_bucket (spec : PwQuerySpec) : Z :=
  foldr (λ c product, product * Z.of_nat (size c)) 1 (pinned_components spec).

(** [search_row_cap] *)
Definition search_row_cap (spec : PwQuerySpec) (buckets max_rows : Z) : Z :=
  match qs_search spec with
  | TOTALS => buckets
  | PINNED => Z.min (pinned_rows_per_bucket spec * buckets) max_rows
  | GROUPED => max_rows
  end.

(** [validate_bucketed_metric_window], of an aware UTC window. *)
Definition validate_window (start end_ : datetime) (bucket_seconds : Z) : result unit :=
  _ <- raise_if (bucket_seconds <=? 0) (ValueError "metric bucket width must be positive") ;;
  let us := dt_us end_ - dt_us start in
  _ <- raise_if (us <=? 0) (ValueError "metric window end must be after its start") ;;
  _ <- raise_if (td_hours 168 <? us) (ValueError "metric window exceeds the 168-hour safety bound") ;;
  raise_if (negb (dt_microsecond start =? 0) || negb (dt_microsecond end_ =? 0) ||
            negb (dt_timestamp start mod bucket_seconds =? 0) || negb (dt_timestamp end_ mod bucket_seconds =? 0))
    (ValueError "metric window must contain epoch-aligned whole buckets").

Section Search.
Context (provider : nat → datetime → datetime → Z → PwAnswer) (spec : PwQuerySpec) (start : datetime) (bucket_seconds : Z)
  (max_rows : Z) (watch : option Z).

(** What a run has written and spent: its buckets, the budget, and the searches sent so far. *)
Record SearchRun := { sn_cells : gmap Z PwBucketOutcome; sn_budget : PwSearchBudget; sn_calls : nat }.

Definition at_index (index : nat) : datetime := dt_add start (td_seconds (bucket_seconds * Z.of_nat index)).

(** [emit] *)
Definition emit_one (state : PwCellState) (rows : list PwKeyedRow) (provenance : option PwSearchProvenance)
    (cells : gmap Z PwBucketOutcome) (index : nat) : result (gmap Z PwBucketOutcome) :=
  outcome <- make_outcome (qs_search spec) (at_index index) state
               (filter (λ r, kr_bucket_start r = at_index index) rows) provenance ;;
  Ok (<[dt_us (at_index index) := outcome]> cells).

Definition emit (first count : nat) (state : PwCellState) (depth : nat) (rows : list PwKeyedRow) (query : string)
    (searched : bool) (s : SearchRun) : result SearchRun :=
  let provenance := if searched then Some {| pv_window_start := at_index first; pv_window_end := at_index (first + count);
                                             pv_bucket_count := count; pv_split_depth := depth; pv_query := query |} else None in
  cells <- foldM (emit_one state rows provenance) (sn_cells s) (seq first count) ;;
  Ok {| sn_cells := cells; sn_budget := sn_budget s; sn_calls := sn_calls s |}.

(** [contained] *)
Definition contained (rows : list PwKeyedRow) (first count : nat) (cap : Z) : bool :=
  let property_count := match qs_search spec with TOTALS => 0%nat | _ => qs_properties spec end in
  (Z.of_nat (length rows) <=? cap) &&
  forallb (λ r, (dt_us (at_index first) <=? dt_us (kr_bucket_start r)) &&
                (dt_us (kr_bucket_start r) <? dt_us (at_index (first + count))) &&
                bool_decide (length (kr_values r) = property_count)) rows.

(** [search]; each turn of the fuel halves the window. *)
Fixpoint search (fuel first count depth : nat) (s : SearchRun) : result SearchRun :=
  match fuel with
  | O => Err (RuntimeError "fuel")
  | S fuel =>
      let '(taken, budget) := try_take watch (sn_budget s) in
      let s := {| sn_cells := sn_cells s; sn_budget := budget; sn_calls := sn_calls s |} in
      if negb taken then emit first count CELL_NOT_COLLECTED depth [] "" false s
      else
        let cap := search_row_cap spec (Z.of_nat count) max_rows in
        let answer := provider (sn_calls s) (at_index first) (at_index (first + count)) cap in
        let s := {| sn_cells := sn_cells s; sn_budget := budget; sn_calls := S (sn_calls s) |} in
        match answer with
        | RAISES e => Err e
        | PROVIDER_ERROR => emit first count CELL_FAILED depth [] "" true s
        | ANSWER rows truncated query =>
            if negb (contained rows first count cap) then emit first count CELL_FAILED depth [] "" true s
            else if negb truncated then emit first count CELL_COMPLETE depth rows query true s
            else if Nat.ltb 1 count then
              let left := Nat.div count 2 in
              s <- search fuel first left (S depth) s ;;
              search fuel (first + left) (count - left) (S depth) s
            else emit first count CELL_LOWER_BOUND depth rows query true s
        end
  end.

(** The cells in bucket order. *)
Definition by_bucket (x y : Z * PwBucketOutcome) : Prop := x.1 <= y.1.

#[export] Instance by_bucket_dec : RelDecision by_bucket.
Proof. intros x y. unfold by_bucket. apply _. Defined.

Definition sorted_cells (cells : gmap Z PwBucketOutcome) : list PwBucketOutcome :=
  (merge_sort by_bucket (map_to_list cells)).*2.

(** [run_search], after the query's inputs are validated. *)
Definition run_search (end_ : datetime) (budget : PwSearchBudget) (calls : nat)
    : result (list PwBucketOutcome * SearchRun) :=
  _ <- validate_window start end_ bucket_seconds ;;
  _ <- raise_if (max_rows <? 1) (ValueError "the row cap is at least 1") ;;
  let bucket_count := Z.to_nat ((dt_us end_ - dt_us start) / us_per_second / bucket_seconds) in
  s <- search bucket_count 0 bucket_count 0 {| sn_cells := ∅; sn_budget := budget; sn_calls := calls |} ;;
  Ok (sorted_cells (sn_cells s), s).
End Search.

(** ** Chunks *)

(** The state of a bucket from the states of its chunks. *)
Definition combined_state (states : list PwCellState) : PwCellState :=
  if bool_decide (CELL_FAILED ∈ states) then CELL_FAILED
  else if bool_decide (CELL_NOT_COLLECTED ∈ states) then CELL_NOT_COLLECTED
  else if bool_decide (CELL_LOWER_BOUND ∈ states) then CELL_LOWER_BOUND
  else CELL_COMPLETE.

(** The buckets of one chunk set beside those of the chunks before it. *)
Definition bucket_keys (chunk : list PwBucketOutcome) : list (PwSearchKind * datetime) :=
  (λ o, (oc_search o, oc_bucket_start o)) <$> chunk.

Definition combine_cell (chunks : list (list PwBucketOutcome)) (index : nat) (lead : PwBucketOutcome) : result PwBucketOutcome :=
  let cells := omap (λ chunk : list PwBucketOutcome, chunk !! index) chunks in
  let state := combined_state (oc_state <$> cells) in
  make_outcome (oc_search lead) (oc_bucket_start lead) state
    (if measured_state state then concat (oc_rows <$> cells) else [])
    (head (omap oc_provenance cells)).

(** [combine_chunks] *)
Definition combine_chunks (chunks : list (list PwBucketOutcome)) : result (list PwBucketOutcome) :=
  match chunks with
  | [] => Err (ValueError "combining needs at least one chunk")
  | first :: rest =>
      _ <- raise_if (existsb (λ chunk, negb (bool_decide (bucket_keys chunk = bucket_keys first))) rest)
             (ValueError "every chunk covers the same buckets of the same search") ;;
      mapM_result (λ x, combine_cell chunks x.1 x.2) (imap pair first)
  end.
