(* ===== verification/PwFold.v ===== *)
(** * The property-watch fold

    [property_watch/fold.py]: from the outcomes of a bucket's searches to its fact. The values of
    a search are added up by key; the tracked and pinned keys are kept whatever their rank, of
    the others the first by events, and the rest is a number. [printable] is [str.isprintable]
    of a code point, from the Unicode character database. *)

From S2P Require Import Prelude PyStr PyFloat PyTime PyJson Enums PwFacts PwSearch.

Definition REPLACEMENT : N := 65533.
Definition VALUE_KEY_WIDTH : Z := 255.

(** [component_limit] *)
Definition component_limit (property_count : nat) (max_length : Z) : result Z :=
  _ <- raise_if (negb (Nat.eqb property_count 1 || Nat.eqb property_count 2))
         (PwFoldError "a watch compares one or two properties") ;;
  _ <- raise_if (negb ((3 <=? max_length) && (max_length <=? VALUE_KEY_WIDTH)))
         (PwFoldError "a value is at most 255 characters, and at least 3") ;;
  Ok (if Nat.eqb property_count 1 then max_length else (max_length - 1) / 2).

(** The entries of [_sum_rows]; the key is the entry's key in the map. *)
Record Sum := { sm_events : Z; sm_components : list text; sm_truncated : bool }.

Abbreviation sums := (gmap (list N) Sum) (only parsing).

(** [(-events, key)] *)
Definition ranked (x y : text * Sum) : Prop :=
  sm_events y.2 < sm_events x.2 ∨ sm_events x.2 = sm_events y.2 ∧ text_le x.1 y.1 = true.

#[export] Instance ranked_dec : RelDecision ranked.
Proof. intros x y. unfold ranked. apply _. Defined.

Definition by_rank (m : gmap text Sum) : list (text * Sum) := merge_sort ranked (map_to_list m).

Definition total_events (m : list (text * Sum)) : Z := sum_Z ((λ x : text * Sum, sm_events x.2) <$> m).

Section Fold.
Context (printable : N → bool).

(** [sanitize_component] *)
Definition sanitize_component (raw : option text) (limit : Z) : option (text * bool) :=
  match raw with
  | None => None
  | Some s =>
      if is_unparsed raw then None
      else
        let clean := (λ c, if printable c then c else REPLACEMENT) <$> strip s in
        let cut := limit <? Z.of_nat (length clean) in
        Some (if cut then trim_right (take (Z.to_nat limit) clean) else clean, cut)
  end.

(** Every component of a row cleaned, or None when one is unparsed. *)
Definition clean_values (values : list (option text)) (limit : Z) : option (list (text * bool)) :=
  mapM (λ v, sanitize_component v limit) values.

(** One row of [_sum_rows]. *)
Definition add_entry (old : option Sum) (events : Z) (components : list text) (cut : bool) : Sum :=
  match old with
  | Some e => {| sm_events := sm_events e + events; sm_components := sm_components e; sm_truncated := sm_truncated e || cut |}
  | None => {| sm_events := 0 + events; sm_components := components; sm_truncated := false || cut |}
  end.

Definition sum_row (property_count : nat) (limit : Z) (acc : gmap text Sum * Z) (row : PwKeyedRow) : result (gmap text Sum * Z) :=
  let '(entries, parsed) := acc in
  _ <- raise_if (negb (bool_decide (length (kr_values row) = property_count)))
         (PwFoldError "a row carries one value per property") ;;
  match clean_values (kr_values row) limit with
  | None => Ok acc
  | Some parts =>
      key <- join_tuple_key (parts.*1) ;;
      Ok (<[key := add_entry (entries !! key) (kr_events row) (parts.*1) (existsb snd parts)]> entries, parsed + kr_events row)
  end.

(** [_sum_rows] *)
Definition sum_rows (rows : list PwKeyedRow) (property_count : nat) (limit : Z) : result (gmap text Sum * Z) :=
  foldM (sum_row property_count limit) (∅, 0) rows.

(** [pinned_value_keys] *)
Definition pin_key (property_count : nat) (limit : Z) (out : gmap text (list text)) (entry : list text)
    : result (gmap text (list text)) :=
  _ <- raise_if (negb (bool_decide (length entry = property_count)))
         (PwFoldError "a pinned value has one string per property") ;;
  match clean_values (Some <$> entry) limit with
  | None => Err (PwFoldError "a pinned value cannot be the unparsed remainder")
  | Some parts => key <- join_tuple_key (parts.*1) ;; Ok (<[key := parts.*1]> out)
  end.

Definition pinned_value_keys (pinned : list (list text)) (property_count : nat) (limit : Z) : result (gmap text (list text)) :=
  foldM (pin_key property_count limit) ∅ pinned.

(** [_check] *)
Definition check_outcome (o : PwBucketOutcome) (kind : PwSearchKind) (bucket_start : datetime) : result unit :=
  _ <- raise_if (negb (bool_decide (oc_search o = kind))) (PwFoldError "an outcome of another search") ;;
  _ <- raise_if (negb (dt_eq (oc_bucket_start o) bucket_start)) (PwFoldError "an outcome belongs to another bucket") ;;
  raise_if (existsb (λ r, negb (dt_eq (kr_bucket_start r) bucket_start)) (oc_rows o))
    (PwFoldError "a row belongs to another bucket").

(** [_total] *)
Definition total_of (totals : PwBucketOutcome) : result (option Z) :=
  let key := dt_isoformat (oc_bucket_start totals) in
  let counts := match oc_rows totals with [] => [] | rows => [(key, JInt (sum_Z (kr_events <$> rows)))] end in
  count <- count_from_search counts key (if measured totals then SS_COMPLETED else SS_FAILED)
             (if bool_decide (oc_state totals = CELL_LOWER_BOUND) then 2 else 0) 1 ;;
  Ok (if bool_decide (ct_state count = CS_EXACT) then ct_events count else None).

(** The values the grouped search keeps: the tracked and pinned keys, and the first
    [max_values] of the others; with the events of those it cuts. *)
Definition keep_values (entries : gmap text Sum) (must_keep : gset text) (max_values : nat) : gmap text Sum * Z :=
  let rest := by_rank (filter (λ kv, kv.1 ∉ must_keep) entries) in
  (list_to_map (take max_values rest) ∪ filter (λ kv, kv.1 ∈ must_keep) entries, total_events (drop max_values rest)).

(** A pinned count beside what the grouped search holds. *)
Definition merge_pin (held : option Sum) (entry : Sum) : Sum :=
  match held with
  | None => entry
  | Some h => {| sm_events := Z.max (sm_events h) (sm_events entry); sm_components := sm_components h;
                 sm_truncated := sm_truncated h || sm_truncated entry |}
  end.

Definition merge_pins (pins : gmap text (list text)) (kept entries : gmap text Sum) : gmap text Sum :=
  map_fold (λ key entry kept, <[key := merge_pin (kept !! key) entry]> kept) kept
    (filter (λ kv, is_Some (pins !! kv.1)) entries).

(** The state of the pinned search. *)
Definition pinned_state (pinned_outcome : option PwBucketOutcome) : PwPinnedMeasurement :=
  match pinned_outcome with
  | None => PP_NOT_REQUESTED
  | Some o => match oc_state o with
              | CELL_COMPLETE => PP_EXACT | CELL_LOWER_BOUND => PP_LOWER_BOUND | _ => PP_NOT_COLLECTED
              end
  end.

Definition values_state (grouped : PwBucketOutcome) : PwBucketMeasurement :=
  match oc_state grouped with
  | CELL_COMPLETE => PB_EXACT | CELL_LOWER_BOUND => PB_LOWER_BOUND | _ => PB_NOT_COLLECTED
  end.

(** [PwBucketFact] with the columns the fold does not set at their defaults. *)
Definition make_fact (bucket_start : datetime) (bucket_seconds watch_version : Z) (complete : bool)
    (values_measurement : PwBucketMeasurement) (pinned_measurement : PwPinnedMeasurement) (total parsed untracked : option Z)
    (observed : Z) (values : list PwValueFact) : PwBucketFact :=
  {| bf_bucket_start := bucket_start; bf_bucket_seconds := bucket_seconds; bf_watch_version := watch_version;
     bf_totals_complete := complete; bf_values_measurement := values_measurement; bf_pinned_measurement := pinned_measurement;
     bf_origin := PO_LIVE; bf_total_events := total; bf_parsed_events := parsed; bf_untracked_events := untracked;
     bf_values := values; bf_observed_values := observed; bf_tracked_values_observed := 0; bf_admitted_values := 0;
     bf_below_admission_threshold := 0; bf_rejected_over_quota := 0; bf_admission_truncated := false;
     bf_scope_member_count := None; bf_scope_fingerprint := None; bf_scope_changed := false; bf_in_maintenance := false |}.

(** [fold_bucket] *)
Definition fold_bucket (bucket_start : datetime) (bucket_seconds watch_version : Z) (property_count : nat)
    (grouped totals : PwBucketOutcome) (pinned_outcome : option PwBucketOutcome) (pinned : list (list text))
    (tracked : gset text) (max_values value_max_length : Z) : result PwBucketFact :=
  _ <- raise_if (max_values <? 1) (PwFoldError "max_values must be positive") ;;
  limit <- component_limit property_count value_max_length ;;
  _ <- check_outcome grouped GROUPED bucket_start ;;
  _ <- check_outcome totals TOTALS bucket_start ;;
  pins <- pinned_value_keys pinned property_count limit ;;
  _ <- raise_if (negb (Bool.eqb (negb (bool_decide (pins = ∅))) (bool_decide (is_Some pinned_outcome))))
         (PwFoldError "a pinned outcome is given exactly when values are pinned") ;;
  _ <- match pinned_outcome with Some o => check_outcome o PINNED bucket_start | None => Ok tt end ;;
  grouped_sums <- sum_rows (oc_rows grouped) property_count limit ;;
  let '(entries, parsed_rows) := grouped_sums in
  let '(kept, tail) := keep_values entries (tracked ∪ dom pins) (Z.to_nat max_values) in
  let parsed := if measured grouped then Some parsed_rows else None in
  let untracked := if bool_decide (oc_state grouped = CELL_COMPLETE) then Some tail else None in
  let values_measurement := values_state grouped in
  let kept := if bool_decide (values_measurement = PB_NOT_COLLECTED) then ∅ else kept in
  merged <- match pinned_outcome with
            | Some o =>
                if measured o && negb (bool_decide (oc_state grouped = CELL_COMPLETE)) then
                  pinned_sums <- sum_rows (oc_rows o) property_count limit ;;
                  let kept := merge_pins pins kept pinned_sums.1 in
                  Ok (kept, match parsed with Some p => Some (Z.max p (total_events (map_to_list kept))) | None => None end)
                else Ok (kept, parsed)
            | None => Ok (kept, parsed)
            end ;;
  let '(kept, parsed) := merged in
  total <- total_of totals ;;
  let disagree := match total, parsed with Some t, Some p => t <? p | _, _ => false end in
  let total := if disagree then None else total in
  values <- mapM_result (λ x : text * Sum, make_value_fact x.1 (sm_events x.2) (sm_components x.2) (sm_truncated x.2)) (by_rank kept) ;;
  check_bucket_fact (make_fact bucket_start bucket_seconds watch_version (bool_decide (is_Some total)) values_measurement
    (pinned_state pinned_outcome) total parsed untracked (Z.of_nat (size entries)) values).
End Fold.
