(* ===== verification/PwAdmission.v ===== *)
(** * Property-watch admission

    [property_watch/admission.py] and the loop of [collectors/pw_collector.py] that folds and
    admits the buckets of a tick: which values of a bucket are tracked, and so stored. A value row
    is named by its key within its watch and version; its id is drawn at random. *)

From S2P Require Import Prelude PyStr PyFloat PyTime PyJson Enums PwFacts PwSearch PwFold.

(** ** Data *)

Record PwAdmissionPolicy := { po_min_events : Z; po_max_new_per_bucket : Z; po_max_active : Z; po_active_days : Z }.

(** [PwAdmissionPolicy.__post_init__] *)
Definition check_policy (p : PwAdmissionPolicy) : result unit :=
  _ <- raise_if ((po_min_events p <? 1) || (po_max_active p <? 1) || (po_active_days p <? 1))
         (ValueError "admission thresholds are at least 1") ;;
  raise_if (po_max_new_per_bucket p <? 0) (ValueError "the new-value quota is not negative").

Record TrackedValue := {
  tv_components : list text; tv_pinned : bool; tv_active : bool; tv_first_seen_at : option datetime;
  tv_last_seen_at : option datetime; tv_tracked_since : option datetime; tv_tracked_until : option datetime;
  tv_retired_at : option datetime; tv_truncated : bool; tv_exists : bool; tv_dirty : bool }.

Abbreviation tracked_values := (gmap (list N) TrackedValue) (only parsing).

(** [components_of] *)
Definition components_of (value_key : text) (property_count : nat) : list text :=
  let parts := split_tuple_key value_key in
  if Nat.eqb (length parts) property_count then parts else [value_key].

(** [_new_value] *)
Definition new_value (components : list text) (pinned : bool) (at_ : datetime) (truncated : bool) : TrackedValue :=
  {| tv_components := components; tv_pinned := pinned; tv_active := true; tv_first_seen_at := Some at_;
     tv_last_seen_at := None; tv_tracked_since := Some at_; tv_tracked_until := None; tv_retired_at := None;
     tv_truncated := truncated; tv_exists := false; tv_dirty := true |}.

(** [_start_tracking] *)
Definition start_tracking (v : TrackedValue) (at_ : datetime) : TrackedValue :=
  {| tv_components := tv_components v; tv_pinned := tv_pinned v; tv_active := true; tv_first_seen_at := tv_first_seen_at v;
     tv_last_seen_at := tv_last_seen_at v; tv_tracked_since := Some at_; tv_tracked_until := None; tv_retired_at := None;
     tv_truncated := tv_truncated v; tv_exists := tv_exists v; tv_dirty := true |}.

Definition set_pinned (pinned : bool) (v : TrackedValue) : TrackedValue :=
  {| tv_components := tv_components v; tv_pinned := pinned; tv_active := tv_active v; tv_first_seen_at := tv_first_seen_at v;
     tv_last_seen_at := tv_last_seen_at v; tv_tracked_since := tv_tracked_since v; tv_tracked_until := tv_tracked_until v;
     tv_retired_at := tv_retired_at v; tv_truncated := tv_truncated v; tv_exists := tv_exists v; tv_dirty := true |}.

Definition set_seen (at_ : datetime) (v : TrackedValue) : TrackedValue :=
  {| tv_components := tv_components v; tv_pinned := tv_pinned v; tv_active := tv_active v; tv_first_seen_at := tv_first_seen_at v;
     tv_last_seen_at := Some at_; tv_tracked_since := tv_tracked_since v; tv_tracked_until := tv_tracked_until v;
     tv_retired_at := tv_retired_at v; tv_truncated := tv_truncated v; tv_exists := tv_exists v; tv_dirty := true |}.

Definition set_truncated (truncated : bool) (v : TrackedValue) : TrackedValue :=
  {| tv_components := tv_components v; tv_pinned := tv_pinned v; tv_active := tv_active v; tv_first_seen_at := tv_first_seen_at v;
     tv_last_seen_at := tv_last_seen_at v; tv_tracked_since := tv_tracked_since v; tv_tracked_until := tv_tracked_until v;
     tv_retired_at := tv_retired_at v; tv_truncated := truncated; tv_exists := tv_exists v; tv_dirty := true |}.

(** The end of a tracking period. *)
Definition retire (at_ : datetime) (v : TrackedValue) : TrackedValue :=
  {| tv_components := tv_components v; tv_pinned := tv_pinned v; tv_active := false; tv_first_seen_at := tv_first_seen_at v;
     tv_last_seen_at := tv_last_seen_at v; tv_tracked_since := tv_tracked_since v; tv_tracked_until := Some at_;
     tv_retired_at := Some at_; tv_truncated := tv_truncated v; tv_exists := tv_exists v; tv_dirty := true |}.

(** ** Pins *)

(** What [sync_pins] makes of one pin and its row. *)
Definition sync_pin (first_bucket : datetime) (components : list text) (row : option TrackedValue) : TrackedValue :=
  match row with
  | None => new_value components true first_bucket false
  | Some v =>
      let v := if tv_pinned v then v else set_pinned true v in
      if tv_active v then v else start_tracking v first_bucket
  end.

Definition unpin (v : TrackedValue) : TrackedValue := if tv_pinned v then set_pinned false v else v.

(** [sync_pins] *)
Definition sync_pins (values : gmap text TrackedValue) (pins : gmap text (list text)) (first_bucket : datetime)
    : gmap text TrackedValue :=
  merge (λ (row : option TrackedValue) (pin : option (list text)),
           match pin with Some components => Some (sync_pin first_bucket components row) | None => unpin <$> row end)
    values pins.

(** ** One bucket *)

Record AdmittedBucket := { ab_fact : PwBucketFact; ab_metrics : gmap text Z }.

Definition is_active (values : gmap text TrackedValue) (key : text) : bool :=
  match values !! key with Some v => tv_active v | None => false end.

(** A tracked value that the bucket lists. *)
Definition observe (at_ : datetime) (item : PwValueFact) (v : TrackedValue) : TrackedValue :=
  let v := match tv_last_seen_at v with
           | Some seen => if dt_us seen <? dt_us at_ then set_seen at_ v else v
           | None => set_seen at_ v
           end in
  if vf_truncated item && negb (tv_truncated v) then set_truncated true v else v.

(** A value admitted in the bucket: a new row, or a tracking period of the one there is. *)
Definition admit_value (at_ : datetime) (property_count : nat) (item : PwValueFact) (row : option TrackedValue) : TrackedValue :=
  set_seen at_
    match row with
    | None =>
        let components := match vf_components item with [] => components_of (vf_value_key item) property_count | c => c end in
        new_value components false at_ (vf_truncated item)
    | Some v =>
        let v := start_tracking v at_ in set_truncated (tv_truncated v || vf_truncated item) v
    end.

Definition active_count (values : gmap text TrackedValue) : Z := Z.of_nat (size (filter (λ kv, tv_active kv.2 = true) values)).

(** The fact that is stored: the values kept, the events of the others, and the outcomes. *)
Definition admitted_fact (f : PwBucketFact) (kept : list PwValueFact) (dropped tracked admitted below rejected : Z) : PwBucketFact :=
  {| bf_bucket_start := bf_bucket_start f; bf_bucket_seconds := bf_bucket_seconds f; bf_watch_version := bf_watch_version f;
     bf_totals_complete := bf_totals_complete f; bf_values_measurement := bf_values_measurement f;
     bf_pinned_measurement := bf_pinned_measurement f; bf_origin := bf_origin f; bf_total_events := bf_total_events f;
     bf_parsed_events := bf_parsed_events f; bf_untracked_events := (λ n, n + dropped) <$> bf_untracked_events f;
     bf_values := kept; bf_observed_values := bf_observed_values f; bf_tracked_values_observed := tracked;
     bf_admitted_values := admitted; bf_below_admission_threshold := below; bf_rejected_over_quota := rejected;
     bf_admission_truncated := (0 <? rejected) || (0 <? Z.max 0 (bf_observed_values f - Z.of_nat (length (bf_values f))));
     bf_scope_member_count := bf_scope_member_count f; bf_scope_fingerprint := bf_scope_fingerprint f;
     bf_scope_changed := bf_scope_changed f; bf_in_maintenance := bf_in_maintenance f |}.

(** Writes to the row of an item's key. *)
Definition update_item (f : PwValueFact → option TrackedValue → TrackedValue) (values : gmap text TrackedValue) (item : PwValueFact)
    : gmap text TrackedValue :=
  <[vf_value_key item := f item (values !! vf_value_key item)]> values.

Definition observe_item (at_ : datetime) (values : gmap text TrackedValue) (item : PwValueFact) : gmap text TrackedValue :=
  alter (observe at_ item) (vf_value_key item) values.

(** [admit_bucket] *)
Definition admit_bucket (fact : PwBucketFact) (values : gmap text TrackedValue) (policy : PwAdmissionPolicy) (property_count : nat)
    : result (AdmittedBucket * gmap text TrackedValue) :=
  if bool_decide (bf_values_measurement fact = PB_NOT_COLLECTED) then Ok ({| ab_fact := fact; ab_metrics := ∅ |}, values)
  else
    let at_ := bf_bucket_start fact in
    let tracked_now := filter (λ item, is_active values (vf_value_key item) = true) (bf_values fact) in
    let candidates := filter (λ item, is_active values (vf_value_key item) = false) (bf_values fact) in
    let values := foldl (observe_item at_) values tracked_now in
    let eligible := filter (λ c, po_min_events policy <= vf_events c) candidates in
    let below := Z.of_nat (length candidates) - Z.of_nat (length eligible) in
    let room := Z.max 0 (po_max_active policy - active_count values) in
    let quota := Z.min (po_max_new_per_bucket policy) room in
    let admitted := take (Z.to_nat quota) eligible in
    let rejected := Z.of_nat (length eligible) - Z.of_nat (length admitted) in
    let values := foldl (update_item (admit_value at_ property_count)) values admitted in
    let kept := tracked_now ++ admitted in
    let dropped := value_events (filter (λ c, vf_value_key c ∉ vf_value_key <$> kept) candidates) in
    final <- check_bucket_fact (admitted_fact fact kept dropped (Z.of_nat (length tracked_now)) (Z.of_nat (length admitted)) below rejected) ;;
    Ok ({| ab_fact := final; ab_metrics := list_to_map ((λ item, (vf_value_key item, vf_events item)) <$> kept) |}, values).

(** ** Retirement *)

(** [value.last_seen_at or value.first_seen_at or value.tracked_since] *)
Definition last_seen (v : TrackedValue) : option datetime :=
  match tv_last_seen_at v with
  | Some t => Some t
  | None => match tv_first_seen_at v with Some t => Some t | None => tv_tracked_since v end
  end.

Definition is_stale (reference : datetime) (policy : PwAdmissionPolicy) (v : TrackedValue) : bool :=
  tv_active v && negb (tv_pinned v) &&
  match last_seen v with
  | Some seen => dt_us seen <? dt_us (dt_minus reference (td_days (po_active_days policy)))
  | None => false
  end.

(** [retire_stale]: the values, and how many were retired. *)
Definition retire_stale (values : gmap text TrackedValue) (reference : datetime) (policy : PwAdmissionPolicy)
    : gmap text TrackedValue * Z :=
  ((λ v, if is_stale reference policy v then retire reference v else v) <$> values,
   Z.of_nat (size (filter (λ kv, is_stale reference policy kv.2 = true) values))).

(** [retire_other_versions] *)
Definition retire_other_versions (values : list TrackedValue) (at_ : datetime) : list TrackedValue :=
  (λ v, if tv_active v then retire at_ v else v) <$> values.

(** ** A tick *)

(** [not_collected_fact] *)
Definition not_collected_fact (bucket_start : datetime) (bucket_seconds watch_version : Z) (pinned : bool) : result PwBucketFact :=
  check_bucket_fact (make_fact bucket_start bucket_seconds watch_version false PB_NOT_COLLECTED
    (if pinned then PP_NOT_COLLECTED else PP_NOT_REQUESTED) None None None 0 []).

(** The outcomes of a bucket's searches. *)
Record BucketSearches := {
  bs_grouped : PwBucketOutcome; bs_totals : PwBucketOutcome; bs_pinned : option PwBucketOutcome }.

(** [collected_prefix] *)
Definition completed (b : BucketSearches) : bool :=
  measured (bs_grouped b) && bool_decide (oc_state (bs_totals b) = CELL_COMPLETE) &&
  match bs_pinned b with Some p => measured p | None => true end.

Fixpoint collected_prefix (buckets : list BucketSearches) : list BucketSearches :=
  match buckets with
  | b :: rest => if completed b then b :: collected_prefix rest else []
  | [] => []
  end.

(** The scope columns of a bucket. *)
Record ScopeColumns := { sc_members : option Z; sc_fingerprint : option string; sc_changed : bool; sc_maintenance : bool }.

Definition with_scope (c : ScopeColumns) (f : PwBucketFact) : PwBucketFact :=
  {| bf_bucket_start := bf_bucket_start f; bf_bucket_seconds := bf_bucket_seconds f; bf_watch_version := bf_watch_version f;
     bf_totals_complete := bf_totals_complete f; bf_values_measurement := bf_values_measurement f;
     bf_pinned_measurement := bf_pinned_measurement f; bf_origin := bf_origin f; bf_total_events := bf_total_events f;
     bf_parsed_events := bf_parsed_events f; bf_untracked_events := bf_untracked_events f; bf_values := bf_values f;
     bf_observed_values := bf_observed_values f; bf_tracked_values_observed := bf_tracked_values_observed f;
     bf_admitted_values := bf_admitted_values f; bf_below_admission_threshold := bf_below_admission_threshold f;
     bf_rejected_over_quota := bf_rejected_over_quota f; bf_admission_truncated := bf_admission_truncated f;
     bf_scope_member_count := sc_members c; bf_scope_fingerprint := sc_fingerprint c; bf_scope_changed := sc_changed c;
     bf_in_maintenance := sc_maintenance c |}.

(** What of the settings the tick reads. *)
Record WatchSettings := {
  ws_bucket_seconds : Z; ws_max_values : Z; ws_value_max_length : Z; ws_policy : PwAdmissionPolicy }.

Section Tick.
Context (printable : N → bool) (ws : WatchSettings) (version : Z) (property_count : nat) (pinned : list (list text))
  (reading : bool).

(** One bucket of the loop of [_fold_and_stage]; a history reading retires after every bucket. *)
Definition collect_bucket (acc : list AdmittedBucket * gmap text TrackedValue * Z) (b : BucketSearches * ScopeColumns)
    : result (list AdmittedBucket * gmap text TrackedValue * Z) :=
  let '(facts, values, retired) := acc in
  let at_ := oc_bucket_start (bs_grouped b.1) in
  fact <- fold_bucket printable at_ (ws_bucket_seconds ws) version property_count (bs_grouped b.1) (bs_totals b.1) (bs_pinned b.1)
            pinned (dom (filter (λ kv, tv_active kv.2 = true) values)) (ws_max_values ws) (ws_value_max_length ws) ;;
  fact <- check_bucket_fact (with_scope b.2 fact) ;;
  r <- admit_bucket fact values (ws_policy ws) property_count ;;
  let '(values, n) := if reading then retire_stale r.2 at_ (ws_policy ws) else (r.2, 0) in
  Ok (facts ++ [r.1], values, retired + n).

(** [_fold_and_stage], of the buckets that completed: the facts and metrics to write, and the
    value rows. *)
Definition collect_buckets (values : gmap text TrackedValue) (buckets : list (BucketSearches * ScopeColumns))
    : result (list AdmittedBucket * gmap text TrackedValue * Z) :=
  match buckets, last buckets with
  | first :: _, Some final =>
      _ <- check_policy (ws_policy ws) ;;
      limit <- component_limit property_count (ws_value_max_length ws) ;;
      pins <- pinned_value_keys printable pinned property_count limit ;;
      let values := sync_pins values pins (oc_bucket_start (bs_grouped first.1)) in
      r <- foldM collect_bucket ([], values, 0) buckets ;;
      let '(facts, values, retired) := r in
      let '(values, n) := if reading then (values, 0)
                          else retire_stale values (oc_bucket_start (bs_grouped final.1)) (ws_policy ws) in
      Ok (facts, values, retired + n)
  | _, _ => Ok ([], values, 0)
  end.
End Tick.

(** [_tracked_at] *)
Definition tracked_at (v : TrackedValue) (at_ : datetime) : bool :=
  match tv_tracked_since v with
  | None => false
  | Some since => (dt_us since <=? dt_us at_) &&
                  match tv_tracked_until v with Some until => dt_us at_ <=? dt_us until | None => true end
  end.
