(* ===== verification/PwAdmitTheorems.v ===== *)
(** * Facts about the property-watch fold *)

From S2P Require Import Prelude PyStr PyFloat PyTime PyJson Enums PwFacts PwSearch PwFold PwAdmission.

(** A key of the application: short, not empty. *)
Definition good_key (key : text) : Prop := key ≠ [] ∧ Z.of_nat (length key) <= VALUE_KEY_WIDTH.

Lemma sum_Z_Permutation l1 l2 : l1 ≡ₚ l2 → sum_Z l1 = sum_Z l2.
Proof. unfold sum_Z. induction 1; cbn; lia. Qed.

Section Facts.
Context (printable : N → bool) (Hsep : printable TUPLE_SEPARATOR = false).

(** A cleaned component: not empty, within the limit, without the separator. *)
Lemma sanitize_ok v limit t cut : 1 <= limit → sanitize_component printable v limit = Some (t, cut) →
  t ≠ [] ∧ Z.of_nat (length t) <= limit ∧ TUPLE_SEPARATOR ∉ t.
Proof using Hsep.
  intros Hl. unfold sanitize_component. destruct v as [s|]; [|done]. cbn [is_unparsed]. case_bool_decide as Hs; [done|].
  destruct (strip_first s Hs) as (c & s' & E & Hc). rewrite E. set (clean := _ <$> _).
  assert (Hclean : ∃ d rest, clean = d :: rest ∧ is_space d = false).
  { subst clean. cbn [fmap list_fmap]. do 2 eexists. split; [done|]. by destruct (printable c). }
  assert (Hno : TUPLE_SEPARATOR ∉ clean).
  { subst clean. rewrite list_elem_of_fmap. intros (x & Hx & _). destruct (printable x) eqn:Ex; [|done]. congruence. }
  clearbody clean. destruct Hclean as (d & rest & -> & Hd).
  destruct (Z.ltb_spec limit (Z.of_nat (length (d :: rest)))) as [Hcut|Hcut]; intros [= <- <-]; [|by split_and!].
  destruct (Z.to_nat limit) as [|k] eqn:Ek; [lia|]. change (take (S k) (d :: rest)) with (d :: take k rest).
  destruct (trim_right_first d (take k rest) Hd) as [q Hq]. destruct (trim_right_prefix (d :: take k rest)) as [post Hpost].
  split_and!; [by rewrite Hq| |].
  - apply (f_equal length) in Hpost. rewrite length_app in Hpost. cbn [length] in Hpost. rewrite length_take in Hpost. lia.
  - intros Hin. apply Hno. assert (Hin' : TUPLE_SEPARATOR ∈ d :: take k rest) by (rewrite Hpost; apply elem_of_app; by left).
    apply elem_of_cons in Hin' as [->|Hin']; [left|right]. by apply elem_of_take in Hin' as (i & Hi & _); eapply list_elem_of_lookup_2.
Qed.

(** The key of a row's values. *)
Definition values_key (limit : Z) (values : list (option text)) : option (text * list (text * bool)) :=
  match clean_values printable values limit with
  | None => None
  | Some parts => match join_tuple_key (parts.*1) with Ok key => Some (key, parts) | Err _ => None end
  end.

(** The separator separates: joining raises on no cleaned row, and its keys are good. *)
Lemma clean_values_join property_count max_length limit values parts :
  component_limit property_count max_length = Ok limit → length values = property_count →
  clean_values printable values limit = Some parts →
  ∃ key, join_tuple_key (parts.*1) = Ok key ∧ good_key key.
Proof using Hsep.
  intros Hl Hlen Hc. unfold component_limit in Hl. unfold raise_if in Hl.
  destruct (Nat.eqb property_count 1 || Nat.eqb property_count 2) eqn:Epc; [|discriminate Hl]. cbn [negb res_bind] in Hl.
  destruct ((3 <=? max_length) && (max_length <=? VALUE_KEY_WIDTH)) eqn:Eml; [|discriminate Hl]. cbn [negb res_bind] in Hl.
  injection Hl as <-. bool_simp. unfold VALUE_KEY_WIDTH in *. unfold clean_values in Hc. apply mapM_Some in Hc.
  assert (Hlim : 1 <= (if Nat.eqb property_count 1 then max_length else (max_length - 1) / 2)).
  { destruct (Nat.eqb property_count 1); [lia|]. apply Z.div_le_lower_bound; lia. }
  assert (Hparts : Forall (λ p : text * bool, p.1 ≠ [] ∧
    Z.of_nat (length p.1) <= (if Nat.eqb property_count 1 then max_length else (max_length - 1) / 2) ∧ TUPLE_SEPARATOR ∉ p.1) parts).
  { clear Hlen Epc. induction Hc as [|v [t cut] vs ps Hv _ IH]; constructor; [|done]. by eapply sanitize_ok. }
  pose proof (Forall2_length _ _ _ Hc) as Hlp. rewrite Hlen in Hlp. clear Hlen. unfold join_tuple_key, raise_if.
  assert (Hne : bool_decide (parts.*1 = []) = false).
  { apply bool_decide_eq_false_2. intros E. apply (f_equal length) in E. rewrite length_fmap in E. cbn in E.
    destruct property_count as [|[|[|]]]; try discriminate Epc; lia. }
  rewrite Hne. cbn [res_bind].
  assert (Hex : existsb (λ c : text, bool_decide (TUPLE_SEPARATOR ∈ c)) (parts.*1) = false).
  { clear -Hparts. induction Hparts as [|p ps (_ & _ & Hp) _ IH]; [done|]. cbn. rewrite IH. by rewrite bool_decide_eq_false_2. }
  rewrite Hex. cbn [res_bind]. eexists. split; [reflexivity|]. unfold good_key, VALUE_KEY_WIDTH.
  destruct parts as [|[p1 c1] [|[p2 c2] [|]]]; cbn [length] in Hlp; subst property_count; try discriminate Epc.
  - rewrite Forall_singleton in Hparts. destruct Hparts as (H1 & H2 & _). cbn in *. split; [done|lia].
  - apply Forall_cons in Hparts as [(H1 & H2 & _) Hparts]. rewrite Forall_singleton in Hparts. destruct Hparts as (H3 & H4 & _). cbn in *. rewrite !length_app. cbn [length].
    split; [by destruct p1|]. pose proof (Z.mul_div_le (max_length - 1) 2). lia.
Qed.
End Facts.

(** ** Sums of a map of entries *)

Definition map_events (m : gmap text Sum) : Z := total_events (map_to_list m).

Lemma total_events_Permutation l1 l2 : l1 ≡ₚ l2 → total_events l1 = total_events l2.
Proof. intros H. apply sum_Z_Permutation. by rewrite H. Qed.

Lemma total_events_app l1 l2 : total_events (l1 ++ l2) = total_events l1 + total_events l2.
Proof. unfold total_events. by rewrite fmap_app, sum_Z_app. Qed.

Lemma map_events_insert (m : gmap text Sum) key e : m !! key = None → map_events (<[key := e]> m) = sm_events e + map_events m.
Proof. intros H. unfold map_events. rewrite (total_events_Permutation _ _ (map_to_list_insert m key e H)). done. Qed.

Lemma map_events_update (m : gmap text Sum) key old e : m !! key = Some old →
  map_events (<[key := e]> m) = sm_events e - sm_events old + map_events m.
Proof.
  intros H. rewrite <- (insert_delete_id m key old H) at 2. rewrite (map_events_insert (delete key m)) by apply lookup_delete_eq.
  rewrite <- insert_delete_eq, (map_events_insert (delete key m)) by apply lookup_delete_eq. lia.
Qed.

Lemma map_events_union (m1 m2 : gmap text Sum) : m1 ##ₘ m2 → map_events (m1 ∪ m2) = map_events m1 + map_events m2.
Proof.
  induction m1 as [|key e m1 Hk IH] using map_ind; intros Hd.
  - by rewrite (left_id_L ∅ (∪)).
  - apply map_disjoint_insert_l in Hd as [H2 Hd]. rewrite <- insert_union_l, map_events_insert, IH, map_events_insert; [lia|done..|].
    by rewrite lookup_union, Hk, H2.
Qed.

Lemma by_rank_Permutation (m : gmap text Sum) : by_rank m ≡ₚ map_to_list m.
Proof. unfold by_rank. apply merge_sort_Permutation. Qed.

Lemma by_rank_NoDup (m : gmap text Sum) : NoDup (by_rank m).*1.
Proof. rewrite by_rank_Permutation. apply NoDup_fst_map_to_list. Qed.

Lemma by_rank_elem (m : gmap text Sum) key e : (key, e) ∈ by_rank m ↔ m !! key = Some e.
Proof. by rewrite by_rank_Permutation, elem_of_map_to_list. Qed.

Lemma sublist_fst_NoDup {A B} (l k : list (A * B)) : NoDup k.*1 → l `sublist_of` k → NoDup l.*1.
Proof. intros Hk Hl. eapply sublist_NoDup; [exact Hk|]. clear Hk. induction Hl; cbn; by constructor. Qed.

(** What is kept and what is cut are the entries, and every key that must be is kept. *)
Lemma keep_values_spec entries must_keep n kept tail : keep_values entries must_keep n = (kept, tail) →
  map_events kept + tail = map_events entries ∧ kept ⊆ entries ∧ (∀ key, key ∈ must_keep → kept !! key = entries !! key).
Proof.
  unfold keep_values. intros [= <- <-]. set (out := filter (λ kv : text * Sum, kv.1 ∉ must_keep) entries).
  set (must := filter (λ kv : text * Sum, kv.1 ∈ must_keep) entries).
  pose proof (sublist_fst_NoDup _ _ (by_rank_NoDup out) (sublist_take (by_rank out) n)) as Hnt.
  set (top := list_to_map (take n (by_rank out)) : gmap text Sum).
  assert (Htop : top ⊆ out).
  { apply map_subseteq_spec. intros key e Hke%elem_of_list_to_map_2. apply by_rank_elem.
    by eapply elem_of_take in Hke as (i & Hi & _); eapply list_elem_of_lookup_2. }
  assert (Hdis : out ##ₘ must).
  { apply map_disjoint_spec. intros key x y [_ Hx]%map_lookup_filter_Some [_ Hy]%map_lookup_filter_Some. done. }
  assert (Hpart : out ∪ must = entries).
  { apply map_eq. intros key. rewrite lookup_union. unfold out, must. rewrite !map_lookup_filter.
    destruct (entries !! key) as [e|]; [|done]. cbn. repeat case_guard; done || tauto. }
  split_and!.
  - rewrite map_events_union by (eapply map_disjoint_weaken_l; [exact Hdis|exact Htop]).
    rewrite <- Hpart, (map_events_union out must Hdis).
    assert (Hout : map_events out = total_events (take n (by_rank out)) + total_events (drop n (by_rank out))).
    { rewrite <- total_events_app, take_drop. apply total_events_Permutation. by rewrite by_rank_Permutation. }
    assert (Ht : map_events top = total_events (take n (by_rank out))).
    { unfold map_events. apply total_events_Permutation. by apply map_to_list_to_map. }
    lia.
  - rewrite <- Hpart. apply map_union_mono_r; done.
  - intros key Hk. rewrite lookup_union. assert (Ht : top !! key = None).
    { destruct (top !! key) as [e|] eqn:E; [|done]. pose proof (lookup_weaken _ _ _ _ E Htop) as [_ Hx]%map_lookup_filter_Some. done. }
    rewrite Ht, (left_id_L None _). unfold must. rewrite map_lookup_filter. destruct (entries !! key); [|done]. cbn.
    case_guard; done.
Qed.

(** ** What rows say of a key *)

Section Rows.
Context (printable : N → bool) (Hsep : printable TUPLE_SEPARATOR = false).
Context (property_count : nat) (max_length limit : Z) (Hlimit : component_limit property_count max_length = Ok limit).

Definition row_key (r : PwKeyedRow) : option text := fst <$> values_key printable limit (kr_values r).

(** The events of a key in some rows; None when no row has it. *)
Definition value_total (rows : list PwKeyedRow) (key : text) : option Z :=
  match filter (λ r, row_key r = Some key) rows with [] => None | rs => Some (sum_Z (kr_events <$> rs)) end.

(** The events of the rows that form a value. *)
Definition parsed_total (rows : list PwKeyedRow) : Z := sum_Z (kr_events <$> filter (λ r, is_Some (row_key r)) rows).

(** Rows as the driver admits them. *)
Definition row_ok (r : PwKeyedRow) : Prop := length (kr_values r) = property_count ∧ 0 <= kr_events r.

Lemma value_total_nil key : value_total [] key = None.
Proof. done. Qed.

Lemma value_total_snoc rows r key : value_total (rows ++ [r]) key =
  if decide (row_key r = Some key) then Some (default 0 (value_total rows key) + kr_events r) else value_total rows key.
Proof.
  unfold value_total. rewrite filter_app, filter_cons. case_decide as H; [|by rewrite app_nil_r].
  destruct (filter _ rows) as [|q qs]; cbn [app].
  - cbn. f_equal. lia.
  - f_equal. rewrite app_comm_cons, filter_nil, fmap_app, sum_Z_app. change (sum_Z (kr_events <$> [r])) with (kr_events r + 0). cbn. lia.
Qed.

Lemma value_total_nonneg rows key n : Forall row_ok rows → value_total rows key = Some n → 0 <= n.
Proof.
  intros Hok. unfold value_total. assert (Hs : 0 <= sum_Z (kr_events <$> filter (λ r, row_key r = Some key) rows)).
  { apply sum_Z_nonneg, Forall_fmap, Forall_forall. intros r [_ Hr]%list_elem_of_filter. rewrite Forall_forall in Hok. by apply Hok. }
  destruct (filter _ rows) as [|q qs]; [done|]. by intros [= <-].
Qed.

Lemma value_total_none rows key : value_total rows key = None ↔ ∀ r, r ∈ rows → row_key r ≠ Some key.
Proof.
  unfold value_total. split.
  - intros H r Hr E. assert (Hin : r ∈ filter (λ r, row_key r = Some key) rows) by by apply list_elem_of_filter.
    destruct (filter _ rows); [by apply elem_of_nil in Hin|done].
  - intros H. rewrite filter_none; [done|]. by apply Forall_forall.
Qed.

Lemma row_key_good r key : length (kr_values r) = property_count → row_key r = Some key → good_key key.
Proof using Hsep Hlimit.
  intros Hlen. unfold row_key, values_key. destruct (clean_values printable (kr_values r) limit) as [parts|] eqn:Hc; [|done].
  destruct (clean_values_join printable Hsep _ _ _ _ _ Hlimit Hlen Hc) as (k & -> & Hk). cbn. by intros [= <-].
Qed.

Lemma sum_rows_spec rows : Forall row_ok rows → ∃ entries, sum_rows printable rows property_count limit = Ok (entries, parsed_total rows) ∧
  (∀ key, sm_events <$> entries !! key = value_total rows key) ∧ map_events entries = parsed_total rows ∧
  ∀ key e, entries !! key = Some e → good_key key.
Proof using Hsep Hlimit.
  unfold sum_rows. induction rows as [|r rows IH] using rev_ind; intros Hok.
  { exists ∅. split_and!; [done|intros key; by rewrite lookup_empty|done|intros key e H; by rewrite lookup_empty in H]. }
  apply Forall_app in Hok as [Hok Hr]. rewrite Forall_singleton in Hr. destruct Hr as [Hlen Hev].
  destruct (IH Hok) as (entries & Hs & Hv & Hsum & Hg). rewrite foldM_app, Hs. cbn [res_bind foldM sum_row].
  rewrite bool_decide_eq_true_2 by done. cbn [negb raise_if res_bind].
  assert (Hp : parsed_total (rows ++ [r]) = parsed_total rows + (if decide (is_Some (row_key r)) then kr_events r else 0)).
  { unfold parsed_total. rewrite filter_app, filter_cons, fmap_app, sum_Z_app. case_decide; cbn; lia. }
  destruct (clean_values printable (kr_values r) limit) as [parts|] eqn:Hc.
  - destruct (clean_values_join printable Hsep _ _ _ _ _ Hlimit Hlen Hc) as (k & Hk & Hgood). rewrite Hk. cbn [res_bind].
    assert (Hrk : row_key r = Some k) by (unfold row_key, values_key; rewrite Hc, Hk; done).
    rewrite Hrk, decide_True in Hp by by eexists. rewrite Hp. eexists. split; [reflexivity|].
    pose proof (Hv k) as Hvk. set (e := add_entry (entries !! k) (kr_events r) (parts.*1) (existsb snd parts)).
    assert (He : sm_events e = default 0 (value_total rows k) + kr_events r).
    { subst e. rewrite <- Hvk. destruct (entries !! k); done. }
    split_and!.
    + intros key. rewrite value_total_snoc, Hrk. destruct (decide (k = key)) as [<-|Hne].
      * rewrite lookup_insert_eq, decide_True by done. cbn [fmap option_fmap option_map]. by rewrite He.
      * rewrite lookup_insert_ne, decide_False by congruence. apply Hv.
    + destruct (entries !! k) as [old|] eqn:Eo.
      * rewrite (map_events_update _ _ old) by done. rewrite He, <- Hvk. cbn. lia.
      * rewrite map_events_insert by done. rewrite He, <- Hvk. cbn. lia.
    + intros key x. rewrite lookup_insert_Some. intros [[<- _]|[_ Hx]]; [done|by eapply Hg].
  - assert (Hrk : row_key r = None) by (unfold row_key, values_key; by rewrite Hc).
    rewrite Hrk, decide_False in Hp by by intros []. rewrite Hp, Z.add_0_r. exists entries. split_and!; try done.
    intros key. rewrite value_total_snoc, Hrk, decide_False by done. apply Hv.
Qed.

(** ** Pins beside the grouped values *)

Definition merged_events (held entry : option Z) : option Z :=
  match entry with None => held | Some n => Some (match held with None => n | Some h => Z.max h n end) end.

Lemma merge_pins_spec pins kept entries key : sm_events <$> merge_pins pins kept entries !! key =
  if decide (is_Some (pins !! key)) then merged_events (sm_events <$> kept !! key) (sm_events <$> entries !! key)
  else sm_events <$> kept !! key.
Proof.
  assert (H : ∀ m : gmap text Sum, sm_events <$> map_fold (λ key entry kept, <[key := merge_pin (kept !! key) entry]> kept) kept m !! key =
    merged_events (sm_events <$> kept !! key) (sm_events <$> m !! key)).
  { intros m. revert key. apply (map_fold_weak_ind (λ (r m : gmap text Sum), ∀ key, sm_events <$> r !! key =
      merged_events (sm_events <$> kept !! key) (sm_events <$> m !! key))).
    - intros key. by rewrite lookup_empty.
    - intros k e m' r Hk IH key. destruct (decide (k = key)) as [<-|Hne].
      + rewrite !lookup_insert_eq. specialize (IH k). rewrite Hk in IH. cbn in IH |- *. unfold merge_pin.
        destruct (r !! k), (kept !! k); cbn in IH |- *; congruence.
      + rewrite !lookup_insert_ne by done. apply IH. }
  unfold merge_pins. rewrite H, map_lookup_filter. destruct (entries !! key) as [e|]; cbn; [|by destruct (decide _)].
  case_decide; case_guard; done.
Qed.
End Rows.

(** * The fold is total, exact and bounded *)


(** What [PwBucketFact] checks. *)
Record fact_ok (f : PwBucketFact) : Prop := {
  fk_seconds : 0 < bf_bucket_seconds f; fk_version : 1 <= bf_watch_version f;
  fk_total : ∀ t, bf_total_events f = Some t → bf_totals_complete f = true ∧ 0 <= t;
  fk_parsed : ∀ p, bf_parsed_events f = Some p →
    0 <= p ∧ bf_values_measurement f ≠ PB_NOT_COLLECTED ∧ value_events (bf_values f) + default 0 (bf_untracked_events f) <= p;
  fk_measured : bf_values_measurement f ≠ PB_NOT_COLLECTED → is_Some (bf_parsed_events f);
  fk_order : ∀ t p, bf_total_events f = Some t → bf_parsed_events f = Some p → p <= t;
  fk_untracked : ∀ u, bf_untracked_events f = Some u → 0 <= u ∧ bf_values_measurement f = PB_EXACT }.

Lemma or_int_default x : or_int x 0 = default 0 x.
Proof. destruct x as [n|]; [|done]. cbn. destruct (Z.eqb_spec n 0); [by subst|done]. Qed.

Lemma raise_if_false (c : bool) e (k : unit → result PwBucketFact) : c = false → res_bind (raise_if c e) k = k tt.
Proof. by intros ->. Qed.

Lemma negative_false x : (∀ n, x = Some n → 0 <= n) → negative x = false.
Proof. destruct x as [n|]; [|done]. intros H. apply Z.ltb_ge. by apply H. Qed.

Lemma check_bucket_fact_ok f : fact_ok f → check_bucket_fact f = Ok f.
Proof.
  intros [Hs Hv Ht Hp Hm Ho Hu]. unfold check_bucket_fact.
  rewrite raise_if_false by (apply Z.leb_gt; lia). rewrite raise_if_false by (apply Z.ltb_ge; lia).
  rewrite raise_if_false.
  2:{ destruct (bf_total_events f) as [t|] eqn:E; [destruct (Ht t eq_refl) as [-> _]; done|].
      rewrite bool_decide_eq_false_2 by by intros []. by rewrite andb_false_r. }
  rewrite raise_if_false by (apply negative_false; intros n E; by destruct (Ht n E)).
  rewrite raise_if_false by (apply negative_false; intros n E; by destruct (Hp n E)).
  rewrite raise_if_false by (apply negative_false; intros n E; by destruct (Hu n E)).
  rewrite raise_if_false.
  2:{ destruct (bf_total_events f) as [t|]; [|done]. destruct (bf_parsed_events f) as [p|]; [|done].
      apply Z.ltb_ge. by apply Ho. }
  assert (H8 : (if bool_decide (bf_values_measurement f = PB_NOT_COLLECTED) then
          raise_if (bool_decide (is_Some (bf_parsed_events f)) || bool_decide (is_Some (bf_untracked_events f)))
            (PwFactError "an uncollected bucket measured nothing")
        else raise_if (bool_decide (bf_parsed_events f = None)) (PwFactError "a collected bucket states its parsed events")) = Ok tt).
  { case_bool_decide as E; apply raise_if_ok.
    - apply orb_false_iff. split; apply bool_decide_eq_false_2; intros [n Hn]; [by destruct (Hp n Hn) as (_ & ? & _)|].
      destruct (Hu n Hn) as [_ Hx]. congruence.
    - apply bool_decide_eq_false_2. intros En. destruct (Hm E) as [n Hn]. congruence. }
  rewrite H8. cbn [res_bind]. rewrite raise_if_false.
  2:{ destruct (bf_untracked_events f) as [u|] eqn:E; [|by rewrite bool_decide_eq_false_2 by by intros []].
      destruct (Hu u eq_refl) as [_ ->]. by rewrite andb_false_r. }
  rewrite raise_if_false; [done|]. destruct (bf_parsed_events f) as [p|]; [|done]. apply Z.ltb_ge. rewrite or_int_default.
  by destruct (Hp p eq_refl) as (_ & _ & ?).
Qed.

(** An outcome as the driver and the chunks make it. *)
Record outcome_ok (property_count : nat) (kind : PwSearchKind) (at_ : datetime) (o : PwBucketOutcome) : Prop := {
  ok_search : oc_search o = kind; ok_bucket : oc_bucket_start o = at_;
  ok_rows : Forall (λ r, kr_bucket_start r = at_ ∧ 0 <= kr_events r) (oc_rows o);
  ok_values : kind ≠ TOTALS → Forall (λ r, length (kr_values r) = property_count) (oc_rows o);
  ok_measured : measured o = false → oc_rows o = [] }.

Lemma check_outcome_ok property_count kind at_ o : outcome_ok property_count kind at_ o → check_outcome o kind at_ = Ok tt.
Proof.
  intros [Hs Hb Hr _ _]. unfold check_outcome. rewrite bool_decide_eq_true_2, Hb, dt_eq_refl by done. cbn [negb raise_if res_bind].
  apply raise_if_ok. induction Hr as [|r rs [E _] _ IH]; [done|]. cbn. by rewrite E, dt_eq_refl, IH.
Qed.

Lemma outcome_rows_ok property_count kind at_ o : kind ≠ TOTALS → outcome_ok property_count kind at_ o →
  Forall (row_ok property_count) (oc_rows o).
Proof.
  intros Hk [_ _ Hr Hv _]. specialize (Hv Hk). rewrite Forall_forall in Hr, Hv. apply Forall_forall. intros r Hin.
  split; [by apply Hv|by apply Hr].
Qed.

(** The totals: a whole search's sum, nothing otherwise. *)
Lemma total_of_ok property_count at_ o : outcome_ok property_count TOTALS at_ o →
  total_of o = Ok (if bool_decide (oc_state o = CELL_COMPLETE) then Some (sum_Z (kr_events <$> oc_rows o)) else None) ∧
  0 <= sum_Z (kr_events <$> oc_rows o).
Proof.
  intros [_ _ Hr _ Hm]. assert (Hnn : 0 <= sum_Z (kr_events <$> oc_rows o)).
  { apply sum_Z_nonneg, Forall_fmap. eapply Forall_impl; [exact Hr|]. by intros r [_ ?]. }
  split; [|done]. unfold total_of, measured, measured_state in *. destruct (oc_rows o) as [|r rows] eqn:Erows.
  - destruct (oc_state o); reflexivity.
  - set (n := sum_Z (kr_events <$> r :: rows)) in *. apply Z.ltb_ge in Hnn. unfold count_from_search, coerce_count, make_count.
    assert (Ha : ∀ k v, assoc [(k, v)] k = Some v) by (intros; cbn [assoc]; by rewrite decide_True by done).
    rewrite Ha, Hnn. clearbody n. destruct (oc_state o), n; try discriminate Hnn; try reflexivity; discriminate (Hm eq_refl).
Qed.

Lemma measured_complete o : oc_state o = CELL_COMPLETE → measured o = true.
Proof. unfold measured, measured_state. by intros ->. Qed.

Lemma values_state_measured o : measured o = negb (bool_decide (values_state o = PB_NOT_COLLECTED)).
Proof. unfold measured, measured_state, values_state. by destruct (oc_state o). Qed.

Lemma values_state_exact o : values_state o = PB_EXACT ↔ oc_state o = CELL_COMPLETE.
Proof. unfold values_state. by destruct (oc_state o). Qed.

Lemma total_events_nonneg l : Forall (λ x : text * Sum, 0 <= sm_events x.2) l → 0 <= total_events l.
Proof. intros H. by apply sum_Z_nonneg, Forall_fmap. Qed.

(** The rows of the facts, from the entries in their order. *)
Lemma value_facts_ok l : Forall (λ x : text * Sum, good_key x.1 ∧ 0 <= sm_events x.2) l →
  ∃ values, mapM_result (λ x : text * Sum, make_value_fact x.1 (sm_events x.2) (sm_components x.2) (sm_truncated x.2)) l = Ok values ∧
    (λ v, (vf_value_key v, vf_events v)) <$> values = (λ x : text * Sum, (x.1, sm_events x.2)) <$> l.
Proof.
  induction 1 as [|[key e] l [[Hne Hlen] Hn] _ (vs & Hvs & IH)]; [by exists []|]. cbn [mapM_result fst snd].
  unfold make_value_fact at 1. rewrite bool_decide_eq_false_2 by done. unfold VALUE_KEY_WIDTH in Hlen.
  rewrite (proj2 (Z.ltb_ge 255 _)) by exact Hlen. cbn [orb raise_if res_bind].
  rewrite (proj2 (Z.ltb_ge (sm_events e) 0)) by done. cbn [raise_if res_bind]. rewrite Hvs. cbn [res_bind].
  eexists. split; [reflexivity|]. cbn. by rewrite IH.
Qed.

Lemma value_facts_events values (l : list (text * Sum)) :
  (λ v, (vf_value_key v, vf_events v)) <$> values = (λ x : text * Sum, (x.1, sm_events x.2)) <$> l →
  value_events values = total_events l ∧ vf_value_key <$> values = l.*1.
Proof.
  intros H. unfold value_events, total_events. split.
  - f_equal. apply (f_equal (fmap snd)) in H. by rewrite <- !list_fmap_compose in H.
  - apply (f_equal (fmap fst)) in H. by rewrite <- !list_fmap_compose in H.
Qed.

Section Spec.
Context (printable : N → bool) (Hsep : printable TUPLE_SEPARATOR = false).
Context (property_count : nat) (max_length limit : Z) (Hlimit : component_limit property_count max_length = Ok limit).

Local Abbreviation total_in rows key := (value_total printable limit rows key).

(** What the outcomes of a bucket say of a key: the grouped rows; for a pinned key, beside them
    the pinned rows, unless the grouped search was whole. *)
Definition shown (pins : gmap text (list text)) (grouped : PwBucketOutcome) (pinned_outcome : option PwBucketOutcome) (key : text) : option Z :=
  match pinned_outcome with
  | Some o =>
      if measured o && negb (bool_decide (oc_state grouped = CELL_COMPLETE)) && bool_decide (is_Some (pins !! key))
      then merged_events (total_in (oc_rows grouped) key) (total_in (oc_rows o) key)
      else total_in (oc_rows grouped) key
  | None => total_in (oc_rows grouped) key
  end.

Lemma merged_nonneg held entry n : (∀ h, held = Some h → 0 <= h) → (∀ e, entry = Some e → 0 <= e) →
  merged_events held entry = Some n → 0 <= n.
Proof.
  intros Hh He. destruct entry as [e|]; cbn; [|by apply Hh]. specialize (He e eq_refl). intros [= <-].
  destruct held as [h|]; [specialize (Hh h eq_refl)|]; lia.
Qed.

(** The entries kept from the grouped search. *)
Lemma grouped_kept grouped at_ must n entries parsed kept tail : outcome_ok property_count GROUPED at_ grouped →
  sum_rows printable (oc_rows grouped) property_count limit = Ok (entries, parsed) → keep_values entries must n = (kept, tail) →
  parsed = parsed_total printable limit (oc_rows grouped) ∧ 0 <= parsed ∧ 0 <= tail ∧ map_events kept + tail = parsed ∧
  (∀ key e, kept !! key = Some e → good_key key ∧ total_in (oc_rows grouped) key = Some (sm_events e)) ∧
  (∀ key, key ∈ must → sm_events <$> kept !! key = total_in (oc_rows grouped) key) ∧
  (measured grouped = false → kept = ∅).
Proof using Hsep Hlimit.
  intros Hg Hs Hk. pose proof (outcome_rows_ok _ _ _ _ (λ H : GROUPED = TOTALS, ltac:(discriminate H)) Hg) as Hrows.
  destruct (sum_rows_spec printable Hsep property_count max_length limit Hlimit _ Hrows) as (m & Hm & Hv & Hsum & Hgood).
  rewrite Hs in Hm. injection Hm as <- ->. destruct (keep_values_spec _ _ _ _ _ Hk) as (Hkt & Hsub & Hmust).
  assert (Hnn : Forall (λ x : text * Sum, 0 <= sm_events x.2) (map_to_list entries)).
  { apply Forall_forall. intros [key e] He%elem_of_map_to_list. eapply (value_total_nonneg printable property_count limit); [exact Hrows|].
    rewrite <- Hv, He. done. }
  assert (Htail : 0 <= tail).
  { apply (f_equal snd) in Hk. cbn in Hk. subst tail. apply total_events_nonneg, Forall_drop, Forall_forall. intros [key e] He%by_rank_elem.
    apply map_lookup_filter_Some in He as [He _]. rewrite Forall_forall in Hnn. apply (Hnn (key, e)). by apply elem_of_map_to_list. }
  split_and!; [done| |done|by rewrite Hkt| | |].
  - rewrite <- Hsum. by apply total_events_nonneg.
  - intros key e He. pose proof (lookup_weaken _ _ _ _ He Hsub) as He'. split; [by eapply Hgood|]. rewrite <- Hv, He'. done.
  - intros key Hin. rewrite Hmust by done. apply Hv.
  - intros Hmf. destruct Hg as [_ _ _ _ Hx]. rewrite (Hx Hmf) in Hv. apply map_empty. intros key.
    destruct (kept !! key) as [e|] eqn:E; [|done]. pose proof (lookup_weaken _ _ _ _ E Hsub) as He'.
    specialize (Hv key). by rewrite He' in Hv.
Qed.

(** Pins beside them. *)
Lemma merged_kept pins grouped pinned_outcome at_ must kept entries :
  outcome_ok property_count GROUPED at_ grouped →
  (∀ key e, kept !! key = Some e → good_key key ∧ total_in (oc_rows grouped) key = Some (sm_events e)) →
  (∀ key, key ∈ must → sm_events <$> kept !! key = total_in (oc_rows grouped) key) → dom pins ⊆ must →
  match pinned_outcome with
  | Some o => if measured o && negb (bool_decide (oc_state grouped = CELL_COMPLETE))
              then outcome_ok property_count PINNED at_ o ∧ ∃ pinned_entries p,
                     sum_rows printable (oc_rows o) property_count limit = Ok (pinned_entries, p) ∧ entries = merge_pins pins kept pinned_entries
              else entries = kept
  | None => entries = kept
  end →
  (∀ key e, entries !! key = Some e → good_key key ∧ 0 <= sm_events e ∧ shown pins grouped pinned_outcome key = Some (sm_events e)) ∧
  (∀ key, key ∈ must → sm_events <$> entries !! key = shown pins grouped pinned_outcome key).
Proof using Hsep Hlimit.
  intros Hg Hk Hmust Hpins Hcase. pose proof (outcome_rows_ok _ _ _ _ (λ H : GROUPED = TOTALS, ltac:(discriminate H)) Hg) as Hrows.
  assert (Hnn : ∀ key n, total_in (oc_rows grouped) key = Some n → 0 <= n).
  { intros key n. by apply (value_total_nonneg printable property_count limit). }
  assert (Hplain : ∀ s, (∀ key, s key = total_in (oc_rows grouped) key) → entries = kept →
    (∀ key e, entries !! key = Some e → good_key key ∧ 0 <= sm_events e ∧ s key = Some (sm_events e)) ∧
    (∀ key, key ∈ must → sm_events <$> entries !! key = s key)).
  { intros s Hs ->. split; [|intros key; rewrite Hs; apply Hmust]. intros key e He. destruct (Hk key e He) as [Hgood Ht].
    rewrite Hs. split_and!; [done|by eapply Hnn|done]. }
  unfold shown. destruct pinned_outcome as [o|]; [|by apply Hplain].
  destruct (measured o && negb (bool_decide (oc_state grouped = CELL_COMPLETE))) eqn:Eact; cbn [andb]; [|by apply Hplain].
  destruct Hcase as (Ho & pe & p & Hs & ->). pose proof (outcome_rows_ok _ _ _ _ (λ H : PINNED = TOTALS, ltac:(discriminate H)) Ho) as Hrows'.
  destruct (sum_rows_spec printable Hsep property_count max_length limit Hlimit _ Hrows') as (m & Hm & Hv & _ & Hgood).
  rewrite Hs in Hm. injection Hm as <- _.
  assert (Hmain : ∀ key, sm_events <$> merge_pins pins kept pe !! key =
    if bool_decide (is_Some (pins !! key)) then merged_events (total_in (oc_rows grouped) key) (total_in (oc_rows o) key)
    else sm_events <$> kept !! key).
  { intros key. rewrite merge_pins_spec. destruct (decide (is_Some (pins !! key))) as [Hp|Hp];
      [rewrite bool_decide_eq_true_2 by exact Hp|by rewrite bool_decide_eq_false_2 by exact Hp].
    rewrite Hv, Hmust; [done|]. apply Hpins. by apply elem_of_dom. }
  split.
  - intros key e He. pose proof (Hmain key) as Hke. pose proof (merge_pins_spec pins kept pe key) as Hke'.
    rewrite He in Hke, Hke'. cbn [fmap option_fmap option_map] in Hke, Hke'. destruct (decide (is_Some (pins !! key))) as [Hp|Hp];
      [rewrite bool_decide_eq_true_2 in Hke |- * by exact Hp|rewrite bool_decide_eq_false_2 in Hke |- * by exact Hp].
    + split_and!; [| |done].
      * destruct (kept !! key) as [h|] eqn:Eh; [by eapply Hk|]. destruct (pe !! key) as [q|] eqn:Eq; [by eapply Hgood|done].
      * eapply merged_nonneg; [| |symmetry; exact Hke]; intros h; [apply Hnn|]. by apply (value_total_nonneg printable property_count limit).
    + destruct (kept !! key) as [h|] eqn:Eh; [|done]. destruct (Hk key h Eh) as [Hgk Ht]. cbn in Hke. injection Hke as ->.
      split_and!; [done|by eapply Hnn|done].
  - intros key Hin. rewrite Hmain. destruct (bool_decide (is_Some (pins !! key))); [done|by apply Hmust].
Qed.

(** What the fold promises of a bucket. *)
Record folded (at_ : datetime) (bucket_seconds version : Z) (grouped totals : PwBucketOutcome)
    (pinned_outcome : option PwBucketOutcome) (pins : gmap text (list text)) (tracked : gset text) (f : PwBucketFact) : Prop := {
  fo_ok : fact_ok f;
  fo_start : bf_bucket_start f = at_ ∧ bf_bucket_seconds f = bucket_seconds ∧ bf_watch_version f = version;
  fo_values_state : bf_values_measurement f = values_state grouped;
  fo_pinned_state : bf_pinned_measurement f = pinned_state pinned_outcome;
  fo_distinct : NoDup (vf_value_key <$> bf_values f);
  fo_listed : Forall (λ v, good_key (vf_value_key v) ∧ 0 <= vf_events v ∧
                           shown pins grouped pinned_outcome (vf_value_key v) = Some (vf_events v)) (bf_values f);
  fo_kept : ∀ key n, key ∈ tracked ∨ is_Some (pins !! key) → shown pins grouped pinned_outcome key = Some n →
              (key, n) ∈ (λ v, (vf_value_key v, vf_events v)) <$> bf_values f;
  fo_whole : oc_state grouped = CELL_COMPLETE →
    bf_parsed_events f = Some (parsed_total printable limit (oc_rows grouped)) ∧
    ∃ u, bf_untracked_events f = Some u ∧ value_events (bf_values f) + u = parsed_total printable limit (oc_rows grouped);
  fo_total : ∀ t, bf_total_events f = Some t → oc_state totals = CELL_COMPLETE ∧ t = sum_Z (kr_events <$> oc_rows totals) }.

(** The merge of the pinned search, as the fold writes it. *)
Lemma merge_step pins grouped pinned_outcome at_ kept total :
  map_events kept <= total → 0 <= total →
  match pinned_outcome with Some o => outcome_ok property_count PINNED at_ o | None => True end →
  ∃ entries parsed,
    match pinned_outcome with
    | Some o =>
        if measured o && negb (bool_decide (oc_state grouped = CELL_COMPLETE)) then
          pinned_sums <- sum_rows printable (oc_rows o) property_count limit ;;
          let kept := merge_pins pins kept pinned_sums.1 in
          Ok (kept, match if measured grouped then Some total else None with
                    | Some p => Some (Z.max p (total_events (map_to_list kept))) | None => None end)
        else Ok (kept, if measured grouped then Some total else None)
    | None => Ok (kept, if measured grouped then Some total else None)
    end = Ok (entries, parsed) ∧
    match pinned_outcome with
    | Some o => if measured o && negb (bool_decide (oc_state grouped = CELL_COMPLETE))
                then outcome_ok property_count PINNED at_ o ∧ ∃ pinned_entries p,
                       sum_rows printable (oc_rows o) property_count limit = Ok (pinned_entries, p) ∧ entries = merge_pins pins kept pinned_entries
                else entries = kept
    | None => entries = kept
    end ∧
    (measured grouped = true → ∃ p, parsed = Some p ∧ 0 <= p ∧ map_events entries <= p) ∧
    (measured grouped = false → parsed = None) ∧
    (oc_state grouped = CELL_COMPLETE → entries = kept ∧ parsed = Some total).
Proof using Hsep Hlimit.
  intros Hle Htot Ho.
  assert (Hplain : (measured grouped = true → ∃ p, (if measured grouped then Some total else None) = Some p ∧ 0 <= p ∧ map_events kept <= p) ∧
    (measured grouped = false → (if measured grouped then Some total else None) = None) ∧
    (oc_state grouped = CELL_COMPLETE → kept = kept ∧ (if measured grouped then Some total else None) = Some total)).
  { split_and!; [intros ->; by exists total|by intros ->|]. intros E%measured_complete. by rewrite E. }
  destruct pinned_outcome as [o|]; [|by do 2 eexists].
  destruct (measured o && negb (bool_decide (oc_state grouped = CELL_COMPLETE))) eqn:Eact; [|by do 2 eexists].
  pose proof (outcome_rows_ok _ _ _ _ (λ H : PINNED = TOTALS, ltac:(discriminate H)) Ho) as Hrows.
  destruct (sum_rows_spec printable Hsep property_count max_length limit Hlimit _ Hrows) as (m & Hs & _). rewrite Hs. cbn [res_bind fst].
  do 2 eexists. split; [reflexivity|]. split; [split; [exact Ho|]; by do 2 eexists|]. split_and!.
  - intros ->. eexists. split; [reflexivity|]. unfold map_events. lia.
  - by intros ->.
  - intros E. rewrite E, andb_false_r in Eact. discriminate Eact.
Qed.

Lemma fold_bucket_folded at_ bucket_seconds version grouped totals pinned_outcome pinned pins tracked max_values :
  pinned_value_keys printable pinned property_count limit = Ok pins → 1 <= max_values → 0 < bucket_seconds → 1 <= version →
  outcome_ok property_count GROUPED at_ grouped → outcome_ok property_count TOTALS at_ totals →
  match pinned_outcome with Some o => pins ≠ ∅ ∧ outcome_ok property_count PINNED at_ o | None => pins = ∅ end →
  ∃ f, fold_bucket printable at_ bucket_seconds version property_count grouped totals pinned_outcome pinned tracked max_values max_length = Ok f ∧
       folded at_ bucket_seconds version grouped totals pinned_outcome pins tracked f.
Proof using Hsep Hlimit.
  intros Hpins Hmax Hsec Hver Hg Ht Hp. unfold fold_bucket. rewrite (proj2 (Z.ltb_ge max_values 1)) by done. cbn [raise_if res_bind].
  rewrite Hlimit. cbn [res_bind]. rewrite (check_outcome_ok _ _ _ _ Hg), (check_outcome_ok _ _ _ _ Ht). cbn [res_bind].
  rewrite Hpins. cbn [res_bind].
  assert (Hgiven : Bool.eqb (negb (bool_decide (pins = ∅))) (bool_decide (is_Some pinned_outcome)) = true).
  { destruct pinned_outcome as [o|].
    - destruct Hp as [Hp _]. rewrite (bool_decide_eq_false_2 _ Hp). done.
    - subst pins. done. }
  rewrite Hgiven. cbn [negb raise_if res_bind].
  assert (Hcheck : match pinned_outcome with Some o => check_outcome o PINNED at_ | None => Ok tt end = Ok tt).
  { destruct pinned_outcome as [o|]; [|done]. destruct Hp as [_ Hp]. by eapply check_outcome_ok. }
  rewrite Hcheck. cbn [res_bind].
  pose proof (outcome_rows_ok _ _ _ _ (λ H : GROUPED = TOTALS, ltac:(discriminate H)) Hg) as Hrows.
  destruct (sum_rows_spec printable Hsep property_count max_length limit Hlimit _ Hrows) as (entries & Hs & _ & _ & _). rewrite Hs.
  cbn [res_bind]. destruct (keep_values entries (tracked ∪ dom pins) (Z.to_nat max_values)) as [kept tail] eqn:Hkeep.
  destruct (grouped_kept _ _ _ _ _ _ _ _ Hg Hs Hkeep) as (_ & Hpn & Htn & Hsum & Hk & Hmust & Hnone).
  assert (Hkept0 : (if bool_decide (values_state grouped = PB_NOT_COLLECTED) then ∅ else kept) = kept).
  { clear Hgiven. case_bool_decide as E; [|done]. symmetry. apply Hnone. rewrite values_state_measured, E. done. }
  rewrite Hkept0.
  assert (Hpo : match pinned_outcome with Some o => outcome_ok property_count PINNED at_ o | None => True end)
    by (destruct pinned_outcome; [apply Hp|done]).
  destruct (merge_step pins grouped pinned_outcome at_ kept (parsed_total printable limit (oc_rows grouped)) ltac:(lia) Hpn Hpo) as (m & parsed & Hm & Hcase & Hmeas & Hunm & Hwhole).
  cbv zeta in Hm |- *. rewrite Hm. cbn [res_bind].
  destruct (merged_kept pins grouped pinned_outcome at_ _ kept m Hg Hk Hmust ltac:(set_solver) Hcase) as (Hlist & Hfull).
  destruct (total_of_ok _ _ _ Ht) as [Htot Htnn]. rewrite Htot. cbn [res_bind]. clear Hm.
  destruct (value_facts_ok (by_rank m)) as (values & Hvalues & Hev).
  { apply Forall_forall. intros [key e] He%by_rank_elem. destruct (Hlist key e He) as (? & ? & _). done. }
  destruct (value_facts_events _ _ Hev) as [Hve Hkeys]. rewrite Hvalues. cbn [res_bind].
  assert (Hve' : value_events values = map_events m).
  { rewrite Hve. apply total_events_Permutation, by_rank_Permutation. }
  set (total := if (match _ with Some _ => _ | None => _ end : bool) then None else _).
  assert (Htotal : ∀ t, total = Some t → oc_state totals = CELL_COMPLETE ∧ t = sum_Z (kr_events <$> oc_rows totals) ∧
    ∀ p, parsed = Some p → p <= t).
  { intros t. subst total. destruct (decide (oc_state totals = CELL_COMPLETE)) as [E|E];
      [rewrite bool_decide_eq_true_2 by exact E|by rewrite bool_decide_eq_false_2 by exact E].
    destruct parsed as [p|]; [destruct (Z.ltb_spec (sum_Z (kr_events <$> oc_rows totals)) p); [done|]|]; intros [= <-]; split_and!; try done.
    by intros ? [= <-]. }
  clearbody total. set (f := make_fact _ _ _ _ _ _ _ _ _ _ _). assert (Hok : fact_ok f).
  { split; cbn -[value_events].
    - done.
    - done.
    - intros t E. destruct (Htotal t E) as (_ & -> & _). split; [by rewrite E|done].
    - intros p E. destruct (measured grouped) eqn:Em; [|by rewrite (Hunm eq_refl) in E].
      destruct (Hmeas eq_refl) as (q & Eq & Hq & Hle). rewrite Eq in E. injection E as <-.
      split; [done|]. split; [intros Ec; rewrite values_state_measured, bool_decide_eq_true_2 in Em by exact Ec; discriminate Em|].
      rewrite Hve'. destruct (decide (oc_state grouped = CELL_COMPLETE)) as [Ec|Ec];
        [rewrite bool_decide_eq_true_2 by exact Ec|rewrite bool_decide_eq_false_2 by exact Ec; cbn; lia].
      destruct (Hwhole Ec) as [-> Ep]. rewrite Ep in Eq. injection Eq as <-. cbn. lia.
    - intros E. destruct (measured grouped) eqn:Em.
      + destruct (Hmeas eq_refl) as (q & -> & _). by eexists.
      + rewrite values_state_measured in Em. rewrite bool_decide_eq_false_2 in Em by done. discriminate Em.
    - intros t p E Ep. destruct (Htotal t E) as (_ & _ & H). by apply H.
    - intros u. destruct (decide (oc_state grouped = CELL_COMPLETE)) as [Ec|Ec];
        [rewrite bool_decide_eq_true_2 by exact Ec|by rewrite bool_decide_eq_false_2 by exact Ec].
      intros [= <-]. split; [done|by apply values_state_exact]. }
  exists f. split; [by apply check_bucket_fact_ok|]. split; try done; cbn -[value_events].
  - rewrite Hkeys. apply by_rank_NoDup.
  - apply Forall_forall. intros v Hv. assert (Hin : (vf_value_key v, vf_events v) ∈ (λ x : text * Sum, (x.1, sm_events x.2)) <$> by_rank m).
    { rewrite <- Hev. apply list_elem_of_fmap. by exists v. }
    apply list_elem_of_fmap in Hin as ([key e] & [= -> ->] & He%by_rank_elem). by apply Hlist.
  - intros key n Hin Hsh. rewrite <- Hfull in Hsh by (apply elem_of_union; rewrite elem_of_dom; exact Hin).
    rewrite Hev. apply list_elem_of_fmap. destruct (m !! key) as [e|] eqn:E; [|done]. injection Hsh as <-.
    exists (key, e). split; [done|by apply by_rank_elem].
  - intros Ec. destruct (Hwhole Ec) as [-> ->]. split; [done|]. exists tail. rewrite bool_decide_eq_true_2 by exact Ec.
    split; [done|]. by rewrite Hve'.
  - intros t Et. destruct (Htotal t Et) as (? & ? & _). done.
Qed.
End Spec.

(** * What admission keeps, counts and admits *)


Definition fact_pairs (values : list PwValueFact) : list (text * Z) := (λ v, (vf_value_key v, vf_events v)) <$> values.

Definition keys_of (values : list PwValueFact) : list text := vf_value_key <$> values.

(** ** Lists of value facts *)

Lemma value_events_app l1 l2 : value_events (l1 ++ l2) = value_events l1 + value_events l2.
Proof. unfold value_events. by rewrite fmap_app, sum_Z_app. Qed.

Lemma value_events_Permutation l1 l2 : l1 ≡ₚ l2 → value_events l1 = value_events l2.
Proof. intros H. apply sum_Z_Permutation. by rewrite H. Qed.

Lemma value_events_nonneg l : Forall (λ v, 0 <= vf_events v) l → 0 <= value_events l.
Proof. intros H. by apply sum_Z_nonneg, Forall_fmap. Qed.

Lemma filter_agree {A} (P Q : A → Prop) `{!∀ x, Decision (P x), !∀ x, Decision (Q x)} (l : list A) :
  (∀ x, x ∈ l → P x ↔ Q x) → filter P l = filter Q l.
Proof.
  induction l as [|x l IH]; intros Hl; [done|]. rewrite !filter_cons, IH by (intros y Hy; apply Hl; by right).
  pose proof (Hl x ltac:(left)) as Hx. do 2 case_decide; tauto.
Qed.

Lemma fmap_sublist {A B} (f : A → B) (k l : list A) : k `sublist_of` l → f <$> k `sublist_of` f <$> l.
Proof. induction 1; cbn; by constructor. Qed.

(** A list with distinct keys is a part of it, and what has none of its keys. *)
Lemma keys_complement l k : NoDup (keys_of l) → k `sublist_of` l → k ++ filter (λ v, vf_value_key v ∉ keys_of k) l ≡ₚ l.
Proof.
  intros Hnd Hsub. assert (Hin : filter (λ v, vf_value_key v ∈ keys_of k) l = k).
  { revert Hnd. unfold keys_of. induction Hsub as [|x k l Hsub IH|x k l Hsub IH]; [done| |];
      intros [Hx Hnd]%NoDup_cons; rewrite filter_cons; case_decide as Ex.
    - f_equal. etrans; [|exact (IH Hnd)]. apply filter_agree. intros y Hy.
      rewrite fmap_cons, elem_of_cons. split; [|by right]. intros [E|E]; [|done]. destruct Hx. rewrite <- E. by apply list_elem_of_fmap_2.
    - destruct Ex. left.
    - destruct Hx. eapply elem_of_sublist; [exact Ex|by apply fmap_sublist].
    - by apply IH. }
  rewrite <- Hin at 1. apply filter_app_complement.
Qed.

(** ** Tracking *)

Definition same_tracking (v v' : TrackedValue) : Prop :=
  tv_active v' = tv_active v ∧ tv_tracked_since v' = tv_tracked_since v ∧ tv_tracked_until v' = tv_tracked_until v ∧
  tv_pinned v' = tv_pinned v.

#[export] Instance same_tracking_PreOrder : PreOrder same_tracking.
Proof. split; [by intros v|]. intros x y z (H1 & H2 & H3 & H4) (K1 & K2 & K3 & K4). split_and!; congruence. Qed.

Lemma observe_same at_ item v : same_tracking v (observe at_ item v).
Proof.
  unfold observe. destruct (tv_last_seen_at v) as [seen|]; [destruct (dt_us seen <? dt_us at_)|];
    destruct (vf_truncated item); cbn [andb]; try done; by destruct (negb _).
Qed.

Lemma observe_all at_ items values key :
  option_Forall2 same_tracking (values !! key) (foldl (observe_item at_) values items !! key).
Proof.
  induction items as [|item items IH] using rev_ind; [cbn; by destruct (values !! key); constructor|].
  rewrite foldl_snoc. unfold observe_item at 1. destruct (decide (vf_value_key item = key)) as [<-|Hne].
  - rewrite lookup_alter_eq. inversion IH as [x y Hxy E1 E2|E1 E2]; cbn; constructor. etrans; [exact Hxy|apply observe_same].
  - by rewrite lookup_alter_ne.
Qed.

Lemma is_active_same m m' key : option_Forall2 same_tracking (m !! key) (m' !! key) → is_active m' key = is_active m key.
Proof. unfold is_active. intros H. inversion H as [x y (Ha & _) E1 E2|E1 E2]; congruence. Qed.

(** A value as admission leaves it. *)
Definition just_admitted (at_ : datetime) (old : option TrackedValue) (v : TrackedValue) : Prop :=
  tv_active v = true ∧ tv_tracked_since v = Some at_ ∧ tv_tracked_until v = None ∧
  tv_pinned v = match old with Some o => tv_pinned o | None => false end.

Lemma admit_value_just at_ n item row : just_admitted at_ row (admit_value at_ n item row).
Proof. by destruct row. Qed.

Lemma admit_all at_ n items values key :
  if decide (key ∈ keys_of items) then ∃ v, foldl (update_item (admit_value at_ n)) values items !! key = Some v ∧ just_admitted at_ (values !! key) v
  else foldl (update_item (admit_value at_ n)) values items !! key = values !! key.
Proof.
  induction items as [|item items IH] using rev_ind; [done|]. rewrite foldl_snoc. unfold update_item at 1 3.
  set (m := foldl _ values items) in *. destruct (decide (vf_value_key item = key)) as [Ek|Hne].
  - rewrite decide_True by (unfold keys_of; rewrite fmap_app; apply elem_of_app; right; subst key; left).
    rewrite Ek, lookup_insert_eq. eexists. split; [done|]. destruct (admit_value_just at_ n item (m !! key)) as (H1 & H2 & H3 & H4).
    split_and!; try done. rewrite H4. destruct (decide (key ∈ keys_of items)); [|by rewrite IH].
    destruct IH as (v & -> & _ & _ & _ & ->). done.
  - rewrite lookup_insert_ne by done. unfold keys_of in *. rewrite fmap_app.
    destruct (decide (key ∈ vf_value_key <$> items)) as [Hin|Hout].
    + rewrite decide_True by (apply elem_of_app; by left). done.
    + rewrite decide_False; [done|]. rewrite elem_of_app. intros [?|E]; [done|]. apply list_elem_of_singleton in E. congruence.
Qed.

(** ** The active values *)

Definition active_keys (m : gmap text TrackedValue) : gset text := dom (filter (λ kv, tv_active kv.2 = true) m).

Lemma active_keys_elem m key : key ∈ active_keys m ↔ is_active m key = true.
Proof.
  unfold active_keys, is_active. rewrite elem_of_dom, map_lookup_filter. destruct (m !! key) as [v|]; cbn; [|by split; [intros []|]].
  case_guard as Hv; cbn; [by split; [|by eexists]|]. split; [by intros []|done].
Qed.

Lemma active_count_keys m : active_count m = Z.of_nat (size (active_keys m)).
Proof. unfold active_count, active_keys. by rewrite size_dom. Qed.

Lemma active_keys_admitted at_ n items values :
  active_keys (foldl (update_item (admit_value at_ n)) values items) = active_keys values ∪ list_to_set (keys_of items).
Proof.
  apply set_eq. intros key. rewrite elem_of_union, elem_of_list_to_set, !active_keys_elem. pose proof (admit_all at_ n items values key) as H.
  destruct (decide (key ∈ keys_of items)) as [Hin|Hout].
  - destruct H as (v & Hv & Ha & _). split; [by right|]. intros _. unfold is_active. by rewrite Hv.
  - unfold is_active. rewrite H. split; [by left|by intros [?|?]].
Qed.

Lemma active_count_admitted at_ n items values : NoDup (keys_of items) → Forall (λ v, is_active values (vf_value_key v) = false) items →
  active_count (foldl (update_item (admit_value at_ n)) values items) = active_count values + Z.of_nat (length items).
Proof.
  intros Hnd Hina. rewrite !active_count_keys, active_keys_admitted, size_union, size_list_to_set by
    first [done|intros key Hk Hin%elem_of_list_to_set; apply active_keys_elem in Hk; apply list_elem_of_fmap in Hin as (v & -> & Hv);
                rewrite Forall_forall in Hina; by rewrite Hina in Hk].
  unfold keys_of. rewrite length_fmap. lia.
Qed.

Lemma active_count_same m m' : (∀ key, is_active m' key = is_active m key) → active_count m' = active_count m.
Proof. intros H. rewrite !active_count_keys. do 2 f_equal. apply set_eq. intros key. by rewrite !active_keys_elem, H. Qed.

(** ** A bucket's split *)

Section Split.
Context (values : gmap text TrackedValue) (listed : list PwValueFact) (min_events : Z) (quota : nat).
Context (Hdistinct : NoDup (keys_of listed)) (Hevents : Forall (λ v, 0 <= vf_events v) listed).

Let tracked_now := filter (λ item, is_active values (vf_value_key item) = true) listed.
Let candidates := filter (λ item, is_active values (vf_value_key item) = false) listed.
Let admitted := take quota (filter (λ c, min_events <= vf_events c) candidates).

Lemma split_listed : tracked_now ++ candidates ≡ₚ listed.
Proof using.
  unfold tracked_now, candidates. rewrite <- (filter_app_complement (λ item, is_active values (vf_value_key item) = true) listed) at 3.
  f_equiv. erewrite filter_agree; [reflexivity|]. intros v _. cbn. by rewrite not_true_iff_false.
Qed.

Lemma admitted_sub : admitted `sublist_of` candidates.
Proof using. unfold admitted. etrans; [apply sublist_take|]. apply sublist_filter. Qed.

Lemma candidates_distinct : NoDup (keys_of candidates).
Proof using Hdistinct.
  eapply sublist_NoDup; [exact Hdistinct|]. apply fmap_sublist. unfold candidates. apply sublist_filter.
Qed.

Lemma candidate_inactive v : v ∈ candidates → is_active values (vf_value_key v) = false.
Proof using. by intros [? _]%list_elem_of_filter. Qed.

Lemma admitted_inactive : Forall (λ v, is_active values (vf_value_key v) = false) admitted.
Proof using. apply Forall_forall. intros v Hv. apply candidate_inactive. eapply elem_of_sublist; [exact Hv|apply admitted_sub]. Qed.

Lemma kept_sub : ∃ rest, (tracked_now ++ admitted) ++ rest ≡ₚ listed ∧
  rest = filter (λ c, vf_value_key c ∉ keys_of (tracked_now ++ admitted)) candidates.
Proof using Hdistinct.
  exists (filter (λ c, vf_value_key c ∉ keys_of admitted) candidates). split.
  - rewrite <- app_assoc. rewrite (keys_complement _ _ candidates_distinct admitted_sub). apply split_listed.
  - apply filter_agree. intros v Hv. unfold keys_of at 2. rewrite fmap_app, elem_of_app. split; [|tauto].
    intros Hout [(w & Ek & [Hw _]%list_elem_of_filter)%list_elem_of_fmap|?]; [|done].
    rewrite <- Ek, candidate_inactive in Hw by done. done.
Qed.

Lemma kept_distinct : NoDup (keys_of (tracked_now ++ admitted)).
Proof using Hdistinct.
  destruct kept_sub as (rest & Hp & _). assert (H : NoDup (keys_of ((tracked_now ++ admitted) ++ rest))).
  { unfold keys_of. by rewrite Hp. }
  unfold keys_of in *. rewrite fmap_app in H. by apply NoDup_app in H as (? & _).
Qed.

Lemma kept_elem v : v ∈ tracked_now ++ admitted → v ∈ listed.
Proof using Hdistinct. destruct kept_sub as (rest & Hp & _). intros H. rewrite <- Hp. apply elem_of_app. by left. Qed.

Lemma kept_admitted v : is_active values (vf_value_key v) = false → v ∈ tracked_now ++ admitted → v ∈ admitted ∧ min_events <= vf_events v.
Proof using.
  intros Hi [[Ha _]%list_elem_of_filter|Hv]%elem_of_app; [congruence|]. split; [done|].
  apply (elem_of_sublist _ (filter (λ c, min_events <= vf_events c) candidates)) in Hv; [|apply sublist_take].
  by apply list_elem_of_filter in Hv as [? _].
Qed.

(** Nothing is lost: what is kept and what is dropped are what was listed. *)
Lemma kept_conserves : value_events (tracked_now ++ admitted) +
  value_events (filter (λ c, vf_value_key c ∉ keys_of (tracked_now ++ admitted)) candidates) = value_events listed.
Proof using Hdistinct.
  destruct kept_sub as (rest & Hp & <-). rewrite <- value_events_app. by apply value_events_Permutation.
Qed.

Lemma kept_events_nonneg : 0 <= value_events (tracked_now ++ admitted) ∧
  0 <= value_events (filter (λ c, vf_value_key c ∉ keys_of (tracked_now ++ admitted)) candidates).
Proof using Hdistinct Hevents.
  destruct kept_sub as (rest & Hp & <-). rewrite <- Hp in Hevents. apply Forall_app in Hevents as [H1 H2].
  split; by apply value_events_nonneg.
Qed.
End Split.

(** * Admission conserves the events, and stays within its bounds *)


(** What admission promises of a bucket. *)
Record admitted_ok (policy : PwAdmissionPolicy) (f : PwBucketFact) (values : gmap text TrackedValue)
    (b : AdmittedBucket) (values' : gmap text TrackedValue) : Prop := {
  ad_fact : fact_ok (ab_fact b);
  ad_same : bf_bucket_start (ab_fact b) = bf_bucket_start f ∧ bf_values_measurement (ab_fact b) = bf_values_measurement f ∧
            bf_pinned_measurement (ab_fact b) = bf_pinned_measurement f ∧
            bf_total_events (ab_fact b) = bf_total_events f ∧ bf_parsed_events (ab_fact b) = bf_parsed_events f;
  ad_conserves : ∀ u, bf_untracked_events f = Some u → ∃ u', bf_untracked_events (ab_fact b) = Some u' ∧
                   value_events (bf_values (ab_fact b)) + u' = value_events (bf_values f) + u;
  ad_rows : ab_metrics b = list_to_map (fact_pairs (bf_values (ab_fact b))) ∧ NoDup (keys_of (bf_values (ab_fact b)));
  ad_from : ∀ key n, ab_metrics b !! key = Some n → (key, n) ∈ fact_pairs (bf_values f);
  ad_tracked : ∀ key n, is_active values key = true → (key, n) ∈ fact_pairs (bf_values f) → ab_metrics b !! key = Some n;
  ad_new : ∀ key n, is_active values key = false → ab_metrics b !! key = Some n → po_min_events policy <= n;
  ad_value : ∀ key,
    if bool_decide (is_active values key = false ∧ is_Some (ab_metrics b !! key))
    then ∃ v, values' !! key = Some v ∧ just_admitted (bf_bucket_start f) (values !! key) v
    else option_Forall2 same_tracking (values !! key) (values' !! key);
  ad_bound : active_count values' <= Z.max (active_count values) (po_max_active policy) ∧
             active_count values' - active_count values <= po_max_new_per_bucket policy }.

(** The fact that admission stores is one [PwBucketFact] accepts. *)
Lemma admitted_fact_ok f kept dropped tracked admitted below rejected : fact_ok f →
  bf_values_measurement f ≠ PB_NOT_COLLECTED → 0 <= dropped → 0 <= value_events kept →
  value_events kept + dropped = value_events (bf_values f) →
  fact_ok (admitted_fact f kept dropped tracked admitted below rejected).
Proof.
  intros [Hs Hv Ht Hp Hm Ho Hu] Hne Hd Hk Hsum. split; cbn -[value_events]; try done.
  - intros p E. destruct (Hp p E) as (H1 & H2 & H3). split_and!; [done|done|]. destruct (bf_untracked_events f); cbn in *; lia.
  - intros u. destruct (bf_untracked_events f) as [w|]; [|done]. intros [= <-]. destruct (Hu w eq_refl). split; [lia|done].
Qed.

Lemma pair_elem values (v : PwValueFact) : v ∈ values → (vf_value_key v, vf_events v) ∈ fact_pairs values.
Proof. intros H. apply list_elem_of_fmap. by exists v. Qed.

Lemma fact_pairs_fst values : (fact_pairs values).*1 = keys_of values.
Proof. unfold fact_pairs, keys_of. by rewrite <- list_fmap_compose. Qed.

(** The metrics of a list with distinct keys. *)
Lemma metrics_lookup values key n : NoDup (keys_of values) →
  (list_to_map (fact_pairs values) : gmap text Z) !! key = Some n ↔ (key, n) ∈ fact_pairs values.
Proof. intros H. symmetry. apply elem_of_list_to_map. by rewrite fact_pairs_fst. Qed.

Lemma admit_bucket_ok f values policy property_count : fact_ok f → bf_values_measurement f ≠ PB_NOT_COLLECTED →
  NoDup (keys_of (bf_values f)) → Forall (λ v, 0 <= vf_events v) (bf_values f) → check_policy policy = Ok tt →
  ∃ b values', admit_bucket f values policy property_count = Ok (b, values') ∧ admitted_ok policy f values b values'.
Proof.
  intros Hok Hne Hd Hev Hpol. unfold admit_bucket. rewrite bool_decide_eq_false_2 by exact Hne. cbv zeta.
  set (tn := filter (λ item, is_active values (vf_value_key item) = true) (bf_values f)).
  set (cd := filter (λ item, is_active values (vf_value_key item) = false) (bf_values f)).
  set (values1 := foldl (observe_item (bf_bucket_start f)) values tn).
  assert (Hobs : ∀ key, option_Forall2 same_tracking (values !! key) (values1 !! key)) by (intros; apply observe_all).
  assert (Hact : active_count values1 = active_count values).
  { apply active_count_same. intros key. by apply is_active_same. }
  set (quota := Z.to_nat (Z.min (po_max_new_per_bucket policy) (Z.max 0 (po_max_active policy - active_count values1)))).
  set (adm := take quota (filter (λ c, po_min_events policy <= vf_events c) cd)).
  destruct (kept_events_nonneg values (bf_values f) (po_min_events policy) quota Hd Hev) as [Hk0 Hd0].
  pose proof (kept_conserves values (bf_values f) (po_min_events policy) quota Hd) as Hsum.
  pose proof (kept_distinct values (bf_values f) (po_min_events policy) quota Hd) as Hkd.
  pose proof (admitted_inactive values (bf_values f) (po_min_events policy) quota) as Hina.
  pose proof (kept_elem values (bf_values f) (po_min_events policy) quota Hd) as Hkl.
  pose proof (kept_admitted values (bf_values f) (po_min_events policy) quota) as Hka.
  fold tn cd in Hk0, Hd0, Hsum, Hkd, Hina, Hkl, Hka. fold adm in Hk0, Hd0, Hsum, Hkd, Hina, Hkl, Hka.
  assert (Hquota : Z.of_nat (length adm) <= po_max_new_per_bucket policy ∧
    active_count values + Z.of_nat (length adm) <= Z.max (active_count values) (po_max_active policy)).
  { assert (Hl : (length adm <= quota)%nat) by (unfold adm; rewrite length_take; lia). unfold quota in Hl. rewrite Hact in Hl.
    unfold check_policy in Hpol. destruct (raise_if (_ || _ || _) _) in Hpol; [|discriminate Hpol]. cbn in Hpol. destruct (Z.ltb_spec (po_max_new_per_bucket policy) 0); [discriminate Hpol|]. lia. }
  change (vf_value_key <$> tn ++ adm) with (keys_of (tn ++ adm)). rewrite check_bucket_fact_ok by by apply admitted_fact_ok.
  cbn [res_bind]. do 2 eexists. split; [reflexivity|].
  assert (Hmet : ∀ key n, (list_to_map (fact_pairs (tn ++ adm)) : gmap text Z) !! key = Some n ↔ (key, n) ∈ fact_pairs (tn ++ adm)).
  { intros. by apply metrics_lookup. }
  assert (Hadm : ∀ key, is_active values key = false ∧ is_Some ((list_to_map (fact_pairs (tn ++ adm)) : gmap text Z) !! key) ↔ key ∈ keys_of adm).
  { intros key. split.
    - intros (Hi & n & Hn%Hmet). apply list_elem_of_fmap in Hn as (v & [= -> ->] & Hv). apply list_elem_of_fmap. exists v. split; [done|]. by apply Hka.
    - intros (v & -> & Hv)%list_elem_of_fmap. rewrite Forall_forall in Hina. split; [by apply Hina|]. exists (vf_events v). apply Hmet, pair_elem.
      apply elem_of_app. by right. }
  split; cbn [ab_fact ab_metrics].
  - by apply admitted_fact_ok.
  - done.
  - intros u Hu. eexists. cbn -[value_events]. rewrite Hu. split; [reflexivity|]. lia.
  - done.
  - intros key n Hn%Hmet. apply list_elem_of_fmap in Hn as (v & [= -> ->] & Hv). by apply pair_elem, Hkl.
  - intros key n Hk Hn. apply Hmet. apply list_elem_of_fmap in Hn as (v & [= -> ->] & Hv). apply pair_elem, elem_of_app. left.
    by apply list_elem_of_filter.
  - intros key n Hk Hn%Hmet. apply list_elem_of_fmap in Hn as (v & [= -> ->] & Hv). by apply Hka.
  - intros key. pose proof (admit_all (bf_bucket_start f) property_count adm values1 key) as H. specialize (Hobs key).
    destruct (decide (key ∈ keys_of adm)) as [Hin|Hout].
    + rewrite bool_decide_eq_true_2 by by apply Hadm. destruct H as (v & Hv & H1 & H2 & H3 & H4). exists v. split; [done|]. split_and!; try done.
      rewrite H4. inversion Hobs as [x y (_ & _ & _ & E) E1 E2|E1 E2]; [exact E|done].
    + rewrite bool_decide_eq_false_2 by by rewrite Hadm. by rewrite H.
  - rewrite active_count_admitted; [rewrite Hact; lia| |].
    + unfold keys_of in *. rewrite fmap_app in Hkd. by apply NoDup_app in Hkd as (_ & _ & ?).
    + eapply Forall_impl; [exact Hina|]. intros v Hv. by rewrite (is_active_same values).
Qed.
