(* ===== verification/PwTickTheorems.v ===== *)
(** * One tick of property-watch collection

    What the value rows say of a bucket, bucket by bucket: the invariant that a value tracked at
    a bucket has exactly the metric the searches showed. *)

From S2P Require Import Prelude PyStr PyFloat PyTime PyJson Enums PwFacts PwSearch PwFold PwAdmission PwAdmitTheorems.

(** ** Rows over time *)

(** A row's tracking period: open while it is active, closed before [at_] otherwise. *)
Definition tidy_value (at_ : datetime) (v : TrackedValue) : Prop :=
  if tv_active v then tv_tracked_until v = None else ∃ u, tv_tracked_until v = Some u ∧ dt_us u < dt_us at_.

Definition tidy (at_ : datetime) (values : gmap text TrackedValue) : Prop := map_Forall (λ _, tidy_value at_) values.

(** The pinned flag of the rows is the watch's pins, and every pin is tracked. *)
Definition pins_agree (pins : gmap text (list text)) (values : gmap text TrackedValue) : Prop :=
  map_Forall (λ key v, tv_pinned v = bool_decide (is_Some (pins !! key))) values ∧
  ∀ key, is_Some (pins !! key) → is_active values key = true.

Lemma tracked_at_same v v' at_ : same_tracking v v' → tracked_at v' at_ = tracked_at v at_.
Proof. intros (_ & Hs & Hu & _). unfold tracked_at. by rewrite Hs, Hu. Qed.

Lemma tidy_value_same at_ v v' : same_tracking v v' → tidy_value at_ v → tidy_value at_ v'.
Proof. intros (Ha & _ & Hu & _). unfold tidy_value. by rewrite Ha, Hu. Qed.

Lemma tidy_value_later at_ at' v : dt_us at_ <= dt_us at' → tidy_value at_ v → tidy_value at' v.
Proof. unfold tidy_value. destruct (tv_active v); [done|]. intros H (u & Hu & Hlt). exists u. split; [done|lia]. Qed.

Lemma tidy_later at_ at' values : dt_us at_ <= dt_us at' → tidy at_ values → tidy at' values.
Proof. intros H Ht key v Hv. eapply tidy_value_later; [done|]. by eapply Ht. Qed.

(** A row tracked at [at_] is active: closed periods end before it. *)
Lemma tracked_active at_ v : tidy_value at_ v → tracked_at v at_ = true → tv_active v = true.
Proof.
  unfold tidy_value, tracked_at. destruct (tv_active v); [done|]. intros (u & -> & Hu).
  destruct (tv_tracked_since v); [|done]. intros [_ H]%andb_true_iff. apply Z.leb_le in H. lia.
Qed.

(** ** Retirement *)

Lemma retire_lookup values at_ policy key : (retire_stale values at_ policy).1 !! key =
  (λ v, if is_stale at_ policy v then retire at_ v else v) <$> values !! key.
Proof. cbn. by rewrite lookup_fmap. Qed.

Lemma stale_active at_ policy v : is_stale at_ policy v = true → tv_active v = true ∧ tv_pinned v = false.
Proof. unfold is_stale. destruct (tv_active v), (tv_pinned v); done. Qed.

(** A period that is closed was open up to then. *)
Lemma retire_tracked at_ at' policy v at0 : tidy_value at' v → dt_us at0 <= dt_us at_ →
  tracked_at (if is_stale at_ policy v then retire at_ v else v) at0 = tracked_at v at0.
Proof.
  intros Ht Hle. destruct (is_stale at_ policy v) eqn:E; [|done]. apply stale_active in E as [Ha _].
  unfold tidy_value in Ht. rewrite Ha in Ht. unfold tracked_at. cbn. rewrite Ht. destruct (tv_tracked_since v); [|done].
  by rewrite (proj2 (Z.leb_le _ _) Hle).
Qed.

Lemma retire_tidy at_ at' policy values : dt_us at_ < dt_us at' → tidy at' values → tidy at' (retire_stale values at_ policy).1.
Proof.
  intros Hlt Ht key v. rewrite retire_lookup. destruct (values !! key) as [w|] eqn:E; [|done]. intros [= <-].
  destruct (is_stale at_ policy w); [|by eapply Ht]. unfold tidy_value. cbn. by exists at_.
Qed.

Lemma retire_pins pins at_ policy values : pins_agree pins values → pins_agree pins (retire_stale values at_ policy).1.
Proof.
  intros [Hp Ha]. split.
  - intros key v. rewrite retire_lookup. destruct (values !! key) as [w|] eqn:E; [|done]. intros [= <-].
    specialize (Hp key w E). by destruct (is_stale at_ policy w).
  - intros key Hk. specialize (Ha key Hk). unfold is_active in *. rewrite retire_lookup. destruct (values !! key) as [w|] eqn:E; [|done].
    cbn. destruct (is_stale at_ policy w) eqn:Es; [|done]. apply stale_active in Es as [_ Hn]. specialize (Hp key w E).
    cbv beta in Hp. rewrite Hn, bool_decide_eq_true_2 in Hp by done. discriminate Hp.
Qed.

Lemma retire_count at_ policy values : active_count (retire_stale values at_ policy).1 <= active_count values.
Proof.
  rewrite !active_count_keys. apply inj_le, subseteq_size. intros key. rewrite !active_keys_elem. unfold is_active.
  rewrite retire_lookup. destruct (values !! key) as [v|]; [|done]. cbn. by destruct (is_stale at_ policy v).
Qed.

(** ** Pins *)

Lemma sync_lookup values pins at_ key : sync_pins values pins at_ !! key =
  match pins !! key with Some c => Some (sync_pin at_ c (values !! key)) | None => unpin <$> values !! key end.
Proof. unfold sync_pins. rewrite lookup_merge. by destruct (values !! key), (pins !! key). Qed.

(** A pinned value is tracked from the first bucket of the tick. *)
Lemma sync_pinned values pins at_ key : is_Some (pins !! key) → is_active (sync_pins values pins at_) key = true.
Proof.
  intros [c Hc]. unfold is_active. rewrite sync_lookup, Hc. destruct (values !! key) as [w|]; [|done]. cbn.
  destruct (tv_pinned w), (tv_active w) eqn:E; cbn; by rewrite ?E.
Qed.

Lemma sync_pins_agree values pins at_ : pins_agree pins (sync_pins values pins at_).
Proof.
  split; [|intros key; apply sync_pinned]. intros key v. rewrite sync_lookup. destruct (pins !! key) as [c|].
  - intros [= <-]. rewrite bool_decide_eq_true_2 by by eexists. destruct (values !! key) as [w|]; [|done]. cbn.
    destruct (tv_pinned w) eqn:E1; cbn; destruct (tv_active w); done.
  - destruct (values !! key) as [w|]; [|done]. cbn. intros [= <-]. change (tv_pinned (unpin w) = false).
    unfold unpin. by destruct (tv_pinned w) eqn:E.
Qed.

Lemma sync_tidy values pins at_ : tidy at_ values → tidy at_ (sync_pins values pins at_).
Proof.
  intros Ht key v. rewrite sync_lookup. destruct (values !! key) as [w|] eqn:E; cbn.
  - specialize (Ht key w E). unfold tidy_value in *. destruct (pins !! key); intros [= <-].
    + destruct (tv_active w) eqn:Ea, (tv_pinned w); cbn; rewrite ?Ea; cbn; rewrite ?Ea; done.
    + unfold unpin. by destruct (tv_pinned w).
  - destruct (pins !! key); [|done]. by intros [= <-].
Qed.

(** * A tick of property-watch collection is honest

    For every bucket a tick stores and every value row it leaves: a value tracked at the bucket
    has exactly the events the searches showed, so a missing metric is a zero the searches
    measured or a state in which nothing is claimed. *)


Definition bucket_at (b : BucketSearches) : datetime := oc_bucket_start (bs_grouped b).

(** A bucket whose searches completed. *)
Record bucket_ok (property_count : nat) (pins : gmap text (list text)) (b : BucketSearches) : Prop := {
  bk_grouped : outcome_ok property_count GROUPED (bucket_at b) (bs_grouped b);
  bk_totals : outcome_ok property_count TOTALS (bucket_at b) (bs_totals b);
  bk_pinned : match bs_pinned b with Some o => pins ≠ ∅ ∧ outcome_ok property_count PINNED (bucket_at b) o | None => pins = ∅ end;
  bk_completed : completed b = true }.

Definition shown_in (printable : N → bool) (limit : Z) (pins : gmap text (list text)) (b : BucketSearches) (key : text) : option Z :=
  shown printable limit pins (bs_grouped b) (bs_pinned b) key.

(** What the stored bucket and the value rows say is what the searches showed. *)
Record honest (printable : N → bool) (limit : Z) (pins : gmap text (list text)) (values : gmap text TrackedValue)
    (b : BucketSearches) (a : AdmittedBucket) : Prop := {
  hn_fact : fact_ok (ab_fact a);
  hn_states : bf_bucket_start (ab_fact a) = bucket_at b ∧ bf_values_measurement (ab_fact a) = values_state (bs_grouped b) ∧
              bf_pinned_measurement (ab_fact a) = pinned_state (bs_pinned b);
  hn_metrics : ab_metrics a = list_to_map (fact_pairs (bf_values (ab_fact a))) ∧ NoDup (keys_of (bf_values (ab_fact a)));
  hn_rows : ∀ key n, ab_metrics a !! key = Some n → 0 <= n ∧ shown_in printable limit pins b key = Some n;
  hn_values : ∀ key v, values !! key = Some v → tracked_at v (bucket_at b) = true → ab_metrics a !! key = shown_in printable limit pins b key;
  hn_whole : oc_state (bs_grouped b) = CELL_COMPLETE → ∃ u, bf_untracked_events (ab_fact a) = Some u ∧
    value_events (bf_values (ab_fact a)) + u = parsed_total printable limit (oc_rows (bs_grouped b)) }.

Lemma honest_values printable limit pins values values' b a :
  (∀ key v, values' !! key = Some v → tracked_at v (bucket_at b) = true →
     ∃ w, values !! key = Some w ∧ tracked_at w (bucket_at b) = true) →
  honest printable limit pins values b a → honest printable limit pins values' b a.
Proof.
  intros H [H1 H2 H3 H4 H5 H6]. split; [done..| |done]. intros key v Hv Ht. destruct (H key v Hv Ht) as (w & Hw & Htw). by eapply H5.
Qed.

Lemma with_scope_ok c f : fact_ok f → fact_ok (with_scope c f).
Proof. by intros [H1 H2 H3 H4 H5 H6 H7]. Qed.

Lemma pair_key values key n : (key, n) ∈ fact_pairs values → ∃ v, v ∈ values ∧ vf_value_key v = key ∧ vf_events v = n.
Proof. intros (v & [= -> ->] & Hv)%list_elem_of_fmap. by exists v. Qed.

Lemma folded_scope printable limit at_ bucket_seconds version grouped totals pinned_outcome pins tracked c f :
  folded printable limit at_ bucket_seconds version grouped totals pinned_outcome pins tracked f →
  folded printable limit at_ bucket_seconds version grouped totals pinned_outcome pins tracked (with_scope c f).
Proof. intros [H1 H2 H3 H4 H5 H6 H7 H8 H9]. split; try done. by apply with_scope_ok. Qed.

(** What retirement leaves of rows that are tidy after a bucket. *)
Lemma retire_keeps pins at_ policy values : (∀ at', dt_us at_ < dt_us at' → tidy at' values) → pins_agree pins values →
  pins_agree pins (retire_stale values at_ policy).1 ∧
  (∀ at', dt_us at_ < dt_us at' → tidy at' (retire_stale values at_ policy).1) ∧
  (∀ key v at0, dt_us at0 <= dt_us at_ → (retire_stale values at_ policy).1 !! key = Some v → tracked_at v at0 = true →
     ∃ w, values !! key = Some w ∧ tracked_at w at0 = true) ∧
  active_count (retire_stale values at_ policy).1 <= active_count values.
Proof.
  intros Ht Hp. split_and!; [by apply retire_pins|intros at' Hlt; apply retire_tidy; [done|by apply Ht]| |apply retire_count].
  intros key v at0 Hle. rewrite retire_lookup. destruct (values !! key) as [w|] eqn:E; [|done]. intros [= <-] Hv. exists w. split; [done|].
  erewrite <- retire_tracked; [exact Hv| |exact Hle]. refine (Ht (dt_add at_ 1) _ key w E). unfold dt_add. cbn. lia.
Qed.

Section Tick.
Context (printable : N → bool) (Hsep : printable TUPLE_SEPARATOR = false).
Context (ws : WatchSettings) (version : Z) (property_count : nat) (pinned : list (list text)) (reading : bool).
Context (limit : Z) (pins : gmap text (list text)).
Context (Hlimit : component_limit property_count (ws_value_max_length ws) = Ok limit)
  (Hpins : pinned_value_keys printable pinned property_count limit = Ok pins) (Hpolicy : check_policy (ws_policy ws) = Ok tt)
  (Hmax : 1 <= ws_max_values ws) (Hseconds : 0 < ws_bucket_seconds ws) (Hversion : 1 <= version).

Local Abbreviation honest' := (honest printable limit pins).

(** What a step leaves of the rows, before any retirement. *)
Lemma admitted_rows f values b a values1 : tidy (bucket_at b) values → pins_agree pins values → bf_bucket_start f = bucket_at b →
  admitted_ok (ws_policy ws) f values a values1 →
  pins_agree pins values1 ∧ (∀ at', dt_us (bucket_at b) < dt_us at' → tidy at' values1) ∧
  (∀ key v at0, dt_us at0 < dt_us (bucket_at b) → values1 !! key = Some v → tracked_at v at0 = true →
     ∃ w, values !! key = Some w ∧ tracked_at w at0 = true) ∧
  (∀ key v, values1 !! key = Some v → tracked_at v (bucket_at b) = true → is_active values key = true ∨ is_Some (ab_metrics a !! key)).
Proof.
  intros Htidy Hagree Hstart Ha.
  assert (Hcase : ∀ key v, values1 !! key = Some v →
    (∃ w, values !! key = Some w ∧ same_tracking w v) ∨
    (is_Some (ab_metrics a !! key) ∧ just_admitted (bucket_at b) (values !! key) v)).
  { intros key v Hv. pose proof (ad_value _ _ _ _ _ Ha key) as Hx. case_bool_decide as Hc.
    - right. destruct Hx as (w & Hw & Hj). rewrite Hstart in Hj. split; [apply Hc|]. congruence.
    - left. rewrite Hv in Hx. inversion Hx as [w ? Hs Ew E|]; subst. by exists w. }
  split_and!.
  - destruct Hagree as [Hpin Hact]. split.
    + intros key v Hv. destruct (Hcase key v Hv) as [(w & Hw & _ & _ & _ & ->)|(_ & _ & _ & _ & ->)]; [by eapply Hpin|].
      destruct (values !! key) as [w|] eqn:E; [by eapply Hpin|]. symmetry. apply bool_decide_eq_false_2. intros Hk%Hact.
      unfold is_active in Hk. by rewrite E in Hk.
    + intros key Hk%Hact. pose proof (ad_value _ _ _ _ _ Ha key) as Hx. rewrite bool_decide_eq_false_2 in Hx by (intros [Hc _]; congruence).
      by rewrite (is_active_same values).
  - intros at' Hlt key v Hv. destruct (Hcase key v Hv) as [(w & Hw & Hs)|(_ & Hac & _ & Hu & _)].
    + eapply tidy_value_later; [apply Z.lt_le_incl, Hlt|]. eapply tidy_value_same; [exact Hs|]. by eapply Htidy.
    + unfold tidy_value. by rewrite Hac.
  - intros key v at0 Hlt Hv Ht. destruct (Hcase key v Hv) as [(w & Hw & Hs)|(_ & _ & Hsince & _)].
    + exists w. split; [done|]. by rewrite <- (tracked_at_same w v).
    + unfold tracked_at in Ht. rewrite Hsince in Ht. apply andb_true_iff in Ht as [Ht _]. apply Z.leb_le in Ht. lia.
  - intros key v Hv Ht. destruct (Hcase key v Hv) as [(w & Hw & Hs)|[? _]]; [|by right]. left. unfold is_active. rewrite Hw.
    eapply tracked_active; [by eapply Htidy|]. by rewrite <- (tracked_at_same w v).
Qed.

(** The metrics of a bucket, when its fold keeps what was tracked. *)
Lemma admitted_honest f values b a values1 : tidy (bucket_at b) values → bucket_ok property_count pins b →
  folded printable limit (bucket_at b) (ws_bucket_seconds ws) version (bs_grouped b) (bs_totals b) (bs_pinned b) pins (active_keys values) f →
  pins_agree pins values → admitted_ok (ws_policy ws) f values a values1 → honest' values1 b a.
Proof.
  intros Htidy Hb Hf Hagree Ha.
  pose proof (admitted_rows f values b a values1 Htidy Hagree (proj1 (fo_start _ _ _ _ _ _ _ _ _ _ _ Hf)) Ha) as (_ & _ & _ & Hact).
  destruct (ad_same _ _ _ _ _ Ha) as (Hs1 & Hs2 & Hs3 & _ & Hs5).
  assert (Hlisted : ∀ key n, (key, n) ∈ fact_pairs (bf_values f) → 0 <= n ∧ shown_in printable limit pins b key = Some n).
  { intros key n (v & Hv & <- & <-)%pair_key. pose proof (fo_listed _ _ _ _ _ _ _ _ _ _ _ Hf) as Hl. rewrite Forall_forall in Hl. by apply Hl. }
  assert (Hrows : ∀ key n, ab_metrics a !! key = Some n → 0 <= n ∧ shown_in printable limit pins b key = Some n).
  { intros key n Hn. apply Hlisted. by eapply ad_from. }
  split; [by eapply ad_fact| |by eapply ad_rows|done| |].
  - rewrite Hs1, Hs2, Hs3. split_and!; apply Hf.
  - intros key v Hv Ht. destruct (ab_metrics a !! key) as [n|] eqn:En; [symmetry; by apply Hrows|].
    destruct (Hact key v Hv Ht) as [Hk|[n Hn]]; [|congruence]. destruct (shown_in printable limit pins b key) as [n|] eqn:Es; [|done].
    rewrite (ad_tracked _ _ _ _ _ Ha key n) in En; [done|done|]. eapply fo_kept; [exact Hf| |exact Es]. left. by apply active_keys_elem.
  - intros Hw. destruct (fo_whole _ _ _ _ _ _ _ _ _ _ _ Hf Hw) as [Hpar (u & Hu & Hsum)].
    destruct (ad_conserves _ _ _ _ _ Ha u Hu) as (u' & Hu' & Hsum'). exists u'. split; [done|]. lia.
Qed.

Lemma collect_bucket_step facts values retired b c : bucket_ok property_count pins b → tidy (bucket_at b) values → pins_agree pins values →
  ∃ a values' n, collect_bucket printable ws version property_count pinned reading (facts, values, retired) (b, c) =
                   Ok (facts ++ [a], values', retired + n) ∧
    honest' values' b a ∧ pins_agree pins values' ∧ (∀ at', dt_us (bucket_at b) < dt_us at' → tidy at' values') ∧
    (∀ key v at0, dt_us at0 < dt_us (bucket_at b) → values' !! key = Some v → tracked_at v at0 = true →
       ∃ w, values !! key = Some w ∧ tracked_at w at0 = true) ∧
    active_count values' <= Z.max (active_count values) (po_max_active (ws_policy ws)).
Proof using Hsep Hlimit Hpins Hpolicy Hmax Hseconds Hversion.
  intros Hb Htidy Hagree. unfold collect_bucket. cbn [fst snd]. fold (bucket_at b). fold (active_keys values).
  destruct (fold_bucket_folded printable Hsep property_count (ws_value_max_length ws) limit Hlimit (bucket_at b) (ws_bucket_seconds ws) version
    (bs_grouped b) (bs_totals b) (bs_pinned b) pinned pins (active_keys values) (ws_max_values ws)) as (f & Hfold & Hf); [try done; apply Hb..|].
  rewrite Hfold. cbn [res_bind]. apply (folded_scope _ _ _ _ _ _ _ _ _ _ c) in Hf. set (f' := with_scope c f) in *.
  rewrite (check_bucket_fact_ok f') by apply Hf. cbn [res_bind].
  assert (Hmeas : bf_values_measurement f' ≠ PB_NOT_COLLECTED).
  { rewrite (fo_values_state _ _ _ _ _ _ _ _ _ _ _ Hf). intros E. pose proof (bk_completed _ _ _ Hb) as Hc.
    unfold completed in Hc. rewrite values_state_measured, bool_decide_eq_true_2 in Hc by exact E. discriminate Hc. }
  destruct (admit_bucket_ok f' values (ws_policy ws) property_count) as (a & values1 & Hadmit & Ha); [by apply Hf|done|by apply Hf| |done|].
  { eapply Forall_impl; [exact (fo_listed _ _ _ _ _ _ _ _ _ _ _ Hf)|]. by intros v (_ & ? & _). }
  rewrite Hadmit. cbn [res_bind fst snd].
  pose proof (admitted_honest f' values b a values1 Htidy Hb Hf Hagree Ha) as Hhon.
  destruct (admitted_rows f' values b a values1 Htidy Hagree (proj1 (fo_start _ _ _ _ _ _ _ _ _ _ _ Hf)) Ha) as (Hp1 & Ht1 & Hback & _).
  destruct (ad_bound _ _ _ _ _ Ha) as [Hcount _].
  destruct reading; [|exists a, values1, 0; by split_and!].
  destruct (retire_keeps pins (bucket_at b) (ws_policy ws) values1 Ht1 Hp1) as (Hp2 & Ht2 & Hback2 & Hcount2).
  do 3 eexists. split; [reflexivity|]. split_and!; [|done|done| |etrans; [exact Hcount2|exact Hcount]].
  - eapply honest_values; [|exact Hhon]. intros key v Hv Ht. eapply Hback2; [|exact Hv|exact Ht]. done.
  - intros key v at0 Hlt Hv Ht. destruct (Hback2 key v at0 ltac:(lia) Hv Ht) as (w & Hw & Htw). by eapply Hback.
Qed.

(** The buckets of a tick, oldest first. *)
Definition ascending (buckets : list (BucketSearches * ScopeColumns)) : Prop :=
  StronglySorted (λ x y, dt_us (bucket_at x.1) < dt_us (bucket_at y.1)) buckets.

Lemma collect_all buckets facts values retired : ascending buckets → Forall (λ x, bucket_ok property_count pins x.1) buckets →
  (∀ x, x ∈ buckets → tidy (bucket_at x.1) values) → pins_agree pins values →
  ∃ admitted values' n, foldM (collect_bucket printable ws version property_count pinned reading) (facts, values, retired) buckets =
                          Ok (facts ++ admitted, values', n) ∧
    Forall2 (λ x a, honest' values' x.1 a) buckets admitted ∧ pins_agree pins values' ∧
    (∀ at', Forall (λ x, dt_us (bucket_at x.1) < dt_us at') buckets → tidy at' values → tidy at' values') ∧
    (∀ key v at0, Forall (λ x, dt_us at0 < dt_us (bucket_at x.1)) buckets → values' !! key = Some v → tracked_at v at0 = true →
       ∃ w, values !! key = Some w ∧ tracked_at w at0 = true) ∧
    active_count values' <= Z.max (active_count values) (po_max_active (ws_policy ws)).
Proof using Hsep Hlimit Hpins Hpolicy Hmax Hseconds Hversion.
  intros Hasc. revert facts values retired. induction Hasc as [|[b c] buckets Hasc IH Hlt]; intros facts values retired Hok Htidy Hagree.
  - exists [], values, retired. split; [cbn; by rewrite app_nil_r|]. split_and!; [constructor|done|done| |lia].
    intros key v at0 _ Hv Ht. by exists v.
  - apply Forall_cons in Hok as [Hb Hok]. cbn [fst] in Hb, Hlt. rewrite Forall_forall in Hlt.
    destruct (collect_bucket_step facts values retired b c Hb (Htidy (b, c) ltac:(left)) Hagree) as (a & values1 & n & Hs & Hh & Ha1 & Ht1 & Hb1 & Hc1).
    destruct (IH (facts ++ [a]) values1 (retired + n) Hok) as (rest & values' & n' & Hs' & Hh' & Ha' & Ht' & Hb' & Hc'); [|done|].
    { intros x Hx. apply Ht1. by apply Hlt. }
    exists (a :: rest), values', n'. cbn [foldM]. rewrite Hs. cbn [res_bind]. rewrite Hs', <- app_assoc. split; [reflexivity|].
    split_and!; [|done| | |lia].
    + constructor; [|exact Hh']. cbn [fst]. eapply honest_values; [|exact Hh]. intros key v Hv Ht. eapply Hb'; [|exact Hv|exact Ht].
      by apply Forall_forall.
    + intros at' [Hat Hrest]%Forall_cons Htd. apply Ht'; [done|]. by apply Ht1.
    + intros key v at0 [Hat Hrest]%Forall_cons Hv Ht. destruct (Hb' key v at0 Hrest Hv Ht) as (w & Hw & Htw). by eapply Hb1.
Qed.

Lemma ascending_last buckets final x : ascending buckets → last buckets = Some final → x ∈ buckets →
  dt_us (bucket_at x.1) <= dt_us (bucket_at final.1).
Proof using.
  intros Hasc Hl Hx. apply last_Some in Hl as [init ->]. apply elem_of_app in Hx as [Hx|Hx%list_elem_of_singleton]; [|subst; lia].
  assert (H : dt_us (bucket_at x.1) < dt_us (bucket_at final.1)); [|lia].
  clear -Hasc Hx. induction init as [|y init IH]; [by apply elem_of_nil in Hx|]. apply StronglySorted_inv in Hasc as [Hasc Hy].
  apply elem_of_cons in Hx as [->|Hx]; [|by apply IH]. rewrite Forall_forall in Hy. apply Hy, elem_of_app. right. left.
Qed.

(** The tick as a whole: it collects every bucket, and the next tick starts from tidy rows. *)
Lemma collect_buckets_honest values buckets : ascending buckets → Forall (λ x, bucket_ok property_count pins x.1) buckets →
  (∀ x, x ∈ buckets → tidy (bucket_at x.1) values) →
  ∃ admitted values' n, collect_buckets printable ws version property_count pinned reading values buckets = Ok (admitted, values', n) ∧
    Forall2 (λ x a, honest' values' x.1 a) buckets admitted ∧ (buckets ≠ [] → pins_agree pins values') ∧
    (∀ at', Forall (λ x, dt_us (bucket_at x.1) < dt_us at') buckets → tidy at' values → tidy at' values') ∧
    (∀ first, head buckets = Some first →
       active_count values' <= Z.max (active_count (sync_pins values pins (bucket_at first.1))) (po_max_active (ws_policy ws))).
Proof using Hsep Hlimit Hpins Hpolicy Hmax Hseconds Hversion.
  intros Hasc Hok Htidy. unfold collect_buckets. destruct buckets as [|first rest]; [by exists [], values, 0|].
  set (buckets := first :: rest) in *. destruct (last buckets) as [final|] eqn:Hlast.
  2:{ apply last_None in Hlast. discriminate Hlast. }
  rewrite Hpolicy. cbn [res_bind]. rewrite Hlimit. cbn [res_bind]. rewrite Hpins. cbn [res_bind]. fold (bucket_at first.1) (bucket_at final.1). cbv zeta.
  set (values0 := sync_pins values pins (bucket_at first.1)).
  assert (Htidy0 : ∀ at', dt_us (bucket_at first.1) <= dt_us at' → tidy at' values0).
  { intros at' Hle. eapply tidy_later; [exact Hle|]. apply sync_tidy, Htidy. left. }
  assert (Hfirst : ∀ x, x ∈ buckets → dt_us (bucket_at first.1) <= dt_us (bucket_at x.1)).
  { intros x [->|Hx]%elem_of_cons; [lia|]. apply StronglySorted_inv in Hasc as [_ Hy]. rewrite Forall_forall in Hy. apply Z.lt_le_incl. by apply Hy. }
  destruct (collect_all buckets [] values0 0 Hasc Hok) as (admitted & values1 & n & Hs & Hh & Ha & Ht & Hb & Hc);
    [intros x Hx; by apply Htidy0, Hfirst|apply sync_pins_agree|]. rewrite Hs. cbn [res_bind app].
  assert (Ht' : ∀ at', Forall (λ x, dt_us (bucket_at x.1) < dt_us at') buckets → tidy at' values1).
  { intros at' Hat. apply Ht; [done|]. apply Htidy0. apply Forall_inv in Hat. lia. }
  destruct reading.
  { exists admitted, values1, (n + 0). split_and!; try done; [intros; by apply Ht'|]. by intros ? [= <-]. }
  destruct (retire_stale values1 (bucket_at final.1) (ws_policy ws)) as [values' k] eqn:Er.
  destruct (retire_keeps pins (bucket_at final.1) (ws_policy ws) values1) as (Hp2 & Ht2 & Hb2 & Hc2); [|done|].
  { intros at' Hat. apply Ht'. apply Forall_forall. intros x Hx. eapply Z.le_lt_trans; [by eapply ascending_last|done]. }
  rewrite Er in Hp2, Ht2, Hb2, Hc2. cbn [fst] in Hp2, Ht2, Hb2, Hc2.
  exists admitted, values', (n + k). split; [done|]. split_and!; [|done| |].
  - apply Forall2_same_length_lookup_2; [by eapply Forall2_length|]. intros i x a Hx Hxa.
    eapply honest_values; [|exact (Forall2_lookup_lr _ _ _ _ _ _ Hh Hx Hxa)]. intros key v Hv Hvt. eapply Hb2; [|exact Hv|exact Hvt].
    eapply ascending_last; [done|done|by eapply list_elem_of_lookup_2].
  - intros at' Hat _. apply Ht2. rewrite Forall_forall in Hat. apply Hat. apply last_Some_elem_of in Hlast. exact Hlast.
  - intros ? [= <-]. etrans; [exact Hc2|exact Hc].
Qed.

(** A search whose answer was whole, and that lists no row of the key. *)
Definition lists_none (o : PwBucketOutcome) (key : text) : Prop :=
  oc_state o = CELL_COMPLETE ∧ ∀ r, r ∈ oc_rows o → row_key printable limit r ≠ Some key.

Definition measured_none (b : BucketSearches) (key : text) : Prop :=
  lists_none (bs_grouped b) key ∨ ∃ o, bs_pinned b = Some o ∧ lists_none o key.

(** Where the searches that are exact for a value show nothing, one of them was whole and lists no row of it. *)
Lemma shown_none b a values key v : honest' values b a → pins_agree pins values → values !! key = Some v →
  value_measurement (ab_fact a) (tv_pinned v) = Some WM_EXACT → shown_in printable limit pins b key = None → measured_none b key.
Proof using.
  intros Hh [Hpin _] Hv Hm Hs. destruct (hn_states _ _ _ _ _ _ Hh) as (_ & Hvs & Hps).
  unfold shown_in, shown in Hs. unfold measured_none, lists_none. setoid_rewrite <- value_total_none.
  unfold value_measurement in Hm. rewrite Hvs, Hps in Hm. specialize (Hpin key v Hv). cbv beta in Hpin.
  destruct (decide (oc_state (bs_grouped b) = CELL_COMPLETE)) as [Eg|Eg].
  - left. split; [done|]. destruct (bs_pinned b) as [o|]; [|done].
    rewrite (bool_decide_eq_true_2 _ Eg) in Hs. cbn [negb] in Hs. by rewrite andb_false_r in Hs.
  - rewrite (bool_decide_eq_false_2 _ Eg) in Hs. cbn [negb] in Hs. right.
    assert (Hg : waf_of_values (values_state (bs_grouped b)) ≠ Some WM_EXACT).
    { unfold values_state. by destruct (oc_state (bs_grouped b)). }
    destruct (tv_pinned v); [|done]. symmetry in Hpin. apply bool_decide_eq_true in Hpin. cbn [andb] in Hm.
    destruct (bs_pinned b) as [o|]; [|done]. exists o. split; [done|]. cbn [pinned_state] in Hm.
    destruct (oc_state o) eqn:Eo; try done. split; [done|]. rewrite (measured_complete o Eo), (bool_decide_eq_true_2 _ Hpin) in Hs.
    cbn [andb] in Hs. unfold merged_events in Hs. by destruct (value_total printable limit (oc_rows o) key).
Qed.

(** C2: For every bucket a tick stores and every value row it leaves, the reading is honest: a
    measured zero only where a whole search lists no row of the value, a count only the events
    the searches showed, and a value tracked at the bucket with shown events reads as their count. *)
Theorem readings_honest values buckets : ascending buckets → Forall (λ x, bucket_ok property_count pins x.1) buckets →
  (∀ x, x ∈ buckets → tidy (bucket_at x.1) values) →
  ∃ admitted values' n, collect_buckets printable ws version property_count pinned reading values buckets = Ok (admitted, values', n) ∧
    length admitted = length buckets ∧
    ∀ i x a key v, buckets !! i = Some x → admitted !! i = Some a → values' !! key = Some v →
      ∃ r, reading_for (Some (ab_fact a)) (tv_pinned v) (tracked_at v (bucket_at x.1)) (ab_metrics a !! key) = Ok r ∧
        (rd_kind r = RK_MEASURED_ZERO → measured_none x.1 key) ∧
        (rd_kind r = RK_COUNT → rd_events r = shown_in printable limit pins x.1 key) ∧
        (tracked_at v (bucket_at x.1) = true → ∀ n, shown_in printable limit pins x.1 key = Some n → r = RD RK_COUNT (Some n) (value_measurement (ab_fact a) (tv_pinned v))).
Proof using Hsep Hlimit Hpins Hpolicy Hmax Hseconds Hversion.
  intros Hasc Hok Htidy. destruct (collect_buckets_honest values buckets Hasc Hok Htidy) as (admitted & values' & n & Hc & Hh & Hp & _).
  exists admitted, values', n. split; [done|]. split; [symmetry; by eapply Forall2_length|]. intros i x a key v Hx Ha Hv.
  pose proof (Forall2_lookup_lr _ _ _ _ _ _ Hh Hx Ha) as Hon. rewrite Forall_forall in Hok.
  pose proof (Hok x (list_elem_of_lookup_2 _ _ _ Hx)) as Hb. assert (Hpa : pins_agree pins values') by (apply Hp; by destruct buckets).
  assert (Hmeas : bf_values_measurement (ab_fact a) ≠ PB_NOT_COLLECTED).
  { destruct (hn_states _ _ _ _ _ _ Hon) as (_ & -> & _). intros E. pose proof (bk_completed _ _ _ Hb) as Hcp.
    unfold completed in Hcp. rewrite values_state_measured, bool_decide_eq_true_2 in Hcp by exact E. discriminate Hcp. }
  assert (Hm : is_Some (value_measurement (ab_fact a) (tv_pinned v))).
  { unfold value_measurement. destruct (tv_pinned v && _); [by eexists|]. by destruct (bf_values_measurement (ab_fact a)); [eexists|eexists|]. }
  pose proof (hn_values _ _ _ _ _ _ Hon key v Hv) as Hval. unfold reading_for.
  destruct (ab_metrics a !! key) as [k|] eqn:Ek.
  - destruct (hn_rows _ _ _ _ _ _ Hon key k Ek) as [Hk0 Hk]. destruct Hm as [m Hm]. rewrite Hm.
    cbn [negative]. rewrite (proj2 (Z.ltb_ge k 0)) by done. cbn [raise_if res_bind]. eexists. split; [reflexivity|]. split_and!; [done|done|].
    intros _ n' Hn'. congruence.
  - destruct Hm as [m Hm]. rewrite Hm. cbn [negative raise_if res_bind]. rewrite (bool_decide_eq_false_2 _ Hmeas). cbn [andb].
    destruct (tracked_at v (bucket_at x.1)); cbn [negb]; [|by eexists].
    specialize (Hval eq_refl). destruct (decide (Some m = Some WM_EXACT)) as [Ee|Ee];
      [rewrite (bool_decide_eq_true_2 _ Ee)|rewrite (bool_decide_eq_false_2 _ Ee)];
      (eexists; split; [reflexivity|]; split_and!; [|done|by intros _ n'; rewrite <- Hval]); [|done].
    intros _. eapply shown_none; [exact Hon|exact Hpa|exact Hv|congruence|done].
Qed.

End Tick.
