(* ===== verification/PwSearchTheorems.v ===== *)
(** * A property-watch search answers every bucket, within its budget *)

From S2P Require Import Prelude PyStr PyFloat PyTime PyJson Enums PwFacts PwSearch PwFold PwAdmitTheorems.

Section Search.
Context (provider : nat → datetime → datetime → Z → PwAnswer) (spec : PwQuerySpec) (start : datetime) (bucket_seconds : Z)
  (max_rows : Z) (watch : option Z).
Context (Hwidth : 0 < bucket_seconds).

(** The provider answers or fails with an error of its own, and sums events that are not negative. *)
Context (Hraises : ∀ n a b cap e, provider n a b cap ≠ RAISES e)
  (Hevents : ∀ n a b cap rows cut query, provider n a b cap = ANSWER rows cut query → Forall (λ r, 0 <= kr_events r) rows).

Local Abbreviation at_ := (at_index start bucket_seconds).
Local Abbreviation search_ := (search provider spec start bucket_seconds max_rows watch).
Local Abbreviation count_of := (match qs_search spec with TOTALS => 0%nat | _ => qs_properties spec end).

Lemma at_index_us i : dt_us (at_ i) = dt_us start + td_seconds bucket_seconds * Z.of_nat i.
Proof using. unfold at_index, dt_add, td_seconds. cbn [dt_us]. lia. Qed.

Lemma at_index_lt i j : (i < j)%nat → dt_us (at_ i) < dt_us (at_ j).
Proof using Hwidth. intros H. rewrite !at_index_us. unfold td_seconds, us_per_second. nia. Qed.

Lemma at_index_inj i j : dt_us (at_ i) = dt_us (at_ j) → i = j.
Proof using Hwidth.
  intros H. destruct (Nat.lt_trichotomy i j) as [Hl|[?|Hl]]; [|done|]; apply at_index_lt in Hl; lia.
Qed.

(** The rows of an answer in a bucket. *)
Definition bucket_rows (i : nat) (rows : list PwKeyedRow) : list PwKeyedRow := filter (λ r, kr_bucket_start r = at_ i) rows.

(** What a bucket's outcome rests on: COMPLETE on a whole answer whose window has the bucket,
    LOWER_BOUND on a cut answer of that bucket alone, and otherwise there are no rows. *)
Definition justified (i : nat) (o : PwBucketOutcome) : Prop :=
  match oc_state o with
  | CELL_COMPLETE => ∃ n first count rows query, (first <= i < first + count)%nat ∧
      provider n (at_ first) (at_ (first + count)) (search_row_cap spec (Z.of_nat count) max_rows) = ANSWER rows false query ∧
      oc_rows o = bucket_rows i rows
  | CELL_LOWER_BOUND => ∃ n rows query,
      provider n (at_ i) (at_ (i + 1)) (search_row_cap spec 1 max_rows) = ANSWER rows true query ∧ oc_rows o = bucket_rows i rows
  | _ => oc_rows o = []
  end.

Definition cell_ok (i : nat) (o : PwBucketOutcome) : Prop := outcome_ok (qs_properties spec) (qs_search spec) (at_ i) o ∧ justified i o.

(** The cells of a window, and the others as they were. *)
Definition cells_ok (first count : nat) (cells cells' : gmap Z PwBucketOutcome) : Prop :=
  (∀ i, (first <= i < first + count)%nat → ∃ o, cells' !! dt_us (at_ i) = Some o ∧ cell_ok i o) ∧
  (∀ key, (∀ i, (first <= i < first + count)%nat → key ≠ dt_us (at_ i)) → cells' !! key = cells !! key).

Lemma cells_ok_join first left count cells1 cells2 cells3 : (left <= count)%nat →
  cells_ok first left cells1 cells2 → cells_ok (first + left) (count - left) cells2 cells3 → cells_ok first count cells1 cells3.
Proof using Hwidth.
  intros Hle [H1 K1] [H2 K2]. split.
  - intros i Hi. destruct (decide (i < first + left)%nat) as [Hl|Hl]; [|apply H2; lia].
    destruct (H1 i ltac:(lia)) as (o & Ho & Hc). exists o. split; [|done]. rewrite K2; [done|].
    intros j Hj E%at_index_inj. lia.
  - intros key Hkey. rewrite K2, K1; [done| |]; intros i Hi; apply Hkey; lia.
Qed.

(** Writing the cells of a window. *)
Lemma emit_cells state rows provenance first count cells :
  (∀ i, (first <= i < first + count)%nat → ∀ o, make_outcome (qs_search spec) (at_ i) state (bucket_rows i rows) provenance = Ok o → cell_ok i o) →
  (measured_state state = false → rows = []) →
  ∃ cells', foldM (emit_one spec start bucket_seconds state rows provenance) cells (seq first count) = Ok cells' ∧ cells_ok first count cells cells'.
Proof using Hwidth.
  intros Hok Hrows. revert first cells Hok. induction count as [|count IH]; intros first cells Hok.
  - exists cells. split; [done|]. split; [lia|done].
  - cbn [seq foldM]. unfold emit_one at 1. fold (bucket_rows first rows).
    assert (Hm : ∃ o, make_outcome (qs_search spec) (at_ first) state (bucket_rows first rows) provenance = Ok o).
    { unfold make_outcome. destruct (measured_state state) eqn:Em; [rewrite andb_false_r; by eexists|]. rewrite Hrows by done. by eexists. }
    destruct Hm as [o Ho]. rewrite Ho. cbn [res_bind].
    destruct (IH (S first) (<[dt_us (at_ first) := o]> cells)) as (cells' & Hc & Hcells); [intros i Hi; apply Hok; lia|].
    rewrite Hc. eexists. split; [done|]. apply (cells_ok_join first 1 (S count) _ (<[dt_us (at_ first) := o]> cells)); [lia| |].
    + split.
      * intros i Hi. assert (i = first) as -> by lia. exists o. rewrite lookup_insert_eq. split; [done|]. by apply Hok; [lia|].
      * intros key Hkey. apply lookup_insert_ne. intros <-. apply (Hkey first); [lia|done].
    + replace (S count - 1)%nat with count by lia. replace (first + 1)%nat with (S first) by lia. done.
Qed.

Lemma bucket_rows_ok i rows : Forall (λ r, 0 <= kr_events r) rows → Forall (λ r, length (kr_values r) = count_of) rows →
  Forall (λ r, kr_bucket_start r = at_ i ∧ 0 <= kr_events r) (bucket_rows i rows) ∧
  (qs_search spec ≠ TOTALS → Forall (λ r, length (kr_values r) = qs_properties spec) (bucket_rows i rows)).
Proof using.
  intros He Hl. rewrite Forall_forall in He, Hl. split; [|intros Hk]; apply Forall_forall; intros r [Ha Hr]%list_elem_of_filter.
  - split; [done|by apply He].
  - rewrite (Hl r Hr). by destruct (qs_search spec).
Qed.

Lemma contained_values rows first count cap : contained spec start bucket_seconds rows first count cap = true →
  Forall (λ r, length (kr_values r) = count_of) rows.
Proof using.
  intros [_ H]%andb_true_iff. rewrite forallb_forall in H. apply Forall_forall. intros r Hr%list_elem_of_In.
  specialize (H r Hr). apply andb_true_iff in H as [_ H]. by apply bool_decide_eq_true in H.
Qed.

(** The outcomes of one search. *)
Lemma emit_ok first count state depth rows query searched s : 
  (measured_state state = false → rows = []) → Forall (λ r, 0 <= kr_events r) rows → Forall (λ r, length (kr_values r) = count_of) rows →
  (∀ i o, (first <= i < first + count)%nat → oc_state o = state → oc_rows o = bucket_rows i rows → justified i o) →
  ∃ s', emit spec start bucket_seconds first count state depth rows query searched s = Ok s' ∧
    cells_ok first count (sn_cells s) (sn_cells s') ∧ sn_budget s' = sn_budget s ∧ sn_calls s' = sn_calls s.
Proof using Hwidth.
  intros Hm He Hl Hj. unfold emit. cbv zeta. set (provenance := if searched then _ else None).
  destruct (emit_cells state rows provenance first count (sn_cells s)) as (cells & Hc & Hok); [|done|].
  - intros i Hi o Ho. unfold make_outcome in Ho. destruct (negb _ && negb _) eqn:Ex in Ho; [discriminate Ho|]. cbn [raise_if res_bind] in Ho.
    injection Ho as <-. destruct (bucket_rows_ok i rows He Hl) as [Hr Hv]. split; [|by apply Hj]. split; try done.
    unfold measured. cbn. intros Hf. by rewrite (Hm Hf).
  - rewrite Hc. by eexists.
Qed.

(** What a search of a window spends: every search it sends comes off the budget. *)
Definition spent (s s' : SearchRun) (count : nat) : Prop :=
  (sn_calls s <= sn_calls s' <= sn_calls s + (2 * count - 1))%nat ∧
  bu_used (sn_budget s') - bu_used (sn_budget s) = Z.of_nat (sn_calls s') - Z.of_nat (sn_calls s) ∧
  bu_max_searches (sn_budget s') = bu_max_searches (sn_budget s) ∧
  bu_used (sn_budget s') <= Z.max (bu_used (sn_budget s)) (bu_max_searches (sn_budget s)).

Lemma try_take_taken b taken b' : try_take watch b = (taken, b') →
  if taken then bu_used b < bu_max_searches b ∧ bu_used b' = bu_used b + 1 ∧ bu_max_searches b' = bu_max_searches b else b' = b.
Proof using.
  unfold try_take. destruct (Z.leb_spec (bu_max_searches b) (bu_used b)); [by intros [= <- <-]|].
  destruct (match watch with Some w => _ | None => false end); by intros [= <- <-].
Qed.

Lemma search_ok fuel first count depth s : (1 <= count <= fuel)%nat →
  ∃ s', search_ fuel first count depth s = Ok s' ∧ cells_ok first count (sn_cells s) (sn_cells s') ∧ spent s s' count.
Proof using Hwidth Hraises Hevents.
  revert first count depth s. induction fuel as [|fuel IH]; intros first count depth s Hcount; [lia|]. cbn [search].
  destruct (try_take watch (sn_budget s)) as [taken budget] eqn:Et. apply try_take_taken in Et. destruct taken; cbn [negb].
  2:{ subst budget. destruct (emit_ok first count CELL_NOT_COLLECTED depth [] "" false {| sn_cells := sn_cells s; sn_budget := sn_budget s; sn_calls := sn_calls s |})
        as (s' & Hs & Hc & Hb & Hn); [done|constructor|constructor|intros i o _ Hst Hr; unfold justified; rewrite Hst; done|].
      exists s'. split; [done|]. split; [done|]. unfold spent. rewrite Hb, Hn. cbn. lia. }
  cbv zeta. cbn [sn_calls sn_cells sn_budget]. destruct Et as (Hroom & Hused & Hmax). set (cap := search_row_cap spec (Z.of_nat count) max_rows).
  set (s1 := {| sn_cells := sn_cells s; sn_budget := budget; sn_calls := S (sn_calls s) |}).
  assert (Hemit : ∀ state rows query, (measured_state state = false → rows = []) → Forall (λ r, 0 <= kr_events r) rows →
    Forall (λ r, length (kr_values r) = count_of) rows →
    (∀ i o, (first <= i < first + count)%nat → oc_state o = state → oc_rows o = bucket_rows i rows → justified i o) →
    ∃ s', emit spec start bucket_seconds first count state depth rows query true s1 = Ok s' ∧ cells_ok first count (sn_cells s) (sn_cells s') ∧ spent s s' count).
  { intros state rows query Hm He Hl Hj. destruct (emit_ok first count state depth rows query true s1 Hm He Hl Hj) as (s' & Hs & Hc & Hb & Hn).
    exists s'. split; [done|]. split; [done|]. unfold spent. rewrite Hb, Hn. cbn. lia. }
  assert (Hfailed : ∃ s', emit spec start bucket_seconds first count CELL_FAILED depth [] "" true s1 = Ok s' ∧
    cells_ok first count (sn_cells s) (sn_cells s') ∧ spent s s' count).
  { apply Hemit; [done|constructor|constructor|]. intros i o _ Hst Hr. unfold justified. rewrite Hst. exact Hr. }
  destruct (provider (sn_calls s) (at_ first) (at_ (first + count)) cap) as [rows cut query| |e] eqn:Ep; [|done|by apply Hraises in Ep].
  destruct (contained spec start bucket_seconds rows first count cap) eqn:Econt; cbn [negb]; [|done].
  pose proof (contained_values _ _ _ _ Econt) as Hl. pose proof (Hevents _ _ _ _ _ _ _ Ep) as He. destruct cut; cbn [negb].
  - destruct (Nat.ltb_spec 1 count) as [Hsplit|Hone].
    + pose proof (Nat.Div0.div_mod count 2) as Hdiv. pose proof (Nat.mod_upper_bound count 2 ltac:(lia)) as Hmod. set (left := (count / 2)%nat) in *.
      destruct (IH first left (S depth) s1 ltac:(lia)) as (s2 & Hs2 & Hc2 & Hsp2). rewrite Hs2. cbn [res_bind].
      destruct (IH (first + left)%nat (count - left)%nat (S depth) s2 ltac:(lia)) as (s3 & Hs3 & Hc3 & Hsp3). exists s3. split; [exact Hs3|].
      split; [eapply cells_ok_join; [|exact Hc2|exact Hc3]; lia|]. unfold spent, s1 in *. cbn [sn_calls sn_budget] in Hsp2. lia.
    + assert (count = 1)%nat as -> by lia. apply Hemit; [done|done|done|]. intros i o Hi Hst Hr. assert (i = first) as -> by lia.
      unfold justified. rewrite Hst. do 3 eexists. split; [exact Ep|done].
  - apply Hemit; [done|done|done|]. intros i o Hi Hst Hr. unfold justified. rewrite Hst. do 5 eexists. split; [exact Hi|]. split; [exact Ep|done].
Qed.

Lemma window_buckets end_ : validate_window start end_ bucket_seconds = Ok tt →
  (1 <= Z.to_nat ((dt_us end_ - dt_us start) / us_per_second / bucket_seconds))%nat ∧
  dt_us (at_ (Z.to_nat ((dt_us end_ - dt_us start) / us_per_second / bucket_seconds))) = dt_us end_.
Proof using Hwidth.
  unfold validate_window. rewrite (proj2 (Z.leb_gt _ _)) by done. cbn [raise_if res_bind].
  destruct (Z.leb_spec (dt_us end_ - dt_us start) 0) as [?|Hpos]; [done|]. cbn [raise_if res_bind].
  destruct (td_hours 168 <? dt_us end_ - dt_us start); [done|]. cbn [raise_if res_bind]. intros Hal%raise_if_ok.
  apply orb_false_iff in Hal as [Hal He]. apply orb_false_iff in Hal as [Hal Hs]. apply orb_false_iff in Hal as [Hms Hme].
  apply negb_false_iff, Z.eqb_eq in Hms, Hme, Hs, He. unfold dt_microsecond, dt_timestamp in *.
  apply Z.mod_divide in Hms as [a Ha], Hme as [b Hb]; [|done..]. rewrite Ha, Z.div_mul in Hs by done. rewrite Hb, Z.div_mul in He by done.
  apply Z.mod_divide in Hs as [p ->], He as [q ->]; [|lia..].
  rewrite Ha, Hb in *. rewrite at_index_us, Ha. unfold td_seconds, us_per_second in *.
  replace (q * bucket_seconds * 1000000 - p * bucket_seconds * 1000000) with ((q - p) * bucket_seconds * 1000000) by ring.
  rewrite Z.div_mul, Z.div_mul by lia. split; [nia|]. rewrite Z2Nat.id by nia. ring.
Qed.

#[local] Instance by_bucket_transitive : Transitive by_bucket.
Proof. intros x y z. unfold by_bucket. lia. Qed.

#[local] Instance by_bucket_total : Total by_bucket.
Proof. intros x y. unfold by_bucket. lia. Qed.

Lemma buckets_sorted (cell : nat → PwBucketOutcome) first count : StronglySorted by_bucket ((λ i, (dt_us (at_ i), cell i)) <$> seq first count).
Proof using Hwidth.
  revert first. induction count as [|count IH]; intros first; constructor; [apply IH|]. apply Forall_forall.
  intros x (i & -> & Hi%elem_of_seq)%list_elem_of_fmap. unfold by_bucket. cbn [fst]. apply Z.lt_le_incl, at_index_lt. lia.
Qed.

(** The cells of a window in order are its buckets. *)
Lemma sorted_window count cells : cells_ok 0 count ∅ cells →
  length (sorted_cells cells) = count ∧ ∀ i o, sorted_cells cells !! i = Some o → cell_ok i o ∧ (i < count)%nat.
Proof using Hwidth.
  intros [Hin Hout].
  set (dummy := {| oc_search := GROUPED; oc_bucket_start := start; oc_state := CELL_FAILED; oc_rows := []; oc_provenance := None |}).
  set (cell := λ i, default dummy (cells !! dt_us (at_ i))).
  assert (Hcell : ∀ i, (i < count)%nat → cells !! dt_us (at_ i) = Some (cell i) ∧ cell_ok i (cell i)).
  { intros i Hi. destruct (Hin i ltac:(lia)) as (o & Ho & Hok). unfold cell. by rewrite Ho. }
  set (l := (λ i, (dt_us (at_ i), cell i)) <$> seq 0 count).
  assert (Hl : ∀ k o, (k, o) ∈ l ↔ cells !! k = Some o).
  { intros k o. split.
    - intros (i & [= -> ->] & Hi%elem_of_seq)%list_elem_of_fmap. apply Hcell. lia.
    - intros Hk. destruct (decide (k ∈ (λ i, dt_us (at_ i)) <$> seq 0 count)) as [(i & -> & Hi)%list_elem_of_fmap|Hn].
      + apply list_elem_of_fmap. exists i. split; [|done]. apply elem_of_seq in Hi. destruct (Hcell i ltac:(lia)) as [He _]. congruence.
      + rewrite Hout in Hk; [by rewrite lookup_empty in Hk|]. intros i Hi ->. apply Hn, list_elem_of_fmap. exists i. split; [done|]. apply elem_of_seq. lia. }
  assert (Hsorted : StronglySorted by_bucket l).
  { apply buckets_sorted. }
  assert (Heq : merge_sort by_bucket (map_to_list cells) = l).
  { apply (StronglySorted_unique_strong by_bucket).
    - intros [k1 o1] [k2 o2] H1 H2 H3 H4. unfold by_bucket in *. cbn in *. assert (k1 = k2) as -> by lia. f_equal.
      rewrite merge_sort_Permutation in H1. apply elem_of_map_to_list in H1. apply Hl in H2. congruence.
    - apply (StronglySorted_merge_sort by_bucket).
    - exact Hsorted.
    - rewrite merge_sort_Permutation. apply NoDup_Permutation; [apply NoDup_map_to_list| |].
      + apply NoDup_fmap_2_strong; [|apply NoDup_seq]. intros i j _ _ [= E _]. by apply at_index_inj.
      + intros [k o]. by rewrite elem_of_map_to_list, Hl. }
  unfold sorted_cells. rewrite Heq. subst l. rewrite <- list_fmap_compose. split; [by rewrite length_fmap, length_seq|].
  intros i o Hi. rewrite list_lookup_fmap in Hi. destruct (seq 0 count !! i) as [j|] eqn:E; [|done]. apply lookup_seq in E as [-> Hlt].
  injection Hi as <-. split; [|done]. by apply Hcell.
Qed.

(** C37: A search returns one outcome for each bucket of its window, in order: complete only on a
    whole answer whose window has the bucket, a lower bound only on a cut answer of that bucket
    alone, without rows otherwise. It sends at most twice the buckets less one searches, each
    taken off the budget, which is never exceeded. *)
Theorem run_search_sound end_ budget calls : validate_window start end_ bucket_seconds = Ok tt → 1 <= max_rows →
  ∃ outcomes s, run_search provider spec start bucket_seconds max_rows watch end_ budget calls = Ok (outcomes, s) ∧
    dt_us (at_ (length outcomes)) = dt_us end_ ∧
    (∀ i o, outcomes !! i = Some o → outcome_ok (qs_properties spec) (qs_search spec) (at_ i) o ∧ justified i o) ∧
    (sn_calls s <= calls + (2 * length outcomes - 1))%nat ∧
    bu_used (sn_budget s) = bu_used budget + (Z.of_nat (sn_calls s) - Z.of_nat calls) ∧
    bu_used (sn_budget s) <= Z.max (bu_used budget) (bu_max_searches budget).
Proof using Hwidth Hraises Hevents.
  intros Hw Hr. destruct (window_buckets end_ Hw) as [Hn Hend]. unfold run_search. rewrite Hw. cbn [res_bind].
  rewrite (proj2 (Z.ltb_ge _ _)) by done. cbn [raise_if res_bind]. cbv zeta. set (n := Z.to_nat _) in *.
  destruct (search_ok n 0 n 0 {| sn_cells := ∅; sn_budget := budget; sn_calls := calls |} ltac:(lia)) as (s & Hs & Hc & Hsp).
  rewrite Hs. cbn [res_bind]. do 2 eexists. split; [reflexivity|]. destruct (sorted_window n _ Hc) as [Hlen Hok]. rewrite Hlen.
  unfold spent in Hsp. cbn [sn_calls sn_budget] in Hsp. split; [exact Hend|]. split; [intros i o Hi; by apply Hok|]. lia.
Qed.
End Search.

(** ** Chunks *)

Lemma combined_complete states : combined_state states = CELL_COMPLETE ↔ Forall (λ s, s = CELL_COMPLETE) states.
Proof.
  unfold combined_state. split.
  - intros H. apply Forall_forall. intros s Hs. destruct (bool_decide_reflect (CELL_FAILED ∈ states)) as [|H1]; [done|].
    destruct (bool_decide_reflect (CELL_NOT_COLLECTED ∈ states)) as [|H2]; [done|].
    destruct (bool_decide_reflect (CELL_LOWER_BOUND ∈ states)) as [|H3]; [done|]. by destruct s.
  - intros H. rewrite Forall_forall in H. rewrite !bool_decide_eq_false_2; [done|intros Hx; by specialize (H _ Hx)..].
Qed.

Lemma combined_measured states : measured_state (combined_state states) = forallb measured_state states.
Proof.
  unfold combined_state. destruct (bool_decide_reflect (CELL_FAILED ∈ states)) as [H1|H1].
  { symmetry. apply not_true_iff_false. rewrite forallb_forall. intros H. specialize (H CELL_FAILED). rewrite <- list_elem_of_In in H. by specialize (H H1). }
  destruct (bool_decide_reflect (CELL_NOT_COLLECTED ∈ states)) as [H2|H2].
  { symmetry. apply not_true_iff_false. rewrite forallb_forall. intros H. specialize (H CELL_NOT_COLLECTED). rewrite <- list_elem_of_In in H. by specialize (H H2). }
  assert (Ha : forallb measured_state states = true).
  { apply forallb_forall. intros s Hs%list_elem_of_In. by destruct s. }
  rewrite Ha. by destruct (bool_decide (CELL_LOWER_BOUND ∈ states)).
Qed.

Definition cells_at (chunks : list (list PwBucketOutcome)) (i : nat) : list PwBucketOutcome := omap (λ chunk : list PwBucketOutcome, chunk !! i) chunks.

Lemma cells_at_length chunks i : Forall (λ chunk : list PwBucketOutcome, is_Some (chunk !! i)) chunks → length (cells_at chunks i) = length chunks.
Proof. unfold cells_at. induction 1 as [|chunk chunks [o Ho] _ IH]; [done|]. cbn. rewrite Ho. cbn. by rewrite IH. Qed.

Lemma bucket_keys_lookup chunk first i : bucket_keys chunk = bucket_keys first →
  (λ o, (oc_search o, oc_bucket_start o)) <$> chunk !! i = (λ o, (oc_search o, oc_bucket_start o)) <$> first !! i.
Proof. unfold bucket_keys. intros H. by rewrite <- !list_lookup_fmap, H. Qed.

(** What combining makes of a bucket. *)
Definition combined (chunks : list (list PwBucketOutcome)) (i : nat) (lead : PwBucketOutcome) : PwBucketOutcome :=
  let cells := cells_at chunks i in
  let state := combined_state (oc_state <$> cells) in
  {| oc_search := oc_search lead; oc_bucket_start := oc_bucket_start lead; oc_state := state;
     oc_rows := if measured_state state then concat (oc_rows <$> cells) else [];
     oc_provenance := head (omap oc_provenance cells) |}.

Lemma combine_cell_combined chunks i lead : combine_cell chunks i lead = Ok (combined chunks i lead).
Proof.
  unfold combine_cell, make_outcome, combined. fold (cells_at chunks i). cbv zeta.
  destruct (measured_state (combined_state (oc_state <$> cells_at chunks i))); [by rewrite andb_false_r|done].
Qed.

Lemma combined_ok property_count kind chunks i lead : oc_search lead = kind →
  (∀ c, c ∈ cells_at chunks i → outcome_ok property_count kind (oc_bucket_start lead) c) →
  outcome_ok property_count kind (oc_bucket_start lead) (combined chunks i lead).
Proof.
  intros Hk Hc. assert (Hrow : ∀ r, r ∈ oc_rows (combined chunks i lead) → ∃ c, c ∈ cells_at chunks i ∧ r ∈ oc_rows c).
  { intros r. cbn. destruct (measured_state _); [|intros H; by apply elem_of_nil in H].
    intros (rows & (c & -> & Hin)%list_elem_of_In%list_elem_of_fmap & Hr%list_elem_of_In)%list_elem_of_In%in_concat. by exists c. }
  split; [done|done| | |].
  - apply Forall_forall. intros r (c & Hin & Hr)%Hrow. destruct (Hc c Hin) as [_ _ H _ _]. rewrite Forall_forall in H. by apply H.
  - intros Hne. apply Forall_forall. intros r (c & Hin & Hr)%Hrow. destruct (Hc c Hin) as [_ _ _ H _]. specialize (H Hne).
    rewrite Forall_forall in H. by apply H.
  - unfold measured. cbn. by intros ->.
Qed.

(** Chunks of the same buckets combine to one outcome per bucket: measured exactly when every
    chunk's is, complete exactly when every chunk's is, with all their rows, and without rows
    when one chunk has no measurement; so it is an outcome the fold accepts. *)
Theorem combine_chunks_sound property_count kind first rest :
  Forall (λ chunk, bucket_keys chunk = bucket_keys first) rest →
  (∀ chunk i o, chunk ∈ first :: rest → chunk !! i = Some o → outcome_ok property_count kind (oc_bucket_start o) o) →
  ∃ outcomes, combine_chunks (first :: rest) = Ok outcomes ∧ bucket_keys outcomes = bucket_keys first ∧
    ∀ i o, outcomes !! i = Some o →
      outcome_ok property_count kind (oc_bucket_start o) o ∧ length (cells_at (first :: rest) i) = S (length rest) ∧
      (oc_state o = CELL_COMPLETE ↔ Forall (λ c, oc_state c = CELL_COMPLETE) (cells_at (first :: rest) i)) ∧
      measured o = forallb measured (cells_at (first :: rest) i) ∧
      oc_rows o = if measured o then concat (oc_rows <$> cells_at (first :: rest) i) else [].
Proof.
  intros Hkeys Hok. set (chunks := first :: rest) in *. unfold combine_chunks.
  cbv zeta. unfold chunks at 1. cbv iota. match goal with |- context [existsb ?f rest] => assert (Hex : existsb f rest = false) end.
  { apply not_true_iff_false. rewrite existsb_exists. intros (chunk & Hin%list_elem_of_In & Hn). rewrite Forall_forall in Hkeys.
    by rewrite bool_decide_eq_true_2 in Hn by by apply Hkeys. }
  rewrite Hex. cbn [raise_if res_bind]. fold chunks.
  exists (imap (combined chunks) first). split.
  { rewrite (mapM_result_ok _ (λ x, combined chunks x.1 x.2)) by (intros; apply combine_cell_combined).
    f_equal. by rewrite fmap_imap. }
  split. { unfold bucket_keys. rewrite fmap_imap. apply list_eq. intros i. by rewrite list_lookup_imap, list_lookup_fmap. }
  intros i o Ho. rewrite list_lookup_imap in Ho. destruct (first !! i) as [lead|] eqn:El; [|done]. injection Ho as <-.
  assert (Hall : ∀ chunk, chunk ∈ chunks → ∃ c, chunk !! i = Some c ∧ outcome_ok property_count kind (oc_bucket_start lead) c).
  { intros chunk Hin. assert (Hb : bucket_keys chunk = bucket_keys first).
    { apply elem_of_cons in Hin as [->|Hin]; [done|]. rewrite Forall_forall in Hkeys. by apply Hkeys. }
    apply (bucket_keys_lookup _ _ i) in Hb. rewrite El in Hb. destruct (chunk !! i) as [c|] eqn:Ec; [|done].
    exists c. split; [done|]. cbn in Hb. injection Hb as _ <-. by apply (Hok chunk i). }
  assert (Hcells : ∀ c, c ∈ cells_at chunks i → outcome_ok property_count kind (oc_bucket_start lead) c).
  { intros c (chunk & Hin & Hc)%list_elem_of_omap. destruct (Hall chunk Hin) as (c' & Hc' & Hk). congruence. }
  split; [|split; [|split; [|split; [|done]]]].
  - apply (combined_ok property_count kind chunks i lead); [|done]. destruct (Hall first) as (c & Hc & Hk); [left|]. destruct Hk as [Hk _ _ _ _]. congruence.
  - apply (cells_at_length chunks). apply Forall_forall. intros chunk Hin. destruct (Hall chunk Hin) as (c & -> & _). by eexists.
  - cbn [oc_state combined]. rewrite combined_complete, Forall_fmap. done.
  - unfold measured at 1. cbn [oc_state combined]. rewrite combined_measured. clear. by induction (cells_at chunks i) as [|c cs IH]; cbn; rewrite ?IH.
Qed.
