(* ===== verification/PwExamples.v ===== *)
(** * A watch over two hours

    One property, one pinned value: a grouped search that was whole and one that was cut. *)

From S2P Require Import Prelude PyStr PyFloat PyTime PyJson Enums PwFacts PwSearch PwFold PwAdmission PwAdmitTheorems PwTickTheorems PwSearchTheorems.

(** Letters are printable. *)
Definition pw_printable (c : N) : bool := ((32 <=? c) && (c <=? 126))%N.

Definition pw_row (h : Z) (events : Z) (value : option text) : PwKeyedRow :=
  {| kr_bucket_start := utc (td_hours h); kr_events := events; kr_values := [value] |}.

Definition pw_total (h : Z) (events : Z) : PwKeyedRow :=
  {| kr_bucket_start := utc (td_hours h); kr_events := events; kr_values := [] |}.

Definition pw_outcome (kind : PwSearchKind) (h : Z) (state : PwCellState) (rows : list PwKeyedRow) : PwBucketOutcome :=
  {| oc_search := kind; oc_bucket_start := utc (td_hours h); oc_state := state; oc_rows := rows; oc_provenance := None |}.

(** "A", "B" and "C". *)
Definition pw_a : text := [65%N].
Definition pw_b : text := [66%N].
Definition pw_c : text := [67%N].

Definition pw_scope : ScopeColumns := {| sc_members := None; sc_fingerprint := None; sc_changed := false; sc_maintenance := false |}.

Definition pw_buckets : list (BucketSearches * ScopeColumns) :=
  [({| bs_grouped := pw_outcome GROUPED 1 CELL_COMPLETE [pw_row 1 40 (Some pw_b); pw_row 1 7 None; pw_row 1 2 (Some (pw_c ++ [32%N]))];
       bs_totals := pw_outcome TOTALS 1 CELL_COMPLETE [pw_total 1 60];
       bs_pinned := Some (pw_outcome PINNED 1 CELL_COMPLETE []) |}, pw_scope);
   ({| bs_grouped := pw_outcome GROUPED 2 CELL_LOWER_BOUND [pw_row 2 30 (Some pw_b)];
       bs_totals := pw_outcome TOTALS 2 CELL_COMPLETE [pw_total 2 90];
       bs_pinned := Some (pw_outcome PINNED 2 CELL_COMPLETE [pw_row 2 5 (Some pw_a)]) |}, pw_scope)].

Definition pw_policy : PwAdmissionPolicy := {| po_min_events := 5; po_max_new_per_bucket := 3; po_max_active := 10; po_active_days := 30 |}.

Definition pw_settings : WatchSettings :=
  {| ws_bucket_seconds := 3600; ws_max_values := 10; ws_value_max_length := 100; ws_policy := pw_policy |}.

Definition pw_pins : gmap text (list text) := {[ pw_a := [pw_a] ]}.

Lemma pw_outcome_ok kind h state rows : (1 <=? h) = true → measured_state state = true →
  forallb (λ r, bool_decide (kr_bucket_start r = utc (td_hours h)) && (0 <=? kr_events r) &&
                (bool_decide (kind = TOTALS) || Nat.eqb (length (kr_values r)) 1)) rows = true →
  outcome_ok 1 kind (utc (td_hours h)) (pw_outcome kind h state rows).
Proof.
  intros _ Hm H. rewrite forallb_forall in H.
  assert (Hr : ∀ r, r ∈ rows → kr_bucket_start r = utc (td_hours h) ∧ 0 <= kr_events r ∧ (kind ≠ TOTALS → length (kr_values r) = 1%nat)).
  { intros r Hin%list_elem_of_In. specialize (H r Hin). apply andb_true_iff in H as [H Hv]. apply andb_true_iff in H as [Ha He].
    apply bool_decide_eq_true in Ha. apply Z.leb_le in He. split_and!; [done|done|]. intros Hk. apply orb_true_iff in Hv as [Hv|Hv].
    - by apply bool_decide_eq_true in Hv.
    - by apply Nat.eqb_eq in Hv. }
  split; [done|done| | |].
  - apply Forall_forall. intros r Hin. destruct (Hr r Hin) as (? & ? & _). done.
  - intros Hk. apply Forall_forall. intros r Hin. destruct (Hr r Hin) as (_ & _ & ?). auto.
  - unfold measured. cbn. by rewrite Hm.
Qed.

Lemma pw_buckets_ok : Forall (λ x, bucket_ok 1 pw_pins x.1) pw_buckets.
Proof.
  repeat constructor; cbn [bs_grouped bs_totals bs_pinned fst bucket_at oc_bucket_start pw_outcome]; try done; by apply pw_outcome_ok.
Qed.

Lemma pw_ascending : ascending pw_buckets.
Proof. repeat constructor. Qed.

Lemma pw_new_rows x : x ∈ pw_buckets → tidy (bucket_at x.1) ∅.
Proof. intros _ key v H. by rewrite lookup_empty in H. Qed.

Lemma readings_honest_witness : ∃ admitted values' n,
  collect_buckets pw_printable pw_settings 1 1 [[pw_a]] false ∅ pw_buckets = Ok (admitted, values', n) ∧ length admitted = 2%nat ∧
  ∀ i x a key v, pw_buckets !! i = Some x → admitted !! i = Some a → values' !! key = Some v →
    ∃ r, reading_for (Some (ab_fact a)) (tv_pinned v) (tracked_at v (bucket_at x.1)) (ab_metrics a !! key) = Ok r ∧
      (rd_kind r = RK_MEASURED_ZERO → measured_none pw_printable 100 x.1 key).
Proof.
  destruct (readings_honest pw_printable eq_refl pw_settings 1 1 [[pw_a]] false 100 pw_pins eq_refl eq_refl eq_refl ltac:(cbn; lia) ltac:(cbn; lia)
    ltac:(lia) ∅ pw_buckets pw_ascending pw_buckets_ok pw_new_rows) as (admitted & values' & n & Hc & Hl & H).
  exists admitted, values', n. split; [exact Hc|]. split; [exact Hl|]. intros i x a key v Hx Ha Hv.
  destruct (H i x a key v Hx Ha Hv) as (r & Hr & Hz & _). exists r. split; [exact Hr|exact Hz].
Defined.


(** The first hour's searches: "B" is admitted, "C" is under the minimum, the pinned "A" is a
    zero, and the unparsed row counts nowhere. *)
Example pw_tick : match collect_buckets pw_printable pw_settings 1 1 [[pw_a]] false ∅ pw_buckets with
  | Ok ([a1; a2], values, n) =>
      map_to_list (ab_metrics a1) = [(pw_b, 40)] ∧ bf_untracked_events (ab_fact a1) = Some 2 ∧ bf_parsed_events (ab_fact a1) = Some 42 ∧
      bf_below_admission_threshold (ab_fact a1) = 1 ∧ ab_metrics a2 !! pw_a = Some 5 ∧ bf_untracked_events (ab_fact a2) = None ∧
      is_active values pw_a = true ∧ is_active values pw_b = true ∧ values !! pw_c = None
  | _ => False
  end.
Proof. vm_compute. split_and!; reflexivity. Qed.

(** A provider whose answers are cut while they cover more than one bucket. *)
Definition pw_provider (n : nat) (a b : datetime) (cap : Z) : PwAnswer :=
  ANSWER [pw_row (dt_us a / td_hours 1) 3 (Some pw_b)] (td_hours 1 <? dt_us b - dt_us a) "query".

Definition pw_spec : PwQuerySpec := {| qs_search := GROUPED; qs_properties := 1; qs_pinned := [] |}.

Definition pw_budget : PwSearchBudget := {| bu_max_searches := 4; bu_max_per_watch := None; bu_used := 0; bu_by_watch := ∅ |}.

Lemma run_search_sound_witness : ∃ outcomes s,
  run_search pw_provider pw_spec (utc (td_hours 0)) 3600 100 None (utc (td_hours 3)) pw_budget 0 = Ok (outcomes, s) ∧
  (∀ i o, outcomes !! i = Some o → justified pw_provider pw_spec (utc (td_hours 0)) 3600 100 i o) ∧ bu_used (sn_budget s) <= 4.
Proof.
  destruct (run_search_sound pw_provider pw_spec (utc (td_hours 0)) 3600 100 None ltac:(lia) ltac:(discriminate)
    ltac:(intros n a b cap rows cut query [= <- _ _]; repeat constructor; cbn; lia) (utc (td_hours 3)) pw_budget 0 eq_refl ltac:(lia))
    as (outcomes & s & Hr & _ & Ho & _ & _ & Hb).
  exists outcomes, s. split; [exact Hr|]. split; [intros i o Hi; exact (proj2 (Ho i o Hi))|exact Hb].
Defined.

(** Three hours and four searches: the window is cut, its first hour is whole, the other two are
    cut again, and after the second hour no search is left. *)
Example pw_split : match run_search pw_provider pw_spec (utc (td_hours 0)) 3600 100 None (utc (td_hours 3)) pw_budget 0 with
  | Ok (outcomes, s) => map oc_state outcomes = [CELL_COMPLETE; CELL_COMPLETE; CELL_NOT_COLLECTED] ∧ sn_calls s = 4%nat
  | Err _ => False
  end.
Proof. vm_compute. split; reflexivity. Qed.

Definition pw_chunk (state : PwCellState) (events : Z) : list PwBucketOutcome :=
  [pw_outcome GROUPED 1 state [pw_row 1 events (Some pw_b)]].

Lemma combine_chunks_sound_witness : ∃ o, combine_chunks [pw_chunk CELL_COMPLETE 4; pw_chunk CELL_LOWER_BOUND 6] = Ok [o] ∧
  outcome_ok 1 GROUPED (oc_bucket_start o) o.
Proof.
  destruct (combine_chunks_sound 1 GROUPED (pw_chunk CELL_COMPLETE 4) [pw_chunk CELL_LOWER_BOUND 6]) as (os & Hc & _ & Ho).
  - repeat constructor.
  - intros chunk i o Hin Hi. apply elem_of_cons in Hin as [->|Hin]; [|apply list_elem_of_singleton in Hin as ->];
      (destruct i as [|i]; cbn in Hi; [injection Hi as <-; by apply pw_outcome_ok|discriminate Hi]).
  - injection Hc as <-. eexists. split; [reflexivity|]. exact (proj1 (Ho 0%nat _ eq_refl)).
Defined.
