(* ===== verification/PwDetect.v ===== *)
(** * Property-watch detection

    [property_watch/baseline.py], [property_watch/inputs.py], the property-watch half of
    [anomaly/capabilities.py], and [property_watch/detectors.py]: the seasonal baseline of a
    value, what a count may support, and the five detectors. A function of the source that
    returns a verdict or something else ends early with the verdict here. *)

From S2P Require Import Prelude PyStr PyFloat PyTime PyJson Enums RuleCatalog AnomalyLifecycle Statistics Detectors Seasonal Baseline PwFacts.
Export RuleCatalog.Measurement.

(** ** Dicts *)

(** [o[k] = v] *)
Fixpoint obj_set (o : jobj) (k : string) (v : json) : jobj :=
  match o with
  | [] => [(k, v)]
  | (k', v') :: o => if decide (k' = k) then (k, v) :: o else (k', v') :: obj_set o k v
  end.

(** [o.update(o')], and [{**o, **o'}] *)
Definition obj_update (o o' : jobj) : jobj := foldl (λ o kv, obj_set o kv.1 kv.2) o o'.

(** ** The baseline of a value *)

Module PwBaseline.

Definition PW_VALUE_EVENTS_METRIC : string := "value_events".
Definition PW_VALUE_EVENTS_SEMANTICS : string := "property_watch/value_events/v1".

Record PwBaselineReading := { br_bucket : PwBucketFact; br_reading : PwReading }.

Inductive Excluded := X_LOWER_BOUND | X_UNKNOWN | X_LOW_COVERAGE | X_SCOPE_CHANGED | X_MAINTENANCE | X_VERSION_MISMATCH | X_KNOWN_ANOMALY.

#[export] Instance Excluded_eq_dec : EqDecision Excluded.
Proof. solve_decision. Defined.

Record PwExclusionTally := {
  xt_lower_bound : Z; xt_unknown : Z; xt_low_coverage : Z; xt_scope_changed : Z; xt_maintenance : Z;
  xt_version_mismatch : Z; xt_known_anomaly : Z }.

Definition empty_tally : PwExclusionTally :=
  {| xt_lower_bound := 0; xt_unknown := 0; xt_low_coverage := 0; xt_scope_changed := 0; xt_maintenance := 0;
     xt_version_mismatch := 0; xt_known_anomaly := 0 |}.

(** [as_dict] and [total]. *)
Definition as_dict (t : PwExclusionTally) : list (string * Z) :=
  [("lower_bound", xt_lower_bound t); ("unknown", xt_unknown t); ("low_coverage", xt_low_coverage t);
   ("scope_changed", xt_scope_changed t); ("maintenance", xt_maintenance t);
   ("version_mismatch", xt_version_mismatch t); ("known_anomaly", xt_known_anomaly t)].

Definition total (t : PwExclusionTally) : Z := sum_Z (snd <$> as_dict t).

(** [tally.x += 1] *)
Definition count_excluded (x : Excluded) (t : PwExclusionTally) : PwExclusionTally :=
  let one y := if decide (x = y) then 1 else 0 in
  {| xt_lower_bound := xt_lower_bound t + one X_LOWER_BOUND; xt_unknown := xt_unknown t + one X_UNKNOWN;
     xt_low_coverage := xt_low_coverage t + one X_LOW_COVERAGE; xt_scope_changed := xt_scope_changed t + one X_SCOPE_CHANGED;
     xt_maintenance := xt_maintenance t + one X_MAINTENANCE; xt_version_mismatch := xt_version_mismatch t + one X_VERSION_MISMATCH;
     xt_known_anomaly := xt_known_anomaly t + one X_KNOWN_ANOMALY |}.

Record PwBaselineCell := {
  pc_metric_name : string; pc_weekday : Z; pc_hour : Z; pc_median : float; pc_mad : float; pc_p05 : float;
  pc_p95 : float; pc_sample_count : Z; pc_is_reliable : bool; pc_completeness : float;
  pc_observations : list float; pc_watch_version : Z; pc_metric_semantics : string; pc_baseline_version : Z }.

Abbreviation key := (Z * Z)%type.

(** The dicts of the loop over the readings: what was retained, in order of first retention,
    its dates, and the number of candidates of each cell. *)
Record Build := {
  bd_tally : PwExclusionTally; bd_retained : list (key * list float); bd_visits : gmap key (gset Z);
  bd_candidates : gmap key Z }.

Definition empty_build : Build :=
  {| bd_tally := empty_tally; bd_retained := []; bd_visits := ∅; bd_candidates := ∅ |}.

Section Builder.
Context (watch_version : Z) (min_coverage : float) (incident_spans : list (datetime * datetime)).

(** Why a reading does not train its cell; [None] when it does, with its value. *)
Definition exclusion (b : PwBucketFact) (r : PwReading) : result (Excluded + Z) :=
  if decide (rd_measurement r = Some WM_LOWER_BOUND) then Ok (inl X_LOWER_BOUND)
  else match rd_events r, rd_measurement r with
       | None, _ | _, None => Ok (inl X_UNKNOWN)
       | Some events, Some _ =>
           c <- coverage b ;;
           if negb (reaches c min_coverage) then Ok (inl X_LOW_COVERAGE)
           else if bf_scope_changed b then Ok (inl X_SCOPE_CHANGED)
           else if bf_in_maintenance b then Ok (inl X_MAINTENANCE)
           else if negb (bf_watch_version b =? watch_version) then Ok (inl X_VERSION_MISMATCH)
           else
             known <- in_any_span (bf_bucket_start b) incident_spans ;;
             Ok (if known : bool then inl X_KNOWN_ANOMALY else inr events)
       end.

(** One turn of the loop. *)
Definition add_reading (acc : Build) (item : PwBaselineReading) : result Build :=
  let '{| br_bucket := b; br_reading := r |} := item in
  if decide (rd_kind r = RK_NOT_AN_OBSERVATION) then Ok acc
  else
    let k := seasonal_key (bf_bucket_start b) in
    let candidates := <[k := default 0 (bd_candidates acc !! k) + 1]> (bd_candidates acc) in
    x <- exclusion b r ;;
    match x with
    | inl why => Ok {| bd_tally := count_excluded why (bd_tally acc); bd_retained := bd_retained acc;
                       bd_visits := bd_visits acc; bd_candidates := candidates |}
    | inr events =>
        value <- float_of_int events ;;
        Ok {| bd_tally := bd_tally acc; bd_retained := append_to k value (bd_retained acc);
              bd_visits := <[k := default ∅ (bd_visits acc !! k) ∪ {[dt_day (bf_bucket_start b)]}]> (bd_visits acc);
              bd_candidates := candidates |}
    end.
End Builder.

(** One turn of the loop over the cells. *)
Definition build_cell (watch_version min_samples min_visits : Z) (b : Build) (kv : key * list float)
    : result PwBaselineCell :=
  let '((weekday, hour), values) := kv in
  summary <- summarize_cell values min_samples ;;
  share <- retained_fraction (Z.of_nat (length values)) (default 0 (bd_candidates b !! (weekday, hour))) ;;
  Ok {| pc_metric_name := PW_VALUE_EVENTS_METRIC; pc_weekday := weekday; pc_hour := hour;
        pc_median := cs_median summary; pc_mad := cs_mad summary; pc_p05 := cs_p05 summary; pc_p95 := cs_p95 summary;
        pc_sample_count := cs_sample_count summary;
        pc_is_reliable := cs_is_reliable summary &&
          (min_visits <=? Z.of_nat (size (default ∅ (bd_visits b !! (weekday, hour)))));
        pc_completeness := share; pc_observations := cs_observations summary; pc_watch_version := watch_version;
        pc_metric_semantics := PW_VALUE_EVENTS_SEMANTICS; pc_baseline_version := 1 |}.

Definition build_value_baseline (readings : list PwBaselineReading) (watch_version : Z) (min_coverage : float)
    (baseline_min_samples baseline_min_visits : Z) (incident_spans : list (datetime * datetime))
    : result (list (key * PwBaselineCell) * PwExclusionTally) :=
  _ <- raise_if (watch_version <? 1) (ValueError "a watch version starts at 1") ;;
  _ <- raise_if (negb (fle f0 min_coverage && fle min_coverage f1)) (ValueError "coverage must be between zero and one") ;;
  _ <- raise_if (baseline_min_samples <? 1) (ValueError "baseline_min_samples must be positive") ;;
  _ <- raise_if (baseline_min_visits <? 1) (ValueError "baseline_min_visits must be positive") ;;
  b <- foldM (add_reading watch_version min_coverage incident_spans) empty_build readings ;;
  cells <- mapM_result (λ kv, c <- build_cell watch_version baseline_min_samples baseline_min_visits b kv ;; Ok (kv.1, c))
             (bd_retained b) ;;
  Ok (cells, bd_tally b).
End PwBaseline.
Export PwBaseline.

(** ** What a detector may conclude *)

Record HistoryFacts := { hf_complete : bool; hf_reason : option string }.

Inductive PwInput := VALUE_EVENTS | COVERAGE | VALUE_HISTORY | COMPONENT_HISTORY | MATERIALITY.

#[export] Instance PwInput_eq_dec : EqDecision PwInput.
Proof. solve_decision. Defined.

Record PwObservation := {
  po_bucket : option PwBucketFact; po_reading : PwReading; po_history : option HistoryFacts;
  po_component_history : option WafMeasurement; po_materiality : option WafMeasurement }.

Definition bucket_measurement (m : PwBucketMeasurement) : option WafMeasurement :=
  match m with PB_EXACT => Some WM_EXACT | PB_LOWER_BOUND => Some WM_LOWER_BOUND | PB_NOT_COLLECTED => None end.

Definition input_measurement (source : PwInput) (o : PwObservation) : option WafMeasurement :=
  match source with
  | VALUE_EVENTS => rd_measurement (po_reading o)
  | COVERAGE => match po_bucket o with None => None | Some b => bucket_measurement (bf_values_measurement b) end
  | VALUE_HISTORY =>
      match po_history o with Some h => if hf_complete h then Some WM_EXACT else None | None => None end
  | COMPONENT_HISTORY => po_component_history o
  | MATERIALITY => po_materiality o
  end.

Record InputRequirement := {
  ir_input : PwInput; ir_role : string; ir_requirement : WafMeasurementRequirement; ir_rationale : string }.

(** What [_pw] takes; the domain, task and setting it adds are the same for all five. *)
Record PwSpec := {
  ps_baselines : list string; ps_inputs : list InputRequirement; ps_measurement : option WafMeasurementRequirement }.

Definition req (input : PwInput) (role : string) (requirement : WafMeasurementRequirement) (rationale : string)
    : InputRequirement :=
  {| ir_input := input; ir_role := role; ir_requirement := requirement; ir_rationale := rationale |}.

Definition PW_COVERAGE : InputRequirement :=
  req COVERAGE "coverage" LOWER_BOUND_PROVES_INCREASE
    "coverage only has to reach its floor, and a lower bound that reaches the floor proves true coverage does".

Definition PW_DETECTORS (t : PwAnomalyType) : PwSpec :=
  match t with
  | PW_VALUE_SPIKE =>
      {| ps_baselines := [PW_VALUE_EVENTS_METRIC]; ps_measurement := Some LOWER_BOUND_PROVES_INCREASE;
         ps_inputs := [req VALUE_EVENTS "volume" LOWER_BOUND_PROVES_INCREASE
           "minimum events, ratio, absolute delta, robust z and the degenerate-MAD band are all non-decreasing in the value's event count"] |}
  | PW_VALUE_DROP =>
      {| ps_baselines := [PW_VALUE_EVENTS_METRIC]; ps_measurement := Some EXACT;
         ps_inputs := [req VALUE_EVENTS "volume" EXACT "an undercount cannot prove that a value's traffic dropped"; PW_COVERAGE] |}
  | PW_VALUE_DISAPPEARED =>
      {| ps_baselines := [PW_VALUE_EVENTS_METRIC]; ps_measurement := Some EXACT;
         ps_inputs := [req VALUE_EVENTS "volume" EXACT "disappearance is an absence claim and therefore needs exact counts"; PW_COVERAGE] |}
  | PW_NEW_VALUE =>
      {| ps_baselines := []; ps_measurement := None;
         ps_inputs :=
           [req VALUE_HISTORY "history" EXACT
              "absence before first appearance needs every history bucket recorded with whole discovery and admission under the same watch version";
            req MATERIALITY "materiality" LOWER_BOUND_PROVES_INCREASE
              "minimum events and buckets with traffic are non-decreasing in the counts"] |}
  | PW_NEW_COMBINATION =>
      {| ps_baselines := []; ps_measurement := None;
         ps_inputs :=
           [req VALUE_HISTORY "tuple history" EXACT "never together is an absence claim and needs complete tuple history";
            req COMPONENT_HISTORY "components known" LOWER_BOUND_PROVES_INCREASE
              "a counted occurrence, including one in a lower-bound bucket, proves presence";
            req MATERIALITY "materiality" LOWER_BOUND_PROVES_INCREASE
              "minimum events and buckets with traffic are non-decreasing in the counts"] |}
  end.

(** The decision of one input, its reason prefixed by the role. *)
Definition input_decision (o : PwObservation) (r : InputRequirement) : ScopeDecision :=
  let d := verdict_scope (ir_requirement r) (input_measurement (ir_input r) o) in
  match sd_reason d with
  | None => d
  | Some reason => {| sd_scope := sd_scope d; sd_reason := Some (ir_role r +:+ ": " +:+ reason) |}
  end.

Definition pw_input_scope (t : PwAnomalyType) (o : PwObservation) : ScopeDecision :=
  let spec := PW_DETECTORS t in
  match ps_inputs spec with
  | [] => verdict_scope (default EXACT (ps_measurement spec)) (input_measurement VALUE_EVENTS o)
  | inputs => narrowest (input_decision o <$> inputs)
  end.

(** ** The context of a detector *)

Record PwThresholds := {
  pt_deviation_z : float; pt_mad_floor_ratio : float; pt_min_coverage : float; pt_baseline_min_samples : Z;
  pt_spike_ratio : float; pt_min_absolute_delta_events : float; pt_min_bucket_events : float;
  pt_drop_min_median : float; pt_drop_ratio : float; pt_disappear_min_median : float; pt_disappear_buckets : Z;
  pt_value_active_days : Z; pt_new_value_history_days : Z; pt_new_value_window_buckets : Z;
  pt_new_value_min_events : Z; pt_new_value_min_buckets : Z; pt_admission_min_events : Z; pt_baseline_min_visits : Z }.

(** The defaults. *)
Definition default_thresholds : PwThresholds :=
  {| pt_deviation_z := lit 35 10; pt_mad_floor_ratio := lit 1 10; pt_min_coverage := lit 9 10;
     pt_baseline_min_samples := 8; pt_spike_ratio := lit 2 1; pt_min_absolute_delta_events := lit 50 1;
     pt_min_bucket_events := lit 20 1; pt_drop_min_median := lit 20 1; pt_drop_ratio := lit 5 10;
     pt_disappear_min_median := lit 5 1; pt_disappear_buckets := 6; pt_value_active_days := 7;
     pt_new_value_history_days := 7; pt_new_value_window_buckets := 12; pt_new_value_min_events := 20;
     pt_new_value_min_buckets := 2; pt_admission_min_events := 3; pt_baseline_min_visits := 2 |}.

Record PwReadingPoint := { rp_bucket : PwBucketFact; rp_reading : PwReading }.

Record PwComponentFact := {
  cf_value : text; cf_tracked_before : bool; cf_measurement : option WafMeasurement; cf_seen_below_admission : bool }.

Definition known (c : PwComponentFact) : bool := cf_tracked_before c && is_some_b (cf_measurement c).

Record PwNoveltyFacts := {
  nf_first_seen_at : datetime; nf_history : HistoryFacts; nf_history_start : datetime; nf_history_end : datetime;
  nf_history_buckets : Z; nf_appearance_bucket : PwBucketFact; nf_events_since_first_seen : Z;
  nf_buckets_with_traffic : Z; nf_materiality_measurement : WafMeasurement;
  nf_watch_first_collected_at : option datetime; nf_pinned : bool; nf_membership_changed : bool;
  nf_property_count : Z; nf_components : list PwComponentFact; nf_established_at_hand_off : option datetime;
  nf_history_buckets_from_history : Z; nf_history_floor : option datetime }.

Record PwDetectionContext := {
  dc_watch_status : option PwWatchStatus; dc_bucket : option PwBucketFact; dc_reading : PwReading;
  dc_baseline : option PwBaselineCell; dc_thresholds : PwThresholds; dc_last_seen_at : option datetime;
  dc_recent : list PwReadingPoint; dc_novelty : option PwNoveltyFacts; dc_extra : jobj }.

Record PwVerdict := { pv_detector_type : PwAnomalyType; pv_evidence : Evidence PwAnomalyType }.

Definition signal (v : PwVerdict) : DetectorSignal := ev_signal (pv_evidence v).

Definition component_measurement (novelty : option PwNoveltyFacts) : option WafMeasurement :=
  match novelty with
  | None => None
  | Some n =>
      if negb (Z.of_nat (length (nf_components n)) =? 2) then None
      else if negb (forallb known (nf_components n)) then None
      else if existsb (λ c, bool_decide (cf_measurement c = Some WM_LOWER_BOUND)) (nf_components n)
           then Some WM_LOWER_BOUND
      else Some WM_EXACT
  end.

(** ** Early ends *)

(** A computation that may raise, or end with a verdict. *)
Abbreviation step A := (result (PwVerdict + A)).

Definition bind_step {A B} (m : step A) (f : A → step B) : step B :=
  match m with Ok (inr a) => f a | Ok (inl v) => Ok (inl v) | Err e => Err e end.

Notation "x <~ m ;; k" := (bind_step m (λ x, k))
  (at level 100, m at next level, right associativity) : result_scope.

(** [return v] *)
Definition stop {A} (v : PwVerdict) : step A := Ok (inl v).

(** A call that only raises. *)
Definition lift {A} (m : result A) : step A := a <- m ;; Ok (inr a).

(** The value of the body of a detector, which always returns a verdict. *)
Definition verdict_of (m : step PwVerdict) : result PwVerdict :=
  match m with Ok (inl v) | Ok (inr v) => Ok v | Err e => Err e end.

(** ** The guard *)

Record Guard := { gd_ctx : PwDetectionContext; gd_detector_type : PwAnomalyType; gd_decision : ScopeDecision }.

(** [_Guard(ctx, detector_type)] *)
Definition make_guard (ctx : PwDetectionContext) (t : PwAnomalyType) : Guard :=
  {| gd_ctx := ctx; gd_detector_type := t;
     gd_decision := pw_input_scope t
       {| po_bucket := dc_bucket ctx; po_reading := dc_reading ctx; po_history := nf_history <$> dc_novelty ctx;
          po_component_history := component_measurement (dc_novelty ctx);
          po_materiality := nf_materiality_measurement <$> dc_novelty ctx |} |}.

Definition gd_thresholds (g : Guard) : PwThresholds := dc_thresholds (gd_ctx g).

(** [datetime.min.replace(tzinfo=UTC)] *)
Definition datetime_min : datetime := utc (- 62135596800 * us_per_second).

Definition bucket_close (b : PwBucketFact) : datetime := dt_add (bf_bucket_start b) (td_seconds (bf_bucket_seconds b)).

Definition interval (g : Guard) : datetime * datetime :=
  match dc_bucket (gd_ctx g) with
  | None => (datetime_min, datetime_min)
  | Some b => (bf_bucket_start b, bucket_close b)
  end.

Definition verdict (g : Guard) (e : Evidence PwAnomalyType) : PwVerdict :=
  {| pv_detector_type := gd_detector_type g; pv_evidence := e |}.

(** [guard.insufficient(reason, sample_count=...)], [guard.healthy] and [guard.not_proven]. *)
Definition insufficient_with (g : Guard) (samples : Z) (reason : string) : PwVerdict :=
  let '(start, end_) := interval g in verdict g (insufficient (gd_detector_type g) start end_ reason samples).

Definition insufficient_verdict (g : Guard) (reason : string) : PwVerdict := insufficient_with g 0 reason.

Definition healthy_verdict (g : Guard) (reason : string) (observed expected : option float) : PwVerdict :=
  let '(start, end_) := interval g in verdict g (healthy (gd_detector_type g) start end_ observed expected reason).

(** [reason or default] *)
Definition or_text (s : option string) (d : string) : string :=
  match s with None => d | Some s => if decide (s = "") then d else s end.

Definition not_proven (g : Guard) (reason : string) (observed expected : float) : PwVerdict :=
  if decide (sd_scope (gd_decision g) = INCREASE_ONLY) then
    insufficient_verdict g (reason +:+ "; " +:+ or_text (sd_reason (gd_decision g)) "an input is a lower bound" +:+
                            ", so a normal verdict cannot be concluded")
  else healthy_verdict g reason (Some observed) (Some expected).

(** [return guard.not_proven(...)] *)
Definition not_yet {A} (g : Guard) (observed expected : float) (reason : string) : result (PwVerdict + A) :=
  stop (not_proven g reason observed expected).

Definition blocked : list PwWatchStatus :=
  [PW_NOT_ENABLED; PW_DISABLED; PW_NOT_APPLICABLE; PW_SCOPE_STALE; PW_SCOPE_EMPTY; PW_SCOPE_TOO_LARGE; PW_STALE].

Definition watch (g : Guard) : step unit :=
  match dc_watch_status (gd_ctx g) with
  | None => stop (insufficient_verdict g "the watch has never established a collection status")
  | Some s =>
      if decide (s ∈ blocked) then
        stop (insufficient_verdict g ("the watch is " +:+ PwWatchStatus_value s +:+ ": no value verdict is possible"))
      else Ok (inr ())
  end.

(** [bucket_guard()]: the bucket, once the guard lets it pass. *)
Definition bucket_guard (g : Guard) : step PwBucketFact :=
  match dc_bucket (gd_ctx g) with
  | None => stop (insufficient_verdict g "the bucket is missing: no count was measured")
  | Some b =>
      if decide (rd_kind (dc_reading (gd_ctx g)) = RK_NO_BUCKET) then
        stop (insufficient_verdict g "the bucket is missing: no count was measured")
      else if decide (bf_values_measurement b = PB_NOT_COLLECTED) then
        stop (insufficient_verdict g "the bucket was NOT_COLLECTED: its count is not zero")
      else if bf_scope_changed b then stop (insufficient_verdict g "membership changed during this bucket")
      else if property_not_parsed b then
        stop (insufficient_verdict g "the property parsed on none of this bucket's events: NOT_APPLICABLE")
      else Ok (inr b)
  end.

(** [cell()] *)
Definition cell (g : Guard) (b : PwBucketFact) : step PwBaselineCell :=
  let minimum := pt_baseline_min_samples (gd_thresholds g) in
  match dc_baseline (gd_ctx g) with
  | None => stop (insufficient_verdict g "no value-events baseline for this weekday/hour cell yet")
  | Some c =>
      if negb (pc_watch_version c =? bf_watch_version b) then
        stop (insufficient_verdict g ("the baseline uses watch version " +:+ pretty (pc_watch_version c) +:+
                ", not the bucket's " +:+ pretty (bf_watch_version b)))
      else if negb (pc_is_reliable c) && (minimum <=? pc_sample_count c) then
        let visits := pt_baseline_min_visits (gd_thresholds g) in
        stop (insufficient_with g (pc_sample_count c)
                ("the value-events baseline has " +:+ pretty (pc_sample_count c) +:+ " sample(s), but they come " +:+
                 "from too few separate weekly visits of this weekday and hour: a baseline " +:+
                 "needs the same hour from at least " +:+ pretty visits +:+ " different " +:+
                 "week" +:+ (if visits =? 1 then "" else "s")))
      else if negb (pc_is_reliable c) || (pc_sample_count c <? minimum) then
        stop (insufficient_with g (pc_sample_count c)
                ("the value-events baseline has " +:+ pretty (pc_sample_count c) +:+ " sample(s), below the " +:+
                 "minimum of " +:+ pretty minimum))
      else Ok (inr c)
  end.

(** [reading()] *)
Definition reading (g : Guard) : step float :=
  let r := dc_reading (gd_ctx g) in
  match rd_events r, rd_measurement r with
  | Some events, Some _ =>
      if decide (sd_scope (gd_decision g) = NONE) then
        stop (insufficient_verdict g (or_text (sd_reason (gd_decision g)) "the declared inputs do not support a verdict"))
      else lift (float_of_int events)
  | _, _ => stop (insufficient_verdict g "the value's count is unknown for this bucket, not zero")
  end.

(** [baseline_preconditions()], with the bucket. *)
Definition baseline_preconditions (g : Guard) : step (PwBucketFact * PwBaselineCell * float) :=
  _ <~ watch g ;;
  b <~ bucket_guard g ;;
  c <~ cell g b ;;
  observed <~ reading g ;;
  Ok (inr (b, c, observed)).

(** [coverage()] *)
Definition coverage_guard (g : Guard) (b : PwBucketFact) : step unit :=
  c <~ lift (coverage b) ;;
  if reaches c (pt_min_coverage (gd_thresholds g)) then Ok (inr ())
  else
    let seen := match cv_ratio c with None => "unknown" | Some r => fmt_percent 0 r end in
    stop (insufficient_verdict g ("property coverage was " +:+ seen +:+ ", below the " +:+
            fmt_percent 0 (pt_min_coverage (gd_thresholds g)) +:+ " floor")).

(** ** Evidence *)

Definition EVIDENCE_VERSION : Z := 1.

Definition cell_facts (c : PwBaselineCell) (observed : float) (extra : jobj) : jobj :=
  obj_update
    [("evidence_version", JInt EVIDENCE_VERSION); ("metric", JStr (pc_metric_name c)); ("observed_events", JFloat observed);
     ("median", JFloat (pc_median c)); ("p05", JFloat (pc_p05 c)); ("p95", JFloat (pc_p95 c));
     ("samples", JInt (pc_sample_count c)); ("watch_version", JInt (pc_watch_version c));
     ("metric_semantics", JStr (pc_metric_semantics c))] extra.

(** [_confidence] *)
Definition confidence_of (c : PwBaselineCell) (magnitude : float) (thr : PwThresholds) (status : RobustScoreStatus)
    : result float :=
  share <- int_div (pc_sample_count c) (lit 30 1) ;;
  let reliability := fmin f1 share in
  part <- fdiv (fabs magnitude) (fmul f2 (pt_deviation_z thr)) ;;
  let strength := fmin f1 part in
  let value := fmul (fadd (fmul (lit 4 10) reliability) (fmul (lit 6 10) strength))
                    (fmin f1 (fadd (pc_completeness c) (lit 5 10))) in
  round_digits 3 (if decide (status = RS_OK) then value else fmin value (lit 7 10)).

(** [_anomalous]; [low] and [high] are the percentiles of the cell. *)
Definition anomalous (g : Guard) (b : PwBucketFact) (c : PwBaselineCell) (observed : float) (score : option float)
    (magnitude : float) (status : RobustScoreStatus) (reason : string) (facts : jobj) (severity : Severity)
    (interval_start : option datetime) : result PwVerdict :=
  confidence <- confidence_of c magnitude (gd_thresholds g) status ;;
  Ok (verdict g
    {| ev_anomaly_type := gd_detector_type g; ev_signal := DS_ANOMALOUS; ev_severity := severity;
       ev_observed_value := Some observed; ev_expected_value := Some (pc_median c); ev_baseline_low := Some (pc_p05 c);
       ev_baseline_high := Some (pc_p95 c); ev_deviation_score := score;
       ev_threshold := Some (pt_deviation_z (gd_thresholds g)); ev_sample_count := pc_sample_count c;
       ev_interval_start := default (bf_bucket_start b) interval_start; ev_interval_end := bucket_close b;
       ev_confidence := confidence; ev_reason := reason; ev_extra := facts; ev_insufficient_data := false |}).

(** ** Spike *)

Definition detect_value_spike (ctx : PwDetectionContext) : result PwVerdict :=
  let g := make_guard ctx PW_VALUE_SPIKE in
  verdict_of (
  ready <~ baseline_preconditions g ;;
  let '(b, c, observed) := ready in
  let thr := dc_thresholds ctx in
  let expected := pc_median c in
  let delta := fsub observed expected in
  let facts := cell_facts c observed (dc_extra ctx) in
  if flt observed (pt_min_bucket_events thr) then
    not_yet g observed expected (fmt_fixed 0 observed +:+ " events is below the " +:+ fmt_fixed 0 (pt_min_bucket_events thr) +:+ " minimum")
  else
  ratio <~ lift (Statistics.ratio observed expected) ;;
  let facts := obj_set facts "ratio" (json_float ratio) in
  if match ratio with Some r => flt r (pt_spike_ratio thr) | None => false end then
    not_yet g observed expected ("observed/expected ratio " +:+ match ratio with Some r => fmt_fixed 2 r | None => "" end +:+
             " has not reached " +:+ fmt_fixed 2 (pt_spike_ratio thr))
  else if flt delta (pt_min_absolute_delta_events thr) then
    not_yet g observed expected ("increase of " +:+ fmt_fixed 0 delta +:+ " events is below the " +:+
             fmt_fixed 0 (pt_min_absolute_delta_events thr) +:+ " minimum absolute delta")
  else
  zs <~ lift (robust_z_with_status observed (pc_median c) (pc_mad c) (pt_mad_floor_ratio thr)) ;;
  let '(score, status) := zs in
  rounded <~ lift (round_digits 3 score) ;;
  let facts := obj_update facts [("robust_z", JFloat rounded); ("robust_score_status", JStr (RobustScoreStatus_value status))] in
  proven <~ (if decide (status = RS_OK) then
      if flt score (pt_deviation_z thr) then
        not_yet g observed expected ("robust z=" +:+ fmt_fixed 2 score +:+ " has not reached +" +:+ float_repr (pt_deviation_z thr))
      else Ok (inr (facts, "robust z=" +:+ fmt_fixed 2 score +:+ " (threshold +" +:+ float_repr (pt_deviation_z thr) +:+ ")", score))
    else
      let upper := pc_p95 c in
      if fle observed upper then
        not_yet g observed expected ("robust score is unavailable (MAD=0) and the value is within p95 " +:+ fmt_fixed 2 upper)
      else Ok (inr (obj_set facts "fallback_bound" (JFloat upper),
                    "robust score is unavailable (MAD=0); the value is above p95 " +:+ fmt_fixed 2 upper, pt_deviation_z thr))) ;;
  let '(facts, basis, magnitude) := proven in
  let bound := if decide (sd_scope (gd_decision g) = INCREASE_ONLY) then "at least " else "" in
  lift (anomalous g b c observed (Some score) magnitude status
    match ratio with
    | Some r => bound +:+ fmt_fixed 0 observed +:+ " events is above the median " +:+ fmt_fixed 1 expected +:+ " " +:+
                "(+" +:+ fmt_fixed 0 delta +:+ ", " +:+ fmt_fixed 2 r +:+ "x); " +:+ basis
    | None => bound +:+ fmt_fixed 0 observed +:+ " events rose from a zero median; " +:+ basis
    end facts
    match ratio with Some r => if fle (lit 4 1) r then SEV_HIGH else SEV_MEDIUM | None => SEV_MEDIUM end None)).

(** ** Drop *)

Definition detect_value_drop (ctx : PwDetectionContext) : result PwVerdict :=
  let g := make_guard ctx PW_VALUE_DROP in
  verdict_of (
  ready <~ baseline_preconditions g ;;
  let '(b, c, observed) := ready in
  let thr := dc_thresholds ctx in
  _ <~ coverage_guard g b ;;
  let expected := pc_median c in
  if flt expected (pt_drop_min_median thr) then
    not_yet g observed expected ("baseline median " +:+ fmt_fixed 1 expected +:+ " is below the " +:+
             fmt_fixed 1 (pt_drop_min_median thr) +:+ " traffic floor")
  else
  ratio <~ lift (fdiv observed expected) ;;
  if flt (pt_drop_ratio thr) ratio then
    not_yet g observed expected ("observed/expected ratio " +:+ fmt_fixed 2 ratio +:+ " is above the " +:+
             fmt_fixed 2 (pt_drop_ratio thr) +:+ " drop line")
  else
  let delta := fsub expected observed in
  if flt delta (pt_min_absolute_delta_events thr) then
    not_yet g observed expected ("fall of " +:+ fmt_fixed 0 delta +:+ " events is below the " +:+
             fmt_fixed 0 (pt_min_absolute_delta_events thr) +:+ " minimum absolute delta")
  else
  zs <~ lift (robust_z_with_status observed (pc_median c) (pc_mad c) (pt_mad_floor_ratio thr)) ;;
  let '(score, status) := zs in
  rounded <~ lift (round_digits 3 score) ;;
  let facts := obj_update (cell_facts c observed (dc_extra ctx))
    [("ratio", JFloat ratio); ("robust_z", JFloat rounded); ("robust_score_status", JStr (RobustScoreStatus_value status))] in
  proven <~ (if decide (status = RS_OK) then
      if flt (fneg (pt_deviation_z thr)) score then
        not_yet g observed expected ("robust z=" +:+ fmt_fixed 2 score +:+ " has not reached -" +:+ float_repr (pt_deviation_z thr))
      else Ok (inr (facts, "robust z=" +:+ fmt_fixed 2 score +:+ " (threshold -" +:+ float_repr (pt_deviation_z thr) +:+ ")", fabs score))
    else
      let lower := pc_p05 c in
      if fle lower observed then
        not_yet g observed expected ("robust score is unavailable (MAD=0) and the value is within p05 " +:+ fmt_fixed 2 lower)
      else Ok (inr (obj_set facts "fallback_bound" (JFloat lower),
                    "robust score is unavailable (MAD=0); the value is below p05 " +:+ fmt_fixed 2 lower, pt_deviation_z thr))) ;;
  let '(facts, basis, magnitude) := proven in
  lift (anomalous g b c observed (Some score) magnitude status
    (fmt_fixed 0 observed +:+ " exact events is below the median " +:+ fmt_fixed 1 expected +:+ " " +:+
     "(-" +:+ fmt_fixed 0 delta +:+ ", " +:+ fmt_fixed 2 ratio +:+ "x); " +:+ basis) facts SEV_MEDIUM None)).

(** ** Disappearance *)

(** [points.get(start)]: the last recent point of that start, or the bucket judged. *)
Definition point_at (ctx : PwDetectionContext) (b : PwBucketFact) (start : datetime) : option PwReadingPoint :=
  match last (filter (λ p, dt_eq (bf_bucket_start (rp_bucket p)) start = true) (dc_recent ctx)) with
  | Some p => Some p
  | None => if dt_eq (bf_bucket_start b) start then Some {| rp_bucket := b; rp_reading := dc_reading ctx |} else None
  end.

(** The loop over the window: the streak, and the start of its first bucket. *)
Fixpoint zero_streak (g : Guard) (b : PwBucketFact) (turns : nat) (expected_start : datetime) (streak : Z) (first : datetime)
    : step (Z * datetime) :=
  match turns with
  | O => Ok (inr (streak, first))
  | S turns =>
      match point_at (gd_ctx g) b expected_start with
      | None =>
          stop (insufficient_verdict g ("the bucket at " +:+ dt_isoformat expected_start +:+
            " inside the disappearance window was not supplied: its count is not zero"))
      | Some p =>
          if bf_scope_changed (rp_bucket p) then
            stop (insufficient_verdict g "membership changed inside the disappearance window")
          else match rd_events (rp_reading p), rd_measurement (rp_reading p) with
          | Some events, Some WM_EXACT =>
              c <~ lift (coverage (rp_bucket p)) ;;
              if negb (reaches c (pt_min_coverage (gd_thresholds g))) then
                stop (insufficient_verdict g ("property coverage at " +:+ dt_isoformat expected_start +:+ " was below the floor"))
              else if negb (events =? 0) then Ok (inr (streak, first))
              else zero_streak g b turns (dt_minus expected_start (td_seconds (bf_bucket_seconds b))) (streak + 1) expected_start
          | _, _ =>
              stop (insufficient_verdict g ("the value count at " +:+ dt_isoformat expected_start +:+ " is unknown, not zero"))
          end
      end
  end.

Definition detect_value_disappeared (ctx : PwDetectionContext) : result PwVerdict :=
  let g := make_guard ctx PW_VALUE_DISAPPEARED in
  verdict_of (
  ready <~ baseline_preconditions g ;;
  let '(b, c, observed) := ready in
  let thr := dc_thresholds ctx in
  _ <~ coverage_guard g b ;;
  let active_after := dt_minus (bf_bucket_start b) (td_days (pt_value_active_days thr)) in
  match dc_last_seen_at ctx with
  | None => stop (insufficient_verdict g "when the value was last observed is not known")
  | Some last_seen =>
      inactive <~ lift (dt_lt last_seen active_after) ;;
      if inactive : bool then
        not_yet g observed (pc_median c) ("the value was not observed within the last " +:+ pretty (pt_value_active_days thr) +:+ " days")
      else if flt (pc_median c) (pt_disappear_min_median thr) then
        not_yet g observed (pc_median c) ("baseline median " +:+ fmt_fixed 1 (pc_median c) +:+ " is below the " +:+
                 fmt_fixed 1 (pt_disappear_min_median thr) +:+ " disappearance floor")
      else if flt f0 observed then
        not_yet g observed (pc_median c) ("the value carried " +:+ fmt_fixed 0 observed +:+ " exact events in this bucket")
      else
      run <~ zero_streak g b (Z.to_nat (pt_disappear_buckets thr)) (bf_bucket_start b) 0 (bf_bucket_start b) ;;
      let '(streak, first) := run in
      if streak <? pt_disappear_buckets thr then
        not_yet g f0 (pc_median c) ("the value has " +:+ pretty streak +:+ " consecutive measured-zero bucket(s), below the " +:+
                 "required " +:+ pretty (pt_disappear_buckets thr))
      else
      let facts := obj_set (cell_facts c f0 (dc_extra ctx)) "consecutive_measured_zero_buckets" (JInt streak) in
      lift (anomalous g b c f0 None (pt_deviation_z thr) RS_OK
        ("the value had zero parsed events for " +:+ pretty streak +:+ " consecutive exact buckets; " +:+
         "the seasonal median is " +:+ fmt_fixed 1 (pc_median c) +:+ " events") facts SEV_MEDIUM (Some first))
  end).

(** ** Novelty *)

Definition novelty_common (g : Guard) (require_declared_scope : bool) : step (PwBucketFact * PwNoveltyFacts) :=
  let thr := gd_thresholds g in
  let healthy_end reason := stop (healthy_verdict g reason None None) in
  let unknown_end reason := stop (insufficient_verdict g reason) in
  _ <~ watch g ;;
  b <~ bucket_guard g ;;
  match dc_novelty (gd_ctx g) with
  | None => unknown_end "the value's first appearance was not established"
  | Some n =>
  match nf_established_at_hand_off n with
  | Some at_ =>
      healthy_end ("established value: first seen " +:+ dt_isoformat (nf_first_seen_at n) +:+ " in the " +:+
        "history read before the watch went live at " +:+ dt_isoformat at_)
  | None =>
  let window_end := dt_add (nf_first_seen_at n) (td_seconds (pt_new_value_window_buckets thr * bf_bucket_seconds b)) in
  past <~ lift (dt_ge (bf_bucket_start b) window_end) ;;
  if past : bool then
    healthy_end ("established value: first admitted " +:+ dt_isoformat (nf_first_seen_at n) +:+ ", outside " +:+
      "the " +:+ pretty (pt_new_value_window_buckets thr) +:+ "-bucket novelty window")
  else if nf_pinned n then healthy_end "pinned values are operator-named and are never classified as new"
  else match nf_watch_first_collected_at n with
  | None => unknown_end "learning: the watch's first collected bucket is unknown"
  | Some collected =>
  let learned_at := dt_add collected (td_days (pt_new_value_history_days thr)) in
  learning <~ lift (dt_lt (nf_first_seen_at n) learned_at) ;;
  if learning : bool then
    span <~ lift (dt_sub (bf_bucket_start b) collected) ;;
    let elapsed := Z.max 0 (span / td_days 1) in
    unknown_end ("learning: day " +:+ pretty (Z.min (elapsed + 1) (pt_new_value_history_days thr)) +:+ " of " +:+
                 pretty (pt_new_value_history_days thr))
  else if nf_membership_changed n then unknown_end "membership changed inside the first-appearance grace window"
  else if negb (hf_complete (nf_history n)) then
    unknown_end ("novelty cannot be established: " +:+
      or_text (hf_reason (nf_history n)) (or_text (sd_reason (gd_decision g)) "the history is incomplete"))
  else if require_declared_scope && bool_decide (sd_scope (gd_decision g) = NONE) then
    unknown_end (or_text (sd_reason (gd_decision g)) "the declared novelty inputs do not support a verdict")
  else
  let appearance := nf_appearance_bucket n in
  if bf_admission_truncated appearance || (0 <? bf_rejected_over_quota appearance) then
    unknown_end ("the first-appearance bucket had truncated admission: the value appeared in a " +:+
      "flood and is not individually new")
  else Ok (inr (b, n))
  end end end.

(** [_materiality] *)
Definition materiality (g : Guard) (b : PwBucketFact) (n : PwNoveltyFacts) (claim classification : string) : step PwVerdict :=
  let thr := gd_thresholds g in
  let events := nf_events_since_first_seen n in
  let buckets := nf_buckets_with_traffic n in
  let lower_bound := bool_decide (nf_materiality_measurement n = WM_LOWER_BOUND) in
  if (events <? pt_new_value_min_events thr) || (buckets <? pt_new_value_min_buckets thr) then
    let reason := pretty events +:+ " event(s) in " +:+ pretty buckets +:+ " bucket(s) since first appearance has not reached " +:+
      pretty (pt_new_value_min_events thr) +:+ " events in " +:+ pretty (pt_new_value_min_buckets thr) +:+ " buckets" in
    if lower_bound then stop (insufficient_verdict g (reason +:+ "; the materiality counts are lower bounds"))
    else
      observed <~ lift (float_of_int events) ;;
      stop (healthy_verdict g reason (Some observed) (Some f0))
  else
  let bound := if lower_bound then "at least " else "" in
  let facts := obj_update
    [("evidence_version", JInt EVIDENCE_VERSION); ("classification", JStr classification);
     ("history_start", JStr (dt_isoformat (nf_history_start n))); ("history_end", JStr (dt_isoformat (nf_history_end n)));
     ("history_buckets_verified", JInt (nf_history_buckets n));
     ("history_buckets_from_history", JInt (nf_history_buckets_from_history n));
     ("history_floor", match nf_history_floor n with Some t => JStr (dt_isoformat t) | None => JNull end);
     ("events_since_first_seen", JInt events); ("buckets_with_traffic", JInt buckets);
     ("measurement", JStr (WafMeasurement_value (nf_materiality_measurement n))); ("claim", JStr claim)]
    (dc_extra (gd_ctx g)) in
  observed <~ lift (float_of_int events) ;;
  minimum <~ lift (float_of_int (pt_new_value_min_events thr)) ;;
  stop (verdict g
    {| ev_anomaly_type := gd_detector_type g; ev_signal := DS_ANOMALOUS; ev_severity := SEV_MEDIUM;
       ev_observed_value := Some observed; ev_expected_value := Some f0; ev_baseline_low := None; ev_baseline_high := None;
       ev_deviation_score := None; ev_threshold := Some minimum; ev_sample_count := nf_history_buckets n;
       ev_interval_start := bf_bucket_start b; ev_interval_end := bucket_close b; ev_confidence := lit 8 10;
       ev_reason := bound +:+ pretty events +:+ " events across " +:+ pretty buckets +:+ " buckets since first appearance; " +:+ claim;
       ev_extra := facts; ev_insufficient_data := false |}).

Definition two_known (n : PwNoveltyFacts) : bool :=
  (Z.of_nat (length (nf_components n)) =? 2) && forallb known (nf_components n).

Definition detect_new_value (ctx : PwDetectionContext) : result PwVerdict :=
  let g := make_guard ctx PW_NEW_VALUE in
  verdict_of (
  ready <~ novelty_common g true ;;
  let '(b, n) := ready in
  if (nf_property_count n =? 2) && two_known n then
    stop (healthy_verdict g ("both tuple components were tracked before: this is classified only as a " +:+ "new combination") None None)
  else
  materiality g b n
    ("the value stayed below " +:+ pretty (pt_admission_min_events (dc_thresholds ctx)) +:+ " events in every bucket " +:+
     "of the verified history") "PW_NEW_VALUE").

Definition detect_new_combination (ctx : PwDetectionContext) : result PwVerdict :=
  let g := make_guard ctx PW_NEW_COMBINATION in
  verdict_of (
  _ <~ watch g ;;
  _ <~ bucket_guard g ;;
  if match dc_novelty ctx with Some n => negb (nf_property_count n =? 2) | None => false end then
    stop (insufficient_verdict g "a one-property watch has nothing to combine")
  else
  ready <~ novelty_common g false ;;
  let '(b, n) := ready in
  if negb (Z.of_nat (length (nf_components n)) =? 2) then
    stop (insufficient_verdict g "the tuple's two component histories were not supplied")
  else
  let unknown_ones := filter (λ c, known c = false) (nf_components n) in
  if negb (bool_decide (unknown_ones = [])) then
    let suffix := if existsb cf_seen_below_admission unknown_ones then " (seen only below the admission threshold)" else "" in
    stop (healthy_verdict g ("at least one component was not previously tracked" +:+ suffix +:+
            ": this is classified only as a new value") None None)
  else if decide (sd_scope (gd_decision g) = NONE) then
    stop (insufficient_verdict g (or_text (sd_reason (gd_decision g)) "the declared combination inputs do not support a verdict"))
  else
  materiality g b n "both components were tracked before, but never together in the verified history" "PW_NEW_COMBINATION").

Definition PW_DETECTOR_FUNCTIONS (t : PwAnomalyType) : PwDetectionContext → result PwVerdict :=
  match t with
  | PW_VALUE_SPIKE => detect_value_spike
  | PW_VALUE_DROP => detect_value_drop
  | PW_VALUE_DISAPPEARED => detect_value_disappeared
  | PW_NEW_VALUE => detect_new_value
  | PW_NEW_COMBINATION => detect_new_combination
  end.
