(* ===== verification/PwDetectTheorems.v ===== *)
(** * Theorems of property-watch detection

    When each detector fires, what no detector says without a measurement, that a verdict
    drawn from under-counts is the verdict of the true counts, and what a baseline learns. *)

From S2P Require Import Prelude PyStr PyFloat PyFloatFacts FloatOrder PyTime PyJson Enums RuleCatalog AnomalyLifecycle Statistics Detectors DetectorFacts Seasonal Baseline BaselineTheorems PwFacts PwDetect.

(** ** Vocabulary *)

Definition is_anomalous_verdict (v : PwVerdict) : Prop := signal v = DS_ANOMALOUS.

(** The watch collects, and this bucket of it measured its values over a fixed scope. *)
Definition collected (ctx : PwDetectionContext) (b : PwBucketFact) : Prop :=
  (∃ s, dc_watch_status ctx = Some s ∧ s ∉ blocked) ∧ dc_bucket ctx = Some b ∧
  rd_kind (dc_reading ctx) ≠ RK_NO_BUCKET ∧ bf_values_measurement b ≠ PB_NOT_COLLECTED ∧
  bf_scope_changed b = false ∧ property_not_parsed b = false.

(** The cell is of this version of the watch, reliable, and has enough samples. *)
Definition usable (ctx : PwDetectionContext) (b : PwBucketFact) (c : PwBaselineCell) : Prop :=
  dc_baseline ctx = Some c ∧ pc_watch_version c = bf_watch_version b ∧ pc_is_reliable c = true ∧
  pt_baseline_min_samples (dc_thresholds ctx) <= pc_sample_count c.

(** The count is [n], exact, or a lower bound where an increase is looked for. *)
Definition counted (t : PwAnomalyType) (ctx : PwDetectionContext) (n : Z) : Prop :=
  rd_events (dc_reading ctx) = Some n ∧
  (rd_measurement (dc_reading ctx) = Some WM_EXACT ∨
   t = PW_VALUE_SPIKE ∧ rd_measurement (dc_reading ctx) = Some WM_LOWER_BOUND).

(** What the three value detectors need before they compare anything. *)
Definition prepared (t : PwAnomalyType) (ctx : PwDetectionContext) (r : PwBucketFact * PwBaselineCell * float) : Prop :=
  let '(b, c, x) := r in
  collected ctx b ∧ usable ctx b c ∧ ∃ n, counted t ctx n ∧ float_of_int n = Ok x.

Definition covered (ctx : PwDetectionContext) (b : PwBucketFact) : Prop :=
  ∃ c, coverage b = Ok c ∧ reaches c (pt_min_coverage (dc_thresholds ctx)) = true.

(** The deviation is large for the cell: by its score, or past its percentile when the cell has
    no spread. *)
Definition deviates (thr : PwThresholds) (c : PwBaselineCell) (x : float) (score_ok : float → Prop) (band : Prop) : Prop :=
  ∃ z, robust_z x (pc_median c) (pc_mad c) (pt_mad_floor_ratio thr) = Ok z ∧
    if fle (pc_mad c) f0 then band else score_ok z.

(** The guards of a spike, of a drop, and of a disappearance. *)
Definition spikes (thr : PwThresholds) (c : PwBaselineCell) (x : float) : Prop :=
  flt x (pt_min_bucket_events thr) = false ∧
  (∃ r, ratio x (pc_median c) = Ok r ∧ match r with Some r => flt r (pt_spike_ratio thr) = false | None => True end) ∧
  flt (fsub x (pc_median c)) (pt_min_absolute_delta_events thr) = false ∧
  deviates thr c x (λ z, flt z (pt_deviation_z thr) = false) (fle x (pc_p95 c) = false).

Definition drops (thr : PwThresholds) (c : PwBaselineCell) (x : float) : Prop :=
  flt (pc_median c) (pt_drop_min_median thr) = false ∧
  (∃ r, fdiv x (pc_median c) = Ok r ∧ flt (pt_drop_ratio thr) r = false) ∧
  flt (fsub (pc_median c) x) (pt_min_absolute_delta_events thr) = false ∧
  deviates thr c x (λ z, flt (fneg (pt_deviation_z thr)) z = false) (fle (pc_p05 c) x = false).

(** A point of the window that measured an exact zero, its scope fixed and its coverage reached. *)
Definition exact_zero (ctx : PwDetectionContext) (p : PwReadingPoint) : Prop :=
  bf_scope_changed (rp_bucket p) = false ∧ rd_events (rp_reading p) = Some 0 ∧
  rd_measurement (rp_reading p) = Some WM_EXACT ∧ covered ctx (rp_bucket p).

(** The start of the [i]-th bucket before [b]. *)
Definition buckets_before (b : PwBucketFact) (i : nat) : datetime :=
  DT (dt_us (bf_bucket_start b) - Z.of_nat i * td_seconds (bf_bucket_seconds b)) (dt_aware (bf_bucket_start b)).

Definition vanishes (ctx : PwDetectionContext) (b : PwBucketFact) (c : PwBaselineCell) (x : float) : Prop :=
  let thr := dc_thresholds ctx in
  (∃ seen, dc_last_seen_at ctx = Some seen ∧ dt_lt seen (dt_minus (bf_bucket_start b) (td_days (pt_value_active_days thr))) = Ok false) ∧
  flt (pc_median c) (pt_disappear_min_median thr) = false ∧ flt f0 x = false ∧
  ∀ i, Z.of_nat i < pt_disappear_buckets thr → ∃ p, point_at ctx b (buckets_before b i) = Some p ∧ exact_zero ctx p.

(** The value first appeared inside the window, after the watch had learned, and nothing but
    its own novelty explains its appearance. *)
Definition novel (ctx : PwDetectionContext) (b : PwBucketFact) (n : PwNoveltyFacts) : Prop :=
  let thr := dc_thresholds ctx in
  collected ctx b ∧ dc_novelty ctx = Some n ∧ nf_established_at_hand_off n = None ∧
  dt_ge (bf_bucket_start b) (dt_add (nf_first_seen_at n) (td_seconds (pt_new_value_window_buckets thr * bf_bucket_seconds b))) = Ok false ∧
  nf_pinned n = false ∧
  (∃ collected, nf_watch_first_collected_at n = Some collected ∧
     dt_lt (nf_first_seen_at n) (dt_add collected (td_days (pt_new_value_history_days thr))) = Ok false) ∧
  nf_membership_changed n = false ∧ hf_complete (nf_history n) = true ∧
  bf_admission_truncated (nf_appearance_bucket n) = false ∧ bf_rejected_over_quota (nf_appearance_bucket n) <= 0.

Definition material (thr : PwThresholds) (n : PwNoveltyFacts) : Prop :=
  pt_new_value_min_events thr <= nf_events_since_first_seen n ∧ pt_new_value_min_buckets thr <= nf_buckets_with_traffic n.

(** When the detector of each type fires. *)
Definition fires (t : PwAnomalyType) (ctx : PwDetectionContext) : Prop :=
  let thr := dc_thresholds ctx in
  match t with
  | PW_VALUE_SPIKE => ∃ b c x, prepared t ctx (b, c, x) ∧ spikes thr c x
  | PW_VALUE_DROP => ∃ b c x, prepared t ctx (b, c, x) ∧ covered ctx b ∧ drops thr c x
  | PW_VALUE_DISAPPEARED => ∃ b c x, prepared t ctx (b, c, x) ∧ covered ctx b ∧ vanishes ctx b c x
  | PW_NEW_VALUE => ∃ b n, novel ctx b n ∧ ¬ (nf_property_count n = 2 ∧ two_known n = true) ∧ material thr n
  | PW_NEW_COMBINATION => ∃ b n, novel ctx b n ∧ nf_property_count n = 2 ∧ two_known n = true ∧ material thr n
  end.

(** ** A logic of early ends *)

(** [m] goes on with the one value [G] allows, and ends without an alarm when there is none. *)
Definition goes {A} (m : result (PwVerdict + A)) (G : A → Prop) : Prop :=
  match m with
  | Err _ => True
  | Ok (inl v) => ¬ is_anomalous_verdict v ∧ ∀ a, ¬ G a
  | Ok (inr a) => G a ∧ ∀ a', G a' → a' = a
  end.

(** [m] ends with an alarm exactly when [F]. *)
Definition alarms (m : result (PwVerdict + PwVerdict)) (F : Prop) : Prop :=
  match m with Err _ => True | Ok (inl v) | Ok (inr v) => is_anomalous_verdict v ↔ F end.

Lemma alarms_verdict m F v : alarms m F → verdict_of m = Ok v → is_anomalous_verdict v ↔ F.
Proof. unfold alarms, verdict_of. destruct m as [[w|w]|e]; intros H [= <-]; exact H. Qed.

Lemma alarms_iff m F F' : alarms m F → (F ↔ F') → alarms m F'.
Proof. unfold alarms. intros H HF. destruct m as [[w|w]|e]; [rewrite H|rewrite H|]; done. Qed.

Lemma alarms_bind {A} (m : result (PwVerdict + A)) f (G : A → Prop) F :
  goes m G → (∀ a, G a → alarms (f a) (F a)) → alarms (bind_step m f) (∃ a, G a ∧ F a).
Proof.
  unfold goes, bind_step. destruct m as [[v|a]|e]; [| |done].
  - intros [Hv Hn] _. split; [done|]. intros (a & Ha & _). by destruct (Hn a).
  - intros [Ha Hu] Hf. eapply alarms_iff; [exact (Hf a Ha)|]. split; [eauto|]. intros (a' & Ha' & HF). by rewrite (Hu a' Ha') in HF.
Qed.

Lemma goes_bind {A B} (m : result (PwVerdict + A)) (f : A → result (PwVerdict + B)) (G : A → Prop) (H : A → B → Prop) :
  goes m G → (∀ a, G a → goes (f a) (H a)) → goes (bind_step m f) (λ b, ∃ a, G a ∧ H a b).
Proof.
  unfold goes at 1 3, bind_step. destruct m as [[v|a]|e]; [| |done].
  - intros [Hv Hn] _. split; [done|]. intros b (a & Ha & _). by destruct (Hn a).
  - intros [Ha Hu] Hf. specialize (Hf a Ha). unfold goes in Hf. destruct (f a) as [[v|b]|e]; [| |done].
    + destruct Hf as [Hv Hn]. split; [done|]. intros b (a' & Ha' & Hb). rewrite (Hu a' Ha') in Hb. by destruct (Hn b).
    + destruct Hf as [Hb Hub]. split; [eauto|]. intros b' (a' & Ha' & Hb'). rewrite (Hu a' Ha') in Hb'. by apply Hub.
Qed.

Lemma goes_iff {A} (m : result (PwVerdict + A)) G G' : goes m G → (∀ a, G a ↔ G' a) → goes m G'.
Proof. unfold goes. intros H HG. destruct m as [[v|a]|e]; [| |done]; setoid_rewrite <-HG; done. Qed.

Lemma goes_lift {A} (m : result A) : goes (lift m) (λ a, m = Ok a).
Proof. destruct m as [a|e]; [|done]. split; [done|]. by intros a' [= ->]. Qed.

Lemma goes_on {A} (a : A) : goes (Ok (inr a)) (λ a', a' = a).
Proof. by split. Qed.

Lemma goes_stop {A} (v : PwVerdict) (G : A → Prop) : ¬ is_anomalous_verdict v → (∀ a, ¬ G a) → goes (stop v) G.
Proof. by split. Qed.

Lemma alarms_stop v (F : Prop) : ¬ is_anomalous_verdict v → ¬ F → alarms (stop v) F.
Proof. intros Hv HF. by split. Qed.

Lemma alarms_lift (m : result PwVerdict) F : (∀ v, m = Ok v → is_anomalous_verdict v ↔ F) → alarms (lift m) F.
Proof. intros H. destruct m as [v|e]; [exact (H v eq_refl)|done]. Qed.

(** No verdict but an alarm is one. *)
Lemma insufficient_quiet g n reason : ¬ is_anomalous_verdict (insufficient_with g n reason).
Proof. unfold insufficient_with, is_anomalous_verdict, signal. by destruct (interval g). Qed.

Lemma insufficient_quiet' g reason : ¬ is_anomalous_verdict (insufficient_verdict g reason).
Proof. apply insufficient_quiet. Qed.

Lemma healthy_quiet g reason o e : ¬ is_anomalous_verdict (healthy_verdict g reason o e).
Proof. unfold healthy_verdict, is_anomalous_verdict, signal. by destruct (interval g). Qed.

Lemma not_proven_quiet g reason o e : ¬ is_anomalous_verdict (not_proven g reason o e).
Proof. unfold not_proven. case_decide; [apply insufficient_quiet'|apply healthy_quiet]. Qed.

Create HintDb quiet.
#[export] Hint Resolve insufficient_quiet insufficient_quiet' healthy_quiet not_proven_quiet : quiet.

Lemma goes_stop_false {A} (v : PwVerdict) (G : A → Prop) : ¬ is_anomalous_verdict v → (∀ a, G a → False) → goes (stop v) G.
Proof. by split. Qed.

(** A guard of the body: the rest is reached when the condition fails. *)
Lemma alarms_if (c : bool) v m F : ¬ is_anomalous_verdict v → (c = false → alarms m F) →
  alarms (if c then stop v else m) (c = false ∧ F).
Proof.
  intros Hv Hm. destruct c; [apply alarms_stop; [done|by intros [? _]]|].
  eapply alarms_iff; [by apply Hm|]. tauto.
Qed.

Lemma goes_if {A} (c : bool) v (m : result (PwVerdict + A)) G : ¬ is_anomalous_verdict v → (c = false → goes m G) →
  goes (if c then stop v else m) (λ a, c = false ∧ G a).
Proof.
  intros Hv Hm. destruct c; [apply goes_stop; [done|by intros a [? _]]|].
  eapply goes_iff; [by apply Hm|]. tauto.
Qed.

(** ** The guards of the source *)

Lemma watch_goes ctx t : goes (watch (make_guard ctx t)) (λ _, ∃ s, dc_watch_status ctx = Some s ∧ s ∉ blocked).
Proof.
  unfold watch. cbn [gd_ctx make_guard]. destruct (dc_watch_status ctx) as [s|].
  - case_decide as Hs; [apply goes_stop; [auto with quiet|intros _ (s' & [= <-] & Hn); done]|].
    split; [by exists s|]. by intros [] _.
  - apply goes_stop; [auto with quiet|]. by intros _ (? & ? & _).
Qed.

Lemma bucket_goes ctx t : goes (bucket_guard (make_guard ctx t))
  (λ b, dc_bucket ctx = Some b ∧ rd_kind (dc_reading ctx) ≠ RK_NO_BUCKET ∧ bf_values_measurement b ≠ PB_NOT_COLLECTED ∧
        bf_scope_changed b = false ∧ property_not_parsed b = false).
Proof.
  unfold bucket_guard. cbn [gd_ctx make_guard]. destruct (dc_bucket ctx) as [b|].
  2: { apply goes_stop; [auto with quiet|]. by intros b [? _]. }
  case_decide; [apply goes_stop; [auto with quiet|naive_solver]|].
  case_decide; [apply goes_stop; [auto with quiet|naive_solver]|].
  destruct (bf_scope_changed b) eqn:Hs; [apply goes_stop; [auto with quiet|intros ? ([= <-] & _ & _ & ? & _); congruence]|].
  destruct (property_not_parsed b) eqn:Hp; [apply goes_stop; [auto with quiet|intros ? ([= <-] & _ & _ & _ & ?); congruence]|].
  split; [done|]. naive_solver.
Qed.

Lemma cell_goes ctx t b : goes (cell (make_guard ctx t) b) (usable ctx b).
Proof.
  unfold cell, usable, gd_thresholds. cbn [gd_ctx make_guard]. destruct (dc_baseline ctx) as [c|].
  2: { apply goes_stop; [auto with quiet|]. by intros c [? _]. }
  destruct (Z.eqb_spec (pc_watch_version c) (bf_watch_version b)) as [Hv|Hv]; cbn [negb];
    [|apply goes_stop; [auto with quiet|naive_solver]].
  destruct (pc_is_reliable c) eqn:Hr; cbn [negb andb orb].
  - destruct (Z.ltb_spec (pc_sample_count c) (pt_baseline_min_samples (dc_thresholds ctx))).
    + apply goes_stop; [auto with quiet|]. intros c' ([= <-] & _ & _ & ?). lia.
    + split; [done|]. naive_solver.
  - destruct (_ <=? _); (apply goes_stop; [auto with quiet|]); intros c' ([= <-] & _ & ? & _); congruence.
Qed.

(** What the declared inputs of the value detectors amount to. *)
Lemma value_scope t ctx : t ∈ [PW_VALUE_SPIKE; PW_VALUE_DROP; PW_VALUE_DISAPPEARED] →
  ∀ b, dc_bucket ctx = Some b → bf_values_measurement b ≠ PB_NOT_COLLECTED →
  sd_scope (gd_decision (make_guard ctx t)) =
    match rd_measurement (dc_reading ctx) with
    | None => NONE
    | Some WM_EXACT => if decide (t ≠ PW_VALUE_SPIKE ∧ bf_values_measurement b = PB_LOWER_BOUND) then INCREASE_ONLY else FULL
    | Some WM_LOWER_BOUND => if decide (t = PW_VALUE_SPIKE) then INCREASE_ONLY else NONE
    end.
Proof.
  intros Ht b Hb Hm. unfold make_guard, pw_input_scope. cbn [gd_decision].
  rewrite !elem_of_cons, elem_of_nil in Ht.
  destruct Ht as [->|[->|[->|[]]]]; cbn [PW_DETECTORS ps_inputs fmap list_fmap];
    unfold input_decision; cbn [ir_requirement ir_input ir_role req PW_COVERAGE input_measurement po_reading po_bucket];
    rewrite ?Hb; destruct (rd_measurement (dc_reading ctx)) as [[]|]; cbn; try done;
    destruct (bf_values_measurement b); cbn; try done; congruence.
Qed.

Lemma reading_goes t ctx b : t ∈ [PW_VALUE_SPIKE; PW_VALUE_DROP; PW_VALUE_DISAPPEARED] →
  dc_bucket ctx = Some b → bf_values_measurement b ≠ PB_NOT_COLLECTED →
  goes (reading (make_guard ctx t)) (λ x, ∃ n, counted t ctx n ∧ float_of_int n = Ok x).
Proof.
  intros Ht Hb Hm. unfold reading, counted. pose proof (value_scope t ctx Ht b Hb Hm) as Hs. cbn [gd_ctx make_guard] in *.
  destruct (rd_events (dc_reading ctx)) as [n|]; [|apply goes_stop; [auto with quiet|naive_solver]].
  destruct (rd_measurement (dc_reading ctx)) as [m|]; [|apply goes_stop; [auto with quiet|naive_solver]].
  destruct (decide (sd_scope (gd_decision (make_guard ctx t)) = NONE)) as [Hn|Hn]; rewrite Hs in Hn.
  - apply goes_stop; [auto with quiet|]. intros x (n' & (_ & Hx) & _).
    destruct m; [by destruct (decide _)|]. destruct (decide (t = PW_VALUE_SPIKE)) as [|Hne]; [done|].
    destruct Hx as [?|[? _]]; congruence.
  - eapply goes_iff; [apply goes_lift|]. intros x. cbn beta. split.
    + intros Hx. exists n. split; [|done]. split; [done|]. destruct m; [by left|]. right. split; [|done].
      destruct (decide (t = PW_VALUE_SPIKE)); [done|]. by destruct Hn.
    + by intros (n' & ([= <-] & _) & ?).
Qed.

Lemma prepared_goes t ctx : t ∈ [PW_VALUE_SPIKE; PW_VALUE_DROP; PW_VALUE_DISAPPEARED] →
  goes (baseline_preconditions (make_guard ctx t)) (prepared t ctx).
Proof.
  intros Ht. unfold baseline_preconditions.
  eapply goes_iff.
  { eapply goes_bind; [apply watch_goes|]. intros u _. eapply goes_bind; [apply bucket_goes|]. intros b Hb.
    eapply goes_bind; [apply cell_goes|]. intros c _. eapply goes_bind; [apply (reading_goes t ctx b Ht); naive_solver|].
    intros x _. apply goes_on. }
  intros [[b c] x]. unfold prepared, collected. split.
  - intros (_ & Hw & b' & Hb & c' & Hc & x' & Hx & [= -> -> ->]). naive_solver.
  - intros ((Hw & Hb) & Hc & Hx). exists tt. split; [done|]. exists b. split; [done|]. exists c. split; [done|]. by exists x.
Qed.

Lemma coverage_goes ctx t b : goes (coverage_guard (make_guard ctx t) b) (λ _, covered ctx b).
Proof.
  unfold coverage_guard, covered, gd_thresholds. cbn [gd_ctx make_guard].
  destruct (coverage b) as [c|e]; [|done]. cbn [lift res_bind bind_step].
  destruct (reaches c _) eqn:Hr.
  - split; [by exists c|]. by intros [] _.
  - apply goes_stop; [auto with quiet|]. intros _ (c' & [= <-] & ?). congruence.
Qed.

Lemma anomalous_alarms g b c x score magnitude status reason facts severity start (F : Prop) : F →
  alarms (lift (anomalous g b c x score magnitude status reason facts severity start)) F.
Proof.
  intros HF. apply alarms_lift. unfold anomalous. intros v H. bind_inv H. injection H as <-. done.
Qed.

(** ** Spike and drop *)

Ltac quiet_end := auto with quiet.

(** A call whose value the guards do not depend on. *)
Lemma alarms_call {A} (m : result A) f F : (∀ a, alarms (f a) F) → alarms (bind_step (lift m) f) F.
Proof. intros H. destruct m as [a|e]; [exact (H a)|done]. Qed.

(** A call whose value they depend on. *)
Lemma alarms_of {A} (m : result A) f (F : A → Prop) : (∀ a, m = Ok a → alarms (f a) (F a)) →
  alarms (bind_step (lift m) f) (∃ a, m = Ok a ∧ F a).
Proof. intros H. eapply alarms_bind; [apply goes_lift|done]. Qed.

(** The score decides, or the percentile of a cell with no spread. *)
Lemma proven_goes {A} (status : RobustScoreStatus) (bad1 bad2 : bool) g x e r1 r2 (a1 a2 : A) :
  goes (if decide (status = RS_OK) then (if bad1 then not_yet g x e r1 else Ok (inr a1))
        else if bad2 then not_yet g x e r2 else Ok (inr a2))
    (λ a, (if decide (status = RS_OK) then bad1 else bad2) = false ∧ a = (if decide (status = RS_OK) then a1 else a2)).
Proof.
  destruct (decide (status = RS_OK)); [destruct bad1|destruct bad2];
    (apply goes_stop; [quiet_end|by intros a [? _]]) || (split; [done|by intros a [_ ->]]).
Qed.

Lemma robust_status x m s f z status : robust_z_with_status x m s f = Ok (z, status) →
  robust_z x m s f = Ok z ∧ status = (if fle s f0 then RS_DEGENERATE else RS_OK).
Proof. unfold robust_z_with_status. intros H. bind_inv H. by injection H as -> ->. Qed.

(** The rest of the body of a spike or a drop, from its score on. *)
Lemma deviation_alarms thr g c x (zbad : float → bool) (bandbad : bool) v1 v2 (d1 : float → RobustScoreStatus → float → jobj * string * float)
    (d2 : float → RobustScoreStatus → float → jobj * string * float) (k : float → RobustScoreStatus → float → jobj * string * float → result (PwVerdict + PwVerdict)) :
  (∀ z s r d, alarms (k z s r d) True) →
  alarms (zs <~ lift (robust_z_with_status x (pc_median c) (pc_mad c) (pt_mad_floor_ratio thr)) ;;
          let '(score, status) := zs in
          rounded <~ lift (round_digits 3 score) ;;
          proven <~ (if decide (status = RS_OK) then (if zbad score then not_yet g x (pc_median c) (v1 score) else Ok (inr (d1 score status rounded)))
                     else if bandbad then not_yet g x (pc_median c) (v2 score) else Ok (inr (d2 score status rounded))) ;;
          k score status rounded proven)
    (deviates thr c x (λ z, zbad z = false) (bandbad = false)).
Proof.
  intros Hk. eapply alarms_iff.
  { apply (alarms_of _ _ (λ zs, (if decide (zs.2 = RS_OK) then zbad zs.1 else bandbad) = false)). intros [z status] Hz.
    cbn [fst snd]. apply alarms_call. intros rounded. eapply alarms_iff; [eapply alarms_bind; [apply proven_goes|]|].
    - intros d _. apply Hk.
    - naive_solver. }
  unfold deviates. split.
  - intros ([z status] & Hz & Hd). apply robust_status in Hz as [Hz ->]. exists z. split; [done|].
    revert Hd. cbn [fst snd]. by destruct (fle (pc_mad c) f0).
  - intros (z & Hz & Hd). exists (z, if fle (pc_mad c) f0 then RS_DEGENERATE else RS_OK). unfold robust_z_with_status.
    rewrite Hz. split; [done|]. cbn [fst snd]. by destruct (fle (pc_mad c) f0).
Qed.

Lemma not_yet_alarms (c : bool) g x e r m F : (c = false → alarms m F) →
  alarms (if c then not_yet g x e r else m) (c = false ∧ F).
Proof. apply alarms_if. quiet_end. Qed.

Lemma spike_exact ctx v : detect_value_spike ctx = Ok v → is_anomalous_verdict v ↔ fires PW_VALUE_SPIKE ctx.
Proof.
  set (thr := dc_thresholds ctx). apply alarms_verdict. eapply alarms_iff.
  { apply (alarms_bind _ _ (prepared PW_VALUE_SPIKE ctx) (λ r, spikes thr r.1.2 r.2)); [apply prepared_goes; set_solver|].
    intros [[b c] x] _. cbv zeta. cbn [fst snd]. eapply alarms_iff.
    { apply not_yet_alarms. intros _. apply alarms_of. intros ratio _. apply not_yet_alarms. intros _. apply not_yet_alarms. intros _.
      apply (deviation_alarms thr (make_guard ctx PW_VALUE_SPIKE) c x (λ z, flt z (pt_deviation_z thr)) (fle x (pc_p95 c))).
      intros z s r [[facts basis] magnitude]. by apply anomalous_alarms. }
    unfold spikes. split.
    - intros (H1 & r & Hr & H2 & H3 & H4). split; [done|]. split; [by exists r; split; [done|]; destruct r|done].
    - intros (H1 & (r & Hr & H2) & H3 & H4). split; [done|]. exists r. split; [done|]. split; [by destruct r|done]. }
  cbn [fires]. split; [intros ([[b c] x] & Hp & H); by exists b, c, x|intros (b & c & x & Hp & H); by exists (b, c, x)].
Qed.

Lemma drop_exact ctx v : detect_value_drop ctx = Ok v → is_anomalous_verdict v ↔ fires PW_VALUE_DROP ctx.
Proof.
  set (thr := dc_thresholds ctx). apply alarms_verdict. eapply alarms_iff.
  { apply (alarms_bind _ _ (prepared PW_VALUE_DROP ctx) (λ r, covered ctx r.1.1 ∧ drops thr r.1.2 r.2)); [apply prepared_goes; set_solver|].
    intros [[b c] x] _. cbv zeta. cbn [fst snd]. eapply alarms_iff.
    { eapply alarms_bind; [apply coverage_goes|]. intros u _. apply not_yet_alarms. intros _. apply alarms_of. intros ratio _.
      apply not_yet_alarms. intros _. apply not_yet_alarms. intros _.
      apply (deviation_alarms thr (make_guard ctx PW_VALUE_DROP) c x (λ z, flt (fneg (pt_deviation_z thr)) z) (fle (pc_p05 c) x)).
      intros z s r [[facts basis] magnitude]. by apply anomalous_alarms. }
    unfold drops. split; [intros (_ & Hc & H1 & r & Hr & H2 & H3 & H4); eauto 10|].
    intros (Hc & H1 & (r & Hr & H2) & H3 & H4). exists tt. eauto 10. }
  cbn [fires]. split; [intros ([[b c] x] & Hp & H); by exists b, c, x|intros (b & c & x & Hp & H); by exists (b, c, x)].
Qed.

(** ** Disappearance *)

Lemma zero_streak_spec ctx t b turns start k first :
  let zeros := ∀ i, (i < turns)%nat → ∃ p,
    point_at ctx b (DT (dt_us start - Z.of_nat i * td_seconds (bf_bucket_seconds b)) (dt_aware start)) = Some p ∧ exact_zero ctx p in
  match zero_streak (make_guard ctx t) b turns start k first with
  | Err _ => True
  | Ok (inl v) => ¬ is_anomalous_verdict v ∧ ¬ zeros
  | Ok (inr (k', _)) => k <= k' <= k + Z.of_nat turns ∧ (k' = k + Z.of_nat turns ↔ zeros)
  end.
Proof.
  revert start k first. induction turns as [|turns IH]; intros start k first; cbv zeta.
  { cbn [zero_streak]. split; [lia|]. split; [intros _ i Hi; lia|lia]. }
  assert (Hstart : DT (dt_us start - Z.of_nat 0 * td_seconds (bf_bucket_seconds b)) (dt_aware start) = start).
  { rewrite Z.mul_0_l, Z.sub_0_r. by destruct start. }
  assert (Hfirst : ∀ P : PwReadingPoint → Prop, (∀ i, (i < S turns)%nat → ∃ p,
      point_at ctx b (DT (dt_us start - Z.of_nat i * td_seconds (bf_bucket_seconds b)) (dt_aware start)) = Some p ∧ P p) →
      ∃ p, point_at ctx b start = Some p ∧ P p).
  { intros P H. specialize (H 0%nat ltac:(lia)). by rewrite Hstart in H. }
  cbn [zero_streak]. unfold gd_thresholds. cbn [gd_ctx make_guard].
  destruct (point_at ctx b start) as [p|] eqn:Hp.
  2: { split; [quiet_end|]. intros H. by destruct (Hfirst _ H) as (? & ? & _). }
  destruct (bf_scope_changed (rp_bucket p)) eqn:Hs.
  { split; [quiet_end|]. intros H. destruct (Hfirst _ H) as (? & [= <-] & (? & _)). congruence. }
  destruct (rd_events (rp_reading p)) as [n|] eqn:Hn.
  2: { split; [quiet_end|]. intros H. destruct (Hfirst _ H) as (? & [= <-] & (_ & ? & _)). congruence. }
  destruct (rd_measurement (rp_reading p)) as [[]|] eqn:Hm.
  2,3: split; [quiet_end|]; intros H; destruct (Hfirst _ H) as (? & [= <-] & (_ & _ & ? & _)); congruence.
  unfold bind_step, lift. destruct (coverage (rp_bucket p)) as [c|] eqn:Hc; [cbn [res_bind]|done].
  destruct (reaches c _) eqn:Hr; cbn [negb].
  2: { split; [quiet_end|]. intros H. destruct (Hfirst _ H) as (? & [= <-] & (_ & _ & _ & c' & ? & ?)). congruence. }
  destruct (Z.eqb_spec n 0) as [->|Hz]; cbn [negb].
  2: { split; [lia|]. split; [lia|]. intros H. destruct (Hfirst _ H) as (? & [= <-] & (_ & ? & _)). congruence. }
  specialize (IH (dt_minus start (td_seconds (bf_bucket_seconds b))) (k + 1) start). cbv zeta in IH.
  assert (Hsh : ∀ i, DT (dt_us (dt_minus start (td_seconds (bf_bucket_seconds b))) - Z.of_nat i * td_seconds (bf_bucket_seconds b))
      (dt_aware (dt_minus start (td_seconds (bf_bucket_seconds b)))) =
      DT (dt_us start - Z.of_nat (S i) * td_seconds (bf_bucket_seconds b)) (dt_aware start)).
  { intros i. unfold dt_minus. cbn [dt_us dt_aware]. f_equal. lia. }
  assert (Hstep : (∀ i, (i < turns)%nat → ∃ p, point_at ctx b
      (DT (dt_us (dt_minus start (td_seconds (bf_bucket_seconds b))) - Z.of_nat i * td_seconds (bf_bucket_seconds b))
        (dt_aware (dt_minus start (td_seconds (bf_bucket_seconds b))))) = Some p ∧ exact_zero ctx p) ↔
    (∀ i, (i < S turns)%nat → ∃ p, point_at ctx b
      (DT (dt_us start - Z.of_nat i * td_seconds (bf_bucket_seconds b)) (dt_aware start)) = Some p ∧ exact_zero ctx p)).
  { split; intros H i Hi; [|rewrite Hsh; apply H; lia]. destruct i as [|i]; [|rewrite <-Hsh; apply H; lia]. rewrite Hstart. exists p. split; [done|].
    split; [done|]. split; [done|]. split; [done|]. by exists c. }
  destruct (zero_streak _ _ _ _ _ _) as [[v|[k' f']]|]; [| |done].
  - destruct IH as [Hv IH]. split; [done|]. by rewrite <-Hstep.
  - destruct IH as [Hk IH]. split; [lia|]. rewrite <-Hstep, <-IH. lia.
Qed.

Lemma disappeared_exact ctx v : detect_value_disappeared ctx = Ok v → is_anomalous_verdict v ↔ fires PW_VALUE_DISAPPEARED ctx.
Proof.
  set (thr := dc_thresholds ctx). apply alarms_verdict. eapply alarms_iff.
  { apply (alarms_bind _ _ (prepared PW_VALUE_DISAPPEARED ctx) (λ r, covered ctx r.1.1 ∧ vanishes ctx r.1.1 r.1.2 r.2)); [apply prepared_goes; set_solver|].
    intros [[b c] x] _. cbv zeta. cbn [fst snd].
    apply (alarms_iff _ (∃ _ : unit, covered ctx b ∧ vanishes ctx b c x)); [|split; [by intros [_ ?]|by exists tt]].
    apply (alarms_bind _ _ (λ _, covered ctx b) (λ _, vanishes ctx b c x)); [apply coverage_goes|]. intros u _. unfold vanishes. fold thr.
    destruct (dc_last_seen_at ctx) as [seen|]; [|apply alarms_stop; [quiet_end|by intros ((? & ? & _) & _)]].
    eapply alarms_iff.
    { apply alarms_of. intros inactive _. apply not_yet_alarms. intros _. apply not_yet_alarms. intros _. apply not_yet_alarms. intros _.
      apply (alarms_iff _ (∀ i, (i < Z.to_nat (pt_disappear_buckets thr))%nat → ∃ p, point_at ctx b (buckets_before b i) = Some p ∧ exact_zero ctx p)); [|reflexivity].
      pose proof (zero_streak_spec ctx PW_VALUE_DISAPPEARED b (Z.to_nat (pt_disappear_buckets thr)) (bf_bucket_start b) 0 (bf_bucket_start b)) as Hs.
      cbv zeta in Hs. fold (buckets_before b) in Hs. unfold bind_step at 1.
      destruct (zero_streak _ _ _ _ _ _) as [[v'|[k f]]|]; [by split; intros H; destruct Hs| |done].
      destruct Hs as [Hk Hz]. destruct (Z.ltb_spec k (pt_disappear_buckets thr)) as [Hlt|Hge].
      - apply alarms_stop; [quiet_end|]. intros H. apply Hz in H. lia.
      - apply anomalous_alarms. apply Hz. lia. }
    split.
    - intros (inactive & Hl & -> & H1 & H2 & H3). split; [by exists seen|]. split; [done|]. split; [done|]. intros i Hi. apply H3. lia.
    - intros ((s & [= <-] & Hl) & H1 & H2 & H3). exists false. split; [done|]. split; [done|]. split; [done|]. split; [done|].
      intros i Hi. apply H3. lia. }
  cbn [fires]. split; [intros ([[b c] x] & Hp & H); by exists b, c, x|intros (b & c & x & Hp & H); by exists (b, c, x)].
Qed.

(** ** Novelty *)

Lemma lift_goes {A B} (m : result A) (f : A → result (PwVerdict + B)) (G : A → B → Prop) :
  (∀ a, m = Ok a → goes (f a) (G a)) → goes (bind_step (lift m) f) (λ b, ∃ a, m = Ok a ∧ G a b).
Proof. intros H. eapply goes_bind; [apply goes_lift|done]. Qed.

(** The scope of the novelty detectors, once the history is complete. *)
Lemma novelty_scope ctx n : dc_novelty ctx = Some n → hf_complete (nf_history n) = true →
  sd_scope (gd_decision (make_guard ctx PW_NEW_VALUE)) ≠ NONE ∧
  (two_known n = true → sd_scope (gd_decision (make_guard ctx PW_NEW_COMBINATION)) ≠ NONE).
Proof.
  intros Hn Hc. unfold make_guard, pw_input_scope. cbn [gd_decision PW_DETECTORS ps_inputs fmap list_fmap].
  rewrite Hn. cbn [fmap option_fmap option_map]. unfold input_decision. cbn [input_measurement ir_input ir_requirement ir_role req po_history po_materiality po_component_history].
  rewrite Hc. split.
  - destruct (nf_materiality_measurement n); by cbn.
  - intros Hk. unfold two_known in Hk. apply andb_prop in Hk as [Hl Hf]. unfold component_measurement. rewrite Hl, Hf. cbn [negb].
    destruct (existsb _ _), (nf_materiality_measurement n); by cbn.
Qed.

Lemma goes_call {A B} (m : result A) (f : A → result (PwVerdict + B)) (G : B → Prop) :
  (∀ a, m = Ok a → goes (f a) G) → goes (bind_step (lift m) f) G.
Proof. intros H. destruct m as [a|e]; [by apply H|done]. Qed.

(** After the watch and the bucket. *)
Lemma novelty_rest_goes ctx t r b : (t = PW_NEW_VALUE ∨ r = false) → collected ctx b →
  goes (novelty_common (make_guard ctx t) r) (λ bn, novel ctx bn.1 bn.2).
Proof.
  intros Ht Hb. unfold novelty_common, gd_thresholds. cbn [gd_ctx make_guard]. cbv zeta. set (thr := dc_thresholds ctx).
  pose proof (watch_goes ctx t) as Hw. destruct (watch _) as [[v|[]]|]; [|clear Hw|done].
  { destruct Hw as [_ Hw]. by destruct (Hw tt), Hb. }
  cbn [bind_step]. pose proof (bucket_goes ctx t) as Hg. destruct (bucket_guard _) as [[v|b']|]; [| |done].
  { destruct Hg as [_ Hg]. by destruct (Hg b), Hb. }
  destruct Hg as [[Hb' _] _]. cbn [bind_step]. assert (b' = b) as -> by (destruct Hb as (_ & ? & _); congruence). clear Hb'.
  destruct (dc_novelty ctx) as [n|] eqn:Hn.
  2: { apply goes_stop; [quiet_end|]. intros [b' n'] (_ & ? & _). cbn [fst snd] in *. congruence. }
  assert (Hnovel : ∀ bn, novel ctx bn.1 bn.2 → bn = (b, n)).
  { intros [b' n'] ((_ & ? & _) & ? & _). destruct Hb as (_ & ? & _). cbn [fst snd] in *. congruence. }
  assert (Hstop : ∀ v, ¬ is_anomalous_verdict v → (novel ctx b n → False) → goes (stop v) (λ bn, novel ctx bn.1 bn.2)).
  { intros v Hv H. apply goes_stop; [done|]. intros bn Hbn. rewrite (Hnovel bn Hbn) in Hbn. by apply H. }
  destruct (nf_established_at_hand_off n) eqn:He; [apply Hstop; [quiet_end|intros (_ & _ & ? & _); congruence]|].
  apply goes_call. intros past Hpast. destruct past; [apply Hstop; [quiet_end|intros (_ & _ & _ & H & _); fold thr in H; congruence]|].
  destruct (nf_pinned n) eqn:Hp; [apply Hstop; [quiet_end|intros (_ & _ & _ & _ & H & _); congruence]|].
  destruct (nf_watch_first_collected_at n) as [first|] eqn:Hf.
  2: { apply Hstop; [quiet_end|]. intros (_ & _ & _ & _ & _ & (? & ? & _) & _). congruence. }
  apply goes_call. intros learning Hl. destruct learning.
  { apply goes_call. intros span _. apply Hstop; [quiet_end|]. intros (_ & _ & _ & _ & _ & (f & Hf' & H) & _). fold thr in H. congruence. }
  destruct (nf_membership_changed n) eqn:Hm; [apply Hstop; [quiet_end|intros (_ & _ & _ & _ & _ & _ & H & _); congruence]|].
  destruct (hf_complete (nf_history n)) eqn:Hh; cbn [negb]; [|apply Hstop; [quiet_end|intros (_ & _ & _ & _ & _ & _ & _ & H & _); congruence]].
  assert ((r && bool_decide (sd_scope (gd_decision (make_guard ctx t)) = NONE)) = false) as ->.
  { destruct Ht as [->| ->]; [|done]. rewrite bool_decide_eq_false_2; [by destruct r|]. by eapply novelty_scope. }
  destruct (bf_admission_truncated (nf_appearance_bucket n)) eqn:Ha; cbn [orb];
    [apply Hstop; [quiet_end|intros (_ & _ & _ & _ & _ & _ & _ & _ & H & _); congruence]|].
  destruct (Z.ltb_spec 0 (bf_rejected_over_quota (nf_appearance_bucket n)));
    [apply Hstop; [quiet_end|intros (_ & _ & _ & _ & _ & _ & _ & _ & _ & Hq); lia]|].
  split; [|intros bn Hbn; exact (Hnovel bn Hbn)]. cbn [fst snd]. unfold novel. fold thr. eauto 15.
Qed.

Lemma novelty_goes ctx t r : (t = PW_NEW_VALUE ∨ r = false) →
  goes (novelty_common (make_guard ctx t) r) (λ bn, novel ctx bn.1 bn.2).
Proof.
  intros Ht. destruct (watch (make_guard ctx t)) as [[v|[]]|e] eqn:Hw.
  - pose proof (watch_goes ctx t) as H. rewrite Hw in H. unfold novelty_common. rewrite Hw. split; [apply H|].
    intros bn (((s & Hs) & _) & _). destruct H as [_ H]. apply (H tt). by exists s.
  - destruct (bucket_guard (make_guard ctx t)) as [[v|b]|e] eqn:Hb.
    + pose proof (bucket_goes ctx t) as H. rewrite Hb in H. unfold novelty_common. rewrite Hw. cbn [bind_step]. rewrite Hb.
      split; [apply H|]. intros bn ((_ & Hc) & _). destruct H as [_ H]. by apply (H bn.1).
    + apply (novelty_rest_goes ctx t r b Ht). pose proof (watch_goes ctx t) as H1. pose proof (bucket_goes ctx t) as H2.
      rewrite Hw in H1. rewrite Hb in H2. by split; [apply H1|apply H2].
    + unfold novelty_common. rewrite Hw. cbn [bind_step]. by rewrite Hb.
  - unfold novelty_common. by rewrite Hw.
Qed.

Lemma materiality_alarms g b n claim class : alarms (materiality g b n claim class) (material (gd_thresholds g) n).
Proof.
  unfold materiality, material. cbv zeta.
  destruct (Z.ltb_spec (nf_events_since_first_seen n) (pt_new_value_min_events (gd_thresholds g))); cbn [orb];
    [|destruct (Z.ltb_spec (nf_buckets_with_traffic n) (pt_new_value_min_buckets (gd_thresholds g)))].
  1,2: case_bool_decide; [apply alarms_stop; [quiet_end|lia]|]; apply alarms_call; intros o; apply alarms_stop; [quiet_end|lia].
  apply alarms_call. intros o. apply alarms_call. intros m. by split; intros _; [lia|].
Qed.

Lemma new_value_exact ctx v : detect_new_value ctx = Ok v → is_anomalous_verdict v ↔ fires PW_NEW_VALUE ctx.
Proof.
  apply alarms_verdict. eapply alarms_iff.
  { apply (alarms_bind _ _ (λ bn, novel ctx bn.1 bn.2)
             (λ bn, ¬ (nf_property_count bn.2 = 2 ∧ two_known bn.2 = true) ∧ material (dc_thresholds ctx) bn.2));
      [apply novelty_goes; by left|]. intros [b n] _. cbn [fst snd]. cbv zeta.
    destruct (Z.eqb_spec (nf_property_count n) 2) as [H2|H2], (two_known n) eqn:Hk; cbn [andb].
    1: apply alarms_stop; [quiet_end|]; by intros [Hn _]; destruct Hn.
    all: eapply alarms_iff; [apply materiality_alarms|]; unfold gd_thresholds; cbn [gd_ctx make_guard]; intuition congruence. }
  cbn [fires]. split; [intros ([b n] & ? & ?); by exists b, n|intros (b & n & ? & ?); by exists (b, n)].
Qed.

(** A guard that what follows implies. *)
Lemma alarms_implied {A} (m : result (PwVerdict + A)) f (G : A → Prop) F :
  goes m G → (F → ∃ a, G a) → (∀ a, G a → alarms (f a) F) → alarms (bind_step m f) F.
Proof.
  intros Hm HF Hf. eapply alarms_iff; [by apply (alarms_bind m f G (λ _, F))|]. split; [by intros (_ & _ & ?)|].
  intros H. destruct (HF H) as [a Ha]. by exists a.
Qed.

Lemma unknown_ones l : bool_decide (filter (λ c, known c = false) l = []) = forallb known l.
Proof.
  induction l as [|c l IH]; [done|]. cbn [forallb]. rewrite filter_cons. destruct (known c); cbn [andb]; [|done].
  by rewrite decide_False by done.
Qed.

Lemma new_combination_exact ctx v :
  detect_new_combination ctx = Ok v → is_anomalous_verdict v ↔ fires PW_NEW_COMBINATION ctx.
Proof.
  apply alarms_verdict. eapply alarms_iff.
  { set (F := ∃ bn, novel ctx bn.1 bn.2 ∧ nf_property_count bn.2 = 2 ∧ two_known bn.2 = true ∧ material (dc_thresholds ctx) bn.2).
    apply (alarms_implied _ _ _ F (watch_goes _ _)); [intros (bn & ((Hw & _) & _) & _); by exists tt|]. intros u _.
    apply (alarms_implied _ _ _ F (bucket_goes _ _)); [intros (bn & ((_ & Hb) & _) & _); by exists bn.1|]. intros b0 _. unfold F.
    destruct (match dc_novelty ctx with Some n => negb (nf_property_count n =? 2) | None => false end) eqn:H2.
    { apply alarms_stop; [quiet_end|]. intros ([b n] & (_ & Hn & _) & Hc & _). cbn [fst snd] in *. rewrite Hn in H2.
      apply negb_true_iff, Z.eqb_neq in H2. done. }
    apply (alarms_bind _ _ (λ bn, novel ctx bn.1 bn.2)); [apply novelty_goes; by right|]. intros [b n] Hnov. cbn [fst snd] in *.
    destruct Hnov as (_ & Hn & _ & _ & _ & _ & _ & Hh & _). rewrite Hn in H2. apply negb_false_iff, Z.eqb_eq in H2.
    rewrite unknown_ones. unfold two_known. destruct (Z.eqb_spec (Z.of_nat (length (nf_components n))) 2) as [Hl|Hl]; cbn [negb andb].
    2: { apply alarms_stop; [quiet_end|]. by intros (_ & ? & _). }
    destruct (forallb known (nf_components n)) eqn:Hf; cbn [negb]; [|apply alarms_stop; [quiet_end|by intros (_ & ? & _)]].
    rewrite decide_False.
    - eapply alarms_iff; [apply materiality_alarms|]. unfold gd_thresholds. cbn [gd_ctx make_guard]. tauto.
    - eapply novelty_scope; [done|done|]. unfold two_known. rewrite Hf, andb_true_r. by apply Z.eqb_eq. }
  cbn [fires]. split; [intros ([b n] & ?); by exists b, n|intros (b & n & ?); by exists (b, n)].
Qed.

(** C25: when each detector of a property watch fires. Each fires exactly when all its guards
    hold together: on a spike and a drop a bucket that was collected, a usable cell, a known
    count, and every comparison of the source; on a disappearance one exact zero after another
    with the coverage reached, back over the whole window, for a value seen lately that is
    usually there; on a novelty a first appearance inside the window after the watch had
    learned over a complete history, and material traffic. No value is at once new and a new
    combination. *)
Theorem detectors_fire_exact t ctx v : PW_DETECTOR_FUNCTIONS t ctx = Ok v →
  (ev_signal (pv_evidence v) = DS_ANOMALOUS ↔ fires t ctx) ∧
  ¬ (fires PW_NEW_VALUE ctx ∧ fires PW_NEW_COMBINATION ctx).
Proof.
  intros H. split.
  - destruct t; [by apply spike_exact|by apply drop_exact|by apply disappeared_exact|by apply new_value_exact|by apply new_combination_exact].
  - intros [(b & n & (_ & Hn & _) & H1 & _) (b' & n' & (_ & Hn' & _) & H2 & H3 & _)]. apply H1. by simplify_eq.
Qed.

(** ** Under-counts *)

(** A cell and thresholds of ordinary size, its counts not negative. *)
Definition sound_cell (thr : PwThresholds) (c : PwBaselineCell) : Prop :=
  tame (pc_median c) ∧ number (pc_median c) ∧ fle f0 (pc_median c) = true ∧ tame (pc_mad c) ∧ number (pc_mad c) ∧
  small (pc_sample_count c) ∧ tame (pc_completeness c) ∧
  tame (pt_mad_floor_ratio thr) ∧ number (pt_mad_floor_ratio thr) ∧ tame (pt_deviation_z thr) ∧ is_zero (pt_deviation_z thr) = false.

Lemma tame_finite x : tame x → isfinite x = true.
Proof. intros H%tame_below. by eapply below_finite. Qed.

Lemma scale_number thr c : sound_cell thr c →
  let scale := effective_scale (pc_median c) (pc_mad c) (pt_mad_floor_ratio thr) in
  number scale ∧ isfinite scale = true ∧ 0 < unit_value scale.
Proof.
  intros (Tm & Nm & _ & Ts & Ns & _ & _ & Tr & Nr & _). cbv zeta.
  destruct (effective_scale_ok (pc_median c) (pc_mad c) (pt_mad_floor_ratio thr)) as (j & (m & e & Hs & _) & _);
    [by apply tame_below..|].
  assert (Hn : number (effective_scale (pc_median c) (pc_mad c) (pt_mad_floor_ratio thr))).
  { unfold effective_scale. repeat apply fmax_number; [| |by split].
    - apply fmul_number; [done|by split|by apply tame_finite|done].
    - apply fmul_number; [by apply fabs_number|done| |by apply tame_finite].
      pose proof (tame_finite _ Tm). by destruct (pc_median c). }
  split; [done|]. rewrite Hs in *. split; [done|]. apply (finite_range false m e). by destruct Hn.
Qed.

Lemma robust_z_mono thr c x y z z' : sound_cell thr c → number x → number y → isfinite x = true → isfinite y = true →
  fle x y = true → robust_z x (pc_median c) (pc_mad c) (pt_mad_floor_ratio thr) = Ok z →
  robust_z y (pc_median c) (pc_mad c) (pt_mad_floor_ratio thr) = Ok z' → fle z z' = true.
Proof.
  intros Hc Nx Ny Fx Fy Hle. destruct (scale_number thr c Hc) as (Nsc & Fsc & Psc). destruct Hc as (Tm & Nm & _).
  pose proof (tame_finite _ Tm) as Fm. apply fdiv_mono; [| |done|done|done|by apply fsub_mono].
  - by apply fsub_value.
  - by apply fsub_value.
Qed.

Lemma ratio_mono c x y r r' : number (pc_median c) → isfinite (pc_median c) = true → fle f0 (pc_median c) = true →
  number x → number y → fle x y = true → ratio x (pc_median c) = Ok (Some r) → ratio y (pc_median c) = Ok r' →
  ∃ q, r' = Some q ∧ fle r q = true.
Proof.
  intros Nm Fm Hm Nx Ny Hle. unfold ratio. destruct (feq (pc_median c) f0) eqn:He; [done|]. intros H H'.
  bind_inv H. bind_inv H'. injection H as ->. injection H' as <-. eexists. split; [done|].
  eapply (fdiv_mono x y (pc_median c)); try done. destruct (pc_median c) as [s|s| |s m e]; try done.
  destruct s; [done|]. apply (finite_range false m e). by destruct Nm.
Qed.

(** A larger count passes every guard of a spike that a smaller one passes. *)
Lemma spikes_mono thr c n n' x y : sound_cell thr c → n <= n' → float_of_int n = Ok x → float_of_int n' = Ok y →
  small n' → spikes thr c x → spikes thr c y.
Proof.
  intros Hc Hn Hx Hy Hs (H1 & (r & Hr & H2) & H3 & z & Hz & H4). pose proof Hc as (Tm & Nm & Hm & Ts & Ns & _ & _ & Tr & _).
  pose proof (float_of_int_mono _ _ _ _ Hn Hx Hy) as Hle. pose proof (tame_finite _ Tm) as Fm.
  destruct (float_of_int_value _ _ Hx) as (Nx & Fx & _), (float_of_int_value _ _ Hy) as (Ny & Fy & _).
  assert (By : below 61 y) by (destruct (small_float n' Hs) as (y' & Hy' & B); congruence).
  split; [by eapply flt_false_mono|]. split; [|split].
  - destruct r as [r|].
    + assert (∃ r', ratio y (pc_median c) = Ok r') as [r' Hr'].
      { unfold ratio, fdiv in *. destruct (feq _ _); [eauto|]. destruct (is_zero _); [done|]. cbn [res_bind]. eauto. }
      destruct (ratio_mono c x y r r' Nm Fm Hm Nx Ny Hle Hr Hr') as (q & -> & Hq). exists (Some q). split; [done|].
      by eapply flt_false_mono.
    + exists None. split; [|done]. revert Hr. unfold ratio. destruct (feq _ _); [done|]. intros Hr. by bind_inv Hr.
  - eapply flt_false_mono; [|exact H3]. by apply fsub_mono.
  - destruct (robust_z_ok y (pc_median c) (pc_mad c) (pt_mad_floor_ratio thr)) as (z' & Hz' & _);
      [eapply below_mono; [exact By|lia]|by apply tame_below..|].
    exists z'. split; [done|]. destruct (fle (pc_mad c) f0).
    + by eapply fle_false_mono.
    + eapply flt_false_mono; [|exact H4]. by eapply (robust_z_mono thr c x y).
Qed.

(** *** The spike detector returns *)

Lemma confidence_of_ok thr c x status : sound_cell thr c → below 190 x → is_ok (confidence_of c x thr status).
Proof.
  intros (_ & _ & _ & _ & _ & Hn & Hc & _ & _ & Hz & Hz0) Hx. unfold confidence_of, int_div.
  destruct (small_float _ Hn) as (n & -> & Hnb). cbn [res_bind].
  destruct (fdiv_below n (lit 30 1) 61 false 5 70) as (q & -> & Hq); [done|by eexists _, _; vm_compute|lia..|]. cbn [res_bind].
  destruct Hz as [Hz|(s & k & Hk & Hkb)]; [congruence|].
  destruct (mul_mag f2 (pt_deviation_z thr) false s 2 k) as (k' & Hk' & Hb'); [by eexists _, _; vm_compute|done|lia|].
  destruct (fdiv_below (fabs x) (fmul f2 (pt_deviation_z thr)) 190 (xorb false s) k' 400) as (p & -> & Hp);
    [by apply fabs_below|done|lia..|]. cbn [res_bind].
  assert (H1 : below 401 f1) by closed_below.
  assert (Hv : below 810 (fmul (fadd (fmul (lit 4 10) (fmin f1 q)) (fmul (lit 6 10) (fmin f1 p))) (fmin f1 (fadd (pc_completeness c) (lit 5 10))))).
  { apply (fmul_below 404 404); [| |lia..].
    - apply (fadd_below 402); [| |lia].
      + apply (fmul_below 0 401); [closed_below| |lia..]. apply fmin_below; [done|]. eapply below_mono; [exact Hq|lia].
      + apply (fmul_below 0 401); [closed_below| |lia..]. apply fmin_below; [done|]. eapply below_mono; [exact Hp|lia].
    - apply fmin_below; [eapply below_mono; [exact H1|lia]|]. eapply below_mono; [apply (fadd_below 101); [|closed_below|lia]|lia].
      eapply below_mono; [by apply tame_below|lia]. }
  apply (round_digits_ok _ _ 810); [lia| |lia]. case_decide; [done|]. apply fmin_below; [done|closed_below].
Qed.

(** What is prepared is what the source goes on with. *)
Lemma prepared_runs t ctx r : t ∈ [PW_VALUE_SPIKE; PW_VALUE_DROP; PW_VALUE_DISAPPEARED] → prepared t ctx r →
  baseline_preconditions (make_guard ctx t) = Ok (inr r).
Proof.
  intros Ht Hp. pose proof (prepared_goes t ctx Ht) as Hg. destruct (baseline_preconditions (make_guard ctx t)) as [[v|r']|e] eqn:E.
  - destruct Hg as [_ Hg]. by destruct (Hg r).
  - destruct Hg as [_ Hg]. by rewrite (Hg r Hp).
  - exfalso. destruct r as [[b c] x]. destruct Hp as (Hc & Hu & n & Hn & Hx).
    revert E. unfold baseline_preconditions, watch, bucket_guard, cell, reading, lift, stop. cbn [gd_ctx make_guard].
    destruct Hc as ((s & -> & Hs) & -> & Hk & Hm & Hsc & Hpp), Hu as (-> & Hv & Hr & Hmin), Hn as [-> Hmeas].
    rewrite decide_False by done. cbn [bind_step]. rewrite !decide_False, Hsc, Hpp by done. cbn [bind_step].
    rewrite (proj2 (Z.eqb_eq _ _) Hv), Hr. cbn [negb andb orb]. unfold gd_thresholds. cbn [gd_ctx make_guard].
    rewrite (proj2 (Z.ltb_ge _ _)) by lia. cbn [bind_step]. rewrite Hx. cbn [res_bind].
    destruct (rd_measurement _); [|done]. by case_decide.
Qed.

Lemma spike_returns ctx b c x : prepared PW_VALUE_SPIKE ctx (b, c, x) → spikes (dc_thresholds ctx) c x →
  sound_cell (dc_thresholds ctx) c → below 61 x → is_ok (detect_value_spike ctx).
Proof.
  set (thr := dc_thresholds ctx). intros Hp (H1 & (r & Hr & H2) & H3 & z & Hz & H4) Hc Hx. unfold detect_value_spike. cbv zeta.
  rewrite (prepared_runs PW_VALUE_SPIKE ctx _ ltac:(set_solver) Hp). cbn [bind_step]. fold thr. rewrite H1, Hr. cbn [lift res_bind bind_step].
  replace (match r with Some r => flt r (pt_spike_ratio thr) | None => false end) with false by (by destruct r).
  rewrite H3. unfold robust_z_with_status. rewrite Hz. cbn [lift res_bind bind_step]. pose proof Hc as (Tm & _ & _ & Ts & _ & _ & _ & Tr & _ & Tz & _).
  destruct (robust_z_ok x (pc_median c) (pc_mad c) (pt_mad_floor_ratio thr)) as (z' & Hz' & Bz);
    [eapply below_mono; [exact Hx|lia]|by apply tame_below..|].
  assert (z' = z) as -> by congruence. destruct (round_digits_ok 3 z 185) as [rz ->]; [lia|done|lia|]. cbn [lift res_bind bind_step].
  assert (Hok : ∀ m s reason facts sev, below 190 m →
    is_ok (verdict_of (lift (anomalous (make_guard ctx PW_VALUE_SPIKE) b c x (Some z) m s reason facts sev None)))).
  { intros m s reason facts sev Hm. unfold anomalous, gd_thresholds. cbn [gd_ctx make_guard]. fold thr.
    destruct (confidence_of_ok thr c m s Hc Hm) as [q ->]. cbn. by eexists. }
  destruct (fle (pc_mad c) f0); cbn [decide].
  - rewrite decide_False by done. rewrite H4. cbn [bind_step]. apply Hok. eapply below_mono; [by apply tame_below|lia].
  - rewrite decide_True by done. rewrite H4. cbn [bind_step]. apply Hok. eapply below_mono; [exact Bz|lia].
Qed.

(** ** Verdicts without a measurement *)

Definition undecided (v : PwVerdict) : Prop :=
  ev_signal (pv_evidence v) = DS_UNKNOWN ∧ ev_insufficient_data (pv_evidence v) = true.

(** Every verdict [m] ends with satisfies [P]; for a body, every verdict. *)
Definition ends {A} (P : PwVerdict → Prop) (m : result (PwVerdict + A)) : Prop :=
  match m with Ok (inl v) => P v | _ => True end.

Definition closes (P : PwVerdict → Prop) (m : result (PwVerdict + PwVerdict)) : Prop :=
  match m with Ok (inl v) | Ok (inr v) => P v | Err _ => True end.

Lemma closes_verdict P m v : closes P m → verdict_of m = Ok v → P v.
Proof. unfold closes, verdict_of. by destruct m as [[w|w]|e]; intros H [= <-]. Qed.

Lemma closes_bind {A} P Q (m : result (PwVerdict + A)) f : ends Q m → (∀ v, Q v → P v) →
  (∀ a, m = Ok (inr a) → closes P (f a)) → closes P (bind_step m f).
Proof. unfold ends, closes, bind_step. destruct m as [[v|a]|e]; intros H HP Hf; [by apply HP|by apply Hf|done]. Qed.

Lemma ends_bind {A B} P (m : result (PwVerdict + A)) (f : A → result (PwVerdict + B)) : ends P m →
  (∀ a, m = Ok (inr a) → ends P (f a)) → ends P (bind_step m f).
Proof. unfold ends, bind_step. destruct m as [[v|a]|e]; intros H Hf; [done|by apply Hf|done]. Qed.

Lemma ends_lift {A} P (m : result A) : ends P (lift m).
Proof. by destruct m. Qed.

Lemma ends_if {A} P (c : bool) (m m' : result (PwVerdict + A)) : ends P m → ends P m' → ends P (if c then m else m').
Proof. by destruct c. Qed.

Lemma closes_if P (c : bool) m m' : closes P m → closes P m' → closes P (if c then m else m').
Proof. by destruct c. Qed.

Lemma insufficient_undecided g n reason : undecided (insufficient_with g n reason).
Proof. unfold insufficient_with. by destruct (interval g). Qed.

Lemma insufficient_undecided' g reason : undecided (insufficient_verdict g reason).
Proof. apply insufficient_undecided. Qed.

#[export] Hint Resolve insufficient_undecided insufficient_undecided' : quiet.

Ltac end_by := repeat first [case_match | case_decide]; try exact I; cbn [ends closes stop]; auto with quiet.

Lemma watch_ends g : ends undecided (watch g).
Proof. unfold watch, stop. end_by. Qed.
Lemma bucket_ends g : ends undecided (bucket_guard g).
Proof. unfold bucket_guard, stop. end_by. Qed.
Lemma cell_ends g b : ends undecided (cell g b).
Proof. unfold cell, stop. cbv zeta. end_by. Qed.
Lemma reading_ends g : ends undecided (reading g).
Proof. unfold reading, stop. cbv zeta. repeat case_match; auto with quiet; apply ends_lift || (cbn; auto with quiet). Qed.
Lemma coverage_ends g b : ends undecided (coverage_guard g b).
Proof. unfold coverage_guard. apply ends_bind; [apply ends_lift|]. intros c _. unfold stop. end_by. Qed.
Lemma streak_ends g b turns start k first : ends undecided (zero_streak g b turns start k first).
Proof.
  revert start k first. induction turns as [|turns IH]; intros start k first; [exact I|]. cbn [zero_streak]. unfold stop.
  destruct (point_at _ _ _) as [p|]; [|cbn; auto with quiet]. apply ends_if; [cbn; auto with quiet|].
  destruct (rd_events _); [|cbn; auto with quiet]. destruct (rd_measurement _) as [[]|]; try (cbn; auto with quiet).
  apply ends_bind; [apply ends_lift|]. intros c _. apply ends_if; [cbn; auto with quiet|]. apply ends_if; [exact I|apply IH].
Qed.

Lemma preconditions_ends g : ends undecided (baseline_preconditions g).
Proof.
  unfold baseline_preconditions. apply ends_bind; [apply watch_ends|]. intros u _. apply ends_bind; [apply bucket_ends|]. intros b _.
  apply ends_bind; [apply cell_ends|]. intros c _. apply ends_bind; [apply reading_ends|]. intros x _. exact I.
Qed.

(** What a verdict may say of a measurement: nothing, an alarm, or that all is well when no
    input is a lower bound. *)
Definition honest (exact : Prop) (v : PwVerdict) : Prop :=
  undecided v ∨ ev_insufficient_data (pv_evidence v) = false ∧
    (ev_signal (pv_evidence v) = DS_ANOMALOUS ∨ ev_signal (pv_evidence v) = DS_HEALTHY ∧ exact).

Lemma not_proven_honest g reason o e : honest (sd_scope (gd_decision g) ≠ INCREASE_ONLY) (not_proven g reason o e).
Proof.
  unfold not_proven, honest. case_decide; [left; auto with quiet|]. right. unfold healthy_verdict. destruct (interval g). by auto.
Qed.

Lemma not_yet_honest g o e reason : closes (honest (sd_scope (gd_decision g) ≠ INCREASE_ONLY)) (not_yet g o e reason).
Proof. apply not_proven_honest. Qed.

Lemma not_yet_ends {A} g o e reason : ends (A := A) (honest (sd_scope (gd_decision g) ≠ INCREASE_ONLY)) (not_yet g o e reason).
Proof. apply not_proven_honest. Qed.

Lemma anomalous_honest P g b c x score m status reason facts severity start :
  closes (honest P) (lift (anomalous g b c x score m status reason facts severity start)).
Proof. unfold anomalous. destruct (confidence_of _ _ _ _); [|exact I]. right. cbn. by auto. Qed.

Lemma undecided_honest P v : undecided v → honest P v.
Proof. by left. Qed.

(** A decided verdict of a value detector comes after every precondition. *)
Definition value_verdict (t : PwAnomalyType) (ctx : PwDetectionContext) (v : PwVerdict) : Prop :=
  undecided v ∨ honest (sd_scope (gd_decision (make_guard ctx t)) ≠ INCREASE_ONLY) v ∧
    ∃ b c x, prepared t ctx (b, c, x) ∧ (t ≠ PW_VALUE_SPIKE → covered ctx b).

Lemma prepared_of t ctx r : t ∈ [PW_VALUE_SPIKE; PW_VALUE_DROP; PW_VALUE_DISAPPEARED] →
  baseline_preconditions (make_guard ctx t) = Ok (inr r) → prepared t ctx r.
Proof. intros Ht H. pose proof (prepared_goes t ctx Ht) as Hg. rewrite H in Hg. apply Hg. Qed.

Lemma covered_of t ctx b u : coverage_guard (make_guard ctx t) b = Ok (inr u) → covered ctx b.
Proof. intros H. pose proof (coverage_goes ctx t b) as Hg. rewrite H in Hg. apply Hg. Qed.

Lemma value_verdict_of t ctx b c x m : prepared t ctx (b, c, x) → (t ≠ PW_VALUE_SPIKE → covered ctx b) →
  closes (honest (sd_scope (gd_decision (make_guard ctx t)) ≠ INCREASE_ONLY)) m → closes (value_verdict t ctx) m.
Proof. intros Hp Hc. unfold closes, value_verdict. destruct m as [[v|v]|e]; eauto 10. Qed.

(** The rest of the body of a spike or a drop. *)
Lemma deviation_honest P x m s f
    (body : float → RobustScoreStatus → float → result (PwVerdict + jobj * string * float))
    (k : float → RobustScoreStatus → float → jobj * string * float → result (PwVerdict + PwVerdict)) :
  (∀ z st r, ends (honest P) (body z st r)) → (∀ z st r d, closes (honest P) (k z st r d)) →
  closes (honest P) (zs <~ lift (robust_z_with_status x m s f) ;;
    let '(score, status) := zs in
    rounded <~ lift (round_digits 3 score) ;;
    proven <~ body score status rounded ;;
    k score status rounded proven).
Proof.
  intros Hb Hk. eapply (closes_bind _ (honest P)); [apply ends_lift|done|]. intros [z st] _.
  eapply (closes_bind _ (honest P)); [apply ends_lift|done|]. intros r _.
  eapply (closes_bind _ (honest P)); [apply Hb|done|]. intros d _. apply Hk.
Qed.

Lemma spike_verdict ctx v : detect_value_spike ctx = Ok v → value_verdict PW_VALUE_SPIKE ctx v.
Proof.
  apply closes_verdict. eapply closes_bind; [apply preconditions_ends|by left|]. intros [[b c] x] Hp.
  apply prepared_of in Hp; [|set_solver]. cbv zeta. apply (value_verdict_of _ ctx b c x); [done|done|].
  apply closes_if; [apply not_yet_honest|]. eapply (closes_bind _ undecided); [apply ends_lift|apply undecided_honest|]. intros ratio _.
  apply closes_if; [apply not_yet_honest|]. apply closes_if; [apply not_yet_honest|].
  apply deviation_honest.
  - intros z st r. case_decide; apply ends_if; try exact I; apply not_yet_ends.
  - intros z st r [[facts basis] magnitude]. apply anomalous_honest.
Qed.

Lemma drop_verdict ctx v : detect_value_drop ctx = Ok v → value_verdict PW_VALUE_DROP ctx v.
Proof.
  apply closes_verdict. eapply closes_bind; [apply preconditions_ends|by left|]. intros [[b c] x] Hp.
  apply prepared_of in Hp; [|set_solver]. cbv zeta. eapply closes_bind; [apply coverage_ends|by left|]. intros u Hc.
  apply covered_of in Hc. apply (value_verdict_of _ ctx b c x); [done|done|].
  apply closes_if; [apply not_yet_honest|]. eapply (closes_bind _ undecided); [apply ends_lift|apply undecided_honest|]. intros ratio _.
  apply closes_if; [apply not_yet_honest|]. apply closes_if; [apply not_yet_honest|].
  apply deviation_honest.
  - intros z st r. case_decide; apply ends_if; try exact I; apply not_yet_ends.
  - intros z st r [[facts basis] magnitude]. apply anomalous_honest.
Qed.

Lemma disappeared_verdict ctx v : detect_value_disappeared ctx = Ok v → value_verdict PW_VALUE_DISAPPEARED ctx v.
Proof.
  apply closes_verdict. eapply closes_bind; [apply preconditions_ends|by left|]. intros [[b c] x] Hp.
  apply prepared_of in Hp; [|set_solver]. cbv zeta. eapply closes_bind; [apply coverage_ends|by left|]. intros u Hc.
  apply covered_of in Hc. apply (value_verdict_of _ ctx b c x); [done|done|].
  destruct (dc_last_seen_at ctx); [|left; apply insufficient_undecided'].
  eapply (closes_bind _ undecided); [apply ends_lift|apply undecided_honest|]. intros inactive _.
  do 3 (apply closes_if; [apply not_yet_honest|]).
  eapply (closes_bind _ undecided); [apply streak_ends|apply undecided_honest|]. intros [streak first] _.
  apply closes_if; [apply not_yet_honest|apply anomalous_honest].
Qed.

(** A decided verdict on novelty comes after the bucket was collected; one that says that a
    value is not yet material counted exactly. *)
Definition novelty_verdict (ctx : PwDetectionContext) (v : PwVerdict) : Prop :=
  undecided v ∨ ev_insufficient_data (pv_evidence v) = false ∧
    (ev_signal (pv_evidence v) = DS_ANOMALOUS ∨ ev_signal (pv_evidence v) = DS_HEALTHY) ∧
    ∃ b n, collected ctx b ∧ dc_novelty ctx = Some n ∧
      (ev_signal (pv_evidence v) = DS_HEALTHY → ev_observed_value (pv_evidence v) ≠ None → nf_materiality_measurement n = WM_EXACT).

Lemma healthy_novelty ctx g reason b n : collected ctx b → dc_novelty ctx = Some n →
  novelty_verdict ctx (healthy_verdict g reason None None).
Proof.
  intros Hb Hn. right. unfold healthy_verdict. destruct (interval g). cbn. split; [done|]. split; [by right|]. exists b, n. done.
Qed.

Lemma collected_of t ctx u b : watch (make_guard ctx t) = Ok (inr u) → bucket_guard (make_guard ctx t) = Ok (inr b) → collected ctx b.
Proof.
  intros Hw Hb. pose proof (watch_goes ctx t) as H1. pose proof (bucket_goes ctx t) as H2. rewrite Hw in H1. rewrite Hb in H2.
  split; [apply H1|apply H2].
Qed.

Lemma novelty_common_ends ctx t r : ends (novelty_verdict ctx) (novelty_common (make_guard ctx t) r).
Proof.
  assert (Hu : ∀ A (g : Guard) reason, ends (A := A) (novelty_verdict ctx) (stop (insufficient_verdict g reason))) by (left; auto with quiet).
  unfold novelty_common. cbv zeta. destruct (watch (make_guard ctx t)) as [[v|u]|e] eqn:Hw; [|cbn [bind_step]|exact I].
  { pose proof (watch_ends (make_guard ctx t)) as H. rewrite Hw in H. by left. }
  destruct (bucket_guard (make_guard ctx t)) as [[v|b]|e] eqn:Hb; [|cbn [bind_step]|exact I].
  { pose proof (bucket_ends (make_guard ctx t)) as H. rewrite Hb in H. by left. }
  pose proof (collected_of _ _ _ _ Hw Hb) as Hc. cbn [gd_ctx make_guard]. destruct (dc_novelty ctx) as [n|] eqn:Hn; [|apply Hu].
  assert (Hh : ∀ A (g : Guard) reason, ends (A := A) (novelty_verdict ctx) (stop (healthy_verdict g reason None None)))
    by (intros A g reason; by apply (healthy_novelty ctx g reason b n)).
  destruct (nf_established_at_hand_off n); [apply Hh|]. apply ends_bind; [apply ends_lift|]. intros past _.
  do 2 (apply ends_if; [apply Hh|]). destruct (nf_watch_first_collected_at n); [|apply Hu].
  apply ends_bind; [apply ends_lift|]. intros learning _. apply ends_if.
  { apply ends_bind; [apply ends_lift|]. intros span _. apply Hu. }
  do 3 (apply ends_if; [apply Hu|]). apply ends_if; [apply Hu|exact I].
Qed.

Lemma novelty_of ctx t r b n : (t = PW_NEW_VALUE ∨ r = false) → novelty_common (make_guard ctx t) r = Ok (inr (b, n)) → novel ctx b n.
Proof. intros Ht H. pose proof (novelty_goes ctx t r Ht) as Hg. rewrite H in Hg. apply Hg. Qed.

Lemma materiality_closes ctx t b n claim class : novel ctx b n →
  closes (novelty_verdict ctx) (materiality (make_guard ctx t) b n claim class).
Proof.
  intros (Hb & Hn & _). unfold materiality. cbv zeta. apply closes_if.
  - case_bool_decide as Hm; [left; auto with quiet|]. eapply (closes_bind _ undecided); [apply ends_lift|by left|]. intros o _.
    right. unfold healthy_verdict. destruct (interval _). cbn. split; [done|]. split; [by right|]. exists b, n.
    split; [done|]. split; [done|]. intros _ _. by destruct (nf_materiality_measurement n).
  - eapply (closes_bind _ undecided); [apply ends_lift|by left|]. intros o _.
    eapply (closes_bind _ undecided); [apply ends_lift|by left|]. intros q _. right. cbn. split; [done|]. split; [by left|]. by exists b, n.
Qed.

Lemma new_value_verdict ctx v : detect_new_value ctx = Ok v → novelty_verdict ctx v.
Proof.
  apply closes_verdict. eapply closes_bind; [apply novelty_common_ends|done|]. intros [b n] Hnov.
  apply novelty_of in Hnov; [|by left]. cbv zeta. apply closes_if; [|by apply materiality_closes].
  destruct Hnov as (Hb & Hn & _). by eapply healthy_novelty.
Qed.

Lemma new_combination_verdict ctx v : detect_new_combination ctx = Ok v → novelty_verdict ctx v.
Proof.
  apply closes_verdict. eapply (closes_bind _ undecided); [apply watch_ends|by left|]. intros u _.
  eapply (closes_bind _ undecided); [apply bucket_ends|by left|]. intros b0 _. apply closes_if; [left; auto with quiet|].
  eapply closes_bind; [apply novelty_common_ends|done|]. intros [b n] Hnov. apply novelty_of in Hnov; [|by right].
  apply closes_if; [left; auto with quiet|]. cbv zeta. apply closes_if; [destruct Hnov as (Hb & Hn & _); by eapply healthy_novelty|].
  case_decide; [left; auto with quiet|]. by apply materiality_closes.
Qed.


(** ** Under-counts *)

Definition with_reading (ctx : PwDetectionContext) (r : PwReading) : PwDetectionContext :=
  {| dc_watch_status := dc_watch_status ctx; dc_bucket := dc_bucket ctx; dc_reading := r; dc_baseline := dc_baseline ctx;
     dc_thresholds := dc_thresholds ctx; dc_last_seen_at := dc_last_seen_at ctx; dc_recent := dc_recent ctx;
     dc_novelty := dc_novelty ctx; dc_extra := dc_extra ctx |}.

Definition with_novelty (ctx : PwDetectionContext) (n : PwNoveltyFacts) : PwDetectionContext :=
  {| dc_watch_status := dc_watch_status ctx; dc_bucket := dc_bucket ctx; dc_reading := dc_reading ctx; dc_baseline := dc_baseline ctx;
     dc_thresholds := dc_thresholds ctx; dc_last_seen_at := dc_last_seen_at ctx; dc_recent := dc_recent ctx;
     dc_novelty := Some n; dc_extra := dc_extra ctx |}.

(** The same facts with exact counts. *)
Definition recount (n : PwNoveltyFacts) (events buckets : Z) : PwNoveltyFacts :=
  {| nf_first_seen_at := nf_first_seen_at n; nf_history := nf_history n; nf_history_start := nf_history_start n;
     nf_history_end := nf_history_end n; nf_history_buckets := nf_history_buckets n;
     nf_appearance_bucket := nf_appearance_bucket n; nf_events_since_first_seen := events;
     nf_buckets_with_traffic := buckets; nf_materiality_measurement := WM_EXACT;
     nf_watch_first_collected_at := nf_watch_first_collected_at n; nf_pinned := nf_pinned n;
     nf_membership_changed := nf_membership_changed n; nf_property_count := nf_property_count n;
     nf_components := nf_components n; nf_established_at_hand_off := nf_established_at_hand_off n;
     nf_history_buckets_from_history := nf_history_buckets_from_history n; nf_history_floor := nf_history_floor n |}.

(** [ctx'] holds the true counts of what [ctx] counted from below. *)
Inductive undercounts (ctx : PwDetectionContext) : PwDetectionContext → Prop :=
| under_reading k n n' : dc_reading ctx = RD k (Some n) (Some WM_LOWER_BOUND) → n <= n' → small n' →
    undercounts ctx (with_reading ctx (RD k (Some n') (Some WM_EXACT)))
| under_novelty nf events buckets : dc_novelty ctx = Some nf → nf_materiality_measurement nf = WM_LOWER_BOUND →
    nf_events_since_first_seen nf <= events → nf_buckets_with_traffic nf <= buckets → small events →
    undercounts ctx (with_novelty ctx (recount nf events buckets)).

Definition same_end (v v' : PwVerdict) : Prop :=
  ev_signal (pv_evidence v') = ev_signal (pv_evidence v) ∧
  ev_insufficient_data (pv_evidence v') = ev_insufficient_data (pv_evidence v).

(** Two computations end alike. *)
Definition alike {A} (R : A → A → Prop) (m m' : result (PwVerdict + A)) : Prop :=
  match m, m' with
  | Ok (inl v), Ok (inl v') => same_end v v'
  | Ok (inr a), Ok (inr a') => R a a'
  | Err _, Err _ => True
  | _, _ => False
  end.

Lemma same_insufficient g g' r r' : same_end (insufficient_verdict g r) (insufficient_verdict g' r').
Proof. unfold insufficient_verdict, insufficient_with. by destruct (interval g), (interval g'). Qed.

Lemma same_healthy g g' r r' : same_end (healthy_verdict g r None None) (healthy_verdict g' r' None None).
Proof. unfold healthy_verdict. by destruct (interval g), (interval g'). Qed.

Lemma alike_if {A} (R : A → A → Prop) (c : bool) m1 m2 m1' m2' : alike R m1 m1' → alike R m2 m2' →
  alike R (if c then m1 else m2) (if c then m1' else m2').
Proof. by destruct c. Qed.

Lemma alike_call {A B} (R : A → A → Prop) (m : result B) f f' : (∀ b, alike R (f b) (f' b)) →
  alike R (bind_step (lift m) f) (bind_step (lift m) f').
Proof. intros H. destruct m; [apply H|done]. Qed.

Lemma alike_refl {A} (R : A → A → Prop) m : (∀ a, R a a) → alike R m m.
Proof. intros H. unfold alike. destruct m as [[v|a]|e]; done. Qed.

(** The novelty checks do not read the counts. *)
Lemma novelty_alike ctx t r nf e b : (t = PW_NEW_VALUE ∨ r = false) → dc_novelty ctx = Some nf →
  alike (λ bn bn', bn' = (bn.1, recount nf e b) ∧ bn.2 = nf)
    (novelty_common (make_guard ctx t) r) (novelty_common (make_guard (with_novelty ctx (recount nf e b)) t) r).
Proof.
  intros Ht Hn. unfold novelty_common. cbv zeta. set (g := make_guard ctx t). set (ctx' := with_novelty ctx (recount nf e b)).
  set (g' := make_guard ctx' t). change (watch g') with (watch g). change (bucket_guard g') with (bucket_guard g).
  change (gd_thresholds g') with (gd_thresholds g). destruct (watch g) as [[v|u]|er]; [done| |done]. cbn [bind_step].
  destruct (bucket_guard g) as [[v|bk]|er]; [done| |done]. cbn [bind_step].
  change (dc_novelty (gd_ctx g')) with (Some (recount nf e b)). change (dc_novelty (gd_ctx g)) with (dc_novelty ctx). rewrite Hn.
  cbn [recount nf_established_at_hand_off nf_first_seen_at nf_pinned nf_watch_first_collected_at nf_membership_changed nf_history nf_appearance_bucket].
  destruct (nf_established_at_hand_off nf); [apply same_healthy|]. apply alike_call. intros past.
  do 2 (apply alike_if; [apply same_healthy|]). destruct (nf_watch_first_collected_at nf); [|apply same_insufficient].
  apply alike_call. intros learning. apply alike_if; [apply alike_call; intros span; apply same_insufficient|].
  apply alike_if; [apply same_insufficient|]. destruct (hf_complete (nf_history nf)) eqn:Hh; cbn [negb]; [|apply same_insufficient].
  assert (Hs : ∀ c n, dc_novelty c = Some n → hf_complete (nf_history n) = true →
    (r && bool_decide (sd_scope (gd_decision (make_guard c t)) = NONE)) = false).
  { intros c n Hc Hcn. destruct Ht as [->| ->]; [|done]. rewrite bool_decide_eq_false_2; [by destruct r|]. by eapply novelty_scope. }
  unfold g, g'. rewrite (Hs ctx nf), (Hs ctx' (recount nf e b)) by done. apply alike_if; [apply same_insufficient|]. done.
Qed.

(** Counts that are material from below are material. *)
Lemma materiality_recount g g' b nf events buckets claim class v :
  gd_thresholds g' = gd_thresholds g → nf_materiality_measurement nf = WM_LOWER_BOUND →
  nf_events_since_first_seen nf <= events → nf_buckets_with_traffic nf <= buckets → small events →
  verdict_of (materiality g b nf claim class) = Ok v → ¬ undecided v →
  ∃ v', verdict_of (materiality g' b (recount nf events buckets) claim class) = Ok v' ∧ same_end v v'.
Proof.
  intros Hg Hm He Hb Hs. unfold materiality. cbv zeta. rewrite Hg, Hm. cbn [recount nf_events_since_first_seen nf_buckets_with_traffic].
  rewrite bool_decide_eq_true_2 by done. destruct (_ || _) eqn:Hlow.
  { intros [= <-] Hu. destruct Hu. apply insufficient_undecided'. }
  apply orb_false_iff in Hlow as [H1%Z.ltb_ge H2%Z.ltb_ge].
  rewrite (proj2 (Z.ltb_ge events _)), (proj2 (Z.ltb_ge buckets _)) by lia. cbn [orb].
  destruct (float_of_int (nf_events_since_first_seen nf)); [|done]. cbn [lift res_bind bind_step].
  destruct (float_of_int (pt_new_value_min_events _)); [|done]. cbn [lift res_bind bind_step]. intros [= <-] _.
  destruct (small_float events Hs) as (y & -> & _). cbn [lift res_bind bind_step]. by eexists.
Qed.

Lemma new_value_recount ctx nf events buckets v : dc_novelty ctx = Some nf → nf_materiality_measurement nf = WM_LOWER_BOUND →
  nf_events_since_first_seen nf <= events → nf_buckets_with_traffic nf <= buckets → small events →
  detect_new_value ctx = Ok v → ¬ undecided v →
  ∃ v', detect_new_value (with_novelty ctx (recount nf events buckets)) = Ok v' ∧ same_end v v'.
Proof.
  intros Hn Hm He Hb Hs. unfold detect_new_value. cbv zeta. set (ctx' := with_novelty ctx (recount nf events buckets)).
  pose proof (novelty_alike ctx PW_NEW_VALUE true nf events buckets ltac:(by left) Hn) as Ha. fold ctx' in Ha.
  destruct (novelty_common (make_guard ctx _) _) as [[w|[b n]]|er], (novelty_common (make_guard ctx' _) _) as [[w'|[b' n']]|er'];
    try done; cbn [bind_step].
  - intros [= <-] _. by exists w'.
  - destruct Ha as [[= -> ->] Hnf]. cbn [fst snd] in *. subst n. cbn [recount nf_property_count].
    change (two_known (recount nf events buckets)) with (two_known nf). destruct (_ && _).
    + intros [= <-] _. eexists. split; [done|apply same_healthy].
    + by apply materiality_recount.
Qed.

Lemma new_combination_recount ctx nf events buckets v : dc_novelty ctx = Some nf → nf_materiality_measurement nf = WM_LOWER_BOUND →
  nf_events_since_first_seen nf <= events → nf_buckets_with_traffic nf <= buckets → small events →
  detect_new_combination ctx = Ok v → ¬ undecided v →
  ∃ v', detect_new_combination (with_novelty ctx (recount nf events buckets)) = Ok v' ∧ same_end v v'.
Proof.
  intros Hn Hm He Hb Hs. unfold detect_new_combination. cbv zeta. set (ctx' := with_novelty ctx (recount nf events buckets)).
  change (watch (make_guard ctx' PW_NEW_COMBINATION)) with (watch (make_guard ctx PW_NEW_COMBINATION)).
  change (bucket_guard (make_guard ctx' PW_NEW_COMBINATION)) with (bucket_guard (make_guard ctx PW_NEW_COMBINATION)).
  destruct (watch _) as [[w|u]|er]; [intros [= <-] _; by exists w| |done]. cbn [bind_step].
  destruct (bucket_guard _) as [[w|b0]|er]; [intros [= <-] _; by exists w| |done]. cbn [bind_step].
  change (dc_novelty ctx') with (Some (recount nf events buckets)). rewrite Hn. cbn [recount nf_property_count].
  destruct (negb (nf_property_count nf =? 2)); [intros [= <-] _; eexists; split; [done|apply same_insufficient]|].
  pose proof (novelty_alike ctx PW_NEW_COMBINATION false nf events buckets ltac:(by right) Hn) as Ha. fold ctx' in Ha.
  destruct (novelty_common (make_guard ctx _) _) as [[w|[b n]]|er] eqn:En, (novelty_common (make_guard ctx' _) _) as [[w'|[b' n']]|er'];
    try done; cbn [bind_step].
  { intros [= <-] _. by exists w'. }
  destruct Ha as [[= -> ->] Hnf]. cbn [fst snd] in *. subst n. cbn [recount nf_components].
  apply novelty_of in En as (_ & _ & _ & _ & _ & _ & _ & Hh & _); [|by right].
  destruct (negb (Z.of_nat (length (nf_components nf)) =? 2)) eqn:Hl; [intros [= <-] _; eexists; split; [done|apply same_insufficient]|].
  rewrite unknown_ones. destruct (forallb known (nf_components nf)) eqn:Hk; cbn [negb].
  2: { intros [= <-] _. eexists. split; [done|apply same_healthy]. }
  assert (Htwo : two_known nf = true) by (unfold two_known; rewrite Hk; apply negb_false_iff in Hl; by rewrite Hl).
  rewrite !decide_False; [by apply materiality_recount|by apply (novelty_scope ctx' (recount nf events buckets))|by apply (novelty_scope ctx nf)].
Qed.

(** The window of a disappearance does not read the novelty. *)
Lemma zero_streak_novelty ctx n t b turns start k first :
  zero_streak (make_guard (with_novelty ctx n) t) b turns start k first = zero_streak (make_guard ctx t) b turns start k first.
Proof.
  revert start k first. induction turns as [|turns IH]; intros start k first; [done|]. cbn [zero_streak].
  change (point_at (gd_ctx (make_guard (with_novelty ctx n) t)) b start) with (point_at (gd_ctx (make_guard ctx t)) b start).
  change (gd_thresholds (make_guard (with_novelty ctx n) t)) with (gd_thresholds (make_guard ctx t)).
  destruct (point_at _ _ _) as [p|]; [|done]. destruct (bf_scope_changed _); [done|]. destruct (rd_events _); [|done].
  destruct (rd_measurement _) as [[]|]; try done. destruct (coverage _) as [c|]; [|done]. cbn [lift res_bind bind_step].
  rewrite IH. done.
Qed.

Lemma disappeared_novelty ctx n : detect_value_disappeared (with_novelty ctx n) = detect_value_disappeared ctx.
Proof.
  unfold detect_value_disappeared. cbv zeta. set (g := make_guard ctx _). set (g' := make_guard (with_novelty ctx n) _).
  change (baseline_preconditions g') with (baseline_preconditions g).
  destruct (baseline_preconditions g) as [[v|[[b c] x]]|]; [done| |done]. cbn [bind_step].
  change (coverage_guard g' b) with (coverage_guard g b). destruct (coverage_guard g b) as [[v|u]|]; [done| |done]. cbn [bind_step].
  change (dc_last_seen_at (with_novelty ctx n)) with (dc_last_seen_at ctx). destruct (dc_last_seen_at ctx); [|done].
  change (dc_thresholds (with_novelty ctx n)) with (dc_thresholds ctx). destruct (dt_lt _ _) as [inactive|]; [|done]. cbn [lift res_bind bind_step].
  unfold g'. rewrite zero_streak_novelty. reflexivity.
Qed.

(** C3: a verdict drawn from counts known from below is the verdict of the true counts: whatever
    detector decided, it decides the same once the counts are exact, whatever they are. A
    spike or a novelty is not undone by the events a cut search did not show, and nothing that
    more events could turn into an alarm is ever said to be well. *)
Theorem verdict_survives_undercount t ctx ctx' v : undercounts ctx ctx' →
  (∀ c, dc_baseline ctx = Some c → sound_cell (dc_thresholds ctx) c) →
  PW_DETECTOR_FUNCTIONS t ctx = Ok v → ¬ undecided v →
  ∃ v', PW_DETECTOR_FUNCTIONS t ctx' = Ok v' ∧
    ev_signal (pv_evidence v') = ev_signal (pv_evidence v) ∧
    ev_insufficient_data (pv_evidence v') = ev_insufficient_data (pv_evidence v).
Proof.
  intros [k n n' Hr Hn Hs|nf events buckets Hnf Hm He Hb Hs] Hcell H Hu.
  - set (cx := with_reading ctx (RD k (Some n') (Some WM_EXACT))).
    assert (Hvalue : value_verdict t ctx v → t ∈ [PW_VALUE_SPIKE; PW_VALUE_DROP; PW_VALUE_DISAPPEARED] → t = PW_VALUE_SPIKE ∧
        is_anomalous_verdict v ∧ ev_insufficient_data (pv_evidence v) = false).
    { intros [|[[|[Hi Ha]] (b & c & x & (Hb & _ & m & [_ Hm] & _) & _)]] Ht; [done|done|]. rewrite Hr in Hm. cbn in Hm.
      destruct Hm as [?|[-> _]]; [done|]. split; [done|]. split; [|done]. destruct Ha as [|[_ Ha]]; [done|]. destruct Ha.
      destruct Hb as (_ & Hb & _ & Hb' & _). rewrite (value_scope PW_VALUE_SPIKE ctx ltac:(set_solver) b Hb Hb'), Hr. cbn. by rewrite decide_True. }
    destruct t; cbn [PW_DETECTOR_FUNCTIONS] in *.
    + pose proof H as Hv. apply spike_verdict, Hvalue in Hv as (_ & Ha & Hi); [|set_solver].
      pose proof Ha as Hf. apply (spike_exact ctx v H) in Hf as (b & c & x & (Hb & Hc & m & [Hm _] & Hx) & Hsp).
      rewrite Hr in Hm. injection Hm as <-. destruct (small_float n' Hs) as (y & Hy & By).
      assert (Hp' : prepared PW_VALUE_SPIKE cx (b, c, y)).
      { split; [|split; [exact Hc|]].
        - destruct Hb as (Hw & Hb & Hk & Hrest). split; [exact Hw|]. split; [exact Hb|]. split; [|exact Hrest]. rewrite Hr in Hk. exact Hk.
        - exists n'. split; [|done]. split; [done|]. by left. }
      assert (Hsc : sound_cell (dc_thresholds ctx) c) by (apply Hcell, Hc).
      assert (Hsp' : spikes (dc_thresholds cx) c y) by (by apply (spikes_mono _ c n n' x y)).
      destruct (spike_returns cx b c y Hp' Hsp' Hsc By) as [v' Hv']. exists v'. split; [done|].
      assert (Ha' : is_anomalous_verdict v') by (apply (spike_exact cx v' Hv'); exists b, c, y; done).
      split; [unfold is_anomalous_verdict, signal in *; congruence|].
      pose proof Hv' as Hd. apply spike_verdict in Hd as [[Hu' _]|[[[Hu' _]|[Hi' _]] _]]; [|unfold is_anomalous_verdict, signal in *; congruence|congruence].
      unfold is_anomalous_verdict, signal in *. congruence.
    + apply drop_verdict, Hvalue in H as [? _]; [done|set_solver].
    + apply disappeared_verdict, Hvalue in H as [? _]; [done|set_solver].
    + exists v. split; [|done]. rewrite <-H. unfold cx. clear -Hr. destruct ctx. cbn in Hr. subst. reflexivity.
    + exists v. split; [|done]. rewrite <-H. unfold cx. clear -Hr. destruct ctx. cbn in Hr. subst. reflexivity.
  - destruct t; cbn [PW_DETECTOR_FUNCTIONS] in *.
    1,2: exists v; split; [|done]; rewrite <-H; reflexivity.
    + exists v. by rewrite disappeared_novelty.
    + by eapply new_value_recount.
    + by eapply new_combination_recount.
Qed.

(** ** What a baseline learns *)

Section Learn.
Context (watch_version : Z) (min_coverage : float) (spans : list (datetime * datetime)).

(** The value was tracked in the bucket. *)
Definition observed_reading (i : PwBaselineReading) : Prop := rd_kind (br_reading i) ≠ RK_NOT_AN_OBSERVATION.

(** An exact count of a bucket of this version, its coverage reached, its scope fixed, outside
    maintenance and every known incident. *)
Definition trains (i : PwBaselineReading) : Prop :=
  let b := br_bucket i in
  observed_reading i ∧ rd_events (br_reading i) ≠ None ∧ rd_measurement (br_reading i) = Some WM_EXACT ∧
  match coverage b with Ok c => reaches c min_coverage = true | Err _ => False end ∧
  bf_scope_changed b = false ∧ bf_in_maintenance b = false ∧ bf_watch_version b = watch_version ∧
  ¬ Exists (in_span (bf_bucket_start b)) spans.

#[export] Instance observed_dec i : Decision (observed_reading i).
Proof. unfold observed_reading. apply _. Defined.

#[export] Instance trains_dec i : Decision (trains i).
Proof. unfold trains. cbv zeta. destruct (coverage _); apply _. Defined.

Definition at_key (k : Z * Z) (i : PwBaselineReading) : Prop := seasonal_key (bf_bucket_start (br_bucket i)) = k.

#[export] Instance at_key_dec k i : Decision (at_key k i).
Proof. unfold at_key. apply _. Defined.

(** The readings a cell learns from, and those it could have. *)
Definition kept (k : Z * Z) (l : list PwBaselineReading) : list PwBaselineReading := filter (λ i, trains i ∧ at_key k i) l.
Definition tracked (k : Z * Z) (l : list PwBaselineReading) : list PwBaselineReading := filter (λ i, observed_reading i ∧ at_key k i) l.

(** [x] is the sample of a reading. *)
Definition sampled (i : PwBaselineReading) (x : float) : Prop :=
  ∃ n, rd_events (br_reading i) = Some n ∧ float_of_int n = Ok x.

Definition days (l : list PwBaselineReading) : gset Z := list_to_set ((λ i, dt_day (bf_bucket_start (br_bucket i))) <$> l).

(** What the dicts hold after the readings [l]. *)
Record learned (l : list PwBaselineReading) (b : Build) : Prop := {
  ln_cells : well_formed (bd_retained b);
  ln_values k : Forall2 sampled (kept k l) (values_of (bd_retained b) k);
  ln_visits k : default ∅ (bd_visits b !! k) = days (kept k l);
  ln_candidates k : default 0 (bd_candidates b !! k) = Z.of_nat (length (tracked k l));
  ln_tally : total (bd_tally b) = Z.of_nat (length (filter observed_reading l)) - Z.of_nat (length (filter trains l)) }.

Lemma exclusion_spec b r x : exclusion watch_version min_coverage spans b r = Ok x →
  rd_kind r ≠ RK_NOT_AN_OBSERVATION →
  match x with
  | inl _ => ¬ trains {| br_bucket := b; br_reading := r |}
  | inr n => trains {| br_bucket := b; br_reading := r |} ∧ rd_events r = Some n
  end.
Proof.
  intros H Hk. unfold exclusion in H. unfold trains, observed_reading. cbn [br_bucket br_reading].
  destruct (decide (rd_measurement r = Some WM_LOWER_BOUND)) as [Hl|Hl]; [injection H as <-; rewrite Hl; by intros (_ & _ & ? & _)|].
  destruct (rd_events r) as [n|]; [|injection H as <-; by intros (_ & ? & _)].
  destruct (rd_measurement r) as [[]|]; [|done|injection H as <-; by intros (_ & _ & ? & _)].
  bind_inv H. destruct (reaches r0 min_coverage) eqn:Hr; cbn [negb] in H; [|injection H as <-; by intros (_ & _ & _ & ? & _)].
  destruct (bf_scope_changed b) eqn:Hs; [injection H as <-; by intros (_ & _ & _ & _ & ? & _)|].
  destruct (bf_in_maintenance b) eqn:Hm; [injection H as <-; by intros (_ & _ & _ & _ & _ & ? & _)|].
  destruct (Z.eqb_spec (bf_watch_version b) watch_version) as [Hv|Hv]; cbn [negb] in H;
    [|injection H as <-; by intros (_ & _ & _ & _ & _ & _ & ? & _)].
  bind_inv H. apply in_any_span_spec in E0 as ->. case_bool_decide as Hsp; injection H as <-.
  - by intros (_ & _ & _ & _ & _ & _ & _ & ?).
  - eauto 15.
Qed.

Lemma count_excluded_total why t : total (count_excluded why t) = total t + 1.
Proof.
  unfold total, as_dict, sum_Z, count_excluded. cbn [fmap list_fmap snd foldr xt_lower_bound xt_unknown xt_low_coverage xt_scope_changed
    xt_maintenance xt_version_mismatch xt_known_anomaly]. destruct why; repeat case_decide; try done; lia.
Qed.

Lemma filter_snoc {A} (P : A → Prop) `{!∀ x, Decision (P x)} l x :
  filter P (l ++ [x]) = filter P l ++ (if decide (P x) then [x] else []).
Proof. rewrite filter_app, filter_cons. by case_decide. Qed.

Lemma add_reading_learned l b i b' : learned l b → add_reading watch_version min_coverage spans b i = Ok b' → learned (l ++ [i]) b'.
Proof.
  intros [Hc Hv Hd Hn Ht] H. unfold add_reading in H. destruct i as [bk r]. set (i := {| br_bucket := bk; br_reading := r |}) in *.
  destruct (decide (rd_kind r = RK_NOT_AN_OBSERVATION)) as [Hk|Hk].
  { injection H as <-. assert (Hno : ¬ observed_reading i) by (by intros ?). assert (Hnt : ¬ trains i) by (by intros [? _]).
    split.
    - done.
    - intros k. unfold kept. rewrite filter_snoc, decide_False, app_nil_r by (by intros [? _]). apply Hv.
    - intros k. unfold kept. rewrite filter_snoc, decide_False, app_nil_r by (by intros [? _]). apply Hd.
    - intros k. unfold tracked. rewrite filter_snoc, decide_False, app_nil_r by (by intros [? _]). apply Hn.
    - by rewrite !filter_snoc, !decide_False, !app_nil_r by done. }
  cbv zeta in H. set (k := seasonal_key (bf_bucket_start bk)) in *. bind_inv H. pose proof (exclusion_spec bk r _ E Hk) as Hx. fold i in Hx.
  assert (Ho : observed_reading i) by done.
  assert (Hcand : ∀ k', default 0 (<[k:=default 0 (bd_candidates b !! k) + 1]> (bd_candidates b) !! k') = Z.of_nat (length (tracked k' (l ++ [i])))).
  { intros k'. unfold tracked. rewrite filter_snoc, length_app. change (filter (λ i, observed_reading i ∧ at_key k' i) l) with (tracked k' l).
    destruct (decide (k' = k)) as [->|Hne].
    - rewrite lookup_insert_eq, decide_True by done. cbn [from_option id]. rewrite Hn. cbn [length]. lia.
    - rewrite lookup_insert_ne, decide_False by (done || intros [_ ?]; done). rewrite Hn. cbn [length]. lia. }
  destruct r0 as [why|n].
  - injection H as <-. split; cbn [bd_retained bd_visits bd_candidates bd_tally]; [done| | |exact Hcand|].
    + intros k'. unfold kept. rewrite filter_snoc, decide_False, app_nil_r by (by intros [? _]). apply Hv.
    + intros k'. unfold kept. rewrite filter_snoc, decide_False, app_nil_r by (by intros [? _]). apply Hd.
    + rewrite count_excluded_total, Ht, !filter_snoc, decide_True, decide_False, app_nil_r, length_app by done. cbn [length]. lia.
  - destruct Hx as [Htr Hev]. bind_inv H. injection H as <-. split; cbn [bd_retained bd_visits bd_candidates bd_tally]; [by apply append_well_formed| | |exact Hcand|].
    + intros k'. unfold kept. rewrite filter_snoc, values_of_append. apply Forall2_app; [apply Hv|].
      destruct (decide (k' = k)) as [->|Hne].
      * rewrite decide_True by done. constructor; [|constructor]. by exists n.
      * rewrite decide_False by (intros [_ ?]; done). constructor.
    + intros k'. unfold kept. rewrite filter_snoc. unfold days. rewrite fmap_app, list_to_set_app_L.
      change (list_to_set ((λ i0, dt_day (bf_bucket_start (br_bucket i0))) <$> filter (λ i0, trains i0 ∧ at_key k' i0) l)) with (days (kept k' l)).
      destruct (decide (k' = k)) as [->|Hne].
      * rewrite lookup_insert_eq, decide_True by done. cbn [from_option id]. rewrite Hd. cbn. set_solver.
      * rewrite lookup_insert_ne, decide_False by (done || intros [_ ?]; done). rewrite Hd. cbn. set_solver.
    + rewrite Ht, !filter_snoc, !decide_True, !length_app by done. cbn [length]. lia.
Qed.

Lemma readings_learned l l' b b' : learned l b → foldM (add_reading watch_version min_coverage spans) b l' = Ok b' → learned (l ++ l') b'.
Proof.
  revert l b. induction l' as [|i l' IH]; intros l b Hl H; cbn [foldM] in H.
  - injection H as <-. by rewrite app_nil_r.
  - bind_inv H. eapply IH in H; [|by eapply add_reading_learned]. by rewrite <-app_assoc in H.
Qed.

Lemma nothing_learned : learned [] empty_build.
Proof. split; try done. by split; constructor. Qed.
End Learn.

(** C31: what a baseline of a value learns. There is a cell for an hour of the week exactly when an
    exact, covered count of this version of the watch, outside maintenance, incidents and
    changes of scope, fell in it; the cell is the robust summary of all those counts, in order,
    and nothing else; it is reliable only with enough of them from enough different days, and
    its completeness is their share of the readings of the hour; and every other reading of a
    tracked value is tallied once. *)
Theorem value_baseline_exact readings wv mc min_samples min_visits spans cells tally :
  build_value_baseline readings wv mc min_samples min_visits spans = Ok (cells, tally) →
  NoDup cells.*1 ∧
  (∀ k, k ∈ cells.*1 ↔ kept wv mc spans k readings ≠ []) ∧
  (∀ k c, (k, c) ∈ cells → ∃ values s,
     Forall2 sampled (kept wv mc spans k readings) values ∧ summarize_cell values min_samples = Ok s ∧
     pc_median c = cs_median s ∧ pc_mad c = cs_mad s ∧ pc_p05 c = cs_p05 s ∧ pc_p95 c = cs_p95 s ∧
     pc_sample_count c = Z.of_nat (length values) ∧ pc_observations c = cs_observations s ∧
     (pc_weekday c, pc_hour c) = k ∧ pc_watch_version c = wv ∧
     (pc_is_reliable c = true ↔ min_samples <= Z.of_nat (length values) ∧
        min_visits <= Z.of_nat (size (days (kept wv mc spans k readings)))) ∧
     retained_fraction (Z.of_nat (length values)) (Z.of_nat (length (tracked k readings))) = Ok (pc_completeness c)) ∧
  total tally = Z.of_nat (length (filter observed_reading readings)) - Z.of_nat (length (filter (trains wv mc spans) readings)).
Proof.
  unfold build_value_baseline. intros H. do 4 bind_inv H. clear E E0 E1 E2. bind_inv H. bind_inv H. injection H as <- <-.
  pose proof (readings_learned wv mc spans [] readings _ _ (nothing_learned wv mc spans) E) as L. cbn [app] in L. clear E. rename r3 into b, r4 into cells.
  destruct L as [[Hd Hne] Hv Hdays Hn Ht]. apply mapM_result_in in E0.
  assert (Hkeys : cells.*1 = (bd_retained b).*1).
  { clear -E0. induction E0 as [|kv kc l l' H _ IH]; [done|]. cbn. bind_inv H. injection H as <-. by rewrite IH. }
  rewrite Hkeys. split; [done|]. split; [|split; [|done]].
  - intros k. specialize (Hv k). rewrite list_elem_of_fmap. split.
    + intros ([k' l] & -> & Hin). apply values_of_in in Hin as [Hl Hl0]; [|by split]. cbn [fst] in *. rewrite Hl in Hv.
      intros Hk. rewrite Hk in Hv. by apply Forall2_nil_inv_l in Hv.
    + intros Hk. exists (k, values_of (bd_retained b) k). split; [done|]. apply values_of_nonempty. intros He. rewrite He in Hv.
      by apply Forall2_nil_inv_r in Hv.
  - intros k c Hin. apply list_elem_of_lookup in Hin as [j Hj]. destruct (Forall2_lookup_r _ _ _ _ _ E0 Hj) as ([k0 values] & Hk0 & Hcell).
    bind_inv Hcell. injection Hcell as <- <-. cbn [fst] in *. apply list_elem_of_lookup_2, values_of_in in Hk0 as [Hvals _]; [|by split].
    specialize (Hv k0). rewrite Hvals in Hv. exists values. unfold build_cell in E. destruct k0 as [weekday hour]. bind_inv E. bind_inv E.
    injection E as <-. eexists. split; [done|]. split; [done|]. cbn [pc_median pc_mad pc_p05 pc_p95 pc_sample_count pc_observations pc_weekday pc_hour pc_watch_version pc_is_reliable pc_completeness].
    unfold summarize_cell in E1. repeat (bind_inv E1). injection E1 as <-. cbn [cs_median cs_mad cs_p05 cs_p95 cs_sample_count cs_observations cs_is_reliable].
    do 8 (split; [done|]). rewrite Hdays. rewrite Hn in E2. split; [|done]. rewrite andb_true_iff, !Z.leb_le. done.
Qed.

(** ** A concrete watch *)

Module PwDetectExample.

Definition at_bucket (i : Z) : datetime := utc ((1700000100 + 300 * i) * us_per_second).

(** The [i]-th bucket, with a count of parsed events among a hundred. *)
Definition bucket (i parsed : Z) (m : PwBucketMeasurement) : PwBucketFact :=
  {| bf_bucket_start := at_bucket i; bf_bucket_seconds := 300; bf_watch_version := 3; bf_totals_complete := true;
     bf_values_measurement := m; bf_pinned_measurement := PP_NOT_REQUESTED; bf_origin := PO_LIVE; bf_total_events := Some 100;
     bf_parsed_events := Some parsed; bf_untracked_events := None; bf_values := []; bf_observed_values := 0;
     bf_tracked_values_observed := 0; bf_admitted_values := 0; bf_below_admission_threshold := 0;
     bf_rejected_over_quota := 0; bf_admission_truncated := false; bf_scope_member_count := None;
     bf_scope_fingerprint := None; bf_scope_changed := false; bf_in_maintenance := false |}.

Definition usual_cell : PwBaselineCell :=
  {| pc_metric_name := PW_VALUE_EVENTS_METRIC; pc_weekday := 2; pc_hour := 22; pc_median := lit 40 1; pc_mad := lit 5 1;
     pc_p05 := lit 30 1; pc_p95 := lit 55 1; pc_sample_count := 48; pc_is_reliable := true; pc_completeness := f1;
     pc_observations := []; pc_watch_version := 3; pc_metric_semantics := PW_VALUE_EVENTS_SEMANTICS; pc_baseline_version := 1 |}.

Definition first_facts (components : list PwComponentFact) (count events buckets : Z) (m : WafMeasurement) : PwNoveltyFacts :=
  {| nf_first_seen_at := at_bucket (-1); nf_history := {| hf_complete := true; hf_reason := None |};
     nf_history_start := at_bucket (-3000); nf_history_end := at_bucket (-1); nf_history_buckets := 2999;
     nf_appearance_bucket := bucket (-1) 95 PB_EXACT; nf_events_since_first_seen := events; nf_buckets_with_traffic := buckets;
     nf_materiality_measurement := m; nf_watch_first_collected_at := Some (at_bucket (-3000)); nf_pinned := false;
     nf_membership_changed := false; nf_property_count := count; nf_components := components;
     nf_established_at_hand_off := None; nf_history_buckets_from_history := 0; nf_history_floor := None |}.

Definition both_known : list PwComponentFact :=
  (λ s, {| cf_value := ascii_text s; cf_tracked_before := true; cf_measurement := Some WM_EXACT; cf_seen_below_admission := false |}) <$>
  ["admin"; "10.0.0.1"].

Definition context (r : PwReading) (b : PwBucketFact) (recent : list PwReadingPoint) (n : option PwNoveltyFacts) : PwDetectionContext :=
  {| dc_watch_status := Some PW_OK; dc_bucket := Some b; dc_reading := r; dc_baseline := Some usual_cell;
     dc_thresholds := default_thresholds; dc_last_seen_at := Some (at_bucket (-10)); dc_recent := recent; dc_novelty := n;
     dc_extra := [("watch_id", JStr "w")] |}.

Definition zero : PwReading := RD RK_MEASURED_ZERO (Some 0) (Some WM_EXACT).

(** Six exact zeros in a row. *)
Definition silence : list PwReadingPoint :=
  (λ i, {| rp_bucket := bucket (- i) 95 PB_EXACT; rp_reading := zero |}) <$> [0; 1; 2; 3; 4; 5].

(** Two hundred events a cut search shows; a silence; a new value; a new pair of known values. *)
Definition spiking : PwDetectionContext := context (RD RK_COUNT (Some 200) (Some WM_LOWER_BOUND)) (bucket 0 95 PB_LOWER_BOUND) [] None.
Definition silent : PwDetectionContext := context zero (bucket 0 95 PB_EXACT) silence None.
Definition appeared : PwDetectionContext :=
  context (RD RK_COUNT (Some 30) (Some WM_EXACT)) (bucket 0 95 PB_EXACT) [] (Some (first_facts [] 1 30 2 WM_LOWER_BOUND)).
Definition paired : PwDetectionContext :=
  context (RD RK_COUNT (Some 30) (Some WM_EXACT)) (bucket 0 95 PB_EXACT) [] (Some (first_facts both_known 2 30 2 WM_EXACT)).

Definition signal_of (r : result PwVerdict) : option (DetectorSignal * bool) :=
  match r with Ok v => Some (signal v, ev_insufficient_data (pv_evidence v)) | Err _ => None end.

Definition all_types : list PwAnomalyType := [PW_VALUE_SPIKE; PW_VALUE_DROP; PW_VALUE_DISAPPEARED; PW_NEW_VALUE; PW_NEW_COMBINATION].

(** What the five detectors say of them. *)
Example signals :
  (λ ctx, (λ t, fst <$> signal_of (PW_DETECTOR_FUNCTIONS t ctx)) <$> all_types) <$> [spiking; silent; appeared; paired] =
  [[Some DS_ANOMALOUS; Some DS_UNKNOWN; Some DS_UNKNOWN; Some DS_UNKNOWN; Some DS_UNKNOWN];
   [Some DS_HEALTHY; Some DS_HEALTHY; Some DS_ANOMALOUS; Some DS_UNKNOWN; Some DS_UNKNOWN];
   [Some DS_HEALTHY; Some DS_HEALTHY; Some DS_HEALTHY; Some DS_ANOMALOUS; Some DS_UNKNOWN];
   [Some DS_HEALTHY; Some DS_HEALTHY; Some DS_HEALTHY; Some DS_HEALTHY; Some DS_ANOMALOUS]].
Proof. vm_compute. reflexivity. Qed.

Definition verdict_at (t : PwAnomalyType) (ctx : PwDetectionContext) : PwVerdict :=
  match PW_DETECTOR_FUNCTIONS t ctx with
  | Ok v => v
  | Err _ => insufficient_verdict (make_guard ctx t) ""
  end.

(** Readings of two weeks at one hour: exact counts train, a cut one, one of another version and
    one of a value not tracked do not. *)
Definition week (i : Z) : Z := i * 2016.

Definition readings : list PwBaselineReading :=
  [{| br_bucket := bucket 0 95 PB_EXACT; br_reading := RD RK_COUNT (Some 40) (Some WM_EXACT) |};
   {| br_bucket := bucket 1 95 PB_LOWER_BOUND; br_reading := RD RK_COUNT (Some 90) (Some WM_LOWER_BOUND) |};
   {| br_bucket := bucket 2 40 PB_EXACT; br_reading := RD RK_COUNT (Some 3) (Some WM_EXACT) |};
   {| br_bucket := bucket (week 1) 95 PB_EXACT; br_reading := RD RK_COUNT (Some 44) (Some WM_EXACT) |};
   {| br_bucket := bucket (week 1 + 1) 95 PB_EXACT; br_reading := RD RK_NOT_AN_OBSERVATION None None |}].

Definition built : result (list (key * PwBaselineCell) * PwExclusionTally) :=
  build_value_baseline readings 3 (lit 9 10) 2 2 [].

Definition built_cells : list (key * PwBaselineCell) := match built with Ok r => r.1 | Err _ => [] end.
Definition built_tally : PwExclusionTally := match built with Ok r => r.2 | Err _ => empty_tally end.

Example built_is : (λ kc, (kc.1, pc_sample_count kc.2, pc_is_reliable kc.2, fmt_fixed 2 (pc_median kc.2), fmt_fixed 2 (pc_completeness kc.2))) <$> built_cells
  = [((2, 22), 2, true, "42.00", "0.50")] ∧ total built_tally = 2.
Proof. vm_compute. done. Qed.
End PwDetectExample.

(** The watch that fires, and the pair that is one of known values. *)
Lemma detectors_fire_exact_witness :
  fires PW_VALUE_DISAPPEARED PwDetectExample.silent ∧ fires PW_NEW_COMBINATION PwDetectExample.paired ∧
  ¬ fires PW_NEW_VALUE PwDetectExample.paired.
Proof.
  assert (H : fires PW_NEW_COMBINATION PwDetectExample.paired).
  { apply (detectors_fire_exact PW_NEW_COMBINATION PwDetectExample.paired
             (PwDetectExample.verdict_at PW_NEW_COMBINATION PwDetectExample.paired)); vm_compute; reflexivity. }
  split; [|split; [exact H|]].
  - apply (detectors_fire_exact PW_VALUE_DISAPPEARED PwDetectExample.silent
             (PwDetectExample.verdict_at PW_VALUE_DISAPPEARED PwDetectExample.silent)); vm_compute; reflexivity.
  - intros Hv. apply (proj2 (detectors_fire_exact PW_NEW_VALUE PwDetectExample.paired
             (PwDetectExample.verdict_at PW_NEW_VALUE PwDetectExample.paired) ltac:(vm_compute; reflexivity))). exact (conj Hv H).
Defined.


(** The spike seen from below stays one when the search would have shown more events. *)
Lemma verdict_survives_undercount_witness :
  ∃ v, detect_value_spike (with_reading PwDetectExample.spiking (RD RK_COUNT (Some 1000) (Some WM_EXACT))) = Ok v ∧
    ev_signal (pv_evidence v) = DS_ANOMALOUS.
Proof.
  destruct (verdict_survives_undercount PW_VALUE_SPIKE PwDetectExample.spiking
    (with_reading PwDetectExample.spiking (RD RK_COUNT (Some 1000) (Some WM_EXACT)))
    (PwDetectExample.verdict_at PW_VALUE_SPIKE PwDetectExample.spiking)) as (v & Hv & Hs & _).
  - apply (under_reading _ RK_COUNT 200 1000); [reflexivity|lia|vm_compute; reflexivity].
  - intros c Hc. injection Hc as <-. unfold sound_cell.
    assert (Ht : ∀ s m e, bool_decide (-100 <= Zdigits2 (Zpos m) + e <= 100) && (Zdigits2 (Zpos m) <=? 53) = true → tame (S754_finite s m e)).
    { intros s m e [H1%bool_decide_eq_true H2%Z.leb_le]%andb_prop. right. exists s, (Zdigits2 (Zpos m) + e). split; [by exists m, e|exact H1]. }
    split; [apply Ht; reflexivity|]. split; [split; reflexivity|]. split; [reflexivity|]. split; [apply Ht; reflexivity|].
    split; [split; reflexivity|]. split; [reflexivity|]. split; [apply Ht; reflexivity|]. split; [apply Ht; reflexivity|].
    split; [split; reflexivity|]. split; [apply Ht; reflexivity|reflexivity].
  - vm_compute. reflexivity.
  - intros [Hu _]. revert Hu. vm_compute. discriminate.
  - exists v. split; [exact Hv|]. rewrite Hs. vm_compute. reflexivity.
Defined.

(** The two exact counts of the hour train its cell, the cut one and the uncovered one do not. *)
Lemma value_baseline_exact_witness :
  length (kept 3 (lit 9 10) [] (2, 22) PwDetectExample.readings) = 2%nat ∧
  total PwDetectExample.built_tally = 2 ∧
  ((2, 22) ∈ PwDetectExample.built_cells.*1 ↔ kept 3 (lit 9 10) [] (2, 22) PwDetectExample.readings ≠ []).
Proof.
  destruct (value_baseline_exact PwDetectExample.readings 3 (lit 9 10) 2 2 [] PwDetectExample.built_cells PwDetectExample.built_tally
    ltac:(vm_compute; reflexivity)) as (_ & Hk & _ & Ht).
  split; [vm_compute; reflexivity|]. split; [rewrite Ht; vm_compute; reflexivity|exact (Hk (2, 22))].
Defined.
