(* ===== verification/AqlValidator.v ===== *)
(** * The AQL validator

    [services/aql_validator.py]: what a query must be before it is stored or sent to QRadar. The
    lexer blanks strings and comments, keeping every position; the checks read the tokens of what
    is left. [decimal], [digit] and [upper] are [\d], [str.isdigit] and [str.upper] of a code
    point, from the Unicode character database. *)

From S2P Require Import Prelude PyStr PyFloat.

(** ** Tables *)

(** [_BANNED_KEYWORDS], a set, in the order a message lists them. *)
Definition BANNED_KEYWORDS : list text := ascii_text <$>
  ["ALTER"; "ATTACH"; "CALL"; "COMMIT"; "COPY"; "CREATE"; "DELETE"; "DROP"; "EXEC"; "EXECUTE"; "GRANT";
   "INSERT"; "INTO"; "MERGE"; "PRAGMA"; "REPLACE"; "REVOKE"; "ROLLBACK"; "SET"; "TRUNCATE"; "UPDATE"].

Definition ALLOWED_DATASETS : list text := ascii_text <$> ["EVENTS"; "FLOWS"].

Definition TIME_WINDOW_TOKENS : list text := ascii_text <$> ["LAST"; "START"; "STOP"].

Inductive Unit_ := MINUTES | HOURS | DAYS.

(** [_UNIT_HOURS] *)
Definition UNITS : list (text * Unit_) := prod_map ascii_text id <$>
  [("MINUTES", MINUTES); ("MINUTE", MINUTES); ("MINS", MINUTES); ("MIN", MINUTES); ("HOURS", HOURS); ("HOUR", HOURS);
   ("DAYS", DAYS); ("DAY", DAYS)].

Definition unit_of (t : text) : option Unit_ := snd <$> find (λ u, bool_decide (u.1 = t)) UNITS.

Definition unit_hours (u : Unit_) : result float :=
  match u with MINUTES => truediv 1 60 | HOURS => float_of_int 1 | DAYS => float_of_int 24 end.

(** ** The lexer *)

Definition starts_with (p s : text) : bool := bool_decide (take (length p) s = p).

(** [s.find(p)] *)
Fixpoint find_text (p s : text) : option nat :=
  if starts_with p s then Some 0%nat
  else match s with [] => None | _ :: rest => S <$> find_text p rest end.

Definition LINE_COMMENT : text := ascii_text "--".
Definition BLOCK_OPEN : text := ascii_text "/*".
Definition BLOCK_CLOSE : text := ascii_text "*/".
Definition QUOTES : list N := [39; 34]%N.

(** A string literal after its opening quote: its value, and its length with the closing quote. *)
Fixpoint scan_literal (quote : N) (s : text) : text * nat :=
  match s with
  | [] => ([], 0%nat)
  | c :: rest =>
      if (c =? quote)%N then
        match rest with
        | d :: rest' =>
            if (d =? quote)%N then let '(value, n) := scan_literal quote rest' in (quote :: value, S (S n)) else ([], 1%nat)
        | [] => ([], 1%nat)
        end
      else let '(value, n) := scan_literal quote rest in (c :: value, S n)
  end.

(** How much a comment or a literal that starts here takes. *)
Definition blanked (s : text) : nat :=
  if starts_with LINE_COMMENT s then match find_text [10%N] s with Some j => j | None => length s end
  else if starts_with BLOCK_OPEN s then match find_text BLOCK_CLOSE (drop 2 s) with Some j => (2 + j + 2)%nat | None => length s end
  else match s with
       | c :: rest => if bool_decide (c ∈ QUOTES) then S (scan_literal c rest).2 else 0%nat
       | [] => 0%nat
       end.

(** [_lex]: [skip] is how much of a comment or literal is still to be blanked. *)
Fixpoint blank (skip : nat) (s : text) : text :=
  match s with
  | [] => []
  | c :: rest =>
      match skip with
      | S skip => 32%N :: blank skip rest
      | O => match blanked s with S n => 32%N :: blank n rest | O => c :: blank 0 rest end
      end
  end.

(** The values of the literals. *)
Fixpoint literals (skip : nat) (s : text) : list text :=
  match s with
  | [] => []
  | c :: rest =>
      match skip with
      | S skip => literals skip rest
      | O => match blanked s with
             | S n => if bool_decide (c ∈ QUOTES) then (scan_literal c rest).1 :: literals n rest else literals n rest
             | O => literals 0 rest
             end
      end
  end.

Definition ident_start (c : N) : bool := ((65 <=? c) && (c <=? 90) || (97 <=? c) && (c <=? 122) || (c =? 95))%N.
Definition ident_char (c : N) : bool := (ident_start c || (48 <=? c) && (c <=? 57))%N.

Fixpoint prefix_length (p : N → bool) (s : text) : nat :=
  match s with c :: rest => if p c then S (prefix_length p rest) else 0%nat | [] => 0%nat end.

Definition OPERATORS : list text := ascii_text <$> ["<="; ">="; "<>"; "!="; "::"].

(** ** Results *)

Inductive Reason :=
| EMPTY
| MULTIPLE_STATEMENTS
| NOT_SELECT
| DISALLOWED (keywords : list text)
| NO_DATASET
| DATASETS_NOT_PERMITTED (datasets : list text)
| NO_WINDOW
| RANGE_EXCEEDED (hours : float) (max_hours : Z)
| LIMIT_EXCEEDED (limit max_rows : Z).

Record ValidatedAQL := { va_normalized : text; va_datasets : list text; va_has_time_window : bool }.

(** [AQLValidationError] carries its reasons; any other exception is an [Err]. *)
Inductive Validation := VALID (v : ValidatedAQL) | INVALID (reasons : list Reason).

Section Unicode.
Context (decimal : N → option Z) (digit : N → bool) (upper : N → text).

Definition is_decimal (c : N) : bool := bool_decide (is_Some (decimal c)).

(** [_TOKEN_RE] at a position. *)
Definition token_length (s : text) : nat :=
  match s with
  | [] => 0%nat
  | c :: _ =>
      if ident_start c then prefix_length ident_char s
      else if is_decimal c then prefix_length is_decimal s
      else if existsb (λ op, starts_with op s) OPERATORS then 2%nat
      else 1%nat
  end.

(** [_TOKEN_RE.findall] *)
Fixpoint find_tokens (skip : nat) (s : text) : list text :=
  match s with
  | [] => []
  | c :: rest =>
      match skip with
      | S skip => find_tokens skip rest
      | O => take (token_length s) s :: find_tokens (token_length s - 1) rest
      end
  end.

(** The tokens of [_lex]. *)
Definition tokens_of (aql : text) : list text :=
  filter (λ t, forallb is_space t = false) (find_tokens 0 (blank 0 aql)).

Definition upper_text (t : text) : text := concat (upper <$> t).

Definition isdigit (t : text) : bool := negb (bool_decide (t = [])) && forallb digit t.

(** [int(t)] of digits; CPython refuses more than 4300 of them. *)
Definition int_of (t : text) : result Z :=
  match mapM decimal t with
  | None => Err (ValueError "invalid literal for int() with base 10")
  | Some ds => _ <- raise_if (4300 <? Z.of_nat (length ds)) (ValueError "Exceeds the limit (4300 digits) for integer string conversion") ;;
               Ok (foldl (λ n d, n * 10 + d) 0 ds)
  end.

(** [_extract_datasets], of the tokens in upper case. *)
Fixpoint extract_datasets (tokens : list text) : list text :=
  match tokens with
  | t :: ((next :: _) as rest) => if bool_decide (t = ascii_text "FROM") then next :: extract_datasets rest else extract_datasets rest
  | _ => []
  end.

(** [int(n) * _UNIT_HOURS[unit]] *)
Definition hours_of (num : text) (u : Unit_) : result float :=
  n <- int_of num ;; x <- float_of_int n ;; h <- unit_hours u ;; Ok (fmul x h).

(** [LAST n unit]: the first one decides. *)
Fixpoint last_window (tokens : list text) : option (result (option float)) :=
  match tokens with
  | t :: ((num :: unit :: _) as rest) =>
      if bool_decide (upper_text t = ascii_text "LAST") then
        Some (match isdigit num, unit_of (upper_text unit) with
              | true, Some u => h <- hours_of num u ;; Ok (Some h)
              | _, _ => Ok None
              end)
      else last_window rest
  | _ => None
  end.

(** [_time_window] *)
Definition time_window (tokens : list text) : result (bool * option float) :=
  let uppers := upper_text <$> tokens in
  match last_window tokens with
  | Some r => hours <- r ;; Ok (true, hours)
  | None =>
      if bool_decide (ascii_text "START" ∈ uppers) && bool_decide (ascii_text "STOP" ∈ uppers) then Ok (true, None)
      else if existsb (λ t, bool_decide (t ∈ TIME_WINDOW_TOKENS)) uppers then Ok (true, None)
      else Ok (false, None)
  end.

(** [_explicit_limit], of the tokens in upper case. *)
Fixpoint explicit_limit (tokens : list text) : result (option Z) :=
  match tokens with
  | t :: ((next :: _) as rest) =>
      if bool_decide (t = ascii_text "LIMIT") && isdigit next then n <- int_of next ;; Ok (Some n) else explicit_limit rest
  | _ => Ok None
  end.

(** A statement separator with a token after it. *)
Fixpoint non_trailing (tokens : list text) : bool :=
  match tokens with
  | t :: rest => bool_decide (t = ascii_text ";") && negb (bool_decide (rest = [])) || non_trailing rest
  | [] => false
  end.

(** The banned keywords found, sorted. *)
Definition banned_found (uppers : list text) : list text := filter (λ k, k ∈ uppers) BANNED_KEYWORDS.

Definition when (c : bool) (r : Reason) : list Reason := if c then [r] else [].

(** [validate_aql] *)
Definition validate_aql (aql : text) (max_time_range_hours max_result_rows : option Z) (settings_hours settings_rows : Z)
    : result Validation :=
  let max_hours := or_int max_time_range_hours settings_hours in
  let max_rows := or_int max_result_rows settings_rows in
  if bool_decide (strip aql = []) then Ok (INVALID [EMPTY])
  else
    let tokens := tokens_of aql in
    let uppers := upper_text <$> tokens in
    let banned := banned_found uppers in
    let datasets := extract_datasets uppers in
    let bad := filter (λ d, d ∉ ALLOWED_DATASETS) datasets in
    window <- time_window tokens ;;
    limit <- explicit_limit uppers ;;
    let reasons :=
      when (non_trailing tokens) MULTIPLE_STATEMENTS ++
      when (negb (bool_decide (head uppers = Some (ascii_text "SELECT")))) NOT_SELECT ++
      when (negb (bool_decide (banned = []))) (DISALLOWED banned) ++
      (if bool_decide (datasets = []) then [NO_DATASET] else when (negb (bool_decide (bad = []))) (DATASETS_NOT_PERMITTED bad)) ++
      (if negb window.1 then [NO_WINDOW]
       else match window.2 with Some h => when (int_lt_float max_hours h) (RANGE_EXCEEDED h max_hours) | None => [] end) ++
      match limit with Some n => when (max_rows <? n) (LIMIT_EXCEEDED n max_rows) | None => [] end in
    Ok (if bool_decide (reasons = []) then
          VALID {| va_normalized := strip aql; va_datasets := datasets; va_has_time_window := window.1 |}
        else INVALID reasons).
End Unicode.
