(* ===== verification/AqlTheorems.v ===== *)
(** * What the AQL validator accepts *)

From S2P Require Import Prelude PyStr PyFloat AqlValidator.

Section Policy.
Context (decimal : N → option Z) (digit : N → bool) (upper : N → text).

Local Abbreviation upper_ := (upper_text upper).
Local Abbreviation tokens_ := (tokens_of decimal).

(** LIMIT and a number at a position. *)
Definition limit_at (tokens : list text) (i : nat) (num : text) : Prop :=
  ∃ t d, tokens !! i = Some t ∧ tokens !! S i = Some d ∧ upper_ t = ascii_text "LIMIT" ∧ num = upper_ d ∧ isdigit digit num = true.

(** What a query must be, of its tokens: one statement that reads events or flows, with a time
    window and, where they can be read off, bounds on its hours and rows. *)
Record within_policy (tokens : list text) (max_hours max_rows : Z) : Prop := {
  po_select : head (upper_ <$> tokens) = Some (ascii_text "SELECT");
  po_single : ∀ i, tokens !! i = Some (ascii_text ";") → S i = length tokens;
  po_readonly : ∀ t, t ∈ tokens → upper_ t ∉ BANNED_KEYWORDS;
  po_from : ∃ i t d, tokens !! i = Some t ∧ tokens !! S i = Some d ∧ upper_ t = ascii_text "FROM";
  po_datasets : ∀ i t d, tokens !! i = Some t → tokens !! S i = Some d → upper_ t = ascii_text "FROM" → upper_ d ∈ ALLOWED_DATASETS;
  po_window : ∃ t, t ∈ tokens ∧ upper_ t ∈ TIME_WINDOW_TOKENS;
  po_hours : ∀ pre t num unit post u, tokens = pre ++ t :: num :: unit :: post → Forall (λ x, upper_ x ≠ ascii_text "LAST") pre →
    upper_ t = ascii_text "LAST" → isdigit digit num = true → unit_of (upper_ unit) = Some u →
    ∃ h, hours_of decimal num u = Ok h ∧ int_lt_float max_hours h = false;
  po_rows : ∀ i num, limit_at tokens i num → (∀ j n, (j < i)%nat → ¬ limit_at tokens j n) →
    ∃ n, int_of decimal num = Ok n ∧ n <= max_rows }.

Lemma non_trailing_false tokens : non_trailing tokens = false ↔ ∀ i, tokens !! i = Some (ascii_text ";") → S i = length tokens.
Proof.
  induction tokens as [|t tokens IH]; [by split; [intros _ i Hi; rewrite lookup_nil in Hi|]|]. cbn [non_trailing].
  rewrite orb_false_iff, IH, andb_false_iff, negb_false_iff, bool_decide_eq_false, bool_decide_eq_true. split.
  - intros [H0 H] [|i] Hi; cbn in Hi |- *; [|by rewrite (H i)]. injection Hi as ->. by destruct H0 as [?| ->].
  - intros H. split; [|intros i Hi; specialize (H (S i) Hi); cbn in H; lia].
    destruct (decide (t = ascii_text ";")) as [->|Hne]; [|by left]. right. specialize (H 0%nat eq_refl). by destruct tokens.
Qed.

Lemma banned_none uppers : banned_found uppers = [] ↔ ∀ t, t ∈ uppers → t ∉ BANNED_KEYWORDS.
Proof.
  unfold banned_found. split.
  - intros H t Ht Hb. assert (Hin : t ∈ filter (λ k, k ∈ uppers) BANNED_KEYWORDS) by by apply list_elem_of_filter. rewrite H in Hin.
    by apply elem_of_nil in Hin.
  - intros H. apply filter_none, Forall_forall. intros k Hk Hu. by apply (H k).
Qed.

Lemma datasets_elem uppers d : d ∈ extract_datasets uppers ↔ ∃ i, uppers !! i = Some (ascii_text "FROM") ∧ uppers !! S i = Some d.
Proof.
  induction uppers as [|t [|next rest] IH].
  - split; [intros H; by apply elem_of_nil in H|]. intros (i & H & _). by rewrite lookup_nil in H.
  - split; [intros H; by apply elem_of_nil in H|]. intros (i & _ & H). by destruct i.
  - cbn [extract_datasets]. assert (Hstep : (∃ i, (t :: next :: rest) !! i = Some (ascii_text "FROM") ∧ (t :: next :: rest) !! S i = Some d) ↔
      t = ascii_text "FROM" ∧ next = d ∨ ∃ i, (next :: rest) !! i = Some (ascii_text "FROM") ∧ (next :: rest) !! S i = Some d).
    { split.
      - intros ([|i] & Ha & Hb); [left; cbn in Ha, Hb; split; congruence|right; by exists i].
      - intros [[-> ->]|(i & Ha & Hb)]; [by exists 0%nat|by exists (S i)]. }
    rewrite Hstep, <- IH. destruct (decide (t = ascii_text "FROM")) as [Et|Et];
      [rewrite (bool_decide_eq_true_2 _ Et)|rewrite (bool_decide_eq_false_2 _ Et)]; [|tauto].
    rewrite elem_of_cons. naive_solver.
Qed.

Lemma last_window_some tokens r : last_window decimal digit upper tokens = Some r → ∃ t, t ∈ tokens ∧ upper_ t = ascii_text "LAST".
Proof.
  induction tokens as [|t [|num [|unit rest]] IH]; try done. cbn [last_window].
  destruct (decide (upper_ t = ascii_text "LAST")) as [E|E]; [intros _; exists t; split; [left|done]|].
  rewrite (bool_decide_eq_false_2 _ E). intros (t' & Hin & Et)%IH. exists t'. split; [by right|done].
Qed.

Lemma time_window_true tokens w h : time_window decimal digit upper tokens = Ok (w, h) →
  w = true ↔ ∃ t, t ∈ tokens ∧ upper_ t ∈ TIME_WINDOW_TOKENS.
Proof.
  unfold time_window. cbv zeta. destruct (last_window decimal digit upper tokens) as [r|] eqn:El.
  - intros (x & _ & [= <- _])%bind_ok. split; [|done]. intros _. apply last_window_some in El as (t & Hin & Et). exists t.
    split; [done|]. rewrite Et. left.
  - assert (Hany : existsb (λ t, bool_decide (t ∈ TIME_WINDOW_TOKENS)) (upper_ <$> tokens) = true ↔
      ∃ t, t ∈ tokens ∧ upper_ t ∈ TIME_WINDOW_TOKENS).
    { rewrite existsb_exists. split.
      - intros (x & (t & -> & Hin)%list_elem_of_In%list_elem_of_fmap & Hx). apply bool_decide_eq_true in Hx. by exists t.
      - intros (t & Hin & Hx). exists (upper_ t). split; [by apply list_elem_of_In, list_elem_of_fmap_2|by apply bool_decide_eq_true]. }
    destruct (bool_decide (ascii_text "START" ∈ upper_ <$> tokens) && bool_decide (ascii_text "STOP" ∈ upper_ <$> tokens)) eqn:Ess.
    { intros [= <- _]. split; [|done]. intros _. apply andb_true_iff in Ess as [Hs _]. apply bool_decide_eq_true in Hs.
      apply list_elem_of_fmap in Hs as (t & Et & Hin). exists t. split; [done|]. rewrite <- Et. right. left. }
    destruct (existsb _ _) eqn:Ex; intros [= <- _]; [by rewrite <- Hany|]. rewrite <- Hany. done.
Qed.

Lemma last_window_cons t num unit rest : last_window decimal digit upper (t :: num :: unit :: rest) =
  if bool_decide (upper_ t = ascii_text "LAST")
  then Some (match isdigit digit num, unit_of (upper_ unit) with true, Some u => h <- hours_of decimal num u ;; Ok (Some h) | _, _ => Ok None end)
  else last_window decimal digit upper (num :: unit :: rest).
Proof. done. Qed.

(** The first LAST with two tokens after it decides. *)
Lemma last_window_spec tokens :
  match last_window decimal digit upper tokens with
  | Some r => ∃ pre t num unit post, tokens = pre ++ t :: num :: unit :: post ∧ Forall (λ x, upper_ x ≠ ascii_text "LAST") pre ∧
                upper_ t = ascii_text "LAST" ∧
                r = match isdigit digit num, unit_of (upper_ unit) with
                    | true, Some u => h <- hours_of decimal num u ;; Ok (Some h) | _, _ => Ok None end
  | None => ∀ pre t num unit post, tokens = pre ++ t :: num :: unit :: post → upper_ t ≠ ascii_text "LAST"
  end.
Proof.
  induction tokens as [|t [|num [|unit rest]] IH]; try (cbn; intros pre t' num' unit' post E; apply (f_equal length) in E;
    rewrite length_app in E; cbn in E; lia).
  rewrite last_window_cons. destruct (decide (upper_ t = ascii_text "LAST")) as [E|E].
  - rewrite (bool_decide_eq_true_2 _ E). by exists [], t, num, unit, rest.
  - rewrite (bool_decide_eq_false_2 _ E). destruct (last_window decimal digit upper (num :: unit :: rest)) as [r|].
    + destruct IH as (pre & t' & num' & unit' & post & Eq & Hpre & Ht & Hr). exists (t :: pre), t', num', unit', post. split_and!; [by rewrite Eq|by constructor|done|done].
    + intros [|x pre] t' num' unit' post [= <- Hl]; [done|]. by eapply IH.
Qed.

(** Two ways to point at the first LAST are one. *)
Lemma first_unique {A} (P : A → Prop) pre x post pre' x' post' : pre ++ x :: post = pre' ++ x' :: post' →
  Forall (λ y, ¬ P y) pre → P x → Forall (λ y, ¬ P y) pre' → P x' → pre = pre' ∧ x = x' ∧ post = post'.
Proof.
  revert pre'. induction pre as [|y pre IH]; intros [|y' pre'] E H1 Hx H2 Hx'; cbn in E; injection E as <- E.
  - done.
  - apply Forall_cons in H2 as [? _]. done.
  - apply Forall_cons in H1 as [? _]. done.
  - apply Forall_cons in H1 as [_ H1]. apply Forall_cons in H2 as [_ H2]. destruct (IH _ E H1 Hx H2 Hx') as (-> & -> & ->). done.
Qed.

Lemma hours_within tokens max_hours :
  (∃ w h, time_window decimal digit upper tokens = Ok (w, h) ∧ ∀ x, h = Some x → int_lt_float max_hours x = false) ↔
  (∀ pre t num unit post u, tokens = pre ++ t :: num :: unit :: post → Forall (λ x, upper_ x ≠ ascii_text "LAST") pre →
    upper_ t = ascii_text "LAST" → isdigit digit num = true → unit_of (upper_ unit) = Some u →
    ∃ h, hours_of decimal num u = Ok h ∧ int_lt_float max_hours h = false).
Proof.
  pose proof (last_window_spec tokens) as Hl. unfold time_window. cbv zeta. destruct (last_window decimal digit upper tokens) as [r|].
  - destruct Hl as (pre & t & num & unit & post & Et & Hpre & Ht & ->). split.
    + intros (w & h & Hw & Hx) pre' t' num' unit' post' u Et' Hpre' Ht' Hd Hu. rewrite Et in Et'.
      destruct (first_unique (λ x, upper_ x = ascii_text "LAST") _ _ _ _ _ _ Et' Hpre Ht Hpre' Ht') as (_ & _ & [= -> -> _]). rewrite Hd, Hu in Hw.
      destruct (hours_of decimal num' u) as [x|]; [|done]. injection Hw as _ <-. exists x. split; [done|by apply Hx].
    + intros H. specialize (λ u, H pre t num unit post u Et Hpre Ht). destruct (isdigit digit num); [|by do 2 eexists].
      destruct (unit_of (upper_ unit)) as [u|]; [|by do 2 eexists]. destruct (H u eq_refl eq_refl) as (x & Hx & Hm). rewrite Hx.
      do 2 eexists. split; [done|]. by intros ? [= <-].
  - split.
    + intros _ pre t num unit post u Et _ Ht. by apply Hl in Et.
    + intros _. destruct (bool_decide _ && _); [by do 2 eexists|]. destruct (existsb _ _); by do 2 eexists.
Qed.

Lemma limit_at_cons t tokens i num : limit_at (t :: tokens) (S i) num ↔ limit_at tokens i num.
Proof. done. Qed.

Lemma explicit_limit_cons t next rest : explicit_limit decimal digit (upper_ <$> t :: next :: rest) =
  if bool_decide (upper_ t = ascii_text "LIMIT") && isdigit digit (upper_ next) then n <- int_of decimal (upper_ next) ;; Ok (Some n)
  else explicit_limit decimal digit (upper_ <$> next :: rest).
Proof. done. Qed.

Lemma rows_within tokens max_rows :
  (∃ l, explicit_limit decimal digit (upper_ <$> tokens) = Ok l ∧ ∀ n, l = Some n → n <= max_rows) ↔
  (∀ i num, limit_at tokens i num → (∀ j n, (j < i)%nat → ¬ limit_at tokens j n) → ∃ n, int_of decimal num = Ok n ∧ n <= max_rows).
Proof.
  induction tokens as [|t [|next rest] IH].
  - split; [|by eexists]. intros _ i num (t & d & H & _). by rewrite lookup_nil in H.
  - split; [|by eexists]. intros _ i num (t' & d & H & H' & _). by destruct i.
  - rewrite explicit_limit_cons.
    assert (Hhere : ∀ num, limit_at (t :: next :: rest) 0 num ↔ upper_ t = ascii_text "LIMIT" ∧ num = upper_ next ∧ isdigit digit num = true).
    { intros num. split; [by intros (? & ? & [= <-] & [= <-] & ?)|]. intros H. by exists t, next. }
    destruct (bool_decide (upper_ t = ascii_text "LIMIT") && isdigit digit (upper_ next)) eqn:Eb.
    + apply andb_true_iff in Eb as [Et Ed]. apply bool_decide_eq_true in Et. split.
      * intros (l & Hl & Hb) [|i] num Hi Hfirst; [|exfalso; apply (Hfirst 0%nat (upper_ next)); [lia|by apply Hhere]].
        apply Hhere in Hi as (_ & -> & _). destruct (int_of decimal (upper_ next)) as [n|]; [|done]. injection Hl as <-. exists n. split; [done|by apply Hb].
      * intros H. destruct (H 0%nat (upper_ next)) as (n & Hn & Hb); [by apply Hhere|lia|]. rewrite Hn. eexists. split; [done|]. by intros ? [= <-].
    + assert (Hno : ∀ num, ¬ limit_at (t :: next :: rest) 0 num).
      { intros num (Et & -> & Ed)%Hhere. rewrite Et, Ed in Eb. done. }
      rewrite IH. split.
      * intros H [|i] num Hi Hfirst; [by apply Hno in Hi|]. apply (H i num); [done|]. intros j n Hj. apply (Hfirst (S j) n). lia.
      * intros H i num Hi Hfirst. apply (H (S i) num); [done|]. intros [|j] n Hj; [apply Hno|]. apply (Hfirst j n). lia.
Qed.

Lemma when_nil c r : when c r = [] ↔ c = false.
Proof. by destruct c. Qed.

Lemma datasets_allowed tokens : let datasets := extract_datasets (upper_ <$> tokens) in
  (if bool_decide (datasets = []) then [NO_DATASET]
   else when (negb (bool_decide (filter (λ d, d ∉ ALLOWED_DATASETS) datasets = []))) (DATASETS_NOT_PERMITTED (filter (λ d, d ∉ ALLOWED_DATASETS) datasets))) = [] ↔
  (∃ i t d, tokens !! i = Some t ∧ tokens !! S i = Some d ∧ upper_ t = ascii_text "FROM") ∧
  (∀ i t d, tokens !! i = Some t → tokens !! S i = Some d → upper_ t = ascii_text "FROM" → upper_ d ∈ ALLOWED_DATASETS).
Proof.
  intros datasets.
  assert (Hel : ∀ x, x ∈ datasets ↔ ∃ i t d, tokens !! i = Some t ∧ tokens !! S i = Some d ∧ upper_ t = ascii_text "FROM" ∧ x = upper_ d).
  { intros x. unfold datasets. rewrite datasets_elem. split.
    - intros (i & Ha & Hb). rewrite list_lookup_fmap in Ha, Hb. destruct (tokens !! i) as [t|] eqn:Et; [|done].
      destruct (tokens !! S i) as [d|] eqn:Ed; [|done]. injection Ha as Ha. injection Hb as Hb. by exists i, t, d.
    - intros (i & t & d & Ht & Hd & Hf & ->). exists i. rewrite !list_lookup_fmap, Ht, Hd. cbn. by rewrite Hf. }
  destruct (decide (datasets = [])) as [E|E]; [rewrite (bool_decide_eq_true_2 _ E)|rewrite (bool_decide_eq_false_2 _ E), when_nil].
  - split; [done|]. intros [(i & t & d & Ht & Hd & Hf) _]. assert (Hx : upper_ d ∈ datasets) by (apply Hel; by exists i, t, d).
    rewrite E in Hx. by apply elem_of_nil in Hx.
  - rewrite negb_false_iff, bool_decide_eq_true. split.
    + intros Hbad. split.
      * destruct datasets as [|x rest] eqn:Ex; [done|]. destruct (proj1 (Hel x) ltac:(left)) as (i & t & d & ? & ? & ? & _). by exists i, t, d.
      * intros i t d Ht Hd Hf. destruct (decide (upper_ d ∈ ALLOWED_DATASETS)) as [|Hn]; [done|]. exfalso.
        assert (Hx : upper_ d ∈ filter (λ d, d ∉ ALLOWED_DATASETS) datasets) by (apply list_elem_of_filter; split; [done|]; apply Hel; by exists i, t, d).
        rewrite Hbad in Hx. by apply elem_of_nil in Hx.
    + intros [_ Hall]. apply filter_none, Forall_forall. intros x (i & t & d & Ht & Hd & Hf & ->)%Hel Hn. by apply Hn, (Hall i t d).
Qed.

End Policy.

(** ** Segments: plain code points, comments and literals *)

Inductive Segment := Plain (c : N) | Line (body : text) | Block (body : text) | Literal (quote : N) (value : text) | Open_ (rest : text).

(** A literal's value with its quotes doubled. *)
Definition double (quote : N) (value : text) : text := v ← value; if (v =? quote)%N then [quote; quote] else [v].

Definition render_segment (s : Segment) : text :=
  match s with
  | Plain c => [c]
  | Line body => (LINE_COMMENT ++ body)%list
  | Block body => (BLOCK_OPEN ++ body ++ BLOCK_CLOSE)%list
  | Literal quote value => quote :: double quote value ++ [quote]
  | Open_ rest => rest
  end.

Definition render (segments : list Segment) : text := concat (render_segment <$> segments).

(** Segments as the lexer cuts them; an unclosed comment or literal takes the rest of the text. *)
Definition segment_ok (s : Segment) (after : text) : Prop :=
  match s with
  | Plain c => c ∉ QUOTES ∧ (c = 45%N → head after ≠ Some 45%N) ∧ (c = 47%N → head after ≠ Some 42%N)
  | Line body => 10%N ∉ body ∧ (after = [] ∨ head after = Some 10%N)
  | Block body => find_text BLOCK_CLOSE (body ++ BLOCK_CLOSE) = Some (length body)
  | Literal quote _ => quote ∈ QUOTES ∧ head after ≠ Some quote
  | Open_ rest => after = [] ∧ rest ≠ [] ∧ blanked rest = length rest
  end.

Fixpoint well_formed (segments : list Segment) : Prop :=
  match segments with [] => True | s :: rest => segment_ok s (render rest) ∧ well_formed rest end.

(** What the lexer keeps: the plain code points, and that something stood between them. *)
Definition skeleton (s : Segment) : option N := match s with Plain c => Some c | _ => None end.

Definition blank_segment (s : Segment) : text :=
  match s with Plain c => [c] | _ => replicate (length (render_segment s)) 32%N end.

Lemma blank_skip n s : blank n s = replicate (min n (length s)) 32%N ++ blank 0 (drop n s).
Proof. revert s. induction n as [|n IH]; intros [|c s]; [done|done|done|]. cbn [blank drop length]. by rewrite IH. Qed.

Lemma blank_blanked s rest : blanked (s ++ rest) = length s → s ≠ [] → blank 0 (s ++ rest) = replicate (length s) 32%N ++ blank 0 rest.
Proof.
  intros H Hne. destruct s as [|c s]; [done|]. change ((c :: s) ++ rest) with (c :: (s ++ rest)) in *. cbn [blank]. rewrite H. cbn [length].
  rewrite blank_skip, drop_app_length, length_app, Nat.min_l by lia. done.
Qed.

Lemma starts_with_app p s : starts_with p (p ++ s) = true.
Proof. unfold starts_with. by rewrite take_app_length, bool_decide_eq_true_2. Qed.

Lemma find_line body after : 10%N ∉ body → after = [] ∨ head after = Some 10%N →
  find_text [10%N] (body ++ after) = if bool_decide (after = []) then None else Some (length body).
Proof.
  intros Hb Ha. induction body as [|c body IH].
  - destruct after as [|d after]; [done|]. destruct Ha as [|[= ->]]; [done|]. done.
  - cbn [app find_text]. unfold starts_with. cbn [length take]. rewrite bool_decide_eq_false_2 by (intros [= ->]; apply Hb; left).
    rewrite IH by (intros H; apply Hb; by right). by case_bool_decide.
Qed.

Lemma find_text_app p s after n : find_text p (s ++ p) = Some n → (n + length p)%nat = length (s ++ p) → find_text p (s ++ p ++ after) = Some n.
Proof.
  revert n. induction s as [|c s IH]; intros n H Hn.
  - cbn [app] in *. assert (n = 0)%nat as -> by lia. destruct p as [|x p]; [by destruct after|].
    cbn [find_text app]. pose proof (starts_with_app (x :: p) after) as E. cbn [app] in E. by rewrite E.
  - cbn [app find_text] in *. assert (Hs : starts_with p (c :: s ++ p) = starts_with p (c :: s ++ p ++ after)).
    { unfold starts_with. f_equal. assert (E : take (length p) (c :: s ++ p ++ after) = take (length p) (c :: s ++ p)).
      { rewrite !app_comm_cons, app_assoc. apply take_app_le. rewrite length_app. cbn. lia. } by rewrite E. }
    rewrite <- Hs. destruct (starts_with p (c :: s ++ p)).
    + injection H as <-. cbn in Hn. rewrite length_app in Hn. lia.
    + destruct (find_text p (s ++ p)) as [m|] eqn:E; [|done]. injection H as <-. cbn in Hn. rewrite (IH m eq_refl ltac:(lia)). done.
Qed.

Lemma scan_double quote value after : head after ≠ Some quote →
  scan_literal quote (double quote value ++ quote :: after) = (value, S (length (double quote value))).
Proof.
  intros Ha. induction value as [|v value IH].
  - cbn [double mbind list_bind app scan_literal]. rewrite N.eqb_refl. destruct after as [|d after]; [done|].
    destruct (N.eqb_spec d quote) as [->|]; [done|done].
  - unfold double in *. cbn [mbind list_bind]. destruct (N.eqb_spec v quote) as [->|Hne]; cbn [app].
    + cbn [scan_literal]. rewrite !N.eqb_refl, IH. done.
    + cbn [scan_literal]. rewrite (proj2 (N.eqb_neq _ _) Hne), IH. done.
Qed.

Lemma quote_not_comment c rest : c ∈ QUOTES → starts_with LINE_COMMENT (c :: rest) = false ∧ starts_with BLOCK_OPEN (c :: rest) = false.
Proof. intros Hq. unfold QUOTES in Hq. apply elem_of_cons in Hq as [->|Hq]; [done|]. apply list_elem_of_singleton in Hq as ->. done. Qed.

Lemma blanked_segment s after : segment_ok s after →
  blanked (render_segment s ++ after) = match s with Plain _ => 0%nat | _ => length (render_segment s) end.
Proof.
  destruct s as [c|body|body|quote value|rest]; cbn [segment_ok render_segment].
  - intros (Hq & Hl & Hb). cbn [app]. unfold blanked.
    assert (E1 : starts_with LINE_COMMENT (c :: after) = false).
    { apply bool_decide_eq_false_2. change LINE_COMMENT with [45; 45]%N. destruct after as [|d after]; [done|]. intros [= -> ->]. by apply Hl. }
    assert (E2 : starts_with BLOCK_OPEN (c :: after) = false).
    { apply bool_decide_eq_false_2. change BLOCK_OPEN with [47; 42]%N. destruct after as [|d after]; [done|]. intros [= -> ->]. by apply Hb. }
    rewrite E1, E2, bool_decide_eq_false_2 by exact Hq. done.
  - intros (Hb & Ha). unfold blanked. rewrite <- app_assoc, starts_with_app.
    assert (Hf : find_text [10%N] (LINE_COMMENT ++ body ++ after) = S ∘ S <$> find_text [10%N] (body ++ after)).
    { change LINE_COMMENT with [45; 45]%N. cbn [app find_text]. by destruct (find_text [10%N] (body ++ after)). }
    rewrite Hf, find_line by done. destruct after as [|d after]; [rewrite bool_decide_eq_true_2 by done|rewrite bool_decide_eq_false_2 by done]; cbn.
    + by rewrite app_nil_r.
    + done.
  - intros Hf. unfold blanked. rewrite <- !app_assoc, starts_with_app.
    assert (E : starts_with LINE_COMMENT (BLOCK_OPEN ++ body ++ BLOCK_CLOSE ++ after) = false) by done. rewrite E.
    change (drop 2 (BLOCK_OPEN ++ body ++ BLOCK_CLOSE ++ after)) with (body ++ BLOCK_CLOSE ++ after).
    rewrite (find_text_app _ _ _ _ Hf) by (rewrite length_app; done). rewrite !length_app. change (length BLOCK_OPEN) with 2%nat.
    change (length BLOCK_CLOSE) with 2%nat. lia.
  - intros (Hq & Ha). cbn [app]. unfold blanked. destruct (quote_not_comment quote ((double quote value ++ [quote]) ++ after) Hq) as [-> ->].
    rewrite bool_decide_eq_true_2 by exact Hq. rewrite <- app_assoc. cbn [app]. rewrite scan_double by done. cbn [snd length].
    rewrite length_app. cbn. lia.
  - intros (-> & _ & H). by rewrite app_nil_r.
Qed.

(** The lexer blanks exactly the comments and literals, and keeps every position. *)
Lemma blank_render segments : well_formed segments → blank 0 (render segments) = concat (blank_segment <$> segments).
Proof.
  induction segments as [|s segments IH]; [done|]. intros [Hs Hw]. unfold render. cbn [fmap list_fmap concat]. fold (render segments).
  rewrite <- (IH Hw). pose proof (blanked_segment s (render segments) Hs) as Hb. destruct s as [c|body|body|quote value|rest].
  1: { cbn [render_segment app] in *. cbn [blank]. by rewrite Hb. }
  all: apply blank_blanked; [exact Hb|]; try done. apply Hs.
Qed.

(** A comment or a literal leaves at least one space. *)
Lemma blank_wide s after : segment_ok s after → skeleton s = None → ∃ n, blank_segment s = replicate (S n) 32%N.
Proof.
  destruct s as [c|body|body|quote value|rest]; intros Hs; try done; intros _; try (by eexists).
  destruct rest as [|c rest]; [by destruct Hs as (_ & ? & _)|]. by exists (length rest).
Qed.

(** ** Tokens see only the skeleton *)

(** Two blanked texts that differ in the widths of their runs of spaces. *)
Inductive same_words : text → text → Prop :=
| sw_nil : same_words [] []
| sw_char c s s' : same_words s s' → same_words (c :: s) (c :: s')
| sw_spaces n m s s' : same_words s s' → same_words (replicate (S n) 32%N ++ s) (replicate (S m) 32%N ++ s').

Lemma same_words_refl s : same_words s s.
Proof. induction s; by constructor. Qed.

Lemma same_words_head s s' c : c ≠ 32%N → same_words s s' → head s = Some c → ∃ t t', s = c :: t ∧ s' = c :: t' ∧ same_words t t'.
Proof.
  intros Hc [|d s1 s1' H|n m s1 s1' H]; [done| |].
  - intros [= ->]. by exists s1, s1'.
  - cbn. intros [= <-]. done.
Qed.

Lemma same_words_sym s s' : same_words s s' → same_words s' s.
Proof. induction 1; by constructor. Qed.

Lemma prefix_words p s s' : p 32%N = false → same_words s s' →
  prefix_length p s = prefix_length p s' ∧ take (prefix_length p s) s = take (prefix_length p s') s' ∧
  same_words (drop (prefix_length p s) s) (drop (prefix_length p s') s').
Proof.
  intros Hp. induction 1 as [|c s s' H IH|n m s s' H IH].
  - split_and!; constructor.
  - cbn [prefix_length]. destruct (p c); [|split_and!; [done|done|by constructor]]. destruct IH as (E1 & E2 & E3).
    cbn [take drop]. rewrite E1, E2 in *. done.
  - cbn [replicate app prefix_length]. rewrite Hp. split_and!; [done|done|]. cbn [take drop]. apply (sw_spaces n m). done.
Qed.

Section Tokens.
Context (decimal : N → option Z) (Hspace : decimal 32%N = None).

Local Abbreviation words s := (filter (λ t, forallb is_space t = false) (find_tokens decimal 0 s)).

Lemma find_tokens_skip n s : find_tokens decimal n s = find_tokens decimal 0 (drop n s).
Proof using. revert s. induction n as [|n IH]; intros [|c s]; [done|done|done|]. cbn [find_tokens drop]. apply IH. Qed.

Lemma space_not_decimal : is_decimal decimal 32%N = false.
Proof using Hspace. unfold is_decimal. rewrite Hspace. done. Qed.

Lemma words_space s : words (32%N :: s) = words s.
Proof using Hspace.
  cbn [find_tokens]. assert (Hl : token_length decimal (32%N :: s) = 1%nat).
  { unfold token_length. change (ident_start 32) with false. rewrite space_not_decimal. cbv iota.
    assert (E : existsb (λ op, starts_with op (32%N :: s)) OPERATORS = false) by (destruct s; done). by rewrite E. }
  rewrite Hl. rewrite filter_cons_False by done. done.
Qed.

Lemma words_spaces n s : words (replicate n 32%N ++ s) = words s.
Proof using Hspace. induction n as [|n IH]; [done|]. cbn [replicate app]. by rewrite words_space. Qed.

Lemma operator_words c s s' : same_words s s' →
  existsb (λ op, starts_with op (c :: s)) OPERATORS = existsb (λ op, starts_with op (c :: s')) OPERATORS ∧
  (existsb (λ op, starts_with op (c :: s)) OPERATORS = true → ∃ d t t', s = d :: t ∧ s' = d :: t' ∧ same_words t t').
Proof using.
  intros H. assert (Hop : ∀ o d, d ≠ 32%N → (starts_with [o; d] (c :: s) = starts_with [o; d] (c :: s')) ∧
    (starts_with [o; d] (c :: s) = true → ∃ t t', s = d :: t ∧ s' = d :: t' ∧ same_words t t')).
  { intros o d Hd. assert (Hone : ∀ u u', same_words u u' → starts_with [o; d] (c :: u) = true →
      starts_with [o; d] (c :: u') = true ∧ ∃ t t', u = d :: t ∧ u' = d :: t' ∧ same_words t t').
    { intros u u' Hu Hs. apply bool_decide_eq_true in Hs. destruct u as [|x u]; [done|]. cbn [length take] in Hs. injection Hs as -> -> .
      destruct (same_words_head _ _ d Hd Hu eq_refl) as (t & t' & E & -> & Ht). split; [|by exists t, t'].
      apply bool_decide_eq_true_2. done. }
    split; [|intros Hs; by apply (Hone s s')]. destruct (starts_with [o; d] (c :: s)) eqn:E1.
    - symmetry. by apply (Hone s s').
    - destruct (starts_with [o; d] (c :: s')) eqn:E2; [|done]. destruct (Hone s' s (same_words_sym _ _ H) E2) as [E _]. congruence. }
  change OPERATORS with [[60; 61]; [62; 61]; [60; 62]; [33; 61]; [58; 58]]%N. cbn [existsb].
  destruct (Hop 60 61 ltac:(done))%N as [E1 F1], (Hop 62 61 ltac:(done))%N as [E2 F2], (Hop 60 62 ltac:(done))%N as [E3 F3],
    (Hop 33 61 ltac:(done))%N as [E4 F4], (Hop 58 58 ltac:(done))%N as [E5 F5].
  split; [by rewrite E1, E2, E3, E4, E5|]. rewrite !orb_true_iff. intros [|[|[|[|[|]]]]]; try done; eauto.
Qed.

Lemma token_words c s s' : same_words s s' → let n := token_length decimal (c :: s) in
  token_length decimal (c :: s') = n ∧ (1 <= n)%nat ∧ take n (c :: s) = take n (c :: s') ∧ same_words (drop n (c :: s)) (drop n (c :: s')).
Proof using Hspace.
  intros H. cbv zeta. unfold token_length. pose proof (sw_char c _ _ H) as Hc.
  assert (Hpre : ∀ p, p 32%N = false → p c = true → prefix_length p (c :: s') = prefix_length p (c :: s) ∧ (1 <= prefix_length p (c :: s))%nat ∧
    take (prefix_length p (c :: s)) (c :: s) = take (prefix_length p (c :: s)) (c :: s') ∧
    same_words (drop (prefix_length p (c :: s)) (c :: s)) (drop (prefix_length p (c :: s)) (c :: s'))).
  { intros p Hp Hpc. destruct (prefix_words p _ _ Hp Hc) as (E1 & E2 & E3). rewrite <- E1 in E2, E3. split_and!; [done| |done|done].
    cbn [prefix_length]. rewrite Hpc. lia. }
  destruct (ident_start c) eqn:Ei; [apply Hpre; [done|unfold ident_char; by rewrite Ei]|].
  destruct (is_decimal decimal c) eqn:Ed; [apply Hpre; [apply space_not_decimal|done]|].
  destruct (operator_words c s s' H) as [E Hop]. rewrite <- E. destruct (existsb _ OPERATORS).
  - destruct (Hop eq_refl) as (d & t & t' & -> & -> & Ht). split_and!; [done|lia|done|done].
  - split_and!; [done|lia|done|done].
Qed.

(** The widths of the runs of spaces do not matter to the tokens. *)
Lemma words_same s s' : same_words s s' → words s = words s'.
Proof using Hspace.
  intros H. remember (length s) as k eqn:Hk. revert s s' Hk H. induction k as [k IH] using lt_wf_ind. intros s s' Hk H.
  destruct H as [|c s s' H|n m s s' H]; [done| |].
  - destruct (token_words c s s' H) as (E & Hn & Ht & Hd). cbn [find_tokens]. rewrite E, Ht. set (n := token_length decimal (c :: s)) in *.
    rewrite !(find_tokens_skip (n - 1)). destruct n as [|n]; [lia|]. cbn [drop] in Hd. replace (S n - 1)%nat with n by lia.
    rewrite !filter_cons. rewrite (IH (length (drop n s))) with (s := drop n s) (s' := drop n s'); [done| |done|done].
    subst k. cbn. rewrite length_drop. lia.
  - rewrite !words_spaces. eapply (IH (length s)); [|done|done]. subst k. rewrite length_app, length_replicate. lia.
Qed.

Lemma skeleton_words segments segments' : well_formed segments → well_formed segments' → skeleton <$> segments = skeleton <$> segments' →
  same_words (concat (blank_segment <$> segments)) (concat (blank_segment <$> segments')).
Proof using.
  revert segments'. induction segments as [|s segments IH]; intros [|s' segments'] Hw Hw' E; try done; [constructor|].
  destruct Hw as [Hs Hw], Hw' as [Hs' Hw']. injection E as Es E. specialize (IH _ Hw Hw' E). cbn [fmap list_fmap concat].
  destruct (skeleton s) as [c|] eqn:Ec.
  - destruct s; try discriminate Ec. destruct s'; try discriminate Es. injection Es as ->. injection Ec as ->. by apply sw_char.
  - symmetry in Es. destruct (blank_wide s _ Hs Ec) as [n ->], (blank_wide s' _ Hs' Es) as [m ->]. by apply sw_spaces.
Qed.

(** What strings and comments hold cannot reach the tokens: two texts that differ only in the
    contents of their literals and comments have the same tokens. *)
Theorem strings_opaque segments segments' : well_formed segments → well_formed segments' →
  skeleton <$> segments = skeleton <$> segments' → tokens_of decimal (render segments) = tokens_of decimal (render segments').
Proof using Hspace.
  intros Hw Hw' E. unfold tokens_of. rewrite !blank_render by done. by apply words_same, skeleton_words.
Qed.
End Tokens.

(** ** Every text is segments *)

Lemma find_text_spec p s j : find_text p s = Some j → ∃ after, s = take j s ++ p ++ after ∧ find_text p (take j s ++ p) = Some j.
Proof.
  revert j. induction s as [|c s IH]; intros j H; cbn [find_text] in H.
  - destruct (starts_with p []) eqn:E; [|done]. injection H as <-. apply bool_decide_eq_true in E. rewrite take_nil in E. subst p. by exists [].
  - destruct (starts_with p (c :: s)) eqn:E.
    + injection H as <-. apply bool_decide_eq_true in E. exists (drop (length p) (c :: s)). cbn [take app]. split; [by rewrite <- E at 1; rewrite take_drop|].
      pose proof (starts_with_app p []) as Hp. rewrite app_nil_r in Hp. destruct p; cbn [find_text]; by rewrite Hp.
    + destruct (find_text p s) as [k|] eqn:Ek; [|done]. injection H as <-. destruct (IH k eq_refl) as (after & Hs & Hf). exists after.
      cbn [take app]. rewrite <- Hs. split; [done|]. cbn [find_text]. rewrite Hf.
      assert (Hsame : starts_with p (c :: take k s ++ p) = false).
      { apply bool_decide_eq_false_2. intros Ht. apply bool_decide_eq_false in E. apply E. rewrite <- Ht at 2. rewrite Hs at 1.
        rewrite app_assoc, app_comm_cons. apply take_app_le. cbn. rewrite length_app. lia. }
      by rewrite Hsame.
Qed.

Lemma find_line_spec s : match find_text [10%N] s with
  | Some j => ∃ after, s = take j s ++ 10%N :: after ∧ 10%N ∉ take j s
  | None => 10%N ∉ s
  end.
Proof.
  induction s as [|c s IH]; [cbn; apply not_elem_of_nil|]. cbn [find_text]. unfold starts_with. cbn [length take].
  destruct (decide ([c] = [10%N])) as [[= ->]|Hne]; [rewrite bool_decide_eq_true_2 by done; exists s; split; [done|apply not_elem_of_nil]|].
  rewrite bool_decide_eq_false_2 by exact Hne. assert (Hc : c ≠ 10%N) by congruence. destruct (find_text [10%N] s) as [j|]; cbn.
  - destruct IH as (after & Hs & Hn). exists after. split; [by rewrite <- Hs|]. rewrite elem_of_cons. by intros [?|?].
  - rewrite elem_of_cons. by intros [?|?].
Qed.

Lemma scan_literal_spec quote s value n : scan_literal quote s = (value, n) →
  (∃ after, s = double quote value ++ quote :: after ∧ n = S (length (double quote value)) ∧ head after ≠ Some quote) ∨ n = length s.
Proof.
  revert value n. remember (length s) as k eqn:Hk. revert s Hk. induction k as [k IH] using lt_wf_ind. intros [|c s] Hk value n H; cbn in H.
  { injection H as <- <-. by right. }
  destruct (N.eqb_spec c quote) as [->|Hc].
  - destruct s as [|d s]; [injection H as <- <-; left; by exists []|]. destruct (N.eqb_spec d quote) as [->|Hd].
    + destruct (scan_literal quote s) as [v m] eqn:E. injection H as <- <-. destruct (IH (length s) ltac:(subst k; cbn; lia) s eq_refl v m E) as [(after & -> & -> & Ha)| ->].
      * left. exists after. unfold double. cbn [mbind list_bind]. rewrite N.eqb_refl. done.
      * right. subst k. done.
    + injection H as <- <-. left. exists (d :: s). split_and!; [done|done|]. cbn. congruence.
  - destruct (scan_literal quote s) as [v m] eqn:E. injection H as <- <-. destruct (IH (length s) ltac:(subst k; cbn; lia) s eq_refl v m E) as [(after & -> & -> & Ha)| ->].
    + left. exists after. unfold double. cbn [mbind list_bind]. rewrite (proj2 (N.eqb_neq c quote) Hc). done.
    + right. by subst k.
Qed.

(** The first segment of a text. *)
Lemma first_segment c s : ∃ seg after, c :: s = render_segment seg ++ after ∧ segment_ok seg after ∧ render_segment seg ≠ [].
Proof.
  assert (Hopen : blanked (c :: s) = length (c :: s) → ∃ seg after, c :: s = render_segment seg ++ after ∧ segment_ok seg after ∧ render_segment seg ≠ []).
  { intros H. exists (Open_ (c :: s)), []. cbn [render_segment]. rewrite app_nil_r. done. }
  unfold blanked in Hopen. destruct (starts_with LINE_COMMENT (c :: s)) eqn:E1.
  { apply bool_decide_eq_true in E1. change (length LINE_COMMENT) with 2%nat in E1. pose proof (take_drop 2 (c :: s)) as Hs. rewrite E1 in Hs.
    set (t := drop 2 (c :: s)) in *. pose proof (find_line_spec t) as Hf. destruct (find_text [10%N] t) as [j|].
    - destruct Hf as (after & Ht & Hn). exists (Line (take j t)), (10%N :: after). cbn [render_segment segment_ok]. rewrite <- app_assoc, <- Ht. split_and!; try done. by right.
    - exists (Line t), []. cbn [render_segment segment_ok]. rewrite app_nil_r. split_and!; try done. by left. }
  destruct (starts_with BLOCK_OPEN (c :: s)) eqn:E2.
  { apply bool_decide_eq_true in E2. change (length BLOCK_OPEN) with 2%nat in E2. pose proof (take_drop 2 (c :: s)) as Hs. rewrite E2 in Hs.
    set (t := drop 2 (c :: s)) in *. destruct (find_text BLOCK_CLOSE t) as [j|] eqn:Ef; [|by apply Hopen].
    destruct (find_text_spec _ _ _ Ef) as (after & Ht & Hf). exists (Block (take j t)), after. cbn [render_segment segment_ok].
    rewrite <- !app_assoc, <- Ht. split_and!; [done| |done]. rewrite Hf. f_equal. rewrite length_take. apply (f_equal length) in Ht.
    rewrite !length_app, length_take in Ht. change (length BLOCK_CLOSE) with 2%nat in Ht. lia. }
  destruct (decide (c ∈ QUOTES)) as [Hq|Hq].
  - rewrite bool_decide_eq_true_2 in Hopen by exact Hq. destruct (scan_literal c s) as [value n] eqn:Es.
    destruct (scan_literal_spec _ _ _ _ Es) as [(after & -> & _ & Ha)| ->]; [|by apply Hopen].
    exists (Literal c value), after. cbn [render_segment segment_ok]. rewrite <- app_comm_cons, <- app_assoc. split_and!; done.
  - exists (Plain c), s. cbn [render_segment segment_ok]. split_and!; try done.
    + intros -> Hh. destruct s as [|d s]; [done|]. injection Hh as ->. discriminate E1.
    + intros -> Hh. destruct s as [|d s]; [done|]. injection Hh as ->. discriminate E2.
Qed.

(** Every text is a sequence of segments. *)
Lemma segments_exist s : ∃ segments, well_formed segments ∧ render segments = s.
Proof.
  remember (length s) as k eqn:Hk. revert s Hk. induction k as [k IH] using lt_wf_ind. intros [|c s] Hk; [by exists []|].
  destruct (first_segment c s) as (seg & after & E & Hok & Hne).
  destruct (IH (length after)) with (s := after) as (segments & Hw & Hr); [|done|].
  { subst k. rewrite E, length_app. destruct (render_segment seg); [done|]. cbn. lia. }
  exists (seg :: segments). cbn [well_formed]. rewrite Hr. split; [done|]. unfold render. cbn [fmap list_fmap concat]. fold (render segments). by rewrite Hr.
Qed.

(** ** Blanking again *)

Lemma render_plain (s : text) : render (Plain <$> s) = s.
Proof. unfold render. induction s as [|c s IH]; [done|]. cbn. by f_equal. Qed.

Lemma blank_length n s : length (blank n s) = length s.
Proof.
  revert n. induction s as [|c s IH]; intros n; [done|]. cbn [blank]. destruct n as [|n]; [|cbn; by rewrite IH].
  destruct (blanked (c :: s)); cbn; by rewrite IH.
Qed.

Lemma plain_well_formed (s : text) : well_formed (Plain <$> s) ↔ (∀ i c, s !! i = Some c →
  c ∉ QUOTES ∧ (c = 45%N → s !! S i ≠ Some 45%N) ∧ (c = 47%N → s !! S i ≠ Some 42%N)).
Proof.
  induction s as [|c s IH]; [done|]. cbn [fmap list_fmap well_formed segment_ok]. change (Plain <$> s) with (Plain <$> s). rewrite render_plain, IH.
  assert (Hh : head s = s !! 0%nat) by by destruct s. rewrite Hh. split.
  - intros [H0 H] [|i] d Hi; [|by apply (H i d)]. injection Hi as <-. done.
  - intros H. split; [by apply (H 0%nat c)|]. intros i d Hi. by apply (H (S i) d).
Qed.

Lemma blank_plain segments : well_formed segments → well_formed (Plain <$> concat (blank_segment <$> segments)).
Proof.
  induction segments as [|s segments IH]; [done|]. intros [Hs Hw]. specialize (IH Hw). cbn [fmap list_fmap concat].
  rewrite plain_well_formed in IH. apply plain_well_formed. set (rest := concat (blank_segment <$> segments)) in *.
  assert (Hspaces : ∀ n i d, (replicate n 32%N ++ rest) !! i = Some d →
    d ∉ QUOTES ∧ (d = 45%N → (replicate n 32%N ++ rest) !! S i ≠ Some 45%N) ∧ (d = 47%N → (replicate n 32%N ++ rest) !! S i ≠ Some 42%N)).
  { intros n. induction n as [|n IHn]; [exact IH|]. intros [|i] d Hi; [|by apply (IHn i d)]. injection Hi as <-. split_and!; [|done|done].
    change QUOTES with [39; 34]%N. rewrite !elem_of_cons, elem_of_nil. by intros [|[|]]. }
  destruct s as [c|body|body|quote value|after]; cbn [blank_segment]; try apply Hspaces.
  intros [|i] d Hi; [|by apply (IH i d)]. injection Hi as <-. destruct Hs as (Hq & Hl & Hb).
  assert (Hhead : ∀ x, x ≠ 32%N → rest !! 0%nat = Some x → head (render segments) = Some x).
  { intros x Hx Hr. unfold rest in Hr. destruct segments as [|seg segments]; [done|]. destruct Hw as [Hseg _].
    destruct (skeleton seg) as [d|] eqn:Ed; [destruct seg; try discriminate Ed; exact Hr|].
    destruct (blank_wide seg _ Hseg Ed) as [n En]. cbn [fmap list_fmap concat] in Hr. rewrite En in Hr. injection Hr as <-. done. }
  cbn [app lookup list_lookup]. split_and!; [done|intros E Hr; by apply (Hl E), Hhead|intros E Hr; by apply (Hb E), Hhead].
Qed.

(** What the lexer leaves has every code point at its position, and nothing left to blank: no
    quote and no comment opening, so the checks read the same tokens as the lexer would again. *)
Theorem lexer_idempotent aql : length (blank 0 aql) = length aql ∧ blank 0 (blank 0 aql) = blank 0 aql ∧
  (∀ i c, blank 0 aql !! i = Some c → c ∉ QUOTES ∧ (aql !! i = Some c ∨ c = 32%N)).
Proof.
  destruct (segments_exist aql) as (segments & Hw & <-). split; [apply blank_length|]. pose proof (blank_plain _ Hw) as Hp.
  rewrite (blank_render _ Hw). set (s := concat (blank_segment <$> segments)) in *. split.
  - rewrite <- (render_plain s) at 1. rewrite (blank_render _ Hp). unfold s. clear. induction (concat (blank_segment <$> segments)) as [|c t IH]; [done|].
    cbn. by rewrite IH.
  - intros i c Hi. split; [by eapply plain_well_formed|]. revert i Hi. unfold s. clear. induction segments as [|seg segments IH]; intros i Hi; [done|].
    unfold render. cbn [fmap list_fmap concat] in *. fold (render segments).
    assert (Hl : length (blank_segment seg) = length (render_segment seg)) by (destruct seg; cbn [blank_segment]; rewrite ?length_replicate; done).
    apply lookup_app_Some in Hi as [Hi|[Hge Hi]].
    + destruct seg as [d|body|body|quote value|rest]; [left; by apply lookup_app_l_Some|..]; right; by apply lookup_replicate in Hi as [-> _].
    + rewrite Hl in Hge, Hi. destruct (IH _ Hi) as [H|H]; [left|by right]. rewrite lookup_app_r by done. exact H.
Qed.

(** * Queries *)


(** The ASCII part of the character database. *)
Definition ascii_decimal (c : N) : option Z := if ((48 <=? c) && (c <=? 57))%N then Some (Z.of_N c - 48) else None.
Definition ascii_digit (c : N) : bool := ((48 <=? c) && (c <=? 57))%N.
Definition ascii_upper (c : N) : text := [if ((97 <=? c) && (c <=? 122))%N then (c - 32)%N else c].

Local Abbreviation validate aql := (validate_aql ascii_decimal ascii_digit ascii_upper (ascii_text aql)).

Example aql_ok : validate "select sourceip from events where username = 'x; drop' limit 10 last 24 hours" None None 168 10000 =
  Ok (VALID {| va_normalized := ascii_text "select sourceip from events where username = 'x; drop' limit 10 last 24 hours";
               va_datasets := [ascii_text "EVENTS"]; va_has_time_window := true |}).
Proof. vm_compute. reflexivity. Qed.

Example aql_hidden : validate "SELECT * FROM events LAST 1 HOURS /* ; */ ; DROP x" None None 168 10000 =
  Ok (INVALID [MULTIPLE_STATEMENTS; DISALLOWED [ascii_text "DROP"]]).
Proof. vm_compute. reflexivity. Qed.

Example aql_range : ∃ h, validate "SELECT * FROM offenses LIMIT 50 LAST 8 DAYS" None (Some 20) 168 10000 =
  Ok (INVALID [DATASETS_NOT_PERMITTED [ascii_text "OFFENSES"]; RANGE_EXCEEDED h 168; LIMIT_EXCEEDED 50 20]).
Proof. eexists. vm_compute. reflexivity. Qed.

Lemma strings_opaque_witness :
  tokens_of ascii_decimal (render ((Plain <$> ascii_text "SELECT ") ++ [Literal 39 (ascii_text "a")])) =
  tokens_of ascii_decimal (render ((Plain <$> ascii_text "SELECT ") ++ [Literal 34 (ascii_text "'; DROP")])).
Proof.
  apply (strings_opaque ascii_decimal eq_refl); [| |reflexivity].
  - repeat split; try (intros; discriminate); apply (bool_decide_unpack _); vm_compute; exact I.
  - repeat split; try (intros; discriminate); apply (bool_decide_unpack _); vm_compute; exact I.
Defined.

(** A query with no time window is accepted when any word of it is LAST, START or STOP, whatever
    the bound on the hours; and so is one whose START and STOP are years apart. *)
Theorem unbounded_accepted max_hours max_rows hours rows :
  let accepted aql := ∃ v, validate_aql ascii_decimal ascii_digit ascii_upper (ascii_text aql) max_hours max_rows hours rows = Ok (VALID v) in
  accepted "SELECT stop FROM events" ∧ accepted "SELECT * FROM events START '2001-01-01 00:00' STOP '2026-01-01 00:00'".
Proof. split; eexists; vm_compute; reflexivity. Qed.

(** A number of hours too large for a float makes the validator raise an overflow instead of
    refusing the query. *)
Theorem huge_range_raises max_hours max_rows hours rows : ∃ aql e,
  validate_aql ascii_decimal ascii_digit ascii_upper aql max_hours max_rows hours rows = Err (OverflowError e).
Proof.
  exists (ascii_text "SELECT * FROM events LAST " ++ replicate 400 57%N ++ ascii_text " HOURS"). eexists. vm_compute. reflexivity.
Qed.
