(* ===== verification/Accounts.v ===== *)
(** * Accounts and sessions

    [models/identity.py], [services/auth_sessions.py], [security/usernames.py],
    [security/passwords.py], [security/rbac.py] and [security/auth.py]: the tables, the life of a
    session, what a username and a password must be, and the principal of a request. Instants are
    microseconds: every column and every clock here is aware. Request text holds no surrogates.
    [lower], [casefold] are the methods of [str]; [checkpw] is bcrypt's, [None] where it raises;
    [token_hash] is the SHA-256 digest of a cookie value. *)

From S2P Require Import Prelude PyStr PyTime.

Abbreviation uuid := N.
Abbreviation instant := Z.

Definition td_minutes (n : Z) : timedelta := n * 60 * us_per_second.

(** ** Tables *)

Inductive AuthSource := LOCAL | LDAP.

#[export] Instance AuthSource_eq_dec : EqDecision AuthSource.
Proof. solve_decision. Defined.

Record Role := { ro_name : text; ro_permissions : list text }.

(** A row of [app_user] with the names of its roles. *)
Record User := {
  us_id : uuid; us_email : option text; us_display_name : option text; us_username : option text;
  us_auth_source : AuthSource; us_hashed_password : option text; us_is_active : bool;
  us_must_change_password : bool; us_failed_login_count : Z; us_locked_until : option instant;
  us_disabled_at : option instant; us_last_login_at : option instant; us_roles : list text }.

Record AuthSession := {
  as_token_hash : text; as_user_id : uuid; as_created_at : instant; as_last_seen_at : instant; as_expires_at : instant }.

Record AuditLog := {
  au_action : string; au_actor : option text; au_actor_id : option uuid; au_object_id : option uuid;
  au_outcome : string; au_reason : string }.

(** Sessions by the digest of their token, which is unique. *)
Record Database := {
  db_users : gmap uuid User; db_sessions : gmap text AuthSession; db_roles : list Role; db_audit : list AuditLog }.

Definition with_users (f : gmap uuid User → gmap uuid User) (db : Database) : Database :=
  {| db_users := f (db_users db); db_sessions := db_sessions db; db_roles := db_roles db; db_audit := db_audit db |}.
Definition with_sessions (f : gmap text AuthSession → gmap text AuthSession) (db : Database) : Database :=
  {| db_users := db_users db; db_sessions := f (db_sessions db); db_roles := db_roles db; db_audit := db_audit db |}.

(** [record_audit]; of the detail only the reason is kept. *)
Definition record_audit (action : string) (actor : option text) (actor_id object_id : option uuid) (outcome reason : string)
    (db : Database) : Database :=
  {| db_users := db_users db; db_sessions := db_sessions db; db_roles := db_roles db;
     db_audit := db_audit db ++ [{| au_action := action; au_actor := take 255 <$> actor; au_actor_id := actor_id;
                                   au_object_id := object_id; au_outcome := outcome; au_reason := reason |}] |}.

(** [select(User).where(...)] *)
Definition find_user (p : User → bool) (db : Database) : option User :=
  snd <$> find (λ row : uuid * User, p row.2) (map_to_list (db_users db)).

Definition named (username : text) (u : User) : bool := bool_decide (us_username u = Some username).

(** [user.roles] *)
Definition roles_of (db : Database) (u : User) : list Role := filter (λ r, ro_name r ∈ us_roles u) (db_roles db).

Definition role_names (db : Database) (u : User) : list text := text_sorted (ro_name <$> roles_of db u).

Definition disabled (u : User) : bool := is_some_b (us_disabled_at u) || negb (us_is_active u).

(** *** Writing an object back

    A flush updates the columns whose value differs from the one loaded, on the row as it is now. *)
Definition flush_col {A} `{EqDecision A} (loaded now row : A) : A := if decide (loaded = now) then row else now.

Definition flush_user (loaded now row : User) : User :=
  {| us_id := us_id row; us_email := flush_col (us_email loaded) (us_email now) (us_email row);
     us_display_name := flush_col (us_display_name loaded) (us_display_name now) (us_display_name row);
     us_username := us_username row;
     us_auth_source := flush_col (us_auth_source loaded) (us_auth_source now) (us_auth_source row);
     us_hashed_password := flush_col (us_hashed_password loaded) (us_hashed_password now) (us_hashed_password row);
     us_is_active := flush_col (us_is_active loaded) (us_is_active now) (us_is_active row);
     us_must_change_password := flush_col (us_must_change_password loaded) (us_must_change_password now) (us_must_change_password row);
     us_failed_login_count := flush_col (us_failed_login_count loaded) (us_failed_login_count now) (us_failed_login_count row);
     us_locked_until := flush_col (us_locked_until loaded) (us_locked_until now) (us_locked_until row);
     us_disabled_at := flush_col (us_disabled_at loaded) (us_disabled_at now) (us_disabled_at row);
     us_last_login_at := flush_col (us_last_login_at loaded) (us_last_login_at now) (us_last_login_at row);
     us_roles := flush_col (us_roles loaded) (us_roles now) (us_roles row) |}.

Definition write_user (loaded now : User) (db : Database) : Database :=
  with_users (alter (flush_user loaded now) (us_id loaded)) db.

(** Insertion, under the unique usernames and addresses. *)
Definition conflicts (u row : User) : bool :=
  is_some_b (us_username u) && bool_decide (us_username row = us_username u) ||
  is_some_b (us_email u) && bool_decide (us_email row = us_email u).

Definition insert_user (u : User) (db : Database) : result Database :=
  if is_some_b (db_users db !! us_id u) || is_some_b (find_user (conflicts u) db) then Err (IntegrityError "app_user")
  else Ok (with_users (<[us_id u := u]>) db).

(** *** Columns *)

Definition set_counters (count : Z) (locked : option instant) (u : User) : User :=
  {| us_id := us_id u; us_email := us_email u; us_display_name := us_display_name u; us_username := us_username u;
     us_auth_source := us_auth_source u; us_hashed_password := us_hashed_password u; us_is_active := us_is_active u;
     us_must_change_password := us_must_change_password u; us_failed_login_count := count; us_locked_until := locked;
     us_disabled_at := us_disabled_at u; us_last_login_at := us_last_login_at u; us_roles := us_roles u |}.

Definition set_last_login (at_ : instant) (u : User) : User :=
  {| us_id := us_id u; us_email := us_email u; us_display_name := us_display_name u; us_username := us_username u;
     us_auth_source := us_auth_source u; us_hashed_password := us_hashed_password u; us_is_active := us_is_active u;
     us_must_change_password := us_must_change_password u; us_failed_login_count := us_failed_login_count u;
     us_locked_until := us_locked_until u; us_disabled_at := us_disabled_at u; us_last_login_at := Some at_; us_roles := us_roles u |}.

Definition set_profile (display email : option text) (u : User) : User :=
  {| us_id := us_id u; us_email := email; us_display_name := display; us_username := us_username u;
     us_auth_source := us_auth_source u; us_hashed_password := us_hashed_password u; us_is_active := us_is_active u;
     us_must_change_password := us_must_change_password u; us_failed_login_count := us_failed_login_count u;
     us_locked_until := us_locked_until u; us_disabled_at := us_disabled_at u; us_last_login_at := us_last_login_at u; us_roles := us_roles u |}.

Definition set_password (source : AuthSource) (hashed : option text) (must_change : bool) (u : User) : User :=
  {| us_id := us_id u; us_email := us_email u; us_display_name := us_display_name u; us_username := us_username u;
     us_auth_source := source; us_hashed_password := hashed; us_is_active := us_is_active u;
     us_must_change_password := must_change; us_failed_login_count := us_failed_login_count u;
     us_locked_until := us_locked_until u; us_disabled_at := us_disabled_at u; us_last_login_at := us_last_login_at u; us_roles := us_roles u |}.

Definition set_disabled_at (at_ : option instant) (active : bool) (u : User) : User :=
  {| us_id := us_id u; us_email := us_email u; us_display_name := us_display_name u; us_username := us_username u;
     us_auth_source := us_auth_source u; us_hashed_password := us_hashed_password u; us_is_active := active;
     us_must_change_password := us_must_change_password u; us_failed_login_count := us_failed_login_count u;
     us_locked_until := us_locked_until u; us_disabled_at := at_; us_last_login_at := us_last_login_at u; us_roles := us_roles u |}.

Definition set_role_names (roles : list text) (u : User) : User :=
  {| us_id := us_id u; us_email := us_email u; us_display_name := us_display_name u; us_username := us_username u;
     us_auth_source := us_auth_source u; us_hashed_password := us_hashed_password u; us_is_active := us_is_active u;
     us_must_change_password := us_must_change_password u; us_failed_login_count := us_failed_login_count u;
     us_locked_until := us_locked_until u; us_disabled_at := us_disabled_at u; us_last_login_at := us_last_login_at u; us_roles := roles |}.

(** ** Settings *)

Inductive AuthProvider := AUTH_LOCAL | AUTH_SESSION | AUTH_OIDC.

#[export] Instance AuthProvider_eq_dec : EqDecision AuthProvider.
Proof. solve_decision. Defined.

Record AuthSettings := {
  st_session_idle_minutes : Z; st_session_max_hours : Z; st_login_lockout_threshold : Z; st_login_lockout_minutes : Z;
  st_session_cleanup_batch : nat; st_is_hardened : bool; st_auth_provider : AuthProvider; st_api_prefix : text }.

(** The bounds of the fields. *)
Definition check_auth_settings (s : AuthSettings) : result unit :=
  _ <- raise_if (negb ((1 <=? st_session_idle_minutes s) && (st_session_idle_minutes s <=? 10080))) (ValueError "session_idle_minutes") ;;
  _ <- raise_if (negb ((1 <=? st_session_max_hours s) && (st_session_max_hours s <=? 720))) (ValueError "session_max_hours") ;;
  _ <- raise_if (negb ((1 <=? st_login_lockout_threshold s) && (st_login_lockout_threshold s <=? 50))) (ValueError "login_lockout_threshold") ;;
  _ <- raise_if (negb ((1 <=? st_login_lockout_minutes s) && (st_login_lockout_minutes s <=? 1440))) (ValueError "login_lockout_minutes") ;;
  raise_if (negb ((1 <=? st_session_cleanup_batch s) && (st_session_cleanup_batch s <=? 5000))%nat) (ValueError "session_cleanup_batch").

Definition session_cookies_enforced (s : AuthSettings) : bool :=
  st_is_hardened s || bool_decide (st_auth_provider s = AUTH_SESSION).

(** ** Permissions *)

Definition PERM_ADMIN : text := ascii_text "admin:*".
Definition PERM_USER_ADMIN : text := ascii_text "admin:users".

Record Principal := {
  pr_subject : text; pr_email : option text; pr_permissions : list text; pr_username : option text;
  pr_auth_source : option AuthSource; pr_must_change_password : bool; pr_roles : list text; pr_user_id : option uuid }.

(** [permission.split(":", 1)[0]] *)
Fixpoint before_colon (s : text) : text :=
  match s with c :: rest => if (c =? 58)%N then [] else c :: before_colon rest | [] => [] end.

(** [Principal.has] *)
Definition has (p : Principal) (permission : text) : bool :=
  bool_decide (permission ∈ pr_permissions p) ||
  bool_decide ((before_colon permission ++ ascii_text ":*")%list ∈ pr_permissions p) ||
  bool_decide (PERM_ADMIN ∈ pr_permissions p).

Definition require_permission (p : Principal) (permission : text) : result unit :=
  raise_if (negb (has p permission)) (HTTPException 403 [(ascii_text "missing required permission: " ++ permission)%list]).

Section Accounts.
Context (lower casefold : text → text) (checkpw : list N → text → option bool) (token_hash : text → text) (s : AuthSettings).

(** ** Usernames and passwords *)

Definition normalize_username (raw : text) : option text :=
  if existsb (λ c, (c <? 32) || (c =? 127))%N raw then None
  else
    let name := lower (strip raw) in
    if bool_decide (name = []) || existsb is_space name || Nat.ltb 255 (length name) then None else Some name.

Definition MAX_PASSWORD_BYTES : nat := 72.

(** [verify_password]; a hash that is not ASCII raises inside, as bcrypt does. *)
Definition verify_password (password : text) (hashed : option text) : bool :=
  let material := encode_utf8 password in
  match hashed with
  | Some (c :: rest) =>
      if Nat.ltb MAX_PASSWORD_BYTES (length material) then false
      else if negb (forallb (λ c, c <? 128)%N (c :: rest)) then false
      else default false (checkpw material (c :: rest))
  | _ => false
  end.

Definition password_policy_reasons (password username : text) : list text :=
  (if Nat.ltb (length password) 12 then [ascii_text "password must be at least 12 characters"] else []) ++
  (if Nat.ltb MAX_PASSWORD_BYTES (length (encode_utf8 password)) then [ascii_text "password must be at most 72 bytes"] else []) ++
  (if bool_decide (casefold password = casefold username) then [ascii_text "password must not equal the username"] else []).

(** ** Sessions *)

Definition MAX_COOKIE : nat := 512.
Definition TOUCH_AFTER : timedelta := td_seconds 60.

Definition session_expired (created_at last_seen_at expires_at now : instant) : bool :=
  if expires_at <=? now then true
  else if created_at + td_hours (st_session_max_hours s) <=? now then true
  else td_minutes (st_session_idle_minutes s) <=? now - last_seen_at.

(** [cleanup_expired]: [scan] is the order in which the database returns the rows. *)
Definition cleanup_expired (scan : list text → list text) (now : instant) (db : Database) : Database :=
  let idle_before := now - td_minutes (st_session_idle_minutes s) in
  let matching := filter (λ row : text * AuthSession, as_expires_at row.2 <= now ∨ as_last_seen_at row.2 <= idle_before) (db_sessions db) in
  let ids := take (st_session_cleanup_batch s) (scan (fst <$> map_to_list matching)) in
  with_sessions (filter (λ row, row.1 ∉ ids)) db.

(** [issue_session] of a new token. *)
Definition issue_session (token : text) (u : User) (now : instant) (db : Database) : result Database :=
  let row := {| as_token_hash := token_hash token; as_user_id := us_id u; as_created_at := now; as_last_seen_at := now;
                as_expires_at := now + td_hours (st_session_max_hours s) |} in
  if is_some_b (db_sessions db !! token_hash token) then Err (IntegrityError "auth_session")
  else Ok (with_sessions (<[token_hash token := row]>) db).

Definition usable_cookie (token : option text) : option text :=
  match token with
  | Some t => if bool_decide (t = []) || Nat.ltb MAX_COOKIE (length t) then None else Some t
  | None => None
  end.

Definition delete_by_token (token : option text) (db : Database) : Database :=
  match usable_cookie token with Some t => with_sessions (delete (token_hash t)) db | None => db end.

Definition revoke_user_sessions (user_id : uuid) (db : Database) : Database :=
  with_sessions (filter (λ row, as_user_id row.2 ≠ user_id)) db.

Definition touched (now : instant) (row : AuthSession) : AuthSession :=
  {| as_token_hash := as_token_hash row; as_user_id := as_user_id row; as_created_at := as_created_at row;
     as_last_seen_at := now; as_expires_at := as_expires_at row |}.

Definition touch_last_seen (row : AuthSession) (now : instant) (db : Database) : Database :=
  if TOUCH_AFTER <=? now - as_last_seen_at row then with_sessions (alter (touched now) (as_token_hash row)) db else db.

(** [principal_from_cookie]: what its statements leave, and the user and session unless it raises. *)
Definition principal_from_cookie (token : option text) (now : instant) (db : Database) : Database * result (User * AuthSession) :=
  match usable_cookie token with
  | None => (db, Err AuthenticationRequired)
  | Some t =>
      match db_sessions db !! token_hash t with
      | None => (db, Err AuthenticationRequired)
      | Some row =>
          let dead := with_sessions (delete (as_token_hash row)) db in
          if session_expired (as_created_at row) (as_last_seen_at row) (as_expires_at row) now then (dead, Err AuthenticationRequired)
          else
            match db_users db !! as_user_id row with
            | None => (dead, Err AuthenticationRequired)
            | Some u => if disabled u then (dead, Err AuthenticationRequired) else (db, Ok (u, row))
            end
      end
  end.

(** ** The principal of a request *)

Definition principal_for (db : Database) (u : User) : Principal :=
  {| pr_subject := match us_username u with Some (c :: rest) => c :: rest | _ => ascii_text (uuid_text (us_id u)) end;
     pr_email := us_email u; pr_permissions := concat (ro_permissions <$> roles_of db u); pr_username := us_username u;
     pr_auth_source := Some (us_auth_source u); pr_must_change_password := us_must_change_password u;
     pr_roles := role_names db u; pr_user_id := Some (us_id u) |}.

(** A request: its method, in upper case, and path, its cookie, its Authorization header, and the clock at
    the session lookup and at the touch. *)
Record Request := { rq_method : text; rq_path : text; rq_cookie : option text; rq_authorization : option text; rq_now : instant; rq_touch : instant }.

Definition allowed_while_password_must_change (rq : Request) : bool :=
  bool_decide ((rq_method rq, rq_path rq) ∈
    [(ascii_text "GET", st_api_prefix s ++ ascii_text "/me"); (ascii_text "POST", st_api_prefix s ++ ascii_text "/auth/password");
     (ascii_text "POST", st_api_prefix s ++ ascii_text "/auth/logout")])%list.

(** [get_session]: commits what the body did, and rolls back when it raises. *)
Definition transaction {A} (db : Database) (body : Database * result A) : Database * result A :=
  match body with (db', Ok a) => (db', Ok a) | (_, Err e) => (db, Err e) end.

Definition unauthorized (detail : string) : exn := HTTPException 401 [ascii_text detail].

(** [_session_principal] *)
Definition session_principal (rq : Request) (db : Database) : Database * result Principal :=
  let body :=
    match principal_from_cookie (rq_cookie rq) (rq_now rq) db with
    | (db, Err e) => (db, Err e)
    | (db, Ok (u, row)) =>
        if us_must_change_password u && negb (allowed_while_password_must_change rq) then
          (db, Err (HTTPException 403 [ascii_text "A password change is required before any other request."]))
        else let db := touch_last_seen row (rq_touch rq) db in (db, Ok (principal_for db u))
    end in
  match transaction db body with
  | (db, Err AuthenticationRequired) => (db, Err (unauthorized "Authentication required."))
  | r => r
  end.

Definition development_principal (name : string) (email : option text) (permissions : list text) : Principal :=
  {| pr_subject := ascii_text name; pr_email := email; pr_permissions := permissions; pr_username := Some (ascii_text name);
     pr_auth_source := None; pr_must_change_password := false; pr_roles := []; pr_user_id := None |}.

(** [_local_principal] *)
Definition local_principal (rq : Request) : result Principal :=
  if st_is_hardened s then Err (unauthorized "local auth is disabled outside development; configure AUTH_PROVIDER=session")
  else match rq_authorization rq with
       | None | Some [] => Ok (development_principal "local-dev" (Some (ascii_text "dev@localhost")) [PERM_ADMIN])
       | Some _ => Ok (development_principal "local-token" None [ascii_text "read:*"])
       end.

(** [_oidc_principal] *)
Definition oidc_principal (rq : Request) : result Principal :=
  match rq_authorization rq with
  | Some (c :: rest) =>
      if bool_decide (take 7 (lower (c :: rest)) = ascii_text "bearer ") then Err (HTTPException 501 [ascii_text "OIDC verification is not available"])
      else Err (unauthorized "missing bearer token")
  | _ => Err (unauthorized "missing bearer token")
  end.

Definition get_principal (rq : Request) (db : Database) : Database * result Principal :=
  if session_cookies_enforced s then
    if bool_decide (st_auth_provider s = AUTH_OIDC) then (db, Err (unauthorized "OIDC is not available"))
    else session_principal rq db
  else if bool_decide (st_auth_provider s = AUTH_LOCAL) then (db, local_principal rq)
  else (db, oidc_principal rq).
End Accounts.
