(* ===== verification/SignIn.v ===== *)
(** * Sign-in

    [services/auth_login.py], [services/ldap_bind.py] and the routes of [api/routes/auth.py] that sign
    in, sign out and change a password. A handler works on the user object it loaded and writes it
    back; [clean] is [bleach.clean], [hashpw] bcrypt's with the salt drawn. What the directory
    servers answer to a bind is an argument. *)

From S2P Require Import Prelude PyStr PyTime Accounts.

(** ** The directory *)

(** What one server does: an error before the handshake ends, or after it; a refusal of the bind, or of
    the credentials; an exception the walk does not catch; or a bind, with the profile read. *)
Inductive UrlAnswer :=
| NO_TRANSPORT | BIND_TRANSPORT | BIND_REFUSED | CREDENTIALS_REFUSED | RAISED
| BOUND (display_name mail : option text).

Inductive BindStatus := BIND_OK | BIND_INVALID_CREDENTIALS | BIND_FAILED.

#[export] Instance BindStatus_eq_dec : EqDecision BindStatus.
Proof. solve_decision. Defined.

Record BindReport := { bp_tls_ok : bool; bp_bind_status : BindStatus; bp_display_name : option text; bp_mail : option text }.

Definition bind_report (tls_ok : bool) (status : BindStatus) : BindReport :=
  {| bp_tls_ok := tls_ok; bp_bind_status := status; bp_display_name := None; bp_mail := None |}.

(** The walk over the URLs; [None] where it raises. *)
Fixpoint bind_walk (answers : list UrlAnswer) (tls_ok : bool) : option BindReport :=
  match answers with
  | [] => Some (bind_report tls_ok BIND_FAILED)
  | NO_TRANSPORT :: rest => bind_walk rest false
  | BIND_TRANSPORT :: rest | BIND_REFUSED :: rest => bind_walk rest true
  | CREDENTIALS_REFUSED :: _ => Some (bind_report true BIND_INVALID_CREDENTIALS)
  | RAISED :: _ => None
  | BOUND display_name mail :: _ =>
      Some {| bp_tls_ok := true; bp_bind_status := BIND_OK; bp_display_name := display_name; bp_mail := mail |}
  end.

Definition bind_sync (password : text) (answers : list UrlAnswer) : option BindReport :=
  if bool_decide (password = []) then Some (bind_report false BIND_FAILED) else bind_walk answers false.

(** The servers of an enabled configuration, by the username and password they are asked with. *)
Definition Directory := option (text → text → list UrlAnswer).

(** ** Locks *)

Definition is_locked (u : User) (now : instant) : bool := match us_locked_until u with Some t => now <? t | None => false end.

Definition clear_expired_lock (u : User) (now : instant) : User :=
  match us_locked_until u with Some t => if t <=? now then set_counters 0 None u else u | None => u end.

(** [apply_failure]: the user, and whether this failure starts the lock. *)
Definition apply_failure (u : User) (now : instant) (threshold lock_minutes : Z) : User * bool :=
  let count := us_failed_login_count u + 1 in
  if threshold <=? count then (set_counters count (Some (now + td_minutes lock_minutes)) u, true)
  else (set_counters count (us_locked_until u) u, false).

(** ** Results *)

Record LoginOut := { lo_username : text; lo_auth_source : AuthSource; lo_must_change_password : bool; lo_roles : list text }.

Inductive LoginResult := SUCCESS (token : text) (out : LoginOut) | FAILURE (status_code : Z) (detail : text).

Definition INVALID_CREDENTIALS : text := ascii_text "Invalid username or password".
Definition DIRECTORY_UNAVAILABLE : text := ascii_text "The directory server is unavailable. Sign-in was not completed.".

Definition refused : LoginResult := FAILURE 401 INVALID_CREDENTIALS.

(** What a request draws: its clock, a random token, an id for a new row, a salt, and the order in which
    the database returns the sessions to clean up. *)
Record Draws := { dr_now : instant; dr_token : text; dr_uuid : uuid; dr_salt : text; dr_scan : list text → list text }.

Section SignIn.
Context (lower casefold clean : text → text) (checkpw : list N → text → option bool) (hashpw : list N → text → text)
        (token_hash : text → text) (s : AuthSettings).

Local Abbreviation verify := (verify_password checkpw).

(** [_audit] *)
Definition audit (action : string) (actor : text) (reason : string) (user : option User) (db : Database) : Database :=
  record_audit action (Some actor) (us_id <$> user) (us_id <$> user) "FAILURE" reason db.

(** [_count_failure]: [loaded] is the row as it was read, [u] the object now. *)
Definition count_failure (loaded u : User) (username : text) (now : instant) (reason : string) (db : Database) : Database :=
  let '(u, locked_now) := apply_failure u now (st_login_lockout_threshold s) (st_login_lockout_minutes s) in
  let db := audit "auth.login_failed" username reason (Some u) (write_user loaded u db) in
  if locked_now then audit "auth.locked" username "locked" (Some u) db else db.

(** [_success] *)
Definition success (loaded u : User) (d : Draws) (record_login : bool) (db : Database) : result (Database * LoginResult) :=
  let username := default [] (us_username u) in
  let u := set_counters 0 None u in
  let u := if record_login then set_last_login (dr_now d) u else u in
  db <- issue_session token_hash s (dr_token d) u (dr_now d) (write_user loaded u db) ;;
  let db := if record_login then record_audit "auth.login" (Some username) (Some (us_id u)) (Some (us_id u)) "SUCCESS" "" db else db in
  Ok (db, SUCCESS (dr_token d) {| lo_username := username; lo_auth_source := us_auth_source u;
                                  lo_must_change_password := us_must_change_password u; lo_roles := role_names db u |}).

(** [_empty_password] *)
Definition empty_password (user : option User) (username : text) (now : instant) (db : Database) : Database * LoginResult :=
  match user with
  | Some u =>
      if is_locked u now then (audit "auth.locked" username "locked" user db, refused)
      else (count_failure u u username now "empty_password" db, refused)
  | None => (audit "auth.login_failed" username "empty_password" None db, refused)
  end.

(** [_local] *)
Definition local (user : User) (password : text) (d : Draws) (db : Database) : result (Database * LoginResult) :=
  let now := dr_now d in
  let username := default [] (us_username user) in
  if is_locked user now then Ok (audit "auth.locked" username "locked" (Some user) db, refused)
  else
    let u := clear_expired_lock user now in
    if negb (verify password (us_hashed_password u)) then Ok (count_failure user u username now "invalid_credentials" db, refused)
    else if disabled u then Ok (audit "auth.login_failed" username "disabled" (Some u) (write_user user u db), refused)
    else success user u d true db.

(** *** The profile the directory gives *)

(** [sanitize_text] *)
Definition sanitize_text (value : text) : text := filter (λ c, (32 <=? c)%N || (c =? 9)%N || (c =? 10)%N = true) (clean value).

Definition clean_display (value : option text) : option text :=
  match value with
  | None => None
  | Some v => let cleaned := strip (sanitize_text v) in if bool_decide (cleaned = []) then None else Some (take 255 cleaned)
  end.

Definition AT : N := 64%N.

Definition clean_mail (value : option text) : option text :=
  match value with
  | None => None
  | Some v =>
      let cleaned := strip (sanitize_text v) in
      if Nat.ltb 255 (length cleaned) then None
      else match split_text AT cleaned with
           | [local; domain] =>
               if bool_decide (local = []) || bool_decide (domain = []) || existsb (λ c, is_space c || (c <? 32)%N) cleaned then None
               else Some cleaned
           | _ => None
           end
  end.

(** [_apply_profile] *)
Definition apply_profile (u : User) (display_name mail : option text) (db : Database) : User :=
  let display := match clean_display display_name with Some v => Some v | None => us_display_name u end in
  let email :=
    match clean_mail mail with
    | Some v =>
        if bool_decide (Some v = us_email u) then us_email u
        else if is_some_b (find_user (λ o, bool_decide (us_email o = Some v) && negb (us_id o =? us_id u)%N) db) then us_email u
        else Some v
    | None => us_email u
    end in
  set_profile display email u.

Definition provisioned (id : uuid) (username : text) : User :=
  {| us_id := id; us_email := None; us_display_name := Some username; us_username := Some username; us_auth_source := LDAP;
     us_hashed_password := None; us_is_active := true; us_must_change_password := false; us_failed_login_count := 0;
     us_locked_until := None; us_disabled_at := None; us_last_login_at := None; us_roles := [] |}.

(** After a bind that succeeded. *)
Definition bound (loaded u : User) (username : text) (report : BindReport) (d : Draws) (db : Database) : result (Database * LoginResult) :=
  if disabled u then Ok (audit "auth.login_failed" username "disabled" (Some u) (write_user loaded u db), refused)
  else success loaded (apply_profile u (bp_display_name report) (bp_mail report) db) d true db.

(** [_directory] *)
Definition directory (user : option User) (username password : text) (d : Draws) (dir : Directory) (db : Database)
    : result (Database * LoginResult) :=
  let now := dr_now d in
  if match user with Some u => is_locked u now | None => false end then Ok (audit "auth.locked" username "locked" user db, refused)
  else
    let cleared := (λ u, clear_expired_lock u now) <$> user in
    let written := match user with Some u => write_user u (clear_expired_lock u now) db | None => db end in
    match dir with
    | None => Ok (audit "auth.login_failed" username "ldap_disabled" cleared written, refused)
    | Some servers =>
        match bind_sync password (servers username password) with
        | None => Ok (audit "auth.login_failed" username "directory_unavailable" cleared written, FAILURE 503 DIRECTORY_UNAVAILABLE)
        | Some report =>
            match bp_bind_status report with
            | BIND_INVALID_CREDENTIALS =>
                match user with
                | Some u => Ok (count_failure u (clear_expired_lock u now) username now "invalid_credentials" db, refused)
                | None => Ok (audit "auth.login_failed" username "invalid_credentials" None db, refused)
                end
            | BIND_FAILED => Ok (audit "auth.login_failed" username "directory_unavailable" cleared written, FAILURE 503 DIRECTORY_UNAVAILABLE)
            | BIND_OK =>
                match user with
                | Some u => bound u (clear_expired_lock u now) username report d db
                | None =>
                    let u := provisioned (dr_uuid d) username in
                    db <- insert_user u db ;;
                    bound u u username report d
                      (record_audit "user.provision" (Some username) (Some (us_id u)) (Some (us_id u)) "SUCCESS" "" db)
                end
            end
        end
    end.

(** [authenticate] *)
Definition authenticate (raw_username password : text) (d : Draws) (dir : Directory) (db : Database) : result (Database * LoginResult) :=
  let db := cleanup_expired s (dr_scan d) (dr_now d) db in
  match normalize_username lower raw_username with
  | None => Ok (audit "auth.login_failed" (ascii_text "<rejected>") "rejected_username" None db, refused)
  | Some username =>
      let user := find_user (named username) db in
      if bool_decide (password = []) then Ok (empty_password user username (dr_now d) db)
      else match user with
           | Some u => if bool_decide (us_auth_source u = LOCAL) then local u password d db else directory user username password d dir db
           | None => directory user username password d dir db
           end
  end.

(** ** A new password *)

Definition hash_password (password salt : text) : result text :=
  let material := encode_utf8 password in
  _ <- raise_if (Nat.ltb MAX_PASSWORD_BYTES (length material)) (ValueError "password must be at most 72 bytes") ;;
  Ok (hashpw material salt).

(** [not username] *)
Definition nameless (u : User) : bool := match us_username u with None | Some [] => true | _ => false end.

(** [change_own_password] *)
Definition change_own_password (user : User) (current_password new_password : text) (d : Draws) (db : Database)
    : result (Database * LoginResult) :=
  let username := default [] (us_username user) in
  if negb (bool_decide (us_auth_source user = LOCAL)) || nameless user then
    Err (HTTPException 403 [ascii_text "LDAP accounts change their password in the directory, not here."])
  else if negb (verify current_password (us_hashed_password user)) then Err (unauthorized "current password is wrong")
  else
    let reasons := password_policy_reasons casefold new_password username in
    if negb (bool_decide (reasons = [])) then Err (HTTPException 422 reasons)
    else
      hashed <- hash_password new_password (dr_salt d) ;;
      let u := set_password (us_auth_source user) (Some hashed) false user in
      let db := revoke_user_sessions (us_id u) (write_user user u db) in
      let db := record_audit "auth.password.change" (Some username) (Some (us_id u)) (Some (us_id u)) "SUCCESS" "" db in
      success u u d false db.

(** ** Routes *)

(** [login]: a failure is committed before it is raised. The answer is the cookie and the body. *)
Definition login (raw_username password : text) (d : Draws) (dir : Directory) (db : Database) : Database * result (text * LoginOut) :=
  match authenticate raw_username password d dir db with
  | Ok (db', SUCCESS token out) => (db', Ok (token, out))
  | Ok (db', FAILURE status_code detail) => (db', Err (HTTPException status_code [detail]))
  | Err e => (db, Err e)
  end.

(** [logout], of the principal resolved for the request. *)
Definition logout (rq : Request) (p : Principal) (db : Database) : Database :=
  let name := match pr_username p with Some (c :: rest) => c :: rest | _ => pr_subject p end in
  record_audit "auth.logout" (Some name) (pr_user_id p) (pr_user_id p) "SUCCESS" "" (delete_by_token token_hash (rq_cookie rq) db).

(** [change_password], of the principal resolved for the request. *)
Definition change_password (p : Principal) (current_password new_password : text) (d : Draws) (db : Database)
    : Database * result (text * LoginOut) :=
  transaction db
    match pr_user_id p, bool_decide (pr_auth_source p = Some LOCAL) with
    | Some id, true =>
        match db_users db !! id with
        | None => (db, Err (unauthorized "Authentication required."))
        | Some u =>
            if disabled u then (db, Err (unauthorized "Authentication required."))
            else match change_own_password u current_password new_password d db with
                 | Ok (db', SUCCESS token out) => (db', Ok (token, out))
                 | Ok (db', FAILURE status_code detail) => (db', Err (HTTPException status_code [detail]))
                 | Err e => (db, Err e)
                 end
        end
    | _, _ =>
        (db, Err (HTTPException 403
          [ascii_text (if bool_decide (pr_auth_source p = Some LDAP) then "LDAP accounts change their password in the directory, not here."
                       else "only a local account can change its password")]))
    end.
End SignIn.
