(* ===== verification/SignInTheorems.v ===== *)
(** * Who signs in

    The tables as the constraints keep them, the effect of writing an object back, the outcome of a
    sign-in, and how many passwords can be tried. *)

From S2P Require Import Prelude PyStr PyTime Accounts SignIn.

(** ** Rows *)

(** The keys, the unique columns and the checks of the tables. *)
Record users_ok (users : gmap uuid User) : Prop := {
  ok_ids : ∀ id u, users !! id = Some u → us_id u = id;
  ok_names : ∀ i j u v name, users !! i = Some u → users !! j = Some v → us_username u = Some name → us_username v = Some name → i = j;
  ok_mails : ∀ i j u v mail, users !! i = Some u → users !! j = Some v → us_email u = Some mail → us_email v = Some mail → i = j;
  ok_counts : ∀ id u, users !! id = Some u → 0 <= us_failed_login_count u;
  ok_ldap : ∀ id u, users !! id = Some u → us_auth_source u = LDAP → us_hashed_password u = None }.

Record tables_ok (db : Database) : Prop := {
  ok_users : users_ok (db_users db);
  ok_tokens : ∀ h row, db_sessions db !! h = Some row → as_token_hash row = h;
  ok_owners : ∀ h row, db_sessions db !! h = Some row → is_Some (db_users db !! as_user_id row) }.

Lemma find_user_some p db u : find_user p db = Some u → ∃ id, db_users db !! id = Some u ∧ p u = true.
Proof.
  unfold find_user. intros (row & Hf & ->)%fmap_Some. apply find_some in Hf as [Hin Hp]. exists row.1.
  split; [|done]. apply list_elem_of_In in Hin. destruct row as [id u']. by apply elem_of_map_to_list in Hin.
Qed.

Lemma find_user_none p db : find_user p db = None ↔ ∀ id u, db_users db !! id = Some u → p u = false.
Proof.
  unfold find_user. rewrite fmap_None. split.
  - intros Hf id u Hu. apply elem_of_map_to_list, list_elem_of_In in Hu. exact (find_none _ _ Hf (id, u) Hu).
  - intros H. destruct (find _ _) as [[id u]|] eqn:E; [|done]. apply find_some in E as [Hin Hp].
    apply list_elem_of_In, elem_of_map_to_list in Hin. cbn in Hp. by rewrite (H id u Hin) in Hp.
Qed.

(** The one row with a username. *)
Lemma find_named db name u : tables_ok db → db_users db !! us_id u = Some u → us_username u = Some name →
  find_user (named name) db = Some u.
Proof.
  intros Hok Hu Hn. destruct (find_user (named name) db) as [v|] eqn:E.
  - apply find_user_some in E as (id & Hv & Hp). apply bool_decide_eq_true in Hp.
    assert (id = us_id u) as -> by (apply (ok_names _ (ok_users _ Hok) _ _ v u name); done). congruence.
  - exfalso. pose proof (proj1 (find_user_none _ _) E _ _ Hu) as Hp. apply bool_decide_eq_false in Hp. done.
Qed.

Lemma find_named_inv db name u : tables_ok db → find_user (named name) db = Some u →
  db_users db !! us_id u = Some u ∧ us_username u = Some name.
Proof.
  intros Hok (id & Hu & Hp)%find_user_some. rewrite (ok_ids _ (ok_users _ Hok) _ _ Hu). split; [done|]. by apply bool_decide_eq_true in Hp.
Qed.

Lemma flush_col_self {A} `{EqDecision A} (x y : A) : flush_col x y x = y.
Proof. unfold flush_col. by destruct (decide (x = y)). Qed.

(** The object loaded is the row: the row becomes the object. *)
Lemma flush_self u u' : us_id u' = us_id u → us_username u' = us_username u → flush_user u u' u = u'.
Proof. destruct u, u'; cbn. intros -> ->. unfold flush_user. cbn. by rewrite !flush_col_self. Qed.

Lemma write_self db u u' : db_users db !! us_id u = Some u → us_id u' = us_id u → us_username u' = us_username u →
  db_users (write_user u u' db) = <[us_id u := u']> (db_users db).
Proof.
  intros Hu Hi Hn. cbn. apply map_eq. intros id. destruct (decide (id = us_id u)) as [->|Hne].
  - by rewrite lookup_alter_eq, Hu, lookup_insert_eq; cbn; rewrite flush_self.
  - by rewrite lookup_alter_ne, lookup_insert_ne by done.
Qed.

Lemma clear_lock_row u now : us_id (clear_expired_lock u now) = us_id u ∧ us_username (clear_expired_lock u now) = us_username u ∧
  disabled (clear_expired_lock u now) = disabled u ∧ us_hashed_password (clear_expired_lock u now) = us_hashed_password u ∧
  us_auth_source (clear_expired_lock u now) = us_auth_source u.
Proof. unfold clear_expired_lock. destruct (us_locked_until u) as [t|]; [|done]. by destruct (t <=? now). Qed.

Section Theorems.
Context (lower clean : text → text) (checkpw : list N → text → option bool) (token_hash : text → text) (s : AuthSettings).

Local Abbreviation verify := (verify_password checkpw).
Local Abbreviation sign_in := (login lower clean checkpw token_hash s).
Local Abbreviation cleaned d db := (cleanup_expired s (dr_scan d) (dr_now d) db).

(** The session a sign-in issues. *)
Definition issued (id : uuid) (token : text) (now : instant) : AuthSession :=
  {| as_token_hash := token_hash token; as_user_id := id; as_created_at := now; as_last_seen_at := now;
     as_expires_at := now + td_hours (st_session_max_hours s) |}.

(** The random draws are new: a token of 256 bits, a UUID. *)
Definition fresh (d : Draws) (db : Database) : Prop :=
  db_sessions db !! token_hash (dr_token d) = None ∧ db_users db !! dr_uuid d = None.

Lemma cleaned_sessions d db h row : db_sessions (cleaned d db) !! h = Some row → db_sessions db !! h = Some row.
Proof. cbn. intros [H _]%map_lookup_filter_Some. exact H. Qed.

Lemma cleaned_none d db h : db_sessions db !! h = None → db_sessions (cleaned d db) !! h = None.
Proof. cbn. intros H. apply map_lookup_filter_None. by left. Qed.

Lemma success_ok loaded u d record db : db_sessions db !! token_hash (dr_token d) = None → ∃ db' out,
  success token_hash s loaded u d record db = Ok (db', SUCCESS (dr_token d) out) ∧ lo_username out = default [] (us_username u) ∧
  db_users db' = db_users (write_user loaded (if record then set_last_login (dr_now d) (set_counters 0 None u) else set_counters 0 None u) db) ∧
  db_sessions db' = <[token_hash (dr_token d) := issued (us_id u) (dr_token d) (dr_now d)]> (db_sessions db).
Proof. intros Hf. unfold success, issue_session. cbn. rewrite Hf. cbn [is_some_b res_bind]. by destruct record; do 2 eexists. Qed.

Lemma count_failure_tables loaded u name now reason db :
  db_users (count_failure s loaded u name now reason db) =
    db_users (write_user loaded (apply_failure u now (st_login_lockout_threshold s) (st_login_lockout_minutes s)).1 db) ∧
  db_sessions (count_failure s loaded u name now reason db) = db_sessions db.
Proof. unfold count_failure. by destruct (apply_failure _ _ _ _) as [u' []]. Qed.

(** ** The outcome of a sign-in *)

(** The directory binds the user. *)
Definition binds (name password : text) (dir : Directory) : Prop :=
  ∃ servers report, dir = Some servers ∧ bind_sync password (servers name password) = Some report ∧ bp_bind_status report = BIND_OK.

(** The account of a name, or one the directory vouches for. *)
Definition may_sign_in (name password : text) (now : instant) (dir : Directory) (db : Database) : Prop :=
  (∃ u, db_users db !! us_id u = Some u ∧ us_username u = Some name ∧ is_locked u now = false ∧ disabled u = false ∧
    if decide (us_auth_source u = LOCAL) then verify password (us_hashed_password u) = true else binds name password dir) ∨
  (∀ id u, db_users db !! id = Some u → us_username u ≠ Some name) ∧ binds name password dir.

(** The directory was asked and did not answer. *)
Definition no_answer (name password : text) (dir : Directory) : Prop :=
  ∃ servers, dir = Some servers ∧
    (bind_sync password (servers name password) = None ∨
     ∃ report, bind_sync password (servers name password) = Some report ∧ bp_bind_status report = BIND_FAILED).

(** What an attempt gives: a session for the account of the name, or a refusal that issues none. *)
Inductive outcome (name password : text) (d : Draws) (dir : Directory) (db : Database) : result (Database * LoginResult) → Prop :=
| out_success db' out id : may_sign_in name password (dr_now d) dir db → lo_username out = name →
    db_sessions db' = <[token_hash (dr_token d) := issued id (dr_token d) (dr_now d)]> (db_sessions db) →
    outcome name password d dir db (Ok (db', SUCCESS (dr_token d) out))
| out_refused db' : ¬ may_sign_in name password (dr_now d) dir db → db_sessions db' = db_sessions db →
    outcome name password d dir db (Ok (db', refused))
| out_unavailable db' : ¬ may_sign_in name password (dr_now d) dir db → no_answer name password dir → db_sessions db' = db_sessions db →
    outcome name password d dir db (Ok (db', FAILURE 503 DIRECTORY_UNAVAILABLE)).

Lemma may_sign_in_row name password now dir db u : tables_ok db → find_user (named name) db = Some u →
  may_sign_in name password now dir db ↔ is_locked u now = false ∧ disabled u = false ∧
    if decide (us_auth_source u = LOCAL) then verify password (us_hashed_password u) = true else binds name password dir.
Proof.
  intros Hok Hf. destruct (find_named_inv _ _ _ Hok Hf) as [Hu Hn]. split; [|intros H; left; by exists u].
  intros [(v & Hv & Hvn & H)|[Hno _]]; [|by destruct (Hno _ _ Hu)]. pose proof (find_named _ _ _ Hok Hv Hvn) as E. by simplify_eq.
Qed.

Lemma may_sign_in_none name password now dir db : find_user (named name) db = None →
  may_sign_in name password now dir db ↔ binds name password dir.
Proof.
  intros Hf. assert (Hno : ∀ id u, db_users db !! id = Some u → us_username u ≠ Some name).
  { intros id u Hu. pose proof (proj1 (find_user_none _ _) Hf id u Hu) as Hp. by apply bool_decide_eq_false in Hp. }
  split; [|intros H; by right]. intros [(u & Hu & Hn & _)|[_ H]]; [by destruct (Hno _ _ Hu)|done].
Qed.

Lemma local_outcome name password d dir db u : tables_ok db → find_user (named name) db = Some u → us_auth_source u = LOCAL →
  fresh d db → outcome name password d dir db (local checkpw token_hash s u password d db).
Proof.
  intros Hok Hf Hl [Ht _]. destruct (find_named_inv _ _ _ Hok Hf) as [Hu Hn]. pose proof (may_sign_in_row name password (dr_now d) dir db u Hok Hf) as Hm.
  rewrite decide_True in Hm by done. unfold local. destruct (is_locked u (dr_now d)) eqn:El.
  { apply out_refused; [|done]. rewrite Hm. by intros (? & _). }
  destruct (clear_lock_row u (dr_now d)) as (Ei & En & Ed & Eh & _). rewrite Eh. destruct (verify password (us_hashed_password u)) eqn:Ev; cbn [negb].
  2:{ apply out_refused; [|apply count_failure_tables]. rewrite Hm. by intros (_ & _ & ?). }
  rewrite Ed. destruct (disabled u) eqn:Edis.
  { apply out_refused; [|done]. rewrite Hm. by intros (_ & ? & _). }
  destruct (success_ok u (clear_expired_lock u (dr_now d)) d true db Ht) as (db' & out & -> & Ho & _ & Hs).
  eapply out_success; [by apply Hm| |exact Hs]. by rewrite Ho, En, Hn.
Qed.

Lemma bound_disabled loaded u name report d db : disabled u = true → ∃ db',
  bound clean token_hash s loaded u name report d db = Ok (db', refused) ∧ db_sessions db' = db_sessions db.
Proof. intros H. unfold bound. rewrite H. by eexists. Qed.

Lemma bound_ok loaded u name report d db : db_sessions db !! token_hash (dr_token d) = None → disabled u = false → us_username u = Some name →
  ∃ db' out, bound clean token_hash s loaded u name report d db = Ok (db', SUCCESS (dr_token d) out) ∧ lo_username out = name ∧
    db_sessions db' = <[token_hash (dr_token d) := issued (us_id u) (dr_token d) (dr_now d)]> (db_sessions db).
Proof.
  intros Ht Hd Hn. unfold bound. rewrite Hd. destruct (success_ok loaded (apply_profile clean u (bp_display_name report) (bp_mail report) db) d true db Ht) as (db' & out & E & Ho & _ & Hs).
  exists db', out. split_and!; [exact E| |exact Hs]. rewrite Ho. cbn. by rewrite Hn.
Qed.

Lemma directory_outcome name password d dir db user : tables_ok db → find_user (named name) db = user →
  (∀ u, user = Some u → us_auth_source u ≠ LOCAL) → fresh d db →
  outcome name password d dir db (directory clean token_hash s user name password d dir db).
Proof.
  intros Hok Hf Hl [Ht Hi]. set (enabled := match user with Some u => is_locked u (dr_now d) = false ∧ disabled u = false | None => True end).
  assert (Hm : may_sign_in name password (dr_now d) dir db ↔ enabled ∧ binds name password dir).
  { subst enabled. destruct user as [u|]; [|rewrite may_sign_in_none by done; tauto].
    rewrite (may_sign_in_row _ _ _ _ _ u Hok Hf), decide_False by by apply Hl. tauto. }
  unfold directory. destruct (match user with Some u => is_locked u (dr_now d) | None => false end) eqn:Elock.
  { apply out_refused; [|done]. rewrite Hm. subst enabled. destruct user; [|done]. rewrite Elock. by intros [[? _] _]. }
  assert (Hw : ∀ u, user = Some u → ∀ u', db_sessions (write_user u u' db) = db_sessions db) by done.
  destruct dir as [servers|].
  2:{ apply out_refused; [|by destruct user]. rewrite Hm. by intros [_ (? & ? & ? & _)]. }
  destruct (bind_sync password (servers name password)) as [report|] eqn:Eb.
  2:{ apply out_unavailable; [|exists servers; split; [done|by left]|by destruct user]. rewrite Hm. intros [_ (? & ? & [= <-] & E & _)]. congruence. }
  destruct (bp_bind_status report) eqn:Es.
  - assert (Hb : binds name password (Some servers)) by by exists servers, report.
    destruct user as [u|].
    + destruct (clear_lock_row u (dr_now d)) as (Ei & En & Ed & _). destruct (find_named_inv _ _ _ Hok Hf) as [Hu Hn].
      destruct (disabled (clear_expired_lock u (dr_now d))) eqn:Edis.
      * destruct (bound_disabled u (clear_expired_lock u (dr_now d)) name report d db Edis) as (db' & -> & Hs). apply out_refused; [|done].
        rewrite Hm. subst enabled. intros [[_ ?] _]. congruence.
      * destruct (bound_ok u (clear_expired_lock u (dr_now d)) name report d db Ht Edis) as (db' & out & -> & Ho & Hs); [by rewrite En|].
        eapply out_success; [|exact Ho|exact Hs]. rewrite Hm. subst enabled. split; [|done]. split; [by destruct (is_locked u (dr_now d))|congruence].
    + unfold insert_user. cbn [us_id provisioned]. rewrite Hi. cbn [is_some_b orb].
      assert (Hc : find_user (conflicts (provisioned (dr_uuid d) name)) db = None).
      { apply find_user_none. intros id v Hv. unfold conflicts. cbn. pose proof (proj1 (find_user_none _ _) Hf _ _ Hv) as Hp.
        unfold named in Hp. by rewrite Hp. }
      rewrite Hc. cbn [is_some_b res_bind]. destruct (bound_ok (provisioned (dr_uuid d) name) (provisioned (dr_uuid d) name) name report d
        (record_audit "user.provision" (Some name) (Some (dr_uuid d)) (Some (dr_uuid d)) "SUCCESS" ""
          (with_users (<[dr_uuid d := provisioned (dr_uuid d) name]>) db)) Ht eq_refl eq_refl) as (db' & out & -> & Ho & Hs).
      eapply out_success; [|exact Ho|exact Hs]. rewrite Hm. by split.
  - assert (Hn : ¬ binds name password (Some servers)) by (intros (? & ? & [= <-] & ? & ?); congruence).
    destruct user as [u|]; (apply out_refused; [rewrite Hm; tauto|]); [apply count_failure_tables|done].
  - assert (Hn : ¬ binds name password (Some servers)) by (intros (? & ? & [= <-] & ? & ?); congruence).
    apply out_unavailable; [rewrite Hm; tauto|exists servers; split; [done|right; by exists report]|by destruct user].
Qed.

Lemma cleaned_ok d db : tables_ok db → tables_ok (cleaned d db).
Proof. intros []. split; try done; intros h row [H _]%map_lookup_filter_Some; eauto. Qed.

(** C12: A sign-in succeeds exactly with a password that is not empty, for an account that is neither
    locked nor disabled and whose password or directory bind is right, or for a new name the
    directory binds. It issues one session, for that name. Any other attempt gives the same answer
    and issues none, except that a directory that does not answer is reported as such. *)
Theorem login_exact raw password d dir db db' r : tables_ok db → fresh d db → sign_in raw password d dir db = (db', r) →
  let accepted := password ≠ [] ∧ ∃ name, normalize_username lower raw = Some name ∧ may_sign_in name password (dr_now d) dir db in
  (accepted ∧ ∃ name id out, normalize_username lower raw = Some name ∧ r = Ok (dr_token d, out) ∧ lo_username out = name ∧
     db_sessions db' = <[token_hash (dr_token d) := issued id (dr_token d) (dr_now d)]> (db_sessions (cleaned d db))) ∨
  (¬ accepted ∧ db_sessions db' = db_sessions (cleaned d db) ∧
     (r = Err (HTTPException 401 [INVALID_CREDENTIALS]) ∨
      r = Err (HTTPException 503 [DIRECTORY_UNAVAILABLE]) ∧ ∃ name, normalize_username lower raw = Some name ∧ no_answer name password dir)).
Proof.
  intros Hok Hfr Hr. unfold login, authenticate in Hr. cbv zeta in Hr.
  destruct (normalize_username lower raw) as [name|].
  2:{ injection Hr as <- <-. right. split_and!; [by intros (_ & ? & ? & _)|done|by left]. }
  assert (Hmay : may_sign_in name password (dr_now d) dir (cleaned d db) ↔ may_sign_in name password (dr_now d) dir db) by done.
  pose proof (cleaned_ok d db Hok) as Hok'. assert (Hfr' : fresh d (cleaned d db)) by (split; [by apply cleaned_none, Hfr|apply Hfr]).
  destruct (decide (password = [])) as [Ep|Ep]; [rewrite (bool_decide_eq_true_2 _ Ep) in Hr|rewrite (bool_decide_eq_false_2 _ Ep) in Hr].
  - right. unfold empty_password in Hr. split; [by intros [? _]|].
    destruct (find_user (named name) (cleaned d db)) as [u|]; [destruct (is_locked u (dr_now d))|]; injection Hr as <- <-; (split; [|by left]); try done.
    apply count_failure_tables.
  - match type of Hr with context [match ?m with Ok _ => _ | Err _ => _ end] => assert (Hx : outcome name password d dir (cleaned d db) m) end.
    { destruct (find_user (named name) (cleaned d db)) as [u|] eqn:Ef; [|by apply directory_outcome].
      case_bool_decide as El; [by apply local_outcome|]. apply directory_outcome; try done. by intros ? [= <-]. }
    destruct Hx as [db1 out id Hm Ho Hs|db1 Hm Hs|db1 Hm Hna Hs]; cbn in Hr; injection Hr as <- <-.
    + left. split; [split; [done|by exists name]|]. by exists name, id, out.
    + right. split_and!; [|done|by left]. intros (_ & n & [= <-] & H). by apply Hm.
    + right. split_and!; [|done|right; split; [done|by exists name]]. intros (_ & n & [= <-] & H). by apply Hm.
Qed.
(** ** What an attempt does to the rows *)

(** The columns a sign-in never writes. *)
Definition same_account (u u' : User) : Prop :=
  us_id u' = us_id u ∧ us_username u' = us_username u ∧ us_auth_source u' = us_auth_source u ∧
  us_hashed_password u' = us_hashed_password u ∧ us_must_change_password u' = us_must_change_password u ∧
  us_is_active u' = us_is_active u ∧ us_disabled_at u' = us_disabled_at u ∧ us_roles u' = us_roles u.

(** The address of a row is its own or no one's. *)
Definition own_mail (users : gmap uuid User) (u u' : User) : Prop :=
  ∀ mail, us_email u' = Some mail → us_email u = Some mail ∨ ∀ id v, users !! id = Some v → id ≠ us_id u → us_email v ≠ Some mail.

Inductive login_effect (name : text) (users : gmap uuid User) : gmap uuid User → Prop :=
| le_same : login_effect name users users
| le_update u u' : users !! us_id u = Some u → us_username u = Some name → same_account u u' → own_mail users u u' →
    0 <= us_failed_login_count u' → login_effect name users (<[us_id u := u']> users)
| le_new u u' : users !! us_id u = None → (∀ id v, users !! id = Some v → us_username v ≠ Some name) → us_username u = Some name →
    u = provisioned (us_id u) name → same_account u u' → own_mail users u u' → 0 <= us_failed_login_count u' →
    login_effect name users (<[us_id u := u']> users).

Lemma same_account_counters count locked u : same_account u (set_counters count locked u).
Proof. done. Qed.

Lemma same_account_trans u v w : same_account u v → same_account v w → same_account u w.
Proof. unfold same_account. intros (-> & -> & -> & -> & -> & -> & -> & ->) H. exact H. Qed.

Lemma clear_lock_same u now : same_account u (clear_expired_lock u now) ∧ us_email (clear_expired_lock u now) = us_email u ∧
  (0 <= us_failed_login_count u → 0 <= us_failed_login_count (clear_expired_lock u now)).
Proof. unfold clear_expired_lock. destruct (us_locked_until u) as [t|]; [|done]. by destruct (t <=? now). Qed.

Lemma apply_failure_same u now threshold minutes : same_account u (apply_failure u now threshold minutes).1 ∧
  us_email (apply_failure u now threshold minutes).1 = us_email u ∧
  us_failed_login_count (apply_failure u now threshold minutes).1 = us_failed_login_count u + 1.
Proof. unfold apply_failure. cbv zeta. by destruct (threshold <=? us_failed_login_count u + 1). Qed.

Lemma write_effect db u u' name : users_ok (db_users db) → db_users db !! us_id u = Some u → us_username u = Some name → same_account u u' →
  own_mail (db_users db) u u' → 0 <= us_failed_login_count u' → login_effect name (db_users db) (db_users (write_user u u' db)).
Proof.
  intros Hok Hu Hn Hs Hm Hc. rewrite write_self by (done || apply Hs). by apply le_update.
Qed.

(** The mail of a profile is taken only when no other row has it. *)
Lemma apply_profile_mail u display mail db : users_ok (db_users db) → own_mail (db_users db) u (apply_profile clean u display mail db).
Proof.
  intros Hok m. unfold apply_profile. cbn [us_email set_profile]. destruct (clean_mail clean mail) as [v|]; [|by left].
  case_bool_decide as Eb; [by left|]. destruct (find_user _ db) as [o|] eqn:Ef; cbn [is_some_b]; [by left|]. intros [= ->]. right.
  intros id w Hw Hne Hm. pose proof (proj1 (find_user_none _ _) Ef id w Hw) as Hp. cbn in Hp.
  rewrite bool_decide_eq_true_2 in Hp by done. cbn [andb] in Hp. apply negb_false_iff, N.eqb_eq in Hp. by rewrite <- Hp, (ok_ids _ Hok _ _ Hw) in Hne.
Qed.

Lemma own_mail_same users u u' : us_email u' = us_email u → own_mail users u u'.
Proof. intros E m Hm. left. by rewrite <- E. Qed.

Lemma failure_effect db u v name actor now reason : users_ok (db_users db) → db_users db !! us_id u = Some u → us_username u = Some name →
  same_account u v → us_email v = us_email u → 0 <= us_failed_login_count v →
  login_effect name (db_users db) (db_users (count_failure s u v actor now reason db)).
Proof.
  intros Hok Hu Hn Hs Hm Hc. rewrite (proj1 (count_failure_tables u v actor now reason db)).
  destruct (apply_failure_same v now (st_login_lockout_threshold s) (st_login_lockout_minutes s)) as (Hs' & Hm' & Hc').
  apply write_effect; try done; [by eapply same_account_trans|apply own_mail_same; congruence|lia].
Qed.

Lemma success_effect db loaded u d record db' r : success token_hash s loaded u d record db = Ok (db', r) →
  ∃ u', db_users db' = db_users (write_user loaded u' db) ∧ same_account u u' ∧ us_email u' = us_email u ∧ us_failed_login_count u' = 0.
Proof.
  unfold success. intros ([db1 ?] & Hi & [= <- <-])%bind_ok || intros (db1 & Hi & [= <- <-])%bind_ok.
  unfold issue_session in Hi. destruct (is_some_b _); [done|]. injection Hi as <-.
  exists (if record then set_last_login (dr_now d) (set_counters 0 None u) else set_counters 0 None u). by destruct record.
Qed.

Lemma local_effect db u name password d db' r : users_ok (db_users db) → db_users db !! us_id u = Some u → us_username u = Some name →
  local checkpw token_hash s u password d db = Ok (db', r) → login_effect name (db_users db) (db_users db').
Proof.
  intros Hok Hu Hn. pose proof (ok_counts _ Hok _ _ Hu) as Hc. destruct (clear_lock_same u (dr_now d)) as (Hs & Hm & Hc').
  unfold local. destruct (is_locked u (dr_now d)); [intros [= <- <-]; apply le_same|].
  destruct (negb _); [intros [= <- <-]; by apply failure_effect; auto|].
  destruct (disabled _); [intros [= <- <-]; by apply write_effect; auto using own_mail_same|].
  intros (u' & -> & Hs' & Hm' & Hc'')%success_effect. apply write_effect; try done; [by eapply same_account_trans|apply own_mail_same; congruence|lia].
Qed.

(** A bind that succeeded, for an account of the tables and for a new one. *)
Lemma bound_effect db u v name report d db' r : users_ok (db_users db) → db_users db !! us_id u = Some u → us_username u = Some name →
  same_account u v → us_email v = us_email u → 0 <= us_failed_login_count v →
  bound clean token_hash s u v name report d db = Ok (db', r) → login_effect name (db_users db) (db_users db').
Proof.
  intros Hok Hu Hn Hs Hm Hc. unfold bound. destruct (disabled v); [intros [= <- <-]; by apply write_effect; auto using own_mail_same|].
  intros (u' & -> & Hs' & Hm' & Hc')%success_effect. apply write_effect; try done; [by eapply same_account_trans| |lia].
  intros m E. rewrite Hm' in E. destruct (apply_profile_mail v (bp_display_name report) (bp_mail report) db Hok m E) as [H|H];
    [left; by rewrite <- Hm|right]. intros id w Hw Hne. apply (H id w Hw). by rewrite (proj1 Hs).
Qed.

(** A row in place of one with its id, or a new one, that shares no unique column with another. *)
Lemma users_ok_write users u : users_ok users → 0 <= us_failed_login_count u → (us_auth_source u = LDAP → us_hashed_password u = None) →
  (∀ id v name, users !! id = Some v → id ≠ us_id u → us_username u = Some name → us_username v ≠ Some name) →
  (∀ id v mail, users !! id = Some v → id ≠ us_id u → us_email u = Some mail → us_email v ≠ Some mail) →
  users_ok (<[us_id u := u]> users).
Proof.
  intros [Hi Hn Hm Hc Hl] Hcu Hlu Hnu Hmu. split.
  - intros id v [[<- <-]|[_ Hv]]%lookup_insert_Some; [done|by apply Hi].
  - intros i j v w name [[<- <-]|[Hne Hv]]%lookup_insert_Some [[<- <-]|[Hne' Hw]]%lookup_insert_Some Hv' Hw'; [done| | |by eapply Hn].
    + by destruct (Hnu _ _ _ Hw (not_eq_sym Hne') Hv').
    + by destruct (Hnu _ _ _ Hv (not_eq_sym Hne) Hw').
  - intros i j v w mail [[<- <-]|[Hne Hv]]%lookup_insert_Some [[<- <-]|[Hne' Hw]]%lookup_insert_Some Hv' Hw'; [done| | |by eapply Hm].
    + by destruct (Hmu _ _ _ Hw (not_eq_sym Hne') Hv').
    + by destruct (Hmu _ _ _ Hv (not_eq_sym Hne) Hw').
  - intros id v [[_ <-]|[_ Hv]]%lookup_insert_Some; [done|by eapply Hc].
  - intros id v [[_ <-]|[_ Hv]]%lookup_insert_Some; [done|by eapply Hl].
Qed.

(** A row written back keeps the constraints. *)
Lemma users_ok_update users u u' : users_ok users → users !! us_id u = Some u → us_id u' = us_id u → us_username u' = us_username u →
  own_mail users u u' → 0 <= us_failed_login_count u' → (us_auth_source u' = LDAP → us_hashed_password u' = None) →
  users_ok (<[us_id u := u']> users).
Proof.
  intros Hok Hu Hi Hn Hm Hc Hl. rewrite <- Hi. apply users_ok_write; try done; rewrite Hi.
  - intros id v name Hv Hne Hname Hv'. apply Hne. apply (ok_names _ Hok _ _ v u name); congruence.
  - intros id v mail Hv Hne Hmail Hv'. destruct (Hm mail Hmail) as [H|H]; [|by eapply H].
    apply Hne. by apply (ok_mails _ Hok _ _ v u mail).
Qed.

Lemma effect_ok name users users' : users_ok users → login_effect name users users' → users_ok users'.
Proof.
  intros Hok []; [done| |].
  - destruct H1 as (? & ? & Hs & Hp & _). apply users_ok_update; try done. rewrite Hs, Hp. by eapply ok_ldap.
  - destruct H3 as (Hi & Hn & Hs & Hp & _). rewrite <- Hi. apply users_ok_write; try done.
    + rewrite Hp, H2. done.
    + intros id v n Hv _ Hn'. rewrite Hn, H1 in Hn'. injection Hn' as <-. by eapply H0.
    + intros id v m Hv Hne Hm. destruct (H4 m Hm) as [Hm'|Hm']; [by rewrite H2 in Hm'|]. apply (Hm' id v Hv). by rewrite <- Hi.
Qed.

Lemma bound_new db db1 name id report d db' r : users_ok (db_users db) → db_users db !! id = None →
  (∀ i v, db_users db !! i = Some v → us_username v ≠ Some name) → db_users db1 = <[id := provisioned id name]> (db_users db) →
  bound clean token_hash s (provisioned id name) (provisioned id name) name report d db1 = Ok (db', r) →
  login_effect name (db_users db) (db_users db').
Proof.
  intros Hok Hi Hno H1 (u' & -> & Hs & Hm & Hc)%success_effect.
  assert (Hok1 : users_ok (db_users db1)).
  { rewrite H1. apply (users_ok_write _ (provisioned id name)); try done. intros i v n Hv _ [= <-]. by eapply Hno. }
  rewrite write_self; [|by rewrite H1; apply lookup_insert_eq|apply Hs|apply Hs].
  rewrite H1. cbn [us_id provisioned]. rewrite insert_insert_eq. eapply (le_new name (db_users db) (provisioned id name)); try done; [|lia].
  intros m E. right. intros i v Hv Hne. rewrite Hm in E.
  destruct (apply_profile_mail (provisioned id name) (bp_display_name report) (bp_mail report) db1 Hok1 m E) as [H|H]; [done|].
  apply (H i v); [|done]. by rewrite H1, lookup_insert_ne.
Qed.

Lemma directory_effect db name password d dir db' r : users_ok (db_users db) → ∀ user,
  (∀ u, user = Some u → db_users db !! us_id u = Some u ∧ us_username u = Some name) →
  (user = None → ∀ i v, db_users db !! i = Some v → us_username v ≠ Some name) →
  directory clean token_hash s user name password d dir db = Ok (db', r) → login_effect name (db_users db) (db_users db').
Proof.
  intros Hok user Hsome Hnone. unfold directory.
  assert (Hw : ∀ u, user = Some u → login_effect name (db_users db) (db_users (write_user u (clear_expired_lock u (dr_now d)) db))).
  { intros u ->. destruct (Hsome u eq_refl) as [Hu Hn]. destruct (clear_lock_same u (dr_now d)) as (Hs & Hm & Hc).
    apply write_effect; try done; [by apply own_mail_same|]. apply Hc. by eapply ok_counts. }
  destruct (match user with Some u => is_locked u (dr_now d) | None => false end); [intros [= <- <-]; apply le_same|].
  assert (Hwritten : ∀ action reason u, login_effect name (db_users db) (db_users (audit action name reason u
    match user with Some u => write_user u (clear_expired_lock u (dr_now d)) db | None => db end))).
  { intros. destruct user; [by apply Hw|apply le_same]. }
  destruct dir as [servers|]; [|intros [= <- <-]; apply Hwritten].
  destruct (bind_sync _ _) as [report|]; [|intros [= <- <-]; apply Hwritten].
  destruct (bp_bind_status report); [|destruct user as [u|]; [|intros [= <- <-]; apply le_same]|intros [= <- <-]; apply Hwritten].
  - destruct user as [u|].
    + destruct (Hsome u eq_refl) as [Hu Hn]. destruct (clear_lock_same u (dr_now d)) as (Hs & Hm & Hc).
      apply bound_effect; try done. apply Hc. by eapply ok_counts.
    + intros (db1 & Hi & Hb)%bind_ok. unfold insert_user in Hi. destruct (_ || _) eqn:Eo; [done|]. injection Hi as <-.
      apply orb_false_elim in Eo as [Eo _]. cbn [us_id provisioned] in Eo. destruct (db_users db !! dr_uuid d) eqn:Ed; [done|].
      by eapply bound_new; [done|exact Ed|by apply Hnone| |exact Hb].
  - destruct (Hsome u eq_refl) as [Hu Hn]. destruct (clear_lock_same u (dr_now d)) as (Hs & Hm & Hc).
    intros [= <- <-]. apply failure_effect; try done. apply Hc. by eapply ok_counts.
Qed.

(** An attempt touches at most the row of its name. *)
Lemma login_rows raw password d dir db : tables_ok db →
  db_users (sign_in raw password d dir db).1 = db_users db ∨
  ∃ name, normalize_username lower raw = Some name ∧ login_effect name (db_users db) (db_users (sign_in raw password d dir db).1).
Proof.
  intros Hok. unfold login. destruct (authenticate _ _ _ _ _ _ _ _ _ _) as [[db' r]|e] eqn:E; [|by left].
  assert (Hr : db_users db' = db_users db ∨ ∃ name, normalize_username lower raw = Some name ∧ login_effect name (db_users db) (db_users db')).
  2:{ by destruct r. }
  unfold authenticate in E. cbv zeta in E. destruct (normalize_username lower raw) as [name|]; [|injection E as <- <-; by left].
  right. exists name. split; [done|]. pose proof (cleaned_ok d db Hok) as Hok'. change (db_users db) with (db_users (cleaned d db)).
  assert (Hfound : ∀ u, find_user (named name) (cleaned d db) = Some u → db_users (cleaned d db) !! us_id u = Some u ∧ us_username u = Some name).
  { intros u. by apply find_named_inv. }
  assert (Hmissing : find_user (named name) (cleaned d db) = None → ∀ i v, db_users (cleaned d db) !! i = Some v → us_username v ≠ Some name).
  { intros Hf i v Hv. pose proof (proj1 (find_user_none _ _) Hf i v Hv) as Hp. by apply bool_decide_eq_false in Hp. }
  case_bool_decide as Ep.
  - unfold empty_password in E. destruct (find_user _ _) as [u|] eqn:Ef; [|injection E as <- <-; apply le_same].
    destruct (Hfound u eq_refl) as [Hu Hn]. destruct (is_locked u (dr_now d)); injection E as <- <-; [apply le_same|].
    apply failure_effect; try done; [apply Hok'|]. by eapply ok_counts; [apply Hok'|].
  - destruct (find_user _ _) as [u|] eqn:Ef.
    + destruct (Hfound u eq_refl) as [Hu Hn]. case_bool_decide; [by eapply local_effect; [apply Hok'|..|exact E]|].
      eapply directory_effect; [apply Hok'| | |exact E]; [by intros ? [= <-]|done].
    + eapply directory_effect; [apply Hok'| | |exact E]; [done|]. intros _. by apply Hmissing.
Qed.

(** ** Sessions *)

(** A reply that signs in, with the row and the session it leaves. *)
Definition signed_in (name : text) (d : Draws) (db db' : Database) (r : LoginResult) : Prop :=
  ∃ out u, r = SUCCESS (dr_token d) out ∧ lo_username out = name ∧ us_username u = Some name ∧ db_users db' !! us_id u = Some u ∧
    disabled u = false ∧ db_sessions db' = <[token_hash (dr_token d) := issued (us_id u) (dr_token d) (dr_now d)]> (db_sessions db).

Lemma success_signed_in db loaded u name d record db' r : db_users db !! us_id loaded = Some loaded → us_username loaded = Some name →
  same_account loaded u → disabled u = false → success token_hash s loaded u d record db = Ok (db', r) → signed_in name d db db' r.
Proof.
  intros Hu Hn Hsame Hd H. pose proof (success_effect _ _ _ _ _ _ _ H) as (u' & Hrows & Hs & _ & _). unfold success, issue_session in H.
  apply bind_ok in H as (db1 & Hi & [= <- <-]). destruct (is_some_b _); [done|]. injection Hi as <-.
  pose proof (same_account_trans _ _ _ Hsame Hs) as Hs'. eexists _, u'. split; [by destruct record|]. split_and!.
  - cbn [lo_username]. destruct Hsame as (_ & -> & _). by rewrite Hn.
  - destruct Hs' as (_ & -> & _). done.
  - rewrite Hrows, write_self by (done || apply Hs'). destruct Hs' as (-> & _). apply lookup_insert_eq.
  - unfold disabled in *. by destruct Hs as (_ & _ & _ & _ & _ & -> & -> & _).
  - destruct Hs as (-> & _). by destruct record.
Qed.

Lemma bound_signed_in db loaded u name report d db' r : db_users db !! us_id loaded = Some loaded → us_username loaded = Some name →
  same_account loaded u → bound clean token_hash s loaded u name report d db = Ok (db', r) →
  db_sessions db' = db_sessions db ∨ signed_in name d db db' r.
Proof.
  intros Hu Hn Hs. unfold bound. destruct (disabled u) eqn:Ed; [intros [= <- <-]; by left|]. intros H. right.
  by eapply success_signed_in; [exact Hu|exact Hn| | |exact H].
Qed.

(** An attempt issues a session only by signing in, and only for the account of its name. *)
Lemma authenticate_sessions raw password d dir db db' r : tables_ok db →
  authenticate lower clean checkpw token_hash s raw password d dir db = Ok (db', r) →
  db_sessions db' = db_sessions (cleaned d db) ∨ ∃ name, normalize_username lower raw = Some name ∧ signed_in name d (cleaned d db) db' r.
Proof.
  intros Hok E. unfold authenticate in E. cbv zeta in E. destruct (normalize_username lower raw) as [name|]; [|injection E as <- <-; by left].
  pose proof (cleaned_ok d db Hok) as Hok'. case_bool_decide as Ep.
  { unfold empty_password in E. destruct (find_user _ _) as [u|]; [|injection E as <- <-; by left].
    destruct (is_locked u (dr_now d)); injection E as <- <-; left; [done|apply count_failure_tables]. }
  assert (Hdir : ∀ user, find_user (named name) (cleaned d db) = user → directory clean token_hash s user name password d dir (cleaned d db) = Ok (db', r) →
    db_sessions db' = db_sessions (cleaned d db) ∨ signed_in name d (cleaned d db) db' r).
  { intros user Ef Hd. unfold directory in Hd. destruct (match user with Some u => is_locked u (dr_now d) | None => false end); [injection Hd as <- <-; by left|].
    destruct dir as [servers|]; [|injection Hd as <- <-; left; by destruct user].
    destruct (bind_sync _ _) as [report|]; [|injection Hd as <- <-; left; by destruct user].
    destruct (bp_bind_status report); [|destruct user as [u|]; injection Hd as <- <-; left; [apply count_failure_tables|done]|injection Hd as <- <-; left; by destruct user].
    destruct user as [u|].
    - destruct (find_named_inv _ _ _ Hok' Ef) as [Hu Hn]. eapply bound_signed_in; [exact Hu|exact Hn| |exact Hd]. apply clear_lock_same.
    - apply bind_ok in Hd as (db1 & Hi & Hb). unfold insert_user in Hi. destruct (_ || _); [done|]. injection Hi as <-.
      eapply bound_signed_in in Hb; [exact Hb| |done|done]. cbn. apply lookup_insert_eq. }
  assert (Hgoal : db_sessions db' = db_sessions (cleaned d db) ∨ signed_in name d (cleaned d db) db' r).
  2:{ destruct Hgoal; [by left|right; by exists name]. }
  destruct (find_user _ _) as [u|] eqn:Ef; [|by apply (Hdir None)]. case_bool_decide as El; [|by apply (Hdir (Some u))].
  destruct (find_named_inv _ _ _ Hok' Ef) as [Hu Hn]. unfold local in E. destruct (is_locked u (dr_now d)); [injection E as <- <-; by left|].
  destruct (negb _); [injection E as <- <-; left; apply count_failure_tables|]. destruct (disabled _) eqn:Ed; [injection E as <- <-; by left|].
  right. by eapply success_signed_in; [exact Hu|exact Hn|apply clear_lock_same| |exact E].
Qed.

Lemma login_sessions raw password d dir db db' r : tables_ok db → sign_in raw password d dir db = (db', r) → ∀ h row, db_sessions db' !! h = Some row →
  db_sessions db !! h = Some row ∨
  ∃ out u, r = Ok (dr_token d, out) ∧ h = token_hash (dr_token d) ∧ row = issued (us_id u) (dr_token d) (dr_now d) ∧
    us_username u = Some (lo_username out) ∧ db_users db' !! us_id u = Some u ∧ disabled u = false.
Proof.
  intros Hok Hl h row Hrow. unfold login in Hl. destruct (authenticate _ _ _ _ _ _ _ _ _ _) as [[db1 x]|e] eqn:E; [|injection Hl as <- <-; by left].
  assert (db1 = db') as -> by (destruct x; by injection Hl).
  destruct (authenticate_sessions _ _ _ _ _ _ _ Hok E) as [Hs|(name & _ & out & u & -> & Ho & Hn & Hu & Hd & Hs)]; rewrite Hs in Hrow.
  - left. by apply (cleaned_sessions d db).
  - apply lookup_insert_Some in Hrow as [[<- <-]|[_ Hrow]]; [|left; by apply (cleaned_sessions d db)].
    injection Hl as <-. right. exists out, u. by rewrite Ho.
Qed.

(** Every row that was there stays, as the same account. *)
Lemma effect_keeps name users users' id u : login_effect name users users' → users !! id = Some u → (∀ i v, users !! i = Some v → us_id v = i) →
  ∃ u', users' !! id = Some u' ∧ same_account u u' ∧ (us_username u ≠ Some name → u' = u).
Proof.
  intros He Hu Hid. destruct He as [|v v' Hv Hn Hs|v v' Hv _ Hn].
  - by exists u.
  - destruct (decide (id = us_id v)) as [->|Hne]; [|exists u; by rewrite lookup_insert_ne].
    rewrite Hu in Hv. injection Hv as ->. exists v'. by rewrite lookup_insert_eq.
  - exists u. rewrite lookup_insert_ne; [done|]. intros <-. congruence.
Qed.

Lemma login_tables_ok raw password d dir db : tables_ok db → tables_ok (sign_in raw password d dir db).1.
Proof.
  intros Hok. destruct (sign_in raw password d dir db) as [db' r] eqn:E. pose proof (login_rows raw password d dir db Hok) as Hr. rewrite E in Hr. cbn [fst] in *.
  assert (Hkeep : ∀ id, is_Some (db_users db !! id) → is_Some (db_users db' !! id)).
  { intros id [u Hu]. destruct Hr as [->|(name & _ & He)]; [by eexists|].
    destruct (effect_keeps _ _ _ _ _ He Hu (ok_ids _ (ok_users _ Hok))) as (u' & Hu' & _). by eexists. }
  split.
  - destruct Hr as [->|(name & _ & He)]; [apply Hok|]. eapply effect_ok; [apply Hok|exact He].
  - intros h row Hrow. destruct (login_sessions _ _ _ _ _ _ _ Hok E _ _ Hrow) as [H|(out & u & _ & -> & -> & _)]; [by eapply ok_tokens|done].
  - intros h row Hrow. destruct (login_sessions _ _ _ _ _ _ _ Hok E _ _ Hrow) as [H|(out & u & _ & _ & -> & _ & Hu & _)];
      [by eapply Hkeep, ok_owners|by eexists].
Qed.
End Theorems.

(** * How many passwords can be tried

    Attempts on one account one after the other, under the lock; and the same attempts when they
    overlap. *)


Record Attempt := { at_username : text; at_password : text; at_draws : Draws; at_directory : Directory }.

Section Guesses.
Context (lower clean : text → text) (checkpw : list N → text → option bool) (token_hash : text → text) (s : AuthSettings).

Local Abbreviation verify := (verify_password checkpw).
Local Abbreviation threshold := (st_login_lockout_threshold s).
Local Abbreviation minutes := (st_login_lockout_minutes s).
Local Abbreviation now_of a := (dr_now (at_draws a)).

Definition attempt (a : Attempt) (db : Database) : Database :=
  (login lower clean checkpw token_hash s (at_username a) (at_password a) (at_draws a) (at_directory a) db).1.

(** The answer to the attempt depends on the password of the account: it names it, the password is not
    empty, and the account is not locked. *)
Definition tests (id : uuid) (a : Attempt) (db : Database) : bool :=
  match db_users db !! id with
  | Some u => bool_decide (normalize_username lower (at_username a) = us_username u) && negb (bool_decide (at_password a = [])) &&
              negb (is_locked u (now_of a))
  | None => false
  end.

Fixpoint guesses (id : uuid) (attempts : list Attempt) (db : Database) : Z :=
  match attempts with
  | [] => 0
  | a :: rest => (if tests id a db then 1 else 0) + guesses id rest (attempt a db)
  end.

(** What a wrong attempt leaves of the row. *)
Definition after (a : Attempt) (u : User) : User :=
  if bool_decide (normalize_username lower (at_username a) = us_username u) then
    if is_locked u (now_of a) then u
    else (apply_failure (if bool_decide (at_password a = []) then u else clear_expired_lock u (now_of a)) (now_of a) threshold minutes).1
  else u.

(** A password that is wrong for the account, or an attempt on another. *)
Definition wrong (name : text) (hashed : option text) (a : Attempt) : Prop :=
  normalize_username lower (at_username a) = Some name → verify (at_password a) hashed = false.

Lemma count_failure_row loaded u actor now reason db : db_users db !! us_id loaded = Some loaded → same_account loaded u →
  db_users (count_failure s loaded u actor now reason db) !! us_id loaded = Some (apply_failure u now threshold minutes).1.
Proof.
  intros Hu Hs. rewrite (proj1 (count_failure_tables s loaded u actor now reason db)).
  destruct (apply_failure_same u now threshold minutes) as (Hs' & _). pose proof (same_account_trans _ _ _ Hs Hs') as Hs''.
  rewrite write_self by (done || apply Hs''). apply lookup_insert_eq.
Qed.

Lemma attempt_row a db u name : tables_ok db → db_users db !! us_id u = Some u → us_auth_source u = LOCAL → us_username u = Some name →
  wrong name (us_hashed_password u) a → db_users (attempt a db) !! us_id u = Some (after a u).
Proof.
  intros Hok Hu Hl Hn Hw. unfold attempt, after. rewrite Hn. unfold wrong in Hw.
  destruct (decide (normalize_username lower (at_username a) = Some name)) as [E|E]; [rewrite (bool_decide_eq_true_2 _ E)|rewrite (bool_decide_eq_false_2 _ E)].
  2:{ destruct (login_rows lower clean checkpw token_hash s (at_username a) (at_password a) (at_draws a) (at_directory a) db Hok) as [->|(n & En & He)]; [done|].
      destruct (effect_keeps _ _ _ _ _ He Hu (ok_ids _ (ok_users _ Hok))) as (u' & Hu' & _ & Hsame). rewrite Hu', Hsame; [done|]. congruence. }
  unfold login, authenticate. cbv zeta. rewrite E, (find_named _ name u (cleaned_ok s (at_draws a) db Hok) Hu Hn).
  destruct (decide (at_password a = [])) as [Ep|Ep]; [rewrite (bool_decide_eq_true_2 _ Ep)|rewrite (bool_decide_eq_false_2 _ Ep)].
  - unfold empty_password. destruct (is_locked u (now_of a)); cbn [fst]; [done|]. by apply count_failure_row.
  - rewrite bool_decide_eq_true_2 by exact Hl. unfold local. destruct (is_locked u (now_of a)); [done|].
    destruct (clear_lock_row u (now_of a)) as (_ & _ & _ & -> & _). rewrite Hw by done. cbn [negb fst refused].
    apply count_failure_row; [done|]. apply clear_lock_same.
Qed.

Lemma after_same a u : same_account u (after a u).
Proof.
  unfold after. case_bool_decide; [|done]. destruct (is_locked _ _); [done|]. eapply same_account_trans; [|apply apply_failure_same].
  case_bool_decide; [done|]. apply clear_lock_same.
Qed.

(** ** The budget of guesses left until [t1] *)

Section Budget.
Context (t1 : instant) (Hthreshold : 1 <= threshold) (Hminutes : 1 <= minutes).

Definition periods (t : instant) : Z := if t1 <? t then 0 else threshold * ((t1 - t) / td_minutes minutes + 1).

Definition budget (u : User) (t : instant) : Z :=
  match us_locked_until u with
  | Some lu => periods (Z.max t lu)
  | None => periods t - Z.min (us_failed_login_count u) (threshold - 1)
  end.

Lemma lock_positive : 0 < td_minutes minutes.
Proof. unfold td_minutes, us_per_second. lia. Qed.

Lemma periods_nonneg t : 0 <= periods t.
Proof using Hthreshold Hminutes.
  unfold periods. pose proof lock_positive. destruct (Z.ltb_spec t1 t); [done|]. pose proof (Z.div_pos (t1 - t) (td_minutes minutes)). nia.
Qed.

Lemma periods_mono t t' : t <= t' → periods t' <= periods t.
Proof using Hthreshold Hminutes.
  intros Hle. pose proof (periods_nonneg t). unfold periods in *. pose proof lock_positive. destruct (Z.ltb_spec t1 t'); [done|].
  destruct (Z.ltb_spec t1 t); [lia|]. pose proof (Z.div_le_mono (t1 - t') (t1 - t) (td_minutes minutes)). nia.
Qed.

(** After a lock there is one period less. *)
Lemma periods_lock t : t <= t1 → periods (t + td_minutes minutes) + threshold <= periods t.
Proof using Hthreshold Hminutes.
  intros Hle. unfold periods. pose proof lock_positive. destruct (Z.ltb_spec t1 t); [lia|].
  destruct (Z.ltb_spec t1 (t + td_minutes minutes)).
  - pose proof (Z.div_pos (t1 - t) (td_minutes minutes)). nia.
  - replace (t1 - t) with (t1 - (t + td_minutes minutes) + 1 * td_minutes minutes) by lia. rewrite Z.div_add by lia. lia.
Qed.

Lemma budget_mono u t t' : t <= t' → budget u t' <= budget u t.
Proof using Hthreshold Hminutes.
  intros Hle. unfold budget. destruct (us_locked_until u) as [lu|].
  - apply periods_mono. lia.
  - pose proof (periods_mono t t' Hle). lia.
Qed.

Lemma budget_step a u : now_of a <= t1 → 0 <= us_failed_login_count u →
  (if bool_decide (normalize_username lower (at_username a) = us_username u) && negb (bool_decide (at_password a = [])) &&
      negb (is_locked u (now_of a)) then 1 else 0) + budget (after a u) (now_of a) <= budget u (now_of a).
Proof using Hthreshold Hminutes.
  intros Hle Hc. unfold after. case_bool_decide as En; [|cbn [andb]; lia]. cbn [andb].
  unfold is_locked. pose proof (periods_lock (now_of a) Hle) as Hlock.
  destruct (us_locked_until u) as [lu|] eqn:El.
  - destruct (Z.ltb_spec (now_of a) lu) as [Hlt|Hge]; [rewrite andb_false_r; lia|]. rewrite andb_true_r.
    case_bool_decide as Ep; cbn [negb].
    + unfold apply_failure. destruct (Z.leb_spec threshold (us_failed_login_count u + 1)); unfold budget; cbn [fst us_locked_until set_counters us_failed_login_count]; rewrite El.
      * rewrite Z.max_r, Z.max_l by (pose proof lock_positive; lia). lia.
      * lia.
    + unfold clear_expired_lock. rewrite El, (proj2 (Z.leb_le lu (now_of a))) by lia. unfold apply_failure. cbn [us_failed_login_count set_counters us_locked_until].
      unfold budget. rewrite El. rewrite (Z.max_l (now_of a) lu) by lia.
      destruct (Z.leb_spec threshold (0 + 1)); cbn [fst us_locked_until set_counters us_failed_login_count].
      * rewrite Z.max_r by (pose proof lock_positive; lia). lia.
      * lia.
  - rewrite andb_true_r. unfold clear_expired_lock. rewrite El. replace (if bool_decide (at_password a = []) then u else u) with u by by case_bool_decide.
    unfold apply_failure. destruct (Z.leb_spec threshold (us_failed_login_count u + 1)); unfold budget; cbn [fst us_locked_until set_counters us_failed_login_count]; rewrite El.
    + rewrite Z.max_r by (pose proof lock_positive; lia). case_bool_decide; cbn [negb]; lia.
    + case_bool_decide; cbn [negb]; lia.
Qed.
End Budget.

Lemma guesses_budget t1 name attempts : 1 <= threshold → 1 <= minutes → ∀ db u t, tables_ok db → db_users db !! us_id u = Some u → us_auth_source u = LOCAL →
  us_username u = Some name → Forall (wrong name (us_hashed_password u)) attempts → StronglySorted Z.le (t :: ((λ a, now_of a) <$> attempts)) →
  Forall (λ a, now_of a <= t1) attempts → t <= t1 → guesses (us_id u) attempts db <= budget t1 u t.
Proof.
  intros Hth Hmin. induction attempts as [|a attempts IH]; intros db u t Hok Hu Hl Hn Hw Hs Hle Ht; cbn [guesses].
  - unfold budget. destruct (us_locked_until u); [by apply periods_nonneg|]. pose proof (ok_counts _ (ok_users _ Hok) _ _ Hu).
    unfold periods. destruct (Z.ltb_spec t1 t); [lia|]. pose proof (Z.div_pos (t1 - t) (td_minutes minutes)). pose proof lock_positive Hmin. nia.
  - apply Forall_cons in Hw as [Hwa Hw]. apply Forall_cons in Hle as [Ha Hle].
    rewrite fmap_cons in Hs. apply StronglySorted_inv in Hs as [Hs Hta]. apply Forall_cons in Hta as [Hta _].
    pose proof (attempt_row a db u name Hok Hu Hl Hn Hwa) as Hrow. destruct (after_same a u) as (Ei & En & Es & Eh & _).
    pose proof (ok_counts _ (ok_users _ Hok) _ _ Hu) as Hc.
    specialize (IH (attempt a db) (after a u) (now_of a)). rewrite Ei in IH.
    assert (Hrest : guesses (us_id u) attempts (attempt a db) <= budget t1 (after a u) (now_of a)).
    { apply IH; try done; try congruence; by apply login_tables_ok. }
    pose proof (budget_step t1 Hth Hmin a u Ha Hc) as Hstep. pose proof (budget_mono t1 Hth Hmin u t (now_of a) Hta) as Hmono.
    unfold tests. rewrite Hu. lia.
Qed.


(** ** What the lock misses *)

(** After a lock has run out, a wrong password starts a new count, but an empty one is counted on
    top of the old failures and locks the account at once. *)
Theorem empty_password_relocks a db u name lu : tables_ok db → db_users db !! us_id u = Some u → us_auth_source u = LOCAL →
  us_username u = Some name → normalize_username lower (at_username a) = Some name → us_locked_until u = Some lu → lu <= now_of a →
  1 < threshold <= us_failed_login_count u → verify (at_password a) (us_hashed_password u) = false →
  db_users (attempt a db) !! us_id u =
    Some (if bool_decide (at_password a = []) then set_counters (us_failed_login_count u + 1) (Some (now_of a + td_minutes minutes)) u
          else set_counters 1 None u).
Proof.
  intros Hok Hu Hl Hn En El Hlu Hc Hv. rewrite (attempt_row a db u name) by (done || by intros _). unfold after. rewrite Hn, En, bool_decide_eq_true_2 by done.
  unfold is_locked, clear_expired_lock, apply_failure. rewrite El, (proj2 (Z.ltb_ge (now_of a) lu)), (proj2 (Z.leb_le lu (now_of a))) by lia.
  case_bool_decide; cbn.
  - by rewrite (proj2 (Z.leb_le _ _)) by lia.
  - by rewrite (proj2 (Z.leb_gt _ _)) by lia.
Qed.

(** A request that read the row [u] before the ones it overlaps with had written. *)
Definition overlapping (u : User) (db : Database) (a : Attempt) : Database :=
  match local checkpw token_hash s u (at_password a) (at_draws a) db with Ok (db', _) => db' | Err _ => db end.

Lemma flush_again u u' : us_id u' = us_id u → us_username u' = us_username u → flush_user u u' u' = u'.
Proof.
  assert (Hcol : ∀ {A} `{EqDecision A} (x y : A), flush_col x y y = y) by (intros; unfold flush_col; by destruct (decide _)).
  destruct u, u'; cbn. intros -> ->. unfold flush_user. cbn. by rewrite !Hcol.
Qed.

(** However many wrong passwords are tried on an account by requests that overlap, they count as
    one failure, and the account is not locked. *)
Theorem overlapping_guesses_count_once attempts db u : attempts ≠ [] → db_users db !! us_id u = Some u → us_locked_until u = None →
  us_failed_login_count u + 1 < threshold → Forall (λ a, verify (at_password a) (us_hashed_password u) = false) attempts →
  db_users (foldl (overlapping u) db attempts) !! us_id u = Some (set_counters (us_failed_login_count u + 1) None u).
Proof.
  intros Hne Hu Hl Hc Hw. set (u' := set_counters (us_failed_login_count u + 1) None u).
  assert (Hone : ∀ a db row, verify (at_password a) (us_hashed_password u) = false → db_users db !! us_id u = Some row →
    flush_user u u' row = u' → db_users (overlapping u db a) !! us_id u = Some u').
  { intros a db0 row Hv Hrow Hf. unfold overlapping, local, is_locked, clear_expired_lock. rewrite Hl, Hv. cbn [negb].
    rewrite (proj1 (count_failure_tables s _ _ _ _ _ _)). unfold apply_failure. rewrite Hl, (proj2 (Z.leb_gt _ _)) by lia. cbn.
    rewrite lookup_alter_eq, Hrow. cbn [fmap option_fmap option_map]. f_equal. exact Hf. }
  destruct attempts as [|a attempts]; [done|]. apply Forall_cons in Hw as [Hv Hw]. cbn [foldl].
  assert (H1 : db_users (overlapping u db a) !! us_id u = Some u') by (eapply Hone; [done|exact Hu|by apply flush_self]).
  clear Hne. revert H1. generalize (overlapping u db a). induction Hw as [|b attempts Hvb _ IH]; intros db0 H0; [done|]. cbn [foldl].
  apply IH. eapply Hone; [done|exact H0|by apply flush_again].
Qed.
End Guesses.
