(* ===== verification/UserAdmin.v ===== *)
(** * Account administration

    [services/user_admin.py] with the routes of [api/routes/users.py], the break-glass command of
    [cli/users.py], and the requests of the whole sign-in system as a sequence of operations on the
    tables. *)

From S2P Require Import Prelude PyStr PyTime Accounts SignIn.

(** ** Who counts as an administrator *)

Definition holds_admin (db : Database) (u : User) : bool := existsb (λ r, bool_decide (PERM_ADMIN ∈ ro_permissions r)) (roles_of db u).

(** [not user.hashed_password] *)
Definition passwordless (u : User) : bool := match us_hashed_password u with None | Some [] => true | _ => false end.

Definition actionable (u : User) : bool :=
  if disabled u then false
  else if nameless u then false
  else negb (bool_decide (us_auth_source u = LOCAL) && passwordless u).

(** [_keep_last_admin] *)
Definition keep_last_admin (db : Database) (target : User) (target_keeps_admin : bool) : result unit :=
  if negb (actionable target) || negb (holds_admin db target) || target_keeps_admin then Ok tt
  else
    let remaining := filter (λ u, negb (us_id u =? us_id target)%N && actionable u && holds_admin db u = true) (snd <$> map_to_list (db_users db)) in
    raise_if (bool_decide (remaining = []))
      (HTTPException 409 [ascii_text "the last active user holding admin:* cannot be disabled or lose that role"]).

(** [_locked]: the row, held until the transaction ends. *)
Definition locked (db : Database) (user_id : uuid) : result User :=
  match db_users db !! user_id with Some u => Ok u | None => Err (HTTPException 404 [ascii_text "No user has that id."]) end.

(** [list(dict.fromkeys(names))] *)
Fixpoint distinct (names : list text) : list text :=
  match names with [] => [] | n :: rest => n :: filter (λ m, m ≠ n) (distinct rest) end.

(** [_roles]: the names, each of which must be a role. *)
Definition known_roles (db : Database) (names : list text) : result (list text) :=
  let ordered := distinct names in
  let missing := filter (λ n, n ∉ ro_name <$> db_roles db) ordered in
  _ <- raise_if (negb (bool_decide (missing = []))) (HTTPException 422 ((λ n, ascii_text "unknown role: " ++ n)%list <$> missing)) ;;
  Ok ordered.

(** [_email] *)
Definition check_email (value : option text) : result (option text) :=
  let unusable := HTTPException 422 [ascii_text "email is not usable"] in
  match value with
  | None => Ok None
  | Some v =>
      let email := strip v in
      if bool_decide (email = []) then Ok None
      else if Nat.ltb 255 (length email) || existsb (λ c, (c <? 32)%N || is_space c) email then Err unusable
      else match split_text AT email with
           | [local; domain] => if bool_decide (local = []) || bool_decide (domain = []) then Err unusable else Ok (Some email)
           | _ => Err unusable
           end
  end.

(** [_reject_duplicates] *)
Definition reject_duplicates (db : Database) (username : text) (email : option text) : result unit :=
  _ <- raise_if (is_some_b (find_user (named username) db)) (HTTPException 409 [ascii_text "A user with that username already exists."]) ;;
  match email with
  | None => Ok tt
  | Some _ => raise_if (is_some_b (find_user (λ u, bool_decide (us_email u = email)) db))
                (HTTPException 409 [ascii_text "A user with that email already exists."])
  end.

(** [_wrote] *)
Definition wrote (actor : Principal) (action : string) (u : User) (db : Database) : Database :=
  let name := match pr_username actor with Some (c :: rest) => c :: rest | _ => pr_subject actor end in
  record_audit action (Some name) (pr_user_id actor) (Some (us_id u)) "SUCCESS" "" db.

Record UserCreate := {
  uc_username : text; uc_auth_source : AuthSource; uc_password : option text; uc_email : option text;
  uc_display_name : option text; uc_roles : list text }.

Section UserAdmin.
Context (lower casefold clean : text → text) (checkpw : list N → text → option bool) (hashpw : list N → text → text)
        (token_hash : text → text) (s : AuthSettings).

(** What a new account's source and password give: the hash, and whether it must be changed. *)
Definition first_password (body : UserCreate) (name salt : text) : result (option text * bool) :=
  match uc_auth_source body, uc_password body with
  | LDAP, (None | Some []) => Ok (None, false)
  | LDAP, Some _ => Err (HTTPException 422 [ascii_text "An LDAP user has no password here."])
  | LOCAL, (None | Some []) => Err (HTTPException 422 [ascii_text "A local user needs an initial password."])
  | LOCAL, Some password =>
      let reasons := password_policy_reasons casefold password name in
      if negb (bool_decide (reasons = [])) then Err (HTTPException 422 reasons)
      else hashed <- hash_password hashpw password salt ;; Ok (Some hashed, true)
  end.

(** [create_user] *)
Definition create_user (actor : Principal) (body : UserCreate) (d : Draws) (db : Database) : result (Database * User) :=
  match normalize_username lower (uc_username body) with
  | None => Err (HTTPException 422 [ascii_text "username must be 1 to 255 characters without spaces or control characters"])
  | Some name =>
      address <- check_email (uc_email body) ;;
      roles <- known_roles db (uc_roles body) ;;
      first <- first_password body name (dr_salt d) ;;
      _ <- reject_duplicates db name address ;;
      let u := {| us_id := dr_uuid d; us_email := address; us_display_name := clean_display clean (uc_display_name body);
                  us_username := Some name; us_auth_source := uc_auth_source body; us_hashed_password := first.1;
                  us_is_active := true; us_must_change_password := first.2; us_failed_login_count := 0; us_locked_until := None;
                  us_disabled_at := None; us_last_login_at := None; us_roles := roles |} in
      match insert_user u db with
      | Err _ => Err (HTTPException 409 [ascii_text "A user with that username or email already exists."])
      | Ok db => Ok (wrote actor "user.create" u db, u)
      end
  end.

(** Whether a set of roles grants [admin:*]. *)
Definition grants_admin (db : Database) (roles : list text) : bool :=
  existsb (λ r, bool_decide (ro_name r ∈ roles) && bool_decide (PERM_ADMIN ∈ ro_permissions r)) (db_roles db).

(** The writes below are applied to the row as it is when they are flushed. *)

(** [set_roles] *)
Definition set_roles (actor : Principal) (user_id : uuid) (names : list text) (db : Database) : result (Database * User) :=
  user <- locked db user_id ;;
  roles <- known_roles db names ;;
  _ <- keep_last_admin db user (grants_admin db roles) ;;
  let u := set_role_names roles user in
  Ok (wrote actor "user.roles.update" u (write_user user u db), u).

Definition disabled_user (disable : bool) (now : instant) (u : User) : User :=
  if disable then set_disabled_at (Some now) false u else set_disabled_at None true u.

(** What [set_disabled] writes, after its checks. *)
Definition write_disabled (actor : Principal) (user : User) (disable : bool) (now : instant) (db : Database) : Database * User :=
  let u := disabled_user disable now user in
  let db := write_user user u db in
  let db := if disable then revoke_user_sessions (us_id u) db else db in
  (wrote actor (if disable then "user.disable" else "user.enable") u db, u).

(** [set_disabled] *)
Definition set_disabled (actor : Principal) (user_id : uuid) (disable : bool) (now : instant) (db : Database) : result (Database * User) :=
  user <- locked db user_id ;;
  _ <- (if disable then keep_last_admin db user false else Ok tt) ;;
  Ok (write_disabled actor user disable now db).

(** [unlock_user] *)
Definition unlock_user (actor : Principal) (user_id : uuid) (db : Database) : result (Database * User) :=
  user <- locked db user_id ;;
  let u := set_counters 0 None user in
  Ok (wrote actor "user.unlock" u (write_user user u db), u).

(** [reset_password] *)
Definition reset_password (actor : Principal) (user_id : uuid) (password : text) (d : Draws) (db : Database) : result (Database * User) :=
  user <- locked db user_id ;;
  if negb (bool_decide (us_auth_source user = LOCAL)) || nameless user then
    Err (HTTPException 422 [ascii_text "Only a local account can have its password reset here."])
  else
    let reasons := password_policy_reasons casefold password (default [] (us_username user)) in
    if negb (bool_decide (reasons = [])) then Err (HTTPException 422 reasons)
    else
      hashed <- hash_password hashpw password (dr_salt d) ;;
      let u := set_counters 0 None (set_password (us_auth_source user) (Some hashed) true user) in
      Ok (wrote actor "user.password.reset" u (revoke_user_sessions (us_id u) (write_user user u db)), u).

(** ** The default roles ([services/seed.py]) *)

Definition ANALYST_PERMISSIONS : list text := ascii_text <$>
  ["read:*"; "search:execute"; "alert:ack"; "alert:resolve"; "log_source:write"; "rule:write"; "coverage:write"; "dashboard:write"].

Definition ROLES : list Role :=
  [{| ro_name := ascii_text "admin"; ro_permissions := ascii_text <$>
        ["admin:*"; "search:execute"; "search:write"; "alert:ack"; "alert:resolve"; "log_source:write"; "rule:write";
         "coverage:write"; "admin:classification"] |};
   {| ro_name := ascii_text "analyst"; ro_permissions := ANALYST_PERMISSIONS |};
   {| ro_name := ascii_text "viewer"; ro_permissions := [ascii_text "read:*"] |};
   {| ro_name := ascii_text "detection_engineer";
      ro_permissions := ANALYST_PERMISSIONS ++ (ascii_text <$> ["search:write"; "custom_rule:write"; "property_watch:write"]) |}].

(** One default role: created, or given the permissions it is missing. *)
Definition ensure_role (roles : list Role) (r : Role) : list Role :=
  if existsb (λ x, bool_decide (ro_name x = ro_name r)) roles then
    (λ x, if bool_decide (ro_name x = ro_name r) then
            {| ro_name := ro_name x; ro_permissions := ro_permissions x ++ filter (λ p, p ∉ ro_permissions x) (ro_permissions r) |}
          else x) <$> roles
  else roles ++ [r].

(** [ensure_default_roles] *)
Definition ensure_default_roles (db : Database) : Database :=
  {| db_users := db_users db; db_sessions := db_sessions db; db_roles := foldl ensure_role (db_roles db) ROLES; db_audit := db_audit db |}.

(** ** The break-glass command *)

Definition ADMIN_ROLE : text := ascii_text "admin".

(** [User(username=username, display_name=username, roles=[])]: the rest are the columns' defaults. *)
Definition blank_user (id : uuid) (username : text) : User :=
  {| us_id := id; us_email := None; us_display_name := Some username; us_username := Some username; us_auth_source := LOCAL;
     us_hashed_password := None; us_is_active := true; us_must_change_password := false; us_failed_login_count := 0;
     us_locked_until := None; us_disabled_at := None; us_last_login_at := None; us_roles := [] |}.

Definition broken_glass (hashed : text) (u : User) : User :=
  set_role_names (if bool_decide (ADMIN_ROLE ∈ us_roles u) then us_roles u else us_roles u ++ [ADMIN_ROLE])
    (set_counters 0 None (set_disabled_at None true (set_password LOCAL (Some hashed) true u))).

(** [_create_admin] with the password generated; what it raises, [main] prints. *)
Definition create_admin (raw_username password : text) (d : Draws) (db : Database) : result (Database * User) :=
  match normalize_username lower raw_username with
  | None => Err (ValueError "username must be 1 to 255 characters without spaces or control characters")
  | Some username =>
      let db := ensure_default_roles db in
      match find (λ r, bool_decide (ro_name r = ADMIN_ROLE)) (db_roles db) with
      | Some r =>
          if negb (bool_decide (PERM_ADMIN ∈ ro_permissions r)) then Err (ValueError "the admin role does not grant admin:*")
          else
            hashed <- hash_password hashpw password (dr_salt d) ;;
            r <- (match find_user (named username) db with
                  | Some user => let u := broken_glass hashed user in Ok (write_user user u db, u)
                  | None => let u := broken_glass hashed (blank_user (dr_uuid d) username) in db <- insert_user u db ;; Ok (db, u)
                  end) ;;
            let '(db, u) := r in
            Ok (record_audit "user.break_glass" (Some username) (Some (us_id u)) (Some (us_id u)) "SUCCESS" ""
                  (revoke_user_sessions (us_id u) db), u)
      | None => Err (ValueError "the admin role does not grant admin:*")
      end
  end.

(** ** The whole system *)

(** What an authenticated request asks for. [OTHER] is any route that leaves these tables alone. *)
Inductive Action :=
| OTHER
| LOGOUT
| PASSWORD (current_password new_password : text)
| CREATE (body : UserCreate)
| SET_ROLES (user_id : uuid) (names : list text)
| DISABLE (user_id : uuid) (disable : bool)
| UNLOCK (user_id : uuid)
| RESET (user_id : uuid) (password : text).

Inductive Op :=
| LOGIN (username password : text) (d : Draws) (dir : Directory)
| API (rq : Request) (d : Draws) (action : Action)
| BREAK_GLASS (username password : text) (d : Draws).

Inductive Reply := COOKIE (token : text) (out : LoginOut) | DONE | USER (u : User).

Definition requires_admin (action : Action) : bool := match action with OTHER | LOGOUT | PASSWORD _ _ => false | _ => true end.

(** The handler of a route, in the transaction of the request. *)
Definition act (rq : Request) (d : Draws) (p : Principal) (action : Action) (db : Database) : Database * result Reply :=
  let admin h := transaction db (match h with Ok (db', u) => (db', Ok (USER u)) | Err e => (db, Err e) end) in
  match action with
  | OTHER => (db, Ok DONE)
  | LOGOUT => (logout token_hash rq p db, Ok DONE)
  | PASSWORD current_password new_password =>
      let r := change_password casefold checkpw hashpw token_hash s p current_password new_password d db in
      (r.1, res_map (λ c : text * LoginOut, COOKIE c.1 c.2) r.2)
  | CREATE body => admin (create_user p body d db)
  | SET_ROLES user_id names => admin (set_roles p user_id names db)
  | DISABLE user_id disable => admin (set_disabled p user_id disable (dr_now d) db)
  | UNLOCK user_id => admin (unlock_user p user_id db)
  | RESET user_id password => admin (reset_password p user_id password d db)
  end.

(** A request: sign-in, or the principal first, then its permission, then the handler. *)
Definition run_op (op : Op) (db : Database) : Database * result Reply :=
  match op with
  | LOGIN username password d dir =>
      let r := login lower clean checkpw token_hash s username password d dir db in
      (r.1, res_map (λ c : text * LoginOut, COOKIE c.1 c.2) r.2)
  | API rq d action =>
      match get_principal lower token_hash s rq db with
      | (db, Err e) => (db, Err e)
      | (db, Ok p) =>
          match (if requires_admin action then require_permission p PERM_USER_ADMIN else Ok tt) with
          | Err e => (db, Err e)
          | Ok _ => act rq d p action db
          end
      end
  | BREAK_GLASS username password d =>
      match create_admin username password d db with Ok (db', u) => (db', Ok (USER u)) | Err e => (db, Err e) end
  end.

Definition run_ops (ops : list Op) (db : Database) : Database := foldl (λ db op, (run_op op db).1) db ops.
End UserAdmin.
