(* ===== verification/AccountTheorems.v ===== *)
(** * Accounts over time

    Any sequence of sign-ins, requests and break-glass commands: the constraints of the tables, where
    a session comes from and what ends it, who may change an account, and the last administrator. *)

From S2P Require Import Prelude PyStr PyTime Accounts SignIn SignInTheorems UserAdmin.

(** ** Rows *)

(** A row written back, or a new one, that shares no unique column with another. *)
Inductive rows_effect (users : gmap uuid User) : gmap uuid User → Prop :=
| re_same : rows_effect users users
| re_update u u' : users !! us_id u = Some u → us_id u' = us_id u → us_username u' = us_username u → own_mail users u u' →
    0 <= us_failed_login_count u' → (us_auth_source u' = LDAP → us_hashed_password u' = None) → rows_effect users (<[us_id u := u']> users)
| re_new u : users !! us_id u = None → 0 <= us_failed_login_count u → (us_auth_source u = LDAP → us_hashed_password u = None) →
    (∀ id v name, users !! id = Some v → us_username u = Some name → us_username v ≠ Some name) →
    (∀ id v mail, users !! id = Some v → us_email u = Some mail → us_email v ≠ Some mail) → rows_effect users (<[us_id u := u]> users).

Lemma rows_effect_ok users users' : users_ok users → rows_effect users users' → users_ok users'.
Proof.
  intros Hok []; [done|by apply users_ok_update|]. apply users_ok_write; try done; [intros i v n Hv _; by eapply H2|intros i v m Hv _; by eapply H3].
Qed.

Lemma rows_effect_keeps users users' id u : rows_effect users users' → users !! id = Some u →
  ∃ u', users' !! id = Some u' ∧ us_username u' = us_username u.
Proof.
  intros He Hu. destruct He as [|v v' Hv Hi Hn|v Hv].
  - by exists u.
  - destruct (decide (id = us_id v)) as [->|Hne]; [|exists u; by rewrite lookup_insert_ne]. rewrite Hu in Hv. injection Hv as ->.
    exists v'. by rewrite lookup_insert_eq.
  - exists u. rewrite lookup_insert_ne; [done|]. intros <-. congruence.
Qed.

Lemma login_rows_effect name users users' : users_ok users → login_effect name users users' → rows_effect users users'.
Proof.
  intros Hok [|u u' Hu Hn Hs Hm Hc|u u' Hu Hno Hn Hp Hs Hm Hc]; [apply re_same| |].
  - pose proof Hs as (Hi & Hname & Hsrc & Hh & _). apply re_update; try done. rewrite Hsrc, Hh. by eapply ok_ldap.
  - pose proof Hs as (Hi & Hname & Hsrc & Hh & _). rewrite <- Hi in Hu |- *. apply re_new; try done.
    + rewrite Hh, Hp. done.
    + intros i v n Hv Hn'. rewrite Hname, Hn in Hn'. injection Hn' as <-. by eapply Hno.
    + intros i v m Hv Hm'. destruct (Hm m Hm') as [H|H]; [by rewrite Hp in H|]. apply (H i v Hv). rewrite <- Hi. intros ->. congruence.
Qed.

Lemma locked_row db id u : users_ok (db_users db) → locked db id = Ok u → db_users db !! us_id u = Some u ∧ us_id u = id.
Proof. intros Hok. unfold locked. destruct (db_users db !! id) as [v|] eqn:E; [|done]. intros [= ->]. by rewrite (ok_ids _ Hok _ _ E). Qed.

(** An object written back over its own row. *)
Lemma write_rows db u u' : users_ok (db_users db) → db_users db !! us_id u = Some u → us_id u' = us_id u → us_username u' = us_username u →
  us_email u' = us_email u → 0 <= us_failed_login_count u' → (us_auth_source u' = LDAP → us_hashed_password u' = None) →
  rows_effect (db_users db) (db_users (write_user u u' db)).
Proof. intros Hok Hu Hi Hn Hm Hc Hl. rewrite write_self by done. apply re_update; try done. by apply own_mail_same. Qed.

Lemma insert_user_rows db u db' : insert_user u db = Ok db' → 0 <= us_failed_login_count u → (us_auth_source u = LDAP → us_hashed_password u = None) →
  rows_effect (db_users db) (db_users db') ∧ db_users db' = <[us_id u := u]> (db_users db) ∧ db_sessions db' = db_sessions db ∧ db_roles db' = db_roles db.
Proof.
  unfold insert_user. destruct (_ || _) eqn:E; [done|]. intros [= <-] Hc Hl. split; [|done]. apply orb_false_elim in E as [E1 E2].
  destruct (db_users db !! us_id u) eqn:Eu; [done|]. destruct (find_user _ _) eqn:Ef; [done|]. cbn. apply re_new; try done.
  - intros i v n Hv Hn Hn'. pose proof (proj1 (find_user_none _ _) Ef i v Hv) as Hp. apply orb_false_elim in Hp as [Hp _].
    rewrite Hn in Hp. cbn in Hp. rewrite Hn' in Hp. by rewrite bool_decide_eq_true_2 in Hp.
  - intros i v m Hv Hm Hm'. pose proof (proj1 (find_user_none _ _) Ef i v Hv) as Hp. apply orb_false_elim in Hp as [_ Hp].
    rewrite Hm in Hp. cbn in Hp. rewrite Hm' in Hp. by rewrite bool_decide_eq_true_2 in Hp.
Qed.

Section System.
Context (lower casefold clean : text → text) (checkpw : list N → text → option bool) (hashpw : list N → text → text)
        (token_hash : text → text) (s : AuthSettings).

Local Abbreviation run := (run_op lower casefold clean checkpw hashpw token_hash s).

(** ** The principal of a request *)

(** A session between two requests: only its last use moves. *)
Definition same_session (row row' : AuthSession) : Prop :=
  as_token_hash row' = as_token_hash row ∧ as_user_id row' = as_user_id row ∧ as_created_at row' = as_created_at row ∧
  as_expires_at row' = as_expires_at row.

Lemma same_session_refl row : same_session row row.
Proof. done. Qed.

Lemma touch_sessions row now db h row' : db_sessions (touch_last_seen row now db) !! h = Some row' →
  ∃ row0, db_sessions db !! h = Some row0 ∧ same_session row0 row'.
Proof.
  unfold touch_last_seen. destruct (_ <=? _); [|by eexists]. cbn. destruct (decide (h = as_token_hash row)) as [->|Hne].
  - rewrite lookup_alter_eq. intros (row0 & H0 & ->)%fmap_Some. by exists row0.
  - rewrite lookup_alter_ne by done. by eexists.
Qed.

Lemma touch_rest row now db : db_users (touch_last_seen row now db) = db_users db ∧ db_roles (touch_last_seen row now db) = db_roles db.
Proof. unfold touch_last_seen. by destruct (_ <=? _). Qed.

(** The session a request is made under. *)
Definition live_session (rq : Request) (db : Database) (u : User) (row : AuthSession) : Prop :=
  ∃ t, rq_cookie rq = Some t ∧ t ≠ [] ∧ (length t <= 512)%nat ∧ db_sessions db !! token_hash t = Some row ∧
    rq_now rq < as_expires_at row ∧ rq_now rq < as_created_at row + td_hours (st_session_max_hours s) ∧
    rq_now rq - as_last_seen_at row < td_minutes (st_session_idle_minutes s) ∧
    db_users db !! as_user_id row = Some u ∧ us_disabled_at u = None ∧ us_is_active u = true.

Lemma principal_from_cookie_exact rq db u row : (principal_from_cookie token_hash s (rq_cookie rq) (rq_now rq) db).2 = Ok (u, row) ↔
  live_session rq db u row.
Proof.
  unfold principal_from_cookie, usable_cookie, live_session. destruct (rq_cookie rq) as [t|]; [|split; [done|by intros (? & ? & _)]].
  destruct (decide (t = [])) as [->|Ht]; [rewrite bool_decide_eq_true_2 by done; split; [done|by intros (? & [= <-] & ? & _)]|].
  rewrite bool_decide_eq_false_2 by done. cbn [orb]. destruct (Nat.ltb_spec MAX_COOKIE (length t)) as [Hlen|Hlen];
    [split; [done|intros (? & [= <-] & _ & Hle & _); unfold MAX_COOKIE in Hlen; lia]|].
  destruct (db_sessions db !! token_hash t) as [r|] eqn:Er; [|split; [done|by intros (? & [= <-] & _ & _ & ? & _); congruence]].
  unfold session_expired. destruct (Z.leb_spec (as_expires_at r) (rq_now rq)); [split; [done|intros (? & [= <-] & _ & _ & ? & ? & _); simplify_eq; lia]|].
  destruct (Z.leb_spec (as_created_at r + td_hours (st_session_max_hours s)) (rq_now rq));
    [split; [done|intros (? & [= <-] & _ & _ & ? & _ & ? & _); simplify_eq; lia]|].
  destruct (Z.leb_spec (td_minutes (st_session_idle_minutes s)) (rq_now rq - as_last_seen_at r));
    [split; [done|intros (? & [= <-] & _ & _ & ? & _ & _ & ? & _); simplify_eq; lia]|].
  destruct (db_users db !! as_user_id r) as [v|] eqn:Ev; [|split; [done|intros (? & [= <-] & _ & _ & ? & _ & _ & _ & ? & _); congruence]].
  unfold disabled. destruct (us_disabled_at v) eqn:Ed; [|destruct (us_is_active v) eqn:Ea]; cbn [is_some_b orb negb snd].
  - split; [done|]. intros (? & [= <-] & _ & _ & ? & _ & _ & _ & ? & ? & _). congruence.
  - split.
    + intros [= <- <-]. exists t. split_and!; done.
    + intros (? & [= <-] & _ & _ & ? & _ & _ & _ & ? & _). congruence.
  - split; [done|]. intros (? & [= <-] & _ & _ & ? & _ & _ & _ & ? & _ & ?). congruence.
Qed.

Lemma principal_for_roles db db' u : db_roles db' = db_roles db → principal_for db' u = principal_for db u.
Proof. intros E. unfold principal_for, role_names, roles_of. by rewrite E. Qed.

Lemma session_principal_cases rq db db' r : session_principal token_hash s rq db = (db', r) →
  (∃ u row, live_session rq db u row ∧ (us_must_change_password u = true → allowed_while_password_must_change s rq = true) ∧
     r = Ok (principal_for db u) ∧ db' = touch_last_seen row (rq_touch rq) db) ∨
  (db' = db ∧ (∀ u row, live_session rq db u row → us_must_change_password u = true ∧ allowed_while_password_must_change s rq = false) ∧
     ∃ e, r = Err e ∧ (e = unauthorized "Authentication required." ∨
                       e = HTTPException 403 [ascii_text "A password change is required before any other request."] ∧ ∃ u row, live_session rq db u row)).
Proof.
  unfold session_principal. pose proof (principal_from_cookie_exact rq db) as Hex.
  destruct (principal_from_cookie token_hash s (rq_cookie rq) (rq_now rq) db) as [db1 [[u row]|e]] eqn:Ep; cbn [snd] in Hex.
  - pose proof (proj1 (Hex u row) eq_refl) as Hlive. assert (db1 = db) as ->.
    { unfold principal_from_cookie in Ep. repeat (case_match; try (by injection Ep)). }
    destruct (us_must_change_password u && negb (allowed_while_password_must_change s rq)) eqn:Em; cbn [transaction].
    + apply andb_prop in Em as [Em Ea]. apply negb_true_iff in Ea. intros [= <- <-]. right. split_and!; [done| |].
      * intros v row' Hv. apply Hex in Hv. by injection Hv as <- <-.
      * eexists. split; [done|]. right. split; [done|by exists u, row].
    + intros [= <- <-]. left. exists u, row. split_and!; try done.
      * intros Hm. rewrite Hm in Em. cbn in Em. by apply negb_false_iff in Em.
      * f_equal. apply principal_for_roles, touch_rest.
  - assert (e = AuthenticationRequired) as ->.
    { unfold principal_from_cookie in Ep. repeat (case_match; try (by injection Ep)). }
    cbn [transaction]. intros [= <- <-]. right. split_and!; [done| |eexists; split; [done|by left]].
    intros u row Hv. apply Hex in Hv. done.
Qed.

(** C16: A request is let through exactly under a session that is known, younger than its lifetime and
    the current limit, used within the idle time, and of an account that is enabled; and, while its
    password must change, for the three routes that allow it. Its permissions are those of the roles at
    that moment, and only the last use of the session is written. A refused request writes nothing:
    the row of a dead session stays. *)
Theorem request_exact rq db db' r : session_principal token_hash s rq db = (db', r) →
  ((∃ p, r = Ok p) ↔ ∃ u row, live_session rq db u row ∧ (us_must_change_password u = true → allowed_while_password_must_change s rq = true)) ∧
  (∀ p, r = Ok p → ∃ u row, live_session rq db u row ∧ p = principal_for db u ∧ db' = touch_last_seen row (rq_touch rq) db) ∧
  (∀ e, r = Err e → db' = db).
Proof.
  intros [(u & row & Hlive & Hm & -> & ->)|(-> & Hno & e & -> & _)]%session_principal_cases; split_and!.
  - split; [intros _; by exists u, row|by eexists].
  - intros p [= <-]. by exists u, row.
  - done.
  - split; [by intros [? ?]|]. intros (u & row & Hlive & Hm). destruct (Hno u row Hlive) as [H1 H2]. rewrite Hm in H2; done.
  - done.
  - done.
Qed.

(** ** What one operation does *)

Lemma principal_tables rq db db1 r : get_principal lower token_hash s rq db = (db1, r) →
  db_users db1 = db_users db ∧ db_roles db1 = db_roles db ∧
  ∀ h row', db_sessions db1 !! h = Some row' → ∃ row, db_sessions db !! h = Some row ∧ same_session row row'.
Proof.
  unfold get_principal. assert (Hsame : ∀ h row', db_sessions db !! h = Some row' → ∃ row, db_sessions db !! h = Some row ∧ same_session row row').
  { intros h row' H. by exists row'. }
  destruct (session_cookies_enforced s); [case_bool_decide; [by intros [= <- <-]|]|by case_bool_decide; intros [= <- <-]].
  intros [(u & row & _ & _ & _ & ->)|(-> & _)]%session_principal_cases; [|done].
  destruct (touch_rest row (rq_touch rq) db) as [-> ->]. split_and!; [done|done|]. intros h row'. apply touch_sessions.
Qed.

(** The sessions of a user are gone. *)
Definition revoked (id : uuid) (db db' : Database) : Prop :=
  db_sessions db' = filter (λ row : text * AuthSession, as_user_id row.2 ≠ id) (db_sessions db).

Lemma known_roles_ok db names roles : known_roles db names = Ok roles → roles = distinct names ∧ ∀ n, n ∈ roles → n ∈ ro_name <$> db_roles db.
Proof.
  unfold known_roles. intros ([] & Hm & [= <-])%bind_ok. split; [done|]. intros n Hn. apply raise_if_ok, negb_false_iff, bool_decide_eq_true in Hm.
  destruct (decide (n ∈ ro_name <$> db_roles db)) as [|Hno]; [done|].
  assert (Hin : n ∈ filter (λ n, n ∉ ro_name <$> db_roles db) (distinct names)) by by apply list_elem_of_filter. rewrite Hm in Hin. by apply elem_of_nil in Hin.
Qed.

Lemma create_user_effect p body d db db' u : create_user lower casefold clean hashpw p body d db = Ok (db', u) →
  rows_effect (db_users db) (db_users db') ∧ db_users db' = <[us_id u := u]> (db_users db) ∧ db_users db !! us_id u = None ∧
  db_sessions db' = db_sessions db ∧ db_roles db' = db_roles db.
Proof.
  unfold create_user. destruct (normalize_username _ _) as [name|]; [|done].
  intros (address & _ & (roles & _ & (first & Hf & (_ & _ & H)%bind_ok)%bind_ok)%bind_ok)%bind_ok.
  destruct (insert_user _ db) as [db1|] eqn:Ei; [|done]. injection H as <- <-. pose proof Ei as Ei'. unfold insert_user in Ei'.
  destruct (_ || _) eqn:Eo; [done|]. apply orb_false_elim in Eo as [Eo _].
  apply insert_user_rows in Ei as (Hr & Hu & Hs & Hro); [|done|].
  - split_and!; try done. by destruct (db_users db !! _).
  - cbn. intros Hl. unfold first_password in Hf. rewrite Hl in Hf. destruct (uc_password body) as [[|c pw]|]; [|done|]; by injection Hf as <-.
Qed.

Lemma set_roles_effect p id names db db' u : users_ok (db_users db) → set_roles p id names db = Ok (db', u) →
  ∃ v, db_users db !! us_id v = Some v ∧ us_id v = id ∧ u = set_role_names (distinct names) v ∧ db_users db' = <[us_id v := u]> (db_users db) ∧
    keep_last_admin db v (grants_admin db (distinct names)) = Ok tt ∧ db_sessions db' = db_sessions db ∧ db_roles db' = db_roles db.
Proof.
  intros Hok. unfold set_roles. intros (v & Hv & (roles & Hr & ([] & Hk & [= <- <-])%bind_ok)%bind_ok)%bind_ok.
  apply known_roles_ok in Hr as [-> _]. apply locked_row in Hv as [Hv Hid]; [|done]. exists v. split_and!; try done. apply (write_self db v); done.
Qed.

Lemma set_disabled_effect p id disable now db db' u : users_ok (db_users db) → set_disabled p id disable now db = Ok (db', u) →
  ∃ v, db_users db !! us_id v = Some v ∧ us_id v = id ∧ u = disabled_user disable now v ∧ db_users db' = <[us_id v := u]> (db_users db) ∧
    (disable = true → keep_last_admin db v false = Ok tt ∧ revoked id db db') ∧ (disable = false → db_sessions db' = db_sessions db) ∧
    db_roles db' = db_roles db.
Proof.
  intros Hok. unfold set_disabled. intros (v & Hv & ([] & Hk & [= <- <-])%bind_ok)%bind_ok.
  apply locked_row in Hv as [Hv Hid]; [|done]. exists v. destruct disable; split_and!; try done; try (by apply (write_self db v)).
  split; [done|]. unfold revoked. by rewrite <- Hid.
Qed.

Lemma unlock_user_effect p id db db' u : users_ok (db_users db) → unlock_user p id db = Ok (db', u) →
  ∃ v, db_users db !! us_id v = Some v ∧ us_id v = id ∧ u = set_counters 0 None v ∧ db_users db' = <[us_id v := u]> (db_users db) ∧
    db_sessions db' = db_sessions db ∧ db_roles db' = db_roles db.
Proof.
  intros Hok. unfold unlock_user. intros (v & Hv & [= <- <-])%bind_ok.
  apply locked_row in Hv as [Hv Hid]; [|done]. exists v. split_and!; try done. by apply (write_self db v).
Qed.

Lemma reset_password_effect p id password d db db' u : users_ok (db_users db) → reset_password casefold hashpw p id password d db = Ok (db', u) →
  ∃ v, db_users db !! us_id v = Some v ∧ us_id v = id ∧ us_auth_source v = LOCAL ∧
    u = set_counters 0 None (set_password LOCAL (Some (hashpw (encode_utf8 password) (dr_salt d))) true v) ∧
    db_users db' = <[us_id v := u]> (db_users db) ∧ revoked id db db' ∧ db_roles db' = db_roles db.
Proof.
  intros Hok. unfold reset_password. intros (v & Hv & H)%bind_ok. destruct (negb _ || _) eqn:Ec; [done|]. cbv zeta in H.
  match type of H with (if ?c then _ else _) = _ => destruct c; [done|] end.
  apply bind_ok in H as (hashed & Hh & [= <- <-]). unfold hash_password in Hh. apply bind_ok in Hh as (_ & _ & [= <-]).
  apply orb_false_elim in Ec as [Ec _]. apply negb_false_iff, bool_decide_eq_true in Ec.
  apply locked_row in Hv as [Hv Hid]; [|done]. exists v. rewrite Ec. split_and!; try done; [by apply (write_self db v)|].
  unfold revoked. by rewrite <- Hid.
Qed.

Lemma change_own_password_effect v current new d db db' r : users_ok (db_users db) → db_users db !! us_id v = Some v →
  change_own_password casefold checkpw hashpw token_hash s v current new d db = Ok (db', r) →
  ∃ u out name, r = SUCCESS (dr_token d) out ∧ us_username v = Some name ∧ lo_username out = name ∧ us_auth_source v = LOCAL ∧
    verify_password checkpw current (us_hashed_password v) = true ∧ password_policy_reasons casefold new name = [] ∧
    u = set_counters 0 None (set_password LOCAL (Some (hashpw (encode_utf8 new) (dr_salt d))) false v) ∧
    db_users db' = <[us_id v := u]> (db_users db) ∧ db_roles db' = db_roles db ∧
    db_sessions db' = <[token_hash (dr_token d) := issued token_hash s (us_id v) (dr_token d) (dr_now d)]>
      (filter (λ row : text * AuthSession, as_user_id row.2 ≠ us_id v) (db_sessions db)).
Proof.
  intros Hok Hv. unfold change_own_password. destruct (negb _ || nameless v) eqn:Ec; [done|]. destruct (negb (verify_password _ _ _)) eqn:Ev; [done|].
  cbv zeta. intros H. match type of H with (if ?c then _ else _) = _ => destruct c eqn:Er; [done|] end. apply bind_ok in H as (hashed & Hh & Hs). unfold hash_password in Hh. apply bind_ok in Hh as (_ & _ & [= <-]).
  apply orb_false_elim in Ec as [Ec En]. apply negb_false_iff, bool_decide_eq_true in Ec. apply negb_false_iff in Ev. apply negb_false_iff, bool_decide_eq_true in Er.
  unfold nameless in En. destruct (us_username v) as [name|] eqn:Ename; [|done].
  unfold success, issue_session in Hs. apply bind_ok in Hs as (db1 & Hi & [= <- <-]). destruct (is_some_b _); [done|]. injection Hi as <-.
  rewrite Ec. eexists _, _, name. split_and!; try done.
  - cbn [lo_username us_username set_counters set_password]. by rewrite Ename.
  - cbn [db_users with_sessions with_users record_audit revoke_user_sessions write_user]. 
    set (u := set_password LOCAL _ false v). apply map_eq. intros i. destruct (decide (i = us_id v)) as [->|Hne].
    + change (us_id u) with (us_id v). rewrite lookup_alter_eq, lookup_alter_eq, Hv, lookup_insert_eq. cbn [fmap option_fmap option_map].
      f_equal. rewrite (flush_self v u) by done. by apply flush_self.
    + change (us_id u) with (us_id v). by rewrite !lookup_alter_ne, lookup_insert_ne by done.
Qed.

Lemma normalized_nonempty raw name : normalize_username lower raw = Some name → name ≠ [].
Proof. unfold normalize_username. destruct (existsb _ raw); [done|]. cbv zeta. case_bool_decide; [done|]. by destruct (_ || _); [|intros [= <-]]. Qed.

Lemma create_admin_effect raw password d db db' u : users_ok (db_users db) → create_admin lower hashpw raw password d db = Ok (db', u) →
  ∃ name v, normalize_username lower raw = Some name ∧ us_username v = Some name ∧
    u = broken_glass (hashpw (encode_utf8 password) (dr_salt d)) v ∧ (db_users db !! us_id v = Some v ∨ v = blank_user (dr_uuid d) name) ∧
    rows_effect (db_users db) (db_users db') ∧ db_users db' = <[us_id v := u]> (db_users db) ∧ revoked (us_id v) db db' ∧
    db_roles db' = db_roles (ensure_default_roles db) ∧
    ∃ r, r ∈ db_roles db' ∧ ro_name r = ADMIN_ROLE ∧ PERM_ADMIN ∈ ro_permissions r.
Proof.
  intros Hok. unfold create_admin. destruct (normalize_username lower raw) as [name|] eqn:En; [|done]. cbv zeta.
  set (db0 := ensure_default_roles db). destruct (find _ (db_roles db0)) as [r|] eqn:Ef; [|done].
  destruct (negb _) eqn:Ea; [done|]. apply negb_false_iff, bool_decide_eq_true in Ea. apply find_some in Ef as [Hr Hrn]. apply bool_decide_eq_true in Hrn.
  apply list_elem_of_In in Hr. intros (hashed & Hh & (x & Hx & H)%bind_ok)%bind_ok. unfold hash_password in Hh. apply bind_ok in Hh as ([] & _ & [= <-]).
  destruct (find_user (named name) db0) as [v|] eqn:Efu.
  - injection Hx as <-. injection H as <- <-. apply find_user_some in Efu as (id & Hv & Hnv). apply bool_decide_eq_true in Hnv.
    rewrite <- (ok_ids _ Hok _ _ Hv) in Hv. exists name, v. split_and!; try done; [by left| | |by exists r].
    + apply (write_rows db0); try done.
    + by apply (write_self db0).
  - apply bind_ok in Hx as (db1 & Hi & [= <-]). injection H as <- <-. apply insert_user_rows in Hi as (He & Hu & Hs & Hro); [|done|done].
    exists name, (blank_user (dr_uuid d) name). split_and!; try done; [by right|by unfold revoked; cbn; rewrite Hs|].
    exists r. cbn. by rewrite Hro.
Qed.

(** ** The constraints *)

Lemma revoked_sub id db db' h row : revoked id db db' → db_sessions db' !! h = Some row → db_sessions db !! h = Some row ∧ as_user_id row ≠ id.
Proof. intros -> [H1 H2]%map_lookup_filter_Some. done. Qed.

Lemma act_rows rq d p action db : users_ok (db_users db) →
  rows_effect (db_users db) (db_users (act lower casefold clean checkpw hashpw token_hash s rq d p action db).1).
Proof.
  intros Hok. destruct action as [| |current new|body|id names|id disable|id|id password]; cbn [act fst]; try apply re_same.
  - unfold logout. cbn. unfold delete_by_token. destruct (usable_cookie _); apply re_same.
  - unfold change_password. destruct (pr_user_id p) as [id|]; [|apply re_same]. destruct (bool_decide _); [|apply re_same].
    destruct (db_users db !! id) as [v|] eqn:Ev; [|apply re_same]. destruct (disabled v); [apply re_same|].
    destruct (change_own_password _ _ _ _ _ _ _ _ _ _) as [[db' r]|e] eqn:Ec; [|apply re_same].
    rewrite <- (ok_ids _ Hok _ _ Ev) in Ev. apply change_own_password_effect in Ec as (u & out & name & -> & Hn & Ho & _ & _ & _ & -> & Hu & _); [|done|done].
    cbn. rewrite Hu. apply re_update; try done; by apply own_mail_same.
  - destruct (create_user _ _ _ _ _ _ _ _) as [[db' u]|e] eqn:E; [|apply re_same]. by apply create_user_effect in E as (He & _).
  - destruct (set_roles _ _ _ _) as [[db' u]|e] eqn:E; [|apply re_same]. apply set_roles_effect in E as (v & Hv & _ & -> & Hu & _); [|done].
    cbn. rewrite Hu. apply re_update; try done; solve [by apply own_mail_same|exact (ok_counts _ Hok _ _ Hv)|exact (ok_ldap _ Hok _ _ Hv)].
  - destruct (set_disabled _ _ _ _ _) as [[db' u]|e] eqn:E; [|apply re_same]. apply set_disabled_effect in E as (v & Hv & _ & -> & Hu & _); [|done].
    cbn. rewrite Hu. destruct disable; (apply re_update; try done; solve [by apply own_mail_same|exact (ok_counts _ Hok _ _ Hv)|exact (ok_ldap _ Hok _ _ Hv)]).
  - destruct (unlock_user _ _ _) as [[db' u]|e] eqn:E; [|apply re_same]. apply unlock_user_effect in E as (v & Hv & _ & -> & Hu & _); [|done].
    cbn. rewrite Hu. apply re_update; try done; solve [by apply own_mail_same|exact (ok_ldap _ Hok _ _ Hv)].
  - destruct (reset_password _ _ _ _ _ _ _) as [[db' u]|e] eqn:E; [|apply re_same]. apply reset_password_effect in E as (v & Hv & _ & Hl & -> & Hu & _); [|done].
    cbn. rewrite Hu. apply re_update; try done; by apply own_mail_same.
Qed.

Lemma run_rows op db : tables_ok db → rows_effect (db_users db) (db_users (run op db).1).
Proof.
  intros Hok. destruct op as [username password d dir|rq d action|username password d]; cbn [run_op fst].
  - destruct (login_rows lower clean checkpw token_hash s username password d dir db Hok) as [->|(name & _ & He)]; [apply re_same|].
    eapply login_rows_effect; [apply Hok|exact He].
  - destruct (get_principal _ _ _ _ _) as [db1 [p|e]] eqn:Ep; apply principal_tables in Ep as (Hu & _); [|rewrite <- Hu; apply re_same].
    destruct (if requires_admin action then _ else _); [|rewrite <- Hu; apply re_same]. rewrite <- Hu. apply act_rows. rewrite Hu. apply Hok.
  - destruct (create_admin _ _ _ _ _ _) as [[db' u]|e] eqn:E; [|apply re_same].
    apply create_admin_effect in E as (name & v & _ & _ & _ & _ & He & _); [exact He|apply Hok].
Qed.

(** ** Sessions over time *)

(** The sessions an operation may issue: by a sign-in or a new password. *)
Definition issues (op : Op) (r : result Reply) (db' : Database) (h : text) (row : AuthSession) : Prop :=
  ∃ d out u, r = Ok (COOKIE (dr_token d) out) ∧ h = token_hash (dr_token d) ∧ row = issued token_hash s (us_id u) (dr_token d) (dr_now d) ∧
    us_username u = Some (lo_username out) ∧ db_users db' !! us_id u = Some u ∧
    match op with LOGIN _ _ d' _ => d' = d | API _ d' (PASSWORD _ _) => d' = d | _ => False end.

(** What ends a session of the user [id], named [name]. *)
Definition ends (h : text) (id : uuid) (name : text) (op : Op) (r : result Reply) : Prop :=
  match op, r with
  | API rq _ LOGOUT, Ok _ => ∃ t, usable_cookie (rq_cookie rq) = Some t ∧ token_hash t = h
  | API _ _ (PASSWORD _ _), Ok (COOKIE _ out) => lo_username out = name
  | API _ _ (DISABLE id' true), Ok _ => id' = id
  | API _ _ (RESET id' _), Ok _ => id' = id
  | BREAK_GLASS _ _ _, Ok (USER u) => us_id u = id
  | _, _ => False
  end.

Lemma act_sessions rq d p action db db' r : tables_ok db → act lower casefold clean checkpw hashpw token_hash s rq d p action db = (db', r) →
  ∀ h row, db_sessions db' !! h = Some row →
  issues (API rq d action) r db' h row ∨
  db_sessions db !! h = Some row ∧
    ∀ u name, db_users db !! as_user_id row = Some u → us_username u = Some name → ¬ ends h (as_user_id row) name (API rq d action) r.
Proof.
  intros Hok Hact h row Hrow. destruct action as [| |current new|body|id names|id disable|id|id password]; cbn [act] in Hact.
  - injection Hact as <- <-. right. split; [done|]. by intros u name _ _ [].
  - injection Hact as <- <-. right. unfold logout, delete_by_token in Hrow. cbn [ends]. cbn [record_audit db_sessions] in Hrow.
    destruct (usable_cookie (rq_cookie rq)) as [t|]; [|split; [done|by intros u name _ _ (t & ? & _)]].
    cbn in Hrow. apply lookup_delete_Some in Hrow as [Hne Hrow]. split; [done|]. intros u name _ _ (t' & [= <-] & ?). congruence.
  - unfold change_password in Hact. assert (Hsame : (db', r) = (db, r) → (∀ c, r ≠ Ok c) → issues (API rq d (PASSWORD current new)) r db' h row ∨
      db_sessions db !! h = Some row ∧ ∀ u name, db_users db !! as_user_id row = Some u → us_username u = Some name →
        ¬ ends h (as_user_id row) name (API rq d (PASSWORD current new)) r).
    { intros [= ->] Hr. right. split; [done|]. intros u name _ _. cbn. destruct r as [c|]; [by destruct (Hr c)|by intros []]. }
    destruct (pr_user_id p) as [id|]; [|injection Hact as <- <-; by apply Hsame]. destruct (bool_decide _) in Hact; [|injection Hact as <- <-; by apply Hsame].
    destruct (db_users db !! id) as [v|] eqn:Ev; [|injection Hact as <- <-; by apply Hsame].
    destruct (disabled v); [injection Hact as <- <-; by apply Hsame|].
    destruct (change_own_password _ _ _ _ _ _ _ _ _ _) as [[db1 x]|e] eqn:Ec; [|injection Hact as <- <-; by apply Hsame].
    rewrite <- (ok_ids _ (ok_users _ Hok) _ _ Ev) in Ev.
    apply change_own_password_effect in Ec as (u & out & name & -> & Hn & Ho & _ & _ & _ & -> & Hu & _ & Hs); [|apply Hok|done].
    cbn in Hact. injection Hact as <- <-. rewrite Hs in Hrow. apply lookup_insert_Some in Hrow as [[<- <-]|[Hne Hrow]].
    + left. exists d, out, (set_counters 0 None (set_password LOCAL (Some (hashpw (encode_utf8 new) (dr_salt d))) false v)).
      split_and!; try done; [by rewrite Ho|]. rewrite Hu. apply lookup_insert_eq.
    + right. apply map_lookup_filter_Some in Hrow as [Hrow Hid]. cbn in Hid. split; [done|]. intros w nm Hw Hnm. cbn. rewrite Ho. intros ->.
      apply Hid. rewrite <- (ok_ids _ (ok_users _ Hok) _ _ Hw). by apply (ok_names _ (ok_users _ Hok) _ _ w v nm); rewrite ?(ok_ids _ (ok_users _ Hok) _ _ Hw).
  - right. destruct (create_user _ _ _ _ _ _ _ _) as [[db1 u]|e] eqn:E; injection Hact as <- <-; [|by split; [|intros ? ? _ _ []]].
    apply create_user_effect in E as (_ & _ & _ & Hs & _). rewrite Hs in Hrow. split; [done|by intros ? ? _ _ []].
  - right. destruct (set_roles _ _ _ _) as [[db1 u]|e] eqn:E; injection Hact as <- <-; [|by split; [|intros ? ? _ _ []]].
    apply set_roles_effect in E as (v & _ & _ & _ & _ & _ & Hs & _); [|apply Hok]. rewrite Hs in Hrow. split; [done|by intros ? ? _ _ []].
  - right. destruct (set_disabled _ _ _ _ _) as [[db1 u]|e] eqn:E; injection Hact as <- <-; [|split; [done|]; by destruct disable; intros ? ? _ _ []].
    apply set_disabled_effect in E as (v & _ & Hid & _ & _ & Hd & He & _); [|apply Hok]. destruct disable.
    + destruct (Hd eq_refl) as [_ Hrev]. destruct (revoked_sub _ _ _ _ _ Hrev Hrow) as [H1 H2]. split; [done|]. intros w nm _ _ Hend. cbn in Hend. by apply H2.
    + rewrite (He eq_refl) in Hrow. split; [done|by intros ? ? _ _ []].
  - right. destruct (unlock_user _ _ _) as [[db1 u]|e] eqn:E; injection Hact as <- <-; [|by split; [|intros ? ? _ _ []]].
    apply unlock_user_effect in E as (v & _ & _ & _ & _ & Hs & _); [|apply Hok]. rewrite Hs in Hrow. split; [done|by intros ? ? _ _ []].
  - right. destruct (reset_password _ _ _ _ _ _ _) as [[db1 u]|e] eqn:E; injection Hact as <- <-; [|by split; [|intros ? ? _ _ []]].
    apply reset_password_effect in E as (v & _ & Hid & _ & _ & _ & Hrev & _); [|apply Hok].
    destruct (revoked_sub _ _ _ _ _ Hrev Hrow) as [H1 H2]. split; [done|]. intros w nm _ _ Hend. cbn in Hend. by apply H2.
Qed.

Lemma run_sessions op db db' r : tables_ok db → run op db = (db', r) → ∀ h row', db_sessions db' !! h = Some row' →
  issues op r db' h row' ∨
  ∃ row, db_sessions db !! h = Some row ∧ same_session row row' ∧
    ∀ u name, db_users db !! as_user_id row' = Some u → us_username u = Some name → ¬ ends h (as_user_id row') name op r.
Proof.
  intros Hok Hrun h row' Hrow. destruct op as [username password d dir|rq d action|username password d]; cbn [run_op] in Hrun.
  - destruct (login _ _ _ _ _ _ _ _ _ _) as [db1 x] eqn:El. cbn [fst snd] in Hrun. injection Hrun as <- <-.
    destruct (login_sessions _ _ _ _ _ _ _ _ _ _ _ _ Hok El h row' Hrow) as [H|(out & u & -> & -> & -> & Hn & Hu & _)].
    + right. exists row'. split_and!; [done|done|]. intros u name _ _ [].
    + left. by exists d, out, u.
  - destruct (get_principal _ _ _ _ _) as [db1 [p|e]] eqn:Ep; apply principal_tables in Ep as (Hu & Hro & Hs).
    2:{ injection Hrun as <- <-. right. destruct (Hs h row' Hrow) as (row & H1 & H2). exists row. split_and!; [done|done|].
        intros u name _ _. cbn. by destruct action as [| | | | |? []| |]; intros []. }
    assert (Hok1 : tables_ok db1).
    { split; [rewrite Hu; apply Hok| |]; intros h' row1 Hr1; destruct (Hs _ _ Hr1) as (row0 & H0 & (Ht & Hi & _)).
      - rewrite Ht. by eapply ok_tokens.
      - rewrite Hi, Hu. by eapply ok_owners. }
    destruct (if requires_admin action then _ else _) as [x|e].
    2:{ injection Hrun as <- <-. right. destruct (Hs h row' Hrow) as (row & H1 & H2). exists row. split_and!; [done|done|].
        intros u name _ _. cbn. by destruct action as [| | | | |? []| |]; intros []. }
    destruct (act_sessions _ _ _ _ _ _ _ Hok1 Hrun h row' Hrow) as [H|[H1 H2]]; [by left|right].
    destruct (Hs _ _ H1) as (row & H0 & Hsame). exists row. split_and!; [done|done|]. by rewrite <- Hu.
  - destruct (create_admin _ _ _ _ _ _) as [[db1 u]|e] eqn:Ec; injection Hrun as <- <-.
    2:{ right. exists row'. split_and!; [done|done|]. by intros ? ? _ _ []. }
    apply create_admin_effect in Ec as (name & v & _ & _ & -> & _ & _ & _ & Hrev & _); [|apply Hok].
    destruct (revoked_sub _ _ _ _ _ Hrev Hrow) as [H1 H2]. right. exists row'. split_and!; [done|done|]. intros w nm _ _ Hend. cbn in Hend. by apply H2.
Qed.

Lemma run_tables_ok op db : tables_ok db → tables_ok (run op db).1.
Proof.
  intros Hok. destruct (run op db) as [db' r] eqn:E. pose proof (run_rows op db Hok) as Hr. rewrite E in Hr. cbn [fst] in *. split.
  - eapply rows_effect_ok; [apply Hok|exact Hr].
  - intros h row Hrow. destruct (run_sessions _ _ _ _ Hok E _ _ Hrow) as [(d & out & u & _ & -> & -> & _)|(row0 & H0 & (-> & _) & _)]; [done|by eapply ok_tokens].
  - intros h row Hrow. destruct (run_sessions _ _ _ _ Hok E _ _ Hrow) as [(d & out & u & _ & -> & -> & _ & Hu & _)|(row0 & H0 & (_ & -> & _) & _)].
    + by eexists.
    + destruct (ok_owners _ Hok _ _ H0) as [u Hu]. destruct (rows_effect_keeps _ _ _ _ Hr Hu) as (u' & Hu' & _). by eexists.
Qed.

Local Abbreviation runs := (run_ops lower casefold clean checkpw hashpw token_hash s).

Lemma runs_snoc ops op db : runs (ops ++ [op]) db = (run op (runs ops db)).1.
Proof. unfold run_ops. by rewrite foldl_app. Qed.

Lemma runs_tables_ok ops db : tables_ok db → tables_ok (runs ops db).
Proof. intros Hok. induction ops as [|op ops IH] using rev_ind; [done|]. rewrite runs_snoc. by apply run_tables_ok. Qed.

(** Where a session comes from: the operation that answered with its cookie, after which nothing ended it. *)
Definition provenance (ops : list Op) (db : Database) (h : text) (row : AuthSession) : Prop :=
  ∃ pre op post d out u, ops = (pre ++ op :: post)%list ∧ (run op (runs pre db)).2 = Ok (COOKIE (dr_token d) out) ∧
    match op with LOGIN _ _ d' _ => d' = d | API _ d' (PASSWORD _ _) => d' = d | _ => False end ∧
    token_hash (dr_token d) = h ∧ as_created_at row = dr_now d ∧ as_expires_at row = dr_now d + td_hours (st_session_max_hours s) ∧
    db_users (runs ops db) !! as_user_id row = Some u ∧ us_username u = Some (lo_username out) ∧
    ∀ a o b, post = (a ++ o :: b)%list → ¬ ends h (as_user_id row) (lo_username out) o (run o (runs (pre ++ op :: a) db)).2.

Lemma sessions_provenance ops db h row : tables_ok db → db_sessions db = ∅ → db_sessions (runs ops db) !! h = Some row → provenance ops db h row.
Proof.
  intros Hok Hempty. revert h row. induction ops as [|o ops IH] using rev_ind; intros h row; [cbn; by rewrite Hempty|].
  rewrite runs_snoc. destruct (run o (runs ops db)) as [db' r] eqn:E. cbn [fst]. intros Hrow.
  pose proof (runs_tables_ok ops db Hok) as Hok'. destruct (run_sessions _ _ _ _ Hok' E _ _ Hrow) as [(d & out & u & -> & -> & -> & Hn & Hu & Hd)|(row0 & H0 & Hsame & Hend)].
  - exists ops, o, [], d, out, u. rewrite runs_snoc, E. split_and!; try done. intros a o' b Hab. by destruct a.
  - destruct (IH _ _ H0) as (pre & op & post & d & out & u & -> & Hans & Hd & Ht & Hc & He & Hu & Hn & Hno).
    pose proof (run_rows o _ Hok') as Hrows. rewrite E in Hrows. destruct (rows_effect_keeps _ _ _ _ Hrows Hu) as (u' & Hu' & Hn').
    destruct Hsame as (_ & Hi & Hcr & Hex). exists pre, op, (post ++ [o]), d, out, u'. rewrite runs_snoc, E, Hi, Hcr, Hex. cbn [fst]. split_and!; try done.
    + by rewrite <- app_assoc.
    + by rewrite Hn'.
    + intros a o' b Hab. destruct b as [|x b _] using rev_ind.
      * apply app_inj_tail in Hab as [<- <-]. rewrite E. cbn [snd]. rewrite <- Hi. apply (Hend u); rewrite ?Hi; done.
      * rewrite app_comm_cons, app_assoc in Hab. apply app_inj_tail in Hab as [Hab _]. by eapply Hno.
Qed.

(** C11: Every request the session check lets through traces to a sign-in, or a change of password, that
    answered with a cookie of that digest less than the maximum age before it; the account is the one
    that signed in, and is enabled; and since then no sign-out with that cookie, no change or reset of
    that account's password, no disabling of it and no break-glass command for it has succeeded. *)
Theorem session_traces_to_sign_in ops db rq db' p : tables_ok db → db_sessions db = ∅ →
  session_principal token_hash s rq (runs ops db) = (db', Ok p) →
  ∃ t pre op post d out u, rq_cookie rq = Some t ∧ ops = (pre ++ op :: post)%list ∧ (run op (runs pre db)).2 = Ok (COOKIE (dr_token d) out) ∧
    match op with LOGIN _ _ d' _ => d' = d | API _ d' (PASSWORD _ _) => d' = d | _ => False end ∧
    token_hash (dr_token d) = token_hash t ∧ rq_now rq < dr_now d + td_hours (st_session_max_hours s) ∧
    pr_user_id p = Some (us_id u) ∧ us_username u = Some (lo_username out) ∧ db_users (runs ops db) !! us_id u = Some u ∧ disabled u = false ∧
    ∀ a o b, post = (a ++ o :: b)%list → ¬ ends (token_hash t) (us_id u) (lo_username out) o (run o (runs (pre ++ op :: a) db)).2.
Proof.
  intros Hok Hempty [(u & row & Hlive & _ & [= ->] & _)|(_ & _ & e & [=] & _)]%session_principal_cases.
  destruct Hlive as (t & Hc & _ & _ & Hs & He & Hm & _ & Hu & Hd & Ha).
  destruct (sessions_provenance ops db _ _ Hok Hempty Hs) as (pre & op & post & d & out & v & Hops & Hans & Hdr & Ht & Hcr & Hex & Hv & Hn & Hno).
  rewrite Hu in Hv. injection Hv as ->. pose proof (ok_ids _ (ok_users _ (runs_tables_ok ops db Hok)) _ _ Hu) as Hid.
  exists t, pre, op, post, d, out, v. rewrite Hid. split_and!; try done; [by rewrite <- Hcr|by cbn; rewrite Hid|]. unfold disabled. by rewrite Hd, Ha.
Qed.

(** C17: Whatever is asked of the system, every row keeps the keys, the unique columns and the checks of
    its table: no two accounts share a name or an address, no directory account holds a password, and
    every session is filed under its digest and belongs to an account. *)
Theorem constraints_kept ops db : tables_ok db → tables_ok (runs ops db).
Proof. apply runs_tables_ok. Qed.
End System.
