(* ===== verification/AdminTheorems.v ===== *)
(** * Administrators

    Who may change an account, and whether one administrator is always left. *)

From S2P Require Import Prelude PyStr PyTime Accounts SignIn SignInTheorems UserAdmin AccountTheorems.

Section Admin.
Context (lower casefold clean : text → text) (checkpw : list N → text → option bool) (hashpw : list N → text → text)
        (token_hash : text → text) (s : AuthSettings).

Local Abbreviation run := (run_op lower casefold clean checkpw hashpw token_hash s).
Local Abbreviation runs := (run_ops lower casefold clean checkpw hashpw token_hash s).

(** ** Who may change an account *)

(** A role of the user grants [admin:users] or everything. *)
Definition may_administer (db : Database) (u : User) : Prop :=
  ∃ r, r ∈ roles_of db u ∧ (PERM_USER_ADMIN ∈ ro_permissions r ∨ PERM_ADMIN ∈ ro_permissions r).

Lemma has_user_admin db u : has (principal_for db u) PERM_USER_ADMIN = true → may_administer db u.
Proof.
  unfold has. change (before_colon PERM_USER_ADMIN ++ ascii_text ":*")%list with PERM_ADMIN. cbn [pr_permissions principal_for].
  rewrite !orb_true_iff, !bool_decide_eq_true. intros H.
  assert (Hin : ∃ x, x ∈ concat (ro_permissions <$> roles_of db u) ∧ (x = PERM_USER_ADMIN ∨ x = PERM_ADMIN)) by naive_solver.
  destruct Hin as (x & Hx & Hor). apply list_elem_of_In, in_concat in Hx as (l & Hl & Hxl). apply list_elem_of_In, list_elem_of_fmap in Hl as (r & -> & Hr).
  exists r. split; [done|]. apply list_elem_of_In in Hxl. destruct Hor as [-> | ->]; [by left|by right].
Qed.

Lemma act_open rq d p action db id : requires_admin action = false →
  db_users (act lower casefold clean checkpw hashpw token_hash s rq d p action db).1 !! id ≠ db_users db !! id → users_ok (db_users db) →
  pr_user_id p = Some id ∧ ∃ current new, action = PASSWORD current new.
Proof.
  destruct action as [| |current new|body|id' names|id' disable|id'|id' password]; try done; intros _; cbn [act fst].
  - unfold logout, delete_by_token. cbn. by destruct (usable_cookie _).
  - unfold change_password. destruct (pr_user_id p) as [i|]; [|done]. destruct (bool_decide _); [|done].
    destruct (db_users db !! i) as [v|] eqn:Ev; [|done]. destruct (disabled v); [done|].
    destruct (change_own_password _ _ _ _ _ _ _ _ _ _) as [[db' r]|e] eqn:Ec; [|done]. intros Hne Hok. split; [|by eexists _, _]. f_equal.
    pose proof (ok_ids _ Hok _ _ Ev) as Hi. subst i. apply change_own_password_effect in Ec as (u & out & name & -> & _ & _ & _ & _ & _ & _ & Hu & _); [|done|done].
    cbn in Hne. rewrite Hu in Hne. destruct (decide (id = us_id v)) as [->|Hn]; [done|]. by rewrite lookup_insert_ne in Hne.
Qed.

(** C15: Where session cookies are enforced, a request changes an account only under a live session:
    of that very account, to change its password, or of a user whose roles, at that moment, grant
    [admin:users] or [admin:*]. *)
Theorem account_writes_authorised rq d action db id : session_cookies_enforced s = true → tables_ok db →
  db_users (run (API rq d action) db).1 !! id ≠ db_users db !! id →
  ∃ u row, live_session token_hash s rq db u row ∧ ((us_id u = id ∧ ∃ current new, action = PASSWORD current new) ∨ may_administer db u).
Proof.
  intros Henf Hok. cbn [run_op]. unfold get_principal. rewrite Henf. case_bool_decide; [done|].
  destruct (session_principal token_hash s rq db) as [db1 r] eqn:Ep. pose proof (principal_tables lower token_hash s rq db db1 r) as Ht.
  unfold get_principal in Ht. rewrite Henf, bool_decide_eq_false_2 in Ht by done. destruct (Ht Ep) as (Hu & Hro & _).
  apply session_principal_cases in Ep as [(u & row & Hlive & _ & -> & Hdb)|(-> & _ & e & -> & _)]; [|done].
  destruct (requires_admin action) eqn:Era.
  - unfold require_permission. destruct (has (principal_for db u) PERM_USER_ADMIN) eqn:Eh; cbn [raise_if negb fst]; [|by rewrite Hu].
    intros _. exists u, row. split; [done|]. right. by apply has_user_admin.
  - intros Hne. rewrite <- Hu in Hne. apply act_open in Hne as [Hp Ha]; [|done|rewrite Hu; apply Hok]. exists u, row. split; [done|]. left.
    split; [|done]. cbn in Hp. by injection Hp.
Qed.

(** ** The last administrator *)

Definition administrator (db : Database) (u : User) : Prop :=
  db_users db !! us_id u = Some u ∧ actionable u = true ∧ holds_admin db u = true.

Lemma holds_admin_iff db u : holds_admin db u = true ↔ ∃ r, r ∈ db_roles db ∧ ro_name r ∈ us_roles u ∧ PERM_ADMIN ∈ ro_permissions r.
Proof.
  unfold holds_admin. rewrite existsb_exists. split.
  - intros (r & Hr & Hp). apply list_elem_of_In, list_elem_of_filter in Hr as [Hn Hr]. exists r. by apply bool_decide_eq_true in Hp.
  - intros (r & Hr & Hn & Hp). exists r. split; [by apply list_elem_of_In, list_elem_of_filter|by apply bool_decide_eq_true].
Qed.

Lemma grants_admin_iff db roles : grants_admin db roles = true ↔ ∃ r, r ∈ db_roles db ∧ ro_name r ∈ roles ∧ PERM_ADMIN ∈ ro_permissions r.
Proof.
  unfold grants_admin. rewrite existsb_exists. split.
  - intros (r & Hr & Hp). exists r. apply andb_prop in Hp as [H1 H2]. apply bool_decide_eq_true in H1, H2. by apply list_elem_of_In in Hr.
  - intros (r & Hr & Hn & Hp). exists r. split; [by apply list_elem_of_In|]. apply andb_true_intro. split; by apply bool_decide_eq_true.
Qed.

(** The guard lets a write through when the target is no administrator, stays one, or is not alone. *)
Lemma keep_last_admin_ok db v keeps : users_ok (db_users db) → keep_last_admin db v keeps = Ok tt → administrator db v →
  keeps = true ∨ ∃ w, administrator db w ∧ us_id w ≠ us_id v.
Proof.
  intros Hok Hk (Hv & Ha & Hh). unfold keep_last_admin in Hk. rewrite Ha, Hh in Hk. destruct keeps; [by left|]. right. cbn [negb orb] in Hk.
  apply raise_if_ok, bool_decide_eq_false in Hk. destruct (filter _ _) as [|w ws] eqn:Ef; [done|].
  assert (Hin : w ∈ w :: ws) by left. rewrite <- Ef in Hin. apply list_elem_of_filter in Hin as [Hp Hin].
  apply andb_prop in Hp as [Hp Hh']. apply andb_prop in Hp as [Hne Ha']. apply negb_true_iff, N.eqb_neq in Hne.
  apply list_elem_of_fmap in Hin as ([id w'] & -> & Hw). apply elem_of_map_to_list in Hw. exists w'. split; [|done].
  split_and!; [by cbn in *; rewrite (ok_ids _ Hok _ _ Hw)|done|done].
Qed.

Lemma keep_last_admin_passes db v w : administrator db w → us_id w ≠ us_id v → keep_last_admin db v false = Ok tt.
Proof.
  intros (Hw & Ha & Hh) Hne. unfold keep_last_admin. destruct (_ || _); [done|]. apply raise_if_ok, bool_decide_eq_false.
  intros Hnil. assert (Hin : w ∈ filter (λ u, negb (us_id u =? us_id v)%N && actionable u && holds_admin db u = true) (snd <$> map_to_list (db_users db))).
  { apply list_elem_of_filter. split; [|apply list_elem_of_fmap; exists (us_id w, w); split; [done|by apply elem_of_map_to_list]].
    rewrite Ha, Hh, !andb_true_r. by apply negb_true_iff, N.eqb_neq. }
  rewrite Hnil in Hin. by apply elem_of_nil in Hin.
Qed.

(** A row written over, of an administrator who stays one or is not the only one. *)
Lemma update_keeps_admin db db' v v' : db_users db !! us_id v = Some v → us_id v' = us_id v → db_users db' = <[us_id v := v']> (db_users db) →
  db_roles db' = db_roles db →
  (administrator db v → (actionable v' = true ∧ holds_admin db v' = true) ∨ ∃ w, administrator db w ∧ us_id w ≠ us_id v) →
  (∃ u, administrator db u) → ∃ u, administrator db' u.
Proof.
  intros Hv Hi Hu Hr Hkeep [u Hadm]. assert (Hh : ∀ x, holds_admin db' x = holds_admin db x) by (intros x; unfold holds_admin, roles_of; by rewrite Hr).
  assert (Hother : ∀ w, administrator db w → us_id w ≠ us_id v → ∃ x, administrator db' x).
  { intros w (Hw & Ha & Hhw) Hne. exists w. split_and!; [by rewrite Hu, lookup_insert_ne|done|by rewrite Hh]. }
  destruct (decide (us_id u = us_id v)) as [E|E]; [|by apply (Hother u)]. pose proof Hadm as (H1 & H2 & H3). rewrite E, Hv in H1. injection H1 as <-.
  destruct (Hkeep Hadm) as [[Ha Hh']|(w & Hw & Hne)]; [|by apply (Hother w)]. exists v'. split_and!; [by rewrite Hu, Hi, lookup_insert_eq|done|by rewrite Hh].
Qed.

Lemma insert_keeps_admin db db' v : db_users db !! us_id v = None → db_users db' = <[us_id v := v]> (db_users db) → db_roles db' = db_roles db →
  (∃ u, administrator db u) → ∃ u, administrator db' u.
Proof.
  intros Hv Hu Hr (u & H1 & H2 & H3). exists u. split_and!; [|done|by unfold holds_admin, roles_of; rewrite Hr].
  rewrite Hu, lookup_insert_ne; [done|]. congruence.
Qed.

Lemma same_administrator db u u' : same_account u u' → actionable u' = actionable u ∧ holds_admin db u' = holds_admin db u.
Proof.
  intros (_ & Hn & Hs & Hh & _ & Ha & Hd & Hr). unfold actionable, disabled, nameless, passwordless, holds_admin, roles_of.
  by rewrite Hn, Hs, Hh, Ha, Hd, Hr.
Qed.

Context (hashpw_nonempty : ∀ material salt, hashpw material salt ≠ []).

(** With a password an account that could sign in still can. *)
Lemma password_actionable must count locked password salt v : us_auth_source v = LOCAL → actionable v = true →
  actionable (set_counters count locked (set_password LOCAL (Some (hashpw password salt)) must v)) = true.
Proof using hashpw_nonempty.
  intros Hl. unfold actionable, disabled, nameless, passwordless. cbn. destruct (is_some_b _ || _); [done|]. destruct (us_username v) as [[|c n]|]; try done.
  intros _. pose proof (hashpw_nonempty password salt). by destruct (hashpw password salt).
Qed.

Lemma act_keeps_admin rq d p action db : tables_ok db → (∃ u, administrator db u) →
  ∃ u, administrator (act lower casefold clean checkpw hashpw token_hash s rq d p action db).1 u.
Proof using hashpw_nonempty.
  intros Hok Hadm. pose proof (ok_users _ Hok) as Huok. destruct action as [| |current new|body|id names|id disable|id|id password]; cbn [act fst]; [done| | | | | | |].
  - destruct Hadm as [u Hu]. exists u. unfold logout, delete_by_token. by destruct (usable_cookie _).
  - unfold change_password. destruct (pr_user_id p) as [id|]; [|done]. destruct (bool_decide _); [|done].
    destruct (db_users db !! id) as [v|] eqn:Ev; [|done]. destruct (disabled v); [done|].
    destruct (change_own_password _ _ _ _ _ _ _ _ _ _) as [[db' r]|e] eqn:Ec; [|done]. rewrite <- (ok_ids _ Huok _ _ Ev) in Ev.
    apply change_own_password_effect in Ec as (u & out & name & -> & _ & _ & Hl & _ & _ & -> & Hu & Hr & _); [|done|done]. cbn.
    eapply update_keeps_admin; [exact Ev| |exact Hu|exact Hr| |exact Hadm]; [done|]. intros (_ & Ha & Hh). left. split; [by apply password_actionable|done].
  - destruct (create_user _ _ _ _ _ _ _ _) as [[db' u]|e] eqn:E; [|done]. apply create_user_effect in E as (_ & Hu & Hn & _ & Hr).
    by eapply insert_keeps_admin.
  - destruct (set_roles _ _ _ _) as [[db' u]|e] eqn:E; [|done]. apply set_roles_effect in E as (v & Hv & _ & -> & Hu & Hk & _ & Hr); [|done].
    eapply update_keeps_admin; [exact Hv| |exact Hu|exact Hr| |exact Hadm]; [done|]. intros Hadv.
    destruct (keep_last_admin_ok _ _ _ Huok Hk Hadv) as [Hg|Hw]; [left|by right]. split; [apply Hadv|]. by apply holds_admin_iff, grants_admin_iff.
  - destruct (set_disabled _ _ _ _ _) as [[db' u]|e] eqn:E; [|done]. apply set_disabled_effect in E as (v & Hv & _ & -> & Hu & Hd & _ & Hr); [|done].
    eapply update_keeps_admin; [exact Hv| |exact Hu|exact Hr| |exact Hadm]; [by destruct disable|]. intros Hadv. destruct disable.
    + destruct (Hd eq_refl) as [Hk _]. destruct (keep_last_admin_ok _ _ _ Huok Hk Hadv) as [?|Hw]; [done|by right].
    + left. destruct Hadv as (_ & Ha & Hh). split; [|done]. unfold actionable in *. by destruct (disabled v).
  - destruct (unlock_user _ _ _) as [[db' u]|e] eqn:E; [|done]. apply unlock_user_effect in E as (v & Hv & _ & -> & Hu & _ & Hr); [|done].
    eapply update_keeps_admin; [exact Hv| |exact Hu|exact Hr| |exact Hadm]; [done|]. intros (_ & Ha & Hh). by left.
  - destruct (reset_password _ _ _ _ _ _ _) as [[db' u]|e] eqn:E; [|done]. apply reset_password_effect in E as (v & Hv & _ & Hl & -> & Hu & _ & Hr); [|done].
    eapply update_keeps_admin; [exact Hv| |exact Hu|exact Hr| |exact Hadm]; [done|]. intros (_ & Ha & Hh). left. split; [by apply password_actionable|done].
Qed.

Lemma success_roles loaded u d record db db' r : success token_hash s loaded u d record db = Ok (db', r) → db_roles db' = db_roles db.
Proof using. unfold success, issue_session. destruct (is_some_b _); [done|]. cbn. intros [= <- _]. by destruct record. Qed.

Lemma bound_roles loaded u name report d db db' r : bound clean token_hash s loaded u name report d db = Ok (db', r) → db_roles db' = db_roles db.
Proof using. unfold bound. destruct (disabled u); [by intros [= <- _]|]. apply success_roles. Qed.

Lemma count_failure_roles loaded u name now reason db : db_roles (count_failure s loaded u name now reason db) = db_roles db.
Proof using. unfold count_failure. by destruct (apply_failure _ _ _ _) as [? []]. Qed.

Lemma login_roles raw password d dir db : db_roles (login lower clean checkpw token_hash s raw password d dir db).1 = db_roles db.
Proof using.
  unfold login. destruct (authenticate _ _ _ _ _ _ _ _ _ _) as [[db' r]|e] eqn:E; [|done]. assert (H : db_roles db' = db_roles db); [|by destruct r].
  unfold authenticate in E. cbv zeta in E. change (db_roles db) with (db_roles (cleanup_expired s (dr_scan d) (dr_now d) db)).
  revert E. generalize (cleanup_expired s (dr_scan d) (dr_now d) db). intros db1 E.
  destruct (normalize_username lower raw) as [name|]; [|by injection E as <- _].
  assert (Hdir : ∀ user, directory clean token_hash s user name password d dir db1 = Ok (db', r) → db_roles db' = db_roles db1).
  { intros user Hd. unfold directory in Hd. destruct (match user with Some u => is_locked u (dr_now d) | None => false end); [by injection Hd as <- _|].
    destruct dir as [servers|]; [|injection Hd as <- _; by destruct user]. destruct (bind_sync _ _) as [report|]; [|injection Hd as <- _; by destruct user].
    destruct (bp_bind_status report); [|destruct user; injection Hd as <- _; [apply count_failure_roles|done]|injection Hd as <- _; by destruct user].
    destruct user as [u|]; [by apply bound_roles in Hd|]. apply bind_ok in Hd as (db2 & Hi & Hb). apply bound_roles in Hb. rewrite Hb.
    unfold insert_user in Hi. destruct (_ || _); [done|]. by injection Hi as <-. }
  case_bool_decide.
  - unfold empty_password in E. destruct (find_user _ _) as [u|]; [destruct (is_locked u (dr_now d))|]; injection E as <- _; try done. apply count_failure_roles.
  - destruct (find_user _ _) as [u|]; [|by apply (Hdir None)]. case_bool_decide; [|by apply (Hdir (Some u))].
    unfold local in E. destruct (is_locked u (dr_now d)); [by injection E as <- _|]. destruct (negb _); [injection E as <- _; apply count_failure_roles|].
    destruct (disabled _); [by injection E as <- _|]. by apply success_roles in E.
Qed.

Lemma login_keeps_admin raw password d dir db : tables_ok db → (∃ u, administrator db u) →
  ∃ u, administrator (login lower clean checkpw token_hash s raw password d dir db).1 u.
Proof using.
  intros Hok Hadm. pose proof (login_roles raw password d dir db) as Hr.
  destruct (login_rows lower clean checkpw token_hash s raw password d dir db Hok) as [Hu|(name & _ & He)].
  - destruct Hadm as (u & H1 & H2 & H3). exists u. split_and!; [by rewrite Hu|done|]. unfold holds_admin, roles_of in *. by rewrite Hr.
  - destruct Hadm as (u & Hu & Ha & Hh). destruct (effect_keeps _ _ _ _ _ He Hu (ok_ids _ (ok_users _ Hok))) as (u' & Hu' & Hs & _).
    destruct (same_administrator db _ _ Hs) as [Ha' Hh']. exists u'. split_and!; [by rewrite (proj1 Hs)|by rewrite Ha'|].
    rewrite <- Hh' in Hh. unfold holds_admin, roles_of in *. by rewrite Hr.
Qed.

Lemma run_keeps_admin op db : tables_ok db → (∃ u, administrator db u) → ∃ u, administrator (run op db).1 u.
Proof using hashpw_nonempty.
  intros Hok Hadm. destruct op as [username password d dir|rq d action|username password d]; cbn [run_op fst].
  - by apply login_keeps_admin.
  - destruct (get_principal _ _ _ _ _) as [db1 r] eqn:Ep. apply principal_tables in Ep as (Hu & Hr & Hs).
    assert (Hadm1 : ∃ u, administrator db1 u).
    { destruct Hadm as (u & H1 & H2 & H3). exists u. split_and!; [by rewrite Hu|done|]. unfold holds_admin, roles_of in *. by rewrite Hr. }
    destruct r as [p|e]; [|done]. destruct (if requires_admin action then _ else _); [|done]. apply act_keeps_admin; [|done].
    split; [rewrite Hu; apply Hok| |]; intros h' row1 Hr1; destruct (Hs _ _ Hr1) as (row0 & H0 & (Ht & Hi & _)).
    + rewrite Ht. by eapply ok_tokens.
    + rewrite Hi, Hu. by eapply ok_owners.
  - destruct (create_admin _ _ _ _ _ _) as [[db' u]|e] eqn:E; [|done].
    apply create_admin_effect in E as (name & v & Hnorm & Hn & -> & _ & _ & Hu & _ & _ & r & Hr & Hrn & Hp); [|apply Hok]. cbn [fst].
    exists (broken_glass (hashpw (encode_utf8 password) (dr_salt d)) v). split_and!.
    + rewrite Hu. apply lookup_insert_eq.
    + unfold actionable, disabled, nameless, passwordless. cbn. rewrite Hn. apply normalized_nonempty in Hnorm. pose proof (hashpw_nonempty (encode_utf8 password) (dr_salt d)).
      destruct name; [done|]. by destruct (hashpw _ _).
    + apply holds_admin_iff. exists r. split_and!; [done| |done]. rewrite Hrn. cbn. case_bool_decide; [done|]. apply elem_of_app. right. by apply list_elem_of_singleton.
Qed.

(** C14: Whatever is asked of the system, one operation after the other, an active account that can sign
    in and holds [admin:*] is left when there was one. *)
Theorem admin_kept ops db : tables_ok db → (∃ u, administrator db u) → ∃ u, administrator (runs ops db) u.
Proof using hashpw_nonempty.
  intros Hok Hadm. induction ops as [|op ops IH] using rev_ind; [done|]. rewrite runs_snoc. apply run_keeps_admin; [|done]. by apply runs_tables_ok.
Qed.
End Admin.

(** When the last two administrators are disabled by requests that overlap, each passes the check,
    which locks only its own target, and none is left. *)
Theorem concurrent_disables_leave_no_admin db u v p q at_ at_' : tables_ok db → administrator db u → administrator db v → us_id u ≠ us_id v →
  (∀ w, administrator db w → us_id w = us_id u ∨ us_id w = us_id v) →
  keep_last_admin db u false = Ok tt ∧ keep_last_admin db v false = Ok tt ∧
  ¬ ∃ w, administrator (write_disabled q v true at_' (write_disabled p u true at_ db).1).1 w.
Proof.
  intros Hok Hu Hv Hne Honly. split_and!; [by apply (keep_last_admin_passes db u v)|by apply (keep_last_admin_passes db v u)|].
  intros (w & Hw & Ha & Hh). set (db1 := (write_disabled p u true at_ db).1) in *.
  assert (H1 : db_users db1 = <[us_id u := disabled_user true at_ u]> (db_users db)) by (apply (write_self db u); [apply Hu|done|done]).
  assert (H2 : db_users (write_disabled q v true at_' db1).1 = <[us_id v := disabled_user true at_' v]> (db_users db1)).
  { apply (write_self db1 v); [|done|done]. rewrite H1, lookup_insert_ne by done. apply Hv. }
  rewrite H2, H1 in Hw. apply lookup_insert_Some in Hw as [[_ <-]|[Hn Hw]]; [done|].
  apply lookup_insert_Some in Hw as [[_ <-]|[Hn' Hw]]; [done|]. destruct (Honly w) as [E|E]; [exact (conj Hw (conj Ha Hh))|congruence|congruence].
Qed.
