(* ===== verification/AccountExamples.v ===== *)
(** * Accounts on concrete tables

    Two administrators, a sign-in, requests under its session, and the theorems applied to them. *)

From S2P Require Import Prelude PyStr PyTime Accounts SignIn SignInTheorems UserAdmin AccountTheorems AdminTheorems.

Definition ex_lower (t : text) : text := (λ c, if (65 <=? c)%N && (c <=? 90)%N then (c + 32)%N else c) <$> t.
Definition ex_hashpw (material : list N) (salt : text) : text := 36%N :: material.
Definition ex_checkpw (material : list N) (hashed : text) : option bool := Some (bool_decide (hashed = 36%N :: material)).
Definition ex_digest (t : text) : text := t.

Definition ex_settings : AuthSettings :=
  {| st_session_idle_minutes := 480; st_session_max_hours := 12; st_login_lockout_threshold := 5; st_login_lockout_minutes := 15;
     st_session_cleanup_batch := 500; st_is_hardened := true; st_auth_provider := AUTH_SESSION; st_api_prefix := ascii_text "/api/v1" |}.

Definition secret : text := ascii_text "correct horse battery".

Definition ex_user (id : uuid) (name : string) : User :=
  {| us_id := id; us_email := None; us_display_name := None; us_username := Some (ascii_text name); us_auth_source := LOCAL;
     us_hashed_password := Some (ex_hashpw (encode_utf8 secret) []); us_is_active := true; us_must_change_password := false;
     us_failed_login_count := 0; us_locked_until := None; us_disabled_at := None; us_last_login_at := None; us_roles := [ascii_text "admin"] |}.

Definition ada : User := ex_user 1 "ada".
Definition grace : User := ex_user 2 "grace".

Definition ex_tables (users : gmap uuid User) : Database := {| db_users := users; db_sessions := ∅; db_roles := ROLES; db_audit := [] |}.
Definition ex_db : Database := ex_tables {[1%N := ada; 2%N := grace]}.

Definition ex_draws (now : instant) (token : string) : Draws :=
  {| dr_now := now; dr_token := ascii_text token; dr_uuid := 9%N; dr_salt := []; dr_scan := id |}.

Local Abbreviation sign_in name password d := (login ex_lower id ex_checkpw ex_digest ex_settings (ascii_text name) password d None).
Local Abbreviation run := (run_op ex_lower ex_lower id ex_checkpw ex_hashpw ex_digest ex_settings).
Local Abbreviation runs := (run_ops ex_lower ex_lower id ex_checkpw ex_hashpw ex_digest ex_settings).

Definition minute : Z := td_minutes 1.

Definition ex_request (path : string) (token : string) (now : instant) : Request :=
  {| rq_method := ascii_text "POST"; rq_path := ascii_text path; rq_cookie := Some (ascii_text token); rq_authorization := None;
     rq_now := now; rq_touch := now |}.

Definition sign_ada : Op := LOGIN (ascii_text " Ada ") secret (ex_draws 0 "token") None.

Example ada_signs_in : (run sign_ada ex_db).2 =
  Ok (COOKIE (ascii_text "token") {| lo_username := ascii_text "ada"; lo_auth_source := LOCAL; lo_must_change_password := false; lo_roles := [ascii_text "admin"] |}).
Proof. vm_compute. reflexivity. Qed.

(** Five wrong passwords lock the account, and the right one is then refused. *)
Example ada_is_locked :
  (sign_in "ada" secret (ex_draws 5 "t") (foldl (λ db i, (sign_in "ada" [120%N] (ex_draws i "t") db).1) ex_db [0; 1; 2; 3; 4])).2 =
  Err (HTTPException 401 [INVALID_CREDENTIALS]).
Proof. vm_compute. reflexivity. Qed.

Example session_times_out :
  (run (API (ex_request "/x" "token" (720 * minute)) (ex_draws 0 "") OTHER) (runs [sign_ada] ex_db)).2 = Err (unauthorized "Authentication required.").
Proof. vm_compute. reflexivity. Qed.

(** ** The tables are well formed *)

Ltac rows :=
  repeat match goal with
  | H : <[_ := _]> _ !! _ = Some _ |- _ => apply lookup_insert_Some in H as [[<- <-]|[? H]]
  | H : {[_ := _]} !! _ = Some _ |- _ => apply lookup_singleton_Some in H as [<- <-]
  | H : ∅ !! _ = Some _ |- _ => by rewrite lookup_empty in H
  end.

Lemma ex_users_ok a b : us_id a = 1%N → us_id b = 2%N → us_username a = Some (ascii_text "ada") → us_username b = Some (ascii_text "grace") →
  us_email a = None → us_email b = None → 0 <= us_failed_login_count a → 0 <= us_failed_login_count b →
  us_auth_source a = LOCAL → us_auth_source b = LOCAL → tables_ok (ex_tables {[1%N := a; 2%N := b]}).
Proof.
  intros Ha Hb Hna Hnb Hma Hmb Hca Hcb Hsa Hsb. split; [|intros h row H; by cbn in H; rows|intros h row H; by cbn in H; rows].
  split; cbn [db_users ex_tables].
  - intros id u H. by rows.
  - intros i j u v name Hi Hj. rows; rewrite ?Hna, ?Hnb; try done; by intros [= <-].
  - intros i j u v mail Hi Hj. rows; by rewrite ?Hma, ?Hmb.
  - intros id u H. by rows.
  - intros id u H. rows; by rewrite ?Hsa, ?Hsb.
Qed.

Lemma ex_ok : tables_ok ex_db.
Proof. by apply ex_users_ok. Qed.

Lemma ada_administers : administrator ex_db ada.
Proof. split_and!; [done|by vm_compute|by vm_compute]. Qed.

Lemma grace_administers : administrator ex_db grace.
Proof. split_and!; [done|by vm_compute|by vm_compute]. Qed.

(** ** The theorems applied *)

Lemma login_exact_witness : fresh ex_digest (ex_draws 0 "token") ex_db ∧ ∃ name id out,
  (sign_in "ada" secret (ex_draws 0 "token") ex_db).2 = Ok (dr_token (ex_draws 0 "token"), out) ∧ lo_username out = name ∧ id = 1%N.
Proof.
  assert (Hf : fresh ex_digest (ex_draws 0 "token") ex_db) by by split. split; [exact Hf|].
  destruct (sign_in "ada" secret (ex_draws 0 "token") ex_db) as [db' r] eqn:E.
  destruct (login_exact ex_lower id ex_checkpw ex_digest ex_settings (ascii_text "ada") secret (ex_draws 0 "token") None ex_db db' r ex_ok Hf E)
    as [(_ & name & id & out & _ & Hr & Ho & _)|(_ & _ & [Hr|[Hr _]])].
  - by exists name, 1%N, out.
  - exfalso. assert (Hx : (sign_in "ada" secret (ex_draws 0 "token") ex_db).2 = r) by by rewrite E. rewrite Hr in Hx. vm_compute in Hx. discriminate Hx.
  - exfalso. assert (Hx : (sign_in "ada" secret (ex_draws 0 "token") ex_db).2 = r) by by rewrite E. rewrite Hr in Hx. vm_compute in Hx. discriminate Hx.
Defined.

Definition ex_attempt (password : text) (now : instant) : Attempt :=
  {| at_username := ascii_text "ada"; at_password := password; at_draws := ex_draws now "t"; at_directory := None |}.

Local Abbreviation guess := (ex_attempt [120%N]).


(** Ada, locked for a quarter of an hour that is over. *)
Definition ada_unlocked : User := set_counters 5 (Some 0) ada.

Lemma empty_password_relocks_witness :
  db_users (attempt ex_lower id ex_checkpw ex_digest ex_settings (ex_attempt [] 1) (ex_tables {[1%N := ada_unlocked; 2%N := grace]})) !! 1%N =
  Some (set_counters 6 (Some (1 + td_minutes 15)) ada_unlocked).
Proof.
  apply (empty_password_relocks ex_lower id ex_checkpw ex_digest ex_settings (ex_attempt [] 1) (ex_tables {[1%N := ada_unlocked; 2%N := grace]})
           ada_unlocked (ascii_text "ada") 0); [by apply ex_users_ok|reflexivity|reflexivity|reflexivity|reflexivity|reflexivity|by vm_compute|by vm_compute|reflexivity].
Defined.

Lemma overlapping_guesses_count_once_witness :
  db_users (foldl (overlapping ex_checkpw ex_digest ex_settings ada) ex_db (guess <$> [0; 1; 2; 3; 4; 5; 6; 7; 8; 9])) !! 1%N = Some (set_counters 1 None ada).
Proof.
  apply (overlapping_guesses_count_once ex_checkpw ex_digest ex_settings (guess <$> [0; 1; 2; 3; 4; 5; 6; 7; 8; 9]) ex_db ada);
    [discriminate|reflexivity|reflexivity|by vm_compute|].
  repeat (constructor; [vm_compute; reflexivity|]). constructor.
Defined.

(** A request of Ada's, an hour after her sign-in. *)
Definition hour_later : Request := ex_request "/api/v1/users" "token" (60 * minute).

Lemma request_exact_witness : ∃ p, (session_principal ex_digest ex_settings hour_later (runs [sign_ada] ex_db)).2 = Ok p.
Proof.
  destruct (session_principal ex_digest ex_settings hour_later (runs [sign_ada] ex_db)) as [db' r] eqn:E.
  apply (request_exact ex_digest ex_settings hour_later (runs [sign_ada] ex_db) db' r E).
  exists (set_last_login 0 ada), (issued ex_digest ex_settings 1 (ascii_text "token") 0). split; [|discriminate].
  exists (ascii_text "token"). split_and!; try reflexivity; try discriminate; by vm_compute; lia.
Defined.

Lemma session_traces_to_sign_in_witness : ∃ pre op post d out, [sign_ada] = (pre ++ op :: post)%list ∧
  (run op (runs pre ex_db)).2 = Ok (COOKIE (dr_token d) out) ∧ ascii_text "token" = ex_digest (dr_token d).
Proof.
  destruct (session_principal ex_digest ex_settings hour_later (runs [sign_ada] ex_db)) as [db' [p|e]] eqn:E.
  - destruct (session_traces_to_sign_in ex_lower ex_lower id ex_checkpw ex_hashpw ex_digest ex_settings [sign_ada] ex_db hour_later db' p
                ex_ok eq_refl E) as (t & pre & op & post & d & out & u & Hc & Hops & Hans & _ & Ht & _).
    exists pre, op, post, d, out. split; [exact Hops|]. split; [exact Hans|]. rewrite Ht. by injection Hc as <-.
  - exfalso. assert (Hx : (session_principal ex_digest ex_settings hour_later (runs [sign_ada] ex_db)).2 = Err e) by by rewrite E.
    vm_compute in Hx. discriminate Hx.
Defined.

Definition disable_grace : Op := API hour_later (ex_draws (60 * minute) "") (DISABLE 2 true).
Definition disable_ada : Op := API hour_later (ex_draws (60 * minute) "") (DISABLE 1 true).

Lemma constraints_kept_witness : tables_ok (runs [sign_ada; disable_grace; disable_ada] ex_db).
Proof. apply constraints_kept. exact ex_ok. Defined.

Lemma account_writes_authorised_witness :
  let db := runs [sign_ada] ex_db in db_users (run disable_grace db).1 !! 2%N ≠ db_users db !! 2%N ∧
  ∃ u row, live_session ex_digest ex_settings hour_later db u row ∧
    ((us_id u = 2%N ∧ ∃ current new, DISABLE 2 true = PASSWORD current new) ∨ may_administer db u).
Proof.
  intros db. assert (Hne : db_users (run disable_grace db).1 !! 2%N ≠ db_users db !! 2%N) by (vm_compute; discriminate).
  split; [exact Hne|].
  exact (account_writes_authorised ex_lower ex_lower id ex_checkpw ex_hashpw ex_digest ex_settings hour_later (ex_draws (60 * minute) "") (DISABLE 2 true)
           db 2%N eq_refl (runs_tables_ok ex_lower ex_lower id ex_checkpw ex_hashpw ex_digest ex_settings [sign_ada] ex_db ex_ok) Hne).
Defined.

(** Ada disables Grace, and may not disable herself. *)
Lemma admin_kept_witness : (run disable_ada (runs [sign_ada; disable_grace] ex_db)).2 =
    Err (HTTPException 409 [ascii_text "the last active user holding admin:* cannot be disabled or lose that role"]) ∧
  ∃ u, administrator (runs [sign_ada; disable_grace; disable_ada] ex_db) u.
Proof.
  split; [vm_compute; reflexivity|].
  apply (admin_kept ex_lower ex_lower id ex_checkpw ex_hashpw ex_digest ex_settings); [discriminate|exact ex_ok|exists ada; exact ada_administers].
Defined.

Lemma concurrent_disables_leave_no_admin_witness : ∃ p q, keep_last_admin ex_db ada false = Ok tt ∧ keep_last_admin ex_db grace false = Ok tt ∧
  ¬ ∃ w, administrator (write_disabled q grace true 1 (write_disabled p ada true 0 ex_db).1).1 w.
Proof.
  exists (principal_for ex_db grace), (principal_for ex_db ada).
  apply concurrent_disables_leave_no_admin; [exact ex_ok|exact ada_administers|exact grace_administers|discriminate|].
  intros w (Hw & _). cbn in Hw. apply lookup_insert_Some in Hw as [[Hi _]|[_ Hw]]; [left|right; apply lookup_singleton_Some in Hw as [Hi _]]; by rewrite <- Hi.
Defined.
