(* ===== verification/Fleet.v ===== *)
(** * The class of a log source

    [fleet/classification.py], [fleet/seed_rules.py] and [fleet/service.py]: the classification of
    one source, and what is stored of it for an instance. [re_search] is [re.search] ignoring case,
    [None] where it raises [re.error]; [decimal] is the decimal value of a code point in the Unicode
    character database. The identifiers of rules are those of their rows. *)

From S2P Require Import Prelude PyStr Accounts.

(** ** Classes and rules *)

Inductive SourceClass :=
| SC_WAF | SC_IPS | SC_FIREWALL | SC_PROXY | SC_VPN | SC_LINUX | SC_WINDOWS | SC_NETWORK | SC_DNS | SC_DATABASE | SC_EMAIL
| SC_ENDPOINT | SC_CLOUD | SC_IDENTITY | SC_APPLICATION | SC_QRADAR_INTERNAL | SC_OTHER | SC_UNCLASSIFIED.

#[export] Instance SourceClass_eq_dec : EqDecision SourceClass.
Proof. solve_decision. Defined.

Definition SourceClass_value (c : SourceClass) : text := ascii_text
  match c with
  | SC_WAF => "WAF" | SC_IPS => "IPS" | SC_FIREWALL => "FIREWALL" | SC_PROXY => "PROXY" | SC_VPN => "VPN" | SC_LINUX => "LINUX"
  | SC_WINDOWS => "WINDOWS" | SC_NETWORK => "NETWORK" | SC_DNS => "DNS" | SC_DATABASE => "DATABASE" | SC_EMAIL => "EMAIL"
  | SC_ENDPOINT => "ENDPOINT" | SC_CLOUD => "CLOUD" | SC_IDENTITY => "IDENTITY" | SC_APPLICATION => "APPLICATION"
  | SC_QRADAR_INTERNAL => "QRADAR_INTERNAL" | SC_OTHER => "OTHER" | SC_UNCLASSIFIED => "UNCLASSIFIED"
  end.

Inductive RuleKind := RK_GROUP | RK_TYPE | RK_TYPE_NAME_REGEX | RK_NAME_REGEX | RK_IDENTIFIER_REGEX.

#[export] Instance RuleKind_eq_dec : EqDecision RuleKind.
Proof. solve_decision. Defined.

Definition RuleKind_value (k : RuleKind) : text := ascii_text
  match k with
  | RK_GROUP => "GROUP" | RK_TYPE => "TYPE" | RK_TYPE_NAME_REGEX => "TYPE_NAME_REGEX" | RK_NAME_REGEX => "NAME_REGEX"
  | RK_IDENTIFIER_REGEX => "IDENTIFIER_REGEX"
  end.

Record SourceFacts := {
  sf_name : text; sf_type_id : option Z; sf_identifier : option text; sf_group_ids : list Z; sf_override_class : option SourceClass }.

Record TypeFacts := { tf_type_id : Z; tf_name : text; tf_internal : bool }.

Record GroupFacts := { gf_qradar_id : Z; gf_parent_qradar_id : option Z }.

Record RuleFacts := {
  rf_id : uuid; rf_kind : RuleKind; rf_pattern : text; rf_target_class : SourceClass; rf_priority : Z; rf_enabled : bool }.

(** One entry of [conflicts]: basis, rule and class, as text. *)
Record Conflict := { cf_basis : text; cf_rule_id : text; cf_class : text }.

#[export] Instance Conflict_eq_dec : EqDecision Conflict.
Proof. solve_decision. Defined.

Record ClassificationResult := {
  cr_source_class : SourceClass; cr_basis : text; cr_rule_id : option uuid; cr_conflicts : list Conflict }.

(** [str(rule.id)] *)
Definition rule_text (id : uuid) : text := ascii_text (uuid_text id).

(** [_LEVELS] *)
Definition LEVELS : list (list RuleKind) :=
  [[RK_GROUP]; [RK_TYPE; RK_TYPE_NAME_REGEX]; [RK_NAME_REGEX; RK_IDENTIFIER_REGEX]].

(** ** Groups *)

(** [{item.qradar_id: item for item in groups}] *)
Definition group_table (groups : list GroupFacts) : gmap Z GroupFacts :=
  foldl (λ m g, <[gf_qradar_id g := g]> m) ∅ groups.

(** The walk from one group up; [branch] is what it has met. *)
Fixpoint climb (fuel : nat) (groups : gmap Z GroupFacts) (current : Z) (branch : gset Z) : gset Z :=
  match fuel with
  | O => branch
  | S fuel =>
      if decide (current ∈ branch) then branch
      else
        let branch := {[current]} ∪ branch in
        match groups !! current with
        | None => branch
        | Some group =>
            match gf_parent_qradar_id group with
            | None => branch
            | Some parent =>
                if (parent =? current) || (parent =? 0) && negb (current =? 0) then branch else climb fuel groups parent branch
            end
        end
  end.

(** [_ancestors]: every turn of the walk but the last meets another group of the table. *)
Definition ancestors (group_ids : list Z) (groups : gmap Z GroupFacts) : gset Z :=
  foldl (λ found start, found ∪ climb (S (size groups)) groups start ∅) ∅ group_ids.

(** ** What a rule matches *)

Section Classification.
Context (re_search : text → text → option bool) (decimal : N → option Z).

Definition regex_matches (pattern : text) (value : option text) : bool :=
  match value with None => false | Some v => default false (re_search pattern v) end.

(** What [int(s)] takes for white space. *)
Definition int_space (c : N) : bool := ((9 <=? c) && (c <=? 13) || (c =? 32))%N || (127 <=? c)%N && is_space c.

Fixpoint drop_int_space (s : text) : text :=
  match s with [] => [] | c :: rest => if int_space c then drop_int_space rest else s end.

(** Digits, with single underscores between them. *)
Fixpoint int_digits (n : Z) (s : text) : option Z :=
  match s with
  | [] => Some n
  | c :: rest =>
      if (c =? 95)%N then
        match rest with d :: rest => v ← decimal d; int_digits (n * 10 + v) rest | [] => None end
      else v ← decimal c; int_digits (n * 10 + v) rest
  end.

Definition int_unsigned (s : text) : option Z :=
  match s with c :: rest => v ← decimal c; int_digits v rest | [] => None end.

(** [int(s)] of at most 4300 digits, [None] where it raises [ValueError]. *)
Definition int_text (s : text) : option Z :=
  match reverse (drop_int_space (reverse (drop_int_space s))) with
  | c :: rest =>
      if (c =? 43)%N then int_unsigned rest else if (c =? 45)%N then Z.opp <$> int_unsigned rest else int_unsigned (c :: rest)
  | [] => None
  end.

(** [str(n)] *)
Definition int_repr (n : Z) : text := ascii_text (pretty n).

(** [_matches] *)
Definition rule_matches (rule : RuleFacts) (source : SourceFacts) (type_fact : option TypeFacts) (group_ids : gset Z) : bool :=
  match rf_kind rule with
  | RK_GROUP => match int_text (rf_pattern rule) with Some n => bool_decide (n ∈ group_ids) | None => false end
  | RK_TYPE =>
      match sf_type_id source with Some type_id => bool_decide (strip (rf_pattern rule) = int_repr type_id) | None => false end
  | RK_TYPE_NAME_REGEX => regex_matches (rf_pattern rule) (tf_name <$> type_fact)
  | RK_NAME_REGEX => regex_matches (rf_pattern rule) (Some (sf_name source))
  | RK_IDENTIFIER_REGEX => regex_matches (rf_pattern rule) (sf_identifier source)
  end.

Definition conflict_of (rule : RuleFacts) : Conflict :=
  {| cf_basis := RuleKind_value (rf_kind rule); cf_rule_id := rule_text (rf_id rule);
     cf_class := SourceClass_value (rf_target_class rule) |}.

(** ** Order *)

(** The next key decides where the texts are the same. *)
Definition then_by (a b : text) (next : bool) : bool := if bool_decide (a = b) then next else text_le a b.

(** The key of [candidates.sort]. *)
Definition rank_le (x y : RuleFacts) : Prop :=
  (if rf_priority x =? rf_priority y then
     then_by (RuleKind_value (rf_kind x)) (RuleKind_value (rf_kind y))
       (then_by (rf_pattern x) (rf_pattern y) (text_le (rule_text (rf_id x)) (rule_text (rf_id y))))
   else rf_priority y <? rf_priority x) = true.

#[export] Instance rank_le_dec : RelDecision rank_le.
Proof. intros x y. unfold rank_le. apply _. Defined.

Definition conflict_le (x y : Conflict) : Prop :=
  then_by (cf_basis x) (cf_basis y) (then_by (cf_rule_id x) (cf_rule_id y) (text_le (cf_class x) (cf_class y))) = true.

#[export] Instance conflict_le_dec : RelDecision conflict_le.
Proof. intros x y. unfold conflict_le. apply _. Defined.

(** ** [classify] *)

Definition candidates_of (source : SourceFacts) (rules : list RuleFacts) (type_fact : option TypeFacts) (group_ids : gset Z)
    : list RuleFacts :=
  stable_sort rank_le (filter (λ r, rf_enabled r && rule_matches r source type_fact group_ids = true) rules).

(** The rules of the highest priority of a level. *)
Definition top_of (kinds : list RuleKind) (candidates : list RuleFacts) : list RuleFacts :=
  let level := filter (λ r, rf_kind r ∈ kinds) candidates in
  match level with
  | [] => []
  | first :: rest =>
      let top_priority := foldl (λ m r, Z.max m (rf_priority r)) (rf_priority first) rest in
      filter (λ r, rf_priority r = top_priority) level
  end.

(** The levels in order: the rule that decides, with its level, and the ties on the way. *)
Fixpoint walk (index : Z) (levels : list (list RuleKind)) (candidates : list RuleFacts) : option (Z * RuleFacts) * list Conflict :=
  match levels with
  | [] => (None, [])
  | kinds :: levels =>
      match top_of kinds candidates with
      | [] => walk (index + 1) levels candidates
      | chosen :: others =>
          if forallb (λ r, bool_decide (rf_target_class r = rf_target_class chosen)) others then (Some (index, chosen), [])
          else
            let w := walk (index + 1) levels candidates in
            (w.1, (conflict_of <$> chosen :: others) ++ w.2)
      end
  end.

(** The candidates of the levels below the winner's that name another class. *)
Definition outvoted (winner_class : SourceClass) (winner_level : Z) (candidates : list RuleFacts) : list Conflict :=
  mjoin (imap (λ level_index kinds,
    if Z.of_nat level_index <=? winner_level then []
    else conflict_of <$> filter (λ r, rf_kind r ∈ kinds ∧ rf_target_class r ≠ winner_class) candidates) LEVELS).

(** One entry per key, in the order of the keys. *)
Definition ordered (conflicts : list Conflict) : list Conflict := stable_sort conflict_le (remove_dups conflicts).

Definition is_internal (source : SourceFacts) (type_fact : option TypeFacts) : bool :=
  match type_fact with Some t => tf_internal t | None => false end ||
  bool_decide (sf_identifier source = Some (ascii_text "127.0.0.1")).

Definition type_fact_of (source : SourceFacts) (types : list TypeFacts) : option TypeFacts :=
  find (λ t, bool_decide (Some (tf_type_id t) = sf_type_id source)) types.

Definition classify (source : SourceFacts) (rules : list RuleFacts) (types : list TypeFacts) (groups : list GroupFacts)
    : ClassificationResult :=
  let type_fact := type_fact_of source types in
  let group_ids := ancestors (sf_group_ids source) (group_table groups) in
  let candidates := candidates_of source rules type_fact group_ids in
  let decided winner_class winner_basis winner_rule_id winner_level conflicts :=
    {| cr_source_class := winner_class; cr_basis := winner_basis; cr_rule_id := winner_rule_id;
       cr_conflicts := ordered (conflicts ++ outvoted winner_class winner_level candidates) |} in
  match sf_override_class source with
  | Some c => decided c (ascii_text "OVERRIDE") None (-1) []
  | None =>
      if is_internal source type_fact then decided SC_QRADAR_INTERNAL (ascii_text "INTERNAL") None (-1) []
      else
        match walk 0 LEVELS candidates with
        | (Some (winner_level, chosen), conflicts) =>
            decided (rf_target_class chosen) (RuleKind_value (rf_kind chosen)) (Some (rf_id chosen)) winner_level conflicts
        | (None, conflicts) =>
            decided SC_UNCLASSIFIED (SourceClass_value SC_UNCLASSIFIED) None (Z.of_nat (length LEVELS)) conflicts
        end
  end.
End Classification.

(** ** Tables *)

Inductive ReviewStatus := RV_NEW | RV_REVIEWED.

#[export] Instance ReviewStatus_eq_dec : EqDecision ReviewStatus.
Proof. solve_decision. Defined.

(** A row of [classification_rule], without its timestamps. *)
Record ClassificationRule := {
  ru_instance_id : option uuid; ru_kind : RuleKind; ru_pattern : text; ru_target_class : SourceClass; ru_priority : Z;
  ru_enabled : bool; ru_built_in : bool; ru_description : option text; ru_created_by : option text }.

#[export] Instance ClassificationRule_eq_dec : EqDecision ClassificationRule.
Proof. solve_decision. Defined.

(** A row of [log_source_classification]. *)
Record Classification := {
  cl_source_class : SourceClass; cl_basis : text; cl_rule_id : option uuid; cl_override_class : option SourceClass;
  cl_override_by : option text; cl_override_at : option instant; cl_conflicts : list Conflict; cl_classified_at : instant;
  cl_review_status : ReviewStatus; cl_reviewed_at : option instant; cl_reviewed_by : option text }.

(** The columns of [log_source] that mirror QRadar. *)
Record Mirrored := {
  mi_name : text; mi_description : option text; mi_type_id : option Z; mi_type_name : option text; mi_protocol_type_id : option Z;
  mi_enabled : bool; mi_status : option text; mi_credibility : option Z; mi_target_event_collector_id : option Z;
  mi_last_event_time : option instant; mi_created_at : option instant; mi_modified_at : option instant;
  mi_auto_discovered : option bool; mi_group_ids : option (list Z); mi_identifier : option text; mi_internal : option bool }.

(** Of the columns the operators own, the ones read here. *)
Record Owned := { ow_owner : option text; ow_monitoring_enabled : bool; ow_maintenance_mode : bool }.

Record LogSource := {
  ls_instance_id : uuid; ls_qradar_id : Z; ls_first_seen_at : instant; ls_mirrored : Mirrored; ls_owned : Owned }.

Record LogSourceType := { ty_name : text; ty_internal : bool }.

Inductive InstanceStatus := IS_HEALTHY | IS_DEGRADED | IS_UNREACHABLE | IS_UNKNOWN.

#[export] Instance InstanceStatus_eq_dec : EqDecision InstanceStatus.
Proof. solve_decision. Defined.

(** The columns of [qradar_instance] that matter here. *)
Record QRadarInstance := {
  qi_name : text; qi_status : InstanceStatus; qi_version : option text; qi_last_health_check_at : option instant;
  qi_last_error : option text }.

Record FleetDb := {
  fd_instances : gmap uuid QRadarInstance; fd_rules : gmap uuid ClassificationRule; fd_sources : gmap uuid LogSource;
  fd_types : gmap (uuid * Z) LogSourceType; fd_groups : gmap (uuid * Z) (option Z); fd_classes : gmap uuid Classification }.

Definition with_rules (f : gmap uuid ClassificationRule → gmap uuid ClassificationRule) (db : FleetDb) : FleetDb :=
  {| fd_instances := fd_instances db; fd_rules := f (fd_rules db); fd_sources := fd_sources db; fd_types := fd_types db;
     fd_groups := fd_groups db; fd_classes := fd_classes db |}.
Definition with_classes (f : gmap uuid Classification → gmap uuid Classification) (db : FleetDb) : FleetDb :=
  {| fd_instances := fd_instances db; fd_rules := fd_rules db; fd_sources := fd_sources db; fd_types := fd_types db;
     fd_groups := fd_groups db; fd_classes := f (fd_classes db) |}.

(** [uq_classification_rule_instance_kind_pattern]: NULL instances are equal. *)
Definition same_rule (a b : ClassificationRule) : bool :=
  bool_decide (ru_instance_id a = ru_instance_id b) && bool_decide (ru_kind a = ru_kind b) && bool_decide (ru_pattern a = ru_pattern b).

Definition taken (rules : gmap uuid ClassificationRule) (id : uuid) (row : ClassificationRule) : bool :=
  existsb (λ x : uuid * ClassificationRule, negb (x.1 =? id)%N && same_rule row x.2) (map_to_list rules).

Definition uq_classification_rule : exn := IntegrityError "uq_classification_rule_instance_kind_pattern".

(** A row written under the unique constraint. *)
Definition put_rule (id : uuid) (row : ClassificationRule) (rules : gmap uuid ClassificationRule)
    : result (gmap uuid ClassificationRule) :=
  if taken rules id row then Err uq_classification_rule else Ok (<[id := row]> rules).

(** ** Built-in rules *)

Record SeedRule := {
  sd_id : uuid; sd_kind : RuleKind; sd_pattern : text; sd_target_class : SourceClass; sd_priority : Z; sd_description : text }.

(** The decimal digits of [n < 10^12] read as hexadecimal ones. *)
Fixpoint decimal_as_hex (digits : nat) (n : N) : N :=
  match digits with O => 0%N | S d => (n mod 10 + 16 * decimal_as_hex d (n / 10))%N end.

(** [_rule]; the identifier is c1000000-0000-0000-0000-, then [suffix] in twelve digits. *)
Definition seed_rule (suffix : N) (kind : RuleKind) (pattern : string) (target_class : SourceClass) (description : string) : SeedRule :=
  {| sd_id := (0xc1000000000000000000000000000000 + decimal_as_hex 12 suffix)%N; sd_kind := kind; sd_pattern := ascii_text pattern;
     sd_target_class := target_class; sd_priority := 100; sd_description := ascii_text description |}.

Definition TYPE_NAME_RULES : list SeedRule := [
  seed_rule 1 RK_TYPE_NAME_REGEX "\b(?:F5 Networks BIG-IP ASM|Imperva SecureSphere|Fortinet FortiWeb|Barracuda Web Application Firewall|ModSecurity)\b"
    SC_WAF "Well-known web application firewall DSMs";
  seed_rule 2 RK_TYPE_NAME_REGEX "\b(?:Snort Open Source IDS|Suricata|McAfee Network Security Platform|TippingPoint|Firepower IPS)\b"
    SC_IPS "Well-known intrusion prevention DSMs";
  seed_rule 3 RK_TYPE_NAME_REGEX "\b(?:Linux iptables Firewall|Netgate pfSense|Cisco ASA)\b" SC_FIREWALL "Well-known firewall DSMs";
  seed_rule 4 RK_TYPE_NAME_REGEX "\b(?:Squid Web Proxy|Blue Coat|Zscaler)\b" SC_PROXY "Well-known proxy DSMs";
  seed_rule 5 RK_TYPE_NAME_REGEX "\b(?:F5 Networks FirePass|Pulse Secure|GlobalProtect)\b" SC_VPN "Well-known VPN DSMs";
  seed_rule 6 RK_TYPE_NAME_REGEX "\b(?:Linux OS|Red Hat Enterprise Linux|Ubuntu Linux)\b" SC_LINUX "Well-known Linux DSMs";
  seed_rule 7 RK_TYPE_NAME_REGEX "\bMicrosoft Windows Security Event Log\b" SC_WINDOWS "Microsoft Windows event DSM";
  seed_rule 8 RK_TYPE_NAME_REGEX "\b(?:DNS|Infoblox NIOS)\b" SC_DNS "DNS DSMs";
  seed_rule 9 RK_TYPE_NAME_REGEX "\b(?:Oracle Database|Microsoft SQL Server|MySQL|PostgreSQL|IBM Db2)\b" SC_DATABASE "Common database DSMs";
  seed_rule 10 RK_TYPE_NAME_REGEX "\b(?:Microsoft Exchange|Proofpoint|Postfix|Sendmail)\b" SC_EMAIL "Common email DSMs";
  seed_rule 11 RK_TYPE_NAME_REGEX "\b(?:Okta|Microsoft Azure Active Directory|CyberArk|IBM Security Verify)\b"
    SC_IDENTITY "Common identity-provider DSMs";
  seed_rule 12 RK_TYPE_NAME_REGEX "\b(?:AWS CloudTrail|Microsoft Azure Platform|Google Cloud Platform)\b" SC_CLOUD "Common cloud-platform DSMs";
  seed_rule 13 RK_TYPE_NAME_REGEX "\b(?:CrowdStrike Falcon|Microsoft Defender for Endpoint|Symantec Endpoint Protection|McAfee ePolicy Orchestrator)\b"
    SC_ENDPOINT "Common endpoint-security DSMs"].

Definition NAME_RULES : list SeedRule :=
  imap (λ index '(pattern, target, description), seed_rule (100 + N.of_nat index) RK_NAME_REGEX pattern target description) [
    ("\bwaf\b", SC_WAF, "Site name token: waf"); ("\b(?:ips|ids)\b", SC_IPS, "Site name token: ips or ids");
    ("\b(?:fw|firewall)\b", SC_FIREWALL, "Site name token: fw or firewall"); ("\blinux\b", SC_LINUX, "Site name token: linux");
    ("\bwindows\b", SC_WINDOWS, "Site name token: windows"); ("\bproxy\b", SC_PROXY, "Site name token: proxy");
    ("\bvpn\b", SC_VPN, "Site name token: vpn"); ("\bdns\b", SC_DNS, "Site name token: dns")].

Definition SEED_RULES : list SeedRule := TYPE_NAME_RULES ++ NAME_RULES.

Definition seed_row (item : SeedRule) : ClassificationRule :=
  {| ru_instance_id := None; ru_kind := sd_kind item; ru_pattern := sd_pattern item; ru_target_class := sd_target_class item;
     ru_priority := sd_priority item; ru_enabled := true; ru_built_in := true; ru_description := Some (sd_description item);
     ru_created_by := None |}.

(** What the update of the upsert sets. *)
Definition reseeded (item : SeedRule) (row : ClassificationRule) : ClassificationRule :=
  {| ru_instance_id := ru_instance_id row; ru_kind := sd_kind item; ru_pattern := sd_pattern item;
     ru_target_class := sd_target_class item; ru_priority := sd_priority item; ru_enabled := ru_enabled row;
     ru_built_in := ru_built_in row; ru_description := Some (sd_description item); ru_created_by := ru_created_by row |}.

Definition seed_one (rules : gmap uuid ClassificationRule) (item : SeedRule) : result (gmap uuid ClassificationRule) :=
  match rules !! sd_id item with
  | None => put_rule (sd_id item) (seed_row item) rules
  | Some row => if ru_built_in row then put_rule (sd_id item) (reseeded item row) rules else Ok rules
  end.

(** [ensure_seed_rules] *)
Definition ensure_seed_rules (db : FleetDb) : result FleetDb :=
  rules <- foldM seed_one (fd_rules db) SEED_RULES ;;
  Ok (with_rules (λ _, rules) db).

(** ** Classifying an instance *)

Record AppliedClassification := { ap_result : ClassificationResult; ap_review_status : ReviewStatus }.

(** [override_updates]: a class to set, or [None] to clear. *)
Abbreviation override_updates := (option (gmap uuid (option SourceClass))) (only parsing).

(** [if override_updates:] *)
Definition overrides_given (updates : override_updates) : bool :=
  match updates with Some m => negb (bool_decide (m = ∅)) | None => false end.

(** The enabled rules, global or of the instance. *)
Definition rule_facts (instance_id : uuid) (rules : gmap uuid ClassificationRule) : list RuleFacts :=
  (λ x : uuid * ClassificationRule,
    {| rf_id := x.1; rf_kind := ru_kind x.2; rf_pattern := ru_pattern x.2; rf_target_class := ru_target_class x.2;
       rf_priority := ru_priority x.2; rf_enabled := ru_enabled x.2 |}) <$>
  filter (λ x : uuid * ClassificationRule,
    ru_enabled x.2 = true ∧ (ru_instance_id x.2 = None ∨ ru_instance_id x.2 = Some instance_id)) (map_to_list rules).

(** The override of a source after the call, by whom and since when. *)
Definition override_of (current : option Classification) (source_id : uuid) (updates : override_updates) (actor : option text)
    (classified_at : instant) : option SourceClass * option text * option instant :=
  match updates ≫= lookup source_id with
  | Some override => (override, if is_some_b override then actor else None, if is_some_b override then Some classified_at else None)
  | None => (current ≫= cl_override_class, current ≫= cl_override_by, current ≫= cl_override_at)
  end.

Definition source_facts (source : LogSource) (override : option SourceClass) : SourceFacts :=
  let m := ls_mirrored source in
  {| sf_name := mi_name m; sf_type_id := mi_type_id m; sf_identifier := mi_identifier m;
     sf_group_ids := default [] (mi_group_ids m); sf_override_class := override |}.

Definition review_of (current : option Classification) (is_new bootstrap : bool) (source_class : SourceClass) : ReviewStatus :=
  match current with
  | Some row => cl_review_status row
  | None => if is_new && negb bootstrap && negb (bool_decide (source_class = SC_QRADAR_INTERNAL)) then RV_NEW else RV_REVIEWED
  end.

(** The upsert of one row: the columns of [set_] where there is a row already. *)
Definition upserted (overriding : bool) (values : Classification) (row : option Classification) : Classification :=
  match row with
  | None => values
  | Some old =>
      {| cl_source_class := cl_source_class values; cl_basis := cl_basis values; cl_rule_id := cl_rule_id values;
         cl_override_class := (if overriding then cl_override_class values else cl_override_class old);
         cl_override_by := (if overriding then cl_override_by values else cl_override_by old);
         cl_override_at := (if overriding then cl_override_at values else cl_override_at old);
         cl_conflicts := cl_conflicts values; cl_classified_at := cl_classified_at values;
         cl_review_status := cl_review_status old; cl_reviewed_at := cl_reviewed_at old; cl_reviewed_by := cl_reviewed_by old |}
  end.

Section Service.
Context (re_search : text → text → option bool) (decimal : N → option Z).

(** The values of one source. *)
Definition values_of (rules : list RuleFacts) (types : list TypeFacts) (groups : list GroupFacts) (classes : gmap uuid Classification)
    (new_source_ids : gset uuid) (bootstrap : bool) (classified_at : instant) (updates : override_updates) (actor : option text)
    (source_id : uuid) (source : LogSource) : Classification * AppliedClassification :=
  let current := classes !! source_id in
  let '(override, override_by, override_at) := override_of current source_id updates actor classified_at in
  let result := classify re_search decimal (source_facts source override) rules types groups in
  let review_status := review_of current (bool_decide (source_id ∈ new_source_ids)) bootstrap (cr_source_class result) in
  ({| cl_source_class := cr_source_class result; cl_basis := cr_basis result; cl_rule_id := cr_rule_id result;
      cl_override_class := override; cl_override_by := override_by; cl_override_at := override_at;
      cl_conflicts := cr_conflicts result; cl_classified_at := classified_at; cl_review_status := review_status;
      cl_reviewed_at := current ≫= cl_reviewed_at; cl_reviewed_by := current ≫= cl_reviewed_by |},
   {| ap_result := result; ap_review_status := review_status |}).

(** [classify_sources] *)
Definition classify_sources (instance_id : uuid) (sources : list (uuid * LogSource)) (types : list TypeFacts)
    (groups : list GroupFacts) (new_source_ids : gset uuid) (bootstrap : bool) (classified_at : instant)
    (updates : override_updates) (actor : option text) (db : FleetDb) : result (FleetDb * gmap uuid AppliedClassification) :=
  db <- ensure_seed_rules db ;;
  let rules := rule_facts instance_id (fd_rules db) in
  let values := (λ x : uuid * LogSource,
    (x.1, values_of rules types groups (fd_classes db) new_source_ids bootstrap classified_at updates actor x.1 x.2)) <$> sources in
  let write classes (v : uuid * (Classification * AppliedClassification)) :=
    partial_alter (λ row, Some (upserted (overrides_given updates) v.2.1 row)) v.1 classes in
  Ok (with_classes (λ classes, foldl write classes values) db,
      foldl (λ applied v, <[v.1 := v.2.2]> applied) ∅ values).

(** [select(LogSource).where(instance_id == ...)] *)
Definition sources_of (instance_id : uuid) (db : FleetDb) : list (uuid * LogSource) :=
  filter (λ x : uuid * LogSource, ls_instance_id x.2 = instance_id) (map_to_list (fd_sources db)).

Definition type_facts (instance_id : uuid) (db : FleetDb) : list TypeFacts :=
  (λ x : (uuid * Z) * LogSourceType, {| tf_type_id := x.1.2; tf_name := ty_name x.2; tf_internal := ty_internal x.2 |}) <$>
  filter (λ x : (uuid * Z) * LogSourceType, x.1.1 = instance_id) (map_to_list (fd_types db)).

Definition group_facts (instance_id : uuid) (db : FleetDb) : list GroupFacts :=
  (λ x : (uuid * Z) * option Z, {| gf_qradar_id := x.1.2; gf_parent_qradar_id := x.2 |}) <$>
  filter (λ x : (uuid * Z) * option Z, x.1.1 = instance_id) (map_to_list (fd_groups db)).

(** [reclassify_instance]; [only] is [source_ids]. *)
Definition reclassify_instance (instance_id : uuid) (classified_at : instant) (only : option (list uuid))
    (updates : override_updates) (actor : option text) (db : FleetDb) : result (FleetDb * gmap uuid AppliedClassification) :=
  let wanted (x : uuid * LogSource) := match only with Some ids => bool_decide (x.1 ∈ ids) | None => true end in
  let sources := filter (λ x, wanted x = true) (sources_of instance_id db) in
  classify_sources instance_id sources (type_facts instance_id db) (group_facts instance_id db) ∅ true classified_at updates actor db.

(** [reclassify_for_rule] *)
Definition reclassify_for_rule (instance_id : option uuid) (classified_at : instant) (db : FleetDb) : result FleetDb :=
  let instance_ids := match instance_id with Some i => [i] | None => (map_to_list (fd_instances db)).*1 end in
  foldM (λ db item, r <- reclassify_instance item classified_at None None None db ;; Ok r.1) db instance_ids.
End Service.
