(* ===== verification/FleetAdmin.v ===== *)
(** * Inventory, rules and reviews

    [services/inventory_sync.py], the checks of [schemas/fleet.py], [api/routes/classification_rules.py]
    and the classification routes of [api/routes/log_sources.py]. [digit] is [str.isdigit] of a code
    point, [re_compiles] whether [re.compile] accepts a pattern, [clean] is [bleach.clean], and
    [fingerprint] is [inventory_fingerprint] (alerts/fingerprint.py), a digest. Text fits its columns,
    and the identifiers drawn for new rows are those of no row. *)

From S2P Require Import Prelude PyStr PyFloat PyTime PyJson Enums Accounts SignIn AlertService Fleet.
From Stdlib Require Import Ascii.

Record FleetWorld := { fw_db : FleetDb; fw_alerts : AlertSession; fw_audit : list AuditLog }.

Definition with_db (db : FleetDb) (w : FleetWorld) : FleetWorld :=
  {| fw_db := db; fw_alerts := fw_alerts w; fw_audit := fw_audit w |}.

(** [record_audit]; of the detail nothing is kept. *)
Definition audited (action : string) (actor : Principal) (object_id : uuid) (w : FleetWorld) : FleetWorld :=
  {| fw_db := fw_db w; fw_alerts := fw_alerts w;
     fw_audit := fw_audit w ++ [{| au_action := action; au_actor := Some (take 255 (pr_subject actor)); au_actor_id := None;
                                  au_object_id := Some object_id; au_outcome := "SUCCESS"; au_reason := "" |}] |}.

Definition PERM_CLASSIFICATION_ADMIN : text := ascii_text "admin:classification".
Definition PERM_LOG_SOURCE_WRITE : text := ascii_text "log_source:write".

(** ** Rule administration *)

Definition MAX_PATTERN_LENGTH : nat := 256.

(** A refused body. *)
Definition unprocessable (why : string) : exn := HTTPException 422 [ascii_text why].

Record RuleCreate := {
  rc_instance_id : option uuid; rc_kind : RuleKind; rc_pattern : text; rc_target_class : SourceClass; rc_priority : Z;
  rc_enabled : bool; rc_description : option text }.

(** A field that is not sent is not in the changes; one sent as null is [Some None]. *)
Record RuleUpdate := {
  up_pattern : option (option text); up_target_class : option (option SourceClass); up_priority : option (option Z);
  up_enabled : option (option bool); up_description : option (option text) }.

Definition duplicate_rule : exn := HTTPException 409 [ascii_text "a rule with this instance, kind and pattern already exists"].

Section Rules.
Context (re_search : text → text → option bool) (decimal : N → option Z) (digit : N → bool) (re_compiles : text → bool).

(** [str.isdigit] *)
Definition is_digits (s : text) : bool := negb (bool_decide (s = [])) && forallb digit s.

Definition check_pattern (kind : RuleKind) (pattern : text) : result unit :=
  _ <- raise_if (bool_decide (strip pattern = [])) (unprocessable "pattern must not be empty") ;;
  _ <- raise_if (Nat.ltb MAX_PATTERN_LENGTH (length pattern)) (unprocessable "pattern must be at most 256 characters") ;;
  match kind with
  | RK_TYPE_NAME_REGEX | RK_NAME_REGEX | RK_IDENTIFIER_REGEX =>
      raise_if (negb (re_compiles pattern)) (unprocessable "pattern is not a valid regular expression")
  | RK_GROUP | RK_TYPE => raise_if (negb (is_digits (strip pattern))) (unprocessable "a rule needs a numeric id as its pattern")
  end.

Definition check_priority (priority : Z) : result unit :=
  raise_if (negb ((0 <=? priority) && (priority <=? 10000))) (unprocessable "priority").
Definition check_description (description : option text) : result unit :=
  raise_if (match description with Some d => Nat.ltb 1000 (length d) | None => false end) (unprocessable "description").

(** The validators of [ClassificationRuleCreate]. *)
Definition check_create (payload : RuleCreate) : result unit :=
  _ <- raise_if (bool_decide (rc_pattern payload = [])) (unprocessable "pattern") ;;
  _ <- check_priority (rc_priority payload) ;;
  _ <- check_description (rc_description payload) ;;
  _ <- raise_if (bool_decide (rc_target_class payload = SC_UNCLASSIFIED)) (unprocessable "a rule cannot target UNCLASSIFIED") ;;
  check_pattern (rc_kind payload) (rc_pattern payload).

(** The fields of [ClassificationRuleUpdate]. *)
Definition check_update (payload : RuleUpdate) : result unit :=
  _ <- raise_if (bool_decide (up_pattern payload = Some (Some []))) (unprocessable "pattern") ;;
  _ <- (match up_priority payload with Some (Some p) => check_priority p | _ => Ok tt end) ;;
  match up_description payload with Some d => check_description d | None => Ok tt end.

(** [create_rule]; [new_id] is the identifier the row draws. *)
Definition create_rule (principal : Principal) (payload : RuleCreate) (new_id : uuid) (now : instant) (w : FleetWorld)
    : result FleetWorld :=
  _ <- check_create payload ;;
  _ <- require_permission principal PERM_CLASSIFICATION_ADMIN ;;
  _ <- raise_if (match rc_instance_id payload with Some i => negb (is_some_b (fd_instances (fw_db w) !! i)) | None => false end)
         (unprocessable "unknown instance_id") ;;
  let rule := {| ru_instance_id := rc_instance_id payload; ru_kind := rc_kind payload; ru_pattern := rc_pattern payload;
                 ru_target_class := rc_target_class payload; ru_priority := rc_priority payload; ru_enabled := rc_enabled payload;
                 ru_built_in := false; ru_description := rc_description payload; ru_created_by := Some (pr_subject principal) |} in
  match (if is_some_b (fd_rules (fw_db w) !! new_id) then Err duplicate_rule else put_rule new_id rule (fd_rules (fw_db w))) with
  | Err _ => Err duplicate_rule
  | Ok rules =>
      let w := audited "classification_rule.create" principal new_id (with_db (with_rules (λ _, rules) (fw_db w)) w) in
      db <- reclassify_for_rule re_search decimal (rc_instance_id payload) now (fw_db w) ;;
      Ok (with_db db w)
  end.

(** [_get] *)
Definition get_rule (rule_id : uuid) (w : FleetWorld) : result ClassificationRule :=
  match fd_rules (fw_db w) !! rule_id with
  | Some rule => Ok rule
  | None => Err (HTTPException 404 [ascii_text "classification rule not found"])
  end.

(** [set(changes) - {"enabled"}] *)
Definition beyond_enabled (changes : RuleUpdate) : bool :=
  is_some_b (up_pattern changes) || is_some_b (up_target_class changes) || is_some_b (up_priority changes) ||
  is_some_b (up_description changes).

Definition nulled {A} (change : option (option A)) : bool := match change with Some None => true | _ => false end.

(** The row after [setattr] of every change; a null class is not a row. *)
Definition changed_rule (changes : RuleUpdate) (rule : ClassificationRule) : option ClassificationRule :=
  let new {A} (change : option (option A)) (old : A) : A := match change with Some (Some v) => v | _ => old end in
  if nulled (up_target_class changes) then None
  else Some {| ru_instance_id := ru_instance_id rule; ru_kind := ru_kind rule; ru_pattern := new (up_pattern changes) (ru_pattern rule);
               ru_target_class := new (up_target_class changes) (ru_target_class rule);
               ru_priority := new (up_priority changes) (ru_priority rule); ru_enabled := new (up_enabled changes) (ru_enabled rule);
               ru_built_in := ru_built_in rule;
               ru_description := (match up_description changes with Some d => d | None => ru_description rule end);
               ru_created_by := ru_created_by rule |}.

(** What the handler refuses of the changes. *)
Definition check_changes (rule : ClassificationRule) (changes : RuleUpdate) : result unit :=
  _ <- raise_if (ru_built_in rule && beyond_enabled changes)
         (HTTPException 409 [ascii_text "a built-in rule can only be enabled or disabled"]) ;;
  _ <- raise_if (nulled (up_enabled changes)) (unprocessable "enabled cannot be null") ;;
  _ <- raise_if (nulled (up_priority changes)) (unprocessable "priority cannot be null") ;;
  _ <- raise_if (nulled (up_pattern changes)) (unprocessable "pattern cannot be null") ;;
  _ <- (match up_pattern changes with Some (Some p) => check_pattern (ru_kind rule) p | _ => Ok tt end) ;;
  raise_if (bool_decide (up_target_class changes = Some (Some SC_UNCLASSIFIED))) (unprocessable "a rule cannot target UNCLASSIFIED").

(** [update_rule] *)
Definition update_rule (principal : Principal) (rule_id : uuid) (changes : RuleUpdate) (now : instant) (w : FleetWorld)
    : result FleetWorld :=
  _ <- check_update changes ;;
  _ <- require_permission principal PERM_CLASSIFICATION_ADMIN ;;
  rule <- get_rule rule_id w ;;
  _ <- check_changes rule changes ;;
  match (match changed_rule changes rule with Some row => put_rule rule_id row (fd_rules (fw_db w)) | None => Err duplicate_rule end) with
  | Err _ => Err duplicate_rule
  | Ok rules =>
      let w := audited "classification_rule.update" principal rule_id (with_db (with_rules (λ _, rules) (fw_db w)) w) in
      db <- reclassify_for_rule re_search decimal (ru_instance_id rule) now (fw_db w) ;;
      Ok (with_db db w)
  end.

(** [ON DELETE SET NULL] *)
Definition unlink_rule (rule_id : uuid) (row : Classification) : Classification :=
  {| cl_source_class := cl_source_class row; cl_basis := cl_basis row;
     cl_rule_id := (if bool_decide (cl_rule_id row = Some rule_id) then None else cl_rule_id row);
     cl_override_class := cl_override_class row; cl_override_by := cl_override_by row; cl_override_at := cl_override_at row;
     cl_conflicts := cl_conflicts row; cl_classified_at := cl_classified_at row; cl_review_status := cl_review_status row;
     cl_reviewed_at := cl_reviewed_at row; cl_reviewed_by := cl_reviewed_by row |}.

(** [delete_rule] *)
Definition delete_rule (principal : Principal) (rule_id : uuid) (now : instant) (w : FleetWorld) : result FleetWorld :=
  _ <- require_permission principal PERM_CLASSIFICATION_ADMIN ;;
  rule <- get_rule rule_id w ;;
  _ <- raise_if (ru_built_in rule) (HTTPException 409 [ascii_text "a built-in rule cannot be deleted; disable it instead"]) ;;
  let db := with_classes (fmap (unlink_rule rule_id)) (with_rules (delete rule_id) (fw_db w)) in
  let w := audited "classification_rule.delete" principal rule_id (with_db db w) in
  db <- reclassify_for_rule re_search decimal (ru_instance_id rule) now (fw_db w) ;;
  Ok (with_db db w).
End Rules.

(** ** Overrides and reviews *)

Section Review.
Context (re_search : text → text → option bool) (decimal : N → option Z) (fingerprint : uuid → Z → string).

Definition get_source (log_source_id : uuid) (w : FleetWorld) : result LogSource :=
  match fd_sources (fw_db w) !! log_source_id with
  | Some ls => Ok ls
  | None => Err (HTTPException 404 [ascii_text "log source not found"])
  end.

(** [set_classification_override] *)
Definition set_classification_override (principal : Principal) (log_source_id : uuid) (override_class : option SourceClass)
    (now : instant) (w : FleetWorld) : result FleetWorld :=
  _ <- require_permission principal PERM_LOG_SOURCE_WRITE ;;
  ls <- get_source log_source_id w ;;
  r <- reclassify_instance re_search decimal (ls_instance_id ls) now (Some [log_source_id]) (Some {[log_source_id := override_class]})
         (Some (pr_subject principal)) (fw_db w) ;;
  Ok (audited "log_source.classification_override" principal log_source_id (with_db r.1 w)).

Definition reviewed (now : instant) (by_ : text) (row : Classification) : Classification :=
  {| cl_source_class := cl_source_class row; cl_basis := cl_basis row; cl_rule_id := cl_rule_id row;
     cl_override_class := cl_override_class row; cl_override_by := cl_override_by row; cl_override_at := cl_override_at row;
     cl_conflicts := cl_conflicts row; cl_classified_at := cl_classified_at row; cl_review_status := RV_REVIEWED;
     cl_reviewed_at := Some now; cl_reviewed_by := Some by_ |}.

(** A text as the bytes the strings of the alerts are. *)
Definition utf8 (t : text) : string := String.string_of_list_ascii (ascii_of_N <$> encode_utf8 t).

(** [mark_reviewed]; the second component is the resolution the notifications are enqueued for. *)
Definition mark_reviewed (race : nat → list Alert → list Alert) (principal : Principal) (log_source_id : uuid) (now : instant)
    (w : FleetWorld) : result (FleetWorld * option AlertResult) :=
  _ <- require_permission principal PERM_LOG_SOURCE_WRITE ;;
  ls <- get_source log_source_id w ;;
  match fd_classes (fw_db w) !! log_source_id with
  | None =>
      r <- reclassify_instance re_search decimal (ls_instance_id ls) now (Some [log_source_id]) None None (fw_db w) ;;
      Ok (with_db r.1 w, None)
  | Some row =>
      if bool_decide (cl_review_status row = RV_REVIEWED) then Ok (w, None)
      else
        let db := with_classes (<[log_source_id := reviewed now (pr_subject principal) row]>) (fw_db w) in
        let resolution := {| rs_fingerprint := fingerprint (ls_instance_id ls) (ls_qradar_id ls); rs_actor := utf8 (pr_subject principal);
                             rs_reason := Some "log source reviewed" |} in
        r <- apply_bulk (λ _, DT now true) race [] [resolution] (fw_alerts w) ;;
        let w := {| fw_db := db; fw_alerts := r.2; fw_audit := fw_audit w |} in
        Ok (audited "log_source.review" principal log_source_id w, default None (head r.1.2))
  end.
End Review.

(** ** Inventory sync *)

(** What a provider answers: a value, or a [ProviderError] of a class with a message. *)
Inductive Answer (A : Type) := Answered (a : A) | ProviderError (class message : string).
Arguments Answered {A} a.
Arguments ProviderError {A} class message.

Record InstanceInfo := { ii_version : option text; ii_reachable : bool }.

(** Its columns are the fields of the DTO, before sanitizing. *)
Record LogSourceDTO := { do_qradar_id : Z; do_columns : Mirrored }.

Record LogSourceTypeDTO := { td_type_id : Z; td_name : text; td_internal : bool }.

Record LogSourceGroupDTO := { gd_qradar_id : Z; gd_parent_qradar_id : option Z }.

Record Provider := {
  pv_info : Answer InstanceInfo; pv_types : Answer (list LogSourceTypeDTO); pv_groups : Answer (list LogSourceGroupDTO);
  pv_sources : Answer (list LogSourceDTO) }.

Record SyncResult := { sy_log_sources_seen : nat; sy_created : nat; sy_updated : nat; sy_instance_version : option text }.

(** How a sync ends: its result, or the [ProviderError] it lets through. *)
Inductive SyncEnd := Synced (r : SyncResult) | SyncFailed (class message : string).

(** [sanitized_error] of a [ProviderError] *)
Definition sanitized_error (class message : string) : text := take 512 (ascii_text (class +:+ ": " +:+ message)).

(** What the loop over the sources has made: the rows by QRadar identifier, and the new ones in order. *)
Record Seen := { se_rows : gmap Z (uuid * LogSource); se_new : list uuid; se_created : nat; se_updated : nat }.

Section Sync.
Context (re_search : text → text → option bool) (decimal : N → option Z) (clean : text → text) (fingerprint : uuid → Z → string)
        (alerts_enabled : bool).

(** [sanitize_text(x)], [None] for [None]. *)
Definition sanitized (x : option text) : option text := sanitize_text clean <$> x.

(** [sanitize_text(name) or name] *)
Definition sanitized_name (name : text) : text := match sanitize_text clean name with [] => name | s => s end.

(** [dto.type_name or type_names.get(dto.type_id or -1)] *)
Definition resolved_type (types : list LogSourceTypeDTO) (m : Mirrored) : option text :=
  let type_names : gmap Z text := foldl (λ names t, <[td_type_id t := td_name t]> names) ∅ types in
  match mi_type_name m with Some (c :: rest) => Some (c :: rest) | _ => type_names !! or_int (mi_type_id m) (-1) end.

Definition mirrored (types : list LogSourceTypeDTO) (m : Mirrored) : Mirrored :=
  {| mi_name := sanitized_name (mi_name m); mi_description := sanitized (mi_description m); mi_type_id := mi_type_id m;
     mi_type_name := sanitized (resolved_type types m); mi_protocol_type_id := mi_protocol_type_id m; mi_enabled := mi_enabled m;
     mi_status := mi_status m; mi_credibility := mi_credibility m; mi_target_event_collector_id := mi_target_event_collector_id m;
     mi_last_event_time := mi_last_event_time m; mi_created_at := mi_created_at m; mi_modified_at := mi_modified_at m;
     mi_auto_discovered := mi_auto_discovered m; mi_group_ids := mi_group_ids m; mi_identifier := sanitized (mi_identifier m);
     mi_internal := mi_internal m |}.

(** The columns' defaults. *)
Definition owned_default : Owned := {| ow_owner := None; ow_monitoring_enabled := true; ow_maintenance_mode := false |}.

(** One turn of the loop over the sources. *)
Definition see (instance_id : uuid) (now : instant) (types : list LogSourceTypeDTO) (new_id : Z → uuid) (s : Seen) (dto : LogSourceDTO)
    : Seen :=
  let id := do_qradar_id dto in
  let write first_seen owned :=
    {| ls_instance_id := instance_id; ls_qradar_id := id; ls_first_seen_at := first_seen;
       ls_mirrored := mirrored types (do_columns dto); ls_owned := owned |} in
  match se_rows s !! id with
  | None =>
      {| se_rows := <[id := (new_id id, write now owned_default)]> (se_rows s); se_new := se_new s ++ [new_id id];
         se_created := S (se_created s); se_updated := se_updated s |}
  | Some (row_id, row) =>
      {| se_rows := <[id := (row_id, write (ls_first_seen_at row) (ls_owned row))]> (se_rows s); se_new := se_new s;
         se_created := se_created s; se_updated := S (se_updated s) |}
  end.

(** [by_qradar_id] *)
Definition by_qradar_id (instance_id : uuid) (db : FleetDb) : gmap Z (uuid * LogSource) :=
  list_to_map ((λ x : uuid * LogSource, (ls_qradar_id x.2, x)) <$> sources_of instance_id db).

(** The alert of a new source. *)
Definition new_source_alert (instance_id : uuid) (instance_name : text) (source_id : uuid) (source : LogSource) (r : ClassificationResult)
    : AlertInput :=
  let m := ls_mirrored source in
  let opt x := match x with Some t => JStr (utf8 t) | None => JNull end in
  {| in_fingerprint := fingerprint instance_id (ls_qradar_id source); in_title := "New log source: " +:+ utf8 (mi_name m);
     in_severity := SEV_LOW; in_source_type := "log_source"; in_source_id := Some source_id;
     in_description := Some "A new non-internal log source requires SOC review.";
     in_evidence := Some [("qradar_id", JInt (ls_qradar_id source));
                          ("first_seen_at", JStr (dt_isoformat (DT (ls_first_seen_at source) true)))];
     in_source_anomaly_ids := None;
     in_context := Some
       [("class", JStr (utf8 (SourceClass_value (cr_source_class r)))); ("source_class", JStr (utf8 (SourceClass_value (cr_source_class r))));
        ("basis", JStr (utf8 (cr_basis r))); ("type", opt (mi_type_name m));
        ("auto_discovered", match mi_auto_discovered m with Some b => JBool b | None => JNull end); ("identifier", opt (mi_identifier m));
        ("owner", opt (ow_owner (ls_owned source))); ("instance", JStr (utf8 instance_name))] |}.

(** The rows of types, groups and sources of this pass, written. *)
Definition write_inventory (instance_id : uuid) (types : list TypeFacts) (groups : list GroupFacts) (rows : gmap Z (uuid * LogSource))
    (db : FleetDb) : FleetDb :=
  {| fd_instances := fd_instances db; fd_rules := fd_rules db;
     fd_sources := foldl (λ m x, <[x.1 := x.2]> m) (fd_sources db) (map_to_list rows).*2;
     fd_types := foldl (λ m t, <[(instance_id, tf_type_id t) := {| ty_name := tf_name t; ty_internal := tf_internal t |}]> m) (fd_types db) types;
     fd_groups := foldl (λ m g, <[(instance_id, gf_qradar_id g) := gf_parent_qradar_id g]> m) (fd_groups db) groups;
     fd_classes := fd_classes db |}.

Definition with_instance (instance_id : uuid) (f : QRadarInstance → QRadarInstance) (db : FleetDb) : FleetDb :=
  {| fd_instances := alter f instance_id (fd_instances db); fd_rules := fd_rules db; fd_sources := fd_sources db;
     fd_types := fd_types db; fd_groups := fd_groups db; fd_classes := fd_classes db |}.

Definition unreachable (now : instant) (error : text) (i : QRadarInstance) : QRadarInstance :=
  {| qi_name := qi_name i; qi_status := IS_UNREACHABLE; qi_version := qi_version i; qi_last_health_check_at := Some now;
     qi_last_error := Some error |}.

Definition checked (now : instant) (info : InstanceInfo) (i : QRadarInstance) : QRadarInstance :=
  {| qi_name := qi_name i; qi_status := (if ii_reachable info then IS_HEALTHY else IS_UNREACHABLE); qi_version := ii_version info;
     qi_last_health_check_at := Some now; qi_last_error := None |}.

(** The inputs of the new sources that were left for review. *)
Definition alert_inputs (instance_id : uuid) (instance_name : text) (sources : gmap uuid LogSource) (new_sources : list uuid)
    (applied : gmap uuid AppliedClassification) : list AlertInput :=
  omap (λ id,
    match sources !! id, applied !! id with
    | Some source, Some a =>
        if bool_decide (ap_review_status a = RV_NEW) then Some (new_source_alert instance_id instance_name id source (ap_result a)) else None
    | _, _ => None
    end) new_sources.

(** The pass once the provider has answered. *)
Definition sync_answers (clock : nat → datetime) (race : nat → list Alert → list Alert) (instance_id : uuid) (instance_name : text)
    (now : instant) (new_id : Z → uuid) (type_dtos : list LogSourceTypeDTO) (group_dtos : list LogSourceGroupDTO)
    (dtos : list LogSourceDTO) (w : FleetWorld) : result (FleetWorld * Seen) :=
  let types := (λ t, {| tf_type_id := td_type_id t; tf_name := sanitized_name (td_name t); tf_internal := td_internal t |}) <$> type_dtos in
  let groups := (λ g, {| gf_qradar_id := gd_qradar_id g; gf_parent_qradar_id := gd_parent_qradar_id g |}) <$> group_dtos in
  let existing := by_qradar_id instance_id (fw_db w) in
  let seen := foldl (see instance_id now type_dtos new_id)
                {| se_rows := existing; se_new := []; se_created := 0; se_updated := 0 |} dtos in
  let sources := (map_to_list (se_rows seen)).*2 in
  let db := write_inventory instance_id types groups (se_rows seen) (fw_db w) in
  r <- classify_sources re_search decimal instance_id sources types groups (list_to_set (se_new seen)) (bool_decide (existing = ∅)) now
         None None db ;;
  let inputs := if alerts_enabled then alert_inputs instance_id instance_name (fd_sources db) (se_new seen) r.2 else [] in
  alerts <- (match inputs with [] => Ok (fw_alerts w) | _ => a <- apply_bulk clock race inputs [] (fw_alerts w) ;; Ok a.2 end) ;;
  Ok ({| fw_db := r.1; fw_alerts := alerts; fw_audit := fw_audit w |}, seen).

(** [InventorySyncService.sync] of a stored instance. *)
Definition sync (clock : nat → datetime) (race : nat → list Alert → list Alert) (provider : Provider) (instance_id : uuid)
    (instance : QRadarInstance) (now : instant) (new_id : Z → uuid) (w : FleetWorld) : result (FleetWorld * SyncEnd) :=
  match pv_info provider with
  | ProviderError class message =>
      Ok (with_db (with_instance instance_id (unreachable now (sanitized_error class message)) (fw_db w)) w, SyncFailed class message)
  | Answered info =>
      let w := with_db (with_instance instance_id (checked now info) (fw_db w)) w in
      let group_dtos := match pv_groups provider with Answered l => l | ProviderError _ _ => [] end in
      match pv_types provider, pv_sources provider with
      | ProviderError class message, _ | Answered _, ProviderError class message => Ok (w, SyncFailed class message)
      | Answered type_dtos, Answered dtos =>
          r <- sync_answers clock race instance_id (qi_name instance) now new_id type_dtos group_dtos dtos w ;;
          Ok (r.1, Synced {| sy_log_sources_seen := length dtos; sy_created := se_created r.2; sy_updated := se_updated r.2;
                             sy_instance_version := ii_version info |})
      end
  end.
End Sync.
