(* ===== verification/ClassifyTheorems.v ===== *)
(** * The class of a log source: theorems

    The walk up the groups, the order of rules and of conflicts, the contract of [classify] and its
    independence of the order of its tables. *)

From S2P Require Import Prelude PyStr Accounts Fleet.

(** ** Groups *)

(** A group is the next of the walk. *)
Definition parent_step (groups : gmap Z GroupFacts) (current parent : Z) : Prop :=
  ∃ g, groups !! current = Some g ∧ gf_parent_qradar_id g = Some parent ∧ parent ≠ current ∧ (parent = 0 → current = 0).

Lemma parent_step_fun groups a b c : parent_step groups a b → parent_step groups a c → b = c.
Proof. intros (g & Hg & Hb & _) (g' & Hg' & Hc & _). congruence. Qed.

(** What a walk has met is closed under the step, but for where it stands. *)
Definition walked (groups : gmap Z GroupFacts) (start current : Z) (branch : gset Z) : Prop :=
  (∀ x, x ∈ branch → rtc (parent_step groups) start x) ∧ rtc (parent_step groups) start current ∧
  (∀ x y, x ∈ branch → parent_step groups x y → y ∈ branch ∨ y = current) ∧ (start ∈ branch ∨ start = current).

(** The groups of the table the walk has not met. *)
Definition unmet (groups : gmap Z GroupFacts) (branch : gset Z) : gset Z := dom groups ∖ branch.

Lemma climb_exact groups start : ∀ fuel current branch,
  walked groups start current branch → (size (unmet groups branch) < fuel)%nat →
  (∀ x, x ∈ climb fuel groups current branch → rtc (parent_step groups) start x) ∧
  (∀ x y, x ∈ climb fuel groups current branch → parent_step groups x y → y ∈ climb fuel groups current branch) ∧
  start ∈ climb fuel groups current branch.
Proof.
  induction fuel as [|fuel IH]; intros current branch (Hr & Hc & Hs & H0) Hf; [lia|]. cbn [climb].
  destruct (decide (current ∈ branch)) as [Hin|Hin].
  { repeat split; [done|intros x y Hx Hxy; destruct (Hs x y Hx Hxy); by subst|destruct H0; by subst]. }
  assert (Hr' : ∀ x, x ∈ {[current]} ∪ branch → rtc (parent_step groups) start x) by set_solver.
  assert (H0' : start ∈ {[current]} ∪ branch) by set_solver.
  assert (Hstop : (∀ y, ¬ parent_step groups current y) →
    ∀ x y, x ∈ {[current]} ∪ branch → parent_step groups x y → y ∈ {[current]} ∪ branch).
  { intros Hno x y Hx Hxy. apply elem_of_union in Hx as [->%elem_of_singleton|Hx]; [by destruct (Hno y)|].
    destruct (Hs x y Hx Hxy); set_solver. }
  destruct (groups !! current) as [g|] eqn:Hg.
  2:{ split; [done|split; [|done]]. apply Hstop. intros y (g & Hg' & _). congruence. }
  destruct (gf_parent_qradar_id g) as [parent|] eqn:Hp.
  2:{ split; [done|split; [|done]]. apply Hstop. intros y (g' & Hg' & Hp' & _). congruence. }
  destruct ((parent =? current) || (parent =? 0) && negb (current =? 0)) eqn:Hend.
  { split; [done|split; [|done]]. apply Hstop. intros y (g' & Hg' & Hp' & Hne & Hz). assert (y = parent) as -> by congruence. lia. }
  assert (Hstep : parent_step groups current parent) by (exists g; repeat split; [done..|lia|lia]).
  apply IH.
  - split; [done|]. split; [by eapply rtc_r|]. split; [|by left].
    intros x y Hx Hxy. apply elem_of_union in Hx as [->%elem_of_singleton|Hx].
    + right. by apply (parent_step_fun groups current).
    + left. destruct (Hs x y Hx Hxy); set_solver.
  - assert (size (unmet groups ({[current]} ∪ branch)) < size (unmet groups branch))%nat; [|lia].
    apply subset_size. unfold unmet. assert (current ∈ dom groups) by (apply elem_of_dom; eauto). set_solver.
Qed.

Lemma climb_reach groups start x : x ∈ climb (S (size groups)) groups start ∅ ↔ rtc (parent_step groups) start x.
Proof.
  destruct (climb_exact groups start (S (size groups)) start ∅) as (H1 & H2 & H3).
  { repeat split; [set_solver|constructor|set_solver|by right]. }
  { unfold unmet. rewrite difference_empty_L, size_dom. lia. }
  split; [apply H1|]. intros H. clear H1. revert H3.
  assert (Hc : ∀ a b, rtc (parent_step groups) a b → a ∈ climb (S (size groups)) groups start ∅ →
                       b ∈ climb (S (size groups)) groups start ∅); [|by apply Hc].
  induction 1 as [|a b c Hab _ IH]; [done|]. intros Ha. by apply IH, (H2 a).
Qed.

Lemma ancestors_exact ids groups x : x ∈ ancestors ids groups ↔ ∃ start, start ∈ ids ∧ rtc (parent_step groups) start x.
Proof.
  unfold ancestors. assert (H : ∀ found, x ∈ foldl (λ found start, found ∪ climb (S (size groups)) groups start ∅) found ids ↔
    x ∈ found ∨ ∃ start, start ∈ ids ∧ rtc (parent_step groups) start x).
  2:{ rewrite H. set_solver. }
  induction ids as [|i ids IH]; intros found; cbn [foldl]; [set_solver|].
  rewrite IH, elem_of_union, climb_reach. set_solver.
Qed.

(** ** The order of rules and of conflicts *)

Lemma then_by_total a b n1 n2 : n1 = true ∨ n2 = true → then_by a b n1 = true ∨ then_by b a n2 = true.
Proof.
  unfold then_by. intros H. destruct (decide (a = b)) as [->|Hne]; [by rewrite !bool_decide_true|].
  rewrite !bool_decide_false by congruence. apply text_le_total.
Qed.

Lemma then_by_trans a b c n1 n2 n3 : (a = b → b = c → n1 = true → n2 = true → n3 = true) →
  then_by a b n1 = true → then_by b c n2 = true → then_by a c n3 = true.
Proof.
  unfold then_by. intros H.
  destruct (decide (a = b)) as [->|Hab]; [rewrite (bool_decide_true (b = b)) by done|rewrite (bool_decide_false (a = b)) by done].
  - destruct (decide (b = c)) as [->|Hbc]; [rewrite !bool_decide_true by done; auto|by rewrite !bool_decide_false by done].
  - destruct (decide (b = c)) as [->|Hbc]; [by rewrite bool_decide_true, bool_decide_false by done|].
    rewrite (bool_decide_false (b = c)) by done. intros H1 H2. destruct (decide (a = c)) as [->|Hac].
    + destruct Hab. by apply text_le_antisym.
    + rewrite bool_decide_false by done. by apply (text_le_trans a b).
Qed.

Lemma then_by_antisym a b n1 n2 : then_by a b n1 = true → then_by b a n2 = true → a = b ∧ n1 = true ∧ n2 = true.
Proof.
  unfold then_by. destruct (decide (a = b)) as [->|Hne]; [by rewrite !bool_decide_true|].
  rewrite !bool_decide_false by congruence. intros H1 H2. destruct Hne. by apply text_le_antisym.
Qed.

#[export] Instance rank_le_total : Total rank_le.
Proof.
  intros x y. unfold rank_le. destruct (Z.eqb_spec (rf_priority x) (rf_priority y)) as [->|Hne].
  - rewrite Z.eqb_refl. apply then_by_total, then_by_total, text_le_total.
  - destruct (Z.eqb_spec (rf_priority y) (rf_priority x)); [lia|]. rewrite !Z.ltb_lt. lia.
Qed.

#[export] Instance rank_le_trans : Transitive rank_le.
Proof.
  intros x y z. unfold rank_le.
  destruct (Z.eqb_spec (rf_priority x) (rf_priority y)) as [->|Hxy].
  - destruct (Z.eqb_spec (rf_priority y) (rf_priority z)) as [_|Hyz]; [|done].
    apply then_by_trans. intros _ _. apply then_by_trans. intros _ _. apply text_le_trans.
  - intros H1 H2. destruct (Z.eqb_spec (rf_priority y) (rf_priority z)) as [E|E], (Z.eqb_spec (rf_priority x) (rf_priority z));
      rewrite ?Z.ltb_lt in *; lia.
Qed.

Lemma rank_le_antisym x y : rank_le x y → rank_le y x → rule_text (rf_id x) = rule_text (rf_id y).
Proof.
  unfold rank_le. destruct (Z.eqb_spec (rf_priority x) (rf_priority y)) as [->|Hne].
  - rewrite Z.eqb_refl. intros H1 H2. destruct (then_by_antisym _ _ _ _ H1 H2) as (_ & H3 & H4).
    destruct (then_by_antisym _ _ _ _ H3 H4) as (_ & H5 & H6). by apply text_le_antisym.
  - destruct (Z.eqb_spec (rf_priority y) (rf_priority x)); [lia|]. rewrite !Z.ltb_lt. lia.
Qed.

#[export] Instance conflict_le_total : Total conflict_le.
Proof. intros x y. unfold conflict_le. apply then_by_total, then_by_total, text_le_total. Qed.

#[export] Instance conflict_le_trans : Transitive conflict_le.
Proof.
  intros x y z. unfold conflict_le. apply then_by_trans. intros _ _. apply then_by_trans. intros _ _. apply text_le_trans.
Qed.

#[export] Instance conflict_le_antisym : AntiSymm (=) conflict_le.
Proof.
  intros [b1 r1 c1] [b2 r2 c2] H1 H2. unfold conflict_le in *. cbn in *.
  destruct (then_by_antisym _ _ _ _ H1 H2) as (-> & H3 & H4). destruct (then_by_antisym _ _ _ _ H3 H4) as (-> & H5 & H6).
  by rewrite (text_le_antisym c1 c2).
Qed.

(** Conflicts that are the same set are recorded as the same list. *)
Lemma ordered_unique l l' : (∀ x, x ∈ l ↔ x ∈ l') → ordered l = ordered l'.
Proof.
  intros H. apply (StronglySorted_unique conflict_le).
  - apply StronglySorted_stable_sort; apply _.
  - apply StronglySorted_stable_sort; apply _.
  - unfold ordered. rewrite !stable_sort_Permutation. apply NoDup_Permutation; [apply NoDup_remove_dups..|].
    intros x. by rewrite !elem_of_remove_dups.
Qed.

Lemma elem_of_ordered x l : x ∈ ordered l ↔ x ∈ l.
Proof. unfold ordered. by rewrite stable_sort_Permutation, elem_of_remove_dups. Qed.

(** ** The contract of a classification *)

Definition level_of (k : RuleKind) : Z :=
  match k with RK_GROUP => 0 | RK_TYPE | RK_TYPE_NAME_REGEX => 1 | RK_NAME_REGEX | RK_IDENTIFIER_REGEX => 2 end.

Section Contract.
Context (re_search : text → text → option bool) (decimal : N → option Z).
Context (source : SourceFacts) (rules : list RuleFacts) (types : list TypeFacts) (groups : list GroupFacts).

(** An enabled rule that matches. *)
Definition in_play (r : RuleFacts) : Prop :=
  r ∈ rules ∧ rf_enabled r = true ∧
  rule_matches re_search decimal r source (type_fact_of source types) (ancestors (sf_group_ids source) (group_table groups)) = true.

(** One of the highest priority of its level. *)
Definition top_at (l : Z) (r : RuleFacts) : Prop :=
  in_play r ∧ level_of (rf_kind r) = l ∧ ∀ r', in_play r' → level_of (rf_kind r') = l → rf_priority r' <= rf_priority r.

(** The level names one class. *)
Definition unanimous (l : Z) : Prop :=
  (∃ r, top_at l r) ∧ ∀ r r', top_at l r → top_at l r' → rf_target_class r = rf_target_class r'.

(** The level that decides, the class, the basis and the rule. *)
Inductive outcome : Z → SourceClass → text → option uuid → Prop :=
| O_override c : sf_override_class source = Some c → outcome (-1) c (ascii_text "OVERRIDE") None
| O_internal : sf_override_class source = None → is_internal source (type_fact_of source types) = true →
    outcome (-1) SC_QRADAR_INTERNAL (ascii_text "INTERNAL") None
| O_rule l r : sf_override_class source = None → is_internal source (type_fact_of source types) = false →
    top_at l r → (∀ r', top_at l r' → rank_le r r') → unanimous l → (∀ l', 0 <= l' < l → ¬ unanimous l') →
    outcome l (rf_target_class r) (RuleKind_value (rf_kind r)) (Some (rf_id r))
| O_none : sf_override_class source = None → is_internal source (type_fact_of source types) = false →
    (∀ l, 0 <= l < 3 → ¬ unanimous l) → outcome 3 SC_UNCLASSIFIED (ascii_text "UNCLASSIFIED") None.

(** Ties on the way down, and the rules below the winner that name another class. *)
Definition conflicting (level : Z) (c : SourceClass) (r : RuleFacts) : Prop :=
  level_of (rf_kind r) < level ∧ top_at (level_of (rf_kind r)) r ∨
  level < level_of (rf_kind r) ∧ in_play r ∧ rf_target_class r ≠ c.

Let type_fact := type_fact_of source types.
Let group_ids := ancestors (sf_group_ids source) (group_table groups).
Let candidates := candidates_of re_search decimal source rules type_fact group_ids.

Lemma elem_of_candidates r : r ∈ candidates ↔ in_play r.
Proof.
  unfold candidates, candidates_of, in_play. rewrite stable_sort_Permutation, list_elem_of_filter, andb_true_iff. tauto.
Qed.

Lemma foldl_max (l : list RuleFacts) (m : Z) : let t := foldl (λ m r, Z.max m (rf_priority r)) m l in
  m <= t ∧ (∀ r, r ∈ l → rf_priority r <= t) ∧ (t = m ∨ ∃ r, r ∈ l ∧ t = rf_priority r).
Proof.
  revert m. induction l as [|x l IH]; intros m; cbn.
  { split; [lia|]. split; [intros r Hr; by apply elem_of_nil in Hr|by left]. }
  destruct (IH (Z.max m (rf_priority x))) as (H1 & H2 & H3). cbn in *. split; [lia|]. split.
  - intros r [->|Hr]%elem_of_cons; [lia|auto].
  - destruct H3 as [H3|(r & Hr & H3)]; [|right; exists r; split; [by right|done]].
    rewrite H3. destruct (Z.max_spec m (rf_priority x)) as [[_ ->]|[_ ->]]; [right; exists x; split; [by left|done]|by left].
Qed.

Lemma elem_of_top_of kinds l r : (∀ k, k ∈ kinds ↔ level_of k = l) → r ∈ top_of kinds candidates ↔ top_at l r.
Proof.
  intros Hk. unfold top_of, top_at. set (level := filter _ candidates).
  assert (Hl : ∀ x, x ∈ level ↔ in_play x ∧ level_of (rf_kind x) = l).
  { intros x. unfold level. rewrite list_elem_of_filter, elem_of_candidates, Hk. tauto. }
  clearbody level. destruct level as [|first rest].
  { split; [set_solver|]. intros (Hp & Hr & _). apply (Hl r). done. }
  destruct (foldl_max rest (rf_priority first)) as (H1 & H2 & H3). set (top := foldl _ _ _) in *. cbn zeta in *.
  assert (Hle : ∀ x, x ∈ first :: rest → rf_priority x <= top) by (intros x [->|Hx]%elem_of_cons; [done|auto]).
  rewrite list_elem_of_filter, Hl. split.
  - intros (Et & Hp & Hr). split; [done|split; [done|]]. intros r' Hp' Hr'. rewrite Et. apply Hle. by apply Hl.
  - intros (Hp & Hr & Hm). split; [|done].
    assert (∃ x, x ∈ first :: rest ∧ rf_priority x = top) as (x & Hx & Ex).
    { destruct H3 as [H3|(x & Hx & H3)]; [exists first|exists x]; split; [by left|done|by right|done]. }
    apply Hl in Hx as [Hxp Hxl]. specialize (Hm x Hxp Hxl). specialize (Hle r (proj2 (Hl r) (conj Hp Hr))). lia.
Qed.

(** What the walk finds from a level on. *)
Definition found (index stop : Z) (w : option (Z * RuleFacts) * list Conflict) : Prop :=
  match w with
  | (Some (l, chosen), cs) =>
      index <= l < stop ∧ top_at l chosen ∧ unanimous l ∧ (∀ l', index <= l' < l → ¬ unanimous l') ∧
      ∀ x, x ∈ cs ↔ ∃ r, x = conflict_of r ∧ index <= level_of (rf_kind r) < l ∧ top_at (level_of (rf_kind r)) r
  | (None, cs) =>
      (∀ l', index <= l' < stop → ¬ unanimous l') ∧
      ∀ x, x ∈ cs ↔ ∃ r, x = conflict_of r ∧ index <= level_of (rf_kind r) < stop ∧ top_at (level_of (rf_kind r)) r
  end.

(** A level that does not decide adds its tops to the conflicts. *)
Lemma found_later index stop tops w : index < stop → ¬ unanimous index → (∀ r, r ∈ tops ↔ top_at index r) →
  found (index + 1) stop w → found index stop (w.1, (conflict_of <$> tops) ++ w.2).
Proof.
  intros Hs Hu Ht. assert (Hadd : ∀ cs upper, index < upper →
    (∀ x, x ∈ cs ↔ ∃ r, x = conflict_of r ∧ index + 1 <= level_of (rf_kind r) < upper ∧ top_at (level_of (rf_kind r)) r) →
    ∀ x, x ∈ (conflict_of <$> tops) ++ cs ↔ ∃ r, x = conflict_of r ∧ index <= level_of (rf_kind r) < upper ∧ top_at (level_of (rf_kind r)) r).
  { intros cs upper Hup Hcs x. rewrite elem_of_app, list_elem_of_fmap, Hcs. split.
    - intros [(r & -> & Hr)|(r & -> & Hr & Htop)]; exists r; (split; [done|]).
      + apply Ht in Hr as Hr'. destruct Hr' as (_ & E & _). rewrite E. split; [lia|]. by apply Ht.
      + split; [lia|done].
    - intros (r & -> & Hr & Htop). destruct (decide (level_of (rf_kind r) = index)) as [E|E].
      + left. exists r. split; [done|]. apply Ht. by rewrite <- E.
      + right. exists r. split; [done|]. split; [lia|done]. }
  assert (Hun : ∀ upper, (∀ l', index + 1 <= l' < upper → ¬ unanimous l') → ∀ l', index <= l' < upper → ¬ unanimous l').
  { intros upper H l' Hl. destruct (decide (l' = index)) as [->|]; [done|]. apply H. lia. }
  destruct w as [[[l chosen]|] cs]; cbn [found fst snd].
  - intros (Hl & H1 & H2 & H3 & H4). split; [lia|]. split; [done|]. split; [done|]. split; [by apply Hun|]. apply Hadd; [lia|done].
  - intros (H3 & H4). split; [by apply Hun|]. by apply Hadd.
Qed.

Lemma walk_found levels index : (∀ (i : nat) kinds, levels !! i = Some kinds → ∀ k, k ∈ kinds ↔ level_of k = index + Z.of_nat i) →
  found index (index + Z.of_nat (length levels)) (walk index levels candidates).
Proof.
  revert index. induction levels as [|kinds levels IH]; intros index Hk; cbn [walk].
  { cbn. split; [lia|]. intros x. split; [set_solver|]. intros (r & _ & Hr & _). lia. }
  assert (Ht : ∀ r, r ∈ top_of kinds candidates ↔ top_at index r).
  { intros r. apply elem_of_top_of. intros k. rewrite (Hk 0%nat kinds eq_refl k). by rewrite Z.add_0_r. }
  assert (Hlater : found (index + 1) (index + Z.of_nat (length (kinds :: levels))) (walk (index + 1) levels candidates)).
  { replace (index + Z.of_nat (length (kinds :: levels))) with (index + 1 + Z.of_nat (length levels)) by (cbn [length]; lia).
    apply IH. intros i ks Hi k. rewrite (Hk (S i) ks Hi k). lia. }
  assert (Hs : index < index + Z.of_nat (length (kinds :: levels))) by (cbn [length]; lia).
  destruct (top_of kinds candidates) as [|chosen others] eqn:E.
  - assert (Hno : ¬ unanimous index) by (intros [[r Hr] _]; apply Ht in Hr; set_solver).
    pose proof (found_later _ _ _ _ Hs Hno Ht Hlater) as H. by destruct (walk (index + 1) levels candidates).
  - destruct (forallb _ others) eqn:Hall.
    + rewrite forallb_forall in Hall. assert (Hsame : ∀ r, top_at index r → rf_target_class r = rf_target_class chosen).
      { intros r Hr. apply Ht, elem_of_cons in Hr as [->|Hr]; [done|]. apply list_elem_of_In, Hall, bool_decide_eq_true in Hr. done. }
      assert (Hc : top_at index chosen) by (apply Ht; by left).
      cbn [found]. split; [lia|]. split; [done|]. split; [|split; [lia|]].
      * split; [by exists chosen|]. intros r r' Hr Hr'. by rewrite (Hsame r), (Hsame r').
      * intros x. split; [set_solver|]. intros (r & _ & Hr & _). lia.
    + apply found_later; [done| |done..]. intros [_ Hu].
      assert (forallb (λ r, bool_decide (rf_target_class r = rf_target_class chosen)) others = true); [|congruence].
      apply forallb_forall. intros r Hr. apply list_elem_of_In in Hr. apply bool_decide_eq_true.
      apply Hu; apply Ht; [by right|by left].
Qed.

Lemma levels_indexed (i : nat) kinds : LEVELS !! i = Some kinds → ∀ k, k ∈ kinds ↔ level_of k = 0 + Z.of_nat i.
Proof.
  intros H k. do 3 (destruct i as [|i]; [injection H as <-; destruct k; cbn; set_solver|]). discriminate.
Qed.

Lemma elem_of_outvoted c level x :
  x ∈ outvoted c level candidates ↔ ∃ r, x = conflict_of r ∧ level < level_of (rf_kind r) ∧ in_play r ∧ rf_target_class r ≠ c.
Proof.
  unfold outvoted. rewrite list_elem_of_join. setoid_rewrite elem_of_lookup_imap. split.
  - intros (l & Hx & i & kinds & -> & Hi). destruct (Z.leb_spec (Z.of_nat i) level); [set_solver|].
    apply list_elem_of_fmap in Hx as (r & -> & Hr). apply list_elem_of_filter in Hr as ((Hk & Hc) & Hr). exists r.
    apply (levels_indexed i kinds Hi) in Hk. split; [done|]. split; [lia|]. split; [by apply elem_of_candidates|done].
  - intros (r & -> & Hl & Hp & Hc).
    assert (∃ i kinds, LEVELS !! i = Some kinds ∧ level_of (rf_kind r) = Z.of_nat i ∧ rf_kind r ∈ kinds) as (i & kinds & Hi & El & Hk).
    { destruct (rf_kind r); [exists 0%nat|exists 1%nat|exists 1%nat|exists 2%nat|exists 2%nat]; eexists; (split; [reflexivity|]);
        (split; [reflexivity|]); set_solver. }
    eexists. split; [|exists i, kinds; split; [reflexivity|done]].
    destruct (Z.leb_spec (Z.of_nat i) level); [lia|]. apply list_elem_of_fmap. exists r. split; [done|].
    apply list_elem_of_filter. split; [done|]. by apply elem_of_candidates.
Qed.
End Contract.

Lemma StronglySorted_filter {A} (R : relation A) (P : A → Prop) `{!∀ x, Decision (P x)} l :
  StronglySorted R l → StronglySorted R (filter P l).
Proof.
  induction 1 as [|x l Hl IH Hx]; [constructor|]. rewrite filter_cons. destruct (decide (P x)); [|done].
  constructor; [done|]. rewrite Forall_forall in *. intros y [_ Hy]%list_elem_of_filter. auto.
Qed.

Section Exact.
Context (re_search : text → text → option bool) (decimal : N → option Z).

Lemma outcome_unique source rules types groups l1 c1 b1 i1 l2 c2 b2 i2 :
  outcome re_search decimal source rules types groups l1 c1 b1 i1 →
  outcome re_search decimal source rules types groups l2 c2 b2 i2 → l1 = l2 ∧ c1 = c2.
Proof.
  set (un := unanimous re_search decimal source rules types groups).
  assert (Hrange : ∀ l, un l → 0 <= l < 3).
  { intros l [[r (_ & <- & _)] _]. destruct (rf_kind r); cbn; lia. }
  intros H1 H2. destruct H1 as [c1 E1|E1 I1|l1 r1 E1 I1 T1 _ U1 F1|E1 I1 F1]; destruct H2 as [c2 E2|E2 I2|l2 r2 E2 I2 T2 _ U2 F2|E2 I2 F2];
    try congruence; try (split; congruence).
  - assert (l1 = l2) as <-.
    { destruct (Z.lt_trichotomy l1 l2) as [H|[H|H]]; [|done|]; [destruct (F2 l1)|destruct (F1 l2)]; try done;
        [destruct (Hrange l1 U1); lia|destruct (Hrange l2 U2); lia]. }
    split; [done|]. by apply U1.
  - destruct (F2 l1); [by apply Hrange|done].
  - destruct (F1 l2); [by apply Hrange|done].
Qed.

Lemma top_of_sorted source rules type_fact group_ids kinds :
  StronglySorted rank_le (top_of kinds (candidates_of re_search decimal source rules type_fact group_ids)).
Proof.
  unfold top_of. set (l := filter _ (candidates_of _ _ _ _ _ _)).
  assert (Hl : StronglySorted rank_le l) by (apply StronglySorted_filter, StronglySorted_stable_sort; apply _).
  clearbody l. destruct l as [|first rest]; [constructor|]. by apply StronglySorted_filter.
Qed.

Lemma walk_chosen source rules type_fact group_ids levels index l chosen :
  (walk index levels (candidates_of re_search decimal source rules type_fact group_ids)).1 = Some (l, chosen) →
  ∃ (i : nat) kinds, levels !! i = Some kinds ∧ l = index + Z.of_nat i ∧
    ∀ r, r ∈ top_of kinds (candidates_of re_search decimal source rules type_fact group_ids) → rank_le chosen r.
Proof.
  revert index. induction levels as [|kinds levels IH]; intros index H; cbn [walk] in H; [done|].
  assert (Hlater : (walk (index + 1) levels (candidates_of re_search decimal source rules type_fact group_ids)).1 = Some (l, chosen) →
    ∃ (i : nat) ks, (kinds :: levels) !! i = Some ks ∧ l = index + Z.of_nat i ∧
    ∀ r, r ∈ top_of ks (candidates_of re_search decimal source rules type_fact group_ids) → rank_le chosen r).
  { intros Hw. destruct (IH (index + 1) Hw) as (i & ks & Hi & E & Hr). exists (S i), ks. split; [done|]. split; [lia|done]. }
  pose proof (top_of_sorted source rules type_fact group_ids kinds) as Hs. destruct (top_of kinds _) as [|first others] eqn:E; [auto|].
  destruct (forallb _ others); [|auto]. cbn in H. injection H as <- <-. exists 0%nat, kinds. split; [done|]. split; [lia|].
  rewrite E. intros r [->|Hr]%elem_of_cons; [by destruct (total rank_le first first)|]. apply StronglySorted_inv in Hs as [_ Hs]. rewrite Forall_forall in Hs. auto.
Qed.

(** The outcome, with the conflicts before they are ordered. *)
Lemma classify_outcome source rules types groups :
  let r := classify re_search decimal source rules types groups in
  ∃ level, outcome re_search decimal source rules types groups level (cr_source_class r) (cr_basis r) (cr_rule_id r) ∧
    ∃ ties, cr_conflicts r = ordered (ties ++ outvoted (cr_source_class r) level (candidates_of re_search decimal source rules
              (type_fact_of source types) (ancestors (sf_group_ids source) (group_table groups)))) ∧
      ∀ x, x ∈ ties ↔ ∃ rule, x = conflict_of rule ∧ level_of (rf_kind rule) < level ∧
        top_at re_search decimal source rules types groups (level_of (rf_kind rule)) rule.
Proof.
  cbn zeta. unfold classify. cbn zeta.
  destruct (sf_override_class source) as [c|] eqn:E; cbn [cr_source_class cr_basis cr_rule_id cr_conflicts].
  { exists (-1). split; [by constructor|]. exists []. split; [done|]. intros x. split; [by intros H%elem_of_nil|].
    intros (rule & _ & Hl & _). destruct (rf_kind rule); cbn in Hl; lia. }
  destruct (is_internal source (type_fact_of source types)) eqn:Ei; cbn [cr_source_class cr_basis cr_rule_id cr_conflicts].
  { exists (-1). split; [by constructor|]. exists []. split; [done|]. intros x. split; [by intros H%elem_of_nil|].
    intros (rule & _ & Hl & _). destruct (rf_kind rule); cbn in Hl; lia. }
  pose proof (walk_found re_search decimal source rules types groups LEVELS 0 levels_indexed) as Hw.
  pose proof (walk_chosen source rules (type_fact_of source types) (ancestors (sf_group_ids source) (group_table groups)) LEVELS 0) as Hch.
  destruct (walk 0 LEVELS _) as [[[l chosen]|] cs]; cbn [found] in Hw; cbn [cr_source_class cr_basis cr_rule_id cr_conflicts].
  - destruct Hw as (Hl & H1 & H2 & H3 & H4). exists l. split.
    + apply O_rule; try done. intros r' Hr'. destruct (Hch l chosen eq_refl) as (i & kinds & Hi & -> & Hr).
      apply Hr. apply (elem_of_top_of re_search decimal source rules types groups kinds (0 + Z.of_nat i)); [|done].
      by apply levels_indexed.
    + exists cs. split; [done|]. intros x. rewrite H4. split; intros (rule & -> & Hr); exists rule; (split; [done|]);
        (split; [|by apply Hr]); [lia|]. destruct (rf_kind rule); cbn in *; lia.
  - destruct Hw as (H3 & H4). exists 3. split; [by apply O_none|]. exists cs. split; [done|]. intros x. rewrite H4.
    split; intros (rule & -> & Hr); exists rule; (split; [done|]); (split; [|by apply Hr]); cbn in *; [lia|].
    destruct (rf_kind rule); cbn; lia.
Qed.

(** C34: A source gets the class of the highest level that decides, and the conflicts are the ties
    above it and the rules below it that name another class. An override decides, then an internal
    type or the local address; else the first of the levels (group, type, name or identifier) whose
    enabled, matching rules of the highest priority name one class, by the first of those rules in
    the order of basis, pattern and identifier; else it is UNCLASSIFIED. There is exactly one such
    level and class, and the conflicts are in order, each once. A group rule sees the groups of the
    source and every group the walk up the parents reaches from them. *)
Theorem classify_exact source rules types groups :
  let r := classify re_search decimal source rules types groups in
  ∃ level,
    outcome re_search decimal source rules types groups level (cr_source_class r) (cr_basis r) (cr_rule_id r) ∧
    (∀ level' c b i, outcome re_search decimal source rules types groups level' c b i → level' = level ∧ c = cr_source_class r) ∧
    (∀ x, x ∈ cr_conflicts r ↔
      ∃ rule, x = conflict_of rule ∧ conflicting re_search decimal source rules types groups level (cr_source_class r) rule) ∧
    NoDup (cr_conflicts r) ∧ StronglySorted conflict_le (cr_conflicts r) ∧
    ∀ g, g ∈ ancestors (sf_group_ids source) (group_table groups) ↔
      ∃ start, start ∈ sf_group_ids source ∧ rtc (parent_step (group_table groups)) start g.
Proof.
  cbn zeta. set (r := classify _ _ _ _ _ _).
  destruct (classify_outcome source rules types groups) as (level & Ho & ties & Hc & Ht). fold r in Ho, Hc, Ht.
  exists level. split; [done|]. split.
  { intros level' c b i Ho'. by apply (outcome_unique source rules types groups _ _ b i _ _ (cr_basis r) (cr_rule_id r)). }
  split.
  { intros x. rewrite Hc, elem_of_ordered, elem_of_app, Ht, elem_of_outvoted. unfold conflicting.
    split; [intros [(rule & -> & H)|(rule & -> & H)]|intros (rule & -> & [H|H])]; [exists rule..|left; exists rule|right; exists rule]; tauto. }
  rewrite Hc. split; [unfold ordered; rewrite stable_sort_Permutation; apply NoDup_remove_dups|].
  split; [apply StronglySorted_stable_sort; apply _|]. intros g. apply ancestors_exact.
Qed.
End Exact.

Section OrderFree.
Context (re_search : text → text → option bool) (decimal : N → option Z).

Lemma candidates_unique source rules rules' type_fact group_ids : rules ≡ₚ rules' → NoDup (rf_id <$> rules) →
  Forall (λ r, (rf_id r < 2 ^ 128)%N) rules →
  candidates_of re_search decimal source rules type_fact group_ids = candidates_of re_search decimal source rules' type_fact group_ids.
Proof.
  intros Hp Hn Hw. unfold candidates_of. apply (StronglySorted_unique_strong rank_le).
  - intros x y Hx Hy Hxy Hyx. rewrite stable_sort_Permutation, list_elem_of_filter in Hx, Hy. rewrite <- Hp in Hy.
    rewrite Forall_forall in Hw. pose proof (rank_le_antisym x y Hxy Hyx) as E.
    apply ascii_text_inj, uuid_text_inj in E; [|apply Hw; tauto..].
    destruct Hx as [_ [i Hi]%list_elem_of_lookup], Hy as [_ [j Hj]%list_elem_of_lookup].
    assert (i = j) as ->; [|congruence]. apply (NoDup_lookup _ i j (rf_id x) Hn); rewrite list_lookup_fmap; [by rewrite Hi|by rewrite Hj, E].
  - apply StronglySorted_stable_sort; apply _.
  - apply StronglySorted_stable_sort; apply _.
  - rewrite !stable_sort_Permutation. by rewrite Hp.
Qed.

Lemma find_unique {A} (p : A → bool) l l' : l ≡ₚ l' → (∀ x y, x ∈ l → y ∈ l → p x = true → p y = true → x = y) → find p l = find p l'.
Proof.
  intros Hp H. destruct (find p l) as [x|] eqn:E.
  - apply find_some in E as [Hx Px]. apply list_elem_of_In in Hx. destruct (find p l') as [y|] eqn:E'.
    + apply find_some in E' as [Hy Py]. apply list_elem_of_In in Hy. rewrite <- Hp in Hy. f_equal. by apply H.
    + rewrite (find_none p l' E') in Px; [done|]. apply list_elem_of_In. by rewrite <- Hp.
  - destruct (find p l') as [y|] eqn:E'; [|done]. apply find_some in E' as [Hy Py]. rewrite (find_none p l E) in Py; [done|].
    apply list_elem_of_In in Hy. apply list_elem_of_In. by rewrite Hp.
Qed.

Lemma group_table_list groups : NoDup (gf_qradar_id <$> groups) → ∀ i g, group_table groups !! i = Some g ↔ g ∈ groups ∧ gf_qradar_id g = i.
Proof.
  intros Hn i g. unfold group_table.
  assert (H : ∀ m, (∀ g, g ∈ groups → m !! gf_qradar_id g = None) →
    foldl (λ (m : gmap Z GroupFacts) g, <[gf_qradar_id g := g]> m) m groups !! i = Some g ↔
    m !! i = Some g ∨ g ∈ groups ∧ gf_qradar_id g = i).
  2:{ rewrite H by (intros; apply lookup_empty). rewrite lookup_empty. naive_solver. }
  induction groups as [|x groups IH]; intros m Hm; cbn [foldl]; [set_solver|].
  cbn in Hn. apply NoDup_cons in Hn as [Hx Hn]. rewrite IH; [|done|].
  - rewrite elem_of_cons. destruct (decide (gf_qradar_id x = i)) as [<-|Hne].
    + rewrite lookup_insert_eq, (Hm x) by (by left). split; [|naive_solver].
      intros [[= ->]|[Hg E]]; [by right; split; [left|]|]. destruct Hx. rewrite <- E. by apply list_elem_of_fmap_2.
    + rewrite lookup_insert_ne by done. naive_solver.
  - intros y Hy. rewrite lookup_insert_ne; [apply Hm; by right|]. intros E. destruct Hx. rewrite E. by apply list_elem_of_fmap_2.
Qed.

(** The order in which the database returns the rules, the types and the groups does not matter:
    with identifiers that are their keys, the class, the basis, the rule and the conflicts are the same. *)
Theorem classify_order_free source rules rules' types types' groups groups' :
  rules ≡ₚ rules' → NoDup (rf_id <$> rules) → Forall (λ r, (rf_id r < 2 ^ 128)%N) rules →
  types ≡ₚ types' → NoDup (tf_type_id <$> types) →
  groups ≡ₚ groups' → NoDup (gf_qradar_id <$> groups) →
  classify re_search decimal source rules types groups = classify re_search decimal source rules' types' groups'.
Proof.
  intros Hr Hrn Hrw Ht Htn Hg Hgn.
  assert (Et : type_fact_of source types = type_fact_of source types').
  { apply find_unique; [done|]. intros x y [i Hi]%list_elem_of_lookup [j Hj]%list_elem_of_lookup Hx Hy.
    apply bool_decide_eq_true in Hx, Hy. assert (i = j) as ->; [|congruence].
    apply (NoDup_lookup _ i j (tf_type_id x) Htn); rewrite list_lookup_fmap; [by rewrite Hi|rewrite Hj; cbn; congruence]. }
  assert (Eg : group_table groups = group_table groups').
  { apply map_eq. intros i. apply option_eq. intros g. rewrite !group_table_list; [by rewrite Hg|by rewrite <- Hg|done]. }
  unfold classify. rewrite Et, Eg, (candidates_unique source rules rules') by done. done.
Qed.
End OrderFree.
