(* ===== verification/FleetTheorems.v ===== *)
(** * Log sources, rules and reviews: theorems

    What seeding, classifying, rule administration, overrides, reviews and inventory syncs keep in the
    tables, what each changes, and what they refuse; with concrete inputs at the end. *)

From S2P Require Import Prelude PyStr PyFloat PyTime PyJson Enums Accounts SignIn AlertService Fleet FleetAdmin ClassifyTheorems.

(** ** Rules *)

Definition seed_ids : list uuid := sd_id <$> SEED_RULES.

#[global] Arguments SEED_RULES : simpl never.
#[global] Arguments seed_ids : simpl never.

Lemma seed_ids_distinct : NoDup seed_ids.
Proof. apply (bool_decide_eq_true_1 (NoDup seed_ids)). vm_compute. reflexivity. Qed.

Section RuleTable.
Context (digit : N → bool) (re_compiles : text → bool).

(** The rules of the table: unique, the built-in ones as shipped, and all of them usable. *)
Record rules_ok (rules : gmap uuid ClassificationRule) : Prop := {
  rk_unique : ∀ i j a b, rules !! i = Some a → rules !! j = Some b → same_rule a b = true → i = j;
  rk_built_in : ∀ i a, rules !! i = Some a → ru_built_in a = true →
    ∃ item, item ∈ SEED_RULES ∧ i = sd_id item ∧ ru_instance_id a = None ∧ ru_created_by a = None ∧
            ru_kind a = sd_kind item ∧ ru_pattern a = sd_pattern item ∧ ru_target_class a = sd_target_class item ∧
            ru_priority a = sd_priority item;
  rk_seed : ∀ i a, rules !! i = Some a → i ∈ seed_ids → ru_built_in a = true;
  rk_usable : ∀ i a, rules !! i = Some a →
    ru_target_class a ≠ SC_UNCLASSIFIED ∧ check_pattern digit re_compiles (ru_kind a) (ru_pattern a) = Ok tt }.

(** The pattern of every shipped rule compiles. *)
Definition seeds_compile : Prop := Forall (λ item, re_compiles (sd_pattern item) = true) SEED_RULES.

Lemma seed_usable item : seeds_compile → item ∈ SEED_RULES →
  sd_target_class item ≠ SC_UNCLASSIFIED ∧ check_pattern digit re_compiles (sd_kind item) (sd_pattern item) = Ok tt.
Proof.
  intros Hc Hi. apply (proj1 (Forall_forall _ _) Hc) in Hi as Hr.
  assert (Hshape : Forall (λ item, bool_decide (sd_target_class item ≠ SC_UNCLASSIFIED) && negb (bool_decide (strip (sd_pattern item) = [])) &&
    negb (Nat.ltb MAX_PATTERN_LENGTH (length (sd_pattern item))) && bool_decide (sd_kind item ∈ [RK_TYPE_NAME_REGEX; RK_NAME_REGEX]) = true)
    SEED_RULES).
  { apply (bool_decide_eq_true_1 (Forall _ _)). vm_compute. reflexivity. }
  apply (proj1 (Forall_forall _ _) Hshape) in Hi. rewrite !andb_true_iff, !negb_true_iff in Hi. destruct Hi as [[[H1 H2] H3] H4].
  apply bool_decide_eq_true in H1, H4. split; [done|]. unfold check_pattern. rewrite H2, H3. cbn [raise_if res_bind].
  destruct (sd_kind item); try (exfalso; set_solver); by rewrite Hr.
Qed.

Lemma taken_false rules id row : taken rules id row = false → ∀ j b, rules !! j = Some b → j ≠ id → same_rule row b = false.
Proof.
  unfold taken. intros H j b Hj Hne. destruct (same_rule row b) eqn:E; [|done]. rewrite <- H. symmetry. apply existsb_exists.
  exists (j, b). split; [by apply list_elem_of_In, elem_of_map_to_list|]. cbn. rewrite E, (proj2 (N.eqb_neq j id)) by done. done.
Qed.

Lemma put_rule_ok id row rules rules' : put_rule id row rules = Ok rules' →
  rules' = <[id := row]> rules ∧ ∀ j b, rules !! j = Some b → j ≠ id → same_rule row b = false.
Proof.
  unfold put_rule. destruct (taken rules id row) eqn:E; [done|]. intros [= <-]. split; [done|]. by apply taken_false.
Qed.

Lemma same_rule_sym a b : same_rule a b = same_rule b a.
Proof. unfold same_rule. f_equal; [f_equal|]; apply bool_decide_ext; split; intros ->; done. Qed.

Lemma put_rules_ok id row rules rules' : rules_ok rules → put_rule id row rules = Ok rules' →
  (ru_built_in row = true → ∃ item, item ∈ SEED_RULES ∧ id = sd_id item ∧ ru_instance_id row = None ∧ ru_created_by row = None ∧
     ru_kind row = sd_kind item ∧ ru_pattern row = sd_pattern item ∧ ru_target_class row = sd_target_class item ∧
     ru_priority row = sd_priority item) →
  (id ∈ seed_ids → ru_built_in row = true) →
  ru_target_class row ≠ SC_UNCLASSIFIED → check_pattern digit re_compiles (ru_kind row) (ru_pattern row) = Ok tt → rules_ok rules'.
Proof.
  intros [U B S V] Hput Hb Hs Ht Hp. apply put_rule_ok in Hput as [-> Hfree]. constructor.
  - intros i j a b. rewrite !lookup_insert_Some. intros [[<- <-]|[Hi Ha]] [[<- <-]|[Hj Hb']] E; [done| | |by eapply U].
    + by rewrite (Hfree j b) in E.
    + rewrite same_rule_sym, (Hfree i a) in E; done.
  - intros i a. rewrite lookup_insert_Some. intros [[<- <-]|[Hi Ha]]; [done|by apply B].
  - intros i a. rewrite lookup_insert_Some. intros [[<- <-]|[Hi Ha]]; [done|by apply S].
  - intros i a. rewrite lookup_insert_Some. intros [[<- <-]|[Hi Ha]]; [done|by apply (V i)].
Qed.

(** A row under the seed's identifier that the upsert leaves as it is. *)
Definition seeded (item : SeedRule) (rules : gmap uuid ClassificationRule) : Prop :=
  ∃ a, rules !! sd_id item = Some a ∧ reseeded item a = a.

(** What seeding leaves of a row: all but what it sets. *)
Definition same_owner (a b : ClassificationRule) : Prop :=
  ru_instance_id a = ru_instance_id b ∧ ru_enabled a = ru_enabled b ∧ ru_built_in a = ru_built_in b ∧ ru_created_by a = ru_created_by b.

Lemma seed_one_ok item rules rules' : seeds_compile → item ∈ SEED_RULES → rules_ok rules → seed_one rules item = Ok rules' →
  rules_ok rules' ∧ seeded item rules' ∧ (∀ i, i ≠ sd_id item → rules' !! i = rules !! i) ∧
  ∀ a, rules !! sd_id item = Some a → ∃ b, rules' !! sd_id item = Some b ∧ same_owner a b.
Proof.
  intros Hc Hi Hok. destruct (seed_usable item Hc Hi) as [Ht Hp]. unfold seed_one. destruct (rules !! sd_id item) as [a|] eqn:E.
  - assert (Hb : ru_built_in a = true) by (apply (rk_seed _ Hok _ a E); by apply list_elem_of_fmap_2). rewrite Hb. intros Hput.
    apply put_rule_ok in Hput as Hput'. destruct Hput' as [-> _].
    destruct (rk_built_in _ Hok _ a E Hb) as (item' & _ & _ & Hn & Hcr & _). split.
    + apply (put_rules_ok _ _ _ _ Hok Hput); try done. intros _. by exists item.
    + split; [exists (reseeded item a); by rewrite lookup_insert_eq|]. split; [intros i Hne; by rewrite lookup_insert_ne by done|].
      intros b [= <-]. exists (reseeded item a). by rewrite lookup_insert_eq.
  - intros Hput. apply put_rule_ok in Hput as Hput'. destruct Hput' as [-> _]. split.
    + apply (put_rules_ok _ _ _ _ Hok Hput); try done. intros _. by exists item.
    + split; [exists (seed_row item); by rewrite lookup_insert_eq|]. split; [intros i Hne; by rewrite lookup_insert_ne by done|done].
Qed.

Lemma seed_all_ok items rules rules' : seeds_compile → items ⊆ SEED_RULES → NoDup (sd_id <$> items) → rules_ok rules →
  foldM seed_one rules items = Ok rules' →
  rules_ok rules' ∧ (∀ item, item ∈ items → seeded item rules') ∧ (∀ i, i ∉ sd_id <$> items → rules' !! i = rules !! i) ∧
  ∀ i a, rules !! i = Some a → ∃ b, rules' !! i = Some b ∧ same_owner a b.
Proof.
  intros Hc. revert rules. induction items as [|item items IH]; intros rules Hsub Hn Hok; cbn [foldM].
  { intros [= <-]. split; [done|]. split; [intros x Hx; by apply elem_of_nil in Hx|]. split; [done|]. intros i a Ha. by exists a. }
  intros H. bind_inv H. cbn in Hn. apply NoDup_cons in Hn as [Hx Hn].
  destruct (seed_one_ok item rules r Hc) as (H1 & H2 & H3 & H4); [apply Hsub; by left|done..|].
  destruct (IH r) as (H5 & H6 & H7 & H8); [intros x Hx'; apply Hsub; by right|done..|]. split; [done|]. split; [|split].
  - intros x [->|Hx']%elem_of_cons; [|by apply H6]. destruct H2 as (a & Ha & Er). exists a. by rewrite H7.
  - intros i Hi. rewrite fmap_cons, elem_of_cons in Hi. rewrite H7, H3 by tauto. done.
  - intros i a Ha. assert (∃ b, r !! i = Some b ∧ same_owner a b) as (b & Hb & E1).
    { destruct (decide (i = sd_id item)) as [->|Hne]; [by apply H4|]. exists a. by rewrite H3. }
    destruct (H8 i b Hb) as (c & Hcc & E2). exists c. split; [done|]. unfold same_owner in *. intuition congruence.
Qed.

(** Seeding what is seeded changes nothing. *)
Lemma seed_again rules : rules_ok rules → (∀ item, item ∈ SEED_RULES → seeded item rules) → foldM seed_one rules SEED_RULES = Ok rules.
Proof.
  intros Hok Hs. assert (H : ∀ items, items ⊆ SEED_RULES → foldM seed_one rules items = Ok rules); [|by apply H].
  induction items as [|item items IH]; intros Hsub; [done|]. cbn [foldM].
  assert (Hin : item ∈ SEED_RULES) by (apply Hsub; by left). destruct (Hs item Hin) as (a & Ha & E).
  assert (Hb : ru_built_in a = true) by (apply (rk_seed _ Hok _ a Ha); by apply list_elem_of_fmap_2).
  unfold seed_one. rewrite Ha, Hb, E. unfold put_rule.
  assert (taken rules (sd_id item) a = false) as ->.
  { apply not_true_iff_false. intros H. apply existsb_exists in H as ([j b] & Hj & H). cbn in H.
    apply list_elem_of_In, elem_of_map_to_list in Hj. apply andb_true_iff in H as [Hne Hsame].
    apply negb_true_iff, N.eqb_neq in Hne. rewrite same_rule_sym in Hsame. by apply Hne, (rk_unique _ Hok j (sd_id item) b a Hj Ha). }
  cbn [res_bind]. rewrite insert_id by done. apply IH. intros x Hx. apply Hsub. by right.
Qed.
Lemma ensure_seed_rules_ok db db' : seeds_compile → rules_ok (fd_rules db) → ensure_seed_rules db = Ok db' →
  ∃ rules, db' = with_rules (λ _, rules) db ∧ rules_ok rules ∧ (∀ item, item ∈ SEED_RULES → seeded item rules) ∧
    ((∀ item, item ∈ SEED_RULES → seeded item (fd_rules db)) → rules = fd_rules db) ∧
    ∀ i a, fd_rules db !! i = Some a → ∃ b, rules !! i = Some b ∧ same_owner a b ∧ (i ∉ seed_ids → b = a).
Proof.
  intros Hc Hok H. unfold ensure_seed_rules in H. bind_inv H. injection H as <-.
  destruct (seed_all_ok SEED_RULES (fd_rules db) r Hc) as (H1 & H2 & H3 & H4); [done|apply seed_ids_distinct|done..|].
  exists r. split; [done|]. split; [done|]. split; [done|]. split.
  { intros Hs. rewrite seed_again in E by done. by injection E. }
  intros i a Ha. destruct (H4 i a Ha) as (b & Hb & Eo). exists b. split; [done|].
  split; [done|]. intros Hi. rewrite H3 in Hb by done. congruence.
Qed.

End RuleTable.

(** ** Writing a table row by row *)

Lemma foldl_write {V R} (f : V → option R → R) (vs : list (uuid * V)) (m : gmap uuid R) : NoDup vs.*1 →
  let res := foldl (λ m v, partial_alter (λ row, Some (f v.2 row)) v.1 m) m vs in
  (∀ id v, (id, v) ∈ vs → res !! id = Some (f v (m !! id))) ∧ (∀ id, id ∉ vs.*1 → res !! id = m !! id).
Proof.
  revert m. induction vs as [|[i v] vs IH]; intros m Hn; cbn.
  { split; [intros id v Hv; by apply elem_of_nil in Hv|done]. }
  cbn in Hn. apply NoDup_cons in Hn as [Hi Hn]. destruct (IH (partial_alter (λ row, Some (f v row)) i m) Hn) as [H1 H2]. split.
  - intros id w [[= -> ->]|Hw]%elem_of_cons; [by rewrite H2, lookup_partial_alter_eq|].
    rewrite (H1 id w Hw), lookup_partial_alter_ne; [done|]. intros ->. apply Hi. by apply (list_elem_of_fmap_2 fst _ (id, w)).
  - intros id Hid. apply not_elem_of_cons in Hid as [Hne Hid]. rewrite H2, lookup_partial_alter_ne; done.
Qed.

Lemma foldl_insert {V} (vs : list (uuid * V)) (m : gmap uuid V) : NoDup vs.*1 →
  let res := foldl (λ m v, <[v.1 := v.2]> m) m vs in
  (∀ id v, (id, v) ∈ vs → res !! id = Some v) ∧ (∀ id, id ∉ vs.*1 → res !! id = m !! id).
Proof. intros Hn. apply (foldl_write (λ v _, v) vs m Hn). Qed.

Section Kept.
Context (re_search : text → text → option bool) (decimal : N → option Z) (digit : N → bool) (re_compiles : text → bool).
Context (Hseeds : seeds_compile re_compiles).

Abbreviation rules_ok := (rules_ok digit re_compiles).

(** ** What one classification writes *)

(** The row [classify_sources] leaves for a source. *)
Definition row_after (instance_id : uuid) (types : list TypeFacts) (groups : list GroupFacts) (new : gset uuid) (bootstrap : bool)
    (now : instant) (updates : option (gmap uuid (option SourceClass))) (actor : option text) (db : FleetDb)
    (rules : gmap uuid ClassificationRule) (id : uuid) (source : LogSource) : Classification :=
  upserted (overrides_given updates)
    (values_of re_search decimal (rule_facts instance_id rules) types groups (fd_classes db) new bootstrap now updates actor id source).1
    (fd_classes db !! id).

Lemma classify_sources_ok instance_id sources types groups new bootstrap now updates actor db db' applied :
  rules_ok (fd_rules db) → NoDup sources.*1 →
  classify_sources re_search decimal instance_id sources types groups new bootstrap now updates actor db = Ok (db', applied) →
  ∃ rules classes,
    db' = with_classes (λ _, classes) (with_rules (λ _, rules) db) ∧ rules_ok rules ∧ (∀ item, item ∈ SEED_RULES → seeded item rules) ∧
    ((∀ item, item ∈ SEED_RULES → seeded item (fd_rules db)) → rules = fd_rules db) ∧
    (∀ i a, fd_rules db !! i = Some a → ∃ b, rules !! i = Some b ∧ same_owner a b ∧ (i ∉ seed_ids → b = a)) ∧
    (∀ id source, (id, source) ∈ sources →
      classes !! id = Some (row_after instance_id types groups new bootstrap now updates actor db rules id source)) ∧
    (∀ id, id ∉ sources.*1 → classes !! id = fd_classes db !! id) ∧
    (∀ id source, (id, source) ∈ sources →
      applied !! id = Some (values_of re_search decimal (rule_facts instance_id rules) types groups (fd_classes db) new bootstrap now
                              updates actor id source).2).
Proof.
  intros Hok Hn H. unfold classify_sources in H. bind_inv H.
  apply (ensure_seed_rules_ok digit re_compiles) in E as (rules & -> & H1 & H2 & H2' & H3); [|done..].
  apply (inj Ok) in H. apply pair_equal_spec in H as [<- <-].
  set (f := λ source_id source, values_of re_search decimal (rule_facts instance_id rules) types groups (fd_classes db) new bootstrap now
              updates actor source_id source).
  set (values := (λ x : uuid * LogSource, (x.1, f x.1 x.2)) <$> sources).
  assert (Hk : values.*1 = sources.*1) by (unfold values; rewrite <- list_fmap_compose; by apply list_fmap_ext).
  assert (Hv : NoDup values.*1) by by rewrite Hk.
  destruct (foldl_write (λ (v : Classification * AppliedClassification) row, upserted (overrides_given updates) v.1 row) values
              (fd_classes db) Hv) as [W1 W2].
  assert (Hin : ∀ id source, (id, source) ∈ sources → (id, f id source) ∈ values).
  { intros id source Hs. apply list_elem_of_fmap. by exists (id, source). }
  eexists rules, _. split; [reflexivity|]. split; [done|]. split; [done|]. split; [done|]. split; [done|]. split; [|split].
  - intros id source Hs. exact (W1 _ _ (Hin _ _ Hs)).
  - intros id Hid. apply W2. by rewrite Hk.
  - intros id source Hs.
    assert (Ha : ∀ m, foldl (λ (m : gmap uuid AppliedClassification) (v : uuid * (Classification * AppliedClassification)), <[v.1 := v.2.2]> m) m values !! id = Some (f id source).2); [|apply Ha].
    intros m. destruct (foldl_write (λ (v : Classification * AppliedClassification) _, v.2) values m Hv) as [A1 _].
    exact (A1 _ _ (Hin _ _ Hs)).
Qed.

(** ** What every stored classification satisfies *)

Record class_ok (db : FleetDb) (id : uuid) (row : Classification) : Prop := {
  ck_source : is_Some (fd_sources db !! id);
  ck_override : match cl_override_class row with
                | Some c => cl_source_class row = c ∧ cl_basis row = ascii_text "OVERRIDE" ∧ cl_rule_id row = None ∧
                            is_Some (cl_override_by row) ∧ is_Some (cl_override_at row)
                | None => cl_override_by row = None ∧ cl_override_at row = None
                end;
  ck_rule : ∀ r, cl_rule_id row = Some r → is_Some (fd_rules db !! r);
  ck_review : (is_Some (cl_reviewed_at row) ↔ is_Some (cl_reviewed_by row)) ∧
              (cl_review_status row = RV_NEW → cl_reviewed_at row = None) }.

Record kept (db : FleetDb) : Prop := {
  kp_rules : rules_ok (fd_rules db);
  kp_sources : ∀ i j s t, fd_sources db !! i = Some s → fd_sources db !! j = Some t →
    ls_instance_id s = ls_instance_id t → ls_qradar_id s = ls_qradar_id t → i = j;
  kp_classes : ∀ id row, fd_classes db !! id = Some row → class_ok db id row }.

Lemma classify_rule_id source rules types groups i :
  cr_rule_id (classify re_search decimal source rules types groups) = Some i → ∃ r, r ∈ rules ∧ rf_id r = i.
Proof.
  intros H. destruct (classify_outcome re_search decimal source rules types groups) as (level & Ho & _). revert H Ho.
  generalize (classify re_search decimal source rules types groups). intros [c b ri cs]. cbn. intros -> Ho.
  inversion Ho as [| |l r _ _ [[Hr _] _]|]; subst. by exists r.
Qed.

Lemma classify_override source rules types groups c : sf_override_class source = Some c →
  let r := classify re_search decimal source rules types groups in
  cr_source_class r = c ∧ cr_basis r = ascii_text "OVERRIDE" ∧ cr_rule_id r = None.
Proof. intros H. unfold classify. by rewrite H. Qed.

Lemma elem_of_rule_facts instance_id rules f : f ∈ rule_facts instance_id rules → is_Some (rules !! rf_id f).
Proof.
  unfold rule_facts. intros ([i a] & -> & Hx)%list_elem_of_fmap. apply list_elem_of_filter in Hx as [_ Hx%elem_of_map_to_list].
  cbn. by exists a.
Qed.

(** The override after the call is in the row, whichever columns the upsert sets. *)
Lemma upserted_override updates current id actor now values : 
  override_of current id updates actor now = (cl_override_class values, cl_override_by values, cl_override_at values) →
  let row := upserted (overrides_given updates) values current in
  (cl_override_class row, cl_override_by row, cl_override_at row) = override_of current id updates actor now.
Proof.
  intros H. cbn zeta. destruct current as [old|]; cbn [upserted]; [|done]. cbn.
  destruct (overrides_given updates) eqn:E; [done|]. unfold override_of.
  assert (updates ≫= lookup id = None) as ->; [|done].
  destruct updates as [m|]; [|done]. cbn in E. apply negb_false_iff, bool_decide_eq_true in E as ->. apply lookup_empty.
Qed.

Lemma row_after_ok instance_id types groups new bootstrap now updates actor db rules id source :
  (∀ row, fd_classes db !! id = Some row → class_ok db id row) → is_Some (fd_sources db !! id) →
  (∀ r, is_Some (fd_rules db !! r) → is_Some (rules !! r)) → (updates = None ∨ is_Some actor) → ∀ classes,
  class_ok (with_classes (λ _, classes) (with_rules (λ _, rules) db)) id
    (row_after instance_id types groups new bootstrap now updates actor db rules id source).
Proof.
  clear Hseeds re_compiles digit. intros Hold Hs Hr Ha classes. unfold row_after. set (current := fd_classes db !! id) in *.
  set (v := values_of _ _ _ _ _ _ _ _ _ _ _ _ _).
  destruct (override_of current id updates actor now) as [[o ob] oat] eqn:Eo.
  assert (Ev : v = values_of re_search decimal (rule_facts instance_id rules) types groups (fd_classes db) new bootstrap now updates actor id source) by done.
  unfold values_of in Ev. fold current in Ev. rewrite Eo in Ev.
  set (res := classify re_search decimal (source_facts source o) (rule_facts instance_id rules) types groups) in Ev.
  assert (Hrow : ∃ row, row = upserted (overrides_given updates) v.1 current ∧
    cl_source_class row = cr_source_class res ∧ cl_basis row = cr_basis res ∧ cl_rule_id row = cr_rule_id res ∧
    (cl_override_class row, cl_override_by row, cl_override_at row) = (o, ob, oat) ∧
    (is_Some (cl_reviewed_at row) ↔ is_Some (cl_reviewed_by row)) ∧ (cl_review_status row = RV_NEW → cl_reviewed_at row = None)).
  { eexists. split; [reflexivity|]. rewrite <- Eo. split; [by destruct current; rewrite Ev|]. split; [by destruct current; rewrite Ev|].
    split; [by destruct current; rewrite Ev|]. split; [apply upserted_override; by rewrite Eo, Ev|].
    destruct current as [old|] eqn:Ec; cbn [upserted]; [cbn; by apply (Hold old)|]. rewrite Ev. cbn. split; [|done].
    split; intros [x Hx]; discriminate. }
  destruct Hrow as (row & <- & E1 & E2 & E3 & E4 & E5 & E6). injection E4 as E4 Eb Ea. constructor; cbn.
  - done.
  - rewrite E1, E2, E3, E4, Eb, Ea.
    assert (Hby : match o with Some _ => is_Some ob ∧ is_Some oat | None => ob = None ∧ oat = None end).
    { unfold override_of in Eo. destruct (updates ≫= lookup id) as [[c|]|] eqn:Eu; injection Eo as <- <- <-; cbn; [|done|].
      - destruct Ha as [->|Ha]; [discriminate|]. split; [done|by eexists].
      - destruct current as [old|]; [|done]. cbn. destruct (Hold old eq_refl) as [_ Hov _ _].
        destruct (cl_override_class old); tauto. }
    destruct o as [c|]; [|done]. destruct (classify_override (source_facts source (Some c)) (rule_facts instance_id rules) types groups c eq_refl) as (F1 & F2 & F3).
    tauto.
  - rewrite E3. intros r Hres. apply classify_rule_id in Hres as (f & Hf & <-). by apply (elem_of_rule_facts instance_id).
  - done.
Qed.
End Kept.

Lemma sources_of_spec instance_id db id source :
  (id, source) ∈ sources_of instance_id db ↔ fd_sources db !! id = Some source ∧ ls_instance_id source = instance_id.
Proof. unfold sources_of. rewrite list_elem_of_filter, elem_of_map_to_list. cbn. tauto. Qed.

Lemma NoDup_fst_filter {A} (P : uuid * A → Prop) `{!∀ x, Decision (P x)} (l : list (uuid * A)) : NoDup l.*1 → NoDup (filter P l).*1.
Proof.
  induction l as [|x l IH]; [done|]. intros [Hx Hn]%NoDup_cons. rewrite filter_cons. destruct (decide (P x)); [|auto].
  rewrite fmap_cons. constructor; [|auto]. intros (y & E & Hy)%list_elem_of_fmap. apply Hx. rewrite E. apply list_elem_of_fmap_2.
  by apply list_elem_of_filter in Hy as [_ Hy].
Qed.

Section Steps.
Context (re_search : text → text → option bool) (decimal : N → option Z) (digit : N → bool) (re_compiles : text → bool).
Context (Hseeds : seeds_compile re_compiles).

Abbreviation kept := (kept digit re_compiles).
Abbreviation rules_ok := (rules_ok digit re_compiles).

(** ** Classifying keeps the tables *)

(** The columns the operators write: the override and the review. *)
Definition override_columns (row : Classification) : option SourceClass * option text * option instant :=
  (cl_override_class row, cl_override_by row, cl_override_at row).
Definition review_columns (row : Classification) : ReviewStatus * option instant * option text :=
  (cl_review_status row, cl_reviewed_at row, cl_reviewed_by row).

(** Every row of [db] is in [db'] with the review it had, and its override but where [changed] holds. *)
Definition columns_kept (changed : uuid → Prop) (db db' : FleetDb) : Prop :=
  ∀ id row, fd_classes db !! id = Some row → ∃ row', fd_classes db' !! id = Some row' ∧
    review_columns row' = review_columns row ∧ (¬ changed id → override_columns row' = override_columns row).

Lemma columns_kept_refl changed db : columns_kept changed db db.
Proof. intros id row H. by exists row. Qed.

Lemma columns_kept_trans changed db1 db2 db3 : columns_kept changed db1 db2 → columns_kept changed db2 db3 → columns_kept changed db1 db3.
Proof.
  intros H1 H2 id row H. destruct (H1 id row H) as (r2 & H2' & E1 & E2). destruct (H2 id r2 H2') as (r3 & H3 & E3 & E4).
  exists r3. split; [done|]. split; [congruence|]. intros Hc. rewrite E4, E2; done.
Qed.

Lemma with_rules_kept db rules : kept db → rules_ok rules → (∀ r, is_Some (fd_rules db !! r) → is_Some (rules !! r)) →
  kept (with_rules (λ _, rules) db).
Proof.
  intros [K1 K2 K3] Hr Hsub. constructor; [done|done|]. intros id row Hrow. destruct (K3 id row Hrow) as [C1 C2 C3 C4].
  constructor; try done. intros r Hr'. apply Hsub, (C3 r Hr').
Qed.

Lemma classify_sources_kept instance_id sources types groups new bootstrap now updates actor db db' applied :
  kept db → NoDup sources.*1 → (∀ id source, (id, source) ∈ sources → is_Some (fd_sources db !! id)) →
  (updates = None ∨ is_Some actor) →
  classify_sources re_search decimal instance_id sources types groups new bootstrap now updates actor db = Ok (db', applied) →
  kept db' ∧ columns_kept (λ id, is_Some (updates ≫= lookup id)) db db'.
Proof.
  intros Hk Hn Hsrc Ha H. apply (classify_sources_ok _ _ digit re_compiles Hseeds) in H as (rules & classes & -> & H1 & _ & _ & H3 & H4 & H5 & _);
    [|apply (kp_rules _ _ _ Hk)|done].
  assert (Hsub : ∀ r, is_Some (fd_rules db !! r) → is_Some (rules !! r)).
  { intros r [a Ha']. destruct (H3 r a Ha') as (b & Hb & _). by exists b. }
  split.
  - constructor; [done|apply (kp_sources _ _ _ Hk)|]. intros id row Hrow. cbn [fd_classes with_classes] in Hrow.
    destruct (decide (id ∈ sources.*1)) as [Hin|Hin].
    + apply list_elem_of_fmap in Hin as ([id' source] & -> & Hin). cbn [fst] in *. rewrite (H4 _ _ Hin) in Hrow. injection Hrow as <-.
      apply row_after_ok; [intros row; apply (kp_classes _ _ _ Hk)|by eapply Hsrc|done|done].
    + rewrite H5 in Hrow by done. destruct (kp_classes _ _ _ Hk id row Hrow) as [C1 C2 C3 C4]. constructor; try done.
      intros r Hr. apply Hsub, (C3 r Hr).
  - intros id row Hrow. cbn [fd_classes with_classes]. destruct (decide (id ∈ sources.*1)) as [Hin|Hin].
    + apply list_elem_of_fmap in Hin as ([id' source] & -> & Hin). cbn [fst] in *. eexists. split; [by apply H4|].
      unfold row_after. rewrite Hrow. split; [done|]. intros Hno.
      set (v := values_of _ _ _ _ _ _ _ _ _ _ _ _ _).
      assert (Eo : override_of (Some row) id' updates actor now = override_columns row).
      { unfold override_of. destruct (updates ≫= lookup id') as [o|] eqn:E; [|done]. destruct Hno. by eexists. }
      assert (Ev : override_of (Some row) id' updates actor now = (cl_override_class v.1, cl_override_by v.1, cl_override_at v.1)).
      { unfold v, values_of. rewrite Hrow. by destruct (override_of (Some row) id' updates actor now) as [[? ?] ?]. }
      rewrite <- Eo. by apply (upserted_override updates (Some row) id' actor now v.1).
    + exists row. by rewrite H5.
Qed.

Lemma reclassify_instance_kept instance_id now only updates actor db db' applied : kept db → (updates = None ∨ is_Some actor) →
  reclassify_instance re_search decimal instance_id now only updates actor db = Ok (db', applied) →
  kept db' ∧ columns_kept (λ id, is_Some (updates ≫= lookup id)) db db'.
Proof.
  intros Hk Ha. apply classify_sources_kept; [done|apply NoDup_fst_filter, NoDup_fst_filter, NoDup_fst_map_to_list| |done].
  intros id source Hin. apply list_elem_of_filter in Hin as [_ Hin]. apply sources_of_spec in Hin as [-> _]. by eexists.
Qed.

Lemma reclassify_for_rule_kept instance_id now db db' : kept db → reclassify_for_rule re_search decimal instance_id now db = Ok db' →
  kept db' ∧ columns_kept (λ _, False) db db'.
Proof.
  intros Hk H. unfold reclassify_for_rule in H.
  eapply (foldM_inv (λ d, kept d ∧ columns_kept (λ _, False) db d)); [|split; [exact Hk|apply columns_kept_refl]|exact H].
  intros d i d' _ [Hd Hc] E. bind_inv E. destruct r as [d1 applied]. cbn in E. injection E as <-.
  apply reclassify_instance_kept in E0 as [K C]; [|done|by left]. split; [done|]. eapply columns_kept_trans; [exact Hc|].
  intros id row Hrow. destruct (C id row Hrow) as (row' & Hrow' & E1 & E2). exists row'. split; [done|]. split; [done|].
  intros _. apply E2. intros [x Hx]. discriminate.
Qed.

(** ** Requests *)

Context (clean : text → text) (fingerprint : uuid → Z → string) (alerts_enabled : bool).

Inductive FleetOp :=
| FO_create (principal : Principal) (payload : RuleCreate) (new_id : uuid) (now : instant)
| FO_update (principal : Principal) (rule_id : uuid) (changes : RuleUpdate) (now : instant)
| FO_delete (principal : Principal) (rule_id : uuid) (now : instant)
| FO_override (principal : Principal) (log_source_id : uuid) (override_class : option SourceClass) (now : instant)
| FO_review (race : nat → list Alert → list Alert) (principal : Principal) (log_source_id : uuid) (now : instant)
| FO_sync (clock : nat → datetime) (race : nat → list Alert → list Alert) (provider : Provider) (instance_id : uuid)
    (instance : QRadarInstance) (now : instant) (new_id : Z → uuid).

Definition fleet_op (op : FleetOp) (w : FleetWorld) : result FleetWorld :=
  match op with
  | FO_create principal payload new_id now => create_rule re_search decimal digit re_compiles principal payload new_id now w
  | FO_update principal rule_id changes now => update_rule re_search decimal digit re_compiles principal rule_id changes now w
  | FO_delete principal rule_id now => delete_rule re_search decimal principal rule_id now w
  | FO_override principal id override_class now => set_classification_override re_search decimal principal id override_class now w
  | FO_review race principal id now => r <- mark_reviewed re_search decimal fingerprint race principal id now w ;; Ok r.1
  | FO_sync clock race provider instance_id instance now new_id =>
      r <- sync re_search decimal clean fingerprint alerts_enabled clock race provider instance_id instance now new_id w ;; Ok r.1
  end.

(** The identifiers an operation draws are new: [uuid4] never gives one that is taken or shipped. *)
Definition drawn (op : FleetOp) (w : FleetWorld) : Prop :=
  match op with
  | FO_create _ _ new_id _ => new_id ∉ seed_ids
  | FO_sync _ _ _ _ _ _ new_id => Inj (=) (=) new_id ∧ ∀ q, fd_sources (fw_db w) !! new_id q = None
  | _ => True
  end.

(** A request that is answered; one that raises is rolled back. *)
Definition fleet_step (w w' : FleetWorld) : Prop := ∃ op, drawn op w ∧ fleet_op op w = Ok w'.
End Steps.

Section StepsKept.
Context (re_search : text → text → option bool) (decimal : N → option Z) (digit : N → bool) (re_compiles : text → bool).
Context (Hseeds : seeds_compile re_compiles).

Abbreviation kept := (kept digit re_compiles).

(** ** Rules *)

Lemma put_user_rule_kept id row db rules : kept db → put_rule id row (fd_rules db) = Ok rules → ru_built_in row = false → id ∉ seed_ids →
  ru_target_class row ≠ SC_UNCLASSIFIED → check_pattern digit re_compiles (ru_kind row) (ru_pattern row) = Ok tt →
  kept (with_rules (λ _, rules) db).
Proof.
  intros Hk Hput Hb Hid Ht Hp. apply put_rule_ok in Hput as Hput'. destruct Hput' as [E _]. apply with_rules_kept; [done| |].
  - apply (put_rules_ok digit re_compiles id row (fd_rules db)); try done; [apply (kp_rules _ _ _ Hk)|congruence].
  - intros r Hr. rewrite E. destruct (decide (r = id)) as [->|]; [by rewrite lookup_insert_eq|by rewrite lookup_insert_ne].
Qed.

(** A rule request up to the classification it starts. *)
Definition writes_rules (instance_id : option uuid) (now : instant) (w w' : FleetWorld) : Prop :=
  ∃ db, kept db ∧ fd_instances db = fd_instances (fw_db w) ∧ columns_kept (λ _, False) (fw_db w) db ∧
    reclassify_for_rule re_search decimal instance_id now db = Ok (fw_db w').

Lemma writes_rules_kept instance_id now w w' : writes_rules instance_id now w w' →
  kept (fw_db w') ∧ columns_kept (λ _, False) (fw_db w) (fw_db w').
Proof.
  intros (db & Hk & _ & C & H). apply (reclassify_for_rule_kept _ _ digit re_compiles Hseeds) in H as [K C']; [|done].
  split; [done|]. by eapply columns_kept_trans.
Qed.

Lemma create_rule_writes principal payload new_id now w w' : kept (fw_db w) → new_id ∉ seed_ids →
  create_rule re_search decimal digit re_compiles principal payload new_id now w = Ok w' →
  writes_rules (rc_instance_id payload) now w w'.
Proof.
  intros Hk Hid H. unfold create_rule in H. bind_inv H. bind_inv H. bind_inv H.
  destruct (is_some_b _); [done|]. destruct (put_rule _ _ _) as [rules|] eqn:Eput; [|done]. bind_inv H. injection H as <-.
  unfold check_create in E. destruct r. do 3 (apply bind_ok in E as (? & _ & E)). apply bind_ok in E as ([] & Et & Ep).
  apply raise_if_ok, bool_decide_eq_false in Et. apply put_user_rule_kept in Eput; [|done..].
  eexists. split; [exact Eput|]. split; [done|]. split; [|exact E2]. intros id row Hrow. by exists row.
Qed.

Lemma changed_rule_ok changes rule rule_id row rules rules' : rules_ok digit re_compiles rules → rules !! rule_id = Some rule →
  check_changes digit re_compiles rule changes = Ok tt → changed_rule changes rule = Some row → put_rule rule_id row rules = Ok rules' →
  rules_ok digit re_compiles rules'.
Proof.
  intros Hok Hr Hc Hch Hput. unfold check_changes in Hc.
  apply bind_ok in Hc as ([] & Hb & Hc). apply raise_if_ok in Hb. do 3 (apply bind_ok in Hc as (? & _ & Hc)).
  apply bind_ok in Hc as ([] & Hp & Ht). apply raise_if_ok, bool_decide_eq_false in Ht.
  destruct (rk_usable _ _ _ Hok _ _ Hr) as [Hut Hup]. unfold changed_rule in Hch.
  destruct (nulled (up_target_class changes)) eqn:Hn; [done|]. injection Hch as <-.
  apply (put_rules_ok digit re_compiles rule_id _ rules rules' Hok Hput); cbn.
  - intros Hbi. destruct (rk_built_in _ _ _ Hok _ _ Hr Hbi) as (item & H). exists item. rewrite Hbi in Hb. cbn in Hb.
    unfold beyond_enabled in Hb. destruct (up_pattern changes), (up_target_class changes), (up_priority changes), (up_description changes); done.
  - by apply (rk_seed _ _ _ Hok).
  - destruct (up_target_class changes) as [[c|]|]; [congruence|done|done].
  - destruct (up_pattern changes) as [[p|]|]; done.
Qed.

Lemma update_rule_writes principal rule_id changes now w w' : kept (fw_db w) →
  update_rule re_search decimal digit re_compiles principal rule_id changes now w = Ok w' →
  ∃ rule, fd_rules (fw_db w) !! rule_id = Some rule ∧ writes_rules (ru_instance_id rule) now w w'.
Proof.
  intros Hk H. unfold update_rule in H. bind_inv H. bind_inv H. bind_inv H. bind_inv H. destruct r2.
  destruct (changed_rule changes r1) as [row|] eqn:Er; [|done]. destruct (put_rule _ _ _) as [rules|] eqn:Eput; [|done].
  bind_inv H. injection H as <-. unfold get_rule in E1. destruct (fd_rules (fw_db w) !! rule_id) as [rule|] eqn:Ei; [|done]. injection E1 as ->.
  exists r1. split; [done|]. exists (with_rules (λ _, rules) (fw_db w)).
  split; [|split; [done|split; [|exact E3]]; intros id row' Hrow; by exists row']. apply with_rules_kept; [done| |].
  - by apply (changed_rule_ok changes r1 rule_id row (fd_rules (fw_db w))); [apply (kp_rules _ _ _ Hk)|..].
  - apply put_rule_ok in Eput as [-> _]. intros i Hi. destruct (decide (i = rule_id)) as [->|]; [by rewrite lookup_insert_eq|by rewrite lookup_insert_ne].
Qed.

Lemma delete_rule_writes principal rule_id now w w' : kept (fw_db w) → delete_rule re_search decimal principal rule_id now w = Ok w' →
  ∃ rule, fd_rules (fw_db w) !! rule_id = Some rule ∧ writes_rules (ru_instance_id rule) now w w'.
Proof.
  intros Hk H. unfold delete_rule in H. bind_inv H. bind_inv H. bind_inv H. bind_inv H. injection H as <-.
  unfold get_rule in E0. destruct (fd_rules (fw_db w) !! rule_id) as [rule|] eqn:Ei; [|done]. injection E0 as ->.
  exists r0. split; [done|]. exists (with_classes (fmap (unlink_rule rule_id)) (with_rules (delete rule_id) (fw_db w))).
  split; [|split; [done|split; [|exact E2]]].
  - destruct Hk as [K1 K2 K3]. destruct K1 as [U B S V]. constructor; cbn.
    + constructor; intros i; [intros j a b Ha Hb'|intros a Ha..]; apply lookup_delete_Some in Ha as [_ Ha];
        [apply lookup_delete_Some in Hb' as [_ Hb']; by apply (U i j a b)|by apply B|by apply S|by apply (V i)].
    + done.
    + intros id row Hrow. apply lookup_fmap_Some in Hrow as (old & <- & Hold). destruct (K3 id old Hold) as [C1 C2 C3 C4].
      constructor; cbn; [done| | |done].
      * destruct (cl_override_class old); [|done]. destruct C2 as (-> & -> & -> & ?). by rewrite bool_decide_false.
      * intros i Hr. destruct (bool_decide_reflect (cl_rule_id old = Some rule_id)) as [|Hne]; [done|].
        rewrite lookup_delete_ne by congruence. by apply C3.
  - intros id row Hrow. cbn. rewrite lookup_fmap, Hrow. cbn. eexists. by split.
Qed.

(** ** Overrides and reviews *)

Context (clean : text → text) (fingerprint : uuid → Z → string) (alerts_enabled : bool).

Lemma override_kept principal id override_class now w w' : kept (fw_db w) →
  set_classification_override re_search decimal principal id override_class now w = Ok w' →
  kept (fw_db w') ∧ columns_kept (λ i, i = id) (fw_db w) (fw_db w') ∧ has principal PERM_LOG_SOURCE_WRITE = true.
Proof.
  intros Hk H. unfold set_classification_override in H. bind_inv H. bind_inv H. bind_inv H. injection H as <-. destruct r1 as [db applied].
  apply (reclassify_instance_kept _ _ digit re_compiles Hseeds) in E1 as [K C]; [|done|right; by eexists]. split; [done|]. split.
  - intros i row Hrow. destruct (C i row Hrow) as (row' & Hrow' & E2 & E3). exists row'. split; [done|]. split; [done|].
    intros Hi. apply E3. cbn. rewrite lookup_singleton_ne by done. by intros [x Hx].
  - unfold require_permission in E. destruct r. apply raise_if_ok, negb_false_iff in E. done.
Qed.

Lemma review_kept race principal id now w w' : kept (fw_db w) →
  (r <- mark_reviewed re_search decimal fingerprint race principal id now w ;; Ok r.1) = Ok w' →
  kept (fw_db w') ∧ has principal PERM_LOG_SOURCE_WRITE = true ∧
  ∀ i row, fd_classes (fw_db w) !! i = Some row → ∃ row', fd_classes (fw_db w') !! i = Some row' ∧
    override_columns row' = override_columns row ∧ (i ≠ id → review_columns row' = review_columns row).
Proof.
  intros Hk H. bind_inv H. destruct r as [w1 o]. cbn in H. injection H as <-. unfold mark_reviewed in E. bind_inv E. bind_inv E.
  split; [|split; [unfold require_permission in E0; destruct r; by apply raise_if_ok, negb_false_iff in E0|]].
  all: destruct (fd_classes (fw_db w) !! id) as [row|] eqn:Er.
  - destruct (bool_decide _); [by injection E as <- <-|]. bind_inv E. injection E as <- <-. cbn. destruct Hk as [K1 K2 K3].
    constructor; [done|done|]. cbn. intros i row' Hrow. apply lookup_insert_Some in Hrow as [[<- <-]|[Hne Hrow]].
    + destruct (K3 id row Er) as [C1 C2 C3 [C4 C5]]. by constructor.
    + destruct (K3 i row' Hrow) as [C1 C2 C3 C4]. by constructor.
  - bind_inv E. injection E as <- <-. destruct r1 as [db applied].
    by apply (reclassify_instance_kept _ _ digit re_compiles Hseeds) in E2 as [K C]; [|done|left].
  - intros i row0 Hrow. destruct (bool_decide _); [injection E as <- <-; by exists row0|]. bind_inv E. injection E as <- <-. cbn.
    destruct (decide (i = id)) as [->|Hne].
    + rewrite lookup_insert_eq. eexists. split; [done|]. split; [|done]. rewrite Er in Hrow. by injection Hrow as <-.
    + rewrite lookup_insert_ne by done. by exists row0.
  - bind_inv E. injection E as <- <-. destruct r1 as [db applied].
    apply (reclassify_instance_kept _ _ digit re_compiles Hseeds) in E2 as [K C]; [|done|by left]. intros i row0 Hrow.
    destruct (C i row0 Hrow) as (row' & Hrow' & E3 & E4). exists row'. split; [done|]. split; [|done]. apply E4. by intros [x Hx].
Qed.
End StepsKept.

(** ** The inventory of an instance *)

Section Inventory.
Context (clean : text → text) (instance_id : uuid) (new_id : Z → uuid).

(** The rows of the loop: each of the instance, stored under its identifier or new, and no stored one left out. *)
Record rows_ok (db : FleetDb) (rows : gmap Z (uuid * LogSource)) : Prop := {
  ro_row : ∀ q id s, rows !! q = Some (id, s) → ls_instance_id s = instance_id ∧ ls_qradar_id s = q ∧
    ((∃ s0, fd_sources db !! id = Some s0 ∧ ls_instance_id s0 = instance_id ∧ ls_qradar_id s0 = q) ∨ id = new_id q);
  ro_all : ∀ id s0, fd_sources db !! id = Some s0 → ls_instance_id s0 = instance_id → ∃ s, rows !! ls_qradar_id s0 = Some (id, s) }.

Definition sources_unique (db : FleetDb) : Prop := ∀ i j s t, fd_sources db !! i = Some s → fd_sources db !! j = Some t →
  ls_instance_id s = ls_instance_id t → ls_qradar_id s = ls_qradar_id t → i = j.

Lemma by_qradar_id_spec db q id s : sources_unique db →
  by_qradar_id instance_id db !! q = Some (id, s) ↔ fd_sources db !! id = Some s ∧ ls_instance_id s = instance_id ∧ ls_qradar_id s = q.
Proof.
  intros Hu. unfold by_qradar_id. rewrite <- elem_of_list_to_map.
  - rewrite list_elem_of_fmap. split.
    + intros ([id' s'] & [= -> -> ->] & Hx). apply sources_of_spec in Hx as [? ?]. done.
    + intros (H1 & H2 & <-). exists (id, s). split; [done|]. by apply sources_of_spec.
  - assert (H : ∀ l : list (uuid * LogSource), NoDup l.*1 → (∀ id s, (id, s) ∈ l → (id, s) ∈ sources_of instance_id db) →
                NoDup ((λ x : uuid * LogSource, (ls_qradar_id x.2, x)) <$> l).*1).
    2:{ apply H; [apply NoDup_fst_filter, NoDup_fst_map_to_list|done]. }
    induction l as [|[i x] l IH]; intros Hn Hsub; [constructor|]. apply NoDup_cons in Hn as [Hx Hn]. rewrite !fmap_cons. constructor.
    + intros (y & E & Hy)%list_elem_of_fmap. apply list_elem_of_fmap in Hy as ([j y'] & -> & Hy). cbn in E.
      assert (H1 := Hsub i x (list_elem_of_here _ _)). assert (H2 := Hsub j y' (list_elem_of_further _ _ _ Hy)).
      apply sources_of_spec in H1 as [H1 I1], H2 as [H2 I2]. apply Hx.
      assert (i = j) as -> by (apply (Hu i j x y'); congruence). by apply (list_elem_of_fmap_2 fst _ (j, y')).
    + apply IH; [done|]. intros id' s' Hin. apply Hsub. by right.
Qed.

Lemma rows_ok_init db : sources_unique db → rows_ok db (by_qradar_id instance_id db).
Proof.
  intros Hu. constructor.
  - intros q i s H. apply by_qradar_id_spec in H as (H1 & H2 & H3); [|done]. split; [done|]. split; [done|]. left. by exists s.
  - intros i s0 H1 H2. exists s0. by apply by_qradar_id_spec.
Qed.

Lemma see_rows_ok db now types s dto : rows_ok db (se_rows s) → rows_ok db (se_rows (see clean instance_id now types new_id s dto)).
Proof.
  intros [R A]. unfold see. destruct (se_rows s !! do_qradar_id dto) as [[i x]|] eqn:E; cbn; constructor.
  - intros q j y. rewrite lookup_insert_Some. intros [[<- [= <- <-]]|[_ Hy]]; [|by apply R]. cbn. split; [done|]. split; [done|].
    by apply (R _ _ _ E).
  - intros j s0 Hj Hi. destruct (A j s0 Hj Hi) as [y Hy]. destruct (decide (do_qradar_id dto = ls_qradar_id s0)) as [Eq|Hne].
    + rewrite Eq in *. rewrite lookup_insert_eq. rewrite Hy in E. injection E as -> ->. by eexists.
    + rewrite lookup_insert_ne by done. by exists y.
  - intros q j y. rewrite lookup_insert_Some. intros [[<- [= <- <-]]|[_ Hy]]; [|by apply R]. cbn. auto.
  - intros j s0 Hj Hi. destruct (A j s0 Hj Hi) as [y Hy]. rewrite lookup_insert_ne by congruence. by exists y.
Qed.

Lemma see_all_rows_ok db now types dtos s : rows_ok db (se_rows s) → rows_ok db (se_rows (foldl (see clean instance_id now types new_id) s dtos)).
Proof. revert s. induction dtos as [|dto dtos IH]; intros s H; cbn [foldl]; [done|]. by apply IH, see_rows_ok. Qed.

Context (Hinj : Inj (=) (=) new_id).

Lemma rows_NoDup db rows : sources_unique db → (∀ q, fd_sources db !! new_id q = None) → rows_ok db rows →
  NoDup ((map_to_list rows).*2).*1.
Proof.
  intros Hu Hfresh [R _]. assert (H : ∀ l : list (Z * (uuid * LogSource)), NoDup l.*1 → (∀ q x, (q, x) ∈ l → rows !! q = Some x) → NoDup (l.*2).*1).
  2:{ apply H; [apply NoDup_fst_map_to_list|]. intros q x. by apply elem_of_map_to_list. }
  induction l as [|[q [i s]] l IH]; intros Hn Hsub; [constructor|]. apply NoDup_cons in Hn as [Hq Hn]. rewrite !fmap_cons. constructor.
  - intros ([j t] & E & Hj)%list_elem_of_fmap. cbn in E. subst j. apply list_elem_of_fmap in Hj as ([q' [j t']] & [= <- <-] & Hj).
    apply Hq. assert (q' = q) as <-; [|by apply (list_elem_of_fmap_2 fst _ (q', (i, t)))].
    destruct (R q i s) as (_ & _ & H1); [apply Hsub; by left|]. destruct (R q' i t) as (_ & _ & H2); [apply Hsub; by right|].
    destruct H1 as [(a & Ha & Hai & Haq)|H1], H2 as [(b & Hb & Hbi & Hbq)|H2].
    + rewrite Ha in Hb. injection Hb as ->. congruence.
    + rewrite H2, Hfresh in Ha. discriminate.
    + rewrite H1, Hfresh in Hb. discriminate.
    + apply Hinj. congruence.
  - apply IH; [done|]. intros q' x Hin. apply Hsub. by right.
Qed.

Lemma write_inventory_sources db types groups rows : sources_unique db → (∀ q, fd_sources db !! new_id q = None) → rows_ok db rows →
  let db' := write_inventory instance_id types groups rows db in
  sources_unique db' ∧ (∀ id, is_Some (fd_sources db !! id) → is_Some (fd_sources db' !! id)) ∧
  (∀ id s, (id, s) ∈ (map_to_list rows).*2 → fd_sources db' !! id = Some s) ∧
  (∀ id s, fd_sources db' !! id = Some s → ls_instance_id s = instance_id → ∃ q, rows !! q = Some (id, s)).
Proof.
  intros Hu Hfresh Hrows. pose proof (rows_NoDup db rows Hu Hfresh Hrows) as Hn. destruct Hrows as [R A]. cbn zeta.
  destruct (foldl_insert (map_to_list rows).*2 (fd_sources db) Hn) as [W1 W2]. cbn zeta in W1, W2.
  change (foldl _ _ _) with (fd_sources (write_inventory instance_id types groups rows db)) in W1, W2.
  unfold sources_unique. set (res := fd_sources (write_inventory _ _ _ _ _)) in *. clearbody res.
  assert (Hin : ∀ id s, (id, s) ∈ (map_to_list rows).*2 ↔ ∃ q, rows !! q = Some (id, s)).
  { intros i s. rewrite list_elem_of_fmap. split.
    - intros ([q x] & E & Hx). cbn in E. subst x. exists q. by apply elem_of_map_to_list.
    - intros [q Hq]. exists (q, (i, s)). split; [done|]. by apply elem_of_map_to_list. }
  (* a source that is stored now is a row of the loop, or was stored for another instance *)
  assert (Hcase : ∀ i s, res !! i = Some s → (∃ q, rows !! q = Some (i, s)) ∨ fd_sources db !! i = Some s ∧ ls_instance_id s ≠ instance_id).
  { intros i s Hi. destruct (decide (i ∈ ((map_to_list rows).*2).*1)) as [Hx|Hx].
    - apply list_elem_of_fmap in Hx as ([j t] & -> & Hx). cbn in *. rewrite (W1 _ _ Hx) in Hi. injection Hi as ->. left. by apply Hin.
    - rewrite W2 in Hi by done. destruct (decide (ls_instance_id s = instance_id)) as [E|E]; [|by right].
      destruct (A i s Hi E) as [t Ht]. destruct Hx. apply (list_elem_of_fmap_2 fst _ (i, t)), Hin. by eexists. }
  split; [|split; [|split; [done|]]].
  - intros i j s t Hi Hj E1 E2. destruct (Hcase i s Hi) as [[q Hq]|[Hi' Ni]], (Hcase j t Hj) as [[q' Hq']|[Hj' Nj]].
    + destruct (R _ _ _ Hq) as (_ & Q1 & _), (R _ _ _ Hq') as (_ & Q2 & _). assert (q = q') as <- by congruence. congruence.
    + destruct (R _ _ _ Hq) as (Es & _). congruence.
    + destruct (R _ _ _ Hq') as (Es & _). congruence.
    + by apply (Hu i j s t).
  - intros i [s Hi]. destruct (decide (i ∈ ((map_to_list rows).*2).*1)) as [Hx|Hx]; [|rewrite W2 by done; by eexists].
    apply list_elem_of_fmap in Hx as ([j t] & -> & Hx). cbn. rewrite (W1 _ _ Hx). by eexists.
  - intros i s Hi E. by destruct (Hcase i s Hi) as [|[_ Ni]].
Qed.

(** The new rows are the ones under an identifier that was drawn. *)
Lemma see_all_new db now types dtos s : (∀ q, fd_sources db !! new_id q = None) → rows_ok db (se_rows s) →
  (∀ q id x, se_rows s !! q = Some (id, x) → id ∈ se_new s ↔ fd_sources db !! id = None) →
  let s' := foldl (see clean instance_id now types new_id) s dtos in
  ∀ q id x, se_rows s' !! q = Some (id, x) → id ∈ se_new s' ↔ fd_sources db !! id = None.
Proof.
  intros Hfresh. cbn zeta. revert s. induction dtos as [|dto dtos IH]; intros s Hr Hn; cbn [foldl]; [done|].
  apply IH; [by apply see_rows_ok|]. unfold see. destruct (se_rows s !! do_qradar_id dto) as [[i y]|] eqn:E; cbn; intros q id x.
  - rewrite lookup_insert_Some. intros [[<- [= <- <-]]|[_ Hx]]; [by apply (Hn _ _ _ E)|by apply (Hn _ _ _ Hx)].
  - rewrite lookup_insert_Some, elem_of_app, list_elem_of_singleton. intros [[<- [= <- <-]]|[Hne Hx]].
    + rewrite Hfresh. split; [done|by right].
    + rewrite (Hn _ _ _ Hx). split; [|by left]. intros [H| ->]; [done|apply Hfresh].
Qed.
End Inventory.

Section Sync.
Context (re_search : text → text → option bool) (decimal : N → option Z) (digit : N → bool) (re_compiles : text → bool).
Context (Hseeds : seeds_compile re_compiles).
Context (clean : text → text) (fingerprint : uuid → Z → string) (alerts_enabled : bool).

Abbreviation kept := (kept digit re_compiles).

Lemma with_instance_kept instance_id f db : kept db → kept (with_instance instance_id f db).
Proof. intros [K1 K2 K3]. constructor; [done|done|]. intros id row H. destruct (K3 id row H) as [C1 C2 C3 C4]. by constructor. Qed.

Lemma write_inventory_kept instance_id new_id types groups rows db : kept db → Inj (=) (=) new_id →
  (∀ q, fd_sources db !! new_id q = None) → rows_ok instance_id new_id db rows → kept (write_inventory instance_id types groups rows db).
Proof.
  intros [K1 K2 K3] Hinj Hfresh Hr.
  destruct (write_inventory_sources instance_id new_id Hinj db types groups rows K2 Hfresh Hr) as (W1 & W2 & _ & _).
  constructor; [done|done|]. intros id row H. destruct (K3 id row H) as [C1 C2 C3 C4]. constructor; [by apply W2|done..].
Qed.

(** What the pass classifies, and from what. *)
Lemma sync_answers_ok clock race instance_id instance_name now new_id type_dtos group_dtos dtos w w' seen :
  kept (fw_db w) → Inj (=) (=) new_id → (∀ q, fd_sources (fw_db w) !! new_id q = None) →
  sync_answers re_search decimal clean fingerprint alerts_enabled clock race instance_id instance_name now new_id type_dtos group_dtos dtos w
    = Ok (w', seen) →
  let types := (λ t, {| tf_type_id := td_type_id t; tf_name := sanitized_name clean (td_name t); tf_internal := td_internal t |}) <$> type_dtos in
  let groups := (λ g, {| gf_qradar_id := gd_qradar_id g; gf_parent_qradar_id := gd_parent_qradar_id g |}) <$> group_dtos in
  let existing := by_qradar_id instance_id (fw_db w) in
  let db := write_inventory instance_id types groups (se_rows seen) (fw_db w) in
  rows_ok instance_id new_id (fw_db w) (se_rows seen) ∧ kept db ∧ NoDup ((map_to_list (se_rows seen)).*2).*1 ∧
  (∀ id s, (id, s) ∈ (map_to_list (se_rows seen)).*2 → fd_sources db !! id = Some s) ∧
  (∀ id s, fd_sources db !! id = Some s → ls_instance_id s = instance_id →
     (id, s) ∈ (map_to_list (se_rows seen)).*2 ∧ (id ∈ se_new seen ↔ fd_sources (fw_db w) !! id = None)) ∧
  ∃ applied, classify_sources re_search decimal instance_id (map_to_list (se_rows seen)).*2 types groups (list_to_set (se_new seen))
    (bool_decide (existing = ∅)) now None None db = Ok (fw_db w', applied).
Proof.
  intros Hk Hinj Hfresh H. unfold sync_answers in H. bind_inv H. bind_inv H. injection H as <- <-. cbn zeta.
  assert (Hr : rows_ok instance_id new_id (fw_db w) (se_rows (foldl (see clean instance_id now type_dtos new_id)
            {| se_rows := by_qradar_id instance_id (fw_db w); se_new := []; se_created := 0; se_updated := 0 |} dtos))).
  { apply see_all_rows_ok. apply rows_ok_init. exact (kp_sources _ _ _ Hk). }
  split; [done|]. split; [by apply (write_inventory_kept instance_id new_id)|].
  split; [by apply (rows_NoDup instance_id new_id Hinj (fw_db w)); [exact (kp_sources _ _ _ Hk)|..]|].
  set (types := (λ t, _) <$> type_dtos) in *. set (groups := (λ g, _) <$> group_dtos) in *.
  destruct (write_inventory_sources instance_id new_id Hinj (fw_db w) types groups _ (kp_sources _ _ _ Hk) Hfresh Hr) as (_ & _ & W1 & W2).
  split; [exact W1|]. split; [|exists r.2; cbn [fw_db]; rewrite <- surjective_pairing; exact E].
  intros id s Hid Hi. destruct (W2 id s Hid Hi) as [q Hq]. split.
  - apply list_elem_of_fmap. exists (q, (id, s)). split; [done|]. by apply elem_of_map_to_list.
  - refine (see_all_new clean instance_id new_id (fw_db w) now type_dtos dtos _ Hfresh _ _ q id s Hq); [apply rows_ok_init; exact (kp_sources _ _ _ Hk)|].
    cbn. intros q' id' x Hx. apply by_qradar_id_spec in Hx as (Hx & _); [|exact (kp_sources _ _ _ Hk)]. rewrite Hx. split; [by intros ?%elem_of_nil|done].
Qed.

Lemma sync_kept clock race provider instance_id instance now new_id w w' e : kept (fw_db w) → Inj (=) (=) new_id →
  (∀ q, fd_sources (fw_db w) !! new_id q = None) →
  sync re_search decimal clean fingerprint alerts_enabled clock race provider instance_id instance now new_id w = Ok (w', e) →
  kept (fw_db w') ∧ columns_kept (λ _, False) (fw_db w) (fw_db w').
Proof.
  intros Hk Hinj Hfresh H. unfold sync in H. destruct (pv_info provider) as [info|class message].
  2:{ injection H as <- <-. split; [by apply with_instance_kept|intros id row Hrow; by exists row]. }
  destruct (pv_types provider) as [types|class message].
  2:{ injection H as <- <-. split; [by apply with_instance_kept|intros id row Hrow; by exists row]. }
  destruct (pv_sources provider) as [dtos|class message].
  2:{ injection H as <- <-. split; [by apply with_instance_kept|intros id row Hrow; by exists row]. }
  bind_inv H. destruct r as [w1 seen]. injection H as <- _. cbn [fst].
  apply sync_answers_ok in E as (_ & K & Hn & Hs & _ & applied & E); [|by apply with_instance_kept|done|done].
  apply (classify_sources_kept _ _ digit re_compiles Hseeds) in E as [K' C]; [|done|done| |by left].
  - split; [done|]. intros id row Hrow. destruct (C id row Hrow) as (row' & Hrow' & E2 & E3). exists row'. split; [done|]. split; [done|].
    intros _. apply E3. by intros [x Hx].
  - intros id s Hin. rewrite (Hs id s Hin). by eexists.
Qed.

Abbreviation fleet_op := (fleet_op re_search decimal digit re_compiles clean fingerprint alerts_enabled).

(** The principal sets or clears the override of the source, or reviews it, and may. *)
Definition overrides (op : FleetOp) (id : uuid) : Prop :=
  match op with FO_override principal i _ _ => i = id ∧ has principal PERM_LOG_SOURCE_WRITE = true | _ => False end.
Definition reviews (op : FleetOp) (id : uuid) : Prop :=
  match op with FO_review _ principal i _ => i = id ∧ has principal PERM_LOG_SOURCE_WRITE = true | _ => False end.

Lemma fleet_op_kept op w w' : kept (fw_db w) → drawn op w → fleet_op op w = Ok w' →
  kept (fw_db w') ∧ ∀ id row, fd_classes (fw_db w) !! id = Some row → ∃ row', fd_classes (fw_db w') !! id = Some row' ∧
    (override_columns row' = override_columns row ∨ overrides op id) ∧ (review_columns row' = review_columns row ∨ reviews op id).
Proof.
  intros Hk Hd H.
  assert (Hplain : columns_kept (λ _, False) (fw_db w) (fw_db w') → ∀ id row, fd_classes (fw_db w) !! id = Some row →
    ∃ row', fd_classes (fw_db w') !! id = Some row' ∧ (override_columns row' = override_columns row ∨ overrides op id) ∧
      (review_columns row' = review_columns row ∨ reviews op id)).
  { intros C id row Hrow. destruct (C id row Hrow) as (row' & Hrow' & E1 & E2). exists row'. split; [done|]. split; [left; apply E2; tauto|by left]. }
  destruct op; cbn [fleet_op drawn] in H, Hd.
  - apply (create_rule_writes re_search decimal digit re_compiles) in H as [K C]%(writes_rules_kept _ _ _ _ Hseeds); auto.
  - apply (update_rule_writes re_search decimal digit re_compiles) in H as (rule & _ & [K C]%(writes_rules_kept _ _ _ _ Hseeds)); auto.
  - apply (delete_rule_writes re_search decimal digit re_compiles) in H as (rule & _ & [K C]%(writes_rules_kept _ _ _ _ Hseeds)); auto.
  - apply (override_kept re_search decimal digit re_compiles Hseeds) in H as (K & C & Hp); [|done]. split; [done|].
    intros id row Hrow. destruct (C id row Hrow) as (row' & Hrow' & E1 & E2). exists row'. split; [done|]. split; [|by left].
    destruct (decide (id = log_source_id)) as [->|Hne]; [by right|left; by apply E2].
  - apply (review_kept re_search decimal digit re_compiles Hseeds) in H as (K & Hp & C); [|done]. split; [done|].
    intros id row Hrow. destruct (C id row Hrow) as (row' & Hrow' & E1 & E2). exists row'. split; [done|]. split; [by left|].
    destruct (decide (id = log_source_id)) as [->|Hne]; [by right|left; by apply E2].
  - bind_inv H. destruct r as [w1 e]. injection H as <-. destruct Hd as [Hi Hf]. apply sync_kept in E as [K C]; auto.
Qed.
End Sync.

Section Effect.
Context (re_search : text → text → option bool) (decimal : N → option Z) (digit : N → bool) (re_compiles : text → bool).
Context (Hseeds : seeds_compile re_compiles).

Abbreviation rules_ok := (rules_ok digit re_compiles).

(** The row is what classifying the source by the tables as they are gives. *)
Definition fits (db : FleetDb) (source : LogSource) (row : Classification) : Prop :=
  let i := ls_instance_id source in
  let r := classify re_search decimal (source_facts source (cl_override_class row)) (rule_facts i (fd_rules db)) (type_facts i db) (group_facts i db) in
  cl_source_class row = cr_source_class r ∧ cl_basis row = cr_basis r ∧ cl_rule_id row = cr_rule_id r ∧ cl_conflicts row = cr_conflicts r.

(** The tables classification reads, but for the rules. *)
Definition same_inventory (db db' : FleetDb) : Prop :=
  fd_instances db' = fd_instances db ∧ fd_sources db' = fd_sources db ∧ fd_types db' = fd_types db ∧ fd_groups db' = fd_groups db.

Lemma fits_same db db' source row : same_inventory db db' → fd_rules db' = fd_rules db → fits db source row → fits db' source row.
Proof. intros (_ & _ & E1 & E2) E3. unfold fits, type_facts, group_facts. by rewrite E1, E2, E3. Qed.

Lemma row_after_fits instance_id types groups new bootstrap now updates actor db rules id source : 
  let row := row_after re_search decimal instance_id types groups new bootstrap now updates actor db rules id source in
  cl_override_class row = (override_of (fd_classes db !! id) id updates actor now).1.1 ∧
  let r := classify re_search decimal (source_facts source (cl_override_class row)) (rule_facts instance_id rules) types groups in
  cl_source_class row = cr_source_class r ∧ cl_basis row = cr_basis r ∧ cl_rule_id row = cr_rule_id r ∧ cl_conflicts row = cr_conflicts r.
Proof.
  cbn zeta. unfold row_after. set (current := fd_classes db !! id). set (v := values_of _ _ _ _ _ _ _ _ _ _ _ _ _).
  assert (Ev : v = values_of re_search decimal (rule_facts instance_id rules) types groups (fd_classes db) new bootstrap now updates actor id source) by done.
  unfold values_of in Ev. fold current in Ev. destruct (override_of current id updates actor now) as [[o ob] oat] eqn:Eo.
  assert (Eu : (cl_override_class (upserted (overrides_given updates) v.1 current), cl_override_by (upserted (overrides_given updates) v.1 current),
                cl_override_at (upserted (overrides_given updates) v.1 current)) = (o, ob, oat)).
  { rewrite <- Eo. apply upserted_override. by rewrite Eo, Ev. }
  injection Eu as Eu _ _. rewrite Eu. split; [done|]. rewrite Ev. by destruct current.
Qed.

Lemma reclassify_instance_fits instance_id now only updates actor db db' applied : rules_ok (fd_rules db) →
  reclassify_instance re_search decimal instance_id now only updates actor db = Ok (db', applied) →
  rules_ok (fd_rules db') ∧ same_inventory db db' ∧ (∀ item, item ∈ SEED_RULES → seeded item (fd_rules db')) ∧
  ((∀ item, item ∈ SEED_RULES → seeded item (fd_rules db)) → fd_rules db' = fd_rules db) ∧
  ∀ id source, fd_sources db !! id = Some source →
    (ls_instance_id source = instance_id ∧ match only with Some ids => id ∈ ids | None => True end →
       ∃ row, fd_classes db' !! id = Some row ∧ fits db' source row ∧
         cl_override_class row = (override_of (fd_classes db !! id) id updates actor now).1.1) ∧
    (ls_instance_id source ≠ instance_id → fd_classes db' !! id = fd_classes db !! id).
Proof.
  intros Hok H. unfold reclassify_instance in H.
  apply (classify_sources_ok _ _ digit re_compiles Hseeds) in H as (rules & classes & -> & H1 & H2 & H3 & _ & H4 & H5 & _); [|done|
    apply NoDup_fst_filter, NoDup_fst_filter, NoDup_fst_map_to_list].
  split; [done|]. split; [done|]. split; [done|]. split; [done|]. intros id source Hs. split.
  - intros [Hi Hin]. cbn [fd_classes with_classes]. eexists. split.
    + apply H4. apply list_elem_of_filter. split; [destruct only; [by apply bool_decide_eq_true|done]|]. by apply sources_of_spec.
    + destruct (row_after_fits instance_id (type_facts instance_id db) (group_facts instance_id db) ∅ true now updates actor db rules id source) as [Ho Hr].
      split; [|exact Ho]. unfold fits. rewrite Hi. exact Hr.
  - intros Hne. cbn [fd_classes with_classes]. apply H5. intros Hin. apply list_elem_of_fmap in Hin as ([id' s] & -> & Hin). cbn in Hs.
    apply list_elem_of_filter in Hin as [_ Hin]. apply sources_of_spec in Hin as [Hs' Hi]. congruence.
Qed.

Lemma reclassify_all_fit now l d d' done_ : rules_ok (fd_rules d) →
  (done_ ≠ [] → ∀ item, item ∈ SEED_RULES → seeded item (fd_rules d)) →
  (∀ id source, fd_sources d !! id = Some source → ls_instance_id source ∈ done_ → ∃ row, fd_classes d !! id = Some row ∧ fits d source row) →
  foldM (λ db item, r <- reclassify_instance re_search decimal item now None None None db ;; Ok r.1) d l = Ok d' →
  same_inventory d d' ∧
  ∀ id source, fd_sources d' !! id = Some source → ls_instance_id source ∈ done_ ++ l → ∃ row, fd_classes d' !! id = Some row ∧ fits d' source row.
Proof.
  revert d done_. induction l as [|j l IH]; intros d done_ Hok Hseed Hfit H; cbn [foldM] in H.
  { injection H as <-. rewrite app_nil_r. done. }
  bind_inv H. bind_inv E. destruct r0 as [d1 applied]. injection E as <-. cbn [fst] in H.
  apply reclassify_instance_fits in E0 as (K1 & K2 & K3 & K4 & K5); [|done].
  destruct (IH d1 (done_ ++ [j])) as [Hs Hf]; [done|done| |done|].
  - intros id source Hsrc Hin. assert (Hsrc' : fd_sources d !! id = Some source) by (destruct K2 as (_ & Es & _); by rewrite <- Es).
    destruct (K5 id source Hsrc') as [F1 F2]. destruct (decide (ls_instance_id source = j)) as [Hj|Hj].
    + destruct F1 as (row & Hr & Hfr & _); [done|]. by exists row.
    + apply elem_of_app in Hin as [Hin|Hin]; [|by apply list_elem_of_singleton in Hin]. destruct (Hfit id source Hsrc' Hin) as (row & Hr & Hfr).
      exists row. rewrite F2 by done. split; [done|]. apply (fits_same d); [done| |done]. apply K4, Hseed. intros E. rewrite E in Hin. by apply elem_of_nil in Hin.
  - split; [|by rewrite <- app_assoc in Hf]. destruct K2 as (A1 & A2 & A3 & A4), Hs as (B1 & B2 & B3 & B4). unfold same_inventory. by rewrite B1, B2, B3, B4.
Qed.

Lemma reclassify_for_rule_fits instance_id now db db' : rules_ok (fd_rules db) → reclassify_for_rule re_search decimal instance_id now db = Ok db' →
  same_inventory db db' ∧ ∀ id source, fd_sources db' !! id = Some source →
    match instance_id with Some i => ls_instance_id source = i | None => is_Some (fd_instances db' !! ls_instance_id source) end →
    ∃ row, fd_classes db' !! id = Some row ∧ fits db' source row.
Proof.
  intros Hok H. unfold reclassify_for_rule in H. apply (reclassify_all_fit _ _ _ _ []) in H as [Hs Hf]; [|done|done|].
  - split; [done|]. intros id source Hsrc Hi. apply (Hf id source Hsrc). cbn [app]. destruct instance_id as [i|]; [subst i; by left|].
    destruct Hs as (E & _). rewrite E in Hi. destruct Hi as [x Hx]. apply list_elem_of_fmap. exists (ls_instance_id source, x). split; [done|].
    by apply elem_of_map_to_list.
  - intros id source _ Hin. by apply elem_of_nil in Hin.
Qed.
End Effect.

Section Requests.
Context (re_search : text → text → option bool) (decimal : N → option Z) (digit : N → bool) (re_compiles : text → bool).
Context (clean : text → text) (fingerprint : uuid → Z → string) (alerts_enabled : bool).

Abbreviation kept := (kept digit re_compiles).
Abbreviation fleet_op := (fleet_op re_search decimal digit re_compiles clean fingerprint alerts_enabled).
Abbreviation fleet_step := (fleet_step re_search decimal digit re_compiles clean fingerprint alerts_enabled).

(** C38: Whatever rules are written, sources overridden or reviewed and inventories synced, in any
    order: rules stay unique per instance, kind and pattern, usable, and never target UNCLASSIFIED;
    the built-in ones keep their kind, pattern, class and priority; a source has one row per
    instance and QRadar id; and every classification is of a stored source, names only a stored
    rule, carries the class of its override where it has one, with who set it and when, and is
    reviewed by someone at some time or not at all. *)
Theorem fleet_kept w w' : seeds_compile re_compiles → rtc fleet_step w w' → kept (fw_db w) → kept (fw_db w').
Proof.
  intros Hseeds H. induction H as [w|w1 w2 w3 (op & Hd & Hop) _ IH]; [done|]. intros Hk. apply IH.
  by apply (fleet_op_kept re_search decimal digit re_compiles Hseeds clean fingerprint alerts_enabled op w1 w2 Hk Hd Hop).
Qed.

(** No request deletes a classification. Its override changes only when a principal with
    [log_source:write] sets or clears the override of that source, and its review only when one
    reviews that source: neither a sync nor a rule change touches them. *)
Theorem operator_columns_kept op w w' id row :
  seeds_compile re_compiles → kept (fw_db w) → drawn op w → fleet_op op w = Ok w' → fd_classes (fw_db w) !! id = Some row →
  ∃ row', fd_classes (fw_db w') !! id = Some row' ∧
    (override_columns row' = override_columns row ∨ overrides op id) ∧ (review_columns row' = review_columns row ∨ reviews op id).
Proof.
  intros Hseeds Hk Hd Hop Hrow.
  by apply (fleet_op_kept re_search decimal digit re_compiles Hseeds clean fingerprint alerts_enabled op w w' Hk Hd Hop).
Qed.

(** The sources a request is about: those of the rule's instance, of every stored instance for a
    global rule, the one overridden. *)
Definition in_reach (op : FleetOp) (w : FleetWorld) (id : uuid) (source : LogSource) : Prop :=
  let rule_reach instance_id :=
    match instance_id with Some i => ls_instance_id source = i | None => is_Some (fd_instances (fw_db w) !! ls_instance_id source) end in
  match op with
  | FO_create _ payload _ _ => rule_reach (rc_instance_id payload)
  | FO_update _ rule_id _ _ | FO_delete _ rule_id _ => ∃ rule, fd_rules (fw_db w) !! rule_id = Some rule ∧ rule_reach (ru_instance_id rule)
  | FO_override _ i _ _ => id = i
  | _ => False
  end.

(** When a rule is created, changed or deleted, or an override set or cleared, the answer comes
    after every source in its reach has the class, the basis, the rule and the conflicts that
    classifying it gives by the rules, types and groups stored then, and the override is the one
    asked for. *)
Theorem change_takes_effect op w w' id source :
  seeds_compile re_compiles → kept (fw_db w) → drawn op w → fleet_op op w = Ok w' →
  fd_sources (fw_db w') !! id = Some source → in_reach op w id source →
  ∃ row, fd_classes (fw_db w') !! id = Some row ∧ fits re_search decimal (fw_db w') source row ∧
    match op with FO_override _ _ override_class _ => cl_override_class row = override_class | _ => True end.
Proof.
  intros Hseeds Hk Hd Hop Hsrc Hreach.
  assert (Hw : ∀ instance_id now, writes_rules re_search decimal digit re_compiles instance_id now w w' →
    match instance_id with Some i => ls_instance_id source = i | None => is_Some (fd_instances (fw_db w) !! ls_instance_id source) end →
    ∃ row, fd_classes (fw_db w') !! id = Some row ∧ fits re_search decimal (fw_db w') source row ∧ True).
  { intros i now (db & Kd & Ei & _ & H) Hr. apply (reclassify_for_rule_fits _ _ digit re_compiles Hseeds) in H as [(E & _) Hf];
      [|apply (kp_rules _ _ _ Kd)].
    destruct (Hf id source Hsrc) as (row & H1 & H2); [|by exists row]. destruct i; [done|]. by rewrite E, Ei. }
  destruct op; cbn [fleet_op] in Hop; cbn [in_reach] in Hreach; [| | | |done|done].
  - by apply (create_rule_writes re_search decimal digit re_compiles) in Hop as Hop%Hw.
  - apply (update_rule_writes re_search decimal digit re_compiles) in Hop as (rule & Hr & Hop); [|done].
    destruct Hreach as (rule' & Hr' & Hreach). assert (rule' = rule) as -> by congruence. by apply Hw in Hop.
  - apply (delete_rule_writes re_search decimal digit re_compiles) in Hop as (rule & Hr & Hop); [|done].
    destruct Hreach as (rule' & Hr' & Hreach). assert (rule' = rule) as -> by congruence. by apply Hw in Hop.
  - subst log_source_id. unfold set_classification_override in Hop. bind_inv Hop. bind_inv Hop. bind_inv Hop. injection Hop as <-.
    destruct r1 as [db applied]. unfold get_source in E0. destruct (fd_sources (fw_db w) !! id) as [ls|] eqn:Els; [|done]. injection E0 as ->.
    apply (reclassify_instance_fits _ _ digit re_compiles Hseeds) in E1 as (_ & (_ & Es & _) & _ & _ & H); [|apply (kp_rules _ _ _ Hk)].
    cbn [fw_db audited with_db fst] in Hsrc |- *. rewrite Es, Els in Hsrc. injection Hsrc as ->.
    destruct (H id source Els) as [(row & H1 & H2 & H3) _]; [split; [done|by left]|]. exists row. split; [done|]. split; [done|].
    rewrite H3. unfold override_of. cbn. by rewrite lookup_singleton_eq.
Qed.

End Requests.

(** ** Errors *)

(** A global rule with the kind and pattern of a shipped one that is not stored yet, which only the
    first classification stores, makes every classification raise: the upsert resolves a conflict on
    the identifier, not on the unique constraint. *)
Theorem early_rule_blocks re_search decimal item rule_id rule instance_id sources types groups new bootstrap now updates actor db :
  item ∈ SEED_RULES → fd_rules db !! sd_id item = None → fd_rules db !! rule_id = Some rule → rule_id ∉ seed_ids →
  same_rule (seed_row item) rule = true →
  ∃ e, classify_sources re_search decimal instance_id sources types groups new bootstrap now updates actor db = Err e.
Proof.
  intros Hi Hnone Hr Hid Hsame. unfold classify_sources, ensure_seed_rules. pose proof seed_ids_distinct as Hn. unfold seed_ids in Hid, Hn.
  assert (H : ∀ items rules, item ∈ items → NoDup (sd_id <$> items) → rules !! sd_id item = None → rules !! rule_id = Some rule →
    rule_id ∉ sd_id <$> items → ∃ e, foldM seed_one rules items = Err e).
  2:{ destruct (H SEED_RULES (fd_rules db)) as [e ->]; [done..|]. by exists e. }
  clear - Hsame. induction items as [|x items IH]; intros rules Hin Hn Hnone Hr Hid; [by apply elem_of_nil in Hin|]. cbn [foldM].
  rewrite fmap_cons in Hn, Hid. apply NoDup_cons in Hn as [Hx Hn]. apply not_elem_of_cons in Hid as [Hne Hid].
  assert (Hput : ∀ row, ∃ r, put_rule (sd_id x) row rules = r ∧ ((∃ e, r = Err e) ∨ r = Ok (<[sd_id x := row]> rules) ∧ taken rules (sd_id x) row = false)).
  { intros row. unfold put_rule. destruct (taken _ _ _) eqn:E; eexists; (split; [reflexivity|]); [left; by eexists|by right]. }
  apply elem_of_cons in Hin as [<-|Hin].
  - unfold seed_one. rewrite Hnone. destruct (Hput (seed_row item)) as (r & -> & [[e ->]|[-> Ht]]); [by exists e|].
    rewrite (taken_false _ _ _ Ht rule_id rule) in Hsame; [done|done|by intros ->].
  - assert (Hne' : sd_id x ≠ sd_id item) by (intros E; apply Hx; rewrite E; by apply list_elem_of_fmap_2).
    assert (Hstep : ∀ row, ∃ e, (acc' <- put_rule (sd_id x) row rules ;; foldM seed_one acc' items) = Err e).
    { intros row. destruct (Hput row) as (r & -> & [[e ->]|[-> _]]); [by exists e|]. cbn [res_bind].
      apply IH; [done..|by rewrite lookup_insert_ne|by rewrite lookup_insert_ne|done]. }
    unfold seed_one. destruct (rules !! sd_id x) as [a|]; [|apply Hstep]. destruct (ru_built_in a); [apply Hstep|]. cbn [res_bind]. by apply IH.
Qed.

(** A change of the class of a rule to null is answered as a duplicate, where the null of every other
    column that has none is refused by its name. *)
Theorem null_class_is_duplicate re_search decimal digit re_compiles principal rule_id rule changes now w :
  check_update changes = Ok tt → has principal PERM_CLASSIFICATION_ADMIN = true → fd_rules (fw_db w) !! rule_id = Some rule →
  check_changes digit re_compiles rule changes = Ok tt → up_target_class changes = Some None →
  update_rule re_search decimal digit re_compiles principal rule_id changes now w = Err duplicate_rule.
Proof.
  intros H1 H2 H3 H4 H5. unfold update_rule, require_permission, get_rule, changed_rule. rewrite H1, H2, H3. cbn [res_bind raise_if negb].
  by rewrite H4, H5.
Qed.

(** ** Concrete inputs *)

Module FleetExample.
Definition search0 (pattern value : text) : option bool := Some (bool_decide (pattern = value)).
Definition decimal0 (c : N) : option Z := if ((48 <=? c) && (c <=? 57))%N then Some (Z.of_N c - 48) else None.
Definition digit0 (c : N) : bool := is_some_b (decimal0 c).
Definition compiles0 (_ : text) : bool := true.
Definition clean0 (t : text) : text := t.
Definition fingerprint0 (i : uuid) (q : Z) : string := "inventory:" +:+ pretty i +:+ ":" +:+ pretty q.
Definition clock0 (n : nat) : datetime := DT (Z.of_nat n) true.
Definition race0 (_ : nat) (l : list Alert) : list Alert := l.

Definition qradar : QRadarInstance :=
  {| qi_name := ascii_text "default"; qi_status := IS_UNKNOWN; qi_version := None; qi_last_health_check_at := None; qi_last_error := None |}.
Definition db0 : FleetDb :=
  {| fd_instances := {[1%N := qradar]}; fd_rules := ∅; fd_sources := ∅; fd_types := ∅; fd_groups := ∅; fd_classes := ∅ |}.
Definition w0 : FleetWorld := {| fw_db := db0; fw_alerts := {| as_rows := []; as_committed := []; as_ticks := 0 |}; fw_audit := [] |}.

Definition columns0 (name : string) (groups : list Z) : Mirrored :=
  {| mi_name := ascii_text name; mi_description := None; mi_type_id := Some 7; mi_type_name := None; mi_protocol_type_id := None;
     mi_enabled := true; mi_status := None; mi_credibility := None; mi_target_event_collector_id := None; mi_last_event_time := None;
     mi_created_at := None; mi_modified_at := None; mi_auto_discovered := Some true; mi_group_ids := Some groups; mi_identifier := None;
     mi_internal := None |}.
(** Group 20 lies in group 10, which lies in the root. *)
Definition provider0 (sources : list LogSourceDTO) (groups : Answer (list LogSourceGroupDTO)) : Provider :=
  {| pv_info := Answered {| ii_version := None; ii_reachable := true |};
     pv_types := Answered [{| td_type_id := 7; td_name := ascii_text "LEEF"; td_internal := false |}];
     pv_groups := groups; pv_sources := Answered sources |}.
Definition listing : Answer (list LogSourceGroupDTO) :=
  Answered [{| gd_qradar_id := 10; gd_parent_qradar_id := Some 0 |}; {| gd_qradar_id := 20; gd_parent_qradar_id := Some 10 |}].
Definition outage : Answer (list LogSourceGroupDTO) := ProviderError "ProviderUnavailableError" "groups unavailable".
Definition first : LogSourceDTO := {| do_qradar_id := 1; do_columns := columns0 "edge" [20] |}.
Definition second : LogSourceDTO := {| do_qradar_id := 2; do_columns := columns0 "core" [] |}.

Definition admin : Principal :=
  {| pr_subject := ascii_text "ops"; pr_email := None; pr_permissions := [PERM_ADMIN]; pr_username := None; pr_auth_source := None;
     pr_must_change_password := false; pr_roles := []; pr_user_id := None |}.
Definition group_rule : RuleCreate :=
  {| rc_instance_id := Some 1%N; rc_kind := RK_GROUP; rc_pattern := ascii_text "10"; rc_target_class := SC_WAF; rc_priority := 100;
     rc_enabled := true; rc_description := None |}.

Definition sync_with (drawn_from : N) (sources : list LogSourceDTO) (groups : Answer (list LogSourceGroupDTO)) : FleetOp :=
  FO_sync clock0 race0 (provider0 sources groups) 1%N qradar 5 (λ q, (drawn_from + N.pos (encode q))%N).

Definition op (o : FleetOp) (w : FleetWorld) : result FleetWorld :=
  fleet_op search0 decimal0 digit0 compiles0 clean0 fingerprint0 true o w.
Definition after (o : FleetOp) (w : FleetWorld) : FleetWorld := match op o w with Ok w' => w' | Err _ => w end.

Definition create_group_rule : FleetOp := FO_create admin group_rule 500%N 6.
(** A first sync, a rule on group 10, and a sync whose listing of groups fails. *)
Definition w1 : FleetWorld := after (sync_with 100 [first] listing) w0.
Definition w2 : FleetWorld := after create_group_rule w1.
Definition w3 : FleetWorld := after (sync_with 1000 [first; second] outage) w2.

(** The source that was drawn for QRadar's 1. *)
Definition edge : uuid := (100 + N.pos (encode 1%Z))%N.
Definition class_of (w : FleetWorld) (id : uuid) : option SourceClass := cl_source_class <$> fd_classes (fw_db w) !! id.

Lemma seeds0 : seeds_compile compiles0.
Proof. apply Forall_forall. done. Qed.

Lemma step1 : op (sync_with 100 [first] listing) w0 = Ok w1.
Proof. vm_compute. reflexivity. Qed.
Lemma step2 : op create_group_rule w1 = Ok w2.
Proof. vm_compute. reflexivity. Qed.
Lemma step3 : op (sync_with 1000 [first; second] outage) w2 = Ok w3.
Proof. vm_compute. reflexivity. Qed.

Lemma kept0 : kept digit0 compiles0 (fw_db w0).
Proof.
  constructor; [constructor|..]; cbn; intros i; [intros j a b Ha|intros a Ha|intros a Ha|intros a Ha|intros j s t Hs|intros row Hrow];
    by rewrite lookup_empty in *.
Qed.

Lemma drawn_inj n : Inj (=) (=) (λ q : Z, (n + N.pos (encode q))%N).
Proof. intros a b H. assert (encode a = encode b) as E by lia. by apply encode_inj in E. Qed.

Lemma drawn1 : drawn (sync_with 100 [first] listing) w0.
Proof. split; [apply drawn_inj|]. intros q. apply lookup_empty. Qed.
Lemma drawn2 : drawn create_group_rule w1.
Proof. cbn. apply (bool_decide_eq_true_1 (500%N ∉ seed_ids)). vm_compute. reflexivity. Qed.
Lemma sources2 : ∃ s, fd_sources (fw_db w2) = {[edge := s]}.
Proof. eexists. vm_compute. reflexivity. Qed.
Lemma drawn3 : drawn (sync_with 1000 [first; second] outage) w2.
Proof.
  split; [apply drawn_inj|]. intros q. destruct sources2 as [s ->]. apply lookup_singleton_ne. unfold edge.
  change (encode 1%Z) with 2%positive. lia.
Qed.

Lemma kept1 : kept digit0 compiles0 (fw_db w1).
Proof. by apply (fleet_op_kept search0 decimal0 digit0 compiles0 seeds0 clean0 fingerprint0 true _ w0 w1 kept0 drawn1 step1). Qed.
Lemma kept2 : kept digit0 compiles0 (fw_db w2).
Proof. by apply (fleet_op_kept search0 decimal0 digit0 compiles0 seeds0 clean0 fingerprint0 true _ w1 w2 kept1 drawn2 step2). Qed.

(** The row of the source, and what the third step's sync ends with. *)
Lemma stored_rows : is_Some (fd_classes (fw_db w2) !! edge) ∧ is_Some (fd_sources (fw_db w2) !! edge) ∧ is_Some (fd_sources (fw_db w3) !! edge).
Proof. repeat split; apply (bool_decide_eq_true_1 (is_Some _)); vm_compute; reflexivity. Qed.
End FleetExample.

Import FleetExample.

(** A source of a child group, and a rule on the parent group. *)
Lemma fleet_kept_witness : kept digit0 compiles0 (fw_db w2) ∧ class_of w1 edge = Some SC_UNCLASSIFIED ∧ class_of w2 edge = Some SC_WAF.
Proof.
  split; [|split; vm_compute; reflexivity].
  apply (fleet_kept search0 decimal0 digit0 compiles0 clean0 fingerprint0 true w0 w2 seeds0); [|exact kept0].
  apply (rtc_l _ w0 w1 w2); [exists (sync_with 100 [first] listing); exact (conj drawn1 step1)|].
  apply rtc_once. exists create_group_rule. exact (conj drawn2 step2).
Defined.

Lemma operator_columns_kept_witness : ∃ row row', fd_classes (fw_db w2) !! edge = Some row ∧ fd_classes (fw_db w3) !! edge = Some row' ∧
  override_columns row' = override_columns row ∧ review_columns row' = review_columns row.
Proof.
  destruct stored_rows as ([row Hrow] & _).
  destruct (operator_columns_kept search0 decimal0 digit0 compiles0 clean0 fingerprint0 true _ w2 w3 edge row seeds0 kept2 drawn3 step3 Hrow)
    as (row' & Hrow' & [E1|[]] & [E2|[]]).
  exists row, row'. exact (conj Hrow (conj Hrow' (conj E1 E2))).
Defined.

Lemma change_takes_effect_witness : ∃ source row, fd_sources (fw_db w2) !! edge = Some source ∧ fd_classes (fw_db w2) !! edge = Some row ∧
  fits search0 decimal0 (fw_db w2) source row.
Proof.
  destruct stored_rows as (_ & [source Hs] & _).
  assert (Hi : ls_instance_id source = 1%N).
  { assert (E : ls_instance_id <$> fd_sources (fw_db w2) !! edge = Some 1%N) by (vm_compute; reflexivity). rewrite Hs in E. by injection E. }
  destruct (change_takes_effect search0 decimal0 digit0 compiles0 clean0 fingerprint0 true _ w1 w2 edge source seeds0 kept1 drawn2 step2 Hs Hi)
    as (row & Hrow & Hfit & _).
  exists source, row. exact (conj Hs (conj Hrow Hfit)).
Defined.


(** A global rule for "dns", made before any instance is stored: every sync raises until it goes. *)
Lemma early_rule_blocks_witness : ∃ w e, op (FO_create admin
    {| rc_instance_id := None; rc_kind := RK_NAME_REGEX; rc_pattern := ascii_text "\bdns\b"; rc_target_class := SC_OTHER; rc_priority := 1;
       rc_enabled := true; rc_description := None |} 500%N 6)
    (with_db {| fd_instances := ∅; fd_rules := ∅; fd_sources := ∅; fd_types := ∅; fd_groups := ∅; fd_classes := ∅ |} w0) = Ok w ∧
  classify_sources search0 decimal0 1%N [] [] [] ∅ true 7 None None (fw_db w) = Err e.
Proof.
  set (item := seed_rule 107 RK_NAME_REGEX "\bdns\b" SC_DNS "Site name token: dns").
  set (rule := {| ru_instance_id := None; ru_kind := RK_NAME_REGEX; ru_pattern := ascii_text "\bdns\b"; ru_target_class := SC_OTHER;
                  ru_priority := 1; ru_enabled := true; ru_built_in := false; ru_description := None; ru_created_by := Some (ascii_text "ops") |}).
  eexists.
  match goal with |- ∃ e, ?o = Ok ?w ∧ _ => unify w (match o with Ok x => x | Err _ => w0 end) end.
  match goal with |- ∃ e, _ ∧ classify_sources _ _ _ _ _ _ _ _ _ _ _ ?d = _ =>
    destruct (early_rule_blocks search0 decimal0 item 500%N rule 1%N [] [] [] ∅ true 7 None None d) as [e He] end.
  - unfold SEED_RULES, NAME_RULES. apply elem_of_app. right. apply list_elem_of_lookup. exists 7%nat. vm_compute. reflexivity.
  - vm_compute. reflexivity.
  - vm_compute. reflexivity.
  - apply (bool_decide_eq_true_1 (500%N ∉ seed_ids)). vm_compute. reflexivity.
  - vm_compute. reflexivity.
  - exists e. split; [vm_compute; reflexivity|exact He].
Defined.
